(* ===== verification/_CoqProject ===== *)
-Q . S2P
Prelude.v
Datetime.v
Dec.v
DecVal.v
Domain.v
StateDb.v
Writer.v
WriterInv.v
WriterOps.v
WriterProps.v
EventProps.v
ReconProps.v
Reader.v
Health.v
Martingale.v
DigitConfig.v
Risk.v
RiskProps.v
Coordinator.v
CoordProps.v
DispatchProps.v
Reconciliation.v
AttemptProps.v
BrokerEvents.v
Runtime.v
CoreHistory.v
CycleProps.v
LedgerProps.v
Json.v
Protocol.v
WorkerClient.v
ProtocolProps.v
PyFloat.v
Breaker.v
RingBuffer.v
Catalog.v
CatalogProps.v
Arbiter.v
ArbiterProps.v
DerivJson.v
DerivTransport.v
DerivSession.v
DerivRecon.v
DerivTransportProps.v
DerivProps.v
DerivEventProps.v
FloatOrder.v
IqSafety.v
IqValues.v
CentsText.v
Market.v
IqTransport.v
IqSession.v
IqRecon.v
IqTransportProps.v
IqProps.v
Differs.v
Candles.v
CandleProps.v
MarketHealth.v
MarketHealthProps.v
DerivPump.v
Backfill.v
BackfillProps.v
MarketScheduler.v
SchedulerProps.v
MarketSamples.v
LiveCandles.v
LiveRuntime.v
LiveProps.v
TickRouter.v
RouterProps.v
LiveSamples.v
ShadowService.v
ShadowHost.v
HostProps.v
ShadowSamples.v
AutoTrader.v
TraderFrame.v
TraderProps.v
