(* ===== verification/Prelude.v ===== *)
(** * Trading Lab Desktop: verification development

    The program is a desktop system for trading short contracts at two brokers.
    A core process owns the money: it decides whether an order may enter, reserves
    risk, persists the order together with its outbox message in one SQLite
    transaction, dispatches the message to a broker worker, applies the events and
    the reconciliation evidence that come back, and after a crash finds out what
    may have been sent.  This development models that core and proves what it
    promises about orders, reservations and realized results.

    ** Files

    - [Prelude] (this file): functional record update, the exceptions of the code,
      the error monad [res], the transactional monad [st] (an exception loses the
      writes) and the object monad [py] (an exception keeps them), Python string
      functions, SQL-like operations on tables as lists, stable sorting.
    - [Datetime]: aware datetimes, [isoformat] and [fromisoformat], and that the text
      order of stored UTC timestamps is their order in time.
    - [Dec], [DecVal]: Python's [decimal] (28 digits) and its value in Q with error
      bounds.
    - [Domain]: [packages/domain/models.py]: constructors with their checks, payload
      encoders and decoders and their round trips.
    - [StateDb], [Writer]: [packages/persistence/migrations.py] and [writer.py]: one
      record per table row, the constraints of the schema, one definition per
      transaction of [SingleDatabaseWriter]; [inject] is the fault injector.
    - [WriterInv], [WriterOps]: a Hoare logic for the transactions, the invariant of
      the database and its preservation by every operation.
    - [WriterProps], [EventProps], [ReconProps]: theorems about every database that a
      history of writer calls can reach ([db_after]).
    - [Reader]: [packages/persistence/reader.py].
    - [Health]: [apps/core/health.py] and [packages/persistence/health.py].
    - [Martingale], [DigitConfig]: [packages/portfolio_allocation/martingale.py] and
      [apps/core/digit_risk_config.py].
    - [Risk], [RiskProps]: [apps/core/risk.py]; the state [core] is the ledger, the
      gate and the writer together.
    - [Coordinator], [CoordProps], [DispatchProps]: [apps/core/coordinator.py],
      [apps/core/recovery.py] and the startup configuration of [apps/core/runtime.py].
    - [Reconciliation], [AttemptProps]: [apps/core/reconciliation.py] and
      [reconciliation_scheduler.py]: the query loop with its attempts, the cycle over
      all candidates, the pacing of cycles.
    - [BrokerEvents], [Runtime]: [apps/core/broker_events.py] and the startup, the
      operator's calls and the end of a cycle of [apps/core/runtime.py].
    - [CoreHistory]: the calls of the whole core, with crashes, as histories of writer
      calls, and the submissions that its orders come from; [CycleProps], [LedgerProps]:
      cycles, the pump and the ledger along such runs.
    - [Json]: the text format of Python's [json], printer, parser and round trip.
    - [Protocol], [WorkerClient], [ProtocolProps]: [packages/protocol] (frames,
      envelopes, order messages) and [apps/core/worker_client.py].
    - [PyFloat]: Python's [float] by the executable specification of the Standard
      Library, with [repr] as a decimal.
    - [Breaker]: [apps/core/resilience/circuit_breakers.py]; [RingBuffer]:
      [packages/market_data/tick_ring_buffer.py].
    - [Catalog], [CatalogProps]: [packages/strategy_catalog] (manifests, validation
      evidence, the catalog) and [packages/persistence/validation_repository.py].
    - [Arbiter], [ArbiterProps]: [packages/signal_arbitration] and
      [packages/portfolio_allocation/allocator.py].
    - [DerivJson], [DerivTransport], [DerivTransportProps]: the documents and the
      WebSocket client of [apps/deriv_worker], with the checks of outbound requests, the
      reader and the watchdog.
    - [DerivSession], [DerivRecon], [DerivProps], [DerivEventProps]: the order session,
      the status query and the order requests of the server of [apps/deriv_worker], over
      any transport (the class [DerivReadTransport]); the WebSocket client is one
      instance, a transport that logs its requests another.
    - [FloatOrder]: the order of floats; [CentsText]: the texts of amounts read back.
    - [IqSafety], [IqValues], [Market]: [apps/core/iqoption_connection_safety.py], the
      values of [packages/brokers/iqoption/validators.py] and [packages/domain/market.py].
    - [IqTransport], [IqTransportProps], [IqSession], [IqRecon], [IqProps]: the IQ Option
      connection of [packages/brokers/iqoption/community_read_only.py], the server of
      [apps/iqoption_connection_worker], and the order session and the status query of
      [apps/iqoption_worker].
    - [Differs]: [apps/core/payout_routed_differs.py].
    - [Candles], [CandleProps]: [packages/market_data] (candles, the store in memory, the
      ingress) and [packages/persistence/candle_repository.py], with the abstract store
      that both refine.
    - [MarketHealth], [MarketHealthProps]: health gate, trusted horizon and planner of
      [packages/market_pipeline]; [DerivPump]: the candle history of
      [packages/brokers/deriv].
    - [Backfill], [BackfillProps]: dispatcher and recovery coordinator of
      [packages/market_pipeline]; [MarketScheduler], [SchedulerProps]: its scheduler.
    - [LiveCandles], [LiveRuntime], [LiveProps], [TickRouter], [RouterProps]: the tick
      aggregator, the live runtime and the shared tick router of
      [packages/market_pipeline/live.py] and [live_router.py].
    - [ShadowService], [ShadowHost], [HostProps]: [apps/core/shadow_runtime.py] and
      [apps/core/shadow_host.py], with the crash circuit breaker of
      [apps/core/worker_supervisor.py].  Source, job, parts of a service and hosted
      services are classes; router, recovery, runtime and service are their instances.
    - [AutoTrader]: [apps/core/deriv_auto_trader.py] with the projections it reads; all its
      collaborators are the class [TraderWorld].  [TraderFrame]: what each part leaves
      alone, and the instance that records every call.  [TraderProps]: the theorems, and
      the instance [desk_world] over the modelled core.
    - [MarketSamples], [LiveSamples], [ShadowSamples]: runs of the market pipeline on
      concrete candles and ticks.

    ** What the theorems show

    - Of every reachable store: a reservation is released exactly when its order is
      terminal, and once; an account has one open order; a terminal order is final;
      no message is handed out twice; the exposure never exceeds the limit.
    - Of the writer's operations: submission is all or nothing; a broker event or a
      piece of evidence takes effect only on the order it describes, and a refused
      one changes no books; an absent order is finalized only after two confirmations.
    - Of the gate, the ledger and the allocator: who may enter, why not, and which
      stakes and reservations are within which limits.
    - Of the core: every run of it is a history of writer calls, so that all of the
      above holds of it; each order comes from a submission that the authorizer, the
      gate, the ledger and the limits admitted; a claimed command is always settled, an
      ambiguous one closes the gate; a recovery leaves nothing ambiguous unnoticed;
      reconciling an order ends with an answer and leaves no attempt open; the gate does
      not reopen over an unanswered question; the ledger counts every settlement of the
      pump once, except those that a reconciliation after a gap books.
    - Of the wire: frames and envelopes arrive as they were sent, however the stream
      is split; a command of which a byte was sent is answered, or its order is
      UNKNOWN and its account closed; a repeated message is recognised.
    - Of the strategies: code is released only after all its validation stages; a
      market is arbitrated once and only on agreeing live signals; an allocation is
      within every budget; the ring buffer is the plain window of the last ticks; an open
      breaker lets one probe through.
    - Of the Deriv worker: it sends only permitted documents, and a request gets the
      answer to its own id; a submission buys at most once and reports what became of
      it; evidence is what the broker sent, absence is reported only after a complete
      search; the events of a contract are numbered upwards and say what the messages
      say; a silent connection is given up.
    - Of the IQ Option worker: an order leaves only for a Practice account, at most one
      per submission, and carries exactly the stake; a settlement is reported; evidence
      is the broker's record of that order; logins and reconnects are bounded.
    - Of the payout-routed session: it stops in time, keeps its message budget and
      selects only fresh quotes that pay.
    - Of the automatic trader: an order is entered only with every guard passed, for a fresh
      signal with the demanded edge, one at a time and once for a signal.  Examples show where
      it falls short (a resume that a reload undoes, a probe that is waited for in vain, a
      stale pin, a confidence without effect, an assertion that ends the thread).
    - Of the market pipeline: the two candle stores agree with one abstract store; a
      series is open only after a recovery of its current connection; a recovery that
      succeeds leaves gapless candles up to the horizon; what reaches the decision
      pipeline is stored and carries no permission to trade; a closed candle sums up its
      ticks; the router hands the ticks of a series to it in order and counts those that it
      drops while the series is subscribed; the host
      polls every running series and survives failing ones; no worker is left behind.
      Where the code falls short, the theorem or the example says so (a crowded tick, one
      page, a short history, a partial first candle, a series closed by a gap, a reconnect
      between the two locked sections of a completion).

    ** Bounds and parameters

    Integers are Python's, unbounded.  Recursion is structural, except the digit
    count, the power and the trailing-zero removal of [Dec], whose fuel is the size
    of the number, and the JSON parser, whose fuel is the length of the text.  The
    nesting that the JSON decoder accepts before [RecursionError] is the argument
    [depth]; an [int] has at most 4300 digits in text.  The shortest decimal of a float is
    searched up to 17 digits, which always suffice.  SHA-256 digests (of which
    [ArbiterProps] uses that they are not blank), fresh identifiers, clock readings, the
    broker workers, the connection of a WebSocket client, the HTTP login of IQ Option and
    the frames it receives, the sources of candles and ticks, jitter, resource probes and
    the power of floats in the retry delay, and the fault injector are parameters of the
    definitions.  The loops over pages and entries are bounded by the code's own limits.

    ** Not modelled

    The SQLite engine (its semantics is the tables and constraints of [StateDb]),
    threads and locks (the writer serializes transactions; a lock that is taken twice is
    modelled in [Catalog]; the frames that a reader thread handles during a request are an
    argument in [DerivTransport]; calls on the health gate during a request for history are
    an argument in [Backfill]; other calls, such as an evaluation of the trader, are single
    steps), sockets (a connection is
    the list of what [recv] returns, a write is how much of it was sent), processes,
    JSON text outside ASCII, the exponent limits of [decimal], the user interface, the
    market data sessions of the workers, the loop of the trader's thread and its texts, the
    IQ Option trader, the scores of the strategies, replay, cryptography, event emission for logs,
    and the research tools. *)

From stdpp Require Export base list strings gmap sorting.
From Stdlib Require Export ZArith Lia.

#[global] Open Scope string_scope.
#[global] Open Scope list_scope.
#[global] Open Scope Z_scope.

(** ** Functional record update

    Rows of the database and in-memory objects are records with many fields and
    the code updates a few of them at a time ([UPDATE t SET a = ?, b = ?],
    [replace(order, state=...)], [self._x = ...]).  [r <| f := v |>] is the record
    [r] with field [f] set to [v], [r <| f ::= g |>] applies [g] to the field.  A
    record type takes part by declaring its eta expansion as an [Eta] instance. *)

Class Eta (R : Type) := eta_of : R -> R.
Class Setter {R E : Type} (proj : R -> E) := set_field : (E -> E) -> R -> R.
#[global] Arguments set_field {R E} proj {_} _ _ /.

Ltac build_setter :=
  lazymatch goal with
  | |- @Setter ?R ?E ?proj =>
      let e := constr:(_ : Eta R) in
      let e := eval hnf in e in
      lazymatch (eval pattern proj in e) with
      | (fun _ => ?b) _ => fail "the projection does not occur in the eta expansion"
      | ?upd _ =>
          let u := eval cbv beta in (fun f : E -> E => upd (fun r => f (proj r))) in
          exact u
      end
  end.
#[global] Hint Extern 1 (@Setter _ _ _) => build_setter : typeclass_instances.

Declare Scope tlab_scope.
Delimit Scope tlab_scope with tlab.
#[global] Open Scope tlab_scope.

Notation "r <| p := v |>" := (set_field p (fun _ => v) r)
  (at level 1, left associativity, p at level 0, format "r  <| p  :=  v |>") : tlab_scope.
Notation "r <| p ::= f |>" := (set_field p f r)
  (at level 1, left associativity, p at level 0, format "r  <| p  ::=  f |>") : tlab_scope.

(** ** Python exceptions

    One value per exception class the modelled code raises.  Constant messages
    and reason codes are kept; interpolated texts are not. *)

Inductive DerivErrorCategory : Type :=
| AUTH_FAILED | RATE_LIMITED | INVALID_REQUEST | SCHEMA_INCOMPATIBLE | NETWORK_ERROR | SERVER_ERROR
| SUBSCRIPTION_ERROR | ACCOUNT_MODE_FORBIDDEN.

#[export] Instance DerivErrorCategory_eq_dec : EqDecision DerivErrorCategory.
Proof. solve_decision. Defined.

Inductive IQOptionErrorCategory : Type :=
| IQ_NETWORK_ERROR | IQ_ACCOUNT_MODE_FORBIDDEN | IQ_VALIDATION_ERROR | IQ_PROTOCOL_ERROR | IQ_ORDER_REJECTED
| IQ_RECONCILIATION_ERROR.

#[export] Instance IQOptionErrorCategory_eq_dec : EqDecision IQOptionErrorCategory.
Proof. solve_decision. Defined.

Inductive exn : Type :=
| ValueError (msg : string)
| TypeError (msg : string)
| RuntimeError (msg : string)
| AssertionError (msg : string)
| IndexError
| KeyError
| InvalidOperation (* decimal.InvalidOperation *)
| OverflowError
| IntegrityError (columns : string) (* sqlite3.IntegrityError *)
| PersistenceError (msg : string)
| RiskLimitExceededError (reason_code : string)
| DatabaseWriteError
| AccountBusyError
| InvalidOrderTransition
| ReservationReleaseBlocked
| ProtocolError (code : string)
| StrategyCatalogError (reason_code : string)
| DerivWorkerError (category : DerivErrorCategory) (reason_code : string)
| OSError (msg : string)
| TimeoutError (* a subclass of OSError *)
| RecursionError
| WebSocketException (* of the websockets library *)
| IQOptionWorkerError (category : IQOptionErrorCategory) (reason_code : string)
| IQOptionExternalError (reason_code : string)
| IQOptionConnectionSafetyStateError (msg : string)
| StrategyDataError (msg : string)
| CandleConflictError (msg : string) (* a subclass of StrategyDataError *)
| CandleStoreFullError
| DerivCandlePumpError (reason_code : string)
| ExecutionCapabilityError (reason_code : string)
| SharedMarketTickRoutingError (reason_code : string)
| SharedMarketTickBackpressure (reason_code : string)
| InjectedFault (stage : string).

#[export] Instance exn_eq_dec : EqDecision exn.
Proof. solve_decision. Defined.

(** ** The result and state monads

    [res A] is a computation that returns or raises, [st S A] one that also
    threads a mutable state.  A raise discards the state: the only handlers of
    the modelled code either roll the state back or run before any write. *)

Inductive res (A : Type) : Type :=
| Ok (a : A)
| Err (e : exn).
#[global] Arguments Ok {A} a.
#[global] Arguments Err {A} e.

#[export] Instance res_eq_dec {A} `{EqDecision A} : EqDecision (res A).
Proof. solve_decision. Defined.

#[export] Instance res_ret : MRet res := @Ok.
#[export] Instance res_bind : MBind res := fun A B f m =>
  match m with Ok a => f a | Err e => Err e end.
#[export] Instance res_fmap : FMap res := fun A B f m =>
  match m with Ok a => Ok (f a) | Err e => Err e end.

Definition guard_res (b : bool) (e : exn) : res unit := if b then Ok tt else Err e.

Definition st (S A : Type) : Type := S -> res (A * S).

#[export] Instance st_ret {S} : MRet (st S) := fun A a s => Ok (a, s).
#[export] Instance st_bind {S} : MBind (st S) := fun A B f m s =>
  match m s with Ok (a, s') => f a s' | Err e => Err e end.

Definition st_raise {S A} (e : exn) : st S A := fun _ => Err e.
Definition st_gets {S A} (f : S -> A) : st S A := fun s => Ok (f s, s).
Definition st_modify {S} (f : S -> S) : st S unit := fun s => Ok (tt, f s).
Definition st_lift {S A} (r : res A) : st S A := fun s =>
  match r with Ok a => Ok (a, s) | Err e => Err e end.
Definition st_guard {S} (b : bool) (e : exn) : st S unit :=
  if b then mret tt else st_raise e.

(** [try: m except e: h] for a body that raises before it writes: the handler
    runs on the state the body started from. *)
Definition st_catch {S A} (m : st S A) (e : exn) (h : st S A) : st S A := fun s =>
  match m s with
  | Ok r => Ok r
  | Err e' => if bool_decide (e' = e) then h s else Err e'
  end.

(** [for x in l: f x], threading the state. *)
Fixpoint st_for {S A} (f : A -> st S unit) (l : list A) : st S unit :=
  match l with
  | [] => mret tt
  | x :: l' => f x ≫= (fun _ => st_for f l')
  end.

(** In-memory objects keep the writes made before an exception: the state is
    returned on both outcomes. *)
Definition py (S A : Type) : Type := S -> res A * S.

#[export] Instance py_ret {S} : MRet (py S) := fun A a s => (Ok a, s).
#[export] Instance py_bind {S} : MBind (py S) := fun A B f m s =>
  match m s with (Ok a, s') => f a s' | (Err e, s') => (Err e, s') end.

Definition py_raise {S A} (e : exn) : py S A := fun s => (Err e, s).
Definition py_gets {S A} (f : S -> A) : py S A := fun s => (Ok (f s), s).
Definition py_modify {S} (f : S -> S) : py S unit := fun s => (Ok tt, f s).
Definition py_lift {S A} (r : res A) : py S A := fun s => (r, s).
Definition py_guard {S} (b : bool) (e : exn) : py S unit := if b then mret tt else py_raise e.

(** [try: m except ...: h]: [h] gives the handler of an exception, if there is one. *)
Definition py_try {S A} (m : py S A) (h : exn -> option (py S A)) : py S A := fun s =>
  match m s with
  | (Ok a, s') => (Ok a, s')
  | (Err e, s') => match h e with Some k => k s' | None => (Err e, s') end
  end.

(** [try: m finally: f] *)
Definition py_finally {S A} (m : py S A) (f : S -> S) : py S A := fun s => let '(r, s) := m s in (r, f s).

(** [tuple(f(x) for x in l)]: in order, an exception ends the comprehension. *)
Fixpoint py_map {S A B} (f : A -> py S B) (l : list A) : py S (list B) :=
  match l with
  | [] => mret []
  | x :: l' => y ← f x; ys ← py_map f l'; mret (y :: ys)
  end.

(** [for x in l: f(x)] *)
Fixpoint py_for {S A} (f : A -> py S unit) (l : list A) : py S unit :=
  match l with
  | [] => mret tt
  | x :: l' => _ ← f x; py_for f l'
  end.

(** A call on a part of the state: [get] reads the part, [put] writes it back. *)
Definition py_zoom {S T A} (get : S -> T) (put : T -> S -> S) (m : py T A) : py S A := fun s =>
  let '(r, t) := m (get s) in (r, put t s).

(** ** Python strings

    Text is ASCII: [strip], [upper] and [isalpha] act on the ASCII character
    classes of [str]. *)

Definition is_space (c : Ascii.ascii) : bool :=
  let n := Ascii.nat_of_ascii c in
  ((9 <=? n) && (n <=? 13) || (28 <=? n) && (n <=? 32))%nat.

Definition ascii_upper (c : Ascii.ascii) : Ascii.ascii :=
  let n := Ascii.nat_of_ascii c in
  if ((97 <=? n) && (n <=? 122))%nat then Ascii.ascii_of_nat (n - 32) else c.

Definition is_alpha (c : Ascii.ascii) : bool :=
  let n := Ascii.nat_of_ascii c in
  ((65 <=? n) && (n <=? 90) || (97 <=? n) && (n <=? 122))%nat.

Fixpoint lstrip (s : string) : string :=
  match s with
  | String c s' => if is_space c then lstrip s' else s
  | EmptyString => EmptyString
  end.

Fixpoint rstrip (s : string) : string :=
  match s with
  | String c s' =>
      match rstrip s' with
      | EmptyString => if is_space c then EmptyString else String c EmptyString
      | r => String c r
      end
  | EmptyString => EmptyString
  end.

Definition str_strip (s : string) : string := lstrip (rstrip s).

Fixpoint str_upper (s : string) : string :=
  match s with
  | String c s' => String (ascii_upper c) (str_upper s')
  | EmptyString => EmptyString
  end.

Definition ascii_lower (c : Ascii.ascii) : Ascii.ascii :=
  let n := Ascii.nat_of_ascii c in
  if ((65 <=? n) && (n <=? 90))%nat then Ascii.ascii_of_nat (n + 32) else c.

Fixpoint str_lower (s : string) : string :=
  match s with
  | String c s' => String (ascii_lower c) (str_lower s')
  | EmptyString => EmptyString
  end.

Fixpoint str_forall (p : Ascii.ascii -> bool) (s : string) : bool :=
  match s with
  | String c s' => p c && str_forall p s'
  | EmptyString => true
  end.

(** [s.isalpha()]: non-empty and all letters. *)
Definition str_isalpha (s : string) : bool :=
  negb (s =? "")%string && str_forall is_alpha s.

(** [bool(s.strip())] *)
Definition nonblank (s : string) : bool := negb (str_strip s =? "")%string.

(** [s.startswith(p)] and [s[n:]] *)
Definition str_startswith (p s : string) : bool := String.prefix p s.
Fixpoint str_drop (n : nat) (s : string) : string :=
  match n, s with
  | S n', String _ s' => str_drop n' s'
  | _, _ => s
  end.

(** [p in s] *)
Fixpoint str_contains (p s : string) : bool :=
  String.prefix p s ||
  match s with
  | EmptyString => false
  | String _ s' => str_contains p s'
  end.

(** [s1 <= s2] on [str] and on SQLite's BINARY collation: lexicographic by character. *)
Definition str_leb (s1 s2 : string) : bool := String.leb s1 s2.

Lemma str_leb_total s1 s2 : str_leb s1 s2 = false -> str_leb s2 s1 = true.
Proof. intros H. destruct (String.leb_total s1 s2); unfold str_leb in *; congruence. Qed.

Lemma ascii_compare_lt_trans a b c :
  Ascii.compare a b = Lt -> Ascii.compare b c = Lt -> Ascii.compare a c = Lt.
Proof. unfold Ascii.compare. rewrite !N.compare_lt_iff. lia. Qed.

Lemma str_leb_trans s1 s2 s3 : str_leb s1 s2 = true -> str_leb s2 s3 = true -> str_leb s1 s3 = true.
Proof.
  unfold str_leb, String.leb. revert s2 s3.
  induction s1 as [|a s1 IH]; intros [|b s2] [|c s3]; simpl; try done.
  specialize (IH s2 s3).
  destruct (Ascii.compare a b) eqn:E1; [| |done].
  - apply Ascii.compare_eq_iff in E1 as ->. by destruct (Ascii.compare b c).
  - destruct (Ascii.compare b c) eqn:E2; [| |done].
    + apply Ascii.compare_eq_iff in E2 as <-. by rewrite E1.
    + by rewrite (ascii_compare_lt_trans _ _ _ E1 E2).
Qed.

(** ** SQL tables

    A table is the list of its rows in insertion (rowid) order.  [select] is
    [SELECT ... WHERE], [fetchone] its first row, [update_where] an [UPDATE ...
    WHERE] and [rowcount] the [cursor.rowcount] of that update. *)

Section tables.
Context {R : Type}.
Implicit Types (p : R -> bool) (f : R -> R) (t : list R).

Definition select p t : list R := List.filter p t.
Definition fetchone p t : option R := List.find p t.
Definition update_where p f t : list R := (fun r => if p r then f r else r) <$> t.
Definition rowcount p t : Z := Z.of_nat (length (select p t)).
Definition exists_row p t : bool := existsb p t.

Lemma elem_of_select p t r : r ∈ select p t <-> r ∈ t /\ p r = true.
Proof. unfold select. by rewrite !list_elem_of_In, filter_In. Qed.

Lemma fetchone_Some p t r : fetchone p t = Some r -> r ∈ t /\ p r = true.
Proof. intros H%find_some. by rewrite list_elem_of_In. Qed.

Lemma fetchone_None p t r : fetchone p t = None -> r ∈ t -> p r = false.
Proof. intros H ?%list_elem_of_In. by eapply find_none in H. Qed.

Lemma exists_row_true p t : exists_row p t = true <-> exists r, r ∈ t /\ p r = true.
Proof.
  unfold exists_row. rewrite existsb_exists.
  split; intros (r & ? & ?); exists r; by rewrite list_elem_of_In in *.
Qed.

Lemma exists_row_false p t : exists_row p t = false <-> forall r, r ∈ t -> p r = false.
Proof.
  split.
  - intros H r Hr. destruct (p r) eqn:E; [|done].
    assert (exists_row p t = true) by (apply exists_row_true; eauto). congruence.
  - intros H. destruct (exists_row p t) eqn:E; [|done].
    apply exists_row_true in E as (r & Hr & Hp). by rewrite (H r Hr) in Hp.
Qed.

Lemma elem_of_update_where p f t r' :
  r' ∈ update_where p f t <-> exists r, r ∈ t /\ r' = if p r then f r else r.
Proof.
  unfold update_where. rewrite list_elem_of_fmap. split; intros (r & ? & ?); eauto.
Qed.

Lemma fetchone_snoc p t r : fetchone p t = None -> p r = true -> fetchone p (t ++ [r]) = Some r.
Proof.
  unfold fetchone. intros H Hr. induction t as [|x t IH]; simpl in *; [by rewrite Hr|].
  destruct (p x); [done|auto].
Qed.

Lemma fetchone_update_where p f t :
  (forall r, p r = true -> p (f r) = true) ->
  fetchone p (update_where p f t) = f <$> fetchone p t.
Proof.
  intros Hf. unfold fetchone, update_where. induction t as [|x t IH]; [done|].
  rewrite fmap_cons. simpl. destruct (p x) eqn:E; [by rewrite (Hf x E)|by rewrite E].
Qed.

Lemma length_update_where p f t : length (update_where p f t) = length t.
Proof. apply length_fmap. Qed.

Section key.
Context {K : Type} (key : R -> K).

Lemma update_where_keys p f t :
  (forall r, key (f r) = key r) -> key <$> update_where p f t = key <$> t.
Proof.
  intros Hf. unfold update_where. rewrite <- list_fmap_compose.
  apply list_fmap_ext. intros ? r _. simpl. by destruct (p r).
Qed.

Lemma key_unique t r1 r2 :
  NoDup (key <$> t) -> r1 ∈ t -> r2 ∈ t -> key r1 = key r2 -> r1 = r2.
Proof.
  intros Hnd (i & Hi)%list_elem_of_lookup (j & Hj)%list_elem_of_lookup E.
  assert (i = j) as ->; [|congruence].
  eapply NoDup_lookup; [exact Hnd|..]; rewrite list_lookup_fmap.
  - by rewrite Hi.
  - rewrite Hj. simpl. by f_equal.
Qed.

Lemma key_in t r : r ∈ t -> key r ∈ key <$> t.
Proof. intros. apply list_elem_of_fmap. eauto. Qed.

Lemma NoDup_keys_app t r :
  NoDup (key <$> t) -> (forall r', r' ∈ t -> key r' <> key r) -> NoDup (key <$> t ++ [r]).
Proof.
  intros Hnd Hfresh. rewrite fmap_app. apply NoDup_app. split_and!; [done|..].
  - intros k (r' & -> & Hr')%list_elem_of_fmap.
    intros E%list_elem_of_singleton. by eapply Hfresh.
  - apply NoDup_singleton.
Qed.

Lemma fetchone_key `{EqDecision K} t r :
  NoDup (key <$> t) -> r ∈ t -> fetchone (fun r' => bool_decide (key r' = key r)) t = Some r.
Proof.
  intros Hnd Hr. destruct (fetchone _ t) as [r'|] eqn:E.
  - apply fetchone_Some in E as [Hr' Hk%bool_decide_eq_true]. f_equal.
    by apply (key_unique t).
  - apply (fetchone_None _ _ r) in E; [|done]. by rewrite bool_decide_eq_false in E.
Qed.
End key.
End tables.

#[global] Arguments update_where : simpl never.
#[global] Arguments select : simpl never.
#[global] Arguments fetchone : simpl never.
#[global] Arguments rowcount : simpl never.
#[global] Arguments exists_row : simpl never.

(** ** Sorting: [sorted(...)] and [ORDER BY]

    Insertion sort; stable, as both are. *)

Section sorting.
Context {A : Type} (leb : A -> A -> bool).

Fixpoint insert_by (x : A) (l : list A) : list A :=
  match l with
  | [] => [x]
  | y :: l' => if leb x y then x :: l else y :: insert_by x l'
  end.

Fixpoint sort_by (l : list A) : list A :=
  match l with
  | [] => []
  | x :: l' => insert_by x (sort_by l')
  end.

Lemma insert_by_perm x l : insert_by x l ≡ₚ x :: l.
Proof.
  induction l as [|y l IH]; simpl; [done|]. destruct (leb x y); [done|].
  rewrite IH. constructor.
Qed.

Lemma sort_by_perm l : sort_by l ≡ₚ l.
Proof. induction l as [|x l IH]; simpl; [done|]. by rewrite insert_by_perm, IH. Qed.

Lemma elem_of_sort_by l x : x ∈ sort_by l <-> x ∈ l.
Proof. by rewrite sort_by_perm. Qed.

Section ordered.
Hypothesis leb_total : forall x y, leb x y = false -> leb y x = true.
Hypothesis leb_trans : forall x y z, leb x y = true -> leb y z = true -> leb x z = true.

Lemma insert_by_sorted x l :
  StronglySorted (fun a b => leb a b = true) l ->
  StronglySorted (fun a b => leb a b = true) (insert_by x l).
Proof.
  induction 1 as [|y l Hl IH Hy]; simpl; [by repeat constructor|].
  destruct (leb x y) eqn:E; constructor; auto.
  - by constructor.
  - constructor; [done|]. eapply Forall_impl; [exact Hy|]; simpl; eauto.
  - rewrite insert_by_perm. constructor; auto.
Qed.

Lemma sort_by_sorted l : StronglySorted (fun a b => leb a b = true) (sort_by l).
Proof. induction l; simpl; [constructor|by apply insert_by_sorted]. Qed.

(** The first row of an [ORDER BY] is a minimum of the selection. *)
Lemma sort_by_head_min l x y :
  head (sort_by l) = Some x -> y ∈ l -> y = x \/ leb x y = true.
Proof.
  intros Hx Hy. pose proof (sort_by_sorted l) as Hs.
  rewrite <- elem_of_sort_by in Hy. destruct (sort_by l) as [|z l']; [done|].
  simplify_eq/=. inversion_clear Hs as [|? ? _ Hall].
  apply elem_of_cons in Hy as [->|Hy]; [by left|right].
  rewrite Forall_forall in Hall. auto.
Qed.
End ordered.
End sorting.

(** ** Monad inversion

    [monad_inv H] decomposes a successful run [H : m s = Ok (a, s')] of a
    sequence of statements into the runs of the statements. *)

Lemma res_bind_Ok {A B} (m : res A) (f : A -> res B) b :
  (m ≫= f) = Ok b <-> exists a, m = Ok a /\ f a = Ok b.
Proof.
  destruct m; simpl; split; [by eauto| |done|].
  - by intros (? & [= <-] & ?).
  - by intros (? & ? & _).
Qed.

Lemma st_bind_Ok {S A B} (m : st S A) (f : A -> st S B) s b s'' :
  (m ≫= f) s = Ok (b, s'') <-> exists a s', m s = Ok (a, s') /\ f a s' = Ok (b, s'').
Proof.
  unfold mbind, st_bind. destruct (m s) as [[a s']|e]; split; [by eauto| |done|].
  - by intros (? & ? & [= <- <-] & ?).
  - by intros (? & ? & ? & _).
Qed.

Lemma st_guard_Ok {S} b e (s s' : S) u :
  st_guard b e s = Ok (u, s') <-> b = true /\ s' = s.
Proof.
  unfold st_guard. destruct u, b; split; [by intros [= ->]|by intros [_ ->]|done|by intros [? _]].
Qed.

Lemma st_lift_Ok {S A} (r : res A) (s s' : S) a :
  st_lift r s = Ok (a, s') <-> r = Ok a /\ s' = s.
Proof.
  unfold st_lift. destruct r; split.
  - by intros [= -> ->].
  - by intros [[= ->] ->].
  - done.
  - by intros [? _].
Qed.

Lemma st_ret_Ok {S A} (a b : A) (s s' : S) :
  (mret a : st S A) s = Ok (b, s') <-> b = a /\ s' = s.
Proof. split; [intros [= -> ->]; done|intros [-> ->]; done]. Qed.

Lemma st_gets_Ok {S A} (f : S -> A) (s s' : S) a :
  st_gets f s = Ok (a, s') <-> a = f s /\ s' = s.
Proof. split; [intros [= -> ->]; done|intros [-> ->]; done]. Qed.

Lemma st_modify_Ok {S} (f : S -> S) (s s' : S) u :
  st_modify f s = Ok (u, s') <-> s' = f s.
Proof. destruct u. split; [intros [= ->]; done|intros ->; done]. Qed.

Lemma st_raise_Ok {S A} e (s s' : S) (a : A) : st_raise e s = Ok (a, s') <-> False.
Proof. done. Qed.

Lemma st_catch_Ok {S A} (m : st S A) e h (s : S) r :
  st_catch m e h s = Ok r <-> m s = Ok r \/ (m s = Err e /\ h s = Ok r).
Proof.
  unfold st_catch. destruct (m s) as [[a s']|e'].
  - split; [by left|by intros [?|[? _]]].
  - case_bool_decide as E; split; [by right; subst|by intros [?|[_ ?]]|done|].
    intros [?|[[= ->] _]]; done.
Qed.

Ltac monad_step H :=
  lazymatch type of H with
  | (_ ≫= _) _ = Ok _ =>
      let a := fresh "a" in let s := fresh "s" in let H1 := fresh "H" in
      apply st_bind_Ok in H; destruct H as (a & s & H1 & H); monad_step H1; monad_step H
  | (_ ≫= _) = Ok _ =>
      let a := fresh "a" in let H1 := fresh "H" in
      apply res_bind_Ok in H; destruct H as (a & H1 & H); monad_step H1; monad_step H
  | st_guard _ _ _ = Ok _ => apply st_guard_Ok in H; destruct H as [H ->]
  | st_lift _ _ = Ok _ => apply st_lift_Ok in H; destruct H as [H ->]
  | st_gets _ _ = Ok _ => apply st_gets_Ok in H; destruct H as [-> ->]
  | st_modify _ _ = Ok _ => apply st_modify_Ok in H; subst
  | mret _ _ = Ok _ => apply st_ret_Ok in H; destruct H as [? ->]; simplify_eq
  | st_raise _ _ = Ok _ => by apply st_raise_Ok in H
  | Err _ = Ok _ => discriminate H
  | Ok _ = Ok _ => first [injection H; clear H; intros; subst | clear H]
  | (match ?x with _ => _ end) _ = Ok _ => let E := fresh "E" in destruct x eqn:E; monad_step H
  | (match ?x with _ => _ end) = Ok _ => let E := fresh "E" in destruct x eqn:E; monad_step H
  | _ => idtac
  end.

Ltac monad_inv H := monad_step H; subst.

(** ** Runs of [py] programs

    [runs P m Q E]: from a state in [P], a run of [m] that returns [a] ends in
    [Q a], one that raises [e] ends in [E e]. *)

Definition runs {S A} (P : S -> Prop) (m : py S A) (Q : A -> S -> Prop) (E : exn -> S -> Prop) : Prop :=
  forall s, P s -> match m s with (Ok a, s') => Q a s' | (Err e, s') => E e s' end.

Section runs.
Context {S : Type}.
Implicit Types (P : S -> Prop) (E : exn -> S -> Prop).

Lemma runs_ret {A} (a : A) (Q : A -> S -> Prop) E : runs (Q a) (mret a) Q E.
Proof. by intros s. Qed.

Lemma runs_bind {A B} P (R : A -> S -> Prop) (Q : B -> S -> Prop) E (m : py S A) (k : A -> py S B) :
  runs P m R E -> (forall a, runs (R a) (k a) Q E) -> runs P (m ≫= k) Q E.
Proof.
  intros Hm Hk s HP. specialize (Hm s HP). unfold mbind, py_bind.
  destruct (m s) as [[a|e] s']; [by apply Hk|done].
Qed.

Lemma runs_gets {A} (f : S -> A) P (Q : A -> S -> Prop) E :
  (forall s, P s -> Q (f s) s) -> runs P (py_gets f) Q E.
Proof. intros H s HP. exact (H s HP). Qed.

Lemma runs_modify (f : S -> S) P (Q : unit -> S -> Prop) E :
  (forall s, P s -> Q tt (f s)) -> runs P (py_modify f) Q E.
Proof. intros H s HP. exact (H s HP). Qed.

Lemma runs_raise {A} e P (Q : A -> S -> Prop) E : (forall s, P s -> E e s) -> runs P (py_raise e) Q E.
Proof. intros H s HP. exact (H s HP). Qed.

Lemma runs_guard (b : bool) e P (Q : unit -> S -> Prop) E :
  (forall s, P s -> if b then Q tt s else E e s) -> runs P (py_guard b e) Q E.
Proof. intros H s HP. specialize (H s HP). unfold py_guard. by destruct b. Qed.

Lemma runs_lift {A} (r : res A) P (Q : A -> S -> Prop) E :
  (forall s, P s -> match r with Ok a => Q a s | Err e => E e s end) -> runs P (py_lift r) Q E.
Proof. intros H s HP. specialize (H s HP). unfold py_lift. by destruct r. Qed.

Lemma runs_try {A} (m : py S A) (h : exn -> option (py S A)) P (Q : A -> S -> Prop) E E1 :
  runs P m Q E1 ->
  (forall e, match h e with Some k => runs (E1 e) k Q E | None => forall s, E1 e s -> E e s end) ->
  runs P (py_try m h) Q E.
Proof.
  intros Hm Hh s HP. specialize (Hm s HP). unfold py_try. destruct (m s) as [[a|e] s']; [done|].
  specialize (Hh e). destruct (h e) as [k|]; [by apply Hh|auto].
Qed.

Lemma runs_conseq {A} P P' (Q Q' : A -> S -> Prop) E E' (m : py S A) :
  runs P' m Q' E' -> (forall s, P s -> P' s) -> (forall a s, Q' a s -> Q a s) ->
  (forall e s, E' e s -> E e s) -> runs P m Q E.
Proof.
  intros Hm HP HQ HE s Hs. specialize (Hm s (HP s Hs)). destruct (m s) as [[a|e] s']; auto.
Qed.

(** From a triple to a run. *)
Lemma runs_Ok {A} P (Q : A -> S -> Prop) E (m : py S A) s a s' :
  runs P m Q E -> P s -> m s = (Ok a, s') -> Q a s'.
Proof. intros Hm HP Hs. specialize (Hm s HP). by rewrite Hs in Hm. Qed.

Lemma runs_Err {A} P (Q : A -> S -> Prop) E (m : py S A) s e s' :
  runs P m Q E -> P s -> m s = (Err e, s') -> E e s'.
Proof. intros Hm HP Hs. specialize (Hm s HP). by rewrite Hs in Hm. Qed.
End runs.

Section py_inversion.
Context {S : Type}.

Lemma py_bind_Ok {A B} (m : py S A) (k : A -> py S B) s b s'' :
  (m ≫= k) s = (Ok b, s'') <-> exists a s', m s = (Ok a, s') /\ k a s' = (Ok b, s'').
Proof.
  unfold mbind, py_bind. destruct (m s) as [[a|e] s']; split; [by eauto| |done|].
  - by intros (? & ? & [= <- <-] & ?).
  - by intros (? & ? & ? & _).
Qed.

Lemma py_bind_run {A B} (m : py S A) (k : A -> py S B) s :
  (m ≫= k) s = match m s with (Ok a, s') => k a s' | (Err e, s') => (Err e, s') end.
Proof. done. Qed.

Lemma py_ret_Ok {A} (a b : A) (s s' : S) : (mret a : py S A) s = (Ok b, s') <-> b = a /\ s' = s.
Proof. split; [intros [= -> ->]; done|intros [-> ->]; done]. Qed.

Lemma py_gets_Ok {A} (f : S -> A) s s' a : py_gets f s = (Ok a, s') <-> a = f s /\ s' = s.
Proof. split; [intros [= -> ->]; done|intros [-> ->]; done]. Qed.

Lemma py_modify_Ok (f : S -> S) s s' u : py_modify f s = (Ok u, s') <-> s' = f s.
Proof. destruct u. split; [intros [= ->]; done|intros ->; done]. Qed.

Lemma py_lift_Ok {A} (r : res A) (s s' : S) a : py_lift r s = (Ok a, s') <-> r = Ok a /\ s' = s.
Proof. split; [intros [= -> ->]; done|intros [-> ->]; done]. Qed.

Lemma py_guard_Ok b e (s s' : S) u : py_guard b e s = (Ok u, s') <-> b = true /\ s' = s.
Proof.
  unfold py_guard. destruct u, b; split; [by intros [= ->]|by intros [_ ->]|done|by intros [? _]].
Qed.

Lemma py_zoom_run {T A} (get : S -> T) (put : T -> S -> S) (m : py T A) s r s' :
  py_zoom get put m s = (r, s') <-> exists t, m (get s) = (r, t) /\ s' = put t s.
Proof.
  unfold py_zoom. destruct (m (get s)) as [r' t']. split.
  - intros [= -> <-]. eauto.
  - by intros (t & [= -> ->] & ->).
Qed.
End py_inversion.

(** [py_inv H] decomposes a successful run. *)
Ltac py_inv H :=
  let H1 := fresh "Hrun" in
  lazymatch type of H with
  | (_ ≫= _) _ = (Ok _, _) =>
      apply py_bind_Ok in H as (? & ? & H1 & H); cbv beta in H; py_inv H1; py_inv H
  | (mret _) _ = (Ok _, _) => apply py_ret_Ok in H as [? ?]; subst
  | py_gets _ _ = (Ok _, _) => apply py_gets_Ok in H as [? ?]; subst
  | py_modify _ _ = (Ok _, _) => apply py_modify_Ok in H; subst
  | py_lift _ _ = (Ok _, _) => apply py_lift_Ok in H as [H ?]; subst
  | py_guard _ _ _ = (Ok _, _) => apply py_guard_Ok in H as [H ?]; subst
  | py_raise _ _ = (Ok _, _) => discriminate H
  | _ => idtac
  end.

(** ** Runs that return

    [returns P m Q]: from a state in [P], [m] returns some [a] and ends in [Q a]. *)

Definition returns {S A} (P : S -> Prop) (m : py S A) (Q : A -> S -> Prop) : Prop :=
  forall s, P s -> exists a s', m s = (Ok a, s') /\ Q a s'.

Lemma returns_bind {S A B} (P : S -> Prop) (R : A -> S -> Prop) (Q : B -> S -> Prop) (m : py S A) (k : A -> py S B) :
  returns P m R -> (forall a, returns (R a) (k a) Q) -> returns P (m ≫= k) Q.
Proof.
  intros Hm Hk s HP. destruct (Hm s HP) as (a & s1 & E & HR). destruct (Hk a s1 HR) as (b & s2 & E2 & HQ).
  exists b, s2. cbv [mbind py_bind]. by rewrite E.
Qed.

Lemma returns_then {S A B} (P R : S -> Prop) (Q : B -> S -> Prop) (m : py S A) (k : A -> py S B) :
  returns P m (fun _ => R) -> (forall a, returns R (k a) Q) -> returns P (m ≫= k) Q.
Proof. apply returns_bind. Qed.

Lemma returns_pure {S A} (P : S -> Prop) (fact : Prop) (Q : A -> S -> Prop) (m : py S A) :
  (fact -> returns P m Q) -> returns (fun s => P s /\ fact) m Q.
Proof. intros Hm s [HP Hf]. by apply Hm. Qed.

Lemma returns_ret {S A} (Q : A -> S -> Prop) (a : A) : returns (Q a) (mret a) Q.
Proof. intros s Hs. by exists a, s. Qed.

Lemma returns_for {S A} (P : S -> Prop) (f : A -> py S unit) l :
  (forall x, x ∈ l -> returns P (f x) (fun _ => P)) -> returns P (py_for f l) (fun _ => P).
Proof.
  induction l as [|x l IH]; intros Hf; cbn [py_for]; [apply (returns_ret (fun _ => P))|].
  eapply returns_then; [apply Hf; left|intros _]. apply IH. intros y Hy. apply Hf. by right.
Qed.

(** ** Relations kept by every run

    [steps R m]: every run of [m], also one that raises, relates the state before
    it to the state after it by the preorder [R]. *)

Definition steps {S A} (R : relation S) (m : py S A) : Prop := forall s, R s (snd (m s)).

Section steps.
Context {S : Type} (R : relation S) `{!PreOrder R}.

Lemma steps_ret {A} (a : A) : steps R (mret a).
Proof. intros s. simpl. reflexivity. Qed.
Lemma steps_raise {A} e : steps R (py_raise e : py S A).
Proof. intros s. simpl. reflexivity. Qed.
Lemma steps_gets {A} (f : S -> A) : steps R (py_gets f).
Proof. intros s. simpl. reflexivity. Qed.
Lemma steps_lift {A} (r : res A) : steps R (py_lift r).
Proof. intros s. simpl. reflexivity. Qed.
Lemma steps_guard b e : steps R (py_guard b e).
Proof. unfold py_guard. destruct b; [apply steps_ret|apply steps_raise]. Qed.
Lemma steps_modify f : (forall s, R s (f s)) -> steps R (py_modify f).
Proof. intros H s. apply H. Qed.

Lemma steps_bind {A B} (m : py S A) (k : A -> py S B) :
  steps R m -> (forall a s s', m s = (Ok a, s') -> steps R (k a)) -> steps R (m ≫= k).
Proof.
  intros Hm Hk s. specialize (Hm s). unfold mbind, py_bind. destruct (m s) as [[a|e] s'] eqn:Em; [|done].
  simpl in Hm. transitivity s'; [done|by apply (Hk a s s')].
Qed.

Lemma steps_try {A} (m : py S A) h :
  steps R m -> (forall e k, h e = Some k -> steps R k) -> steps R (py_try m h).
Proof.
  intros Hm Hh s. specialize (Hm s). unfold py_try. destruct (m s) as [[a|e] s']; [done|].
  destruct (h e) as [k|] eqn:E; [|done]. simpl in Hm. transitivity s'; [done|]. by apply (Hh e k).
Qed.

Lemma steps_map {A B} (f : A -> py S B) l : (forall a, steps R (f a)) -> steps R (py_map f l).
Proof.
  intros Hf. induction l as [|x l IH]; simpl; [apply steps_ret|].
  apply steps_bind; [done|intros y _ _ _]. apply steps_bind; [done|intros ys _ _ _]. apply steps_ret.
Qed.

Lemma steps_for {A} (f : A -> py S unit) l : (forall a, a ∈ l -> steps R (f a)) -> steps R (py_for f l).
Proof.
  induction l as [|x l IH]; intros Hf; simpl; [apply steps_ret|].
  apply steps_bind; [apply Hf; left|intros _ _ _ _]. apply IH. intros a Ha. apply Hf. by right.
Qed.

Lemma steps_zoom {T A} (get : S -> T) (put : T -> S -> S) (m : py T A) :
  (forall s, R s (put (snd (m (get s))) s)) -> steps R (py_zoom get put m).
Proof. intros H s. specialize (H s). unfold py_zoom. by destruct (m (get s)). Qed.
End steps.

Create HintDb steps discriminated.
#[export] Hint Resolve steps_ret steps_raise steps_gets steps_lift steps_guard : steps.
#[export] Hint Extern 1 (PreOrder _) => typeclasses eauto : steps.

(** Follows the program; a step that no hint covers is left. *)
Ltac steps_solve :=
  repeat match goal with
  | |- steps _ (_ ≫= _) => apply steps_bind; [typeclasses eauto| |intros ? ? ? ?]
  | |- steps _ (match ?x with _ => _ end) => destruct x
  | |- steps _ _ => solve [auto with steps]
  end.

Lemma steps_finally {S A} (R : relation S) `{!PreOrder R} (m : py S A) f :
  steps R m -> (forall s, R s (f s)) -> steps R (py_finally m f).
Proof.
  intros Hm Hf s. specialize (Hm s). unfold py_finally. destruct (m s) as [r s1]. simpl in *. by transitivity s1.
Qed.

Lemma steps_run {S A} (R : relation S) (m : py S A) s a s' : steps R m -> m s = (a, s') -> R s s'.
Proof. intros H E. specialize (H s). by rewrite E in H. Qed.

Lemma py_map_Ok {S A B} (f : A -> py S B) l s ys s' :
  py_map f l s = (Ok ys, s') -> length ys = length l.
Proof.
  revert s ys. induction l as [|x l IH]; intros s ys H; simpl in H; [by apply py_ret_Ok in H as [-> _]|].
  apply py_bind_Ok in H as (y & s1 & _ & H). apply py_bind_Ok in H as (ys' & s2 & H & [-> ->]%py_ret_Ok).
  simpl. f_equal. eapply IH, H.
Qed.

(** ** Bounded queues *)

(** [append] to a [deque] with [maxlen]. *)
Definition deque_append {A} (maxlen : Z) (x : A) (l : list A) : list A :=
  let l := l ++ [x] in if maxlen <? Z.of_nat (length l) then drop 1 l else l.

Definition last_n {A} (n : nat) (l : list A) : list A := drop (length l - n) l.

Lemma length_deque_append {A} n (x : A) l : 1 <= n -> Z.of_nat (length (deque_append n x l)) <= n \/ (length (deque_append n x l) <= length l)%nat.
Proof.
  intros Hn. unfold deque_append. destruct (Z.ltb_spec n (Z.of_nat (length (l ++ [x])))); [right|left; lia].
  rewrite length_drop, length_app. simpl. lia.
Qed.

Lemma deque_append_last_n {A} n (x : A) l :
  1 <= n -> deque_append n x (last_n (Z.to_nat n) l) = last_n (Z.to_nat n) (l ++ [x]).
Proof.
  intros Hn. unfold deque_append, last_n. rewrite !length_app, length_drop. simpl.
  destruct (Z.ltb_spec n (Z.of_nat (length l - (length l - Z.to_nat n) + 1))).
  - rewrite <- drop_app_le, drop_drop by lia. f_equal. lia.
  - rewrite <- drop_app_le by lia. f_equal. lia.
Qed.

Lemma last_n_all {A} n (l : list A) : (length l <= n)%nat -> last_n n l = l.
Proof. intros H. unfold last_n. by replace (length l - n)%nat with 0%nat by lia. Qed.

(** ** Insertion-ordered dictionaries *)

Section dictionary.
Context {K V : Type} `{EqDecision K}.

Fixpoint odict_get (k : K) (d : list (K * V)) : option V :=
  match d with
  | [] => None
  | (k', v) :: d' => if decide (k = k') then Some v else odict_get k d'
  end.

(** [d[k] = v]: in place, or at the end. *)
Fixpoint odict_set (k : K) (v : V) (d : list (K * V)) : list (K * V) :=
  match d with
  | [] => [(k, v)]
  | (k', v') :: d' => if decide (k = k') then (k, v) :: d' else (k', v') :: odict_set k v d'
  end.

Lemma odict_get_set_eq k v d : odict_get k (odict_set k v d) = Some v.
Proof. induction d as [|[k' v'] d IH]; simpl; repeat (case_decide; simpl); try done; congruence. Qed.

Lemma odict_get_set_ne k k' v d : k <> k' -> odict_get k (odict_set k' v d) = odict_get k d.
Proof.
  intros Hne. induction d as [|[k1 v1] d IH]; simpl; [by rewrite decide_False|].
  destruct (decide (k' = k1)) as [<-|]; simpl; [by rewrite !decide_False|]. by rewrite IH.
Qed.

Lemma odict_get_elem k v d : odict_get k d = Some v -> (k, v) ∈ d.
Proof.
  induction d as [|[k' v'] d IH]; simpl; [done|]. case_decide as E; [intros [= ->]; subst; by left|].
  intros H. right. by apply IH.
Qed.

Lemma odict_set_elem k v d x : x ∈ odict_set k v d -> x = (k, v) \/ x ∈ d.
Proof.
  induction d as [|[k' v'] d IH]; simpl; [rewrite list_elem_of_singleton; by left|].
  case_decide; rewrite !elem_of_cons; [by intros [?|?]; auto|]. intros [?|H']; [auto|].
  destruct (IH H') as [?|?]; auto.
Qed.

Lemma odict_set_keys k v d : NoDup (fst <$> d) -> NoDup (fst <$> odict_set k v d).
Proof.
  induction d as [|[k' v'] d IH]; simpl; [intros _; apply NoDup_singleton|].
  rewrite NoDup_cons. intros [Hk Hd]. case_decide as E; simpl; [subst; by constructor|].
  constructor; [|by apply IH]. intros Hin. apply list_elem_of_fmap in Hin as (x & -> & Hx).
  apply odict_set_elem in Hx as [->|Hx]; [done|]. apply Hk, list_elem_of_fmap. eauto.
Qed.
End dictionary.
