(* ===== verification/Datetime.v ===== *)
(** * Python's [datetime], as far as the sources use it

    Aware datetimes, [isoformat] and [fromisoformat], comparison and
    [datetime + timedelta].  Timestamps are stored in SQLite as the text of
    [isoformat] and compared there as text; [isoformat_compare] justifies that
    for the UTC timestamps every writer operation stores. *)

From S2P Require Import Prelude.
From Stdlib Require Import Ascii.

(** ** Decimal fields of fixed width *)

Definition digit_char (d : Z) : ascii := ascii_of_N (Z.to_N (48 + d)).

(** ["%0wd" % n] for [0 <= n < 10^w]. *)
Fixpoint zpad (w : nat) (n : Z) : string :=
  match w with
  | O => ""
  | S w' => String (digit_char ((n / 10 ^ Z.of_nat w') mod 10)) (zpad w' n)
  end.

Definition digit_val (c : ascii) : option Z :=
  let n := Z.of_N (N_of_ascii c) in
  if (48 <=? n) && (n <=? 57) then Some (n - 48) else None.

(** Exactly [w] decimal digits. *)
Fixpoint parse_digits (w : nat) (acc : Z) (s : string) : option (Z * string) :=
  match w with
  | O => Some (acc, s)
  | S w' =>
      match s with
      | "" => None
      | String c s' => d ← digit_val c; parse_digits w' (10 * acc + d) s'
      end
  end.

(** ** The datetime object *)

Record datetime : Type := mk_datetime {
  dt_year : Z; dt_month : Z; dt_day : Z;
  dt_hour : Z; dt_minute : Z; dt_second : Z; dt_micro : Z;
  dt_offset : option Z (* [utcoffset()] in microseconds, [None] when naive *)
}.

#[export] Instance datetime_eq_dec : EqDecision datetime.
Proof. solve_decision. Defined.

Definition is_leap (y : Z) : bool :=
  (y mod 4 =? 0) && (negb (y mod 100 =? 0) || (y mod 400 =? 0)).

Definition days_in_month (y m : Z) : Z :=
  if m =? 2 then (if is_leap y then 29 else 28)
  else if (m =? 4) || (m =? 6) || (m =? 9) || (m =? 11) then 30 else 31.

Definition days_before_year (y : Z) : Z :=
  (y - 1) * 365 + (y - 1) / 4 - (y - 1) / 100 + (y - 1) / 400.

Definition days_before_month_common (m : Z) : Z :=
  match m with
  | 1 => 0 | 2 => 31 | 3 => 59 | 4 => 90 | 5 => 120 | 6 => 151 | 7 => 181
  | 8 => 212 | 9 => 243 | 10 => 273 | 11 => 304 | 12 => 334 | _ => 0
  end.

Definition days_before_month (leap : bool) (m : Z) : Z :=
  days_before_month_common m + (if (2 <? m) && leap then 1 else 0).

(** [date.toordinal()]: day 1 is 0001-01-01. *)
Definition ymd2ord (y m d : Z) : Z :=
  days_before_year y + days_before_month (is_leap y) m + d.

Definition usec_per_day : Z := 86400000000.

Definition time_usec (h mi s us : Z) : Z := ((h * 60 + mi) * 60 + s) * 1000000 + us.

(** Microseconds since 0000-12-31T00:00 of the local clock reading. *)
Definition local_instant (d : datetime) : Z :=
  ymd2ord (dt_year d) (dt_month d) (dt_day d) * usec_per_day +
  time_usec (dt_hour d) (dt_minute d) (dt_second d) (dt_micro d).

(** The instant an aware datetime denotes: what [<], [<=], [==] and [-] use. *)
Definition instant (d : datetime) : Z :=
  local_instant d - default 0 (dt_offset d).

Definition dt_leb (a b : datetime) : bool := instant a <=? instant b.
Definition dt_ltb (a b : datetime) : bool := instant a <? instant b.

Definition in_range (lo n hi : Z) : bool := (lo <=? n) && (n <=? hi).

(** The range checks of the [datetime] and [timezone] constructors. *)
Definition valid_datetime (d : datetime) : bool :=
  in_range 1 (dt_year d) 9999 && in_range 1 (dt_month d) 12 &&
  in_range 1 (dt_day d) (days_in_month (dt_year d) (dt_month d)) &&
  in_range 0 (dt_hour d) 23 && in_range 0 (dt_minute d) 59 &&
  in_range 0 (dt_second d) 59 && in_range 0 (dt_micro d) 999999 &&
  match dt_offset d with
  | None => true
  | Some o => (- usec_per_day <? o) && (o <? usec_per_day)
  end.

Definition is_utc (d : datetime) : bool := bool_decide (dt_offset d = Some 0).

(** What [datetime.now(UTC)] and every validated timestamp satisfy. *)
Definition utc_valid (d : datetime) : bool := valid_datetime d && is_utc d.

(** ** [isoformat] *)

Definition format_offset (o : option Z) : string :=
  match o with
  | None => ""
  | Some o =>
      let a := Z.abs o in
      let ss := (a / 1000000) mod 60 in
      let us := a mod 1000000 in
      (if o <? 0 then "-" else "+") +:+ zpad 2 (a / 3600000000) +:+ ":" +:+
      zpad 2 ((a / 60000000) mod 60) +:+
      (if (ss =? 0) && (us =? 0) then "" else
        ":" +:+ zpad 2 ss +:+ (if us =? 0 then "" else "." +:+ zpad 6 us))
  end.

Definition isoformat (d : datetime) : string :=
  zpad 4 (dt_year d) +:+ "-" +:+ zpad 2 (dt_month d) +:+ "-" +:+ zpad 2 (dt_day d) +:+
  "T" +:+ zpad 2 (dt_hour d) +:+ ":" +:+ zpad 2 (dt_minute d) +:+ ":" +:+
  zpad 2 (dt_second d) +:+
  (if dt_micro d =? 0 then "" else "." +:+ zpad 6 (dt_micro d)) +:+
  format_offset (dt_offset d).

(** ** [fromisoformat]

    The extended calendar forms [YYYY-MM-DD[*HH[:MM[:SS[.f...]]][tz]]]; the basic
    and ISO-week forms of Python 3.11 are never written by this program and are
    not recognised here. *)

Definition expect (c : ascii) (s : string) : option string :=
  match s with
  | String c' s' => if bool_decide (c' = c) then Some s' else None
  | "" => None
  end.

(** The digits of a fraction: at least one; those after the sixth are dropped. *)
Fixpoint parse_fraction (w : nat) (acc : Z) (s : string) : Z * string :=
  match s with
  | String c s' =>
      match digit_val c with
      | Some d =>
          match w with
          | O => parse_fraction O acc s'
          | S w' => parse_fraction w' (10 * acc + d) s'
          end
      | None => (acc * 10 ^ Z.of_nat w, s)
      end
  | "" => (acc * 10 ^ Z.of_nat w, "")
  end.

Definition parse_opt_fraction (s : string) : option (Z * string) :=
  match s with
  | String c s' =>
      if bool_decide (c = "."%char) || bool_decide (c = ","%char) then
        match s' with
        | String c' _ => _ ← digit_val c'; Some (parse_fraction 6 0 s')
        | "" => None
        end
      else Some (0, s)
  | "" => Some (0, "")
  end.

(** [HH[:MM[:SS[.f...]]]] as hour, minute, second, microsecond. *)
Definition parse_hms (s : string) : option (Z * Z * Z * Z * string) :=
  '(h, s) ← parse_digits 2 0 s;
  match expect ":"%char s with
  | None => Some (h, 0, 0, 0, s)
  | Some s =>
      '(mi, s) ← parse_digits 2 0 s;
      match expect ":"%char s with
      | None => Some (h, mi, 0, 0, s)
      | Some s =>
          '(sec, s) ← parse_digits 2 0 s;
          '(us, s) ← parse_opt_fraction s;
          Some (h, mi, sec, us, s)
      end
  end.

Definition parse_offset (s : string) : option (option Z) :=
  match s with
  | "" => Some None
  | String c s' =>
      if bool_decide (c = "Z"%char) then (if bool_decide (s' = "") then Some (Some 0) else None)
      else
        sign ← (if bool_decide (c = "+"%char) then Some 1
                else if bool_decide (c = "-"%char) then Some (-1) else None);
        '(h, mi, sec, us, rest) ← parse_hms s';
        if bool_decide (rest = "") then Some (Some (sign * time_usec h mi sec us)) else None
  end.

Definition parse_isoformat (s : string) : option datetime :=
  '(y, s) ← parse_digits 4 0 s;
  s ← expect "-"%char s;
  '(mo, s) ← parse_digits 2 0 s;
  s ← expect "-"%char s;
  '(d, s) ← parse_digits 2 0 s;
  match s with
  | "" => Some (mk_datetime y mo d 0 0 0 0 None)
  | String _ s =>
      '(h, mi, sec, us, s) ← parse_hms s;
      o ← parse_offset s;
      Some (mk_datetime y mo d h mi sec us o)
  end.

Definition fromisoformat (s : string) : res datetime :=
  match parse_isoformat s with
  | Some d => if valid_datetime d then Ok d else Err (ValueError "Invalid isoformat string")
  | None => Err (ValueError "Invalid isoformat string")
  end.

(** ** [datetime + timedelta] *)

(** Month and day of the [n]-th day (from 0) of a year. *)
Definition month_day (leap : bool) (n : Z) : Z * Z :=
  let month := Z.shiftr (n + 50) 5 in
  let preceding := days_before_month leap month in
  if n <? preceding then
    let month := month - 1 in
    let preceding := preceding -
      (if (month =? 2) && leap then 29 else days_in_month 1 month) in
    (month, n - preceding + 1)
  else (month, n - preceding + 1).

Definition ord2ymd (n : Z) : Z * Z * Z :=
  let n := n - 1 in
  let n400 := n / 146097 in let n := n mod 146097 in
  let n100 := n / 36524 in let n := n mod 36524 in
  let n4 := n / 1461 in let n := n mod 1461 in
  let n1 := n / 365 in let n := n mod 365 in
  let year := n400 * 400 + 1 + n100 * 100 + n4 * 4 + n1 in
  if (n1 =? 4) || (n100 =? 4) then (year - 1, 12, 31)
  else
    let leap := (n1 =? 3) && (negb (n4 =? 24) || (n100 =? 3)) in
    let '(month, day) := month_day leap n in
    (year, month, day).

(** [d + timedelta(microseconds=delta)]; [OverflowError] outside the years 1..9999
    is not modelled. *)
Definition add_usec (d : datetime) (delta : Z) : datetime :=
  let t := local_instant d + delta in
  let '(y, mo, day) := ord2ymd (t / usec_per_day) in
  let r := t mod usec_per_day in
  mk_datetime y mo day (r / 3600000000) ((r / 60000000) mod 60) ((r / 1000000) mod 60)
    (r mod 1000000) (dt_offset d).

(** ** Digits: parsing and order *)

Lemma append_cons c s t : String c s +:+ t = String c (s +:+ t).
Proof. done. Qed.

Lemma append_nil_r s : s +:+ "" = s.
Proof. induction s as [|c s IH]; [done|]. by rewrite append_cons, IH. Qed.

Lemma append_nil_l s : "" +:+ s = s.
Proof. done. Qed.

Lemma digit_val_char d : 0 <= d < 10 -> digit_val (digit_char d) = Some d.
Proof.
  intros Hd. assert (Forall (fun d => digit_val (digit_char d) = Some d) (seqZ 0 10)) as HF.
  { by repeat constructor. }
  rewrite Forall_forall in HF. apply HF, elem_of_seqZ. lia.
Qed.

Lemma digit_compare d e :
  0 <= d < 10 -> 0 <= e < 10 -> Ascii.compare (digit_char d) (digit_char e) = (d ?= e).
Proof.
  intros Hd He. unfold Ascii.compare, digit_char.
  rewrite !N_ascii_embedding by lia.
  by rewrite <- N2Z.inj_compare, !Z2N.id, Z.add_compare_mono_l by lia.
Qed.

Lemma pow10_pos w : 0 < 10 ^ Z.of_nat w.
Proof. apply Z.pow_pos_nonneg; lia. Qed.

Lemma pow10_S w : 10 ^ Z.of_nat (S w) = 10 * 10 ^ Z.of_nat w.
Proof. rewrite Nat2Z.inj_succ, Z.pow_succ_r; lia. Qed.

(** The leading digit and the rest. *)
Lemma mod_pow10_S n w :
  n mod 10 ^ Z.of_nat (S w) =
  (n / 10 ^ Z.of_nat w) mod 10 * 10 ^ Z.of_nat w + n mod 10 ^ Z.of_nat w.
Proof.
  rewrite pow10_S, Z.mul_comm, Z.rem_mul_r; [lia| |lia].
  pose proof (pow10_pos w). lia.
Qed.

Lemma parse_digits_zpad w n acc s :
  parse_digits w acc (zpad w n +:+ s) =
  Some (acc * 10 ^ Z.of_nat w + n mod 10 ^ Z.of_nat w, s).
Proof.
  revert acc. induction w as [|w IH]; intros acc.
  - simpl. rewrite Z.mod_1_r. do 2 f_equal. lia.
  - cbn [zpad]. rewrite append_cons. cbn [parse_digits].
    rewrite digit_val_char by (apply Z.mod_pos_bound; lia).
    simpl. rewrite IH, mod_pow10_S, pow10_S. do 2 f_equal. lia.
Qed.

Lemma parse_zpad w n s :
  0 <= n < 10 ^ Z.of_nat w -> parse_digits w 0 (zpad w n +:+ s) = Some (n, s).
Proof. intros Hn. rewrite parse_digits_zpad, Z.mod_small by done. done. Qed.

(** Lexicographic combination of two comparisons. *)
Definition lex (c d : comparison) : comparison := match c with Eq => d | _ => c end.

Lemma lex_assoc c d e : lex (lex c d) e = lex c (lex d e).
Proof. by destruct c. Qed.

(** Lexicographic comparison of [(a, x)] and [(b, y)] is comparison of the
    mixed-radix numbers. *)
Lemma lex_compare k a b x y :
  0 <= x < k -> 0 <= y < k -> lex (a ?= b) (x ?= y) = (a * k + x ?= b * k + y).
Proof.
  intros Hx Hy. unfold lex. destruct (Z.compare_spec a b) as [->|Hl|Hg].
  - by rewrite Z.add_compare_mono_l.
  - symmetry. apply Z.compare_lt_iff. nia.
  - symmetry. apply Z.compare_gt_iff. nia.
Qed.

Lemma zpad_compare w n m s t :
  0 <= n < 10 ^ Z.of_nat w -> 0 <= m < 10 ^ Z.of_nat w ->
  String.compare (zpad w n +:+ s) (zpad w m +:+ t) = lex (n ?= m) (String.compare s t).
Proof.
  intros Hn Hm. rewrite <- (Z.mod_small n (10 ^ Z.of_nat w)) at 2 by done.
  rewrite <- (Z.mod_small m (10 ^ Z.of_nat w)) at 2 by done. clear Hn Hm.
  induction w as [|w IH]; [by rewrite !Z.mod_1_r|].
  cbn [zpad]. rewrite !append_cons. cbn [String.compare]. rewrite IH, !mod_pow10_S.
  rewrite digit_compare by (apply Z.mod_pos_bound; lia).
  pose proof (Z.mod_pos_bound n (10 ^ Z.of_nat w) (pow10_pos w)).
  pose proof (Z.mod_pos_bound m (10 ^ Z.of_nat w) (pow10_pos w)).
  erewrite <- lex_compare by eassumption.
  rewrite lex_assoc. unfold lex at 2.
  by destruct (Z.compare ((n / _) mod 10) _).
Qed.

(** ** Calendar arithmetic *)

Lemma in_range_spec lo n hi : in_range lo n hi = true <-> lo <= n <= hi.
Proof. unfold in_range. lia. Qed.

Lemma in_range_elem lo n hi : in_range lo n hi = true -> n ∈ seqZ lo (hi - lo + 1).
Proof. rewrite in_range_spec, elem_of_seqZ. lia. Qed.

Lemma utc_valid_bounds d :
  utc_valid d = true ->
  1 <= dt_year d <= 9999 /\ 1 <= dt_month d <= 12 /\
  1 <= dt_day d <= days_in_month (dt_year d) (dt_month d) /\
  0 <= dt_hour d <= 23 /\ 0 <= dt_minute d <= 59 /\ 0 <= dt_second d <= 59 /\
  0 <= dt_micro d <= 999999 /\ dt_offset d = Some 0.
Proof.
  unfold utc_valid, valid_datetime, is_utc.
  rewrite !andb_true_iff, !in_range_spec, bool_decide_eq_true. tauto.
Qed.

(** The twelve months, as a case analysis. *)
Lemma month_cases m :
  1 <= m <= 12 -> m ∈ [1; 2; 3; 4; 5; 6; 7; 8; 9; 10; 11; 12].
Proof. intros. apply (elem_of_seqZ 1 12). lia. Qed.

Ltac month_split H :=
  apply month_cases in H;
  repeat (apply elem_of_cons in H; destruct H as [->|H]); [..|by apply not_elem_of_nil in H].

Lemma days_in_month_bounds y m : 28 <= days_in_month y m <= 31.
Proof. unfold days_in_month. repeat case_match; lia. Qed.

(** A month starts where the previous one ends, and the year has 365 or 366 days. *)
Lemma days_before_month_mono y m m' :
  1 <= m <= 12 -> 1 <= m' <= 12 -> m < m' ->
  days_before_month (is_leap y) m + days_in_month y m <= days_before_month (is_leap y) m'.
Proof.
  intros Hm Hm' Hlt. unfold days_in_month. generalize (is_leap y) as l.
  month_split Hm; month_split Hm'; intros []; vm_compute; congruence || lia.
Qed.

Lemma days_before_month_bounds y m :
  1 <= m <= 12 ->
  0 <= days_before_month (is_leap y) m /\
  days_before_month (is_leap y) m + days_in_month y m <= (if is_leap y then 366 else 365).
Proof.
  intros Hm. unfold days_in_month. generalize (is_leap y) as l.
  month_split Hm; intros []; vm_compute; split; congruence.
Qed.

Lemma days_before_year_succ y :
  days_before_year (y + 1) = days_before_year y + (if is_leap y then 366 else 365).
Proof.
  unfold days_before_year, is_leap. replace (y + 1 - 1) with y by lia.
  case_match; Z.div_mod_to_equations; lia.
Qed.

Lemma days_before_year_mono y y' :
  y < y' -> days_before_year y + (if is_leap y then 366 else 365) <= days_before_year y'.
Proof.
  intros Hlt. rewrite <- days_before_year_succ. unfold days_before_year.
  assert (y + 1 <= y') as Hle by lia. generalize dependent (y + 1). clear. intros x Hle.
  Z.div_mod_to_equations. lia.
Qed.

(** Calendar dates are ordered as their ordinals. *)
Lemma ymd2ord_compare y m d y' m' d' :
  1 <= m <= 12 -> 1 <= d <= days_in_month y m ->
  1 <= m' <= 12 -> 1 <= d' <= days_in_month y' m' ->
  lex (y ?= y') (lex (m ?= m') (d ?= d')) = (ymd2ord y m d ?= ymd2ord y' m' d').
Proof.
  assert (forall y m d y' m' d', 1 <= m <= 12 -> 1 <= d <= days_in_month y m ->
    1 <= m' <= 12 -> 1 <= d' -> y < y' \/ y = y' /\ m < m' ->
    ymd2ord y m d < ymd2ord y' m' d') as Hlt.
  { clear. intros y m d y' m' d' Hm Hd Hm' Hd' [Hy|[-> Hmm]]; unfold ymd2ord.
    - pose proof (days_before_year_mono y y' Hy). pose proof (days_before_month_bounds y m Hm).
      pose proof (days_before_month_bounds y' m' Hm'). lia.
    - pose proof (days_before_month_mono y' m m' Hm Hm' Hmm). lia. }
  intros Hm Hd Hm' Hd'.
  destruct (Z.compare_spec y y') as [->|Hy|Hy]; cbn [lex].
  - destruct (Z.compare_spec m m') as [->|Hmm|Hmm]; cbn [lex]; symmetry.
    + unfold ymd2ord. by rewrite Z.add_compare_mono_l.
    + apply Z.compare_lt_iff, Hlt; auto; lia.
    + apply Z.compare_gt_iff, Hlt; auto; lia.
  - symmetry. apply Z.compare_lt_iff, Hlt; auto; lia.
  - symmetry. apply Z.compare_gt_iff, Hlt; auto; lia.
Qed.

Lemma compare_cons c s t : String.compare (String c s) (String c t) = String.compare s t.
Proof. cbn. unfold Ascii.compare. by rewrite N.compare_refl. Qed.

Lemma string_compare_refl s : String.compare s s = Eq.
Proof. induction s as [|c s IH]; [done|by rewrite compare_cons]. Qed.

(** The fraction is omitted when zero; ['+'] sorts before ['.']. *)
Lemma fraction_compare u v z :
  0 <= u <= 999999 -> 0 <= v <= 999999 ->
  String.compare ((if u =? 0 then "" else String "." (zpad 6 u)) +:+ String "+" z)
                 ((if v =? 0 then "" else String "." (zpad 6 v)) +:+ String "+" z) = (u ?= v).
Proof.
  intros Hu Hv. destruct (Z.eqb_spec u 0) as [->|Hu0], (Z.eqb_spec v 0) as [->|Hv0].
  - apply string_compare_refl.
  - destruct v; [done..|lia].
  - destruct u; [done..|lia].
  - rewrite !append_cons, compare_cons, zpad_compare by lia.
    rewrite string_compare_refl. by destruct (u ?= v).
Qed.

(** Text order of the stored timestamps is the order of the instants. *)
Lemma isoformat_compare a b :
  utc_valid a = true -> utc_valid b = true ->
  String.compare (isoformat a) (isoformat b) = (instant a ?= instant b).
Proof.
  intros (Hy & Hm & Hd & Hh & Hmi & Hs & Hus & Ho)%utc_valid_bounds
    (Hy' & Hm' & Hd' & Hh' & Hmi' & Hs' & Hus' & Ho')%utc_valid_bounds.
  pose proof (days_in_month_bounds (dt_year a) (dt_month a)).
  pose proof (days_in_month_bounds (dt_year b) (dt_month b)).
  unfold isoformat, instant. rewrite Ho, Ho'.
  change (format_offset (Some 0)) with "+00:00".
  rewrite !append_cons, !append_nil_l.
  do 5 rewrite zpad_compare, compare_cons by lia.
  rewrite zpad_compare, fraction_compare by lia. cbn [default from_option id].
  rewrite !Z.sub_0_r. unfold local_instant, time_usec, usec_per_day.
  rewrite <- lex_compare by lia. rewrite <- ymd2ord_compare by done.
  rewrite <- (lex_compare 1000000), <- !(lex_compare 60) by lia.
  by rewrite !lex_assoc.
Qed.

(** ** [fromisoformat] inverts [isoformat] *)

(** The text after the seconds field: nothing, or an offset. *)
Definition no_time_tail (s : string) : bool :=
  match s with
  | "" => true
  | String c _ => negb (bool_decide (c = ":"%char)) && negb (bool_decide (c = "."%char)) &&
                  negb (bool_decide (c = ","%char)) && bool_decide (digit_val c = None)
  end.

Lemma parse_fraction_zpad w acc n s :
  no_time_tail s = true ->
  parse_fraction w acc (zpad w n +:+ s) =
  (acc * 10 ^ Z.of_nat w + n mod 10 ^ Z.of_nat w, s).
Proof.
  intros Hs. revert acc. induction w as [|w IH]; intros acc.
  - rewrite Z.mod_1_r, Z.add_0_r. cbn [zpad]. rewrite append_nil_l. destruct s as [|c s]; [done|].
    simpl in *. rewrite !andb_true_iff, bool_decide_eq_true in Hs. by destruct Hs as [_ ->].
  - cbn [zpad]. rewrite append_cons. cbn [parse_fraction].
    rewrite digit_val_char by (apply Z.mod_pos_bound; lia).
    rewrite IH, mod_pow10_S, pow10_S. f_equal. lia.
Qed.

Definition format_fraction (us : Z) : string :=
  if us =? 0 then "" else "." +:+ zpad 6 us.

Lemma parse_opt_fraction_format us s :
  0 <= us <= 999999 -> no_time_tail s = true ->
  parse_opt_fraction (format_fraction us +:+ s) = Some (us, s).
Proof.
  intros Hus Hs. unfold format_fraction. destruct (Z.eqb_spec us 0) as [->|].
  - rewrite append_nil_l. destruct s as [|c s]; [done|]. simpl in *.
    rewrite !andb_true_iff, !negb_true_iff in Hs. by destruct Hs as [[[_ ->] ->] _].
  - rewrite !append_cons, append_nil_l. cbn [parse_opt_fraction].
    rewrite bool_decide_true by done. cbn [orb zpad]. rewrite append_cons.
    rewrite digit_val_char by (apply Z.mod_pos_bound; lia). cbn [mbind option_bind].
    change (Some (parse_fraction 6 0 (zpad 6 us +:+ s)) = Some (us, s)).
    rewrite parse_fraction_zpad, Z.mod_small by (done || lia). done.
Qed.

Lemma expect_cons c s : expect c (String c s) = Some s.
Proof. simpl. by rewrite bool_decide_true. Qed.

Lemma parse_hms_format h mi sec us s :
  0 <= h <= 99 -> 0 <= mi <= 99 -> 0 <= sec <= 99 -> 0 <= us <= 999999 ->
  no_time_tail s = true ->
  parse_hms (zpad 2 h +:+ String ":" (zpad 2 mi +:+ String ":"
    (zpad 2 sec +:+ (format_fraction us +:+ s)))) = Some (h, mi, sec, us, s).
Proof.
  intros Hh Hmi Hsec Hus Hs. unfold parse_hms.
  rewrite parse_zpad by lia. cbn [mbind option_bind]. rewrite expect_cons.
  rewrite parse_zpad by lia. cbn [mbind option_bind]. rewrite expect_cons.
  rewrite parse_zpad by lia. cbn [mbind option_bind].
  by rewrite parse_opt_fraction_format.
Qed.

Lemma parse_hm_format h mi :
  0 <= h <= 99 -> 0 <= mi <= 99 ->
  parse_hms (zpad 2 h +:+ String ":" (zpad 2 mi)) = Some (h, mi, 0, 0, "").
Proof.
  intros Hh Hmi. unfold parse_hms.
  rewrite parse_zpad by lia. cbn [mbind option_bind]. rewrite expect_cons.
  rewrite <- (append_nil_r (zpad 2 mi)). rewrite parse_zpad by lia. done.
Qed.

Lemma parse_format_offset o :
  match o with None => true | Some o => (- usec_per_day <? o) && (o <? usec_per_day) end = true ->
  parse_offset (format_offset o) = Some o /\ no_time_tail (format_offset o) = true.
Proof.
  destruct o as [o|]; [|done]. intros Ho. unfold format_offset.
  assert (0 <= Z.abs o < usec_per_day) as Ha by lia. unfold usec_per_day in Ha.
  assert (o = (if o <? 0 then -1 else 1) * Z.abs o) as Hsign by (destruct (Z.ltb_spec o 0); lia).
  split; [|by destruct (o <? 0)].
  transitivity (Some (Some ((if o <? 0 then -1 else 1) * Z.abs o))); [|by rewrite <- Hsign].
  generalize dependent (Z.abs o). intros a Ha _. clear Ho.
  assert (time_usec (a / 3600000000) ((a / 60000000) mod 60) ((a / 1000000) mod 60)
    (a mod 1000000) = a) as Htime.
  { unfold time_usec. Z.div_mod_to_equations. lia. }
  assert (parse_hms (zpad 2 (a / 3600000000) +:+ ":" +:+ zpad 2 ((a / 60000000) mod 60) +:+
      (if ((a / 1000000) mod 60 =? 0) && (a mod 1000000 =? 0) then "" else
        ":" +:+ zpad 2 ((a / 1000000) mod 60) +:+ format_fraction (a mod 1000000))) =
      Some (a / 3600000000, (a / 60000000) mod 60, (a / 1000000) mod 60, a mod 1000000, ""))
    as Hparse.
  { pose proof (Z.mod_pos_bound (a / 60000000) 60). pose proof (Z.mod_pos_bound (a / 1000000) 60).
    pose proof (Z.mod_pos_bound a 1000000).
    assert (0 <= a / 3600000000 <= 99) by (Z.div_mod_to_equations; lia).
    destruct (andb _ _) eqn:E.
    - apply andb_true_iff in E as [->%Z.eqb_eq ->%Z.eqb_eq].
      rewrite !append_cons, !append_nil_l, append_nil_r. apply parse_hm_format; lia.
    - rewrite !append_cons, !append_nil_l.
      rewrite <- (append_nil_r (format_fraction _)). apply parse_hms_format; lia || done. }
  unfold format_fraction in Hparse.
  destruct (o <? 0); rewrite append_cons, append_nil_l; cbn [parse_offset];
    rewrite Hparse; cbn; by rewrite Htime.
Qed.

Lemma fromisoformat_isoformat d :
  valid_datetime d = true -> fromisoformat (isoformat d) = Ok d.
Proof.
  intros Hv. pose proof Hv as Hb. unfold valid_datetime in Hb.
  rewrite !andb_true_iff, !in_range_spec in Hb.
  destruct Hb as [[[[[[[Hy Hm] Hd] Hh] Hmi] Hs] Hus] Ho].
  pose proof (days_in_month_bounds (dt_year d) (dt_month d)).
  apply parse_format_offset in Ho as [Ho Ht].
  assert (parse_isoformat (isoformat d) = Some d) as Hp.
  { unfold isoformat, parse_isoformat. rewrite !append_cons, !append_nil_l.
    rewrite parse_zpad by lia. cbn [mbind option_bind]. rewrite expect_cons. cbn [mbind option_bind].
    rewrite parse_zpad by lia. cbn [mbind option_bind]. rewrite expect_cons. cbn [mbind option_bind].
    rewrite parse_zpad by lia. cbn [mbind option_bind].
    change (if dt_micro d =? 0 then _ else _) with (format_fraction (dt_micro d)).
    rewrite parse_hms_format by (lia || done). cbn [mbind option_bind].
    rewrite Ho. by destruct d. }
  unfold fromisoformat. by rewrite Hp, Hv.
Qed.

(** ** [datetime + timedelta] moves the instant by the delta *)

Definition check_month_day (leap : bool) (n : Z) : bool :=
  let '(month, day) := month_day leap n in
  in_range 1 month 12 &&
  in_range 1 day (if (month =? 2) && leap then 29 else days_in_month 1 month) &&
  (days_before_month leap month + day =? n + 1).

Lemma month_day_ok (leap : bool) (n : Z) :
  0 <= n < (if leap then 366 else 365) -> check_month_day leap n = true.
Proof.
  intros Hn.
  assert (forallb (check_month_day leap) (seqZ 0 (if leap then 366 else 365)) = true) as Hall.
  { destruct leap; vm_compute; reflexivity. }
  rewrite forallb_forall in Hall. apply Hall.
  apply list_elem_of_In, elem_of_seqZ. destruct leap; lia.
Qed.

Lemma days_in_month_leap y m :
  days_in_month y m = if (m =? 2) && is_leap y then 29 else days_in_month 1 m.
Proof. unfold days_in_month. change (is_leap 1) with false. by destruct (m =? 2), (is_leap y). Qed.

(** The year part of [ord2ymd]. *)
Lemma ord2ymd_year n :
  let n0 := n - 1 in
  let n400 := n0 / 146097 in let r := n0 mod 146097 in
  let n100 := r / 36524 in let r := r mod 36524 in
  let n4 := r / 1461 in let r := r mod 1461 in
  let n1 := r / 365 in let r := r mod 365 in
  let year := n400 * 400 + 1 + n100 * 100 + n4 * 4 + n1 in
  if (n1 =? 4) || (n100 =? 4) then
    is_leap (year - 1) = true /\ days_before_year (year - 1) + 366 = n
  else
    is_leap year = ((n1 =? 3) && (negb (n4 =? 24) || (n100 =? 3))) /\
    days_before_year year + r + 1 = n.
Proof.
  cbv zeta.
  pose proof (Z.div_mod (n - 1) 146097 ltac:(lia)) as E1.
  pose proof (Z.mod_pos_bound (n - 1) 146097 ltac:(lia)) as B1.
  generalize dependent ((n - 1) / 146097). generalize dependent ((n - 1) mod 146097).
  intros r1 B1 n400 E1.
  pose proof (Z.div_mod r1 36524 ltac:(lia)) as E2.
  pose proof (Z.mod_pos_bound r1 36524 ltac:(lia)) as B2.
  generalize dependent (r1 / 36524). generalize dependent (r1 mod 36524).
  intros r2 B2 n100 E2.
  pose proof (Z.div_mod r2 1461 ltac:(lia)) as E3.
  pose proof (Z.mod_pos_bound r2 1461 ltac:(lia)) as B3.
  generalize dependent (r2 / 1461). generalize dependent (r2 mod 1461).
  intros r3 B3 n4 E3.
  pose proof (Z.div_mod r3 365 ltac:(lia)) as E4.
  pose proof (Z.mod_pos_bound r3 365 ltac:(lia)) as B4.
  generalize dependent (r3 / 365). generalize dependent (r3 mod 365).
  intros r4 B4 n1 E4.
  unfold is_leap, days_before_year.
  case_match; Z.div_mod_to_equations; lia.
Qed.

Lemma ord2ymd_spec n :
  let '(y, m, d) := ord2ymd n in
  ymd2ord y m d = n /\ 1 <= m <= 12 /\ 1 <= d <= days_in_month y m.
Proof.
  pose proof (ord2ymd_year n) as Hy. unfold ord2ymd. cbv zeta in *.
  destruct (orb _ _); destruct Hy as [Hleap Hdays].
  - unfold ymd2ord. rewrite days_in_month_leap, Hleap.
    change (days_before_month true 12) with 335. change (days_in_month 1 12) with 31. simpl. lia.
  - rewrite <- Hleap. clear Hleap.
    match goal with |- context [month_day (is_leap ?y) ?r] =>
      generalize dependent y; intros year Hdays;
      pose proof (month_day_ok (is_leap year) r) as Hmd end.
    pose proof (Z.mod_pos_bound ((((n - 1) mod 146097) mod 36524) mod 1461) 365 ltac:(lia)) as Hr.
    generalize dependent (((((n - 1) mod 146097) mod 36524) mod 1461) mod 365).
    intros r Hdays Hmd Hr. unfold check_month_day in Hmd.
    destruct (month_day (is_leap year) r) as [m d].
    rewrite days_in_month_leap. unfold ymd2ord.
    rewrite !andb_true_iff, !in_range_spec, Z.eqb_eq in Hmd.
    destruct Hmd as [[Hm Hd] Hsum]; [destruct (is_leap year); lia|]. lia.
Qed.

Lemma instant_add_usec d delta : instant (add_usec d delta) = instant d + delta.
Proof.
  unfold instant, add_usec. set (t := local_instant d + delta).
  pose proof (ord2ymd_spec (t / usec_per_day)) as Hord.
  destruct (ord2ymd _) as [[y mo] day]. destruct Hord as [Hord _].
  unfold local_instant at 1. simpl. rewrite Hord. unfold time_usec.
  replace (local_instant d) with (t - delta) by lia.
  generalize t (default 0 (dt_offset d)). clear. unfold usec_per_day. intros t o.
  Z.div_mod_to_equations. lia.
Qed.

Lemma add_usec_utc_valid d delta :
  is_utc d = true -> in_range 1 (dt_year (add_usec d delta)) 9999 = true ->
  utc_valid (add_usec d delta) = true.
Proof.
  unfold utc_valid, valid_datetime, is_utc, add_usec. set (t := local_instant d + delta).
  pose proof (ord2ymd_spec (t / usec_per_day)) as Hord.
  destruct (ord2ymd _) as [[y mo] day]. destruct Hord as (_ & Hm & Hday). simpl.
  intros Hutc Hyear. apply bool_decide_eq_true in Hutc. rewrite Hutc.
  rewrite !andb_true_iff, !in_range_spec in *. rewrite bool_decide_eq_true. unfold usec_per_day.
  pose proof (Z.mod_pos_bound t 86400000000 ltac:(lia)).
  assert (0 <= t mod 86400000000 / 3600000000 <= 23) by (Z.div_mod_to_equations; lia).
  pose proof (Z.mod_pos_bound (t mod 86400000000 / 60000000) 60 ltac:(lia)).
  pose proof (Z.mod_pos_bound (t mod 86400000000 / 1000000) 60 ltac:(lia)).
  pose proof (Z.mod_pos_bound (t mod 86400000000) 1000000 ltac:(lia)).
  repeat split; lia.
Qed.

(** SQLite's text comparison of two stored timestamps. *)
Lemma isoformat_leb a b :
  utc_valid a = true -> utc_valid b = true ->
  str_leb (isoformat a) (isoformat b) = dt_leb a b.
Proof.
  intros Ha Hb. unfold str_leb, dt_leb, String.leb.
  rewrite isoformat_compare by done. unfold Z.leb. by destruct (_ ?= _).
Qed.
