(* ===== verification/Dec.v ===== *)
(** * Python's [decimal.Decimal], as far as the sources use it

    Finite decimals [coef * 10^exp], the numeric-string grammar of the
    constructor, exact comparison, and the operations of the default context
    (28 significant digits, ROUND_HALF_EVEN) followed by [quantize]. *)

From S2P Require Import Prelude Datetime.
From Stdlib Require Import Ascii.

Record dec : Type := mk_dec { coef : Z; dexp : Z }.

Inductive pydec : Type :=
| Finite (d : dec)
| Infinite
| NaN
| SNaN.

#[export] Instance dec_eq_dec : EqDecision dec.
Proof. solve_decision. Defined.
#[export] Instance pydec_eq_dec : EqDecision pydec.
Proof. solve_decision. Defined.

Definition dec_of_Z (n : Z) : dec := mk_dec n 0.

(** ** The constructor [Decimal(text)]

    An optional sign, digits with an optional point and exponent, or infinity,
    or (signalling) NaN with diagnostic digits; surrounding white space and
    underscores are ignored. *)

Fixpoint remove_underscores (s : string) : string :=
  match s with
  | String c s' => if bool_decide (c = "_"%char) then remove_underscores s'
                   else String c (remove_underscores s')
  | "" => ""
  end.

(** The leading digits: their number, their value (continuing [acc]) and the rest. *)
Fixpoint take_digits (acc : Z) (s : string) : nat * Z * string :=
  match s with
  | String c s' =>
      match digit_val c with
      | Some d => let '(n, v, r) := take_digits (10 * acc + d) s' in (S n, v, r)
      | None => (O, acc, s)
      end
  | "" => (O, acc, "")
  end.

Definition take_sign (s : string) : Z * string :=
  match s with
  | String c s' =>
      if bool_decide (c = "+"%char) then (1, s')
      else if bool_decide (c = "-"%char) then (-1, s') else (1, s)
  | "" => (1, "")
  end.

Definition parse_exponent (s : string) : option Z :=
  match s with
  | "" => Some 0
  | String c s' =>
      if bool_decide (c = "E"%char) then
        let '(sign, t) := take_sign s' in
        let '(n, v, r) := take_digits 0 t in
        if (0 <? n)%nat && bool_decide (r = "") then Some (sign * v) else None
      else None
  end.

Definition parse_decimal (text : string) : option pydec :=
  let '(sign, s) := take_sign (str_upper (remove_underscores (str_strip text))) in
  let all_digits t := bool_decide (snd (take_digits 0 t) = "") in
  if bool_decide (s = "INF") || bool_decide (s = "INFINITY") then Some Infinite
  else if str_startswith "NAN" s then (if all_digits (str_drop 3 s) then Some NaN else None)
  else if str_startswith "SNAN" s then (if all_digits (str_drop 4 s) then Some SNaN else None)
  else
    let '(n, v, r) := take_digits 0 s in
    let '(m, v, r) :=
      match r with
      | String c r' => if bool_decide (c = "."%char) then take_digits v r' else (O, v, r)
      | "" => (O, v, "")
      end in
    if (0 <? n + m)%nat then
      e ← parse_exponent r; Some (Finite (mk_dec (sign * v) (e - Z.of_nat m)))
    else None.

(** ** Comparison *)

Definition dec_compare (a b : dec) : comparison :=
  let e := Z.min (dexp a) (dexp b) in
  coef a * 10 ^ (dexp a - e) ?= coef b * 10 ^ (dexp b - e).

Definition dec_leb (a b : dec) : bool := match dec_compare a b with Gt => false | _ => true end.
Definition dec_ltb (a b : dec) : bool := match dec_compare a b with Lt => true | _ => false end.

(** ** Arithmetic in the default context

    Precision 28, ROUND_HALF_EVEN; [quantize] takes its own rounding.  The limits
    on exponents (999999) are out of reach of the amounts and ratios of the
    sources and are not modelled. *)

Definition prec : Z := 28.

Fixpoint ndigits_fuel (fuel : nat) (n : Z) : Z :=
  match fuel with
  | O => 0
  | S f => if n =? 0 then 0 else 1 + ndigits_fuel f (n / 10)
  end.

(** The number of decimal digits of [|n|], one for zero. *)
Definition ndigits (n : Z) : Z :=
  if n =? 0 then 1 else ndigits_fuel (Z.to_nat (Z.log2 (Z.abs n) + 1)) (Z.abs n).

Inductive rounding : Type := ROUND_HALF_EVEN | ROUND_CEILING | ROUND_HALF_UP.

(** [n / d] rounded to an integer, for [0 < d]. *)
Definition round_div (mode : rounding) (n d : Z) : Z :=
  let q := n / d in
  let r := n mod d in
  match mode with
  | ROUND_CEILING => if r =? 0 then q else q + 1
  | ROUND_HALF_EVEN =>
      match 2 * r ?= d with Lt => q | Gt => q + 1 | Eq => if Z.even q then q else q + 1 end
  | ROUND_HALF_UP =>
      match 2 * r ?= d with Lt => q | Gt => q + 1 | Eq => if 0 <=? n then q + 1 else q end
  end.

(** Round a coefficient to [p] digits; a carry that adds a digit is rescaled. *)
Definition dec_fix (p : Z) (d : dec) : dec :=
  let extra := ndigits (coef d) - p in
  if extra <=? 0 then d
  else
    let c := round_div ROUND_HALF_EVEN (coef d) (10 ^ extra) in
    if ndigits c <=? p then mk_dec c (dexp d + extra) else mk_dec (c / 10) (dexp d + extra + 1).

Definition dec_mul (p : Z) (a b : dec) : dec := dec_fix p (mk_dec (coef a * coef b) (dexp a + dexp b)).

(** Trailing zeros of an exact quotient are dropped down to the ideal exponent. *)
Fixpoint strip_zeros (fuel : nat) (c e ideal : Z) : dec :=
  match fuel with
  | O => mk_dec c e
  | S f => if (e <? ideal) && (c mod 10 =? 0) then strip_zeros f (c / 10) (e + 1) ideal else mk_dec c e
  end.

(** [a / b] for [0 <= a], [0 < b]: a quotient with a guard digit and a sticky
    digit for the remainder, then rounded. *)
Definition dec_div (a b : dec) : dec :=
  let shift := ndigits (coef b) - ndigits (coef a) + prec + 1 in
  let e := dexp a - dexp b - shift in
  let '(num, den) := if 0 <=? shift then (coef a * 10 ^ shift, coef b)
                     else (coef a, coef b * 10 ^ (- shift)) in
  let c := num / den in
  if num mod den =? 0 then
    let ideal := dexp a - dexp b in
    dec_fix prec (strip_zeros (Z.to_nat (ideal - e)) c e ideal)
  else dec_fix prec (mk_dec (if c mod 5 =? 0 then c + 1 else c) e).

(** [base ** n] for a non-zero [base] and an integer [n >= 0]: binary
    exponentiation from the left with guard digits, then rounded. *)
Fixpoint pow_pos (p : Z) (base : dec) (n : positive) : dec :=
  match n with
  | xH => base
  | xO m => let r := pow_pos p base m in dec_mul p r r
  | xI m => let r := pow_pos p base m in dec_mul p (dec_mul p r r) base
  end.

Definition dec_pow (base : dec) (n : Z) : dec :=
  match n with
  | Zpos m => dec_fix prec (pow_pos (prec + ndigits n + 2) base m)
  | _ => dec_of_Z 1
  end.

(** [int(d.quantize(Decimal("1"), rounding=mode))] *)
Definition quantize_int (mode : rounding) (d : dec) : res Z :=
  let c := if 0 <=? dexp d then coef d * 10 ^ dexp d else round_div mode (coef d) (10 ^ (- dexp d)) in
  if ndigits c <=? prec then Ok c else Err InvalidOperation.
