(* ===== verification/DecVal.v ===== *)
(** * Values and error bounds of decimals

    The rational value of a [dec], the relative error of rounding and of the
    division, and [quantize] as a ceiling. *)

From S2P Require Import Prelude Dec.
From Stdlib Require Import QArith Qpower Lqa.

#[local] Open Scope Z_scope.

Lemma ndigits_fuel_spec fuel n :
  0 < n -> n < 2 ^ Z.of_nat fuel ->
  10 ^ (ndigits_fuel fuel n - 1) <= n < 10 ^ ndigits_fuel fuel n /\ 1 <= ndigits_fuel fuel n.
Proof.
  revert n. induction fuel as [|fuel IH]; intros n Hn Hlt.
  { simpl in Hlt. lia. }
  rewrite Nat2Z.inj_succ, Z.pow_succ_r in Hlt by lia. cbn [ndigits_fuel].
  destruct (n =? 0) eqn:E; [lia|]. clear E.
  pose proof (Z.div_mod n 10 ltac:(lia)) as Hdm. pose proof (Z.mod_pos_bound n 10 ltac:(lia)) as Hm.
  destruct (decide (n < 10)) as [Hs|Hs].
  - rewrite (Z.div_small n 10) by lia. destruct fuel; simpl; lia.
  - destruct (IH (n / 10)) as [[Hlo Hhi] H1]; [lia|lia|].
    set (k := ndigits_fuel fuel (n / 10)) in *. split; [|lia].
    replace (1 + k - 1) with (Z.succ (k - 1)) by lia. replace (1 + k) with (Z.succ k) by lia.
    rewrite !Z.pow_succ_r by lia. lia.
Qed.

Lemma ndigits_spec n : 0 < n -> 10 ^ (ndigits n - 1) <= n < 10 ^ ndigits n /\ 1 <= ndigits n.
Proof.
  intros Hn. unfold ndigits. destruct (n =? 0) eqn:E; [lia|]. rewrite Z.abs_eq by lia.
  apply ndigits_fuel_spec; [done|]. pose proof (Z.log2_nonneg n). rewrite Z2Nat.id by lia.
  replace (Z.log2 n + 1) with (Z.succ (Z.log2 n)) by lia. by apply Z.log2_spec.
Qed.

Lemma ndigits_le n k : 0 < n -> 0 <= k -> n < 10 ^ k -> ndigits n <= k.
Proof.
  intros Hn Hk Hlt. destruct (ndigits_spec n Hn) as [[Hlo _] H1].
  destruct (decide (k < ndigits n)) as [Hc|]; [|lia].
  assert (10 ^ k <= 10 ^ (ndigits n - 1)) by (apply Z.pow_le_mono_r; lia). lia.
Qed.

(** Rounding to the nearest is within half a unit, the ceiling is the least
    integer that is not below. *)
Lemma round_half_even_bound n d :
  0 < d -> 2 * n - d <= 2 * (d * round_div ROUND_HALF_EVEN n d) <= 2 * n + d.
Proof.
  intros Hd. unfold round_div. pose proof (Z.div_mod n d ltac:(lia)) as Hdm.
  pose proof (Z.mod_pos_bound n d Hd) as Hm.
  destruct (Z.compare_spec (2 * (n mod d)) d); [destruct (Z.even (n / d))| |]; lia.
Qed.

Lemma round_ceiling_bound n d :
  0 < d -> n <= d * round_div ROUND_CEILING n d < n + d.
Proof.
  intros Hd. unfold round_div. pose proof (Z.div_mod n d ltac:(lia)) as Hdm.
  pose proof (Z.mod_pos_bound n d Hd) as Hm. destruct (n mod d =? 0) eqn:E; lia.
Qed.


(** The value of a decimal. *)
Definition dval (d : dec) : Q := (inject_Z (coef d) * (10 # 1) ^ dexp d)%Q.

Lemma pow10_positive e : (0 < (10 # 1) ^ e)%Q.
Proof. by apply Qpower_0_lt. Qed.

Lemma pow10_add a b : ((10 # 1) ^ (a + b) == (10 # 1) ^ a * (10 # 1) ^ b)%Q.
Proof. by apply Qpower_plus. Qed.

Lemma pow10_Z k : (0 <= k)%Z -> ((10 # 1) ^ k == inject_Z (10 ^ k))%Q.
Proof. intros Hk. rewrite Zpower_Qpower by done. reflexivity. Qed.

Lemma pow10_inv k : ((10 # 1) ^ (- k) == / (10 # 1) ^ k)%Q.
Proof. apply Qpower_opp. Qed.

(** [a] is within the relative error [eps] of [b]. *)
Definition near (eps a b : Q) : Prop := (b * (1 - eps) <= a <= b * (1 + eps))%Q.

Lemma near_refl eps a : (0 <= eps)%Q -> (0 <= a)%Q -> near eps a a.
Proof. intros. split; nra. Qed.

Definition half_ulp : Q := 5 # 10 ^ 28.

Lemma dval_shift c e k : (0 <= k)%Z -> (dval (mk_dec c (e + k)) == inject_Z (c * 10 ^ k) * (10 # 1) ^ e)%Q.
Proof.
  intros Hk. unfold dval. simpl. rewrite pow10_add, (pow10_Z k Hk), inject_Z_mult. ring.
Qed.

(** A coefficient within [1 / 2 * 10^27] of another, at the same exponent. *)
Lemma near_coef a b e :
  (0 < b)%Z -> (2 * 10 ^ 27 * Z.abs (a - b) <= b)%Z ->
  near half_ulp (inject_Z a * (10 # 1) ^ e) (inject_Z b * (10 # 1) ^ e).
Proof.
  intros Hb Hab. pose proof (pow10_positive e) as Hp.
  assert (inject_Z b * (1 - half_ulp) <= inject_Z a <= inject_Z b * (1 + half_ulp))%Q as [H1 H2].
  { unfold half_ulp, Qle, Qplus, Qminus, Qmult, Qopp, inject_Z. cbn. lia. }
  split; rewrite <- Qmult_assoc, (Qmult_comm ((10 # 1) ^ e)), Qmult_assoc;
    (apply Qmult_le_compat_r; [done|by apply Qlt_le_weak]).
Qed.

Lemma near_proper eps a a' b b' : (a == a')%Q -> (b == b')%Q -> near eps a' b' -> near eps a b.
Proof. unfold near. intros -> ->. done. Qed.

Lemma dec_fix_near d :
  (0 < coef d)%Z -> near half_ulp (dval (dec_fix prec d)) (dval d) /\ (0 < coef (dec_fix prec d))%Z.
Proof.
  intros Hc. unfold dec_fix. destruct (ndigits_spec (coef d) Hc) as [[Hlo Hhi] H1].
  destruct (Z.leb_spec (ndigits (coef d) - prec) 0) as [|Hx].
  { split; [|done]. apply near_refl; [discriminate|]. unfold dval. apply Qmult_le_0_compat.
    - rewrite <- (Zle_Qle 0). lia.
    - apply Qlt_le_weak, pow10_positive. }
  set (extra := (ndigits (coef d) - prec)%Z) in *. set (D := (10 ^ extra)%Z).
  assert (0 < D)%Z as HD by (apply Z.pow_pos_nonneg; lia).
  pose proof (round_half_even_bound (coef d) D HD) as Hr.
  set (c := round_div ROUND_HALF_EVEN (coef d) D) in *.
  assert (10 ^ 27 * D <= coef d < 10 ^ 28 * D)%Z as [HL HU].
  { unfold D. rewrite <- !Z.pow_add_r by lia. unfold extra, prec in *.
    replace (27 + (ndigits (coef d) - 28))%Z with (ndigits (coef d) - 1)%Z by lia.
    replace (28 + (ndigits (coef d) - 28))%Z with (ndigits (coef d)) by lia. done. }
  assert (0 < c <= 10 ^ 28)%Z as [Hc0 Hc1] by (split; nia).
  assert (near half_ulp (dval (mk_dec c (dexp d + extra))) (dval d)) as Hn.
  { eapply near_proper; [apply dval_shift; lia|reflexivity|]. apply near_coef; [done|]. fold D. nia. }
  destruct (Z.leb_spec (ndigits c) prec) as [|Hnd]; simpl; [done|].
  assert (c = 10 ^ 28)%Z as Ec.
  { destruct (decide (c < 10 ^ 28)%Z) as [Hlt|]; [|lia]. apply ndigits_le in Hlt; [|lia|lia].
    unfold prec in Hnd. lia. }
  split; [|rewrite Ec; reflexivity]. eapply near_proper; [|reflexivity|exact Hn].
  rewrite Ec, (dval_shift _ (dexp d + extra) 1) by lia. reflexivity.
Qed.

Lemma near_trans e1 e2 e3 a b c :
  (0 <= c)%Q -> (0 <= e1 <= 1)%Q -> (0 <= e2)%Q -> (e1 + e2 + e1 * e2 <= e3)%Q ->
  near e1 a b -> near e2 b c -> near e3 a c.
Proof. unfold near. intros Hc [H1 H1'] H2 H3 [Ha Hb] [Hd He]. split; nra. Qed.

Lemma strip_zeros_val f c e ideal :
  (0 < c)%Z ->
  (dval (strip_zeros f c e ideal) == dval (mk_dec c e))%Q /\ (0 < coef (strip_zeros f c e ideal))%Z.
Proof.
  revert c e. induction f as [|f IH]; intros c e Hc; simpl; [done|].
  destruct (andb _ _) eqn:E; [|done]. apply andb_true_iff in E as [_ E%Z.eqb_eq].
  pose proof (Z.div_mod c 10 ltac:(lia)) as Hdm.
  destruct (IH (c / 10) (e + 1))%Z as [-> Hpos]; [lia|]. split; [|done].
  rewrite (dval_shift _ e 1) by lia. unfold dval. simpl. change (10 ^ 1)%Z with 10%Z.
  replace (c / 10 * 10)%Z with c by lia. reflexivity.
Qed.

(** The quotient before rounding, as a fraction at exponent [e]. *)
Lemma div_fraction a b shift (num den : Z) :
  (0 < coef b)%Z ->
  (num, den) = (if 0 <=? shift then (coef a * 10 ^ shift, coef b) else (coef a, coef b * 10 ^ (- shift)))%Z ->
  (dval a / dval b == inject_Z num / inject_Z den * (10 # 1) ^ (dexp a - dexp b - shift))%Q.
Proof.
  intros Hb E. assert (0 < inject_Z (coef b))%Q as Hb0 by (by rewrite <- (Zlt_Qlt 0)).
  pose proof (pow10_positive (dexp b)) as Hpb. pose proof (pow10_positive shift) as Hps.
  replace (dexp a - dexp b - shift)%Z with (dexp a + (- dexp b + - shift))%Z by lia.
  rewrite !pow10_add, !pow10_inv. unfold dval.
  destruct (Z.leb_spec 0 shift) as [Hs|Hs]; injection E as -> ->; rewrite inject_Z_mult.
  - rewrite <- (pow10_Z shift) by done. field. repeat split; lra.
  - rewrite <- (pow10_Z (- shift)) by lia. rewrite pow10_inv. field. repeat split; lra.
Qed.

Lemma div_scaled a b (num den : Z) :
  let shift := (ndigits b - ndigits a + prec + 1)%Z in
  (0 < a)%Z -> (0 < b)%Z ->
  (num, den) = (if 0 <=? shift then (a * 10 ^ shift, b) else (a, b * 10 ^ (- shift)))%Z ->
  (0 < den /\ 10 ^ 28 * den <= num)%Z.
Proof.
  intros shift Ha Hb E. destruct (ndigits_spec a Ha) as [[La _] Na], (ndigits_spec b Hb) as [[_ Ub] Nb].
  assert (0 < 10 ^ 28)%Z by done.
  destruct (Z.leb_spec 0 shift) as [Hs|Hs]; injection E as -> ->; split; try lia.
  - assert (10 ^ 28 * 10 ^ ndigits b <= 10 ^ (ndigits a - 1) * 10 ^ shift)%Z.
    { rewrite <- !Z.pow_add_r by lia. apply Z.pow_le_mono_r; unfold shift, prec; lia. }
    assert (0 < 10 ^ shift)%Z by (apply Z.pow_pos_nonneg; lia). nia.
  - assert (10 ^ 28 * (10 ^ ndigits b * 10 ^ (- shift)) <= 10 ^ (ndigits a - 1))%Z.
    { rewrite <- !Z.pow_add_r by lia. apply Z.pow_le_mono_r; unfold shift, prec; lia. }
    assert (0 < 10 ^ (- shift))%Z by (apply Z.pow_pos_nonneg; lia). nia.
Qed.

Definition ulp : Q := 1 # 10 ^ 27.

(** A floor of a large fraction, or one more, is near the fraction. *)
Lemma near_floor (num den c e : Z) :
  (0 < den)%Z -> (10 ^ 28 * den <= num)%Z -> (num / den <= c <= num / den + 1)%Z ->
  near (1 # 10 ^ 28) (dval (mk_dec c e)) (inject_Z num / inject_Z den * (10 # 1) ^ e).
Proof.
  intros Hd Hn Hc. pose proof (pow10_positive e) as Hp.
  pose proof (Z.div_mod num den ltac:(lia)) as Hdm. pose proof (Z.mod_pos_bound num den Hd) as Hm.
  assert (0 < inject_Z den)%Q as Hd' by (rewrite <- (Zlt_Qlt 0); lia).
  assert (inject_Z num / inject_Z den * (1 - (1 # 10 ^ 28)) <= inject_Z c <=
          inject_Z num / inject_Z den * (1 + (1 # 10 ^ 28)))%Q as [H1 H2].
  { split.
    - rewrite Qmult_comm. unfold Qdiv. rewrite Qmult_assoc. apply Qle_shift_div_r; [done|].
      unfold Qle, Qminus, Qplus, Qmult, Qopp, inject_Z. cbn. nia.
    - rewrite Qmult_comm. unfold Qdiv. rewrite Qmult_assoc. apply Qle_shift_div_l; [done|].
      unfold Qle, Qplus, Qmult, inject_Z. cbn. nia. }
  unfold dval. cbn [coef dexp].
  split; rewrite <- Qmult_assoc, (Qmult_comm ((10 # 1) ^ e)), Qmult_assoc;
    (apply Qmult_le_compat_r; [done|by apply Qlt_le_weak]).
Qed.

Lemma dval_pos d : (0 < coef d)%Z -> (0 < dval d)%Q.
Proof.
  intros H. unfold dval. apply Qmult_lt_0_compat; [|apply pow10_positive]. rewrite <- (Zlt_Qlt 0). done.
Qed.

(** Division is exact up to one unit in the 28th digit. *)
Lemma dec_div_near a b :
  (0 < coef a)%Z -> (0 < coef b)%Z -> near ulp (dval (dec_div a b)) (dval a / dval b).
Proof.
  intros Ha Hb. unfold dec_div. set (shift := (ndigits (coef b) - ndigits (coef a) + prec + 1)%Z).
  destruct (if 0 <=? shift then _ else _)%Z as [num den] eqn:E. symmetry in E.
  pose proof (div_fraction a b shift num den Hb E) as Hq.
  destruct (div_scaled (coef a) (coef b) num den Ha Hb E) as [Hd Hn].
  set (e := (dexp a - dexp b - shift)%Z) in *. clearbody e shift.
  assert (0 <= dval a / dval b)%Q as Hq0.
  { apply Qlt_le_weak, Qlt_shift_div_l; [by apply dval_pos|]. rewrite Qmult_0_l. by apply dval_pos. }
  assert (0 < num / den)%Z as Hfl by (apply Z.div_str_pos; lia).
  assert (forall d, (0 < coef d)%Z -> near (1 # 10 ^ 28) (dval d) (dval a / dval b) ->
    near ulp (dval (dec_fix prec d)) (dval a / dval b)) as Hfix.
  { intros d Hd0 Hnd. destruct (dec_fix_near d Hd0) as [Hf _].
    eapply (near_trans half_ulp (1 # 10 ^ 28)); [done|..|exact Hf|exact Hnd]; by vm_compute. }
  destruct (Z.eqb_spec (num mod den) 0) as [Hr|Hr]; apply Hfix.
  - by apply strip_zeros_val.
  - eapply near_proper; [by apply strip_zeros_val|exact Hq|]. apply near_floor; [done|done|lia].
  - simpl. destruct (_ =? 0)%Z; lia.
  - eapply near_proper; [reflexivity|exact Hq|]. apply near_floor; [done|done|]. destruct (_ =? 0)%Z; lia.
Qed.

(** The ceiling computed by [quantize]. *)
Lemma ceiling_bound d :
  (dval d <= inject_Z (if (0 <=? dexp d)%Z then coef d * 10 ^ dexp d
     else round_div ROUND_CEILING (coef d) (10 ^ (- dexp d)))%Z < dval d + 1)%Q.
Proof.
  unfold dval. destruct (Z.leb_spec 0 (dexp d)) as [He|He].
  - rewrite (pow10_Z _ He), <- inject_Z_mult. split; [apply Qle_refl|].
    rewrite <- Qplus_0_r at 1. by apply Qplus_lt_r.
  - set (D := (10 ^ (- dexp d))%Z). assert (0 < D)%Z as HD by (apply Z.pow_pos_nonneg; lia).
    pose proof (round_ceiling_bound (coef d) D HD) as [Hlo Hhi].
    set (c := round_div ROUND_CEILING (coef d) D) in *.
    assert ((10 # 1) ^ dexp d == / inject_Z D)%Q as ->.
    { unfold D. rewrite <- pow10_Z by lia. rewrite pow10_inv. by rewrite Qinv_involutive. }
    assert (0 < inject_Z D)%Q as HD' by (rewrite <- (Zlt_Qlt 0); lia). split.
    + apply Qle_shift_div_r; [done|]. rewrite <- inject_Z_mult, <- Zle_Qle, Z.mul_comm. exact Hlo.
    + assert (inject_Z c - 1 < inject_Z (coef d) / inject_Z D)%Q as H.
      { apply Qlt_shift_div_l; [done|].
        assert ((inject_Z c - 1) * inject_Z D == inject_Z (c * D + - D))%Q as ->
          by (rewrite inject_Z_plus, inject_Z_opp, inject_Z_mult; ring).
        rewrite <- Zlt_Qlt. lia. }
      unfold Qdiv in H. generalize dependent (inject_Z (coef d) * / inject_Z D)%Q. intros v H. lra.
Qed.

(** [quantize] with ROUND_CEILING is the least integer that is not below. *)
Lemma quantize_ceiling d n :
  quantize_int ROUND_CEILING d = Ok n -> (dval d <= inject_Z n < dval d + 1)%Q.
Proof.
  unfold quantize_int. case_match; [|done]. intros [= <-]. apply ceiling_bound.
Qed.
