(* ===== verification/Domain.v ===== *)
(** * The domain model: [packages/domain/models.py]

    Enumerations, money, and the messages exchanged between the core and the
    broker workers, with their [__post_init__] validation and their payload
    codecs.  A JSON object is a finite map from strings to [jval]; the canonical
    SHA-256 of a payload is an argument of the definitions that use it. *)

From S2P Require Import Prelude Datetime Dec.

(** ** JSON values *)

Inductive jval : Type :=
| JNull
| JBool (b : bool)
| JInt (n : Z)
| JFloat (text : string)
| JStr (s : string)
| JComposite (text : string). (* an array or an object: no field of these messages accepts one *)

#[export] Instance jval_eq_dec : EqDecision jval.
Proof. solve_decision. Defined.

Abbreviation payload := (gmap string jval).

(** [payload.get(name)]: a missing key reads as [None]. *)
Definition pget (p : payload) (name : string) : jval := default JNull (p !! name).

(** The required-field loop of the [from_payload] class methods: a [str] field and
    an [int] field ([bool] is refused although it is an [int] in Python). *)
Definition req_str (err : string) (p : payload) (name : string) : res string :=
  match pget p name with JStr s => Ok s | _ => Err (ValueError (err +:+ name)) end.

Definition req_int (err : string) (p : payload) (name : string) : res Z :=
  match pget p name with JInt n => Ok n | _ => Err (ValueError (err +:+ name)) end.

(** An optional [str] or [int] field, [None] when absent. *)
Definition as_opt_str (err name : string) (v : jval) : res (option string) :=
  match v with
  | JNull => Ok None
  | JStr s => Ok (Some s)
  | _ => Err (ValueError (err +:+ name))
  end.

Definition as_opt_int (err name : string) (v : jval) : res (option Z) :=
  match v with
  | JNull => Ok None
  | JInt n => Ok (Some n)
  | _ => Err (ValueError (err +:+ name))
  end.

Definition opt_str (err : string) (p : payload) (name : string) : res (option string) :=
  as_opt_str err name (pget p name).

Definition opt_int (err : string) (p : payload) (name : string) : res (option Z) :=
  as_opt_int err name (pget p name).

(** [if v is not None: payload[name] = v] *)
Definition opt_field {A} (name : string) (f : A -> jval) (o : option A) : list (string * jval) :=
  match o with Some v => [(name, f v)] | None => [] end.

Definition jopt_str (o : option string) : jval := from_option JStr JNull o.
Definition jopt_int (o : option Z) : jval := from_option JInt JNull o.

Lemma as_opt_str_jopt err name o : as_opt_str err name (jopt_str o) = Ok o.
Proof. by destruct o. Qed.

Lemma as_opt_int_jopt err name o : as_opt_int err name (jopt_int o) = Ok o.
Proof. by destruct o. Qed.

(** Lookup in a payload given by its fields. *)
Fixpoint assoc (k : string) (l : list (string * jval)) : option jval :=
  match l with
  | [] => None
  | (k', v) :: l' => if String.eqb k k' then Some v else assoc k l'
  end.

Lemma lookup_fields (k : string) (l : list (string * jval)) :
  (list_to_map l : payload) !! k = assoc k l.
Proof.
  induction l as [|[k' v] l IH]; [done|]. rewrite list_to_map_cons. cbn [assoc].
  destruct (String.eqb_spec k k') as [->|Hne].
  - apply lookup_insert_eq.
  - by rewrite lookup_insert_ne by congruence.
Qed.

(** ** Enumerations *)

Inductive Broker : Type := DERIV | IQ_OPTION.
Inductive Direction : Type := CALL | PUT.
Inductive RiskReservationState : Type := ACTIVE | RELEASED.
Inductive OutboxState : Type :=
| OB_PENDING | OB_DISPATCHING | OB_DISPATCHED | OB_AMBIGUOUS | OB_CANCELLED
| OB_BLOCKED_NOT_SENT | OB_RECONCILED.
Inductive OrderState : Type :=
| OUTBOXED | DISPATCHING | ACCEPTED | OPEN | UNKNOWN | RECONCILING | SETTLED
| SETTLEMENT_UNKNOWN | REJECTED | MANUAL_REVIEW | SEND_BLOCKED.
Inductive WorkerOutcome : Type :=
| WO_ACCEPTED | WO_REJECTED | WO_TIMEOUT_AFTER_POSSIBLE_SEND.
Inductive ExternalOrderStatus : Type :=
| EX_ACCEPTED | EX_REJECTED | EX_OPEN | EX_SETTLED | EX_EXTERNAL_UNKNOWN | EX_SETTLEMENT_UNKNOWN.
Inductive StatusQueryOutcome : Type :=
| SQ_FOUND | SQ_NOT_FOUND | SQ_UNAVAILABLE | SQ_QUERY_TIMEOUT | SQ_INVALID_RESPONSE.
Inductive ReconciliationSource : Type := STATUS_QUERY.

#[export] Instance Broker_eq_dec : EqDecision Broker.
Proof. solve_decision. Defined.
#[export] Instance Direction_eq_dec : EqDecision Direction.
Proof. solve_decision. Defined.
#[export] Instance RiskReservationState_eq_dec : EqDecision RiskReservationState.
Proof. solve_decision. Defined.
#[export] Instance OutboxState_eq_dec : EqDecision OutboxState.
Proof. solve_decision. Defined.
#[export] Instance OrderState_eq_dec : EqDecision OrderState.
Proof. solve_decision. Defined.
#[export] Instance WorkerOutcome_eq_dec : EqDecision WorkerOutcome.
Proof. solve_decision. Defined.
#[export] Instance ExternalOrderStatus_eq_dec : EqDecision ExternalOrderStatus.
Proof. solve_decision. Defined.
#[export] Instance StatusQueryOutcome_eq_dec : EqDecision StatusQueryOutcome.
Proof. solve_decision. Defined.
#[export] Instance ReconciliationSource_eq_dec : EqDecision ReconciliationSource.
Proof. solve_decision. Defined.

(** [OrderState.is_terminal] *)
Definition is_terminal (s : OrderState) : bool :=
  match s with SETTLED | REJECTED => true | _ => false end.

(** A [StrEnum]: its members with their values, and the constructor [E(value)]. *)
Class StrEnum (E : Type) := {
  value : E -> string;
  members : list E;
  value_inj : forall x y, value x = value y -> x = y;
  members_all : forall x, x ∈ members
}.

Definition of_value {E} `{StrEnum E} (s : string) : res E :=
  match List.find (fun x => bool_decide (value x = s)) members with
  | Some x => Ok x
  | None => Err (ValueError "not a valid member")
  end.

Lemma of_value_value {E} `{StrEnum E} (x : E) : of_value (value x) = Ok x.
Proof.
  unfold of_value. destruct (List.find _ _) as [y|] eqn:Hf.
  - apply find_some in Hf as [_ Hy%bool_decide_eq_true]. by apply value_inj in Hy as ->.
  - pose proof (members_all x) as Hx%list_elem_of_In.
    apply (find_none _ _ Hf), bool_decide_eq_false in Hx. done.
Qed.

Ltac solve_enum :=
  match goal with
  | |- forall x y, _ = _ -> x = y => by intros [] []
  | |- forall x, x ∈ _ => intros []; repeat (apply elem_of_cons; (by left) || right)
  end.

#[export] Program Instance Broker_enum : StrEnum Broker := {|
  value b := match b with DERIV => "DERIV" | IQ_OPTION => "IQ_OPTION" end;
  members := [DERIV; IQ_OPTION]
|}.
Solve All Obligations with solve_enum.

#[export] Program Instance Direction_enum : StrEnum Direction := {|
  value d := match d with CALL => "CALL" | PUT => "PUT" end;
  members := [CALL; PUT]
|}.
Solve All Obligations with solve_enum.

#[export] Program Instance ExternalOrderStatus_enum : StrEnum ExternalOrderStatus := {|
  value s := match s with
    | EX_ACCEPTED => "ACCEPTED" | EX_REJECTED => "REJECTED" | EX_OPEN => "OPEN"
    | EX_SETTLED => "SETTLED" | EX_EXTERNAL_UNKNOWN => "EXTERNAL_UNKNOWN"
    | EX_SETTLEMENT_UNKNOWN => "SETTLEMENT_UNKNOWN" end;
  members := [EX_ACCEPTED; EX_REJECTED; EX_OPEN; EX_SETTLED; EX_EXTERNAL_UNKNOWN;
              EX_SETTLEMENT_UNKNOWN]
|}.
Solve All Obligations with solve_enum.

#[export] Program Instance ReconciliationSource_enum : StrEnum ReconciliationSource := {|
  value s := match s with STATUS_QUERY => "STATUS_QUERY" end;
  members := [STATUS_QUERY]
|}.
Solve All Obligations with solve_enum.

(** ** Validation helpers and money *)

Definition require_aware_utc (d : datetime) (field : string) : res unit :=
  match dt_offset d with
  | None => Err (ValueError (field +:+ " must be timezone-aware"))
  | Some o => guard_res (o =? 0) (ValueError (field +:+ " must be UTC"))
  end.

(** [for field_name in (...): if not getattr(self, field_name).strip(): raise] *)
Fixpoint require_nonempty (fields : list (string * string)) : res unit :=
  match fields with
  | [] => Ok tt
  | (name, v) :: rest =>
      _ ← guard_res (nonblank v) (ValueError (name +:+ " cannot be empty"));
      require_nonempty rest
  end.

Definition normalize_currency (err : string) (c : string) : res string :=
  let normalized := str_upper (str_strip c) in
  _ ← guard_res ((String.length normalized =? 3)%nat && str_isalpha normalized) (ValueError err);
  Ok normalized.

Record Money : Type := mk_Money { minor_units : Z; currency : string }.

#[export] Instance Money_eq_dec : EqDecision Money.
Proof. solve_decision. Defined.

(** The constructor [Money(minor_units, currency)]. *)
Definition new_Money (minor : Z) (cur : string) : res Money :=
  c ← normalize_currency "currency must be a three-letter code" cur;
  Ok (mk_Money minor c).

Definition digit_barrier_products : list string := ["DIGITDIFF"; "DIGITOVER"; "DIGITUNDER"].
Definition digit_parity_products : list string := ["DIGITEVEN"; "DIGITODD"].
Definition digit_products : list string := digit_barrier_products ++ digit_parity_products.

Definition validate_digit_contract (product : string) (prediction_digit : option Z)
    (duration : Z) (duration_unit : string) (require_barrier : bool) : res unit :=
  let normalized := str_upper (str_strip product) in
  if negb (bool_decide (normalized ∈ digit_products)) then Ok tt
  else
    _ ← guard_res ((duration =? 1) && bool_decide (duration_unit = "t"))
          (ValueError (normalized +:+ " requires one-tick duration"));
    _ ← guard_res (negb (require_barrier && bool_decide (normalized ∈ digit_barrier_products) &&
                         bool_decide (prediction_digit = None)))
          (ValueError (normalized +:+ " requires a prediction digit"));
    guard_res (negb (bool_decide (normalized ∈ digit_parity_products) &&
                     bool_decide (prediction_digit <> None)))
      (ValueError (normalized +:+ " does not accept a prediction digit")).

(** The amount, duration and digit checks shared by [OrderRequest] and
    [OrderCommand]. *)
Definition validate_order_terms (product : string) (amount : Money) (duration : Z)
    (duration_unit : string) (prediction_digit : option Z) (require_barrier : bool) : res unit :=
  _ ← guard_res (0 <? minor_units amount) (ValueError "order amount must be positive");
  _ ← guard_res (0 <? duration) (ValueError "duration must be positive");
  _ ← guard_res (bool_decide (duration_unit ∈ ["m"; "s"; "t"]))
        (ValueError "duration_unit must be 'm', 's' or 't'");
  _ ← guard_res (match prediction_digit with None => true | Some d => in_range 0 d 9 end)
        (ValueError "prediction_digit must be between zero and nine");
  validate_digit_contract product prediction_digit duration duration_unit require_barrier.

(** ** [OrderRequest] and [OrderCommand] *)

Record OrderRequest : Type := mk_OrderRequest {
  rq_correlation_id : string; rq_broker : Broker; rq_account_id : string;
  rq_product : string; rq_symbol : string; rq_direction : Direction; rq_amount : Money;
  rq_strategy_id : string; rq_strategy_version : string; rq_deadline_at : datetime;
  rq_duration : Z; rq_duration_unit : string; rq_prediction_digit : option Z
}.

(** [OrderRequest.__post_init__] *)
Definition OrderRequest_post_init (r : OrderRequest) : res OrderRequest :=
  _ ← require_aware_utc (rq_deadline_at r) "deadline_at";
  _ ← require_nonempty [("correlation_id", rq_correlation_id r); ("account_id", rq_account_id r);
        ("product", rq_product r); ("symbol", rq_symbol r); ("strategy_id", rq_strategy_id r);
        ("strategy_version", rq_strategy_version r)];
  _ ← validate_order_terms (rq_product r) (rq_amount r) (rq_duration r) (rq_duration_unit r)
        (rq_prediction_digit r) true;
  Ok r.

Record OrderCommand : Type := mk_OrderCommand {
  oc_message_id : string; oc_correlation_id : string; oc_intent_id : string;
  oc_order_id : string; oc_broker : Broker; oc_account_id : string; oc_product : string;
  oc_symbol : string; oc_direction : Direction; oc_amount : Money; oc_deadline_at : datetime;
  oc_duration : Z; oc_duration_unit : string; oc_prediction_digit : option Z
}.

#[export] Instance OrderCommand_eq_dec : EqDecision OrderCommand.
Proof. solve_decision. Defined.

(** [OrderCommand.__post_init__] *)
Definition OrderCommand_post_init (c : OrderCommand) : res OrderCommand :=
  _ ← require_aware_utc (oc_deadline_at c) "deadline_at";
  _ ← require_nonempty [("message_id", oc_message_id c); ("correlation_id", oc_correlation_id c);
        ("intent_id", oc_intent_id c); ("order_id", oc_order_id c);
        ("account_id", oc_account_id c); ("product", oc_product c); ("symbol", oc_symbol c)];
  _ ← validate_order_terms (oc_product c) (oc_amount c) (oc_duration c) (oc_duration_unit c)
        (oc_prediction_digit c) false;
  Ok c.

(** [OrderCommand.to_payload] *)
Definition OrderCommand_to_payload (c : OrderCommand) : payload :=
  list_to_map ([
    ("message_id", JStr (oc_message_id c));
    ("correlation_id", JStr (oc_correlation_id c));
    ("intent_id", JStr (oc_intent_id c));
    ("order_id", JStr (oc_order_id c));
    ("broker", JStr (value (oc_broker c)));
    ("account_id", JStr (oc_account_id c));
    ("product", JStr (oc_product c));
    ("symbol", JStr (oc_symbol c));
    ("direction", JStr (value (oc_direction c)));
    ("amount_minor", JInt (minor_units (oc_amount c)));
    ("currency", JStr (currency (oc_amount c)));
    ("deadline_at", JStr (isoformat (oc_deadline_at c)));
    ("duration", JInt (oc_duration c));
    ("duration_unit", JStr (oc_duration_unit c))] ++
    opt_field "prediction_digit" JInt (oc_prediction_digit c)).

(** The [prediction_digit] field: absent, or an [int] between zero and nine. *)
Definition opt_digit (err : string) (v : jval) : res (option Z) :=
  match v with
  | JNull => Ok None
  | JInt d => if in_range 0 d 9 then Ok (Some d) else Err (ValueError (err +:+ "prediction_digit"))
  | _ => Err (ValueError (err +:+ "prediction_digit"))
  end.

(** [OrderCommand.from_payload] *)
Definition OrderCommand_from_payload (p : payload) : res OrderCommand :=
  let err := "invalid external payload field: " in
  message_id ← req_str err p "message_id";
  correlation_id ← req_str err p "correlation_id";
  intent_id ← req_str err p "intent_id";
  order_id ← req_str err p "order_id";
  broker ← req_str err p "broker";
  account_id ← req_str err p "account_id";
  product ← req_str err p "product";
  symbol ← req_str err p "symbol";
  direction ← req_str err p "direction";
  amount_minor ← req_int err p "amount_minor";
  cur ← req_str err p "currency";
  deadline ← req_str err p "deadline_at";
  duration ← match p !! "duration" with
             | None => Ok 1
             | Some (JInt n) => Ok n
             | Some _ => Err (ValueError (err +:+ "duration"))
             end;
  duration_unit ← match p !! "duration_unit" with
                  | None => Ok "m"
                  | Some (JStr s) => Ok s
                  | Some _ => Err (ValueError (err +:+ "duration_unit"))
                  end;
  prediction_digit ← opt_digit err (pget p "prediction_digit");
  deadline_at ← fromisoformat deadline;
  _ ← require_aware_utc deadline_at "deadline_at";
  broker ← of_value broker;
  direction ← of_value direction;
  amount ← new_Money amount_minor cur;
  OrderCommand_post_init (mk_OrderCommand message_id correlation_id intent_id order_id broker
    account_id product symbol direction amount deadline_at duration duration_unit
    prediction_digit).

(** Amounts that went through the [Money] constructor. *)
Definition money_ok (m : Money) : bool := bool_decide (new_Money (minor_units m) (currency m) = Ok m).

Lemma new_Money_ok m : money_ok m = true -> new_Money (minor_units m) (currency m) = Ok m.
Proof. apply bool_decide_eq_true. Qed.

Lemma require_aware_utc_Ok d f : require_aware_utc d f = Ok tt <-> dt_offset d = Some 0.
Proof.
  unfold require_aware_utc. destruct (dt_offset d) as [o|]; [|done].
  unfold guard_res. destruct (Z.eqb_spec o 0); split; congruence.
Qed.

Lemma guard_res_Ok b e u : guard_res b e = Ok u <-> b = true.
Proof. destruct u, b; done. Qed.

Lemma new_Money_minor n c m : new_Money n c = Ok m -> minor_units m = n.
Proof. unfold new_Money. intros (c' & _ & [= <-])%res_bind_Ok. done. Qed.

Lemma validate_order_terms_digit product amount duration unit d rb u :
  validate_order_terms product amount duration unit (Some d) rb = Ok u -> in_range 0 d 9 = true.
Proof. intros H. unfold validate_order_terms in H. monad_inv H. by apply guard_res_Ok in H3. Qed.

(** Decoding inverts encoding on every command the constructor accepts. *)
Lemma OrderCommand_payload_roundtrip c :
  OrderCommand_post_init c = Ok c -> valid_datetime (oc_deadline_at c) = true ->
  money_ok (oc_amount c) = true ->
  OrderCommand_from_payload (OrderCommand_to_payload c) = Ok c.
Proof.
  intros Hpi Hdl Hm%new_Money_ok. pose proof Hpi as Hv. unfold OrderCommand_post_init in Hv.
  monad_inv Hv. destruct a, a0, a1.
  unfold OrderCommand_to_payload, OrderCommand_from_payload.
  unfold req_str, req_int, pget. rewrite !lookup_fields. cbn -[isoformat fromisoformat value of_value opt_digit].
  assert (forall err, opt_digit err (default JNull (assoc "prediction_digit"
            (opt_field "prediction_digit" JInt (oc_prediction_digit c)))) =
          Ok (oc_prediction_digit c)) as Hdigit.
  { intros err. destruct (oc_prediction_digit c) as [d|]; [|done]. simpl.
    by rewrite (validate_order_terms_digit _ _ _ _ _ _ _ H1). }
  rewrite Hdigit, fromisoformat_isoformat by done. cbn -[value of_value].
  rewrite H, !of_value_value. cbn. rewrite Hm. cbn. by destruct c.
Qed.
(** ** [BrokerEvent] *)

Record BrokerEvent : Type := mk_BrokerEvent {
  be_event_id : string; be_intent_id : string; be_new_state : OrderState;
  be_occurred_at : datetime; be_broker_order_id : option string;
  be_realized_pnl_minor : option Z
}.

(** [BrokerEvent.__post_init__] *)
Definition BrokerEvent_post_init (e : BrokerEvent) : res BrokerEvent :=
  _ ← require_aware_utc (be_occurred_at e) "occurred_at";
  _ ← guard_res (negb (bool_decide (be_event_id e = "")) && negb (bool_decide (be_intent_id e = "")))
        (ValueError "event_id and intent_id are required");
  _ ← guard_res (bool_decide (be_realized_pnl_minor e = None) ||
                 bool_decide (be_new_state e = SETTLED))
        (ValueError "realized P&L is only valid for SETTLED events");
  Ok e.

(** ** [BrokerOrderEvent] *)

Record BrokerOrderEvent : Type := mk_BrokerOrderEvent {
  bo_event_id : string; bo_event_version : Z; bo_broker : Broker; bo_account_id : string;
  bo_client_order_ref : string; bo_broker_order_id : string; bo_correlation_id : string;
  bo_external_sequence : option Z; bo_external_status : ExternalOrderStatus;
  bo_occurred_at : datetime; bo_observed_at : datetime; bo_product : string;
  bo_symbol : string; bo_direction : Direction; bo_amount : Money; bo_result_minor : option Z;
  bo_result_currency : option string; bo_evidence_hash : string;
  bo_seconds_remaining : option Z; bo_current_spot : option string
}.

#[export] Instance BrokerOrderEvent_eq_dec : EqDecision BrokerOrderEvent.
Proof. solve_decision. Defined.

#[export] Instance BrokerOrderEvent_eta : Eta BrokerOrderEvent := fun e => mk_BrokerOrderEvent
  (bo_event_id e) (bo_event_version e) (bo_broker e) (bo_account_id e) (bo_client_order_ref e)
  (bo_broker_order_id e) (bo_correlation_id e) (bo_external_sequence e) (bo_external_status e)
  (bo_occurred_at e) (bo_observed_at e) (bo_product e) (bo_symbol e) (bo_direction e)
  (bo_amount e) (bo_result_minor e) (bo_result_currency e) (bo_evidence_hash e)
  (bo_seconds_remaining e) (bo_current_spot e).

(** The fields of [BrokerOrderEvent.canonical_payload] *)
Definition BrokerOrderEvent_fields (e : BrokerOrderEvent) : list (string * jval) :=
  [("event_id", JStr (bo_event_id e));
   ("event_version", JInt (bo_event_version e));
   ("broker", JStr (value (bo_broker e)));
   ("account_id", JStr (bo_account_id e));
   ("client_order_ref", JStr (bo_client_order_ref e));
   ("broker_order_id", JStr (bo_broker_order_id e));
   ("correlation_id", JStr (bo_correlation_id e));
   ("external_sequence", jopt_int (bo_external_sequence e));
   ("external_status", JStr (value (bo_external_status e)));
   ("occurred_at", JStr (isoformat (bo_occurred_at e)));
   ("observed_at", JStr (isoformat (bo_observed_at e)));
   ("product", JStr (bo_product e));
   ("symbol", JStr (bo_symbol e));
   ("direction", JStr (value (bo_direction e)));
   ("amount_minor", JInt (minor_units (bo_amount e)));
   ("currency", JStr (currency (bo_amount e)));
   ("result_minor", jopt_int (bo_result_minor e));
   ("result_currency", jopt_str (bo_result_currency e))] ++
  opt_field "seconds_remaining" JInt (bo_seconds_remaining e) ++
  opt_field "current_spot" JStr (bo_current_spot e).

Definition canonical_payload (e : BrokerOrderEvent) : payload :=
  list_to_map (BrokerOrderEvent_fields e).

(** [BrokerOrderEvent.to_payload]: [{**canonical_payload, "evidence_hash": ...}] *)
Definition BrokerOrderEvent_to_payload (e : BrokerOrderEvent) : payload :=
  list_to_map (("evidence_hash", JStr (bo_evidence_hash e)) :: BrokerOrderEvent_fields e).

Section broker_order_event.
(** [sha256(json.dumps(payload, sort_keys=True, ...)).hexdigest()] *)
Variable payload_hash : payload -> string.

(** [BrokerOrderEvent.__post_init__] *)
Definition BrokerOrderEvent_post_init (e : BrokerOrderEvent) : res BrokerOrderEvent :=
  _ ← require_aware_utc (bo_occurred_at e) "occurred_at";
  _ ← require_aware_utc (bo_observed_at e) "observed_at";
  _ ← require_nonempty [("event_id", bo_event_id e); ("account_id", bo_account_id e);
        ("client_order_ref", bo_client_order_ref e); ("broker_order_id", bo_broker_order_id e);
        ("correlation_id", bo_correlation_id e); ("product", bo_product e);
        ("symbol", bo_symbol e); ("evidence_hash", bo_evidence_hash e)];
  _ ← guard_res (0 <? bo_event_version e)
        (ValueError "event_version must be a positive integer");
  _ ← guard_res (match bo_external_sequence e with None => true | Some n => 0 <? n end)
        (ValueError "external_sequence must be a positive integer or null");
  _ ← guard_res (0 <? minor_units (bo_amount e)) (ValueError "event amount must be positive");
  _ ← (if bool_decide (bo_external_status e = EX_SETTLED) then
         guard_res (bool_decide (bo_result_minor e <> None) &&
                    bool_decide (bo_result_currency e <> None))
           (ValueError "SETTLED event requires result amount and currency")
       else
         guard_res (bool_decide (bo_result_minor e = None) &&
                    bool_decide (bo_result_currency e = None))
           (ValueError "result is only valid for SETTLED event"));
  e ← match bo_result_currency e with
      | None => Ok e
      | Some c =>
          n ← normalize_currency "result_currency must be a three-letter code" c;
          Ok (e <| bo_result_currency := Some n |>)
      end;
  _ ← guard_res (bool_decide (bo_external_status e <> EX_EXTERNAL_UNKNOWN))
        (ValueError "EXTERNAL_UNKNOWN is not a lifecycle event");
  _ ← guard_res (match bo_seconds_remaining e with None => true | Some n => 0 <=? n end)
        (ValueError "seconds_remaining must be a non-negative integer or null");
  _ ← guard_res (match bo_current_spot e with None => true | Some t => bool_decide (parse_decimal t <> None) end)
        (ValueError "current_spot must be a decimal string or null");
  _ ← guard_res (bool_decide (bo_evidence_hash e = payload_hash (canonical_payload e)))
        (ValueError "broker event evidence_hash does not match canonical payload");
  Ok e.

(** [BrokerOrderEvent.from_payload] *)
Definition BrokerOrderEvent_from_payload (p : payload) : res BrokerOrderEvent :=
  let err := "invalid broker event field: " in
  event_id ← req_str err p "event_id";
  event_version ← req_int err p "event_version";
  broker ← req_str err p "broker";
  account_id ← req_str err p "account_id";
  client_order_ref ← req_str err p "client_order_ref";
  broker_order_id ← req_str err p "broker_order_id";
  correlation_id ← req_str err p "correlation_id";
  external_status ← req_str err p "external_status";
  occurred_at ← req_str err p "occurred_at";
  observed_at ← req_str err p "observed_at";
  product ← req_str err p "product";
  symbol ← req_str err p "symbol";
  direction ← req_str err p "direction";
  amount_minor ← req_int err p "amount_minor";
  cur ← req_str err p "currency";
  evidence_hash ← req_str err p "evidence_hash";
  external_sequence ← opt_int err p "external_sequence";
  result_minor ← opt_int err p "result_minor";
  result_currency ← opt_str err p "result_currency";
  seconds_remaining ← opt_int err p "seconds_remaining";
  current_spot ← opt_str err p "current_spot";
  broker ← of_value broker;
  external_status ← of_value external_status;
  occurred_at ← fromisoformat occurred_at;
  observed_at ← fromisoformat observed_at;
  direction ← of_value direction;
  amount ← new_Money amount_minor cur;
  BrokerOrderEvent_post_init (mk_BrokerOrderEvent event_id event_version broker account_id
    client_order_ref broker_order_id correlation_id external_sequence external_status
    occurred_at observed_at product symbol direction amount result_minor result_currency
    evidence_hash seconds_remaining current_spot).

Lemma BrokerOrderEvent_payload_roundtrip e :
  BrokerOrderEvent_post_init e = Ok e -> valid_datetime (bo_occurred_at e) = true ->
  valid_datetime (bo_observed_at e) = true -> money_ok (bo_amount e) = true ->
  BrokerOrderEvent_from_payload (BrokerOrderEvent_to_payload e) = Ok e.
Proof.
  intros Hpi Hoc Hob Hm%new_Money_ok.
  unfold BrokerOrderEvent_to_payload, BrokerOrderEvent_from_payload, BrokerOrderEvent_fields.
  unfold req_str, req_int, opt_str, opt_int, pget. rewrite !lookup_fields.
  cbn -[isoformat fromisoformat value of_value opt_field as_opt_int as_opt_str jopt_int jopt_str].
  rewrite !as_opt_int_jopt, !as_opt_str_jopt.
  assert (default JNull (assoc "seconds_remaining"
      (opt_field "seconds_remaining" JInt (bo_seconds_remaining e) ++
       opt_field "current_spot" JStr (bo_current_spot e))) = jopt_int (bo_seconds_remaining e)) as ->.
  { by destruct (bo_seconds_remaining e), (bo_current_spot e). }
  assert (default JNull (assoc "current_spot"
      (opt_field "seconds_remaining" JInt (bo_seconds_remaining e) ++
       opt_field "current_spot" JStr (bo_current_spot e))) = jopt_str (bo_current_spot e)) as ->.
  { by destruct (bo_seconds_remaining e), (bo_current_spot e). }
  rewrite as_opt_int_jopt, as_opt_str_jopt, !of_value_value.
  rewrite !fromisoformat_isoformat, Hm by done. cbn -[BrokerOrderEvent_post_init].
  by destruct e.
Qed.
End broker_order_event.

(** ** [OrderStatusQuery] *)

Record OrderStatusQuery : Type := mk_OrderStatusQuery {
  sq_correlation_id : string; sq_intent_id : string; sq_order_id : string;
  sq_client_order_ref : string; sq_broker : Broker; sq_account_id : string;
  sq_product : string; sq_symbol : string; sq_direction : Direction; sq_amount : Money;
  sq_broker_order_id : option string; sq_submitted_at : option datetime
}.

(** [if x is not None and not x.strip(): raise] *)
Definition opt_nonblank (o : option string) : bool :=
  match o with None => true | Some s => nonblank s end.

(** [OrderStatusQuery.__post_init__] *)
Definition OrderStatusQuery_post_init (q : OrderStatusQuery) : res OrderStatusQuery :=
  _ ← require_nonempty [("correlation_id", sq_correlation_id q); ("intent_id", sq_intent_id q);
        ("order_id", sq_order_id q); ("client_order_ref", sq_client_order_ref q);
        ("account_id", sq_account_id q); ("product", sq_product q); ("symbol", sq_symbol q)];
  _ ← guard_res (opt_nonblank (sq_broker_order_id q))
        (ValueError "broker_order_id cannot be blank");
  _ ← match sq_submitted_at q with None => Ok tt | Some d => require_aware_utc d "submitted_at" end;
  _ ← guard_res (0 <? minor_units (sq_amount q)) (ValueError "order amount must be positive");
  Ok q.

(** [OrderStatusQuery.to_payload] *)
Definition OrderStatusQuery_to_payload (q : OrderStatusQuery) : payload :=
  list_to_map [
    ("intent_id", JStr (sq_intent_id q));
    ("order_id", JStr (sq_order_id q));
    ("client_order_ref", JStr (sq_client_order_ref q));
    ("broker", JStr (value (sq_broker q)));
    ("account_id", JStr (sq_account_id q));
    ("product", JStr (sq_product q));
    ("symbol", JStr (sq_symbol q));
    ("direction", JStr (value (sq_direction q)));
    ("amount_minor", JInt (minor_units (sq_amount q)));
    ("currency", JStr (currency (sq_amount q)));
    ("broker_order_id", jopt_str (sq_broker_order_id q));
    ("submitted_at", jopt_str (isoformat <$> sq_submitted_at q))].

(** [None if raw is None else datetime.fromisoformat(raw)] *)
Definition opt_fromisoformat (raw : option string) : res (option datetime) :=
  match raw with None => Ok None | Some s => d ← fromisoformat s; Ok (Some d) end.

(** [OrderStatusQuery.from_payload] *)
Definition OrderStatusQuery_from_payload (p : payload) (correlation_id : string)
    : res OrderStatusQuery :=
  let err := "invalid status query field: " in
  intent_id ← req_str err p "intent_id";
  order_id ← req_str err p "order_id";
  client_order_ref ← req_str err p "client_order_ref";
  broker ← req_str err p "broker";
  account_id ← req_str err p "account_id";
  product ← req_str err p "product";
  symbol ← req_str err p "symbol";
  direction ← req_str err p "direction";
  amount_minor ← req_int err p "amount_minor";
  cur ← req_str err p "currency";
  broker_order_id ← opt_str err p "broker_order_id";
  submitted_at_raw ← opt_str err p "submitted_at";
  broker ← of_value broker;
  direction ← of_value direction;
  amount ← new_Money amount_minor cur;
  submitted_at ← opt_fromisoformat submitted_at_raw;
  OrderStatusQuery_post_init (mk_OrderStatusQuery correlation_id intent_id order_id
    client_order_ref broker account_id product symbol direction amount broker_order_id
    submitted_at).

Lemma opt_fromisoformat_isoformat o :
  match o with None => true | Some d => valid_datetime d end = true ->
  opt_fromisoformat (isoformat <$> o) = Ok o.
Proof. destruct o as [d|]; [|done]. intros. simpl. by rewrite fromisoformat_isoformat. Qed.

Lemma OrderStatusQuery_payload_roundtrip q :
  OrderStatusQuery_post_init q = Ok q -> money_ok (sq_amount q) = true ->
  match sq_submitted_at q with None => true | Some d => valid_datetime d end = true ->
  OrderStatusQuery_from_payload (OrderStatusQuery_to_payload q) (sq_correlation_id q) = Ok q.
Proof.
  intros Hpi Hm%new_Money_ok Hs.
  unfold OrderStatusQuery_to_payload, OrderStatusQuery_from_payload.
  unfold req_str, req_int, opt_str, opt_int, pget. rewrite !lookup_fields.
  cbn -[isoformat fromisoformat value of_value as_opt_str jopt_str opt_fromisoformat fmap].
  rewrite !as_opt_str_jopt, !of_value_value, Hm.
  cbn -[isoformat opt_fromisoformat fmap OrderStatusQuery_post_init].
  rewrite opt_fromisoformat_isoformat by done. cbn -[OrderStatusQuery_post_init]. by destruct q.
Qed.

(** ** [ReconciliationEvidence] *)

Record ReconciliationEvidence : Type := mk_ReconciliationEvidence {
  ev_evidence_id : string; ev_source : ReconciliationSource; ev_observed_at : datetime;
  ev_client_order_ref : string; ev_broker_order_id : option string;
  ev_external_status : ExternalOrderStatus; ev_broker : Broker; ev_account_id : string;
  ev_product : string; ev_symbol : string; ev_direction : Direction; ev_amount : Money;
  ev_evidence_version : Z; ev_realized_pnl_minor : option Z;
  ev_raw_reference_hash : option string
}.

(** [ReconciliationEvidence.__post_init__] *)
Definition ReconciliationEvidence_post_init (e : ReconciliationEvidence)
    : res ReconciliationEvidence :=
  _ ← require_aware_utc (ev_observed_at e) "observed_at";
  _ ← require_nonempty [("evidence_id", ev_evidence_id e);
        ("client_order_ref", ev_client_order_ref e); ("account_id", ev_account_id e);
        ("product", ev_product e); ("symbol", ev_symbol e)];
  _ ← guard_res (opt_nonblank (ev_broker_order_id e))
        (ValueError "broker_order_id cannot be blank");
  _ ← guard_res (0 <? ev_evidence_version e)
        (ValueError "evidence_version must be a positive integer");
  _ ← (if bool_decide (ev_external_status e = EX_SETTLED) then
         guard_res (bool_decide (ev_realized_pnl_minor e <> None))
           (ValueError "SETTLED evidence requires realized P&L")
       else
         guard_res (bool_decide (ev_realized_pnl_minor e = None))
           (ValueError "realized P&L is only valid for SETTLED evidence"));
  _ ← guard_res (opt_nonblank (ev_raw_reference_hash e))
        (ValueError "raw_reference_hash cannot be blank");
  Ok e.

(** [ReconciliationEvidence.to_payload] *)
Definition ReconciliationEvidence_to_payload (e : ReconciliationEvidence) : payload :=
  list_to_map [
    ("evidence_id", JStr (ev_evidence_id e));
    ("source", JStr (value (ev_source e)));
    ("observed_at", JStr (isoformat (ev_observed_at e)));
    ("client_order_ref", JStr (ev_client_order_ref e));
    ("broker_order_id", jopt_str (ev_broker_order_id e));
    ("external_status", JStr (value (ev_external_status e)));
    ("broker", JStr (value (ev_broker e)));
    ("account_id", JStr (ev_account_id e));
    ("product", JStr (ev_product e));
    ("symbol", JStr (ev_symbol e));
    ("direction", JStr (value (ev_direction e)));
    ("amount_minor", JInt (minor_units (ev_amount e)));
    ("currency", JStr (currency (ev_amount e)));
    ("evidence_version", JInt (ev_evidence_version e));
    ("realized_pnl_minor", jopt_int (ev_realized_pnl_minor e));
    ("raw_reference_hash", jopt_str (ev_raw_reference_hash e))].

(** [ReconciliationEvidence.from_payload] *)
Definition ReconciliationEvidence_from_payload (p : payload) : res ReconciliationEvidence :=
  let err := "invalid reconciliation evidence field: " in
  evidence_id ← req_str err p "evidence_id";
  source ← req_str err p "source";
  observed_at ← req_str err p "observed_at";
  client_order_ref ← req_str err p "client_order_ref";
  external_status ← req_str err p "external_status";
  broker ← req_str err p "broker";
  account_id ← req_str err p "account_id";
  product ← req_str err p "product";
  symbol ← req_str err p "symbol";
  direction ← req_str err p "direction";
  amount_minor ← req_int err p "amount_minor";
  cur ← req_str err p "currency";
  evidence_version ← req_int err p "evidence_version";
  broker_order_id ← opt_str err p "broker_order_id";
  realized_pnl_minor ← opt_int err p "realized_pnl_minor";
  raw_reference_hash ← opt_str err p "raw_reference_hash";
  observed_at ← fromisoformat observed_at;
  source ← of_value source;
  external_status ← of_value external_status;
  broker ← of_value broker;
  direction ← of_value direction;
  amount ← new_Money amount_minor cur;
  ReconciliationEvidence_post_init (mk_ReconciliationEvidence evidence_id source observed_at
    client_order_ref broker_order_id external_status broker account_id product symbol direction
    amount evidence_version realized_pnl_minor raw_reference_hash).

Lemma ReconciliationEvidence_payload_roundtrip e :
  ReconciliationEvidence_post_init e = Ok e -> money_ok (ev_amount e) = true ->
  valid_datetime (ev_observed_at e) = true ->
  ReconciliationEvidence_from_payload (ReconciliationEvidence_to_payload e) = Ok e.
Proof.
  intros Hpi Hm%new_Money_ok Hs.
  unfold ReconciliationEvidence_to_payload, ReconciliationEvidence_from_payload.
  unfold req_str, req_int, opt_str, opt_int, pget. rewrite !lookup_fields.
  cbn -[isoformat fromisoformat value of_value as_opt_str jopt_str as_opt_int jopt_int].
  rewrite !as_opt_str_jopt, !as_opt_int_jopt, !of_value_value.
  cbn -[isoformat fromisoformat ReconciliationEvidence_post_init].
  rewrite fromisoformat_isoformat, Hm by done.
  cbn -[ReconciliationEvidence_post_init]. by destruct e.
Qed.

(** What crosses the process boundary survives it: every command, broker event,
    status query and reconciliation evidence that its constructor accepts (with
    dates in the calendar and a constructed amount) is decoded from its encoded
    payload to exactly the same value, optional fields and absent ones included. *)
Theorem payloads_roundtrip payload_hash :
  (forall c, OrderCommand_post_init c = Ok c -> valid_datetime (oc_deadline_at c) = true ->
     money_ok (oc_amount c) = true -> OrderCommand_from_payload (OrderCommand_to_payload c) = Ok c) /\
  (forall e, BrokerOrderEvent_post_init payload_hash e = Ok e -> valid_datetime (bo_occurred_at e) = true ->
     valid_datetime (bo_observed_at e) = true -> money_ok (bo_amount e) = true ->
     BrokerOrderEvent_from_payload payload_hash (BrokerOrderEvent_to_payload e) = Ok e) /\
  (forall q, OrderStatusQuery_post_init q = Ok q -> money_ok (sq_amount q) = true ->
     match sq_submitted_at q with None => true | Some d => valid_datetime d end = true ->
     OrderStatusQuery_from_payload (OrderStatusQuery_to_payload q) (sq_correlation_id q) = Ok q) /\
  (forall e, ReconciliationEvidence_post_init e = Ok e -> money_ok (ev_amount e) = true ->
     valid_datetime (ev_observed_at e) = true ->
     ReconciliationEvidence_from_payload (ReconciliationEvidence_to_payload e) = Ok e).
Proof.
  split; [exact OrderCommand_payload_roundtrip|]. split; [exact (BrokerOrderEvent_payload_roundtrip payload_hash)|].
  split; [exact OrderStatusQuery_payload_roundtrip|exact ReconciliationEvidence_payload_roundtrip].
Qed.
