(* ===== verification/StateDb.v ===== *)
(** * The schema of state.db: [packages/persistence/migrations.py]

    One record per table, with the columns left by migration 7.  Texts that hold
    an enumeration value are that enumeration; timestamps are the text of
    [isoformat]; JSON texts are their object.  An INSERT checks, in SQLite's
    order, the CHECK constraints, the unique indexes (most recent index first,
    the primary key last) and the foreign keys, and raises [IntegrityError] with
    the violated columns. *)

From S2P Require Import Prelude Datetime Dec Domain.

(** [trade_intents] *)
Record TradeIntent : Type := mk_TradeIntent {
  ti_intent_id : string; ti_correlation_id : string; ti_broker : Broker;
  ti_account_id : string; ti_product : string; ti_symbol : string; ti_direction : Direction;
  ti_amount_minor : Z; ti_currency : string; ti_status : string; ti_created_at : string;
  ti_strategy_id : string; ti_strategy_version : string
}.

(** [risk_reservations] *)
Record Reservation : Type := mk_Reservation {
  rr_reservation_id : string; rr_intent_id : string; rr_broker : Broker;
  rr_account_id : string; rr_amount_minor : Z; rr_currency : string;
  rr_state : RiskReservationState; rr_created_at : string; rr_released_at : option string;
  rr_release_reason : option string; rr_reconciliation_evidence : option string;
  rr_release_count : Z
}.

#[export] Instance Reservation_eta : Eta Reservation := fun r => mk_Reservation
  (rr_reservation_id r) (rr_intent_id r) (rr_broker r) (rr_account_id r) (rr_amount_minor r)
  (rr_currency r) (rr_state r) (rr_created_at r) (rr_released_at r) (rr_release_reason r)
  (rr_reconciliation_evidence r) (rr_release_count r).

(** [outbox_messages] *)
Record OutboxMessage : Type := mk_OutboxMessage {
  om_message_id : string; om_correlation_id : string; om_intent_id : string;
  om_message_type : string; om_payload : payload; om_state : OutboxState;
  om_created_at : string; om_available_at : string; om_dispatch_started_at : option string;
  om_dispatched_at : option string; om_attempt_count : Z; om_state_reason : option string
}.

#[export] Instance OutboxMessage_eta : Eta OutboxMessage := fun m => mk_OutboxMessage
  (om_message_id m) (om_correlation_id m) (om_intent_id m) (om_message_type m) (om_payload m)
  (om_state m) (om_created_at m) (om_available_at m) (om_dispatch_started_at m)
  (om_dispatched_at m) (om_attempt_count m) (om_state_reason m).

(** [orders] *)
Record Order : Type := mk_Order {
  o_order_id : string; o_intent_id : string; o_broker : Broker; o_account_id : string;
  o_broker_order_id : option string; o_state : OrderState; o_correlation_id : string;
  o_realized_pnl_minor : option Z; o_created_at : string; o_updated_at : string;
  o_resolution_source : option string; o_resolution_evidence_id : option string;
  o_resolved_at : option string; o_last_external_sequence : option Z;
  o_last_broker_event_id : option string; o_pnl_application_count : Z
}.

#[export] Instance Order_eta : Eta Order := fun o => mk_Order
  (o_order_id o) (o_intent_id o) (o_broker o) (o_account_id o) (o_broker_order_id o)
  (o_state o) (o_correlation_id o) (o_realized_pnl_minor o) (o_created_at o) (o_updated_at o)
  (o_resolution_source o) (o_resolution_evidence_id o) (o_resolved_at o)
  (o_last_external_sequence o) (o_last_broker_event_id o) (o_pnl_application_count o).

(** [processed_order_events] *)
Record ProcessedEvent : Type := mk_ProcessedEvent {
  pe_event_id : string; pe_intent_id : string; pe_new_state : OrderState;
  pe_occurred_at : string; pe_processed_at : string
}.

(** [reconciliation_evidence]: the columns of the evidence itself are kept as one
    value, they are only ever read through [external_status]. *)
Record EvidenceRow : Type := mk_EvidenceRow {
  re_evidence : ReconciliationEvidence; re_order_id : string; re_canonical_hash : string;
  re_received_at : string
}.

Definition re_evidence_id (r : EvidenceRow) : string := ev_evidence_id (re_evidence r).
Definition re_external_status (r : EvidenceRow) : ExternalOrderStatus :=
  ev_external_status (re_evidence r).

(** [reconciliation_attempts] *)
Record Attempt : Type := mk_Attempt {
  ra_attempt_id : string; ra_order_id : string; ra_correlation_id : string;
  ra_started_at : string; ra_completed_at : option string; ra_result : string;
  ra_reason_code : option string; ra_evidence_id : option string
}.

#[export] Instance Attempt_eta : Eta Attempt := fun a => mk_Attempt
  (ra_attempt_id a) (ra_order_id a) (ra_correlation_id a) (ra_started_at a)
  (ra_completed_at a) (ra_result a) (ra_reason_code a) (ra_evidence_id a).

(** [broker_order_events]: the columns of the event itself are kept as one value. *)
Record BrokerEventRow : Type := mk_BrokerEventRow {
  bv_event : BrokerOrderEvent; bv_order_id : option string; bv_processing_result : string;
  bv_reason_code : option string; bv_conflict_count : Z;
  bv_last_conflicting_hash : option string; bv_created_at : string
}.

#[export] Instance BrokerEventRow_eta : Eta BrokerEventRow := fun r => mk_BrokerEventRow
  (bv_event r) (bv_order_id r) (bv_processing_result r) (bv_reason_code r)
  (bv_conflict_count r) (bv_last_conflicting_hash r) (bv_created_at r).

Definition bv_event_id (r : BrokerEventRow) : string := bo_event_id (bv_event r).
Definition bv_evidence_hash (r : BrokerEventRow) : string := bo_evidence_hash (bv_event r).
Definition bv_external_sequence (r : BrokerEventRow) : option Z :=
  bo_external_sequence (bv_event r).

(** [digit_risk_runtime], a singleton row *)
Record DigitRuntime : Type := mk_DigitRuntime {
  dr_config_fingerprint : string; dr_currency : string; dr_martingale_enabled : bool;
  dr_martingale_max_steps : Z; dr_max_consecutive_losses : Z; dr_cooldown_seconds : dec;
  dr_daily_pnl_minor : Z; dr_consecutive_losses : Z; dr_martingale_step : Z;
  dr_pinned_symbol : option string; dr_cumulative_sequence_loss_minor : Z;
  dr_cooldown_started_at : option string; dr_last_order_id : option string;
  dr_last_settlement_id : option string; dr_updated_at : string;
  dr_session_started_at : option string
}.

#[export] Instance DigitRuntime_eta : Eta DigitRuntime := fun r => mk_DigitRuntime
  (dr_config_fingerprint r) (dr_currency r) (dr_martingale_enabled r)
  (dr_martingale_max_steps r) (dr_max_consecutive_losses r) (dr_cooldown_seconds r)
  (dr_daily_pnl_minor r) (dr_consecutive_losses r) (dr_martingale_step r)
  (dr_pinned_symbol r) (dr_cumulative_sequence_loss_minor r) (dr_cooldown_started_at r)
  (dr_last_order_id r) (dr_last_settlement_id r) (dr_updated_at r) (dr_session_started_at r).

(** [sprt_monitors] and [outcomes_queue] *)
Record SprtRow : Type := mk_SprtRow {
  sp_strategy_key : string; sp_p0 : string; sp_p1 : string; sp_alpha : string;
  sp_beta : string; sp_llr : string; sp_n : Z; sp_wins : Z; sp_decision : string;
  sp_status : string; sp_updated_at : string
}.

Record OutcomeRow : Type := mk_OutcomeRow {
  oq_id : Z; oq_strategy_key : string; oq_ts : Z; oq_won : bool; oq_payout_pct : string;
  oq_created_at : string; oq_status : string
}.

Record state_db : Type := mk_state_db {
  trade_intents : list TradeIntent;
  risk_reservations : list Reservation;
  outbox_messages : list OutboxMessage;
  orders : list Order;
  processed_order_events : list ProcessedEvent;
  reconciliation_evidence : list EvidenceRow;
  reconciliation_attempts : list Attempt;
  broker_order_events : list BrokerEventRow;
  digit_risk_runtime : option DigitRuntime;
  sprt_monitors : list SprtRow;
  outcomes_queue : list OutcomeRow;
  outcomes_seq : Z (* the AUTOINCREMENT counter of outcomes_queue *)
}.

#[export] Instance state_db_eta : Eta state_db := fun s => mk_state_db
  (trade_intents s) (risk_reservations s) (outbox_messages s) (orders s)
  (processed_order_events s) (reconciliation_evidence s) (reconciliation_attempts s)
  (broker_order_events s) (digit_risk_runtime s) (sprt_monitors s) (outcomes_queue s)
  (outcomes_seq s).

(** The database a first run creates. *)
Definition empty_db : state_db := mk_state_db [] [] [] [] [] [] [] [] None [] [] 0.

Abbreviation db_m A := (st state_db A).

(** ** Row predicates *)

Definition has_intent_id {R} (key : R -> string) (i : string) (r : R) : bool :=
  bool_decide (key r = i).

Definition intent_exists (i : string) (s : state_db) : bool :=
  exists_row (fun t => bool_decide (ti_intent_id t = i)) (trade_intents s).
Definition order_exists (k : string) (s : state_db) : bool :=
  exists_row (fun o => bool_decide (o_order_id o = k)) (orders s).
Definition evidence_exists (k : string) (s : state_db) : bool :=
  exists_row (fun e => bool_decide (re_evidence_id e = k)) (reconciliation_evidence s).

(** ** INSERT statements *)

Definition foreign_key : exn := IntegrityError "FOREIGN KEY".
Definition check_failed : exn := IntegrityError "CHECK".

(** [UNIQUE constraint failed: columns] unless no row satisfies [p]. *)
Definition unique {R} (columns : string) (p : R -> bool) (t : state_db -> list R) : db_m unit :=
  rows ← st_gets t;
  st_guard (negb (exists_row p rows)) (IntegrityError columns).

Definition foreign (ok : state_db -> bool) : db_m unit :=
  b ← st_gets ok; st_guard b foreign_key.

Definition insert_trade_intent (r : TradeIntent) : db_m unit :=
  _ ← st_guard ((0 <? ti_amount_minor r) && (String.length (ti_currency r) =? 3)%nat) check_failed;
  _ ← unique "trade_intents.intent_id"
        (fun t => bool_decide (ti_intent_id t = ti_intent_id r)) trade_intents;
  st_modify (fun s => s <| trade_intents ::= fun t => t ++ [r] |>).

Definition active_account_columns : string :=
  "risk_reservations.broker, risk_reservations.account_id".

Definition insert_risk_reservation (r : Reservation) : db_m unit :=
  _ ← st_guard ((0 <? rr_amount_minor r) && (String.length (rr_currency r) =? 3)%nat) check_failed;
  _ ← unique active_account_columns
        (fun t => bool_decide (rr_state r = ACTIVE) && bool_decide (rr_state t = ACTIVE) &&
                  bool_decide (rr_broker t = rr_broker r) &&
                  bool_decide (rr_account_id t = rr_account_id r)) risk_reservations;
  _ ← unique "risk_reservations.intent_id"
        (fun t => bool_decide (rr_intent_id t = rr_intent_id r)) risk_reservations;
  _ ← unique "risk_reservations.reservation_id"
        (fun t => bool_decide (rr_reservation_id t = rr_reservation_id r)) risk_reservations;
  _ ← foreign (intent_exists (rr_intent_id r));
  st_modify (fun s => s <| risk_reservations ::= fun t => t ++ [r] |>).

Definition insert_outbox_message (r : OutboxMessage) : db_m unit :=
  _ ← st_guard (0 <=? om_attempt_count r) check_failed;
  _ ← unique "outbox_messages.intent_id"
        (fun t => bool_decide (om_intent_id t = om_intent_id r)) outbox_messages;
  _ ← unique "outbox_messages.message_id"
        (fun t => bool_decide (om_message_id t = om_message_id r)) outbox_messages;
  _ ← foreign (intent_exists (om_intent_id r));
  st_modify (fun s => s <| outbox_messages ::= fun t => t ++ [r] |>).

Definition insert_order (r : Order) : db_m unit :=
  _ ← st_guard (0 <=? o_pnl_application_count r) check_failed;
  _ ← unique "orders.intent_id"
        (fun t => bool_decide (o_intent_id t = o_intent_id r)) orders;
  _ ← unique "orders.order_id"
        (fun t => bool_decide (o_order_id t = o_order_id r)) orders;
  _ ← foreign (intent_exists (o_intent_id r));
  st_modify (fun s => s <| orders ::= fun t => t ++ [r] |>).

Definition insert_processed_event (r : ProcessedEvent) : db_m unit :=
  _ ← unique "processed_order_events.event_id"
        (fun t => bool_decide (pe_event_id t = pe_event_id r)) processed_order_events;
  _ ← foreign (intent_exists (pe_intent_id r));
  st_modify (fun s => s <| processed_order_events ::= fun t => t ++ [r] |>).

Definition insert_evidence (r : EvidenceRow) : db_m unit :=
  _ ← st_guard ((0 <? minor_units (ev_amount (re_evidence r))) &&
                (String.length (currency (ev_amount (re_evidence r))) =? 3)%nat &&
                (0 <? ev_evidence_version (re_evidence r))) check_failed;
  _ ← unique "reconciliation_evidence.evidence_id"
        (fun t => bool_decide (re_evidence_id t = re_evidence_id r)) reconciliation_evidence;
  _ ← foreign (order_exists (re_order_id r));
  st_modify (fun s => s <| reconciliation_evidence ::= fun t => t ++ [r] |>).

Definition insert_attempt (r : Attempt) : db_m unit :=
  _ ← unique "reconciliation_attempts.attempt_id"
        (fun t => bool_decide (ra_attempt_id t = ra_attempt_id r)) reconciliation_attempts;
  _ ← foreign (order_exists (ra_order_id r));
  st_modify (fun s => s <| reconciliation_attempts ::= fun t => t ++ [r] |>).

Definition insert_broker_event_row (r : BrokerEventRow) : db_m unit :=
  let e := bv_event r in
  _ ← st_guard ((0 <? bo_event_version e) &&
                match bo_external_sequence e with None => true | Some n => 0 <? n end &&
                (0 <? minor_units (bo_amount e)) &&
                (String.length (currency (bo_amount e)) =? 3)%nat &&
                (0 <=? bv_conflict_count r)) check_failed;
  _ ← unique "broker_order_events.event_id"
        (fun t => bool_decide (bv_event_id t = bv_event_id r)) broker_order_events;
  _ ← foreign (fun s => match bv_order_id r with None => true | Some k => order_exists k s end);
  st_modify (fun s => s <| broker_order_events ::= fun t => t ++ [r] |>).
