(* ===== verification/Writer.v ===== *)
(** * The single database writer: [packages/persistence/writer.py]

    Every method of [SingleDatabaseWriter] that changes the financial state, as
    the operation it runs inside [_transaction]; [transaction] is that wrapper.
    The clock reading ([utc_now()] or the [now] argument), the fault injector and
    the SHA-256 of a canonical JSON payload are arguments. *)

From S2P Require Import Prelude Datetime Dec Domain StateDb.

(** [packages/domain/symbols.py], also [packages/signal_arbitration/arbiter.py] *)
Definition canonicalize_symbol (symbol : string) : string :=
  let clean := str_upper (str_strip symbol) in
  if str_startswith "FRX" clean then str_drop 3 clean
  else if str_startswith "OTC_" clean then str_drop 4 clean
  else clean.

(** [ALLOWED_TRANSITIONS] *)
Definition allowed_transitions (s : OrderState) : list OrderState :=
  match s with
  | OUTBOXED => [DISPATCHING; REJECTED]
  | DISPATCHING => [ACCEPTED; REJECTED; UNKNOWN; SEND_BLOCKED]
  | ACCEPTED => [OPEN; SETTLED; SETTLEMENT_UNKNOWN]
  | OPEN => [SETTLED; SETTLEMENT_UNKNOWN]
  | UNKNOWN => [RECONCILING]
  | RECONCILING => [ACCEPTED; OPEN; SETTLED; REJECTED; MANUAL_REVIEW; SETTLEMENT_UNKNOWN]
  | SETTLEMENT_UNKNOWN => [RECONCILING; MANUAL_REVIEW]
  | MANUAL_REVIEW => [RECONCILING]
  | SETTLED | REJECTED | SEND_BLOCKED => []
  end.

Definition allowed (cur new : OrderState) : bool := bool_decide (new ∈ allowed_transitions cur).

(** SQL [COALESCE(a, b)] *)
Definition coalesce {A} (a b : option A) : option A := match a with Some _ => a | None => b end.

(** The subclasses of [PersistenceError]. *)
Definition is_persistence_error (e : exn) : bool :=
  match e with
  | PersistenceError _ | RiskLimitExceededError _ | DatabaseWriteError | AccountBusyError
  | InvalidOrderTransition | ReservationReleaseBlocked => true
  | _ => false
  end.

(** ** [_transaction]

    The writer: its database and whether [database_health] was marked
    [DB_WRITE_FAILED]. *)

Record writer : Type := mk_writer { w_db : state_db; w_write_failed : bool }.

#[export] Instance writer_eta : Eta writer := fun w => mk_writer (w_db w) (w_write_failed w).

Definition transaction {A} (operation : db_m A) (w : writer) : res A * writer :=
  match operation (w_db w) with
  | Ok (a, db) => (Ok a, w <| w_db := db |>)
  | Err (IntegrityError columns) =>
      (Err (if bool_decide (columns = active_account_columns) then AccountBusyError
            else PersistenceError "database integrity constraint rejected the write"), w)
  | Err e =>
      if is_persistence_error e then (Err e, w)
      else (Err DatabaseWriteError, w <| w_write_failed := true |>)
  end.

(** ** Order transitions and reservation release *)

Definition of_intent (i : string) (o : Order) : bool := bool_decide (o_intent_id o = i).

(** The row [_transition_order] writes. *)
Definition transitioned (new_state : OrderState) (changed_at : string)
    (broker_order_id : option string) (realized_pnl_minor : option Z) (o : Order) : Order :=
  o <| o_state := new_state |>
    <| o_broker_order_id := coalesce broker_order_id (o_broker_order_id o) |>
    <| o_realized_pnl_minor := coalesce realized_pnl_minor (o_realized_pnl_minor o) |>
    <| o_pnl_application_count := o_pnl_application_count o +
         (if bool_decide (new_state = SETTLED) && bool_decide (realized_pnl_minor <> None)
          then 1 else 0) |>
    <| o_updated_at := changed_at |>.

Definition transition_order (intent_id : string) (new_state : OrderState) (changed_at : datetime)
    (broker_order_id : option string) (realized_pnl_minor : option Z) : db_m unit :=
  row ← st_gets (fun s => fetchone (of_intent intent_id) (orders s));
  match row with
  | None => st_raise (PersistenceError "order not found")
  | Some o =>
      if bool_decide (o_state o = new_state) then mret tt
      else
        _ ← st_guard (allowed (o_state o) new_state) InvalidOrderTransition;
        st_modify (fun s => s <| orders ::= update_where (of_intent intent_id)
          (transitioned new_state (isoformat changed_at) broker_order_id realized_pnl_minor) |>)
  end.

Definition released (released_at reason : string) (evidence : option string) (r : Reservation)
    : Reservation :=
  r <| rr_state := RELEASED |> <| rr_released_at := Some released_at |>
    <| rr_release_reason := Some reason |> <| rr_reconciliation_evidence := evidence |>
    <| rr_release_count := rr_release_count r + 1 |>.

Definition active_of_intent (i : string) (r : Reservation) : bool :=
  bool_decide (rr_intent_id r = i) && bool_decide (rr_state r = ACTIVE).

Definition release_for_intent (intent_id : string) (released_at : datetime) (reason : string)
    (evidence : option string) : db_m unit :=
  st_modify (fun s => s <| risk_reservations ::= update_where (active_of_intent intent_id)
    (released (isoformat released_at) reason evidence) |>).

(** [UPDATE outbox_messages SET ... WHERE p] *)
Definition update_outbox (p : OutboxMessage -> bool) (f : OutboxMessage -> OutboxMessage)
    : db_m unit :=
  st_modify (fun s => s <| outbox_messages ::= update_where p f |>).

Definition update_order (order_id : string) (f : Order -> Order) : db_m unit :=
  st_modify (fun s => s <| orders ::= update_where
    (fun o => bool_decide (o_order_id o = order_id)) f |>).

Definition message_in (message_id : string) (state : OutboxState) (m : OutboxMessage) : bool :=
  bool_decide (om_message_id m = message_id) && bool_decide (om_state m = state).

Definition outbox_of_intent_in (i : string) (state : OutboxState) (m : OutboxMessage) : bool :=
  bool_decide (om_intent_id m = i) && bool_decide (om_state m = state).

(** Outbox row of an ambiguous order that was reconciled. *)
Definition mark_reconciled (intent_id reason : string) (at_ : datetime) : db_m unit :=
  update_outbox (outbox_of_intent_in intent_id OB_AMBIGUOUS)
    (fun m => m <| om_state := OB_RECONCILED |> <| om_state_reason := Some reason |>
                <| om_dispatched_at := coalesce (om_dispatched_at m) (Some (isoformat at_)) |>).

(** [SELECT ... FROM orders o JOIN trade_intents ti ...]: the intent of an order. *)
Definition join_intent (o : Order) (s : state_db) : option (Order * TradeIntent) :=
  match fetchone (fun t => bool_decide (ti_intent_id t = o_intent_id o)) (trade_intents s) with
  | Some t => Some (o, t)
  | None => None
  end.

Section writer.
Variable inject : string -> option exn.
Variable payload_hash : payload -> string.

(** [_inject(stage)] *)
Definition inject_at (stage : string) : db_m unit :=
  match inject stage with None => mret tt | Some e => st_raise e end.

(** ** Submission *)

Definition is_active_in (cur : string) (r : Reservation) : bool :=
  bool_decide (rr_state r = ACTIVE) && bool_decide (rr_currency r = cur).

Definition sumZ (l : list Z) : Z := foldr Z.add 0 l.

(** [SELECT COALESCE(SUM(amount_minor), 0) ... WHERE state = 'ACTIVE' AND currency = ?] *)
Definition active_exposure (cur : string) (s : state_db) : Z :=
  sumZ (rr_amount_minor <$> select (is_active_in cur) (risk_reservations s)).

(** The symbols joined to the active reservations, canonicalised. *)
Definition reservation_symbol (s : state_db) (r : Reservation) : option string :=
  canonicalize_symbol ∘ ti_symbol <$>
    fetchone (fun t => bool_decide (ti_intent_id t = rr_intent_id r)) (trade_intents s).

Definition active_symbol_exposure (cur symbol : string) (s : state_db) : Z :=
  sumZ (rr_amount_minor <$>
    select (fun r => is_active_in cur r && bool_decide (reservation_symbol s r = Some symbol))
      (risk_reservations s)).

(** [if limit is not None: if active + amount > limit: raise] *)
Definition check_limit (limit : option Z) (active : state_db -> Z) (amount : Z)
    (reason : string) : db_m unit :=
  match limit with
  | None => mret tt
  | Some l =>
      a ← st_gets active;
      st_guard (a + amount <=? l) (RiskLimitExceededError reason)
  end.

Definition persist_intent_reservation_outbox (request : OrderRequest) (command : OrderCommand)
    (intent_id reservation_id order_id : string) (created_at : datetime)
    (global_max_exposure max_exposure_per_symbol : option Z)
    (reference_currency : option string) : db_m unit :=
  let cur := currency (rq_amount request) in
  let amount := minor_units (rq_amount request) in
  let created := isoformat created_at in
  _ ← st_guard (match reference_currency with None => true | Some c => bool_decide (cur = c) end)
        (RiskLimitExceededError "HG_EXPOSURE_CURRENCY_MISMATCH");
  _ ← check_limit global_max_exposure (active_exposure cur) amount "HG_GLOBAL_EXPOSURE_EXCEEDED";
  _ ← check_limit max_exposure_per_symbol
        (active_symbol_exposure cur (canonicalize_symbol (rq_symbol request))) amount
        "HG_SYMBOL_EXPOSURE_LIMIT_EXCEEDED";
  _ ← insert_trade_intent (mk_TradeIntent intent_id (rq_correlation_id request)
        (rq_broker request) (rq_account_id request) (rq_product request) (rq_symbol request)
        (rq_direction request) amount cur "CREATED" created (rq_strategy_id request)
        (rq_strategy_version request));
  _ ← inject_at "after_intent";
  _ ← insert_risk_reservation (mk_Reservation reservation_id intent_id (rq_broker request)
        (rq_account_id request) amount cur ACTIVE created None None None 0);
  _ ← inject_at "after_reservation";
  _ ← insert_outbox_message (mk_OutboxMessage (oc_message_id command)
        (rq_correlation_id request) intent_id "OrderCommand" (OrderCommand_to_payload command)
        OB_PENDING created created None None 0 None);
  _ ← inject_at "after_outbox";
  _ ← insert_order (mk_Order order_id intent_id (rq_broker request) (rq_account_id request) None
        OUTBOXED (rq_correlation_id request) None created created None None None None None 0);
  inject_at "before_commit".

(** ** Dispatch *)

(** [ORDER BY om.created_at, om.message_id] *)
Definition outbox_order (a b : OutboxMessage * Order) : bool :=
  match String.compare (om_created_at (fst a)) (om_created_at (fst b)) with
  | Lt => true
  | Gt => false
  | Eq => str_leb (om_message_id (fst a)) (om_message_id (fst b))
  end.

(** [FROM outbox_messages om JOIN orders o ON o.intent_id = om.intent_id] *)
Definition outbox_join_orders (s : state_db) : list (OutboxMessage * Order) :=
  omap (fun m => (fun o => (m, o)) <$> fetchone (of_intent (om_intent_id m)) (orders s))
    (outbox_messages s).

(** [payload.setdefault("order_id", row["order_id"])] *)
Definition with_order_id (p : payload) (order_id : string) : payload :=
  match p !! "order_id" with Some _ => p | None => <["order_id" := JStr order_id]> p end.

Definition claimable (claimed_at : string) (broker account_id : option string)
    (x : OutboxMessage * Order) : bool :=
  bool_decide (om_state (fst x) = OB_PENDING) && str_leb (om_available_at (fst x)) claimed_at &&
  match broker with
  | None => true
  | Some b => bool_decide (value (o_broker (snd x)) = b) &&
      match account_id with None => true | Some a => bool_decide (o_account_id (snd x) = a) end
  end.

Definition claim_next_message (claimed_at : datetime) (broker account_id : option string)
    : db_m (option OrderCommand) :=
  rows ← st_gets (fun s =>
    sort_by outbox_order (select (claimable (isoformat claimed_at) broker account_id)
      (outbox_join_orders s)));
  match rows with
  | [] => mret None
  | (m, o) :: _ =>
      changed ← st_gets (fun s => rowcount (message_in (om_message_id m) OB_PENDING)
        (outbox_messages s));
      _ ← update_outbox (message_in (om_message_id m) OB_PENDING)
        (fun m => m <| om_state := OB_DISPATCHING |>
                    <| om_dispatch_started_at := Some (isoformat claimed_at) |>
                    <| om_attempt_count := om_attempt_count m + 1 |>);
      if negb (changed =? 1) then mret None
      else
        _ ← transition_order (om_intent_id m) DISPATCHING claimed_at None None;
        command ← st_lift (OrderCommand_from_payload (with_order_id (om_payload m) (o_order_id o)));
        mret (Some command)
  end.

(** [reason_code or default] *)
Definition or_default (reason_code : option string) (dflt : string) : string :=
  match reason_code with Some r => if bool_decide (r = "") then dflt else r | None => dflt end.

Definition record_dispatch_result (command : OrderCommand) (outcome : string)
    (broker_order_id reason_code : option string) (recorded_at : datetime) : db_m unit :=
  row ← st_gets (fun s => fetchone (fun m => bool_decide (om_message_id m = oc_message_id command))
    (outbox_messages s));
  _ ← st_guard (match row with Some m => bool_decide (om_state m = OB_DISPATCHING) | None => false end)
        (PersistenceError "outbox message is not in DISPATCHING");
  '(outbox_state, order_state, state_reason) ←
    (if bool_decide (outcome = "ACCEPTED") then mret (OB_DISPATCHED, ACCEPTED, None)
     else if bool_decide (outcome = "REJECTED") then
       mret (OB_DISPATCHED, REJECTED, Some (or_default reason_code "BROKER_REJECTED"))
     else if bool_decide (outcome = "TIMEOUT_AFTER_POSSIBLE_SEND") then
       mret (OB_AMBIGUOUS, UNKNOWN, Some (or_default reason_code "POSSIBLE_SEND_TIMEOUT"))
     else st_raise (PersistenceError "unsupported worker outcome"));
  _ ← update_outbox (fun m => bool_decide (om_message_id m = oc_message_id command))
        (fun m => m <| om_state := outbox_state |>
                    <| om_dispatched_at := if bool_decide (outbox_state = OB_DISPATCHED)
                                           then Some (isoformat recorded_at) else None |>
                    <| om_state_reason := state_reason |>);
  _ ← transition_order (oc_intent_id command) order_state recorded_at broker_order_id None;
  if bool_decide (order_state = REJECTED) then
    release_for_intent (oc_intent_id command) recorded_at "BROKER_REJECTED" None
  else mret tt.

Definition record_dispatch_not_sent (command : OrderCommand) (reason_code : string)
    (recorded_at : datetime) : db_m unit :=
  changed ← st_gets (fun s => rowcount (message_in (oc_message_id command) OB_DISPATCHING)
    (outbox_messages s));
  _ ← update_outbox (message_in (oc_message_id command) OB_DISPATCHING)
        (fun m => m <| om_state := OB_BLOCKED_NOT_SENT |> <| om_state_reason := Some reason_code |>);
  _ ← st_guard (changed =? 1) (PersistenceError "outbox message is not in DISPATCHING");
  transition_order (oc_intent_id command) SEND_BLOCKED recorded_at None None.

Definition cancel_expired_before_dispatch (command : OrderCommand) (cancelled_at : datetime)
    : db_m unit :=
  _ ← update_outbox (message_in (oc_message_id command) OB_DISPATCHING)
        (fun m => m <| om_state := OB_CANCELLED |> <| om_state_reason := Some "CANCELLED_EXPIRED" |>);
  _ ← transition_order (oc_intent_id command) REJECTED cancelled_at None None;
  release_for_intent (oc_intent_id command) cancelled_at "DEADLINE_EXPIRED_BEFORE_DISPATCH" None.

(** ** Startup recovery *)

(** [st_for] with the loop's results collected in order. *)
Fixpoint st_collect {A B} (f : A -> db_m (option B)) (l : list A) : db_m (list B) :=
  match l with
  | [] => mret []
  | x :: l' =>
      b ← f x;
      bs ← st_collect f l';
      mret (match b with Some b => b :: bs | None => bs end)
  end.

Definition recover_interrupted_dispatches (recovered_at : datetime) : db_m Z :=
  rows ← st_gets (fun s => om_intent_id <$>
    select (fun m => bool_decide (om_state m = OB_DISPATCHING)) (outbox_messages s));
  _ ← st_for (fun i =>
        _ ← update_outbox (outbox_of_intent_in i OB_DISPATCHING)
              (fun m => m <| om_state := OB_AMBIGUOUS |>
                          <| om_state_reason := Some "INTERRUPTED_DISPATCH" |>);
        transition_order i UNKNOWN recovered_at None None) rows;
  mret (Z.of_nat (length rows)).

(** One iteration of [cancel_expired_pending_messages]. *)
Definition cancel_if_expired (checked_at : datetime) (row : OutboxMessage * Order)
    : db_m (option string) :=
  let '(m, o) := row in
  command ← st_lift (OrderCommand_from_payload (with_order_id (om_payload m) (o_order_id o)));
  if dt_ltb checked_at (oc_deadline_at command) then mret None
  else
    _ ← update_outbox (message_in (om_message_id m) OB_PENDING)
          (fun m => m <| om_state := OB_CANCELLED |>
                      <| om_state_reason := Some "CANCELLED_EXPIRED" |>);
    _ ← transition_order (om_intent_id m) REJECTED checked_at None None;
    _ ← release_for_intent (om_intent_id m) checked_at "DEADLINE_EXPIRED_ON_RECOVERY" None;
    mret (Some (om_message_id m)).

Definition cancel_expired_pending_messages (checked_at : datetime) : db_m (list string) :=
  rows ← st_gets (fun s => sort_by outbox_order
    (select (fun x => bool_decide (om_state (fst x) = OB_PENDING)) (outbox_join_orders s)));
  st_collect (cancel_if_expired checked_at) rows.

(** ** Broker events *)

Definition order_state_name (s : OrderState) : string :=
  match s with
  | OUTBOXED => "OUTBOXED" | DISPATCHING => "DISPATCHING" | ACCEPTED => "ACCEPTED"
  | OPEN => "OPEN" | UNKNOWN => "UNKNOWN" | RECONCILING => "RECONCILING"
  | SETTLED => "SETTLED" | SETTLEMENT_UNKNOWN => "SETTLEMENT_UNKNOWN"
  | REJECTED => "REJECTED" | MANUAL_REVIEW => "MANUAL_REVIEW" | SEND_BLOCKED => "SEND_BLOCKED"
  end.

Definition apply_broker_event (event : BrokerEvent) (processed_at : datetime) : db_m bool :=
  duplicate ← st_gets (fun s => exists_row
    (fun r => bool_decide (pe_event_id r = be_event_id event)) (processed_order_events s));
  if (duplicate : bool) then mret false
  else
    _ ← transition_order (be_intent_id event) (be_new_state event) (be_occurred_at event)
          (be_broker_order_id event) (be_realized_pnl_minor event);
    _ ← insert_processed_event (mk_ProcessedEvent (be_event_id event) (be_intent_id event)
          (be_new_state event) (isoformat (be_occurred_at event)) (isoformat processed_at));
    _ ← (if is_terminal (be_new_state event) then
           release_for_intent (be_intent_id event) (be_occurred_at event)
             ("ORDER_" +:+ order_state_name (be_new_state event)) (Some (be_event_id event))
         else mret tt);
    mret true.

Inductive BrokerEventApplyStatus : Type :=
| EV_APPLIED | EV_APPLIED_WITH_GAP | EV_DUPLICATE | EV_LATE_IGNORED | EV_CONFLICT.

#[export] Instance BrokerEventApplyStatus_eq_dec : EqDecision BrokerEventApplyStatus.
Proof. solve_decision. Defined.

Definition apply_status_name (s : BrokerEventApplyStatus) : string :=
  match s with
  | EV_APPLIED => "APPLIED" | EV_APPLIED_WITH_GAP => "APPLIED_WITH_GAP"
  | EV_DUPLICATE => "DUPLICATE" | EV_LATE_IGNORED => "LATE_IGNORED" | EV_CONFLICT => "CONFLICT"
  end.

Record BrokerEventApplyResult : Type := mk_BrokerEventApplyResult {
  ar_status : BrokerEventApplyStatus; ar_order_state : option OrderState;
  ar_reason_code : option string
}.

(** [_order_state_by_id] *)
Definition order_state_by_id (s : state_db) (order_id : option string) : option OrderState :=
  match order_id with
  | None => None
  | Some k => o_state <$> fetchone (fun o => bool_decide (o_order_id o = k)) (orders s)
  end.

(** The first failing comparison of a list of [(equal, reason)]. *)
Fixpoint first_mismatch (comparisons : list (bool * string)) : option string :=
  match comparisons with
  | [] => None
  | (eq, reason) :: rest => if eq then first_mismatch rest else Some reason
  end.

(** [_broker_event_matching_conflict] *)
Definition broker_event_matching_conflict (row : Order * TradeIntent) (event : BrokerOrderEvent)
    : option string :=
  let '(o, t) := row in
  match first_mismatch [
    (bool_decide (bo_broker event = o_broker o), "BROKER_EVENT_SCOPE_MISMATCH");
    (bool_decide (bo_account_id event = o_account_id o), "BROKER_EVENT_ACCOUNT_MISMATCH");
    (bool_decide (bo_correlation_id event = o_correlation_id o), "BROKER_EVENT_CORRELATION_MISMATCH");
    (bool_decide (bo_product event = ti_product t), "BROKER_EVENT_PRODUCT_MISMATCH");
    (bool_decide (bo_symbol event = ti_symbol t), "BROKER_EVENT_SYMBOL_MISMATCH");
    (bool_decide (bo_direction event = ti_direction t), "BROKER_EVENT_DIRECTION_MISMATCH");
    (bool_decide (minor_units (bo_amount event) = ti_amount_minor t), "BROKER_EVENT_AMOUNT_MISMATCH");
    (bool_decide (currency (bo_amount event) = ti_currency t), "BROKER_EVENT_CURRENCY_MISMATCH")] with
  | Some reason => Some reason
  | None =>
      if match o_broker_order_id o with
         | Some b => negb (bool_decide (b = bo_broker_order_id event)) | None => false end
      then Some "BROKER_ORDER_ID_CONFLICT"
      else if match bo_result_currency event with
              | Some c => negb (bool_decide (c = ti_currency t)) | None => false end
      then Some "BROKER_EVENT_RESULT_CURRENCY_MISMATCH"
      else None
  end.

(** [_order_state_for_external_status] *)
Definition order_state_for_external_status (status : ExternalOrderStatus) : res OrderState :=
  match status with
  | EX_ACCEPTED => Ok ACCEPTED
  | EX_OPEN => Ok OPEN
  | EX_SETTLED => Ok SETTLED
  | EX_SETTLEMENT_UNKNOWN => Ok SETTLEMENT_UNKNOWN
  | EX_REJECTED => Ok REJECTED
  | EX_EXTERNAL_UNKNOWN => Err (PersistenceError "unsupported broker lifecycle status")
  end.

(** [_terminal_broker_event_result] *)
Definition terminal_broker_event_result (o : Order) (event : BrokerOrderEvent)
    (current target : OrderState) : option BrokerEventApplyResult :=
  if negb (is_terminal current) then None
  else if bool_decide (current = target) then
    if bool_decide (current = SETTLED) &&
       negb (bool_decide (o_realized_pnl_minor o = bo_result_minor event))
    then Some (mk_BrokerEventApplyResult EV_CONFLICT (Some current)
                 (Some "BROKER_EVENT_SETTLEMENT_CONFLICT"))
    else Some (mk_BrokerEventApplyResult EV_LATE_IGNORED (Some current)
                 (Some "BROKER_EVENT_TERMINAL_DUPLICATE"))
  else if bool_decide (current = SETTLED) && bool_decide (target ∈ [ACCEPTED; OPEN]) then
    Some (mk_BrokerEventApplyResult EV_LATE_IGNORED (Some current) (Some "BROKER_EVENT_LATE"))
  else
    Some (mk_BrokerEventApplyResult EV_CONFLICT (Some current) (Some "BROKER_EVENT_STATE_CONFLICT")).

(** [_insert_broker_order_event] *)
Definition insert_broker_order_event (event : BrokerOrderEvent) (order_id : option string)
    (status : BrokerEventApplyStatus) (reason_code : option string) (created_at : datetime)
    : db_m unit :=
  insert_broker_event_row (mk_BrokerEventRow event order_id (apply_status_name status) reason_code
    0 None (isoformat created_at)).

(** Insert the inbox row and return the result it records. *)
Definition record_event_result (event : BrokerOrderEvent) (order_id : option string)
    (r : BrokerEventApplyResult) (received_at : datetime) : db_m BrokerEventApplyResult :=
  _ ← insert_broker_order_event event order_id (ar_status r) (ar_reason_code r) received_at;
  mret r.

(** ** Digit recovery state *)

(** The row [_apply_digit_runtime_settlement] writes for one settlement. *)
Definition settle_digit_runtime (runtime : DigitRuntime) (symbol : string) (pnl_minor : Z)
    (order_id settlement_id : string) (occurred_at : datetime) : DigitRuntime :=
  let daily_pnl := dr_daily_pnl_minor runtime + pnl_minor in
  let losses := dr_consecutive_losses runtime in
  let step := dr_martingale_step runtime in
  let cumulative := dr_cumulative_sequence_loss_minor runtime in
  let pinned_symbol := dr_pinned_symbol runtime in
  let cooldown_started_at := dr_cooldown_started_at runtime in
  let '(losses, step, cumulative, pinned_symbol, cooldown_started_at) :=
    if pnl_minor <? 0 then
      let losses := losses + 1 in
      let cumulative := cumulative + - pnl_minor in
      let '(step, cumulative) :=
        if dr_martingale_enabled runtime then
          if dr_martingale_max_steps runtime <=? step then (0, 0) else (step + 1, cumulative)
        else (0, cumulative) in
      let pinned_symbol := if 0 <? step then Some symbol else None in
      (losses, step, cumulative, pinned_symbol,
       if dr_max_consecutive_losses runtime <=? losses then Some (isoformat occurred_at)
       else cooldown_started_at)
    else if 0 <? pnl_minor then
      let cumulative := Z.max 0 (cumulative - pnl_minor) in
      if dr_martingale_enabled runtime && (0 <? cumulative) &&
         (step <? dr_martingale_max_steps runtime)
      then (0, step + 1, cumulative, pinned_symbol, None)
      else (0, 0, 0, None, None)
    else (losses, 0, 0, None, None) in
  runtime <| dr_daily_pnl_minor := daily_pnl |>
          <| dr_consecutive_losses := losses |>
          <| dr_martingale_step := step |>
          <| dr_pinned_symbol := pinned_symbol |>
          <| dr_cumulative_sequence_loss_minor := cumulative |>
          <| dr_cooldown_started_at := cooldown_started_at |>
          <| dr_last_order_id := Some order_id |>
          <| dr_last_settlement_id := Some settlement_id |>
          <| dr_updated_at := isoformat occurred_at |>.

(** [_apply_digit_runtime_settlement] *)
Definition apply_digit_runtime_settlement (product symbol cur : string) (pnl_minor : Z)
    (order_id settlement_id : string) (occurred_at : datetime) : db_m unit :=
  if negb (bool_decide (str_upper (str_strip product) ∈ digit_products)) then mret tt
  else
    runtime ← st_gets digit_risk_runtime;
    match runtime with
    | None => st_raise (PersistenceError "digit risk runtime policy is not configured")
    | Some runtime =>
        _ ← st_guard (bool_decide (dr_currency runtime = cur))
              (PersistenceError "digit settlement currency does not match runtime policy");
        if bool_decide (dr_last_order_id runtime = Some order_id) then mret tt
        else st_modify (fun s => s <| digit_risk_runtime := Some
               (settle_digit_runtime runtime symbol pnl_minor order_id settlement_id occurred_at) |>)
    end.

(** ** The durable inbox of normalized broker events *)

Definition is_ambiguous_state (s : OrderState) : bool :=
  bool_decide (s ∈ [UNKNOWN; SETTLEMENT_UNKNOWN; MANUAL_REVIEW]).

(** The order row after an applied event. *)
Definition event_applied (event : BrokerOrderEvent) (was_ambiguous : bool) (received_at : datetime)
    (o : Order) : Order :=
  o <| o_broker_order_id := coalesce (o_broker_order_id o) (Some (bo_broker_order_id event)) |>
    <| o_last_external_sequence := coalesce (bo_external_sequence event) (o_last_external_sequence o) |>
    <| o_last_broker_event_id := Some (bo_event_id event) |>
    <| o_resolution_source := if was_ambiguous then Some "ORDER_EVENT" else o_resolution_source o |>
    <| o_resolved_at := if was_ambiguous then Some (isoformat received_at) else o_resolved_at o |>.

(** The part of [apply_normalized_broker_event] after the order's state moved to
    [target]. *)
Definition finish_broker_event (o : Order) (event : BrokerOrderEvent) (target : OrderState)
    (was_ambiguous : bool) (received_at : datetime) : db_m unit :=
  _ ← update_order (o_order_id o) (event_applied event was_ambiguous received_at);
  _ ← (if was_ambiguous then
         mark_reconciled (o_intent_id o)
           ("RECONCILED_EVENT_" +:+ value (bo_external_status event)) received_at
       else mret tt);
  _ ← (if is_terminal target then
         release_for_intent (o_intent_id o) (bo_occurred_at event)
           ("BROKER_EVENT_" +:+ order_state_name target) (Some (bo_event_id event))
       else mret tt);
  _ ← (match bo_result_minor event, bo_result_currency event with
       | Some pnl, Some cur =>
           if bool_decide (target = SETTLED) then
             apply_digit_runtime_settlement (bo_product event) (bo_symbol event) cur pnl
               (o_order_id o) (bo_event_id event) (bo_occurred_at event)
           else mret tt
       | _, _ => mret tt
       end);
  inject_at "before_broker_event_commit".

(** The part of [apply_normalized_broker_event] that applies an accepted event. *)
Definition apply_lifecycle_event (o : Order) (event : BrokerOrderEvent) (target : OrderState)
    (received_at : datetime) : db_m BrokerEventApplyResult :=
  let current := o_state o in
  let gap := match bo_external_sequence event, o_last_external_sequence o with
             | Some n, None => 1 <? n
             | Some n, Some p => p + 1 <? n
             | None, _ => false
             end in
  let processing_status := if gap then EV_APPLIED_WITH_GAP else EV_APPLIED in
  let reason_code := if gap then Some "ORDER_EVENT_SEQUENCE_GAP" else None in
  _ ← insert_broker_order_event event (Some (o_order_id o)) processing_status reason_code received_at;
  _ ← inject_at "after_broker_event_inbox";
  let was_ambiguous := is_ambiguous_state current in
  _ ← (if was_ambiguous then
         transition_order (o_intent_id o) RECONCILING (bo_observed_at event) None None
       else mret tt);
  let current := if was_ambiguous then RECONCILING else current in
  let applied := (
    _ ← finish_broker_event o event target was_ambiguous received_at;
    mret (mk_BrokerEventApplyResult processing_status (Some target) reason_code) : db_m _) in
  if bool_decide (current = target) then applied
  else
    moved ← st_catch
      (_ ← transition_order (o_intent_id o) target (bo_occurred_at event)
             (Some (bo_broker_order_id event)) (bo_result_minor event);
       mret true)
      InvalidOrderTransition (mret false);
    if (moved : bool) then applied
    else
      _ ← st_modify (fun s => s <| broker_order_events ::= update_where
            (fun r => bool_decide (bv_event_id r = bo_event_id event))
            (fun r => r <| bv_processing_result := "CONFLICT" |>
                        <| bv_reason_code := Some "BROKER_EVENT_STATE_CONFLICT" |>) |>);
      mret (mk_BrokerEventApplyResult EV_CONFLICT (Some (o_state o))
              (Some "BROKER_EVENT_STATE_CONFLICT")).

Definition is_late (event : BrokerOrderEvent) (o : Order) (target : OrderState) : bool :=
  match bo_external_sequence event, o_last_external_sequence o with
  | Some n, Some p => n <? p
  | _, _ => false
  end ||
  (bool_decide (o_state o = OPEN) && bool_decide (target = ACCEPTED)).

(** The event's own order, found by [client_order_ref]. *)
Definition order_with_intent (order_id : string) (s : state_db) : option (Order * TradeIntent) :=
  o ← fetchone (fun o => bool_decide (o_order_id o = order_id)) (orders s);
  join_intent o s.

Definition sequence_reused (order_id : string) (event : BrokerOrderEvent) (s : state_db) : bool :=
  match bo_external_sequence event with
  | None => false
  | Some n => exists_row (fun r => bool_decide (bv_order_id r = Some order_id) &&
                                   bool_decide (bv_external_sequence r = Some n))
                (broker_order_events s)
  end.

(** An event that is not a replay of a recorded one. *)
Definition apply_new_event (event : BrokerOrderEvent) (received_at : datetime)
    : db_m BrokerEventApplyResult :=
  row ← st_gets (order_with_intent (bo_client_order_ref event));
  match row with
  | None =>
      record_event_result event None (mk_BrokerEventApplyResult EV_CONFLICT None
        (Some "BROKER_EVENT_CLIENT_REFERENCE_MISMATCH")) received_at
  | Some (o, t) =>
      let oid := Some (o_order_id o) in
      let result st reason := mk_BrokerEventApplyResult st (Some (o_state o)) (Some reason) in
      match broker_event_matching_conflict (o, t) event with
      | Some mismatch => record_event_result event oid (result EV_CONFLICT mismatch) received_at
      | None =>
          reused ← st_gets (sequence_reused (o_order_id o) event);
          if (reused : bool) then
            record_event_result event oid (result EV_CONFLICT "BROKER_EVENT_SEQUENCE_CONFLICT")
              received_at
          else
            target ← st_lift (order_state_for_external_status (bo_external_status event));
            match terminal_broker_event_result o event (o_state o) target with
            | Some r => record_event_result event oid r received_at
            | None =>
                if is_late event o target then
                  record_event_result event oid (result EV_LATE_IGNORED "BROKER_EVENT_LATE")
                    received_at
                else apply_lifecycle_event o event target received_at
            end
      end
  end.

Definition apply_normalized_broker_event (event : BrokerOrderEvent) (received_at : datetime)
    : db_m BrokerEventApplyResult :=
  duplicate ← st_gets (fun s => fetchone (fun r => bool_decide (bv_event_id r = bo_event_id event))
    (broker_order_events s));
  match duplicate with
  | Some d =>
      order_state ← st_gets (fun s => order_state_by_id s (bv_order_id d));
      if bool_decide (bv_evidence_hash d = bo_evidence_hash event) then
        mret (mk_BrokerEventApplyResult EV_DUPLICATE order_state None)
      else
        _ ← st_modify (fun s => s <| broker_order_events ::= update_where
              (fun r => bool_decide (bv_event_id r = bo_event_id event))
              (fun r => r <| bv_conflict_count := bv_conflict_count r + 1 |>
                          <| bv_last_conflicting_hash := Some (bo_evidence_hash event) |>
                          <| bv_reason_code := Some "BROKER_EVENT_REPLAY_CONFLICT" |>) |>);
        mret (mk_BrokerEventApplyResult EV_CONFLICT order_state
                (Some "BROKER_EVENT_REPLAY_CONFLICT"))
  | None => apply_new_event event received_at
  end.

(** ** Reconciliation *)

Definition begin_reconciliation_attempt (attempt_id order_id correlation_id : string)
    (started_at : datetime) : db_m unit :=
  insert_attempt (mk_Attempt attempt_id order_id correlation_id (isoformat started_at) None
    "STARTED" None None).

Definition attempt_started (attempt_id : string) (a : Attempt) : bool :=
  bool_decide (ra_attempt_id a = attempt_id) && bool_decide (ra_result a = "STARTED").

(** [UPDATE reconciliation_attempts ... WHERE attempt_id = ? AND result = 'STARTED'],
    which must change one row. *)
Definition update_started_attempt (attempt_id : string) (f : Attempt -> Attempt) : db_m unit :=
  changed ← st_gets (fun s => rowcount (attempt_started attempt_id) (reconciliation_attempts s));
  _ ← st_modify (fun s => s <| reconciliation_attempts ::=
        update_where (attempt_started attempt_id) f |>);
  st_guard (changed =? 1) (PersistenceError "reconciliation attempt is not STARTED").

Definition complete_reconciliation_attempt (attempt_id result reason_code : string)
    (completed_at : datetime) : db_m unit :=
  update_started_attempt attempt_id (fun a =>
    a <| ra_completed_at := Some (isoformat completed_at) |> <| ra_result := result |>
      <| ra_reason_code := Some reason_code |>).

(** [_finish_reconciliation_attempt] *)
Definition finish_reconciliation_attempt (attempt_id result : string) (reason_code : option string)
    (completed_at : datetime) (evidence_id : option string) : db_m unit :=
  _ ← foreign (fun s => match evidence_id with None => true | Some k => evidence_exists k s end);
  update_started_attempt attempt_id (fun a =>
    a <| ra_completed_at := Some (isoformat completed_at) |> <| ra_result := result |>
      <| ra_reason_code := reason_code |> <| ra_evidence_id := evidence_id |>).

Inductive ReconciliationApplyStatus : Type :=
| RC_RESOLVED | RC_IDEMPOTENT | RC_UNRESOLVED | RC_CONFLICT.

#[export] Instance ReconciliationApplyStatus_eq_dec : EqDecision ReconciliationApplyStatus.
Proof. solve_decision. Defined.

Record ReconciliationApplyResult : Type := mk_ReconciliationApplyResult {
  rc_status : ReconciliationApplyStatus; rc_order_state : OrderState;
  rc_reason_code : option string
}.

(** [_finish_reconciliation_conflict] *)
Definition finish_reconciliation_conflict (attempt_id : string) (o : Order)
    (completed_at : datetime) (reason_code : string) (evidence_id : option string)
    : db_m ReconciliationApplyResult :=
  _ ← finish_reconciliation_attempt attempt_id "CONFLICT" (Some reason_code) completed_at evidence_id;
  mret (mk_ReconciliationApplyResult RC_CONFLICT (o_state o) (Some reason_code)).

(** [_matching_conflict_reason] *)
Definition matching_conflict_reason (row : Order * TradeIntent) (ev : ReconciliationEvidence)
    : option string :=
  let '(o, t) := row in
  match first_mismatch [
    (bool_decide (ev_client_order_ref ev = o_order_id o), "CLIENT_ORDER_REF_CONFLICT");
    (bool_decide (ev_broker ev = o_broker o), "BROKER_CONFLICT");
    (bool_decide (ev_account_id ev = o_account_id o), "ACCOUNT_CONFLICT");
    (bool_decide (ev_product ev = ti_product t), "PRODUCT_CONFLICT");
    (bool_decide (ev_symbol ev = ti_symbol t), "SYMBOL_CONFLICT");
    (bool_decide (ev_direction ev = ti_direction t), "DIRECTION_CONFLICT");
    (bool_decide (minor_units (ev_amount ev) = ti_amount_minor t), "AMOUNT_CONFLICT");
    (bool_decide (currency (ev_amount ev) = ti_currency t), "CURRENCY_CONFLICT")] with
  | Some reason => Some reason
  | None =>
      match o_broker_order_id o, ev_broker_order_id ev with
      | Some a, Some b => if bool_decide (a = b) then None else Some "BROKER_ORDER_ID_CONFLICT"
      | _, _ => None
      end
  end.

(** [_is_valid_reconciliation_status_progression] *)
Definition is_valid_reconciliation_status_progression (previous current : ExternalOrderStatus)
    : bool :=
  bool_decide (current ∈ match previous with
    | EX_ACCEPTED => [EX_OPEN; EX_SETTLEMENT_UNKNOWN; EX_SETTLED]
    | EX_OPEN => [EX_SETTLEMENT_UNKNOWN; EX_SETTLED]
    | EX_SETTLEMENT_UNKNOWN => [EX_SETTLED]
    | _ => []
    end).

(** [_evidence_hash] *)
Definition evidence_hash (ev : ReconciliationEvidence) : string :=
  payload_hash (ReconciliationEvidence_to_payload ev).

(** The order of a STARTED attempt, joined with its intent. *)
Definition started_attempt_order (attempt_id : string) (s : state_db)
    : option (Order * TradeIntent) :=
  a ← fetchone (attempt_started attempt_id) (reconciliation_attempts s);
  order_with_intent (ra_order_id a) s.

Definition evidence_resolved (ev : ReconciliationEvidence) (resolved_at : datetime) (o : Order)
    : Order :=
  o <| o_resolution_source := Some (value (ev_source ev)) |>
    <| o_resolution_evidence_id := Some (ev_evidence_id ev) |>
    <| o_resolved_at := Some (isoformat resolved_at) |>
    <| o_broker_order_id := coalesce (ev_broker_order_id ev) (o_broker_order_id o) |>.

(** The part of [apply_reconciliation_evidence] that moves the order to [target]. *)
Definition resolve_with_evidence (attempt_id : string) (o : Order) (t : TradeIntent)
    (ev : ReconciliationEvidence) (target : OrderState) (resolved_at : datetime)
    : db_m ReconciliationApplyResult :=
  let current := o_state o in
  let settlement_newly_applied := bool_decide (target = SETTLED) && negb (bool_decide (current = SETTLED)) in
  let reopen := bool_decide (current ∈ [UNKNOWN; SETTLEMENT_UNKNOWN]) in
  _ ← (if reopen then transition_order (o_intent_id o) RECONCILING resolved_at None None
       else mret tt);
  let current := if reopen then RECONCILING else current in
  _ ← (if bool_decide (current = target) then mret tt
       else transition_order (o_intent_id o) target resolved_at (ev_broker_order_id ev)
              (ev_realized_pnl_minor ev));
  _ ← foreign (evidence_exists (ev_evidence_id ev));
  _ ← update_order (o_order_id o) (evidence_resolved ev resolved_at);
  _ ← mark_reconciled (o_intent_id o) ("RECONCILED_" +:+ value (ev_external_status ev)) resolved_at;
  _ ← (if is_terminal target then
         release_for_intent (o_intent_id o) resolved_at ("RECONCILED_" +:+ order_state_name target)
           (Some (ev_evidence_id ev))
       else mret tt);
  _ ← (match ev_realized_pnl_minor ev with
       | Some pnl =>
           if settlement_newly_applied then
             apply_digit_runtime_settlement (ti_product t) (ti_symbol t) (ti_currency t) pnl
               (o_order_id o) (ev_evidence_id ev) resolved_at
           else mret tt
       | None => mret tt
       end);
  _ ← finish_reconciliation_attempt attempt_id "RESOLVED" None resolved_at (Some (ev_evidence_id ev));
  _ ← inject_at "before_reconciliation_commit";
  mret (mk_ReconciliationApplyResult RC_RESOLVED target None).

(** The check against the evidence that resolved the order before: [None] to go
    on, or the result to return. *)
Definition check_previous_evidence (attempt_id : string) (o : Order) (ev : ReconciliationEvidence)
    (resolved_at : datetime) : db_m (option ReconciliationApplyResult) :=
  match o_resolution_evidence_id o with
  | None => mret None
  | Some prev_id =>
      previous ← st_gets (fun s => fetchone (fun e => bool_decide (re_evidence_id e = prev_id))
        (reconciliation_evidence s));
      match previous with
      | None => st_raise (PersistenceError "order references missing reconciliation evidence")
      | Some prev =>
          if bool_decide (prev_id = ev_evidence_id ev) then
            _ ← finish_reconciliation_attempt attempt_id "IDEMPOTENT" None resolved_at
                  (Some (ev_evidence_id ev));
            mret (Some (mk_ReconciliationApplyResult RC_IDEMPOTENT (o_state o) None))
          else if negb (bool_decide (re_external_status prev = ev_external_status ev)) &&
                  negb (is_valid_reconciliation_status_progression (re_external_status prev)
                          (ev_external_status ev)) then
            r ← finish_reconciliation_conflict attempt_id o resolved_at
                  "RECONCILIATION_EVIDENCE_CONFLICT" (Some (ev_evidence_id ev));
            mret (Some r)
          else mret None
      end
  end.

Definition apply_reconciliation_evidence (attempt_id : string) (ev : ReconciliationEvidence)
    (resolved_at : datetime) : db_m ReconciliationApplyResult :=
  row ← st_gets (started_attempt_order attempt_id);
  match row with
  | None => st_raise (PersistenceError "reconciliation attempt is not STARTED")
  | Some (o, t) =>
      existing ← st_gets (fun s => fetchone
        (fun e => bool_decide (re_evidence_id e = ev_evidence_id ev)) (reconciliation_evidence s));
      if match existing with
         | Some e => negb (bool_decide (re_canonical_hash e = evidence_hash ev)) ||
                     negb (bool_decide (re_order_id e = o_order_id o))
         | None => false
         end
      then finish_reconciliation_conflict attempt_id o resolved_at
             "RECONCILIATION_EVIDENCE_CONFLICT" None
      else
        _ ← (match existing with
             | Some _ => mret tt
             | None =>
                 _ ← insert_evidence (mk_EvidenceRow ev (o_order_id o) (evidence_hash ev)
                       (isoformat resolved_at));
                 inject_at "after_reconciliation_evidence"
             end);
        match matching_conflict_reason (o, t) ev with
        | Some reason =>
            finish_reconciliation_conflict attempt_id o resolved_at reason (Some (ev_evidence_id ev))
        | None =>
            early ← check_previous_evidence attempt_id o ev resolved_at;
            match early with
            | Some r => mret r
            | None =>
                match order_state_for_external_status (ev_external_status ev) with
                | Err _ => (* EXTERNAL_UNKNOWN *)
                    _ ← finish_reconciliation_attempt attempt_id "UNRESOLVED"
                          (Some "RECONCILIATION_EXTERNAL_UNKNOWN") resolved_at
                          (Some (ev_evidence_id ev));
                    mret (mk_ReconciliationApplyResult RC_UNRESOLVED (o_state o)
                            (Some "RECONCILIATION_EXTERNAL_UNKNOWN"))
                | Ok target => resolve_with_evidence attempt_id o t ev target resolved_at
                end
            end
        end
  end.

(** [NotFoundEvidence] of [packages/protocol/messages.py] *)
Record NotFoundEvidence : Type := mk_NotFoundEvidence {
  nf_observed_at : datetime; nf_statement_checked : bool; nf_portfolio_checked : bool
}.

Definition confirms_both_sources (ev : NotFoundEvidence) : bool :=
  nf_statement_checked ev && nf_portfolio_checked ev.

Definition not_found_reason : string := "RECONCILIATION_NOT_FOUND_BOTH_SOURCES".

(** [(later - earlier).total_seconds()], in microseconds. *)
Definition usec_between (later earlier : datetime) : Z := instant later - instant earlier.

(** The latest earlier UNRESOLVED attempt with the same reason
    ([ORDER BY completed_at DESC LIMIT 1]), with its completion time. *)
Definition prior_not_found (attempt_id order_id : string) (s : state_db)
    : option (string * string) :=
  head (sort_by (fun a b => str_leb (snd b) (snd a))
    (omap (fun a =>
        if bool_decide (ra_order_id a = order_id) && negb (bool_decide (ra_attempt_id a = attempt_id))
           && bool_decide (ra_result a = "UNRESOLVED")
           && bool_decide (ra_reason_code a = Some not_found_reason)
        then (fun c => (ra_attempt_id a, c)) <$> ra_completed_at a else None)
      (reconciliation_attempts s))).

(** The part of [apply_reconciliation_not_found] that finalizes the order. *)
Definition resolve_not_found (attempt_id prior_id : string) (o : Order) (resolved_at : datetime)
    : db_m ReconciliationApplyResult :=
  _ ← transition_order (o_intent_id o) RECONCILING resolved_at None None;
  _ ← transition_order (o_intent_id o) REJECTED resolved_at None None;
  _ ← update_order (o_order_id o) (fun o =>
        o <| o_resolution_source := Some "STATUS_QUERY" |>
          <| o_resolved_at := Some (isoformat resolved_at) |>);
  _ ← mark_reconciled (o_intent_id o) "RECONCILED_NOT_FOUND" resolved_at;
  _ ← release_for_intent (o_intent_id o) resolved_at "RECONCILED_NOT_FOUND"
        (Some (not_found_reason +:+ ":" +:+ prior_id +:+ ":" +:+ attempt_id));
  _ ← finish_reconciliation_attempt attempt_id "RESOLVED" (Some not_found_reason) resolved_at None;
  _ ← inject_at "before_reconciliation_commit";
  mret (mk_ReconciliationApplyResult RC_RESOLVED REJECTED (Some not_found_reason)).

(** The grace period and the confirmation interval are in microseconds. *)
Definition apply_reconciliation_not_found (attempt_id : string) (ev : NotFoundEvidence)
    (not_found_grace confirmation_interval : Z) (resolved_at : datetime)
    : db_m ReconciliationApplyResult :=
  row ← st_gets (fun s =>
    a ← fetchone (attempt_started attempt_id) (reconciliation_attempts s);
    fetchone (fun o => bool_decide (o_order_id o = ra_order_id a)) (orders s));
  match row with
  | None => st_raise (PersistenceError "reconciliation attempt is not STARTED")
  | Some o =>
      let current := o_state o in
      if bool_decide (current = REJECTED) && bool_decide (o_resolution_source o = Some "STATUS_QUERY")
      then
        _ ← finish_reconciliation_attempt attempt_id "IDEMPOTENT" (Some not_found_reason)
              resolved_at None;
        mret (mk_ReconciliationApplyResult RC_IDEMPOTENT current (Some not_found_reason))
      else
        submitted_at ← st_lift (fromisoformat (o_created_at o));
        prior ← st_gets (prior_not_found attempt_id (o_order_id o));
        confirmed ← st_lift match prior with
          | None => Ok None
          | Some (prior_id, completed_at) =>
              prior_completed ← fromisoformat completed_at;
              Ok (if confirmation_interval <=? usec_between (nf_observed_at ev) prior_completed
                  then Some prior_id else None)
          end;
        match confirmed with
        | Some prior_id =>
            if bool_decide (current = UNKNOWN) &&
               (not_found_grace <=? usec_between (nf_observed_at ev) submitted_at)
            then resolve_not_found attempt_id prior_id o resolved_at
            else
              _ ← finish_reconciliation_attempt attempt_id "UNRESOLVED" (Some not_found_reason)
                    (nf_observed_at ev) None;
              mret (mk_ReconciliationApplyResult RC_UNRESOLVED current (Some not_found_reason))
        | None =>
            _ ← finish_reconciliation_attempt attempt_id "UNRESOLVED" (Some not_found_reason)
                  (nf_observed_at ev) None;
            mret (mk_ReconciliationApplyResult RC_UNRESOLVED current (Some not_found_reason))
        end
  end.

(** The argument check that runs before the transaction. *)
Definition not_found_arguments (ev : NotFoundEvidence) (not_found_grace confirmation_interval : Z)
    : res unit :=
  guard_res (confirms_both_sources ev && (0 <? not_found_grace) && (0 <? confirmation_interval))
    (ValueError "NOT_FOUND reconciliation proof is invalid").

(** ** Explicit release *)

Definition reservation_with_order (reservation_id : string) (s : state_db)
    : option (Reservation * Order) :=
  r ← fetchone (fun r => bool_decide (rr_reservation_id r = reservation_id)) (risk_reservations s);
  o ← fetchone (of_intent (rr_intent_id r)) (orders s);
  Some (r, o).

Definition release_reservation (reservation_id : string) (released_at : datetime) : db_m unit :=
  row ← st_gets (reservation_with_order reservation_id);
  match row with
  | None => st_raise (PersistenceError "reservation not found")
  | Some (r, o) =>
      if bool_decide (rr_state r = RELEASED) then mret tt
      else
        _ ← st_guard (is_terminal (o_state o)) ReservationReleaseBlocked;
        release_for_intent (rr_intent_id r) released_at "NORMAL_TERMINAL_RELEASE" None
  end.

(** The argument checks of [release_after_reconciliation]. *)
Definition release_arguments (resolved_state : OrderState) (evidence_reference : string) : res unit :=
  _ ← guard_res (nonblank evidence_reference) (ValueError "reconciliation evidence is required");
  guard_res (is_terminal resolved_state)
    (ValueError "reconciliation must prove a terminal state before release").

Definition release_after_reconciliation (reservation_id : string) (resolved_state : OrderState)
    (evidence_reference : string) (released_at : datetime) : db_m unit :=
  row ← st_gets (reservation_with_order reservation_id);
  match row with
  | None => st_raise (PersistenceError "reservation not found")
  | Some (r, o) =>
      _ ← (if bool_decide (o_state o ∈ [UNKNOWN; SETTLEMENT_UNKNOWN]) then
             transition_order (rr_intent_id r) RECONCILING released_at None None
           else st_guard (bool_decide (o_state o = RECONCILING)) ReservationReleaseBlocked);
      _ ← transition_order (rr_intent_id r) resolved_state released_at None None;
      release_for_intent (rr_intent_id r) released_at "EXPLICIT_RECONCILIATION"
        (Some evidence_reference)
  end.

(** ** The digit runtime row *)

Record DigitPolicy : Type := mk_DigitPolicy {
  dp_config_fingerprint : string; dp_currency : string; dp_martingale_enabled : bool;
  dp_martingale_max_steps : Z; dp_max_consecutive_losses : Z; dp_cooldown_seconds : dec
}.

(** The validation of [configure_digit_risk_runtime], before its transaction. *)
Definition validate_digit_policy (policy : payload) : res DigitPolicy :=
  let err := "invalid digit runtime policy field: " in
  fingerprint ← req_str err policy "config_fingerprint";
  cur ← req_str err policy "currency";
  enabled ← match pget policy "martingale_enabled" with
            | JBool b => Ok b
            | _ => Err (ValueError (err +:+ "martingale_enabled"))
            end;
  max_steps ← req_int err policy "martingale_max_steps";
  max_losses ← req_int err policy "max_consecutive_losses";
  cooldown_text ← req_str err policy "cooldown_seconds";
  cooldown ← match parse_decimal cooldown_text with
             | Some d => Ok d
             | None => Err (ValueError "invalid digit runtime cooldown")
             end;
  match cooldown with
  | Finite c =>
      if negb (bool_decide (fingerprint = "")) && (String.length cur =? 3)%nat &&
         in_range 1 max_steps 4 && in_range 1 max_losses 5 && (0 <? coef c)
      then Ok (mk_DigitPolicy fingerprint cur enabled max_steps max_losses c)
      else Err (ValueError "invalid digit runtime policy")
  | _ => Err (ValueError "invalid digit runtime policy")
  end.

(** The columns cleared by every reset of an active sequence. *)
Definition clear_sequence (r : DigitRuntime) : DigitRuntime :=
  r <| dr_consecutive_losses := 0 |> <| dr_martingale_step := 0 |>
    <| dr_pinned_symbol := None |> <| dr_cumulative_sequence_loss_minor := 0 |>
    <| dr_cooldown_started_at := None |>.

Definition configure_digit_risk_runtime (policy : DigitPolicy) (reset_active_sequence : bool)
    (now : datetime) : db_m unit :=
  current ← st_gets digit_risk_runtime;
  match current with
  | None =>
      st_modify (fun s => s <| digit_risk_runtime := Some (mk_DigitRuntime
        (dp_config_fingerprint policy) (dp_currency policy) (dp_martingale_enabled policy)
        (dp_martingale_max_steps policy) (dp_max_consecutive_losses policy)
        (dp_cooldown_seconds policy) 0 0 0 None 0 None None None (isoformat now) None) |>)
  | Some r =>
      _ ← st_guard (bool_decide (dr_config_fingerprint r = dp_config_fingerprint policy) ||
                    (dr_martingale_step r <=? 0) || reset_active_sequence)
            (PersistenceError "DIGIT_MARTINGALE_SEQUENCE_ACTIVE");
      let r' := r <| dr_config_fingerprint := dp_config_fingerprint policy |>
                  <| dr_currency := dp_currency policy |>
                  <| dr_martingale_enabled := dp_martingale_enabled policy |>
                  <| dr_martingale_max_steps := dp_martingale_max_steps policy |>
                  <| dr_max_consecutive_losses := dp_max_consecutive_losses policy |>
                  <| dr_cooldown_seconds := dp_cooldown_seconds policy |>
                  <| dr_updated_at := isoformat now |> in
      st_modify (fun s => s <| digit_risk_runtime := Some
        (if reset_active_sequence then clear_sequence r' else r') |>)
  end.

Definition pending_digit_order (s : state_db) (o : Order) : bool :=
  bool_decide (o_broker o = DERIV) && negb (is_terminal (o_state o)) &&
  match join_intent o s with
  | Some (_, t) => bool_decide (ti_product t ∈ digit_products)
  | None => false
  end.

Definition reset_digit_test_session_if_flat (now : datetime) : db_m unit :=
  pending ← st_gets (fun s => exists_row (pending_digit_order s) (orders s));
  active ← st_gets (fun s => exists_row (fun r => bool_decide (rr_state r = ACTIVE))
    (risk_reservations s));
  _ ← st_guard (negb (pending || active))
        (PersistenceError "DIGIT_TEST_SESSION_RESET_BLOCKED_EXPOSURE");
  runtime ← st_gets digit_risk_runtime;
  match runtime with
  | None => st_raise (PersistenceError "DIGIT_RISK_RUNTIME_NOT_CONFIGURED")
  | Some r =>
      st_modify (fun s => s <| digit_risk_runtime := Some
        (clear_sequence r <| dr_daily_pnl_minor := 0 |>
                          <| dr_session_started_at := Some (isoformat now) |>
                          <| dr_updated_at := isoformat now |>) |>)
  end.

(** [Decimal(str(delta.total_seconds()))]: a number of microseconds as seconds. *)
Definition seconds_of_usec (us : Z) : dec := mk_dec us (-6).

Definition expire_digit_cooldown (checked_at : datetime) : db_m (option DigitRuntime) :=
  row ← st_gets digit_risk_runtime;
  match row with
  | None => mret None
  | Some r =>
      match dr_cooldown_started_at r with
      | None => mret (Some r)
      | Some started_raw =>
          started ← st_lift (fromisoformat started_raw);
          _ ← st_guard (bool_decide (dt_offset started <> None))
                (PersistenceError "digit cooldown timestamp is not timezone-aware");
          if dec_leb (dr_cooldown_seconds r) (seconds_of_usec (usec_between checked_at started)) then
            let r' := clear_sequence r <| dr_updated_at := isoformat checked_at |> in
            _ ← st_modify (fun s => s <| digit_risk_runtime := Some r' |>);
            mret (Some r')
          else mret (Some r)
      end
  end.

(** ** Reports and queues outside [_transaction] *)

(** [list_active_reservations]: [ORDER BY created_at, reservation_id] *)
Definition list_active_reservations (s : state_db) : list (Reservation * string) :=
  sort_by (fun a b =>
      match String.compare (rr_created_at (fst a)) (rr_created_at (fst b)) with
      | Lt => true | Gt => false
      | Eq => str_leb (rr_reservation_id (fst a)) (rr_reservation_id (fst b)) end)
    (omap (fun r => (fun t => (r, ti_symbol t)) <$>
        fetchone (fun t => bool_decide (ti_intent_id t = rr_intent_id r)) (trade_intents s))
      (select (fun r => bool_decide (rr_state r = ACTIVE)) (risk_reservations s))).

(** [INSERT ... ON CONFLICT(strategy_key) DO UPDATE SET ...] *)
Definition save_sprt_monitor (row : SprtRow) (s : state_db) : state_db :=
  let same r := bool_decide (sp_strategy_key r = sp_strategy_key row) in
  s <| sprt_monitors ::= fun t =>
    if exists_row same t then update_where same (fun _ => row) t else t ++ [row] |>.

Definition get_sprt_monitor (key : string) (s : state_db) : option SprtRow :=
  fetchone (fun r => bool_decide (sp_strategy_key r = key)) (sprt_monitors s).

Definition list_sprt_monitors (s : state_db) : list SprtRow :=
  sort_by (fun a b => str_leb (sp_strategy_key a) (sp_strategy_key b)) (sprt_monitors s).

(** [enqueue_outcome] returns the AUTOINCREMENT id. *)
Definition enqueue_outcome (strategy_key : string) (ts : Z) (won : bool)
    (payout_pct created_at : string) (s : state_db) : Z * state_db :=
  let id := outcomes_seq s + 1 in
  (id, s <| outcomes_queue ::= fun t =>
           t ++ [mk_OutcomeRow id strategy_key ts won payout_pct created_at "pending"] |>
         <| outcomes_seq := id |>).

Definition is_pending_outcome (r : OutcomeRow) : bool := bool_decide (oq_status r = "pending").

(** [fetch_pending_outcomes(limit)]: [ORDER BY id ASC LIMIT ?] *)
Definition fetch_pending_outcomes (limit : nat) (s : state_db) : list OutcomeRow :=
  take limit (sort_by (fun a b => oq_id a <=? oq_id b) (select is_pending_outcome (outcomes_queue s))).

Definition ack_outcomes (ids : list Z) (s : state_db) : state_db :=
  s <| outcomes_queue ::= select (fun r => negb (bool_decide (oq_id r ∈ ids))) |>.

Definition count_pending_outcomes (s : state_db) : Z :=
  rowcount is_pending_outcome (outcomes_queue s).
End writer.
