(* ===== verification/WriterInv.v ===== *)
(** * Invariants of state.db under the writer's operations

    A transaction is a sequence of statements, and the link between an order and
    its reservation is broken between the statement that makes the order terminal
    and the one that releases the reservation.  [Inv s0 x s] is the invariant at a
    point inside a transaction started in [s0]: [x] is the intent whose
    reservation is still to be released.  Each statement has a triple; the
    operations follow by composition. *)

From S2P Require Import Prelude Datetime Dec Domain StateDb Writer.

(** ** Triples for the operations *)

Definition triple {A} (P : state_db -> Prop) (m : db_m A) (Q : A -> state_db -> Prop) : Prop :=
  forall s a s', P s -> m s = Ok (a, s') -> Q a s'.

Create HintDb triples.

Lemma t_ret {A} (a : A) (P : state_db -> Prop) : triple P (mret a) (fun _ => P).
Proof. by intros s b s' HP [= <- <-]. Qed.

Lemma t_bind {A B} P R Q (m : db_m A) (k : A -> db_m B) :
  triple P m R -> (forall a, triple (R a) (k a) Q) -> triple P (m ≫= k) Q.
Proof. intros Hm Hk s b s'' HP H. apply st_bind_Ok in H as (a & s' & H1 & H2). by eapply Hk; eauto. Qed.

Lemma t_gets {A} (f : state_db -> A) P Q :
  (forall s, P s -> Q (f s) s) -> triple P (st_gets f) Q.
Proof. intros H s a s' HP [-> ->]%st_gets_Ok. auto. Qed.

Lemma t_modify (f : state_db -> state_db) (P Q : state_db -> Prop) :
  (forall s, P s -> Q (f s)) -> triple P (st_modify f) (fun _ => Q).
Proof. intros H s a s' HP ->%st_modify_Ok. auto. Qed.

Lemma t_guard b e (P Q : state_db -> Prop) :
  (b = true -> forall s, P s -> Q s) -> triple P (st_guard b e) (fun _ => Q).
Proof. intros H s a s' HP [Hb ->]%st_guard_Ok. auto. Qed.

Lemma t_guard_keep b e (P : state_db -> Prop) : triple P (st_guard b e) (fun _ => P).
Proof. apply t_guard. auto. Qed.

Lemma t_raise {A} e P (Q : A -> state_db -> Prop) : triple P (st_raise e) Q.
Proof. by intros s a s' _ H%st_raise_Ok. Qed.

Lemma t_lift {A} (r : res A) P (Q : A -> state_db -> Prop) :
  (forall a, r = Ok a -> forall s, P s -> Q a s) -> triple P (st_lift r) Q.
Proof. intros H s a s' HP [Hr ->]%st_lift_Ok. eauto. Qed.

Lemma t_conseq {A} (P P' : state_db -> Prop) (Q Q' : A -> state_db -> Prop) m :
  triple P' m Q' -> (forall s, P s -> P' s) -> (forall a s, Q' a s -> Q a s) -> triple P m Q.
Proof. intros H HP HQ s a s' Hs Hm. eauto. Qed.

Lemma t_pure {A} (phi : Prop) (P : state_db -> Prop) (Q : A -> state_db -> Prop) m :
  (phi -> triple P m Q) -> triple (fun s => phi /\ P s) m Q.
Proof. intros H s a s' [Hphi HP] Hm. by eapply H. Qed.

Lemma t_ex {A B} (P : B -> state_db -> Prop) m (Q : A -> state_db -> Prop) :
  (forall b, triple (P b) m Q) -> triple (fun s => exists b, P b s) m Q.
Proof. intros H s a s' [b HP] Hm. by eapply H. Qed.

Lemma t_for {A} (f : A -> db_m unit) (P : state_db -> Prop) l :
  (forall x, triple P (f x) (fun _ => P)) -> triple P (st_for f l) (fun _ => P).
Proof.
  intros Hf. induction l as [|x l IH]; [apply t_ret|].
  eapply t_bind; [apply Hf|]. intros u. apply IH.
Qed.

Lemma t_collect {A B} (f : A -> db_m (option B)) (P : state_db -> Prop) l :
  (forall x, triple P (f x) (fun _ => P)) -> triple P (st_collect f l) (fun _ => P).
Proof.
  intros Hf. induction l as [|x l IH]; [apply t_ret|]. simpl.
  eapply t_bind; [apply Hf|]. intros b. eapply t_bind; [apply IH|]. intros bs. apply t_ret.
Qed.

(** ** What a statement may do to a row *)

Definition order_static (o : Order) : string * string * Broker * string * string * string :=
  (o_order_id o, o_intent_id o, o_broker o, o_account_id o, o_correlation_id o, o_created_at o).
Definition res_static (r : Reservation) : string * string * Broker * string * Z * string :=
  (rr_reservation_id r, rr_intent_id r, rr_broker r, rr_account_id r, rr_amount_minor r,
   rr_currency r).
Definition msg_static (m : OutboxMessage) : string * string * payload :=
  (om_message_id m, om_intent_id m, om_payload m).

(** Terminal orders are frozen. *)
Definition order_step (o o' : Order) : Prop :=
  order_static o' = order_static o /\
  (is_terminal (o_state o) = true ->
   o_state o' = o_state o /\ o_realized_pnl_minor o' = o_realized_pnl_minor o /\
   o_pnl_application_count o' = o_pnl_application_count o).

(** A reservation is released at most once and otherwise untouched. *)
Definition res_step (r r' : Reservation) : Prop :=
  r' = r \/ (res_static r' = res_static r /\ rr_state r = ACTIVE /\ rr_state r' = RELEASED).

(** A message leaves PENDING for good. *)
Definition msg_step (m m' : OutboxMessage) : Prop :=
  msg_static m' = msg_static m /\ om_attempt_count m <= om_attempt_count m' /\
  (om_state m <> OB_PENDING -> om_state m' <> OB_PENDING /\ om_attempt_count m' = om_attempt_count m).

Lemma order_step_refl o : order_step o o.
Proof. done. Qed.

Lemma order_step_trans o1 o2 o3 : order_step o1 o2 -> order_step o2 o3 -> order_step o1 o3.
Proof.
  intros [E1 H1] [E2 H2]. split; [congruence|]. intros Ht.
  destruct (H1 Ht) as (S1 & ? & ?). rewrite <- S1 in Ht. destruct (H2 Ht) as (? & ? & ?).
  repeat split; congruence.
Qed.

Lemma res_step_trans r1 r2 r3 : res_step r1 r2 -> res_step r2 r3 -> res_step r1 r3.
Proof.
  intros [->|(E1 & A1 & R1)] [->|(E2 & A2 & R2)]; unfold res_step; auto.
  right. split_and!; congruence.
Qed.

Lemma msg_step_trans m1 m2 m3 : msg_step m1 m2 -> msg_step m2 m3 -> msg_step m1 m3.
Proof.
  intros (E1 & L1 & P1) (E2 & L2 & P2). split_and!; [congruence|lia|]. intros Hp.
  destruct (P1 Hp) as [Hp2 ?]. destruct (P2 Hp2) as [Hp3 ?]. split; congruence.
Qed.

#[export] Instance order_step_preorder : PreOrder order_step.
Proof. split; [exact order_step_refl|exact order_step_trans]. Qed.

#[export] Instance res_step_preorder : PreOrder res_step.
Proof. split; [by left|exact res_step_trans]. Qed.

#[export] Instance msg_step_preorder : PreOrder msg_step.
Proof. split; [by intros m; split_and!; done || lia|exact msg_step_trans]. Qed.

Lemma update_where_Forall2 {R} (step : R -> R -> Prop) `{!PreOrder step} (p : R -> bool) f
    (t0 t : list R) :
  (forall r, r ∈ t -> p r = true -> step r (f r)) ->
  Forall2 step t0 t -> Forall2 step t0 (update_where p f t).
Proof.
  intros Hf Ht. revert Hf. induction Ht as [|r0 r t0 t Hr Ht IH]; intros Hf; [constructor|].
  unfold update_where. rewrite fmap_cons. constructor.
  - destruct (p r) eqn:E; [|done]. etrans; [done|]. apply Hf; [apply elem_of_cons; by left|done].
  - apply IH. intros r' Hin. apply Hf. apply elem_of_cons. by right.
Qed.

(** How the tables evolve inside a transaction that inserts no order. *)
Record evolves (s0 s : state_db) : Prop := {
  ev_intents : trade_intents s = trade_intents s0;
  ev_orders : Forall2 order_step (orders s0) (orders s);
  ev_res : Forall2 res_step (risk_reservations s0) (risk_reservations s);
  ev_msgs : Forall2 msg_step (outbox_messages s0) (outbox_messages s)
}.

Lemma evolves_refl s : evolves s s.
Proof.
  by split.
Qed.

(** ** The invariant *)

(** The P&L is applied once, at settlement. *)
Definition order_ok (o : Order) : Prop :=
  o_pnl_application_count o = (if bool_decide (o_realized_pnl_minor o = None) then 0 else 1) /\
  (o_realized_pnl_minor o <> None -> o_state o = SETTLED).

(** A reservation is released once. *)
Definition res_ok (r : Reservation) : Prop :=
  rr_release_count r = (if bool_decide (rr_state r = RELEASED) then 1 else 0) /\
  0 < rr_amount_minor r.

(** A message is dispatched at most once. *)
Definition msg_ok (m : OutboxMessage) : Prop :=
  (om_state m = OB_PENDING -> om_attempt_count m = 0) /\ 0 <= om_attempt_count m <= 1.

(** The digit recovery row: the sequence stays within the four allowed steps. *)
Definition digit_ok (r : DigitRuntime) : Prop :=
  1 <= dr_martingale_max_steps r <= 4 /\ 0 <= dr_martingale_step r <= 4 /\
  0 <= dr_cumulative_sequence_loss_minor r /\ 0 <= dr_consecutive_losses r.

(** The keys, and the rows of the four tables that belong together. *)
Record struct_inv (s : state_db) : Prop := {
  si_intents : NoDup (ti_intent_id <$> trade_intents s);
  si_orders : NoDup (o_order_id <$> orders s);
  si_res : NoDup (rr_reservation_id <$> risk_reservations s);
  si_msgs : NoDup (om_message_id <$> outbox_messages s);
  si_order_intents : o_intent_id <$> orders s = ti_intent_id <$> trade_intents s;
  si_res_intents : rr_intent_id <$> risk_reservations s = ti_intent_id <$> trade_intents s;
  si_msg_intents : om_intent_id <$> outbox_messages s = ti_intent_id <$> trade_intents s;
  si_scope : forall o r, o ∈ orders s -> r ∈ risk_reservations s ->
    rr_intent_id r = o_intent_id o -> rr_broker r = o_broker o /\ rr_account_id r = o_account_id o
}.

Definition static_eq (s s' : state_db) : Prop :=
  trade_intents s' = trade_intents s /\
  order_static <$> orders s' = order_static <$> orders s /\
  res_static <$> risk_reservations s' = res_static <$> risk_reservations s /\
  msg_static <$> outbox_messages s' = msg_static <$> outbox_messages s.

Lemma fmap_via {A B C} (f : A -> C) (st : A -> B) (g : B -> C) (l l' : list A) :
  (forall a, f a = g (st a)) -> st <$> l' = st <$> l -> f <$> l' = f <$> l.
Proof.
  intros Hg E. rewrite !(list_fmap_ext f (g ∘ st)) by (intros; apply Hg).
  by rewrite !list_fmap_compose, E.
Qed.

Lemma elem_of_via {A B} (st : A -> B) (l l' : list A) x :
  st <$> l' = st <$> l -> x ∈ l' -> exists y, y ∈ l /\ st y = st x.
Proof.
  intros E Hx. apply (key_in st) in Hx. rewrite E in Hx.
  apply list_elem_of_fmap in Hx as (y & ? & ?). eauto.
Qed.

Lemma struct_inv_static s s' : static_eq s s' -> struct_inv s -> struct_inv s'.
Proof.
  intros (Et & Eo & Er & Em) [].
  assert (o_order_id <$> orders s' = o_order_id <$> orders s) as Eo1.
  { by eapply (fmap_via _ order_static (fun '(x, _, _, _, _, _) => x)). }
  assert (o_intent_id <$> orders s' = o_intent_id <$> orders s) as Eo2.
  { by eapply (fmap_via _ order_static (fun '(_, x, _, _, _, _) => x)). }
  assert (rr_reservation_id <$> risk_reservations s' = rr_reservation_id <$> risk_reservations s) as Er1.
  { by eapply (fmap_via _ res_static (fun '(x, _, _, _, _, _) => x)). }
  assert (rr_intent_id <$> risk_reservations s' = rr_intent_id <$> risk_reservations s) as Er2.
  { by eapply (fmap_via _ res_static (fun '(_, x, _, _, _, _) => x)). }
  assert (om_message_id <$> outbox_messages s' = om_message_id <$> outbox_messages s) as Em1.
  { by eapply (fmap_via _ msg_static (fun '(x, _, _) => x)). }
  assert (om_intent_id <$> outbox_messages s' = om_intent_id <$> outbox_messages s) as Em2.
  { by eapply (fmap_via _ msg_static (fun '(_, x, _) => x)). }
  split; rewrite ?Et, ?Eo1, ?Eo2, ?Er1, ?Er2, ?Em1, ?Em2; auto.
  intros o r Ho Hr E.
  destruct (elem_of_via _ _ _ _ Eo Ho) as (o1 & Ho1 & [= ? ? ? ?]).
  destruct (elem_of_via _ _ _ _ Er Hr) as (r1 & Hr1 & [= ? ? ? ?]).
  destruct (si_scope0 o1 r1) as [? ?]; [done|done|congruence|]. split; congruence.
Qed.

Record Inv (s0 : state_db) (x : option string) (s : state_db) : Prop := {
  inv_evolves : evolves s0 s;
  inv_struct : struct_inv s;
  inv_orders : forall o, o ∈ orders s -> order_ok o;
  inv_res : forall r, r ∈ risk_reservations s -> res_ok r;
  inv_msgs : forall m, m ∈ outbox_messages s -> msg_ok m;
  inv_digit : forall r, digit_risk_runtime s = Some r -> digit_ok r;
  (* one ACTIVE reservation per account *)
  inv_active : forall r1 r2, r1 ∈ risk_reservations s -> r2 ∈ risk_reservations s ->
    rr_state r1 = ACTIVE -> rr_state r2 = ACTIVE -> rr_broker r1 = rr_broker r2 ->
    rr_account_id r1 = rr_account_id r2 -> r1 = r2;
  (* exposure is never released before the order is terminal *)
  inv_held : forall o r, o ∈ orders s -> r ∈ risk_reservations s ->
    rr_intent_id r = o_intent_id o -> rr_state r = RELEASED -> is_terminal (o_state o) = true;
  (* and is released once it is, except for the order being processed *)
  inv_released : forall o r, o ∈ orders s -> r ∈ risk_reservations s ->
    rr_intent_id r = o_intent_id o -> is_terminal (o_state o) = true ->
    rr_state r = RELEASED \/ x = Some (o_intent_id o);
  inv_pending : forall o, o ∈ orders s -> x = Some (o_intent_id o) -> is_terminal (o_state o) = true
}.

(** ** Statements that leave the order and the reservation tables alone *)

(** The invariant reads five tables. *)
Lemma Inv_frame s0 x s s' :
  trade_intents s' = trade_intents s -> risk_reservations s' = risk_reservations s ->
  outbox_messages s' = outbox_messages s -> orders s' = orders s ->
  digit_risk_runtime s' = digit_risk_runtime s -> Inv s0 x s -> Inv s0 x s'.
Proof.
  intros Et Er Em Eo Ed []. split; rewrite ?Et, ?Er, ?Em, ?Eo, ?Ed; try done.
  - destruct inv_evolves0. split; rewrite ?Et, ?Er, ?Em, ?Eo; done.
  - eapply struct_inv_static; [|done]. unfold static_eq. by rewrite Et, Er, Em, Eo.
Qed.

(** [UPDATE outbox_messages] *)
Lemma Inv_update_outbox s0 x p f s :
  (forall m, p m = true -> msg_ok m -> msg_ok (f m) /\ msg_step m (f m)) ->
  Inv s0 x s -> Inv s0 x (s <| outbox_messages ::= update_where p f |>).
Proof.
  intros Hf [[] ]. split; simpl; try done.
  - split; simpl; try done. apply (update_where_Forall2 _); [|done].
    intros m Hm Hp. by apply Hf; [|apply inv_msgs0].
  - eapply struct_inv_static; [|done]. split_and!; simpl; try done.
    unfold update_where. rewrite <- list_fmap_compose. apply list_fmap_ext.
    intros i m Hm%list_elem_of_lookup_2. simpl.
    destruct (p m) eqn:E; [|done]. by apply (Hf m E (inv_msgs0 m Hm)).
  - intros m' (m & Hm & ->)%elem_of_update_where. destruct (p m) eqn:E; [|auto].
    by apply Hf; auto.
Qed.

Lemma Inv_digit s0 x r s :
  digit_ok r -> Inv s0 x s -> Inv s0 x (s <| digit_risk_runtime := Some r |>).
Proof.
  intros Hr [[]]. split; simpl; try done.
  - by eapply struct_inv_static; [|done].
  - by intros r' [= <-].
Qed.

(** ** Statements on the orders *)

Lemma Inv_static_orders p f s :
  (forall o, p o = true -> order_static (f o) = order_static o) ->
  static_eq s (s <| orders ::= update_where p f |>).
Proof.
  intros Hf. split_and!; simpl; try done. unfold update_where.
  rewrite <- list_fmap_compose. apply list_fmap_ext. intros _ o _. simpl.
  destruct (p o) eqn:E; auto.
Qed.

(** An UPDATE of columns the invariant does not read. *)
Lemma Inv_update_order s0 x k f s :
  (forall o, order_static (f o) = order_static o /\ o_state (f o) = o_state o /\
     o_realized_pnl_minor (f o) = o_realized_pnl_minor o /\
     o_pnl_application_count (f o) = o_pnl_application_count o) ->
  Inv s0 x s ->
  Inv s0 x (s <| orders ::= update_where (fun o => bool_decide (o_order_id o = k)) f |>).
Proof.
  intros Hf [[] ]. set (p := fun o => bool_decide (o_order_id o = k)).
  assert (forall o', o' ∈ update_where p f (orders s) -> exists o, o ∈ orders s /\
    o_intent_id o' = o_intent_id o /\ o_state o' = o_state o /\
    o_realized_pnl_minor o' = o_realized_pnl_minor o /\
    o_pnl_application_count o' = o_pnl_application_count o) as Hback.
  { intros o' (o & Ho & ->)%elem_of_update_where. exists o. destruct (p o); [|done].
    destruct (Hf o) as ([= ? ? ? ? ? ?] & ? & ? & ?). done. }
  split; simpl; try done.
  - split; simpl; try done. apply (update_where_Forall2 _); [|done].
    intros o _ _. destruct (Hf o) as (? & ? & ? & ?). done.
  - eapply struct_inv_static; [|done]. apply Inv_static_orders. intros. apply Hf.
  - intros o' (o & Ho & ? & E1 & E2 & E3)%Hback. unfold order_ok.
    rewrite E1, E2, E3. by apply inv_orders0.
  - intros o' r (o & Ho & E & -> & _)%Hback Hr Hi. rewrite E in Hi. eauto.
  - intros o' r (o & Ho & -> & -> & _)%Hback Hr Hi. eauto.
  - intros o' (o & Ho & -> & -> & _)%Hback. eauto.
Qed.

Lemma order_intent_unique s o1 o2 :
  struct_inv s -> o1 ∈ orders s -> o2 ∈ orders s -> o_intent_id o1 = o_intent_id o2 -> o1 = o2.
Proof. intros [] ? ?. apply (key_unique o_intent_id (orders s)); [congruence|done|done]. Qed.

Lemma order_id_unique s o1 o2 :
  struct_inv s -> o1 ∈ orders s -> o2 ∈ orders s -> o_order_id o1 = o_order_id o2 -> o1 = o2.
Proof. intros [] ? ?. by apply (key_unique o_order_id (orders s)). Qed.

Lemma res_intent_unique s r1 r2 :
  struct_inv s -> r1 ∈ risk_reservations s -> r2 ∈ risk_reservations s ->
  rr_intent_id r1 = rr_intent_id r2 -> r1 = r2.
Proof. intros [] ? ?. apply (key_unique rr_intent_id (risk_reservations s)); [congruence|done|done]. Qed.

Lemma allowed_not_terminal cur new : allowed cur new = true -> is_terminal cur = false.
Proof. by destruct cur, new. Qed.

(** The order of [i] is being processed: its reservation may wait for its release. *)
Lemma Inv_open s0 i s :
  (forall o, o ∈ orders s -> o_intent_id o = i -> is_terminal (o_state o) = true) ->
  Inv s0 None s -> Inv s0 (Some i) s.
Proof.
  intros Hi []. split; try done.
  - intros o r Ho Hr E Ht. left. by destruct (inv_released0 o r Ho Hr E Ht).
  - intros o Ho [= ->]. auto.
Qed.

Lemma transitioned_ok new at_ boid pnl o :
  (pnl <> None -> new = SETTLED) -> is_terminal (o_state o) = false -> order_ok o ->
  order_ok (transitioned new at_ boid pnl o).
Proof.
  unfold order_ok, transitioned. intros Hpnl Hnt [Hc Hs]. simpl.
  destruct (o_realized_pnl_minor o) as [q|] eqn:E.
  { rewrite Hs in Hnt by done. done. }
  rewrite Hc. destruct pnl as [q|]; simpl.
  - rewrite (Hpnl ltac:(done)). done.
  - rewrite andb_false_r. done.
Qed.

(** What [_transition_order] did when it returned. *)
Lemma transition_order_Ok i new at_ boid pnl s u s' :
  transition_order i new at_ boid pnl s = Ok (u, s') ->
  exists o, fetchone (of_intent i) (orders s) = Some o /\
    ((o_state o = new /\ s' = s) \/
     (o_state o <> new /\ allowed (o_state o) new = true /\
      s' = s <| orders ::= update_where (of_intent i)
                 (transitioned new (isoformat at_) boid pnl) |>)).
Proof.
  intros H. unfold transition_order in H. monad_inv H.
  - apply bool_decide_eq_true in E0. eauto 10.
  - apply bool_decide_eq_false in E0. eauto 10.
Qed.

Lemma fetch_intent i s o :
  fetchone (of_intent i) (orders s) = Some o -> o ∈ orders s /\ o_intent_id o = i.
Proof. intros [? ?%bool_decide_eq_true]%fetchone_Some. done. Qed.

Lemma order_with_intent_Some k s o t :
  order_with_intent k s = Some (o, t) ->
  o ∈ orders s /\ o_order_id o = k /\ t ∈ trade_intents s /\ ti_intent_id t = o_intent_id o.
Proof.
  unfold order_with_intent, join_intent. intros H. simplify_option_eq. case_match; simplify_eq.
  repeat match goal with H : fetchone _ _ = Some _ |- _ =>
    apply fetchone_Some in H as [? ?%bool_decide_eq_true] end. done.
Qed.

Lemma Inv_transition s0 i new at_ boid pnl s u s' :
  (pnl <> None -> new = SETTLED) -> Inv s0 None s ->
  transition_order i new at_ boid pnl s = Ok (u, s') ->
  Inv s0 (if is_terminal new then Some i else None) s' /\
  (forall o, o ∈ orders s' -> o_intent_id o = i -> o_state o = new).
Proof.
  intros Hpnl HI H. pose proof (inv_struct _ _ _ HI) as Hst.
  apply transition_order_Ok in H as (o & [Ho Hoi]%fetch_intent & [[Hnew ->]|(Hne & Hal & ->)]).
  { assert (forall o', o' ∈ orders s -> o_intent_id o' = i -> o_state o' = new) as Hat.
    { intros o' Ho' E. by rewrite (order_intent_unique s o' o) by congruence. }
    split; [|done]. destruct (is_terminal new) eqn:Et; [|done].
    apply Inv_open; [|done]. intros o' Ho' E. by rewrite (Hat o' Ho' E). }
  pose proof (allowed_not_terminal _ _ Hal) as Hnt.
  assert (forall o', o' ∈ update_where (of_intent i) (transitioned new (isoformat at_) boid pnl)
      (orders s) ->
    o' = transitioned new (isoformat at_) boid pnl o \/ (o' ∈ orders s /\ o_intent_id o' <> i)) as Hback.
  { intros o' (o1 & Ho1 & ->)%elem_of_update_where. unfold of_intent.
    case_bool_decide as E; [left|by right]. by rewrite (order_intent_unique s o1 o) by congruence. }
  split; [|by intros o' [->|[_ ?]]%Hback E].
  destruct HI as [[] ]. split; simpl; try done.
  - split; simpl; try done. apply (update_where_Forall2 _); [|done].
    intros o1 Ho1 E%bool_decide_eq_true. rewrite (order_intent_unique s o1 o) by congruence.
    split; [done|]. by rewrite Hnt.
  - eapply struct_inv_static; [|done]. by apply Inv_static_orders.
  - intros o' [->|[Ho' _]]%Hback; [|auto]. apply transitioned_ok; auto.
  - intros o' r [->|[Ho' _]]%Hback Hr E Hrel; [|eauto]. simpl in *.
    rewrite (inv_held0 o r Ho Hr E Hrel) in Hnt. done.
  - intros o' r [->|[Ho' Hne']]%Hback Hr E Ht; simpl in *.
    + right. by rewrite Ht, Hoi.
    + left. by destruct (inv_released0 o' r Ho' Hr E Ht).
  - intros o' [->|[Ho' Hne']]%Hback; simpl; destruct (is_terminal new); congruence.
Qed.

(** [_release_for_intent] of the order being processed restores the link. *)
Lemma Inv_release s0 i at_ reason ev s u s' :
  Inv s0 (Some i) s -> release_for_intent i at_ reason ev s = Ok (u, s') -> Inv s0 None s'.
Proof.
  intros HI ->%st_modify_Ok. pose proof (inv_struct _ _ _ HI) as Hst.
  set (p := active_of_intent i). set (f := released (isoformat at_) reason ev).
  assert (forall r', r' ∈ update_where p f (risk_reservations s) -> exists r,
    r ∈ risk_reservations s /\ rr_intent_id r' = rr_intent_id r /\ rr_broker r' = rr_broker r /\
    rr_account_id r' = rr_account_id r /\ (r' = r \/ rr_intent_id r = i) /\
    (rr_state r' = ACTIVE -> r' = r /\ rr_intent_id r <> i)) as Hback.
  { intros r' (r & Hr & ->)%elem_of_update_where. exists r. unfold p, active_of_intent.
    destruct (decide (rr_intent_id r = i)) as [E|E].
    - rewrite (bool_decide_true _ E). case_bool_decide; simpl; split_and!; auto; done.
    - rewrite (bool_decide_false _ E). simpl. split_and!; auto. }
  destruct HI as [[] ]. split; simpl; try done.
  - split; simpl; try done. apply (update_where_Forall2 _); [|done].
    intros r _ Hp. unfold p, active_of_intent in Hp. apply andb_true_iff in Hp as [_ Ha].
    apply bool_decide_eq_true in Ha. right. done.
  - eapply struct_inv_static; [|done]. split_and!; simpl; try done.
    unfold update_where. rewrite <- list_fmap_compose. apply list_fmap_ext.
    intros _ r _. simpl. by destruct (p r).
  - intros r' (r & Hr & ->)%elem_of_update_where. unfold p, active_of_intent.
    pose proof (inv_res0 r Hr) as Hok. destruct (andb _ _) eqn:E; [|done].
    apply andb_true_iff in E as [_ Ha%bool_decide_eq_true]. destruct Hok as [Hc Hpos].
    rewrite Ha in Hc. unfold res_ok, f, released. simpl. rewrite Hc. done.
  - intros r1 r2 (q1 & Hq1 & Ei1 & Eb1 & Ea1 & _ & Hx1)%Hback
      (q2 & Hq2 & Ei2 & Eb2 & Ea2 & _ & Hx2)%Hback A1 A2 Eb Ea.
    destruct (Hx1 A1) as [-> _], (Hx2 A2) as [-> _]. eauto.
  - intros o r' Ho (r & Hr & Ei & _ & _ & [->|Hi] & _)%Hback E Hrel; [eauto|].
    apply inv_pending0; [done|congruence].
  - intros o r' Ho (r & Hr & Ei & _ & _ & Hc & Ha)%Hback E Ht. left.
    destruct (rr_state r') eqn:Es; [|done]. destruct (Ha eq_refl) as [-> Hni].
    destruct (inv_released0 o r Ho Hr E Ht); congruence.
Qed.

(** ** Triples of the statements *)

Lemma t_gets_keep {A} (f : state_db -> A) (P : state_db -> Prop) : triple P (st_gets f) (fun _ => P).
Proof. by apply t_gets. Qed.

Lemma t_lift_keep {A} (r : res A) (P : state_db -> Prop) : triple P (st_lift r) (fun _ => P).
Proof. by apply t_lift. Qed.

#[export] Hint Resolve t_ret t_gets_keep t_lift_keep t_guard_keep t_raise : triples.

(** Decompose the operation: sequencing, reads, branches; statements by their
    triples. *)
Ltac t_step :=
  match goal with
  | |- triple _ (_ ≫= _) _ => eapply t_bind; [solve [eauto with triples]|intros ?]
  | |- triple _ (match ?x with _ => _ end) _ => destruct x eqn:?
  | |- triple _ _ _ => solve [eauto with triples]
  end.

Ltac t_solve := repeat t_step.

Section statements.
Variables (s0 : state_db) (x : option string).

Lemma t_transition i new at_ boid pnl :
  (pnl <> None -> new = SETTLED) ->
  triple (Inv s0 None) (transition_order i new at_ boid pnl)
    (fun _ => Inv s0 (if is_terminal new then Some i else None)).
Proof. intros Hpnl s u s' HI H. by eapply Inv_transition. Qed.

Lemma t_transition_none i new at_ boid :
  is_terminal new = false ->
  triple (Inv s0 None) (transition_order i new at_ boid None) (fun _ => Inv s0 None).
Proof. intros Hn. eapply t_conseq; [by apply t_transition|done|]. by rewrite Hn. Qed.

Lemma t_release i at_ reason ev :
  triple (Inv s0 (Some i)) (release_for_intent i at_ reason ev) (fun _ => Inv s0 None).
Proof. intros s u s' HI H. by eapply Inv_release. Qed.

(** Moving a message out of a state it is found in, to a state other than PENDING. *)
Lemma t_update_outbox p f :
  (forall m, p m = true -> msg_ok m -> msg_ok (f m) /\ msg_step m (f m)) ->
  triple (Inv s0 x) (update_outbox p f) (fun _ => Inv s0 x).
Proof. intros Hf. apply t_modify. intros s. by apply Inv_update_outbox. Qed.

Lemma msg_moved m st reason disp started :
  st <> OB_PENDING -> msg_ok m ->
  let m' := m <| om_state := st |> <| om_state_reason := reason |> <| om_dispatched_at := disp |>
              <| om_dispatch_started_at := started |> in
  msg_ok m' /\ msg_step m m'.
Proof. intros Hst [H1 H2]. simpl. split; [by split|]. split_and!; done || (simpl; lia). Qed.

Lemma t_mark_reconciled i reason at_ :
  triple (Inv s0 x) (mark_reconciled i reason at_) (fun _ => Inv s0 x).
Proof.
  apply t_update_outbox. intros m _ Hm.
  by apply (msg_moved m OB_RECONCILED (Some reason)
    (coalesce (om_dispatched_at m) (Some (isoformat at_))) (om_dispatch_started_at m)).
Qed.

Lemma t_update_order k f :
  (forall o, order_static (f o) = order_static o /\ o_state (f o) = o_state o /\
     o_realized_pnl_minor (f o) = o_realized_pnl_minor o /\
     o_pnl_application_count (f o) = o_pnl_application_count o) ->
  triple (Inv s0 x) (update_order k f) (fun _ => Inv s0 x).
Proof. intros Hf. apply t_modify. intros s. by apply Inv_update_order. Qed.

(** A write to a table the invariant does not read. *)
Lemma t_frame (f : state_db -> state_db) :
  (forall s, trade_intents (f s) = trade_intents s /\ risk_reservations (f s) = risk_reservations s /\
     outbox_messages (f s) = outbox_messages s /\ orders (f s) = orders s /\
     digit_risk_runtime (f s) = digit_risk_runtime s) ->
  triple (Inv s0 x) (st_modify f) (fun _ => Inv s0 x).
Proof. intros Hf. apply t_modify. intros s. destruct (Hf s) as (? & ? & ? & ? & ?). by apply Inv_frame. Qed.

Lemma t_unique {R} cols p (t : state_db -> list R) (P : state_db -> Prop) :
  triple P (unique cols p t) (fun _ => P).
Proof. unfold unique. t_solve. Qed.

Lemma t_foreign ok (P : state_db -> Prop) : triple P (foreign ok) (fun _ => P).
Proof. unfold foreign. t_solve. Qed.
End statements.

#[export] Hint Resolve t_release t_mark_reconciled t_unique t_foreign : triples.
#[export] Hint Extern 2 (triple _ (transition_order _ _ _ _ None) _) =>
  eapply t_transition_none; reflexivity : triples.
#[export] Hint Extern 2 (triple _ (st_modify _) _) => apply t_frame; intros ?; done : triples.

Section statements2.
Variables (s0 : state_db) (x : option string).

Lemma t_insert_processed_event r :
  triple (Inv s0 x) (insert_processed_event r) (fun _ => Inv s0 x).
Proof. unfold insert_processed_event. t_solve. Qed.

Lemma t_insert_evidence r : triple (Inv s0 x) (insert_evidence r) (fun _ => Inv s0 x).
Proof. unfold insert_evidence. t_solve. Qed.

Lemma t_insert_attempt r : triple (Inv s0 x) (insert_attempt r) (fun _ => Inv s0 x).
Proof. unfold insert_attempt. t_solve. Qed.

Lemma t_insert_broker_event_row r :
  triple (Inv s0 x) (insert_broker_event_row r) (fun _ => Inv s0 x).
Proof. unfold insert_broker_event_row. t_solve. Qed.

Lemma t_update_started_attempt a f :
  triple (Inv s0 x) (update_started_attempt a f) (fun _ => Inv s0 x).
Proof. unfold update_started_attempt. t_solve. Qed.

Lemma t_finish_attempt a r rc c e :
  triple (Inv s0 x) (finish_reconciliation_attempt a r rc c e) (fun _ => Inv s0 x).
Proof.
  unfold finish_reconciliation_attempt. eapply t_bind; [apply t_foreign|intros ?].
  apply t_update_started_attempt.
Qed.

Lemma t_finish_conflict a o c r e :
  triple (Inv s0 x) (finish_reconciliation_conflict a o c r e) (fun _ => Inv s0 x).
Proof.
  unfold finish_reconciliation_conflict. eapply t_bind; [apply t_finish_attempt|intros ?]. t_solve.
Qed.

Lemma t_inject inject stage (P : state_db -> Prop) : triple P (inject_at inject stage) (fun _ => P).
Proof. unfold inject_at. t_solve. Qed.

Lemma settle_digit_ok r sym pnl oid sid at_ :
  digit_ok r -> digit_ok (settle_digit_runtime r sym pnl oid sid at_).
Proof.
  intros (Hm & Hs & Hc & Hl). unfold settle_digit_runtime, digit_ok.
  repeat case_match; simplify_eq/=; lia.
Qed.

Lemma t_digit_settlement product sym cur pnl oid sid at_ :
  triple (Inv s0 x) (apply_digit_runtime_settlement product sym cur pnl oid sid at_)
    (fun _ => Inv s0 x).
Proof.
  unfold apply_digit_runtime_settlement. destruct (negb _); [t_solve|].
  eapply (t_bind _ (fun r s => (forall q, r = Some q -> digit_ok q) /\ Inv s0 x s)).
  { apply t_gets. intros s HI. split; [|done]. apply (inv_digit _ _ _ HI). }
  intros [r|]; [|t_solve]. apply t_pure. intros Hr. specialize (Hr r eq_refl).
  t_step. t_step; [t_solve|].
  apply t_modify. intros s. apply Inv_digit. by apply settle_digit_ok.
Qed.
End statements2.

#[export] Hint Resolve t_insert_processed_event t_insert_evidence t_insert_attempt
  t_insert_broker_event_row t_update_started_attempt t_finish_attempt t_finish_conflict t_inject
  t_digit_settlement : triples.

(** ** Triples of the operations *)

Section operations.
Variable inject : string -> option exn.
Variable payload_hash : payload -> string.
Variable s0 : state_db.

Abbreviation keeps m := (triple (Inv s0 None) m (fun _ => Inv s0 None)).

(** An order moved by [_transition_order] to [new] and, when that is terminal,
    followed by the release of its reservation. *)
Lemma t_released_if new i at_ reason ev :
  triple (Inv s0 (if is_terminal new then Some i else None))
    (if is_terminal new then release_for_intent i at_ reason ev else mret tt)
    (fun _ => Inv s0 None).
Proof. destruct (is_terminal new); t_solve. Qed.

Lemma claim_keeps at_ b a : keeps (claim_next_message at_ b a).
Proof.
  unfold claim_next_message. t_step. t_step; [t_solve|]. t_step. t_step.
  eapply t_bind.
  { apply t_update_outbox. intros m Hp [H1 H2]. unfold message_in in Hp.
    apply andb_true_iff in Hp as [_ Hp%bool_decide_eq_true]. specialize (H1 Hp). simpl.
    split; [split; simpl; [done|lia]|]. split_and!; simpl; [done|lia|congruence]. }
  intros ?. t_solve.
Qed.

Lemma record_dispatch_result_keeps c o b r at_ : keeps (record_dispatch_result c o b r at_).
Proof.
  unfold record_dispatch_result. t_step. t_step.
  eapply (t_bind _ (fun '(ob, os, _) s => (ob <> OB_PENDING /\ (is_terminal os = bool_decide (os = REJECTED)))
    /\ Inv s0 None s)).
  { do 3 (case_bool_decide; [by intros s q s' HI [= <- <-]|]). apply t_raise. }
  intros [[ob os] reason]. apply t_pure. intros [Hob Hos].
  eapply t_bind.
  { apply t_update_outbox. intros m _ Hm. by apply (msg_moved m ob reason _ (om_dispatch_started_at m)). }
  intros ?. eapply t_bind; [by apply t_transition|]. intros ?. rewrite <- Hos. apply t_released_if.
Qed.

Lemma record_dispatch_not_sent_keeps c r at_ : keeps (record_dispatch_not_sent c r at_).
Proof.
  unfold record_dispatch_not_sent. t_step. eapply t_bind.
  { apply t_update_outbox. intros m _ Hm.
    by apply (msg_moved m OB_BLOCKED_NOT_SENT (Some r) (om_dispatched_at m) (om_dispatch_started_at m)). }
  intros ?. t_solve.
Qed.

Lemma msg_cancelled m reason :
  msg_ok m ->
  let m' := m <| om_state := OB_CANCELLED |> <| om_state_reason := Some reason |> in
  msg_ok m' /\ msg_step m m'.
Proof.
  intros Hm. by apply (msg_moved m OB_CANCELLED (Some reason) (om_dispatched_at m)
    (om_dispatch_started_at m)).
Qed.

Lemma reject_and_release i at_ reason :
  keeps (_ ← transition_order i REJECTED at_ None None; release_for_intent i at_ reason None).
Proof.
  eapply t_bind; [by apply (t_transition s0 i REJECTED)|]. intros ?. apply t_release.
Qed.

Lemma cancel_expired_keeps c at_ : keeps (cancel_expired_before_dispatch c at_).
Proof.
  unfold cancel_expired_before_dispatch. eapply t_bind.
  { apply t_update_outbox. intros m _. apply msg_cancelled. }
  intros ?. apply reject_and_release.
Qed.

Lemma recover_keeps at_ : keeps (recover_interrupted_dispatches at_).
Proof.
  unfold recover_interrupted_dispatches. t_step. eapply t_bind.
  { apply t_for. intros i. eapply t_bind.
    { apply t_update_outbox. intros m _ Hm.
      by apply (msg_moved m OB_AMBIGUOUS (Some "INTERRUPTED_DISPATCH") (om_dispatched_at m)
        (om_dispatch_started_at m)). }
    intros ?. t_solve. }
  intros ?. t_solve.
Qed.

Lemma cancel_pending_keeps at_ : keeps (cancel_expired_pending_messages at_).
Proof.
  unfold cancel_expired_pending_messages. t_step. apply t_collect. intros [m o].
  unfold cancel_if_expired. t_step. t_step; [t_solve|]. eapply t_bind.
  { apply t_update_outbox. intros m' _. apply msg_cancelled. }
  intros ?. eapply t_bind; [by apply (t_transition s0 (om_intent_id m) REJECTED)|]. intros ?.
  eapply t_bind; [apply t_release|]. intros ?. t_solve.
Qed.

Lemma apply_broker_event_keeps e at_ :
  (be_realized_pnl_minor e <> None -> be_new_state e = SETTLED) -> keeps (apply_broker_event e at_).
Proof.
  intros He. unfold apply_broker_event. t_step. t_step; [t_solve|].
  eapply t_bind; [by apply t_transition|]. intros ?. t_step.
  eapply t_bind; [apply t_released_if|]. intros ?. t_solve.
Qed.

Lemma record_event_keeps x e oid r at_ :
  triple (Inv s0 x) (record_event_result e oid r at_) (fun _ => Inv s0 x).
Proof. unfold record_event_result, insert_broker_order_event. t_solve. Qed.

Lemma finish_broker_event_keeps o e target amb at_ :
  triple (Inv s0 (if is_terminal target then Some (o_intent_id o) else None))
    (finish_broker_event inject o e target amb at_) (fun _ => Inv s0 None).
Proof.
  unfold finish_broker_event. eapply t_bind.
  { by apply t_update_order. }
  intros ?. eapply (t_bind _ (fun _ => Inv s0 (if is_terminal target then Some (o_intent_id o) else None))).
  { destruct amb; t_solve. }
  intros ?. eapply t_bind; [apply t_released_if|]. intros ?.
  eapply (t_bind _ (fun _ => Inv s0 None)); [|intros ?; t_solve].
  destruct (bo_result_minor e), (bo_result_currency e); try destruct (bool_decide _); t_solve.
Qed.

Lemma external_state_terminal st target :
  order_state_for_external_status st = Ok target ->
  (st = EX_SETTLED <-> target = SETTLED) /\ (is_terminal target = true -> target = SETTLED \/ target = REJECTED).
Proof. destruct st; intros [= <-]; split; auto; done. Qed.

(** The event's P&L is only given for a settlement. *)
Definition event_pnl_ok (e : BrokerOrderEvent) : Prop :=
  bo_result_minor e <> None -> bo_external_status e = EX_SETTLED.

Lemma apply_lifecycle_keeps o e target at_ :
  is_terminal (o_state o) = false -> (bo_result_minor e <> None -> target = SETTLED) ->
  keeps (apply_lifecycle_event inject o e target at_).
Proof.
  intros Hnt Hpnl. unfold apply_lifecycle_event, insert_broker_order_event. t_step. t_step.
  eapply (t_bind _ (fun _ => Inv s0 None)); [destruct (is_ambiguous_state _); t_solve|]. intros ?.
  case_bool_decide as Hcur.
  { assert (is_terminal target = false) as Ht by (rewrite <- Hcur; by destruct (is_ambiguous_state _)).
    eapply (t_bind _ (fun _ => Inv s0 None)); [|intros ?; t_solve].
    pose proof (finish_broker_event_keeps o e target) as Hf. rewrite Ht in Hf. apply Hf. }
  eapply (t_bind _ (fun moved => Inv s0 (if moved : bool then
    if is_terminal target then Some (o_intent_id o) else None else None))).
  { intros s moved s' HI [H|[_ H]]%st_catch_Ok; [|by monad_inv H].
    monad_inv H. by eapply Inv_transition in H0 as [? _]. }
  intros []; [|t_solve]. eapply t_bind; [apply finish_broker_event_keeps|]. intros ?. t_solve.
Qed.

Lemma apply_new_event_keeps e at_ : event_pnl_ok e -> keeps (apply_new_event inject e at_).
Proof.
  intros He. unfold apply_new_event. t_step. destruct a as [[o t]|]; [|apply record_event_keeps].
  destruct (broker_event_matching_conflict _ _); [apply record_event_keeps|].
  t_step. destruct a; [apply record_event_keeps|].
  eapply (t_bind _ (fun target s => order_state_for_external_status (bo_external_status e) = Ok target
    /\ Inv s0 None s)); [by apply t_lift|].
  intros target. apply t_pure. intros [Ht _]%external_state_terminal.
  destruct (terminal_broker_event_result _ _ _ _) eqn:Eterm; [apply record_event_keeps|].
  destruct (is_late _ _ _); [apply record_event_keeps|]. apply apply_lifecycle_keeps.
  - unfold terminal_broker_event_result in Eterm. destruct (is_terminal (o_state o)); [|done].
    simpl in Eterm. repeat case_bool_decide; done.
  - intros Hr. by apply Ht, He.
Qed.

Lemma apply_normalized_keeps e at_ :
  event_pnl_ok e -> keeps (apply_normalized_broker_event inject e at_).
Proof.
  intros He. unfold apply_normalized_broker_event. t_step. destruct a as [d|].
  - t_solve.
  - by apply apply_new_event_keeps.
Qed.

(** *** Reconciliation *)

Lemma t_and {A} P P' (Q Q' : A -> state_db -> Prop) m :
  triple P m Q -> triple P' m Q' ->
  triple (fun s => P s /\ P' s) m (fun a s => Q a s /\ Q' a s).
Proof. intros H H' s a s' [HP HP'] Hm. split; eauto. Qed.

(** The orders table is [os]: nothing wrote to it. *)
Definition orders_are (os : list Order) (s : state_db) : Prop := orders s = os.

Lemma t_orders_frame os (f : state_db -> state_db) :
  (forall s, orders (f s) = orders s) ->
  triple (orders_are os) (st_modify f) (fun _ => orders_are os).
Proof. intros Hf. apply t_modify. unfold orders_are. intros s <-. apply Hf. Qed.

#[local] Hint Extern 2 (triple _ (st_modify _) _) =>
  apply t_orders_frame; intros ?; done : triples.

Lemma insert_evidence_orders os r :
  triple (orders_are os) (insert_evidence r) (fun _ => orders_are os).
Proof. unfold insert_evidence. t_solve. Qed.

Lemma update_attempt_orders os a f :
  triple (orders_are os) (update_started_attempt a f) (fun _ => orders_are os).
Proof. unfold update_started_attempt. t_solve. Qed.

#[local] Hint Resolve insert_evidence_orders update_attempt_orders : triples.

Lemma check_previous_orders os a o ev at_ :
  triple (orders_are os) (check_previous_evidence a o ev at_) (fun _ => orders_are os).
Proof.
  unfold check_previous_evidence, finish_reconciliation_conflict, finish_reconciliation_attempt.
  repeat (t_step || (eapply t_bind; [t_solve|intros ?])).
Qed.

Lemma check_previous_keeps a o ev at_ : keeps (check_previous_evidence a o ev at_).
Proof. unfold check_previous_evidence. t_solve. Qed.

Lemma resolve_with_evidence_keeps a o t ev target at_ os :
  o ∈ os -> (ev_realized_pnl_minor ev <> None -> target = SETTLED) ->
  triple (fun s => Inv s0 None s /\ orders_are os s)
    (resolve_with_evidence inject a o t ev target at_) (fun _ => Inv s0 None).
Proof.
  intros Ho Hpnl. unfold resolve_with_evidence.
  (* after the two transitions the order is in state [target] *)
  eapply (t_bind _ (fun _ s => Inv s0 None s /\ (bool_decide (o_state o ∈ [UNKNOWN; SETTLEMENT_UNKNOWN]) = false ->
    orders_are os s))).
  { case_bool_decide.
    - intros s u s' [HI _] H'. split; [|done]. by eapply t_transition_none in H'.
    - intros s u s' [HI Hos] H'. monad_inv H'. done. }
  intros ?.
  eapply (t_bind _ (fun _ => Inv s0 (if is_terminal target then Some (o_intent_id o) else None))).
  { destruct (bool_decide (o_state o ∈ _)); case_bool_decide as Hcur; subst;
      try (eapply t_conseq; [by apply t_transition|by intros s []|done]).
    - intros s u s' [HI _] H'. by monad_inv H'.
    - intros s u s' [HI Hos] H'. monad_inv H'. specialize (Hos eq_refl).
      destruct (is_terminal (o_state o)) eqn:Ht; [|done]. apply Inv_open; [|done].
      intros o' Ho' E. unfold orders_are in Hos. rewrite <- Hos in Ho.
      by rewrite (order_intent_unique s o' o (inv_struct _ _ _ HI) Ho' Ho E). }
  intros ?. t_step. eapply t_bind; [by apply t_update_order|]. intros ?. t_step.
  eapply t_bind; [apply t_released_if|]. intros ?.
  eapply (t_bind _ (fun _ => Inv s0 None)); [destruct (ev_realized_pnl_minor ev); t_solve|].
  intros ?. t_solve.
Qed.

Definition evidence_pnl_ok (ev : ReconciliationEvidence) : Prop :=
  ev_realized_pnl_minor ev <> None -> ev_external_status ev = EX_SETTLED.

Lemma apply_evidence_keeps a ev at_ :
  evidence_pnl_ok ev -> keeps (apply_reconciliation_evidence inject payload_hash a ev at_).
Proof.
  intros Hev. unfold apply_reconciliation_evidence.
  eapply (t_bind _ (fun row s => exists os, (forall o t, row = Some (o, t) -> o ∈ os) /\
    (Inv s0 None s /\ orders_are os s))).
  { apply t_gets. intros s HI. exists (orders s). split; [|done]. intros o t E.
    unfold started_attempt_order in E. simplify_option_eq. by apply order_with_intent_Some in E as [? _]. }
  intros [[o t]|]; [|apply t_raise]. apply t_ex. intros os. apply t_pure. intros Hin.
  specialize (Hin o t eq_refl).
  eapply t_bind; [apply t_gets_keep|]. intros existing.
  match goal with |- triple _ (if ?c then _ else _) _ => destruct c end.
  { eapply t_conseq; [apply t_finish_conflict|by intros s []|done]. }
  eapply (t_bind _ (fun _ s => Inv s0 None s /\ orders_are os s)).
  { apply t_and; destruct existing; t_solve. }
  intros ?. destruct (matching_conflict_reason _ _).
  { eapply t_conseq; [apply t_finish_conflict|by intros ? []|done]. }
  eapply (t_bind _ (fun _ s => Inv s0 None s /\ orders_are os s)).
  { apply t_and; [apply check_previous_keeps|apply check_previous_orders]. }
  intros [r|]; [intros s r' s' [HI _] H'; by monad_inv H'|].
  destruct (order_state_for_external_status _) as [target|ex] eqn:Et.
  - apply resolve_with_evidence_keeps; [done|]. apply external_state_terminal in Et as [Et _].
    intros Hp. by apply Et, Hev.
  - eapply t_bind; [eapply t_conseq; [apply t_finish_attempt|by intros s []|done]|]. intros ?. t_solve.
Qed.

Lemma apply_not_found_keeps a ev g c at_ :
  keeps (apply_reconciliation_not_found inject a ev g c at_).
Proof.
  unfold apply_reconciliation_not_found. t_step. destruct a0 as [o|]; [|t_solve].
  destruct (andb _ _); [t_solve|]. t_step. t_step. t_step. destruct a2 as [prior|]; [|t_solve].
  destruct (andb _ _); [|t_solve]. unfold resolve_not_found.
  t_step. eapply t_bind; [by apply (t_transition s0 (o_intent_id o) REJECTED)|]. intros ?.
  eapply t_bind; [by apply t_update_order|]. intros ?. t_step.
  eapply t_bind; [apply t_release|]. intros ?. t_solve.
Qed.

(** *** Explicit release, attempts and the digit runtime row *)

Lemma reservation_with_order_Some k s r o :
  reservation_with_order k s = Some (r, o) ->
  r ∈ risk_reservations s /\ o ∈ orders s /\ o_intent_id o = rr_intent_id r.
Proof.
  unfold reservation_with_order. intros H. simplify_option_eq.
  match goal with H : fetchone (of_intent _) _ = Some _ |- _ => apply fetch_intent in H as [? ?] end.
  match goal with H : fetchone _ (risk_reservations s) = Some _ |- _ => apply fetchone_Some in H as [? _] end.
  done.
Qed.

Lemma release_reservation_keeps k at_ : keeps (release_reservation k at_).
Proof.
  unfold release_reservation.
  eapply (t_bind _ (fun row s => Inv s0 None s /\ forall r o, row = Some (r, o) ->
    forall o', o' ∈ orders s -> o_intent_id o' = rr_intent_id r -> o_state o' = o_state o)).
  { apply t_gets. intros s HI. split; [done|]. intros r o (Hr & Ho & E)%reservation_with_order_Some o' Ho' E'.
    by rewrite (order_intent_unique s o' o (inv_struct _ _ _ HI)) by congruence. }
  intros [[r o]|]; [|apply t_raise]. case_bool_decide; [intros s u s' [HI _] H'; by monad_inv H'|].
  eapply (t_bind _ (fun _ => Inv s0 (Some (rr_intent_id r)))); [|intros ?; t_solve].
  apply t_guard. intros Ht s [HI Hat]. apply Inv_open; [|done].
  intros o' Ho' E. by rewrite (Hat r o eq_refl o' Ho' E).
Qed.

Lemma release_after_reconciliation_keeps k st ref at_ :
  is_terminal st = true -> keeps (release_after_reconciliation k st ref at_).
Proof.
  intros Hst. unfold release_after_reconciliation. t_step. destruct a as [[r o]|]; [|t_solve].
  eapply (t_bind _ (fun _ => Inv s0 None)); [case_bool_decide; t_solve|]. intros ?.
  eapply t_bind; [by apply (t_transition s0 (rr_intent_id r) st)|]. intros ?. rewrite Hst. t_solve.
Qed.

Lemma begin_attempt_keeps a o c at_ : keeps (begin_reconciliation_attempt a o c at_).
Proof. unfold begin_reconciliation_attempt. t_solve. Qed.

Lemma complete_attempt_keeps a r rc at_ : keeps (complete_reconciliation_attempt a r rc at_).
Proof. unfold complete_reconciliation_attempt. t_solve. Qed.

(** Reading the digit row gives a well-formed one. *)
Lemma t_gets_digit :
  triple (Inv s0 None) (st_gets digit_risk_runtime)
    (fun r s => (forall q, r = Some q -> digit_ok q) /\ Inv s0 None s).
Proof. apply t_gets. intros s HI. split; [|done]. apply (inv_digit _ _ _ HI). Qed.

Lemma t_set_digit r :
  digit_ok r ->
  triple (Inv s0 None) (st_modify (fun s => s <| digit_risk_runtime := Some r |>))
    (fun _ => Inv s0 None).
Proof. intros Hr. apply t_modify. intros s. by apply Inv_digit. Qed.

Lemma clear_sequence_ok r : digit_ok r -> digit_ok (clear_sequence r).
Proof. intros (? & ? & ? & ?). unfold clear_sequence, digit_ok. simpl. lia. Qed.

Lemma configure_keeps p reset at_ :
  1 <= dp_martingale_max_steps p <= 4 -> keeps (configure_digit_risk_runtime p reset at_).
Proof.
  intros Hp. unfold configure_digit_risk_runtime. eapply t_bind; [apply t_gets_digit|].
  intros [r|]; apply t_pure; intros Hr.
  - t_step. apply t_set_digit. destruct (Hr r eq_refl) as (? & ? & ? & ?).
    destruct reset; [apply clear_sequence_ok|]; unfold digit_ok; simpl; lia.
  - apply t_set_digit. unfold digit_ok. simpl. lia.
Qed.

Lemma reset_digit_keeps at_ : keeps (reset_digit_test_session_if_flat at_).
Proof.
  unfold reset_digit_test_session_if_flat. do 3 t_step. eapply t_bind; [apply t_gets_digit|].
  intros [r|]; apply t_pure; intros Hr; [|apply t_raise]. apply t_set_digit.
  apply (clear_sequence_ok _ (Hr r eq_refl)).
Qed.

Lemma expire_keeps at_ : keeps (expire_digit_cooldown at_).
Proof.
  unfold expire_digit_cooldown. eapply t_bind; [apply t_gets_digit|].
  intros [r|]; apply t_pure; intros Hr; [|t_solve].
  destruct (dr_cooldown_started_at r); [|t_solve]. do 2 t_step. t_step; [|t_solve].
  eapply t_bind; [apply t_set_digit; apply (clear_sequence_ok _ (Hr r eq_refl))|]. intros ?. t_solve.
Qed.
End operations.

(** ** Submission *)

(** The state of the database between operations. *)
Definition db_ok (s : state_db) : Prop := Inv s None s.

Lemma db_ok_empty : db_ok empty_db.
Proof.
  split; [apply evolves_refl|split; simpl; try by constructor|..]; simpl; try done;
    intros *; rewrite elem_of_nil; done.
Qed.

Lemma Inv_db_ok s0 s : Inv s0 None s -> db_ok s.
Proof. intros []. by split; [apply evolves_refl|..]. Qed.

(** The four rows a submission inserts. *)
Definition new_intent (q : OrderRequest) (i created : string) : TradeIntent :=
  mk_TradeIntent i (rq_correlation_id q) (rq_broker q) (rq_account_id q) (rq_product q)
    (rq_symbol q) (rq_direction q) (minor_units (rq_amount q)) (currency (rq_amount q)) "CREATED"
    created (rq_strategy_id q) (rq_strategy_version q).
Definition new_reservation (q : OrderRequest) (i k created : string) : Reservation :=
  mk_Reservation k i (rq_broker q) (rq_account_id q) (minor_units (rq_amount q))
    (currency (rq_amount q)) ACTIVE created None None None 0.
Definition new_message (q : OrderRequest) (c : OrderCommand) (i created : string) : OutboxMessage :=
  mk_OutboxMessage (oc_message_id c) (rq_correlation_id q) i "OrderCommand"
    (OrderCommand_to_payload c) OB_PENDING created created None None 0 None.
Definition new_order (q : OrderRequest) (i k created : string) : Order :=
  mk_Order k i (rq_broker q) (rq_account_id q) None OUTBOXED (rq_correlation_id q) None created
    created None None None None None 0.

Definition submitted (s : state_db) (q : OrderRequest) (c : OrderCommand) (i k o created : string)
    : state_db :=
  s <| trade_intents ::= fun t => t ++ [new_intent q i created] |>
    <| risk_reservations ::= fun t => t ++ [new_reservation q i k created] |>
    <| outbox_messages ::= fun t => t ++ [new_message q c i created] |>
    <| orders ::= fun t => t ++ [new_order q i o created] |>.

Lemma unique_Ok {R} cols p (t : state_db -> list R) s u s' :
  unique cols p t s = Ok (u, s') -> s' = s /\ forall r, r ∈ t s -> p r = false.
Proof.
  intros H. unfold unique in H. monad_inv H. split; [done|].
  apply exists_row_false. by apply negb_true_iff.
Qed.

Lemma inject_at_Ok inject stage s u s' : inject_at inject stage s = Ok (u, s') -> s' = s.
Proof. intros H. unfold inject_at in H. by monad_inv H. Qed.

Lemma foreign_Ok ok s u s' : foreign ok s = Ok (u, s') -> s' = s.
Proof. intros H. unfold foreign in H. by monad_inv H. Qed.

Lemma check_limit_Ok l active amount reason s u s' :
  check_limit l active amount reason s = Ok (u, s') ->
  s' = s /\ forall n, l = Some n -> active s + amount <= n.
Proof.
  intros H. unfold check_limit in H. monad_inv H.
  - split; [done|]. intros n [= <-]. by apply Z.leb_le.
  - done.
Qed.

(** The constraint checks of an INSERT that went through. *)
Ltac insert_inv :=
  repeat match goal with
  | H : inject_at _ _ _ = Ok _ |- _ => apply inject_at_Ok in H; subst
  | H : foreign _ _ = Ok _ |- _ => apply foreign_Ok in H; subst
  | H : unique _ _ _ _ = Ok _ |- _ => apply unique_Ok in H as [-> H]
  | H : check_limit _ _ _ _ _ = Ok _ |- _ => apply check_limit_Ok in H as [-> H]
  end.

(** What a submission that returned has checked and written. *)
Lemma persist_Ok inject q c i k o at_ g sy ref s u s' :
  persist_intent_reservation_outbox inject q c i k o at_ g sy ref s = Ok (u, s') ->
  s' = submitted s q c i k o (isoformat at_) /\
  0 < minor_units (rq_amount q) /\
  (forall c, ref = Some c -> currency (rq_amount q) = c) /\
  (forall n, g = Some n ->
     active_exposure (currency (rq_amount q)) s + minor_units (rq_amount q) <= n) /\
  (forall n, sy = Some n ->
     active_symbol_exposure (currency (rq_amount q)) (canonicalize_symbol (rq_symbol q)) s +
     minor_units (rq_amount q) <= n) /\
  (forall t, t ∈ trade_intents s -> ti_intent_id t <> i) /\
  (forall r, r ∈ risk_reservations s -> rr_reservation_id r <> k /\
     (rr_state r = ACTIVE -> rr_broker r = rq_broker q -> rr_account_id r <> rq_account_id q)) /\
  (forall m, m ∈ outbox_messages s -> om_message_id m <> oc_message_id c) /\
  (forall r, r ∈ orders s -> o_order_id r <> o).
Proof.
  intros H. unfold persist_intent_reservation_outbox, insert_trade_intent,
    insert_risk_reservation, insert_outbox_message, insert_order in H. monad_inv H.
  insert_inv. simpl in *.
  split_and!; try done.
  - apply andb_true_iff in H4 as [?%Z.ltb_lt _]. done.
  - intros c' ->. by apply bool_decide_eq_true in H0.
  - intros t Ht. specialize (H5 t Ht). by apply bool_decide_eq_false in H5.
  - intros r Hr. specialize (H10 r Hr). split; [by apply bool_decide_eq_false in H10|]. intros Ha Hb Hc.
    specialize (H8 r Hr). by rewrite !bool_decide_true in H8 by done.
  - intros m Hm. specialize (H15 m Hm). by apply bool_decide_eq_false in H15.
  - intros r Hr. specialize (H20 r Hr). by apply bool_decide_eq_false in H20.
Qed.

(** A row appended to a table. *)
Lemma elem_of_snoc {A} (l : list A) x y : x ∈ l ++ [y] <-> x ∈ l \/ x = y.
Proof. by rewrite elem_of_app, list_elem_of_singleton. Qed.

Lemma submitted_struct s q c i k o at_ :
  (forall t, t ∈ trade_intents s -> ti_intent_id t <> i) ->
  (forall r, r ∈ risk_reservations s -> rr_reservation_id r <> k) ->
  (forall m, m ∈ outbox_messages s -> om_message_id m <> oc_message_id c) ->
  (forall r, r ∈ orders s -> o_order_id r <> o) ->
  struct_inv s -> struct_inv (submitted s q c i k o at_).
Proof.
  intros Ht Hr Hm Ho []. split; simpl; try (by apply NoDup_keys_app);
    try (rewrite !fmap_app; simpl; congruence).
  assert (forall (x : string), x ∈ ti_intent_id <$> trade_intents s -> x <> i) as Hfresh.
  { intros x (t & -> & Hin)%list_elem_of_fmap. auto. }
  intros o' r' [Ho'| ->]%elem_of_snoc [Hr'| ->]%elem_of_snoc E; simpl in *; auto.
  - apply (key_in o_intent_id) in Ho'. rewrite si_order_intents0 in Ho'. by apply Hfresh in Ho'.
  - apply (key_in rr_intent_id) in Hr'. rewrite si_res_intents0 in Hr'. by apply Hfresh in Hr'.
Qed.

Lemma submitted_ok s q c i k o at_ :
  0 < minor_units (rq_amount q) ->
  (forall t, t ∈ trade_intents s -> ti_intent_id t <> i) ->
  (forall r, r ∈ risk_reservations s -> rr_reservation_id r <> k /\
     (rr_state r = ACTIVE -> rr_broker r = rq_broker q -> rr_account_id r <> rq_account_id q)) ->
  (forall m, m ∈ outbox_messages s -> om_message_id m <> oc_message_id c) ->
  (forall r, r ∈ orders s -> o_order_id r <> o) ->
  db_ok s -> db_ok (submitted s q c i k o at_).
Proof.
  intros Hpos Ht Hr Hm Ho []. assert (forall r, r ∈ risk_reservations s -> rr_reservation_id r <> k) as Hk.
  { intros r Hin. by apply Hr. }
  assert (forall (x : string), x ∈ ti_intent_id <$> trade_intents s -> x <> i) as Hfresh.
  { intros x (t & -> & Hin)%list_elem_of_fmap. auto. }
  split; simpl; try done.
  - by apply submitted_struct.
  - intros o' [Ho'| ->]%elem_of_snoc; auto. by split.
  - intros r' [Hr'| ->]%elem_of_snoc; auto. by split.
  - intros m' [Hm'| ->]%elem_of_snoc; auto. split; simpl; lia.
  - intros r1 r2 [H1| ->]%elem_of_snoc [H2| ->]%elem_of_snoc A1 A2 Eb Ea; simpl in *; auto.
    + destruct (Hr r1 H1) as [_ Hx]. by apply Hx in Eb.
    + destruct (Hr r2 H2) as [_ Hx]. symmetry in Eb. by apply Hx in Eb.
  - intros o' r' [Ho'| ->]%elem_of_snoc [Hr'| ->]%elem_of_snoc E Hrel; simpl in *; try done; eauto.
    apply (key_in rr_intent_id) in Hr'. rewrite (si_res_intents _ inv_struct0) in Hr'.
    by apply Hfresh in Hr'.
  - intros o' r' [Ho'| ->]%elem_of_snoc [Hr'| ->]%elem_of_snoc E Hterm; simpl in *; try done; eauto.
    apply (key_in o_intent_id) in Ho'. rewrite (si_order_intents _ inv_struct0) in Ho'.
    by apply Hfresh in Ho'.
Qed.

Lemma persist_db_ok inject q c i k o at_ g sy ref s u s' :
  db_ok s -> persist_intent_reservation_outbox inject q c i k o at_ g sy ref s = Ok (u, s') -> db_ok s'.
Proof.
  intros Hok (-> & Hpos & _ & _ & _ & Ht & Hr & Hm & Ho)%persist_Ok.
  by apply submitted_ok.
Qed.
