(* ===== verification/WriterOps.v ===== *)
(** * Histories of the writer: what holds of state.db after any sequence of calls

    [writer_op] is a call of a state-changing method of [SingleDatabaseWriter]
    with its arguments and its clock reading, [run_op] executes it (argument
    validation, then the transaction), [run_ops] a history of calls starting from
    an empty database.  Faults may be injected at any stage of any call. *)

From S2P Require Import Prelude Datetime Dec Domain StateDb Writer WriterInv.

Inductive writer_op : Type :=
| OpPersist (q : OrderRequest) (c : OrderCommand) (intent_id reservation_id order_id : string)
    (created_at : datetime) (global_max per_symbol_max : option Z) (reference : option string)
| OpClaim (now : datetime) (broker account_id : option string)
| OpDispatchResult (c : OrderCommand) (outcome : string) (broker_order_id reason : option string)
    (now : datetime)
| OpNotSent (c : OrderCommand) (reason : string) (now : datetime)
| OpCancelExpired (c : OrderCommand) (now : datetime)
| OpRecover (now : datetime)
| OpCancelPending (now : datetime)
| OpBrokerEvent (e : BrokerEvent) (processed_at : datetime)
| OpNormalizedEvent (e : BrokerOrderEvent) (received_at : datetime)
| OpBeginAttempt (attempt_id order_id correlation_id : string) (now : datetime)
| OpCompleteAttempt (attempt_id result reason : string) (now : datetime)
| OpEvidence (attempt_id : string) (ev : ReconciliationEvidence) (now : datetime)
| OpNotFound (attempt_id : string) (ev : NotFoundEvidence) (grace interval : Z) (now : datetime)
| OpRelease (reservation_id : string) (now : datetime)
| OpReleaseAfter (reservation_id : string) (st : OrderState) (reference : string) (now : datetime)
| OpConfigureDigit (policy : payload) (reset : bool) (now : datetime)
| OpResetDigit (now : datetime)
| OpExpireCooldown (now : datetime).

Section histories.
Variable inject : string -> option exn.
Variable payload_hash : payload -> string.

(** Arguments are validated before the transaction: the constructors of the
    domain objects raise, and the call does not happen. *)
Definition validated {A} (check : res A) (k : A -> writer -> writer) (w : writer) : writer :=
  match check with Ok a => k a w | Err _ => w end.

Definition commit {A} (operation : db_m A) (w : writer) : writer := snd (transaction operation w).

(** Every [datetime] is a valid one and every [Money] went through its constructor. *)
Definition command_wf (c : OrderCommand) : bool :=
  valid_datetime (oc_deadline_at c) && money_ok (oc_amount c).

Definition new_OrderCommand (c : OrderCommand) : res OrderCommand :=
  _ ← guard_res (command_wf c) (ValueError "invalid datetime or money");
  OrderCommand_post_init c.

Definition run_op (op : writer_op) (w : writer) : writer :=
  match op with
  | OpPersist q c i k o t g sy ref =>
      validated (OrderRequest_post_init q) (fun q =>
      validated (new_OrderCommand c) (fun c =>
        commit (persist_intent_reservation_outbox inject q c i k o t g sy ref))) w
  | OpClaim t b a => commit (claim_next_message t b a) w
  | OpDispatchResult c o b r t => commit (record_dispatch_result c o b r t) w
  | OpNotSent c r t => commit (record_dispatch_not_sent c r t) w
  | OpCancelExpired c t => commit (cancel_expired_before_dispatch c t) w
  | OpRecover t => commit (recover_interrupted_dispatches t) w
  | OpCancelPending t => commit (cancel_expired_pending_messages t) w
  | OpBrokerEvent e t =>
      validated (BrokerEvent_post_init e) (fun e => commit (apply_broker_event e t)) w
  | OpNormalizedEvent e t =>
      validated (BrokerOrderEvent_post_init payload_hash e)
        (fun e => commit (apply_normalized_broker_event inject e t)) w
  | OpBeginAttempt a o c t => commit (begin_reconciliation_attempt a o c t) w
  | OpCompleteAttempt a r rc t => commit (complete_reconciliation_attempt a r rc t) w
  | OpEvidence a ev t =>
      validated (ReconciliationEvidence_post_init ev)
        (fun ev => commit (apply_reconciliation_evidence inject payload_hash a ev t)) w
  | OpNotFound a ev g c t =>
      validated (not_found_arguments ev g c)
        (fun _ => commit (apply_reconciliation_not_found inject a ev g c t)) w
  | OpRelease k t => commit (release_reservation k t) w
  | OpReleaseAfter k st ref t =>
      validated (release_arguments st ref)
        (fun _ => commit (release_after_reconciliation k st ref t)) w
  | OpConfigureDigit p reset t =>
      validated (validate_digit_policy p)
        (fun p => commit (configure_digit_risk_runtime p reset t)) w
  | OpResetDigit t => commit (reset_digit_test_session_if_flat t) w
  | OpExpireCooldown t => commit (expire_digit_cooldown t) w
  end.

Definition run_ops (ops : list writer_op) (w : writer) : writer :=
  fold_left (fun w op => run_op op w) ops w.

Definition fresh_writer : writer := mk_writer empty_db false.

(** The database after a history. *)
Definition db_after (ops : list writer_op) : state_db := w_db (run_ops ops fresh_writer).

Lemma run_ops_app ops1 ops2 w : run_ops (ops1 ++ ops2) w = run_ops ops2 (run_ops ops1 w).
Proof. apply fold_left_app. Qed.

(** ** Transactions are atomic *)

Lemma transaction_db {A} (m : db_m A) w :
  (exists a db, m (w_db w) = Ok (a, db) /\ transaction m w = (Ok a, w <| w_db := db |>)) \/
  (exists e e', m (w_db w) = Err e /\ fst (transaction m w) = Err e' /\
     w_db (snd (transaction m w)) = w_db w).
Proof.
  unfold transaction. destruct (m (w_db w)) as [[a db]|e]; [left; eauto|right].
  destruct e; simpl; eauto 10.
Qed.

Lemma commit_ind {A} (R : state_db -> state_db -> Prop) (m : db_m A) w :
  R (w_db w) (w_db w) -> (forall a s', m (w_db w) = Ok (a, s') -> R (w_db w) s') ->
  R (w_db w) (w_db (commit m w)).
Proof.
  intros Hrefl Hm. unfold commit.
  destruct (transaction_db m w) as [(a & db & Ha & ->)|(e & e' & _ & _ & ->)]; simpl; eauto.
Qed.

(** Every call either evolves the rows of the database or appends one submission. *)
Definition submission (s s' : state_db) : Prop :=
  exists q c i k o t g sy ref u,
    new_OrderCommand c = Ok c /\
    persist_intent_reservation_outbox inject q c i k o t g sy ref s = Ok (u, s').

Definition call_effect (s s' : state_db) : Prop := Inv s None s' \/ submission s s'.

Lemma validated_ind {A} (R : state_db -> state_db -> Prop) (check : res A) k w :
  R (w_db w) (w_db w) -> (forall a, check = Ok a -> R (w_db w) (w_db (k a w))) ->
  R (w_db w) (w_db (validated check k w)).
Proof. intros Hrefl Hk. destruct check; simpl; eauto. Qed.

Lemma post_init_request q q' : OrderRequest_post_init q = Ok q' -> q' = q.
Proof. intros H. unfold OrderRequest_post_init in H. by monad_inv H. Qed.

Lemma post_init_command c c' : new_OrderCommand c = Ok c' -> c' = c.
Proof. intros H. unfold new_OrderCommand, OrderCommand_post_init in H. by monad_inv H. Qed.

(** What the validation guarantees. *)
Lemma post_init_broker_event e e' :
  BrokerEvent_post_init e = Ok e' -> be_realized_pnl_minor e' <> None -> be_new_state e' = SETTLED.
Proof.
  intros H. unfold BrokerEvent_post_init in H. monad_inv H. apply guard_res_Ok in H2.
  apply orb_true_iff in H2 as [H2|H2]; by apply bool_decide_eq_true in H2.
Qed.

Lemma post_init_event_pnl e e' : BrokerOrderEvent_post_init payload_hash e = Ok e' -> event_pnl_ok e'.
Proof.
  intros H. unfold BrokerOrderEvent_post_init in H. monad_inv H; unfold event_pnl_ok; simpl; intros Hp;
    match goal with
    | E : bool_decide (_ = EX_SETTLED) = true |- _ => by apply bool_decide_eq_true in E
    | H : guard_res (bool_decide (bo_result_minor _ = None) && _) _ = Ok _ |- _ =>
        apply guard_res_Ok, andb_true_iff in H as [H%bool_decide_eq_true _]; done
    end.
Qed.

Lemma post_init_evidence_pnl ev ev' :
  ReconciliationEvidence_post_init ev = Ok ev' -> evidence_pnl_ok ev'.
Proof.
  intros H. unfold ReconciliationEvidence_post_init in H. monad_inv H; unfold evidence_pnl_ok.
  - by apply bool_decide_eq_true in E.
  - apply guard_res_Ok, bool_decide_eq_true in H4. done.
Qed.

Lemma release_arguments_terminal st ref u : release_arguments st ref = Ok u -> is_terminal st = true.
Proof. intros H. unfold release_arguments in H. monad_inv H. by apply guard_res_Ok in H. Qed.

Lemma validate_digit_policy_steps p p' :
  validate_digit_policy p = Ok p' -> 1 <= dp_martingale_max_steps p' <= 4.
Proof.
  intros H. unfold validate_digit_policy in H. monad_inv H. simpl.
  match goal with E : andb _ _ = true |- _ => rewrite !andb_true_iff, !in_range_spec in E end. tauto.
Qed.

Definition is_persist (op : writer_op) : bool :=
  match op with OpPersist _ _ _ _ _ _ _ _ _ => true | _ => false end.

Lemma run_op_inv op w :
  is_persist op = false -> db_ok (w_db w) -> Inv (w_db w) None (w_db (run_op op w)).
Proof.
  intros Hnp Hok. set (R := fun s s' => Inv s None s').
  assert (forall A (m : db_m A), triple (Inv (w_db w) None) m (fun _ => Inv (w_db w) None) ->
    R (w_db w) (w_db (commit m w))) as Hkeep.
  { intros A m Ht. apply commit_ind; [done|]. intros a s' H. by eapply Ht. }
  assert (forall A (check : res A) k,
    (forall a, check = Ok a -> R (w_db w) (w_db (k a w))) ->
    R (w_db w) (w_db (validated check k w))) as Hval.
  { intros A check k. by apply validated_ind. }
  destruct op; simpl; try done; try (apply Hkeep;
    auto using claim_keeps, record_dispatch_result_keeps, record_dispatch_not_sent_keeps,
      cancel_expired_keeps, recover_keeps, cancel_pending_keeps, begin_attempt_keeps,
      complete_attempt_keeps, release_reservation_keeps, reset_digit_keeps, expire_keeps; fail);
    apply Hval.
  - intros e' He. apply Hkeep, apply_broker_event_keeps. by eapply post_init_broker_event.
  - intros e' He. apply Hkeep, apply_normalized_keeps. by eapply post_init_event_pnl.
  - intros ev' He. apply Hkeep, apply_evidence_keeps. by eapply post_init_evidence_pnl.
  - intros _ _. apply Hkeep, apply_not_found_keeps.
  - intros u Hu. apply Hkeep, release_after_reconciliation_keeps. by eapply release_arguments_terminal.
  - intros p' Hp. apply Hkeep, configure_keeps. by eapply validate_digit_policy_steps.
Qed.

Lemma run_op_persist q c i k o t g sy ref w :
  let w' := run_op (OpPersist q c i k o t g sy ref) w in
  w_db w' = w_db w \/
  exists u, new_OrderCommand c = Ok c /\
    persist_intent_reservation_outbox inject q c i k o t g sy ref (w_db w) = Ok (u, w_db w').
Proof.
  simpl. set (R := fun s s' => s' = s \/ exists u, new_OrderCommand c = Ok c /\
    persist_intent_reservation_outbox inject q c i k o t g sy ref s = Ok (u, s')).
  change (R (w_db w) (w_db (validated (OrderRequest_post_init q) (fun q => validated
    (new_OrderCommand c) (fun c => commit (persist_intent_reservation_outbox inject q c i k o t g sy ref))) w))).
  apply validated_ind; [by left|]. intros q' Hq. pose proof (post_init_request _ _ Hq) as ->.
  apply validated_ind; [by left|]. intros c' Hc. pose proof (post_init_command _ _ Hc) as ->.
  apply commit_ind; [by left|]. intros u s' H. right. eauto.
Qed.

Lemma run_op_effect op w : db_ok (w_db w) -> call_effect (w_db w) (w_db (run_op op w)).
Proof.
  intros Hok. destruct (is_persist op) eqn:E; [|left; by apply run_op_inv].
  destruct op; try done. destruct (run_op_persist q c intent_id reservation_id order_id created_at
    global_max per_symbol_max reference w) as [->|(u & Hc & H)]; [by left|right].
  unfold submission. eauto 15.
Qed.

(** ** Histories *)

Lemma run_op_db_ok op w : db_ok (w_db w) -> db_ok (w_db (run_op op w)).
Proof.
  intros Hok. destruct (run_op_effect op w Hok) as [HI|(q & c & i & k & o & t & g & sy & ref & u & _ & H)].
  - by eapply Inv_db_ok.
  - by eapply persist_db_ok.
Qed.

Lemma run_ops_db_ok ops w : db_ok (w_db w) -> db_ok (w_db (run_ops ops w)).
Proof.
  revert w. induction ops as [|op ops IH]; intros w Hok; [done|]. by apply IH, run_op_db_ok.
Qed.

Lemma db_after_ok ops : db_ok (db_after ops).
Proof. apply run_ops_db_ok, db_ok_empty. Qed.

(** A table that evolved and was appended to. *)
Definition extends {R} (step : R -> R -> Prop) (t t' : list R) : Prop :=
  exists pre ext, t' = pre ++ ext /\ Forall2 step t pre.

Record hist (s s' : state_db) : Prop := {
  hist_orders : extends order_step (orders s) (orders s');
  hist_res : extends res_step (risk_reservations s) (risk_reservations s');
  hist_msgs : extends msg_step (outbox_messages s) (outbox_messages s')
}.

Lemma extends_self {R} (step : R -> R -> Prop) `{!Reflexive step} t ext :
  extends step t (t ++ ext).
Proof. by exists t, ext. Qed.

Lemma extends_elem {R} (step : R -> R -> Prop) t t' r :
  extends step t t' -> r ∈ t -> exists r', r' ∈ t' /\ step r r'.
Proof.
  intros (pre & ext & -> & Hpre) (i & Hi)%list_elem_of_lookup.
  eapply Forall2_lookup_l in Hpre as (r' & Hr' & Hs); [|done]. exists r'.
  split; [|done]. apply elem_of_app. left. by eapply list_elem_of_lookup_2.
Qed.

Lemma extends_trans {R} (step : R -> R -> Prop) `{!Transitive step} t1 t2 t3 :
  extends step t1 t2 -> extends step t2 t3 -> extends step t1 t3.
Proof.
  intros (pre & ext & -> & H1) (pre' & ext' & -> & H2).
  apply Forall2_app_inv_l in H2 as (p1 & p2 & Hp1 & Hp2 & ->).
  exists p1, (p2 ++ ext'). split; [by rewrite <- app_assoc|].
  by etrans.
Qed.

Lemma call_effect_hist s s' : call_effect s s' -> hist s s'.
Proof.
  intros [[[] ]|(q & c & i & k & o & t & g & sy & ref & u & _ & (-> & _)%persist_Ok)].
  - split; eexists _, []; by rewrite app_nil_r.
  - split; apply extends_self, _.
Qed.

Lemma run_ops_hist ops w : db_ok (w_db w) -> hist (w_db w) (w_db (run_ops ops w)).
Proof.
  revert w. induction ops as [|op ops IH]; intros w Hok.
  - split; by eexists _, []; rewrite app_nil_r.
  - destruct (call_effect_hist _ _ (run_op_effect op w Hok)).
    destruct (IH (run_op op w) (run_op_db_ok op w Hok)).
    split; eapply (extends_trans _); eauto.
Qed.
End histories.
