(* ===== verification/WriterProps.v ===== *)
(** * The guarantees of the durable order store

    Theorems about every history of calls of the writer, with any injected
    faults, and about single calls in a reachable database. *)

From S2P Require Import Prelude Datetime Dec Domain StateDb Writer WriterInv WriterOps.

(** ** A sample history, for the witnesses *)

Module Sample.
Definition no_fault (stage : string) : option exn := None.
Definition hash (p : payload) : string := "h".

Definition at_ (minute : Z) : datetime := mk_datetime 2026 1 5 12 minute 0 0 (Some 0).
Definition usd (n : Z) : Money := mk_Money n "USD".

Definition request (n : Z) (acct : string) : OrderRequest :=
  mk_OrderRequest "corr" DERIV acct "DIGITEVEN" "R_100" CALL (usd n) "S1" "1" (at_ 30) 1 "t" None.
Definition command (n : Z) (acct m i o : string) : OrderCommand :=
  mk_OrderCommand m "corr" i o DERIV acct "DIGITEVEN" "R_100" CALL (usd n) (at_ 30) 1 "t" None.

Definition submit (n : Z) (acct i : string) : writer_op :=
  OpPersist (request n acct) (command n acct ("m" +:+ i) ("i" +:+ i) ("o" +:+ i))
    ("i" +:+ i) ("r" +:+ i) ("o" +:+ i) (at_ 0) (Some 1000) None (Some "USD").

Definition policy : payload := list_to_map [
  ("config_fingerprint", JStr "f1"); ("currency", JStr "USD"); ("martingale_enabled", JBool true);
  ("martingale_max_steps", JInt 3); ("max_consecutive_losses", JInt 3);
  ("cooldown_seconds", JStr "60")].

Definition event (id : string) (i : string) (st : ExternalOrderStatus) (seq : Z) (n : Z)
    (pnl : option Z) : BrokerOrderEvent :=
  mk_BrokerOrderEvent id 1 DERIV "A1" ("o" +:+ i) "B1" "corr" (Some seq) st (at_ 2) (at_ 2)
    "DIGITEVEN" "R_100" CALL (usd n) pnl ((fun _ => "USD") <$> pnl) "h" None None.

(** One order submitted, dispatched and accepted. *)
Definition accepted : list writer_op := [
  OpConfigureDigit policy false (at_ 0);
  submit 100 "A1" "1";
  OpClaim (at_ 1) None None;
  OpDispatchResult (command 100 "A1" "m1" "i1" "o1") "ACCEPTED" (Some "B1") None (at_ 1)].

(** Two accounts with one pending order each. *)
Definition two_pending : list writer_op := [submit 100 "A1" "1"; submit 200 "A2" "2"].

(** The state part of a result. *)
Definition state_of {A} (r : res (A * state_db)) : state_db :=
  match r with Ok (_, s) => s | Err _ => empty_db end.

Definition no_order : Order :=
  mk_Order "" "" DERIV "" None OUTBOXED "" None "" "" None None None None None 0.
Definition no_reservation : Reservation :=
  mk_Reservation "" "" DERIV "" 0 "" ACTIVE "" None None None 0.
Definition order_at (n : nat) (s : state_db) : Order := nth n (orders s) no_order.
Definition reservation_at (n : nat) (s : state_db) : Reservation :=
  nth n (risk_reservations s) no_reservation.

(** The same order, settled with a loss of its stake. *)
Definition settled : list writer_op :=
  accepted ++ [OpNormalizedEvent (event "e1" "1" EX_SETTLED 1 100 (Some (-100))) (at_ 3)].
End Sample.

(** ** Exposure *)

Lemma active_exposure_step cur (t t' : list Reservation) :
  Forall2 res_step t t' -> (forall r, r ∈ t -> res_ok r) ->
  sumZ (rr_amount_minor <$> select (is_active_in cur) t') <=
  sumZ (rr_amount_minor <$> select (is_active_in cur) t).
Proof.
  induction 1 as [|r r' t t' Hr _ IH]; intros Hok; [done|].
  assert (res_ok r) as [_ Hpos] by (apply Hok; left).
  specialize (IH (fun r H => Hok r (list_elem_of_further _ _ _ H))).
  unfold sumZ, select in *. simpl.
  destruct Hr as [->|(Est & Ha & Hrel)].
  - destruct (is_active_in cur r); rewrite ?fmap_cons; simpl; lia.
  - replace (is_active_in cur r') with false by (unfold is_active_in; by rewrite Hrel).
    destruct (is_active_in cur r); rewrite ?fmap_cons; simpl; lia.
Qed.

Lemma sumZ_app l1 l2 : sumZ (l1 ++ l2) = sumZ l1 + sumZ l2.
Proof. unfold sumZ. induction l1 as [|x l1 IH]; simpl; [done|]. rewrite IH. lia. Qed.

Lemma active_exposure_submitted cur s q c i k o t :
  active_exposure cur (submitted s q c i k o t) =
  active_exposure cur s +
  (if bool_decide (currency (rq_amount q) = cur) then minor_units (rq_amount q) else 0).
Proof.
  unfold active_exposure, select. simpl. rewrite List.filter_app, fmap_app, sumZ_app. f_equal.
  simpl. unfold is_active_in. simpl. case_bool_decide; [|done]. rewrite fmap_cons. simpl. lia.
Qed.

(** ** Commands in the outbox *)

(** The outbox row holds the payload of the command it was inserted for. *)
Definition payload_ok (m : OutboxMessage) : Prop :=
  exists c, new_OrderCommand c = Ok c /\ om_payload m = OrderCommand_to_payload c /\
    om_message_id m = oc_message_id c.

Lemma new_OrderCommand_roundtrip c :
  new_OrderCommand c = Ok c -> OrderCommand_from_payload (OrderCommand_to_payload c) = Ok c.
Proof.
  intros H. unfold new_OrderCommand in H. apply res_bind_Ok in H as (u & Hwf & H).
  apply guard_res_Ok, andb_true_iff in Hwf as [Hd Hm]. by apply OrderCommand_payload_roundtrip.
Qed.

Lemma with_order_id_payload c k :
  with_order_id (OrderCommand_to_payload c) k = OrderCommand_to_payload c.
Proof.
  unfold with_order_id, OrderCommand_to_payload. by rewrite lookup_fields.
Qed.

Lemma outbox_join_orders_elem s m o :
  (m, o) ∈ outbox_join_orders s -> m ∈ outbox_messages s /\ o ∈ orders s /\
    o_intent_id o = om_intent_id m.
Proof.
  unfold outbox_join_orders. intros (m' & Hm & E)%list_elem_of_omap.
  apply fmap_Some in E as (o' & Ho & [= -> ->]). by apply fetch_intent in Ho as [? ?].
Qed.

(** A claim that hands out a command: the message was PENDING, first in order
    among the claimable ones, and is no longer PENDING. *)
Lemma claim_Some t b a s c s' :
  claim_next_message t b a s = Ok (Some c, s') ->
  exists m o, m ∈ outbox_messages s /\ om_state m = OB_PENDING /\ o ∈ orders s /\
    o_intent_id o = om_intent_id m /\
    OrderCommand_from_payload (with_order_id (om_payload m) (o_order_id o)) = Ok c /\
    head (sort_by outbox_order (select (claimable (isoformat t) b a) (outbox_join_orders s))) = Some (m, o) /\
    forall m', m' ∈ outbox_messages s' -> om_message_id m' = om_message_id m ->
      om_state m' <> OB_PENDING.
Proof.
  intros H. unfold claim_next_message in H. monad_inv H. rename o into m, o0 into o.
  assert ((m, o) ∈ select (claimable (isoformat t) b a) (outbox_join_orders s)) as Hin.
  { apply (elem_of_sort_by outbox_order). rewrite E. left. }
  apply elem_of_select in Hin as [(Hm & Ho & Ei)%outbox_join_orders_elem Hc].
  unfold claimable in Hc. rewrite !andb_true_iff in Hc. destruct Hc as [[Hp%bool_decide_eq_true _] _].
  exists m, o. split_and!; try done.
  apply st_modify_Ok in H0 as ->. apply transition_order_Ok in H1 as (o' & _ & [[_ ->]|(_ & _ & ->)]); simpl;
    intros m' (m1 & Hm1 & ->)%elem_of_update_where Eid; unfold message_in in *;
    repeat case_bool_decide; simpl in *; congruence.
Qed.

(** ** Reachable databases *)

Section reachable.
Variable inject : string -> option exn.
Variable payload_hash : payload -> string.
Abbreviation db_after := (db_after inject payload_hash).

(** C1: in every database reached by any history of writer calls, under any
    injected faults, the risk reservation of an order is RELEASED exactly when
    the order is terminal (SETTLED or REJECTED), and it has been released exactly
    once then and never before: exposure is neither freed while an order may
    still be open or unknown, nor kept after its proven end. *)
Theorem reservation_released_iff_terminal ops o r :
  o ∈ orders (db_after ops) -> r ∈ risk_reservations (db_after ops) ->
  rr_intent_id r = o_intent_id o ->
  (rr_state r = RELEASED <-> is_terminal (o_state o) = true) /\
  rr_release_count r = (if is_terminal (o_state o) then 1 else 0).
Proof.
  intros Ho Hr E. destruct (db_after_ok inject payload_hash ops).
  assert (rr_state r = RELEASED <-> is_terminal (o_state o) = true) as Hiff.
  { split; [eauto|]. intros Ht. by destruct (inv_released o r Ho Hr E Ht). }
  split; [done|]. destruct (inv_res r Hr) as [-> _]. case_bool_decide as Hrel.
  - by rewrite (proj1 Hiff Hrel).
  - by destruct (is_terminal (o_state o)); [destruct Hrel; apply Hiff|].
Qed.

(** C19: every reachable database is well formed.  Keys are unique; every intent has
    exactly one order, one reservation and one outbox message, of the same account; the
    P&L of an order is applied once if it is set and only on a SETTLED order; a
    reservation is positive and released at most once; a message is dispatched at most
    once; and the recovery row stays within its steps. *)
Theorem store_is_well_formed ops :
  let s := db_after ops in
  struct_inv s /\ Forall order_ok (orders s) /\ Forall res_ok (risk_reservations s) /\
  Forall msg_ok (outbox_messages s) /\ (forall r, digit_risk_runtime s = Some r -> digit_ok r).
Proof.
  cbv zeta. destruct (db_after_ok inject payload_hash ops). rewrite !Forall_forall. by split_and!.
Qed.

(** An order that is not terminal holds an ACTIVE reservation of its account. *)
Lemma open_order_reservation s o :
  db_ok s -> o ∈ orders s -> is_terminal (o_state o) = false ->
  exists r, r ∈ risk_reservations s /\ rr_intent_id r = o_intent_id o /\
    rr_state r = ACTIVE /\ rr_broker r = o_broker o /\ rr_account_id r = o_account_id o.
Proof.
  intros [] Ho Hnt. pose proof (key_in o_intent_id _ _ Ho) as Hin.
  rewrite (si_order_intents _ inv_struct), <- (si_res_intents _ inv_struct) in Hin.
  apply list_elem_of_fmap in Hin as (r & E & Hr). exists r.
  destruct (si_scope _ inv_struct o r Ho Hr (eq_sym E)) as [? ?].
  split_and!; try done. destruct (rr_state r) eqn:Es; [done|].
  by rewrite (inv_held o r Ho Hr (eq_sym E) Es) in Hnt.
Qed.

(** C8: an account never has two orders that are not terminal: in every reachable
    database two orders of the same broker account that are both neither SETTLED
    nor REJECTED are the same order. *)
Theorem one_open_order_per_account ops o1 o2 :
  o1 ∈ orders (db_after ops) -> o2 ∈ orders (db_after ops) ->
  is_terminal (o_state o1) = false -> is_terminal (o_state o2) = false ->
  o_broker o1 = o_broker o2 -> o_account_id o1 = o_account_id o2 -> o1 = o2.
Proof.
  intros H1 H2 T1 T2 Eb Ea. pose proof (db_after_ok inject payload_hash ops) as Hok.
  destruct (open_order_reservation _ o1 Hok H1 T1) as (r1 & R1 & E1 & A1 & B1 & C1).
  destruct (open_order_reservation _ o2 Hok H2 T2) as (r2 & R2 & E2 & A2 & B2 & C2). destruct Hok.
  apply (order_intent_unique (db_after ops)); try done.
  rewrite <- E1, <- E2. f_equal. apply inv_active; congruence.
Qed.

(** C7: a terminal order is final: whatever calls follow, its row is still there
    with the same state, the same realized P&L and the same P&L application
    count, and at every point the P&L was applied exactly once if it is present
    and never otherwise, and only to a SETTLED order. *)
Theorem terminal_order_is_final ops1 ops2 o :
  o ∈ orders (db_after ops1) ->
  o_pnl_application_count o = (if bool_decide (o_realized_pnl_minor o = None) then 0 else 1) /\
  (o_realized_pnl_minor o <> None -> o_state o = SETTLED) /\
  (is_terminal (o_state o) = true ->
   exists o', o' ∈ orders (db_after (ops1 ++ ops2)) /\ order_static o' = order_static o /\
     o_state o' = o_state o /\ o_realized_pnl_minor o' = o_realized_pnl_minor o /\
     o_pnl_application_count o' = o_pnl_application_count o).
Proof.
  intros Ho. pose proof (db_after_ok inject payload_hash ops1) as Hok.
  destruct (inv_orders _ _ _ Hok o Ho) as [Hc Hs]. split_and!; [done|done|]. intros Ht.
  unfold WriterOps.db_after. rewrite run_ops_app.
  destruct (run_ops_hist inject payload_hash ops2 (run_ops inject payload_hash ops1 fresh_writer) Hok) as [Hh _ _].
  destruct (extends_elem _ _ _ _ Hh Ho) as (o' & Ho' & Hst & Hfz).
  exists o'. destruct (Hfz Ht) as (? & ? & ?). done.
Qed.

Lemma run_ops_payload_ok ops w :
  db_ok (w_db w) -> (forall m, m ∈ outbox_messages (w_db w) -> payload_ok m) ->
  forall m, m ∈ outbox_messages (w_db (run_ops inject payload_hash ops w)) -> payload_ok m.
Proof.
  revert w. induction ops as [|op ops IH]; intros w Hok Hp; [done|]. simpl.
  apply IH; [by apply run_op_db_ok|]. intros m Hm.
  destruct (run_op_effect inject payload_hash op w Hok) as
    [HI|(q & c & i & k & o & t & g & sy & ref & u & Hc & (Hs' & _)%persist_Ok)].
  - destruct HI as [[_ _ _ Hmsg] _ _ _ _ _ _ _ _ _].
    apply list_elem_of_lookup in Hm as (j & Hj).
    eapply Forall2_lookup_r in Hmsg as (m0 & Hm0 & Hst & _); [|done].
    destruct (Hp m0) as (c & Hc & Ep & Ei); [by eapply list_elem_of_lookup_2|].
    injection Hst as E1 E2 E3. exists c. split_and!; congruence.
  - rewrite Hs' in Hm. simpl in Hm. apply elem_of_snoc in Hm as [Hm| ->]; [auto|]. by exists c.
Qed.

(** A claimed command is the one that was persisted with the message. *)
Lemma claim_persisted ops t b a c s' :
  claim_next_message t b a (db_after ops) = Ok (Some c, s') ->
  exists m, m ∈ outbox_messages (db_after ops) /\ om_state m = OB_PENDING /\
    om_payload m = OrderCommand_to_payload c /\ om_message_id m = oc_message_id c /\
    forall m', m' ∈ outbox_messages s' -> om_message_id m' = om_message_id m -> om_state m' <> OB_PENDING.
Proof.
  intros (m & o & Hm & Hp & Ho & Ei & Hdec & _ & Hafter)%claim_Some.
  destruct (run_ops_payload_ok ops fresh_writer db_ok_empty) with (m := m)
    as (c0 & Hc0 & Epay & Eid); [by intros m0 ?%elem_of_nil|done|].
  rewrite Epay, with_order_id_payload, new_OrderCommand_roundtrip in Hdec by done.
  injection Hdec as ->. eauto 10.
Qed.

(** C2: no order is sent twice: once a claim has handed out a command, no claim
    after any further calls (crash recovery, cancellation, events, faults
    included) hands out a command with that message id again, and what is handed
    out is exactly the command that was persisted with its reservation. *)
Theorem no_second_dispatch ops1 ops2 t1 b1 a1 c1 s1 t2 b2 a2 c2 s2 :
  claim_next_message t1 b1 a1 (db_after ops1) = Ok (Some c1, s1) ->
  claim_next_message t2 b2 a2 (db_after (ops1 ++ OpClaim t1 b1 a1 :: ops2)) = Ok (Some c2, s2) ->
  oc_message_id c2 <> oc_message_id c1 /\
  exists m, m ∈ outbox_messages (db_after ops1) /\ om_payload m = OrderCommand_to_payload c1.
Proof.
  intros H1 H2. pose proof H1 as (m1 & Hm1 & Hp1 & Epay & Eid1 & Hafter)%claim_persisted.
  split; [|by exists m1]. intros E. pose proof (db_after_ok inject payload_hash (ops1 ++ OpClaim t1 b1 a1 :: ops2)) as Hok2.
  pose proof H2 as (m2 & Hm2 & Hp2 & _ & Eid2 & _)%claim_persisted.
  set (w1 := run_ops inject payload_hash ops1 fresh_writer).
  assert (w_db (run_op inject payload_hash (OpClaim t1 b1 a1) w1) = s1) as Hw1.
  { simpl. unfold commit, transaction. change (w_db w1) with (db_after ops1). by rewrite H1. }
  pose proof (db_after_ok inject payload_hash ops1) as Hok1.
  (* the claimed row after the claim, and after the later calls *)
  destruct (call_effect_hist _ _ _ (run_op_effect inject payload_hash (OpClaim t1 b1 a1) w1 Hok1)) as [_ _ Hh1].
  destruct (extends_elem _ _ _ _ Hh1 Hm1) as (m1' & Hm1' & [= Es1 _ _] & _).
  rewrite Hw1 in Hm1'. specialize (Hafter m1' Hm1' Es1). rewrite <- Hw1 in Hm1'.
  destruct (run_ops_hist inject payload_hash ops2 (run_op inject payload_hash (OpClaim t1 b1 a1) w1)) as [_ _ Hh2].
  { by apply run_op_db_ok. }
  destruct (extends_elem _ _ _ _ Hh2 Hm1') as (m1'' & Hm1'' & [= Es2 _ _] & _ & Hnp).
  destruct (Hnp Hafter) as [Hnp' _]. unfold WriterOps.db_after in Hm2, Hok2.
  rewrite run_ops_app in Hm2, Hok2. change (run_ops inject payload_hash (OpClaim t1 b1 a1 :: ops2) _) with
    (run_ops inject payload_hash ops2 (run_op inject payload_hash (OpClaim t1 b1 a1) w1)) in Hm2, Hok2.
  assert (m2 = m1'') as ->; [|done].
  apply (key_unique om_message_id _ _ _ (si_msgs _ (inv_struct _ _ _ Hok2))); [done..|congruence].
Qed.

(** C9: a submission is all or nothing: under any fault injected at any stage, the
    transaction either returns with exactly the four rows (intent, reservation,
    outbox message, order) appended, or raises and leaves the database as it was. *)
Theorem submission_is_atomic q c i k o t g sy ref w :
  let '(r, w') := transaction (persist_intent_reservation_outbox inject q c i k o t g sy ref) w in
  (r = Ok tt /\ w_db w' = submitted (w_db w) q c i k o (isoformat t)) \/
  ((exists e, r = Err e) /\ w_db w' = w_db w).
Proof.
  destruct (transaction_db (persist_intent_reservation_outbox inject q c i k o t g sy ref) w)
    as [([] & db & H & ->)|(e & e' & _ & Hr & Hdb)].
  - left. split; [done|]. by apply persist_Ok in H as [-> _].
  - destruct (transaction _ w) as [r w']. right. eauto.
Qed.

(** The call is not a submission, or one with a global exposure limit of at most [L]. *)
Definition limited (L : Z) (op : writer_op) : bool :=
  match op with
  | OpPersist _ _ _ _ _ _ (Some g) _ _ => g <=? L
  | OpPersist _ _ _ _ _ _ None _ _ => false
  | _ => true
  end.

Lemma run_op_exposure L cur op w :
  db_ok (w_db w) -> limited L op = true -> active_exposure cur (w_db w) <= L ->
  active_exposure cur (w_db (run_op inject payload_hash op w)) <= L.
Proof.
  intros Hok Hlim Hle. destruct (is_persist op) eqn:Ep.
  - destruct op; try done. simpl in Hlim. destruct global_max as [g|]; [|done].
    apply Z.leb_le in Hlim.
    destruct (run_op_persist inject payload_hash q c intent_id reservation_id order_id created_at
      (Some g) per_symbol_max reference w) as [->|(u & _ & (-> & _ & _ & Hg & _)%persist_Ok)]; [done|].
    rewrite active_exposure_submitted. specialize (Hg g eq_refl). case_bool_decide; subst; lia.
  - destruct (run_op_inv inject payload_hash op w Ep Hok) as [[_ _ Hres _] _ _ _ _ _ _ _ _ _].
    etrans; [|exact Hle]. apply active_exposure_step; [done|]. apply (inv_res _ _ _ Hok).
Qed.

(** C3: the exposure limit holds at all times, not only at the moment of the check:
    if every submission of a history is made with a global limit of at most [L],
    the total of the ACTIVE reservations in a currency never exceeds [L]. *)
Theorem exposure_within_limit L cur ops :
  0 <= L -> forallb (limited L) ops = true -> active_exposure cur (db_after ops) <= L.
Proof.
  intros HL Hops. unfold WriterOps.db_after.
  assert (forall w, db_ok (w_db w) -> active_exposure cur (w_db w) <= L ->
    active_exposure cur (w_db (run_ops inject payload_hash ops w)) <= L) as Hgen; [|by apply Hgen; [apply db_ok_empty|]].
  induction ops as [|op ops IH]; intros w Hok Hle; [done|]. simpl in Hops.
  apply andb_true_iff in Hops as [Hop Hops]. apply IH; [done|by apply run_op_db_ok|].
  by apply run_op_exposure.
Qed.
End reachable.

(** ** Witnesses *)

Import Sample.

Lemma order_at_elem n s : (n < length (orders s))%nat -> order_at n s ∈ orders s.
Proof. intros H. apply list_elem_of_In, nth_In, H. Qed.

Lemma reservation_at_elem n s :
  (n < length (risk_reservations s))%nat -> reservation_at n s ∈ risk_reservations s.
Proof. intros H. apply list_elem_of_In, nth_In, H. Qed.

Lemma reservation_released_iff_terminal_witness :
  let s := db_after no_fault hash settled in
  (rr_state (reservation_at 0 s) = RELEASED <-> is_terminal (o_state (order_at 0 s)) = true) /\
  rr_release_count (reservation_at 0 s) = (if is_terminal (o_state (order_at 0 s)) then 1 else 0).
Proof.
  cbv zeta. apply (reservation_released_iff_terminal no_fault hash settled).
  - apply order_at_elem. vm_compute. lia.
  - apply reservation_at_elem. vm_compute. lia.
  - vm_compute. reflexivity.
Defined.

Lemma one_open_order_per_account_witness :
  let s := db_after no_fault hash accepted in
  order_at 0 s = default no_order (fetchone (of_intent "i1") (orders s)).
Proof.
  cbv zeta. apply (one_open_order_per_account no_fault hash accepted).
  - apply order_at_elem. vm_compute. lia.
  - apply list_elem_of_lookup_2 with 0%nat. vm_compute. reflexivity.
  - vm_compute. reflexivity.
  - vm_compute. reflexivity.
  - vm_compute. reflexivity.
  - vm_compute. reflexivity.
Defined.

Lemma terminal_order_is_final_witness :
  let s := db_after no_fault hash settled in
  o_pnl_application_count (order_at 0 s) =
    (if bool_decide (o_realized_pnl_minor (order_at 0 s) = None) then 0 else 1).
Proof.
  cbv zeta. refine (proj1 (terminal_order_is_final no_fault hash settled [OpRecover (at_ 9)] _ _)).
  apply order_at_elem. vm_compute. lia.
Defined.

Abbreviation first_claim :=
  (claim_next_message (at_ 1) None None (db_after no_fault hash two_pending)).
Abbreviation second_claim :=
  (claim_next_message (at_ 1) None None
    (db_after no_fault hash (two_pending ++ OpClaim (at_ 1) None None :: [OpRecover (at_ 2)]))).

Lemma no_second_dispatch_witness :
  oc_message_id (command 200 "A2" "m2" "i2" "o2") <> oc_message_id (command 100 "A1" "m1" "i1" "o1").
Proof.
  assert (first_claim = Ok (Some (command 100 "A1" "m1" "i1" "o1"), state_of first_claim)) as H1
    by (vm_compute; reflexivity).
  assert (second_claim = Ok (Some (command 200 "A2" "m2" "i2" "o2"), state_of second_claim)) as H2
    by (vm_compute; reflexivity).
  exact (proj1 (no_second_dispatch no_fault hash two_pending [OpRecover (at_ 2)]
    _ _ _ _ _ _ _ _ _ _ H1 H2)).
Defined.

Lemma exposure_within_limit_witness :
  active_exposure "USD" (db_after no_fault hash two_pending) = 300 /\
  active_exposure "USD" (db_after no_fault hash two_pending) <= 1000.
Proof.
  split; [vm_compute; reflexivity|].
  apply (exposure_within_limit no_fault hash 1000 "USD" two_pending); [lia|vm_compute; reflexivity].
Defined.
