(* ===== verification/EventProps.v ===== *)
(** * The durable inbox of broker events

    What one call of [apply_normalized_broker_event] does to a reachable
    database: replays are no-ops, refused events touch nothing but the inbox,
    applied events match their order and move it to the reported state. *)

From S2P Require Import Prelude Datetime Dec Domain StateDb Writer WriterInv WriterOps WriterProps.

(** The tables that carry money are the same. *)
Definition same_books (s s' : state_db) : Prop :=
  trade_intents s' = trade_intents s /\ orders s' = orders s /\
  risk_reservations s' = risk_reservations s /\ outbox_messages s' = outbox_messages s /\
  digit_risk_runtime s' = digit_risk_runtime s.

Definition is_applied (st : BrokerEventApplyStatus) : bool :=
  match st with EV_APPLIED | EV_APPLIED_WITH_GAP => true | _ => false end.

(** [s'] is [s] with one inbox row for [e] appended. *)
Definition inbox_added (e : BrokerOrderEvent) (s s' : state_db) : Prop :=
  exists row, bv_event row = e /\ s' = s <| broker_order_events ::= fun t => t ++ [row] |>.

Lemma insert_broker_order_event_Ok e oid st reason at_ s u s' :
  insert_broker_order_event e oid st reason at_ s = Ok (u, s') -> inbox_added e s s'.
Proof.
  intros H. unfold insert_broker_order_event, insert_broker_event_row in H. monad_inv H.
  insert_inv. eexists. split; [|reflexivity]. done.
Qed.

(** A column of the database that a statement does not write. *)
Section projections.
Context {X : Type} (proj : state_db -> X) (v : X).
Abbreviation holds := (fun s => proj s = v).

Lemma t_proj_frame (f : state_db -> state_db) :
  (forall s, proj (f s) = proj s) -> triple holds (st_modify f) (fun _ => holds).
Proof. intros Hf. apply t_modify. intros s <-. apply Hf. Qed.

Lemma t_proj_transition i new at_ boid pnl :
  (forall s f, proj (s <| orders ::= f |>) = proj s) ->
  triple holds (transition_order i new at_ boid pnl) (fun _ => holds).
Proof.
  intros Hp s u s' HP (o & _ & [[_ ->]|(_ & _ & ->)])%transition_order_Ok; [done|]. by rewrite Hp.
Qed.
End projections.

Ltac proj_frame := apply t_proj_frame; intros; reflexivity.

Lemma t_proj_digit {X} (proj : state_db -> X) v product sym cur pnl oid sid at_ :
  (forall s r, proj (s <| digit_risk_runtime := r |>) = proj s) ->
  triple (fun s => proj s = v) (apply_digit_runtime_settlement product sym cur pnl oid sid at_)
    (fun _ s => proj s = v).
Proof.
  intros Hp. unfold apply_digit_runtime_settlement. t_solve. by apply t_proj_frame.
Qed.

(** [finish_broker_event] writes the order's columns and leaves the inbox alone. *)
Lemma finish_broker_event_orders inject o e target amb at_ s u s' :
  finish_broker_event inject o e target amb at_ s = Ok (u, s') ->
  orders s' = update_where (fun x => bool_decide (o_order_id x = o_order_id o))
                (event_applied e amb at_) (orders s) /\
  broker_order_events s' = broker_order_events s.
Proof.
  set (upd := update_where _ _). set (books := fun s => (orders s, broker_order_events s)).
  assert (triple (fun x => books x = books s) (finish_broker_event inject o e target amb at_)
    (fun _ x => books x = (upd (orders s), broker_order_events s))) as Ht;
    [|by intros [= -> ->]%Ht].
  unfold finish_broker_event. eapply t_bind.
  { eapply (t_modify _ _ (fun x => books x = (upd (orders s), broker_order_events s))).
    unfold books. intros x [= E1 E2]. simpl. by rewrite E1, E2. }
  intros ?. eapply (t_bind _ (fun _ x => books x = (upd (orders s), broker_order_events s))).
  { destruct amb; [proj_frame|apply t_ret]. }
  intros ?. eapply (t_bind _ (fun _ x => books x = (upd (orders s), broker_order_events s))).
  { destruct (is_terminal target); [proj_frame|apply t_ret]. }
  intros ?. eapply (t_bind _ (fun _ x => books x = (upd (orders s), broker_order_events s))).
  { repeat case_match; try apply t_ret. by apply t_proj_digit. }
  intros ?. apply t_inject.
Qed.

(** The row of an order after a transition of its intent. *)
Lemma transition_elem i new at_ boid pnl s u s' o :
  struct_inv s -> transition_order i new at_ boid pnl s = Ok (u, s') ->
  o ∈ orders s -> o_intent_id o = i ->
  (o_state o = new /\ s' = s) \/
  (allowed (o_state o) new = true /\ transitioned new (isoformat at_) boid pnl o ∈ orders s').
Proof.
  intros Hst (o1 & [Ho1 E1]%fetch_intent & Hc)%transition_order_Ok Ho E.
  assert (o1 = o) as -> by (apply (order_intent_unique s); congruence).
  destruct Hc as [Hc|(Hne & Hal & ->)]; [by left|right]. split; [done|]. simpl.
  apply elem_of_update_where. exists o. unfold of_intent. by rewrite bool_decide_true.
Qed.

Section events.
Variable inject : string -> option exn.

(** The checks an event passed when it was applied. *)
Record accepted_event (e : BrokerOrderEvent) (o : Order) (t : TradeIntent) (target : OrderState)
    (s : state_db) : Prop := {
  ae_order : order_with_intent (bo_client_order_ref e) s = Some (o, t);
  ae_match : broker_event_matching_conflict (o, t) e = None;
  ae_target : order_state_for_external_status (bo_external_status e) = Ok target;
  ae_open : is_terminal (o_state o) = false;
  ae_fresh : is_late e o target = false
}.

(** A new event is either recorded in the inbox only, or passes the checks. *)
Lemma apply_new_event_inv e at_ s r s' :
  apply_new_event inject e at_ s = Ok (r, s') ->
  (is_applied (ar_status r) = false /\ inbox_added e s s') \/
  (exists o t target, accepted_event e o t target s /\
     apply_lifecycle_event inject o e target at_ s = Ok (r, s')).
Proof.
  assert (forall oid r0, is_applied (ar_status r0) = false ->
    record_event_result e oid r0 at_ s = Ok (r, s') ->
    (is_applied (ar_status r) = false /\ inbox_added e s s')) as Hrec.
  { intros oid r0 Hr0 H. unfold record_event_result in H. monad_inv H.
    split; [done|]. by eapply insert_broker_order_event_Ok. }
  intros H. unfold apply_new_event in H. apply st_bind_Ok in H as (row & s1 & [-> ->]%st_gets_Ok & H).
  destruct (order_with_intent _ s) as [[o t]|] eqn:Erow; [|left; by eapply Hrec; [|exact H]].
  destruct (broker_event_matching_conflict _ _) eqn:Em; [left; by eapply Hrec; [|exact H]|].
  apply st_bind_Ok in H as (reused & s1 & [-> ->]%st_gets_Ok & H).
  destruct (sequence_reused _ _ _); [left; by eapply Hrec; [|exact H]|].
  apply st_bind_Ok in H as (target & s1 & [Et ->]%st_lift_Ok & H).
  destruct (terminal_broker_event_result _ _ _ _) as [r0|] eqn:Eterm.
  { left. eapply Hrec; [|exact H]. unfold terminal_broker_event_result in Eterm.
    repeat case_match; by simplify_eq/=. }
  destruct (is_late _ _ _) eqn:El; [left; by eapply Hrec; [|exact H]|]. right. exists o, t, target.
  split; [|done]. split; try done. unfold terminal_broker_event_result in Eterm.
  destruct (is_terminal (o_state o)); [|done]. simpl in Eterm. repeat case_match; done.
Qed.

(** The three outcomes of the lifecycle part. *)
Lemma apply_lifecycle_inv o e target at_ s r s' :
  apply_lifecycle_event inject o e target at_ s = Ok (r, s') ->
  exists s1 s2, inbox_added e s s1 /\
    (if is_ambiguous_state (o_state o)
     then transition_order (o_intent_id o) RECONCILING (bo_observed_at e) None None s1 = Ok (tt, s2)
     else s2 = s1) /\
    ((exists s3, is_applied (ar_status r) = true /\ ar_order_state r = Some target /\
       ((if is_ambiguous_state (o_state o) then RECONCILING else o_state o) = target /\ s3 = s2 \/
        (if is_ambiguous_state (o_state o) then RECONCILING else o_state o) <> target /\
        transition_order (o_intent_id o) target (bo_occurred_at e) (Some (bo_broker_order_id e))
          (bo_result_minor e) s2 = Ok (tt, s3)) /\
       finish_broker_event inject o e target (is_ambiguous_state (o_state o)) at_ s3 = Ok (tt, s')) \/
     (is_applied (ar_status r) = false /\
      transition_order (o_intent_id o) target (bo_occurred_at e) (Some (bo_broker_order_id e))
        (bo_result_minor e) s2 = Err InvalidOrderTransition /\
      s' = s2 <| broker_order_events ::= update_where
            (fun r => bool_decide (bv_event_id r = bo_event_id e))
            (fun r => r <| bv_processing_result := "CONFLICT" |>
                        <| bv_reason_code := Some "BROKER_EVENT_STATE_CONFLICT" |>) |>)).
Proof.
  intros H. unfold apply_lifecycle_event in H.
  apply st_bind_Ok in H as (u & s1 & Hins%insert_broker_order_event_Ok & H).
  apply st_bind_Ok in H as (u' & s1' & Hinj%inject_at_Ok & H). subst s1'.
  apply st_bind_Ok in H as ([] & s2 & Hamb & H). exists s1, s2. split; [done|].
  set (cur := if is_ambiguous_state (o_state o) then RECONCILING else o_state o) in *.
  set (gap := match bo_external_sequence e with Some _ => _ | None => false end) in *.
  assert (forall s3, ((finish_broker_event inject o e target (is_ambiguous_state (o_state o)) at_ ≫=
    (fun _ => mret (mk_BrokerEventApplyResult (if gap then EV_APPLIED_WITH_GAP else EV_APPLIED)
       (Some target) (if gap then Some "ORDER_EVENT_SEQUENCE_GAP" else None)))) : db_m _) s3 = Ok (r, s') ->
    is_applied (ar_status r) = true /\ ar_order_state r = Some target /\
    finish_broker_event inject o e target (is_ambiguous_state (o_state o)) at_ s3 = Ok (tt, s')) as Happ.
  { intros s3 H'. apply st_bind_Ok in H' as ([] & s4 & Hf & [-> ->]%st_ret_Ok). by destruct gap. }
  split. { destruct (is_ambiguous_state _); [done|]. by monad_inv Hamb. }
  case_bool_decide as Hcur.
  { left. exists s2. apply Happ in H as (? & ? & ?). auto 10. }
  apply st_bind_Ok in H as (moved & s3 & Hmove & H).
  apply st_catch_Ok in Hmove as [Hmove|[Hmove [-> ->]%st_ret_Ok]].
  - apply st_bind_Ok in Hmove as ([] & s4 & Htr & [-> ->]%st_ret_Ok). left. exists s4.
    apply Happ in H as (? & ? & ?). auto 10.
  - right. apply st_bind_Ok in H as (u1 & s4 & ->%st_modify_Ok & [-> ->]%st_ret_Ok).
    split; [done|]. split; [|done].
    unfold mbind, st_bind in Hmove. destruct (transition_order _ _ _ _ _ s2) as [[[] ?]|]; [discriminate Hmove|congruence].
Qed.

Lemma inbox_added_books e s s' : inbox_added e s s' -> same_books s s'.
Proof. by intros (row & _ & ->). Qed.

Lemma inbox_added_inv e s0 s s' : inbox_added e s s' -> Inv s0 None s -> Inv s0 None s'.
Proof. intros (row & _ & ->). by apply Inv_frame. Qed.

Lemma external_allowed st target :
  order_state_for_external_status st = Ok target -> allowed RECONCILING target = true.
Proof. by destruct st; intros [= <-]. Qed.

(** An ambiguous order can always be moved to the reported state. *)
Lemma ambiguous_never_conflicts s0 s1 s2 i at1 at2 boid pnl st target :
  Inv s0 None s1 -> transition_order i RECONCILING at1 None None s1 = Ok (tt, s2) ->
  order_state_for_external_status st = Ok target ->
  transition_order i target at2 boid pnl s2 <> Err InvalidOrderTransition.
Proof.
  intros HI Htr Hext%external_allowed Herr.
  apply (Inv_transition s0 i RECONCILING) in Htr as [_ Hat]; [|done|done].
  unfold transition_order, st_gets, mbind, st_bind in Herr.
  destruct (fetchone (of_intent i) (orders s2)) as [o|] eqn:Ef; [|done].
  apply fetch_intent in Ef as [Ho Ei]. case_bool_decide; [done|].
  by rewrite (Hat o Ho Ei), Hext in Herr.
Qed.

(** An event that is not applied (a duplicate, a late event, a conflict in
    identity, amount, sequence, state or settlement) changes nothing but the
    inbox table: intents, orders, reservations, outbox and the digit recovery row
    are as before. *)
Theorem refused_event_changes_only_the_inbox payload_hash ops e at_ r s' :
  apply_normalized_broker_event inject e at_ (db_after inject payload_hash ops) = Ok (r, s') ->
  is_applied (ar_status r) = false -> same_books (db_after inject payload_hash ops) s'.
Proof.
  pose proof (db_after_ok inject payload_hash ops) as Hok. set (s := db_after _ _ ops) in *.
  intros H Hr. unfold apply_normalized_broker_event in H.
  apply st_bind_Ok in H as (dup & s1 & [-> ->]%st_gets_Ok & H).
  destruct (fetchone _ (broker_order_events s)) as [d|]; [by monad_inv H|].
  apply apply_new_event_inv in H as [[_ Hadd]|(o & t & target & Hacc & H)].
  { by eapply inbox_added_books. }
  apply apply_lifecycle_inv in H as (s1 & s2 & Hadd & Hamb & [(s3 & Ha & _)|(_ & Herr & ->)]).
  { by rewrite Ha in Hr. }
  destruct (is_ambiguous_state (o_state o)).
  - exfalso. eapply ambiguous_never_conflicts; [|exact Hamb|apply Hacc|exact Herr].
    by eapply inbox_added_inv.
  - subst s2. apply inbox_added_books in Hadd. by destruct Hadd as (? & ? & ? & ? & ?).
Qed.

(** The event is in the inbox, with its own evidence hash. *)
Definition recorded (e : BrokerOrderEvent) (evs : list BrokerEventRow) : Prop :=
  exists d, fetchone (fun r => bool_decide (bv_event_id r = bo_event_id e)) evs = Some d /\
    bv_evidence_hash d = bo_evidence_hash e.

Lemma inbox_added_recorded e s s' :
  fetchone (fun r => bool_decide (bv_event_id r = bo_event_id e)) (broker_order_events s) = None ->
  inbox_added e s s' -> recorded e (broker_order_events s').
Proof.
  intros Hn (row & <- & ->). exists row. split; [|done]. simpl.
  apply fetchone_snoc; [done|]. by apply bool_decide_eq_true.
Qed.

Lemma lifecycle_recorded o e target at_ s r s' :
  fetchone (fun r => bool_decide (bv_event_id r = bo_event_id e)) (broker_order_events s) = None ->
  apply_lifecycle_event inject o e target at_ s = Ok (r, s') -> recorded e (broker_order_events s').
Proof.
  intros Hn (s1 & s2 & Hadd & Hamb & Hc)%apply_lifecycle_inv.
  pose proof (inbox_added_recorded e s s1 Hn Hadd) as Hrec.
  assert (broker_order_events s2 = broker_order_events s1) as E2.
  { destruct (is_ambiguous_state _); [|by subst].
    by eapply (t_proj_transition broker_order_events) in Hamb. }
  rewrite <- E2 in Hrec. destruct Hc as [(s3 & _ & _ & Hm & Hf)|(_ & _ & ->)].
  - apply finish_broker_event_orders in Hf as [_ ->].
    destruct Hm as [[_ ->]|[_ Hm]]; [done|].
    by eapply (t_proj_transition broker_order_events) in Hm as ->.
  - destruct Hrec as (d & Hd & Eh). eexists. simpl. rewrite fetchone_update_where, Hd by done.
    split; [done|]. by destruct d.
Qed.

(** Replaying an event is a no-op: once an event has been processed, whatever
    the outcome, delivering the same event again returns DUPLICATE and leaves the
    database exactly as it is.  (A delivery that finds the event id already
    recorded with another evidence hash is reported as REPLAY_CONFLICT instead.) *)
Theorem replayed_event_is_a_noop e at1 at2 s r s' :
  apply_normalized_broker_event inject e at1 s = Ok (r, s') ->
  ar_reason_code r <> Some "BROKER_EVENT_REPLAY_CONFLICT" ->
  exists st, apply_normalized_broker_event inject e at2 s' =
    Ok (mk_BrokerEventApplyResult EV_DUPLICATE st None, s').
Proof.
  intros H Hr. assert (recorded e (broker_order_events s')) as (d & Hd & Eh).
  { unfold apply_normalized_broker_event in H.
    apply st_bind_Ok in H as (dup & s1 & [-> ->]%st_gets_Ok & H).
    destruct (fetchone _ (broker_order_events s)) as [d|] eqn:Ed.
    - monad_inv H. exists d. split; [done|]. by apply bool_decide_eq_true in E.
    - apply apply_new_event_inv in H as [[_ Hadd]|(o & t & target & _ & H)].
      + by eapply inbox_added_recorded.
      + by eapply lifecycle_recorded. }
  eexists. unfold apply_normalized_broker_event, st_gets, mbind, st_bind.
  rewrite Hd. cbv beta iota. rewrite bool_decide_true by done. done.
Qed.

Lemma first_mismatch_None l : first_mismatch l = None -> Forall (fun c => fst c = true) l.
Proof. induction l as [|[[] reason] l IH]; simpl; intros H; [constructor|auto|done]. Qed.

(** An event that passed the comparison is about this order. *)
Lemma matching_None o t e :
  broker_event_matching_conflict (o, t) e = None ->
  bo_broker e = o_broker o /\ bo_account_id e = o_account_id o /\
  bo_product e = ti_product t /\ bo_symbol e = ti_symbol t /\ bo_direction e = ti_direction t /\
  minor_units (bo_amount e) = ti_amount_minor t /\ currency (bo_amount e) = ti_currency t /\
  (o_broker_order_id o = None \/ o_broker_order_id o = Some (bo_broker_order_id e)).
Proof.
  unfold broker_event_matching_conflict. destruct (first_mismatch _) eqn:Ef; [done|].
  apply first_mismatch_None in Ef.
  repeat (apply Forall_cons in Ef as [H Ef]; apply bool_decide_eq_true in H; revert H).
  intros. destruct (o_broker_order_id o) as [b|]; [|by split_and!; auto].
  case_bool_decide; simpl in *; [|done]. split_and!; try done. right. congruence.
Qed.

(** The row an accepted event finds, after the transitions. *)
Lemma lifecycle_row o e target s0 s1 s2 s3 :
  Inv s0 None s1 -> o ∈ orders s1 -> is_terminal (o_state o) = false ->
  (if is_ambiguous_state (o_state o)
   then transition_order (o_intent_id o) RECONCILING (bo_observed_at e) None None s1 = Ok (tt, s2)
   else s2 = s1) ->
  ((if is_ambiguous_state (o_state o) then RECONCILING else o_state o) = target /\ s3 = s2 \/
   (if is_ambiguous_state (o_state o) then RECONCILING else o_state o) <> target /\
   transition_order (o_intent_id o) target (bo_occurred_at e) (Some (bo_broker_order_id e))
     (bo_result_minor e) s2 = Ok (tt, s3)) ->
  exists o3, o3 ∈ orders s3 /\ o_order_id o3 = o_order_id o /\ o_state o3 = target /\
    o_last_external_sequence o3 = o_last_external_sequence o /\
    (o_broker_order_id o3 = o_broker_order_id o \/ o_broker_order_id o3 = Some (bo_broker_order_id e)) /\
    (is_terminal target = true ->
     o_realized_pnl_minor o3 = coalesce (bo_result_minor e) (o_realized_pnl_minor o)).
Proof.
  intros HI Ho Hnt Hamb Hmove. set (i := o_intent_id o) in *.
  assert (exists o2, o2 ∈ orders s2 /\ o_intent_id o2 = i /\ o_order_id o2 = o_order_id o /\
    o_state o2 = (if is_ambiguous_state (o_state o) then RECONCILING else o_state o) /\
    o_last_external_sequence o2 = o_last_external_sequence o /\
    o_broker_order_id o2 = o_broker_order_id o /\
    o_realized_pnl_minor o2 = o_realized_pnl_minor o /\ struct_inv s2)
    as (o2 & Ho2 & Ei & Eo & Es & El & Eb & Er & Hst2).
  { destruct (is_ambiguous_state (o_state o)) eqn:Ea.
    - pose proof (t_transition_none s0 i RECONCILING _ _ eq_refl _ _ _ HI Hamb) as HI2.
      apply (transition_elem _ _ _ _ _ _ _ _ o (inv_struct _ _ _ HI)) in Hamb as [[E ->]|[_ Hin]]; try done.
      { by rewrite E in Ea. }
      eexists. split; [exact Hin|]. split_and!; try done. apply HI2.
    - subst s2. exists o. split_and!; try done. apply HI. }
  destruct Hmove as [[Hc ->]|[Hc Hmove]].
  - exists o2. split_and!; auto; try congruence.
    intros Ht. exfalso. rewrite <- Hc in Ht. destruct (is_ambiguous_state (o_state o)); [done|congruence].
  - destruct (transition_elem _ _ _ _ _ _ _ _ o2 Hst2 Hmove Ho2 Ei) as [[E _]|[_ Hin]]; [congruence|].
    eexists. split; [exact Hin|]. split_and!; simpl; auto; congruence.
Qed.

(** C21: an applied event took effect on the order it describes: the event agrees with the order it names on broker, account,
    product, symbol, direction, amount and currency; the order was not terminal;
    it is now in the reported state, which is the one returned, with the broker's
    order id, the event id, the sequence number of the event when it has one, which is
    not below the one stored before, and, for a settlement, the reported P&L. *)
Theorem applied_event_effect payload_hash ops e at_ r s' :
  apply_normalized_broker_event inject e at_ (db_after inject payload_hash ops) = Ok (r, s') ->
  is_applied (ar_status r) = true ->
  exists o t o', o ∈ orders (db_after inject payload_hash ops) /\
    t ∈ trade_intents (db_after inject payload_hash ops) /\ ti_intent_id t = o_intent_id o /\
    o_order_id o = bo_client_order_ref e /\ is_terminal (o_state o) = false /\
    (bo_broker e = o_broker o /\ bo_account_id e = o_account_id o /\
     bo_product e = ti_product t /\ bo_symbol e = ti_symbol t /\ bo_direction e = ti_direction t /\
     minor_units (bo_amount e) = ti_amount_minor t /\ currency (bo_amount e) = ti_currency t) /\
    o' ∈ orders s' /\ o_order_id o' = o_order_id o /\
    order_state_for_external_status (bo_external_status e) = Ok (o_state o') /\
    ar_order_state r = Some (o_state o') /\
    o_broker_order_id o' = Some (bo_broker_order_id e) /\
    o_last_broker_event_id o' = Some (bo_event_id e) /\
    o_last_external_sequence o' =
      match bo_external_sequence e with Some n => Some n | None => o_last_external_sequence o end /\
    (forall n n', o_last_external_sequence o = Some n -> bo_external_sequence e = Some n' -> n <= n') /\
    (forall pnl, bo_result_minor e = Some pnl -> is_terminal (o_state o') = true ->
       o_realized_pnl_minor o' = Some pnl).
Proof.
  pose proof (db_after_ok inject payload_hash ops) as Hok. set (s := db_after _ _ ops) in *.
  intros H Hr. unfold apply_normalized_broker_event in H.
  apply st_bind_Ok in H as (dup & s1 & [-> ->]%st_gets_Ok & H).
  destruct (fetchone _ (broker_order_events s)) as [d|]; [by monad_inv H|].
  apply apply_new_event_inv in H as [[Hna _]|(o & t & target & [Hrow Hmatch Htgt Hnt Hlate] & H)];
    [congruence|].
  apply apply_lifecycle_inv in H as (s1 & s2 & Hadd & Hamb & [(s3 & _ & Hst & Hmove & Hfin)|(Hna & _)]);
    [|congruence].
  apply order_with_intent_Some in Hrow as (Ho & Eref & Ht & Eti).
  apply matching_None in Hmatch as (? & ? & ? & ? & ? & ? & ? & Hbo).
  assert (o ∈ orders s1) as Ho1 by (by destruct (inbox_added_books _ _ _ Hadd) as (_ & -> & _)).
  destruct (lifecycle_row o e target s s1 s2 s3) as (o3 & Ho3 & Eo3 & Es3 & El3 & Eb3 & Er3); try done.
  { by eapply inbox_added_inv. }
  apply finish_broker_event_orders in Hfin as [Eorders _].
  exists o, t, (event_applied e (is_ambiguous_state (o_state o)) at_ o3). split_and!; try done.
  - rewrite Eorders. apply elem_of_update_where. exists o3. by rewrite Eo3, bool_decide_true.
  - simpl. by rewrite Es3.
  - simpl. by rewrite Es3.
  - simpl. destruct Eb3 as [->| ->]; [|done]. by destruct Hbo as [->| ->].
  - simpl. rewrite El3. by destruct (bo_external_sequence e).
  - intros n m Hn Hm. unfold is_late in Hlate. rewrite Hn, Hm in Hlate. apply orb_false_iff in Hlate as [Hlt _]. lia.
  - simpl. intros pnl Hp Hterm. rewrite Es3 in Hterm. by rewrite (Er3 Hterm), Hp.
Qed.
End events.

(** ** Witnesses *)

Import Sample.

Definition result_of {A} (d : A) (r : res (A * state_db)) : A :=
  match r with Ok (a, _) => a | Err _ => d end.
Definition no_result : BrokerEventApplyResult := mk_BrokerEventApplyResult EV_CONFLICT None None.

(** A second settlement with another P&L. *)
Abbreviation conflicting :=
  (apply_normalized_broker_event no_fault (event "e2" "1" EX_SETTLED 2 100 (Some 90)) (at_ 4)
    (db_after no_fault hash settled)).

Lemma refused_event_changes_only_the_inbox_witness :
  ar_reason_code (result_of no_result conflicting) = Some "BROKER_EVENT_SETTLEMENT_CONFLICT" /\
  same_books (db_after no_fault hash settled) (state_of conflicting).
Proof.
  split; [vm_compute; reflexivity|].
  apply (refused_event_changes_only_the_inbox no_fault hash settled
    (event "e2" "1" EX_SETTLED 2 100 (Some 90)) (at_ 4) (result_of no_result conflicting)).
  - vm_compute. reflexivity.
  - vm_compute. reflexivity.
Defined.

Abbreviation settling :=
  (apply_normalized_broker_event no_fault (event "e1" "1" EX_SETTLED 1 100 (Some (-100))) (at_ 3)
    (db_after no_fault hash accepted)).

Lemma replayed_event_is_a_noop_witness :
  ar_status (result_of no_result settling) = EV_APPLIED /\
  exists st, apply_normalized_broker_event no_fault (event "e1" "1" EX_SETTLED 1 100 (Some (-100)))
    (at_ 5) (state_of settling) = Ok (mk_BrokerEventApplyResult EV_DUPLICATE st None, state_of settling).
Proof.
  split; [vm_compute; reflexivity|].
  apply (replayed_event_is_a_noop no_fault (event "e1" "1" EX_SETTLED 1 100 (Some (-100))) (at_ 3)
    (at_ 5) (db_after no_fault hash accepted) (result_of no_result settling)).
  - vm_compute. reflexivity.
  - vm_compute. discriminate.
Defined.

Lemma applied_event_effect_witness :
  exists o o', o ∈ orders (db_after no_fault hash accepted) /\ o' ∈ orders (state_of settling) /\
    o_order_id o' = o_order_id o /\ ar_order_state (result_of no_result settling) = Some (o_state o').
Proof.
  destruct (applied_event_effect no_fault hash accepted (event "e1" "1" EX_SETTLED 1 100 (Some (-100)))
    (at_ 3) (result_of no_result settling) (state_of settling)) as
    (o & t & o' & Ho & _ & _ & _ & _ & _ & Ho' & Eo & _ & Er & _).
  - vm_compute. reflexivity.
  - vm_compute. reflexivity.
  - exists o, o'. auto.
Defined.
