(* ===== verification/ReconProps.v ===== *)
(** * Reconciliation of ambiguous orders in the store

    What [apply_reconciliation_evidence] and [apply_reconciliation_not_found] do
    to a reachable database: nothing but the attempt and the evidence tables
    unless they resolve, and they resolve only with a matching proof. *)

From S2P Require Import Prelude Datetime Dec Domain StateDb Writer WriterInv WriterOps WriterProps EventProps.

Section reconciliation.
Variable inject : string -> option exn.
Variable payload_hash : payload -> string.

(** The four tables and the digit row as one value. *)
Definition books (s : state_db) :=
  (trade_intents s, orders s, risk_reservations s, outbox_messages s, digit_risk_runtime s).

Lemma books_same s s' : books s' = books s -> same_books s s'.
Proof. by intros [= ? ? ? ? ?]. Qed.

Lemma t_books_attempt v a f :
  triple (fun s => books s = v) (update_started_attempt a f) (fun _ s => books s = v).
Proof.
  unfold update_started_attempt. eapply t_bind; [apply t_gets_keep|intros n].
  eapply t_bind; [proj_frame|intros ?]. apply t_guard_keep.
Qed.

Lemma t_books_finish v a r rc c e :
  triple (fun s => books s = v) (finish_reconciliation_attempt a r rc c e) (fun _ s => books s = v).
Proof.
  unfold finish_reconciliation_attempt. eapply t_bind; [apply t_foreign|intros ?]. apply t_books_attempt.
Qed.

Lemma t_books_insert v r :
  triple (fun s => books s = v) (insert_evidence r) (fun _ s => books s = v).
Proof. unfold insert_evidence. t_solve. proj_frame. Qed.

Lemma finish_attempt_books a r rc c e s u s' :
  finish_reconciliation_attempt a r rc c e s = Ok (u, s') -> same_books s s'.
Proof. intros H. by eapply t_books_finish, books_same in H. Qed.

Lemma finish_conflict_books a o c r e s x s' :
  finish_reconciliation_conflict a o c r e s = Ok (x, s') -> same_books s s' /\ rc_status x = RC_CONFLICT.
Proof.
  intros H. unfold finish_reconciliation_conflict in H. monad_inv H. split; [|done].
  by eapply finish_attempt_books.
Qed.

(** *** NOT_FOUND *)

(** The latest confirmed absence found by [prior_not_found]. *)
Lemma prior_not_found_Some a k s p c :
  prior_not_found a k s = Some (p, c) ->
  exists at_, at_ ∈ reconciliation_attempts s /\ ra_attempt_id at_ = p /\ p <> a /\
    ra_order_id at_ = k /\ ra_result at_ = "UNRESOLVED" /\
    ra_reason_code at_ = Some not_found_reason /\ ra_completed_at at_ = Some c.
Proof.
  unfold prior_not_found. intros H%head_Some_elem_of.
  apply elem_of_sort_by, list_elem_of_omap in H as (at_ & Hin & H).
  destruct (andb _ _) eqn:E in H; [|done]. apply fmap_Some in H as (c' & Hc & [= -> ->]).
  rewrite !andb_true_iff, negb_true_iff, !bool_decide_eq_true, bool_decide_eq_false in E.
  destruct E as [[[? ?] ?] ?]. eauto 10.
Qed.

(** The proof of absence that resolves an order. *)
Definition absence_proven (s : state_db) (a : string) (o : Order) (observed_at : datetime)
    (grace interval : Z) : Prop :=
  o_state o = UNKNOWN /\
  (exists submitted_at, fromisoformat (o_created_at o) = Ok submitted_at /\
     grace <= usec_between observed_at submitted_at) /\
  (exists prior completed_at t, prior ∈ reconciliation_attempts s /\ ra_attempt_id prior <> a /\
     ra_order_id prior = o_order_id o /\ ra_result prior = "UNRESOLVED" /\
     ra_reason_code prior = Some not_found_reason /\ ra_completed_at prior = Some completed_at /\
     fromisoformat completed_at = Ok t /\ interval <= usec_between observed_at t).

Lemma apply_not_found_inv a ev g c at_ s r s' :
  apply_reconciliation_not_found inject a ev g c at_ s = Ok (r, s') ->
  (rc_status r <> RC_RESOLVED /\ same_books s s') \/
  (rc_status r = RC_RESOLVED /\ exists o prior, o ∈ orders s /\
     absence_proven s a o (nf_observed_at ev) g c /\
     resolve_not_found inject a prior o at_ s = Ok (r, s')).
Proof.
  intros H. unfold apply_reconciliation_not_found in H.
  apply st_bind_Ok in H as (row & s1 & [-> ->]%st_gets_Ok & H).
  destruct (fetchone (attempt_started a) _) as [att|] eqn:Eatt; [|done]. cbn [mbind option_bind] in H.
  destruct (fetchone _ (orders s)) as [o|] eqn:Eo; [|done]. apply fetchone_Some in Eo as [Ho _].
  assert (forall res_ rc tm (x : ReconciliationApplyResult), rc_status x <> RC_RESOLVED ->
    (finish_reconciliation_attempt a res_ rc tm None ≫= (fun _ => mret x)) s = Ok (r, s') ->
    rc_status r <> RC_RESOLVED /\ same_books s s') as Hfin.
  { intros res_ rc tm x Hx H'. monad_inv H'. split; [done|]. by eapply finish_attempt_books. }
  destruct (andb _ _) in H; [left; by eapply Hfin; [|exact H]|].
  apply st_bind_Ok in H as (sub & s1 & [Esub ->]%st_lift_Ok & H).
  apply st_bind_Ok in H as (prior & s1 & [-> ->]%st_gets_Ok & H).
  apply st_bind_Ok in H as (conf & s1 & [Econf ->]%st_lift_Ok & H).
  destruct conf as [prior_id|]; [|left; by eapply Hfin; [|exact H]].
  destruct (andb _ _) eqn:Eg in H; [|left; by eapply Hfin; [|exact H]].
  right. split.
  { unfold resolve_not_found in H. by monad_inv H. }
  exists o, prior_id. split; [done|]. split; [|done].
  apply andb_true_iff in Eg as [Hu%bool_decide_eq_true Hg%Z.leb_le].
  split; [done|]. split; [eauto|].
  destruct (prior_not_found a (o_order_id o) s) as [[p cpl]|] eqn:Ep; [|done].
  apply prior_not_found_Some in Ep as (pa & ? & ? & ? & ? & ? & ? & ?).
  apply res_bind_Ok in Econf as (t & Et & [= E]). case_match eqn:Ec; [|done].
  apply Z.leb_le in Ec. exists pa, cpl, t. split_and!; try done. congruence.
Qed.

(** *** Following one order through the transitions *)

(** The order [k] of intent [i] has a row that satisfies [Phi]. *)
Definition tracked (k i : string) (Phi : Order -> Prop) (s : state_db) : Prop :=
  exists o, o ∈ orders s /\ o_order_id o = k /\ o_intent_id o = i /\ Phi o.

Lemma t_track_transition k i new at_ boid pnl Phi :
  triple (fun s => struct_inv s /\
      tracked k i (fun o => o_state o <> new /\ Phi (transitioned new (isoformat at_) boid pnl o)) s)
    (transition_order i new at_ boid pnl) (fun _ s => struct_inv s /\ tracked k i Phi s).
Proof.
  intros s u s' [Hst (o & Ho & Ek & Ei & Hne & HPhi)] H. split.
  - apply transition_order_Ok in H as (o1 & _ & [[_ ->]|(_ & _ & ->)]); [done|].
    eapply struct_inv_static; [|done]. by apply Inv_static_orders.
  - destruct (transition_elem _ _ _ _ _ _ _ _ o Hst H Ho Ei) as [[? _]|[_ Hin]]; [done|].
    eexists. by split; [exact Hin|].
Qed.

Lemma t_track_update k i f Phi :
  (forall o, order_static (f o) = order_static o) ->
  triple (tracked k i (fun o => Phi (f o))) (update_order k f) (fun _ => tracked k i Phi).
Proof.
  intros Hf. apply t_modify. intros s (o & Ho & Ek & Ei & HPhi). exists (f o). simpl.
  pose proof (Hf o) as [= ? ? _ _ _ _]. split_and!; try congruence. apply elem_of_update_where. exists o.
  by rewrite bool_decide_true.
Qed.

(** What does not write the orders table keeps the row. *)
Lemma t_track_orders {A} k i Phi (m : db_m A) :
  (forall v, triple (fun s => orders s = v) m (fun _ s => orders s = v)) ->
  triple (tracked k i Phi) m (fun _ => tracked k i Phi).
Proof. intros Hm s a s' HT H. unfold tracked. by rewrite (Hm _ _ _ _ eq_refl H). Qed.

Lemma t_track_frame k i Phi f :
  (forall s, orders (f s) = orders s) -> triple (tracked k i Phi) (st_modify f) (fun _ => tracked k i Phi).
Proof. intros Hf. apply t_track_orders. intros v. by apply t_proj_frame. Qed.

Lemma t_track_finish k i Phi a r rc c e :
  triple (tracked k i Phi) (finish_reconciliation_attempt a r rc c e) (fun _ => tracked k i Phi).
Proof.
  apply t_track_orders. intros v s u s' <- H. by apply finish_attempt_books in H as (_ & -> & _).
Qed.

Lemma resolve_not_found_tracked a prior o at_ :
  o_state o = UNKNOWN ->
  triple (fun s => struct_inv s /\ tracked (o_order_id o) (o_intent_id o) (fun o' => o' = o) s)
    (resolve_not_found inject a prior o at_)
    (fun _ => tracked (o_order_id o) (o_intent_id o)
      (fun o' => o_state o' = REJECTED /\ o_resolution_source o' = Some "STATUS_QUERY")).
Proof.
  intros Eu. unfold resolve_not_found. set (k := o_order_id o). set (i := o_intent_id o).
  eapply t_bind.
  { eapply t_conseq; [apply (t_track_transition k i _ _ _ _ (fun o' => o_state o' = RECONCILING))| |done].
    intros x [Hx (o1 & ? & ? & ? & ->)]. split; [done|]. exists o. split_and!; try done. by rewrite Eu. }
  intros ?. cbv beta. eapply t_bind.
  { eapply t_conseq; [apply (t_track_transition k i _ _ _ _ (fun o' => o_state o' = REJECTED))| |done].
    intros x [Hx (o1 & ? & ? & ? & E)]. split; [done|]. exists o1. split_and!; try done. by rewrite E. }
  intros ?. cbv beta. eapply t_bind.
  { eapply t_conseq; [apply (t_track_update k i _ (fun o' => o_state o' = REJECTED /\
      o_resolution_source o' = Some "STATUS_QUERY")); done| |by intros ? x Hx; exact Hx].
    intros x [_ (o1 & ? & ? & ? & E)]. by exists o1. }
  intros ?. eapply t_bind; [by apply t_track_frame|intros ?].
  eapply t_bind; [by apply t_track_frame|intros ?].
  eapply t_bind; [apply t_track_finish|intros ?]. t_solve.
Qed.

(** C22: an absent order is finalized only with a proof of absence.  A NOT_FOUND
    report changes orders, reservations, outbox and intents only when it resolves;
    then the order was UNKNOWN, the grace period since its submission had passed,
    and another attempt had already confirmed the absence at least one
    confirmation interval earlier; the order ends REJECTED. *)
Theorem not_found_needs_two_confirmations ops a ev g c at_ r s' :
  apply_reconciliation_not_found inject a ev g c at_ (db_after inject payload_hash ops) = Ok (r, s') ->
  (rc_status r <> RC_RESOLVED /\ same_books (db_after inject payload_hash ops) s') \/
  (rc_status r = RC_RESOLVED /\ exists o, o ∈ orders (db_after inject payload_hash ops) /\
     absence_proven (db_after inject payload_hash ops) a o (nf_observed_at ev) g c /\
     tracked (o_order_id o) (o_intent_id o)
       (fun o' => o_state o' = REJECTED /\ o_resolution_source o' = Some "STATUS_QUERY") s').
Proof.
  pose proof (db_after_ok inject payload_hash ops) as Hok. set (s := db_after _ _ ops) in *.
  intros [H|(Hr & o & prior & Ho & Habs & H)]%apply_not_found_inv; [by left|right].
  split; [done|]. exists o. split_and!; [done|done|]. destruct Habs as [Hu _].
  eapply resolve_not_found_tracked; [exact Hu| |exact H]. split; [apply Hok|by exists o].
Qed.

(** *** Evidence *)

(** The comparison that evidence passed. *)
Definition evidence_about (ev : ReconciliationEvidence) (o : Order) (t : TradeIntent) : Prop :=
  ev_client_order_ref ev = o_order_id o /\ ev_broker ev = o_broker o /\
  ev_account_id ev = o_account_id o /\ ev_product ev = ti_product t /\
  ev_symbol ev = ti_symbol t /\ ev_direction ev = ti_direction t /\
  minor_units (ev_amount ev) = ti_amount_minor t /\ currency (ev_amount ev) = ti_currency t.

Lemma matching_reason_None o t ev :
  matching_conflict_reason (o, t) ev = None -> evidence_about ev o t.
Proof.
  unfold matching_conflict_reason. destruct (first_mismatch _) eqn:Ef; [done|].
  apply first_mismatch_None in Ef.
  repeat (apply Forall_cons in Ef as [H Ef]; apply bool_decide_eq_true in H; revert H).
  intros. by split_and!.
Qed.

Lemma check_previous_inv a o ev at_ s r s' :
  check_previous_evidence a o ev at_ s = Ok (r, s') ->
  same_books s s' /\ (forall x, r = Some x -> rc_status x <> RC_RESOLVED).
Proof.
  intros H. unfold check_previous_evidence in H.
  destruct (o_resolution_evidence_id o) as [p|]; [|by monad_inv H].
  apply st_bind_Ok in H as (prev & s1 & [-> ->]%st_gets_Ok & H).
  destruct (fetchone _ _) as [e|]; [|done]. case_bool_decide.
  { apply st_bind_Ok in H as (u & s1 & Hf%finish_attempt_books & [-> ->]%st_ret_Ok).
    split; [done|]. by intros x [= <-]. }
  destruct (andb _ _); [|by monad_inv H].
  apply st_bind_Ok in H as (x & s1 & [Hf Hx]%finish_conflict_books & [-> ->]%st_ret_Ok).
  split; [done|]. intros y [= <-]. by rewrite Hx.
Qed.

Lemma same_books_trans s1 s2 s3 : same_books s1 s2 -> same_books s2 s3 -> same_books s1 s3.
Proof. unfold same_books. intros (? & ? & ? & ? & ?) (? & ? & ? & ? & ?). split_and!; congruence. Qed.

Lemma apply_evidence_inv a ev at_ s r s' :
  apply_reconciliation_evidence inject payload_hash a ev at_ s = Ok (r, s') ->
  (rc_status r <> RC_RESOLVED /\ same_books s s') \/
  (exists o t target s1, same_books s s1 /\ o ∈ orders s /\ t ∈ trade_intents s /\
     ti_intent_id t = o_intent_id o /\ evidence_about ev o t /\
     order_state_for_external_status (ev_external_status ev) = Ok target /\
     resolve_with_evidence inject a o t ev target at_ s1 = Ok (r, s')).
Proof.
  intros H. unfold apply_reconciliation_evidence in H.
  apply st_bind_Ok in H as (row & s1 & [-> ->]%st_gets_Ok & H).
  destruct (started_attempt_order a s) as [[o t]|] eqn:Erow; [|done].
  apply st_bind_Ok in H as (ex & s1 & [-> ->]%st_gets_Ok & H).
  set (ex := fetchone _ (reconciliation_evidence s)) in *.
  match type of H with (if ?c then _ else _) _ = _ => destruct c end.
  { left. apply finish_conflict_books in H as [? E]. by rewrite E. }
  apply st_bind_Ok in H as (u & s1 & Hins & H).
  assert (same_books s s1) as Hb1.
  { destruct ex; [by monad_inv Hins|].
    apply st_bind_Ok in Hins as (u' & s2 & Hi & ->%inject_at_Ok). by eapply t_books_insert, books_same in Hi. }
  destruct (matching_conflict_reason (o, t) ev) eqn:Em.
  { left. apply finish_conflict_books in H as [? E]. rewrite E. split; [done|]. by eapply same_books_trans. }
  apply matching_reason_None in Em.
  apply st_bind_Ok in H as (early & s2 & [Hb2 He]%check_previous_inv & H).
  pose proof (same_books_trans _ _ _ Hb1 Hb2) as Hb. destruct early as [x|].
  { apply st_ret_Ok in H as [-> ->]. left. auto. }
  destruct (order_state_for_external_status _) as [target|exn0] eqn:Et.
  - right. exists o, t, target, s2. unfold started_attempt_order in Erow. simplify_option_eq.
    apply order_with_intent_Some in Erow as (? & _ & ? & ?). split; [done|]. split; [done|].
    split; [done|]. split; [done|]. done.
  - left. apply st_bind_Ok in H as (u' & s3 & Hf%finish_attempt_books & [-> ->]%st_ret_Ok).
    split; [done|]. by eapply same_books_trans.
Qed.

(** Evidence that does not resolve an attempt (it names another order, another
    amount, a status that contradicts the evidence accepted before, an unknown
    external status, or it was already applied) moves no order, releases no
    reservation and settles nothing. *)
Theorem refused_evidence_changes_no_books a ev at_ s r s' :
  apply_reconciliation_evidence inject payload_hash a ev at_ s = Ok (r, s') ->
  rc_status r <> RC_RESOLVED -> same_books s s'.
Proof.
  intros [[_ Hb]|(o & t & target & s1 & _ & _ & _ & _ & _ & _ & H)]%apply_evidence_inv Hr; [done|].
  exfalso. apply Hr. unfold resolve_with_evidence in H.
  repeat (apply st_bind_Ok in H as (? & ? & _ & H)). by apply st_ret_Ok in H as [-> _].
Qed.

(** The row of the order after the transitions of [resolve_with_evidence]. *)
Definition reopened (at_ : datetime) (o : Order) : Order :=
  if bool_decide (o_state o ∈ [UNKNOWN; SETTLEMENT_UNKNOWN])
  then transitioned RECONCILING (isoformat at_) None None o else o.
Definition moved_by (ev : ReconciliationEvidence) (target : OrderState) (at_ : datetime) (o : Order)
    : Order :=
  if bool_decide (o_state (reopened at_ o) = target) then reopened at_ o
  else transitioned target (isoformat at_) (ev_broker_order_id ev) (ev_realized_pnl_minor ev)
         (reopened at_ o).

Lemma reopened_state at_ o :
  o_state (reopened at_ o) =
  if bool_decide (o_state o ∈ [UNKNOWN; SETTLEMENT_UNKNOWN]) then RECONCILING else o_state o.
Proof. unfold reopened. by case_bool_decide. Qed.

Lemma moved_by_state ev target at_ o : o_state (moved_by ev target at_ o) = target.
Proof. unfold moved_by. by case_bool_decide. Qed.

Lemma t_ret_weaken {A} (a : A) (P Q : state_db -> Prop) :
  (forall s, P s -> Q s) -> triple P (mret a) (fun _ => Q).
Proof. intros H s b s' HP [_ ->]%st_ret_Ok. auto. Qed.

Lemma resolve_with_evidence_tracked a o t ev target at_ :
  triple (fun s => struct_inv s /\ tracked (o_order_id o) (o_intent_id o) (fun o' => o' = o) s)
    (resolve_with_evidence inject a o t ev target at_)
    (fun r s => rc_order_state r = target /\ tracked (o_order_id o) (o_intent_id o)
      (fun o' => o' = evidence_resolved ev at_ (moved_by ev target at_ o)) s).
Proof.
  unfold resolve_with_evidence. set (k := o_order_id o). set (i := o_intent_id o). cbv zeta.
  set (final := fun o' => o' = evidence_resolved ev at_ (moved_by ev target at_ o)).
  eapply (t_bind _ (fun _ s => struct_inv s /\ tracked k i (fun o' => o' = reopened at_ o) s)).
  { unfold reopened. case_bool_decide as Hin; [|apply t_ret].
    eapply t_conseq; [apply (t_track_transition k i RECONCILING at_ None None (fun o' => o' =
      transitioned RECONCILING (isoformat at_) None None o))| |done].
    intros x [Hx (o1 & ? & ? & ? & ->)]. split; [done|]. exists o. split_and!; try done.
    intros E. rewrite E in Hin. by apply (bool_decide_eq_true _) in Hin. }
  intros ?. rewrite <- (reopened_state at_ o).
  eapply (t_bind _ (fun _ s => tracked k i (fun o' => o' = moved_by ev target at_ o) s)).
  { unfold moved_by. case_bool_decide as Hcur; [by apply t_ret_weaken; intros ? []|].
    eapply t_conseq; [apply (t_track_transition k i target at_ _ _ (fun o' => o' =
      transitioned target (isoformat at_) (ev_broker_order_id ev) (ev_realized_pnl_minor ev)
        (reopened at_ o)))| |by intros ? ? []].
    intros x [Hx (o1 & ? & ? & ? & ->)]. split; [done|]. by exists (reopened at_ o). }
  intros ?. eapply t_bind; [apply t_foreign|intros ?]. eapply (t_bind _ (fun _ => tracked k i final)).
  { eapply t_conseq; [apply (t_track_update k i _ final); done| |done].
    intros x (o1 & ? & ? & ? & ->). by eexists. }
  intros ?. eapply t_bind; [by apply t_track_frame|intros ?].
  eapply (t_bind _ (fun _ => tracked k i final)).
  { destruct (is_terminal target); [by apply t_track_frame|apply t_ret]. }
  intros ?. eapply (t_bind _ (fun _ => tracked k i final)).
  { destruct (ev_realized_pnl_minor ev); [|apply t_ret]. case_match; [|apply t_ret].
    apply t_track_orders. intros v. by apply t_proj_digit. }
  intros ?. eapply t_bind; [apply t_track_finish|intros ?]. eapply t_bind; [apply t_inject|intros ?].
  by intros s r s' HT [-> ->]%st_ret_Ok.
Qed.

(** Evidence that resolves an attempt is about the order of the attempt and
    took effect on it: it agrees with the order on reference, broker, account, product, symbol, direction,
    amount and currency; the order is now in the state the evidence reports, which
    is the one returned, with the evidence as its resolution and the broker's order
    id when the evidence has one; an order that was not yet SETTLED takes the
    reported P&L. *)
Theorem resolving_evidence_effect ops a ev at_ r s' :
  apply_reconciliation_evidence inject payload_hash a ev at_ (db_after inject payload_hash ops)
    = Ok (r, s') ->
  rc_status r = RC_RESOLVED ->
  exists o t o', o ∈ orders (db_after inject payload_hash ops) /\
    t ∈ trade_intents (db_after inject payload_hash ops) /\ ti_intent_id t = o_intent_id o /\
    evidence_about ev o t /\ o' ∈ orders s' /\ o_order_id o' = o_order_id o /\
    order_state_for_external_status (ev_external_status ev) = Ok (o_state o') /\
    rc_order_state r = o_state o' /\ o_resolution_evidence_id o' = Some (ev_evidence_id ev) /\
    (forall b, ev_broker_order_id ev = Some b -> o_broker_order_id o' = Some b) /\
    (forall pnl, ev_realized_pnl_minor ev = Some pnl -> o_state o <> SETTLED ->
       o_state o' = SETTLED -> o_realized_pnl_minor o' = Some pnl).
Proof.
  pose proof (db_after_ok inject payload_hash ops) as Hok. set (s := db_after _ _ ops) in *.
  intros [[? _]|(o & t & target & s1 & Hb & Ho & Ht & Eti & Hab & Etgt & H)]%apply_evidence_inv Hr; [done|].
  apply resolve_with_evidence_tracked in H as (Er & o' & Ho' & Eo' & _ & ->).
  2: { destruct Hb as (Ei & Eo & Err & Eob & _). split; [|exists o; by rewrite Eo].
    eapply struct_inv_static; [|apply Hok]. unfold static_eq. by rewrite Ei, Eo, Err, Eob. }
  exists o, t, (evidence_resolved ev at_ (moved_by ev target at_ o)).
  do 4 (split; [done|]). split; [exact Ho'|]. split; [exact Eo'|]. cbn [o_state evidence_resolved].
  assert (o_state (evidence_resolved ev at_ (moved_by ev target at_ o)) = target) as Es
    by apply moved_by_state.
  rewrite Es. do 2 (split; [done|]). split; [done|]. split.
  { intros b Eb. simpl. by rewrite Eb. }
  intros pnl Ep Hns ->. simpl. unfold moved_by. rewrite bool_decide_false.
  - simpl. by rewrite Ep.
  - rewrite reopened_state. by case_bool_decide.
Qed.
End reconciliation.

(** ** Witnesses *)

Import Sample.

(** An order whose dispatch timed out, with one attempt that found nothing. *)
Definition unknown_order : list writer_op := [
  OpConfigureDigit policy false (at_ 0); submit 100 "A1" "1"; OpClaim (at_ 1) None None;
  OpDispatchResult (command 100 "A1" "m1" "i1" "o1") "TIMEOUT_AFTER_POSSIBLE_SEND" None None (at_ 1);
  OpBeginAttempt "a1" "o1" "corr" (at_ 2)].
Definition absent (minute : Z) : NotFoundEvidence := mk_NotFoundEvidence (at_ minute) true true.
Definition minutes (n : Z) : Z := n * 60000000.

Definition confirmed_once : list writer_op :=
  unknown_order ++ [OpNotFound "a1" (absent 3) (minutes 2) (minutes 1) (at_ 3);
                    OpBeginAttempt "a2" "o1" "corr" (at_ 5)].

Abbreviation second_absence :=
  (apply_reconciliation_not_found no_fault "a2" (absent 6) (minutes 2) (minutes 1) (at_ 6)
    (db_after no_fault hash confirmed_once)).

Definition no_outcome : ReconciliationApplyResult :=
  mk_ReconciliationApplyResult RC_CONFLICT OUTBOXED None.

Lemma not_found_needs_two_confirmations_witness :
  rc_status (result_of no_outcome second_absence) = RC_RESOLVED /\
  exists o, o ∈ orders (db_after no_fault hash confirmed_once) /\
    tracked (o_order_id o) (o_intent_id o)
      (fun o' => o_state o' = REJECTED /\ o_resolution_source o' = Some "STATUS_QUERY")
      (state_of second_absence).
Proof.
  split; [vm_compute; reflexivity|].
  destruct (not_found_needs_two_confirmations no_fault hash confirmed_once "a2" (absent 6) (minutes 2)
    (minutes 1) (at_ 6) (result_of no_outcome second_absence) (state_of second_absence))
    as [[Hr _]|(_ & o & Ho & _ & HT)].
  - vm_compute. reflexivity.
  - exfalso. apply Hr. vm_compute. reflexivity.
  - exists o. split; [exact Ho|exact HT].
Defined.

Definition evidence (id : string) (n : Z) (st : ExternalOrderStatus) (pnl : option Z)
    : ReconciliationEvidence :=
  mk_ReconciliationEvidence id STATUS_QUERY (at_ 4) "o1" (Some "B1") st DERIV "A1" "DIGITEVEN"
    "R_100" CALL (usd n) 1 pnl None.

Abbreviation wrong_amount :=
  (apply_reconciliation_evidence no_fault hash "a1" (evidence "v1" 101 EX_SETTLED (Some 90)) (at_ 4)
    (db_after no_fault hash unknown_order)).

Lemma refused_evidence_changes_no_books_witness :
  rc_reason_code (result_of no_outcome wrong_amount) = Some "AMOUNT_CONFLICT" /\
  same_books (db_after no_fault hash unknown_order) (state_of wrong_amount).
Proof.
  split; [vm_compute; reflexivity|].
  apply (refused_evidence_changes_no_books no_fault hash "a1"
    (evidence "v1" 101 EX_SETTLED (Some 90)) (at_ 4) _ (result_of no_outcome wrong_amount)).
  - vm_compute. reflexivity.
  - vm_compute. discriminate.
Defined.

Abbreviation resolving :=
  (apply_reconciliation_evidence no_fault hash "a1" (evidence "v1" 100 EX_SETTLED (Some 90)) (at_ 4)
    (db_after no_fault hash unknown_order)).

Lemma resolving_evidence_effect_witness :
  exists o', o' ∈ orders (state_of resolving) /\
    rc_order_state (result_of no_outcome resolving) = o_state o' /\
    o_resolution_evidence_id o' = Some "v1".
Proof.
  destruct (resolving_evidence_effect no_fault hash unknown_order "a1"
    (evidence "v1" 100 EX_SETTLED (Some 90)) (at_ 4) (result_of no_outcome resolving)
    (state_of resolving)) as (o & t & o' & _ & _ & _ & _ & Ho' & _ & _ & Er & Eid & _).
  - vm_compute. reflexivity.
  - vm_compute. reflexivity.
  - exists o'. auto.
Defined.

(** ** Contradicting settlements

    The settled order of [settled] (loss of 100 reported by an event), reconciled
    with evidence of a gain of 90: the attempt ends RESOLVED with the stored loss,
    where the event path reports a settlement conflict. *)
Abbreviation late_evidence :=
  (apply_reconciliation_evidence no_fault hash "a1" (evidence "v1" 100 EX_SETTLED (Some 90)) (at_ 5)
    (db_after no_fault hash (settled ++ [OpBeginAttempt "a1" "o1" "corr" (at_ 4)]))).

Example contradicting_settlement_resolves :
  rc_status (result_of no_outcome late_evidence) = RC_RESOLVED /\
  o_realized_pnl_minor (order_at 0 (state_of late_evidence)) = Some (-100) /\
  ar_reason_code (result_of no_result conflicting) = Some "BROKER_EVENT_SETTLEMENT_CONFLICT".
Proof. vm_compute. auto. Qed.
