(* ===== verification/Reader.v ===== *)
(** * Read-only projections of state.db

    [packages/persistence/reader.py]: the queries the core uses on the tables of
    [StateDb].  A query returns its rows as records or tuples of the selected
    columns, in the order of its [ORDER BY]. *)

From S2P Require Import Prelude Datetime Dec Domain StateDb Writer WriterInv WriterOps WriterProps.

(** [ORDER BY created_at] *)
Definition by_created {R} (created : R -> string) (a b : R) : bool := str_leb (created a) (created b).

(** [count(table)] *)
Definition count (table : string) (s : state_db) : res Z :=
  let n {R} (t : list R) := Ok (Z.of_nat (length t)) in
  if bool_decide (table = "trade_intents") then n (trade_intents s)
  else if bool_decide (table = "risk_reservations") then n (risk_reservations s)
  else if bool_decide (table = "outbox_messages") then n (outbox_messages s)
  else if bool_decide (table = "orders") then n (orders s)
  else if bool_decide (table = "processed_order_events") then n (processed_order_events s)
  else if bool_decide (table = "reconciliation_attempts") then n (reconciliation_attempts s)
  else if bool_decide (table = "reconciliation_evidence") then n (reconciliation_evidence s)
  else if bool_decide (table = "broker_order_events") then n (broker_order_events s)
  else if bool_decide (table = "digit_risk_runtime") then
    Ok (match digit_risk_runtime s with Some _ => 1 | None => 0 end)
  else Err (ValueError "unsupported table").

Definition order_for_intent (intent_id : string) (s : state_db) : option Order :=
  fetchone (fun o => bool_decide (o_intent_id o = intent_id)) (orders s).

Definition reservation_for_intent (intent_id : string) (s : state_db) : option Reservation :=
  fetchone (fun r => bool_decide (rr_intent_id r = intent_id)) (risk_reservations s).

Definition outbox_for_intent (intent_id : string) (s : state_db) : option OutboxMessage :=
  fetchone (fun m => bool_decide (om_intent_id m = intent_id)) (outbox_messages s).

(** [list_by_state], one function per table it accepts. *)
Definition orders_by_state (st : OrderState) (s : state_db) : list Order :=
  sort_by (by_created o_created_at) (select (fun o => bool_decide (o_state o = st)) (orders s)).

Definition reservations_by_state (st : RiskReservationState) (s : state_db) : list Reservation :=
  sort_by (by_created rr_created_at)
    (select (fun r => bool_decide (rr_state r = st)) (risk_reservations s)).

Definition outbox_by_state (st : OutboxState) (s : state_db) : list OutboxMessage :=
  sort_by (by_created om_created_at)
    (select (fun m => bool_decide (om_state m = st)) (outbox_messages s)).

(** Orders joined with their intents. *)
Definition orders_with_intents (s : state_db) : list (Order * TradeIntent) :=
  omap (fun o => join_intent o s) (orders s).

Definition list_nonterminal_orders (s : state_db) : list (Order * TradeIntent) :=
  sort_by (by_created (fun x => o_created_at (fst x)))
    (select (fun x => negb (is_terminal (o_state (fst x)))) (orders_with_intents s)).

(** A row of the two reconciliation queries: order, intent, message, reservation. *)
Definition join_all (s : state_db) (o : Order)
    : option (Order * TradeIntent * OutboxMessage * Reservation) :=
  t ← fetchone (fun t => bool_decide (ti_intent_id t = o_intent_id o)) (trade_intents s);
  m ← outbox_for_intent (o_intent_id o) s;
  r ← reservation_for_intent (o_intent_id o) s;
  Some (o, t, m, r).

(** [NOT EXISTS (SELECT 1 ... WHERE ra.order_id = o.order_id AND ra.result = 'CONFLICT')] *)
Definition has_conflict (s : state_db) (o : Order) : bool :=
  exists_row (fun a => bool_decide (ra_order_id a = o_order_id o) && bool_decide (ra_result a = "CONFLICT"))
    (reconciliation_attempts s).

Definition is_candidate (s : state_db) (o : Order) : bool :=
  bool_decide (o_state o ∈ [ACCEPTED; OPEN; UNKNOWN; SETTLEMENT_UNKNOWN]) && negb (has_conflict s o).

Definition list_reconciliation_candidates (s : state_db)
    : list (Order * TradeIntent * OutboxMessage * Reservation) :=
  sort_by (by_created (fun x => o_created_at (fst (fst (fst x)))))
    (omap (join_all s) (select (is_candidate s) (orders s))).

Definition reconciliation_candidate (order_id : string) (s : state_db)
    : option (Order * TradeIntent * OutboxMessage * Reservation) :=
  head (omap (join_all s) (select (fun o => bool_decide (o_order_id o = order_id)) (orders s))).

Definition reconciliation_attempts_for_order (order_id : string) (s : state_db) : list Attempt :=
  sort_by (fun a b =>
      match String.compare (ra_started_at a) (ra_started_at b) with
      | Lt => true | Gt => false | Eq => str_leb (ra_attempt_id a) (ra_attempt_id b) end)
    (select (fun a => bool_decide (ra_order_id a = order_id)) (reconciliation_attempts s)).

Definition reconciliation_evidence_for_order (order_id : string) (s : state_db) : list EvidenceRow :=
  sort_by (fun a b =>
      match String.compare (isoformat (ev_observed_at (re_evidence a)))
                           (isoformat (ev_observed_at (re_evidence b))) with
      | Lt => true | Gt => false | Eq => str_leb (re_evidence_id a) (re_evidence_id b) end)
    (select (fun e => bool_decide (re_order_id e = order_id)) (reconciliation_evidence s)).

Definition broker_events_for_order (order_id : string) (s : state_db) : list BrokerEventRow :=
  sort_by (fun a b =>
      match String.compare (bv_created_at a) (bv_created_at b) with
      | Lt => true | Gt => false | Eq => str_leb (bv_event_id a) (bv_event_id b) end)
    (select (fun r => bool_decide (bv_order_id r = Some order_id)) (broker_order_events s)).

(** The counters of the financial effects of an order. *)
Definition financial_effect_counts (order_id : string) (s : state_db) : res (Z * Z) :=
  match head (omap (fun o => (fun r => (o_pnl_application_count o, rr_release_count r)) <$>
                      reservation_for_intent (o_intent_id o) s)
                (select (fun o => bool_decide (o_order_id o = order_id)) (orders s))) with
  | Some counts => Ok counts
  | None => Err (ValueError "order not found")
  end.

(** [d.astimezone(UTC)] *)
Definition astimezone_utc (d : datetime) (offset : Z) : datetime :=
  let t := add_usec d (- offset) in
  mk_datetime (dt_year t) (dt_month t) (dt_day t) (dt_hour t) (dt_minute t) (dt_second t)
    (dt_micro t) (Some 0).

Definition digit_test_session_started_at (s : state_db) : res (option datetime) :=
  match digit_risk_runtime s ≫= dr_session_started_at with
  | None => Ok None
  | Some raw =>
      match fromisoformat raw with
      | Err _ => Err (ValueError "digit test session boundary is invalid")
      | Ok parsed =>
          match dt_offset parsed with
          | None => Err (ValueError "digit test session boundary is invalid")
          | Some offset => Ok (Some (astimezone_utc parsed offset))
          end
      end
  end.

Definition is_open_deriv_digit (s : state_db) (o : Order) : bool :=
  bool_decide (o_broker o = DERIV) && negb (is_terminal (o_state o)) &&
  match join_intent o s with
  | Some (_, t) => bool_decide (ti_product t ∈ digit_products)
  | None => false
  end.

Definition has_nonterminal_deriv_digit_order (s : state_db) : bool :=
  exists_row (is_open_deriv_digit s) (orders s).

(** [_optional_utc_boundary] *)
Definition optional_utc_boundary (value : option datetime) : res (option string) :=
  match value with
  | None => Ok None
  | Some d => if is_utc d then Ok (Some (isoformat d))
              else Err (ValueError "projection boundary must be timezone-aware UTC")
  end.

Definition after_boundary (boundary : option string) (text : string) : bool :=
  match boundary with None => true | Some b => str_leb b text end.

(** [ui_order_summaries]: [ORDER BY created_at DESC, order_id DESC LIMIT ?] *)
Definition ui_order_summaries (limit : Z) (since_utc : option datetime) (s : state_db)
    : res (list (Order * TradeIntent)) :=
  _ ← guard_res (in_range 1 limit 100) (ValueError "UI order projection limit is outside bounds");
  boundary ← optional_utc_boundary since_utc;
  Ok (take (Z.to_nat limit) (sort_by (fun a b =>
      match String.compare (o_created_at (fst b)) (o_created_at (fst a)) with
      | Lt => true | Gt => false | Eq => str_leb (o_order_id (fst b)) (o_order_id (fst a)) end)
    (select (fun x => after_boundary boundary (o_created_at (fst x))) (orders_with_intents s)))).

(** Settled orders with a P&L, updated at or after the boundary. *)
Definition settled_since (since : string) (s : state_db) : list (string * Z) :=
  omap (fun x => let '(o, t) := x in
      if bool_decide (o_state o = SETTLED) && str_leb since (o_updated_at o)
      then (fun p => (ti_currency t, p)) <$> o_realized_pnl_minor o else None)
    (orders_with_intents s).

(** [GROUP BY currency ORDER BY currency] *)
Definition daily_realized_pnl_by_currency (since_utc : datetime) (s : state_db)
    : res (list (string * Z)) :=
  _ ← guard_res (is_utc since_utc) (ValueError "P&L projection boundary must be timezone-aware UTC");
  let rows := settled_since (isoformat since_utc) s in
  let currencies := sort_by str_leb (elements (list_to_set (fst <$> rows) : gset string)) in
  Ok ((fun c => (c, sumZ (snd <$> List.filter (fun x => bool_decide (fst x = c)) rows))) <$> currencies).

(** ** Exactly-once financial effects *)

Lemma head_omap_Some {A B} (f : A -> option B) l y :
  head (omap f l) = Some y -> exists x, x ∈ l /\ f x = Some y.
Proof.
  induction l as [|x l IH]; [done|]. cbn [omap list_omap]. destruct (f x) as [z|] eqn:E; cbn [head].
  - intros [= ->]. exists x. split; [left|done].
  - intros (x' & Hin & Hx)%IH. exists x'. split; [by right|done].
Qed.

(** The financial effects of an order happen at most once, whatever the history
    of submissions, dispatch results, broker events, reconciliations, recoveries
    and injected faults: the P&L of an order is applied at most once and only when
    it is SETTLED, its reservation is released at most once, and exactly once when
    the order is terminal. *)
Theorem financial_effects_happen_once inject payload_hash ops k p r :
  financial_effect_counts k (db_after inject payload_hash ops) = Ok (p, r) ->
  exists o, o ∈ orders (db_after inject payload_hash ops) /\ o_order_id o = k /\
    0 <= p <= 1 /\ (p = 1 -> o_state o = SETTLED) /\
    0 <= r <= 1 /\ (r = 1 <-> is_terminal (o_state o) = true).
Proof.
  pose proof (db_after_ok inject payload_hash ops) as Hok. set (s := db_after _ _ ops) in *.
  unfold financial_effect_counts. destruct (head _) as [counts|] eqn:E; [|done]. intros [= ->].
  apply head_omap_Some in E as (o & [Ho Ek%bool_decide_eq_true]%elem_of_select & E).
  apply fmap_Some in E as (res0 & Hres & [= -> ->]).
  apply fetchone_Some in Hres as [Hr Ei%bool_decide_eq_true].
  exists o. split; [done|]. split; [done|].
  destruct (inv_orders _ _ _ Hok o Ho) as [Hp1 Hp2], (inv_res _ _ _ Hok res0 Hr) as [Hr1 _].
  split; [rewrite Hp1; destruct (bool_decide (o_realized_pnl_minor o = None)); lia|]. split.
  { intros E. apply Hp2. intros En. by rewrite Hp1, bool_decide_true in E. }
  split; [rewrite Hr1; destruct (bool_decide (rr_state res0 = RELEASED)); lia|]. rewrite Hr1. split.
  - intros E. apply (inv_held _ _ _ Hok o res0 Ho Hr Ei).
    destruct (decide (rr_state res0 = RELEASED)) as [|Hn]; [done|]. by rewrite bool_decide_false in E.
  - intros Ht. destruct (inv_released _ _ _ Hok o res0 Ho Hr Ei Ht) as [Hrel|Hrel]; [|done].
    by rewrite bool_decide_true.
Qed.

Lemma financial_effects_happen_once_witness :
  exists o, o ∈ orders (db_after Sample.no_fault Sample.hash Sample.settled) /\ o_order_id o = "o1" /\
    o_state o = SETTLED.
Proof.
  destruct (financial_effects_happen_once Sample.no_fault Sample.hash Sample.settled "o1" 1 1)
    as (o & Ho & Ek & _ & Hs & _).
  - vm_compute. reflexivity.
  - exists o. split; [exact Ho|]. split; [exact Ek|]. apply Hs. reflexivity.
Defined.
