(* ===== verification/Health.v ===== *)
(** * The health gate

    [apps/core/health.py] and [packages/persistence/health.py]: the set of global
    blockers, the blockers of each broker account, the health of the database, and
    the decision whether an order may enter.  The audit events the gate emits are
    not part of the model. *)

From S2P Require Import Prelude.

(** ** Database health *)

Inductive DatabaseHealthStatus : Type := DB_HEALTHY | DB_DEGRADED | DB_FAILED.

Inductive DatabaseFailureReason : Type :=
| DB_NOT_CHECKED | DB_OPEN_FAILED | DB_INTEGRITY_FAILED | DB_WRITE_FAILED | DB_MIGRATION_FAILED
| DB_LOCK_FAILED | DB_MISSING_UNEXPECTED.

#[export] Instance DatabaseHealthStatus_eq_dec : EqDecision DatabaseHealthStatus.
Proof. solve_decision. Defined.

Definition failure_reason_value (r : DatabaseFailureReason) : string :=
  match r with
  | DB_NOT_CHECKED => "DB_NOT_CHECKED"
  | DB_OPEN_FAILED => "DB_OPEN_FAILED"
  | DB_INTEGRITY_FAILED => "DB_INTEGRITY_FAILED"
  | DB_WRITE_FAILED => "DB_WRITE_FAILED"
  | DB_MIGRATION_FAILED => "DB_MIGRATION_FAILED"
  | DB_LOCK_FAILED => "DB_LOCK_FAILED"
  | DB_MISSING_UNEXPECTED => "DB_MISSING_UNEXPECTED"
  end.

Record DatabaseHealthState : Type := mk_DatabaseHealthState {
  dh_status : DatabaseHealthStatus; dh_reason : option DatabaseFailureReason
}.

(** [DatabaseHealth.__init__] *)
Definition database_health_init : DatabaseHealthState :=
  mk_DatabaseHealthState DB_DEGRADED (Some DB_NOT_CHECKED).
Definition mark_healthy : DatabaseHealthState := mk_DatabaseHealthState DB_HEALTHY None.
Definition mark_failed (r : DatabaseFailureReason) : DatabaseHealthState :=
  mk_DatabaseHealthState DB_FAILED (Some r).

(** ** The gate *)

Record HealthState : Type := mk_HealthState { is_open : bool; reason_code : option string }.

Record HealthGate : Type := mk_HealthGate {
  hg_blockers : gset string;
  hg_scoped : gmap (string * string) (gset string);
  hg_database : option DatabaseHealthState
}.

#[export] Instance HealthGate_eta : Eta HealthGate := fun r =>
  mk_HealthGate (hg_blockers r) (hg_scoped r) (hg_database r).

Definition health_gate_init (db : option DatabaseHealthState) : HealthGate := mk_HealthGate ∅ ∅ db.

Definition PRIORITY : list string := [
  "DB_NOT_CHECKED"; "DB_SCHEMA_CORRUPT"; "DB_JOURNAL_CORRUPT"; "DB_FOREIGN_KEY_VIOLATION";
  "DB_CHECKPOINT_FAILED"; "DB_WRITE_FAILED"; "HG_SAFE_STOP"; "HG_DAILY_STOP_REACHED";
  "HG_DAILY_TAKE_PROFIT_REACHED"; "HG_COOLDOWN_ACTIVE"; "HG_AUTH_AGENT_UNAVAILABLE";
  "HG_LEASE_EXPIRED"; "HG_LEASE_REVOKED"; "HG_ORDER_EVENT_CONFLICT"; "HG_ORDER_EVENT_GAP";
  "HG_BROKER_EVENT_BACKPRESSURE"; "HG_RECONCILIATION_CONFLICT"; "HG_SETTLEMENT_REQUIRED";
  "HG_SETTLEMENT_UNKNOWN"; "HG_ORDER_UNKNOWN"; "HG_EXPOSURE_UNKNOWN";
  "HG_EXPOSURE_CURRENCY_MISMATCH"; "HG_RECONCILIATION_UNAVAILABLE"; "HG_RECONCILIATION_REQUIRED";
  "HG_WORKER_INCOMPATIBLE"; "HG_WORKER_CIRCUIT_OPEN"; "HG_WORKER_DISCONNECTED";
  "HG_WORKER_NOT_READY"; "HG_MARKET_DATA_DISCONNECTED"; "MD_CLOCK_UNTRUSTED"].

Definition sorted_reasons (reasons : gset string) : list string := sort_by str_leb (elements reasons).

(** [_state_from_reasons]: the first reason in order of priority, or the least one. *)
Definition state_from_reasons (reasons : gset string) : HealthState :=
  match sorted_reasons reasons with
  | [] => mk_HealthState true None
  | least :: _ =>
      mk_HealthState false (Some
        match List.find (fun c => bool_decide (c ∈ reasons)) PRIORITY with
        | Some c => c
        | None => least
        end)
  end.

(** [_database_state] *)
Definition database_state (g : HealthGate) : option HealthState :=
  match hg_database g with
  | Some d =>
      if bool_decide (dh_status d = DB_HEALTHY) then None
      else Some (mk_HealthState false (Some (failure_reason_value
             match dh_reason d with Some r => r | None => DB_NOT_CHECKED end)))
  | None => None
  end.

Definition or_database (g : HealthGate) (st : HealthState) : HealthState :=
  match database_state g with Some d => d | None => st end.

Definition global_state (g : HealthGate) : HealthState :=
  or_database g (state_from_reasons (hg_blockers g)).

(** The blockers of every scope. *)
Definition all_scoped (g : HealthGate) : gset string :=
  ⋃ ((map_to_list (hg_scoped g)).*2).

Definition gate_state (g : HealthGate) : HealthState :=
  or_database g (state_from_reasons (hg_blockers g ∪ all_scoped g)).

Definition scope (g : HealthGate) (broker account_id : string) : gset string :=
  default ∅ (hg_scoped g !! (broker, account_id)).

(** The blockers of an account: its own and those of the broker's market data. *)
Definition scoped_reasons (g : HealthGate) (broker account_id : string) : gset string :=
  let b := str_upper broker in
  if bool_decide (account_id = "market-data") then scope g b account_id
  else scope g b account_id ∪ scope g b "market-data".

Definition state_for (g : HealthGate) (broker account_id : string) : HealthState :=
  or_database g
    (if bool_decide (hg_blockers g = ∅) then state_from_reasons (scoped_reasons g broker account_id)
     else state_from_reasons (hg_blockers g)).

Definition can_enter_order (g : HealthGate) (broker account_id : string) : bool * option string :=
  let gs := global_state g in
  if negb (is_open gs) then (false, reason_code gs)
  else
    let ss := state_for g broker account_id in
    if negb (is_open ss) then (false, reason_code ss) else (true, None).

Definition block (reason : string) (g : HealthGate) : HealthGate :=
  g <| hg_blockers ::= fun b => {[ reason ]} ∪ b |>.

Definition clear_if (reason : string) (g : HealthGate) : HealthGate :=
  g <| hg_blockers ::= fun b => b ∖ {[ reason ]} |>
    <| hg_scoped ::= fmap (fun b => b ∖ {[ reason ]}) |>.

Definition clear (reason : string) (g : HealthGate) : HealthGate := clear_if reason g.

Definition contains (reason : string) (g : HealthGate) : bool :=
  bool_decide (reason ∈ hg_blockers g) || bool_decide (reason ∈ all_scoped g).

Definition block_scope (broker account_id reason : string) (g : HealthGate) : HealthGate :=
  let key := (str_upper broker, account_id) in
  g <| hg_scoped ::= fun m => <[ key := {[ reason ]} ∪ default ∅ (m !! key) ]> m |>.

Definition clear_scope (broker account_id reason : string) (g : HealthGate) : HealthGate :=
  let key := (str_upper broker, account_id) in
  match hg_scoped g !! key with
  | None => g
  | Some blockers =>
      let left := blockers ∖ {[ reason ]} in
      g <| hg_scoped ::= fun m => if bool_decide (left = ∅) then delete key m else <[ key := left ]> m |>
  end.

Definition register_broker_health (broker account_id : string) (is_ready : bool)
    (reason : option string) (g : HealthGate) : HealthGate :=
  if is_ready then
    match reason with
    | Some r => clear_scope broker account_id r g
    | None => clear_scope broker account_id "HG_WORKER_NOT_READY"
                (clear_scope broker account_id "HG_WORKER_DISCONNECTED" g)
    end
  else block_scope broker account_id
         (match reason with Some r => if bool_decide (r = "") then "HG_WORKER_DISCONNECTED" else r
          | None => "HG_WORKER_DISCONNECTED" end) g.

Definition fail_database (reason : DatabaseFailureReason) (g : HealthGate) : HealthGate :=
  block (failure_reason_value reason)
    (g <| hg_database ::= fmap (fun _ => mark_failed reason) |>).

(** [ensure_open]: the error carries the reason. *)
Definition ensure_open (g : HealthGate) (broker account_id : option string) : res unit :=
  match broker, account_id with
  | Some b, Some a =>
      let '(opened, reason) := can_enter_order g b a in
      guard_res opened (RuntimeError ("Health Gate blocked: " +:+ default "None" reason))
  | None, None =>
      let st := global_state g in
      guard_res (is_open st) (RuntimeError ("Health Gate blocked: " +:+ default "None" (reason_code st)))
  | _, _ => Err (ValueError "broker and account_id scope must be provided together")
  end.

Record HealthGateSnapshot : Type := mk_HealthGateSnapshot {
  sn_global : HealthState;
  sn_scoped : gmap (string * string) HealthState;
  sn_blockers : list string
}.

Definition get_snapshot (g : HealthGate) : HealthGateSnapshot :=
  mk_HealthGateSnapshot (global_state g)
    (map_imap (fun key _ => Some (state_for g key.1 key.2)) (hg_scoped g))
    (sorted_reasons (hg_blockers g ∪ all_scoped g)).

(** ** Lemmas *)

Lemma sorted_reasons_elem reasons r : r ∈ sorted_reasons reasons <-> r ∈ reasons.
Proof. unfold sorted_reasons. by rewrite elem_of_sort_by, elem_of_elements. Qed.

Lemma state_from_reasons_open reasons : is_open (state_from_reasons reasons) = true <-> reasons = ∅.
Proof.
  unfold state_from_reasons. pose proof (sorted_reasons_elem reasons) as H.
  destruct (sorted_reasons reasons) as [|r l]; simpl.
  - split; [|done]. intros _. apply set_eq. intros r. rewrite <- H. set_solver.
  - split; [done|]. intros ->. exfalso. apply (not_elem_of_empty (C := gset string) r), H. left.
Qed.

Definition reasons_of (g : HealthGate) (broker account_id : string) : gset string :=
  if bool_decide (hg_blockers g = ∅) then scoped_reasons g broker account_id else hg_blockers g.

(** Without a database failure the answer is that of the decisive set of reasons. *)
Lemma can_enter_reasons g b a :
  database_state g = None ->
  can_enter_order g b a =
    (is_open (state_from_reasons (reasons_of g b a)), reason_code (state_from_reasons (reasons_of g b a))).
Proof.
  intros Hdb. unfold can_enter_order, global_state, state_for, or_database, reasons_of. rewrite Hdb.
  case_bool_decide as E.
  - rewrite E. simpl. unfold state_from_reasons.
    by destruct (sorted_reasons (scoped_reasons g b a)).
  - destruct (is_open (state_from_reasons (hg_blockers g))) eqn:Eo.
    { by apply state_from_reasons_open in Eo. }
    simpl. f_equal.
Qed.

Lemma database_state_closed g st : database_state g = Some st -> is_open st = false.
Proof. unfold database_state. intros H. repeat case_match; by simplify_eq. Qed.

Definition database_ok (g : HealthGate) : Prop :=
  forall d, hg_database g = Some d -> dh_status d = DB_HEALTHY.

Lemma database_state_None g : database_state g = None <-> database_ok g.
Proof.
  unfold database_state, database_ok. destruct (hg_database g) as [d|]; [|naive_solver].
  case_bool_decide; naive_solver.
Qed.

Lemma can_enter_database g b a st :
  database_state g = Some st -> fst (can_enter_order g b a) = false.
Proof.
  intros H. unfold can_enter_order, global_state, or_database. rewrite H.
  by rewrite (database_state_closed _ _ H).
Qed.

Lemma reasons_of_empty g b a :
  reasons_of g b a = ∅ <-> hg_blockers g = ∅ /\ scoped_reasons g b a = ∅.
Proof. unfold reasons_of. case_bool_decide; naive_solver. Qed.

(** What blocks an account: a global reason, one of its own or one of its broker's
    market data. *)
Definition blocks (g : HealthGate) (b a r : string) : Prop :=
  r ∈ hg_blockers g \/ r ∈ scope g (str_upper b) a \/ r ∈ scope g (str_upper b) "market-data".

Lemma elem_of_scoped_reasons g b a r :
  r ∈ scoped_reasons g b a <->
  r ∈ scope g (str_upper b) a \/ r ∈ scope g (str_upper b) "market-data".
Proof.
  unfold scoped_reasons. case_bool_decide as E; [subst; naive_solver|]. apply elem_of_union.
Qed.

Lemma no_blocker g b a : (forall r, ~ blocks g b a r) <-> reasons_of g b a = ∅.
Proof.
  rewrite reasons_of_empty. unfold blocks. split.
  - intros H. split; apply set_eq; intros r; specialize (H r);
      rewrite ?elem_of_scoped_reasons; set_solver.
  - intros [H1 H2] r. rewrite H1, <- elem_of_scoped_reasons, H2. set_solver.
Qed.

Lemma can_enter_iff g b a :
  fst (can_enter_order g b a) = true <-> database_ok g /\ (forall r, ~ blocks g b a r).
Proof.
  destruct (database_state g) as [st|] eqn:Ed.
  - rewrite (can_enter_database g b a st Ed). split; [done|]. intros [H%database_state_None _]. congruence.
  - rewrite (can_enter_reasons g b a Ed), no_blocker. simpl. rewrite state_from_reasons_open.
    apply database_state_None in Ed. naive_solver.
Qed.

(** An order may enter exactly when the database is healthy and nothing blocks
    the account: no global reason, none of the account and none of the broker's
    market data. *)
Theorem entry_iff_unblocked g b a :
  fst (can_enter_order g b a) = true <-> database_ok g /\ (forall r, ~ blocks g b a r).
Proof. apply can_enter_iff. Qed.

Lemma find_first {A} (p : A -> bool) l c :
  List.find p l = Some c -> exists l1 l2, l = l1 ++ c :: l2 /\ p c = true /\ (forall x, x ∈ l1 -> p x = false).
Proof.
  induction l as [|x l IH]; [done|]. simpl. destruct (p x) eqn:E.
  - intros [= ->]. exists [], l. split; [done|]. split; [done|]. set_solver.
  - intros (l1 & l2 & -> & Hc & Hl)%IH. exists (x :: l1), l2. split; [done|]. split; [done|].
    intros y [->|Hy]%elem_of_cons; auto.
Qed.

(** The reason given for a refusal is one that blocks the account, and it is
    the first in the order of priority: every reason the table lists before it is
    absent from the set it was taken from; a reason that is not in the table is
    given only when none of the table blocks, and is then the least one. *)
Theorem refusal_reason_has_priority g b a :
  database_ok g -> fst (can_enter_order g b a) = false ->
  exists r, snd (can_enter_order g b a) = Some r /\ blocks g b a r /\
    ((exists l1 l2, PRIORITY = l1 ++ r :: l2 /\ (forall x, x ∈ l1 -> x ∉ reasons_of g b a)) \/
     (forall x, x ∈ reasons_of g b a -> (x ∉ PRIORITY) /\ (x = r \/ str_leb r x = true))).
Proof.
  intros Hdb%database_state_None. rewrite (can_enter_reasons g b a Hdb). cbn [fst snd]. intros Hc.
  unfold state_from_reasons in *. set (rs := reasons_of g b a) in *.
  assert (forall r, r ∈ rs -> blocks g b a r) as Hsub.
  { intros r. unfold rs, reasons_of, blocks. rewrite <- elem_of_scoped_reasons. case_bool_decide; auto. }
  pose proof (sorted_reasons_elem rs) as Hel.
  pose proof (sort_by_head_min str_leb str_leb_total str_leb_trans (elements rs)) as Hmin. fold (sorted_reasons rs) in Hmin.
  destruct (sorted_reasons rs) as [|least l]; [done|]. cbn [reason_code].
  destruct (List.find _ PRIORITY) as [c|] eqn:Ef.
  - exists c. split; [done|]. apply find_first in Ef as (l1 & l2 & E & Hp & Hl).
    apply bool_decide_eq_true in Hp. split; [auto|]. left. exists l1, l2. split; [done|].
    intros x Hx. specialize (Hl x Hx). by apply bool_decide_eq_false in Hl.
  - exists least. split; [done|]. split; [apply Hsub, Hel; left|]. right. intros x Hx. split.
    + intros Hin%list_elem_of_In. apply (List.find_none _ _ Ef) in Hin.
      by apply bool_decide_eq_false in Hin.
    + destruct (Hmin least x) as [->|Hle]; auto. by apply elem_of_elements.
Qed.

(** ** Histories of the gate *)

Inductive gate_op : Type :=
| GBlock (reason : string)
| GClear (reason : string)
| GBlockScope (broker account_id reason : string)
| GClearScope (broker account_id reason : string)
| GRegister (broker account_id : string) (is_ready : bool) (reason : option string)
| GFailDatabase (reason : DatabaseFailureReason)
| GMarkHealthy.

Definition run_gate_op (op : gate_op) (g : HealthGate) : HealthGate :=
  match op with
  | GBlock r => block r g
  | GClear r => clear r g
  | GBlockScope b a r => block_scope b a r g
  | GClearScope b a r => clear_scope b a r g
  | GRegister b a ready r => register_broker_health b a ready r g
  | GFailDatabase r => fail_database r g
  | GMarkHealthy => g <| hg_database ::= fmap (fun _ => mark_healthy) |>
  end.

Definition run_gate (ops : list gate_op) (g : HealthGate) : HealthGate :=
  fold_left (fun g op => run_gate_op op g) ops g.

(** The calls that remove reason [r] from the scope [(broker, account_id)]. *)
Definition clears_scope (broker account_id r : string) (op : gate_op) : bool :=
  match op with
  | GClear r' => bool_decide (r' = r)
  | GClearScope b a r' =>
      bool_decide (str_upper b = broker) && bool_decide (a = account_id) && bool_decide (r' = r)
  | GRegister b a true reason =>
      bool_decide (str_upper b = broker) && bool_decide (a = account_id) &&
      match reason with
      | Some r' => bool_decide (r' = r)
      | None => bool_decide (r ∈ ["HG_WORKER_DISCONNECTED"; "HG_WORKER_NOT_READY"])
      end
  | _ => false
  end.

Definition clears_global (r : string) (op : gate_op) : bool :=
  match op with GClear r' => bool_decide (r' = r) | _ => false end.

Lemma scope_block_scope b a r g b' a' :
  scope (block_scope b a r g) b' a' =
  (if bool_decide ((str_upper b, a) = (b', a')) then {[ r ]} else ∅) ∪ scope g b' a'.
Proof.
  unfold scope, block_scope. simpl. case_bool_decide as E.
  - rewrite <- E, lookup_insert_eq. done.
  - rewrite lookup_insert_ne by done. set_solver.
Qed.

Lemma scope_clear_scope b a r g b' a' :
  scope (clear_scope b a r g) b' a' =
  scope g b' a' ∖ (if bool_decide ((str_upper b, a) = (b', a')) then {[ r ]} else ∅).
Proof.
  unfold scope, clear_scope. destruct (decide ((str_upper b, a) = (b', a'))) as [E|E].
  - rewrite (bool_decide_true _ E). injection E as <- <-.
    destruct (hg_scoped g !! (str_upper b, a)) as [bl|] eqn:El; simpl; [|rewrite El; set_solver].
    case_bool_decide as E2; [by rewrite lookup_delete_eq, E2|by rewrite lookup_insert_eq].
  - rewrite (bool_decide_false _ E), difference_empty_L.
    destruct (hg_scoped g !! (str_upper b, a)) as [bl|] eqn:El; simpl; [|done].
    case_bool_decide; [by rewrite lookup_delete_ne|by rewrite lookup_insert_ne].
Qed.

Lemma scope_clear r g b a : scope (clear r g) b a = scope g b a ∖ {[ r ]}.
Proof. unfold scope, clear, clear_if. simpl. rewrite lookup_fmap. by destruct (_ !! _); set_solver. Qed.

Lemma clear_scope_blockers b a r g : hg_blockers (clear_scope b a r g) = hg_blockers g.
Proof. unfold clear_scope. by case_match. Qed.

Lemma run_gate_op_scope op g b a r :
  clears_scope b a r op = false -> r ∈ scope g b a -> r ∈ scope (run_gate_op op g) b a.
Proof.
  assert (forall b0 a0 r0 g0, bool_decide (str_upper b0 = b) && bool_decide (a0 = a) && bool_decide (r0 = r) = false ->
    r ∈ scope g0 b a -> r ∈ scope (clear_scope b0 a0 r0 g0) b a) as Hcs.
  { intros b0 a0 r0 g0 Hc Hr. rewrite scope_clear_scope.
    destruct (decide ((str_upper b0, a0) = (b, a))) as [E|E];
      [rewrite (bool_decide_true _ E)|by rewrite (bool_decide_false _ E), difference_empty_L].
    injection E as E1 E2. rewrite (bool_decide_true _ E1), (bool_decide_true _ E2) in Hc. simpl in Hc.
    apply bool_decide_eq_false in Hc. set_solver. }
  destruct op as [r0|r0|b0 a0 r0|b0 a0 r0|b0 a0 ready reason|r0|]; simpl; intros Hc Hr; try done.
  - apply bool_decide_eq_false in Hc. rewrite scope_clear. set_solver.
  - rewrite scope_block_scope. set_solver.
  - by apply Hcs.
  - unfold register_broker_health. destruct ready; [|rewrite scope_block_scope; set_solver].
    destruct reason as [r0|]; [by apply Hcs|].
    apply andb_false_iff in Hc as [Hc|Hc%bool_decide_eq_false].
    + apply Hcs; [by rewrite Hc|]. apply Hcs; [by rewrite Hc|done].
    + assert (forall x, x ∈ ["HG_WORKER_DISCONNECTED"; "HG_WORKER_NOT_READY"] -> bool_decide (x = r) = false) as Hx.
      { intros x Hx. apply bool_decide_eq_false. congruence. }
      apply Hcs; [rewrite Hx; [by rewrite andb_false_r|set_solver]|].
      apply Hcs; [rewrite Hx; [by rewrite andb_false_r|set_solver]|done].
Qed.

Lemma run_gate_op_global op g r :
  clears_global r op = false -> r ∈ hg_blockers g -> r ∈ hg_blockers (run_gate_op op g).
Proof.
  destruct op as [r0|r0|b0 a0 r0|b0 a0 r0|b0 a0 ready reason|r0|]; simpl; intros Hc Hr;
    rewrite ?clear_scope_blockers; try set_solver.
  - apply bool_decide_eq_false in Hc. set_solver.
  - unfold register_broker_health. repeat case_match; by rewrite ?clear_scope_blockers.
Qed.

Lemma run_gate_keeps (Q : HealthGate -> Prop) (clears : gate_op -> bool) ops g :
  (forall op g, clears op = false -> Q g -> Q (run_gate_op op g)) ->
  existsb clears ops = false -> Q g -> Q (run_gate ops g).
Proof.
  intros HQ. unfold run_gate. revert g. induction ops as [|op ops IH]; intros g; simpl; [done|].
  intros [H1 H2]%orb_false_iff Hg. apply IH; auto.
Qed.

(** A block holds until it is cleared.  After a reason has been set for the
    whole gate, for an account, or for a broker's market data, no sequence of
    calls admits an order of the accounts it covers unless one of the calls clears
    that reason for that scope. *)
Theorem blocked_until_cleared ops g b a r scope_account :
  scope_account = a \/ scope_account = "market-data" ->
  (r ∈ hg_blockers g /\ existsb (clears_global r) ops = false) \/
  (r ∈ scope g (str_upper b) scope_account /\
   existsb (clears_scope (str_upper b) scope_account r) ops = false) ->
  fst (can_enter_order (run_gate ops g) b a) = false.
Proof.
  intros Ha Hr. apply not_true_iff_false. intros [_ Hno]%can_enter_iff. apply (Hno r).
  destruct Hr as [[Hr Hc]|[Hr Hc]].
  - left. revert Hr. apply (run_gate_keeps (fun g => r ∈ hg_blockers g) (clears_global r)); [|done].
    intros op g' Hop. by apply run_gate_op_global.
  - right. enough (r ∈ scope (run_gate ops g) (str_upper b) scope_account).
    { destruct Ha as [-> | ->]; auto. }
    revert Hr. apply (run_gate_keeps (fun g => r ∈ scope g (str_upper b) scope_account)
      (clears_scope (str_upper b) scope_account r)); [|done].
    intros op g' Hop. by apply run_gate_op_scope.
Qed.

(** Blockers are isolated by account: blocking or clearing one account (or
    registering its worker's health) does not change the answer for any other
    broker account. *)
Theorem account_blockers_are_isolated b a r g b' a' :
  (str_upper b, a) <> (str_upper b', a') -> a <> "market-data" ->
  can_enter_order (block_scope b a r g) b' a' = can_enter_order g b' a' /\
  can_enter_order (clear_scope b a r g) b' a' = can_enter_order g b' a'.
Proof.
  intros Hne Hmd.
  assert (forall g', hg_blockers g' = hg_blockers g -> hg_database g' = hg_database g ->
    scope g' (str_upper b') a' = scope g (str_upper b') a' ->
    scope g' (str_upper b') "market-data" = scope g (str_upper b') "market-data" ->
    can_enter_order g' b' a' = can_enter_order g b' a') as Hext.
  { intros g' E1 E2 E3 E4. unfold can_enter_order, global_state, state_for, or_database,
      database_state, scoped_reasons. by rewrite E1, E2, E3, E4. }
  split; apply Hext; rewrite ?scope_block_scope, ?scope_clear_scope, ?clear_scope_blockers; try done;
    try (rewrite bool_decide_false by congruence; set_solver).
  unfold clear_scope. by case_match.
Qed.

(** ** Witnesses *)

Definition sample_gate : HealthGate :=
  block_scope "deriv" "A1" "HG_ORDER_UNKNOWN" (block_scope "deriv" "A1" "custom"
    (health_gate_init (Some mark_healthy))).

Lemma refusal_reason_has_priority_witness :
  exists r, snd (can_enter_order sample_gate "DERIV" "A1") = Some r /\ blocks sample_gate "DERIV" "A1" r.
Proof.
  destruct (refusal_reason_has_priority sample_gate "DERIV" "A1") as (r & Hr & Hb & _).
  - intros d [= <-]. reflexivity.
  - vm_compute. reflexivity.
  - exists r. split; [exact Hr|exact Hb].
Defined.

Lemma blocked_until_cleared_witness :
  fst (can_enter_order (run_gate [GClear "HG_ORDER_UNKNOWN"; GMarkHealthy] sample_gate) "DERIV" "A1") = false.
Proof.
  apply (blocked_until_cleared _ _ _ _ "custom" "A1"); [left; reflexivity|]. right. split.
  - apply (bool_decide_eq_true _). vm_compute. reflexivity.
  - vm_compute. reflexivity.
Defined.

Lemma account_blockers_are_isolated_witness :
  can_enter_order (block_scope "deriv" "A2" "x" sample_gate) "DERIV" "A1" =
  can_enter_order sample_gate "DERIV" "A1".
Proof.
  apply (account_blockers_are_isolated "deriv" "A2" "x" sample_gate "DERIV" "A1"); vm_compute; discriminate.
Defined.
