(* ===== verification/Martingale.v ===== *)
(** * Bounded stake progression

    [packages/portfolio_allocation/martingale.py]: the configuration and state of
    the progression, the geometric projection, and the quote-aware recovery stake
    with the decimal arithmetic the code uses. *)

From S2P Require Import Prelude Datetime Dec DecVal Domain.
From Stdlib Require Import QArith Lqa.

#[local] Open Scope Z_scope.

Record BoundedMartingaleConfig : Type := mk_BoundedMartingaleConfig {
  mc_base_stake : Money; mc_multiplier : pydec; mc_max_steps : Z; mc_max_stake : Money;
  mc_daily_stop_loss : Money
}.

(** [lo <= d <= hi] for a finite decimal. *)
Definition finite_between (lo hi : dec) (d : pydec) : bool :=
  match d with Finite x => dec_leb lo x && dec_leb x hi | _ => false end.

(** [BoundedMartingaleConfig.__post_init__] *)
Definition new_BoundedMartingaleConfig (c : BoundedMartingaleConfig) : res BoundedMartingaleConfig :=
  _ ← guard_res (bool_decide (currency (mc_base_stake c) = currency (mc_max_stake c)))
        (ValueError "martingale stake currencies must match");
  _ ← guard_res (bool_decide (currency (mc_base_stake c) = currency (mc_daily_stop_loss c)))
        (ValueError "martingale stop-loss currency must match");
  _ ← guard_res (0 <? minor_units (mc_base_stake c))
        (ValueError "martingale base stake must be positive");
  _ ← guard_res (minor_units (mc_base_stake c) <=? minor_units (mc_max_stake c))
        (ValueError "martingale max stake cannot be below base stake");
  _ ← guard_res (0 <? minor_units (mc_daily_stop_loss c))
        (ValueError "martingale daily stop loss must be positive");
  _ ← guard_res (minor_units (mc_max_stake c) <=? minor_units (mc_daily_stop_loss c))
        (ValueError "martingale max stake cannot exceed daily stop loss");
  _ ← guard_res (finite_between (mk_dec 110 (-2)) (mk_dec 300 (-2)) (mc_multiplier c))
        (ValueError "martingale multiplier must be between 1.10 and 3.00");
  _ ← guard_res (in_range 1 (mc_max_steps c) 4)
        (ValueError "martingale max steps must be between 1 and 4");
  Ok c.

(** [BoundedMartingaleState]: the step. *)
Record BoundedMartingaleState : Type := mk_BoundedMartingaleState { step : Z }.

Definition new_BoundedMartingaleState (n : Z) : res BoundedMartingaleState :=
  _ ← guard_res (0 <=? n) (ValueError "martingale step must be a non-negative integer");
  Ok (mk_BoundedMartingaleState n).

Definition initial_step : BoundedMartingaleState := mk_BoundedMartingaleState 0.

Record BoundedMartingaleProjection : Type := mk_BoundedMartingaleProjection {
  stakes : list Money; maximum_sequence_loss : Money
}.

(** [required_stake] *)
Definition required_stake (net_profit_ratio : dec) (target_profit_minor_units : Z) : res Z :=
  quantize_int ROUND_CEILING (dec_div (dec_of_Z target_profit_minor_units) net_profit_ratio).

Definition recovery_stake (config : BoundedMartingaleConfig) (state : BoundedMartingaleState)
    (outstanding_loss_minor_units : Z) (net_profit_ratio : pydec)
    (remaining_loss_budget_minor_units : Z) : res Money :=
  let base := minor_units (mc_base_stake config) in
  if (step state <=? 0) || (outstanding_loss_minor_units <=? 0) then Ok (mc_base_stake config)
  else
    _ ← guard_res (step state <=? mc_max_steps config)
          (ValueError "martingale state exceeds configured max steps");
    ratio ← match net_profit_ratio with
            | Finite r => if dec_ltb (dec_of_Z 0) r then Ok r
                          else Err (ValueError "martingale quote net profit ratio must be positive")
            | _ => Err (ValueError "martingale quote net profit ratio must be positive")
            end;
    let hard_cap := Z.min (minor_units (mc_max_stake config)) remaining_loss_budget_minor_units in
    _ ← guard_res (0 <? hard_cap) (ValueError "martingale recovery has no remaining loss budget");
    required ← required_stake ratio outstanding_loss_minor_units;
    let full_recovery := Z.max base required in
    if full_recovery <=? hard_cap then new_Money full_recovery (currency (mc_base_stake config))
    else
      let remaining_attempts := mc_max_steps config - step state + 1 in
      target_slice ← quantize_int ROUND_CEILING
        (dec_div (dec_of_Z outstanding_loss_minor_units) (dec_of_Z remaining_attempts));
      required ← required_stake ratio target_slice;
      let divided_recovery := Z.max base required in
      if divided_recovery <=? hard_cap then new_Money divided_recovery (currency (mc_base_stake config))
      else Err (ValueError "martingale recovery exceeds configured safety limits").

(** [stake_for_step]; the multiplier of a checked configuration is finite. *)
Definition stake_for_step (config : BoundedMartingaleConfig) (state : BoundedMartingaleState)
    : res Money :=
  _ ← guard_res (step state <=? mc_max_steps config)
        (ValueError "martingale state exceeds configured max steps");
  match mc_multiplier config with
  | Finite m =>
      calculated ← quantize_int ROUND_HALF_UP
        (dec_mul prec (dec_of_Z (minor_units (mc_base_stake config))) (dec_pow m (step state)));
      new_Money (Z.min calculated (minor_units (mc_max_stake config))) (currency (mc_base_stake config))
  | _ => Err InvalidOperation
  end.

Fixpoint map_res {A B} (f : A -> res B) (l : list A) : res (list B) :=
  match l with
  | [] => Ok []
  | x :: l' => y ← f x; ys ← map_res f l'; Ok (y :: ys)
  end.

Definition project (config : BoundedMartingaleConfig) : res BoundedMartingaleProjection :=
  items ← map_res (fun n => stake_for_step config (mk_BoundedMartingaleState (Z.of_nat n)))
            (seq 0 (Z.to_nat (mc_max_steps config + 1)));
  total ← new_Money (foldr Z.add 0 (minor_units <$> items)) (currency (mc_base_stake config));
  Ok (mk_BoundedMartingaleProjection items total).

Definition after_settlement (config : BoundedMartingaleConfig) (state : BoundedMartingaleState)
    (realized_pnl_minor_units : Z) : BoundedMartingaleState :=
  if (0 <=? realized_pnl_minor_units) || (mc_max_steps config <=? step state) then initial_step
  else mk_BoundedMartingaleState (step state + 1).

(** ** Lemmas *)

Lemma dec_positive r : dec_ltb (dec_of_Z 0) r = true -> 0 < coef r.
Proof.
  unfold dec_ltb, dec_compare. cbn [coef dec_of_Z dexp]. rewrite Z.mul_0_l. intros H.
  assert (0 < 10 ^ (dexp r - Z.min 0 (dexp r))) as Hp by (apply Z.pow_pos_nonneg; lia).
  set (k := 10 ^ _) in *. clearbody k. destruct (0 ?= coef r * k) eqn:E; [done| |done].
  rewrite Z.compare_lt_iff in E. nia.
Qed.

(** The stake required for a profit of [t]: nothing less pays it, up to the
    rounding of the division in the 28th digit. *)
Definition covers (r : dec) (t s : Z) : Prop :=
  (inject_Z t * (1 - ulp) <= inject_Z s * dval r)%Q.
Definition tight (r : dec) (t s : Z) : Prop :=
  (inject_Z (s - 1) * dval r < inject_Z t * (1 + ulp))%Q.

Lemma ulp_small : (0 < ulp /\ ulp < 1)%Q.
Proof. by vm_compute. Qed.

Lemma dval_Z n : (dval (dec_of_Z n) == inject_Z n)%Q.
Proof. unfold dval. simpl. ring. Qed.

Lemma required_stake_spec r t s :
  0 < coef r -> 0 < t -> required_stake r t = Ok s -> covers r t s /\ tight r t s /\ 0 < s.
Proof.
  intros Hr Ht H%quantize_ceiling. destruct H as [Hlo Hhi].
  pose proof (dval_pos r Hr) as Hrp.
  destruct (dec_div_near (dec_of_Z t) r Ht Hr) as [Hn1 Hn2].
  set (q := dval (dec_div (dec_of_Z t) r)) in *. clearbody q. rewrite dval_Z in Hn1, Hn2.
  assert (inject_Z t * (1 - ulp) <= q * dval r)%Q as H1.
  { setoid_replace (inject_Z t * (1 - ulp))%Q with (inject_Z t / dval r * (1 - ulp) * dval r)%Q
      using relation Qeq by (field; lra). apply Qmult_le_compat_r; [done|lra]. }
  assert (q * dval r <= inject_Z t * (1 + ulp))%Q as H2.
  { setoid_replace (inject_Z t * (1 + ulp))%Q with (inject_Z t / dval r * (1 + ulp) * dval r)%Q
      using relation Qeq by (field; lra). apply Qmult_le_compat_r; [done|lra]. }
  split_and!.
  - unfold covers. nra.
  - unfold tight. replace (s - 1) with (s + - (1)) by lia. rewrite inject_Z_plus, inject_Z_opp.
    eapply Qlt_le_trans; [|exact H2]. apply Qmult_lt_compat_r; [done|]. change (inject_Z 1) with 1%Q. lra.
  - assert (0 < inject_Z t)%Q as Htq by (by rewrite <- (Zlt_Qlt 0)).
    assert (0 < q * dval r)%Q as Hqr.
    { eapply Qlt_le_trans; [|exact H1]. pose proof ulp_small. nra. }
    assert (0 < inject_Z s)%Q as Hs by nra. by rewrite <- (Zlt_Qlt 0) in Hs.
Qed.

(** Rounding up a positive quotient gives a result when it fits the precision. *)
Lemma required_stake_fits r t s cap :
  0 < coef r -> 0 < t -> cap < 10 ^ 28 -> s <= cap ->
  (inject_Z t * (1 + ulp) <= inject_Z s * dval r)%Q ->
  exists s', required_stake r t = Ok s' /\ s' <= s.
Proof.
  intros Hr Ht Hcap Hs Hc. pose proof (dval_pos r Hr) as Hrp.
  destruct (dec_div_near (dec_of_Z t) r Ht Hr) as [Hn1 Hn2]. rewrite dval_Z in Hn1, Hn2.
  unfold required_stake, quantize_int. set (d := dec_div (dec_of_Z t) r) in *.
  assert (dval d <= inject_Z s)%Q as Hd.
  { apply (Qmult_le_r _ _ (dval r) Hrp). eapply Qle_trans; [|exact Hc].
    setoid_replace (inject_Z t * (1 + ulp))%Q with (inject_Z t / dval r * (1 + ulp) * dval r)%Q
      using relation Qeq by (field; lra). apply Qmult_le_compat_r; [done|lra]. }
  assert (0 < dval d)%Q as Hd0.
  { assert (0 < inject_Z t / dval r)%Q.
    { apply Qlt_shift_div_l; [done|]. rewrite Qmult_0_l. by rewrite <- (Zlt_Qlt 0). }
    pose proof ulp_small. nra. }
  set (c := if 0 <=? dexp d then _ else _).
  assert (dval d <= inject_Z c < dval d + 1)%Q as [Hc1 Hc2] by apply ceiling_bound.
  assert (0 < c /\ c <= s) as [Hc0 Hcs].
  { split; [rewrite Zlt_Qlt; by eapply Qlt_le_trans|]. assert (inject_Z c < inject_Z (s + 1))%Q as H.
    { rewrite inject_Z_plus. change (inject_Z 1) with 1%Q. lra. }
    rewrite <- Zlt_Qlt in H. lia. }
  assert (ndigits c <= prec) by (apply ndigits_le; unfold prec; lia).
  destruct (Z.leb_spec (ndigits c) prec); [|lia]. eauto.
Qed.

Lemma covers_mono r t s s' : 0 < coef r -> s <= s' -> covers r t s -> covers r t s'.
Proof.
  intros Hr Hs H. eapply Qle_trans; [exact H|]. apply Qmult_le_compat_r; [by rewrite <- Zle_Qle|].
  apply Qlt_le_weak, dval_pos, Hr.
Qed.

(** The two ways a recovery stake is produced. *)
Lemma recovery_stake_inv config state out ratio rem m :
  0 < step state -> 0 < out -> recovery_stake config state out ratio rem = Ok m ->
  exists r target required, ratio = Finite r /\ 0 < coef r /\ step state <= mc_max_steps config /\
    required_stake r target = Ok required /\
    minor_units m = Z.max (minor_units (mc_base_stake config)) required /\
    minor_units m <= Z.min (minor_units (mc_max_stake config)) rem /\
    (target = out \/ quantize_int ROUND_CEILING
       (dec_div (dec_of_Z out) (dec_of_Z (mc_max_steps config - step state + 1))) = Ok target).
Proof.
  intros Hs Ho H. unfold recovery_stake in H.
  destruct (_ || _) eqn:E; [apply orb_true_iff in E; lia|]. clear E.
  apply res_bind_Ok in H as (u & Hst%guard_res_Ok & H). apply Z.leb_le in Hst.
  apply res_bind_Ok in H as (r & Hr & H).
  assert (ratio = Finite r /\ 0 < coef r) as [-> Hpos].
  { destruct ratio as [x| | |]; try done. destruct (dec_ltb _ x) eqn:Ex; [|done].
    injection Hr as ->. split; [done|]. by apply dec_positive. }
  apply res_bind_Ok in H as (u' & _ & H). apply res_bind_Ok in H as (req & Hreq & H).
  destruct (Z.leb_spec (Z.max (minor_units (mc_base_stake config)) req)
    (Z.min (minor_units (mc_max_stake config)) rem)).
  { apply new_Money_minor in H as Em. rewrite <- Em in *. exists r, out, req. split_and!; auto. }
  apply res_bind_Ok in H as (slice & Hslice & H). apply res_bind_Ok in H as (req' & Hreq' & H).
  destruct (Z.leb_spec (Z.max (minor_units (mc_base_stake config)) req')
    (Z.min (minor_units (mc_max_stake config)) rem)); [|done].
  apply new_Money_minor in H as Em. rewrite <- Em in *. exists r, slice, req'. split_and!; auto.
Qed.

(** A recovery stake is never below the base stake, never above the configured
    maximum stake, and never above the loss budget that is left. *)
Theorem recovery_stake_bounds config state out ratio rem m :
  0 < step state -> 0 < out -> recovery_stake config state out ratio rem = Ok m ->
  minor_units (mc_base_stake config) <= minor_units m /\
  minor_units m <= minor_units (mc_max_stake config) /\ minor_units m <= rem.
Proof. intros Hs Ho (r & t & q & _ & _ & _ & _ & -> & ? & _)%recovery_stake_inv; [lia|done|done]. Qed.

Lemma slice_covers out k slice :
  0 < out -> 0 < k -> quantize_int ROUND_CEILING (dec_div (dec_of_Z out) (dec_of_Z k)) = Ok slice ->
  (inject_Z out * (1 - ulp) <= inject_Z slice * inject_Z k)%Q /\ 0 < slice.
Proof.
  intros Ho Hk H. destruct (required_stake_spec (dec_of_Z k) out slice Hk Ho H) as (Hc & _ & Hs).
  split; [|done]. unfold covers in Hc. by rewrite dval_Z in Hc.
Qed.

(** a recovery stake recovers what it is for.  At the quoted net profit ratio
    it pays a target profit, and one minor unit less would not (unless the base
    stake already pays it); the target is the whole outstanding loss, or a slice of
    it that pays the loss over the attempts that are left.  "Pays" is up to one
    unit in the 28th significant digit, the precision of the division. *)
Theorem recovery_stake_recovers config state out r rem m :
  0 < step state -> 0 < out -> recovery_stake config state out (Finite r) rem = Ok m ->
  exists target, covers r target (minor_units m) /\
    (minor_units m = minor_units (mc_base_stake config) \/ tight r target (minor_units m)) /\
    (target = out \/
     (inject_Z out * (1 - ulp) <= inject_Z target * inject_Z (mc_max_steps config - step state + 1))%Q).
Proof.
  intros Hs Ho (r' & t & q & [= <-] & Hr & Hst & Hq & Em & _ & Ht)%recovery_stake_inv; [|done|done].
  assert (0 < t) as Ht0.
  { destruct Ht as [->|Ht]; [done|]. apply slice_covers in Ht as [_ ?]; [done|done|lia]. }
  destruct (required_stake_spec r t q Hr Ht0 Hq) as (Hc & Htt & Hq0). exists t. split; [|split].
  - eapply covers_mono; [exact Hr| |exact Hc]. lia.
  - rewrite Em. destruct (Z.max_spec (minor_units (mc_base_stake config)) q) as [[_ ->]|[_ ->]]; auto.
  - destruct Ht as [->|Ht]; [by left|right]. apply slice_covers in Ht as [H _]; [exact H|exact Ho|lia].
Qed.

(** An affordable recovery is not refused: when the base stake and some stake
    that pays the whole outstanding loss (with the rounding margin) are within the
    maximum stake and the remaining budget, the allocator returns a stake. *)
Theorem affordable_recovery_is_granted config state out r rem s :
  0 < step state <= mc_max_steps config -> 0 < out -> dec_ltb (dec_of_Z 0) r = true ->
  money_ok (mc_base_stake config) = true ->
  0 < minor_units (mc_base_stake config) <= Z.min (minor_units (mc_max_stake config)) rem ->
  Z.min (minor_units (mc_max_stake config)) rem < 10 ^ 28 ->
  s <= Z.min (minor_units (mc_max_stake config)) rem ->
  (inject_Z out * (1 + ulp) <= inject_Z s * dval r)%Q ->
  exists m, recovery_stake config state out (Finite r) rem = Ok m /\
    minor_units m <= Z.max (minor_units (mc_base_stake config)) s.
Proof.
  intros Hs Ho Hr Hm Hb Hcap Hsc Hpay. pose proof (dec_positive r Hr) as Hpos.
  destruct (required_stake_fits r out s _ Hpos Ho Hcap Hsc Hpay) as (s' & Hs' & Hle).
  unfold recovery_stake. destruct (_ || _) eqn:E; [apply orb_true_iff in E; lia|].
  rewrite Hr. unfold mbind, res_bind, guard_res.
  destruct (Z.leb_spec (step state) (mc_max_steps config)); [|lia].
  destruct (Z.ltb_spec 0 (Z.min (minor_units (mc_max_stake config)) rem)); [|lia]. rewrite Hs'.
  destruct (Z.leb_spec (Z.max (minor_units (mc_base_stake config)) s')
    (Z.min (minor_units (mc_max_stake config)) rem)); [|lia].
  apply new_Money_ok in Hm. unfold new_Money in *. apply res_bind_Ok in Hm as (c & Hc & _).
  unfold mbind, res_bind. rewrite Hc. eexists. split; [done|]. simpl. lia.
Qed.

Lemma map_res_Forall2 {A B} (f : A -> res B) l l' :
  map_res f l = Ok l' -> Forall2 (fun x y => f x = Ok y) l l'.
Proof.
  revert l'. induction l as [|x l IH]; simpl; intros l' H; [by simplify_eq|].
  apply res_bind_Ok in H as (y & Hy & H). apply res_bind_Ok in H as (ys & Hys & [= <-]).
  constructor; auto.
Qed.

Lemma stake_for_step_max config state m :
  stake_for_step config state = Ok m -> minor_units m <= minor_units (mc_max_stake config).
Proof.
  unfold stake_for_step. intros (u & _ & H)%res_bind_Ok. destruct (mc_multiplier config); try done.
  apply res_bind_Ok in H as (c & _ & ->%new_Money_minor). lia.
Qed.

(** The projected progression has one stake per step, none above the maximum
    stake, and its total loss is at most the maximum stake times the number of
    entries. *)
Theorem projection_is_bounded config p :
  0 <= mc_max_steps config -> project config = Ok p ->
  Z.of_nat (length (stakes p)) = mc_max_steps config + 1 /\
  (forall m, m ∈ stakes p -> minor_units m <= minor_units (mc_max_stake config)) /\
  minor_units (maximum_sequence_loss p) <=
    (mc_max_steps config + 1) * minor_units (mc_max_stake config).
Proof.
  intros Hn H. unfold project in H. apply res_bind_Ok in H as (items & Hit%map_res_Forall2 & H).
  apply res_bind_Ok in H as (total & Et%new_Money_minor & [= <-]). simpl.
  assert (Z.of_nat (length items) = mc_max_steps config + 1) as Hlen.
  { apply Forall2_length in Hit. rewrite length_seq in Hit. lia. }
  assert (forall m, m ∈ items -> minor_units m <= minor_units (mc_max_stake config)) as Hmax.
  { intros m (i & Hm)%list_elem_of_lookup. eapply Forall2_lookup_r in Hm as (n & _ & Hm); [|exact Hit].
    exact (stake_for_step_max _ _ _ Hm). }
  split; [done|]. split; [done|]. rewrite Et, <- Hlen. clear Hit Hlen Et.
  induction items as [|m items IH]; [done|]. rewrite fmap_cons. cbn [foldr length].
  pose proof (Hmax m (list_elem_of_here _ _)). specialize (IH (fun m H => Hmax m (list_elem_of_further _ _ _ H))).
  lia.
Qed.

(** ** Witnesses *)

Definition sample_config : BoundedMartingaleConfig :=
  mk_BoundedMartingaleConfig (mk_Money 100 "USD") (Finite (mk_dec 200 (-2))) 3 (mk_Money 400 "USD")
    (mk_Money 5000 "USD").
Definition second_step : BoundedMartingaleState := mk_BoundedMartingaleState 2.
Definition ratio_95 : dec := mk_dec 95 (-2).

Lemma recovery_stake_bounds_witness :
  minor_units (mc_base_stake sample_config) <= 316 /\ 316 <= 400 /\ 316 <= 900.
Proof.
  apply (recovery_stake_bounds sample_config second_step 300 (Finite ratio_95) 900 (mk_Money 316 "USD"));
    [reflexivity|reflexivity|vm_compute; reflexivity].
Defined.

(** A loss of 700 does not fit; half of it does. *)
Lemma recovery_stake_recovers_witness :
  exists target, covers ratio_95 target 369 /\
    (target = 700 \/ (inject_Z 700 * (1 - ulp) <= inject_Z target * inject_Z 2)%Q).
Proof.
  destruct (recovery_stake_recovers sample_config second_step 700 ratio_95 900 (mk_Money 369 "USD"))
    as (target & Hc & _ & Ht); [reflexivity|reflexivity|vm_compute; reflexivity|].
  exists target. split; [exact Hc|exact Ht].
Defined.

Lemma affordable_recovery_is_granted_witness :
  exists m, recovery_stake sample_config second_step 300 (Finite ratio_95) 900 = Ok m /\
    minor_units m <= Z.max 100 320.
Proof.
  apply (affordable_recovery_is_granted sample_config second_step 300 ratio_95 900 320);
    try (vm_compute; split; congruence); vm_compute; reflexivity || discriminate.
Defined.

Lemma projection_is_bounded_witness :
  exists p, project sample_config = Ok p /\ Z.of_nat (length (stakes p)) = 4.
Proof.
  assert (project sample_config = Ok (mk_BoundedMartingaleProjection
    [mk_Money 100 "USD"; mk_Money 200 "USD"; mk_Money 400 "USD"; mk_Money 400 "USD"]
    (mk_Money 1100 "USD"))) as E by (vm_compute; reflexivity).
  eexists. split; [exact E|]. eapply (projection_is_bounded sample_config); [discriminate|exact E].
Defined.
