(* ===== verification/DigitConfig.v ===== *)
(** * The digit risk configuration

    [apps/core/digit_risk_config.py]: the operator's limits for the Deriv digit
    strategies and their validation.  Floats are the exact decimals they denote
    (or infinity, or NaN); the run-time type checks hold by typing. *)

From S2P Require Import Prelude Datetime Dec Domain Martingale.

Definition DERIV_SYNTHETIC_INDEX_ALLOWLIST : list string :=
  ["R_10"; "R_25"; "R_50"; "R_75"; "R_100"; "1HZ10V"; "1HZ15V"; "1HZ25V"; "1HZ30V"; "1HZ50V";
   "1HZ75V"; "1HZ90V"; "1HZ100V"].
Definition DERIV_BOUNDED_STAKE_PRODUCTS : list string :=
  ["DIGITDIFF"; "DIGITOVER"; "DIGITUNDER"; "DIGITEVEN"; "DIGITODD"].
Definition DERIV_DIGIT_STRATEGY_ALLOWLIST : gset string :=
  {[ "tail-probability-edge"; "selective-differs-edge"; "parity-regime-edge";
     "payout-routed-differs-session" ]}.
Definition DERIV_DEFAULT_DIGIT_STRATEGY_IDS : gset string :=
  {[ "tail-probability-edge"; "selective-differs-edge"; "parity-regime-edge" ]}.

Inductive StrategySelectionMode : Type := SINGLE | MULTI | STRESS.

#[export] Instance StrategySelectionMode_eq_dec : EqDecision StrategySelectionMode.
Proof. solve_decision. Defined.

Record DigitRiskConfig : Type := mk_DigitRiskConfig {
  dc_stake_minor_units : Z;
  dc_daily_stop_loss_minor_units : Z;
  dc_daily_take_profit_minor_units : Z;
  dc_max_consecutive_losses : Z;
  dc_cooldown_seconds_after_loss : pydec;
  dc_min_quantum_confidence_pct : pydec;
  dc_selected_symbol : string;
  dc_currency : string;
  dc_auto_select_symbol : bool;
  dc_active_strategy_id : string;
  dc_enabled_strategy_ids : gset string;
  dc_selection_mode : StrategySelectionMode;
  dc_stress_test_all_strategies_enabled : bool;
  dc_martingale_enabled : bool;
  dc_martingale_multiplier : pydec;
  dc_martingale_max_steps : Z;
  dc_martingale_max_stake_minor_units : Z;
  dc_performance_ratchet_cap_pp : pydec;
  dc_performance_window_trades : Z;
  dc_performance_window_hours : pydec;
  dc_martingale_pin_timeout_seconds : pydec
}.

#[export] Instance DigitRiskConfig_eta : Eta DigitRiskConfig := fun c => mk_DigitRiskConfig
  (dc_stake_minor_units c) (dc_daily_stop_loss_minor_units c) (dc_daily_take_profit_minor_units c)
  (dc_max_consecutive_losses c) (dc_cooldown_seconds_after_loss c)
  (dc_min_quantum_confidence_pct c) (dc_selected_symbol c) (dc_currency c)
  (dc_auto_select_symbol c) (dc_active_strategy_id c) (dc_enabled_strategy_ids c)
  (dc_selection_mode c) (dc_stress_test_all_strategies_enabled c) (dc_martingale_enabled c)
  (dc_martingale_multiplier c) (dc_martingale_max_steps c) (dc_martingale_max_stake_minor_units c)
  (dc_performance_ratchet_cap_pp c) (dc_performance_window_trades c)
  (dc_performance_window_hours c) (dc_martingale_pin_timeout_seconds c).

#[export] Instance DigitRiskConfig_eq_dec : EqDecision DigitRiskConfig.
Proof. solve_decision. Defined.

(** The default values of the fields. *)
Definition default_DigitRiskConfig : DigitRiskConfig :=
  mk_DigitRiskConfig 100 5000 3000 1 (Finite (mk_dec 300 (-1))) (Finite (mk_dec 925 (-1))) "R_100" "USD"
    true "tail-probability-edge" DERIV_DEFAULT_DIGIT_STRATEGY_IDS SINGLE false false
    (Finite (mk_dec 200 (-2))) 2 400 (Finite (mk_dec 10 (-1))) 20 (Finite (mk_dec 240 (-1)))
    (Finite (mk_dec 3000 (-1))).

Definition bounded_martingale_config (config : DigitRiskConfig) : res BoundedMartingaleConfig :=
  base_stake ← new_Money (dc_stake_minor_units config) (dc_currency config);
  max_stake ← new_Money (dc_martingale_max_stake_minor_units config) (dc_currency config);
  daily_stop_loss ← new_Money (dc_daily_stop_loss_minor_units config) (dc_currency config);
  new_BoundedMartingaleConfig (mk_BoundedMartingaleConfig base_stake (dc_martingale_multiplier config)
    (dc_martingale_max_steps config) max_stake daily_stop_loss).

Definition is_bounded_digit_product (product : string) : bool :=
  bool_decide (str_upper (str_strip product) ∈ DERIV_BOUNDED_STAKE_PRODUCTS).

Definition projected_martingale_stakes (config : DigitRiskConfig) : res (list Z) :=
  if negb (dc_martingale_enabled config) then Ok [dc_stake_minor_units config]
  else
    c ← bounded_martingale_config config;
    projection ← project c;
    Ok (minor_units <$> stakes projection).

Definition finite_positive (d : pydec) : bool :=
  match d with Finite x => dec_ltb (dec_of_Z 0) x | _ => false end.

(** The first failed check of [validate_digit_risk_config]. *)
Definition digit_config_checks (c : DigitRiskConfig) : list (bool * string) := [
  (35 <=? dc_stake_minor_units c, "DIGIT_RISK_STAKE_BELOW_MINIMUM");
  (0 <? dc_daily_stop_loss_minor_units c, "DIGIT_RISK_STOP_LOSS_INVALID");
  (0 <? dc_daily_take_profit_minor_units c, "DIGIT_RISK_TAKE_PROFIT_INVALID");
  (in_range 1 (dc_max_consecutive_losses c) 5, "DIGIT_RISK_CONSECUTIVE_LOSSES_INVALID");
  (finite_positive (dc_cooldown_seconds_after_loss c), "DIGIT_RISK_COOLDOWN_INVALID");
  (finite_between (mk_dec 800 (-1)) (mk_dec 990 (-1)) (dc_min_quantum_confidence_pct c),
   "DIGIT_RISK_CONFIDENCE_INVALID");
  (bool_decide (dc_selected_symbol c ∈ DERIV_SYNTHETIC_INDEX_ALLOWLIST), "DIGIT_RISK_SYMBOL_NOT_ALLOWED");
  (bool_decide (dc_currency c = "USD"), "DIGIT_RISK_CURRENCY_NOT_SUPPORTED");
  (bool_decide (dc_active_strategy_id c = "") ||
   bool_decide (dc_active_strategy_id c ∈ DERIV_DIGIT_STRATEGY_ALLOWLIST),
   "DIGIT_RISK_STRATEGY_NOT_ALLOWED");
  (bool_decide (dc_enabled_strategy_ids c ⊆ DERIV_DIGIT_STRATEGY_ALLOWLIST),
   "DIGIT_RISK_STRATEGY_SELECTION_INVALID");
  (finite_between (mk_dec 110 (-2)) (mk_dec 300 (-2)) (dc_martingale_multiplier c),
   "DIGIT_MARTINGALE_MULTIPLIER_INVALID");
  (in_range 1 (dc_martingale_max_steps c) 4, "DIGIT_MARTINGALE_STEPS_INVALID");
  ((0 <? dc_martingale_max_stake_minor_units c) &&
   (dc_martingale_max_stake_minor_units c <=? dc_daily_stop_loss_minor_units c),
   "DIGIT_MARTINGALE_MAX_STAKE_INVALID");
  (negb (dc_martingale_enabled c) ||
   (dc_stake_minor_units c <=? dc_martingale_max_stake_minor_units c),
   "DIGIT_MARTINGALE_MAX_STAKE_INVALID");
  (negb (dc_martingale_enabled c) ||
   (dc_martingale_max_steps c + 1 <=? dc_max_consecutive_losses c),
   "DIGIT_MARTINGALE_LOSS_LIMIT_TOO_LOW");
  (finite_between (mk_dec 0 (-1)) (mk_dec 100 (-1)) (dc_performance_ratchet_cap_pp c),
   "DIGIT_PERFORMANCE_RATCHET_CAP_INVALID");
  (in_range 1 (dc_performance_window_trades c) 1000, "DIGIT_PERFORMANCE_WINDOW_INVALID");
  (finite_positive (dc_performance_window_hours c), "DIGIT_PERFORMANCE_WINDOW_INVALID");
  (finite_positive (dc_martingale_pin_timeout_seconds c), "DIGIT_MARTINGALE_PIN_TIMEOUT_INVALID")].

Fixpoint first_failed (l : list (bool * string)) : option string :=
  match l with
  | [] => None
  | (true, _) :: l' => first_failed l'
  | (false, reason) :: _ => Some reason
  end.

(** [None] is [(True, None)], [Some reason] is [(False, reason)]. *)
Definition validate_digit_risk_config (c : DigitRiskConfig) : option string :=
  first_failed (digit_config_checks c).

(** ** Lemmas *)

Lemma first_failed_None l b reason : first_failed l = None -> (b, reason) ∈ l -> b = true.
Proof.
  induction l as [|[[] r] l IH]; simpl; intros H Hin; [set_solver|..|done].
  apply elem_of_cons in Hin as [[= -> _]|Hin]; auto.
Qed.

(** A configuration that passes the check has the properties the ledger uses. *)
Lemma valid_digit_config c :
  validate_digit_risk_config c = None ->
  35 <= dc_stake_minor_units c /\ 0 < dc_daily_stop_loss_minor_units c /\
  0 < dc_daily_take_profit_minor_units c /\ 1 <= dc_max_consecutive_losses c <= 5 /\
  dc_currency c = "USD" /\ 1 <= dc_martingale_max_steps c <= 4 /\
  0 < dc_martingale_max_stake_minor_units c <= dc_daily_stop_loss_minor_units c /\
  (dc_martingale_enabled c = true ->
   dc_stake_minor_units c <= dc_martingale_max_stake_minor_units c /\
   dc_martingale_max_steps c < dc_max_consecutive_losses c).
Proof.
  intros H. assert (Forall (fun x => fst x = true) (digit_config_checks c)) as HF.
  { apply Forall_forall. intros [b r] Hin. by eapply first_failed_None. }
  unfold digit_config_checks in HF.
  repeat (apply Forall_cons in HF as [?H HF]). cbn [fst] in *.
  repeat match goal with
  | H : bool_decide _ = true |- _ => apply bool_decide_eq_true in H
  | H : in_range _ _ _ = true |- _ => unfold in_range in H; apply andb_true_iff in H as [?H ?H]
  | H : _ && _ = true |- _ => apply andb_true_iff in H as [?H ?H]
  end.
  split_and!; try done; try lia. intros E. rewrite E in *. simpl in *. lia.
Qed.

Lemma new_Money_usd n : new_Money n "USD" = Ok (mk_Money n "USD").
Proof. reflexivity. Qed.

(** A validated configuration with the progression enabled has an allocator
    configuration. *)
Lemma bounded_martingale_config_Ok c :
  validate_digit_risk_config c = None -> dc_martingale_enabled c = true ->
  exists mc, bounded_martingale_config c = Ok mc /\
    mc_base_stake mc = mk_Money (dc_stake_minor_units c) "USD" /\
    mc_max_stake mc = mk_Money (dc_martingale_max_stake_minor_units c) "USD" /\
    mc_max_steps mc = dc_martingale_max_steps c.
Proof.
  intros H He. pose proof (valid_digit_config c H) as (? & ? & ? & ? & Ecur & ? & ? & Hm).
  destruct (Hm He) as [? ?].
  assert (finite_between (mk_dec 110 (-2)) (mk_dec 300 (-2)) (dc_martingale_multiplier c) = true) as Hmul.
  { eapply (first_failed_None (digit_config_checks c)); [done|].
    apply list_elem_of_lookup. exists 10%nat. reflexivity. }
  unfold bounded_martingale_config. rewrite Ecur, !new_Money_usd. unfold mbind, res_bind.
  eexists. split.
  - unfold new_BoundedMartingaleConfig, guard_res, mbind, res_bind, in_range. cbn [currency minor_units
      mc_base_stake mc_max_stake mc_daily_stop_loss mc_multiplier mc_max_steps].
    rewrite !bool_decide_true by done. rewrite Hmul.
    repeat match goal with |- context [?a <? ?b] => destruct (Z.ltb_spec a b); [|lia]
    | |- context [?a <=? ?b] => destruct (Z.leb_spec a b); [|lia] end. reflexivity.
  - done.
Qed.

(** The allocator's limits are those of the configuration. *)
Lemma bounded_martingale_config_inv c mc :
  bounded_martingale_config c = Ok mc ->
  minor_units (mc_base_stake mc) = dc_stake_minor_units c /\
  minor_units (mc_max_stake mc) = dc_martingale_max_stake_minor_units c /\
  mc_max_steps mc = dc_martingale_max_steps c.
Proof.
  unfold bounded_martingale_config. intros H. apply res_bind_Ok in H as (b & Hb%new_Money_minor & H).
  apply res_bind_Ok in H as (x & Hx%new_Money_minor & H).
  apply res_bind_Ok in H as (d & _ & H).
  assert (mc = mk_BoundedMartingaleConfig b (dc_martingale_multiplier c) (dc_martingale_max_steps c) x d) as ->.
  { unfold new_BoundedMartingaleConfig in H. repeat (apply res_bind_Ok in H as (? & _ & H)).
    by injection H as <-. }
  done.
Qed.
