(* ===== verification/Risk.v ===== *)
(** * The risk ledger

    [apps/core/risk.py]: global exposure limits over the persisted ACTIVE
    reservations, the consolidated daily stop, the digit recovery state and the
    entry checks.  The ledger acts on the shared core state: itself, the health
    gate and the writer (whose database holds reservations and the durable digit
    runtime).

    The clocks are arguments, one reading per call: [mono] is the monotonic clock
    in seconds, [utc] the wall clock.  Seconds are exact decimals. *)

From S2P Require Import Prelude Datetime Dec Domain StateDb Writer Health Martingale DigitConfig.

Inductive RiskState : Type := NORMAL | COOLDOWN | RISK_LOCKED.

#[export] Instance RiskState_eq_dec : EqDecision RiskState.
Proof. solve_decision. Defined.

Record GlobalRiskConfig : Type := mk_GlobalRiskConfig {
  gc_global_max_exposure_minor_units : Z;
  gc_max_exposure_per_symbol_minor_units : Z;
  gc_consolidated_daily_stop_loss_minor_units : Z;
  gc_max_consecutive_losses : Z;
  gc_reference_currency : string
}.

(** [GlobalRiskConfig.__post_init__] *)
Definition new_GlobalRiskConfig (c : GlobalRiskConfig) : res GlobalRiskConfig :=
  _ ← guard_res (0 <? gc_global_max_exposure_minor_units c)
        (ValueError "global_max_exposure_minor_units must be positive");
  _ ← guard_res (0 <? gc_max_exposure_per_symbol_minor_units c)
        (ValueError "max_exposure_per_symbol_minor_units must be positive");
  _ ← guard_res (gc_max_exposure_per_symbol_minor_units c <=? gc_global_max_exposure_minor_units c)
        (ValueError "max_exposure_per_symbol cannot exceed global_max_exposure");
  _ ← guard_res (0 <? gc_consolidated_daily_stop_loss_minor_units c)
        (ValueError "consolidated_daily_stop_loss_minor_units must be positive");
  _ ← guard_res (0 <? gc_max_consecutive_losses c) (ValueError "max_consecutive_losses must be positive");
  _ ← guard_res ((String.length (gc_reference_currency c) =? 3)%nat && str_isalpha (gc_reference_currency c))
        (ValueError "reference_currency must be a 3-letter ISO code");
  Ok (mk_GlobalRiskConfig (gc_global_max_exposure_minor_units c)
        (gc_max_exposure_per_symbol_minor_units c) (gc_consolidated_daily_stop_loss_minor_units c)
        (gc_max_consecutive_losses c) (str_upper (gc_reference_currency c))).

Definition default_GlobalRiskConfig : GlobalRiskConfig := mk_GlobalRiskConfig 50000 20000 10000 3 "USD".

Record RestoredExposure : Type := mk_RestoredExposure {
  re_reservation : string; re_broker : string; re_account : string; re_amount : Money;
  re_symbol : string
}.

#[export] Instance RestoredExposure_eq_dec : EqDecision RestoredExposure.
Proof. solve_decision. Defined.

(** [PersistedActiveExposurePort] and [StaticActiveExposurePort] *)
Inductive ActiveExposurePort : Type :=
| PersistedPort
| StaticPort (exposures : list RestoredExposure).

Record RiskLedger : Type := mk_RiskLedger {
  rl_config : GlobalRiskConfig;
  rl_digit_config : DigitRiskConfig;
  rl_has_expirer : bool;
  rl_port : option ActiveExposurePort;
  rl_digit_daily_pnl : Z;
  rl_digit_consecutive_losses : Z;
  rl_digit_cooldown_deadline : option dec;
  rl_digit_martingale_state : BoundedMartingaleState;
  rl_digit_recovery_symbol : option string;
  rl_digit_cumulative_sequence_loss : Z;
  rl_digit_expected_stake : option Z;
  rl_digit_last_net_profit_ratio : option pydec;
  rl_restored_reservations : gmap string RestoredExposure;
  rl_daily_pnl : Z;
  rl_consecutive_losses : Z;
  rl_risk_state : RiskState
}.

#[export] Instance RiskLedger_eta : Eta RiskLedger := fun r => mk_RiskLedger
  (rl_config r) (rl_digit_config r) (rl_has_expirer r) (rl_port r) (rl_digit_daily_pnl r)
  (rl_digit_consecutive_losses r) (rl_digit_cooldown_deadline r) (rl_digit_martingale_state r)
  (rl_digit_recovery_symbol r) (rl_digit_cumulative_sequence_loss r) (rl_digit_expected_stake r)
  (rl_digit_last_net_profit_ratio r) (rl_restored_reservations r) (rl_daily_pnl r)
  (rl_consecutive_losses r) (rl_risk_state r).

(** [RiskLedger.__init__] *)
Definition new_RiskLedger (config : GlobalRiskConfig) (digit_config : DigitRiskConfig)
    (has_expirer : bool) (port : option ActiveExposurePort) : res RiskLedger :=
  match validate_digit_risk_config digit_config with
  | Some reason => Err (ValueError reason)
  | None => Ok (mk_RiskLedger config digit_config has_expirer port 0 0 None initial_step None 0 None
                  None ∅ 0 0 NORMAL)
  end.

(** ** The shared core state *)

Record core : Type := mk_core { c_ledger : RiskLedger; c_gate : HealthGate; c_writer : writer }.

#[export] Instance core_eta : Eta core := fun c => mk_core (c_ledger c) (c_gate c) (c_writer c).

Abbreviation core_m := (py core).

Definition ledger {A} (f : RiskLedger -> A) : core_m A := py_gets (fun c => f (c_ledger c)).
Definition set_ledger (f : RiskLedger -> RiskLedger) : core_m unit :=
  py_modify (fun c => c <| c_ledger ::= f |>).

(** A call on the optional [health_gate] argument; [hg] says whether it was given. *)
Definition with_gate (hg : bool) (f : HealthGate -> HealthGate) : core_m unit :=
  if hg then py_modify (fun c => c <| c_gate ::= f |>) else mret tt.

(** A transaction of the writer.  The gate and the writer share one
    [DatabaseHealth] object. *)
Definition core_db {A} (operation : db_m A) : core_m A := fun c =>
  let '(r, w) := transaction operation ((c_writer c) <| w_write_failed := false |>) in
  let failed := w_write_failed w in
  (r, c <| c_writer := w <| w_write_failed := failed || w_write_failed (c_writer c) |> |>
        <| c_gate ::= fun g => if failed
             then g <| hg_database ::= fmap (fun _ => mark_failed DB_WRITE_FAILED) |> else g |>).

(** ** Exposure *)

(** A row of [risk_reservations], with the symbol when it was joined. *)
Record ReservationRow : Type := mk_ReservationRow {
  row_reservation_id : string; row_broker : string; row_account_id : string; row_amount_minor : Z;
  row_currency : string; row_symbol : option string
}.

Fixpoint validate_rows (rows : list ReservationRow) (seen_accounts : list (string * string))
    (seen_ids : list string) : res (list RestoredExposure) :=
  match rows with
  | [] => Ok []
  | r :: rows' =>
      _ ← guard_res (nonblank (row_reservation_id r) && nonblank (row_broker r) &&
            nonblank (row_account_id r) && (0 <? row_amount_minor r) &&
            negb (bool_decide (row_reservation_id r ∈ seen_ids)) &&
            negb (bool_decide ((row_broker r, row_account_id r) ∈ seen_accounts)))
            (ValueError "invalid persisted risk reservation");
      amount ← match new_Money (row_amount_minor r) (row_currency r) with
               | Ok m => Ok m
               | Err _ => Err (ValueError "invalid persisted risk reservation")
               end;
      rest ← validate_rows rows' ((row_broker r, row_account_id r) :: seen_accounts)
               (row_reservation_id r :: seen_ids);
      Ok (mk_RestoredExposure (row_reservation_id r) (row_broker r) (row_account_id r) amount
            (default "" (row_symbol r)) :: rest)
  end.

(** [RiskLedger.validate_restored_exposures] *)
Definition validate_restored_exposures (rows : list ReservationRow) : res (list RestoredExposure) :=
  validate_rows rows [] [].

(** A row of [list_active_reservations]. *)
Definition active_row (x : Reservation * string) : ReservationRow :=
  let '(r, symbol) := x in
  mk_ReservationRow (rr_reservation_id r) (value (rr_broker r)) (rr_account_id r) (rr_amount_minor r)
    (rr_currency r) (Some symbol).

(** [active_reservations] of the port. *)
Definition active_reservations (port : ActiveExposurePort) : core_m (list RestoredExposure) :=
  match port with
  | StaticPort exposures => mret exposures
  | PersistedPort => fun c =>
      (validate_restored_exposures (active_row <$> list_active_reservations (w_db (c_writer c))), c)
  end.

Definition is_risk_limit (e : exn) : bool :=
  match e with RiskLimitExceededError _ => true | _ => false end.

(** [_read_active_exposure] *)
Definition read_active_exposure (hg : bool) : core_m (list RestoredExposure) :=
  port ← ledger rl_port;
  reference_currency ← ledger (fun r => gc_reference_currency (rl_config r));
  match port with
  | None =>
      _ ← with_gate hg (block "HG_EXPOSURE_UNKNOWN");
      py_raise (RiskLimitExceededError "HG_EXPOSURE_UNKNOWN")
  | Some port =>
      exposures ← py_try (active_reservations port) (fun e =>
        if is_risk_limit e then None
        else Some (_ ← with_gate hg (block "HG_EXPOSURE_UNKNOWN");
                   py_raise (RiskLimitExceededError "HG_EXPOSURE_UNKNOWN")));
      if existsb (fun x => negb (bool_decide (currency (re_amount x) = reference_currency))) exposures then
        _ ← with_gate hg (block "HG_EXPOSURE_CURRENCY_MISMATCH");
        py_raise (RiskLimitExceededError "HG_EXPOSURE_CURRENCY_MISMATCH")
      else
        _ ← with_gate hg (clear_if "HG_EXPOSURE_UNKNOWN");
        _ ← with_gate hg (clear_if "HG_EXPOSURE_CURRENCY_MISMATCH");
        mret exposures
  end.

Definition exposure_total (l : list RestoredExposure) : Z :=
  foldr Z.add 0 ((fun x => minor_units (re_amount x)) <$> l).

Definition exposure_on (symbol : string) (l : list RestoredExposure) : Z :=
  exposure_total (List.filter (fun x => bool_decide (canonicalize_symbol (re_symbol x) = symbol)) l).

Definition active_exposure_minor_units : core_m Z :=
  l ← read_active_exposure false; mret (exposure_total l).

Definition active_symbol_exposure_minor_units (symbol : string) : core_m Z :=
  l ← read_active_exposure false; mret (exposure_on (canonicalize_symbol symbol) l).

Definition restore (rows : list ReservationRow) : core_m unit :=
  restored ← py_lift (validate_restored_exposures rows);
  set_ledger (fun r => r <| rl_restored_reservations :=
    list_to_map ((fun x => (re_reservation x, x)) <$> reverse restored) |>).

Definition configure_active_exposure_port (port : ActiveExposurePort) (same : bool) : core_m unit :=
  current ← ledger rl_port;
  _ ← py_guard (match current with Some _ => same | None => true end)
        (ValueError "active exposure port is already configured");
  set_ledger (fun r => r <| rl_port := Some port |>).

Definition register_active_reservation (reservation_id broker account_id symbol : string)
    (amount : Money) : core_m unit :=
  _ ← py_guard (nonblank reservation_id && nonblank broker && nonblank account_id &&
                (0 <? minor_units amount)) (ValueError "invalid active risk reservation");
  reference_currency ← ledger (fun r => gc_reference_currency (rl_config r));
  _ ← py_guard (bool_decide (currency amount = reference_currency))
        (ValueError "active risk reservation currency does not match reference currency");
  let exposure := mk_RestoredExposure reservation_id broker account_id amount symbol in
  persisted ← read_active_exposure false;
  _ ← py_guard (negb (existsb (fun a => negb (bool_decide (re_reservation a = reservation_id)) &&
          bool_decide (re_broker a = broker) && bool_decide (re_account a = account_id)) persisted))
        (ValueError "account already has an active risk reservation");
  existing ← ledger (fun r => rl_restored_reservations r !! reservation_id);
  _ ← py_guard (match existing with Some x => bool_decide (x = exposure) | None => true end)
        (ValueError "active risk reservation cannot be overwritten");
  set_ledger (fun r => r <| rl_restored_reservations ::= <[ reservation_id := exposure ]> |>).

Definition ledger_release_reservation (reservation_id : string) : core_m unit :=
  set_ledger (fun r => r <| rl_restored_reservations ::= delete reservation_id |>).

(** ** The digit recovery state *)

Definition dec_add (a b : dec) : dec :=
  let e := Z.min (dexp a) (dexp b) in
  mk_dec (coef a * 10 ^ (dexp a - e) + coef b * 10 ^ (dexp b - e)) e.

(** [timedelta(seconds=d)], in microseconds. *)
Definition usec_of_seconds (d : dec) : Z :=
  if 0 <=? dexp d then coef d * 10 ^ (dexp d + 6)
  else round_div ROUND_HALF_EVEN (coef d * 10 ^ 6) (10 ^ (- dexp d)).

Section digit.
(** [config_fingerprint] of a configuration and the text of a float, which the
    code obtains from [json], [hashlib] and [str]. *)
Variable config_fingerprint : DigitRiskConfig -> string.
Variable float_str : pydec -> string.

Definition digit_runtime_policy (r : RiskLedger) : payload :=
  let config := rl_digit_config r in
  list_to_map [
    ("config_fingerprint", JStr (config_fingerprint config));
    ("currency", JStr (dc_currency config));
    ("martingale_enabled", JBool (dc_martingale_enabled config));
    ("martingale_max_steps", JInt (dc_martingale_max_steps config));
    ("max_consecutive_losses", JInt (dc_max_consecutive_losses config));
    ("cooldown_seconds", JStr (float_str (dc_cooldown_seconds_after_loss config)))].

Definition restore_digit_runtime (row : option DigitRuntime) (mono : dec) (utc : datetime)
    : core_m unit :=
  match row with
  | None => mret tt
  | Some row =>
      active ← ledger (fun r => config_fingerprint (rl_digit_config r));
      _ ← py_guard (bool_decide (dr_config_fingerprint row = active))
            (ValueError "digit runtime configuration does not match active policy");
      _ ← set_ledger (fun r => r <| rl_digit_daily_pnl := dr_daily_pnl_minor row |>
                                 <| rl_digit_consecutive_losses := dr_consecutive_losses row |>);
      state ← py_lift (new_BoundedMartingaleState (dr_martingale_step row));
      _ ← set_ledger (fun r => r <| rl_digit_martingale_state := state |>
            <| rl_digit_recovery_symbol := dr_pinned_symbol row |>
            <| rl_digit_cumulative_sequence_loss := dr_cumulative_sequence_loss_minor row |>);
      match dr_cooldown_started_at row with
      | None => set_ledger (fun r => r <| rl_digit_cooldown_deadline := None |>)
      | Some started_raw =>
          started ← py_lift (fromisoformat started_raw);
          let cooldown := usec_of_seconds (dr_cooldown_seconds row) in
          _ ← py_guard (in_range 1 (dt_year (add_usec started cooldown)) 9999) OverflowError;
          _ ← py_guard (bool_decide (dt_offset started <> None))
                (TypeError "can't subtract offset-naive and offset-aware datetimes");
          let remaining := instant started + cooldown - instant utc in
          set_ledger (fun r => r <| rl_digit_cooldown_deadline :=
            Some (dec_add mono (seconds_of_usec (Z.max 0 remaining))) |>)
      end
  end.

(** The recovery fields cleared together. *)
Definition clear_recovery (r : RiskLedger) : RiskLedger :=
  r <| rl_digit_martingale_state := initial_step |> <| rl_digit_recovery_symbol := None |>
    <| rl_digit_cumulative_sequence_loss := 0 |>.

(** The part of [check_digit_entry] for a cooldown whose deadline has passed. *)
Definition cooldown_elapsed (hg : bool) (mono : dec) (utc : datetime) : core_m unit :=
  _ ← set_ledger (fun r => clear_recovery
        (r <| rl_digit_cooldown_deadline := None |> <| rl_digit_consecutive_losses := 0 |>));
  has_expirer ← ledger rl_has_expirer;
  _ ← (if has_expirer : bool then
         refreshed ← core_db (expire_digit_cooldown utc);
         restore_digit_runtime refreshed mono utc
       else mret tt);
  cooling ← ledger (fun r => bool_decide (rl_risk_state r = COOLDOWN));
  with_gate (hg && negb cooling) (clear "HG_COOLDOWN_ACTIVE").

Definition check_digit_entry (config : DigitRiskConfig) (hg : bool) (mono : dec) (utc : datetime)
    : core_m (bool * option string) :=
  match validate_digit_risk_config config with
  | Some reason => mret (false, Some reason)
  | None =>
      let refuse reason := _ ← with_gate hg (block reason); mret (false, Some reason) in
      locked ← ledger (fun r => bool_decide (rl_risk_state r = RISK_LOCKED));
      pnl ← ledger rl_digit_daily_pnl;
      deadline ← ledger rl_digit_cooldown_deadline;
      if locked : bool then refuse "HG_DAILY_STOP_REACHED"
      else if pnl <=? - dc_daily_stop_loss_minor_units config then refuse "HG_DAILY_STOP_REACHED"
      else if dc_daily_take_profit_minor_units config <=? pnl then
        refuse "HG_DAILY_TAKE_PROFIT_REACHED"
      else if match deadline with Some d => dec_ltb mono d | None => false end then
        refuse "HG_COOLDOWN_ACTIVE"
      else
        _ ← match deadline with Some _ => cooldown_elapsed hg mono utc | None => mret tt end;
        pnl ← ledger rl_digit_daily_pnl;
        if dc_daily_stop_loss_minor_units config + pnl <=? 0 then
          _ ← set_ledger (fun r => r <| rl_risk_state := RISK_LOCKED |>);
          refuse "HG_DAILY_STOP_REACHED"
        else mret (true, None)
  end.

Definition refresh_digit_health_gate (mono : dec) (utc : datetime) : core_m unit :=
  config ← ledger rl_digit_config;
  _ ← check_digit_entry config true mono utc;
  mret tt.

(** [_reset_digit_recovery_state] *)
Definition reset_digit_recovery_state (hg : bool) : core_m unit :=
  _ ← set_ledger (fun r => clear_recovery
        (r <| rl_digit_consecutive_losses := 0 |> <| rl_digit_cooldown_deadline := None |>
           <| rl_digit_expected_stake := None |> <| rl_digit_last_net_profit_ratio := None |>
           <| rl_consecutive_losses := 0 |>
           <| rl_risk_state ::= fun s => if bool_decide (s = COOLDOWN) then NORMAL else s |>));
  with_gate hg (clear "HG_COOLDOWN_ACTIVE").

Definition update_digit_risk_config (config : DigitRiskConfig) (hg reset_active_sequence : bool)
    (mono : dec) (utc : datetime) : core_m (bool * option string) :=
  match validate_digit_risk_config config with
  | Some reason => mret (false, Some reason)
  | None =>
      current ← ledger rl_digit_config;
      state ← ledger rl_digit_martingale_state;
      if bool_decide (config = current) then
        _ ← (if reset_active_sequence then reset_digit_recovery_state hg else mret tt);
        _ ← check_digit_entry config hg mono utc;
        mret (true, None)
      else if (0 <? step state) && dc_martingale_enabled config && negb reset_active_sequence then
        mret (false, Some "DIGIT_MARTINGALE_SEQUENCE_ACTIVE")
      else
        _ ← (if reset_active_sequence then reset_digit_recovery_state hg else mret tt);
        _ ← set_ledger (fun r => r <| rl_digit_config := config |>
                                   <| rl_digit_martingale_state := initial_step |>);
        _ ← check_digit_entry config hg mono utc;
        mret (true, None)
  end.

(** The stake of the recovery for the ledger's state, as
    [recovery_stake(bounded_martingale_config(...), ...)]. *)
Definition ledger_recovery_stake (r : RiskLedger) (ratio : pydec) : res Money :=
  config ← bounded_martingale_config (rl_digit_config r);
  recovery_stake config (rl_digit_martingale_state r) (rl_digit_cumulative_sequence_loss r) ratio
    (dc_daily_stop_loss_minor_units (rl_digit_config r) + rl_digit_daily_pnl r).

(** [except (TypeError, ValueError)] *)
Definition is_type_or_value_error (e : exn) : bool :=
  match e with TypeError _ | ValueError _ => true | _ => false end.

Definition or_entry_blocked (reason : option string) : string :=
  match reason with
  | Some r => if bool_decide (r = "") then "DIGIT_RISK_ENTRY_BLOCKED" else r
  | None => "DIGIT_RISK_ENTRY_BLOCKED"
  end.

Definition digit_entry_stake (hg : bool) (net_profit_ratio : option pydec) (mono : dec) (utc : datetime)
    : core_m Money :=
  config ← ledger rl_digit_config;
  '(allowed, reason) ← check_digit_entry config hg mono utc;
  _ ← py_guard allowed (RiskLimitExceededError (or_entry_blocked reason));
  r ← ledger (fun r => r);
  stake ←
    (if step (rl_digit_martingale_state r) <=? 0 then mret (dc_stake_minor_units (rl_digit_config r))
     else match net_profit_ratio with
          | None => py_raise (RiskLimitExceededError "DIGIT_MARTINGALE_QUOTE_REQUIRED")
          | Some ratio =>
              m ← py_try (py_lift (ledger_recovery_stake r ratio)) (fun e =>
                if is_type_or_value_error e
                then Some (py_raise (RiskLimitExceededError "DIGIT_MARTINGALE_RECOVERY_UNAFFORDABLE"))
                else None);
              _ ← set_ledger (fun r => r <| rl_digit_last_net_profit_ratio := Some ratio |>);
              mret (minor_units m)
          end);
  _ ← set_ledger (fun r => r <| rl_digit_expected_stake := Some stake |>);
  py_lift (new_Money stake (dc_currency (rl_digit_config r))).

(** [_current_digit_stake_minor_units] *)
Definition current_digit_stake (r : RiskLedger) : res Z :=
  let base := dc_stake_minor_units (rl_digit_config r) in
  match rl_digit_expected_stake r with
  | Some expected => Ok expected
  | None =>
      if step (rl_digit_martingale_state r) <=? 0 then Ok base
      else match rl_digit_last_net_profit_ratio r with
           | None => Ok base
           | Some ratio =>
               match ledger_recovery_stake r ratio with
               | Ok m => Ok (minor_units m)
               | Err e => if is_type_or_value_error e then Ok base else Err e
               end
           end
  end.

(** [_digit_stake_minor_units] *)
Definition digit_stake (config : DigitRiskConfig) (state : BoundedMartingaleState) : res Z :=
  if negb (dc_martingale_enabled config) then Ok (dc_stake_minor_units config)
  else
    c ← bounded_martingale_config config;
    m ← stake_for_step c state;
    Ok (minor_units m).

(** ** The entry check of a request *)

Definition refuse_entry {A} (hg : bool) (reason : string) : core_m A :=
  _ ← with_gate hg (block reason);
  py_raise (RiskLimitExceededError reason).

(** The part of [reserve] for the digit products. *)
Definition reserve_digit (request : OrderRequest) (hg : bool) (mono : dec) (utc : datetime)
    : core_m unit :=
  if negb (is_bounded_digit_product (rq_product request)) then mret tt
  else
    config ← ledger rl_digit_config;
    '(allowed, reason) ← check_digit_entry config hg mono utc;
    _ ← py_guard allowed (RiskLimitExceededError (or_entry_blocked reason));
    r ← ledger (fun r => r);
    if negb (dc_martingale_enabled (rl_digit_config r)) then mret tt
    else
      expected ←
        match rl_digit_expected_stake r with
        | Some n => mret n
        | None =>
            if 0 <? step (rl_digit_martingale_state r)
            then py_raise (RiskLimitExceededError "DIGIT_MARTINGALE_QUOTE_REQUIRED")
            else py_lift (current_digit_stake r)
        end;
      py_guard (minor_units (rq_amount request) =? expected)
        (RiskLimitExceededError "DIGIT_RISK_STAKE_MISMATCH").

Definition reserve (request : OrderRequest) (hg : bool) (mono : dec) (utc : datetime) : core_m Money :=
  config ← ledger rl_config;
  let amount := minor_units (rq_amount request) in
  if negb (bool_decide (currency (rq_amount request) = gc_reference_currency config)) then
    refuse_entry hg "HG_EXPOSURE_CURRENCY_MISMATCH"
  else
    _ ← reserve_digit request hg mono utc;
    state ← ledger rl_risk_state;
    match state with
    | RISK_LOCKED => refuse_entry hg "HG_DAILY_STOP_REACHED"
    | COOLDOWN => refuse_entry hg "HG_COOLDOWN_ACTIVE"
    | NORMAL =>
        _ ← py_guard (0 <? amount) (ValueError "risk reservation must be positive");
        active_exposure ← read_active_exposure hg;
        let req_canonical := canonicalize_symbol (rq_symbol request) in
        _ ← py_guard (exposure_on req_canonical active_exposure + amount <=?
                      gc_max_exposure_per_symbol_minor_units config)
              (RiskLimitExceededError "HG_SYMBOL_EXPOSURE_LIMIT_EXCEEDED");
        _ ← py_guard (exposure_total active_exposure + amount <=?
                      gc_global_max_exposure_minor_units config)
              (RiskLimitExceededError "HG_GLOBAL_EXPOSURE_EXCEEDED");
        _ ← set_ledger (fun r => r <| rl_digit_expected_stake := None |>);
        mret (rq_amount request)
    end.

(** ** Settlements *)

(** [apply_digit_realized_pnl] up to its call of the entry check.  The event
    processor does not call the method: after a settlement it reloads the durable row
    ([restore_digit_runtime]); the callers are the tests. *)
Definition digit_settled (pnl : Z) (mono : dec) (r : RiskLedger) : RiskLedger :=
  let config := rl_digit_config r in
  let previous_step := step (rl_digit_martingale_state r) in
  let r := r <| rl_digit_daily_pnl := rl_digit_daily_pnl r + pnl |> in
  let r :=
    if pnl <? 0 then
      let cumulative := rl_digit_cumulative_sequence_loss r + - pnl in
      let r := r <| rl_digit_cumulative_sequence_loss := cumulative |>
                 <| rl_digit_consecutive_losses := rl_digit_consecutive_losses r + 1 |> in
      let r := if dc_martingale_enabled config && (previous_step <? dc_martingale_max_steps config)
               then r <| rl_digit_martingale_state := mk_BoundedMartingaleState (previous_step + 1) |>
               else clear_recovery r in
      if dc_max_consecutive_losses config <=? rl_digit_consecutive_losses r then
        r <| rl_digit_cooldown_deadline :=
               match dc_cooldown_seconds_after_loss config with
               | Finite c => Some (dec_add mono c)
               | _ => rl_digit_cooldown_deadline r
               end |>
      else r
    else if 0 <? pnl then
      let outstanding := Z.max 0 (rl_digit_cumulative_sequence_loss r - pnl) in
      let r := r <| rl_digit_consecutive_losses := 0 |>
                 <| rl_digit_cumulative_sequence_loss := outstanding |> in
      if dc_martingale_enabled config && (0 <? outstanding) &&
         (previous_step <? dc_martingale_max_steps config)
      then r <| rl_digit_martingale_state := mk_BoundedMartingaleState (previous_step + 1) |>
      else clear_recovery r
    else clear_recovery r in
  r <| rl_digit_expected_stake := None |>.

Definition apply_digit_realized_pnl (pnl : Z) (cur : string) (hg : bool) (mono : dec) (utc : datetime)
    : core_m unit :=
  config ← ledger rl_digit_config;
  _ ← py_guard (bool_decide (cur = dc_currency config))
        (ValueError "digit P&L currency does not match active configuration");
  _ ← set_ledger (digit_settled pnl mono);
  losses ← ledger rl_digit_consecutive_losses;
  _ ← with_gate (hg && (pnl <? 0) && (dc_max_consecutive_losses config <=? losses))
        (block "HG_COOLDOWN_ACTIVE");
  _ ← check_digit_entry config hg mono utc;
  mret tt.

Definition apply_realized_pnl (pnl : Z) (hg : bool) : core_m unit :=
  _ ← set_ledger (fun r => r <| rl_daily_pnl := rl_daily_pnl r + pnl |>
        <| rl_consecutive_losses := if pnl <? 0 then rl_consecutive_losses r + 1
                                    else if 0 <? pnl then 0 else rl_consecutive_losses r |>);
  r ← ledger (fun r => r);
  if rl_daily_pnl r <=? - gc_consolidated_daily_stop_loss_minor_units (rl_config r) then
    _ ← set_ledger (fun r => r <| rl_risk_state := RISK_LOCKED |>);
    with_gate hg (block "HG_DAILY_STOP_REACHED")
  else if gc_max_consecutive_losses (rl_config r) <=? rl_consecutive_losses r then
    _ ← set_ledger (fun r => r <| rl_risk_state := COOLDOWN |>);
    with_gate hg (block "HG_COOLDOWN_ACTIVE")
  else mret tt.

Definition reset_daily_pnl (hg : bool) : core_m unit :=
  _ ← set_ledger (fun r => clear_recovery
        (r <| rl_daily_pnl := 0 |> <| rl_consecutive_losses := 0 |> <| rl_risk_state := NORMAL |>
           <| rl_digit_daily_pnl := 0 |> <| rl_digit_consecutive_losses := 0 |>
           <| rl_digit_cooldown_deadline := None |>));
  _ ← with_gate hg (clear "HG_DAILY_STOP_REACHED");
  _ ← with_gate hg (clear "HG_DAILY_TAKE_PROFIT_REACHED");
  with_gate hg (clear "HG_COOLDOWN_ACTIVE").

Definition reset_cooldown (hg : bool) : core_m unit :=
  _ ← set_ledger (fun r => clear_recovery
        (r <| rl_consecutive_losses := 0 |> <| rl_digit_consecutive_losses := 0 |>
           <| rl_digit_cooldown_deadline := None |>
           <| rl_risk_state ::= fun s => if bool_decide (s = COOLDOWN) then NORMAL else s |>));
  with_gate hg (clear "HG_COOLDOWN_ACTIVE").
End digit.

(** ** Metrics *)

Record DigitRiskMetrics : Type := mk_DigitRiskMetrics {
  dm_active_config : DigitRiskConfig; dm_daily_pnl : Z; dm_consecutive_losses : Z;
  dm_cooldown_remaining_seconds : Z; dm_martingale_step : Z; dm_next_stake : Z;
  dm_projected_sequence_loss : Z; dm_recovery_symbol : option string;
  dm_cumulative_sequence_loss : Z
}.

(** [ceil(a - b)] *)
Definition ceil_diff (a b : dec) : Z :=
  let d := dec_add a (mk_dec (- coef b) (dexp b)) in
  if 0 <=? dexp d then coef d * 10 ^ dexp d else round_div ROUND_CEILING (coef d) (10 ^ (- dexp d)).

Definition get_digit_metrics (mono : dec) (r : RiskLedger) : res DigitRiskMetrics :=
  let remaining := match rl_digit_cooldown_deadline r with
                   | None => 0 | Some deadline => Z.max 0 (ceil_diff deadline mono) end in
  next ← current_digit_stake r;
  projected ← projected_martingale_stakes (rl_digit_config r);
  Ok (mk_DigitRiskMetrics (rl_digit_config r) (rl_digit_daily_pnl r) (rl_digit_consecutive_losses r)
        remaining (step (rl_digit_martingale_state r)) next (foldr Z.add 0 projected)
        (rl_digit_recovery_symbol r) (rl_digit_cumulative_sequence_loss r)).

Record RiskMetrics : Type := mk_RiskMetrics {
  rm_global_exposure : Z; rm_global_max_exposure : Z; rm_daily_pnl : Z; rm_consecutive_losses : Z;
  rm_risk_state : RiskState
}.

Definition get_metrics : core_m RiskMetrics :=
  global_exp ← active_exposure_minor_units;
  r ← ledger (fun r => r);
  mret (mk_RiskMetrics global_exp (gc_global_max_exposure_minor_units (rl_config r)) (rl_daily_pnl r)
          (rl_consecutive_losses r) (rl_risk_state r)).
