(* ===== verification/RiskProps.v ===== *)
(** * What the risk ledger guarantees

    The preflight of [reserve] against the authoritative check of the writer, the
    entry checks, the recovery stake against the daily stop, and the in-memory
    progression against the durable one. *)

From S2P Require Import Prelude Datetime Dec Domain StateDb Writer WriterInv WriterOps WriterProps Health Martingale DigitConfig Risk.

(** ** The preflight and the writer compute the same exposure *)

Definition row_of (row : ReservationRow) (x : RestoredExposure) : Prop :=
  minor_units (re_amount x) = row_amount_minor row /\ re_symbol x = default "" (row_symbol row).

Lemma validate_rows_Forall2 rows sa si l :
  validate_rows rows sa si = Ok l -> Forall2 row_of rows l.
Proof.
  revert sa si l. induction rows as [|r rows IH]; simpl; intros sa si l H; [by simplify_eq|].
  apply res_bind_Ok in H as (u & _ & H). apply res_bind_Ok in H as (m & Hm & H).
  apply res_bind_Ok in H as (rest & Hrest & [= <-]). constructor; [|by eapply IH].
  destruct (new_Money _ _) as [m'|] eqn:E; [|done]. injection Hm as ->.
  split; [by eapply new_Money_minor|done].
Qed.

Definition row_on (symbol : string) (row : ReservationRow) : bool :=
  bool_decide (canonicalize_symbol (default "" (row_symbol row)) = symbol).

Lemma exposure_rows rows l :
  Forall2 row_of rows l ->
  exposure_total l = sumZ (row_amount_minor <$> rows) /\
  (forall symbol, exposure_on symbol l = sumZ (row_amount_minor <$> List.filter (row_on symbol) rows)).
Proof.
  unfold exposure_on, exposure_total, sumZ, row_on.
  induction 1 as [|row x rows l [Ea Es] _ [IH1 IH2]]; [done|]. rewrite !fmap_cons. simpl. split; [lia|].
  intros symbol. rewrite Es. case_bool_decide; [|done]. rewrite !fmap_cons. simpl. rewrite IH2. lia.
Qed.

Lemma sumZ_perm l l' : l ≡ₚ l' -> sumZ l = sumZ l'.
Proof. unfold sumZ. induction 1; simpl; lia. Qed.

Lemma filter_perm {A} (p : A -> bool) l l' : l ≡ₚ l' -> List.filter p l ≡ₚ List.filter p l'.
Proof.
  induction 1 as [|x l l' _ IH|x y l|l1 l2 l3 _ IH1 _ IH2]; simpl.
  - done.
  - destruct (p x); [by constructor|done].
  - destruct (p x), (p y); try done. constructor.
  - by rewrite IH1.
Qed.

(** Every reservation joins with its intent. *)
Lemma reservation_joins s r :
  struct_inv s -> r ∈ risk_reservations s ->
  exists t, fetchone (fun t => bool_decide (ti_intent_id t = rr_intent_id r)) (trade_intents s) = Some t.
Proof.
  intros Hst Hr. destruct (fetchone _ _) as [t|] eqn:E; [eauto|exfalso].
  assert (rr_intent_id r ∈ ti_intent_id <$> trade_intents s) as Hin.
  { rewrite <- (si_res_intents s Hst). by apply list_elem_of_fmap_2. }
  apply list_elem_of_fmap in Hin as (t & Ei & Ht).
  pose proof (fetchone_None _ _ _ E Ht) as Hf. apply bool_decide_eq_false in Hf.
  by rewrite Ei in Hf.
Qed.

Definition with_symbol (s : state_db) (r : Reservation) : option (Reservation * string) :=
  (fun t => (r, ti_symbol t)) <$>
    fetchone (fun t => bool_decide (ti_intent_id t = rr_intent_id r)) (trade_intents s).

Definition active_rows (s : state_db) : list Reservation :=
  select (fun r => bool_decide (rr_state r = ACTIVE)) (risk_reservations s).

Lemma list_active_perm s : list_active_reservations s ≡ₚ omap (with_symbol s) (active_rows s).
Proof. apply sort_by_perm. Qed.

Lemma joined_sums s l :
  struct_inv s -> (forall r, r ∈ l -> r ∈ risk_reservations s) ->
  let rows := active_row <$> omap (with_symbol s) l in
  sumZ (row_amount_minor <$> rows) = sumZ (rr_amount_minor <$> l) /\
  (forall symbol, sumZ (row_amount_minor <$> List.filter (row_on symbol) rows) =
     sumZ (rr_amount_minor <$> List.filter (fun r => bool_decide (reservation_symbol s r = Some symbol)) l)).
Proof.
  intros Hst. induction l as [|r l IH]; intros Hsub; [done|].
  destruct IH as [IH1 IH2]; [intros; apply Hsub; by right|].
  destruct (reservation_joins s r Hst (Hsub r (list_elem_of_here _ _))) as (t & Et).
  assert (with_symbol s r = Some (r, ti_symbol t)) as Ew by (unfold with_symbol; by rewrite Et).
  assert (reservation_symbol s r = Some (canonicalize_symbol (ti_symbol t))) as Es
    by (unfold reservation_symbol; by rewrite Et).
  cbn [omap list_omap]. rewrite Ew. cbn zeta. rewrite !fmap_cons. cbn [List.filter]. unfold row_on at 1.
  simpl. rewrite Es. unfold sumZ in *. simpl. split; [by rewrite IH1|]. intros symbol.
  destruct (decide (canonicalize_symbol (ti_symbol t) = symbol)) as [E|E].
  - rewrite !bool_decide_true by congruence. rewrite !fmap_cons. simpl. by rewrite IH2.
  - rewrite !bool_decide_false by congruence. by rewrite IH2.
Qed.

(** The sums over [list_active_reservations] do not depend on its order. *)
Lemma active_rows_sums s :
  struct_inv s ->
  let rows := active_row <$> list_active_reservations s in
  sumZ (row_amount_minor <$> rows) = sumZ (rr_amount_minor <$> active_rows s) /\
  (forall symbol, sumZ (row_amount_minor <$> List.filter (row_on symbol) rows) =
     sumZ (rr_amount_minor <$>
       List.filter (fun r => bool_decide (reservation_symbol s r = Some symbol)) (active_rows s))).
Proof.
  intros Hst rows. destruct (joined_sums s (active_rows s) Hst) as [<- H2].
  { intros r Hr. by apply elem_of_select in Hr as [? _]. }
  assert (rows ≡ₚ active_row <$> omap (with_symbol s) (active_rows s)) as Hp
    by (unfold rows; by rewrite list_active_perm).
  split; [apply sumZ_perm; by rewrite Hp|]. intros symbol. rewrite <- H2.
  apply sumZ_perm. by rewrite (filter_perm _ _ _ Hp).
Qed.

(** the preflight of the risk ledger and the check inside the writer's
    transaction measure the same thing: on any reachable database whose active
    reservations are in the reference currency, the exposure read through the
    persisted port is the sum the writer's SQL computes, in total and per
    canonical symbol. *)
Theorem preflight_agrees_with_writer inject payload_hash ops cur l :
  (forall r, r ∈ risk_reservations (db_after inject payload_hash ops) -> rr_state r = ACTIVE ->
     rr_currency r = cur) ->
  validate_restored_exposures
    (active_row <$> list_active_reservations (db_after inject payload_hash ops)) = Ok l ->
  exposure_total l = active_exposure cur (db_after inject payload_hash ops) /\
  (forall symbol, exposure_on symbol l =
     active_symbol_exposure cur symbol (db_after inject payload_hash ops)).
Proof.
  pose proof (db_after_ok inject payload_hash ops) as Hok. set (s := db_after _ _ ops) in *.
  intros Hcur Hl%validate_rows_Forall2. destruct (exposure_rows _ _ Hl) as [-> Hon].
  destruct (active_rows_sums s (inv_struct _ _ _ Hok)) as [-> Hsym].
  assert (forall p, List.filter p (active_rows s) =
    select (fun r => is_active_in cur r && p r) (risk_reservations s)) as Hsel.
  { intros p. unfold active_rows, select, is_active_in. clear -Hcur. induction (risk_reservations s) as [|r t IH]; [done|].
    simpl. rewrite <- IH by (intros; apply Hcur; [by right|done]).
    destruct (decide (rr_state r = ACTIVE)) as [E|E].
    - rewrite !(bool_decide_true (rr_state r = ACTIVE)) by done.
      rewrite (bool_decide_true (rr_currency r = cur)) by (apply Hcur; [left|done]). done.
    - by rewrite !(bool_decide_false (rr_state r = ACTIVE)) by done. }
  split.
  - unfold active_exposure. f_equal. f_equal. pose proof (Hsel (fun _ => true)) as H.
    rewrite List.filter_true in H.
    etransitivity; [exact H|]. unfold select. apply List.filter_ext. intros r. by rewrite andb_true_r.
  - intros symbol. rewrite Hon, Hsym. unfold active_symbol_exposure. by rewrite Hsel.
Qed.

(** ** The entry checks *)

Lemma with_gate_Ok hg f c u c' :
  with_gate hg f c = (Ok u, c') -> c_ledger c' = c_ledger c /\ c_writer c' = c_writer c.
Proof. unfold with_gate. destruct hg; intros H; [apply py_modify_Ok in H|apply py_ret_Ok in H as [_ H]]; by subst. Qed.

(** What every run of a program leaves alone. *)
Definition frame {X A} (proj : core -> X) (m : core_m A) : Prop := forall c, proj (snd (m c)) = proj c.

Lemma frame_bind {X A B} (proj : core -> X) (m : core_m A) (k : A -> core_m B) :
  frame proj m -> (forall a, frame proj (k a)) -> frame proj (m ≫= k).
Proof.
  intros Hm Hk c. specialize (Hm c). unfold mbind, py_bind. destruct (m c) as [[a|e] c'] eqn:E; [|done].
  rewrite Hk. done.
Qed.

Lemma frame_ret {X A} (proj : core -> X) (a : A) : frame proj (mret a).
Proof. done. Qed.
Lemma frame_raise {X A} (proj : core -> X) e : frame proj (py_raise e : core_m A).
Proof. done. Qed.
Lemma frame_gets {X A} (proj : core -> X) (f : core -> A) : frame proj (py_gets f).
Proof. done. Qed.
Lemma frame_lift {X A} (proj : core -> X) (r : res A) : frame proj (py_lift r).
Proof. done. Qed.
Lemma frame_guard {X} (proj : core -> X) b e : frame proj (py_guard b e).
Proof. unfold py_guard. by destruct b. Qed.
Lemma frame_gate {X} (proj : core -> X) hg f :
  (forall c g, proj (c <| c_gate := g |>) = proj c) -> frame proj (with_gate hg f).
Proof. intros Hp c. unfold with_gate. destruct hg; [|done]. apply (Hp c). Qed.
Lemma frame_set {X} (proj : core -> X) f :
  (forall c, proj (c <| c_ledger ::= f |>) = proj c) -> frame proj (set_ledger f).
Proof. intros Hp c. apply Hp. Qed.
Lemma frame_db {X A} (proj : core -> X) (m : db_m A) :
  (forall c w g, proj (c <| c_writer := w |> <| c_gate := g |>) = proj c) -> frame proj (core_db m).
Proof. intros Hp c. unfold core_db. destruct (transaction _ _) as [r w]. apply (Hp c). Qed.
Lemma frame_try {X A} (proj : core -> X) (m : core_m A) h :
  frame proj m -> (forall e k, h e = Some k -> frame proj k) -> frame proj (py_try m h).
Proof.
  intros Hm Hh c. specialize (Hm c). unfold py_try. destruct (m c) as [[a|e] c']; [done|].
  destruct (h e) as [k|] eqn:E; [|done]. by rewrite (Hh e k E).
Qed.

Create HintDb frames discriminated.
#[export] Hint Resolve frame_ret frame_raise frame_gets frame_lift frame_guard : frames.
#[export] Hint Extern 2 (frame _ (with_gate _ _)) => apply frame_gate; reflexivity : frames.
#[export] Hint Extern 2 (frame _ (set_ledger _)) => apply frame_set; reflexivity : frames.
#[export] Hint Extern 2 (frame _ (core_db _)) => apply frame_db; reflexivity : frames.
#[export] Hint Extern 2 (frame _ (ledger _)) => apply frame_gets : frames.

Ltac frame_solve :=
  repeat match goal with
  | |- frame _ (_ ≫= _) => apply frame_bind; [|intros ?]
  | |- frame _ (match ?x with _ => _ end) => destruct x
  | |- frame _ _ => solve [auto with frames]
  end.

Section entry.
Variable fp : DigitRiskConfig -> string.

(** The risk state and the configurations are not written by a digit check that
    admits an entry. *)
Lemma restore_frame {X} (proj : core -> X) row mono utc :
  (forall f, (forall r, rl_risk_state (f r) = rl_risk_state r /\ rl_config (f r) = rl_config r /\
     rl_digit_config (f r) = rl_digit_config r /\
     rl_digit_expected_stake (f r) = rl_digit_expected_stake r) -> frame proj (set_ledger f)) ->
  frame proj (restore_digit_runtime fp row mono utc).
Proof.
  intros Hset. unfold restore_digit_runtime. frame_solve; by apply Hset.
Qed.

Definition fixed_part (c : core) : RiskState * GlobalRiskConfig * DigitRiskConfig * option Z :=
  (rl_risk_state (c_ledger c), rl_config (c_ledger c), rl_digit_config (c_ledger c),
   rl_digit_expected_stake (c_ledger c)).

Lemma fixed_set f :
  (forall r, rl_risk_state (f r) = rl_risk_state r /\ rl_config (f r) = rl_config r /\
     rl_digit_config (f r) = rl_digit_config r /\
     rl_digit_expected_stake (f r) = rl_digit_expected_stake r) -> frame fixed_part (set_ledger f).
Proof. intros Hf. apply frame_set. intros c. unfold fixed_part. simpl. by destruct (Hf (c_ledger c)) as (-> & -> & -> & ->). Qed.

Lemma cooldown_elapsed_frame hg mono utc : frame fixed_part (cooldown_elapsed fp hg mono utc).
Proof.
  unfold cooldown_elapsed. frame_solve; try (by apply fixed_set).
  apply restore_frame. intros f Hf. by apply fixed_set.
Qed.

Lemma check_allowed config hg mono utc c reason c' :
  check_digit_entry fp config hg mono utc c = (Ok (true, reason), c') ->
  validate_digit_risk_config config = None /\ rl_risk_state (c_ledger c) <> RISK_LOCKED /\
  fixed_part c' = fixed_part c /\
  rl_digit_daily_pnl (c_ledger c) < dc_daily_take_profit_minor_units config /\
  - dc_daily_stop_loss_minor_units config < rl_digit_daily_pnl (c_ledger c') /\
  (forall d, rl_digit_cooldown_deadline (c_ledger c) = Some d -> dec_ltb mono d = false).
Proof.
  unfold check_digit_entry. destruct (validate_digit_risk_config config) as [r0|]; [by intros [= ]|].
  intros H. do 3 (apply py_bind_Ok in H as (? & ? & [-> ->]%py_gets_Ok & H)).
  case_bool_decide as Hlock.
  { apply py_bind_Ok in H as (? & ? & _ & [? _]%py_ret_Ok). done. }
  destruct (_ <=? - _) eqn:Hstop; [apply py_bind_Ok in H as (? & ? & _ & [? _]%py_ret_Ok); done|].
  destruct (_ <=? rl_digit_daily_pnl _) eqn:Htp in H; [apply py_bind_Ok in H as (? & ? & _ & [? _]%py_ret_Ok); done|].
  destruct (match rl_digit_cooldown_deadline _ with Some d => _ | None => false end) eqn:Hcd in H;
    [apply py_bind_Ok in H as (? & ? & _ & [? _]%py_ret_Ok); done|].
  apply py_bind_Ok in H as (u & c1 & Hexp & H).
  apply py_bind_Ok in H as (pnl & c2 & [-> ->]%py_gets_Ok & H).
  destruct (_ + _ <=? 0) eqn:Hrem in H.
  { do 2 (apply py_bind_Ok in H as (? & ? & _ & H)). apply py_ret_Ok in H as [? _]. done. }
  apply py_ret_Ok in H as [_ ->]. apply Z.leb_gt in Hstop, Htp, Hrem.
  split; [done|]. split; [done|]. split.
  - destruct (rl_digit_cooldown_deadline (c_ledger c)); [|by apply py_ret_Ok in Hexp as [_ ->]].
    pose proof (cooldown_elapsed_frame hg mono utc c) as Hf. by rewrite Hexp in Hf.
  - split; [lia|]. split; [lia|]. intros d Ed. by rewrite Ed in Hcd.
Qed.
(** a recovery stake cannot break the daily stop.  The stake quoted for a digit
    entry is remembered as the expected one; outside a recovery it is the base
    stake; in a recovery it is at least the base stake, at most the maximum stake,
    and losing all of it leaves the day's digit P&L at or above the stop. *)
Theorem recovery_stays_within_daily_stop hg ratio mono utc c m c' :
  digit_entry_stake fp hg ratio mono utc c = (Ok m, c') ->
  rl_digit_expected_stake (c_ledger c') = Some (minor_units m) /\
  (step (rl_digit_martingale_state (c_ledger c')) <= 0 ->
     minor_units m = dc_stake_minor_units (rl_digit_config (c_ledger c'))) /\
  (0 < step (rl_digit_martingale_state (c_ledger c')) ->
   0 < rl_digit_cumulative_sequence_loss (c_ledger c') ->
     dc_stake_minor_units (rl_digit_config (c_ledger c')) <= minor_units m <=
       dc_martingale_max_stake_minor_units (rl_digit_config (c_ledger c')) /\
     - dc_daily_stop_loss_minor_units (rl_digit_config (c_ledger c')) <=
       rl_digit_daily_pnl (c_ledger c') - minor_units m).
Proof.
  unfold digit_entry_stake. intros H. apply py_bind_Ok in H as (? & ? & [-> ->]%py_gets_Ok & H).
  apply py_bind_Ok in H as ([allowed reason] & c1 & _ & H).
  apply py_bind_Ok in H as (? & ? & [_ ->]%py_guard_Ok & H).
  apply py_bind_Ok in H as (? & ? & [-> ->]%py_gets_Ok & H).
  apply py_bind_Ok in H as (stake & c2 & Hst & H).
  apply py_bind_Ok in H as (? & ? & ->%py_modify_Ok & H).
  apply py_lift_Ok in H as [Em%new_Money_minor ->]. rewrite Em. cbn.
  destruct (Z.leb_spec (step (rl_digit_martingale_state (c_ledger c1))) 0).
  { apply py_ret_Ok in Hst as [-> ->]. split; [done|]. split; [done|lia]. }
  destruct ratio as [ratio|]; [|done]. apply py_bind_Ok in Hst as (m' & c3 & Hrec & Hst).
  apply py_bind_Ok in Hst as (? & ? & ->%py_modify_Ok & [-> ->]%py_ret_Ok). cbn.
  unfold py_try, py_lift in Hrec. destruct (ledger_recovery_stake _ _) as [m''|e] eqn:Er.
  2: { destruct (is_type_or_value_error e); done. }
  injection Hrec as -> <-. split; [done|]. split; [lia|]. intros _ Hcum.
  unfold ledger_recovery_stake in Er. apply res_bind_Ok in Er as (mc & Hmc & Er).
  apply recovery_stake_inv in Er as (r & t & q & _ & _ & _ & _ & Emax & Hmin & _); [|done|done].
  apply bounded_martingale_config_inv in Hmc as (Eb & Ex & _). rewrite Eb in Emax. rewrite Ex in Hmin. lia.
Qed.

(** The checks a digit request passed. *)
Lemma reserve_digit_Ok q hg mono utc c u c' :
  reserve_digit fp q hg mono utc c = (Ok u, c') ->
  fixed_part c' = fixed_part c /\
  (is_bounded_digit_product (rq_product q) = true ->
   - dc_daily_stop_loss_minor_units (rl_digit_config (c_ledger c)) < rl_digit_daily_pnl (c_ledger c') /\
   (dc_martingale_enabled (rl_digit_config (c_ledger c)) = true ->
    0 < step (rl_digit_martingale_state (c_ledger c')) ->
    rl_digit_expected_stake (c_ledger c) = Some (minor_units (rq_amount q)))).
Proof.
  unfold reserve_digit. destruct (is_bounded_digit_product (rq_product q)); simpl.
  2: { intros [_ ->]%py_ret_Ok. done. }
  intros H. apply py_bind_Ok in H as (? & ? & [-> ->]%py_gets_Ok & H).
  apply py_bind_Ok in H as ([allowed reason] & c1 & Hchk & H).
  apply py_bind_Ok in H as (? & ? & [-> ->]%py_guard_Ok & H).
  apply check_allowed in Hchk as (_ & _ & Hfix & _ & Hstop & _).
  pose proof Hfix as [= _ _ Edc Eexp].
  apply py_bind_Ok in H as (? & ? & [-> ->]%py_gets_Ok & H). rewrite Edc in H.
  destruct (dc_martingale_enabled (rl_digit_config (c_ledger c))); simpl in H.
  2: { apply py_ret_Ok in H as [_ ->]. done. }
  apply py_bind_Ok in H as (exp & c2 & He & [Heq%Z.eqb_eq ->]%py_guard_Ok).
  destruct (rl_digit_expected_stake (c_ledger c1)) as [n|] eqn:En.
  - apply py_ret_Ok in He as [-> ->]. split; [done|]. intros _. split; [done|]. intros _ _.
    rewrite <- Eexp. congruence.
  - destruct (Z.ltb_spec 0 (step (rl_digit_martingale_state (c_ledger c1)))); [done|].
    apply py_lift_Ok in He as [_ ->]. split; [done|]. intros _. split; [done|]. lia.
Qed.

Lemma read_exposure_Ok hg c l c' :
  read_active_exposure hg c = (Ok l, c') ->
  c_ledger c' = c_ledger c /\ c_writer c' = c_writer c /\
  (forall x, x ∈ l -> currency (re_amount x) = gc_reference_currency (rl_config (c_ledger c))) /\
  match rl_port (c_ledger c) with
  | Some PersistedPort => validate_restored_exposures
      (active_row <$> list_active_reservations (w_db (c_writer c))) = Ok l
  | Some (StaticPort exposures) => l = exposures
  | None => False
  end.
Proof.
  unfold read_active_exposure. intros H. do 2 (apply py_bind_Ok in H as (? & ? & [-> ->]%py_gets_Ok & H)).
  destruct (rl_port (c_ledger c)) as [port|].
  2: { apply py_bind_Ok in H as (? & ? & _ & H). done. }
  apply py_bind_Ok in H as (exps & c1 & Hp & H).
  assert (c1 = c /\ match port with PersistedPort => validate_restored_exposures
      (active_row <$> list_active_reservations (w_db (c_writer c))) = Ok exps
    | StaticPort e => exps = e end) as [-> Hport].
  { unfold py_try, active_reservations in Hp. destruct port.
    - destruct (validate_restored_exposures _); [by injection Hp as -> ->|].
      destruct (is_risk_limit e); [done|]. apply py_bind_Ok in Hp as (? & ? & _ & Hp). done.
    - by injection Hp as -> ->. }
  destruct (existsb _ _) eqn:Ex; [apply py_bind_Ok in H as (? & ? & _ & H); done|].
  apply py_bind_Ok in H as (? & c1 & [E1 E2]%with_gate_Ok & H).
  apply py_bind_Ok in H as (? & c2 & [E3 E4]%with_gate_Ok & [-> ->]%py_ret_Ok).
  split; [congruence|]. split; [congruence|]. split; [|by destruct port].
  intros y Hy. apply not_true_iff_false in Ex.
  destruct (decide (currency (re_amount y) = gc_reference_currency (rl_config (c_ledger c)))); [done|].
  exfalso. apply Ex, existsb_exists. exists y. split; [by apply list_elem_of_In|].
  by rewrite bool_decide_false.
Qed.

Lemma reserve_amount q hg mono utc c m c' : reserve fp q hg mono utc c = (Ok m, c') -> m = rq_amount q.
Proof.
  unfold reserve. intros H. apply py_bind_Ok in H as (? & ? & _ & H). destruct (negb _).
  { apply py_bind_Ok in H as (? & ? & _ & H). done. }
  apply py_bind_Ok in H as (? & ? & _ & H). apply py_bind_Ok in H as (st & ? & _ & H).
  destruct st; [|by apply py_bind_Ok in H as (? & ? & _ & H)|by apply py_bind_Ok in H as (? & ? & _ & H)].
  do 5 (apply py_bind_Ok in H as (? & ? & _ & H)). by apply py_ret_Ok in H as [-> _].
Qed.

(** What an approved reservation has passed.  The amount is the requested one,
    positive and in the reference currency; the ledger is not locked and not in a
    cooldown; for a digit product the day is above its stop and, in a recovery, the
    amount is the stake quoted last; the exposure on the canonical symbol and the
    total exposure stay within the limits with the new amount, where the exposure
    is the one of the port. *)
Theorem approved_reservation_is_within_limits q hg mono utc c m c' :
  reserve fp q hg mono utc c = (Ok m, c') ->
  m = rq_amount q /\ 0 < minor_units (rq_amount q) /\
  currency (rq_amount q) = gc_reference_currency (rl_config (c_ledger c')) /\
  rl_risk_state (c_ledger c') = NORMAL /\
  (is_bounded_digit_product (rq_product q) = true ->
   - dc_daily_stop_loss_minor_units (rl_digit_config (c_ledger c')) < rl_digit_daily_pnl (c_ledger c') /\
   (dc_martingale_enabled (rl_digit_config (c_ledger c')) = true ->
    0 < step (rl_digit_martingale_state (c_ledger c')) ->
    rl_digit_expected_stake (c_ledger c) = Some (minor_units (rq_amount q)))) /\
  exists l,
    match rl_port (c_ledger c') with
    | Some PersistedPort => validate_restored_exposures
        (active_row <$> list_active_reservations (w_db (c_writer c'))) = Ok l
    | Some (StaticPort exposures) => l = exposures
    | None => False
    end /\
    exposure_on (canonicalize_symbol (rq_symbol q)) l + minor_units (rq_amount q) <=
      gc_max_exposure_per_symbol_minor_units (rl_config (c_ledger c')) /\
    exposure_total l + minor_units (rq_amount q) <=
      gc_global_max_exposure_minor_units (rl_config (c_ledger c')).
Proof.
  unfold reserve. intros H. apply py_bind_Ok in H as (? & ? & [-> ->]%py_gets_Ok & H).
  case_bool_decide as Hcur; simpl in H.
  2: { apply py_bind_Ok in H as (? & ? & _ & H). done. }
  apply py_bind_Ok in H as (? & c1 & [Hfix Hdig]%reserve_digit_Ok & H).
  pose proof Hfix as [= _ Ecfg Edc _].
  apply py_bind_Ok in H as (? & ? & [-> ->]%py_gets_Ok & H).
  destruct (rl_risk_state (c_ledger c1)) eqn:Est;
    [|by apply py_bind_Ok in H as (? & ? & _ & H)|by apply py_bind_Ok in H as (? & ? & _ & H)].
  apply py_bind_Ok in H as (? & ? & [Hpos%Z.ltb_lt ->]%py_guard_Ok & H).
  apply py_bind_Ok in H as (l & c2 & (El & Ew & _ & Hport)%read_exposure_Ok & H).
  apply py_bind_Ok in H as (? & ? & [Hsym%Z.leb_le ->]%py_guard_Ok & H).
  apply py_bind_Ok in H as (? & ? & [Hglob%Z.leb_le ->]%py_guard_Ok & H).
  apply py_bind_Ok in H as (? & ? & ->%py_modify_Ok & [-> ->]%py_ret_Ok). cbn.
  rewrite <- El, <- Ew in Hport. rewrite <- Ecfg in *. rewrite El, Est, Edc in *.
  split; [done|]. split; [done|]. split; [done|]. split; [done|]. split; [|by exists l].
  intros Hd. rewrite <- Edc. rewrite <- Edc in Hdig. exact (Hdig Hd).
Qed.
End entry.

(** ** The in-memory and the durable progression *)

(** The ledger and the durable row agree on the recovery counters and on the
    policy that drives them. *)
Record agrees (r : RiskLedger) (row : DigitRuntime) : Prop := {
  ag_pnl : rl_digit_daily_pnl r = dr_daily_pnl_minor row;
  ag_losses : rl_digit_consecutive_losses r = dr_consecutive_losses row;
  ag_step : step (rl_digit_martingale_state r) = dr_martingale_step row;
  ag_cumulative : rl_digit_cumulative_sequence_loss r = dr_cumulative_sequence_loss_minor row;
  ag_enabled : dc_martingale_enabled (rl_digit_config r) = dr_martingale_enabled row;
  ag_max_steps : dc_martingale_max_steps (rl_digit_config r) = dr_martingale_max_steps row;
  ag_max_losses : dc_max_consecutive_losses (rl_digit_config r) = dr_max_consecutive_losses row
}.

(** With the progression disabled the ledger's own method and the writer differ:
    the durable row keeps accumulating the loss that the ledger clears, and enabling
    the progression later starts from it. *)
Example disabled_progression_diverges (r : RiskLedger) (row : DigitRuntime) mono symbol oid sid at_ :
  agrees r row -> dr_martingale_enabled row = false -> dr_cumulative_sequence_loss_minor row = 0 ->
  rl_digit_cumulative_sequence_loss (digit_settled (-100) mono r) = 0 /\
  dr_cumulative_sequence_loss_minor (settle_digit_runtime row symbol (-100) oid sid at_) = 100.
Proof.
  intros [E1 E2 E3 E4 E5 E6 E7] He Hz. unfold digit_settled, settle_digit_runtime. rewrite E5, He. simpl.
  rewrite Hz. split; [|done]. by case_match.
Qed.

(** ** Witnesses *)

Import Sample.

Definition sample_exposures : list RestoredExposure :=
  [mk_RestoredExposure "r1" "DERIV" "A1" (mk_Money 100 "USD") "R_100"].

Lemma preflight_agrees_with_writer_witness :
  exposure_total sample_exposures = active_exposure "USD" (db_after no_fault hash accepted) /\
  active_exposure "USD" (db_after no_fault hash accepted) = 100.
Proof.
  split; [|vm_compute; reflexivity].
  refine (proj1 (preflight_agrees_with_writer no_fault hash accepted "USD" sample_exposures _ _)).
  - intros r Hr _. assert (r = reservation_at 0 (db_after no_fault hash accepted)) as ->.
    { apply list_elem_of_singleton. exact Hr. }
    vm_compute. reflexivity.
  - vm_compute. reflexivity.
Defined.

(** A ledger in the second step of a recovery, with the port on the store. *)
Definition recovering_config : DigitRiskConfig :=
  default_DigitRiskConfig <| dc_martingale_enabled := true |> <| dc_max_consecutive_losses := 5 |>.
Definition recovering_ledger : RiskLedger :=
  mk_RiskLedger default_GlobalRiskConfig recovering_config false (Some PersistedPort) (-300) 2 None
    (mk_BoundedMartingaleState 2) (Some "R_100") 300 None None ∅ (-300) 2 NORMAL.
Definition recovering_core : core :=
  mk_core recovering_ledger (health_gate_init (Some mark_healthy))
    (mk_writer (db_after no_fault hash two_pending) false).
Definition sample_fp (c : DigitRiskConfig) : string := "fp".
Definition half_past : dec := dec_of_Z 1800.

Abbreviation quoted :=
  (digit_entry_stake sample_fp true (Some (Finite ratio_95)) half_past (at_ 30) recovering_core).

Lemma recovery_stays_within_daily_stop_witness :
  rl_digit_expected_stake (c_ledger (snd quoted)) = Some 316 /\
  - 5000 <= rl_digit_daily_pnl (c_ledger (snd quoted)) - 316.
Proof.
  destruct (recovery_stays_within_daily_stop sample_fp true (Some (Finite ratio_95)) half_past (at_ 30)
    recovering_core (mk_Money 316 "USD") (snd quoted)) as (H1 & _ & H2).
  - vm_compute. reflexivity.
  - split; [exact H1|]. apply H2; vm_compute; reflexivity.
Defined.

Abbreviation approved :=
  (reserve sample_fp (request 316 "A3") true half_past (at_ 30) (snd quoted)).

Lemma approved_reservation_is_within_limits_witness :
  rl_risk_state (c_ledger (snd approved)) = NORMAL /\
  exists l, exposure_total l + 316 <= gc_global_max_exposure_minor_units (rl_config (c_ledger (snd approved))).
Proof.
  destruct (approved_reservation_is_within_limits sample_fp (request 316 "A3") true half_past (at_ 30)
    (snd quoted) (usd 316) (snd approved)) as (_ & _ & _ & H1 & _ & l & _ & _ & H2).
  - vm_compute. reflexivity.
  - split; [exact H1|]. exists l. exact H2.
Defined.
