(* ===== verification/Coordinator.v ===== *)
(** * The order path of the core

    [apps/core/coordinator.py]: routing of commands to broker workers, dispatch of
    the outbox and submission of a request; [apps/core/recovery.py]: the startup
    recovery; and the startup configuration of the digit runtime of
    [apps/core/runtime.py].

    A worker is a parameter: a function from the command to what the call of
    [submit_order] gives back.  The clock readings and the fresh identifiers are
    arguments.  [AccountCommandSerializer] makes the submissions of one account
    sequential, as they are here. *)

From S2P Require Import Prelude Datetime Dec Domain StateDb Writer WriterInv WriterOps WriterProps Reader Health Martingale DigitConfig Risk.

(** ** Workers *)

Inductive DeliveryCertainty : Type := NOT_SENT | POSSIBLY_SENT | RESPONSE_RECEIVED.

#[export] Instance DeliveryCertainty_eq_dec : EqDecision DeliveryCertainty.
Proof. solve_decision. Defined.

(** The result of [worker.submit_order(command)]. *)
Inductive submission_reply : Type :=
| SubmissionResult (outcome : WorkerOutcome) (broker_order_id reason_code : option string)
| WorkerDispatchError (code : string) (delivery : DeliveryCertainty)
| OtherException.

Definition OrderSubmissionPort : Type := OrderCommand -> submission_reply.

(** [MultiBrokerSubmissionRouter]: the worker of each broker, by the broker's value. *)
Definition router : Type := gmap string OrderSubmissionPort.

Definition register_worker (broker : Broker) (worker : OrderSubmissionPort) (r : router) : router :=
  <[ value broker := worker ]> r.
Definition unregister_worker (broker : Broker) (r : router) : router := delete (value broker) r.

Definition route_order (r : router) (command : OrderCommand) : submission_reply :=
  match r !! value (oc_broker command) with
  | None => WorkerDispatchError "WORKER_NOT_READY" NOT_SENT
  | Some worker => worker command
  end.

(** ** Dispatch *)

Definition outcome_value (o : WorkerOutcome) : string :=
  match o with
  | WO_ACCEPTED => "ACCEPTED"
  | WO_REJECTED => "REJECTED"
  | WO_TIMEOUT_AFTER_POSSIBLE_SEND => "TIMEOUT_AFTER_POSSIBLE_SEND"
  end.

Definition gate (f : HealthGate -> HealthGate) : core_m unit := with_gate true f.

(** Recording the outcome of a submission that may have reached the broker. *)
Definition record_outcome (command : OrderCommand) (outcome : WorkerOutcome)
    (broker_order_id reason_code : option string) (recorded_at : datetime) : core_m unit :=
  _ ← core_db (record_dispatch_result command (outcome_value outcome) broker_order_id reason_code
        recorded_at);
  if bool_decide (outcome = WO_TIMEOUT_AFTER_POSSIBLE_SEND)
  then gate (block_scope (value (oc_broker command)) (oc_account_id command) "HG_ORDER_UNKNOWN")
  else mret tt.

(** [OutboxDispatcher.dispatch_next] *)
Definition dispatch_next (worker : OrderSubmissionPort) (broker account_id : option string)
    (dispatch_time recorded_at : datetime) : core_m (option OrderCommand) :=
  claimed ← core_db (claim_next_message dispatch_time broker account_id);
  match claimed with
  | None => mret None
  | Some command =>
      _ ← (if dt_leb (oc_deadline_at command) dispatch_time then
             core_db (cancel_expired_before_dispatch command dispatch_time)
           else match worker command with
                | WorkerDispatchError code NOT_SENT =>
                    _ ← core_db (record_dispatch_not_sent command code recorded_at);
                    gate (block_scope (value (oc_broker command)) (oc_account_id command)
                            "HG_WORKER_NOT_READY")
                | WorkerDispatchError _ _ | OtherException =>
                    record_outcome command WO_TIMEOUT_AFTER_POSSIBLE_SEND None None recorded_at
                | SubmissionResult outcome broker_order_id reason_code =>
                    record_outcome command outcome broker_order_id reason_code recorded_at
                end);
      mret (Some command)
  end.

(** [OrderCoordinator.dispatch_pending] *)
Definition dispatch_pending (worker : OrderSubmissionPort) (broker account_id : option string)
    (dispatch_time recorded_at : datetime) : core_m (option OrderCommand) :=
  g ← py_gets c_gate;
  _ ← py_lift (ensure_open g broker account_id);
  dispatch_next worker broker account_id dispatch_time recorded_at.

(** ** Submission *)

Record PersistedOrder : Type := mk_PersistedOrder {
  po_intent_id : string; po_reservation_id : string; po_message_id : string; po_order_id : string
}.

Definition command_for (request : OrderRequest) (ids : PersistedOrder) : OrderCommand :=
  mk_OrderCommand (po_message_id ids) (rq_correlation_id request) (po_intent_id ids) (po_order_id ids)
    (rq_broker request) (rq_account_id request) (rq_product request) (rq_symbol request)
    (rq_direction request) (rq_amount request) (rq_deadline_at request) (rq_duration request)
    (rq_duration_unit request) (rq_prediction_digit request).

(** The readings of the ledger's monotonic and UTC clocks during one of its calls. *)
Record clock : Type := mk_clock { ck_monotonic : dec; ck_utc : datetime }.

Section submission.
Variable inject : string -> option exn.
Variable config_fingerprint : DigitRiskConfig -> string.

(** The [except] clauses around [persist]. *)
Definition persist_handler (e : exn) : option (core_m unit) :=
  match e with
  | AccountBusyError | RiskLimitExceededError _ => None
  | _ => if is_persistence_error e
         then Some (_ ← gate (fail_database DB_WRITE_FAILED); py_raise e) else None
  end.

(** [OrderCoordinator.submit].  [authorization] is what [ensure_new_entry_allowed]
    gives for the request, when there is an authorizer; [k1] and [k2] are the clocks
    at the refresh and at the reservation. *)
Definition submit (worker : OrderSubmissionPort) (authorization : option (res unit))
    (request : OrderRequest) (dispatch : bool) (ids : PersistedOrder)
    (k1 k2 : clock) (created_at dispatch_time recorded_at : datetime) : core_m PersistedOrder :=
  _ ← refresh_digit_health_gate config_fingerprint (ck_monotonic k1) (ck_utc k1);
  _ ← (match authorization with Some r => py_lift r | None => mret tt end);
  g ← py_gets c_gate;
  _ ← py_lift (ensure_open g (Some (value (rq_broker request))) (Some (rq_account_id request)));
  _ ← reserve config_fingerprint request true (ck_monotonic k2) (ck_utc k2);
  command ← py_lift (OrderCommand_post_init (command_for request ids));
  config ← ledger rl_config;
  _ ← py_try (core_db (persist_intent_reservation_outbox inject request command (po_intent_id ids)
                (po_reservation_id ids) (po_order_id ids) created_at
                (Some (gc_global_max_exposure_minor_units config))
                (Some (gc_max_exposure_per_symbol_minor_units config))
                (Some (gc_reference_currency config))))
        persist_handler;
  _ ← (if dispatch then
         _ ← dispatch_next worker (Some (value (rq_broker request))) (Some (rq_account_id request))
               dispatch_time recorded_at;
         mret tt
       else mret tt);
  mret ids.
End submission.

(** ** Startup recovery *)

Record RecoveryReport : Type := mk_RecoveryReport {
  safe_pending_message_ids : list string; expired_message_ids : list string;
  ambiguous_message_ids : list string; nonterminal_order_ids : list string;
  active_reservation_ids : list string
}.

(** A PENDING message whose order is still OUTBOXED. *)
Definition is_safe_pending (s : state_db) (m : OutboxMessage) : bool :=
  match order_for_intent (om_intent_id m) s with
  | Some o => bool_decide (o_state o = OUTBOXED)
  | None => false
  end.

(** [RecoveryCoordinator.recover] *)
Definition recover (recovered_at : datetime) : core_m RecoveryReport :=
  _ ← core_db (recover_interrupted_dispatches recovered_at);
  expired ← core_db (cancel_expired_pending_messages recovered_at);
  s ← py_gets (fun c => w_db (c_writer c));
  let ambiguous := outbox_by_state OB_AMBIGUOUS s in
  let safe_pending := select (is_safe_pending s) (outbox_by_state OB_PENDING s) in
  let safe_intents := om_intent_id <$> safe_pending in
  let unsafe_nonterminal := select (fun x => negb (bool_decide (o_state (fst x) = OUTBOXED) &&
        bool_decide (o_intent_id (fst x) ∈ safe_intents))) (list_nonterminal_orders s) in
  _ ← match ambiguous, unsafe_nonterminal with
      | _ :: _, _ => gate (block "HG_ORDER_UNKNOWN")
      | [], _ :: _ => gate (block "HG_RECONCILIATION_REQUIRED")
      | [], [] => mret tt
      end;
  mret (mk_RecoveryReport (om_message_id <$> safe_pending) expired (om_message_id <$> ambiguous)
          (o_order_id ∘ fst <$> unsafe_nonterminal)
          (rr_reservation_id <$> reservations_by_state ACTIVE s)).

(** ** The digit runtime at startup *)

Definition is_sequence_active (e : exn) : bool :=
  match e with
  | PersistenceError msg => str_contains "DIGIT_MARTINGALE_SEQUENCE_ACTIVE" msg
  | _ => false
  end.

(** [_configure_digit_risk_runtime_for_startup], for a policy that passed
    [validate_digit_policy]. *)
Definition configure_digit_risk_runtime_for_startup (policy : DigitPolicy) (now : datetime)
    : core_m unit :=
  py_try (core_db (configure_digit_risk_runtime policy false now)) (fun e =>
    if is_sequence_active e then Some (
      s ← py_gets (fun c => w_db (c_writer c));
      _ ← py_guard (negb (has_nonterminal_deriv_digit_order s ||
                          negb (bool_decide (reservations_by_state ACTIVE s = []))))
            (PersistenceError "DIGIT_MARTINGALE_SEQUENCE_ACTIVE_WITH_EXPOSURE");
      core_db (configure_digit_risk_runtime policy true now))
    else None).
