(* ===== verification/CoordProps.v ===== *)
(** * What the order path of the core guarantees

    Every program of the core changes the store only by calls of the writer, so
    that the theorems about histories of the writer hold of the running core; and
    the guarantees of submission, dispatch, recovery and startup. *)

From S2P Require Import Prelude Datetime Dec Domain StateDb Writer WriterInv WriterOps WriterProps Reader Health Martingale DigitConfig Risk RiskProps Coordinator.

Section histories.
Variable inject : string -> option exn.
Variable payload_hash : payload -> string.

(** ** Core programs are histories of the writer *)

Definition db_run (ops : list writer_op) (db : state_db) : state_db :=
  w_db (run_ops inject payload_hash ops (mk_writer db false)).

Lemma run_op_db op w1 w2 :
  w_db w1 = w_db w2 -> w_db (run_op inject payload_hash op w1) = w_db (run_op inject payload_hash op w2).
Proof.
  assert (forall A (m : db_m A), w_db w1 = w_db w2 -> w_db (commit m w1) = w_db (commit m w2)) as Hc.
  { intros A m E. unfold commit, transaction. rewrite E.
    destruct (m (w_db w2)) as [[a db]|e]; [done|]. destruct e; simpl; done. }
  intros E. destruct op; simpl; unfold validated; repeat case_match; auto.
Qed.

Lemma run_ops_db ops w1 w2 :
  w_db w1 = w_db w2 -> w_db (run_ops inject payload_hash ops w1) = w_db (run_ops inject payload_hash ops w2).
Proof.
  revert w1 w2. induction ops as [|op ops IH]; intros w1 w2 E; simpl; [done|]. by apply IH, run_op_db.
Qed.

Lemma db_run_app ops1 ops2 db : db_run (ops1 ++ ops2) db = db_run ops2 (db_run ops1 db).
Proof. unfold db_run. rewrite run_ops_app. by apply run_ops_db. Qed.

Lemma db_run_after ops1 ops2 : db_run ops2 (db_after inject payload_hash ops1) = db_after inject payload_hash (ops1 ++ ops2).
Proof. unfold db_after, db_run. rewrite run_ops_app. by apply run_ops_db. Qed.

Definition store (c : core) : state_db := w_db (c_writer c).

(** The store after a run of the program is that after some calls of the writer. *)
Definition calls (c c' : core) : Prop := exists ops, store c' = db_run ops (store c).

(** The same, where none of the calls inserts an order. *)
Definition writes (c c' : core) : Prop :=
  exists ops, Forall (fun op => is_persist op = false) ops /\ store c' = db_run ops (store c).

#[global] Instance calls_preorder : PreOrder calls.
Proof.
  split; [intros c; by exists []|]. intros c1 c2 c3 [ops1 E1] [ops2 E2].
  exists (ops1 ++ ops2). by rewrite db_run_app, <- E1.
Qed.

#[global] Instance writes_preorder : PreOrder writes.
Proof.
  split; [intros c; by exists []|]. intros c1 c2 c3 (ops1 & H1 & E1) (ops2 & H2 & E2).
  exists (ops1 ++ ops2). split; [by apply Forall_app|]. by rewrite db_run_app, <- E1.
Qed.

Lemma writes_calls c c' : writes c c' -> calls c c'.
Proof. intros (ops & _ & E). by exists ops. Qed.

Lemma steps_calls {A} (m : core_m A) : steps writes m -> steps calls m.
Proof. intros Hm c. apply writes_calls, Hm. Qed.

Lemma wh_frame {A} (m : core_m A) : frame c_writer m -> steps writes m.
Proof. intros Hm c. exists []. unfold store. by rewrite (Hm c). Qed.

(** A transaction that is the body of a call. *)
Lemma calls_db {A} (m : db_m A) op c :
  (forall w, run_op inject payload_hash op w = commit m w) ->
  store (snd (core_db m c)) = db_run [op] (store c).
Proof.
  intros Hop. unfold db_run, core_db, store. simpl. rewrite Hop. unfold commit.
  set (w0 := (c_writer c) <| w_write_failed := false |>).
  change (mk_writer (w_db (c_writer c)) false) with w0. by destruct (transaction m w0).
Qed.

Lemma wh_db {A} (m : db_m A) op :
  is_persist op = false -> (forall w, run_op inject payload_hash op w = commit m w) ->
  steps writes (core_db m).
Proof. intros Hp Hop c. exists [op]. split; [by constructor|]. by apply calls_db. Qed.

(** Without a new order, the invariant of the store is kept, the intents stay as
    they are and each order keeps its identity. *)
Lemma run_ops_keep ops w :
  Forall (fun op => is_persist op = false) ops -> db_ok (w_db w) ->
  let s := w_db (run_ops inject payload_hash ops w) in
  db_ok s /\ trade_intents s = trade_intents (w_db w) /\
  order_static <$> orders s = order_static <$> orders (w_db w).
Proof.
  intros Hops. revert w. induction Hops as [|op ops Hop _ IH]; intros w Hok; [done|]. simpl.
  pose proof (run_op_inv inject payload_hash op w Hop Hok) as HI. pose proof (inv_evolves _ _ _ HI) as [Et Eo _ _].
  destruct (IH (run_op inject payload_hash op w)) as (Hok' & Et' & Eo'); [by eapply Inv_db_ok|].
  split; [exact Hok'|]. split; [exact (eq_trans Et' Et)|]. refine (eq_trans Eo' _). clear -Eo.
  induction Eo as [|o o' l l' [Hs _] _ IH]; [done|]. rewrite !fmap_cons, IH. by f_equal.
Qed.

Lemma writes_keep c c' :
  writes c c' -> db_ok (store c) ->
  db_ok (store c') /\ trade_intents (store c') = trade_intents (store c) /\
  order_static <$> orders (store c') = order_static <$> orders (store c).
Proof. intros (ops & Hops & E) Hok. rewrite E. exact (run_ops_keep ops (mk_writer (store c) false) Hops Hok). Qed.

#[local] Hint Extern 5 (steps _ _) => apply wh_frame; solve [frame_solve] : steps.

Lemma wh_restore fp row mono utc : steps writes (restore_digit_runtime fp row mono utc).
Proof. apply wh_frame, restore_frame. intros f _. by apply frame_set. Qed.

Lemma wh_expire utc : steps writes (core_db (expire_digit_cooldown utc)).
Proof. by apply (wh_db _ (OpExpireCooldown utc)). Qed.
#[local] Hint Resolve wh_restore wh_expire : steps.

Lemma wh_check_digit_entry fp config hg mono utc : steps writes (check_digit_entry fp config hg mono utc).
Proof. unfold check_digit_entry, cooldown_elapsed. steps_solve. Qed.

Lemma wh_read_exposure hg : steps writes (read_active_exposure hg).
Proof.
  unfold read_active_exposure. steps_solve. apply steps_try; [typeclasses eauto|..].
  - apply wh_frame. unfold active_reservations. intros cc. by case_match.
  - intros e k Hk. destruct (is_risk_limit e); [done|]. injection Hk as <-. steps_solve.
Qed.
#[local] Hint Resolve wh_check_digit_entry wh_read_exposure : steps.

Lemma wh_reserve fp q hg mono utc : steps writes (reserve fp q hg mono utc).
Proof. unfold reserve, reserve_digit, refuse_entry. steps_solve. Qed.

Lemma wh_refresh fp mono utc : steps writes (refresh_digit_health_gate fp mono utc).
Proof. unfold refresh_digit_health_gate. steps_solve. Qed.

Lemma wh_record c o b r t : steps writes (record_outcome c o b r t).
Proof.
  unfold record_outcome, gate. steps_solve. by apply (wh_db _ (OpDispatchResult c (outcome_value o) b r t)).
Qed.
#[local] Hint Resolve wh_reserve wh_refresh wh_record : steps.

Lemma wh_dispatch worker b a t r : steps writes (dispatch_next worker b a t r).
Proof.
  unfold dispatch_next, gate. apply steps_bind; [typeclasses eauto|by apply (wh_db _ (OpClaim t b a))|].
  intros [c|] ? ? _; [|steps_solve]. apply steps_bind; [typeclasses eauto| |intros; steps_solve].
  destruct (dt_leb _ _); [by apply (wh_db _ (OpCancelExpired c t))|].
  destruct (worker c) as [o bo rc|code []|]; steps_solve. by apply (wh_db _ (OpNotSent c code r)).
Qed.
#[local] Hint Resolve wh_dispatch : steps.

Lemma wh_dispatch_pending worker b a t r : steps writes (dispatch_pending worker b a t r).
Proof. unfold dispatch_pending. steps_solve. Qed.

(** A request whose constructor succeeded, with the datetime and money values of
    their constructors. *)
Definition request_wf (q : OrderRequest) : Prop :=
  OrderRequest_post_init q = Ok q /\ valid_datetime (rq_deadline_at q) = true /\
  money_ok (rq_amount q) = true.

Lemma command_for_new q ids c :
  request_wf q -> OrderCommand_post_init (command_for q ids) = Ok c -> new_OrderCommand c = Ok c.
Proof.
  intros (_ & Hd & Hm) H.
  assert (c = command_for q ids) as ->.
  { unfold OrderCommand_post_init in H. repeat (apply res_bind_Ok in H as (? & _ & H)). by injection H. }
  unfold new_OrderCommand, command_wf. simpl. rewrite Hd, Hm. exact H.
Qed.

#[local] Hint Resolve steps_calls | 4 : steps.

Lemma wh_submit fp worker auth q disp ids k1 k2 t1 t2 t3 :
  request_wf q -> steps calls (submit inject fp worker auth q disp ids k1 k2 t1 t2 t3).
Proof.
  intros Hq. unfold submit. do 4 (apply steps_bind; [typeclasses eauto|steps_solve|intros ? ? ? _]).
  apply steps_bind; [typeclasses eauto|steps_solve|intros ? ? ? _]. apply steps_bind; [typeclasses eauto|steps_solve|].
  intros cmd cc cc' [Hcmd _]%py_lift_Ok. apply command_for_new in Hcmd; [|done].
  apply steps_bind; [typeclasses eauto|steps_solve|intros config ? ? _]. apply steps_bind; [typeclasses eauto| |intros; steps_solve].
  apply steps_try; [typeclasses eauto|..].
  - intros c. exists [OpPersist q cmd (po_intent_id ids) (po_reservation_id ids) (po_order_id ids) t1
      (Some (gc_global_max_exposure_minor_units config))
      (Some (gc_max_exposure_per_symbol_minor_units config)) (Some (gc_reference_currency config))].
    apply calls_db. intros w. simpl. destruct Hq as [-> _]. simpl. by rewrite Hcmd.
  - intros e k Hk.
    assert (k = (_ ← gate (fail_database DB_WRITE_FAILED); py_raise e)) as ->.
    { unfold persist_handler in Hk. repeat case_match; congruence. }
    unfold gate. steps_solve.
Qed.

Lemma wh_recover t : steps writes (recover t).
Proof.
  unfold recover, gate. apply steps_bind; [typeclasses eauto|by apply (wh_db _ (OpRecover t))|intros ? ? ? _].
  apply steps_bind; [typeclasses eauto|by apply (wh_db _ (OpCancelPending t))|intros ? ? ? _]. steps_solve.
Qed.

Lemma wh_startup policy p t :
  validate_digit_policy policy = Ok p -> steps writes (configure_digit_risk_runtime_for_startup p t).
Proof.
  intros Hp. apply steps_try; [typeclasses eauto|..].
  - apply (wh_db _ (OpConfigureDigit policy false t) eq_refl). intros w. simpl. by rewrite Hp.
  - intros e k Hk. destruct (is_sequence_active e); [|done]. injection Hk as <-. steps_solve.
    apply (wh_db _ (OpConfigureDigit policy true t) eq_refl). intros w. simpl. by rewrite Hp.
Qed.

End histories.

#[export] Hint Resolve wh_restore wh_expire wh_check_digit_entry wh_read_exposure wh_reserve wh_refresh
  wh_record wh_dispatch wh_dispatch_pending wh_recover : steps.
#[export] Hint Extern 5 (steps (writes _ _) _) => apply wh_frame; solve [frame_solve] : steps.
