(* ===== verification/DispatchProps.v ===== *)
(** * Submission, dispatch, recovery and startup of the core

    Theorems about single calls of the order path on a reachable store. *)

From S2P Require Import Prelude Datetime Dec Domain StateDb Writer WriterInv WriterOps WriterProps EventProps Reader Health Martingale DigitConfig Risk RiskProps Coordinator CoordProps.

(** A committed transaction of the core. *)
Lemma core_db_Ok {A} (m : db_m A) c a c' :
  core_db m c = (Ok a, c') ->
  m (store c) = Ok (a, store c') /\ c_ledger c' = c_ledger c /\ c_gate c' = c_gate c.
Proof.
  unfold core_db, store, transaction. simpl. destruct (m (w_db (c_writer c))) as [[x db]|e].
  - intros [= -> <-]. done.
  - destruct e; simpl; by intros [= ].
Qed.

Lemma core_db_Err {A} (m : db_m A) c e c' : core_db m c = (Err e, c') -> store c' = store c.
Proof.
  unfold core_db, store, transaction. simpl. destruct (m (w_db (c_writer c))) as [[x db]|e'].
  - by intros [= ].
  - destruct e'; simpl; by intros [= _ <-].
Qed.

Lemma gate_Ok f c u c' : gate f c = (Ok u, c') -> store c' = store c /\ c_gate c' = f (c_gate c).
Proof. intros H. apply py_modify_Ok in H as ->. done. Qed.

Section reachable.
Variable inject : string -> option exn.
Variable payload_hash : payload -> string.

Lemma reachable_ok c ops : store c = db_after inject payload_hash ops -> db_ok (store c).
Proof. intros ->. apply db_after_ok. Qed.

(** ** Dispatch *)

Definition not_dispatching (k : string) (s : state_db) : Prop :=
  forall m, m ∈ outbox_messages s -> om_message_id m = k -> om_state m <> OB_DISPATCHING.

Lemma t_not_dispatching_update k p f :
  (forall m, om_message_id m = k -> om_state m = OB_DISPATCHING -> p m = true) ->
  (forall m, om_message_id (f m) = om_message_id m /\ om_state (f m) <> OB_DISPATCHING) ->
  triple (fun _ => True) (update_outbox p f) (fun _ => not_dispatching k).
Proof.
  intros Hp Hf. apply t_modify. intros s _ m' (m & Hm & ->)%elem_of_update_where Hk Hd.
  destruct (p m) eqn:E.
  - by destruct (Hf m) as [_ ?].
  - by rewrite (Hp m Hk Hd) in E.
Qed.

Lemma t_not_dispatching_frame k (m : db_m unit) :
  (forall v, triple (fun s => outbox_messages s = v) m (fun _ s => outbox_messages s = v)) ->
  triple (not_dispatching k) m (fun _ => not_dispatching k).
Proof. intros Hm s u s' HP H. unfold not_dispatching. by rewrite (Hm _ s u s' eq_refl H). Qed.

Lemma t_nd_transition k i new at_ boid pnl :
  triple (not_dispatching k) (transition_order i new at_ boid pnl) (fun _ => not_dispatching k).
Proof. apply t_not_dispatching_frame. intros v. by apply t_proj_transition. Qed.

Lemma t_nd_release k i at_ reason ev :
  triple (not_dispatching k) (release_for_intent i at_ reason ev) (fun _ => not_dispatching k).
Proof. apply t_not_dispatching_frame. intros v. proj_frame. Qed.

Lemma message_in_true k st m : om_message_id m = k -> om_state m = st -> message_in k st m = true.
Proof. intros <- <-. unfold message_in. by rewrite !bool_decide_true. Qed.

Lemma cancel_expired_nd c t :
  triple (fun _ => True) (cancel_expired_before_dispatch c t) (fun _ => not_dispatching (oc_message_id c)).
Proof.
  unfold cancel_expired_before_dispatch. eapply t_bind.
  { apply t_not_dispatching_update; [intros; by apply message_in_true|done]. }
  intros ?. eapply t_bind; [apply t_nd_transition|]. intros ?. apply t_nd_release.
Qed.

Lemma not_sent_nd c r t :
  triple (fun _ => True) (record_dispatch_not_sent c r t) (fun _ => not_dispatching (oc_message_id c)).
Proof.
  unfold record_dispatch_not_sent. eapply t_bind; [apply t_gets_keep|intros ?]. eapply t_bind.
  { apply t_not_dispatching_update; [intros; by apply message_in_true|done]. }
  intros ?. eapply t_bind; [apply t_guard_keep|]. intros ?. apply t_nd_transition.
Qed.

Lemma dispatch_result_nd c o b r t :
  triple (fun _ => True) (record_dispatch_result c o b r t) (fun _ => not_dispatching (oc_message_id c)).
Proof.
  unfold record_dispatch_result. eapply t_bind; [apply t_gets_keep|intros ?].
  eapply t_bind; [apply t_guard_keep|intros ?].
  eapply (t_bind _ (fun x _ => x.1.1 <> OB_DISPATCHING)).
  { repeat case_bool_decide; try apply t_raise; by intros s x s' _ [-> ->]%st_ret_Ok. }
  intros [[ob os] sr]. simpl. apply t_conseq with (P' := fun _ => ob <> OB_DISPATCHING /\ True)
    (Q' := fun _ => not_dispatching (oc_message_id c)); [|done|done].
  apply t_pure. intros Hob. eapply t_bind.
  { apply t_not_dispatching_update; [|done]. intros m Hm _. by apply bool_decide_eq_true. }
  intros ?. eapply t_bind; [apply t_nd_transition|]. intros ?.
  destruct (bool_decide (os = REJECTED)); [apply t_nd_release|apply t_ret].
Qed.

(** Replies after which the order may be at the broker without a known result. *)
Definition is_ambiguous_reply (r : submission_reply) : bool :=
  match r with
  | SubmissionResult o _ _ => bool_decide (o = WO_TIMEOUT_AFTER_POSSIBLE_SEND)
  | WorkerDispatchError _ d => negb (bool_decide (d = NOT_SENT))
  | OtherException => true
  end.

Definition ambiguous_effect (cmd : OrderCommand) (c' : core) : Prop :=
  (exists o, o ∈ orders (store c') /\ o_intent_id o = oc_intent_id cmd /\ o_state o = UNKNOWN) /\
  fst (can_enter_order (c_gate c') (value (oc_broker cmd)) (oc_account_id cmd)) = false.

Lemma value_upper (b : Broker) : str_upper (value b) = value b.
Proof. by destruct b. Qed.

Lemma block_scope_closes b a r g : fst (can_enter_order (block_scope b a r g) b a) = false.
Proof.
  apply not_true_iff_false. intros [_ H]%can_enter_iff. apply (H r). right. left.
  rewrite scope_block_scope, bool_decide_true by done. set_solver.
Qed.

Lemma timeout_effect cmd b r t s s' :
  record_dispatch_result cmd (outcome_value WO_TIMEOUT_AFTER_POSSIBLE_SEND) b r t s = Ok (tt, s') ->
  exists o, o ∈ orders s' /\ o_intent_id o = oc_intent_id cmd /\ o_state o = UNKNOWN.
Proof.
  intros H. unfold record_dispatch_result in H.
  apply st_bind_Ok in H as (row & s1 & [-> ->]%st_gets_Ok & H).
  apply st_bind_Ok in H as (u1 & s1 & [_ ->]%st_guard_Ok & H). simpl in H.
  apply st_bind_Ok in H as (y & s1 & [-> ->]%st_ret_Ok & H).
  apply st_bind_Ok in H as (u2 & s1 & ->%st_modify_Ok & H).
  apply st_bind_Ok in H as ([] & s2 & Htr & [_ ->]%st_ret_Ok).
  apply transition_order_Ok in Htr as (o & [Ho Ei]%fetch_intent & [[E ->]|(Hne & Hal & ->)]); [by exists o|].
  exists (transitioned UNKNOWN (isoformat t) b None o). split; [|done]. simpl.
  apply elem_of_update_where. exists o. unfold of_intent. by rewrite bool_decide_true.
Qed.

Lemma record_outcome_Ok cmd o b r t c u c' :
  record_outcome cmd o b r t c = (Ok u, c') ->
  not_dispatching (oc_message_id cmd) (store c') /\
  (o = WO_TIMEOUT_AFTER_POSSIBLE_SEND -> ambiguous_effect cmd c').
Proof.
  intros H. unfold record_outcome in H. apply py_bind_Ok in H as ([] & c1 & Hdb & H).
  apply core_db_Ok in Hdb as (Hdb & _ & _). pose proof (dispatch_result_nd _ _ _ _ _ _ _ _ I Hdb) as Hnd.
  case_bool_decide as Ho.
  - apply gate_Ok in H as [Es Eg]. rewrite Es. split; [done|]. intros ->. split.
    + rewrite Es. by eapply timeout_effect.
    + rewrite Eg. apply block_scope_closes.
  - apply py_ret_Ok in H as [_ ->]. done.
Qed.

Lemma dispatch_next_effect worker b a t1 t2 c cmd c' :
  dispatch_next worker b a t1 t2 c = (Ok (Some cmd), c') ->
  (forall m, m ∈ outbox_messages (store c') -> om_message_id m = oc_message_id cmd ->
     om_state m <> OB_DISPATCHING) /\
  (dt_leb (oc_deadline_at cmd) t1 = false -> is_ambiguous_reply (worker cmd) = true ->
     ambiguous_effect cmd c').
Proof.
  intros H. unfold dispatch_next in H. apply py_bind_Ok in H as (claimed & c1 & _ & H).
  destruct claimed as [cmd'|]; [|by apply py_ret_Ok in H as [? _]].
  apply py_bind_Ok in H as ([] & c2 & H & [[= ->] ->]%py_ret_Ok).
  destruct (dt_leb (oc_deadline_at cmd') t1).
  { apply core_db_Ok in H as (H & _ & _). split; [|done].
    exact (cancel_expired_nd _ _ _ _ _ I H). }
  destruct (worker cmd') as [o bo rc|code d|]; simpl.
  - apply record_outcome_Ok in H as [Hnd Hamb]. split; [done|]. intros _ Ho%bool_decide_eq_true. auto.
  - destruct d.
    + apply py_bind_Ok in H as ([] & c3 & Hdb & [Es _]%gate_Ok). apply core_db_Ok in Hdb as (Hdb & _ & _).
      rewrite Es. split; [|done]. exact (not_sent_nd _ _ _ _ _ _ I Hdb).
    + apply record_outcome_Ok in H as [Hnd Hamb]. auto.
    + apply record_outcome_Ok in H as [Hnd Hamb]. auto.
  - apply record_outcome_Ok in H as [Hnd Hamb]. auto.
Qed.

(** C4: a claimed message never stays in DISPATCHING: when [dispatch_next] returns
    a command, its message has been cancelled, blocked, dispatched or marked
    ambiguous.  After a reply that does not rule out that the broker received the
    order (a timeout, a lost response, any other exception), the order is UNKNOWN
    and the gate refuses new orders of that account. *)
Theorem dispatch_settles_the_claim worker b a t1 t2 c cmd c' :
  dispatch_next worker b a t1 t2 c = (Ok (Some cmd), c') ->
  (forall m, m ∈ outbox_messages (store c') -> om_message_id m = oc_message_id cmd ->
     om_state m <> OB_DISPATCHING) /\
  (dt_leb (oc_deadline_at cmd) t1 = false -> is_ambiguous_reply (worker cmd) = true ->
     ambiguous_effect cmd c').
Proof. apply dispatch_next_effect. Qed.

(** ** Submission *)

Definition order_tables (c : core) :=
  (trade_intents (store c), orders (store c), risk_reservations (store c), outbox_messages (store c)).

Lemma frame_core_db_tables {A} (m : db_m A) :
  (forall v, triple (fun s => (trade_intents s, orders s, risk_reservations s, outbox_messages s) = v) m
     (fun _ s => (trade_intents s, orders s, risk_reservations s, outbox_messages s) = v)) ->
  frame order_tables (core_db m).
Proof.
  intros Hm c. destruct (core_db m c) as [[a|e] c'] eqn:E; simpl.
  - apply core_db_Ok in E as (E & _ & _). exact (Hm _ _ _ _ eq_refl E).
  - apply core_db_Err in E. unfold order_tables. by rewrite E.
Qed.

Lemma expire_tables utc : frame order_tables (core_db (expire_digit_cooldown utc)).
Proof.
  apply frame_core_db_tables. intros v s a s' Hv H. unfold expire_digit_cooldown in H. monad_inv H; done.
Qed.

Lemma set_ledger_tables f : frame order_tables (set_ledger f).
Proof. by apply frame_set. Qed.

Lemma restore_tables fp row mono utc : frame order_tables (restore_digit_runtime fp row mono utc).
Proof. apply restore_frame. intros f _. apply set_ledger_tables. Qed.

Lemma check_tables fp config hg mono utc : frame order_tables (check_digit_entry fp config hg mono utc).
Proof.
  unfold check_digit_entry, cooldown_elapsed.
  frame_solve; auto using expire_tables, restore_tables, set_ledger_tables.
Qed.

Lemma read_exposure_tables hg : frame order_tables (read_active_exposure hg).
Proof.
  unfold read_active_exposure. frame_solve. apply frame_try.
  - intros cc. unfold active_reservations. by case_match.
  - intros e k Hk. destruct (is_risk_limit e); [done|]. injection Hk as <-. frame_solve.
Qed.

Lemma reserve_tables fp q hg mono utc : frame order_tables (reserve fp q hg mono utc).
Proof.
  unfold reserve, reserve_digit, refuse_entry.
  frame_solve; auto using check_tables, read_exposure_tables, set_ledger_tables.
Qed.

Lemma refresh_tables fp mono utc : frame order_tables (refresh_digit_health_gate fp mono utc).
Proof. unfold refresh_digit_health_gate. frame_solve. apply check_tables. Qed.

Lemma frame_snd {X A} (proj : core -> X) (m : core_m A) c r c' :
  frame proj m -> m c = (r, c') -> proj c' = proj c.
Proof. intros Hm H. specialize (Hm c). by rewrite H in Hm. Qed.

(** The part of [submit] before the transaction. *)
Lemma py_bind_Err {A B} (m : core_m A) (k : A -> core_m B) c e c'' :
  (m ≫= k) c = (Err e, c'') -> m c = (Err e, c'') \/ exists a c', m c = (Ok a, c') /\ k a c' = (Err e, c'').
Proof.
  unfold mbind, py_bind. destruct (m c) as [[a|e'] c']; [right; eauto|left]. by injection H as -> ->.
Qed.

(** A submission that fails leaves no trace in the order tables: when [submit]
    raises (gate closed, authorization refused, risk limits, account busy, an
    injected fault inside the transaction) and dispatch was not asked for, intents,
    orders, reservations and outbox are as before. *)
Theorem failed_submission_leaves_no_order fp worker auth q ids k1 k2 t1 t2 t3 c e c' :
  submit inject fp worker auth q false ids k1 k2 t1 t2 t3 c = (Err e, c') ->
  order_tables c' = order_tables c.
Proof.
  assert (frame order_tables (match auth with Some r => py_lift r | None => mret tt end : core_m unit)) as Hauth
    by frame_solve.
  intros H. unfold submit in H.
  apply py_bind_Err in H as [H|(u1 & c1 & H1 & H)]; [by eapply frame_snd; [apply refresh_tables|exact H]|].
  apply (frame_snd order_tables) in H1; [|apply refresh_tables]. rewrite <- H1. clear H1.
  apply py_bind_Err in H as [H|(u2 & c2 & H1 & H)]; [by eapply frame_snd; [exact Hauth|exact H]|].
  apply (frame_snd order_tables) in H1; [|exact Hauth]. rewrite <- H1. clear H1.
  apply py_bind_Err in H as [H|(g & c3 & [-> ->]%py_gets_Ok & H)]; [done|].
  apply py_bind_Err in H as [[= _ <-]|(u3 & c3 & [_ ->]%py_lift_Ok & H)]; [done|].
  apply py_bind_Err in H as [H|(m & c3 & H1 & H)]; [by eapply frame_snd; [apply reserve_tables|exact H]|].
  apply (frame_snd order_tables) in H1; [|apply reserve_tables]. rewrite <- H1. clear H1.
  apply py_bind_Err in H as [[= _ <-]|(cmd & c4 & [_ ->]%py_lift_Ok & H)]; [done|].
  apply py_bind_Err in H as [H|(cfg & c4 & [-> ->]%py_gets_Ok & H)]; [done|].
  apply py_bind_Err in H as [H|(u4 & c4 & H1 & H)].
  - unfold py_try in H. destruct (core_db _ c3) as [[x|ex] c4] eqn:Edb; [done|].
    apply core_db_Err in Edb. unfold order_tables. rewrite <- Edb.
    destruct (persist_handler ex) as [k|] eqn:Ek; [|by injection H as _ <-].
    assert (k = (_ ← gate (fail_database DB_WRITE_FAILED); py_raise ex)) as ->.
    { unfold persist_handler in Ek. repeat case_match; congruence. }
    by injection H as _ <-.
  - apply py_bind_Err in H as [H|(u5 & c5 & _ & H)]; by apply py_ret_Ok in H || done.
Qed.

(** The transaction of a submission that did not raise. *)
Lemma persisted_Ok q cmd ids t1 gm sm ref c u c' :
  py_try (core_db (persist_intent_reservation_outbox inject q cmd (po_intent_id ids)
    (po_reservation_id ids) (po_order_id ids) t1 gm sm ref)) persist_handler c = (Ok u, c') ->
  new_order q (po_intent_id ids) (po_order_id ids) (isoformat t1) ∈ orders (store c') /\
  (db_ok (store c) -> db_ok (store c')).
Proof.
  unfold py_try. intros H. destruct (core_db _ c) as [[x|ex] c1] eqn:Edb.
  - apply core_db_Ok in Edb as (Edb & _ & _). injection H as _ <-. split.
    + apply persist_Ok in Edb as [-> _]. simpl. apply elem_of_app. right. by left.
    + intros Hok. by eapply persist_db_ok.
  - destruct (persist_handler ex) as [k|] eqn:Ek; [|done].
    assert (k = (_ ← gate (fail_database DB_WRITE_FAILED); py_raise ex)) as ->; [|done].
    unfold persist_handler in Ek. repeat case_match; congruence.
Qed.

(** An order of the store survives any program of the core. *)
Lemma order_survives {A} (m : core_m A) c r c' o :
  steps (writes inject payload_hash) m -> db_ok (store c) -> m c = (r, c') -> o ∈ orders (store c) ->
  exists o', o' ∈ orders (store c') /\ order_static o' = order_static o.
Proof.
  intros Hm Hok Hr Ho. destruct (Hm c) as (ops & _ & E). rewrite Hr in E. simpl in E.
  pose proof (run_ops_hist inject payload_hash ops (mk_writer (store c) false) Hok) as Hh.
  destruct (extends_elem _ _ _ _ (hist_orders _ _ Hh) Ho) as (o' & Ho' & [Es _]).
  exists o'. unfold db_run in E. by rewrite E.
Qed.

Lemma wh_db_ok {A} (m : core_m A) c r c' :
  steps (writes inject payload_hash) m -> db_ok (store c) -> m c = (r, c') -> db_ok (store c').
Proof.
  intros Hm Hok Hr. destruct (Hm c) as (ops & _ & E). rewrite Hr in E. simpl in E. rewrite E.
  by apply run_ops_db_ok.
Qed.

(** A submission that succeeds went through the open gate and the risk checks
    and is durable: after the refresh of the digit blockers the gate admitted the
    account, the amount was reserved within the limits, and an order with the
    returned id, for the requested account, is in the store. *)
Theorem successful_submission_is_durable fp worker auth q d ids k1 k2 t1 t2 t3 c r c' ops :
  store c = db_after inject payload_hash ops ->
  submit inject fp worker auth q d ids k1 k2 t1 t2 t3 c = (Ok r, c') ->
  r = ids /\
  (exists c1 c2, refresh_digit_health_gate fp (ck_monotonic k1) (ck_utc k1) c = (Ok tt, c1) /\
     fst (can_enter_order (c_gate c1) (value (rq_broker q)) (rq_account_id q)) = true /\
     reserve fp q true (ck_monotonic k2) (ck_utc k2) c1 = (Ok (rq_amount q), c2)) /\
  (exists o, o ∈ orders (store c') /\ o_order_id o = po_order_id ids /\
     o_intent_id o = po_intent_id ids /\ o_broker o = rq_broker q /\ o_account_id o = rq_account_id q).
Proof.
  intros Hst H. apply reachable_ok in Hst as Hok. unfold submit in H.
  apply py_bind_Ok in H as ([] & c1 & H1 & H).
  apply (wh_db_ok _ _ _ _ (wh_refresh _ _ fp _ _)) in H1 as Hok1; [|done].
  apply py_bind_Ok in H as (u2 & c2 & H2 & H).
  assert (c2 = c1) as ->. { destruct auth; [by apply py_lift_Ok in H2 as [_ ?]|by apply py_ret_Ok in H2 as [_ ?]]. }
  apply py_bind_Ok in H as (g & c3 & [-> ->]%py_gets_Ok & H).
  apply py_bind_Ok in H as (u3 & c3 & [Hgate ->]%py_lift_Ok & H).
  apply py_bind_Ok in H as (m & c3 & H3 & H).
  pose proof (reserve_amount _ _ _ _ _ _ _ _ H3) as ->.
  apply (wh_db_ok _ _ _ _ (wh_reserve _ _ fp q true _ _)) in H3 as Hok3; [|done].
  apply py_bind_Ok in H as (cmd & c4 & [Hcmd ->]%py_lift_Ok & H).
  apply py_bind_Ok in H as (cfg & c4 & [-> ->]%py_gets_Ok & H).
  apply py_bind_Ok in H as (u4 & c4 & [Hin Hok4]%persisted_Ok & H). specialize (Hok4 Hok3).
  apply py_bind_Ok in H as (u5 & c5 & H5 & [-> ->]%py_ret_Ok). split; [done|]. split.
  { exists c1, c3. split; [done|]. split; [|done]. unfold ensure_open in Hgate.
    destruct (can_enter_order _ _ _) as [op rs]. by apply guard_res_Ok in Hgate. }
  destruct d; [|apply py_ret_Ok in H5 as [_ ->]; by eexists].
  apply py_bind_Ok in H5 as (oc & c6 & H5 & [_ ->]%py_ret_Ok).
  destruct (order_survives _ _ _ _ _ (wh_dispatch _ _ worker _ _ t2 t3) Hok4 H5 Hin) as (o & Ho & Es).
  exists o. split; [exact Ho|]. by injection Es as -> -> -> ->.
Qed.

(** What a submission has passed when it inserts its order, in the state [c] in which
    it was called: the authorizer, if there is one, allowed it; after the refresh of
    the digit blockers the gate admits the account; the ledger is not locked and
    reserves the amount, which is positive, in the reference currency and, with the
    exposure that the store holds, within the global and the symbol's limit; and
    every other order of the account is terminal. *)
Record admitted (fp : DigitRiskConfig -> string) (auth : option (res unit)) (q : OrderRequest) (k1 k2 : clock)
    (c : core) : Prop := {
  ad_authorized : auth = None \/ auth = Some (Ok tt);
  ad_checks : exists c1 c2,
    refresh_digit_health_gate fp (ck_monotonic k1) (ck_utc k1) c = (Ok tt, c1) /\
    fst (can_enter_order (c_gate c1) (value (rq_broker q)) (rq_account_id q)) = true /\
    reserve fp q true (ck_monotonic k2) (ck_utc k2) c1 = (Ok (rq_amount q), c2) /\
    rl_risk_state (c_ledger c2) = NORMAL /\
    currency (rq_amount q) = gc_reference_currency (rl_config (c_ledger c2)) /\
    0 < minor_units (rq_amount q) /\
    active_exposure (currency (rq_amount q)) (store c) + minor_units (rq_amount q) <=
      gc_global_max_exposure_minor_units (rl_config (c_ledger c2)) /\
    active_symbol_exposure (currency (rq_amount q)) (canonicalize_symbol (rq_symbol q)) (store c) +
      minor_units (rq_amount q) <= gc_max_exposure_per_symbol_minor_units (rl_config (c_ledger c2));
  ad_account_free : forall o, o ∈ orders (store c) -> o_broker o = rq_broker q ->
    o_account_id o = rq_account_id q -> is_terminal (o_state o) = true
}.

(** The transaction of a submission: its rows are in the store, or it raised and the
    store is as before. *)
Lemma persist_cases q cmd ids t1 gm sm ref c r c' :
  py_try (core_db (persist_intent_reservation_outbox inject q cmd (po_intent_id ids)
    (po_reservation_id ids) (po_order_id ids) t1 gm sm ref)) persist_handler c = (r, c') ->
  (exists e, r = Err e /\ store c' = store c) \/
  (exists u v, r = Ok u /\ persist_intent_reservation_outbox inject q cmd (po_intent_id ids)
    (po_reservation_id ids) (po_order_id ids) t1 gm sm ref (store c) = Ok (v, store c')).
Proof.
  unfold py_try. intros H. destruct (core_db _ c) as [[x|ex] c1] eqn:Edb.
  - apply core_db_Ok in Edb as (Edb & _ & _). injection H as <- <-. right. eauto.
  - apply core_db_Err in Edb. left. destruct (persist_handler ex) as [k|] eqn:Ek; [|injection H as <- <-; eauto].
    assert (k = (_ ← gate (fail_database DB_WRITE_FAILED); py_raise ex)) as ->.
    { unfold persist_handler in Ek. repeat case_match; congruence. }
    injection H as <- <-. eauto.
Qed.

(** The account of a submission whose rows were inserted was free. *)
Lemma inserted_account_free q cmd ids t1 gm sm ref s u s' o :
  persist_intent_reservation_outbox inject q cmd (po_intent_id ids) (po_reservation_id ids)
    (po_order_id ids) t1 gm sm ref s = Ok (u, s') ->
  db_ok s -> o ∈ orders s -> o_broker o = rq_broker q -> o_account_id o = rq_account_id q ->
  is_terminal (o_state o) = true.
Proof.
  intros H Hok Ho Eb Ea. apply persist_Ok in H as (_ & _ & _ & _ & _ & _ & Hfree & _).
  destruct (is_terminal (o_state o)) eqn:Et; [done|].
  destruct (open_order_reservation s o Hok Ho Et) as (r & Hr & _ & Hact & Hb & Ha).
  destruct (Hfree r Hr) as [_ Hno]. exfalso. apply Hno; congruence.
Qed.

(** A bound on the result state of a program, through its first part. *)
Lemma snd_bind {A B} (m : core_m A) (k : A -> core_m B) (P : core -> Prop) c :
  (forall e c', m c = (Err e, c') -> P c') -> (forall a c', m c = (Ok a, c') -> P (snd (k a c'))) ->
  P (snd ((m ≫= k) c)).
Proof. intros He Hk. unfold mbind, py_bind. destruct (m c) as [[a|e] c'] eqn:E; eauto. Qed.

Lemma order_tables_exposure c c' :
  order_tables c' = order_tables c ->
  (forall cur, active_exposure cur (store c') = active_exposure cur (store c)) /\
  (forall cur sym, active_symbol_exposure cur sym (store c') = active_symbol_exposure cur sym (store c)) /\
  orders (store c') = orders (store c) /\ trade_intents (store c') = trade_intents (store c).
Proof.
  intros [= Et Eo Er _]. split_and!; try done.
  - intros cur. unfold active_exposure. by rewrite Er.
  - intros cur sym. unfold active_symbol_exposure, reservation_symbol. by rewrite Er, Et.
Qed.

(** The rows of an admitted request are appended to the tables. *)
Record inserts (fp : DigitRiskConfig -> string) (auth : option (res unit)) (q : OrderRequest) (ids : PersistedOrder)
    (k1 k2 : clock) (created : datetime) (c c' : core) : Prop := {
  in_admitted : admitted fp auth q k1 k2 c;
  in_ok : db_ok (store c');
  in_intents : trade_intents (store c') =
    trade_intents (store c) ++ [new_intent q (po_intent_id ids) (isoformat created)];
  in_orders : orders (store c') =
    orders (store c) ++ [new_order q (po_intent_id ids) (po_order_id ids) (isoformat created)]
}.

Lemma persisted_inserts fp auth q cmd ids k1 k2 t1 c c1 c2 v c' :
  auth = None \/ auth = Some (Ok tt) ->
  refresh_digit_health_gate fp (ck_monotonic k1) (ck_utc k1) c = (Ok tt, c1) ->
  fst (can_enter_order (c_gate c1) (value (rq_broker q)) (rq_account_id q)) = true ->
  reserve fp q true (ck_monotonic k2) (ck_utc k2) c1 = (Ok (rq_amount q), c2) ->
  persist_intent_reservation_outbox inject q cmd (po_intent_id ids) (po_reservation_id ids) (po_order_id ids) t1
    (Some (gc_global_max_exposure_minor_units (rl_config (c_ledger c2))))
    (Some (gc_max_exposure_per_symbol_minor_units (rl_config (c_ledger c2))))
    (Some (gc_reference_currency (rl_config (c_ledger c2)))) (store c2) = Ok (v, store c') ->
  db_ok (store c2) -> inserts fp auth q ids k1 k2 t1 c c'.
Proof.
  intros Hauth H1 Hgate H2 Hp Hok.
  assert (order_tables c2 = order_tables c) as Et.
  { rewrite (frame_snd _ _ _ _ _ (reserve_tables fp q true _ _) H2). exact (frame_snd _ _ _ _ _ (refresh_tables fp _ _) H1). }
  destruct (order_tables_exposure _ _ Et) as (Ea & Es & Eo & Ei).
  pose proof Hp as (E & Hpos & Hcur & Hglob & Hsym & _)%persist_Ok.
  split; [split|by eapply persist_db_ok|by rewrite E, <- Ei|by rewrite E, <- Eo].
  - exact Hauth.
  - exists c1, c2. specialize (Hcur _ eq_refl). specialize (Hglob _ eq_refl). specialize (Hsym _ eq_refl).
    rewrite Ea in Hglob. rewrite Es in Hsym.
    apply approved_reservation_is_within_limits in H2 as Hres. destruct Hres as (_ & _ & _ & Hst & _).
    split_and!; done.
  - intros o Ho. rewrite <- Eo in Ho. by eapply inserted_account_free.
Qed.

(** A submission, whether it returns or raises, inserts nothing or the rows of an
    admitted request; the dispatch that may follow inserts nothing. *)
Lemma submit_effect fp worker auth q d ids k1 k2 t1 t2 t3 c :
  db_ok (store c) ->
  let c' := snd (submit inject fp worker auth q d ids k1 k2 t1 t2 t3 c) in
  writes inject payload_hash c c' \/
  exists c4, inserts fp auth q ids k1 k2 t1 c c4 /\ writes inject payload_hash c4 c'.
Proof.
  intros Hok. set (P := fun c' => writes inject payload_hash c c' \/
    exists c4, inserts fp auth q ids k1 k2 t1 c c4 /\ writes inject payload_hash c4 c').
  change (P (snd (submit inject fp worker auth q d ids k1 k2 t1 t2 t3 c))). unfold submit.
  assert (forall A (m : core_m A) x r x', steps (writes inject payload_hash) m -> m x = (r, x') -> writes inject payload_hash x x') as Hstep.
  { intros A m x r x' Hm E. specialize (Hm x). by rewrite E in Hm. }
  apply snd_bind; [intros e c1 E; left; exact (Hstep _ _ _ _ _ (wh_refresh _ _ fp _ _) E)|intros [] c1 E1].
  pose proof (Hstep _ _ _ _ _ (wh_refresh _ _ fp _ _) E1) as W1.
  apply snd_bind; [intros e c2 E2|intros [] c2 E2].
  { left. enough (c2 = c1) as -> by done. destruct auth as [[u|e']|]; by injection E2. }
  assert (c2 = c1 /\ (auth = None \/ auth = Some (Ok tt))) as [-> Hauth].
  { destruct auth as [[[]|e']|]; [injection E2; auto|done|injection E2; auto]. }
  clear E2.
  apply snd_bind; [done|intros g c2 [-> ->]%py_gets_Ok].
  apply snd_bind; [intros e c2 [= _ <-]; by left|intros [] c2 [Hg ->]%py_lift_Ok].
  assert (fst (can_enter_order (c_gate c1) (value (rq_broker q)) (rq_account_id q)) = true) as Hgate.
  { unfold ensure_open in Hg. destruct (can_enter_order _ _ _) as [op rs]. by apply guard_res_Ok in Hg. }
  apply snd_bind; [intros e c2 E2|intros m c2 E2];
    pose proof (Hstep _ _ _ _ _ (wh_reserve _ _ fp q true _ _) E2) as W2;
    assert (writes inject payload_hash c c2) as W by (by etrans); [by left|].
  pose proof (reserve_amount _ _ _ _ _ _ _ _ E2) as ->. destruct (writes_keep _ _ _ _ W Hok) as [Hok2 _].
  apply snd_bind; [intros e c3 [= _ <-]; by left|intros cmd c3 [_ ->]%py_lift_Ok].
  apply snd_bind; [done|intros cfg c3 [-> ->]%py_gets_Ok].
  apply snd_bind; [intros e c3 E3|intros u c3 E3];
    apply persist_cases in E3 as [(e' & He & Es)|(u' & v & Hu & Hp)]; try done.
  - left. destruct W as (ops & Hops & E). exists ops. split; [done|]. by rewrite Es.
  - right. exists c3. split; [by eapply persisted_inserts|].
    change (writes inject payload_hash c3 (snd ((x ← (if d then _ ← dispatch_next worker (Some (value (rq_broker q)))
      (Some (rq_account_id q)) t2 t3; mret tt else mret tt); mret ids) c3))).
    refine ((_ : steps (writes inject payload_hash) _) c3). steps_solve.
Qed.

(** ** Recovery *)

Definition none_dispatching (s : state_db) : Prop :=
  forall m, m ∈ outbox_messages s -> om_state m <> OB_DISPATCHING.

(** Messages still DISPATCHING belong to the intents that are left to process. *)
Definition left_to_recover (l : list string) (s : state_db) : Prop :=
  forall m, m ∈ outbox_messages s -> om_state m = OB_DISPATCHING -> om_intent_id m ∈ l.

Lemma recover_loop t l :
  triple (left_to_recover l)
    (st_for (fun i =>
        _ ← update_outbox (outbox_of_intent_in i OB_DISPATCHING)
              (fun m => m <| om_state := OB_AMBIGUOUS |>
                          <| om_state_reason := Some "INTERRUPTED_DISPATCH" |>);
        transition_order i UNKNOWN t None None) l)
    (fun _ => none_dispatching).
Proof.
  induction l as [|i l IH]; simpl.
  - intros s u s' HL [_ ->]%st_ret_Ok m Hm Hd. specialize (HL m Hm Hd). set_solver.
  - eapply (t_bind _ (fun _ => left_to_recover l)); [|intros ?; apply IH].
    eapply (t_bind _ (fun _ => left_to_recover l)).
    + apply t_modify. intros s HL m' (m & Hm & ->)%elem_of_update_where Hd.
      destruct (outbox_of_intent_in i OB_DISPATCHING m) eqn:E; [done|]. simpl in *.
      specialize (HL m Hm Hd). apply elem_of_cons in HL as [Ei|]; [|done].
      unfold outbox_of_intent_in in E. by rewrite !bool_decide_true in E.
    + intros ? s u s' HL H. unfold left_to_recover.
      by rewrite (t_proj_transition outbox_messages _ _ _ _ _ _ ltac:(done) s u s' eq_refl H).
Qed.

Lemma recover_interrupted_none t s n s' :
  recover_interrupted_dispatches t s = Ok (n, s') -> none_dispatching s'.
Proof.
  intros H. unfold recover_interrupted_dispatches in H.
  apply st_bind_Ok in H as (rows & s1 & [-> ->]%st_gets_Ok & H).
  apply st_bind_Ok in H as (u & s1 & Hloop & [_ ->]%st_ret_Ok).
  eapply recover_loop; [|exact Hloop]. intros m Hm Hd. apply list_elem_of_fmap_2, elem_of_select.
  split; [done|]. by apply bool_decide_eq_true.
Qed.

Lemma cancel_pending_none t :
  triple none_dispatching (cancel_expired_pending_messages t) (fun _ => none_dispatching).
Proof.
  unfold cancel_expired_pending_messages. eapply t_bind; [apply t_gets_keep|intros rows].
  apply t_collect. intros [m o]. unfold cancel_if_expired.
  eapply t_bind; [apply t_lift_keep|intros cmd]. destruct (dt_ltb _ _); [apply t_ret|].
  eapply (t_bind _ (fun _ => none_dispatching)).
  { apply t_modify. intros s HN m' (m0 & Hm0 & ->)%elem_of_update_where Hd.
    destruct (message_in _ _ m0); [done|by eapply HN]. }
  intros ?. eapply (t_bind _ (fun _ => none_dispatching)).
  { intros s u s' HN H. unfold none_dispatching.
    by rewrite (t_proj_transition outbox_messages _ _ _ _ _ _ ltac:(done) s u s' eq_refl H). }
  intros ?. eapply (t_bind _ (fun _ => none_dispatching)); [|intros ?; apply t_ret].
  apply t_modify. by intros s HN.
Qed.

(** An order is safe to dispatch again: it never left the outbox. *)
Definition safe_pending (s : state_db) (o : Order) : Prop :=
  o_state o = OUTBOXED /\
  exists m, m ∈ outbox_messages s /\ om_intent_id m = o_intent_id o /\ om_state m = OB_PENDING.

Lemma order_joins s o :
  struct_inv s -> o ∈ orders s -> exists t, join_intent o s = Some (o, t).
Proof.
  intros Hst Ho. unfold join_intent. destruct (fetchone _ _) as [t|] eqn:E; [eauto|exfalso].
  assert (o_intent_id o ∈ ti_intent_id <$> trade_intents s) as Hin.
  { rewrite <- (si_order_intents s Hst). by apply list_elem_of_fmap_2. }
  apply list_elem_of_fmap in Hin as (t & Ei & Ht).
  pose proof (fetchone_None _ _ _ E Ht) as Hf. apply bool_decide_eq_false in Hf. by rewrite Ei in Hf.
Qed.

Lemma block_closes r g b a : fst (can_enter_order (block r g) b a) = false.
Proof.
  apply not_true_iff_false. intros [_ H]%can_enter_iff. apply (H r). left. simpl. set_solver.
Qed.

(** C24: after a restart nothing ambiguous goes unnoticed.  When [recover] returns, no
    message is left in DISPATCHING, and if some order is neither terminal nor safely
    waiting in the outbox, the gate refuses every new order until a reconciliation
    clears it. *)
Theorem recovery_blocks_ambiguous_orders t c rep c' ops :
  store c = db_after inject payload_hash ops -> recover t c = (Ok rep, c') ->
  (forall m, m ∈ outbox_messages (store c') -> om_state m <> OB_DISPATCHING) /\
  ((exists o, o ∈ orders (store c') /\ is_terminal (o_state o) = false /\ ~ safe_pending (store c') o) ->
   forall b a, fst (can_enter_order (c_gate c') b a) = false).
Proof.
  intros Hst H. apply reachable_ok in Hst as Hok. pose proof (wh_recover inject payload_hash t) as Hwh.
  apply (wh_db_ok _ _ _ _ Hwh) in H as Hok'; [|done]. unfold recover in H.
  apply py_bind_Ok in H as (n & c1 & (H1 & _ & _)%core_db_Ok & H). apply recover_interrupted_none in H1.
  apply py_bind_Ok in H as (expd & c2 & (H2 & _ & _)%core_db_Ok & H).
  apply (cancel_pending_none t) in H2; [|done].
  apply py_bind_Ok in H as (s & c3 & [-> ->]%py_gets_Ok & H). fold (store c2) in H.
  apply py_bind_Ok in H as (u & c3 & Hg & [_ ->]%py_ret_Ok). set (s := store c2) in *.
  assert (store c3 = s) as Es.
  { repeat case_match; try (by apply gate_Ok in Hg as [? _]); by apply py_ret_Ok in Hg as [_ ->]. }
  rewrite Es in *. split; [done|]. intros (o & Ho & Hnt & Hns) b a.
  destruct (order_joins s o (inv_struct _ _ _ Hok') Ho) as (ti & Hj).
  destruct (outbox_by_state OB_AMBIGUOUS s) as [|m0 l0];
    [|apply gate_Ok in Hg as [_ ->]; apply block_closes].
  match type of Hg with match ?x with _ => _ end _ = _ => destruct x as [|x0 l1] eqn:El end;
    [exfalso|apply gate_Ok in Hg as [_ ->]; apply block_closes].
  apply (not_elem_of_nil (o, ti)). rewrite <- El. apply elem_of_select. split.
  - apply elem_of_sort_by, elem_of_select. split; [|simpl; by rewrite Hnt].
    apply list_elem_of_omap. by exists o.
  - apply negb_true_iff, andb_false_iff. simpl. destruct (decide (o_state o = OUTBOXED)) as [Eo|];
      [right|left; by apply bool_decide_eq_false]. apply bool_decide_eq_false.
    intros (m & Em & [Hm _]%elem_of_select)%list_elem_of_fmap. apply Hns. split; [done|].
    apply elem_of_sort_by, elem_of_select in Hm as [Hm Hp%bool_decide_eq_true]. by exists m.
Qed.

(** ** The digit runtime at startup *)

Definition sequence_of (r : DigitRuntime) :=
  (dr_daily_pnl_minor r, dr_consecutive_losses r, dr_martingale_step r, dr_pinned_symbol r,
   dr_cumulative_sequence_loss_minor r, dr_cooldown_started_at r).

(** A restart with the same policy fingerprint keeps the recovery sequence: the
    startup configuration succeeds and the durable P&L, losses, step, pinned symbol,
    outstanding loss and cooldown are those of before. *)
Theorem startup_keeps_the_sequence p t c row :
  digit_risk_runtime (store c) = Some row -> dr_config_fingerprint row = dp_config_fingerprint p ->
  exists c' row', configure_digit_risk_runtime_for_startup p t c = (Ok tt, c') /\
    digit_risk_runtime (store c') = Some row' /\ sequence_of row' = sequence_of row /\
    order_tables c' = order_tables c.
Proof.
  intros Hrow Hfp. unfold configure_digit_risk_runtime_for_startup, py_try, core_db, transaction,
    configure_digit_risk_runtime. unfold store in *. unfold mbind, st_bind, st_gets. simpl. rewrite Hrow, Hfp.
  rewrite bool_decide_true by done. simpl. eexists _, _. split; [reflexivity|]. done.
Qed.

(** A restart with another fingerprint during a recovery never keeps it: the
    startup either fails because of open exposure, or clears the step, the losses,
    the outstanding loss and the cooldown.  The fingerprint is computed from the
    text of a set of strings, whose order is not the same in every process. *)
Theorem changed_fingerprint_drops_the_sequence p t c row :
  digit_risk_runtime (store c) = Some row -> dr_config_fingerprint row <> dp_config_fingerprint p ->
  0 < dr_martingale_step row ->
  (exists c', configure_digit_risk_runtime_for_startup p t c =
     (Err (PersistenceError "DIGIT_MARTINGALE_SEQUENCE_ACTIVE_WITH_EXPOSURE"), c')) \/
  (exists c' row', configure_digit_risk_runtime_for_startup p t c = (Ok tt, c') /\
     digit_risk_runtime (store c') = Some row' /\
     dr_martingale_step row' = 0 /\ dr_cumulative_sequence_loss_minor row' = 0 /\
     dr_consecutive_losses row' = 0 /\ dr_cooldown_started_at row' = None).
Proof.
  intros Hrow Hfp Hstep. unfold configure_digit_risk_runtime_for_startup, py_try, core_db, transaction,
    configure_digit_risk_runtime. unfold store in *. unfold mbind, st_bind, st_gets, py_bind, py_gets. simpl.
  rewrite Hrow. rewrite bool_decide_false by done.
  destruct (Z.leb_spec (dr_martingale_step row) 0); [lia|]. simpl.
  destruct (has_nonterminal_deriv_digit_order _ || _); simpl; [left; eauto|right].
  rewrite Hrow. simpl. rewrite orb_true_r. simpl. eexists _, _. split; [reflexivity|]. done.
Qed.
End reachable.

(** ** Witnesses *)

Import Sample.

Definition idle_ledger : RiskLedger :=
  mk_RiskLedger default_GlobalRiskConfig default_DigitRiskConfig false (Some PersistedPort) 0 0 None
    initial_step None 0 None None ∅ 0 0 NORMAL.
Definition core_on (ops : list writer_op) : core :=
  mk_core idle_ledger (health_gate_init (Some mark_healthy)) (mk_writer (db_after no_fault hash ops) false).
Definition at_half_past : clock := mk_clock half_past (at_ 1).
Definition fresh_ids : PersistedOrder := mk_PersistedOrder "i9" "r9" "m9" "o9".
Definition lost_response (c : OrderCommand) : submission_reply := OtherException.
Definition idle_db : list writer_op := [OpConfigureDigit policy false (at_ 0)].

Abbreviation dispatched :=
  (dispatch_next lost_response None None (at_ 1) (at_ 2) (core_on two_pending)).

Lemma dispatch_settles_the_claim_witness :
  ambiguous_effect (command 100 "A1" "m1" "i1" "o1") (snd dispatched).
Proof.
  apply (dispatch_settles_the_claim no_fault lost_response None None (at_ 1) (at_ 2) (core_on two_pending)
    (command 100 "A1" "m1" "i1" "o1") (snd dispatched)).
  - vm_compute. reflexivity.
  - vm_compute. reflexivity.
  - reflexivity.
Defined.

Abbreviation busy :=
  (Coordinator.submit no_fault sample_fp lost_response None (request 100 "A1") false fresh_ids at_half_past at_half_past (at_ 1)
    (at_ 1) (at_ 2) (core_on two_pending)).

Lemma failed_submission_leaves_no_order_witness :
  fst busy = Err AccountBusyError /\ order_tables (snd busy) = order_tables (core_on two_pending).
Proof.
  split; [vm_compute; reflexivity|].
  apply (failed_submission_leaves_no_order no_fault sample_fp lost_response None (request 100 "A1")
    fresh_ids at_half_past at_half_past (at_ 1) (at_ 1) (at_ 2) (core_on two_pending) AccountBusyError).
  vm_compute. reflexivity.
Defined.

Abbreviation entered :=
  (Coordinator.submit no_fault sample_fp lost_response None (request 100 "A1") true fresh_ids at_half_past at_half_past (at_ 1)
    (at_ 1) (at_ 2) (core_on idle_db)).

Lemma successful_submission_is_durable_witness :
  exists o, o ∈ orders (store (snd entered)) /\ o_order_id o = "o9" /\ o_account_id o = "A1".
Proof.
  destruct (successful_submission_is_durable no_fault hash sample_fp lost_response None (request 100 "A1")
    true fresh_ids at_half_past at_half_past (at_ 1) (at_ 1) (at_ 2) (core_on idle_db) fresh_ids (snd entered) idle_db)
    as (_ & _ & o & Ho & Ek & _ & _ & Ea).
  - reflexivity.
  - vm_compute. reflexivity.
  - exists o. auto.
Defined.

(** The process stops while the message of the order is being dispatched. *)
Definition interrupted : list writer_op := [submit 100 "A1" "1"; OpClaim (at_ 1) None None].
Abbreviation recovered := (recover (at_ 2) (core_on interrupted)).
Definition no_report : RecoveryReport := mk_RecoveryReport [] [] [] [] [].

Lemma recovery_blocks_ambiguous_orders_witness :
  fst (can_enter_order (c_gate (snd recovered)) "DERIV" "A2") = false.
Proof.
  apply (proj2 (recovery_blocks_ambiguous_orders no_fault hash (at_ 2) (core_on interrupted)
    (match fst recovered with Ok r => r | Err _ => no_report end) (snd recovered) interrupted
    ltac:(reflexivity) ltac:(vm_compute; reflexivity))).
  exists (order_at 0 (store (snd recovered))). split; [|split].
  - apply order_at_elem. vm_compute. lia.
  - vm_compute. reflexivity.
  - intros [E _]. vm_compute in E. discriminate.
Defined.

(** A recovery in its second step, stored with the fingerprint ["f1"]. *)
Definition row_in_recovery : DigitRuntime :=
  mk_DigitRuntime "f1" "USD" true 3 4 (dec_of_Z 60) (-300) 2 2 (Some "R_100") 300 None None None "" None.
Definition core_in_recovery : core :=
  mk_core idle_ledger (health_gate_init None)
    (mk_writer (empty_db <| digit_risk_runtime := Some row_in_recovery |>) false).
Definition policy_with (fp : string) : DigitPolicy := mk_DigitPolicy fp "USD" true 3 4 (dec_of_Z 60).

Lemma startup_keeps_the_sequence_witness :
  exists c' row', configure_digit_risk_runtime_for_startup (policy_with "f1") (at_ 1) core_in_recovery = (Ok tt, c') /\
    digit_risk_runtime (store c') = Some row' /\ sequence_of row' = sequence_of row_in_recovery /\
    order_tables c' = order_tables core_in_recovery.
Proof. apply startup_keeps_the_sequence; reflexivity. Defined.

Lemma changed_fingerprint_drops_the_sequence_witness :
  (exists c', configure_digit_risk_runtime_for_startup (policy_with "f2") (at_ 1) core_in_recovery =
     (Err (PersistenceError "DIGIT_MARTINGALE_SEQUENCE_ACTIVE_WITH_EXPOSURE"), c')) \/
  (exists c' row', configure_digit_risk_runtime_for_startup (policy_with "f2") (at_ 1) core_in_recovery = (Ok tt, c') /\
     digit_risk_runtime (store c') = Some row' /\
     dr_martingale_step row' = 0 /\ dr_cumulative_sequence_loss_minor row' = 0 /\
     dr_consecutive_losses row' = 0 /\ dr_cooldown_started_at row' = None).
Proof.
  apply (changed_fingerprint_drops_the_sequence (policy_with "f2") (at_ 1) core_in_recovery row_in_recovery);
    [reflexivity|discriminate|reflexivity].
Defined.

(** ** An event that overtakes the dispatch result

    The broker's ACCEPTED event is applied while the message is still DISPATCHING,
    then the process stops: the recovery cannot move the order to UNKNOWN, raises,
    and the core does not start. *)
Definition overtaken : list writer_op :=
  interrupted ++ [OpNormalizedEvent (event "e1" "1" EX_ACCEPTED 1 100 None) (at_ 1)].

Example overtaken_dispatch_blocks_recovery :
  o_state (order_at 0 (db_after no_fault hash overtaken)) = ACCEPTED /\
  fst (recover (at_ 2) (core_on overtaken)) = Err InvalidOrderTransition.
Proof. vm_compute. auto. Qed.
