(* ===== verification/Reconciliation.v ===== *)
(** * Reconciliation

    [apps/core/reconciliation.py] and [apps/core/reconciliation_scheduler.py]: orders
    whose fate is not known are asked for at the broker's worker, and the answer is
    handed to the writer; the gate is reopened only after a cycle without doubt.

    The worker is a parameter.  Its replies are indexed by the attempt, so that every
    call may answer differently.  Identifiers of attempts and clock readings are
    parameters too.  Waiting between attempts and timeouts change no state and are
    left out. *)

From S2P Require Import Prelude Datetime Dec Domain StateDb Writer WriterInv WriterOps Reader Health Martingale DigitConfig Risk Coordinator.

(** ** Data *)

Inductive ReconciliationOutcome : Type :=
| RO_RESOLVED | RO_IDEMPOTENT | RO_UNRESOLVED | RO_MANUAL_REVIEW_REQUIRED | RO_FAILED
| RO_NOT_EXECUTED.

#[export] Instance ReconciliationOutcome_eq_dec : EqDecision ReconciliationOutcome.
Proof. solve_decision. Defined.

Record ReconciliationItemResult : Type := mk_ReconciliationItemResult {
  ri_order_id : string; ri_outcome : ReconciliationOutcome; ri_order_state : OrderState;
  ri_reason_code : option string
}.

(** [ReconciliationReport]: the results of a cycle and their counts. *)
Definition count_outcomes (outcomes : list ReconciliationOutcome) (results : list ReconciliationItemResult) : Z :=
  Z.of_nat (length (select (fun r => bool_decide (ri_outcome r ∈ outcomes)) results)).
Definition resolved_count := count_outcomes [RO_RESOLVED; RO_IDEMPOTENT].
Definition transient_count := count_outcomes [RO_UNRESOLVED; RO_FAILED].
Definition not_executed_count := count_outcomes [RO_NOT_EXECUTED].
Definition manual_review_count := count_outcomes [RO_MANUAL_REVIEW_REQUIRED].

(** Every result is counted once. *)
Lemma outcome_counts_total results :
  resolved_count results + transient_count results + not_executed_count results + manual_review_count results
    = Z.of_nat (length results).
Proof.
  unfold resolved_count, transient_count, not_executed_count, manual_review_count, count_outcomes, select.
  induction results as [|r l IH]; [done|]. cbn [List.filter].
  destruct (ri_outcome r); repeat case_bool_decide; cbn [length]; try lia; set_solver.
Qed.

(** The members of [ProtocolErrorCode] that are transient for a status query. *)
Definition TRANSIENT_STATUS_QUERY_ERRORS : list string := [
  "IPC_FRAME_TRUNCATED"; "IPC_CONNECTION_LOST"; "IPC_HANDSHAKE_TIMEOUT"; "IPC_BACKPRESSURE";
  "AUTH_IPC_UNAVAILABLE"; "AUTH_IPC_REQUEST_TIMEOUT"; "LIFECYCLE_IPC_UNAVAILABLE";
  "LIFECYCLE_IPC_REQUEST_TIMEOUT"; "UI_IPC_UNAVAILABLE"; "UI_IPC_REQUEST_TIMEOUT";
  "WORKER_NOT_READY"; "WORKER_CRASHED"; "RECONCILIATION_UNAVAILABLE";
  "RECONCILIATION_QUERY_TIMEOUT"; "DERIV_DEMO_REAUTH_REQUIRED"; "DERIV_BALANCE_UNAVAILABLE";
  "MD_CLOCK_UNTRUSTED"].

(** [_is_retryable]: every other member of the enumeration is definitive. *)
Definition is_retryable (code : string) : bool :=
  bool_decide (code ∈ TRANSIENT_STATUS_QUERY_ERRORS).

(** [OrderStatusResult], without the identifiers of the messages. *)
Record OrderStatusResult : Type := mk_OrderStatusResult {
  sr_outcome : StatusQueryOutcome; sr_evidence : option ReconciliationEvidence;
  sr_reason_code : option string; sr_not_found_evidence : option NotFoundEvidence
}.

(** [OrderStatusResult.__post_init__] *)
Definition OrderStatusResult_post_init (r : OrderStatusResult) : res OrderStatusResult :=
  _ ← guard_res (negb (bool_decide (sr_outcome r = SQ_FOUND) && bool_decide (sr_evidence r = None)))
        (ValueError "FOUND status result requires evidence");
  _ ← guard_res (bool_decide (sr_outcome r = SQ_FOUND) || bool_decide (sr_evidence r = None))
        (ValueError "only FOUND status result may contain evidence");
  _ ← guard_res (bool_decide (sr_outcome r = SQ_NOT_FOUND) || bool_decide (sr_not_found_evidence r = None))
        (ValueError "only NOT_FOUND status result may contain negative evidence");
  Ok r.

(** What a call of [query_order_status] raises.  [StatusQueryError] is a subclass of
    [RuntimeError]. *)
Inductive query_exception : Type :=
| StatusQueryError (code : string)
| QueryRuntimeError
| QueryException (e : exn).

Definition is_runtime_error (e : query_exception) : bool :=
  match e with StatusQueryError _ | QueryRuntimeError => true | QueryException _ => false end.

Inductive status_reply : Type :=
| StatusReply (r : OrderStatusResult)
| QueryRaised (e : query_exception).

Definition OrderStatusPort : Type := OrderStatusQuery -> status_reply.

(** [MultiBrokerStatusRouter] *)
Definition status_router : Type := gmap string OrderStatusPort.

Definition register_status_worker (broker : Broker) (worker : OrderStatusPort) (r : status_router)
    : status_router := <[ value broker := worker ]> r.
Definition unregister_status_worker (broker : Broker) (r : status_router) : status_router :=
  delete (value broker) r.

Definition route_status_query (r : status_router) (query : OrderStatusQuery) : status_reply :=
  match r !! value (sq_broker query) with
  | None => QueryRaised (StatusQueryError "WORKER_NOT_READY")
  | Some worker => worker query
  end.

(** The policy of the coordinator, durations in microseconds. *)
Record reconciliation_policy : Type := mk_reconciliation_policy {
  rp_max_query_attempts : Z; rp_not_found_grace : Z; rp_confirmation_interval : Z
}.

(** What the process supplies: the identifier of the attempt of an order by query
    number, the clock at its begin and at its end, and the worker's reply to it. *)
Record query_env : Type := mk_query_env {
  qe_attempt_id : string -> Z -> string;
  qe_started_at : string -> datetime;
  qe_finished_at : string -> datetime;
  qe_reply : string -> OrderStatusPort
}.

Definition candidate : Type := Order * TradeIntent * OutboxMessage * Reservation.
Definition candidate_order (x : candidate) : Order := fst (fst (fst x)).
Definition candidate_intent (x : candidate) : TradeIntent := snd (fst (fst x)).

(** [_query_from_candidate] *)
Definition query_from_candidate (x : candidate) : res OrderStatusQuery :=
  let o := candidate_order x in
  let t := candidate_intent x in
  amount ← new_Money (ti_amount_minor t) (ti_currency t);
  submitted_at ← fromisoformat (o_created_at o);
  OrderStatusQuery_post_init (mk_OrderStatusQuery (o_correlation_id o) (o_intent_id o) (o_order_id o)
    (o_order_id o) (o_broker o) (o_account_id o) (ti_product t) (ti_symbol t) (ti_direction t) amount
    (o_broker_order_id o) (Some submitted_at)).

(** [_reason_for_outcome] *)
Definition reason_for_outcome (o : StatusQueryOutcome) : string :=
  match o with
  | SQ_NOT_FOUND => "RECONCILIATION_NOT_FOUND"
  | SQ_UNAVAILABLE => "RECONCILIATION_UNAVAILABLE"
  | SQ_QUERY_TIMEOUT => "RECONCILIATION_QUERY_TIMEOUT"
  | SQ_INVALID_RESPONSE | SQ_FOUND => "RECONCILIATION_INVALID_RESPONSE"
  end.

(** [_failed] and [_manual_review] *)
Definition failed (order_id : string) (current_state : OrderState) (reason : string)
    : core_m ReconciliationItemResult :=
  _ ← gate (block "HG_RECONCILIATION_UNAVAILABLE");
  mret (mk_ReconciliationItemResult order_id RO_FAILED current_state (Some reason)).

Definition manual_review (order_id : string) (current_state : OrderState) (reason : string)
    : core_m ReconciliationItemResult :=
  _ ← gate (block "HG_RECONCILIATION_CONFLICT");
  mret (mk_ReconciliationItemResult order_id RO_MANUAL_REVIEW_REQUIRED current_state (Some reason)).

(** ** One order *)

Section reconcile.
Variable inject : string -> option exn.
Variable payload_hash : payload -> string.
Variable policy : reconciliation_policy.
Variable env : query_env.

(** [complete_reconciliation_attempt] with the clock of the attempt's end. *)
Definition complete (attempt_id result reason : string) : core_m unit :=
  core_db (complete_reconciliation_attempt attempt_id result reason (qe_finished_at env attempt_id)).

(** [_invalid_result] *)
Definition invalid_result (attempt_id order_id : string) (current_state : OrderState)
    : core_m ReconciliationItemResult :=
  _ ← complete attempt_id "CONFLICT" "RECONCILIATION_INVALID_RESPONSE";
  manual_review order_id current_state "RECONCILIATION_INVALID_RESPONSE".

(** The branch of a FOUND status with evidence. *)
Definition apply_found (attempt_id order_id : string) (ev : ReconciliationEvidence)
    : core_m ReconciliationItemResult :=
  applied ← core_db (apply_reconciliation_evidence inject payload_hash attempt_id ev
              (qe_finished_at env attempt_id));
  match rc_status applied with
  | RC_CONFLICT =>
      _ ← gate (block "HG_RECONCILIATION_CONFLICT");
      mret (mk_ReconciliationItemResult order_id RO_MANUAL_REVIEW_REQUIRED (rc_order_state applied)
              (rc_reason_code applied))
  | RC_UNRESOLVED =>
      _ ← gate (block "HG_ORDER_UNKNOWN");
      mret (mk_ReconciliationItemResult order_id RO_UNRESOLVED (rc_order_state applied)
              (rc_reason_code applied))
  | RC_IDEMPOTENT | RC_RESOLVED =>
      _ ← (if bool_decide (rc_order_state applied = SETTLEMENT_UNKNOWN)
           then gate (block "HG_SETTLEMENT_UNKNOWN") else mret tt);
      mret (mk_ReconciliationItemResult order_id
              (if bool_decide (rc_status applied = RC_IDEMPOTENT) then RO_IDEMPOTENT else RO_RESOLVED)
              (rc_order_state applied) None)
  end.

(** The branch of a NOT_FOUND status. *)
Definition apply_not_found (attempt_id order_id : string) (current_state : OrderState)
    (negative : option NotFoundEvidence) : core_m ReconciliationItemResult :=
  match negative with
  | Some ev =>
      if confirms_both_sources ev then
        _ ← py_lift (not_found_arguments ev (rp_not_found_grace policy) (rp_confirmation_interval policy));
        applied ← core_db (apply_reconciliation_not_found inject attempt_id ev
                    (rp_not_found_grace policy) (rp_confirmation_interval policy)
                    (qe_finished_at env attempt_id));
        if bool_decide (rc_status applied = RC_RESOLVED) then
          mret (mk_ReconciliationItemResult order_id RO_NOT_EXECUTED (rc_order_state applied)
                  (Some "RECONCILIATION_NOT_FOUND"))
        else
          _ ← gate (block "HG_ORDER_UNKNOWN");
          mret (mk_ReconciliationItemResult order_id RO_UNRESOLVED current_state (rc_reason_code applied))
      else
        _ ← complete attempt_id "UNRESOLVED" "RECONCILIATION_NOT_FOUND";
        _ ← gate (block "HG_ORDER_UNKNOWN");
        mret (mk_ReconciliationItemResult order_id RO_UNRESOLVED current_state
                (Some "RECONCILIATION_NOT_FOUND"))
  | None =>
      _ ← complete attempt_id "UNRESOLVED" "RECONCILIATION_NOT_FOUND";
      _ ← gate (block "HG_ORDER_UNKNOWN");
      mret (mk_ReconciliationItemResult order_id RO_UNRESOLVED current_state
              (Some "RECONCILIATION_NOT_FOUND"))
  end.

(** The handlers around the query, in the order of the [except] clauses; [retry] is
    what [continue] runs. *)
Definition query_raised (attempt_id order_id : string) (current_state : OrderState)
    (query_number : Z) (e : query_exception) (retry : core_m ReconciliationItemResult)
    : core_m ReconciliationItemResult :=
  if is_runtime_error e then
    _ ← complete attempt_id "FAILED" "WORKER_NOT_READY";
    if query_number <? rp_max_query_attempts policy then retry
    else failed order_id current_state "WORKER_NOT_READY"
  else match e with
  | StatusQueryError code =>
      if is_retryable code && (query_number <? rp_max_query_attempts policy) then
        _ ← complete attempt_id "FAILED" code; retry
      else if negb (is_retryable code) then
        _ ← complete attempt_id "CONFLICT" code;
        manual_review order_id current_state code
      else
        _ ← complete attempt_id "FAILED" code;
        failed order_id current_state code
  | QueryException e => py_raise e
  | QueryRuntimeError => py_raise (RuntimeError "")
  end.

(** The loop of [_reconcile]; [remaining] is what is left of the range. *)
Fixpoint query_loop (query : OrderStatusQuery) (order_id : string) (current_state : OrderState)
    (remaining : nat) (query_number : Z) : core_m ReconciliationItemResult :=
  match remaining with
  | O => py_raise (AssertionError "bounded reconciliation loop did not return")
  | S remaining =>
      let attempt_id := qe_attempt_id env order_id query_number in
      let retry := query_loop query order_id current_state remaining (query_number + 1) in
      _ ← core_db (begin_reconciliation_attempt attempt_id order_id (sq_correlation_id query)
                     (qe_started_at env attempt_id));
      match qe_reply env attempt_id query with
      | QueryRaised e => query_raised attempt_id order_id current_state query_number e retry
      | StatusReply status =>
          let reason := or_default (sr_reason_code status) (reason_for_outcome (sr_outcome status)) in
          let exhausted :=
            _ ← complete attempt_id "FAILED" reason;
            failed order_id current_state reason in
          match sr_outcome status with
          | SQ_FOUND =>
              match sr_evidence status with
              | None => invalid_result attempt_id order_id current_state
              | Some ev => apply_found attempt_id order_id ev
              end
          | SQ_UNAVAILABLE | SQ_QUERY_TIMEOUT =>
              if query_number <? rp_max_query_attempts policy then
                _ ← complete attempt_id "UNRESOLVED" reason; retry
              else exhausted
          | SQ_NOT_FOUND => apply_not_found attempt_id order_id current_state (sr_not_found_evidence status)
          | SQ_INVALID_RESPONSE =>
              _ ← complete attempt_id "CONFLICT" reason;
              manual_review order_id current_state reason
          end
      end
  end.

(** [_reconcile] *)
Definition reconcile (x : candidate) : core_m ReconciliationItemResult :=
  query ← py_lift (query_from_candidate x);
  query_loop query (o_order_id (candidate_order x)) (o_state (candidate_order x))
    (Z.to_nat (rp_max_query_attempts policy)) 1.

(** ** Cycles *)

Definition is_negative (o : ReconciliationOutcome) : bool :=
  match o with RO_FAILED | RO_UNRESOLVED | RO_MANUAL_REVIEW_REQUIRED => true | _ => false end.

(** [bool(results) and all(outcome not in {...})] *)
Definition all_positive (outcomes : list ReconciliationOutcome) : bool :=
  negb (bool_decide (outcomes = [])) && forallb (fun o => negb (is_negative o)) outcomes.

(** [_clear_gates_after_positive_cycle] *)
Definition clear_gates_after_positive_cycle (attempted successful : bool) : core_m unit :=
  if negb attempted then mret tt else
    pending ← py_gets (fun c => list_reconciliation_candidates (w_db (c_writer c)));
    _ ← match pending with
        | [] => if successful then
                  _ ← gate (clear_if "HG_ORDER_UNKNOWN");
                  _ ← gate (clear_if "HG_RECONCILIATION_REQUIRED");
                  gate (clear_if "HG_RECONCILIATION_UNAVAILABLE")
                else mret tt
        | _ :: _ => mret tt
        end;
    settlement_unknown ← py_gets (fun c => orders_by_state SETTLEMENT_UNKNOWN (w_db (c_writer c)));
    match settlement_unknown with
    | [] => gate (clear_if "HG_SETTLEMENT_UNKNOWN")
    | _ :: _ => mret tt
    end.

(** [bool(candidates)] *)
Definition attempted (l : list candidate) : bool := match l with [] => false | _ :: _ => true end.

Definition reconcile_all : core_m (list ReconciliationItemResult) :=
  candidates ← py_gets (fun c => list_reconciliation_candidates (w_db (c_writer c)));
  results ← py_map reconcile candidates;
  _ ← clear_gates_after_positive_cycle (attempted candidates) (all_positive (ri_outcome <$> results));
  mret results.

(** [by_broker.setdefault(name, []).append(outcome)] *)
Fixpoint append_outcome (name : string) (o : ReconciliationOutcome)
    (d : list (string * list ReconciliationOutcome)) : list (string * list ReconciliationOutcome) :=
  match d with
  | [] => [(name, [o])]
  | (k, l) :: d => if bool_decide (k = name) then (k, l ++ [o]) :: d else (k, l) :: append_outcome name o d
  end.

Definition reconcile_all_brokers : core_m (list (string * list ReconciliationOutcome)) :=
  candidates ← py_gets (fun c => list_reconciliation_candidates (w_db (c_writer c)));
  results ← py_map (fun x => r ← reconcile x; mret (value (o_broker (candidate_order x)), ri_outcome r))
              candidates;
  let by_broker := fold_left (fun d x => append_outcome (fst x) (snd x) d) results [] in
  _ ← clear_gates_after_positive_cycle (attempted candidates) (all_positive (mjoin (snd <$> by_broker)));
  mret by_broker.

Definition reconcile_order (order_id : string) : core_m ReconciliationItemResult :=
  x ← py_gets (fun c => reconciliation_candidate order_id (w_db (c_writer c)));
  match x with
  | None => py_raise (ValueError "order not found")
  | Some x =>
      result ← reconcile x;
      _ ← clear_gates_after_positive_cycle true (all_positive [ri_outcome result]);
      mret result
  end.
End reconcile.

(** ** The scheduler

    One iteration of the background loop.  What the threading primitives decide (was
    the wait ended by a trigger, is a cycle running, was a stop requested) are
    arguments; other threads may change the core between the test before the wait and
    the cycle, so that the test is an argument as well.  Delays are in microseconds. *)

Definition RECONCILIATION_GATES : list string :=
  ["HG_RECONCILIATION_UNAVAILABLE"; "HG_RECONCILIATION_REQUIRED"; "HG_ORDER_UNKNOWN";
   "HG_SETTLEMENT_UNKNOWN"].

Definition signature : Type := list (string * OrderState) * list string.

Record ReconciliationScheduler : Type := mk_ReconciliationScheduler {
  rs_base_delay : Z; rs_max_delay : Z; rs_delay : Z; rs_last_signature : option signature
}.

#[export] Instance ReconciliationScheduler_eta : Eta ReconciliationScheduler := fun s =>
  mk_ReconciliationScheduler (rs_base_delay s) (rs_max_delay s) (rs_delay s) (rs_last_signature s).

Definition new_ReconciliationScheduler (base max : Z) : res ReconciliationScheduler :=
  _ ← guard_res ((0 <? base) && (base <=? max))
        (ValueError "reconciliation scheduler policy is invalid");
  Ok (mk_ReconciliationScheduler base max base None).

(** [trigger] *)
Definition trigger (stopped : bool) (s : ReconciliationScheduler) : ReconciliationScheduler :=
  if stopped then s else s <| rs_delay := rs_base_delay s |>.

(** [_state_signature] *)
Definition state_signature (c : core) : signature :=
  ((fun x => (o_order_id (candidate_order x), o_state (candidate_order x))) <$>
     list_reconciliation_candidates (w_db (c_writer c)),
   sn_blockers (get_snapshot (c_gate c))).

(** [bool(signature[0]) or bool(set(signature[1]) & _RECONCILIATION_GATES)] *)
Definition signature_active (x : signature) : bool :=
  match fst x with
  | _ :: _ => true
  | [] => existsb (fun r => bool_decide (r ∈ RECONCILIATION_GATES)) (snd x)
  end.

Definition is_active (c : core) : bool := signature_active (state_signature c).

Section scheduler.
Variable reconcile_cycle : core_m (list ReconciliationItemResult).
Variable on_cycle_completed : list ReconciliationItemResult -> core_m unit.

Definition run_once (cycle_active stopped : bool) : core_m (option (list ReconciliationItemResult)) :=
  if cycle_active || stopped then mret None
  else
    report ← reconcile_cycle;
    _ ← on_cycle_completed report;
    mret (Some report).

(** An iteration of [_run] after the wait. *)
Definition scheduler_cycle (active_before_wait triggered stopped cycle_active stopping : bool)
    (s : ReconciliationScheduler) (c : core) : ReconciliationScheduler * core :=
  if stopped then (s, c)
  else if negb triggered && negb active_before_wait && negb (is_active c) then (s, c)
  else
    let before := state_signature c in
    match run_once cycle_active stopping c with
    | (Err _, c) =>
        (s <| rs_delay := rs_max_delay s |>, c <| c_gate ::= block "HG_RECONCILIATION_UNAVAILABLE" |>)
    | (Ok None, c) => (s, c)
    | (Ok (Some _), c) =>
        let after := state_signature c in
        if negb (signature_active after) then (s <| rs_delay := rs_max_delay s |>, c)
        else
          let changed := negb (bool_decide (after = before)) ||
                         negb (bool_decide (rs_last_signature s = Some after)) in
          (s <| rs_delay := if changed then rs_base_delay s
                            else Z.min (rs_max_delay s) (rs_delay s * 2) |>
             <| rs_last_signature := Some after |>, c)
    end.
End scheduler.
