(* ===== verification/AttemptProps.v ===== *)
(** * Attempts of the reconciliation

    A reconciliation that returns has closed every attempt it opened, and its loop
    always ends with an answer. *)

From S2P Require Import Prelude Datetime Dec Domain StateDb Writer WriterInv WriterOps WriterProps EventProps Reader Health Martingale DigitConfig Risk RiskProps Coordinator CoordProps DispatchProps Reconciliation.

Definition attempt_ids (s : state_db) : list string := ra_attempt_id <$> reconciliation_attempts s.

(** The attempts have the identifiers [L]; those that are STARTED are among [A], or have the
    identifier [id]. *)
Definition open_in (A : list Attempt) (L : list string) (id : string) (l : list Attempt) : Prop :=
  ra_attempt_id <$> l = L /\ forall a, a ∈ l -> ra_result a = "STARTED" -> a ∈ A \/ ra_attempt_id a = id.
Definition only_open (A : list Attempt) (L : list string) (id : string) (s : state_db) : Prop :=
  open_in A L id (reconciliation_attempts s).
Definition all_closed (A : list Attempt) (L : list string) (s : state_db) : Prop :=
  attempt_ids s = L /\ forall a, a ∈ reconciliation_attempts s -> ra_result a = "STARTED" -> a ∈ A.

Lemma all_closed_open A L id s : all_closed A L s -> only_open A L id s.
Proof. intros [E H]. split; [done|]. auto. Qed.

(** A transaction that leaves a column alone keeps what is said of the column. *)
Lemma t_via {X A} (proj : state_db -> X) (Q : X -> Prop) (m : db_m A) :
  (forall v, triple (fun s => proj s = v) m (fun _ s => proj s = v)) ->
  triple (fun s => Q (proj s)) m (fun _ s => Q (proj s)).
Proof. intros Hm s a s' HQ H. by rewrite (Hm _ s a s' eq_refl H). Qed.

(** A transaction that ends with a value. *)
Ltac t_done := by intros ? ? ? ? [= <- <-].

Section attempts.
Context (A : list Attempt) (L : list string) (id : string).

Lemma t_begin o c t : triple (all_closed A L) (begin_reconciliation_attempt id o c t) (fun _ => only_open A (L ++ [id]) id).
Proof.
  intros s u s' HA H. unfold begin_reconciliation_attempt, insert_attempt in H. monad_inv H. insert_inv. destruct HA as [E Hc].
  split; simpl; [by rewrite fmap_app, <- E|].
  intros x Hx Hs. apply elem_of_app in Hx as [Hx|Hx]; [left; by apply Hc|].
  apply list_elem_of_singleton in Hx as ->. by right.
Qed.

Lemma t_close f :
  (forall a, ra_result (f a) <> "STARTED") -> (forall a, ra_attempt_id (f a) = ra_attempt_id a) ->
  triple (only_open A L id) (update_started_attempt id f) (fun _ => all_closed A L).
Proof.
  intros Hf Hid s u s' HA H. unfold update_started_attempt in H. monad_inv H. destruct HA as [E Ho]. split.
  { unfold attempt_ids. simpl. rewrite <- E. unfold update_where. rewrite <- list_fmap_compose. apply list_fmap_ext.
    intros i x _. simpl. by case_match. }
  intros x Hx Hs. simpl in Hx. apply list_elem_of_fmap in Hx as (a0 & Ea & Ha0).
  unfold attempt_started in Ea. destruct (decide (ra_attempt_id a0 = id /\ ra_result a0 = "STARTED")) as [[Hi Hr]|Hn].
  - rewrite !bool_decide_true in Ea by done. simpl in Ea. subst x. by destruct (Hf a0).
  - replace (bool_decide (ra_attempt_id a0 = id) && bool_decide (ra_result a0 = "STARTED")) with false in Ea
      by (symmetry; apply andb_false_iff; rewrite !bool_decide_eq_false; destruct (decide (ra_attempt_id a0 = id)); tauto).
    subst x. destruct (Ho a0 Ha0 Hs); [done|tauto].
Qed.

Lemma t_complete r rc t :
  r <> "STARTED" -> triple (only_open A L id) (complete_reconciliation_attempt id r rc t) (fun _ => all_closed A L).
Proof. intros Hr. by apply t_close. Qed.

Lemma t_finish r rc t e :
  r <> "STARTED" -> triple (only_open A L id) (finish_reconciliation_attempt id r rc t e) (fun _ => all_closed A L).
Proof.
  intros Hr. unfold finish_reconciliation_attempt. eapply t_bind; [apply t_foreign|intros ?]. by apply t_close.
Qed.

Lemma t_conflict o t r e :
  triple (only_open A L id) (finish_reconciliation_conflict id o t r e) (fun _ => all_closed A L).
Proof.
  unfold finish_reconciliation_conflict. eapply t_bind; [by apply t_finish|intros ?]. apply t_ret.
Qed.

(** What a transaction does before it closes the attempt. *)
Lemma t_only_frame f :
  (forall s, reconciliation_attempts (f s) = reconciliation_attempts s) ->
  triple (only_open A L id) (st_modify f) (fun _ => only_open A L id).
Proof. intros Hf. apply t_modify. intros s Ho. unfold only_open. by rewrite Hf. Qed.

Lemma t_only_transition i new t b p :
  triple (only_open A L id) (transition_order i new t b p) (fun _ => only_open A L id).
Proof.
  apply (t_via reconciliation_attempts (open_in A L id)). intros v. by apply t_proj_transition.
Qed.

Lemma t_only_digit product sym cur pnl oid sid t :
  triple (only_open A L id) (apply_digit_runtime_settlement product sym cur pnl oid sid t)
    (fun _ => only_open A L id).
Proof.
  apply (t_via reconciliation_attempts (open_in A L id)). intros v. by apply t_proj_digit.
Qed.

Lemma t_only_evidence r : triple (only_open A L id) (insert_evidence r) (fun _ => only_open A L id).
Proof. unfold insert_evidence. t_solve. by apply t_only_frame. Qed.

Ltac only_step :=
  first [ apply t_only_transition | apply t_only_digit | apply t_only_evidence | apply t_inject
        | apply t_foreign | apply t_ret | apply t_only_frame; intros; reflexivity ].

Variable inject : string -> option exn.
Variable payload_hash : payload -> string.

Lemma t_resolve o t ev target at_ :
  triple (only_open A L id) (resolve_with_evidence inject id o t ev target at_) (fun _ => all_closed A L).
Proof.
  unfold resolve_with_evidence, update_order, mark_reconciled, update_outbox, release_for_intent.
  do 7 (eapply (t_bind _ (fun _ => only_open A L id)); [repeat case_match; only_step|intros ?]).
  eapply t_bind; [by apply t_finish|intros ?]. eapply t_bind; [apply t_inject|intros ?]. apply t_ret.
Qed.

Lemma t_resolve_not_found p o at_ :
  triple (only_open A L id) (resolve_not_found inject id p o at_) (fun _ => all_closed A L).
Proof.
  unfold resolve_not_found, update_order, mark_reconciled, update_outbox, release_for_intent.
  do 5 (eapply (t_bind _ (fun _ => only_open A L id)); [only_step|intros ?]).
  eapply t_bind; [by apply t_finish|intros ?]. eapply t_bind; [apply t_inject|intros ?]. apply t_ret.
Qed.

Lemma t_check_previous o ev at_ :
  triple (only_open A L id) (check_previous_evidence id o ev at_)
    (fun r s => match r with Some _ => all_closed A L s | None => only_open A L id s end).
Proof.
  unfold check_previous_evidence. destruct (o_resolution_evidence_id o) as [p|]; [|t_done].
  eapply t_bind; [apply t_gets_keep|intros prev]. destruct prev as [prev|]; [|apply t_raise].
  case_match; [eapply t_bind; [by apply t_finish|intros ?]; t_done|].
  case_match; [|t_done]. eapply t_bind; [apply t_conflict|intros ?]. t_done.
Qed.

Lemma t_evidence ev at_ :
  triple (only_open A L id) (apply_reconciliation_evidence inject payload_hash id ev at_)
    (fun _ => all_closed A L).
Proof.
  unfold apply_reconciliation_evidence. eapply t_bind; [apply t_gets_keep|intros row].
  destruct row as [[o t]|]; [|apply t_raise]. eapply t_bind; [apply t_gets_keep|intros existing].
  match goal with |- triple _ (if ?b then _ else _) _ => destruct b end; [apply t_conflict|].
  eapply (t_bind _ (fun _ => only_open A L id)).
  { destruct existing; [apply t_ret|]. eapply t_bind; [apply t_only_evidence|intros ?]. apply t_inject. }
  intros ?. destruct (matching_conflict_reason _ _); [apply t_conflict|].
  eapply t_bind; [apply t_check_previous|intros early]. destruct early; [t_done|].
  destruct (order_state_for_external_status _); [apply t_resolve|].
  eapply t_bind; [by apply t_finish|intros ?]. apply t_ret.
Qed.

Lemma t_not_found ev g c at_ :
  triple (only_open A L id) (apply_reconciliation_not_found inject id ev g c at_) (fun _ => all_closed A L).
Proof.
  unfold apply_reconciliation_not_found. eapply t_bind; [apply t_gets_keep|intros row].
  destruct row as [o|]; [|apply t_raise].
  match goal with |- triple _ (if ?b then _ else _) _ => destruct b end;
    [eapply t_bind; [by apply t_finish|intros ?]; apply t_ret|].
  eapply t_bind; [apply t_lift_keep|intros sub]. eapply t_bind; [apply t_gets_keep|intros prior].
  eapply t_bind; [apply t_lift_keep|intros confirmed].
  destruct confirmed; [case_match; [apply t_resolve_not_found|]|];
    eapply t_bind; try (by apply t_finish); intros ?; apply t_ret.
Qed.
End attempts.

(** ** The service *)

Lemma core_db_persistence {A} (m : db_m A) c e c' :
  core_db m c = (Err e, c') -> is_persistence_error e = true.
Proof.
  unfold core_db, transaction. simpl. destruct (m (w_db (c_writer c))) as [[x db]|e'] eqn:E; [done|].
  intros H. destruct e'; simpl in H; try (by injection H as <- _).
  case_bool_decide; by injection H as <- _.
Qed.

Lemma runs_db {A} (P : state_db -> Prop) (Q : A -> state_db -> Prop) (m : db_m A) :
  triple P m Q ->
  runs (fun c => P (store c)) (core_db m) (fun a c => Q a (store c)) (fun e c => is_persistence_error e = true /\ P (store c)).
Proof.
  intros Hm c HP. destruct (core_db m c) as [[a|e] c'] eqn:H.
  - apply core_db_Ok in H as (H & _ & _). by apply (Hm (store c)).
  - split; [by eapply core_db_persistence|]. apply core_db_Err in H. by rewrite H.
Qed.

Lemma runs_gate f (P : state_db -> Prop) (E : exn -> core -> Prop) :
  runs (fun c => P (store c)) (gate f) (fun _ c => P (store c)) E.
Proof. apply runs_modify. by intros c HP. Qed.

Section service.
Variable inject : string -> option exn.
Variable payload_hash : payload -> string.
Variable policy : reconciliation_policy.
Variable env : query_env.
Hypothesis (Hgrace : 0 < rp_not_found_grace policy) (Hinterval : 0 < rp_confirmation_interval policy).

Definition worker_raises (e : exn) : Prop :=
  exists a q, qe_reply env a q = QueryRaised (QueryException e).
Definition store_or_worker (e : exn) : Prop := is_persistence_error e = true \/ worker_raises e.

Context (A : list Attempt) (order_id : string) (L0 : list string).

(** The identifiers after [k] attempts for the order. *)
Definition ids_after (k : Z) : list string := L0 ++ (qe_attempt_id env order_id <$> seqZ 1 k).

(** The result after the attempt [n] or a later one; an exception leaves at most the last one open. *)
Definition answered {B} (n : Z) (_ : B) (c : core) : Prop :=
  exists k, n <= k <= rp_max_query_attempts policy /\ all_closed A (ids_after k) (store c).
Definition raised (e : exn) (c : core) : Prop :=
  store_or_worker e /\ exists k, 0 <= k <= rp_max_query_attempts policy /\ attempt_ids (store c) = ids_after k /\
    forall a, a ∈ reconciliation_attempts (store c) -> ra_result a = "STARTED" ->
      a ∈ A \/ (1 <= k /\ ra_attempt_id a = qe_attempt_id env order_id k).

Section attempt.
Variable n : Z.
Hypothesis Hn : 1 <= n <= rp_max_query_attempts policy.
Let id := qe_attempt_id env order_id n.
Abbreviation opened := (only_open A (ids_after n) id).
Abbreviation closed := (all_closed A (ids_after n)).
Abbreviation closes P m := (runs (fun c => P (store c)) m (answered n) raised).

Lemma raised_open e c : store_or_worker e -> opened (store c) -> raised e c.
Proof.
  intros He [E H]. split; [done|]. exists n. split; [lia|]. split; [exact E|]. intros a Ha Hs.
  destruct (H a Ha Hs); [by left|right]. split; [lia|done].
Qed.

Lemma closes_ret {B} (x : B) : closes closed (mret x).
Proof. intros c Hc. exists n. split; [lia|done]. Qed.

Lemma closes_db {B C} (m : db_m B) (k : B -> core_m C) :
  triple opened m (fun _ => closed) -> (forall b, closes closed (k b)) -> closes opened (core_db m ≫= k).
Proof.
  intros Hm Hk. eapply runs_bind; [|intros b; apply Hk].
  eapply runs_conseq; [by apply (runs_db opened (fun _ => closed))|done|done|].
  intros e c [He Ho]. apply raised_open; [by left|done].
Qed.

Lemma closes_gate {B} f (x : B) : closes closed (_ ← gate f; mret x).
Proof. eapply runs_bind; [apply (runs_gate f closed)|intros ?; apply closes_ret]. Qed.

Lemma closes_found ev : closes opened (apply_found inject payload_hash env id order_id ev).
Proof.
  unfold apply_found. apply closes_db; [apply t_evidence|intros r].
  destruct (rc_status r); try apply closes_gate; (eapply runs_bind; [|intros ?; apply closes_ret]);
    (destruct (bool_decide (rc_order_state r = _)); [apply (runs_gate _ closed)|by intros c Hc]).
Qed.

Lemma closes_complete {B} r rc (k : core_m B) :
  r <> "STARTED" -> closes closed k -> closes opened (_ ← complete env id r rc; k).
Proof. intros Hr Hk. apply closes_db; [by apply t_complete|intros ?; exact Hk]. Qed.

Lemma closes_not_found st nf : closes opened (apply_not_found inject policy env id order_id st nf).
Proof.
  unfold apply_not_found. destruct nf as [ev|]; [|by apply closes_complete, closes_gate].
  destruct (confirms_both_sources ev) eqn:Eb; [|by apply closes_complete, closes_gate].
  assert (not_found_arguments ev (rp_not_found_grace policy) (rp_confirmation_interval policy) = Ok tt) as Harg.
  { unfold not_found_arguments. rewrite Eb. apply Z.ltb_lt in Hgrace as ->. by apply Z.ltb_lt in Hinterval as ->. }
  eapply runs_bind with (R := fun _ c => opened (store c)); [apply runs_lift; by rewrite Harg|intros ?].
  apply closes_db; [apply t_not_found|intros r]. case_match; [apply closes_ret|apply closes_gate].
Qed.

Lemma closes_raised st e (retry : core_m ReconciliationItemResult) q :
  qe_reply env id q = QueryRaised e -> (n < rp_max_query_attempts policy -> closes closed retry) ->
  closes opened (query_raised policy env id order_id st n e retry).
Proof.
  intros He Hr. unfold query_raised, failed, manual_review.
  destruct e as [code| |e]; simpl; [..|apply runs_raise; intros c Ho; apply raised_open; [right; by exists id, q|done]].
  all: destruct (Z.ltb_spec n (rp_max_query_attempts policy)); rewrite ?andb_true_r, ?andb_false_r;
    apply closes_complete; try done; try case_match; auto using closes_gate.
Qed.
End attempt.

(** The loop ends with an answer while queries are left. *)
Lemma answered_loop query st remaining n :
  rp_max_query_attempts policy = n + Z.of_nat remaining - 1 -> (0 < remaining)%nat -> 1 <= n ->
  runs (fun c => all_closed A (ids_after (n - 1)) (store c))
    (query_loop inject payload_hash policy env query order_id st remaining n) (answered n) raised.
Proof.
  revert n. induction remaining as [|k IH]; intros n Hn Hpos Hn1; [lia|]. simpl.
  set (id := qe_attempt_id env order_id n).
  assert (ids_after n = ids_after (n - 1) ++ [id]) as En.
  { unfold ids_after. rewrite <- app_assoc. f_equal. replace n with (n - 1 + 1) at 1 by lia.
    rewrite seqZ_app, fmap_app by lia. f_equal. by replace (1 + (n - 1)) with n by lia. }
  eapply runs_bind with (R := fun _ c => only_open A (ids_after n) id (store c)).
  { rewrite En. eapply runs_conseq; [apply (runs_db (all_closed A (ids_after (n - 1)))); apply t_begin|done|done|].
    intros e c [He [E Hc]]. split; [by left|]. exists (n - 1). split; [lia|]. split; [done|]. auto. }
  intros u.
  assert (n < rp_max_query_attempts policy -> runs (fun c => all_closed A (ids_after n) (store c))
    (query_loop inject payload_hash policy env query order_id st k (n + 1)) (answered n) raised) as Hretry.
  { intros Hlt. eapply runs_conseq; [apply IH; lia|by replace (n + 1 - 1) with n by lia| |done].
    intros x c (k' & ? & ?). exists k'. split; [lia|done]. }
  assert (1 <= n <= rp_max_query_attempts policy) as Hb by lia.
  destruct (qe_reply env id query) as [status|e] eqn:Er; [|by eapply closes_raised].
  unfold invalid_result, manual_review, failed.
  destruct (sr_outcome status); try (apply closes_complete; [done..|]; by apply closes_gate).
  - destruct (sr_evidence status); [by apply closes_found|by apply closes_complete; [done..|apply closes_gate]].
  - by apply closes_not_found.
  - destruct (Z.ltb_spec n (rp_max_query_attempts policy)); apply closes_complete; auto using closes_gate; done.
  - destruct (Z.ltb_spec n (rp_max_query_attempts policy)); apply closes_complete; auto using closes_gate; done.
Qed.
End service.

(** C26: a reconciliation ends with an answer.  It queries the worker under attempts of its
    own, numbered from one, and opens at most as many as the policy allows.  When it
    returns, it has made at least one, and no attempt that it opened is left STARTED.  It
    raises only when the store refuses a write, when the stored order cannot be turned into a
    query, or when the worker raises something that is not a [RuntimeError]; then all attempts
    but the last are closed. *)
Theorem reconciliation_ends_with_an_answer inject payload_hash policy env x c :
  0 < rp_max_query_attempts policy -> 0 < rp_not_found_grace policy ->
  0 < rp_confirmation_interval policy ->
  let name := qe_attempt_id env (o_order_id (candidate_order x)) in
  match reconcile inject payload_hash policy env x c with
  | (Ok r, c') => exists k, 1 <= k <= rp_max_query_attempts policy /\
      attempt_ids (store c') = attempt_ids (store c) ++ (name <$> seqZ 1 k) /\
      forall a, a ∈ reconciliation_attempts (store c') -> ra_result a = "STARTED" -> a ∈ reconciliation_attempts (store c)
  | (Err e, c') =>
      (is_persistence_error e = true \/ query_from_candidate x = Err e \/
       exists a q, qe_reply env a q = QueryRaised (QueryException e)) /\
      exists k, 0 <= k <= rp_max_query_attempts policy /\
      attempt_ids (store c') = attempt_ids (store c) ++ (name <$> seqZ 1 k) /\
      forall a, a ∈ reconciliation_attempts (store c') -> ra_result a = "STARTED" ->
        a ∈ reconciliation_attempts (store c) \/ (1 <= k /\ ra_attempt_id a = name k)
  end.
Proof.
  intros Hmax Hg Hi name. unfold reconcile, mbind, py_bind, py_lift.
  destruct (query_from_candidate x) as [query|e].
  2:{ split; [by right; left|]. exists 0. split; [lia|]. split; [symmetry; apply app_nil_r|]. auto. }
  pose proof (answered_loop inject payload_hash policy env Hg Hi (reconciliation_attempts (store c))
    (o_order_id (candidate_order x)) (attempt_ids (store c)) query (o_state (candidate_order x))
    (Z.to_nat (rp_max_query_attempts policy)) 1 ltac:(lia) ltac:(lia) ltac:(lia) c) as H.
  assert (all_closed (reconciliation_attempts (store c)) (ids_after env (o_order_id (candidate_order x)) (attempt_ids (store c)) (1 - 1)) (store c)) as H0.
  { split; [symmetry; apply app_nil_r|done]. }
  specialize (H H0). destruct (query_loop _ _ _ _ _ _ _ _ _ c) as [[r|e] c'].
  - destruct H as (k & ? & E & Hc). exists k. auto.
  - destruct H as [He (k & ? & E & Hc)]. split; [by destruct He; auto|]. exists k. auto.
Qed.

Import Sample.

(** An unknown order at a worker that never answers: four attempts, then FAILED. *)
Definition lost_order : list writer_op := [
  submit 100 "A1" "1"; OpClaim (at_ 1) None None;
  OpDispatchResult (command 100 "A1" "m1" "i1" "o1") "TIMEOUT_AFTER_POSSIBLE_SEND" None None (at_ 1)].
Definition sample_policy : reconciliation_policy := mk_reconciliation_policy 4 90000000 10000000.
Definition replying (worker : string -> OrderStatusPort) : query_env :=
  mk_query_env (fun o n => o +:+ "/" +:+ zpad 3 n) (fun _ => at_ 3) (fun _ => at_ 3) worker.
Definition unavailable : OrderStatusPort := fun _ =>
  StatusReply (mk_OrderStatusResult SQ_UNAVAILABLE None None None).
Definition no_message : OutboxMessage :=
  mk_OutboxMessage "" "" "" "" ∅ OB_PENDING "" "" None None 0 None.
Definition no_intent : TradeIntent := mk_TradeIntent "" "" DERIV "" "" "" CALL 0 "" "" "" "" "".
Definition first_candidate (s : state_db) : candidate :=
  nth 0 (list_reconciliation_candidates s) (no_order, no_intent, no_message, no_reservation).

Lemma reconciliation_ends_with_an_answer_witness :
  let c := core_on lost_order in
  match reconcile no_fault hash sample_policy (replying (fun _ => unavailable))
          (first_candidate (store c)) c with
  | (Ok r, c') => ri_outcome r = RO_FAILED /\ length (reconciliation_attempts (store c')) = 4%nat /\
      exists k, 1 <= k <= 4 /\ attempt_ids (store c') = attempt_ids (store c) ++
          (qe_attempt_id (replying (fun _ => unavailable)) (o_order_id (candidate_order (first_candidate (store c)))) <$> seqZ 1 k) /\
        forall a, a ∈ reconciliation_attempts (store c') -> ra_result a = "STARTED" ->
          a ∈ reconciliation_attempts (store c)
  | (Err _, _) => False
  end.
Proof.
  intros c. pose proof (reconciliation_ends_with_an_answer no_fault hash sample_policy
    (replying (fun _ => unavailable)) (first_candidate (store c)) c eq_refl eq_refl eq_refl) as H.
  destruct (reconcile _ _ _ _ _ c) as [[r|e] c'] eqn:E; vm_compute in E; [|discriminate].
  injection E as <- <-. split; [reflexivity|split; [reflexivity|exact H]].
Defined.
