(* ===== verification/BrokerEvents.v ===== *)
(** * Broker events

    [apps/core/broker_events.py]: the processor that commits a normalized event and
    brings gate and ledger into line with the result, and the pump that feeds it.

    Clock readings are arguments, the fallback reconciliation is a program, and the
    source of events is the list of what it delivers. *)

From S2P Require Import Prelude Datetime Dec Domain StateDb Writer WriterInv WriterOps EventProps Reader Health Martingale DigitConfig Risk Coordinator.

(** [reader.list_by_state("risk_reservations", "ACTIVE")] as rows of the ledger. *)
Definition reservation_row (r : Reservation) : ReservationRow :=
  mk_ReservationRow (rr_reservation_id r) (value (rr_broker r)) (rr_account_id r) (rr_amount_minor r)
    (rr_currency r) None.

Definition restore_active_reservations : core_m unit :=
  rows ← py_gets (fun c => reservation_row <$> reservations_by_state ACTIVE (w_db (c_writer c)));
  restore rows.

Section processor.
Variable inject : string -> option exn.
Variable config_fingerprint : DigitRiskConfig -> string.
Variable float_str : pydec -> string.

(** [restore_digit_runtime(writer.expire_digit_cooldown())] *)
Definition reload_digit_runtime (expired_at : datetime) (k : clock) : core_m unit :=
  row ← core_db (expire_digit_cooldown expired_at);
  restore_digit_runtime config_fingerprint row (ck_monotonic k) (ck_utc k).

(** [writer.configure_digit_risk_runtime(ledger.digit_runtime_policy())] *)
Definition configure_from_ledger (reset_active_sequence : bool) (now : datetime) : core_m unit :=
  policy ← ledger (digit_runtime_policy config_fingerprint float_str);
  p ← py_lift (validate_digit_policy policy);
  core_db (configure_digit_risk_runtime p reset_active_sequence now).

(** [BrokerEventProcessor.__init__] *)
Definition new_BrokerEventProcessor (configured_at expired_at : datetime) (k : clock) : core_m unit :=
  _ ← configure_from_ledger false configured_at;
  reload_digit_runtime expired_at k.

(** The effects of a settlement that was applied now. *)
Definition settlement_applied (event : BrokerOrderEvent) (pnl : Z) (expired_at : datetime)
    (k : clock) : core_m unit :=
  _ ← apply_realized_pnl pnl true;
  _ ← reload_digit_runtime expired_at k;
  if is_bounded_digit_product (bo_product event) then
    r ← ledger (fun r => r);
    _ ← py_lift (get_digit_metrics (ck_monotonic k) r);
    mret tt
  else mret tt.

(** Gate and ledger after the transaction. *)
Definition after_apply (event : BrokerOrderEvent) (result : BrokerEventApplyResult)
    (expired_at : datetime) (k : clock) : core_m unit :=
  let broker := value (bo_broker event) in
  let account_id := bo_account_id event in
  match ar_status result with
  | EV_DUPLICATE => mret tt
  | EV_CONFLICT => gate (block_scope broker account_id "HG_ORDER_EVENT_CONFLICT")
  | EV_APPLIED | EV_APPLIED_WITH_GAP | EV_LATE_IGNORED =>
      _ ← match ar_order_state result with
          | Some SETTLED => gate (clear_scope broker account_id "HG_SETTLEMENT_REQUIRED")
          | Some SETTLEMENT_UNKNOWN => gate (block_scope broker account_id "HG_SETTLEMENT_REQUIRED")
          | _ => mret tt
          end;
      if is_applied (ar_status result) && bool_decide (ar_order_state result = Some SETTLED) then
        match bo_result_minor event, bo_result_currency event with
        | Some pnl, Some _ => settlement_applied event pnl expired_at k
        | _, _ => mret tt
        end
      else mret tt
  end.

(** [BrokerEventProcessor.process] *)
Definition process (fallback : option (string -> core_m bool)) (event : BrokerOrderEvent)
    (received_at expired_at : datetime) (k : clock) : core_m BrokerEventApplyResult :=
  let broker := value (bo_broker event) in
  let account_id := bo_account_id event in
  result ← core_db (apply_normalized_broker_event inject event received_at);
  _ ← after_apply event result expired_at k;
  _ ← restore_active_reservations;
  _ ← (if bool_decide (ar_status result = EV_APPLIED_WITH_GAP) then
         _ ← gate (block_scope broker account_id "HG_ORDER_EVENT_GAP");
         match fallback with
         | None => mret tt
         | Some f =>
             resolved ← f (bo_client_order_ref event);
             if resolved : bool then gate (clear_scope broker account_id "HG_ORDER_EVENT_GAP")
             else mret tt
         end
       else mret tt);
  mret result.

(** ** The pump *)

(** [BrokerEventPump._run] on the events that the source delivers before the stop:
    they are processed in order; an exception of the processor or of the callback
    ends the pump and closes the gate.  The result is what was processed. *)
Definition delivery : Type := BrokerOrderEvent * datetime * datetime * clock.

Variable fallback : option (string -> core_m bool).
Variable on_processed : BrokerOrderEvent -> BrokerEventApplyResult -> core_m unit.

Fixpoint pump (events : list delivery) (c : core) : list (BrokerOrderEvent * BrokerEventApplyResult) * core :=
  match events with
  | [] => ([], c)
  | (event, received_at, expired_at, k) :: events =>
      match (result ← process fallback event received_at expired_at k;
             _ ← on_processed event result; mret result) c with
      | (Ok result, c) => let '(done, c) := pump events c in ((event, result) :: done, c)
      | (Err _, c) => ([], c <| c_gate ::= block "HG_ORDER_EVENT_CONFLICT" |>)
      end
  end.
End processor.
