(* ===== verification/Runtime.v ===== *)
(** * The core runtime

    [apps/core/runtime.py]: the financial part of the startup, the operations of the
    operator (configuration, resets, arming) and what they do to store, ledger and
    gate.  Threads, sockets and supervisors are not modelled; the worker is the
    environment of the reconciliation. *)

From S2P Require Import Prelude Datetime Dec Domain StateDb Writer WriterInv WriterOps EventProps Reader Health Martingale DigitConfig Risk Coordinator Reconciliation BrokerEvents.

(** The core together with [dispatcher_started]. *)
Record runtime : Type := mk_runtime { rt_core : core; rt_dispatcher_started : bool }.

#[export] Instance runtime_eta : Eta runtime := fun r => mk_runtime (rt_core r) (rt_dispatcher_started r).

Abbreviation runtime_m := (py runtime).

Definition on_core {A} (m : core_m A) : runtime_m A := fun r =>
  let '(x, c) := m (rt_core r) in (x, r <| rt_core := c |>).

(** [self.dispatcher_started = self.health_gate.state.is_open] *)
Definition evaluate_dispatcher : runtime_m bool :=
  open ← py_gets (fun r => is_open (gate_state (c_gate (rt_core r))));
  _ ← py_modify (fun r => r <| rt_dispatcher_started := open |>);
  mret open.

Section runtime.
Variable inject : string -> option exn.
Variable payload_hash : payload -> string.
Variable config_fingerprint : DigitRiskConfig -> string.
Variable float_str : pydec -> string.
Variable policy : reconciliation_policy.

(** ** Startup *)

(** [OrderCoordinator.__init__]: the ledger reads the exposure from the writer. *)
Definition attach_exposure_port : core_m unit :=
  port ← ledger rl_port;
  match port with
  | None => configure_active_exposure_port PersistedPort false
  | Some _ => mret tt
  end.

(** The clock readings of a startup. *)
Record startup_clock : Type := mk_startup_clock {
  st_recovered_at : datetime; st_configured_at : datetime; st_expired_at : datetime; st_ledger : clock;
  st_processor_configured_at : datetime; st_processor_expired_at : datetime; st_processor : clock
}.

(** [CoreRuntime.start] on a runtime that is not started, for a digit configuration
    that was loaded, brokers whose reconciliation is deferred, and a worker with or
    without an event stream: first the body of the [try], then the handler. *)
Definition start_services (env : query_env) (deferred : list Broker) (digit_config : DigitRiskConfig)
    (has_events : bool) (t : startup_clock) : runtime_m RecoveryReport :=
  report ← on_core (recover (st_recovered_at t));
  fresh ← py_lift (new_RiskLedger default_GlobalRiskConfig digit_config true None);
  _ ← on_core (set_ledger (fun _ => fresh));
  _ ← on_core (
    p ← py_lift (validate_digit_policy (digit_runtime_policy config_fingerprint float_str fresh));
    configure_digit_risk_runtime_for_startup p (st_configured_at t));
  _ ← on_core (reload_digit_runtime config_fingerprint (st_expired_at t) (st_ledger t));
  _ ← on_core restore_active_reservations;
  candidates ← py_gets (fun r => list_reconciliation_candidates (w_db (c_writer (rt_core r))));
  _ ← on_core (py_map (fun x => reconcile_order inject payload_hash policy env (o_order_id (candidate_order x)))
        (select (fun x => negb (bool_decide (o_broker (candidate_order x) ∈ deferred))) candidates));
  _ ← on_core attach_exposure_port;
  _ ← (if has_events then
         on_core (new_BrokerEventProcessor config_fingerprint float_str (st_processor_configured_at t)
                    (st_processor_expired_at t) (st_processor t))
       else mret tt);
  _ ← evaluate_dispatcher;
  mret report.

Definition start (env : query_env) (deferred : list Broker) (digit_config : DigitRiskConfig)
    (has_events : bool) (t : startup_clock) : runtime_m RecoveryReport :=
  py_try (start_services env deferred digit_config has_events t)
    (fun e => Some (
       _ ← py_modify (fun r => r <| rt_dispatcher_started := false |>);
       py_raise e)).

(** The fallback handed to the event processor. *)
Definition fallback_reconciliation (env : query_env) (order_id : string) : core_m bool :=
  item ← reconcile_order inject payload_hash policy env order_id;
  mret (bool_decide (ri_outcome item ∈ [RO_RESOLVED; RO_IDEMPOTENT])).

(** [_on_reconciliation_cycle_completed], without the accumulated report. *)
Definition on_reconciliation_cycle_completed : runtime_m unit :=
  _ ← on_core restore_active_reservations;
  _ ← evaluate_dispatcher;
  mret tt.

(** ** Operations of the operator *)

(** The exceptions that the handler of [update_digit_risk_config] catches:
    [PersistenceError] and its subclasses are [RuntimeError]s. *)
Definition is_storage_failure (e : exn) : bool :=
  match e with RuntimeError _ | ValueError _ => true | _ => is_persistence_error e end.

(** [save] is the outcome of writing the configuration file: [false] when it raises
    one of the caught exceptions. *)
Definition update_digit_risk_config_runtime (config : DigitRiskConfig) (save : bool)
    (configured_at restored_at : datetime) (k1 k2 : clock) : core_m (bool * option string) :=
  open ← py_gets (fun c => has_nonterminal_deriv_digit_order (w_db (c_writer c)));
  if open : bool then mret (false, Some "DIGIT_RISK_CONFIG_BLOCKED_OPEN_ORDER")
  else
    previous ← ledger rl_digit_config;
    '(accepted, reason) ← update_digit_risk_config config_fingerprint config true true
                            (ck_monotonic k1) (ck_utc k1);
    if negb accepted then mret (false, reason)
    else py_try
      (_ ← configure_from_ledger config_fingerprint float_str true configured_at;
       _ ← py_guard save (RuntimeError "save");
       mret (true, None))
      (fun e => if is_storage_failure e then Some (
         _ ← update_digit_risk_config config_fingerprint previous true false (ck_monotonic k2) (ck_utc k2);
         _ ← configure_from_ledger config_fingerprint float_str false restored_at;
         mret (false, Some "DIGIT_RISK_CONFIG_PERSISTENCE_FAILED")) else None).

(** [reset_digit_test_session] *)
Definition reset_digit_test_session (now : datetime) : core_m (bool * option string) :=
  open ← py_gets (fun c => has_nonterminal_deriv_digit_order (w_db (c_writer c)));
  if open : bool then mret (false, Some "DIGIT_TEST_SESSION_RESET_BLOCKED_EXPOSURE")
  else
    failure ← py_try (_ ← core_db (reset_digit_test_session_if_flat now); mret None)
      (fun e => if is_persistence_error e then Some (mret (Some (
         match e with
         | PersistenceError msg =>
             if str_contains "DIGIT_TEST_SESSION_RESET_BLOCKED_EXPOSURE" msg
             then "DIGIT_TEST_SESSION_RESET_BLOCKED_EXPOSURE" else "DIGIT_TEST_SESSION_RESET_FAILED"
         | _ => "DIGIT_TEST_SESSION_RESET_FAILED"
         end))) else None);
    match failure with
    | Some reason => mret (false, Some reason)
    | None =>
        _ ← reset_daily_pnl true;
        mret (true, None)
    end.

(** [reset_digit_recovery_state] *)
Definition reset_digit_recovery_state_runtime (now : datetime) : core_m (bool * option string) :=
  open ← py_gets (fun c => has_nonterminal_deriv_digit_order (w_db (c_writer c)));
  if open : bool then mret (false, Some "DIGIT_RECOVERY_RESET_BLOCKED_EXPOSURE")
  else py_try
    (_ ← configure_from_ledger config_fingerprint float_str true now;
     _ ← reset_digit_recovery_state true;
     mret (true, None))
    (fun e => if is_storage_failure e then Some (mret (false, Some "DIGIT_RECOVERY_RESET_FAILED")) else None).

(** [stop_new_entries] *)
Definition stop_new_entries : runtime_m unit :=
  _ ← py_modify (fun r => r <| rt_dispatcher_started := false |>);
  on_core (gate (block "HG_SAFE_STOP")).

Definition safe_stop_active (r : runtime) : bool := contains "HG_SAFE_STOP" (c_gate (rt_core r)).

(** [resume_new_entries] *)
Definition resume_new_entries (k : clock) : runtime_m bool :=
  _ ← on_core (refresh_digit_health_gate config_fingerprint (ck_monotonic k) (ck_utc k));
  _ ← on_core (gate (clear_if "HG_SAFE_STOP"));
  started ← evaluate_dispatcher;
  _ ← (if started : bool then mret tt else on_core (gate (block "HG_SAFE_STOP")));
  mret started.

(** [resume_new_entries_for] *)
Definition resume_new_entries_for (broker : Broker) (account_id : string) (k : clock) : runtime_m bool :=
  _ ← on_core (refresh_digit_health_gate config_fingerprint (ck_monotonic k) (ck_utc k));
  _ ← on_core (gate (clear_if "HG_SAFE_STOP"));
  armed ← py_gets (fun r => is_open (state_for (c_gate (rt_core r)) (value broker) account_id));
  _ ← (if armed : bool then py_modify (fun r => r <| rt_dispatcher_started := true |>) else mret tt);
  mret armed.

(** [dispatch_pending] *)
Definition runtime_dispatch_pending (worker : OrderSubmissionPort) (dispatch_time recorded_at : datetime)
    : runtime_m (option OrderCommand) :=
  started ← py_gets rt_dispatcher_started;
  _ ← py_guard started (RuntimeError "dispatcher is not started");
  on_core (dispatch_pending worker None None dispatch_time recorded_at).
End runtime.
