(* ===== verification/CoreHistory.v ===== *)
(** * Where the orders of the store come from

    Histories of the core: startup, submission, dispatch, event processing,
    reconciliation, operations of the operator and the end of the process.  The store
    changes only by calls of the writer, so that the theorems about histories of the
    writer hold of the running core; an order is inserted only by a submission that
    passed the authorizer, the gate, the risk ledger and the limits of the writer. *)

From S2P Require Import Prelude Datetime Dec Domain StateDb Writer WriterInv WriterOps WriterProps EventProps Reader Health Martingale DigitConfig Risk RiskProps Coordinator CoordProps DispatchProps Reconciliation AttemptProps BrokerEvents Runtime.

(** The evidence in a worker's replies went through its constructor. *)
Definition env_wf (env : query_env) : Prop :=
  forall a q r ev, qe_reply env a q = StatusReply r -> sr_evidence r = Some ev ->
    ReconciliationEvidence_post_init ev = Ok ev.

Section histories.
Variable inject : string -> option exn.
Variable payload_hash : payload -> string.
Variable fp : DigitRiskConfig -> string.
Variable float_str : pydec -> string.
Variable policy : reconciliation_policy.

Abbreviation writes := (writes inject payload_hash).

(** ** Reconciliation *)

Lemma wh_complete env a r rc : steps writes (complete env a r rc).
Proof. by apply (wh_db _ _ _ (OpCompleteAttempt a r rc (qe_finished_at env a))). Qed.

Lemma wh_begin a o c t : steps writes (core_db (begin_reconciliation_attempt a o c t)).
Proof. by apply (wh_db _ _ _ (OpBeginAttempt a o c t)). Qed.
#[local] Hint Resolve wh_complete wh_begin : steps.
#[local] Hint Extern 2 (steps writes (gate _)) => apply wh_frame; solve [unfold gate; frame_solve] : steps.

Lemma wh_found env a o ev :
  ReconciliationEvidence_post_init ev = Ok ev -> steps writes (apply_found inject payload_hash env a o ev).
Proof.
  intros Hev. unfold apply_found. steps_solve.
  apply (wh_db _ _ _ (OpEvidence a ev (qe_finished_at env a)) eq_refl). intros w. simpl. by rewrite Hev.
Qed.

Lemma wh_not_found env a o st nf : steps writes (apply_not_found inject policy env a o st nf).
Proof.
  unfold apply_not_found. destruct nf as [ev|]; [|steps_solve]. destruct (confirms_both_sources ev); [|steps_solve].
  apply steps_bind; [typeclasses eauto|auto with steps|]. intros [] ? ? [Hargs _]%py_lift_Ok. steps_solve.
  apply (wh_db _ _ _ (OpNotFound a ev (rp_not_found_grace policy) (rp_confirmation_interval policy)
    (qe_finished_at env a)) eq_refl). intros w. simpl. by rewrite Hargs.
Qed.
#[local] Hint Resolve wh_found wh_not_found : steps.

Lemma wh_query_raised env a o st n e retry :
  steps writes retry -> steps writes (query_raised policy env a o st n e retry).
Proof. intros Hr. unfold query_raised, failed, manual_review. steps_solve; exact Hr. Qed.

Lemma wh_query_loop env query o st remaining n :
  env_wf env -> steps writes (query_loop inject payload_hash policy env query o st remaining n).
Proof.
  intros Henv. revert n. induction remaining as [|k IH]; intros n; simpl; [auto with steps|].
  apply steps_bind; [typeclasses eauto|auto with steps|intros _ _ _ _].
  destruct (qe_reply env _ query) as [status|e] eqn:Er; [|by apply wh_query_raised].
  destruct (sr_evidence status) as [ev|] eqn:Eev; [pose proof (Henv _ _ _ _ Er Eev)|];
    unfold invalid_result, manual_review, failed; steps_solve; apply IH.
Qed.

Lemma wh_reconcile env x : env_wf env -> steps writes (reconcile inject payload_hash policy env x).
Proof. intros Henv. unfold reconcile. steps_solve. by apply wh_query_loop. Qed.

Lemma wh_clear_gates att succ : steps writes (clear_gates_after_positive_cycle att succ).
Proof. unfold clear_gates_after_positive_cycle. steps_solve. Qed.
#[local] Hint Resolve wh_reconcile wh_clear_gates : steps.

Lemma wh_reconcile_all env : env_wf env -> steps writes (reconcile_all inject payload_hash policy env).
Proof.
  intros Henv. unfold reconcile_all. steps_solve. apply steps_map; [typeclasses eauto|auto with steps].
Qed.

Lemma wh_reconcile_all_brokers env :
  env_wf env -> steps writes (reconcile_all_brokers inject payload_hash policy env).
Proof.
  intros Henv. unfold reconcile_all_brokers. steps_solve. apply steps_map; [typeclasses eauto|].
  intros x. steps_solve.
Qed.

Lemma wh_reconcile_order env k :
  env_wf env -> steps writes (reconcile_order inject payload_hash policy env k).
Proof. intros Henv. unfold reconcile_order. steps_solve. Qed.
#[local] Hint Resolve wh_reconcile_all wh_reconcile_all_brokers wh_reconcile_order : steps.

(** ** Events *)

Lemma wh_restore_reservations : steps writes restore_active_reservations.
Proof. unfold restore_active_reservations, restore. steps_solve. Qed.

Lemma wh_reload t k : steps writes (reload_digit_runtime fp t k).
Proof. unfold reload_digit_runtime. steps_solve. Qed.

Lemma wh_configure reset t : steps writes (configure_from_ledger fp float_str reset t).
Proof.
  unfold configure_from_ledger. apply steps_bind; [typeclasses eauto|auto with steps|intros p _ _ _].
  apply steps_bind; [typeclasses eauto|auto with steps|]. intros dp ? ? [Hp _]%py_lift_Ok.
  apply (wh_db _ _ _ (OpConfigureDigit p reset t) eq_refl). intros w. simpl. by rewrite Hp.
Qed.
#[local] Hint Resolve wh_restore_reservations wh_reload wh_configure : steps.

Lemma wh_after_apply event r t k : steps writes (after_apply fp event r t k).
Proof. unfold after_apply, settlement_applied, apply_realized_pnl. steps_solve. Qed.
#[local] Hint Resolve wh_after_apply : steps.

Lemma wh_process f event t1 t2 k :
  BrokerOrderEvent_post_init payload_hash event = Ok event ->
  (forall g o, f = Some g -> steps writes (g o)) ->
  steps writes (process inject fp f event t1 t2 k).
Proof.
  intros Hev Hf. unfold process. apply steps_bind; [typeclasses eauto| |intros r _ _ _].
  { apply (wh_db _ _ _ (OpNormalizedEvent event t1) eq_refl). intros w. simpl. by rewrite Hev. }
  destruct f as [g|]; steps_solve.
Qed.

(** ** The runtime *)

Definition rt_writes (r r' : runtime) : Prop := writes (rt_core r) (rt_core r').

#[local] Instance rt_writes_preorder : PreOrder rt_writes.
Proof. split; [intros r; unfold rt_writes; reflexivity|]. intros r1 r2 r3 H1 H2. unfold rt_writes. by transitivity (rt_core r2). Qed.

Lemma wh_on_core {A} (m : core_m A) : steps writes m -> steps rt_writes (on_core m).
Proof. intros Hm r. specialize (Hm (rt_core r)). unfold on_core, rt_writes. by destruct (m (rt_core r)). Qed.

Lemma wh_dispatcher : steps rt_writes evaluate_dispatcher.
Proof. intros r. exists []. done. Qed.

Lemma wh_flag b : steps rt_writes (py_modify (fun r => r <| rt_dispatcher_started := b |>)).
Proof. intros r. exists []. done. Qed.
#[local] Hint Resolve wh_dispatcher wh_flag : steps.
#[local] Hint Extern 3 (steps rt_writes (on_core _)) => apply wh_on_core; solve [auto with steps] : steps.

Lemma wh_start_services env deferred config has_events t :
  env_wf env ->
  steps rt_writes (start_services inject payload_hash fp float_str policy env deferred config has_events t).
Proof.
  intros Henv. unfold start_services, new_BrokerEventProcessor, attach_exposure_port, configure_active_exposure_port.
  repeat (apply steps_bind; [typeclasses eauto| |intros ? _ _ _]); try solve [steps_solve].
  - apply wh_on_core. apply steps_bind; [typeclasses eauto|auto with steps|].
    intros p ? ? [Hp _]%py_lift_Ok. by eapply wh_startup.
  - apply wh_on_core. apply steps_map; [typeclasses eauto|auto with steps].
  - destruct has_events; [|auto with steps]. apply wh_on_core. steps_solve.
Qed.

Lemma wh_start env deferred config has_events t :
  env_wf env -> steps rt_writes (start inject payload_hash fp float_str policy env deferred config has_events t).
Proof.
  intros Henv. apply steps_try; [typeclasses eauto|by apply wh_start_services|].
  intros e k [= <-]. steps_solve.
Qed.

(** The operator's operations. *)
Lemma wh_digit_config config hg reset mono utc :
  steps writes (update_digit_risk_config fp config hg reset mono utc).
Proof. unfold update_digit_risk_config, reset_digit_recovery_state. steps_solve. Qed.
#[local] Hint Resolve wh_digit_config : steps.

Lemma wh_update_config config save t1 t2 k1 k2 :
  steps writes (update_digit_risk_config_runtime fp float_str config save t1 t2 k1 k2).
Proof.
  unfold update_digit_risk_config_runtime. steps_solve. apply steps_try; [typeclasses eauto|steps_solve|].
  intros e k Hk. destruct (is_storage_failure e); [|done]. injection Hk as <-. steps_solve.
Qed.

Lemma wh_reset_session t : steps writes (reset_digit_test_session t).
Proof.
  unfold reset_digit_test_session, reset_daily_pnl. steps_solve. apply steps_try; [typeclasses eauto|steps_solve|].
  - by apply (wh_db _ _ _ (OpResetDigit t)).
  - intros e k Hk. destruct (is_persistence_error e); [|done]. injection Hk as <-. steps_solve.
Qed.

Lemma wh_reset_recovery t : steps writes (reset_digit_recovery_state_runtime fp float_str t).
Proof.
  unfold reset_digit_recovery_state_runtime, reset_digit_recovery_state. steps_solve.
  apply steps_try; [typeclasses eauto|steps_solve|].
  intros e k Hk. destruct (is_storage_failure e); [|done]. injection Hk as <-. steps_solve.
Qed.
#[local] Hint Resolve wh_update_config wh_reset_session wh_reset_recovery : steps.

(** ** Histories of the core *)

(** A call of the core, of a remaining operation of the writer, or the end of the
    process: gate and ledger are lost, the database is kept. *)
Inductive core_op : Type :=
| CStart (env : query_env) (deferred : list Broker) (config : DigitRiskConfig) (has_events : bool)
    (t : startup_clock)
| CSubmit (worker : OrderSubmissionPort) (auth : option (res unit)) (q : OrderRequest)
    (dispatch : bool) (ids : PersistedOrder) (k1 k2 : clock)
    (created_at dispatch_time recorded_at : datetime)
| CDispatch (worker : OrderSubmissionPort) (dispatch_time recorded_at : datetime)
| CEvent (fallback : option query_env) (event : BrokerOrderEvent) (received_at expired_at : datetime)
    (k : clock)
| CReconcile (env : query_env)
| CReconcileBrokers (env : query_env)
| CReconcileOrder (env : query_env) (order_id : string)
| CUpdateConfig (config : DigitRiskConfig) (save : bool) (t1 t2 : datetime) (k1 k2 : clock)
| CResetSession (now : datetime)
| CResetRecovery (now : datetime)
| CStopEntries
| CResume (k : clock)
| CResumeFor (broker : Broker) (account_id : string) (k : clock)
| CWriter (op : writer_op)
| CExit (gate : HealthGate).

(** Requests, events and evidence are objects that their constructors returned; the
    remaining operations are those that insert no order. *)
Definition core_op_wf (op : core_op) : Prop :=
  match op with
  | CStart env _ _ _ _ | CReconcile env | CReconcileBrokers env | CReconcileOrder env _ => env_wf env
  | CSubmit _ _ q _ _ _ _ _ _ _ => request_wf q
  | CEvent f e _ _ _ => BrokerOrderEvent_post_init payload_hash e = Ok e /\
      match f with Some env => env_wf env | None => True end
  | CWriter op => is_persist op = false
  | _ => True
  end.

Definition run_core_op (op : core_op) (r : runtime) : runtime :=
  match op with
  | CStart env d config ev t => snd (start inject payload_hash fp float_str policy env d config ev t r)
  | CSubmit worker auth q d ids k1 k2 t1 t2 t3 =>
      snd (on_core (submit inject fp worker auth q d ids k1 k2 t1 t2 t3) r)
  | CDispatch worker t1 t2 => snd (runtime_dispatch_pending worker t1 t2 r)
  | CEvent f e t1 t2 k =>
      snd (on_core (process inject fp (fallback_reconciliation inject payload_hash policy <$> f) e t1 t2 k) r)
  | CReconcile env => snd ((_ ← on_core (reconcile_all inject payload_hash policy env);
                            on_reconciliation_cycle_completed) r)
  | CReconcileBrokers env => snd (on_core (reconcile_all_brokers inject payload_hash policy env) r)
  | CReconcileOrder env k => snd (on_core (reconcile_order inject payload_hash policy env k) r)
  | CUpdateConfig config save t1 t2 k1 k2 =>
      snd (on_core (update_digit_risk_config_runtime fp float_str config save t1 t2 k1 k2) r)
  | CResetSession t => snd (on_core (reset_digit_test_session t) r)
  | CResetRecovery t => snd (on_core (reset_digit_recovery_state_runtime fp float_str t) r)
  | CStopEntries => snd (stop_new_entries r)
  | CResume k => snd (resume_new_entries fp k r)
  | CResumeFor b a k => snd (resume_new_entries_for fp b a k r)
  | CWriter op => r <| rt_core ::= fun c => c <| c_writer ::= run_op inject payload_hash op |> |>
  | CExit g => mk_runtime (mk_core (c_ledger (rt_core r)) g (mk_writer (store (rt_core r)) false)) false
  end.

Definition run_core (ops : list core_op) (r : runtime) : runtime :=
  fold_left (fun r op => run_core_op op r) ops r.

Lemma wh_event f e t1 t2 k :
  BrokerOrderEvent_post_init payload_hash e = Ok e ->
  match f with Some env => env_wf env | None => True end ->
  steps writes (process inject fp (fallback_reconciliation inject payload_hash policy <$> f) e t1 t2 k).
Proof.
  intros He Hf. apply wh_process; [done|]. intros g o Hg. destruct f as [env|]; [|done].
  injection Hg as <-. unfold fallback_reconciliation. steps_solve.
Qed.

Definition is_submit (op : core_op) : bool :=
  match op with CSubmit _ _ _ _ _ _ _ _ _ _ => true | _ => false end.

Lemma run_core_op_writes op r : core_op_wf op -> is_submit op = false -> rt_writes r (run_core_op op r).
Proof.
  destruct op; simpl; intros Hwf Hs; try done.
  - by apply wh_start.
  - revert r. change (steps rt_writes (runtime_dispatch_pending worker dispatch_time recorded_at)).
    unfold runtime_dispatch_pending. steps_solve.
  - destruct Hwf. apply wh_on_core. by apply wh_event.
  - revert r. change (steps rt_writes (_ ← on_core (reconcile_all inject payload_hash policy env);
      on_reconciliation_cycle_completed)). unfold on_reconciliation_cycle_completed. steps_solve.
  - apply wh_on_core. auto with steps.
  - apply wh_on_core. auto with steps.
  - apply wh_on_core. auto with steps.
  - apply wh_on_core. auto with steps.
  - apply wh_on_core. auto with steps.
  - revert r. change (steps rt_writes stop_new_entries). unfold stop_new_entries. steps_solve.
  - revert r. change (steps rt_writes (resume_new_entries fp k)). unfold resume_new_entries. steps_solve.
  - revert r. change (steps rt_writes (resume_new_entries_for fp broker account_id k)).
    unfold resume_new_entries_for. steps_solve.
  - exists [op]. split; [by constructor|]. unfold db_run, store. simpl. by apply run_op_db.
  - by exists [].
Qed.

Lemma run_core_op_calls op r :
  core_op_wf op -> calls inject payload_hash (rt_core r) (rt_core (run_core_op op r)).
Proof.
  intros Hwf. destruct (is_submit op) eqn:Es; [|by apply writes_calls, run_core_op_writes].
  destruct op; try done. simpl. unfold on_core.
  pose proof (wh_submit inject payload_hash fp worker auth q dispatch ids k1 k2 created_at dispatch_time
    recorded_at Hwf (rt_core r)) as H. by destruct (submit _ _ _ _ _ _ _ _ _ _ _ _ _).
Qed.

(** The store is always that of a history of the writer: the theorems about such
    histories (exposure held until the order is terminal, one open order per account,
    no second dispatch, effects applied once) hold of the running core. *)
Lemma core_store_is_a_writer_history cops r :
  store (rt_core r) = empty_db -> Forall core_op_wf cops ->
  exists ops, store (rt_core (run_core cops r)) = db_after inject payload_hash ops.
Proof.
  intros Hc Hwf. change empty_db with (db_after inject payload_hash []) in Hc. revert Hc.
  generalize (@nil writer_op) as ops. revert r.
  induction cops as [|op cops IH]; intros r ops Hc; simpl; [by exists ops|].
  apply Forall_cons in Hwf as [Hop Hwf]. destruct (run_core_op_calls op r Hop) as (ops' & E).
  apply (IH Hwf _ (ops ++ ops')). by rewrite E, Hc, db_run_after.
Qed.

(** ** The origin of an order *)

(** The order was inserted by the submission [op], in the state [r]. *)
Definition submitted_by (op : core_op) (r : runtime) (o : Order) (intents : list TradeIntent) : Prop :=
  exists worker auth q d ids k1 k2 t1 t2 t3,
    op = CSubmit worker auth q d ids k1 k2 t1 t2 t3 /\
    order_static o = order_static (new_order q (po_intent_id ids) (po_order_id ids) (isoformat t1)) /\
    new_intent q (po_intent_id ids) (isoformat t1) ∈ intents /\
    admitted fp auth q k1 k2 (rt_core r).

(** One operation: an order that is there afterwards was there before, or the operation
    is the submission that inserted it.  Intents are never removed. *)
Lemma run_core_op_orders op r o :
  core_op_wf op -> db_ok (store (rt_core r)) ->
  let s := store (rt_core (run_core_op op r)) in
  (forall t, t ∈ trade_intents (store (rt_core r)) -> t ∈ trade_intents s) /\
  (o ∈ orders s ->
   (exists o0, o0 ∈ orders (store (rt_core r)) /\ order_static o0 = order_static o) \/
   submitted_by op r o (trade_intents s)).
Proof.
  intros Hwf Hok. cbv zeta. destruct (is_submit op) eqn:Es.
  2: { destruct (writes_keep _ _ _ _ (run_core_op_writes op r Hwf Es) Hok) as (_ & -> & Eo).
       split; [done|]. intros Ho. left. by eapply elem_of_via. }
  destruct op; try done.
  pose proof (submit_effect inject payload_hash fp worker auth q dispatch ids k1 k2 created_at dispatch_time
    recorded_at (rt_core r) Hok) as Heff.
  assert (rt_core (run_core_op (CSubmit worker auth q dispatch ids k1 k2 created_at dispatch_time recorded_at) r) =
    snd (submit inject fp worker auth q dispatch ids k1 k2 created_at dispatch_time recorded_at (rt_core r))) as ->.
  { simpl. unfold on_core. by destruct (submit _ _ _ _ _ _ _ _ _ _ _ _ _). }
  destruct Heff as [W|(c4 & [Hadm Hok4 Ei Eo] & W)].
  - destruct (writes_keep _ _ _ _ W Hok) as (_ & -> & Eo). split; [done|]. intros Ho. left. by eapply elem_of_via.
  - destruct (writes_keep _ _ _ _ W Hok4) as (_ & Ei' & Eo'). rewrite Ei', Ei.
    split; [intros t Ht; apply elem_of_app; by left|]. intros Ho.
    destruct (elem_of_via _ _ _ _ Eo' Ho) as (o0 & Ho0 & E0). rewrite Eo in Ho0.
    apply elem_of_snoc in Ho0 as [Ho0| ->]; [left; by exists o0|right]. unfold submitted_by.
    do 10 eexists. split; [done|]. split; [done|]. split; [apply elem_of_snoc; by right|done].
Qed.

(** C6: no order without admission.  After any sequence of startups, submissions,
    dispatches, broker events, reconciliations, operations of the operator and ends of
    the process, with any workers, faults and clocks, each order of the store was
    inserted by one of the submissions of the sequence: it has the ids, the broker and
    the account of that submission, and the intent with the request's terms is in the
    store.  In the state in which that submission was called the authorizer did not
    refuse, the gate admitted the account after the refresh of the digit blockers, the
    ledger was not locked and reserved the amount, the amount with the exposure held in
    the store was within the global and the symbol's limit, and all other orders of the
    account were terminal. *)
Theorem orders_were_admitted cops r o :
  store (rt_core r) = empty_db -> Forall core_op_wf cops ->
  o ∈ orders (store (rt_core (run_core cops r))) ->
  exists before op after, cops = before ++ op :: after /\
    submitted_by op (run_core before r) o (trade_intents (store (rt_core (run_core cops r)))).
Proof.
  intros Hc. revert o. induction cops as [|op cops IH] using rev_ind; intros o Hwf Ho.
  { simpl in Ho. rewrite Hc in Ho. by apply elem_of_nil in Ho. }
  apply Forall_app in Hwf as [Hwf [Hop _]%Forall_cons].
  assert (db_ok (store (rt_core (run_core cops r)))) as Hok.
  { destruct (core_store_is_a_writer_history cops r Hc Hwf) as (ops & ->). apply db_after_ok. }
  unfold run_core in Ho |- *. rewrite fold_left_app in Ho |- *. fold (run_core cops r) in Ho |- *. simpl in Ho |- *.
  destruct (run_core_op_orders op (run_core cops r) o Hop Hok) as [Hi Hcase].
  destruct (Hcase Ho) as [(o0 & Ho0 & E0)|Hsub]; [|by exists cops, op, []].
  destruct (IH o0 Hwf Ho0) as (before & op' & after & -> & Hby).
  exists before, op', (after ++ [op]). split; [by rewrite <- app_assoc|].
  destruct Hby as (w & auth & q & d & ids & k1 & k2 & t1 & t2 & t3 & E & Es & Hin & Hadm).
  exists w, auth, q, d, ids, k1, k2, t1, t2, t3. rewrite <- E0. by auto.
Qed.
End histories.

(** ** Witness *)

Import Sample.

Definition float_text (d : pydec) : string := "30".
Definition boot_clock : startup_clock :=
  mk_startup_clock (at_ 0) (at_ 0) (at_ 0) at_half_past (at_ 0) (at_ 0) at_half_past.
Definition switched_off : runtime := mk_runtime (core_on []) false.

(** A startup, a submission whose response is lost, the end of the process, and a
    startup that finds the order. *)
Definition sample_run : list core_op := [
  CStart (replying (fun _ => unavailable)) [] default_DigitRiskConfig true boot_clock;
  CSubmit lost_response None (request 100 "A1") true fresh_ids at_half_past at_half_past (at_ 1) (at_ 1) (at_ 2);
  CExit (health_gate_init (Some mark_healthy));
  CStart (replying (fun _ => unavailable)) [] default_DigitRiskConfig true boot_clock].

Lemma orders_were_admitted_witness :
  let r := run_core no_fault hash sample_fp float_text sample_policy sample_run switched_off in
  o_state (order_at 0 (store (rt_core r))) = UNKNOWN /\
  exists before op after, sample_run = before ++ op :: after /\
    submitted_by sample_fp op (run_core no_fault hash sample_fp float_text sample_policy before switched_off)
      (order_at 0 (store (rt_core r))) (trade_intents (store (rt_core r))).
Proof.
  split; [vm_compute; reflexivity|].
  apply orders_were_admitted; [reflexivity|repeat constructor; intros a q r ev [= <-]; discriminate|].
  apply order_at_elem. vm_compute. lia.
Defined.
