(* ===== verification/CycleProps.v ===== *)
(** * Reconciliation cycles

    What a cycle of the reconciliation leaves behind in the gate and in the store. *)

From S2P Require Import Prelude Datetime Dec Domain StateDb Writer WriterInv WriterOps WriterProps EventProps Reader Health Martingale DigitConfig Risk RiskProps Coordinator CoordProps ReconProps DispatchProps Reconciliation AttemptProps BrokerEvents Runtime CoreHistory.

(** ** The gate during a cycle *)

Definition blocked (r : string) (c : core) : Prop := r ∈ hg_blockers (c_gate c).

(** Global reasons are only added. *)
Definition keeps_blocked (c c' : core) : Prop := hg_blockers (c_gate c) ⊆ hg_blockers (c_gate c').

#[export] Instance keeps_blocked_preorder : PreOrder keeps_blocked.
Proof. unfold keeps_blocked. split; [intros c; done|intros c1 c2 c3; set_solver]. Qed.

Lemma core_db_blockers {A} (m : db_m A) c :
  hg_blockers (c_gate (snd (core_db m c))) = hg_blockers (c_gate c).
Proof. unfold core_db. destruct (transaction _ _) as [r w]. simpl. by destruct (w_write_failed w). Qed.

Lemma steps_core_db {A} (m : db_m A) : steps keeps_blocked (core_db m).
Proof. intros c. unfold keeps_blocked. by rewrite core_db_blockers. Qed.

Lemma steps_block r : steps keeps_blocked (gate (block r)).
Proof. intros c. unfold keeps_blocked. simpl. set_solver. Qed.
#[export] Hint Resolve steps_core_db steps_block : steps.

Lemma gate_block_blocked r c c' u : gate (block r) c = (Ok u, c') -> blocked r c'.
Proof. intros [_ Eg]%gate_Ok. unfold blocked. rewrite Eg. simpl. set_solver. Qed.

(** The reasons that a negative outcome leaves. *)
Definition doubt_reasons : list string :=
  ["HG_RECONCILIATION_UNAVAILABLE"; "HG_RECONCILIATION_CONFLICT"; "HG_ORDER_UNKNOWN"].
Definition in_doubt (c : core) : Prop := exists r, r ∈ doubt_reasons /\ blocked r c.

Definition doubt_follows (r : ReconciliationItemResult) (c : core) : Prop :=
  is_negative (ri_outcome r) = true -> in_doubt c.

Section cycle.
Variable inject : string -> option exn.
Variable payload_hash : payload -> string.
Variable policy : reconciliation_policy.
Variable env : query_env.

Abbreviation reconcile := (reconcile inject payload_hash policy env).
Abbreviation query_loop := (query_loop inject payload_hash policy env).
Abbreviation ends m := (runs (fun _ : core => True) m doubt_follows (fun _ _ => True)).

Lemma ends_bind {A} (m : core_m A) k : (forall a, ends (k a)) -> ends (m ≫= k).
Proof.
  intros Hk. apply (runs_bind _ (fun _ _ => True)); [intros c _; by destruct (m c) as [[]]|done].
Qed.

Lemma ends_block r x :
  r ∈ doubt_reasons -> ends (_ ← gate (block r); mret x).
Proof. intros Hr c _. simpl. intros _. exists r. split; [done|]. unfold blocked. simpl. set_solver. Qed.

Lemma ends_positive x : is_negative (ri_outcome x) = false -> ends (mret x).
Proof. intros Hx c _. simpl. intros H. congruence. Qed.

Lemma ends_raise e : ends (py_raise e).
Proof. by intros c _. Qed.

Ltac ends_solve :=
  repeat first
    [ apply ends_block; set_solver
    | apply ends_raise
    | apply ends_positive; simpl; by repeat case_match
    | apply ends_bind; intros ?
    | match goal with |- ends (match ?x with _ => _ end) => destruct x end ].

Lemma query_raised_ends a o st n e retry :
  ends retry -> ends (query_raised policy env a o st n e retry).
Proof. intros Hr. unfold query_raised, failed, manual_review. ends_solve; exact Hr. Qed.

Lemma query_loop_ends query o st remaining n : ends (query_loop query o st remaining n).
Proof.
  revert n. induction remaining as [|k IH]; intros n; simpl; [apply ends_raise|].
  apply ends_bind. intros _.
  destruct (qe_reply _ _ _) as [status|e]; [|by apply query_raised_ends].
  unfold invalid_result, apply_found, apply_not_found, manual_review, failed.
  ends_solve; apply IH.
Qed.

Lemma reconcile_ends x : ends (reconcile x).
Proof. apply ends_bind. intros query. apply query_loop_ends. Qed.

Lemma query_raised_steps a o st n e retry :
  steps keeps_blocked retry -> steps keeps_blocked (query_raised policy env a o st n e retry).
Proof. intros Hr. unfold query_raised, failed, manual_review, complete. steps_solve; exact Hr. Qed.

Lemma query_loop_steps query o st remaining n :
  steps keeps_blocked (query_loop query o st remaining n).
Proof.
  revert n. induction remaining as [|k IH]; intros n; simpl; [auto with steps|].
  apply steps_bind; [typeclasses eauto|auto with steps|intros _ _ _ _].
  destruct (qe_reply _ _ _) as [status|e]; [|by apply query_raised_steps].
  unfold invalid_result, apply_found, apply_not_found, manual_review, failed, complete.
  steps_solve; apply IH.
Qed.

Lemma reconcile_steps x : steps keeps_blocked (reconcile x).
Proof. apply steps_bind; [typeclasses eauto|auto with steps|intros query _ _ _; apply query_loop_steps]. Qed.
#[local] Hint Resolve reconcile_steps : steps.

Lemma in_doubt_keeps c c' : keeps_blocked c c' -> in_doubt c -> in_doubt c'.
Proof. intros Hk (r & Hr & Hb). exists r. split; [done|]. unfold blocked in *. by apply Hk. Qed.

Lemma in_doubt_closes c b a : in_doubt c -> fst (can_enter_order (c_gate c) b a) = false.
Proof.
  intros (r & _ & Hr). apply not_true_iff_false. intros [_ H]%can_enter_iff. apply (H r). by left.
Qed.

(** One negative result among those of the candidates leaves a doubt. *)
Lemma map_doubt l c rs c' :
  py_map reconcile l c = (Ok rs, c') -> existsb (fun r => is_negative (ri_outcome r)) rs = true ->
  in_doubt c'.
Proof.
  revert c rs. induction l as [|x l IH]; intros c rs H Hneg; simpl in H.
  { apply py_ret_Ok in H as [-> _]. done. }
  apply py_bind_Ok in H as (r & c1 & Hr & H).
  apply py_bind_Ok in H as (rs' & c2 & Hrs & [-> ->]%py_ret_Ok).
  simpl in Hneg. apply orb_true_iff in Hneg as [Hneg|Hneg]; [|by eapply IH].
  pose proof (runs_Ok _ _ _ _ _ _ _ (reconcile_ends x) I Hr Hneg) as Hd.
  eapply in_doubt_keeps; [|exact Hd].
  eapply steps_run; [|exact Hrs]. apply steps_map; [typeclasses eauto|intros y; apply reconcile_steps].
Qed.

Lemma clear_if_blockers r g : hg_blockers (clear_if r g) = hg_blockers g ∖ {[ r ]}.
Proof. done. Qed.

Lemma gate_clear_keeps r r' c c' u :
  r' <> r -> gate (clear_if r) c = (Ok u, c') -> blocked r' c -> blocked r' c'.
Proof. intros Hr [_ Eg]%gate_Ok Hb. unfold blocked in *. rewrite Eg, clear_if_blockers. set_solver. Qed.

(** An unsuccessful cycle clears nothing but the settlement reason. *)
Lemma clear_gates_unsuccessful att c u c' :
  clear_gates_after_positive_cycle att false c = (Ok u, c') -> in_doubt c -> in_doubt c'.
Proof.
  unfold clear_gates_after_positive_cycle. destruct att; simpl; [|by intros [_ ->]%py_ret_Ok].
  intros H (r & Hr & Hb). apply py_bind_Ok in H as (p & c1 & [-> ->]%py_gets_Ok & H).
  apply py_bind_Ok in H as (u1 & c1 & H1 & H).
  assert (c1 = c) as -> by (case_match; by apply py_ret_Ok in H1 as [_ ?]).
  apply py_bind_Ok in H as (su & c1 & [-> ->]%py_gets_Ok & H).
  exists r. split; [done|]. destruct (orders_by_state _ _); [|by apply py_ret_Ok in H as [_ ->]].
  eapply gate_clear_keeps; [|exact H|exact Hb]. unfold doubt_reasons in Hr. set_solver.
Qed.

Lemma not_all_positive rs :
  existsb (fun r => is_negative (ri_outcome r)) rs = true -> all_positive (ri_outcome <$> rs) = false.
Proof.
  intros H. unfold all_positive. apply andb_false_iff. right. apply not_true_iff_false.
  rewrite forallb_forall. apply existsb_exists in H as (r & Hr & Hn). intros Hall.
  assert (In (ri_outcome r) (ri_outcome <$> rs)) as Hin.
  { apply list_elem_of_In, list_elem_of_fmap_2. by apply list_elem_of_In. }
  specialize (Hall _ Hin). by rewrite Hn in Hall.
Qed.

(** Doubt closes the gate.  When a cycle returns a result that is FAILED,
    UNRESOLVED or in need of manual review, no account may enter an order after it,
    whatever the other results were. *)
Theorem negative_cycle_closes_gate c rs c' :
  reconcile_all inject payload_hash policy env c = (Ok rs, c') ->
  existsb (fun r => is_negative (ri_outcome r)) rs = true ->
  forall b a, fst (can_enter_order (c_gate c') b a) = false.
Proof.
  intros H Hneg b a. apply in_doubt_closes. unfold reconcile_all in H.
  apply py_bind_Ok in H as (l & c1 & [-> ->]%py_gets_Ok & H).
  apply py_bind_Ok in H as (rs' & c2 & Hm & H).
  apply py_bind_Ok in H as (u & c3 & Hc & [-> ->]%py_ret_Ok).
  rewrite (not_all_positive rs' Hneg) in Hc. eapply clear_gates_unsuccessful; [exact Hc|].
  by eapply map_doubt.
Qed.

(** ** Reopening *)

(** Every order is part of the joins of the reconciliation queries. *)
Lemma order_joins_all s o : struct_inv s -> o ∈ orders s -> exists x, join_all s o = Some x.
Proof.
  intros Hst Ho. assert (o_intent_id o ∈ ti_intent_id <$> trade_intents s) as Hin.
  { rewrite <- (si_order_intents s Hst). by apply list_elem_of_fmap_2. }
  assert (forall R (key : R -> string) (t : list R), key <$> t = ti_intent_id <$> trade_intents s ->
    exists r, fetchone (fun r => bool_decide (key r = o_intent_id o)) t = Some r) as Hfetch.
  { intros R key t Ek. destruct (fetchone _ t) as [r|] eqn:E; [eauto|exfalso].
    rewrite <- Ek in Hin. apply list_elem_of_fmap in Hin as (r & Er & Hr).
    pose proof (fetchone_None _ _ _ E Hr) as Hf. apply bool_decide_eq_false in Hf. congruence. }
  unfold join_all, outbox_for_intent, reservation_for_intent.
  destruct (Hfetch _ ti_intent_id (trade_intents s) eq_refl) as [t ->]. simpl.
  destruct (Hfetch _ om_intent_id (outbox_messages s) (si_msg_intents s Hst)) as [m ->]. simpl.
  destruct (Hfetch _ rr_intent_id (risk_reservations s) (si_res_intents s Hst)) as [r ->]. simpl. eauto.
Qed.

Lemma no_candidates s o :
  struct_inv s -> list_reconciliation_candidates s = [] -> o ∈ orders s ->
  o_state o ∈ [ACCEPTED; OPEN; UNKNOWN; SETTLEMENT_UNKNOWN] -> has_conflict s o = true.
Proof.
  intros Hst Hnil Ho Hs. apply not_false_iff_true. intros Hc.
  destruct (order_joins_all s o Hst Ho) as [x Hx].
  assert (x ∈ list_reconciliation_candidates s) as Hin; [|rewrite Hnil in Hin; by apply not_elem_of_nil in Hin].
  unfold list_reconciliation_candidates. apply elem_of_sort_by. apply list_elem_of_omap.
  exists o. split; [|done]. apply elem_of_select. split; [done|].
  unfold is_candidate. rewrite Hc, bool_decide_true by done. done.
Qed.

Lemma clear_gates_store att succ c u c' :
  clear_gates_after_positive_cycle att succ c = (Ok u, c') -> store c' = store c.
Proof.
  intros H. assert (frame store (clear_gates_after_positive_cycle att succ)) as Hf.
  { unfold clear_gates_after_positive_cycle, gate. frame_solve. }
  specialize (Hf c). by rewrite H in Hf.
Qed.

(** The reason of unknown orders is cleared only without candidates. *)
Lemma clear_gates_reopens att succ c u c' :
  clear_gates_after_positive_cycle att succ c = (Ok u, c') ->
  blocked "HG_ORDER_UNKNOWN" c -> ~ blocked "HG_ORDER_UNKNOWN" c' ->
  succ = true /\ list_reconciliation_candidates (store c) = [].
Proof.
  unfold clear_gates_after_positive_cycle. destruct att; simpl; [|by intros [_ ->]%py_ret_Ok].
  intros H Hb Hnb. apply py_bind_Ok in H as (p & c1 & [-> ->]%py_gets_Ok & H).
  apply py_bind_Ok in H as (u1 & c1 & H1 & H). fold (store c) in H1.
  destruct (list_reconciliation_candidates (store c)) as [|x l]; [destruct succ; [done|]|];
    exfalso; apply py_ret_Ok in H1 as [_ ->];
    apply py_bind_Ok in H as (su & c1 & [-> ->]%py_gets_Ok & H); apply Hnb;
    (destruct (orders_by_state _ _); [|by apply py_ret_Ok in H as [_ ->]]);
    by eapply gate_clear_keeps; [|exact H|exact Hb].
Qed.

(** C13: the gate does not reopen over an open question.  When the reason for unknown
    orders disappears during a cycle, every result was positive, and no order of the
    store is left accepted, open, unknown or with an unknown settlement, except
    orders with a recorded conflict, which wait for a manual review. *)
Theorem gate_reopens_without_open_questions ops c rs c' :
  store c = db_after inject payload_hash ops -> env_wf env ->
  reconcile_all inject payload_hash policy env c = (Ok rs, c') ->
  blocked "HG_ORDER_UNKNOWN" c -> ~ blocked "HG_ORDER_UNKNOWN" c' ->
  all_positive (ri_outcome <$> rs) = true /\
  forall o, o ∈ orders (store c') -> o_state o ∈ [ACCEPTED; OPEN; UNKNOWN; SETTLEMENT_UNKNOWN] ->
    has_conflict (store c') o = true.
Proof.
  intros Hst Henv H Hb Hnb. apply reachable_ok in Hst.
  pose proof (wh_db_ok _ _ _ _ _ _ (wh_reconcile_all _ _ _ env Henv) Hst H) as Hok.
  unfold reconcile_all in H. apply py_bind_Ok in H as (l & c1 & [-> ->]%py_gets_Ok & H).
  apply py_bind_Ok in H as (rs' & c2 & Hm & H).
  apply py_bind_Ok in H as (u & c3 & Hc & [-> ->]%py_ret_Ok).
  rewrite (clear_gates_store _ _ _ _ _ Hc) in *.
  assert (keeps_blocked c c2) as Hk.
  { eapply steps_run; [|exact Hm]. apply steps_map; [typeclasses eauto|intros y; apply reconcile_steps]. }
  destruct (clear_gates_reopens _ _ _ _ _ Hc (Hk _ Hb) Hnb) as [-> Hnil]. split; [done|].
  intros o Ho Hs. exact (no_candidates _ _ (inv_struct _ _ _ Hok) Hnil Ho Hs).
Qed.
End cycle.

(** ** The scheduler *)

(** What happens to the scheduler: a trigger, or an iteration of its loop with the
    flags it observes. *)
Inductive scheduler_event : Type :=
| Triggered (stopped : bool)
| Cycle (active_before_wait triggered stopped cycle_active stopping : bool).

Section scheduler.
Variable cycle : core_m (list ReconciliationItemResult).
Variable completed : list ReconciliationItemResult -> core_m unit.

Definition scheduler_step (x : ReconciliationScheduler * core) (e : scheduler_event)
    : ReconciliationScheduler * core :=
  match e with
  | Triggered stopped => (trigger stopped (fst x), snd x)
  | Cycle before triggered stopped running stopping =>
      scheduler_cycle cycle completed before triggered stopped running stopping (fst x) (snd x)
  end.

Definition within (base max : Z) (s : ReconciliationScheduler) : Prop :=
  rs_base_delay s = base /\ rs_max_delay s = max /\ base <= rs_delay s <= max.

Lemma scheduler_step_within base max x e :
  0 < base -> within base max (fst x) -> within base max (fst (scheduler_step x e)).
Proof.
  unfold within. intros Hb (<- & <- & ?). destruct e; simpl.
  - destruct stopped; simpl; lia.
  - unfold scheduler_cycle. destruct stopped; [done|]. destruct (_ && _); [done|].
    destruct (run_once _ _ _ _ _) as [[[report|]|e] c]; simpl; try lia.
    destruct (signature_active _); simpl; [|lia]. destruct (_ || _); simpl; lia.
Qed.

(** The scheduler keeps retrying at a bounded pace.  Whatever triggers arrive and
    however the cycles end (idle, without progress, with progress, skipped or with an
    exception), the delay before the next cycle lies between the base and the maximum
    of the policy; and a cycle that raises closes the gate for every account. *)
Theorem scheduler_paces_and_fails_closed base max s events c :
  new_ReconciliationScheduler base max = Ok s ->
  let '(s', c') := fold_left scheduler_step events (s, c) in
  base <= rs_delay s' <= max /\
  forall before, (exists e, fst (cycle c') = Err e) ->
    forall b a, fst (can_enter_order (c_gate (snd (scheduler_step (s', c')
      (Cycle before true false false false)))) b a) = false.
Proof.
  intros H. unfold new_ReconciliationScheduler in H. apply res_bind_Ok in H as (u & Hg & [= <-]).
  apply guard_res_Ok, andb_true_iff in Hg as [Hb Hm].
  assert (within base max (fst (fold_left scheduler_step events (mk_ReconciliationScheduler base max base None, c)))) as Hw.
  { assert (within base max (mk_ReconciliationScheduler base max base None)) as H0 by (split_and!; simpl; lia).
    revert H0. generalize (mk_ReconciliationScheduler base max base None) as s. revert c.
    induction events as [|e l IH]; intros c s Hs; [done|]. simpl.
    pose proof (scheduler_step_within base max (s, c) e ltac:(lia) Hs) as H1.
    destruct (scheduler_step (s, c) e) as [s1 c1]. by apply IH. }
  destruct (fold_left _ _ _) as [s' c']. simpl in Hw. split; [apply Hw|].
  intros before [e He] b a. unfold scheduler_step, scheduler_cycle, run_once. simpl.
  unfold mbind, py_bind. destruct (cycle c') as [x c1]. simpl in He. subst x. simpl.
  apply not_true_iff_false. intros [_ Hn]%can_enter_iff.
  apply (Hn "HG_RECONCILIATION_UNAVAILABLE"). left. simpl. set_solver.
Qed.
End scheduler.

(** ** Witnesses *)

Import Sample.

Definition in_question (c : core) : core := c <| c_gate ::= block "HG_ORDER_UNKNOWN" |>.

Lemma negative_cycle_closes_gate_witness :
  fst (can_enter_order (c_gate (snd (reconcile_all no_fault hash sample_policy
    (replying (fun _ => unavailable)) (core_on lost_order)))) "IQ_OPTION" "A2") = false.
Proof.
  destruct (reconcile_all no_fault hash sample_policy (replying (fun _ => unavailable)) (core_on lost_order))
    as [r c'] eqn:E.
  apply (negative_cycle_closes_gate no_fault hash sample_policy (replying (fun _ => unavailable))
    (core_on lost_order) (match r with Ok l => l | Err _ => [] end) c').
  - rewrite E. vm_compute in E. injection E as <- _. reflexivity.
  - vm_compute in E. injection E as <- _. reflexivity.
Defined.

(** A worker that knows the order of the account ["A1"] as rejected. *)
Definition rejected_at_broker : OrderStatusPort := fun _ =>
  StatusReply (mk_OrderStatusResult SQ_FOUND (Some (evidence "v1" 100 EX_REJECTED None)) None None).
Abbreviation resolved_cycle :=
  (reconcile_all no_fault hash sample_policy (replying (fun _ => rejected_at_broker))
    (in_question (core_on lost_order))).

Lemma gate_reopens_without_open_questions_witness :
  fst (can_enter_order (c_gate (snd resolved_cycle)) "DERIV" "A1") = true /\
  forall o, o ∈ orders (store (snd resolved_cycle)) ->
    o_state o ∈ [ACCEPTED; OPEN; UNKNOWN; SETTLEMENT_UNKNOWN] ->
    has_conflict (store (snd resolved_cycle)) o = true.
Proof.
  split; [reflexivity|].
  apply (gate_reopens_without_open_questions no_fault hash sample_policy
    (replying (fun _ => rejected_at_broker)) lost_order (in_question (core_on lost_order))
    (match fst resolved_cycle with Ok l => l | Err _ => [] end)).
  - reflexivity.
  - intros a q r ev [= <-] [= <-]. reflexivity.
  - vm_compute. reflexivity.
  - unfold blocked. apply (bool_decide_unpack _). vm_compute. exact I.
  - unfold blocked. apply (bool_decide_unpack (_ ∉ _)). vm_compute. exact I.
Defined.

Lemma scheduler_paces_and_fails_closed_witness :
  let '(s', _) := fold_left (scheduler_step (py_raise OverflowError) (fun _ => mret tt))
    [Cycle true true false false false; Triggered false] (mk_ReconciliationScheduler 2 30 2 None, core_on lost_order) in
  2 <= rs_delay s' <= 30.
Proof.
  pose proof (scheduler_paces_and_fails_closed (py_raise OverflowError) (fun _ => mret tt) 2 30
    (mk_ReconciliationScheduler 2 30 2 None) [Cycle true true false false false; Triggered false]
    (core_on lost_order) eq_refl) as H.
  destruct (fold_left _ _ _) as [s' c']. exact (proj1 H).
Defined.

(** ** Conflicts and restarts

    Two unknown orders on different accounts.  The evidence for the first one has
    the wrong amount, so its attempt ends in CONFLICT and the gate is closed.  The
    conflict is a blocker of the running process only: after a restart the recovery
    blocks the gate for the unknown orders, the second order is resolved, and the
    gate is open for the account of the first order, which is still unknown. *)
Definition two_lost : list writer_op := [
  submit 100 "A1" "1"; submit 200 "A2" "2"; OpClaim (at_ 1) None None; OpClaim (at_ 1) None None;
  OpDispatchResult (command 100 "A1" "m1" "i1" "o1") "TIMEOUT_AFTER_POSSIBLE_SEND" None None (at_ 1);
  OpDispatchResult (command 200 "A2" "m2" "i2" "o2") "TIMEOUT_AFTER_POSSIBLE_SEND" None None (at_ 1);
  OpBeginAttempt "a1" "o1" "corr" (at_ 2);
  OpEvidence "a1" (evidence "v1" 101 EX_REJECTED None) (at_ 2)].
Definition second_rejected : OrderStatusPort := fun _ =>
  StatusReply (mk_OrderStatusResult SQ_FOUND (Some (mk_ReconciliationEvidence "v2" STATUS_QUERY (at_ 4) "o2"
    None EX_REJECTED DERIV "A2" "DIGITEVEN" "R_100" CALL (usd 200) 1 None None)) None None).

Example restart_reopens_over_a_conflict :
  let restarted := snd (recover (at_ 3) (core_on two_lost)) in
  let c := snd (reconcile_all no_fault hash sample_policy (replying (fun _ => second_rejected)) restarted) in
  can_enter_order (c_gate restarted) "DERIV" "A1" = (false, Some "HG_ORDER_UNKNOWN") /\
  can_enter_order (c_gate c) "DERIV" "A1" = (true, None) /\
  o_state (order_at 0 (store c)) = UNKNOWN.
Proof. vm_compute. auto. Qed.
