(* ===== verification/LedgerProps.v ===== *)
(** * Broker events, the ledger and the gate

    What the event processor and the pump of [apps/core/broker_events.py] and the
    arming operations of [apps/core/runtime.py] leave in the ledger and in the gate:
    the daily P&L of the ledger moves with the P&L booked in the store, a doubtful
    event closes its account, and a refused arming leaves everything disarmed. *)

From S2P Require Import Prelude Datetime Dec Domain StateDb Writer WriterInv WriterOps WriterProps EventProps Reader Health Martingale DigitConfig Risk RiskProps Coordinator CoordProps ReconProps DispatchProps Reconciliation AttemptProps BrokerEvents Runtime CoreHistory.

(** ** Booked P&L *)

Definition order_pnl (o : Order) : Z := default 0 (o_realized_pnl_minor o).

(** The P&L of all settled orders of the store. *)
Definition booked (s : state_db) : Z := sumZ (order_pnl <$> orders s).

Lemma sum_update_same (p : Order -> bool) f (l : list Order) :
  (forall o, o ∈ l -> p o = true -> order_pnl (f o) = order_pnl o) ->
  sumZ (order_pnl <$> update_where p f l) = sumZ (order_pnl <$> l).
Proof.
  intros Hf. f_equal. unfold update_where. rewrite <- list_fmap_compose. apply list_fmap_ext.
  intros i o Hi. simpl. destruct (p o) eqn:E; [|done].
  apply Hf; [by eapply list_elem_of_lookup_2|done].
Qed.

Lemma sum_update_one (k : string) (f : Order -> Order) (l : list Order) o :
  NoDup (o_intent_id <$> l) -> o ∈ l -> o_intent_id o = k ->
  sumZ (order_pnl <$> update_where (of_intent k) f l)
    = sumZ (order_pnl <$> l) + (order_pnl (f o) - order_pnl o).
Proof.
  induction l as [|x l IH]; [by rewrite elem_of_nil|]. rewrite fmap_cons, NoDup_cons, elem_of_cons.
  intros [Hx Hl] Ho Ek. simpl. change (list_fmap Order Z order_pnl) with (fmap (M := list) order_pnl).
  destruct Ho as [->|Ho].
  - unfold of_intent at 1. rewrite bool_decide_true by done.
    rewrite (sum_update_same _ f l); [lia|]. intros y Hy Ey%bool_decide_eq_true.
    exfalso. apply Hx. rewrite Ek. apply list_elem_of_fmap. exists y. done.
  - unfold of_intent at 1. rewrite bool_decide_false.
    + rewrite (IH Hl Ho Ek). lia.
    + intros E. apply Hx. rewrite E, <- Ek. by apply list_elem_of_fmap_2.
Qed.

(** A transition without a P&L books nothing. *)
Lemma transition_books_none i new at_ boid s u s' :
  transition_order i new at_ boid None s = Ok (u, s') -> booked s' = booked s.
Proof.
  intros (o & _ & [[_ ->]|(_ & _ & ->)])%transition_order_Ok; [done|].
  unfold booked. simpl. by rewrite sum_update_same.
Qed.

(** A transition of an order whose P&L was unknown books exactly the given P&L. *)
Lemma transition_books_settled i at_ boid p s0 s u s' :
  Inv s0 None s -> (forall o, o ∈ orders s -> o_intent_id o = i -> o_state o <> SETTLED) ->
  transition_order i SETTLED at_ boid (Some p) s = Ok (u, s') -> booked s' = booked s + p.
Proof.
  intros HI Hns (o & [Ho Ei]%fetch_intent & [[E _]|(_ & _ & ->)])%transition_order_Ok.
  { by destruct (Hns o Ho Ei). }
  unfold booked. simpl. rewrite (sum_update_one i _ _ o); [|..]; try done.
  - unfold order_pnl at 2 3. simpl. destruct (o_realized_pnl_minor o) eqn:E; simpl; [|lia].
    destruct (inv_orders _ _ _ HI o Ho) as [_ Hs]. rewrite E in Hs. by destruct (Hns o Ho Ei); apply Hs.
  - rewrite (si_order_intents _ (inv_struct _ _ _ HI)). apply (inv_struct _ _ _ HI).
Qed.

Section events.
Variable inject : string -> option exn.

(** The P&L that the result of an event tells the ledger to count. *)
Definition counted (e : BrokerOrderEvent) (r : BrokerEventApplyResult) : Z :=
  if is_applied (ar_status r) && bool_decide (ar_order_state r = Some SETTLED)
  then default 0 (bo_result_minor e) else 0.

Lemma inbox_books e s s' : inbox_added e s s' -> booked s' = booked s.
Proof. intros (row & _ & ->). done. Qed.

Lemma finish_books o e target amb at_ s u s' :
  finish_broker_event inject o e target amb at_ s = Ok (u, s') -> booked s' = booked s.
Proof.
  intros [E _]%finish_broker_event_orders. unfold booked. rewrite E. by apply sum_update_same.
Qed.

Lemma lifecycle_books o e target at_ s0 s r s' :
  Inv s0 None s -> o ∈ orders s -> is_terminal (o_state o) = false ->
  (bo_result_minor e <> None -> target = SETTLED) ->
  apply_lifecycle_event inject o e target at_ s = Ok (r, s') -> booked s' = booked s + counted e r.
Proof.
  intros HI Ho Hnt Hpnl (s1 & s2 & Hadd & Hamb & Hc)%apply_lifecycle_inv.
  pose proof (inbox_added_inv _ _ _ _ Hadd HI) as HI1. pose proof (inbox_books _ _ _ Hadd) as E1.
  assert (booked s2 = booked s1) as E2.
  { destruct (is_ambiguous_state _); [|by subst]. by eapply transition_books_none. }
  assert (Inv s0 None s2 /\ forall x, x ∈ orders s2 -> o_intent_id x = o_intent_id o ->
    o_state x = if is_ambiguous_state (o_state o) then RECONCILING else o_state o) as [HI2 Hst2].
  { destruct (is_ambiguous_state _).
    - by apply (Inv_transition s0 (o_intent_id o) RECONCILING) in Hamb as [? ?].
    - subst s2. split; [done|]. intros x Hx Ex. f_equal.
      destruct (inbox_added_books _ _ _ Hadd) as (_ & Eo & _). rewrite Eo in Hx.
      by apply (order_intent_unique s); [apply HI|..]. }
  destruct Hc as [(s3 & Ha & Hs & Hm & Hf)|(Hna & _ & ->)].
  2:{ unfold counted. rewrite Hna. change (booked s2 = booked s + 0). lia. }
  apply finish_books in Hf as ->. unfold counted. rewrite Ha, Hs. simpl.
  destruct Hm as [[Hc ->]|[Hc Hm]].
  - rewrite bool_decide_false; [lia|]. intros [= ->]. by destruct (is_ambiguous_state _), (o_state o).
  - destruct (bo_result_minor e) as [p|] eqn:Ep.
    + rewrite (Hpnl ltac:(done)) in *. rewrite bool_decide_true by done. simpl.
      eapply transition_books_settled in Hm; [lia|done|]. intros x Hx Ex. by rewrite (Hst2 x Hx Ex).
    + apply transition_books_none in Hm. destruct (bool_decide _); simpl; lia.
Qed.

Lemma event_books e at_ s r s' :
  db_ok s -> event_pnl_ok e ->
  apply_normalized_broker_event inject e at_ s = Ok (r, s') -> booked s' = booked s + counted e r.
Proof.
  intros Hok He H. unfold apply_normalized_broker_event in H.
  apply st_bind_Ok in H as (dup & s1 & [-> ->]%st_gets_Ok & H).
  destruct (fetchone _ (broker_order_events s)) as [d|].
  { monad_inv H; unfold counted, booked; simpl; lia. }
  apply apply_new_event_inv in H as [[Hna Hadd]|(o & t & target & [Hrow _ Ht Hnt _] & H)].
  - unfold counted. rewrite Hna. simpl. apply inbox_books in Hadd. lia.
  - apply order_with_intent_Some in Hrow as (Ho & _). apply (lifecycle_books o e target at_ s s); try done.
    intros Hr. by apply (external_state_terminal _ _ Ht), He.
Qed.

(** ** The ledger counts what the store books *)

(** The program adds [n] to the daily P&L and books nothing. *)
Definition counts (n : Z) (c c' : core) : Prop :=
  db_ok (store c) -> db_ok (store c') /\ booked (store c') = booked (store c) /\
    rl_daily_pnl (c_ledger c') = rl_daily_pnl (c_ledger c) + n.

Abbreviation quiet := (counts 0).

#[local] Instance quiet_preorder : PreOrder quiet.
Proof.
  unfold counts. split; [intros c ?; split_and!; try done; lia|].
  intros c1 c2 c3 H1 H2 Hok. destruct (H1 Hok) as (Hok2 & E1 & D1). destruct (H2 Hok2) as (? & E2 & D2).
  split_and!; [done|congruence|lia].
Qed.

(** The daily P&L and the booked P&L move together. *)
Definition in_step (c c' : core) : Prop :=
  db_ok (store c) -> db_ok (store c') /\
    rl_daily_pnl (c_ledger c') - rl_daily_pnl (c_ledger c) = booked (store c') - booked (store c).

#[local] Instance in_step_preorder : PreOrder in_step.
Proof.
  unfold in_step. split; [intros c ?; split_and!; try done; lia|].
  intros c1 c2 c3 H1 H2 Hok. destruct (H1 Hok) as (Hok2 & E1). destruct (H2 Hok2) as (? & E2).
  split; [done|lia].
Qed.

Lemma quiet_in_step c c' : quiet c c' -> in_step c c'.
Proof. intros H Hok. destruct (H Hok) as (? & ? & ?). split; [done|lia]. Qed.

Lemma steps_quiet_in_step {A} (m : core_m A) : steps quiet m -> steps in_step m.
Proof. intros H c. by apply quiet_in_step. Qed.

Lemma q_gate f : steps quiet (gate f).
Proof. intros c Hok. simpl. split_and!; try done. simpl. lia. Qed.

Lemma q_with_gate hg f : steps quiet (with_gate hg f).
Proof. intros c Hok. destruct hg; simpl; split_and!; try done; simpl; lia. Qed.

Lemma q_set f : (forall r, rl_daily_pnl (f r) = rl_daily_pnl r) -> steps quiet (set_ledger f).
Proof. intros Hf c Hok. simpl. split_and!; try done. simpl. rewrite Hf. lia. Qed.

Lemma q_ledger {A} (f : RiskLedger -> A) : steps quiet (ledger f).
Proof. intros c Hok. simpl. split_and!; try done. lia. Qed.

Lemma q_db {A} (m : db_m A) :
  (forall s a s', db_ok s -> m s = Ok (a, s') -> db_ok s' /\ booked s' = booked s) ->
  steps quiet (core_db m).
Proof.
  intros Hm c Hok. pose proof (frame_db (fun c => rl_daily_pnl (c_ledger c)) m ltac:(done) c) as Hl.
  destruct (core_db m c) as [[a|e] c'] eqn:E; simpl in *.
  - apply core_db_Ok in E as (E & _ & _). destruct (Hm _ _ _ Hok E) as [? ?]. split_and!; [done|done|lia].
  - apply core_db_Err in E. rewrite E. split_and!; [done|done|lia].
Qed.

Lemma expire_quiet t : steps quiet (core_db (expire_digit_cooldown t)).
Proof.
  apply q_db. intros s a s' Hok H. split.
  - eapply Inv_db_ok. by eapply expire_keeps.
  - unfold expire_digit_cooldown in H. by monad_inv H.
Qed.
#[local] Hint Resolve q_gate q_with_gate q_ledger expire_quiet : steps.
#[local] Hint Extern 3 (steps quiet (set_ledger _)) => apply q_set; reflexivity : steps.

Lemma q_restore_digit fp row mono utc : steps quiet (restore_digit_runtime fp row mono utc).
Proof. unfold restore_digit_runtime. steps_solve. Qed.
#[local] Hint Resolve q_restore_digit : steps.

Lemma q_reload fp t k : steps quiet (reload_digit_runtime fp t k).
Proof. unfold reload_digit_runtime. steps_solve. Qed.

Lemma q_restore_reservations : steps quiet restore_active_reservations.
Proof. unfold restore_active_reservations, restore. steps_solve. Qed.
#[local] Hint Resolve q_reload q_restore_reservations : steps.

Lemma counts_quiet n c1 c2 c3 : counts n c1 c2 -> quiet c2 c3 -> counts n c1 c3.
Proof.
  intros H1 H2 Hok. destruct (H1 Hok) as (Hok2 & E1 & D1). destruct (H2 Hok2) as (? & E2 & D2).
  split_and!; [done|congruence|lia].
Qed.

Lemma counts_then {A B} n (m : core_m A) (k : A -> core_m B) :
  steps (counts n) m -> (forall a, steps quiet (k a)) -> steps (counts n) (m ≫= k).
Proof.
  intros Hm Hk c. specialize (Hm c). unfold mbind, py_bind. destruct (m c) as [[a|e] c']; simpl in *; [|done].
  eapply counts_quiet; [done|]. apply Hk.
Qed.

Lemma apply_realized_counts pnl hg : steps (counts pnl) (apply_realized_pnl pnl hg).
Proof.
  unfold apply_realized_pnl. apply counts_then; [intros c Hok; by split_and!|intros _].
  steps_solve.
Qed.

Lemma settlement_counts fp e pnl t k : steps (counts pnl) (settlement_applied fp e pnl t k).
Proof. apply counts_then; [apply apply_realized_counts|intros _]. steps_solve. Qed.

Lemma counts_after {A B} n (m : core_m A) (k : A -> core_m B) :
  steps quiet m -> (forall c, exists a, fst (m c) = Ok a) -> (forall a, steps (counts n) (k a)) ->
  steps (counts n) (m ≫= k).
Proof.
  intros Hm Htot Hk c Hok. specialize (Hm c Hok) as (Hok1 & E1 & D1). destruct (Htot c) as [a Ha].
  unfold mbind, py_bind. destruct (m c) as [x c1]. simpl in *. subst x.
  destruct (Hk a c1 Hok1) as (? & E2 & D2). split_and!; [done|congruence|lia].
Qed.

(** A settlement that was applied is counted, everything else is not. *)
Lemma after_apply_counts fp e r t k :
  (bo_result_minor e <> None -> bo_result_currency e <> None) ->
  steps (counts (counted e r)) (after_apply fp e r t k).
Proof.
  intros Hcur. unfold after_apply, counted.
  destruct (ar_status r) eqn:Es; simpl; try (steps_solve; fail).
  all: apply counts_after; [destruct (ar_order_state r) as [[]|]; auto with steps
    |intros c; destruct (ar_order_state r) as [[]|]; eexists; reflexivity|intros _]; try (steps_solve; fail).
  all: destruct (bool_decide _); [|steps_solve].
  all: destruct (bo_result_minor e) as [pnl|]; [|simpl; steps_solve].
  all: destruct (bo_result_currency e) as [cur|]; [apply settlement_counts|by destruct Hcur].
Qed.

(** The result of an event that its constructor accepted. *)
Definition event_result_ok (e : BrokerOrderEvent) : Prop :=
  event_pnl_ok e /\ (bo_result_minor e <> None -> bo_result_currency e <> None).

Lemma post_init_result payload_hash e0 e :
  BrokerOrderEvent_post_init payload_hash e0 = Ok e -> event_result_ok e.
Proof.
  intros H. split; [by eapply post_init_event_pnl|].
  unfold BrokerOrderEvent_post_init in H. monad_inv H; simpl; try done; intros Hp;
    repeat match goal with
    | H : guard_res (bool_decide _ && _) _ = Ok _ |- _ =>
        apply guard_res_Ok, andb_true_iff in H as [?%bool_decide_eq_true ?%bool_decide_eq_true]
    end; congruence.
Qed.

Lemma run_bind {A B} (m : core_m A) (k : A -> core_m B) c :
  (m ≫= k) c = match m c with (Ok a, c1) => k a c1 | (Err e, c1) => (Err e, c1) end.
Proof. unfold mbind, py_bind. by destruct (m c) as [[] ?]. Qed.

(** ** The fallback for a gap

    The reconciliation of the order that the runtime hands to the processor books what it
    finds in the store and leaves the ledger alone. *)

Section fallback.
Variable payload_hash : payload -> string.
Variable policy : reconciliation_policy.

Lemma ledger_gate f : frame c_ledger (gate f).
Proof. by intros c. Qed.
#[local] Hint Resolve ledger_gate : frames.

Lemma ledger_query_loop env query o st remaining n :
  frame c_ledger (query_loop inject payload_hash policy env query o st remaining n).
Proof.
  revert n. induction remaining as [|k IH]; intros n; simpl; [apply frame_raise|].
  unfold query_raised, invalid_result, manual_review, failed, apply_found, apply_not_found, complete.
  apply frame_bind; [auto with frames|intros _]. destruct (qe_reply _ _ _) as [status|e]; frame_solve; apply IH.
Qed.

Lemma ledger_fallback env o : frame c_ledger (fallback_reconciliation inject payload_hash policy env o).
Proof.
  unfold fallback_reconciliation, reconcile_order, reconcile, clear_gates_after_positive_cycle. frame_solve.
  apply ledger_query_loop.
Qed.

(** The ledger is kept, and the invariant of the store. *)
Definition keeps_ledger (c c' : core) : Prop := c_ledger c' = c_ledger c /\ (db_ok (store c) -> db_ok (store c')).

Lemma fallback_keeps env o : env_wf env -> steps keeps_ledger (fallback_reconciliation inject payload_hash policy env o).
Proof.
  intros Henv c. split; [apply ledger_fallback|]. intros Hok.
  assert (steps (writes inject payload_hash) (fallback_reconciliation inject payload_hash policy env o)) as Hw.
  { unfold fallback_reconciliation. apply steps_bind; [typeclasses eauto|by apply wh_reconcile_order|intros; auto with steps]. }
  destruct (fallback_reconciliation _ _ _ _ _ c) as [r c'] eqn:E. by eapply wh_db_ok.
Qed.
End fallback.

(** ** Processing *)

(** A run of the fallback [g] for a delivered event, in the state [snd x]: what it books. *)
Definition booked_by (g : string -> core_m bool) (x : delivery * core) : Z :=
  booked (store (snd (g (bo_client_order_ref x.1.1.1.1) x.2))) - booked (store x.2).

(** The event of the delivery was applied with a gap. *)
Definition gapped (d : delivery) : Prop :=
  exists c r c', core_db (apply_normalized_broker_event inject d.1.1.1 d.1.1.2) c = (Ok r, c') /\
    ar_status r = EV_APPLIED_WITH_GAP.

(** From [c] to [c'] the ledger counts what the store books, except what the fallback booked
    in the runs [gaps]. *)
Definition accounts (g : string -> core_m bool) (gaps : list (delivery * core)) (c c' : core) : Prop :=
  db_ok (store c) -> db_ok (store c') /\
    rl_daily_pnl (c_ledger c') - rl_daily_pnl (c_ledger c) + sumZ (booked_by g <$> gaps) =
      booked (store c') - booked (store c).

Lemma accounts_trans g l1 l2 c1 c2 c3 : accounts g l1 c1 c2 -> accounts g l2 c2 c3 -> accounts g (l1 ++ l2) c1 c3.
Proof.
  intros H1 H2 Hok. destruct (H1 Hok) as (Hok2 & E1). destruct (H2 Hok2) as (? & E2). split; [done|].
  rewrite fmap_app, sumZ_app. lia.
Qed.

Lemma in_step_accounts g c c' : in_step c c' -> accounts g [] c c'.
Proof. intros H Hok. destruct (H Hok) as (? & ?). split; [done|]. simpl. lia. Qed.

Lemma quiet_accounts g c c' : quiet c c' -> accounts g [] c c'.
Proof. intros H. by apply in_step_accounts, quiet_in_step. Qed.

Section processing.
Variable f : option (string -> core_m bool).
Variable g : string -> core_m bool.
Hypothesis f_is_g : f = None \/ f = Some g.
Hypothesis g_keeps : forall o, steps keeps_ledger (g o).

(** The runs of the fallback while one event is processed. *)
Definition runs_of (d : delivery) (r : BrokerEventApplyResult) (gaps : list (delivery * core)) : Prop :=
  gaps = [] \/ (f = Some g /\ ar_status r = EV_APPLIED_WITH_GAP /\ exists c1, gaps = [(d, c1)]).

Lemma fallback_accounts d c : accounts g [(d, c)] c (snd (g (bo_client_order_ref d.1.1.1) c)).
Proof.
  intros Hok. destruct (g_keeps (bo_client_order_ref d.1.1.1) c) as [El Hk]. split; [by apply Hk|].
  simpl. unfold booked_by. simpl. rewrite El. lia.
Qed.

(** The part of [process] after gate and ledger were adjusted. *)
Lemma process_rest_accounts d r c :
  let e := d.1.1.1 in
  exists gaps, runs_of d r gaps /\ accounts g gaps c (snd ((
    _ ← restore_active_reservations;
    _ ← (if bool_decide (ar_status r = EV_APPLIED_WITH_GAP) then
           _ ← gate (block_scope (value (bo_broker e)) (bo_account_id e) "HG_ORDER_EVENT_GAP");
           match f with
           | None => mret tt
           | Some f =>
               resolved ← f (bo_client_order_ref e);
               if resolved : bool
               then gate (clear_scope (value (bo_broker e)) (bo_account_id e) "HG_ORDER_EVENT_GAP")
               else mret tt
           end
         else mret tt);
    mret r) c)).
Proof.
  intros e. rewrite run_bind. pose proof (q_restore_reservations c) as H1.
  destruct (restore_active_reservations c) as [[u|x] c1]; [|exists []; split; [by left|by apply quiet_accounts]].
  apply (quiet_accounts g) in H1. rewrite run_bind. case_bool_decide as Hgap; [|by exists []; split; [left|]].
  rewrite run_bind. set (c2 := snd (gate (block_scope (value (bo_broker e)) (bo_account_id e) "HG_ORDER_EVENT_GAP") c1)).
  assert (accounts g [] c c2) as H2.
  { apply (accounts_trans g [] [] c c1 c2); [done|]. apply quiet_accounts, (q_gate _ c1). }
  change (gate _ c1) with (@Ok unit tt, c2). cbv iota. destruct f_is_g as [-> | ->]; [by exists []; split; [left|]|].
  rewrite run_bind. pose proof (fallback_accounts d c2) as H3. fold e in H3.
  exists [(d, c2)]. split; [right; eauto|].
  destruct (g (bo_client_order_ref e) c2) as [[resolved|x] c3]; [|by apply (accounts_trans g [] [(d, c2)] c c2)].
  assert (accounts g [(d, c2)] c c3) as H4 by (by apply (accounts_trans g [] [(d, c2)] c c2)).
  destruct resolved; [|done]. apply (accounts_trans g [(d, c2)] [] c c3); [done|]. apply quiet_accounts, (q_gate _ c3).
Qed.

Lemma process_accounts fp d c :
  event_result_ok d.1.1.1 -> exists gaps, accounts g gaps c (snd (process inject fp f d.1.1.1 d.1.1.2 d.1.2 d.2 c)) /\
    (gaps = [] \/ (f = Some g /\ gapped d /\ exists c1, gaps = [(d, c1)])).
Proof.
  destruct d as [[[e t1] t2] k]. simpl. intros [Hpnl Hcur]. unfold process. rewrite run_bind.
  pose proof (frame_db (fun c => rl_daily_pnl (c_ledger c))
    (apply_normalized_broker_event inject e t1) ltac:(done) c) as Hl. revert Hl.
  destruct (core_db (apply_normalized_broker_event inject e t1) c) as [[r|err] c1] eqn:E; cbn [snd]; intros Hl.
  2:{ exists []. split; [|by left]. apply core_db_Err in E. intros Hok. rewrite E. split; [done|]. simpl. lia. }
  pose proof E as (Eap & El & _)%core_db_Ok.
  assert (forall c2, counts (counted e r) c1 c2 -> in_step c c2) as Hcount.
  { intros c2 Hc Hok. assert (db_ok (store c1)) as Hok1 by (eapply Inv_db_ok, apply_normalized_keeps; done).
    apply (event_books e t1) in Eap; [|done|done]. destruct (Hc Hok1) as (? & ? & ?). split; [done|]. lia. }
  pose proof (after_apply_counts fp e r t2 k Hcur c1) as Ha. rewrite run_bind.
  destruct (after_apply fp e r t2 k c1) as [[u|err] c2]; simpl in Ha; apply Hcount, (in_step_accounts g) in Ha.
  2:{ exists []. split; [done|by left]. }
  destruct (process_rest_accounts (e, t1, t2, k) r c2) as (gaps & Hg & Hacc). exists gaps. split.
  { by apply (accounts_trans g [] gaps c c2). }
  destruct Hg as [->|(-> & Hst & c3 & ->)]; [by left|right]. split; [done|]. split; [by exists c, r, c1|]. eauto.
Qed.

Lemma pump_accounts fp on_processed events c :
  Forall (fun d : delivery => event_result_ok d.1.1.1) events -> (forall e r c, snd (on_processed e r c) = c) ->
  exists gaps, accounts g gaps c (snd (pump inject fp f on_processed events c)) /\
    sublist (fst <$> gaps) events /\ Forall (fun x => gapped x.1) gaps /\ (f = None -> gaps = []).
Proof.
  intros Hev Hproc. revert c. induction Hev as [|[[[e t1] t2] k] events He Hev IH]; intros c; simpl.
  { exists []. split_and!; try done. by apply in_step_accounts. }
  destruct (process_accounts fp (e, t1, t2, k) c He) as (gaps & Hacc & Hg). cbn [fst snd] in *.
  assert (sublist (fst <$> gaps) [(e, t1, t2, k)] /\ Forall (fun x => gapped x.1) gaps /\ (f = None -> gaps = [])) as (Hs & Hf & Hn).
  { destruct Hg as [->|(-> & ? & c1 & ->)]; [split_and!; auto using sublist_nil_l|]. split_and!; [done| |done]. by apply Forall_singleton. }
  assert (forall c1, accounts g gaps c c1 -> exists gaps',
    accounts g gaps' c (c1 <| c_gate ::= block "HG_ORDER_EVENT_CONFLICT" |>) /\ sublist (fst <$> gaps') ((e, t1, t2, k) :: events) /\
    Forall (fun x => gapped x.1) gaps' /\ (f = None -> gaps' = [])) as Hend.
  { intros c1 H1. exists gaps. split_and!; try done. etrans; [exact Hs|apply sublist_skip, sublist_nil_l]. }
  rewrite run_bind. destruct (process _ _ _ _ _ _ _ c) as [[r|x] c1]; cbn [snd] in *; [|by apply Hend].
  rewrite run_bind. specialize (Hproc e r c1). destruct (on_processed e r c1) as [[u|x] c2]; cbn [snd] in *; subst c2; [|by apply Hend].
  change ((mret r : core_m BrokerEventApplyResult) c1) with (Ok r, c1). cbv iota.
  destruct (IH c1) as (gaps' & Hacc' & Hs' & Hf' & Hn'). destruct (pump _ _ _ _ events c1) as [l c3]. cbn [snd] in *.
  exists (gaps ++ gaps'). split; [by apply (accounts_trans g gaps gaps' c c1)|]. split.
  { rewrite fmap_app. by apply (sublist_app _ [(e, t1, t2, k)]). }
  split; [by apply Forall_app|]. intros Hnone. by rewrite Hn, Hn'.
Qed.
End processing.


(** ** Doubtful events close the account *)

Definition scope_blocked (e : BrokerOrderEvent) (r : string) (c : core) : Prop :=
  r ∈ scope (c_gate c) (str_upper (value (bo_broker e))) (bo_account_id e).

Lemma scope_blocked_closes e r c :
  scope_blocked e r c -> fst (can_enter_order (c_gate c) (value (bo_broker e)) (bo_account_id e)) = false.
Proof.
  intros H. apply not_true_iff_false. intros [_ Hn]%can_enter_iff. apply (Hn r). right. by left.
Qed.

Lemma block_scope_blocked e r u c c' :
  gate (block_scope (value (bo_broker e)) (bo_account_id e) r) c = (Ok u, c') -> scope_blocked e r c'.
Proof.
  intros [_ Eg]%gate_Ok. unfold scope_blocked, scope. rewrite Eg. unfold block_scope. simpl.
  rewrite lookup_insert_eq. simpl. set_solver.
Qed.

Lemma restore_gate u c c' : restore_active_reservations c = (Ok u, c') -> c_gate c' = c_gate c.
Proof.
  intros H. assert (frame c_gate restore_active_reservations) as Hf.
  { unfold restore_active_reservations, restore. frame_solve. }
  specialize (Hf c). by rewrite H in Hf.
Qed.

(** Doubt about an event closes its account.  When an event conflicts with what
    is stored, leaves a gap in the broker's sequence that nothing resolves, or leaves
    the order with an unknown settlement, no order may enter on its account after
    the event was processed. *)
Theorem doubtful_event_closes_account fp e t1 t2 k c r c' :
  process inject fp None e t1 t2 k c = (Ok r, c') ->
  ar_status r = EV_CONFLICT \/ ar_status r = EV_APPLIED_WITH_GAP \/
  (is_applied (ar_status r) = true /\ ar_order_state r = Some SETTLEMENT_UNKNOWN) ->
  fst (can_enter_order (c_gate c') (value (bo_broker e)) (bo_account_id e)) = false.
Proof.
  intros H Hd. unfold process in H.
  apply py_bind_Ok in H as (r' & c1 & _ & H). apply py_bind_Ok in H as ([] & c2 & Ha & H).
  apply py_bind_Ok in H as ([] & c3 & Eg%restore_gate & H).
  apply py_bind_Ok in H as ([] & c4 & Hgap & [-> ->]%py_ret_Ok).
  case_bool_decide as Es.
  - apply py_bind_Ok in Hgap as ([] & c5 & Hb%block_scope_blocked & [_ ->]%py_ret_Ok).
    by eapply scope_blocked_closes.
  - apply py_ret_Ok in Hgap as [_ ->]. unfold after_apply in Ha.
    assert (exists reason, scope_blocked e reason c2) as [reason Hr].
    { destruct Hd as [Hc|[Hc|[Hc Hs]]]; [|done|].
      - rewrite Hc in Ha. eexists. by eapply block_scope_blocked.
      - rewrite Hs in Ha. destruct (ar_status r') eqn:E; try done.
        apply py_bind_Ok in Ha as ([] & c5 & Hb%block_scope_blocked & Ha). simpl in Ha.
        apply py_ret_Ok in Ha as [_ ->]. eauto. }
    apply (scope_blocked_closes e reason). unfold scope_blocked. by rewrite Eg.
Qed.
End events.

(** ** Arming *)

Section arming.
Variable fp : DigitRiskConfig -> string.

Lemma scope_all_scoped g b a : scope g b a ⊆ all_scoped g.
Proof.
  unfold scope, all_scoped. destruct (hg_scoped g !! (b, a)) as [x|] eqn:E; simpl; [|set_solver].
  intros r Hr. apply elem_of_union_list. exists x. split; [|done].
  apply list_elem_of_fmap. exists ((b, a), x). split; [done|]. by apply elem_of_map_to_list.
Qed.

Lemma gate_open_for_all g b a : is_open (gate_state g) = true -> fst (can_enter_order g b a) = true.
Proof.
  unfold gate_state, or_database. destruct (database_state g) as [st|] eqn:Ed.
  { by rewrite (database_state_closed _ _ Ed). }
  intros [Hb Hs]%state_from_reasons_open%empty_union_L. apply can_enter_iff.
  split; [by apply database_state_None|]. pose proof (scope_all_scoped g) as Hsub. rewrite Hs in Hsub.
  intros r [Hr|[Hr|Hr]]; [rewrite Hb in Hr|apply Hsub in Hr|apply Hsub in Hr]; set_solver.
Qed.

Lemma evaluate_dispatcher_Ok b r r' :
  evaluate_dispatcher r = (Ok b, r') ->
  b = is_open (gate_state (c_gate (rt_core r))) /\ rt_dispatcher_started r' = b /\ rt_core r' = rt_core r.
Proof. by intros [= <- <-]. Qed.

(** A refused arming stays disarmed.  [resume_new_entries] answers yes only when
    every account may enter orders, and then the dispatcher runs; when it answers no
    the dispatcher is stopped and no account may enter, whatever blocked it. *)
Theorem refused_arming_stays_disarmed k r armed r' :
  resume_new_entries fp k r = (Ok armed, r') ->
  rt_dispatcher_started r' = armed /\
  forall b a, fst (can_enter_order (c_gate (rt_core r')) b a) = armed.
Proof.
  intros H. unfold resume_new_entries in H.
  apply py_bind_Ok in H as (u1 & r1 & _ & H). apply py_bind_Ok in H as (u2 & r2 & _ & H).
  apply py_bind_Ok in H as (started & r3 & (Eo & Ed & Ec)%evaluate_dispatcher_Ok & H).
  apply py_bind_Ok in H as (u4 & r4 & Hb & [-> ->]%py_ret_Ok). destruct started.
  - apply py_ret_Ok in Hb as [_ ->]. split; [done|]. intros b a. rewrite Ec. by apply gate_open_for_all.
  - injection Hb as _ <-. split; [done|]. intros b a. simpl. apply not_true_iff_false.
    intros [_ Hn]%can_enter_iff. apply (Hn "HG_SAFE_STOP"). left. simpl. set_solver.
Qed.
End arming.

(** ** Witnesses *)

Import Sample.

(** The settlement of the accepted order, delivered twice, then contradicted. *)
Definition loss : BrokerOrderEvent := event "e1" "1" EX_SETTLED 1 100 (Some (-100)).
Definition deliver (e : BrokerOrderEvent) : delivery := (e, at_ 3, at_ 3, at_half_past).
Definition no_callback (e : BrokerOrderEvent) (r : BrokerEventApplyResult) : core_m unit := mret tt.

(** The settlement delivered twice and contradicted is counted once. *)
Example repeated_settlement_is_counted_once :
  let c' := snd (pump no_fault sample_fp None no_callback
    [deliver loss; deliver loss; deliver (event "e2" "1" EX_SETTLED 2 100 (Some 90))] (core_on accepted)) in
  rl_daily_pnl (c_ledger c') = -100 /\ booked (store c') = -100.
Proof. vm_compute. done. Qed.

(** An event is missing; the reconciliation after the gap finds the order settled. *)
Definition settled_meanwhile : query_env := replying (fun _ _ =>
  StatusReply (mk_OrderStatusResult SQ_FOUND (Some (evidence "v1" 100 EX_SETTLED (Some (-100)))) None None)).
Definition with_a_gap : list delivery :=
  [deliver (event "e1" "1" EX_OPEN 1 100 None); deliver (event "e2" "1" EX_OPEN 3 100 None)].


Definition contradiction_result : res BrokerEventApplyResult * core :=
  process no_fault sample_fp None (event "e2" "1" EX_SETTLED 2 100 (Some 90)) (at_ 3) (at_ 3) at_half_past
    (core_on settled).

Lemma doubtful_event_closes_account_witness :
  fst (can_enter_order (c_gate (snd contradiction_result)) "DERIV" "A1") = false.
Proof.
  apply (doubtful_event_closes_account no_fault sample_fp (event "e2" "1" EX_SETTLED 2 100 (Some 90)) (at_ 3)
    (at_ 3) at_half_past (core_on settled)
    (match fst contradiction_result with Ok r => r | Err _ => no_result end)).
  - vm_compute. reflexivity.
  - left. vm_compute. reflexivity.
Defined.

(** An operator's stop and an account with an unknown settlement. *)
Definition stopped (c : core) : runtime :=
  mk_runtime (c <| c_gate ::= fun g => block_scope "DERIV" "A1" "HG_SETTLEMENT_REQUIRED" (block "HG_SAFE_STOP" g) |>) false.

Lemma refused_arming_stays_disarmed_witness :
  fst (resume_new_entries sample_fp at_half_past (stopped (core_on []))) = Ok false /\
  fst (can_enter_order (c_gate (rt_core (snd (resume_new_entries sample_fp at_half_past
    (stopped (core_on [])))))) "DERIV" "A2") = false.
Proof.
  split; [vm_compute; reflexivity|].
  apply (refused_arming_stays_disarmed sample_fp at_half_past (stopped (core_on [])) false).
  vm_compute. reflexivity.
Defined.

(** ** Divergences *)

(** Arming one account removes the stop of all of them, also when the answer is no:
    the stop of the operator is lifted for the account ["A2"] by a refused attempt to
    arm ["A1"]. *)
Example refused_scoped_arming_lifts_the_stop :
  let r := stopped (core_on []) in
  let '(answer, r') := resume_new_entries_for sample_fp DERIV "A1" at_half_past r in
  answer = Ok false /\ can_enter_order (c_gate (rt_core r)) "DERIV" "A2" = (false, Some "HG_SAFE_STOP") /\
  can_enter_order (c_gate (rt_core r')) "DERIV" "A2" = (true, None).
Proof. vm_compute. auto. Qed.

(** A loss that reaches the store through the reconciliation is booked there and not
    counted by the ledger. *)
Definition lost_at_broker : OrderStatusPort := fun _ =>
  StatusReply (mk_OrderStatusResult SQ_FOUND (Some (evidence "v1" 100 EX_SETTLED (Some (-100)))) None None).

Example reconciled_loss_is_not_counted :
  let c := core_on (idle_db ++ lost_order) in
  let r := snd (((_ ← on_core (reconcile_all no_fault hash sample_policy (replying (fun _ => lost_at_broker)));
     on_reconciliation_cycle_completed) : runtime_m unit) (mk_runtime c false)) in
  booked (store (rt_core r)) = -100 /\ rl_daily_pnl (c_ledger (rt_core r)) = 0 /\
  rl_daily_pnl (c_ledger c) = 0.
Proof. vm_compute. auto. Qed.

(** A configuration whose file cannot be written: the operator is told that the
    update failed and the previous configuration is in force, but the recovery
    sequence of the ledger and of the store is gone. *)
Definition same_fp (c : DigitRiskConfig) : string := "f1".
Definition after_loss : core :=
  snd (process no_fault same_fp None loss (at_ 3) (at_ 3) at_half_past (core_on accepted)).

Example failed_update_drops_the_sequence :
  let '(answer, c) := update_digit_risk_config_runtime same_fp float_text default_DigitRiskConfig false
    (at_ 5) (at_ 5) at_half_past at_half_past after_loss in
  answer = Ok (false, Some "DIGIT_RISK_CONFIG_PERSISTENCE_FAILED") /\
  step (rl_digit_martingale_state (c_ledger after_loss)) = 1 /\
  (dr_martingale_step <$> digit_risk_runtime (store after_loss)) = Some 1 /\
  step (rl_digit_martingale_state (c_ledger c)) = 0 /\
  (dr_martingale_step <$> digit_risk_runtime (store c)) = Some 0.
Proof. vm_compute. auto 10. Qed.
