(* ===== verification/Json.v ===== *)
(** * JSON text

    What the protocol uses of Python's [json]: [json.dumps] with sorted keys, compact
    separators and ASCII output, and [json.loads], with their round trip.

    A [dict] is an association list in insertion order.  Text is ASCII; a document
    with other characters, raw or escaped, is outside the model and is refused.  A
    [float] is named by its text.  Two limits of the interpreter are modelled: the
    digits of an [int] that is converted from or to text, and the nesting of arrays
    and objects that the decoder accepts, [depth]. *)

From S2P Require Import Prelude Datetime Dec DecVal.
From Stdlib Require Import Ascii.

Inductive json : Type :=
| VNull
| VBool (b : bool)
| VInt (n : Z)
| VFloat (text : string)
| VStr (s : string)
| VList (l : list json)
| VDict (l : list (string * json)).

Section json_induction.
Variable P : json -> Prop.
Hypothesis HNull : P VNull.
Hypothesis HBool : forall b, P (VBool b).
Hypothesis HInt : forall n, P (VInt n).
Hypothesis HFloat : forall t, P (VFloat t).
Hypothesis HStr : forall s, P (VStr s).
Hypothesis HList : forall l, Forall P l -> P (VList l).
Hypothesis HDict : forall l, Forall (fun kv => P (snd kv)) l -> P (VDict l).

Fixpoint json_nested_ind (v : json) : P v :=
  match v with
  | VNull => HNull | VBool b => HBool b | VInt n => HInt n | VFloat t => HFloat t | VStr s => HStr s
  | VList l => HList l ((fix go l : Forall P l :=
      match l with [] => Forall_nil_2 _ | x :: l => Forall_cons_2 _ _ _ (json_nested_ind x) (go l) end) l)
  | VDict l => HDict l ((fix go l : Forall (fun kv => P (snd kv)) l :=
      match l with [] => Forall_nil_2 _ | x :: l => Forall_cons_2 _ _ _ (json_nested_ind (snd x)) (go l) end) l)
  end.
End json_induction.

(** ** Encoding *)

Definition quote : ascii := "034".
Definition backslash : ascii := "\".
Definition code (c : ascii) : Z := Z.of_N (N_of_ascii c).

Definition hex_char (n : Z) : ascii :=
  if n <? 10 then ascii_of_N (Z.to_N (48 + n)) else ascii_of_N (Z.to_N (87 + n)).

(** The characters with a short escape. *)
Definition short_escapes : list (ascii * ascii) :=
  [(quote, quote); (backslash, backslash); ("n", "010"); ("r", "013"); ("t", "009"); ("f", "012"); ("b", "008")]%char.

Definition escape_of (c : ascii) : option ascii :=
  fst <$> List.find (fun p => (snd p =? c)%char) short_escapes.

(** One character of [ensure_ascii] output. *)
Definition escape_char (c : ascii) (rest : string) : string :=
  match escape_of c with
  | Some e => String backslash (String e rest)
  | None =>
      if in_range 32 (code c) 126 then String c rest
      else String backslash (String "u" (String "0" (String "0"
             (String (hex_char (code c / 16)) (String (hex_char (code c mod 16)) rest)))))
  end.

Fixpoint escape_string (s rest : string) : string :=
  match s with
  | "" => String quote rest
  | String c s' => escape_char c (escape_string s' rest)
  end.

Definition encode_str (s rest : string) : string := String quote (escape_string s rest).

(** [int.__repr__] *)
Definition decimal (n : Z) : string := zpad (Z.to_nat (ndigits n)) n.
Definition encode_int (n : Z) (rest : string) : string :=
  if n <? 0 then String "-" (decimal (- n) +:+ rest) else decimal n +:+ rest.

(** Python's [repr] of a [str]. *)

Definition has_char (c : Ascii.ascii) (s : string) : bool := negb (str_forall (fun d => negb (Ascii.eqb c d)) s).

(** One character of the [repr] of a [str] quoted with [q]. *)
Definition repr_char (q c : Ascii.ascii) : string :=
  if Ascii.eqb c q || Ascii.eqb c backslash then String backslash (String c "")
  else if Ascii.eqb c "009"%char then "\t" else if Ascii.eqb c "010"%char then "\n"
  else if Ascii.eqb c "013"%char then "\r"
  else if in_range 32 (code c) 126 then String c ""
  else String backslash (String "x" (String (hex_char (code c / 16)) (String (hex_char (code c mod 16)) ""))).

Fixpoint repr_chars (q : Ascii.ascii) (s : string) : string :=
  match s with "" => "" | String c s => repr_char q c +:+ repr_chars q s end.

Definition repr_str (s : string) : string :=
  let q := if has_char "039"%char s && negb (has_char quote s) then quote else "039"%char in
  String q (repr_chars q s +:+ String q "").

(** [sys.get_int_max_str_digits()] *)
Definition max_str_digits : Z := 4300.
Definition int_text_ok (n : Z) : bool := ndigits n <=? max_str_digits.

Definition key_leb {A} (x y : string * A) : bool := str_leb (fst x) (fst y).

(** The elements of a list or of a sorted dict, each printed before the rest of the
    text, separated by commas. *)
Fixpoint encode_items {A} (print : A -> string -> string) (close : ascii) (l : list A) (rest : string) : string :=
  match l with
  | [] => String close rest
  | [x] => print x (String close rest)
  | x :: l' => print x (String "," (encode_items print close l' rest))
  end.

(** The value with the keys of every dict sorted. *)
Fixpoint canon (v : json) : json :=
  match v with
  | VList l => VList (canon <$> l)
  | VDict l => VDict (sort_by key_leb ((fun kv => (fst kv, canon (snd kv))) <$> l))
  | _ => v
  end.

(** The text of a value in its order of keys. *)
Fixpoint encode (v : json) (rest : string) : string :=
  match v with
  | VNull => "null" +:+ rest
  | VBool true => "true" +:+ rest
  | VBool false => "false" +:+ rest
  | VInt n => encode_int n rest
  | VFloat t => t +:+ rest
  | VStr s => encode_str s rest
  | VList l => String "[" (encode_items encode "]" l rest)
  | VDict l => String "{" (encode_items (fun kv r => encode_str (fst kv) (String ":" (encode (snd kv) r))) "}" l rest)
  end.

Fixpoint ints_ok (v : json) : bool :=
  match v with
  | VInt n => int_text_ok n
  | VList l => forallb ints_ok l
  | VDict l => forallb (fun kv => ints_ok (snd kv)) l
  | _ => true
  end.

(** [json.dumps(v, sort_keys=True, separators=(",", ":"))] *)
Definition json_dumps (v : json) : res string :=
  _ ← guard_res (ints_ok v) (ValueError "Exceeds the limit for integer string conversion");
  Ok (encode (canon v) "").

(** ** Decoding *)

Inductive json_error : Type := JSONDecodeError | DigitLimit | RecursionLimit.

Inductive parsed (A : Type) : Type :=
| Parsed (a : A) (rest : string)
| Unparsed (e : json_error).
Arguments Parsed {A}.
Arguments Unparsed {A}.

Definition then_parse {A B} (x : parsed A) (k : A -> string -> parsed B) : parsed B :=
  match x with Parsed a rest => k a rest | Unparsed e => Unparsed e end.

Fixpoint skip_ws (s : string) : string :=
  match s with
  | String c s' => if existsb (Ascii.eqb c) [" "; "009"; "010"; "013"]%char then skip_ws s' else s
  | "" => ""
  end.

Definition hex_val (c : ascii) : option Z :=
  let n := code c in
  if in_range 48 n 57 then Some (n - 48)
  else if in_range 97 n 102 then Some (n - 87)
  else if in_range 65 n 70 then Some (n - 55) else None.

Definition hex4 (a b c d : ascii) : option Z :=
  a ← hex_val a; b ← hex_val b; c ← hex_val c; d ← hex_val d;
  Some (((a * 16 + b) * 16 + c) * 16 + d).

(** The character of an escape sequence; decoding also accepts [\/]. *)
Definition unescape (e : ascii) : option ascii :=
  if (e =? "/")%char then Some "/"%char
  else snd <$> List.find (fun p => (fst p =? e)%char) short_escapes.

Definition add_char (c : ascii) (x : parsed string) : parsed string :=
  then_parse x (fun s rest => Parsed (String c s) rest).

(** The string after its opening quote. *)
Fixpoint scan_string (s : string) : parsed string :=
  match s with
  | "" => Unparsed JSONDecodeError
  | String c s1 =>
      if (c =? quote)%char then Parsed "" s1
      else if (c =? backslash)%char then
        match s1 with
        | "" => Unparsed JSONDecodeError
        | String e s2 =>
            if (e =? "u")%char then
              match s2 with
              | String a (String b (String c (String d s3))) =>
                  match hex4 a b c d with
                  | Some n => if n <? 128 then add_char (ascii_of_N (Z.to_N n)) (scan_string s3)
                              else Unparsed JSONDecodeError
                  | None => Unparsed JSONDecodeError
                  end
              | _ => Unparsed JSONDecodeError
              end
            else
              match unescape e with
              | Some c => add_char c (scan_string s2)
              | None => Unparsed JSONDecodeError
              end
        end
      else if in_range 32 (code c) 127 then add_char c (scan_string s1)
      else Unparsed JSONDecodeError
  end.

Definition is_digit (c : ascii) : bool := match digit_val c with Some _ => true | None => false end.

(** The longest prefix of digits. *)
Fixpoint span_digits (s : string) : string * string :=
  match s with
  | String c s' => if is_digit c then let '(d, r) := span_digits s' in (String c d, r) else ("", s)
  | "" => ("", "")
  end.

Fixpoint digits_value (acc : Z) (s : string) : Z :=
  match s with
  | String c s' => digits_value (10 * acc + default 0 (digit_val c)) s'
  | "" => acc
  end.

(** [(\.\d+)?] and [([eE][-+]?\d+)?] *)
Definition scan_fraction (s : string) : string * string :=
  match s with
  | String "." s' => match span_digits s' with ("", _) => ("", s) | (d, r) => (String "." d, r) end
  | _ => ("", s)
  end.

Definition scan_exponent (s : string) : string * string :=
  match s with
  | String c s1 =>
      if (c =? "e")%char || (c =? "E")%char then
        let '(sign, s2) := match s1 with
                           | String g s2 => if (g =? "-")%char || (g =? "+")%char then (String g "", s2) else ("", s1)
                           | "" => ("", s1)
                           end in
        match span_digits s2 with ("", _) => ("", s) | (d, r) => (String c (sign +:+ d), r) end
      else ("", s)
  | "" => ("", s)
  end.

Definition scan_number (s : string) : parsed json :=
  let '(sign, s1) := match s with String "-" s1 => ("-", s1) | _ => ("", s) end in
  match s1 with
  | String c r1 =>
      if is_digit c then
        let '(ints, s2) := if (c =? "0")%char then ("0", r1) else span_digits s1 in
        let '(frac, s3) := scan_fraction s2 in
        let '(expo, s4) := scan_exponent s3 in
        if String.eqb frac "" && String.eqb expo "" then
          if Z.of_nat (String.length ints) <=? max_str_digits then
            let n := digits_value 0 ints in
            Parsed (VInt (if String.eqb sign "-" then - n else n)) s4
          else Unparsed DigitLimit
        else Parsed (VFloat (sign +:+ ints +:+ frac +:+ expo)) s4
      else Unparsed JSONDecodeError
  | "" => Unparsed JSONDecodeError
  end.

(** [d[k] = v] on a dict in insertion order. *)
Fixpoint dict_set {A} (k : string) (v : A) (d : list (string * A)) : list (string * A) :=
  match d with
  | [] => [(k, v)]
  | (k', v') :: d' => if String.eqb k k' then (k, v) :: d' else (k', v') :: dict_set k v d'
  end.

Section containers.
Variable value : string -> parsed json.

(** The elements of an array after the first is known to exist; [fuel] bounds their
    number. *)
Fixpoint scan_elements (fuel : nat) (acc : list json) (s : string) : parsed (list json) :=
  match fuel with
  | O => Unparsed JSONDecodeError
  | S fuel =>
      then_parse (value s) (fun v r =>
        match skip_ws r with
        | String "]" r => Parsed (acc ++ [v]) r
        | String "," r => scan_elements fuel (acc ++ [v]) (skip_ws r)
        | _ => Unparsed JSONDecodeError
        end)
  end.

Fixpoint scan_members (fuel : nat) (acc : list (string * json)) (s : string) : parsed (list (string * json)) :=
  match fuel with
  | O => Unparsed JSONDecodeError
  | S fuel =>
      match s with
      | String q s1 =>
          if (q =? quote)%char then
            then_parse (scan_string s1) (fun k r =>
              match skip_ws r with
              | String ":" r =>
                  then_parse (value (skip_ws r)) (fun v r =>
                    match skip_ws r with
                    | String "}" r => Parsed (dict_set k v acc) r
                    | String "," r => scan_members fuel (dict_set k v acc) (skip_ws r)
                    | _ => Unparsed JSONDecodeError
                    end)
              | _ => Unparsed JSONDecodeError
              end)
          else Unparsed JSONDecodeError
      | "" => Unparsed JSONDecodeError
      end
  end.
End containers.

Definition literals : list (string * json) :=
  [("null", VNull); ("true", VBool true); ("false", VBool false); ("NaN", VFloat "NaN");
   ("Infinity", VFloat "Infinity"); ("-Infinity", VFloat "-Infinity")].

Definition scan_scalar (s : string) : parsed json :=
  match List.find (fun p => String.prefix (fst p) s) literals with
  | Some (text, v) => Parsed v (str_drop (String.length text) s)
  | None => scan_number s
  end.

(** A value without leading space; [scalar] reads what is not a string, array or object. *)
Fixpoint scan_value (scalar : string -> parsed json) (depth : nat) (s : string) : parsed json :=
  match s with
  | String c r =>
      if (c =? quote)%char then then_parse (scan_string r) (fun x r => Parsed (VStr x) r)
      else if (c =? "[")%char then
        match depth with
        | O => Unparsed RecursionLimit
        | S depth =>
            match expect "]" (skip_ws r) with
            | Some r => Parsed (VList []) r
            | None => then_parse (scan_elements (scan_value scalar depth) (String.length r) [] (skip_ws r))
                        (fun l r => Parsed (VList l) r)
            end
        end
      else if (c =? "{")%char then
        match depth with
        | O => Unparsed RecursionLimit
        | S depth =>
            match expect "}" (skip_ws r) with
            | Some r => Parsed (VDict []) r
            | None => then_parse (scan_members (scan_value scalar depth) (String.length r) [] (skip_ws r))
                        (fun l r => Parsed (VDict l) r)
            end
        end
      else scalar s
  | "" => Unparsed JSONDecodeError
  end.

Definition loads_with (scalar : string -> parsed json) (depth : nat) (s : string) : json + json_error :=
  match scan_value scalar depth (skip_ws s) with
  | Parsed v rest => match skip_ws rest with "" => inl v | _ => inr JSONDecodeError end
  | Unparsed e => inr e
  end.

(** [json.loads(s)] *)
Definition json_loads (depth : nat) (s : string) : json + json_error := loads_with scan_scalar depth s.

(** ** Round trip *)

Definition is_ascii (c : ascii) : bool := code c <? 128.
Definition ascii_text (s : string) : bool := str_forall is_ascii s.

(** Values that are written and read back: ASCII text, no float, integers within the
    limit, unique keys. *)
Fixpoint wf (v : json) : bool :=
  match v with
  | VFloat _ => false
  | VInt n => int_text_ok n
  | VStr s => ascii_text s
  | VList l => forallb wf l
  | VDict l => bool_decide (NoDup (fst <$> l)) && forallb (fun kv => ascii_text (fst kv) && wf (snd kv)) l
  | _ => true
  end.

(** The nesting of arrays and objects. *)
Fixpoint nesting (v : json) : nat :=
  match v with
  | VList l => S (list_max (nesting <$> l))
  | VDict l => S (list_max ((fun kv => nesting (snd kv)) <$> l))
  | _ => 0
  end.

(** What may follow a value in a document. *)
Definition delimited (rest : string) : bool :=
  match rest with "" => true | String c _ => existsb (Ascii.eqb c) [","; "]"; "}"]%char end.

Lemma scan_escaped_char c x :
  is_ascii c = true -> scan_string (escape_char c x) = add_char c (scan_string x).
Proof. destruct c as [[] [] [] [] [] [] [] []]; intros H; try discriminate H; reflexivity. Qed.

Lemma scan_escaped s rest : ascii_text s = true -> scan_string (escape_string s rest) = Parsed s rest.
Proof.
  induction s as [|c s IH]; [reflexivity|]. cbn [ascii_text str_forall escape_string].
  intros [Hc Hs]%andb_true_iff. rewrite scan_escaped_char by done. by rewrite (IH Hs).
Qed.

Lemma digit_not_literal c r :
  is_digit c = true -> List.find (fun p => String.prefix (fst p) (String c r)) literals = None.
Proof. destruct c as [[] [] [] [] [] [] [] []]; intros H; try discriminate H; reflexivity. Qed.

Lemma minus_digit_not_literal c r :
  is_digit c = true -> List.find (fun p => String.prefix (fst p) (String "-" (String c r))) literals = None.
Proof. destruct c as [[] [] [] [] [] [] [] []]; intros H; try discriminate H; reflexivity. Qed.

Lemma digit_char_is_digit d : 0 <= d < 10 -> is_digit (digit_char d) = true.
Proof. intros H. unfold is_digit. by rewrite digit_val_char. Qed.

Lemma span_zpad w n rest :
  match rest with String c _ => is_digit c | "" => false end = false ->
  span_digits (zpad w n +:+ rest) = (zpad w n, rest).
Proof.
  intros Hr. induction w as [|w IH]; cbn [zpad].
  - rewrite append_nil_l. destruct rest as [|c r]; [done|]. cbn [span_digits]. by rewrite Hr.
  - rewrite append_cons. cbn [span_digits]. rewrite digit_char_is_digit by (apply Z.mod_pos_bound; lia).
    by rewrite IH.
Qed.

Lemma digits_value_zpad w n acc :
  digits_value acc (zpad w n) = acc * 10 ^ Z.of_nat w + n mod 10 ^ Z.of_nat w.
Proof.
  revert acc. induction w as [|w IH]; intros acc.
  - simpl. rewrite Z.mod_1_r. lia.
  - cbn [zpad digits_value]. rewrite digit_val_char by (apply Z.mod_pos_bound; lia).
    cbn [default]. rewrite IH, mod_pow10_S, pow10_S. simpl. lia.
Qed.

Lemma length_zpad w n : String.length (zpad w n) = w.
Proof. induction w as [|w IH]; [done|]. cbn [zpad String.length]. by rewrite IH. Qed.

Lemma ndigits_pos n : 0 <= n -> 1 <= ndigits n.
Proof. intros Hn. destruct (decide (n = 0)) as [->|]; [done|]. apply ndigits_spec. lia. Qed.

Lemma decimal_bound n : 0 <= n -> 0 <= n < 10 ^ Z.of_nat (Z.to_nat (ndigits n)).
Proof.
  intros Hn. pose proof (ndigits_pos n Hn). rewrite Z2Nat.id by lia.
  destruct (decide (n = 0)) as [->|]; [done|]. pose proof (ndigits_spec n). lia.
Qed.

(** The first digit of a positive number is not zero. *)
Lemma decimal_cons n :
  0 <= n -> exists d w, decimal n = String (digit_char d) (zpad w n) /\ 0 <= d < 10 /\ (d = 0 -> n = 0 /\ w = 0%nat).
Proof.
  intros Hn. unfold decimal. pose proof (ndigits_pos n Hn) as H1.
  destruct (Z.to_nat (ndigits n)) as [|w] eqn:Ew; [lia|].
  eexists _, w. split; [reflexivity|]. split; [apply Z.mod_pos_bound; lia|].
  intros Hd. destruct (decide (n = 0)) as [->|Hz]; [split; [done|]; change (ndigits 0) with 1 in Ew; lia|].
  exfalso. destruct (ndigits_spec n ltac:(lia)) as [[Hlo Hhi] _].
  replace (ndigits n) with (Z.of_nat w + 1) in * by lia. replace (Z.of_nat w + 1 - 1) with (Z.of_nat w) in Hlo by lia.
  rewrite Z.pow_add_r in Hhi by lia. pose proof (pow10_pos w) as Hp.
  assert (1 <= n / 10 ^ Z.of_nat w < 10) as Hq.
  { split; [apply Z.div_le_lower_bound; lia|]. apply Z.div_lt_upper_bound; lia. }
  rewrite Z.mod_small in Hd by lia. lia.
Qed.

Lemma delimited_not_digit rest :
  delimited rest = true -> match rest with String c _ => is_digit c | "" => false end = false.
Proof. destruct rest as [|c r]; [done|]. by destruct c as [[] [] [] [] [] [] [] []]. Qed.

Lemma delimited_no_fraction rest : delimited rest = true -> scan_fraction rest = ("", rest).
Proof. destruct rest as [|c r]; [done|]. by destruct c as [[] [] [] [] [] [] [] []]. Qed.

Lemma delimited_no_exponent rest : delimited rest = true -> scan_exponent rest = ("", rest).
Proof. destruct rest as [|c r]; [done|]. by destruct c as [[] [] [] [] [] [] [] []]. Qed.

(** The integer part of a number, after its sign. *)
Lemma scan_decimal n rest :
  0 <= n -> int_text_ok n = true -> delimited rest = true ->
  exists d r, decimal n +:+ rest = String d r /\ is_digit d = true /\
    (if (d =? "0")%char then ("0", r) else span_digits (String d r)) = (decimal n, rest).
Proof.
  intros Hn Hok Hr. destruct (decimal_cons n Hn) as (d & w & Ed & Hd & Hz).
  exists (digit_char d), (zpad w n +:+ rest). rewrite Ed, append_cons.
  split; [done|]. split; [by apply digit_char_is_digit|].
  destruct (digit_char d =? "0")%char eqn:E0.
  - apply Ascii.eqb_eq in E0. assert (d = 0) as H0.
    { pose proof (digit_val_char d Hd) as Hv. rewrite E0 in Hv. by injection Hv. }
    destruct (Hz H0) as [-> ->]. by rewrite E0.
  - rewrite <- append_cons, <- Ed. apply span_zpad. by apply delimited_not_digit.
Qed.

Lemma decimal_value n : 0 <= n -> digits_value 0 (decimal n) = n.
Proof.
  intros Hn. unfold decimal. rewrite digits_value_zpad, Z.mod_small; [lia|]. by apply decimal_bound.
Qed.

Lemma decimal_length n : 0 <= n -> int_text_ok n = true -> (Z.of_nat (String.length (decimal n)) <=? max_str_digits) = true.
Proof.
  intros Hn Hok. unfold decimal. rewrite length_zpad. pose proof (ndigits_pos n Hn).
  rewrite Z2Nat.id by lia. exact Hok.
Qed.

Lemma int_text_ok_opp n : int_text_ok (- n) = int_text_ok n.
Proof.
  unfold int_text_ok, ndigits. rewrite Z.abs_opp. destruct (Z.eqb_spec n 0) as [->|]; [done|].
  by destruct (Z.eqb_spec (- n) 0); [lia|].
Qed.

Lemma scan_int n rest :
  int_text_ok n = true -> delimited rest = true -> scan_scalar (encode_int n rest) = Parsed (VInt n) rest.
Proof.
  intros Hok Hr. unfold encode_int, scan_scalar. destruct (Z.ltb_spec n 0) as [Hn|Hn].
  - rewrite <- int_text_ok_opp in Hok.
    destruct (scan_decimal (- n) rest ltac:(lia) Hok Hr) as (d & r & E & Hd & Hs).
    rewrite E, minus_digit_not_literal by done. cbn [scan_number]. rewrite Hd, Hs.
    rewrite delimited_no_fraction, delimited_no_exponent by done. cbn [String.eqb andb].
    rewrite decimal_length, decimal_value by (done || lia). simpl. do 2 f_equal. lia.
  - destruct (scan_decimal n rest Hn Hok Hr) as (d & r & E & Hd & Hs).
    rewrite E, digit_not_literal by done. unfold scan_number.
    assert (match String d r with String "-" s1 => ("-", s1) | _ => ("", String d r) end = ("", String d r)) as ->.
    { by destruct d as [[] [] [] [] [] [] [] []]. }
    rewrite Hd, Hs. rewrite delimited_no_fraction, delimited_no_exponent by done. cbn [String.eqb andb].
    by rewrite decimal_length, decimal_value by (done || lia).
Qed.

Lemma scan_value_int depth n rest :
  int_text_ok n = true -> delimited rest = true -> scan_value scan_scalar depth (encode_int n rest) = Parsed (VInt n) rest.
Proof.
  intros Hok Hr. rewrite <- (scan_int n rest Hok Hr). unfold encode_int.
  destruct (Z.ltb_spec n 0) as [Hn|Hn]; [by destruct depth|].
  destruct (scan_decimal n rest Hn Hok Hr) as (d & r & -> & Hd & _).
  destruct d as [[] [] [] [] [] [] [] []]; try discriminate Hd; by destruct depth.
Qed.

(** No value starts with white space or with a closing bracket. *)
Definition opens (s : string) : bool :=
  match s with
  | "" => false
  | String c _ => negb (existsb (Ascii.eqb c) [" "; "009"; "010"; "013"; "]"; "}"]%char)
  end.

Lemma opens_skip s : opens s = true -> skip_ws s = s.
Proof. destruct s as [|c s]; [done|]. by destruct c as [[] [] [] [] [] [] [] []]. Qed.

Lemma encode_opens v rest : wf v = true -> opens (encode v rest) = true.
Proof.
  destruct v as [|[]|n| | | |]; try done. intros Hok. cbn [encode]. unfold encode_int.
  destruct (Z.ltb_spec n 0) as [|Hn]; [done|]. destruct (decimal_cons n Hn) as (d & w & -> & Hd & _).
  rewrite append_cons. pose proof (digit_char_is_digit d Hd) as H.
  destruct (digit_char d) as [[] [] [] [] [] [] [] []]; by try discriminate H.
Qed.

Lemma dict_set_fresh {A} k (v : A) d : k ∉ fst <$> d -> dict_set k v d = d ++ [(k, v)].
Proof.
  induction d as [|[k' v'] d IH]; [done|]. cbn [fmap list_fmap dict_set fst]. intros [Hne Hd]%not_elem_of_cons.
  apply String.eqb_neq in Hne as ->. by rewrite (IH Hd).
Qed.

Lemma encode_items_opens {A} (print : A -> string -> string) close x l rest :
  (forall r, opens (print x r) = true) -> opens (encode_items print close (x :: l) rest) = true.
Proof. intros H. destruct l; apply H. Qed.

Lemma encode_items_length {A} (print : A -> string -> string) close l rest :
  (forall x r, x ∈ l -> (S (String.length r) <= String.length (print x r))%nat) ->
  (length l < String.length (encode_items print close l rest))%nat.
Proof.
  induction l as [|x l IH]; intros Hp; [simpl; lia|]. assert (length l < String.length (encode_items print close l rest))%nat as Hl.
  { apply IH. intros y r Hy. apply Hp. by right. }
  destruct l as [|y l]; cbn [encode_items length] in *.
  - pose proof (Hp x (String close rest) ltac:(by left)) as H. simpl in *. lia.
  - pose proof (Hp x (String "," (encode_items print close (y :: l) rest)) ltac:(by left)) as H. simpl in *. lia.
Qed.

Lemma length_append s t : String.length (s +:+ t) = (String.length s + String.length t)%nat.
Proof. induction s as [|c s IH]; [done|]. rewrite append_cons. simpl. by rewrite IH. Qed.

Lemma escape_string_length s rest : (S (String.length rest) <= String.length (escape_string s rest))%nat.
Proof.
  induction s as [|c s IH]; simpl; [lia|]. unfold escape_char. destruct (escape_of c); simpl; [lia|].
  destruct (in_range _ _ _); simpl; lia.
Qed.

Lemma encode_items_rest {A} (print : A -> string -> string) close l rest :
  (forall x r, x ∈ l -> (S (String.length r) <= String.length (print x r))%nat) ->
  (String.length rest < String.length (encode_items print close l rest))%nat.
Proof.
  induction l as [|x l IH]; intros Hp; [simpl; lia|].
  assert (String.length rest < String.length (encode_items print close l rest))%nat as Hl.
  { apply IH. intros y r Hy. apply Hp. by right. }
  destruct l as [|y l]; cbn [encode_items] in *.
  - pose proof (Hp x (String close rest) ltac:(by left)) as H. simpl in *. lia.
  - pose proof (Hp x (String "," (encode_items print close (y :: l) rest)) ltac:(by left)) as H. simpl in *. lia.
Qed.

(** Every value has a character. *)
Lemma encode_length v rest : wf v = true -> (S (String.length rest) <= String.length (encode v rest))%nat.
Proof.
  revert rest. induction v as [|[]|n|t|s|l IH|l IH] using json_nested_ind; intros rest Hwf; cbn [encode].
  1-3: rewrite length_append; simpl; lia.
  - unfold encode_int. destruct (n <? 0) eqn:E; simpl; rewrite length_append; [lia|].
    destruct (decimal_cons n ltac:(lia)) as (d & w & -> & _). simpl. lia.
  - done.
  - unfold encode_str. simpl. pose proof (escape_string_length s rest). lia.
  - simpl. enough (String.length rest < String.length (encode_items encode "]" l rest))%nat by lia.
    apply encode_items_rest. intros x r Hx. rewrite Forall_forall in IH. apply IH; [done|].
    simpl in Hwf. rewrite forallb_forall in Hwf. by apply Hwf, list_elem_of_In.
  - simpl. set (print := fun kv r => _). enough (String.length rest < String.length (encode_items print "}" l rest))%nat by lia.
    apply encode_items_rest. intros x r Hx. rewrite Forall_forall in IH. unfold print, encode_str. simpl.
    simpl in Hwf. apply andb_true_iff in Hwf as [_ Hwf]. rewrite forallb_forall in Hwf.
    specialize (Hwf x (proj1 (list_elem_of_In _ _) Hx)). apply andb_true_iff in Hwf as [_ Hv].
    pose proof (escape_string_length (fst x) (String ":" (encode (snd x) r))) as H1. simpl in H1.
    specialize (IH x Hx r Hv). lia.
Qed.

Section round_trip.
Variable depth : nat.

(** What the induction provides for the parts of a container. *)
Definition reads (v : json) : Prop :=
  wf v = true /\ forall rest, delimited rest = true -> scan_value scan_scalar depth (encode v rest) = Parsed v rest.

Lemma scan_elements_encode l fuel acc rest :
  l <> [] -> (length l <= fuel)%nat -> Forall reads l ->
  scan_elements (scan_value scan_scalar depth) fuel acc (encode_items encode "]" l rest) = Parsed (acc ++ l) rest.
Proof.
  revert fuel acc. induction l as [|x l IH]; intros fuel acc Hne Hf Hl; [done|].
  apply Forall_cons in Hl as [[Hx Hrx] Hl]. destruct fuel as [|fuel]; [simpl in Hf; lia|].
  destruct l as [|y l]; cbn [encode_items scan_elements]; rewrite Hrx by done; [done|].
  change (scan_elements (scan_value scan_scalar depth) fuel (acc ++ [x]) (skip_ws (encode_items encode "]" (y :: l) rest)) =
    Parsed (acc ++ x :: y :: l) rest).
  pose proof (Forall_inv Hl) as [Hy _].
  rewrite opens_skip by (apply encode_items_opens; intros r; by apply encode_opens).
  rewrite IH; [by rewrite <- app_assoc|done|simpl in *; lia|done].
Qed.

Abbreviation print_member := (fun kv r => encode_str (fst kv) (String ":" (encode (snd kv) r))).

(** The key, the colon and the value of a member. *)
Lemma scan_member k x fuel acc rest :
  ascii_text k = true -> reads x -> delimited rest = true ->
  scan_members (scan_value scan_scalar depth) (S fuel) acc (encode_str k (String ":" (encode x rest))) =
    match skip_ws rest with
    | String "}" r => Parsed (dict_set k x acc) r
    | String "," r => scan_members (scan_value scan_scalar depth) fuel (dict_set k x acc) (skip_ws r)
    | _ => Unparsed JSONDecodeError
    end.
Proof.
  intros Hk [Hx Hrx] Hr. unfold encode_str. cbn [scan_members]. rewrite Ascii.eqb_refl, scan_escaped by done.
  cbn [then_parse]. change (skip_ws (String ":" (encode x rest))) with (String ":" (encode x rest)).
  cbv beta iota. by rewrite opens_skip, Hrx by (done || by apply encode_opens).
Qed.

Lemma scan_members_encode l fuel acc rest :
  l <> [] -> (length l <= fuel)%nat -> NoDup (fst <$> acc ++ l) ->
  Forall (fun kv => ascii_text (fst kv) = true /\ reads (snd kv)) l ->
  scan_members (scan_value scan_scalar depth) fuel acc (encode_items print_member "}" l rest) = Parsed (acc ++ l) rest.
Proof.
  revert fuel acc. induction l as [|[k x] l IH]; intros fuel acc Hne Hf Hnd Hl; [done|].
  apply Forall_cons in Hl as [[Hk Hx] Hl]. destruct fuel as [|fuel]; [simpl in Hf; lia|].
  assert (dict_set k x acc = acc ++ [(k, x)]) as Eset.
  { apply dict_set_fresh. rewrite fmap_app, NoDup_app in Hnd. destruct Hnd as (_ & Hd & _).
    intros Hin. apply (Hd k Hin). by left. }
  simpl in Hk, Hx. destruct l as [|y l].
  - change (encode_items print_member "}" [(k, x)] rest) with (encode_str k (String ":" (encode x (String "}" rest)))).
    rewrite scan_member by done. cbn [then_parse].
    change (skip_ws (String "}" rest)) with (String "}" rest). cbv beta iota. by rewrite Eset.
  - change (encode_items print_member "}" ((k, x) :: y :: l) rest) with
      (encode_str k (String ":" (encode x (String "," (encode_items print_member "}" (y :: l) rest))))).
    rewrite scan_member by done.
    change (scan_members (scan_value scan_scalar depth) fuel (dict_set k x acc) (skip_ws (encode_items print_member "}" (y :: l) rest))
      = Parsed (acc ++ (k, x) :: y :: l) rest).
    rewrite opens_skip by (by apply encode_items_opens). rewrite Eset, IH.
    + by rewrite <- app_assoc.
    + done.
    + simpl in *. lia.
    + by rewrite <- app_assoc.
    + done.
Qed.
End round_trip.

Lemma list_max_elem (l : list nat) n x : (list_max l <= n)%nat -> x ∈ l -> (x <= n)%nat.
Proof. rewrite list_max_le. intros H Hx. rewrite List.Forall_forall in H. by apply H, list_elem_of_In. Qed.

Lemma not_closing s : opens s = true -> expect "]" s = None /\ expect "}" s = None.
Proof. destruct s as [|c s]; [done|]. destruct c as [[] [] [] [] [] [] [] []]; intros H; try discriminate H; done. Qed.

Lemma scan_array depth l rest :
  Forall (reads depth) l ->
  scan_value scan_scalar (S depth) (String "[" (encode_items encode "]" l rest)) = Parsed (VList l) rest.
Proof.
  intros Hl. destruct l as [|x l]; [done|]. set (l' := x :: l) in *.
  assert (opens (encode_items encode "]" l' rest) = true) as Ho.
  { apply encode_items_opens. intros r. apply encode_opens. apply (Forall_inv Hl). }
  set (text := encode_items encode "]" l' rest) in *.
  change (match expect "]" (skip_ws text) with
    | Some r => Parsed (VList []) r
    | None => then_parse (scan_elements (scan_value scan_scalar depth) (String.length text) [] (skip_ws text))
                (fun l r => Parsed (VList l) r)
    end = Parsed (VList l') rest).
  rewrite (opens_skip _ Ho), (proj1 (not_closing _ Ho)). unfold text.
  rewrite scan_elements_encode; [done|done| |done].
  apply Nat.lt_le_incl, encode_items_length. intros y r Hy. apply encode_length.
  rewrite Forall_forall in Hl. by apply Hl.
Qed.

Lemma scan_object depth l rest :
  NoDup (fst <$> l) -> Forall (fun kv => ascii_text (fst kv) = true /\ reads depth (snd kv)) l ->
  scan_value scan_scalar (S depth) (encode (VDict l) rest) = Parsed (VDict l) rest.
Proof.
  intros Hnd Hl. destruct l as [|x l]; [done|]. set (l' := x :: l) in *. cbn [encode].
  set (print := fun kv r => _). assert (opens (encode_items print "}" l' rest) = true) as Ho.
  { by apply encode_items_opens. }
  set (text := encode_items print "}" l' rest) in *.
  change (match expect "}" (skip_ws text) with
    | Some r => Parsed (VDict []) r
    | None => then_parse (scan_members (scan_value scan_scalar depth) (String.length text) [] (skip_ws text))
                (fun l r => Parsed (VDict l) r)
    end = Parsed (VDict l') rest).
  rewrite (opens_skip _ Ho), (proj2 (not_closing _ Ho)). unfold text, print.
  rewrite scan_members_encode; try done.
  apply Nat.lt_le_incl, encode_items_length. intros y r Hy. unfold encode_str. simpl.
  rewrite Forall_forall in Hl. destruct (Hl y Hy) as [_ [Hw _]].
  pose proof (escape_string_length (fst y) (String ":" (encode (snd y) r))) as H1.
  pose proof (encode_length (snd y) r Hw). simpl in H1. lia.
Qed.

(** Reading the text of a value gives the value. *)
Lemma scan_encode v depth rest :
  wf v = true -> (nesting v <= depth)%nat -> delimited rest = true ->
  scan_value scan_scalar depth (encode v rest) = Parsed v rest.
Proof.
  revert depth rest. induction v as [|[]|n|t|s|l IH|l IH] using json_nested_ind;
    intros depth rest Hwf Hn Hr; cbn [encode]; [destruct depth, rest; reflexivity..| | | | |]; try done.
  - by apply scan_value_int.
  - assert (scan_string (escape_string s rest) = Parsed s rest) as Hs by (by apply scan_escaped).
    unfold encode_str. destruct depth; simpl; by rewrite Hs.
  - destruct depth as [|depth]; [simpl in Hn; lia|]. simpl in Hwf, Hn. apply le_S_n in Hn.
    apply scan_array. rewrite Forall_forall in IH |- *. intros x Hx. rewrite forallb_forall in Hwf.
    assert (wf x = true) as Hwx by (by apply Hwf, list_elem_of_In). split; [done|].
    intros r. apply IH; [done|done|]. eapply list_max_elem; [exact Hn|]. by apply list_elem_of_fmap_2.
  - destruct depth as [|depth]; [simpl in Hn; lia|]. simpl in Hwf, Hn. apply le_S_n in Hn.
    apply andb_true_iff in Hwf as [Hnd%bool_decide_eq_true Hwf].
    apply scan_object; [done|]. rewrite Forall_forall in IH |- *. intros x Hx. rewrite forallb_forall in Hwf.
    specialize (Hwf x (proj1 (list_elem_of_In _ _) Hx)). apply andb_true_iff in Hwf as [Hk Hv].
    split; [done|]. split; [done|]. intros r. apply IH; [done|done|].
    eapply list_max_elem; [exact Hn|]. apply list_elem_of_fmap. by exists x.
Qed.

Lemma canon_wf v : wf v = true -> wf (canon v) = true.
Proof.
  induction v as [| | | | |l IH|l IH] using json_nested_ind; try done; cbn [canon wf].
  - rewrite !forallb_forall. intros Hl x Hx%list_elem_of_In. apply list_elem_of_fmap in Hx as (y & -> & Hy).
    rewrite Forall_forall in IH. apply IH; [done|]. by apply Hl, list_elem_of_In.
  - intros [Hnd%bool_decide_eq_true Hl]%andb_true_iff. apply andb_true_iff. split.
    + apply bool_decide_eq_true. rewrite sort_by_perm, <- list_fmap_compose. done.
    + rewrite forallb_forall in Hl |- *. intros x Hx%list_elem_of_In. apply elem_of_sort_by in Hx.
      apply list_elem_of_fmap in Hx as (y & -> & Hy). specialize (Hl y (proj1 (list_elem_of_In _ _) Hy)).
      apply andb_true_iff in Hl as [Hk Hv]. rewrite Forall_forall in IH. simpl. by rewrite Hk, (IH y Hy Hv).
Qed.

Lemma list_max_perm (l l' : list nat) : l ≡ₚ l' -> list_max l = list_max l'.
Proof.
  intros H. apply Nat.le_antisymm; apply list_max_le, List.Forall_forall; intros x Hx%list_elem_of_In;
    (eapply list_max_elem; [done|]); by rewrite H in * || rewrite <- H in *.
Qed.

Lemma canon_nesting v : nesting (canon v) = nesting v.
Proof.
  induction v as [| | | | |l IH|l IH] using json_nested_ind; try done; cbn [canon nesting]; f_equal.
  - f_equal. rewrite <- list_fmap_compose. apply list_fmap_ext. intros i x Hi. simpl.
    rewrite Forall_forall in IH. apply IH. by eapply list_elem_of_lookup_2.
  - rewrite (list_max_perm _ _ (fmap_Permutation _ _ _ (sort_by_perm _ _))). f_equal.
    rewrite <- list_fmap_compose. apply list_fmap_ext. intros i x Hi. simpl.
    rewrite Forall_forall in IH. apply IH. by eapply list_elem_of_lookup_2.
Qed.

Lemma wf_ints v : wf v = true -> ints_ok v = true.
Proof.
  induction v as [| | | | |l IH|l IH] using json_nested_ind; try done; cbn [wf ints_ok]; rewrite Forall_forall in IH.
  - rewrite !forallb_forall. intros Hl x Hx. apply IH; [by apply list_elem_of_In|auto].
  - intros [_ Hl]%andb_true_iff. rewrite forallb_forall in Hl |- *. intros x Hx.
    specialize (Hl x Hx). apply andb_true_iff in Hl as [_ Hv]. apply IH; [by apply list_elem_of_In|done].
Qed.

(** A well-formed value is written, and read back with its keys in order. *)
Lemma json_roundtrip v depth :
  wf v = true -> (nesting v <= depth)%nat ->
  exists text, json_dumps v = Ok text /\ json_loads depth text = inl (canon v).
Proof.
  intros Hwf Hn. unfold json_dumps. rewrite (wf_ints v Hwf). eexists. split; [reflexivity|].
  unfold json_loads, loads_with. rewrite opens_skip by (apply encode_opens; by apply canon_wf).
  rewrite scan_encode; [done|by apply canon_wf|by rewrite canon_nesting|done].
Qed.

(** [d.get(k)] *)
Fixpoint dict_get (k : string) (d : list (string * json)) : option json :=
  match d with
  | [] => None
  | (k', v) :: d' => if String.eqb k k' then Some v else dict_get k d'
  end.

Lemma dict_get_Some k v d : NoDup (fst <$> d) -> dict_get k d = Some v <-> (k, v) ∈ d.
Proof.
  induction d as [|[k' v'] d IH]; cbn [fmap list_fmap dict_get fst]; [intros; split; [done|by intros ?%not_elem_of_nil]|].
  intros [Hk Hnd]%NoDup_cons. rewrite elem_of_cons. destruct (String.eqb_spec k k') as [->|Hne].
  - split; [by intros [= ->]; left|]. intros [[= ->]|Hin]; [done|]. exfalso. apply Hk.
    apply list_elem_of_fmap. by exists (k', v).
  - rewrite (IH Hnd). split; [by right|]. intros [[= ? ?]|?]; [by subst|done].
Qed.

(** Sorting the keys does not change what a dict maps them to. *)
Lemma dict_get_canon k d :
  NoDup (fst <$> d) ->
  dict_get k (sort_by key_leb ((fun kv => (fst kv, canon (snd kv))) <$> d)) = canon <$> dict_get k d.
Proof.
  intros Hnd. set (d' := _ <$> d). assert (NoDup (fst <$> d')) as Hnd'.
  { unfold d'. by rewrite <- list_fmap_compose. }
  assert (NoDup (fst <$> sort_by key_leb d')) as Hs by (by rewrite sort_by_perm).
  apply option_eq. intros v. rewrite (dict_get_Some _ _ _ Hs), elem_of_sort_by. unfold d'.
  rewrite list_elem_of_fmap, fmap_Some. setoid_rewrite (dict_get_Some k _ d Hnd). split.
  - intros ([k1 v1] & [= -> ->] & Hin). eauto.
  - intros (v1 & Hin & ->). by exists (k, v1).
Qed.
