(* ===== verification/Protocol.v ===== *)
(** * The inter-process protocol

    [packages/protocol]: length-prefixed frames over a socket ([framing.py]),
    envelopes and their JSON codec ([envelope.py], [codec.py], [transport.py]), and
    the parsers of the order messages ([messages.py]).

    Bytes are 8-bit characters.  A connection is the list of what its [recv] delivers;
    the peer has closed it at the end of the list. *)

From S2P Require Import Prelude Datetime Dec DecVal Domain StateDb Writer Health Martingale DigitConfig Risk Coordinator Reconciliation Json.
From Stdlib Require Import Ascii.

(** ** Frames *)

Definition PROTOCOL_VERSION : Z := 1.
Definition MAX_FRAME_SIZE : Z := 64 * 1024.

Fixpoint str_take (n : nat) (s : string) : string :=
  match n, s with
  | S n', String c s' => String c (str_take n' s')
  | _, _ => ""
  end.

Definition size (s : string) : Z := Z.of_nat (String.length s).
Definition byte (n : Z) : ascii := ascii_of_N (Z.to_N n).

(** [struct.Struct("!I")] *)
Definition pack (n : Z) : string :=
  String (byte (n / 16777216 mod 256)) (String (byte (n / 65536 mod 256))
    (String (byte (n / 256 mod 256)) (String (byte (n mod 256)) ""))).
Definition unpack (s : string) : Z :=
  match s with
  | String a (String b (String c (String d ""))) =>
      ((code a * 256 + code b) * 256 + code c) * 256 + code d
  | _ => 0
  end.

Definition frame_payload (max_frame_size : Z) (payload : string) : res string :=
  _ ← guard_res (negb (size payload =? 0)) (ProtocolError "IPC_INVALID_FRAME");
  _ ← guard_res (size payload <=? max_frame_size) (ProtocolError "IPC_FRAME_TOO_LARGE");
  Ok (pack (size payload) +:+ payload).

(** What one [recv] can meet; an empty chunk is the end of the connection. *)
Inductive recv_event : Type :=
| Chunk (bytes : string)
| TimedOut
| SocketError.

Definition connection : Type := list recv_event.

Definition closed_code (header received : bool) : string :=
  if header && negb received then "IPC_CONNECTION_LOST" else "IPC_FRAME_TRUNCATED".

(** [_receive_exact]: [received] says whether a chunk has arrived before. *)
Fixpoint receive_exact (conn : connection) (remaining : nat) (header received : bool)
    : res (string * connection) :=
  match remaining with
  | O => Ok ("", conn)
  | S _ =>
      match conn with
      | [] | Chunk "" :: _ => Err (ProtocolError (closed_code header received))
      | TimedOut :: _ => Err (ProtocolError "IPC_FRAME_TRUNCATED")
      | SocketError :: _ => Err (ProtocolError "IPC_CONNECTION_LOST")
      | Chunk c :: conn' =>
          if (String.length c <=? remaining)%nat then
            '(bytes, conn'') ← receive_exact conn' (remaining - String.length c) header true;
            Ok (c +:+ bytes, conn'')
          else Ok (str_take remaining c, Chunk (str_drop remaining c) :: conn')
      end
  end.

Definition receive_frame (max_frame_size : Z) (conn : connection) : res (string * connection) :=
  '(header, conn) ← receive_exact conn 4 true false;
  let announced := unpack header in
  _ ← guard_res (negb (announced =? 0)) (ProtocolError "IPC_INVALID_FRAME");
  _ ← guard_res (announced <=? max_frame_size) (ProtocolError "IPC_FRAME_TOO_LARGE");
  receive_exact conn (Z.to_nat announced) false false.

(** ** Envelopes *)

Inductive EndpointRole : Type :=
| ER_LAUNCHER | ER_UI | ER_CORE | ER_AUTH_AGENT | ER_SIMULATED_WORKER | ER_DERIV_WORKER
| ER_IQOPTION_WORKER.

Inductive MessageType : Type :=
| MT_UI_HANDSHAKE_REQUEST | MT_UI_HANDSHAKE_RESPONSE | MT_UI_PROJECTION_REQUEST
| MT_UI_PROJECTION_SNAPSHOT | MT_UI_SAFE_STOP_COMMAND | MT_UI_SAFE_STOP_ACK | MT_UI_RESUME_COMMAND
| MT_UI_RESUME_ACK | MT_UI_SHUTDOWN_REQUEST | MT_UI_SHUTDOWN_ACK
| MT_UI_GENERATE_DIAGNOSTIC_COMMAND | MT_UI_GENERATE_DIAGNOSTIC_RESPONSE
| MT_UI_DERIV_DEMO_CONNECT_COMMAND | MT_UI_DERIV_DEMO_CONNECT_ACK
| MT_UI_UPDATE_DIGIT_RISK_CONFIG_COMMAND | MT_UI_UPDATE_DIGIT_RISK_CONFIG_ACK
| MT_UI_RESET_DIGIT_TEST_SESSION_COMMAND | MT_UI_RESET_DIGIT_TEST_SESSION_ACK
| MT_UI_IQOPTION_LOGIN_COMMAND | MT_UI_IQOPTION_LOGIN_ACK
| MT_UI_UPDATE_IQOPTION_RISK_CONFIG_COMMAND | MT_UI_UPDATE_IQOPTION_RISK_CONFIG_ACK
| MT_UI_IQOPTION_BOT_CONTROL_COMMAND | MT_UI_IQOPTION_BOT_CONTROL_ACK
| MT_LIFECYCLE_HANDSHAKE_REQUEST | MT_LIFECYCLE_HANDSHAKE_RESPONSE
| MT_CORE_LIFECYCLE_STATUS_REQUEST | MT_CORE_LIFECYCLE_STATUS_RESPONSE | MT_CORE_SAFE_STOP_REQUEST
| MT_CORE_SAFE_STOP_ACK | MT_CORE_DRAIN_REQUEST | MT_CORE_DRAIN_RESPONSE
| MT_CORE_WORKERS_SHUTDOWN_REQUEST | MT_CORE_WORKERS_SHUTDOWN_ACK | MT_CORE_AUTH_SHUTDOWN_REQUEST
| MT_CORE_AUTH_SHUTDOWN_ACK | MT_CORE_RESTART_COMPONENT_REQUEST
| MT_CORE_RESTART_COMPONENT_RESPONSE | MT_CORE_PROCESS_SHUTDOWN_REQUEST
| MT_CORE_PROCESS_SHUTDOWN_ACK | MT_AUTH_HANDSHAKE_REQUEST | MT_AUTH_HANDSHAKE_RESPONSE
| MT_AUTH_START_LOGIN_REQUEST | MT_AUTH_START_LOGIN_RESPONSE | MT_AUTH_SUBMIT_OTP_REQUEST
| MT_AUTH_SUBMIT_OTP_RESPONSE | MT_AUTH_RENEW_REQUEST | MT_AUTH_RENEW_RESPONSE
| MT_AUTH_CHECK_AUTHORIZATION_REQUEST | MT_AUTH_CHECK_AUTHORIZATION_RESPONSE
| MT_AUTH_STATUS_REQUEST | MT_AUTH_STATUS_RESPONSE | MT_AUTH_SHUTDOWN_REQUEST
| MT_AUTH_SHUTDOWN_ACK | MT_HELLO | MT_HELLO_ACK | MT_PING | MT_PONG | MT_ORDER_SUBMIT
| MT_ORDER_ACCEPTED | MT_ORDER_REJECTED | MT_ORDER_STATUS_UNKNOWN | MT_ORDER_STATUS_REQUEST
| MT_ORDER_STATUS_RESPONSE | MT_ORDER_EVENT | MT_BROKER_CAPABILITIES_REQUEST
| MT_BROKER_CAPABILITIES_RESPONSE | MT_MARKET_SYMBOLS_REQUEST | MT_MARKET_SYMBOLS_RESPONSE
| MT_MARKET_CONTRACTS_REQUEST | MT_MARKET_CONTRACTS_RESPONSE | MT_MARKET_TICK_SUBSCRIBE
| MT_MARKET_TICK_SUBSCRIBED | MT_MARKET_TICK_EVENT | MT_MARKET_TICK_UNSUBSCRIBE
| MT_MARKET_TICK_UNSUBSCRIBED | MT_MARKET_HISTORY_REQUEST | MT_MARKET_HISTORY_RESPONSE
| MT_BROKER_CLOCK_REQUEST | MT_BROKER_CLOCK_RESPONSE | MT_BROKER_BALANCE_REQUEST
| MT_BROKER_BALANCE_RESPONSE | MT_BROKER_QUOTE_REQUEST | MT_BROKER_QUOTE_RESPONSE
| MT_WORKER_HEALTH_REQUEST | MT_WORKER_HEALTH_RESPONSE | MT_SHUTDOWN | MT_SHUTDOWN_ACK | MT_ERROR.

Definition EndpointRole_value (x : EndpointRole) : string :=
  match x with
  | ER_LAUNCHER => "LAUNCHER" | ER_UI => "UI" | ER_CORE => "CORE" | ER_AUTH_AGENT => "AUTH_AGENT"
  | ER_SIMULATED_WORKER => "SIMULATED_WORKER" | ER_DERIV_WORKER => "DERIV_WORKER"
  | ER_IQOPTION_WORKER => "IQOPTION_WORKER"
  end.
Definition EndpointRole_members : list EndpointRole := [
  ER_LAUNCHER; ER_UI; ER_CORE; ER_AUTH_AGENT; ER_SIMULATED_WORKER; ER_DERIV_WORKER;
  ER_IQOPTION_WORKER].

Definition MessageType_value (x : MessageType) : string :=
  match x with
  | MT_UI_HANDSHAKE_REQUEST => "UI_HANDSHAKE_REQUEST"
  | MT_UI_HANDSHAKE_RESPONSE => "UI_HANDSHAKE_RESPONSE"
  | MT_UI_PROJECTION_REQUEST => "UI_PROJECTION_REQUEST"
  | MT_UI_PROJECTION_SNAPSHOT => "UI_PROJECTION_SNAPSHOT"
  | MT_UI_SAFE_STOP_COMMAND => "UI_SAFE_STOP_COMMAND" | MT_UI_SAFE_STOP_ACK => "UI_SAFE_STOP_ACK"
  | MT_UI_RESUME_COMMAND => "UI_RESUME_COMMAND" | MT_UI_RESUME_ACK => "UI_RESUME_ACK"
  | MT_UI_SHUTDOWN_REQUEST => "UI_SHUTDOWN_REQUEST" | MT_UI_SHUTDOWN_ACK => "UI_SHUTDOWN_ACK"
  | MT_UI_GENERATE_DIAGNOSTIC_COMMAND => "UI_GENERATE_DIAGNOSTIC_COMMAND"
  | MT_UI_GENERATE_DIAGNOSTIC_RESPONSE => "UI_GENERATE_DIAGNOSTIC_RESPONSE"
  | MT_UI_DERIV_DEMO_CONNECT_COMMAND => "UI_DERIV_DEMO_CONNECT_COMMAND"
  | MT_UI_DERIV_DEMO_CONNECT_ACK => "UI_DERIV_DEMO_CONNECT_ACK"
  | MT_UI_UPDATE_DIGIT_RISK_CONFIG_COMMAND => "UI_UPDATE_DIGIT_RISK_CONFIG_COMMAND"
  | MT_UI_UPDATE_DIGIT_RISK_CONFIG_ACK => "UI_UPDATE_DIGIT_RISK_CONFIG_ACK"
  | MT_UI_RESET_DIGIT_TEST_SESSION_COMMAND => "UI_RESET_DIGIT_TEST_SESSION_COMMAND"
  | MT_UI_RESET_DIGIT_TEST_SESSION_ACK => "UI_RESET_DIGIT_TEST_SESSION_ACK"
  | MT_UI_IQOPTION_LOGIN_COMMAND => "UI_IQOPTION_LOGIN_COMMAND"
  | MT_UI_IQOPTION_LOGIN_ACK => "UI_IQOPTION_LOGIN_ACK"
  | MT_UI_UPDATE_IQOPTION_RISK_CONFIG_COMMAND => "UI_UPDATE_IQOPTION_RISK_CONFIG_COMMAND"
  | MT_UI_UPDATE_IQOPTION_RISK_CONFIG_ACK => "UI_UPDATE_IQOPTION_RISK_CONFIG_ACK"
  | MT_UI_IQOPTION_BOT_CONTROL_COMMAND => "UI_IQOPTION_BOT_CONTROL_COMMAND"
  | MT_UI_IQOPTION_BOT_CONTROL_ACK => "UI_IQOPTION_BOT_CONTROL_ACK"
  | MT_LIFECYCLE_HANDSHAKE_REQUEST => "LIFECYCLE_HANDSHAKE_REQUEST"
  | MT_LIFECYCLE_HANDSHAKE_RESPONSE => "LIFECYCLE_HANDSHAKE_RESPONSE"
  | MT_CORE_LIFECYCLE_STATUS_REQUEST => "CORE_LIFECYCLE_STATUS_REQUEST"
  | MT_CORE_LIFECYCLE_STATUS_RESPONSE => "CORE_LIFECYCLE_STATUS_RESPONSE"
  | MT_CORE_SAFE_STOP_REQUEST => "CORE_SAFE_STOP_REQUEST"
  | MT_CORE_SAFE_STOP_ACK => "CORE_SAFE_STOP_ACK" | MT_CORE_DRAIN_REQUEST => "CORE_DRAIN_REQUEST"
  | MT_CORE_DRAIN_RESPONSE => "CORE_DRAIN_RESPONSE"
  | MT_CORE_WORKERS_SHUTDOWN_REQUEST => "CORE_WORKERS_SHUTDOWN_REQUEST"
  | MT_CORE_WORKERS_SHUTDOWN_ACK => "CORE_WORKERS_SHUTDOWN_ACK"
  | MT_CORE_AUTH_SHUTDOWN_REQUEST => "CORE_AUTH_SHUTDOWN_REQUEST"
  | MT_CORE_AUTH_SHUTDOWN_ACK => "CORE_AUTH_SHUTDOWN_ACK"
  | MT_CORE_RESTART_COMPONENT_REQUEST => "CORE_RESTART_COMPONENT_REQUEST"
  | MT_CORE_RESTART_COMPONENT_RESPONSE => "CORE_RESTART_COMPONENT_RESPONSE"
  | MT_CORE_PROCESS_SHUTDOWN_REQUEST => "CORE_PROCESS_SHUTDOWN_REQUEST"
  | MT_CORE_PROCESS_SHUTDOWN_ACK => "CORE_PROCESS_SHUTDOWN_ACK"
  | MT_AUTH_HANDSHAKE_REQUEST => "AUTH_HANDSHAKE_REQUEST"
  | MT_AUTH_HANDSHAKE_RESPONSE => "AUTH_HANDSHAKE_RESPONSE"
  | MT_AUTH_START_LOGIN_REQUEST => "AUTH_START_LOGIN_REQUEST"
  | MT_AUTH_START_LOGIN_RESPONSE => "AUTH_START_LOGIN_RESPONSE"
  | MT_AUTH_SUBMIT_OTP_REQUEST => "AUTH_SUBMIT_OTP_REQUEST"
  | MT_AUTH_SUBMIT_OTP_RESPONSE => "AUTH_SUBMIT_OTP_RESPONSE"
  | MT_AUTH_RENEW_REQUEST => "AUTH_RENEW_REQUEST" | MT_AUTH_RENEW_RESPONSE => "AUTH_RENEW_RESPONSE"
  | MT_AUTH_CHECK_AUTHORIZATION_REQUEST => "AUTH_CHECK_AUTHORIZATION_REQUEST"
  | MT_AUTH_CHECK_AUTHORIZATION_RESPONSE => "AUTH_CHECK_AUTHORIZATION_RESPONSE"
  | MT_AUTH_STATUS_REQUEST => "AUTH_STATUS_REQUEST"
  | MT_AUTH_STATUS_RESPONSE => "AUTH_STATUS_RESPONSE"
  | MT_AUTH_SHUTDOWN_REQUEST => "AUTH_SHUTDOWN_REQUEST"
  | MT_AUTH_SHUTDOWN_ACK => "AUTH_SHUTDOWN_ACK" | MT_HELLO => "HELLO" | MT_HELLO_ACK => "HELLO_ACK"
  | MT_PING => "PING" | MT_PONG => "PONG" | MT_ORDER_SUBMIT => "ORDER_SUBMIT"
  | MT_ORDER_ACCEPTED => "ORDER_ACCEPTED" | MT_ORDER_REJECTED => "ORDER_REJECTED"
  | MT_ORDER_STATUS_UNKNOWN => "ORDER_STATUS_UNKNOWN"
  | MT_ORDER_STATUS_REQUEST => "ORDER_STATUS_REQUEST"
  | MT_ORDER_STATUS_RESPONSE => "ORDER_STATUS_RESPONSE" | MT_ORDER_EVENT => "ORDER_EVENT"
  | MT_BROKER_CAPABILITIES_REQUEST => "BROKER_CAPABILITIES_REQUEST"
  | MT_BROKER_CAPABILITIES_RESPONSE => "BROKER_CAPABILITIES_RESPONSE"
  | MT_MARKET_SYMBOLS_REQUEST => "MARKET_SYMBOLS_REQUEST"
  | MT_MARKET_SYMBOLS_RESPONSE => "MARKET_SYMBOLS_RESPONSE"
  | MT_MARKET_CONTRACTS_REQUEST => "MARKET_CONTRACTS_REQUEST"
  | MT_MARKET_CONTRACTS_RESPONSE => "MARKET_CONTRACTS_RESPONSE"
  | MT_MARKET_TICK_SUBSCRIBE => "MARKET_TICK_SUBSCRIBE"
  | MT_MARKET_TICK_SUBSCRIBED => "MARKET_TICK_SUBSCRIBED"
  | MT_MARKET_TICK_EVENT => "MARKET_TICK_EVENT"
  | MT_MARKET_TICK_UNSUBSCRIBE => "MARKET_TICK_UNSUBSCRIBE"
  | MT_MARKET_TICK_UNSUBSCRIBED => "MARKET_TICK_UNSUBSCRIBED"
  | MT_MARKET_HISTORY_REQUEST => "MARKET_HISTORY_REQUEST"
  | MT_MARKET_HISTORY_RESPONSE => "MARKET_HISTORY_RESPONSE"
  | MT_BROKER_CLOCK_REQUEST => "BROKER_CLOCK_REQUEST"
  | MT_BROKER_CLOCK_RESPONSE => "BROKER_CLOCK_RESPONSE"
  | MT_BROKER_BALANCE_REQUEST => "BROKER_BALANCE_REQUEST"
  | MT_BROKER_BALANCE_RESPONSE => "BROKER_BALANCE_RESPONSE"
  | MT_BROKER_QUOTE_REQUEST => "BROKER_QUOTE_REQUEST"
  | MT_BROKER_QUOTE_RESPONSE => "BROKER_QUOTE_RESPONSE"
  | MT_WORKER_HEALTH_REQUEST => "WORKER_HEALTH_REQUEST"
  | MT_WORKER_HEALTH_RESPONSE => "WORKER_HEALTH_RESPONSE" | MT_SHUTDOWN => "SHUTDOWN"
  | MT_SHUTDOWN_ACK => "SHUTDOWN_ACK" | MT_ERROR => "ERROR"
  end.
Definition MessageType_members : list MessageType := [
  MT_UI_HANDSHAKE_REQUEST; MT_UI_HANDSHAKE_RESPONSE; MT_UI_PROJECTION_REQUEST;
  MT_UI_PROJECTION_SNAPSHOT; MT_UI_SAFE_STOP_COMMAND; MT_UI_SAFE_STOP_ACK; MT_UI_RESUME_COMMAND;
  MT_UI_RESUME_ACK; MT_UI_SHUTDOWN_REQUEST; MT_UI_SHUTDOWN_ACK; MT_UI_GENERATE_DIAGNOSTIC_COMMAND;
  MT_UI_GENERATE_DIAGNOSTIC_RESPONSE; MT_UI_DERIV_DEMO_CONNECT_COMMAND;
  MT_UI_DERIV_DEMO_CONNECT_ACK; MT_UI_UPDATE_DIGIT_RISK_CONFIG_COMMAND;
  MT_UI_UPDATE_DIGIT_RISK_CONFIG_ACK; MT_UI_RESET_DIGIT_TEST_SESSION_COMMAND;
  MT_UI_RESET_DIGIT_TEST_SESSION_ACK; MT_UI_IQOPTION_LOGIN_COMMAND; MT_UI_IQOPTION_LOGIN_ACK;
  MT_UI_UPDATE_IQOPTION_RISK_CONFIG_COMMAND; MT_UI_UPDATE_IQOPTION_RISK_CONFIG_ACK;
  MT_UI_IQOPTION_BOT_CONTROL_COMMAND; MT_UI_IQOPTION_BOT_CONTROL_ACK;
  MT_LIFECYCLE_HANDSHAKE_REQUEST; MT_LIFECYCLE_HANDSHAKE_RESPONSE;
  MT_CORE_LIFECYCLE_STATUS_REQUEST; MT_CORE_LIFECYCLE_STATUS_RESPONSE; MT_CORE_SAFE_STOP_REQUEST;
  MT_CORE_SAFE_STOP_ACK; MT_CORE_DRAIN_REQUEST; MT_CORE_DRAIN_RESPONSE;
  MT_CORE_WORKERS_SHUTDOWN_REQUEST; MT_CORE_WORKERS_SHUTDOWN_ACK; MT_CORE_AUTH_SHUTDOWN_REQUEST;
  MT_CORE_AUTH_SHUTDOWN_ACK; MT_CORE_RESTART_COMPONENT_REQUEST; MT_CORE_RESTART_COMPONENT_RESPONSE;
  MT_CORE_PROCESS_SHUTDOWN_REQUEST; MT_CORE_PROCESS_SHUTDOWN_ACK; MT_AUTH_HANDSHAKE_REQUEST;
  MT_AUTH_HANDSHAKE_RESPONSE; MT_AUTH_START_LOGIN_REQUEST; MT_AUTH_START_LOGIN_RESPONSE;
  MT_AUTH_SUBMIT_OTP_REQUEST; MT_AUTH_SUBMIT_OTP_RESPONSE; MT_AUTH_RENEW_REQUEST;
  MT_AUTH_RENEW_RESPONSE; MT_AUTH_CHECK_AUTHORIZATION_REQUEST;
  MT_AUTH_CHECK_AUTHORIZATION_RESPONSE; MT_AUTH_STATUS_REQUEST; MT_AUTH_STATUS_RESPONSE;
  MT_AUTH_SHUTDOWN_REQUEST; MT_AUTH_SHUTDOWN_ACK; MT_HELLO; MT_HELLO_ACK; MT_PING; MT_PONG;
  MT_ORDER_SUBMIT; MT_ORDER_ACCEPTED; MT_ORDER_REJECTED; MT_ORDER_STATUS_UNKNOWN;
  MT_ORDER_STATUS_REQUEST; MT_ORDER_STATUS_RESPONSE; MT_ORDER_EVENT;
  MT_BROKER_CAPABILITIES_REQUEST; MT_BROKER_CAPABILITIES_RESPONSE; MT_MARKET_SYMBOLS_REQUEST;
  MT_MARKET_SYMBOLS_RESPONSE; MT_MARKET_CONTRACTS_REQUEST; MT_MARKET_CONTRACTS_RESPONSE;
  MT_MARKET_TICK_SUBSCRIBE; MT_MARKET_TICK_SUBSCRIBED; MT_MARKET_TICK_EVENT;
  MT_MARKET_TICK_UNSUBSCRIBE; MT_MARKET_TICK_UNSUBSCRIBED; MT_MARKET_HISTORY_REQUEST;
  MT_MARKET_HISTORY_RESPONSE; MT_BROKER_CLOCK_REQUEST; MT_BROKER_CLOCK_RESPONSE;
  MT_BROKER_BALANCE_REQUEST; MT_BROKER_BALANCE_RESPONSE; MT_BROKER_QUOTE_REQUEST;
  MT_BROKER_QUOTE_RESPONSE; MT_WORKER_HEALTH_REQUEST; MT_WORKER_HEALTH_RESPONSE; MT_SHUTDOWN;
  MT_SHUTDOWN_ACK; MT_ERROR].

(** The values of a listed enumeration are different. *)
Lemma listed_value_inj {E} (val : E -> string) (members : list E) :
  (forall x, x ∈ members) -> NoDup (val <$> members) -> forall x y, val x = val y -> x = y.
Proof. intros Hall Hnd x y Hv. by apply (key_unique val members). Qed.

Lemma EndpointRole_all x : x ∈ EndpointRole_members.
Proof. destruct x; repeat (apply elem_of_cons; (by left) || right). Qed.
Lemma MessageType_all x : x ∈ MessageType_members.
Proof. apply list_elem_of_In. destruct x; repeat first [left; reflexivity | right]. Qed.

#[export] Program Instance EndpointRole_enum : StrEnum EndpointRole := {|
  value := EndpointRole_value; members := EndpointRole_members; members_all := EndpointRole_all |}.
Next Obligation. apply (listed_value_inj _ EndpointRole_members EndpointRole_all). apply (bool_decide_unpack _). vm_compute. exact I. Qed.
#[export] Program Instance MessageType_enum : StrEnum MessageType := {|
  value := MessageType_value; members := MessageType_members; members_all := MessageType_all |}.
Next Obligation. apply (listed_value_inj _ MessageType_members MessageType_all). apply (bool_decide_unpack _). vm_compute. exact I. Qed.

#[export] Instance EndpointRole_eq_dec : EqDecision EndpointRole.
Proof. intros x y. destruct (decide (value x = value y)) as [H|H]; [left; by apply value_inj|right; congruence]. Defined.
#[export] Instance MessageType_eq_dec : EqDecision MessageType.
Proof. intros x y. destruct (decide (value x = value y)) as [H|H]; [left; by apply value_inj|right; congruence]. Defined.

Record Envelope : Type := mk_Envelope {
  en_protocol_version : Z; en_message_id : string; en_correlation_id : string;
  en_causation_id : option string; en_source : EndpointRole; en_target : EndpointRole;
  en_message_type : MessageType; en_created_at_utc : datetime; en_deadline_at : option datetime;
  en_payload : list (string * json)
}.

#[export] Instance Envelope_eta : Eta Envelope := fun e =>
  mk_Envelope (en_protocol_version e) (en_message_id e) (en_correlation_id e) (en_causation_id e)
    (en_source e) (en_target e) (en_message_type e) (en_created_at_utc e) (en_deadline_at e) (en_payload e).

Definition invalid_envelope : exn := ProtocolError "IPC_INVALID_ENVELOPE".

(** [_validate_utc] *)
Definition validate_utc (d : datetime) : res unit := guard_res (is_utc d) invalid_envelope.

(** [Envelope.__post_init__] *)
Definition Envelope_post_init (e : Envelope) : res Envelope :=
  _ ← guard_res (0 <? en_protocol_version e) invalid_envelope;
  _ ← guard_res (nonblank (en_message_id e)) invalid_envelope;
  _ ← guard_res (nonblank (en_correlation_id e)) invalid_envelope;
  _ ← guard_res (match en_causation_id e with None => true | Some c => nonblank c end) invalid_envelope;
  _ ← validate_utc (en_created_at_utc e);
  _ ← match en_deadline_at e with None => Ok tt | Some d => validate_utc d end;
  Ok e.

Definition ENVELOPE_FIELDS : list string :=
  ["protocol_version"; "message_id"; "correlation_id"; "causation_id"; "source"; "target"; "message_type";
   "created_at_utc"; "deadline_at"; "payload"].

Definition vopt (o : option string) : json := match o with Some s => VStr s | None => VNull end.

(** The document of [encode_envelope]; a payload has no tuples and no other keys
    than strings. *)
Definition envelope_document (e : Envelope) : json := VDict [
  ("protocol_version", VInt (en_protocol_version e));
  ("message_id", VStr (en_message_id e));
  ("correlation_id", VStr (en_correlation_id e));
  ("causation_id", vopt (en_causation_id e));
  ("source", VStr (value (en_source e)));
  ("target", VStr (value (en_target e)));
  ("message_type", VStr (value (en_message_type e)));
  ("created_at_utc", VStr (isoformat (en_created_at_utc e)));
  ("deadline_at", vopt (isoformat <$> en_deadline_at e));
  ("payload", VDict (en_payload e))].

Definition encode_envelope (e : Envelope) : res string :=
  match json_dumps (envelope_document e) with
  | Ok text => Ok text
  | Err _ => Err invalid_envelope
  end.

(** [_require_type] for [int] and [str]. *)
Definition require_int (d : list (string * json)) (field : string) : res Z :=
  match dict_get field d with Some (VInt n) => Ok n | _ => Err invalid_envelope end.
Definition require_str (d : list (string * json)) (field : string) : res string :=
  match dict_get field d with Some (VStr s) => Ok s | _ => Err invalid_envelope end.

(** A field that is a string or null. *)
Definition str_or_null (d : list (string * json)) (field : string) : res (option string) :=
  match dict_get field d with
  | Some (VStr s) => Ok (Some s)
  | Some VNull | None => Ok None
  | Some _ => Err invalid_envelope
  end.

(** [try: ... except ValueError: raise ProtocolError(code)] *)
Definition or_protocol_error {A} (code : string) (m : res A) : res A :=
  match m with
  | Err (ValueError _ | TypeError _) => Err (ProtocolError code)
  | _ => m
  end.

Definition decode_envelope (depth : nat) (payload : string) : res Envelope :=
  match json_loads depth payload with
  | inr JSONDecodeError => Err (ProtocolError "IPC_INVALID_JSON")
  | inr DigitLimit => Err (ValueError "Exceeds the limit for integer string conversion")
  | inr RecursionLimit => Err (RuntimeError "maximum recursion depth exceeded")
  | inl (VDict d) =>
      _ ← guard_res (forallb (fun f => bool_decide (f ∈ fst <$> d)) ENVELOPE_FIELDS &&
                     forallb (fun kv => bool_decide (fst kv ∈ ENVELOPE_FIELDS)) d) invalid_envelope;
      version ← require_int d "protocol_version";
      message_id ← require_str d "message_id";
      correlation_id ← require_str d "correlation_id";
      source_value ← require_str d "source";
      target_value ← require_str d "target";
      message_type_value ← require_str d "message_type";
      created_value ← require_str d "created_at_utc";
      causation_id ← str_or_null d "causation_id";
      deadline_value ← str_or_null d "deadline_at";
      raw_payload ← match dict_get "payload" d with Some (VDict p) => Ok p | _ => Err invalid_envelope end;
      source ← or_protocol_error "IPC_ROLE_MISMATCH" (of_value source_value);
      target ← or_protocol_error "IPC_ROLE_MISMATCH" (of_value target_value);
      message_type ← or_protocol_error "IPC_UNKNOWN_MESSAGE_TYPE" (of_value message_type_value);
      created_at ← or_protocol_error "IPC_INVALID_ENVELOPE" (fromisoformat created_value);
      deadline_at ← match deadline_value with
                    | None | Some "" => Ok None
                    | Some text => Some <$> or_protocol_error "IPC_INVALID_ENVELOPE" (fromisoformat text)
                    end;
      Envelope_post_init (mk_Envelope version message_id correlation_id causation_id source target
        message_type created_at deadline_at raw_payload)
  | inl _ => Err invalid_envelope
  end.

(** [FramedSocket.receive] *)
Definition receive (depth : nat) (max_frame_size : Z) (conn : connection) : res (Envelope * connection) :=
  '(payload, conn) ← receive_frame max_frame_size conn;
  e ← decode_envelope depth payload;
  Ok (e, conn).

(** ** Payloads *)

(** A value of a payload as the domain parsers see it. *)
Definition to_jval (v : json) : jval :=
  match v with
  | VNull => JNull | VBool b => JBool b | VInt n => JInt n | VFloat t => JFloat t | VStr s => JStr s
  | VList _ | VDict _ => JComposite (encode v "")
  end.

(** [dict(envelope.payload)] *)
Definition payload_of (d : list (string * json)) : payload :=
  list_to_map ((fun kv => (fst kv, to_jval (snd kv))) <$> d).

(** The value that a payload field is written as; numbers that are no integers and
    composites are written verbatim. *)
Definition of_jval (v : jval) : json :=
  match v with
  | JNull => VNull | JBool b => VBool b | JInt n => VInt n | JFloat t => VFloat t | JStr s => VStr s
  | JComposite t => VFloat t
  end.
Definition of_payload (p : payload) : list (string * json) :=
  (fun kv => (fst kv, of_jval (snd kv))) <$> map_to_list p.

(** ** Order messages *)

Definition parse_order_submit (e : Envelope) : res OrderCommand :=
  _ ← guard_res (bool_decide (en_message_type e = MT_ORDER_SUBMIT)) (ProtocolError "IPC_UNKNOWN_MESSAGE_TYPE");
  command ← or_protocol_error "IPC_INVALID_ENVELOPE" (OrderCommand_from_payload (payload_of (en_payload e)));
  _ ← guard_res (bool_decide (oc_message_id command = en_message_id e)) invalid_envelope;
  _ ← guard_res (bool_decide (oc_correlation_id command = en_correlation_id e)) invalid_envelope;
  _ ← guard_res (match en_deadline_at e with
                 | Some d => instant (oc_deadline_at command) =? instant d
                 | None => false
                 end) invalid_envelope;
  Ok command.

Record WorkerSubmissionResult : Type := mk_WorkerSubmissionResult {
  ws_outcome : WorkerOutcome; ws_broker_order_id : option string; ws_response_message_id : string;
  ws_correlation_id : string; ws_causation_id : string; ws_reason_code : option string
}.

Definition response_outcome (t : MessageType) : option WorkerOutcome :=
  match t with
  | MT_ORDER_ACCEPTED => Some WO_ACCEPTED
  | MT_ORDER_REJECTED => Some WO_REJECTED
  | MT_ORDER_STATUS_UNKNOWN => Some WO_TIMEOUT_AFTER_POSSIBLE_SEND
  | _ => None
  end.

Definition parse_order_response (e : Envelope) : res WorkerSubmissionResult :=
  match response_outcome (en_message_type e) with
  | None => Err (ProtocolError "IPC_UNKNOWN_MESSAGE_TYPE")
  | Some outcome =>
      order_id ← require_str (en_payload e) "order_id";
      broker_order_id ← str_or_null (en_payload e) "broker_order_id";
      reason_code ← str_or_null (en_payload e) "reason_code";
      _ ← guard_res (negb (String.eqb order_id "")) invalid_envelope;
      match en_causation_id e with
      | None => Err invalid_envelope
      | Some causation_id =>
          Ok (mk_WorkerSubmissionResult outcome broker_order_id (en_message_id e) (en_correlation_id e)
                causation_id reason_code)
      end
  end.

Definition parse_order_status_request (e : Envelope) : res OrderStatusQuery :=
  _ ← guard_res (bool_decide (en_message_type e = MT_ORDER_STATUS_REQUEST))
        (ProtocolError "IPC_UNKNOWN_MESSAGE_TYPE");
  or_protocol_error "IPC_INVALID_ENVELOPE"
    (OrderStatusQuery_from_payload (payload_of (en_payload e)) (en_correlation_id e)).

(** [NotFoundEvidence] *)
Definition NotFoundEvidence_to_payload (ev : NotFoundEvidence) : list (string * json) :=
  [("observed_at", VStr (isoformat (nf_observed_at ev)));
   ("statement_checked", VBool (nf_statement_checked ev));
   ("portfolio_checked", VBool (nf_portfolio_checked ev))].

Definition NotFoundEvidence_from_payload (d : list (string * json)) : res NotFoundEvidence :=
  match dict_get "observed_at" d, dict_get "statement_checked" d, dict_get "portfolio_checked" d with
  | Some (VStr observed_at), Some (VBool statement), Some (VBool portfolio) =>
      at_ ← fromisoformat observed_at;
      _ ← require_aware_utc at_ "observed_at";
      Ok (mk_NotFoundEvidence at_ statement portfolio)
  | _, _, _ => Err (ValueError "invalid NOT_FOUND evidence")
  end.

#[export] Program Instance StatusQueryOutcome_enum : StrEnum StatusQueryOutcome := {|
  value o := match o with
    | SQ_FOUND => "FOUND" | SQ_NOT_FOUND => "NOT_FOUND" | SQ_UNAVAILABLE => "UNAVAILABLE"
    | SQ_QUERY_TIMEOUT => "QUERY_TIMEOUT" | SQ_INVALID_RESPONSE => "INVALID_RESPONSE" end;
  members := [SQ_FOUND; SQ_NOT_FOUND; SQ_UNAVAILABLE; SQ_QUERY_TIMEOUT; SQ_INVALID_RESPONSE]
|}.
Solve All Obligations with solve_enum.

(** An optional object of a response, parsed by [f]. *)
Definition optional_object {A} (d : list (string * json)) (field : string) (f : list (string * json) -> res A)
    : res (option A) :=
  match dict_get field d with
  | None | Some VNull => Ok None
  | Some (VDict o) => Some <$> or_protocol_error "RECONCILIATION_INVALID_RESPONSE" (f o)
  | Some _ => Err invalid_envelope
  end.

(** The result with the identifiers that the client compares. *)
Record StatusResponse : Type := mk_StatusResponse {
  st_result : OrderStatusResult; st_message_id : string; st_correlation_id : string; st_causation_id : string
}.

Definition parse_order_status_response (e : Envelope) : res StatusResponse :=
  _ ← guard_res (bool_decide (en_message_type e = MT_ORDER_STATUS_RESPONSE))
        (ProtocolError "IPC_UNKNOWN_MESSAGE_TYPE");
  outcome_value ← require_str (en_payload e) "query_outcome";
  reason_code ← str_or_null (en_payload e) "reason_code";
  outcome ← or_protocol_error "RECONCILIATION_INVALID_RESPONSE" (of_value outcome_value);
  evidence ← optional_object (en_payload e) "evidence"
               (fun o => ReconciliationEvidence_from_payload (payload_of o));
  not_found ← optional_object (en_payload e) "not_found_evidence" NotFoundEvidence_from_payload;
  match en_causation_id e with
  | None => Err invalid_envelope
  | Some causation_id =>
      result ← or_protocol_error "RECONCILIATION_INVALID_RESPONSE"
                 (OrderStatusResult_post_init (mk_OrderStatusResult outcome evidence reason_code not_found));
      Ok (mk_StatusResponse result (en_message_id e) (en_correlation_id e) causation_id)
  end.

Definition parse_order_event (payload_hash : payload -> string) (e : Envelope) : res BrokerOrderEvent :=
  _ ← guard_res (bool_decide (en_message_type e = MT_ORDER_EVENT)) (ProtocolError "IPC_UNKNOWN_MESSAGE_TYPE");
  _ ← guard_res (bool_decide (en_causation_id e = None)) invalid_envelope;
  event ← or_protocol_error "IPC_INVALID_ENVELOPE"
            (BrokerOrderEvent_from_payload payload_hash (payload_of (en_payload e)));
  _ ← guard_res (bool_decide (bo_correlation_id event = en_correlation_id e)) invalid_envelope;
  Ok event.

(** ** [WorkerCapabilities] *)

Record WorkerCapabilities : Type := mk_WorkerCapabilities {
  cap_broker : string; cap_account_modes : list string; cap_products : list string;
  cap_supports_reconciliation : bool; cap_supports_quotes : bool; cap_supports_order_status_query : bool;
  cap_worker_version : string; cap_supports_order_events : bool; cap_can_submit_orders : bool;
  cap_supports_market_data : bool; cap_connection_mode : option string
}.

Definition WorkerCapabilities_to_payload (c : WorkerCapabilities) : list (string * json) :=
  [("broker", VStr (cap_broker c));
   ("account_modes", VList (VStr <$> cap_account_modes c));
   ("products", VList (VStr <$> cap_products c));
   ("supports_reconciliation", VBool (cap_supports_reconciliation c));
   ("supports_quotes", VBool (cap_supports_quotes c));
   ("supports_order_status_query", VBool (cap_supports_order_status_query c));
   ("supports_order_events", VBool (cap_supports_order_events c));
   ("worker_version", VStr (cap_worker_version c));
   ("can_submit_orders", VBool (cap_can_submit_orders c));
   ("supports_market_data", VBool (cap_supports_market_data c));
   ("connection_mode", vopt (cap_connection_mode c))].

Definition get_list (d : list (string * json)) (field : string) : res (list json) :=
  match dict_get field d with Some (VList l) => Ok l | _ => Err invalid_envelope end.

(** A flag, with the value it has when the key is missing. *)
Definition get_flag (d : list (string * json)) (field : string) (missing : option bool) : res bool :=
  match dict_get field d, missing with
  | Some (VBool b), _ => Ok b
  | None, Some b => Ok b
  | _, _ => Err invalid_envelope
  end.

(** [isinstance(item, str) and item] for every item *)
Fixpoint nonempty_strings (l : list json) : res (list string) :=
  match l with
  | [] => Ok []
  | VStr s :: l' =>
      _ ← guard_res (negb (String.eqb s "")) invalid_envelope;
      rest ← nonempty_strings l';
      Ok (s :: rest)
  | _ :: _ => Err invalid_envelope
  end.

Definition WorkerCapabilities_from_payload (d : list (string * json)) : res WorkerCapabilities :=
  broker ← require_str d "broker";
  worker_version ← require_str d "worker_version";
  modes ← get_list d "account_modes";
  products ← get_list d "products";
  reconciliation ← get_flag d "supports_reconciliation" None;
  quotes ← get_flag d "supports_quotes" None;
  order_status_query ← get_flag d "supports_order_status_query" None;
  order_events ← get_flag d "supports_order_events" (Some false);
  can_submit_orders ← get_flag d "can_submit_orders" (Some true);
  supports_market_data ← get_flag d "supports_market_data" (Some false);
  connection_mode ← str_or_null d "connection_mode";
  modes ← nonempty_strings modes;
  products ← nonempty_strings products;
  Ok (mk_WorkerCapabilities broker modes products reconciliation quotes order_status_query worker_version
        order_events can_submit_orders supports_market_data connection_mode).

(** ** Frames on the wire *)

(** The bytes that arrive before the connection ends, fails or times out. *)
Fixpoint stream (conn : connection) : string :=
  match conn with
  | Chunk "" :: _ => ""
  | Chunk c :: conn' => c +:+ stream conn'
  | _ => ""
  end.

Lemma append_assoc s t u : (s +:+ t) +:+ u = s +:+ (t +:+ u).
Proof. induction s as [|c s IH]; [done|]. by rewrite !append_cons, IH. Qed.

Lemma take_drop n s : str_take n s +:+ str_drop n s = s.
Proof. revert s. induction n as [|n IH]; intros [|c s]; try done. simpl. rewrite append_cons. by rewrite IH. Qed.

Lemma length_take n s : (n <= String.length s)%nat -> String.length (str_take n s) = n.
Proof. revert s. induction n as [|n IH]; intros [|c s]; simpl; intros H; try lia; try done. rewrite IH; lia. Qed.

Lemma take_append s t n :
  str_take n (s +:+ t) = if (n <=? String.length s)%nat then str_take n s else s +:+ str_take (n - String.length s) t.
Proof.
  revert n. induction s as [|c s IH]; intros [|n]; rewrite ?append_cons, ?append_nil_l; simpl; try done.
  rewrite IH. by destruct (n <=? String.length s)%nat.
Qed.

Lemma drop_append s t n :
  str_drop n (s +:+ t) = if (n <=? String.length s)%nat then str_drop n s +:+ t else str_drop (n - String.length s) t.
Proof.
  revert n. induction s as [|c s IH]; intros [|n]; rewrite ?append_cons, ?append_nil_l; simpl; done || apply IH.
Qed.

Lemma take_all s : str_take (String.length s) s = s.
Proof. induction s as [|c s IH]; [done|]. simpl. by rewrite IH. Qed.

Lemma drop_all s : str_drop (String.length s) s = "".
Proof. by induction s. Qed.

Lemma stream_chunk c conn : c <> "" -> stream (Chunk c :: conn) = c +:+ stream conn.
Proof. by destruct c. Qed.

(** Reading is determined by the stream, whatever the chunks: enough bytes are
    returned exactly, too few are an error. *)
Lemma receive_exact_spec conn n header received :
  match receive_exact conn n header received with
  | Ok (bytes, conn') => (n <= String.length (stream conn))%nat /\ bytes = str_take n (stream conn) /\
      stream conn' = str_drop n (stream conn)
  | Err _ => (String.length (stream conn) < n)%nat
  end.
Proof.
  revert n received. induction conn as [|[c| |] conn IH]; intros n received;
    (destruct n as [|n]; [cbn [receive_exact]; split_and!; [lia|done|done]|]); try (cbn; lia).
  destruct c as [|c0 c1]; [cbn; lia|]. set (c := String c0 c1).
  change (receive_exact (Chunk c :: conn) (S n) header received) with
    (if (String.length c <=? S n)%nat then
       '(bytes, conn'') ← receive_exact conn (S n - String.length c) header true; Ok (c +:+ bytes, conn'')
     else Ok (str_take (S n) c, Chunk (str_drop (S n) c) :: conn)).
  rewrite stream_chunk by done. rewrite length_append, take_append, drop_append.
  destruct (String.length c <=? S n)%nat eqn:El.
  - apply Nat.leb_le in El. specialize (IH (S n - String.length c)%nat true).
    unfold mbind, res_bind. destruct (receive_exact conn _ header true) as [[bytes conn']|e]; [|lia].
    destruct IH as (Hn & -> & ->). split; [lia|]. destruct (S n <=? String.length c)%nat eqn:Eq; [|done].
    apply Nat.leb_le in Eq. replace (S n) with (String.length c) by lia.
    rewrite Nat.sub_diag, take_all, drop_all. split; [|done]. by rewrite append_nil_r.
  - apply Nat.leb_gt in El. assert ((S n <=? String.length c)%nat = true) as -> by (apply Nat.leb_le; lia).
    split; [lia|]. split; [done|]. rewrite stream_chunk; [done|].
    pose proof (take_drop (S n) c) as Ht. intros E0. rewrite E0, append_nil_r in Ht.
    assert (String.length (str_take (S n) c) = S n) as Hlen by (apply length_take; lia). rewrite Ht in Hlen. lia.
Qed.
