(* ===== verification/WorkerClient.v ===== *)
(** * The client of a worker process

    [apps/core/worker_client.py]: the replay guard, the routing of incoming envelopes,
    requests with their certainty of delivery, order submission and status queries.

    The socket and the worker are an [exchange]: how much [sendall] wrote and what the
    response queue delivered before the timeout.  [cl_sent] is everything written to
    the socket so far.  Identifiers and clock readings are arguments. *)

From S2P Require Import Prelude Datetime Dec Domain StateDb Writer Health Martingale DigitConfig Risk Coordinator Reconciliation Json Protocol.

(** ** [MessageReplayGuard] *)

(** [_digests] in the order of the [OrderedDict], oldest first. *)
Record MessageReplayGuard : Type := mk_MessageReplayGuard {
  mg_capacity : Z; mg_digests : list (string * string)
}.

Definition new_MessageReplayGuard (capacity : Z) : res MessageReplayGuard :=
  _ ← guard_res (0 <? capacity) (ValueError "replay capacity must be positive");
  Ok (mk_MessageReplayGuard capacity []).

Definition digest_of (k : string) (d : list (string * string)) : option string :=
  snd <$> fetchone (fun x => String.eqb (fst x) k) d.

(** [move_to_end] *)
Definition move_to_end (k : string) (d : list (string * string)) : list (string * string) :=
  select (fun x => negb (String.eqb (fst x) k)) d ++ select (fun x => String.eqb (fst x) k) d.

Section replay.
Variable sha256 : string -> string.

Definition observe (e : Envelope) (g : MessageReplayGuard) : res (bool * MessageReplayGuard) :=
  text ← encode_envelope e;
  let digest := sha256 text in
  match digest_of (en_message_id e) (mg_digests g) with
  | Some previous =>
      _ ← guard_res (String.eqb previous digest) (ProtocolError "IPC_MESSAGE_REPLAY_CONFLICT");
      Ok (false, mk_MessageReplayGuard (mg_capacity g) (move_to_end (en_message_id e) (mg_digests g)))
  | None =>
      let d := mg_digests g ++ [(en_message_id e, digest)] in
      Ok (true, mk_MessageReplayGuard (mg_capacity g)
                  (if mg_capacity g <? Z.of_nat (length d) then drop 1 d else d))
  end.

(** ** The reader *)

(** What the queue of a request delivers: nothing before the timeout, the response, or
    the exception that ended the connection. *)
Inductive response_item : Type :=
| NoResponse
| Response (e : Envelope)
| ConnectionEnded.

(** The part of the client that the reader thread writes.  A pending request is a
    queue of size one. *)
Record reader_state : Type := mk_reader_state {
  rd_role : EndpointRole; rd_replay : MessageReplayGuard;
  rd_pending : gmap string (option response_item);
  rd_order_events : list Envelope; rd_market_events : list Envelope;
  rd_event_queue_size : Z; rd_duplicate_count : Z
}.

#[export] Instance reader_state_eta : Eta reader_state := fun s =>
  mk_reader_state (rd_role s) (rd_replay s) (rd_pending s) (rd_order_events s) (rd_market_events s)
    (rd_event_queue_size s) (rd_duplicate_count s).

(** [event_queue.put(envelope, timeout=0.1)] on a queue that is not read meanwhile. *)
Definition put_event (e : Envelope) (limit : Z) (q : list Envelope) : res (list Envelope) :=
  _ ← guard_res (Z.of_nat (length q) <? limit) (ProtocolError "IPC_BACKPRESSURE");
  Ok (q ++ [e]).

Definition route_event (e : Envelope) (s : reader_state) : res reader_state :=
  match en_message_type e with
  | MT_MARKET_TICK_EVENT =>
      q ← put_event e (rd_event_queue_size s) (rd_market_events s);
      Ok (s <| rd_market_events := q |>)
  | MT_ORDER_EVENT =>
      q ← put_event e (rd_event_queue_size s) (rd_order_events s);
      Ok (s <| rd_order_events := q |>)
  | _ => Ok s
  end.

(** One iteration of [_reader_loop] after the reception of [e]. *)
Definition read_envelope (e : Envelope) (s : reader_state) : res reader_state :=
  _ ← guard_res ((en_protocol_version e =? PROTOCOL_VERSION) &&
                 bool_decide (en_source e = rd_role s) && bool_decide (en_target e = ER_CORE))
        (ProtocolError "IPC_ROLE_MISMATCH");
  '(fresh, replay) ← observe e (rd_replay s);
  let s := s <| rd_replay := replay |> in
  if negb fresh then Ok (s <| rd_duplicate_count ::= fun n => n + 1 |>)
  else
    match en_causation_id e with
    | None => route_event e s
    | Some c =>
        match rd_pending s !! c with
        | None => route_event e s
        | Some (Some _) => Err (ProtocolError "IPC_BACKPRESSURE")
        | Some None => Ok (s <| rd_pending ::= fun p => <[ c := Some (Response e) ]> p |>)
        end
    end.
End replay.

(** ** Requests *)

(** [ex_written]: [None] when [sendall] wrote everything, [Some n] when it raised
    [OSError] after [n] bytes. *)
Record exchange : Type := mk_exchange { ex_written : option nat; ex_item : response_item }.

Record client : Type := mk_client {
  cl_capabilities : WorkerCapabilities; cl_role : EndpointRole; cl_ready : bool; cl_fatal : bool;
  cl_free_slots : Z; cl_sent : string
}.

#[export] Instance client_eta : Eta client := fun c =>
  mk_client (cl_capabilities c) (cl_role c) (cl_ready c) (cl_fatal c) (cl_free_slots c) (cl_sent c).

Definition is_ready (c : client) : bool := cl_ready c && negb (cl_fatal c).

(** [FramedSocket.send] *)
Definition transport_send (e : Envelope) (written : option nat) (c : client) : res unit * client :=
  match (text ← encode_envelope e; frame_payload MAX_FRAME_SIZE text) with
  | Err err => (Err err, c)
  | Ok frame =>
      match written with
      | None => (Ok tt, c <| cl_sent ::= fun s => s +:+ frame |>)
      | Some n => (Err (ProtocolError "IPC_CONNECTION_LOST"), c <| cl_sent ::= fun s => s +:+ str_take n frame |>)
      end
  end.

(** The result of [_request]: the response, a [WorkerDispatchError], or another
    exception. *)
Inductive request_result : Type :=
| Answered (e : Envelope)
| DispatchFailed (code : string) (delivery : DeliveryCertainty)
| Raised.

(** [_request_with_slot] *)
Definition request_with_slot (e : Envelope) (x : exchange) (c : client) : request_result * client :=
  match transport_send e (ex_written x) c with
  | (Err (ProtocolError code), c) =>
      (DispatchFailed code (if String.eqb code "IPC_CONNECTION_LOST" then POSSIBLY_SENT else NOT_SENT), c)
  | (Err _, c) => (Raised, c)
  | (Ok _, c) =>
      match ex_item x with
      | NoResponse => (DispatchFailed "ORDER_DISPATCH_AMBIGUOUS" POSSIBLY_SENT, c)
      | ConnectionEnded => (DispatchFailed "WORKER_CRASHED" POSSIBLY_SENT, c)
      | Response r => (Answered r, c)
      end
  end.

(** [_request]: the slot is released afterwards. *)
Definition request (e : Envelope) (x : exchange) (c : client) : request_result * client :=
  if negb (is_ready c) then (DispatchFailed "WORKER_NOT_READY" NOT_SENT, c)
  else if negb (0 <? cl_free_slots c) then (DispatchFailed "IPC_BACKPRESSURE" NOT_SENT, c)
  else request_with_slot e x c.

(** ** The end of the connection *)

Record worker : Type := mk_worker { wk_client : client; wk_reader : reader_state }.

#[export] Instance worker_eta : Eta worker := fun w => mk_worker (wk_client w) (wk_reader w).

(** [_fail]: the client is not ready any more and every request that still waits gets
    the exception. *)
Definition fail (w : worker) : worker :=
  w <| wk_client ::= fun c => c <| cl_ready := false |> <| cl_fatal := true |> |>
    <| wk_reader ::= fun r => r <| rd_pending ::= fmap (fun item =>
         match item with Some i => Some i | None => Some ConnectionEnded end) |> |>.

Section worker.
Variables (sha256 : string -> string) (payload_hash : payload -> string).

(** One iteration of [_reader_loop] outside [close]: what [receive] returned or raised.
    [true] when the loop goes on. *)
Definition reader_iteration (received : res Envelope) (w : worker) : bool * worker :=
  match (e ← received; read_envelope sha256 e (wk_reader w)) with
  | Ok r => (true, w <| wk_reader := r |>)
  | Err _ => (false, fail w)
  end.

(** [receive_order_event] *)
Definition receive_order_event (timeout : Z) (w : worker) : res (option BrokerOrderEvent) * worker :=
  if timeout <=? 0 then (Err (ValueError "event receive timeout must be positive"), w)
  else
    match rd_order_events (wk_reader w) with
    | [] => (Ok None, w)
    | e :: rest =>
        let w := w <| wk_reader ::= fun r => r <| rd_order_events := rest |> |> in
        match parse_order_event payload_hash e with
        | Ok event => (Ok (Some event), w)
        | Err (ProtocolError code) => (Err (ProtocolError code), fail w)
        | Err err => (Err err, w)
        end
    end.
End worker.

(** The envelope of [submit_order]. *)
Definition submit_envelope (role : EndpointRole) (created_at : datetime) (command : OrderCommand) : Envelope :=
  mk_Envelope PROTOCOL_VERSION (oc_message_id command) (oc_correlation_id command) None ER_CORE role
    MT_ORDER_SUBMIT created_at (Some (oc_deadline_at command)) (of_payload (OrderCommand_to_payload command)).

Definition submit_order (command : OrderCommand) (created_at : datetime) (x : exchange) (c : client)
    : submission_reply * client :=
  if negb (cap_can_submit_orders (cl_capabilities c)) then
    (WorkerDispatchError "WORKER_CAPABILITY_DENIED" NOT_SENT, c)
  else
    match Envelope_post_init (submit_envelope (cl_role c) created_at command) with
    | Err _ => (OtherException, c)
    | Ok envelope =>
        match request envelope x c with
        | (Raised, c) => (OtherException, c)
        | (DispatchFailed code delivery, c) => (WorkerDispatchError code delivery, c)
        | (Answered response, c) =>
            (match parse_order_response response with
             | Err _ => OtherException
             | Ok result =>
                 if bool_decide (ws_correlation_id result <> oc_correlation_id command) ||
                    bool_decide (ws_causation_id result <> oc_message_id command)
                 then WorkerDispatchError "IPC_INVALID_ENVELOPE" POSSIBLY_SENT
                 else SubmissionResult (ws_outcome result) (ws_broker_order_id result) (ws_reason_code result)
             end, c)
        end
    end.

(** The envelope of [query_order_status]. *)
Definition status_envelope (role : EndpointRole) (message_id : string) (created_at deadline_at : datetime)
    (query : OrderStatusQuery) : Envelope :=
  mk_Envelope PROTOCOL_VERSION message_id (sq_correlation_id query) None ER_CORE role
    MT_ORDER_STATUS_REQUEST created_at (Some deadline_at) (of_payload (OrderStatusQuery_to_payload query)).

Definition query_order_status (query : OrderStatusQuery) (message_id : string)
    (created_at deadline_at : datetime) (x : exchange) (c : client) : status_reply * client :=
  let fails code := QueryRaised (StatusQueryError code) in
  if negb (cap_supports_order_status_query (cl_capabilities c)) then (fails "RECONCILIATION_UNAVAILABLE", c)
  else
    match Envelope_post_init (status_envelope (cl_role c) message_id created_at deadline_at query) with
    | Err _ => (QueryRaised QueryRuntimeError, c)
    | Ok envelope =>
        match request envelope x c with
        | (Raised, c) => (QueryRaised QueryRuntimeError, c)
        | (DispatchFailed code _, c) =>
            (fails (if String.eqb code "ORDER_DISPATCH_AMBIGUOUS" then "RECONCILIATION_QUERY_TIMEOUT"
                    else "RECONCILIATION_UNAVAILABLE"), c)
        | (Answered response, c) =>
            (match parse_order_status_response response with
             | Err _ => fails "RECONCILIATION_INVALID_RESPONSE"
             | Ok r =>
                 if bool_decide (st_correlation_id r <> sq_correlation_id query) ||
                    bool_decide (st_causation_id r <> message_id)
                 then fails "RECONCILIATION_INVALID_RESPONSE"
                 else StatusReply (st_result r)
             end, c)
        end
    end.
