(* ===== verification/ProtocolProps.v ===== *)
(** * What crosses the wire

    Frames are exact under every splitting of the stream, envelopes decode to what was
    encoded, and an order command arrives as it was sent. *)

From S2P Require Import Prelude Datetime Dec DecVal Domain StateDb Writer Health Martingale DigitConfig Risk Coordinator Reconciliation Json Protocol WorkerClient WriterProps CoordProps DispatchProps.
From Stdlib Require Import Ascii.

Lemma code_byte n : 0 <= n < 256 -> code (byte n) = n.
Proof. intros Hn. unfold code, byte. rewrite N_ascii_embedding; lia. Qed.

Lemma byte_code c : byte (code c) = c.
Proof. unfold code, byte. rewrite N2Z.id. apply ascii_N_embedding. Qed.

Lemma code_bound c : 0 <= code c < 256.
Proof. unfold code. pose proof (N_ascii_bounded c). lia. Qed.

Lemma unpack_pack n : 0 <= n < 4294967296 -> unpack (pack n) = n.
Proof.
  intros Hn. unfold unpack, pack. rewrite !code_byte by (apply Z.mod_pos_bound; lia).
  pose proof (Z.div_mod n 256 ltac:(lia)) as H1. pose proof (Z.div_mod (n / 256) 256 ltac:(lia)) as H2.
  pose proof (Z.div_mod (n / 65536) 256 ltac:(lia)) as H3.
  rewrite Z.div_div in H2, H3 by lia. change (256 * 256) with 65536 in H2. change (65536 * 256) with 16777216 in H3.
  rewrite (Z.mod_small (n / 16777216)); [lia|]. split; [apply Z.div_pos; lia|]. apply Z.div_lt_upper_bound; lia.
Qed.

Lemma pack_unpack s : String.length s = 4%nat -> pack (unpack s) = s /\ 0 <= unpack s < 4294967296.
Proof.
  destruct s as [|a [|b [|c [|d [|]]]]]; try done. intros _. unfold unpack, pack.
  pose proof (code_bound a). pose proof (code_bound b). pose proof (code_bound c). pose proof (code_bound d).
  set (n := ((code a * 256 + code b) * 256 + code c) * 256 + code d). split; [|unfold n; lia].
  assert (n mod 256 = code d) as -> by (symmetry; apply (Z.mod_unique_pos n 256 ((code a * 256 + code b) * 256 + code c)); lia).
  assert (n / 256 = (code a * 256 + code b) * 256 + code c) as E1 by (symmetry; apply (Z.div_unique_pos n 256 _ (code d)); lia).
  assert (n / 65536 = code a * 256 + code b) as E2 by (symmetry; apply (Z.div_unique_pos n 65536 _ (code c * 256 + code d)); lia).
  assert (n / 16777216 = code a) as E3 by (symmetry; apply (Z.div_unique_pos n 16777216 _ ((code b * 256 + code c) * 256 + code d)); lia).
  rewrite E1, E2, E3. rewrite (Z.mod_small (code a)) by lia.
  rewrite <- (Z.mod_unique_pos (code a * 256 + code b) 256 (code a) (code b)) by lia.
  rewrite <- (Z.mod_unique_pos ((code a * 256 + code b) * 256 + code c) 256 (code a * 256 + code b) (code c)) by lia.
  by rewrite !byte_code.
Qed.

Lemma append_inj_l s t u : s +:+ t = s +:+ u -> t = u.
Proof. induction s as [|c s IH]; [done|]. rewrite !append_cons. intros [= H]. auto. Qed.

Lemma take_prefix s t : str_take (String.length s) (s +:+ t) = s.
Proof. rewrite take_append, Nat.leb_refl. apply take_all. Qed.

Lemma drop_prefix s t : str_drop (String.length s) (s +:+ t) = t.
Proof. by rewrite drop_append, Nat.leb_refl, drop_all. Qed.

Lemma frame_payload_Ok max p f :
  frame_payload max p = Ok f <-> 0 < size p <= max /\ f = pack (size p) +:+ p.
Proof.
  unfold frame_payload, size. split.
  - intros H. apply res_bind_Ok in H as (u & H1%guard_res_Ok & H).
    apply res_bind_Ok in H as (u' & H2%guard_res_Ok & [= <-]). split; [lia|done].
  - intros [Hs ->]. destruct (Z.eqb_spec (Z.of_nat (String.length p)) 0); [lia|]. simpl.
    destruct (Z.leb_spec (Z.of_nat (String.length p)) max); [done|lia].
Qed.

Lemma receive_frame_exact max conn p rest :
  max < 4294967296 ->
  (exists conn', receive_frame max conn = Ok (p, conn') /\ stream conn' = rest) <->
  (exists f, frame_payload max p = Ok f /\ stream conn = f +:+ rest).
Proof.
  intros Hmax. unfold receive_frame. pose proof (receive_exact_spec conn 4 true false) as H4. split.
  - intros (conn' & H & <-). apply res_bind_Ok in H as ([header c1] & Hh & H). rewrite Hh in H4.
    destruct H4 as (Hl & Eh & Es). assert (String.length header = 4%nat) as Hlen by (rewrite Eh; by apply length_take).
    apply pack_unpack in Hlen as [Hp Hb].
    apply res_bind_Ok in H as (u & Hz%guard_res_Ok & H). apply res_bind_Ok in H as (u' & Hm%guard_res_Ok & H).
    pose proof (receive_exact_spec c1 (Z.to_nat (unpack header)) false false) as Hr. rewrite H in Hr.
    destruct Hr as (Hl2 & Ep & Es2).
    assert (size p = unpack header) as Esz by (unfold size; rewrite Ep, length_take; lia).
    exists (pack (size p) +:+ p). split; [apply frame_payload_Ok; split; [lia|done]|].
    rewrite Esz, Hp, append_assoc. rewrite Es2, Ep, take_drop, Es, Eh. symmetry. apply take_drop.
  - intros (f & [Hs ->]%frame_payload_Ok & E). rewrite append_assoc in E.
    assert (String.length (pack (size p)) = 4%nat) as Hlen by done.
    destruct (receive_exact conn 4 true false) as [[header c1]|e].
    2:{ rewrite E, length_append, Hlen in H4. lia. }
    destruct H4 as (_ & Eh & Es). rewrite E, <- Hlen, take_prefix in Eh. rewrite E, <- Hlen, drop_prefix in Es.
    simpl. rewrite Eh, unpack_pack by lia. destruct (Z.eqb_spec (size p) 0); [lia|]. simpl.
    destruct (Z.leb_spec (size p) max); [|lia]. simpl.
    assert (Z.to_nat (size p) = String.length p) as -> by (unfold size; lia).
    pose proof (receive_exact_spec c1 (String.length p) false false) as Hr.
    destruct (receive_exact c1 _ false false) as [[bytes c2]|e]; [|rewrite Es, length_append in Hr; lia].
    destruct Hr as (_ & -> & Es2). rewrite Es, take_prefix. exists c2. split; [done|].
    by rewrite Es2, Es, drop_prefix.
Qed.

(** Frames are exact.  However the stream is split into chunks, and whether it ends,
    fails or times out afterwards, [receive_frame] delivers a payload exactly when the
    stream starts with the frame of that payload, and leaves the rest of the stream;
    nothing is delivered from a truncated, empty or oversized frame. *)
Theorem frames_are_exact max conn p rest :
  max < 4294967296 ->
  (exists conn', receive_frame max conn = Ok (p, conn') /\ stream conn' = rest) <->
  (exists f, frame_payload max p = Ok f /\ stream conn = f +:+ rest).
Proof. apply receive_frame_exact. Qed.

(** ** Envelopes *)

Lemma ascii_append s t : ascii_text (s +:+ t) = ascii_text s && ascii_text t.
Proof.
  unfold ascii_text. induction s as [|c s IH]; [done|]. rewrite append_cons. cbn [str_forall].
  by rewrite IH, andb_assoc.
Qed.

Lemma ascii_zpad w n : ascii_text (zpad w n) = true.
Proof.
  induction w as [|w IH]; [done|]. cbn [zpad ascii_text str_forall]. apply andb_true_iff. split; [|exact IH].
  pose proof (Z.mod_pos_bound (n / 10 ^ Z.of_nat w) 10 ltac:(lia)).
  unfold is_ascii, code, digit_char. set (d := _ mod 10) in *. rewrite N_ascii_embedding by lia.
  apply Z.ltb_lt. lia.
Qed.

Lemma ascii_isoformat d : ascii_text (isoformat d) = true.
Proof.
  unfold isoformat, format_offset. rewrite !ascii_append, !ascii_zpad.
  repeat case_match; rewrite ?ascii_append, ?ascii_zpad; done.
Qed.

Lemma isoformat_nonempty d : isoformat d <> "".
Proof. unfold isoformat. cbn [zpad]. by rewrite append_cons. Qed.

Lemma ascii_role (x : EndpointRole) : ascii_text (value x) = true.
Proof. by destruct x. Qed.
Lemma ascii_message_type (x : MessageType) : ascii_text (value x) = true.
Proof. by destruct x. Qed.

(** Envelopes that the constructor accepted, with ASCII text and a payload that JSON
    can carry. *)
Record envelope_wf (e : Envelope) : Prop := {
  ew_init : Envelope_post_init e = Ok e;
  ew_created : valid_datetime (en_created_at_utc e) = true;
  ew_deadline : forall d, en_deadline_at e = Some d -> valid_datetime d = true;
  ew_version : int_text_ok (en_protocol_version e) = true;
  ew_message : ascii_text (en_message_id e) = true;
  ew_correlation : ascii_text (en_correlation_id e) = true;
  ew_causation : forall c, en_causation_id e = Some c -> ascii_text c = true;
  ew_payload : wf (VDict (en_payload e)) = true
}.

Lemma document_wf e : envelope_wf e -> wf (envelope_document e) = true.
Proof.
  intros []. unfold envelope_document. cbn [wf]. apply andb_true_iff. split.
  { apply bool_decide_eq_true. apply (bool_decide_unpack _). vm_compute. exact I. }
  cbn [forallb fst snd wf] in *. rewrite ew_version0, ew_message0, ew_correlation0, !ascii_role, ascii_message_type,
    ascii_isoformat, ew_payload0.
  assert (wf (vopt (en_causation_id e)) = true) as -> by (destruct (en_causation_id e); [by apply ew_causation0|done]).
  assert (wf (vopt (isoformat <$> en_deadline_at e)) = true) as ->.
  { destruct (en_deadline_at e); [apply ascii_isoformat|done]. }
  done.
Qed.

(** The payload with its keys in order. *)
Definition canon_dict (d : list (string * json)) : list (string * json) :=
  sort_by key_leb ((fun kv => (fst kv, canon (snd kv))) <$> d).

Definition envelope_fields (e : Envelope) : list (string * json) :=
  match envelope_document e with VDict d => d | _ => [] end.

Lemma envelope_keys e : fst <$> envelope_fields e = ENVELOPE_FIELDS.
Proof. done. Qed.

Lemma fields_NoDup : NoDup ENVELOPE_FIELDS.
Proof. apply (bool_decide_unpack _). vm_compute. exact I. Qed.

Lemma fields_complete e :
  forallb (fun f => bool_decide (f ∈ fst <$> canon_dict (envelope_fields e))) ENVELOPE_FIELDS &&
  forallb (fun kv => bool_decide (fst kv ∈ ENVELOPE_FIELDS)) (canon_dict (envelope_fields e)) = true.
Proof.
  assert (fst <$> canon_dict (envelope_fields e) ≡ₚ ENVELOPE_FIELDS) as Hp.
  { unfold canon_dict. rewrite sort_by_perm, <- list_fmap_compose. by rewrite <- (envelope_keys e). }
  apply andb_true_iff. split; apply forallb_forall.
  - intros f Hf%list_elem_of_In. apply bool_decide_eq_true. by rewrite Hp.
  - intros kv Hkv%list_elem_of_In. apply bool_decide_eq_true. rewrite <- Hp. by apply list_elem_of_fmap_2.
Qed.

Lemma field_decoded e k v :
  dict_get k (envelope_fields e) = Some v -> dict_get k (canon_dict (envelope_fields e)) = Some (canon v).
Proof.
  intros H. unfold canon_dict. rewrite dict_get_canon, H; [done|]. rewrite envelope_keys. apply fields_NoDup.
Qed.

Lemma canon_vopt o : canon (vopt o) = vopt o.
Proof. by destruct o. Qed.

Lemma decode_vopt o :
  match canon (vopt o) with VNull => Ok None | VStr s => Ok (Some s) | _ => Err invalid_envelope end = Ok o.
Proof. by destruct o. Qed.

Lemma decode_deadline o :
  (forall d, o = Some d -> valid_datetime d = true) ->
  match isoformat <$> o with
  | None | Some "" => Ok None
  | Some text => Some <$> or_protocol_error "IPC_INVALID_ENVELOPE" (fromisoformat text)
  end = Ok o.
Proof.
  destruct o as [d|]; [|done]. intros Hd. pose proof (isoformat_nonempty d) as Hne.
  pose proof (fromisoformat_isoformat d (Hd d eq_refl)) as Hr. simpl. destruct (isoformat d); [done|]. by rewrite Hr.
Qed.

Lemma post_init_payload e f :
  Envelope_post_init e = Ok e -> Envelope_post_init (e <| en_payload ::= f |>) = Ok (e <| en_payload ::= f |>).
Proof.
  unfold Envelope_post_init. simpl. intros H.
  repeat (apply res_bind_Ok in H as (? & E & H); rewrite E; clear E; cbn [mbind res_bind]). done.
Qed.

(** Decoding the text of an envelope gives the envelope, the keys of the payload in
    order. *)
Lemma envelope_roundtrip e depth :
  envelope_wf e -> (S (nesting (VDict (en_payload e))) <= depth)%nat ->
  exists text, encode_envelope e = Ok text /\
    decode_envelope depth text = Ok (e <| en_payload ::= canon_dict |>).
Proof.
  intros Hwf Hn. destruct (json_roundtrip (envelope_document e) depth) as (text & Ed & El).
  { by apply document_wf. }
  { cbn in Hn |- *. destruct (en_causation_id e), (en_deadline_at e); cbn; lia. }
  exists text. unfold encode_envelope, decode_envelope. rewrite Ed, El. split; [done|].
  change (canon (envelope_document e)) with (VDict (canon_dict (envelope_fields e))). cbv beta iota.
  rewrite fields_complete. unfold require_int, require_str, str_or_null.
  repeat match goal with
    |- context[dict_get ?k (canon_dict (envelope_fields e))] => rewrite (field_decoded e k _ eq_refl) end.
  cbn [canon guard_res mbind res_bind]. rewrite !of_value_value. cbn [or_protocol_error mbind res_bind].
  destruct Hwf as [Hinit Hc Hdl _ _ _ _ _]. rewrite fromisoformat_isoformat, !decode_vopt by done.
  cbn [or_protocol_error mbind res_bind]. rewrite decode_deadline by done. exact (post_init_payload e canon_dict Hinit).
Qed.

(** ** Payloads *)

(** Payload fields that JSON carries as they are. *)
Definition jval_ok (v : jval) : bool :=
  match v with
  | JNull | JBool _ => true
  | JInt n => int_text_ok n
  | JStr s => ascii_text s
  | JFloat _ | JComposite _ => false
  end.

Definition payload_ok (p : payload) : Prop := forall k v, p !! k = Some v -> ascii_text k = true /\ jval_ok v = true.

Lemma jval_roundtrip v : jval_ok v = true -> to_jval (canon (of_jval v)) = v.
Proof. by destruct v. Qed.

Lemma payload_wf p : payload_ok p -> wf (VDict (of_payload p)) = true.
Proof.
  intros Hp. cbn [wf]. apply andb_true_iff. split.
  - apply bool_decide_eq_true. unfold of_payload. rewrite <- list_fmap_compose. apply (NoDup_fst_map_to_list p).
  - apply forallb_forall. intros x Hx%list_elem_of_In. unfold of_payload in Hx.
    apply list_elem_of_fmap in Hx as ([k v] & -> & Hx). apply elem_of_map_to_list in Hx.
    destruct (Hp k v Hx) as [Hk Hv]. simpl. rewrite Hk. by destruct v.
Qed.

Lemma payload_nesting p : payload_ok p -> nesting (VDict (of_payload p)) = 1%nat.
Proof.
  intros Hp. cbn [nesting]. f_equal. apply Nat.le_0_r, list_max_le, List.Forall_forall.
  intros n Hn%list_elem_of_In. apply list_elem_of_fmap in Hn as (x & -> & Hx). unfold of_payload in Hx.
  apply list_elem_of_fmap in Hx as ([k v] & -> & _). by destruct v.
Qed.

Lemma payload_roundtrip p : payload_ok p -> payload_of (canon_dict (of_payload p)) = p.
Proof.
  intros Hp. unfold payload_of, canon_dict, of_payload. rewrite <- list_fmap_compose.
  set (items := _ <$> map_to_list p). set (f := fun kv : string * json => (kv.1, to_jval kv.2)).
  assert (f <$> sort_by key_leb items ≡ₚ map_to_list p) as Hperm.
  { rewrite sort_by_perm. unfold items, f. rewrite <- list_fmap_compose.
    rewrite (list_fmap_ext _ id); [by rewrite list_fmap_id|]. intros i [k v] Hi. simpl.
    assert (p !! k = Some v) as Hk by (apply elem_of_map_to_list; by eapply list_elem_of_lookup_2).
    by rewrite jval_roundtrip by (by eapply Hp). }
  rewrite (list_to_map_proper (f <$> sort_by key_leb items) (map_to_list p)); [apply list_to_map_to_list| |done].
  rewrite Hperm. apply NoDup_fst_map_to_list.
Qed.

(** ** An order command on the wire *)

(** What [submit_order] wrote: nothing, or the frame of its envelope up to the point
    where the socket failed. *)
Lemma submit_order_sent command created x c reply c' :
  submit_order command created x c = (reply, c') ->
  (cl_sent c' = cl_sent c /\ (forall o b r, reply <> SubmissionResult o b r)) \/
  (exists e text frame, e = submit_envelope (cl_role c) created command /\ Envelope_post_init e = Ok e /\
     encode_envelope e = Ok text /\ frame_payload MAX_FRAME_SIZE text = Ok frame /\
     match ex_written x with
     | None => cl_sent c' = cl_sent c +:+ frame /\ (forall code, reply <> WorkerDispatchError code NOT_SENT)
     | Some n => cl_sent c' = cl_sent c +:+ str_take n frame /\
         reply = WorkerDispatchError "IPC_CONNECTION_LOST" POSSIBLY_SENT
     end).
Proof.
  unfold submit_order. destruct (cap_can_submit_orders _); simpl; [|intros [= <- <-]; by left].
  destruct (Envelope_post_init _) as [e|err] eqn:Ei; [|intros [= <- <-]; by left].
  assert (e = submit_envelope (cl_role c) created command) as Ee.
  { unfold Envelope_post_init in Ei. by monad_inv Ei. }
  unfold request. destruct (is_ready c); simpl; [|intros [= <- <-]; by left].
  destruct (0 <? cl_free_slots c); simpl; [|intros [= <- <-]; by left].
  unfold request_with_slot, transport_send. destruct (encode_envelope e) as [text|err] eqn:Et; simpl.
  2:{ unfold encode_envelope in Et. destruct (json_dumps _); [done|]. injection Et as <-.
      intros [= <- <-]. by left. }
  destruct (frame_payload MAX_FRAME_SIZE text) as [frame|err] eqn:Ef; simpl.
  2:{ unfold frame_payload, guard_res in Ef. destruct (negb _), (_ <=? _); simplify_eq/=; intros [= <- <-]; by left. }
  intros H. right. exists e, text, frame. split_and!; [done|congruence|done|done|].
  destruct (ex_written x) as [n|]; [injection H as <- <-; done|].
  destruct (ex_item x) as [|r|]; simpl in H; [injection H as <- <-; done| |injection H as <- <-; done].
  injection H as <- <-. split; [done|]. intros code. destruct (parse_order_response r); [|done].
  by destruct (_ || _).
Qed.

(** When a submission reports that the command was not sent, not a byte of it was
    written to the socket; when it reports a result, the whole frame was written. *)
Lemma submit_order_certainty command created x c reply c' :
  submit_order command created x c = (reply, c') ->
  (forall code, reply = WorkerDispatchError code NOT_SENT -> cl_sent c' = cl_sent c) /\
  (forall o b r, reply = SubmissionResult o b r ->
     exists text frame, encode_envelope (submit_envelope (cl_role c) created command) = Ok text /\
       frame_payload MAX_FRAME_SIZE text = Ok frame /\ cl_sent c' = cl_sent c +:+ frame).
Proof.
  intros [[Hs Hr]|(e & text & frame & -> & _ & Et & Ef & H)]%submit_order_sent.
  - split; [done|]. intros o b r ->. by destruct (Hr o b r).
  - destruct (ex_written x) as [n|]; destruct H as [Hs Hr].
    + subst reply. by split.
    + split; [intros code ->; by destruct (Hr code)|]. intros o b r _. eauto.
Qed.

(** C5: no order is lost on the wire.  When the dispatcher works through the client of
    a worker process and any byte of the command has left the process, then either the
    worker answered with ACCEPTED or REJECTED, or the order is UNKNOWN and the gate
    refuses new orders of that account. *)
Theorem sent_order_is_answered_or_unknown created x client b a t1 t2 c cmd c' :
  dispatch_next (fun command => fst (submit_order command created x client)) b a t1 t2 c = (Ok (Some cmd), c') ->
  dt_leb (oc_deadline_at cmd) t1 = false ->
  cl_sent (snd (submit_order cmd created x client)) <> cl_sent client ->
  (exists o bo rc, o <> WO_TIMEOUT_AFTER_POSSIBLE_SEND /\
     fst (submit_order cmd created x client) = SubmissionResult o bo rc) \/
  ambiguous_effect cmd c'.
Proof.
  intros H Hd Hsent. apply (dispatch_next_effect (fun _ => None)) in H as [_ Hamb]. specialize (Hamb Hd). cbv beta in Hamb.
  destruct (submit_order cmd created x client) as [reply c1] eqn:E. cbn [fst snd] in *.
  destruct (submit_order_certainty _ _ _ _ _ _ E) as [Hns _].
  destruct reply as [o bo rc|code d|]; cbn in Hamb.
  - destruct (decide (o = WO_TIMEOUT_AFTER_POSSIBLE_SEND)) as [->|Ho]; [right; by apply Hamb|left; eauto].
  - right. apply Hamb. destruct d; [|done..]. destruct Hsent. by apply (Hns code).
  - right. by apply Hamb.
Qed.

Lemma submit_envelope_wf role created c :
  payload_ok (OrderCommand_to_payload c) -> valid_datetime created = true ->
  valid_datetime (oc_deadline_at c) = true ->
  Envelope_post_init (submit_envelope role created c) = Ok (submit_envelope role created c) ->
  envelope_wf (submit_envelope role created c).
Proof.
  intros Hp Hc Hd Hi.
  assert (forall k v, OrderCommand_to_payload c !! k = Some (JStr v) -> ascii_text v = true) as Hk.
  { intros k v H. apply (Hp _ _ H). }
  constructor.
  - exact Hi.
  - exact Hc.
  - intros d [= <-]. exact Hd.
  - reflexivity.
  - apply (Hk "message_id"). unfold OrderCommand_to_payload. by rewrite lookup_fields.
  - apply (Hk "correlation_id"). unfold OrderCommand_to_payload. by rewrite lookup_fields.
  - intros k [=].
  - by apply payload_wf.
Qed.

Lemma parse_submitted e command :
  OrderCommand_post_init command = Ok command -> money_ok (oc_amount command) = true ->
  valid_datetime (oc_deadline_at command) = true ->
  en_message_type e = MT_ORDER_SUBMIT -> payload_of (en_payload e) = OrderCommand_to_payload command ->
  en_message_id e = oc_message_id command -> en_correlation_id e = oc_correlation_id command ->
  en_deadline_at e = Some (oc_deadline_at command) -> parse_order_submit e = Ok command.
Proof.
  intros Hi Hm Hd Et Ep Em Ec Ed. unfold parse_order_submit. rewrite Et, Ep, Em, Ec, Ed.
  rewrite OrderCommand_payload_roundtrip by done. cbn [or_protocol_error mbind res_bind].
  rewrite !bool_decide_true, Z.eqb_refl by done. done.
Qed.

(** C20: an order command arrives as it was sent.  When [submit_order] has written a
    frame completely, a receiver whose stream starts with these bytes, split into any
    chunks, receives one envelope, leaves the rest of the stream, and the worker's
    parser returns the very command that was submitted. *)
Theorem sent_command_arrives command created x c reply c' depth conn rest :
  OrderCommand_post_init command = Ok command -> money_ok (oc_amount command) = true ->
  valid_datetime (oc_deadline_at command) = true -> valid_datetime created = true ->
  payload_ok (OrderCommand_to_payload command) -> (2 <= depth)%nat ->
  submit_order command created x c = (reply, c') -> ex_written x = None -> cl_sent c' <> cl_sent c ->
  cl_sent c +:+ stream conn = cl_sent c' +:+ rest ->
  exists e conn', receive depth MAX_FRAME_SIZE conn = Ok (e, conn') /\ stream conn' = rest /\
    parse_order_submit e = Ok command.
Proof.
  intros Hinit Hm Hdl Hcr Hp Hdepth Hs Hx Hsent Hstream.
  apply submit_order_sent in Hs as [[E _]|(e & text & frame & -> & Hi & Et & Ef & H)]; [done|].
  rewrite Hx in H. destruct H as [Hw _]. rewrite Hw, append_assoc in Hstream. apply append_inj_l in Hstream.
  pose proof (submit_envelope_wf _ _ _ Hp Hcr Hdl Hi) as Hwf.
  destruct (envelope_roundtrip _ depth Hwf) as (text' & Et' & Edec).
  { simpl en_payload. rewrite payload_nesting by done. lia. }
  rewrite Et in Et'. injection Et' as <-.
  destruct (proj2 (receive_frame_exact MAX_FRAME_SIZE conn text rest eq_refl)) as (conn' & Hr & Es); [eauto|].
  eexists _, conn'. unfold receive. rewrite Hr. cbn [mbind res_bind]. rewrite Edec. split; [reflexivity|].
  split; [done|]. apply parse_submitted; try done. by apply payload_roundtrip.
Qed.

(** ** The replay guard *)

Section replay.
Variable sha256 : string -> string.

Fixpoint observe_all (es : list Envelope) (g : MessageReplayGuard) : res MessageReplayGuard :=
  match es with
  | [] => Ok g
  | e :: es => '(_, g) ← observe sha256 e g; observe_all es g
  end.

Lemma observe_all_app es1 es2 g :
  observe_all (es1 ++ es2) g = (g ← observe_all es1 g; observe_all es2 g).
Proof.
  revert g. induction es1 as [|e es1 IH]; intros g; [done|]. simpl.
  destruct (observe sha256 e g) as [[b g1]|err]; [|done]. apply IH.
Qed.

(** The entry of [k], at most [n] entries before the end. *)
Definition remembered (k digest : string) (n : nat) (g : MessageReplayGuard) : Prop :=
  NoDup (fst <$> mg_digests g) /\
  exists l1 l2, mg_digests g = l1 ++ (k, digest) :: l2 /\ (length l2 <= n)%nat.

Lemma digest_of_Some k d v : digest_of k d = Some v -> exists l1 l2, d = l1 ++ (k, v) :: l2.
Proof.
  unfold digest_of. destruct (fetchone _ d) as [[k' v']|] eqn:E; [|done]. intros [= <-].
  apply fetchone_Some in E as [Hin Hk]. apply String.eqb_eq in Hk. simpl in *. subst k'.
  by apply list_elem_of_split.
Qed.

Lemma digest_of_None k d : digest_of k d = None -> k ∉ fst <$> d.
Proof.
  unfold digest_of. destruct (fetchone _ d) as [x|] eqn:E; [done|]. intros _ Hin.
  apply list_elem_of_fmap in Hin as (x & -> & Hx). pose proof (fetchone_None _ _ _ E Hx) as H.
  cbv beta in H. by rewrite String.eqb_refl in H.
Qed.

Lemma digest_of_split k v l1 l2 :
  NoDup (fst <$> l1 ++ (k, v) :: l2) -> digest_of k (l1 ++ (k, v) :: l2) = Some v.
Proof.
  intros Hnd. destruct (digest_of k _) as [v'|] eqn:E.
  - apply digest_of_Some in E as (m1 & m2 & E). f_equal.
    enough ((k, v') = (k, v)) as [= ->] by done.
    apply (key_unique fst (l1 ++ (k, v) :: l2)); [done|rewrite E|..]; rewrite ?elem_of_app, ?elem_of_cons; auto.
  - apply digest_of_None in E. destruct E. rewrite fmap_app. apply elem_of_app. right. by left.
Qed.

Lemma select_keeps k (l : list (string * string)) :
  k ∉ fst <$> l -> select (fun x => negb (String.eqb (fst x) k)) l = l /\ select (fun x => String.eqb (fst x) k) l = [].
Proof.
  induction l as [|x l IH]; [done|]. rewrite fmap_cons, not_elem_of_cons. intros [Hne Hl].
  destruct (IH Hl) as [E1 E2]. unfold select in *. simpl.
  destruct (String.eqb_spec (fst x) k); [by subst|]. simpl. by rewrite E1, E2.
Qed.

Lemma select_app {A} (p : A -> bool) l1 l2 : select p (l1 ++ l2) = select p l1 ++ select p l2.
Proof. apply List.filter_app. Qed.

(** The entry of [k] after the move. *)
Lemma move_to_end_split k v l1 l2 :
  NoDup (fst <$> l1 ++ (k, v) :: l2) -> move_to_end k (l1 ++ (k, v) :: l2) = l1 ++ l2 ++ [(k, v)].
Proof.
  intros Hnd. rewrite fmap_app, fmap_cons in Hnd. apply NoDup_app in Hnd as (_ & Hd & Hnd).
  apply NoDup_cons in Hnd as [Hk _].
  assert (k ∉ fst <$> l1) as Hk1 by (intros Hin; apply (Hd k Hin); by left).
  destruct (select_keeps k l1 Hk1) as [E1 E2]. destruct (select_keeps k l2 Hk) as [E3 E4].
  unfold move_to_end. rewrite !select_app. unfold select in *. simpl. rewrite String.eqb_refl. simpl.
  by rewrite E1, E2, E3, E4, <- app_assoc.
Qed.

Lemma observe_inv e g b g' :
  observe sha256 e g = Ok (b, g') ->
  exists text, encode_envelope e = Ok text /\ mg_capacity g' = mg_capacity g /\
    ((exists l1 l2, mg_digests g = l1 ++ (en_message_id e, sha256 text) :: l2 /\
        mg_digests g' = move_to_end (en_message_id e) (mg_digests g)) \/
     ((en_message_id e ∉ (fst <$> mg_digests g)) /\
        mg_digests g' = (let d := mg_digests g ++ [(en_message_id e, sha256 text)] in
                         if mg_capacity g <? Z.of_nat (length d) then drop 1 d else d))).
Proof.
  unfold observe. intros H. apply res_bind_Ok in H as (text & Et & H). exists text. split; [done|].
  destruct (digest_of _ _) as [v|] eqn:Ed.
  - apply res_bind_Ok in H as (u & Hg%guard_res_Ok & [= <- <-]). apply String.eqb_eq in Hg. subst v.
    split; [done|]. left. apply digest_of_Some in Ed as (l1 & l2 & E). eauto.
  - injection H as <- <-. split; [done|]. right. by apply digest_of_None in Ed.
Qed.

Lemma select_key_length k (l : list (string * string)) :
  NoDup (fst <$> l) -> (length (select (fun x => String.eqb (fst x) k) l) <= 1)%nat.
Proof.
  induction l as [|x l IH]; [simpl; lia|]. rewrite fmap_cons, NoDup_cons. intros [Hx Hl]. unfold select in *. simpl.
  destruct (String.eqb_spec (fst x) k) as [<-|]; [|by apply IH]. destruct (select_keeps _ l Hx) as [_ E].
  unfold select in E. by rewrite E.
Qed.

Lemma move_to_end_other k2 x l1 l2 :
  NoDup (fst <$> l1 ++ x :: l2) -> fst x <> k2 ->
  exists l1' l2', move_to_end k2 (l1 ++ x :: l2) = l1' ++ x :: l2' /\ (length l2' <= S (length l2))%nat.
Proof.
  intros Hnd Hne. pose proof (select_key_length k2 _ Hnd) as H1. unfold move_to_end. rewrite select_app.
  set (moved := select (fun y => String.eqb (fst y) k2) _) in *.
  unfold select at 2. simpl. destruct (String.eqb_spec (fst x) k2); [done|]. simpl.
  eexists _, _. split; [rewrite <- app_assoc; reflexivity|]. rewrite length_app.
  pose proof (List.filter_length_le (fun x => negb (String.eqb (fst x) k2)) l2). lia.
Qed.

Lemma move_to_end_perm k l : move_to_end k l ≡ₚ l.
Proof.
  induction l as [|x l IH]; [done|]. unfold move_to_end, select in *. simpl.
  destruct (String.eqb (fst x) k); simpl; [|by rewrite IH].
  by rewrite <- Permutation_middle, IH.
Qed.

Lemma NoDup_drop1 (l : list (string * string)) : NoDup (fst <$> l) -> NoDup (fst <$> drop 1 l).
Proof. destruct l as [|x l]; [done|]. rewrite fmap_cons, NoDup_cons. by intros [_ ?]. Qed.

Lemma observe_NoDup e g b g' :
  observe sha256 e g = Ok (b, g') -> NoDup (fst <$> mg_digests g) -> NoDup (fst <$> mg_digests g').
Proof.
  intros (text & _ & _ & [(_ & _ & _ & ->)|[Hf ->]])%observe_inv Hnd; [by rewrite move_to_end_perm|].
  assert (NoDup (fst <$> mg_digests g ++ [(en_message_id e, sha256 text)])) as Hnd'.
  { rewrite fmap_app. apply NoDup_app. split; [done|]. split; [|by apply NoDup_singleton].
    intros k Hk Hin. apply list_elem_of_singleton in Hin as ->. done. }
  simpl. destruct (_ <? _); [by apply NoDup_drop1|done].
Qed.

(** One more message moves the entry back by at most one place. *)
Lemma observe_remembers k digest n e g b g' :
  remembered k digest n g -> Z.of_nat (S n) < mg_capacity g -> observe sha256 e g = Ok (b, g') ->
  remembered k digest (S n) g'.
Proof.
  intros [Hnd (l1 & l2 & E & Hl)] Hcap Hobs. split; [by eapply observe_NoDup|].
  apply observe_inv in Hobs as (text & _ & _ & [(_ & _ & _ & ->)|[Hf ->]]); rewrite E in *.
  - destruct (decide (en_message_id e = k)) as [->|Hne].
    + rewrite move_to_end_split by done. exists (l1 ++ l2), []. rewrite <- app_assoc. split; [done|simpl; lia].
    + destruct (move_to_end_other (en_message_id e) (k, digest) l1 l2 Hnd) as (l1' & l2' & -> & Hl'); [done|].
      exists l1', l2'. split; [done|lia].
  - rewrite <- app_assoc. cbn [app]. rewrite length_app. cbn [length]. rewrite length_app. cbn [length].
    destruct (Z.ltb_spec (mg_capacity g) (Z.of_nat (length l1 + S (length l2 + 1)))) as [Hlt|]; cbv zeta.
    + destruct l1 as [|y l1]; [simpl in Hlt; lia|].
      exists l1, (l2 ++ [(en_message_id e, sha256 text)]). split; [done|]. rewrite length_app. simpl. lia.
    + exists l1, (l2 ++ [(en_message_id e, sha256 text)]). split; [done|]. rewrite length_app. simpl. lia.
Qed.

Lemma observe_all_remembers k digest es n g g' :
  remembered k digest n g -> Z.of_nat (n + length es) < mg_capacity g -> observe_all es g = Ok g' ->
  remembered k digest (n + length es) g' /\ mg_capacity g' = mg_capacity g.
Proof.
  revert n g. induction es as [|e es IH]; intros n g Hr Hc H; simpl in *.
  - injection H as <-. by rewrite Nat.add_0_r.
  - apply res_bind_Ok in H as ([b g1] & Ho & H).
    assert (mg_capacity g1 = mg_capacity g) as Ec by (apply observe_inv in Ho as (? & _ & ? & _); done).
    apply (observe_remembers k digest n) in Ho; [|done|lia]. rewrite Nat.add_succ_r, <- Nat.add_succ_l.
    rewrite <- Ec. apply IH; [done|lia|done].
Qed.

Lemma observe_all_NoDup es g g' :
  observe_all es g = Ok g' -> NoDup (fst <$> mg_digests g) ->
  NoDup (fst <$> mg_digests g') /\ mg_capacity g' = mg_capacity g.
Proof.
  revert g. induction es as [|e es IH]; intros g H Hnd; simpl in H; [by injection H as <-|].
  apply res_bind_Ok in H as ([b g1] & Ho & H).
  assert (mg_capacity g1 = mg_capacity g) as <- by (apply observe_inv in Ho as (? & _ & ? & _); done).
  apply IH; [done|]. by eapply observe_NoDup.
Qed.

(** The message that was observed last is at the end. *)
Lemma observe_remembered e g b g' text :
  NoDup (fst <$> mg_digests g) -> 1 <= mg_capacity g -> observe sha256 e g = Ok (b, g') ->
  encode_envelope e = Ok text -> remembered (en_message_id e) (sha256 text) 0 g'.
Proof.
  intros Hnd Hc Ho Et. split; [by eapply observe_NoDup|].
  apply observe_inv in Ho as (text' & Et' & _ & [(l1 & l2 & E & ->)|[Hf ->]]); rewrite Et in Et'; injection Et' as <-.
  - rewrite E in *. rewrite move_to_end_split by done. exists (l1 ++ l2), []. by rewrite <- app_assoc.
  - cbv zeta. destruct (mg_digests g) as [|y l]; simpl.
    + destruct (Z.ltb_spec (mg_capacity g) (Z.of_nat 1)); [lia|]. by exists [], [].
    + destruct (_ <? _); [by exists l, []|by exists (y :: l), []].
Qed.

(** A replayed message is recognised.  After any history of messages that ends with
    [e] and fewer than [capacity] others, [e] is reported as a repetition, and a
    different message under the identifier of [e] is refused as a conflict. *)
Theorem replay_is_recognised capacity g0 es0 e es g text :
  new_MessageReplayGuard capacity = Ok g0 -> encode_envelope e = Ok text ->
  observe_all (es0 ++ e :: es) g0 = Ok g -> Z.of_nat (length es) < capacity ->
  (exists g', observe sha256 e g = Ok (false, g')) /\
  (forall e' text', en_message_id e' = en_message_id e -> encode_envelope e' = Ok text' ->
     sha256 text' <> sha256 text ->
     observe sha256 e' g = Err (ProtocolError "IPC_MESSAGE_REPLAY_CONFLICT")).
Proof.
  unfold new_MessageReplayGuard. intros H0 Et H Hlen. apply res_bind_Ok in H0 as (u & Hc%guard_res_Ok & [= <-]).
  rewrite observe_all_app in H. apply res_bind_Ok in H as (g1 & H1 & H).
  apply observe_all_NoDup in H1 as [Hnd Ec]; [|by constructor]. simpl in Ec, H.
  apply res_bind_Ok in H as ([b g2] & Ho & H).
  assert (mg_capacity g2 = capacity) as Ec2 by (apply observe_inv in Ho as (? & _ & ? & _); congruence).
  apply (observe_remembered e g1 b g2 text) in Ho; [|done|lia|done].
  eapply observe_all_remembers in H as [[Hnd' (l1 & l2 & E & _)] _]; [|done|simpl; lia].
  split.
  - eexists. unfold observe. rewrite Et. simpl. rewrite E, digest_of_split by (by rewrite <- E).
    by rewrite String.eqb_refl.
  - intros e' text' Eid Et' Hne. unfold observe. rewrite Et'. simpl. rewrite Eid, E, digest_of_split by (by rewrite <- E).
    destruct (String.eqb_spec (sha256 text) (sha256 text')); [congruence|done].
Qed.
End replay.

(** ** Samples *)

Module Wire.
Import WriterProps.Sample.

Definition sent : OrderCommand := command 100 "A1" "m1" "i1" "o1".
Definition capabilities : WorkerCapabilities :=
  mk_WorkerCapabilities "DERIV" ["DEMO"] ["DIGITEVEN"] true false true "1" true true false None.
Definition connected : client := mk_client capabilities ER_DERIV_WORKER true false 8 "".

Definition accepted_response : Envelope :=
  mk_Envelope PROTOCOL_VERSION "r1" "corr" (Some "m1") ER_DERIV_WORKER ER_CORE MT_ORDER_ACCEPTED (at_ 1) None
    [("order_id", VStr "o1"); ("broker_order_id", VStr "B1")].

Definition answered : exchange := mk_exchange None (Response accepted_response).
Definition broken : exchange := mk_exchange (Some 7%nat) NoResponse.

(** One byte at a time. *)
Definition trickle (s : string) : connection := (fun c => Chunk (String c "")) <$> String.list_ascii_of_string s.

Definition tick (id : string) : Envelope :=
  mk_Envelope PROTOCOL_VERSION id "corr" None ER_DERIV_WORKER ER_CORE MT_MARKET_TICK_EVENT (at_ 1) None [].
End Wire.

Import WriterProps.Sample Wire.

Lemma payload_ok_check p :
  bool_decide (map_Forall (fun k v => ascii_text k = true /\ jval_ok v = true) p) = true -> payload_ok p.
Proof. intros H%bool_decide_eq_true k v. apply (H k v). Qed.

Lemma frames_are_exact_witness :
  exists conn', receive_frame MAX_FRAME_SIZE (trickle (pack 2 +:+ "hi" +:+ "rest")) = Ok ("hi", conn') /\
    stream conn' = "rest".
Proof.
  apply (frames_are_exact MAX_FRAME_SIZE _ "hi" "rest"); [reflexivity|].
  exists (pack 2 +:+ "hi"). split; reflexivity.
Defined.

Lemma sent_order_is_answered_or_unknown_witness :
  ambiguous_effect sent
    (snd (dispatch_next (fun command => fst (submit_order command (at_ 0) broken connected)) None None
            (at_ 1) (at_ 2) (core_on two_pending))).
Proof.
  destruct (sent_order_is_answered_or_unknown (at_ 0) broken connected None None (at_ 1) (at_ 2)
    (core_on two_pending) sent _ ltac:(vm_compute; reflexivity) ltac:(reflexivity) ltac:(vm_compute; discriminate))
    as [(o & bo & rc & _ & E)|H]; [|exact H].
  vm_compute in E. discriminate E.
Defined.

Lemma sent_command_arrives_witness :
  let c' := (submit_order sent (at_ 0) answered connected).2 in
  exists e conn', receive 2 MAX_FRAME_SIZE (trickle (cl_sent c')) = Ok (e, conn') /\ stream conn' = "" /\
    parse_order_submit e = Ok sent.
Proof.
  cbv zeta. destruct (submit_order sent (at_ 0) answered connected) as [reply c'] eqn:E.
  assert (c' = (submit_order sent (at_ 0) answered connected).2) as Ec by (by rewrite E).
  apply (sent_command_arrives sent (at_ 0) answered connected reply c' 2 (trickle (cl_sent c')) "");
    try (vm_compute; reflexivity); [|exact E|..].
  - apply payload_ok_check. vm_compute. reflexivity.
  - rewrite Ec. vm_compute. discriminate.
  - rewrite Ec. vm_compute. reflexivity.
Defined.

Definition length_digest (s : string) : string := encode_int (Z.of_nat (String.length s)) EmptyString.

Lemma replay_is_recognised_witness :
  exists g, (g0 ← new_MessageReplayGuard 2; observe_all length_digest [tick "a"; tick "b"; tick "c"] g0) = Ok g /\
    (exists g', observe length_digest (tick "b") g = Ok (false, g')) /\
    observe length_digest ((tick "b") <| en_correlation_id := "other" |>) g =
      Err (ProtocolError "IPC_MESSAGE_REPLAY_CONFLICT").
Proof.
  eexists. split; [vm_compute; reflexivity|].
  edestruct (replay_is_recognised length_digest 2 (mk_MessageReplayGuard 2 []) [tick "a"] (tick "b") [tick "c"]) as [H1 H2];
    [vm_compute; reflexivity|vm_compute; reflexivity|vm_compute; reflexivity|vm_compute; reflexivity|].
  split; [exact H1|]. eapply H2; [reflexivity|vm_compute; reflexivity|vm_compute; discriminate].
Defined.

(** Valid JSON that nests deeper than the interpreter's recursion limit makes the decoder raise
    [RecursionError] (a [RuntimeError]), and an integer of more than 4300 digits [ValueError]; neither is the
    [ProtocolError] that the callers of [receive] expect. *)
Example deep_nesting_escapes_the_decoder :
  decode_envelope 3 "[[[[]]]]" = Err (RuntimeError "maximum recursion depth exceeded").
Proof. vm_compute. reflexivity. Qed.
