(* ===== verification/PyFloat.v ===== *)
(** * Python's [float]

    IEEE 754 binary64 with round to nearest even, by the executable specification of
    the Standard Library. *)

From S2P Require Import Prelude Dec.
From Stdlib Require Import SpecFloat.

Abbreviation float := spec_float.

Definition fadd (x y : float) : float := SFadd 53 1024 x y.
Definition fsub (x y : float) : float := SFsub 53 1024 x y.
Definition fmul (x y : float) : float := SFmul 53 1024 x y.
Definition fdiv (x y : float) : float := SFdiv 53 1024 x y.

(** Comparisons with a NaN are false. *)
Definition fltb (x y : float) : bool := SFltb x y.
Definition fleb (x y : float) : bool := SFleb x y.
Definition feqb (x y : float) : bool := SFeqb x y.

Definition float_of_Z (n : Z) : float := binary_normalize 53 1024 n 0 false.

Definition float_is_finite (x : float) : bool :=
  match x with S754_zero _ | S754_finite _ _ _ => true | _ => false end.

#[export] Instance float_eq_dec : EqDecision float.
Proof. solve_decision. Defined.

(** ** Conversions *)

(** [n / d] on integers, [0 < d], correctly rounded: a quotient of at least 63 bits
    with a sticky bit, then rounded to 53. *)
Definition float_of_ratio (n d : Z) : float :=
  let a := Z.abs n in
  let s := Z.max 0 (64 + Z.log2 d - Z.log2 a) in
  let q := (a * 2 ^ s) / d in
  let sticky := if (a * 2 ^ s) mod d =? 0 then 0 else 1 in
  binary_normalize 53 1024 (Z.sgn n * (2 * q + sticky)) (- s - 1) false.

(** [n / d] raises when the quotient is out of range. *)
Definition int_truediv (n d : Z) : res float :=
  match float_of_ratio n d with
  | S754_infinity _ => Err OverflowError
  | x => Ok x
  end.

(** [int(x)] of a finite [x] *)
Definition float_trunc (x : float) : Z :=
  match x with
  | S754_finite s m e =>
      (if s then -1 else 1) * (if 0 <=? e then Zpos m * 2 ^ e else Zpos m / 2 ^ (- e))
  | _ => 0
  end.

(** The decimals of [k] digits next to [num / den], where [10^E <= num / den < 10^(E+1)],
    that are read back as [x]; the closer one first. *)
Definition repr_candidates (x : float) (num den E k : Z) : list dec :=
  let e := E - k + 1 in
  let '(n, d) := if 0 <=? e then (num, den * 10 ^ e) else (num * 10 ^ (- e), den) in
  let lo := n / d in
  let r := n mod d in
  let near := if r =? 0 then [lo]
              else match 2 * r ?= d with
                   | Lt => [lo; lo + 1]
                   | Gt => [lo + 1; lo]
                   | Eq => if Z.even lo then [lo; lo + 1] else [lo + 1; lo]
                   end in
  let read c := if 0 <=? e then float_of_ratio (c * 10 ^ e) 1 else float_of_ratio c (10 ^ (- e)) in
  (fun c => mk_dec c e) <$> List.filter (fun c => bool_decide (read c = x)) near.

(** [Decimal(repr(x))] of a finite [x]: the shortest decimal that is read back as [x];
    17 digits are always enough. *)
Definition decimal_of_repr (x : float) : dec :=
  match x with
  | S754_finite s m e =>
      let '(num, den) := if 0 <=? e then (Zpos m * 2 ^ e, 1) else (Zpos m, 2 ^ (- e)) in
      let E := if den <=? num then ndigits (num / den) - 1 else - ndigits ((den - 1) / num) in
      let d := default (mk_dec 0 0)
        (head (concat (repr_candidates (S754_finite false m e) num den E <$> seqZ 1 17))) in
      mk_dec ((if s then -1 else 1) * coef d) (dexp d)
  | _ => mk_dec 0 (-1)
  end.

Example repr_of_cents :
  (fun n => decimal_of_repr (float_of_ratio n 100)) <$> [35; -129; 100; 123456789]
  = [mk_dec 35 (-2); mk_dec (-129) (-2); mk_dec 1 0; mk_dec 123456789 (-2)].
Proof. vm_compute. reflexivity. Qed.
