(* ===== verification/Breaker.v ===== *)
(** * Circuit breakers

    [apps/core/resilience/circuit_breakers.py].  A reading of the monotonic clock is an
    argument of every operation that takes one; the lock makes the operations atomic. *)

From S2P Require Import Prelude Domain PyFloat.

Inductive CircuitState : Type := CLOSED | OPEN | HALF_OPEN.
Inductive WindowMode : Type := WM_COUNT | WM_TIME.

#[export] Instance CircuitState_eq_dec : EqDecision CircuitState.
Proof. solve_decision. Defined.
#[export] Instance WindowMode_eq_dec : EqDecision WindowMode.
Proof. solve_decision. Defined.

Definition WindowMode_of (s : string) : res WindowMode :=
  if String.eqb s "COUNT" then Ok WM_COUNT
  else if String.eqb s "TIME" then Ok WM_TIME
  else Err (ValueError "not a valid WindowMode").

Record CircuitStats : Type := mk_CircuitStats {
  cs_state : CircuitState; cs_failures : Z; cs_successes : Z; cs_samples : Z;
  cs_opened_at : option float; cs_next_probe_at : option float
}.

Record CircuitBreaker : Type := mk_CircuitBreaker {
  cb_failure_threshold : Z; cb_recovery_timeout : float; cb_window_size : Z;
  cb_window_seconds : float; cb_window_mode : WindowMode; cb_minimum_samples : Z;
  cb_state : CircuitState; cb_opened_at : option float; cb_half_open_probe_active : bool;
  cb_events : list (float * bool)
}.

#[export] Instance CircuitBreaker_eta : Eta CircuitBreaker := fun b =>
  mk_CircuitBreaker (cb_failure_threshold b) (cb_recovery_timeout b) (cb_window_size b)
    (cb_window_seconds b) (cb_window_mode b) (cb_minimum_samples b) (cb_state b) (cb_opened_at b)
    (cb_half_open_probe_active b) (cb_events b).

(** [__init__] *)
Definition new_CircuitBreaker (failure_threshold : Z) (recovery_timeout : float) (window_size : Z)
    (window_seconds : float) (window_mode : string) (minimum_samples : Z) : res CircuitBreaker :=
  _ ← guard_res ((1 <=? failure_threshold) && (failure_threshold <=? 10000))
        (ValueError "failure_threshold must be between 1 and 10000");
  _ ← guard_res ((1 <=? minimum_samples) && (minimum_samples <=? window_size) && (window_size <=? 100000))
        (ValueError "window sample limits are invalid");
  _ ← guard_res (negb (fleb recovery_timeout (float_of_Z 0) || fleb window_seconds (float_of_Z 0)))
        (ValueError "circuit durations must be positive");
  mode ← WindowMode_of window_mode;
  Ok (mk_CircuitBreaker failure_threshold recovery_timeout window_size window_seconds mode minimum_samples
        CLOSED None false []).

Definition new_ConnectionBreaker : res CircuitBreaker :=
  new_CircuitBreaker 3 (float_of_Z 300) 20 (float_of_Z 60) "COUNT" 1.
Definition new_OrderSubmitBreaker : res CircuitBreaker :=
  new_CircuitBreaker 2 (float_of_Z 60) 20 (float_of_Z 60) "COUNT" 1.
Definition new_AuthBreaker : res CircuitBreaker :=
  new_CircuitBreaker 3 (float_of_Z 120) 20 (float_of_Z 60) "COUNT" 1.

(** [_open] *)
Definition open_circuit (now : float) (b : CircuitBreaker) : CircuitBreaker :=
  b <| cb_state := OPEN |> <| cb_opened_at := Some now |> <| cb_half_open_probe_active := false |>.

(** [_advance_open_state] *)
Definition advance_open_state (now : float) (b : CircuitBreaker) : CircuitBreaker :=
  match cb_state b, cb_opened_at b with
  | OPEN, Some opened_at =>
      if fleb (cb_recovery_timeout b) (fsub now opened_at)
      then b <| cb_state := HALF_OPEN |> <| cb_half_open_probe_active := false |> else b
  | _, _ => b
  end.

(** The loop of [_prune]. *)
Fixpoint drop_before (cutoff : float) (l : list (float * bool)) : list (float * bool) :=
  match l with
  | [] => []
  | x :: rest => if fltb (fst x) cutoff then drop_before cutoff rest else l
  end.

Definition prune (now : float) (b : CircuitBreaker) : CircuitBreaker :=
  match cb_window_mode b with
  | WM_TIME => b <| cb_events ::= drop_before (fsub now (cb_window_seconds b)) |>
  | WM_COUNT => b
  end.

Definition add_event (now : float) (success : bool) (b : CircuitBreaker) : CircuitBreaker :=
  b <| cb_events ::= deque_append (cb_window_size b) (now, success) |>.

Definition failures (b : CircuitBreaker) : Z := rowcount (fun x => negb (snd x)) (cb_events b).

(** The property [state]. *)
Definition get_state (now : float) (b : CircuitBreaker) : CircuitState * CircuitBreaker :=
  let b := advance_open_state now b in (cb_state b, b).

Definition can_execute (now : float) (b : CircuitBreaker) : bool * CircuitBreaker :=
  let b := advance_open_state now (prune now b) in
  match cb_state b with
  | CLOSED => (true, b)
  | HALF_OPEN => if negb (cb_half_open_probe_active b)
                 then (true, b <| cb_half_open_probe_active := true |>) else (false, b)
  | OPEN => (false, b)
  end.

Definition record_success (now : float) (b : CircuitBreaker) : CircuitBreaker :=
  let b := match cb_state b with
           | HALF_OPEN => b <| cb_state := CLOSED |> <| cb_opened_at := None |>
                            <| cb_half_open_probe_active := false |> <| cb_events := [] |>
           | _ => b
           end in
  prune now (add_event now true b).

Definition record_failure (now : float) (b : CircuitBreaker) : CircuitBreaker :=
  match cb_state b with
  | HALF_OPEN => open_circuit now b
  | _ =>
      let b := prune now (add_event now false b) in
      if (cb_minimum_samples b <=? Z.of_nat (length (cb_events b))) && (cb_failure_threshold b <=? failures b)
      then open_circuit now b else b
  end.

Definition get_stats (now : float) (b : CircuitBreaker) : CircuitStats * CircuitBreaker :=
  let b := advance_open_state now (prune now b) in
  let samples := Z.of_nat (length (cb_events b)) in
  (mk_CircuitStats (cb_state b) (failures b) (samples - failures b) samples (cb_opened_at b)
     ((fun t => fadd t (cb_recovery_timeout b)) <$> cb_opened_at b), b).

(** ** Histories *)

Inductive call : Type := GetState | CanExecute | RecordSuccess | RecordFailure | GetStats.

(** One call with its clock reading; [Some] is the answer of [can_execute]. *)
Definition run_call (c : call) (now : float) (b : CircuitBreaker) : option bool * CircuitBreaker :=
  match c with
  | GetState => (None, snd (get_state now b))
  | CanExecute => let '(r, b) := can_execute now b in (Some r, b)
  | RecordSuccess => (None, record_success now b)
  | RecordFailure => (None, record_failure now b)
  | GetStats => (None, snd (get_stats now b))
  end.

Fixpoint run_calls (l : list (call * float)) (b : CircuitBreaker) : list bool * CircuitBreaker :=
  match l with
  | [] => ([], b)
  | (c, now) :: l =>
      let '(r, b) := run_call c now b in
      let '(rs, b) := run_calls l b in
      (match r with Some r => r :: rs | None => rs end, b)
  end.

(** ** The window *)

Lemma drop_before_suffix cutoff l : exists k, drop_before cutoff l = drop k l.
Proof.
  induction l as [|x l [k IH]]; simpl; [by exists 0%nat|]. destruct (fltb _ _); [by exists (S k)|by exists 0%nat].
Qed.

(** The fields that no call changes. *)
Definition limits (b : CircuitBreaker) :=
  (cb_failure_threshold b, cb_recovery_timeout b, cb_window_size b, cb_window_seconds b, cb_window_mode b,
   cb_minimum_samples b).

(** What holds of a breaker between calls. *)
Definition breaker_ok (b : CircuitBreaker) : Prop :=
  1 <= cb_window_size b /\ Z.of_nat (length (cb_events b)) <= cb_window_size b /\
  (cb_state b = CLOSED <-> cb_opened_at b = None) /\
  (cb_half_open_probe_active b = true -> cb_state b = HALF_OPEN).

Lemma advance_limits now b : limits (advance_open_state now b) = limits b.
Proof. unfold advance_open_state. by repeat case_match. Qed.
Lemma prune_limits now b : limits (prune now b) = limits b.
Proof. unfold prune. by case_match. Qed.

Lemma run_call_limits c now b : limits (snd (run_call c now b)) = limits b.
Proof.
  destruct c; simpl; [apply advance_limits|..|unfold get_stats; simpl; by rewrite advance_limits, prune_limits].
  - unfold can_execute. rewrite <- (prune_limits now b), <- (advance_limits now (prune now b)).
    destruct (cb_state _); [done..|]. by destruct (negb _).
  - unfold record_success. rewrite prune_limits. by destruct (cb_state b).
  - assert (limits (prune now (add_event now false b)) = limits b) as E by (by rewrite prune_limits).
    unfold record_failure. destruct (cb_state b); [| |done]; by destruct (_ && _).
Qed.

Lemma advance_ok now b : breaker_ok b -> breaker_ok (advance_open_state now b).
Proof.
  intros (H1 & H2 & H3 & H4). unfold advance_open_state.
  destruct (cb_state b) eqn:Es, (cb_opened_at b) eqn:Eo; try done; try (by split_and!; rewrite ?Es, ?Eo).
  case_match; split_and!; simpl; rewrite ?Es, ?Eo; try done; lia.
Qed.

Lemma prune_ok now b : breaker_ok b -> breaker_ok (prune now b).
Proof.
  intros (H1 & H2 & H3 & H4). unfold prune. case_match; [done|]. split_and!; try done; simpl.
  destruct (drop_before_suffix (fsub now (cb_window_seconds b)) (cb_events b)) as [k ->]. rewrite length_drop. lia.
Qed.

Lemma add_event_ok now s b : breaker_ok b -> breaker_ok (add_event now s b).
Proof.
  intros (H1 & H2 & H3 & H4). split_and!; try done; simpl.
  destruct (length_deque_append (cb_window_size b) (now, s) (cb_events b)); [done|lia..].
Qed.

Lemma run_call_ok c now b : breaker_ok b -> breaker_ok (snd (run_call c now b)).
Proof.
  intros Hb. destruct c; simpl; [by apply advance_ok|..|by apply advance_ok, prune_ok].
  - pose proof (advance_ok now _ (prune_ok now _ Hb)) as Hb'. unfold can_execute.
    destruct (cb_state _) eqn:Es; try done. destruct (negb _); [|done]. destruct Hb' as (? & ? & ? & ?). by split_and!.
  - apply prune_ok, add_event_ok. destruct (cb_state b) eqn:Es; try done.
    destruct Hb as (? & ? & ? & ?). split_and!; simpl; try done. lia.
  - assert (forall b, breaker_ok b -> breaker_ok (open_circuit now b)) as Ho.
    { intros b' (? & ? & ? & ?). by split_and!. }
    unfold record_failure. pose proof (prune_ok now _ (add_event_ok now false _ Hb)).
    destruct (cb_state b); try case_match; auto.
Qed.

Lemma run_calls_ok l b : breaker_ok b -> breaker_ok (snd (run_calls l b)) /\ limits (snd (run_calls l b)) = limits b.
Proof.
  revert b. induction l as [|[c now] l IH]; intros b Hb; simpl; [done|].
  pose proof (run_call_ok c now b Hb) as Hb'. pose proof (run_call_limits c now b) as El.
  destruct (run_call c now b) as [r b']. specialize (IH b' Hb').
  destruct (run_calls l b') as [rs b'']. simpl in *. rewrite <- El. done.
Qed.

Lemma new_breaker_ok t rt w ws mode ms b :
  new_CircuitBreaker t rt w ws mode ms = Ok b ->
  breaker_ok b /\ cb_state b = CLOSED /\ cb_events b = [] /\
  (cb_failure_threshold b, cb_window_size b, cb_minimum_samples b) = (t, w, ms) /\ 1 <= t /\
  WindowMode_of mode = Ok (cb_window_mode b).
Proof.
  unfold new_CircuitBreaker. intros H. repeat (apply res_bind_Ok in H as (? & ?%guard_res_Ok & H)).
  apply res_bind_Ok in H as (m & Em & [= <-]). simpl. repeat match goal with H : _ && _ = true |- _ => apply andb_true_iff in H as [? ?] end.
  repeat match goal with H : (_ <=? _) = true |- _ => apply Z.leb_le in H end.
  split; [|done]. split_and!; simpl; try done; lia.
Qed.

(** ** Probes *)

Definition records (c : call) : bool := match c with RecordSuccess | RecordFailure => true | _ => false end.

(** The reading [now] is late enough for a probe after [t]. *)
Definition late (b : CircuitBreaker) (t now : float) : bool := fleb (cb_recovery_timeout b) (fsub now t).

(** The probe has been admitted. *)
Definition spent (b : CircuitBreaker) : Prop := cb_state b = HALF_OPEN /\ cb_half_open_probe_active b = true.

Lemma prune_control now b :
  (cb_state (prune now b), cb_opened_at (prune now b), cb_half_open_probe_active (prune now b),
   cb_recovery_timeout (prune now b)) =
  (cb_state b, cb_opened_at b, cb_half_open_probe_active b, cb_recovery_timeout b).
Proof. unfold prune. by destruct (cb_window_mode b). Qed.

(** What a call that records nothing does to a breaker that is not CLOSED. *)
Definition waits (now : float) (b : CircuitBreaker) (admitted : bool) (b' : CircuitBreaker) : Prop :=
  cb_state b' <> CLOSED /\ cb_opened_at b' = cb_opened_at b /\
  cb_recovery_timeout b' = cb_recovery_timeout b /\
  (spent b -> admitted = false /\ spent b') /\
  (admitted = true -> spent b') /\
  (cb_state b = OPEN ->
     (cb_state b' = OPEN /\ admitted = false) \/ exists t, cb_opened_at b = Some t /\ late b t now = true).

Lemma advance_waits now b : cb_state b <> CLOSED -> waits now b false (advance_open_state now b).
Proof.
  intros Hb. unfold waits, advance_open_state, late, spent.
  destruct (cb_state b) eqn:Es, (cb_opened_at b) as [t|] eqn:Eo; try done; try (rewrite Es; naive_solver).
  destruct (fleb _ _) eqn:El; simpl; rewrite ?Es, ?Eo; naive_solver.
Qed.

Lemma prune_waits now b a b' : waits now (prune now b) a b' -> waits now b a b'.
Proof.
  unfold waits, spent, late. pose proof (prune_control now b) as E. injection E as E1 E2 E3 E4.
  by rewrite E1, E2, E3, E4.
Qed.

Lemma read_call_waits c now b :
  records c = false -> cb_state b <> CLOSED ->
  waits now b (default false (fst (run_call c now b))) (snd (run_call c now b)).
Proof.
  intros Hc Hb.
  assert (cb_state (prune now b) <> CLOSED) as Hp by (pose proof (prune_control now b); congruence).
  pose proof (prune_waits now b _ _ (advance_waits now _ Hp)) as Hw.
  destruct c; try done; simpl; [by apply advance_waits|..]. unfold can_execute.
  set (b1 := advance_open_state now (prune now b)) in *. destruct (cb_state b1) eqn:Es; simpl; [|done|].
  { by destruct Hw as [? _]. }
  destruct (cb_half_open_probe_active b1) eqn:Ep; simpl; [done|].
  destruct Hw as (_ & H2 & H3 & H4 & _ & H6). split_and!; simpl; try done; [by rewrite Es|..].
  - intros Hs. destruct (H4 Hs) as (_ & _ & Hp'). congruence.
  - intros Ho. destruct (H6 Ho) as [[? _]|?]; [congruence|auto].
Qed.

Lemma spent_refuses l b :
  spent b -> forallb (fun x => negb (records (fst x))) l = true -> true ∉ fst (run_calls l b).
Proof.
  revert b. induction l as [|[c now] l IH]; intros b Hb Hl; simpl; [by apply not_elem_of_nil|].
  simpl in Hl. apply andb_true_iff in Hl as [Hc%negb_true_iff Hl].
  pose proof (read_call_waits c now b Hc) as Hw. destruct (run_call c now b) as [r b1].
  destruct Hw as (_ & _ & _ & Hs & _); [by destruct Hb as [-> _]|]. destruct (Hs Hb) as [Hr Hb1].
  specialize (IH b1 Hb1 Hl). destruct (run_calls l b1) as [rs b2]. destruct r as [[]|]; simpl in *; [done|..|done].
  by rewrite elem_of_cons; intros [?|?].
Qed.

(** A breaker that is not CLOSED admits at most one call until a result is
    recorded, does not close by itself, and when it is OPEN admits that call only after
    the recovery timeout. *)
Theorem open_breaker_admits_one_probe l b rs b' :
  run_calls l b = (rs, b') -> cb_state b <> CLOSED ->
  forallb (fun x => negb (records (fst x))) l = true ->
  cb_state b' <> CLOSED /\ rowcount id rs <= 1 /\
  (cb_state b = OPEN -> true ∈ rs ->
     exists t now, cb_opened_at b = Some t /\ now ∈ snd <$> l /\
       fleb (cb_recovery_timeout b) (fsub now t) = true).
Proof.
  revert b rs b'. induction l as [|[c now] l IH]; intros b rs b' Hrun Hb Hl; simpl in Hrun.
  { injection Hrun as <- <-. split; [done|]. split; [done|]. intros _ []%not_elem_of_nil. }
  simpl in Hl. apply andb_true_iff in Hl as [Hc%negb_true_iff Hl].
  pose proof (read_call_waits c now b Hc Hb) as Hw. destruct (run_call c now b) as [r b1].
  destruct Hw as (Hb1 & Eo & Et & _ & Ha & Hopen). simpl in *.
  pose proof (spent_refuses l b1) as Hsp. destruct (run_calls l b1) as [rs1 b2] eqn:E.
  injection Hrun as <- <-. destruct (IH b1 rs1 b2 E Hb1 Hl) as (H1 & H2 & H3). split; [done|]. split.
  - destruct r as [[]|]; [|done..]. specialize (Hsp (Ha eq_refl) Hl). unfold rowcount, select in *. simpl in *.
    destruct (List.filter id rs1) as [|x f] eqn:Ef; [simpl; lia|]. exfalso. apply Hsp.
    assert (x ∈ select id rs1) as [Hx Ex]%elem_of_select by (unfold select; rewrite Ef; by left). by destruct x.
  - intros Hop Hin. destruct (Hopen Hop) as [[Hop1 Hr]|(t & Et' & Hlate)].
    + assert (true ∈ rs1) as Hin1 by (destruct r as [[]|]; [done| |done]; by apply elem_of_cons in Hin as [?|?]).
      destruct (H3 Hop1 Hin1) as (t & n & E1 & E2 & E3). exists t, n. rewrite <- Eo, <- Et. by split_and!; [|right|].
    + exists t, now. split_and!; [done|by left|done].
Qed.

(** ** The threshold *)

(** What the breaker is told. *)
Definition outcomes (os : list (float * bool)) : list (call * float) :=
  (fun x : float * bool => (if snd x then RecordSuccess else RecordFailure, fst x)) <$> os.

Lemma run_calls_snoc l c now b :
  snd (run_calls (l ++ [(c, now)]) b) = snd (run_call c now (snd (run_calls l b))).
Proof.
  revert b. induction l as [|[c1 n1] l IH]; intros b; simpl; [by destruct (run_call c now b)|].
  destruct (run_call c1 n1 b) as [r b1]. specialize (IH b1).
  destruct (run_calls (l ++ [(c, now)]) b1), (run_calls l b1). done.
Qed.

(** The window of the last outcomes has enough samples and enough failures. *)
Definition trips (b : CircuitBreaker) (os : list (float * bool)) : bool :=
  let window := last_n (Z.to_nat (cb_window_size b)) os in
  (cb_minimum_samples b <=? Z.of_nat (length window)) &&
  (cb_failure_threshold b <=? rowcount (fun x => negb (snd x)) window).

Definition tripped (b : CircuitBreaker) (os : list (float * bool)) : Prop :=
  exists p now q, os = p ++ (now, false) :: q /\ trips b (p ++ [(now, false)]) = true.

Lemma tripped_snoc b os now s :
  tripped b (os ++ [(now, s)]) <-> tripped b os \/ (s = false /\ trips b (os ++ [(now, s)]) = true).
Proof.
  split.
  - intros (p & n & q & E & Ht). destruct q as [|x q _] using rev_ind.
    + apply app_inj_tail in E as [-> [= -> ->]]. by right.
    + left. rewrite app_comm_cons, app_assoc in E. apply app_inj_tail in E as [-> _]. by exists p, n, q.
  - intros [(p & n & q & -> & Ht)|[-> Ht]]; [|by exists os, now, []].
    exists p, n, (q ++ [(now, s)]). by rewrite <- app_assoc.
Qed.

Lemma recorded_window b0 os :
  breaker_ok b0 -> cb_state b0 = CLOSED -> cb_events b0 = [] -> cb_window_mode b0 = WM_COUNT ->
  let b := snd (run_calls (outcomes os) b0) in
  limits b = limits b0 /\ cb_events b = last_n (Z.to_nat (cb_window_size b0)) os /\
  cb_state b <> HALF_OPEN /\ (cb_state b = OPEN <-> tripped b0 os).
Proof.
  intros Hb Hs He Hm. cbv zeta. induction os as [|[now s] os IH] using rev_ind.
  { simpl. rewrite He, Hs. split; [done|]. split; [done|]. split; [done|]. split; [done|].
    intros (p & n & q & E & _). by destruct p. }
  destruct IH as (El & Ee & Eh & Eo). unfold outcomes. rewrite fmap_app. simpl. rewrite run_calls_snoc.
  rewrite run_call_limits. split; [done|]. rewrite tripped_snoc, <- Eo. fold (outcomes os).
  set (b := snd (run_calls (outcomes os) b0)) in *. injection El as E1 E2 E3 E4 E5 E6.
  assert (cb_events (prune now (add_event now s b)) = last_n (Z.to_nat (cb_window_size b0)) (os ++ [(now, s)])) as Ee'.
  { unfold prune. simpl. rewrite E5, Hm. simpl. rewrite Ee, E3. apply deque_append_last_n, Hb. }
  assert (prune now (add_event now s b) = add_event now s b) as Ep by (unfold prune; simpl; by rewrite E5, Hm).
  destruct s; simpl.
  - unfold record_success. destruct (cb_state b) eqn:Es; [..|done]; rewrite Ee', Ep; simpl; rewrite Es; naive_solver.
  - unfold record_failure, trips. rewrite <- Ee', <- E1, <- E6. unfold failures. rewrite Ep.
    destruct (cb_state b) eqn:Es; [..|done]; change (cb_minimum_samples (add_event now false b)) with (cb_minimum_samples b);
      change (cb_failure_threshold (add_event now false b)) with (cb_failure_threshold b);
      destruct (_ && _); simpl; rewrite ?Es; naive_solver.
Qed.

(** A new counting breaker to which results are reported opens exactly when one of
    them is a failure with which the last [window_size] results have at least
    [minimum_samples] entries and [failure_threshold] failures. *)
Theorem breaker_opens_at_threshold t rt w ws ms b0 os :
  new_CircuitBreaker t rt w ws "COUNT" ms = Ok b0 ->
  cb_state (snd (run_calls (outcomes os) b0)) = OPEN <->
  exists p now q, os = p ++ (now, false) :: q /\
    (let window := last_n (Z.to_nat w) (p ++ [(now, false)]) in
     ms <= Z.of_nat (length window) /\ t <= rowcount (fun x => negb (snd x)) window).
Proof.
  intros (Hb & Hs & He & [= <- <- <-] & _ & Hm)%new_breaker_ok. injection Hm as Hm.
  destruct (recorded_window b0 os Hb Hs He (eq_sym Hm)) as (_ & _ & _ & ->). unfold tripped, trips. cbv zeta.
  split; intros (p & n & q & E & H); exists p, n, q; (split; [done|]);
    rewrite andb_true_iff, !Z.leb_le in *; done.
Qed.

(** The constructor does not compare the two limits: a threshold above the window size is
    accepted, and such a breaker never opens. *)
Lemma unreachable_threshold_never_opens l b :
  breaker_ok b -> cb_state b = CLOSED -> cb_window_size b < cb_failure_threshold b ->
  cb_state (snd (run_calls l b)) = CLOSED.
Proof.
  revert b. induction l as [|[c now] l IH]; intros b Hb Hs Hw; simpl; [done|].
  pose proof (run_call_ok c now b Hb) as Hb'. pose proof (run_call_limits c now b) as El.
  assert (cb_state (snd (run_call c now b)) = CLOSED) as Hs'.
  { pose proof (prune_control now b) as Ep. injection Ep as Ep _ _ _. rewrite Hs in Ep.
    assert (forall b, cb_state b = CLOSED -> advance_open_state now b = b) as Ea
      by (intros b1 E1; unfold advance_open_state; by rewrite E1).
    destruct c; simpl; [by rewrite Ea|..|by rewrite Ea].
    - unfold can_execute. by rewrite Ea, Ep.
    - unfold record_success. rewrite Hs. pose proof (prune_control now (add_event now true b)) as E. by injection E as -> _ _ _.
    - unfold record_failure. rewrite Hs. pose proof (prune_ok now _ (add_event_ok now false b Hb)) as (_ & Hl & _).
      pose proof (prune_control now (add_event now false b)) as E. injection E as E _ _ _.
      pose proof (prune_limits now (add_event now false b)) as E'. injection E' as E1 _ E3 _ _ _. simpl in *.
      pose proof (List.filter_length_le (fun x => negb (snd x)) (cb_events (prune now (add_event now false b)))).
      unfold failures, rowcount, select. rewrite E1, (proj2 (Z.leb_gt (cb_failure_threshold b) _)), andb_false_r by lia. by rewrite E. }
  injection El as E1 _ E3 _ _ _. destruct (run_call c now b) as [r b1]. simpl in *.
  specialize (IH b1 Hb' Hs'). destruct (run_calls l b1). apply IH. lia.
Qed.

Example oversized_threshold_is_accepted :
  exists b, new_CircuitBreaker 30 (float_of_Z 30) 20 (float_of_Z 60) "COUNT" 1 = Ok b /\
    forall l, cb_state (snd (run_calls l b)) = CLOSED.
Proof.
  eexists. split; [vm_compute; reflexivity|]. intros l. apply unreachable_threshold_never_opens; [|done|done].
  by split_and!.
Qed.

(** ** Samples *)

Definition opened : CircuitBreaker :=
  mk_CircuitBreaker 2 (float_of_Z 60) 20 (float_of_Z 60) WM_COUNT 1 OPEN (Some (float_of_Z 10)) false
    [(float_of_Z 9, false); (float_of_Z 10, false)].
Definition probing : list (call * float) :=
  [(CanExecute, float_of_Z 30); (GetState, float_of_Z 70); (CanExecute, float_of_Z 71); (CanExecute, float_of_Z 200)].

Lemma open_breaker_admits_one_probe_witness :
  fst (run_calls probing opened) = [false; true; false] /\ rowcount id (fst (run_calls probing opened)) <= 1.
Proof.
  split; [vm_compute; reflexivity|].
  apply (open_breaker_admits_one_probe probing opened _ (snd (run_calls probing opened)));
    [vm_compute; reflexivity|discriminate|reflexivity].
Defined.

Lemma breaker_opens_at_threshold_witness :
  exists b, new_OrderSubmitBreaker = Ok b /\
    cb_state (snd (run_calls (outcomes [(float_of_Z 1, false); (float_of_Z 2, true); (float_of_Z 3, false)]) b)) = OPEN.
Proof.
  eexists. split; [vm_compute; reflexivity|].
  apply (breaker_opens_at_threshold 2 (float_of_Z 60) 20 (float_of_Z 60) 1); [vm_compute; reflexivity|].
  exists [(float_of_Z 1, false); (float_of_Z 2, true)], (float_of_Z 3), []. vm_compute. split; [reflexivity|]. split; discriminate.
Defined.
