(* ===== verification/RingBuffer.v ===== *)
(** * The tick window

    [packages/market_data/tick_ring_buffer.py]: a ring buffer of ticks with incremental
    digit and transition counts, against the plain list of the last [capacity] ticks.
    The readings of the monotonic clock are arguments; the lock makes [push_tick]
    atomic. *)

From S2P Require Import Prelude Datetime Dec Domain PyFloat.

Record DigitTick : Type := mk_DigitTick {
  tk_epoch : Z; tk_quote_decimal : pydec; tk_last_digit : Z; tk_received_at_monotonic : float
}.

Definition positive_quote (q : pydec) : bool :=
  match q with Finite d => dec_ltb (dec_of_Z 0) d | _ => false end.

Definition DigitTick_post_init (t : DigitTick) : res DigitTick :=
  _ ← guard_res (0 <? tk_epoch t) (ValueError "tick epoch must be a positive integer");
  _ ← guard_res (positive_quote (tk_quote_decimal t)) (ValueError "tick quote must be a positive finite Decimal");
  _ ← guard_res (in_range 0 (tk_last_digit t) 9) (ValueError "last digit must be between zero and nine");
  _ ← guard_res (negb (fltb (tk_received_at_monotonic t) (float_of_Z 0)))
        (ValueError "monotonic receipt time cannot be negative");
  Ok t.

(** [quote.as_tuple().digits[-1]] *)
Definition last_digit (q : pydec) : res Z :=
  match q with Finite d => Ok (Z.abs (coef d) mod 10) | _ => Err IndexError end.

(** [l[i]] and [l[i] = x] for [0 <= i]. *)
Definition list_get {A} (l : list A) (i : Z) : res A :=
  match l !! Z.to_nat i with Some x => Ok x | None => Err IndexError end.
Definition list_set {A} (l : list A) (i : Z) (x : A) : res (list A) :=
  _ ← list_get l i; Ok (<[ Z.to_nat i := x ]> l).

(** [l[i] += n] and [l[i][j] += n] *)
Definition list_add (l : list Z) (i n : Z) : res (list Z) := x ← list_get l i; list_set l i (x + n).
Definition table_add (l : list (list Z)) (i j n : Z) : res (list (list Z)) :=
  row ← list_get l i; row ← list_add row j n; list_set l i row.

Definition assert_some {A} (o : option A) : res A :=
  match o with Some x => Ok x | None => Err (AssertionError "") end.

Record TickRingBuffer : Type := mk_TickRingBuffer {
  tb_capacity : Z; tb_ticks : list (option DigitTick); tb_frequency_counts : list Z;
  tb_transition_counts : list (list Z); tb_start : Z; tb_size : Z
}.

#[export] Instance TickRingBuffer_eta : Eta TickRingBuffer := fun b =>
  mk_TickRingBuffer (tb_capacity b) (tb_ticks b) (tb_frequency_counts b) (tb_transition_counts b)
    (tb_start b) (tb_size b).

Definition new_TickRingBuffer (capacity : Z) : res TickRingBuffer :=
  _ ← guard_res (0 <? capacity) (ValueError "tick ring-buffer capacity must be a positive integer");
  Ok (mk_TickRingBuffer capacity (replicate (Z.to_nat capacity) None) (replicate 10 0)
        (replicate 10 (replicate 10 0)) 0 0).

(** The eviction of [push_tick]: the index of the oldest tick, the buffer without it,
    and whether the predecessor of the new tick stays. *)
Definition evict (b : TickRingBuffer) : res (Z * bool * TickRingBuffer) :=
  let insertion_index := tb_start b in
  evicted ← list_get (tb_ticks b) insertion_index; evicted ← assert_some evicted;
  freq ← list_add (tb_frequency_counts b) (tk_last_digit evicted) (-1);
  '(keeps, trans) ←
    (if 1 <? tb_capacity b then
       successor ← list_get (tb_ticks b) ((tb_start b + 1) mod tb_capacity b);
       successor ← assert_some successor;
       trans ← table_add (tb_transition_counts b) (tk_last_digit evicted) (tk_last_digit successor) (-1);
       Ok (true, trans)
     else Ok (false, tb_transition_counts b));
  Ok (insertion_index, keeps,
      b <| tb_frequency_counts := freq |> <| tb_transition_counts := trans |>
        <| tb_start := (tb_start b + 1) mod tb_capacity b |>).

Definition push_tick (quote : pydec) (epoch : Z) (received_at : float) (b : TickRingBuffer)
    : res (DigitTick * TickRingBuffer) :=
  _ ← guard_res (positive_quote quote) (ValueError "tick quote must be positive and finite");
  _ ← guard_res (0 <? epoch) (ValueError "tick epoch must be a positive integer");
  digit ← last_digit quote;
  tick ← DigitTick_post_init (mk_DigitTick epoch quote digit received_at);
  previous ← (if 0 <? tb_size b then list_get (tb_ticks b) ((tb_start b + tb_size b - 1) mod tb_capacity b)
              else Ok None);
  '(insertion_index, previous, b) ←
    (if tb_size b =? tb_capacity b then
       '(i, keeps, b) ← evict b; Ok (i, if (keeps : bool) then previous else None, b)
     else Ok ((tb_start b + tb_size b) mod tb_capacity b, previous, b <| tb_size ::= fun n => n + 1 |>));
  ticks ← list_set (tb_ticks b) insertion_index (Some tick);
  freq ← list_add (tb_frequency_counts b) digit 1;
  trans ← match previous with
          | Some p => table_add (tb_transition_counts b) (tk_last_digit p) digit 1
          | None => Ok (tb_transition_counts b)
          end;
  Ok (tick, b <| tb_ticks := ticks |> <| tb_frequency_counts := freq |> <| tb_transition_counts := trans |>).

Definition get_frequency_percentage (b : TickRingBuffer) : list dec :=
  if tb_size b =? 0 then replicate 10 (dec_of_Z 0)
  else (fun count => dec_div (dec_mul prec (dec_of_Z count) (dec_of_Z 100)) (dec_of_Z (tb_size b))) <$>
         tb_frequency_counts b.

(** The loop of [get_digit_history]. *)
Fixpoint history_from (b : TickRingBuffer) (offsets : list Z) : res (list Z) :=
  match offsets with
  | [] => Ok []
  | offset :: rest =>
      tick ← list_get (tb_ticks b) ((tb_start b + offset) mod tb_capacity b);
      tick ← assert_some tick;
      digits ← history_from b rest;
      Ok (tk_last_digit tick :: digits)
  end.

Definition get_digit_history (limit : Z) (b : TickRingBuffer) : res (list Z) :=
  _ ← guard_res (0 <=? limit) (ValueError "digit history limit must be a non-negative integer");
  let count := Z.min limit (tb_size b) in
  let first := tb_size b - count in
  history_from b (seqZ first (tb_size b - first)).

(** ** Tables indexed by digits *)

Definition tabulate {A} (f : Z -> A) : list A := f <$> seqZ 0 10.

Lemma lookup_tabulate {A} (f : Z -> A) i : 0 <= i < 10 -> tabulate f !! Z.to_nat i = Some (f i).
Proof.
  intros Hi. unfold tabulate. rewrite list_lookup_fmap, lookup_seqZ_lt by lia. simpl. f_equal. f_equal. lia.
Qed.

Lemma tabulate_ext {A} (f g : Z -> A) : (forall i, 0 <= i < 10 -> f i = g i) -> tabulate f = tabulate g.
Proof. intros H. apply list_fmap_ext. intros k x Hx%lookup_seqZ. apply H. lia. Qed.

Lemma insert_tabulate {A} (f : Z -> A) i x :
  0 <= i < 10 -> <[Z.to_nat i := x]> (tabulate f) = tabulate (fun k => if k =? i then x else f k).
Proof.
  intros Hi. apply list_eq. intros k. destruct (decide (k < 10)%nat) as [Hk|Hk].
  - rewrite <- (Nat2Z.id k). rewrite lookup_tabulate by lia. destruct (Z.eqb_spec (Z.of_nat k) i) as [<-|Hne].
    + rewrite list_lookup_insert_eq; [done|]. unfold tabulate. rewrite length_fmap, length_seqZ. lia.
    + rewrite list_lookup_insert_ne by lia. apply lookup_tabulate. lia.
  - rewrite !lookup_ge_None_2; [done|..]; unfold tabulate; rewrite ?length_insert, length_fmap, length_seqZ; lia.
Qed.

Lemma list_get_tabulate {A} (f : Z -> A) i : 0 <= i < 10 -> list_get (tabulate f) i = Ok (f i).
Proof. intros Hi. unfold list_get. by rewrite lookup_tabulate. Qed.

Lemma list_add_tabulate f i n :
  0 <= i < 10 -> list_add (tabulate f) i n = Ok (tabulate (fun k => if k =? i then f k + n else f k)).
Proof.
  intros Hi. unfold list_add, list_set. rewrite list_get_tabulate by done. cbn [mbind res_bind].
  rewrite insert_tabulate by done. f_equal. apply tabulate_ext. intros k _. by destruct (Z.eqb_spec k i) as [->|].
Qed.

Lemma table_add_tabulate f i j n :
  0 <= i < 10 -> 0 <= j < 10 ->
  table_add (tabulate (fun k => tabulate (f k))) i j n =
  Ok (tabulate (fun k => tabulate (fun l => if (k =? i) && (l =? j) then f k l + n else f k l))).
Proof.
  intros Hi Hj. unfold table_add, list_set. rewrite list_get_tabulate by done. cbn [mbind res_bind].
  rewrite list_add_tabulate by done. cbn [mbind res_bind].
  rewrite insert_tabulate by done. f_equal. apply tabulate_ext. intros k _.
  destruct (Z.eqb_spec k i) as [->|]; [done|]. by apply tabulate_ext.
Qed.

(** ** The counts of a list of digits *)

Definition frequency (ds : list Z) (d : Z) : Z := rowcount (Z.eqb d) ds.
Definition transitions (ds : list Z) (i j : Z) : Z :=
  rowcount (fun p => (i =? fst p) && (j =? snd p)) (zip ds (tail ds)).

Lemma rowcount_app {A} (p : A -> bool) l1 l2 : rowcount p (l1 ++ l2) = rowcount p l1 + rowcount p l2.
Proof. unfold rowcount, select. rewrite List.filter_app, length_app. lia. Qed.
Lemma rowcount_cons {A} (p : A -> bool) x l : rowcount p (x :: l) = (if p x then 1 else 0) + rowcount p l.
Proof. unfold rowcount, select. simpl. destruct (p x); simpl; lia. Qed.

Lemma frequency_snoc ds d k : frequency (ds ++ [d]) k = if k =? d then frequency ds k + 1 else frequency ds k.
Proof. unfold frequency. rewrite rowcount_app, rowcount_cons. change (rowcount _ []) with 0. destruct (k =? d); lia. Qed.

Lemma zip_snoc (ds : list Z) p d : zip (ds ++ [p; d]) (tail (ds ++ [p; d])) = zip (ds ++ [p]) (tail (ds ++ [p])) ++ [(p, d)].
Proof. induction ds as [|x ds IH]; [done|]. simpl. destruct ds as [|y ds]; [done|]. simpl in *. by rewrite <- IH. Qed.

Lemma transitions_snoc ds p d i j :
  transitions ((ds ++ [p]) ++ [d]) i j =
  if (i =? p) && (j =? d) then transitions (ds ++ [p]) i j + 1 else transitions (ds ++ [p]) i j.
Proof.
  unfold transitions. rewrite <- app_assoc. cbn [app]. rewrite zip_snoc, rowcount_app, rowcount_cons.
  change (rowcount _ []) with 0. cbn [fst snd]. destruct (_ && _); lia.
Qed.

(** ** Slots *)

(** The ring holds [w], oldest first, from [start]. *)
Definition slots (capacity : Z) (ticks : list (option DigitTick)) (start : Z) (w : list DigitTick) : Prop :=
  forall i, 0 <= i < Z.of_nat (length w) ->
    list_get ticks ((start + i) mod capacity) = Ok (w !! Z.to_nat i).

Lemma slots_tail c ticks s x w : 0 < c -> slots c ticks s (x :: w) -> slots c ticks ((s + 1) mod c) w.
Proof.
  intros Hc Hs i Hi. rewrite Zplus_mod_idemp_l. replace (s + 1 + i) with (s + (i + 1)) by lia.
  rewrite Hs by (simpl; lia). by replace (Z.to_nat (i + 1)) with (S (Z.to_nat i)) by lia.
Qed.

Lemma mod_shift_inj c s i j : 0 <= i < c -> 0 <= j < c -> (s + i) mod c = (s + j) mod c -> i = j.
Proof.
  intros Hi Hj E. assert ((i - j) mod c = 0) as H.
  { replace (i - j) with ((s + i) - (s + j)) by lia. rewrite Zminus_mod, E, Z.sub_diag. apply Z.mod_0_l. lia. }
  apply Z.mod_divide in H as [q Hq]; [|lia]. destruct (Z.lt_trichotomy q 0) as [?|[->|?]]; [nia|lia|nia].
Qed.

Lemma list_get_insert_eq {A} (l : list A) i x : 0 <= i < Z.of_nat (length l) -> list_get (<[Z.to_nat i := x]> l) i = Ok x.
Proof. intros Hi. unfold list_get. rewrite list_lookup_insert_eq; [done|lia]. Qed.

Lemma slots_snoc c ticks s w t :
  Z.of_nat (length ticks) = c -> Z.of_nat (length w) < c -> slots c ticks s w ->
  slots c (<[Z.to_nat ((s + Z.of_nat (length w)) mod c) := Some t]> ticks) s (w ++ [t]).
Proof.
  intros Hl Hw Hs i Hi. rewrite length_app in Hi. simpl in Hi.
  pose proof (Z.mod_pos_bound (s + i) c ltac:(lia)) as Hb. destruct (decide (i = Z.of_nat (length w))) as [->|Hne].
  - rewrite list_get_insert_eq by lia. f_equal. rewrite Nat2Z.id. by rewrite lookup_app_r, Nat.sub_diag by lia.
  - rewrite lookup_app_l, <- Hs by lia. unfold list_get. rewrite list_lookup_insert_ne; [done|].
    intros E. apply Hne, (mod_shift_inj c s); [lia..|]. pose proof (Z.mod_pos_bound (s + Z.of_nat (length w)) c). lia.
Qed.

Lemma slots_last c ticks s w :
  w <> [] -> slots c ticks s w -> list_get ticks ((s + Z.of_nat (length w) - 1) mod c) = Ok (last w).
Proof.
  intros Hw Hs. replace (s + Z.of_nat (length w) - 1) with (s + Z.of_nat (length w - 1)) by (destruct w; simpl in *; [done|lia]).
  rewrite Hs by (destruct w; simpl in *; [done|lia]). rewrite Nat2Z.id, last_lookup. f_equal. f_equal. lia.
Qed.

(** ** The abstraction *)

Definition digits_of (w : list DigitTick) : list Z := tk_last_digit <$> w.

Record represents (b : TickRingBuffer) (w : list DigitTick) : Prop := mk_represents {
  rp_capacity : 0 < tb_capacity b;
  rp_start : 0 <= tb_start b < tb_capacity b;
  rp_size : tb_size b = Z.of_nat (length w) /\ tb_size b <= tb_capacity b;
  rp_length : Z.of_nat (length (tb_ticks b)) = tb_capacity b;
  rp_slots : slots (tb_capacity b) (tb_ticks b) (tb_start b) w;
  rp_frequency : tb_frequency_counts b = tabulate (frequency (digits_of w));
  rp_transitions : tb_transition_counts b = tabulate (fun i => tabulate (transitions (digits_of w) i));
  rp_digits : Forall (fun t => 0 <= tk_last_digit t < 10) w
}.

Lemma new_represents capacity b : new_TickRingBuffer capacity = Ok b -> represents b [] /\ tb_capacity b = capacity.
Proof.
  unfold new_TickRingBuffer. intros H. apply res_bind_Ok in H as (u & Hc%guard_res_Ok & [= <-]). apply Z.ltb_lt in Hc.
  split; [|done]. constructor; simpl; try done; try lia.
  - rewrite length_replicate. lia.
  - intros i Hi. simpl in Hi. lia.
Qed.

(** The buffer between eviction and insertion: [w] with one free slot. *)
Record has_room (b : TickRingBuffer) (w : list DigitTick) : Prop := mk_has_room {
  hr_start : 0 <= tb_start b < tb_capacity b;
  hr_room : Z.of_nat (length w) < tb_capacity b;
  hr_size : tb_size b = Z.of_nat (length w) + 1;
  hr_length : Z.of_nat (length (tb_ticks b)) = tb_capacity b;
  hr_slots : slots (tb_capacity b) (tb_ticks b) (tb_start b) w;
  hr_frequency : tb_frequency_counts b = tabulate (frequency (digits_of w));
  hr_transitions : tb_transition_counts b = tabulate (fun i => tabulate (transitions (digits_of w) i));
  hr_digits : Forall (fun t => 0 <= tk_last_digit t < 10) w
}.

Lemma evict_spec b x w :
  represents b (x :: w) -> tb_size b = tb_capacity b ->
  exists b', evict b = Ok (tb_start b, 1 <? tb_capacity b, b') /\ has_room b' w /\
    tb_capacity b' = tb_capacity b /\ tb_start b' = (tb_start b + 1) mod tb_capacity b.
Proof.
  intros [Hc Hst [Hsz Hle] Hl Hs Hf Ht Hd] Hfull. apply Forall_cons in Hd as [Hx Hd]. simpl in Hsz.
  pose proof (Hs 0 ltac:(simpl; lia)) as H0. rewrite Z.add_0_r, Z.mod_small in H0 by lia. unfold evict. rewrite H0.
  change ((x :: w) !! Z.to_nat 0) with (Some x). cbn [mbind res_bind assert_some]. rewrite Hf, list_add_tabulate by done. cbn [mbind res_bind].
  assert (tabulate (fun k => if k =? tk_last_digit x then frequency (digits_of (x :: w)) k + -1
                             else frequency (digits_of (x :: w)) k) = tabulate (frequency (digits_of w))) as ->.
  { apply tabulate_ext. intros k _. unfold frequency, digits_of. rewrite fmap_cons, rowcount_cons. destruct (k =? _); lia. }
  destruct (Z.ltb_spec 1 (tb_capacity b)) as [H1|H1].
  - destruct w as [|y w]; [simpl in Hsz; lia|]. pose proof (Hs 1 ltac:(simpl; lia)) as Hs1. rewrite Hs1.
    cbn [mbind res_bind assert_some]. change ((x :: y :: w) !! Z.to_nat 1) with (Some y). cbn [mbind res_bind assert_some].
    apply Forall_cons in Hd as [Hy Hd]. rewrite Ht, table_add_tabulate by done. cbn [mbind res_bind].
    eexists. split; [reflexivity|]. split; [|done]. constructor; simpl; try done; try (simpl in *; lia).
    + apply Z.mod_pos_bound. lia.
    + by apply (slots_tail _ _ _ x).
    + apply tabulate_ext. intros i _. apply tabulate_ext. intros j _. unfold transitions. simpl.
      rewrite (rowcount_cons _ (tk_last_digit x, tk_last_digit y)). cbn [fst snd]. destruct (_ && _); lia.
    + by constructor.
  - destruct w as [|y w]; [|simpl in Hsz; lia]. eexists. split; [reflexivity|]. split; [|done].
    constructor; simpl; try done; try (simpl in *; lia).
    + apply Z.mod_pos_bound. lia.
    + intros i Hi. simpl in Hi. lia.
Qed.

(** The insertion of [push_tick]. *)
Definition insert_tick (tick : DigitTick) (i : Z) (previous : option DigitTick) (b : TickRingBuffer) : res TickRingBuffer :=
  ticks ← list_set (tb_ticks b) i (Some tick);
  freq ← list_add (tb_frequency_counts b) (tk_last_digit tick) 1;
  trans ← match previous with
          | Some p => table_add (tb_transition_counts b) (tk_last_digit p) (tk_last_digit tick) 1
          | None => Ok (tb_transition_counts b)
          end;
  Ok (b <| tb_ticks := ticks |> <| tb_frequency_counts := freq |> <| tb_transition_counts := trans |>).

Lemma insert_tick_spec b w t :
  has_room b w -> 0 <= tk_last_digit t < 10 ->
  exists b', insert_tick t ((tb_start b + Z.of_nat (length w)) mod tb_capacity b) (last w) b = Ok b' /\
    represents b' (w ++ [t]) /\ tb_capacity b' = tb_capacity b.
Proof.
  intros [Hst Hr Hsz Hl Hs Hf Ht Hd] Htd. unfold insert_tick.
  pose proof (Z.mod_pos_bound (tb_start b + Z.of_nat (length w)) (tb_capacity b) ltac:(lia)) as Hi.
  set (i := (tb_start b + Z.of_nat (length w)) mod tb_capacity b) in *.
  destruct (lookup_lt_is_Some_2 (tb_ticks b) (Z.to_nat i)) as [o Eo]; [lia|].
  unfold list_set at 1, list_get. rewrite Eo. cbn [mbind res_bind]. rewrite Hf, list_add_tabulate by done. cbn [mbind res_bind].
  assert (exists trans, (match last w with
     | Some p => table_add (tb_transition_counts b) (tk_last_digit p) (tk_last_digit t) 1
     | None => Ok (tb_transition_counts b) end) = Ok trans /\
     trans = tabulate (fun i => tabulate (transitions (digits_of (w ++ [t])) i))) as (trans & -> & Etr).
  { destruct w as [|p w _] using rev_ind; [by exists (tb_transition_counts b)|]. rewrite last_snoc.
    apply Forall_app in Hd as [_ [Hp _]%Forall_cons]. rewrite Ht, table_add_tabulate by done. eexists. split; [done|].
    apply tabulate_ext. intros k _. apply tabulate_ext. intros j _. unfold digits_of.
    rewrite !fmap_app. cbn [fmap list_fmap]. by rewrite transitions_snoc. }
  cbn [mbind res_bind]. eexists. split; [reflexivity|]. split; [|done].
  constructor; simpl; try done; rewrite ?length_app, ?length_insert; simpl; try lia.
  - by apply slots_snoc.
  - apply tabulate_ext. intros k _. unfold digits_of. rewrite fmap_app. cbn [fmap list_fmap]. by rewrite frequency_snoc.
  - apply Forall_app. split; [done|]. by constructor.
Qed.

(** What [push_tick] accepts, and the tick it makes. *)
Definition valid_tick (x : pydec * Z * float) : bool :=
  let '(quote, epoch, received_at) := x in
  positive_quote quote && (0 <? epoch) && negb (fltb received_at (float_of_Z 0)).

Definition tick_of (x : pydec * Z * float) : DigitTick :=
  let '(quote, epoch, received_at) := x in
  mk_DigitTick epoch quote (match quote with Finite d => Z.abs (coef d) mod 10 | _ => 0 end) received_at.

Lemma tick_of_digit x : 0 <= tk_last_digit (tick_of x) < 10.
Proof. destruct x as [[[d| | |] e] r]; simpl; try lia. apply Z.mod_pos_bound. lia. Qed.

Lemma push_tick_unfold q e r b :
  valid_tick (q, e, r) = true ->
  push_tick q e r b =
    (previous ← (if 0 <? tb_size b then list_get (tb_ticks b) ((tb_start b + tb_size b - 1) mod tb_capacity b) else Ok None);
     '(i, previous, b) ← (if tb_size b =? tb_capacity b then
         '(i, keeps, b) ← evict b; Ok (i, if (keeps : bool) then previous else None, b)
       else Ok ((tb_start b + tb_size b) mod tb_capacity b, previous, b <| tb_size ::= fun n => n + 1 |>));
     b ← insert_tick (tick_of (q, e, r)) i previous b; Ok (tick_of (q, e, r), b)).
Proof.
  unfold valid_tick. rewrite !andb_true_iff. intros [[Hq He] Hr]. unfold push_tick. rewrite Hq, He. cbn [guard_res mbind res_bind].
  destruct q as [d| | |]; try done. cbn [last_digit mbind res_bind]. unfold DigitTick_post_init. cbn [tk_epoch tk_quote_decimal tk_last_digit tk_received_at_monotonic].
  rewrite He, Hq, Hr. rewrite (proj2 (in_range_spec _ _ _)) by (pose proof (Z.mod_pos_bound (Z.abs (coef d)) 10); lia).
  cbn [guard_res mbind res_bind]. destruct (if 0 <? tb_size b then _ else _) as [previous|]; [|done]. cbn [mbind res_bind].
  destruct (if tb_size b =? tb_capacity b then _ else _) as [[[i p] b1]|]; [|done]. cbn [mbind res_bind].
  unfold insert_tick. cbn [tk_last_digit]. destruct (list_set _ _ _); [|done]. cbn [mbind res_bind].
  destruct (list_add _ _ _); [|done]. cbn [mbind res_bind]. by destruct (match p with Some _ => _ | None => _ end).
Qed.

Lemma push_tick_spec b w x :
  represents b w -> valid_tick x = true ->
  exists b', push_tick (fst (fst x)) (snd (fst x)) (snd x) b = Ok (tick_of x, b') /\
    represents b' (last_n (Z.to_nat (tb_capacity b)) (w ++ [tick_of x])) /\ tb_capacity b' = tb_capacity b.
Proof.
  destruct x as [[q e] r]. intros Hrep Hv. cbn [fst snd]. rewrite push_tick_unfold by done.
  pose proof Hrep as [Hc Hst [Hsz Hle] Hl Hs Hf Ht Hd].
  assert ((if 0 <? tb_size b then list_get (tb_ticks b) ((tb_start b + tb_size b - 1) mod tb_capacity b) else Ok None)
          = Ok (last w)) as ->.
  { rewrite Hsz. destruct w as [|y w]; [done|]. by rewrite slots_last. }
  cbn [mbind res_bind]. set (t := tick_of (q, e, r)). pose proof (tick_of_digit (q, e, r)) as Htd.
  destruct (Z.eqb_spec (tb_size b) (tb_capacity b)) as [Hfull|Hroom].
  - destruct w as [|y w]; [simpl in *; lia|]. destruct (evict_spec b y w Hrep Hfull) as (b1 & -> & Hb1 & Ec & Es).
    cbn [mbind res_bind]. assert ((if 1 <? tb_capacity b then last (y :: w) else None) = last w) as ->.
    { simpl in Hsz. destruct (Z.ltb_spec 1 (tb_capacity b)); destruct w; simpl in *; try done; lia. }
    assert (tb_start b = (tb_start b1 + Z.of_nat (length w)) mod tb_capacity b1) as ->.
    { rewrite Es, Ec, Zplus_mod_idemp_l. simpl in Hsz. replace (tb_start b + 1 + Z.of_nat (length w)) with (tb_start b + 1 * tb_capacity b) by lia.
      rewrite Z.mod_add, Z.mod_small by lia. done. }
    destruct (insert_tick_spec b1 w t Hb1 Htd) as (b2 & -> & Hb2 & Ec2). cbn [mbind res_bind].
    exists b2. split; [done|]. split; [|congruence].
    assert (last_n (Z.to_nat (tb_capacity b)) ((y :: w) ++ [t]) = w ++ [t]) as ->; [|done].
    unfold last_n. rewrite length_app. simpl in *. by replace (S (length w + 1) - Z.to_nat (tb_capacity b))%nat with 1%nat by lia.
  - set (b1 := b <| tb_size ::= fun n => n + 1 |>). cbn [mbind res_bind].
    assert (has_room b1 w) as Hb1 by (constructor; try done; simpl; lia).
    destruct (insert_tick_spec b1 w t Hb1 Htd) as (b2 & E2 & Hb2 & Ec2). rewrite Hsz.
    change (tb_start b1) with (tb_start b) in E2. change (tb_capacity b1) with (tb_capacity b) in E2, Ec2.
    rewrite E2. cbn [mbind res_bind]. exists b2. split; [done|]. split; [|done].
    rewrite last_n_all; [done|]. rewrite length_app. simpl. lia.
Qed.

Lemma history_from_spec b w n k :
  represents b w -> (k + n <= length w)%nat ->
  history_from b (seqZ (Z.of_nat k) (Z.of_nat n)) = Ok (take n (drop k (digits_of w))).
Proof.
  intros Hrep. revert k. induction n as [|n IH]; intros k Hk; [done|].
  rewrite seqZ_cons by lia. cbn [history_from]. rewrite (rp_slots _ _ Hrep) by lia. cbn [mbind res_bind]. rewrite Nat2Z.id.
  destruct (lookup_lt_is_Some_2 w k) as [t Et]; [lia|]. rewrite Et. cbn [mbind res_bind assert_some].
  replace (Z.succ (Z.of_nat k)) with (Z.of_nat (S k)) by lia. replace (Z.pred (Z.of_nat (S n))) with (Z.of_nat n) by lia.
  rewrite IH by lia. cbn [mbind res_bind]. f_equal. unfold digits_of.
  rewrite (drop_S (tk_last_digit <$> w) (tk_last_digit t) k) by (by rewrite list_lookup_fmap, Et). done.
Qed.

Lemma get_digit_history_spec b w limit :
  represents b w -> 0 <= limit -> get_digit_history limit b = Ok (last_n (Z.to_nat limit) (digits_of w)).
Proof.
  intros Hrep Hl. unfold get_digit_history. rewrite (proj2 (Z.leb_le _ _)) by done. cbn [guard_res mbind res_bind].
  destruct (rp_size _ _ Hrep) as [-> _]. set (n := Z.of_nat (length w)).
  replace (n - Z.min limit n) with (Z.of_nat (length w - Z.to_nat limit)) by lia.
  replace (n - Z.of_nat (length w - Z.to_nat limit)) with (Z.of_nat (length w - (length w - Z.to_nat limit))) by lia.
  rewrite (history_from_spec b w) by (done || lia). f_equal. unfold last_n.
  assert (length (digits_of w) = length w) as -> by apply length_fmap.
  apply take_ge. rewrite length_drop. unfold digits_of. rewrite length_fmap. lia.
Qed.

Fixpoint push_all (xs : list (pydec * Z * float)) (b : TickRingBuffer) : res TickRingBuffer :=
  match xs with
  | [] => Ok b
  | (q, e, r) :: xs => '(_, b) ← push_tick q e r b; push_all xs b
  end.

Lemma last_n_snoc_app {A} n (l : list A) xs : last_n n (last_n n l ++ xs) = last_n n (l ++ xs).
Proof.
  unfold last_n. rewrite !length_app, length_drop.
  rewrite <- drop_app_le, drop_drop by lia. f_equal. lia.
Qed.

Lemma push_all_spec xs b w :
  represents b w -> Forall (fun x => valid_tick x = true) xs ->
  exists b', push_all xs b = Ok b' /\
    represents b' (last_n (Z.to_nat (tb_capacity b)) (w ++ (tick_of <$> xs))).
Proof.
  revert b w. induction xs as [|[[q e] r] xs IH]; intros b w Hrep Hv; cbn [push_all].
  - exists b. split; [done|]. cbn [fmap list_fmap]. rewrite app_nil_r, last_n_all; [done|]. destruct (rp_size _ _ Hrep). lia.
  - apply Forall_cons in Hv as [Hx Hv]. destruct (push_tick_spec b w (q, e, r) Hrep Hx) as (b1 & E1 & Hb1 & Ec).
    cbn [fst snd] in E1. rewrite E1. cbn [mbind res_bind]. destruct (IH _ _ Hb1 Hv) as (b2 & -> & Hb2).
    exists b2. split; [done|]. rewrite Ec, last_n_snoc_app, <- app_assoc in Hb2. done.
Qed.

(** C40: the ring buffer is the plain window.  From an empty buffer any sequence of valid
    ticks is accepted, and then the digit counts, the counts of transitions between
    successive digits and every digit history are those of the list of the last
    [capacity] digits. *)
Theorem tick_window_is_exact capacity b0 xs :
  new_TickRingBuffer capacity = Ok b0 -> Forall (fun x => valid_tick x = true) xs ->
  let ds := last_n (Z.to_nat capacity) (digits_of (tick_of <$> xs)) in
  exists b, push_all xs b0 = Ok b /\ tb_size b = Z.of_nat (length ds) /\
    tb_frequency_counts b = tabulate (frequency ds) /\
    tb_transition_counts b = tabulate (fun i => tabulate (transitions ds i)) /\
    (forall limit, 0 <= limit -> get_digit_history limit b = Ok (last_n (Z.to_nat limit) ds)).
Proof.
  intros [H0 Ec]%new_represents Hv. cbv zeta. destruct (push_all_spec xs b0 [] H0 Hv) as (b & -> & Hb).
  rewrite Ec in Hb. cbn [app] in Hb.
  assert (digits_of (last_n (Z.to_nat capacity) (tick_of <$> xs)) = last_n (Z.to_nat capacity) (digits_of (tick_of <$> xs))) as E.
  { unfold digits_of, last_n. by rewrite fmap_drop, (length_fmap tk_last_digit). }
  rewrite <- E. exists b. pose proof Hb as [? ? [Hs _] ? ? ? ? ?]. split; [done|].
  split; [rewrite Hs; unfold digits_of; by rewrite length_fmap|]. split; [done|]. split; [done|].
  intros limit. by apply get_digit_history_spec.
Qed.

(** ** Samples *)

Definition quote (n : Z) : pydec * Z * float := (Finite (mk_dec n (-2)), 1700000000, float_of_Z 1).
Definition quotes : list (pydec * Z * float) := [quote 10007; quote 10013; quote 10020; quote 10033; quote 10043].

Lemma tick_window_is_exact_witness :
  exists b0 b, new_TickRingBuffer 3 = Ok b0 /\ push_all quotes b0 = Ok b /\
    tb_frequency_counts b = [1; 0; 0; 2; 0; 0; 0; 0; 0; 0] /\ get_digit_history 2 b = Ok [3; 3].
Proof.
  destruct (tick_window_is_exact 3 _ quotes eq_refl) as (b & Hb & _ & Hf & _ & Hh).
  { repeat constructor; vm_compute; reflexivity. }
  eexists _, b. split; [reflexivity|]. split; [exact Hb|]. split.
  - rewrite Hf. vm_compute. reflexivity.
  - rewrite (Hh 2 ltac:(lia)). vm_compute. reflexivity.
Defined.
