(* ===== verification/Catalog.v ===== *)
(** * Strategies and their release

    [packages/strategies/models.py], [packages/strategy_catalog/models.py],
    [validation.py], [catalog.py] and [packages/persistence/validation_repository.py].

    SHA-256 is a parameter.  The code of a strategy is represented by its
    [artifact_bytes]; [evaluate] is not used here. *)

From S2P Require Import Prelude Datetime Dec Domain Json.

(** ** Contexts and signals *)

(** [(broker, account_id, product, symbol, timeframe_seconds)] *)
Record ArbitrationKey : Type := mk_ArbitrationKey {
  ak_broker : Broker; ak_account_id : string; ak_product : string; ak_symbol : string; ak_timeframe_seconds : Z
}.

#[export] Instance ArbitrationKey_eq_dec : EqDecision ArbitrationKey.
Proof. solve_decision. Defined.

Record RuntimeContext : Type := mk_RuntimeContext {
  rc_strategy_id : string; rc_strategy_version : string; rc_broker : Broker; rc_account_id : string;
  rc_product : string; rc_symbol : string; rc_timeframe_seconds : Z; rc_configuration_version : string;
  rc_parameters : list (string * string)
}.

#[export] Instance RuntimeContext_eq_dec : EqDecision RuntimeContext.
Proof. solve_decision. Defined.

(** [len(set(names)) == len(names)] *)
Definition all_distinct {A} `{EqDecision A} (l : list A) : bool := bool_decide (length (remove_dups l) = length l).

Definition RuntimeContext_post_init (c : RuntimeContext) : res RuntimeContext :=
  _ ← require_nonempty [
        ("strategy_id", rc_strategy_id c); ("strategy_version", rc_strategy_version c);
        ("account_id", rc_account_id c); ("product", rc_product c); ("symbol", rc_symbol c);
        ("configuration_version", rc_configuration_version c)];
  _ ← guard_res (0 <? rc_timeframe_seconds c) (ValueError "timeframe_seconds must be positive");
  let names := fst <$> rc_parameters c in
  _ ← guard_res (forallb nonblank names && all_distinct names)
        (ValueError "parameter names must be unique and non-empty");
  Ok c.

Definition arbitration_key (c : RuntimeContext) : ArbitrationKey :=
  mk_ArbitrationKey (rc_broker c) (rc_account_id c) (rc_product c) (rc_symbol c) (rc_timeframe_seconds c).

Record StrategySignal : Type := mk_StrategySignal {
  ss_signal_id : string; ss_correlation_id : string; ss_context : RuntimeContext; ss_direction : Direction;
  ss_created_at : datetime; ss_valid_until : datetime; ss_candle_close_time : datetime;
  ss_evidence : list (string * string)
}.

Definition StrategySignal_post_init (s : StrategySignal) : res StrategySignal :=
  _ ← require_aware_utc (ss_created_at s) "created_at";
  _ ← require_aware_utc (ss_valid_until s) "valid_until";
  _ ← require_aware_utc (ss_candle_close_time s) "candle_close_time";
  _ ← guard_res (nonblank (ss_signal_id s) && nonblank (ss_correlation_id s))
        (ValueError "signal identity cannot be empty");
  _ ← guard_res (dt_ltb (ss_created_at s) (ss_valid_until s)) (ValueError "signal validity must follow creation");
  _ ← guard_res (negb (bool_decide (ss_evidence s = [])) && all_distinct (fst <$> ss_evidence s))
        (ValueError "signal evidence must be non-empty and uniquely named");
  Ok s.

(** ** Manifests *)

Inductive ReleaseStatus : Type :=
| RS_DRAFT | RS_BACKTESTED | RS_WALK_FORWARD_VALIDATED | RS_REPLAY_VALIDATED | RS_PRACTICE_VALIDATED
| RS_RELEASED | RS_SUSPENDED | RS_RETIRED.
Inductive DataRequirement : Type := CLOSED_CANDLES.
Inductive RiskClass : Type := CONSERVATIVE | STANDARD | ELEVATED.
Inductive ParameterKind : Type := PK_INTEGER | PK_DECIMAL | PK_BOOLEAN | PK_ENUM.
Inductive ValidationStage : Type := VS_BACKTEST | VS_WALK_FORWARD | VS_REPLAY | VS_PRACTICE.

#[export] Instance ReleaseStatus_eq_dec : EqDecision ReleaseStatus.
Proof. solve_decision. Defined.
#[export] Instance DataRequirement_eq_dec : EqDecision DataRequirement.
Proof. solve_decision. Defined.
#[export] Instance RiskClass_eq_dec : EqDecision RiskClass.
Proof. solve_decision. Defined.
#[export] Instance ParameterKind_eq_dec : EqDecision ParameterKind.
Proof. solve_decision. Defined.
#[export] Instance ValidationStage_eq_dec : EqDecision ValidationStage.
Proof. solve_decision. Defined.

#[export] Program Instance ReleaseStatus_enum : StrEnum ReleaseStatus := {|
  value s := match s with
    | RS_DRAFT => "DRAFT" | RS_BACKTESTED => "BACKTESTED"
    | RS_WALK_FORWARD_VALIDATED => "WALK_FORWARD_VALIDATED" | RS_REPLAY_VALIDATED => "REPLAY_VALIDATED"
    | RS_PRACTICE_VALIDATED => "PRACTICE_VALIDATED" | RS_RELEASED => "RELEASED"
    | RS_SUSPENDED => "SUSPENDED" | RS_RETIRED => "RETIRED" end;
  members := [RS_DRAFT; RS_BACKTESTED; RS_WALK_FORWARD_VALIDATED; RS_REPLAY_VALIDATED; RS_PRACTICE_VALIDATED;
              RS_RELEASED; RS_SUSPENDED; RS_RETIRED]
|}.
Solve All Obligations with solve_enum.

#[export] Program Instance DataRequirement_enum : StrEnum DataRequirement := {|
  value _ := "CLOSED_CANDLES"; members := [CLOSED_CANDLES]
|}.
Solve All Obligations with solve_enum.

#[export] Program Instance RiskClass_enum : StrEnum RiskClass := {|
  value c := match c with
    | CONSERVATIVE => "CONSERVATIVE" | STANDARD => "STANDARD" | ELEVATED => "ELEVATED" end;
  members := [CONSERVATIVE; STANDARD; ELEVATED]
|}.
Solve All Obligations with solve_enum.

#[export] Program Instance ParameterKind_enum : StrEnum ParameterKind := {|
  value k := match k with
    | PK_INTEGER => "INTEGER" | PK_DECIMAL => "DECIMAL" | PK_BOOLEAN => "BOOLEAN" | PK_ENUM => "ENUM" end;
  members := [PK_INTEGER; PK_DECIMAL; PK_BOOLEAN; PK_ENUM]
|}.
Solve All Obligations with solve_enum.

#[export] Program Instance ValidationStage_enum : StrEnum ValidationStage := {|
  value s := match s with
    | VS_BACKTEST => "BACKTEST" | VS_WALK_FORWARD => "WALK_FORWARD" | VS_REPLAY => "REPLAY"
    | VS_PRACTICE => "PRACTICE" end;
  members := [VS_BACKTEST; VS_WALK_FORWARD; VS_REPLAY; VS_PRACTICE]
|}.
Solve All Obligations with solve_enum.

Fixpoint res_map {A B} (f : A -> res B) (l : list A) : res (list B) :=
  match l with
  | [] => Ok []
  | x :: l => y ← f x; ys ← res_map f l; Ok (y :: ys)
  end.

Lemma res_map_inverse {A B} (f : A -> res B) (g : B -> A) l :
  (forall y, y ∈ l -> f (g y) = Ok y) -> res_map f (g <$> l) = Ok l.
Proof.
  induction l as [|y l IH]; intros H; [done|]. rewrite fmap_cons. cbn [res_map]. rewrite H by (by left). cbn [mbind res_bind].
  rewrite IH; [done|]. intros z Hz. apply H. by right.
Qed.

(** [set(payload) == expected] *)
Definition keys_are (expected : list string) (d : list (string * json)) : bool :=
  forallb (fun kv => bool_decide (fst kv ∈ expected)) d &&
  forallb (fun k => bool_decide (k ∈ (fst <$> d))) expected.

Record ParameterSpec : Type := mk_ParameterSpec { pm_name : string; pm_kind : ParameterKind; pm_required : bool }.

#[export] Instance ParameterSpec_eq_dec : EqDecision ParameterSpec.
Proof. solve_decision. Defined.

Definition ParameterSpec_post_init (p : ParameterSpec) : res ParameterSpec :=
  _ ← guard_res (nonblank (pm_name p)) (ValueError "parameter name cannot be empty"); Ok p.

Definition ParameterSpec_to_payload (p : ParameterSpec) : json :=
  VDict [("kind", VStr (value (pm_kind p))); ("name", VStr (pm_name p)); ("required", VBool (pm_required p))].

Definition ParameterSpec_from_payload (v : json) : res ParameterSpec :=
  match v with
  | VDict d =>
      _ ← guard_res (keys_are ["kind"; "name"; "required"] d) (ValueError "parameter spec schema is invalid");
      match dict_get "name" d, dict_get "kind" d, dict_get "required" d with
      | Some (VStr name), Some (VStr kind), Some (VBool required) =>
          kind ← of_value kind;
          ParameterSpec_post_init (mk_ParameterSpec name kind required)
      | _, _, _ => Err (ValueError "parameter spec fields are invalid")
      end
  | _ => Err (ValueError "parameter spec schema is invalid")
  end.

Record StrategyManifest : Type := mk_StrategyManifest {
  sm_manifest_version : Z; sm_strategy_id : string; sm_version : string; sm_code_hash : string;
  sm_supported_brokers : list Broker; sm_supported_products : list string; sm_supported_timeframes : list Z;
  sm_required_data : list DataRequirement; sm_warmup_candles : Z; sm_parameter_schema : list ParameterSpec;
  sm_risk_class : RiskClass; sm_validation_report_id : string; sm_release_status : ReleaseStatus;
  sm_strategy_pack : string
}.

#[export] Instance StrategyManifest_eta : Eta StrategyManifest := fun m =>
  mk_StrategyManifest (sm_manifest_version m) (sm_strategy_id m) (sm_version m) (sm_code_hash m)
    (sm_supported_brokers m) (sm_supported_products m) (sm_supported_timeframes m) (sm_required_data m)
    (sm_warmup_candles m) (sm_parameter_schema m) (sm_risk_class m) (sm_validation_report_id m)
    (sm_release_status m) (sm_strategy_pack m).

#[export] Instance StrategyManifest_eq_dec : EqDecision StrategyManifest.
Proof. solve_decision. Defined.

Definition is_hex (c : Ascii.ascii) : bool := str_contains (String c "") "0123456789abcdef".

(** A lowercase SHA-256 hex digest. *)
Definition is_digest (s : string) : bool := (String.length s =? 64)%nat && str_forall is_hex s.

Definition unique_nonempty (values : list string) (field : string) : res unit :=
  guard_res (negb (bool_decide (values = [])) && forallb nonblank values && all_distinct values)
    (ValueError (field +:+ " must contain unique non-empty values")).

Definition StrategyManifest_post_init (m : StrategyManifest) : res StrategyManifest :=
  _ ← guard_res (sm_manifest_version m =? 1) (ValueError "unsupported strategy manifest version");
  _ ← require_nonempty [
        ("strategy_id", sm_strategy_id m); ("version", sm_version m);
        ("validation_report_id", sm_validation_report_id m); ("strategy_pack", sm_strategy_pack m)];
  _ ← guard_res (is_digest (sm_code_hash m)) (ValueError "code_hash must be a lowercase SHA-256 hex digest");
  _ ← guard_res (negb (bool_decide (sm_supported_brokers m = [])) && all_distinct (sm_supported_brokers m))
        (ValueError "supported_brokers must be non-empty and unique");
  _ ← unique_nonempty (sm_supported_products m) "supported_products";
  _ ← guard_res (negb (bool_decide (sm_supported_timeframes m = [])) &&
                 forallb (fun n => 0 <? n) (sm_supported_timeframes m) &&
                 bool_decide (sort_by Z.leb (remove_dups (sm_supported_timeframes m)) = sm_supported_timeframes m))
        (ValueError "supported_timeframes must be sorted, unique and positive");
  _ ← guard_res (negb (bool_decide (sm_required_data m = [])) && all_distinct (sm_required_data m))
        (ValueError "required_data must be non-empty and unique");
  _ ← guard_res (0 <? sm_warmup_candles m) (ValueError "warmup_candles must be positive");
  _ ← guard_res (all_distinct (pm_name <$> sm_parameter_schema m))
        (ValueError "parameter_schema names must be unique");
  Ok m.

Definition manifest_key (m : StrategyManifest) : string * string := (sm_strategy_id m, sm_version m).

(** [dataclasses.replace] runs the checks again. *)
Definition with_status (m : StrategyManifest) (status : ReleaseStatus) : res StrategyManifest :=
  StrategyManifest_post_init (m <| sm_release_status := status |>).

Definition StrategyManifest_to_payload (m : StrategyManifest) : json := VDict [
  ("code_hash", VStr (sm_code_hash m)); ("manifest_version", VInt (sm_manifest_version m));
  ("parameter_schema", VList (ParameterSpec_to_payload <$> sm_parameter_schema m));
  ("release_status", VStr (value (sm_release_status m)));
  ("required_data", VList (VStr ∘ value <$> sm_required_data m));
  ("risk_class", VStr (value (sm_risk_class m))); ("strategy_id", VStr (sm_strategy_id m));
  ("strategy_pack", VStr (sm_strategy_pack m));
  ("supported_brokers", VList (VStr ∘ value <$> sm_supported_brokers m));
  ("supported_products", VList (VStr <$> sm_supported_products m));
  ("supported_timeframes", VList (VInt <$> sm_supported_timeframes m));
  ("validation_report_id", VStr (sm_validation_report_id m)); ("version", VStr (sm_version m));
  ("warmup_candles", VInt (sm_warmup_candles m))].

Definition MANIFEST_FIELDS : list string := [
  "code_hash"; "manifest_version"; "parameter_schema"; "release_status"; "required_data"; "risk_class";
  "strategy_id"; "strategy_pack"; "supported_brokers"; "supported_products"; "supported_timeframes";
  "validation_report_id"; "version"; "warmup_candles"].

Definition string_field (d : list (string * json)) (k : string) : res string :=
  match dict_get k d with Some (VStr s) => Ok s | _ => Err (ValueError "manifest string field has invalid type") end.
Definition int_field (d : list (string * json)) (k : string) : res Z :=
  match dict_get k d with Some (VInt n) => Ok n | _ => Err (ValueError "manifest integer field has invalid type") end.
Definition string_list (d : list (string * json)) (k : string) : res (list string) :=
  match dict_get k d with
  | Some (VList l) =>
      res_map (fun v => match v with VStr s => Ok s | _ => Err (ValueError (k +:+ " must be a string array")) end) l
  | _ => Err (ValueError (k +:+ " must be a string array"))
  end.

Definition from_external_payload (v : json) : res StrategyManifest :=
  match v with
  | VDict d =>
      _ ← guard_res (keys_are MANIFEST_FIELDS d) (ValueError "manifest schema is invalid");
      code_hash ← string_field d "code_hash"; release_status ← string_field d "release_status";
      risk_class ← string_field d "risk_class"; strategy_id ← string_field d "strategy_id";
      strategy_pack ← string_field d "strategy_pack";
      validation_report_id ← string_field d "validation_report_id"; version ← string_field d "version";
      manifest_version ← int_field d "manifest_version"; warmup_candles ← int_field d "warmup_candles";
      brokers ← string_list d "supported_brokers"; products ← string_list d "supported_products";
      data ← string_list d "required_data";
      timeframes ← match dict_get "supported_timeframes" d with
        | Some (VList l) => res_map (fun v => match v with
            | VInt n => Ok n | _ => Err (ValueError "supported_timeframes must be an integer array") end) l
        | _ => Err (ValueError "supported_timeframes must be an integer array")
        end;
      parameters ← match dict_get "parameter_schema" d with
        | Some (VList l) => Ok l | _ => Err (ValueError "parameter_schema must be an array") end;
      brokers ← res_map of_value brokers; data ← res_map of_value data;
      parameters ← res_map ParameterSpec_from_payload parameters;
      risk_class ← of_value risk_class; release_status ← of_value release_status;
      StrategyManifest_post_init (mk_StrategyManifest manifest_version strategy_id version code_hash brokers products
        timeframes data warmup_candles parameters risk_class validation_report_id release_status strategy_pack)
  | _ => Err (ValueError "manifest must be an object")
  end.

(** ** Validation *)

Record ValidationEvidence : Type := mk_ValidationEvidence {
  ve_evidence_id : string; ve_strategy_id : string; ve_strategy_version : string; ve_report_id : string;
  ve_stage : ValidationStage; ve_approved : bool; ve_broker : Broker; ve_product : string; ve_symbol : string;
  ve_timeframe_seconds : Z; ve_dataset_id : string; ve_period_start : datetime; ve_period_end : datetime;
  ve_metrics : list (string * pydec)
}.

Definition is_finite (d : pydec) : bool := match d with Finite _ => true | _ => false end.

Definition ValidationEvidence_post_init (e : ValidationEvidence) : res ValidationEvidence :=
  _ ← require_aware_utc (ve_period_start e) "period_start";
  _ ← require_aware_utc (ve_period_end e) "period_end";
  _ ← require_nonempty [
        ("evidence_id", ve_evidence_id e); ("strategy_id", ve_strategy_id e);
        ("strategy_version", ve_strategy_version e); ("report_id", ve_report_id e);
        ("product", ve_product e); ("symbol", ve_symbol e); ("dataset_id", ve_dataset_id e)];
  _ ← guard_res (dt_ltb (ve_period_start e) (ve_period_end e) && (0 <? ve_timeframe_seconds e))
        (ValueError "validation period/timeframe is invalid");
  let names := fst <$> ve_metrics e in
  _ ← guard_res (forallb nonblank names && all_distinct names)
        (ValueError "metric names must be unique and non-empty");
  _ ← guard_res (forallb (fun m => is_finite (snd m)) (ve_metrics e))
        (ValueError "validation metrics must be finite decimals");
  Ok e.

(** [==] of two metrics: finite decimals are equal when their values are. *)
Definition metric_eqb (a b : string * pydec) : bool :=
  bool_decide (fst a = fst b) &&
  match snd a, snd b with
  | Finite x, Finite y => match dec_compare x y with Eq => true | _ => false end
  | Infinite, Infinite => true
  | _, _ => false
  end.

Fixpoint metrics_eqb (a b : list (string * pydec)) : bool :=
  match a, b with
  | [], [] => true
  | x :: a, y :: b => metric_eqb x y && metrics_eqb a b
  | _, _ => false
  end.

(** The comparison of the dataclass. *)
Definition evidence_eqb (a b : ValidationEvidence) : bool :=
  bool_decide (ve_evidence_id a = ve_evidence_id b) && bool_decide (ve_strategy_id a = ve_strategy_id b) &&
  bool_decide (ve_strategy_version a = ve_strategy_version b) && bool_decide (ve_report_id a = ve_report_id b) &&
  bool_decide (ve_stage a = ve_stage b) && Bool.eqb (ve_approved a) (ve_approved b) &&
  bool_decide (ve_broker a = ve_broker b) && bool_decide (ve_product a = ve_product b) &&
  bool_decide (ve_symbol a = ve_symbol b) && (ve_timeframe_seconds a =? ve_timeframe_seconds b) &&
  bool_decide (ve_dataset_id a = ve_dataset_id b) && (instant (ve_period_start a) =? instant (ve_period_start b)) &&
  (instant (ve_period_end a) =? instant (ve_period_end b)) && metrics_eqb (ve_metrics a) (ve_metrics b).

Record ValidationReport : Type := mk_ValidationReport {
  vp_report_id : string; vp_strategy_id : string; vp_strategy_version : string; vp_code_hash : string;
  vp_stage : ValidationStage; vp_is_approved : bool; vp_metrics_json : string; vp_dataset_hash : string;
  vp_created_at_utc : datetime
}.

Definition ValidationReport_post_init (r : ValidationReport) : res ValidationReport :=
  _ ← require_aware_utc (vp_created_at_utc r) "created_at_utc";
  _ ← require_nonempty [
        ("report_id", vp_report_id r); ("strategy_id", vp_strategy_id r);
        ("strategy_version", vp_strategy_version r); ("code_hash", vp_code_hash r);
        ("metrics_json", vp_metrics_json r); ("dataset_hash", vp_dataset_hash r)];
  _ ← guard_res (is_digest (vp_code_hash r)) (ValueError "code_hash must be a 64-char lowercase hex string");
  Ok r.

(** *** The durable repository *)

(** A row of [strategy_validation_reports]. *)
Record report_row : Type := mk_report_row {
  rr_report_id : string; rr_strategy_id : string; rr_strategy_version : string; rr_code_hash : string;
  rr_stage : string; rr_is_approved : Z; rr_metrics_json : string; rr_dataset_hash : string;
  rr_created_at_utc : string
}.

Definition row_of_report (r : ValidationReport) : report_row :=
  mk_report_row (vp_report_id r) (vp_strategy_id r) (vp_strategy_version r) (vp_code_hash r)
    (value (vp_stage r)) (if vp_is_approved r then 1 else 0) (vp_metrics_json r) (vp_dataset_hash r)
    (isoformat (vp_created_at_utc r)).

(** [INSERT OR REPLACE]: the row of the same primary key is deleted. *)
Definition save_report (r : ValidationReport) (t : list report_row) : list report_row :=
  select (fun x => negb (bool_decide (rr_report_id x = vp_report_id r))) t ++ [row_of_report r].

(** [dt.replace(tzinfo=UTC)] *)
Definition replace_tzinfo_utc (d : datetime) : datetime :=
  mk_datetime (dt_year d) (dt_month d) (dt_day d) (dt_hour d) (dt_minute d) (dt_second d) (dt_micro d) (Some 0).

Definition row_to_report (x : report_row) : res ValidationReport :=
  dt ← fromisoformat (rr_created_at_utc x);
  let dt := match dt_offset dt with None => replace_tzinfo_utc dt | Some _ => dt end in
  stage ← of_value (rr_stage x);
  ValidationReport_post_init (mk_ValidationReport (rr_report_id x) (rr_strategy_id x) (rr_strategy_version x)
    (rr_code_hash x) stage (negb (rr_is_approved x =? 0)) (rr_metrics_json x) (rr_dataset_hash x) dt).

Definition get_reports_for_strategy (strategy_id version : string) (t : list report_row) : res (list ValidationReport) :=
  res_map row_to_report
    (sort_by (fun x y => str_leb (rr_created_at_utc x) (rr_created_at_utc y))
       (select (fun x => bool_decide (rr_strategy_id x = strategy_id) &&
                         bool_decide (rr_strategy_version x = version)) t)).

Definition repo_is_stage_approved (strategy_id version code_hash : string) (stage : ValidationStage)
    (t : list report_row) : bool :=
  exists_row (fun x => bool_decide (rr_strategy_id x = strategy_id) && bool_decide (rr_strategy_version x = version) &&
                       bool_decide (rr_code_hash x = code_hash) && bool_decide (rr_stage x = value stage) &&
                       (rr_is_approved x =? 1)) t.

Definition REQUIRED : list ValidationStage := [VS_BACKTEST; VS_WALK_FORWARD; VS_REPLAY; VS_PRACTICE].

Definition repo_release_eligible (strategy_id version code_hash : string) (t : list report_row) : bool :=
  forallb (fun stage => repo_is_stage_approved strategy_id version code_hash stage t) REQUIRED.

(** *** The registry *)

(** A call that takes a lock the calling thread already holds does not return. *)
Inductive outcome (A : Type) : Type := Returns (a : A) | Hangs.
#[global] Arguments Returns {A} a.
#[global] Arguments Hangs {A}.

#[export] Instance outcome_bind : MBind outcome := fun A B f m =>
  match m with Returns a => f a | Hangs => Hangs end.

Record ValidationRegistry : Type := mk_ValidationRegistry {
  vr_evidence : list (string * ValidationEvidence); vr_reports : list (string * ValidationReport);
  vr_repo : option (list report_row)
}.

#[export] Instance ValidationRegistry_eta : Eta ValidationRegistry := fun r =>
  mk_ValidationRegistry (vr_evidence r) (vr_reports r) (vr_repo r).

Definition record (e : ValidationEvidence) (r : ValidationRegistry) : res ValidationRegistry :=
  _ ← guard_res (match odict_get (ve_evidence_id e) (vr_evidence r) with
                 | Some existing => evidence_eqb existing e | None => true end)
        (ValueError "conflicting validation evidence id");
  Ok (r <| vr_evidence ::= odict_set (ve_evidence_id e) e |>).

Definition record_report (report : ValidationReport) (r : ValidationRegistry) : ValidationRegistry :=
  r <| vr_repo ::= fmap (save_report report) |> <| vr_reports ::= odict_set (vp_report_id report) report |>.

Section eligibility.
Variable r : ValidationRegistry.

(** [with self._lock], where [locked] says that the thread holds it. *)
Definition with_lock {A} (locked : bool) (a : A) : outcome A := if locked then Hangs else Returns a.

Definition evidence_for (locked : bool) (strategy_id version report_id : string) : outcome (list ValidationEvidence) :=
  with_lock locked (select (fun e => bool_decide (ve_strategy_id e = strategy_id) &&
                                     bool_decide (ve_strategy_version e = version) &&
                                     bool_decide (ve_report_id e = report_id)) (snd <$> vr_evidence r)).

Definition report_approves (strategy_id version code_hash : string) (stage : ValidationStage)
    (p : ValidationReport) : bool :=
  bool_decide (vp_strategy_id p = strategy_id) && bool_decide (vp_strategy_version p = version) &&
  bool_decide (vp_code_hash p = code_hash) && bool_decide (vp_stage p = stage) && vp_is_approved p.

Definition evidence_approves (strategy_id version : string) (stage : ValidationStage) (report_id : option string)
    (e : ValidationEvidence) : bool :=
  bool_decide (ve_strategy_id e = strategy_id) && bool_decide (ve_strategy_version e = version) &&
  bool_decide (ve_stage e = stage) && ve_approved e &&
  match report_id with None => true | Some i => bool_decide (ve_report_id e = i) end.

Definition is_stage_approved (locked : bool) (strategy_id version code_hash : string) (stage : ValidationStage)
    (report_id : option string) : outcome bool :=
  match vr_repo r with
  | Some t => Returns (repo_is_stage_approved strategy_id version code_hash stage t)
  | None => with_lock locked
      (existsb (report_approves strategy_id version code_hash stage) (snd <$> vr_reports r) ||
       existsb (evidence_approves strategy_id version stage report_id) (snd <$> vr_evidence r))
  end.

(** [all(... for stage in ...)] *)
Fixpoint all_stages (approved : ValidationStage -> outcome bool) (stages : list ValidationStage) : outcome bool :=
  match stages with
  | [] => Returns true
  | stage :: rest => b ← approved stage; if (b : bool) then all_stages approved rest else Returns false
  end.

(** [release_eligible_for_code], with [release_eligible] as its argument. *)
Definition for_code_with (eligible : string -> outcome bool) (locked : bool)
    (strategy_id version code_hash : string) (report_id : option string) : outcome bool :=
  match vr_repo r with
  | Some t => Returns (repo_release_eligible strategy_id version code_hash t)
  | None =>
      by_report ← match report_id with Some i => eligible i | None => Returns false end;
      if (by_report : bool) then Returns true
      else all_stages (fun stage => is_stage_approved locked strategy_id version code_hash stage report_id) REQUIRED
  end.

(** [release_eligible], with [release_eligible_for_code] as its argument: it is called
    while the lock is held. *)
Definition eligible_with (for_code : string -> outcome bool) (locked : bool)
    (strategy_id version report_id : string) : outcome bool :=
  evidence ← evidence_for locked strategy_id version report_id;
  match evidence with
  | _ :: _ =>
      let approved := ve_stage <$> select ve_approved evidence in
      let rejected := ve_stage <$> select (fun e => negb (ve_approved e)) evidence in
      Returns (forallb (fun s => bool_decide (s ∈ approved)) REQUIRED && bool_decide (rejected = []))
  | [] =>
      _ ← with_lock locked tt;
      match odict_get report_id (vr_reports r) with
      | Some report => for_code (vp_code_hash report)
      | None => Returns false
      end
  end.

(** The two tied together: the inner call of [release_eligible] is made with the lock
    held, so that it does not get beyond [evidence_for]. *)
Definition release_eligible (strategy_id version report_id : string) : outcome bool :=
  eligible_with (fun code_hash =>
      for_code_with (fun i => eligible_with (fun _ => Hangs) true strategy_id version i) true
        strategy_id version code_hash (Some report_id))
    false strategy_id version report_id.

Definition release_eligible_for_code (strategy_id version code_hash : string) (report_id : option string)
    : outcome bool :=
  for_code_with (fun i => release_eligible strategy_id version i) false strategy_id version code_hash report_id.
End eligibility.

(** ** The catalog *)

Record StrategyImplementation : Type := mk_StrategyImplementation { im_artifact_bytes : string }.
Record CatalogEntry : Type := mk_CatalogEntry {
  ce_manifest : StrategyManifest; ce_implementation : StrategyImplementation; ce_artifact_hash : string
}.

(** [_entries] *)
Definition catalog : Type := list ((string * string) * CatalogEntry).

Definition next_status (s : ReleaseStatus) : option ReleaseStatus :=
  match s with
  | RS_DRAFT => Some RS_BACKTESTED | RS_BACKTESTED => Some RS_WALK_FORWARD_VALIDATED
  | RS_WALK_FORWARD_VALIDATED => Some RS_REPLAY_VALIDATED | RS_REPLAY_VALIDATED => Some RS_PRACTICE_VALIDATED
  | RS_PRACTICE_VALIDATED => Some RS_RELEASED | _ => None
  end.

Definition status_stage_requirement (s : ReleaseStatus) : option ValidationStage :=
  match s with
  | RS_BACKTESTED => Some VS_BACKTEST | RS_WALK_FORWARD_VALIDATED => Some VS_WALK_FORWARD
  | RS_REPLAY_VALIDATED => Some VS_REPLAY | RS_PRACTICE_VALIDATED => Some VS_PRACTICE | _ => None
  end.

Definition status_allowed (old new : ReleaseStatus) : bool :=
  bool_decide (next_status old = Some new) ||
  (bool_decide (old = RS_RELEASED) && bool_decide (new ∈ [RS_SUSPENDED; RS_RETIRED])) ||
  (bool_decide (old = RS_SUSPENDED) && bool_decide (new ∈ [RS_RELEASED; RS_RETIRED])).

Section catalog.
Variable sha256 : string -> string.

(** What a catalog call gives: the entry and the catalog, or an exception. *)
Definition catalog_m : Type := outcome (res (CatalogEntry * catalog)).
Definition catalog_raise (reason : string) : catalog_m := Returns (Err (StrategyCatalogError reason)).

(** The release check of [register] and [transition] before [k]. *)
Definition when_eligible (r : ValidationRegistry) (strategy_id version code_hash report_id : string)
    (status : ReleaseStatus) (k : catalog_m) : catalog_m :=
  if bool_decide (status = RS_RELEASED) then
    ok ← release_eligible_for_code r strategy_id version code_hash (Some report_id);
    if (ok : bool) then k else catalog_raise "HG_STRATEGY_VALIDATION_INCOMPLETE"
  else k.

Definition register (r : ValidationRegistry) (manifest : StrategyManifest) (implementation : StrategyImplementation)
    (artifact_bytes : string) (c : catalog) : catalog_m :=
  if bool_decide (artifact_bytes = "") then Returns (Err (ValueError "packaged strategy artifact cannot be empty"))
  else if negb (bool_decide (im_artifact_bytes implementation = artifact_bytes)) then
    catalog_raise "HG_STRATEGY_HASH_MISMATCH"
  else
    let actual_hash := sha256 artifact_bytes in
    if negb (bool_decide (actual_hash = sm_code_hash manifest)) then catalog_raise "HG_STRATEGY_HASH_MISMATCH"
    else
      when_eligible r (sm_strategy_id manifest) (sm_version manifest) (sm_code_hash manifest)
        (sm_validation_report_id manifest) (sm_release_status manifest)
        (match odict_get (manifest_key manifest) c with
         | Some existing =>
             if bool_decide (ce_manifest existing = manifest) && bool_decide (ce_artifact_hash existing = actual_hash)
             then Returns (Ok (existing, c)) else catalog_raise "HG_STRATEGY_MANIFEST_CONFLICT"
         | None =>
             let entry := mk_CatalogEntry manifest implementation actual_hash in
             Returns (Ok (entry, odict_set (manifest_key manifest) entry c))
         end).

Definition transition (r : ValidationRegistry) (strategy_id version : string) (new_status : ReleaseStatus) (c : catalog)
    : catalog_m :=
  match odict_get (strategy_id, version) c with
  | None => catalog_raise "HG_STRATEGY_NOT_FOUND"
  | Some current =>
      let m := ce_manifest current in
      if negb (status_allowed (sm_release_status m) new_status) then catalog_raise "HG_STRATEGY_LIFECYCLE_INVALID"
      else
        stage_ok ← match vr_repo r, status_stage_requirement new_status with
                   | Some _, Some stage => is_stage_approved r false strategy_id version (sm_code_hash m) stage
                                             (Some (sm_validation_report_id m))
                   | _, _ => Returns true
                   end;
        if negb stage_ok then catalog_raise "HG_STRATEGY_VALIDATION_INCOMPLETE"
        else
          when_eligible r strategy_id version (sm_code_hash m) (sm_validation_report_id m) new_status
            (Returns (updated ← with_status m new_status;
                      let entry := mk_CatalogEntry updated (ce_implementation current) (ce_artifact_hash current) in
                      Ok (entry, odict_set (strategy_id, version) entry c)))
  end.
End catalog.

Definition get (strategy_id version : string) (c : catalog) : res CatalogEntry :=
  match odict_get (strategy_id, version) c with
  | Some entry => Ok entry
  | None => Err (StrategyCatalogError "HG_STRATEGY_NOT_FOUND")
  end.

Definition is_signal_eligible (strategy_id version : string) (c : catalog) : bool :=
  match get strategy_id version c with
  | Ok entry => bool_decide (sm_release_status (ce_manifest entry) = RS_RELEASED)
  | Err _ => false
  end.

Definition strategy_pack_for (strategy_id version : string) (c : catalog) : res string :=
  entry ← get strategy_id version c; Ok (sm_strategy_pack (ce_manifest entry)).

Definition subset {A} `{EqDecision A} (l1 l2 : list A) : bool := forallb (fun x => bool_decide (x ∈ l2)) l1.

Definition activate (context : RuntimeContext) (entitled_packs : list string) (available_data : list DataRequirement)
    (c : catalog) : res CatalogEntry :=
  entry ← get (rc_strategy_id context) (rc_strategy_version context) c;
  let m := ce_manifest entry in
  _ ← guard_res (negb (bool_decide (sm_release_status m = RS_SUSPENDED))) (StrategyCatalogError "HG_STRATEGY_SUSPENDED");
  _ ← guard_res (negb (bool_decide (sm_release_status m = RS_RETIRED))) (StrategyCatalogError "HG_STRATEGY_RETIRED");
  _ ← guard_res (bool_decide (sm_release_status m = RS_RELEASED)) (StrategyCatalogError "HG_STRATEGY_NOT_RELEASED");
  let provided := fst <$> rc_parameters context in
  let declared := pm_name <$> sm_parameter_schema m in
  let required := pm_name <$> select pm_required (sm_parameter_schema m) in
  _ ← guard_res (bool_decide (sm_strategy_pack m ∈ entitled_packs)) (StrategyCatalogError "HG_ENTITLEMENT_MISSING");
  _ ← guard_res (bool_decide (rc_broker context ∈ sm_supported_brokers m) &&
                 bool_decide (rc_product context ∈ sm_supported_products m) &&
                 bool_decide (rc_timeframe_seconds context ∈ sm_supported_timeframes m) &&
                 subset (sm_required_data m) available_data && subset provided declared && subset required provided)
        (StrategyCatalogError "HG_STRATEGY_INCOMPATIBLE");
  Ok entry.
