(* ===== verification/CatalogProps.v ===== *)
(** * What the catalog promises

    Histories of the validation registry and the catalog: which code can be released,
    and what never changes in an entry. *)

From S2P Require Import Prelude Datetime Dec Domain Json Catalog.

Section history.
Variable sha256 : string -> string.

Inductive catalog_op : Type :=
| OpRecord (e : ValidationEvidence)
| OpReport (p : ValidationReport)
| OpRegister (m : StrategyManifest) (i : StrategyImplementation) (artifact_bytes : string)
| OpTransition (strategy_id version : string) (status : ReleaseStatus).

(** A call that raises, or does not return, changes nothing. *)
Definition after_call (c : catalog) (m : catalog_m) : catalog :=
  match m with Returns (Ok (_, c')) => c' | _ => c end.

Definition catalog_step (op : catalog_op) (s : ValidationRegistry * catalog) : ValidationRegistry * catalog :=
  let '(r, c) := s in
  match op with
  | OpRecord e => (match record e r with Ok r' => r' | Err _ => r end, c)
  | OpReport p => (record_report p r, c)
  | OpRegister m i bytes => (r, after_call c (register sha256 r m i bytes c))
  | OpTransition id v status => (r, after_call c (transition r id v status c))
  end.

Definition catalog_after (ops : list catalog_op) (s : ValidationRegistry * catalog) : ValidationRegistry * catalog :=
  fold_left (fun s op => catalog_step op s) ops s.

Lemma catalog_after_snoc ops op s : catalog_after (ops ++ [op]) s = catalog_step op (catalog_after ops s).
Proof. unfold catalog_after. by rewrite fold_left_app. Qed.

(** ** What one call does to the entries *)

Lemma when_eligible_Ok r id v h i status k e c' :
  when_eligible r id v h i status k = Returns (Ok (e, c')) ->
  k = Returns (Ok (e, c')) /\
  (status = RS_RELEASED -> release_eligible_for_code r id v h (Some i) = Returns true).
Proof.
  unfold when_eligible. case_bool_decide as Hs; [|by intros ->].
  destruct (release_eligible_for_code _ _ _ _ _) as [[]|]; simpl; [|done..]. by intros ->.
Qed.

(** What is known of an entry under its key. *)
Definition entry_ok (k : string * string) (e : CatalogEntry) : Prop :=
  manifest_key (ce_manifest e) = k /\ ce_artifact_hash e = sm_code_hash (ce_manifest e).

Lemma with_status_eq m status m' : with_status m status = Ok m' -> m' = m <| sm_release_status := status |>.
Proof.
  unfold with_status, StrategyManifest_post_init. intros H.
  repeat (apply res_bind_Ok in H as (? & _ & H)). congruence.
Qed.

(** The new entries of a call: an entry that the catalog did not have, or the old one in
    a status that its old status allows. *)
Inductive entry_step (r : ValidationRegistry) (c : catalog) : string * string -> CatalogEntry -> Prop :=
| es_new m i : odict_get (manifest_key m) c = None ->
    (sm_release_status m = RS_RELEASED ->
     release_eligible_for_code r (sm_strategy_id m) (sm_version m) (sm_code_hash m) (Some (sm_validation_report_id m)) =
       Returns true) ->
    entry_step r c (manifest_key m) (mk_CatalogEntry m i (sm_code_hash m))
| es_moved k e status : odict_get k c = Some e ->
    status_allowed (sm_release_status (ce_manifest e)) status = true ->
    (status = RS_RELEASED ->
     release_eligible_for_code r (fst k) (snd k) (sm_code_hash (ce_manifest e))
       (Some (sm_validation_report_id (ce_manifest e))) = Returns true) ->
    entry_step r c k (mk_CatalogEntry ((ce_manifest e) <| sm_release_status := status |>) (ce_implementation e) (ce_artifact_hash e)).

Lemma catalog_step_entries op r c :
  snd (catalog_step op (r, c)) = c \/
  exists k e, snd (catalog_step op (r, c)) = odict_set k e c /\ entry_step r c k e.
Proof.
  destruct op as [e|p|m i bytes|id v status]; [by left..| |]; simpl.
  - destruct (register sha256 r m i bytes c) as [[[e c']|err]|] eqn:E; [|by left..]. simpl. unfold register in E.
    case_bool_decide; [done|]. case_bool_decide; [|done]. simpl in E. case_bool_decide as Eh; [|done]. simpl in E.
    apply when_eligible_Ok in E as [E Hel]. destruct (odict_get _ c) as [old|] eqn:Eo.
    + destruct (_ && _); [|done]. injection E as <- <-. by left.
    + injection E as <- <-. right. eexists _, _. split; [reflexivity|]. rewrite Eh. by apply es_new.
  - destruct (transition r id v status c) as [[[e c']|err]|] eqn:E; [|by left..]. simpl. unfold transition in E.
    destruct (odict_get (id, v) c) as [old|] eqn:Eo; [|done].
    destruct (status_allowed _ _) eqn:Es; [|done]. simpl in E.
    destruct (match vr_repo r with Some _ => _ | None => _ end) as [[]|]; [|done..]. simpl in E.
    apply when_eligible_Ok in E as [E Hel]. injection E as E. apply res_bind_Ok in E as (m' & Em%with_status_eq & E).
    injection E as <- <-. right. eexists _, _. split; [reflexivity|]. subst m'. by apply (es_moved r c (id, v)).
Qed.

(** ** Entries *)

Definition same_but_status (e e' : CatalogEntry) : Prop :=
  exists status, ce_manifest e' = (ce_manifest e) <| sm_release_status := status |> /\
    (sm_release_status (ce_manifest e) = RS_RETIRED -> status = RS_RETIRED) /\
    ce_implementation e' = ce_implementation e /\ ce_artifact_hash e' = ce_artifact_hash e.

Lemma same_but_status_refl e : same_but_status e e.
Proof. exists (sm_release_status (ce_manifest e)). by destruct e as [[] ? ?]. Qed.

Lemma same_but_status_trans e1 e2 e3 : same_but_status e1 e2 -> same_but_status e2 e3 -> same_but_status e1 e3.
Proof.
  intros (s1 & E1 & R1 & I1 & H1) (s2 & E2 & R2 & I2 & H2). exists s2. split_and!; [|..|congruence|congruence].
  - rewrite E2, E1. done.
  - intros Hr. apply R2. rewrite E1. simpl. auto.
Qed.

Lemma retired_is_stuck s : status_allowed RS_RETIRED s = false.
Proof. by destruct s. Qed.

(** An entry of the catalog is never removed or exchanged: whatever is recorded,
    registered or promoted later, its manifest changes in nothing but the release
    status, its code and its hash stay, and a RETIRED strategy stays RETIRED. *)
Theorem entry_is_immutable ops r c k e :
  odict_get k c = Some e ->
  exists e', odict_get k (snd (catalog_after ops (r, c))) = Some e' /\ same_but_status e e'.
Proof.
  intros He. induction ops as [|op ops IH] using rev_ind; [eauto using same_but_status_refl|].
  destruct IH as (e1 & He1 & H1). rewrite catalog_after_snoc.
  destruct (catalog_after ops (r, c)) as [r1 c1]. simpl in He1.
  destruct (catalog_step_entries op r1 c1) as [-> |(k' & e' & -> & Hs)]; [eauto|].
  destruct (decide (k = k')) as [<-|Hne]; [|rewrite odict_get_set_ne by done; eauto].
  rewrite odict_get_set_eq. eexists. split; [done|]. eapply same_but_status_trans; [done|].
  inversion Hs as [m i Hn|? e2 status He2 Ha]; subst; [congruence|]. rewrite He1 in He2. injection He2 as <-.
  exists status. split_and!; simpl; try done. intros Hr. rewrite Hr, retired_is_stuck in Ha. done.
Qed.

(** ** Release *)

Lemma eligible_in_repository r t id v h i :
  vr_repo r = Some t -> release_eligible_for_code r id v h i = Returns true ->
  forall stage, repo_is_stage_approved id v h stage t = true.
Proof.
  unfold release_eligible_for_code, for_code_with. intros -> [= H] stage. unfold repo_release_eligible in H.
  rewrite forallb_forall in H. apply H. destruct stage; simpl; auto.
Qed.

(** The rows of the repository are the reports that were recorded. *)
Definition from_reports (ops : list catalog_op) (r : ValidationRegistry) : Prop :=
  exists t, vr_repo r = Some t /\ forall x, x ∈ t -> exists p, OpReport p ∈ ops /\ x = row_of_report p.

Lemma from_reports_step ops op r c :
  from_reports ops r -> from_reports (ops ++ [op]) (fst (catalog_step op (r, c))).
Proof.
  intros (t & Et & Ht). destruct op as [e|p|m i b|id v s]; simpl.
  - exists t. unfold record. split; [by destruct (guard_res _ _)|]. intros x Hx. destruct (Ht x Hx) as (p & Hp & ->).
    exists p. rewrite elem_of_app. auto.
  - exists (save_report p t). simpl. rewrite Et. split; [done|]. intros x. unfold save_report. rewrite elem_of_app.
    intros [[Hx _]%elem_of_select| ->%list_elem_of_singleton].
    + destruct (Ht x Hx) as (p' & Hp & ->). exists p'. rewrite elem_of_app. auto.
    + exists p. rewrite elem_of_app, list_elem_of_singleton. auto.
  - exists t. split; [done|]. intros x Hx. destruct (Ht x Hx) as (p & Hp & ->). exists p. rewrite elem_of_app. auto.
  - exists t. split; [done|]. intros x Hx. destruct (Ht x Hx) as (p & Hp & ->). exists p. rewrite elem_of_app. auto.
Qed.

(** Each stage has an approved report of this very code. *)
Definition validated (ops : list catalog_op) (k : string * string) (code_hash : string) : Prop :=
  forall stage, exists p, OpReport p ∈ ops /\ vp_is_approved p = true /\ vp_stage p = stage /\
    vp_code_hash p = code_hash /\ (vp_strategy_id p, vp_strategy_version p) = k.

Lemma validated_mono ops op k h : validated ops k h -> validated (ops ++ [op]) k h.
Proof. intros H stage. destruct (H stage) as (p & Hp & ?). exists p. rewrite elem_of_app. auto. Qed.

Lemma eligible_validated ops r id v h i :
  from_reports ops r -> release_eligible_for_code r id v h i = Returns true -> validated ops (id, v) h.
Proof.
  intros (t & Et & Ht) H stage. pose proof (eligible_in_repository r t id v h i Et H stage) as Hs.
  apply exists_row_true in Hs as (x & Hx & Hp). destruct (Ht x Hx) as (p & Hop & ->). exists p.
  cbn [row_of_report rr_strategy_id rr_strategy_version rr_code_hash rr_stage rr_is_approved] in Hp.
  rewrite !andb_true_iff, !bool_decide_eq_true, Z.eqb_eq in Hp. destruct Hp as ((((H1 & H2) & H3) & H4%value_inj) & H5).
  split_and!; try done; [by destruct (vp_is_approved p)|congruence].
Qed.

(** C27: only validated code is released.  With a durable repository, a strategy can be
    RELEASED in the catalog only if for each of the four stages an approved report was
    recorded for that strategy, that version and the very code hash of its manifest. *)
Theorem released_code_was_validated ops r c k e :
  catalog_after ops (mk_ValidationRegistry [] [] (Some []), []) = (r, c) ->
  odict_get k c = Some e -> sm_release_status (ce_manifest e) = RS_RELEASED ->
  validated ops k (sm_code_hash (ce_manifest e)).
Proof.
  intros H. assert (from_reports ops r /\ forall k e, odict_get k c = Some e ->
      sm_release_status (ce_manifest e) = RS_RELEASED -> validated ops k (sm_code_hash (ce_manifest e))) as [_ Hall];
    [|by apply Hall].
  revert r c H. induction ops as [|op ops IH] using rev_ind; intros r c H.
  { injection H as <- <-. split; [|done]. exists []. split; [done|]. intros x []%not_elem_of_nil. }
  rewrite catalog_after_snoc in H. destruct (catalog_after ops _) as [r1 c1]. destruct (IH r1 c1 eq_refl) as [Hr Hc].
  split; [pose proof (from_reports_step ops op r1 c1 Hr) as Hr'; by rewrite H in Hr'|].
  intros k1 e1 He1 Hrel. destruct (catalog_step_entries op r1 c1) as [E|(k' & e' & E & Hs)]; rewrite H in E; simpl in E; subst c.
  { apply validated_mono; auto. }
  apply validated_mono. destruct (decide (k1 = k')) as [<-|Hne]; [|rewrite odict_get_set_ne in He1 by done; auto].
  rewrite odict_get_set_eq in He1. injection He1 as <-. inversion Hs as [m i Hn Hel|? e2 status He2 Ha Hel]; subst; simpl in *.
  - apply (eligible_validated ops r1 _ _ _ _ Hr (Hel Hrel)).
  - destruct k1 as [id v]. apply (eligible_validated ops r1 _ _ _ _ Hr (Hel Hrel)).
Qed.
End history.

(** ** Samples *)

Module Strategy.
Fixpoint str_repeat (n : nat) (s : string) : string :=
  match n with O => "" | S n => s +:+ str_repeat n s end.
Definition digest : string := str_repeat 64 "a".
Definition hashed (bytes : string) : string := digest.
Definition day (n : Z) : datetime := mk_datetime 2026 1 n 12 0 0 0 (Some 0).

Definition manifest (status : ReleaseStatus) : StrategyManifest :=
  mk_StrategyManifest 1 "S1" "1" digest [DERIV] ["DIGITEVEN"] [60; 300] [CLOSED_CANDLES] 20
    [mk_ParameterSpec "period" PK_INTEGER true] STANDARD "R1" status "core".
Definition code : StrategyImplementation := mk_StrategyImplementation "code".

Definition report (id : string) (stage : ValidationStage) : ValidationReport :=
  mk_ValidationReport id "S1" "1" digest stage true "{}" "d" (day 1).
Definition evidence (id : string) (stage : ValidationStage) (approved : bool) : ValidationEvidence :=
  mk_ValidationEvidence id "S1" "1" "R1" stage approved DERIV "DIGITEVEN" "R_100" 60 "d" (day 1) (day 2) [].

Definition promote : list catalog_op :=
  OpTransition "S1" "1" <$> [RS_BACKTESTED; RS_WALK_FORWARD_VALIDATED; RS_REPLAY_VALIDATED; RS_PRACTICE_VALIDATED; RS_RELEASED].
Definition reported : list catalog_op :=
  [OpReport (report "p1" VS_BACKTEST); OpReport (report "p2" VS_WALK_FORWARD); OpReport (report "p3" VS_REPLAY);
   OpReport (report "p4" VS_PRACTICE)].
Definition released : list catalog_op := reported ++ [OpRegister (manifest RS_DRAFT) code "code"] ++ promote.

Definition durable : ValidationRegistry := mk_ValidationRegistry [] [] (Some []).
Definition in_memory : ValidationRegistry := mk_ValidationRegistry [] [] None.
End Strategy.

Import Strategy.

Lemma released_code_was_validated_witness :
  is_signal_eligible "S1" "1" (snd (catalog_after hashed released (durable, []))) = true /\
  validated released ("S1", "1") digest.
Proof.
  split; [vm_compute; reflexivity|].
  refine (released_code_was_validated hashed released _ _ ("S1", "1") (mk_CatalogEntry (manifest RS_RELEASED) code digest) _ _ _);
    [apply surjective_pairing|vm_compute; reflexivity|reflexivity].
Defined.

Lemma entry_is_immutable_witness :
  let retired := [OpTransition "S1" "1" RS_RETIRED; OpTransition "S1" "1" RS_RELEASED;
                  OpRegister (manifest RS_RELEASED) code "code"] in
  exists e, odict_get ("S1", "1") (snd (catalog_after hashed retired (catalog_after hashed released (durable, [])))) = Some e /\
    same_but_status (mk_CatalogEntry (manifest RS_RELEASED) code digest) e.
Proof.
  cbv zeta. set (s := catalog_after hashed released (durable, [])). rewrite (surjective_pairing s).
  apply (entry_is_immutable hashed). vm_compute. reflexivity.
Defined.

(** Without a durable repository a rejected stage does not prevent a release:
    [release_eligible] refuses it, but [release_eligible_for_code], which the catalog
    calls, goes on to look for approvals only. *)
Example rejected_stage_is_released :
  let ops := [OpRecord (evidence "e1" VS_BACKTEST true); OpRecord (evidence "e2" VS_WALK_FORWARD true);
              OpRecord (evidence "e3" VS_REPLAY true); OpRecord (evidence "e4" VS_PRACTICE true);
              OpRecord (evidence "e5" VS_PRACTICE false); OpRegister (manifest RS_DRAFT) code "code"] ++ promote in
  let '(r, c) := catalog_after hashed ops (in_memory, []) in
  release_eligible r "S1" "1" "R1" = Returns false /\ is_signal_eligible "S1" "1" c = true.
Proof. vm_compute. split; reflexivity. Qed.

(** Without a durable repository, a report recorded under the report id of a manifest
    and no evidence for it: [release_eligible] calls [release_eligible_for_code] with
    the lock held, which calls [release_eligible] again and waits for that lock. *)
Example release_by_report_hangs :
  let '(r, c) := catalog_after hashed (OpReport (report "R1" VS_BACKTEST) :: OpRegister (manifest RS_DRAFT) code "code" ::
                                        firstn 4 promote) (in_memory, []) in
  release_eligible r "S1" "1" "R1" = Hangs /\ transition r "S1" "1" RS_RELEASED c = Hangs.
Proof. vm_compute. split; reflexivity. Qed.

(** ** Manifests on the wire *)

Lemma parameter_roundtrip p : ParameterSpec_post_init p = Ok p -> ParameterSpec_from_payload (ParameterSpec_to_payload p) = Ok p.
Proof.
  intros Hp. unfold ParameterSpec_from_payload, ParameterSpec_to_payload.
  change (keys_are _ _) with true. cbn [guard_res mbind res_bind]. cbn [dict_get String.eqb Ascii.eqb Bool.eqb].
  rewrite of_value_value. cbn [mbind res_bind]. destruct p as [name kind required]. exact Hp.
Qed.

(** A manifest survives its payload: a valid manifest written by [to_payload] is
    read back by [from_external_payload] as the same manifest. *)
Theorem manifest_payload_roundtrip m :
  StrategyManifest_post_init m = Ok m -> Forall (fun p => ParameterSpec_post_init p = Ok p) (sm_parameter_schema m) ->
  from_external_payload (StrategyManifest_to_payload m) = Ok m.
Proof.
  intros Hm Hp. unfold from_external_payload, StrategyManifest_to_payload.
  change (keys_are _ _) with true. cbn [guard_res mbind res_bind].
  unfold string_field, int_field, string_list. cbn [dict_get String.eqb Ascii.eqb Bool.eqb].
  cbn [mbind res_bind].
  rewrite (list_fmap_compose value VStr (sm_supported_brokers m)), (list_fmap_compose value VStr (sm_required_data m)).
  rewrite !(res_map_inverse _ VStr) by done. cbn [mbind res_bind].
  rewrite (res_map_inverse _ VInt) by done. cbn [mbind res_bind].
  rewrite !(res_map_inverse of_value value) by (intros; apply of_value_value). cbn [mbind res_bind].
  rewrite (res_map_inverse _ ParameterSpec_to_payload)
    by (intros p Hin; apply parameter_roundtrip; rewrite Forall_forall in Hp; auto). cbn [mbind res_bind].
  rewrite !of_value_value. cbn [mbind res_bind]. by destruct m.
Qed.

Lemma manifest_payload_roundtrip_witness :
  from_external_payload (StrategyManifest_to_payload (manifest RS_DRAFT)) = Ok (manifest RS_DRAFT).
Proof.
  apply manifest_payload_roundtrip; [vm_compute; reflexivity|]. repeat constructor.
Defined.
