(* ===== verification/Arbiter.v ===== *)
(** * Signal arbitration and portfolio allocation

    [packages/signal_arbitration] and [packages/portfolio_allocation/allocator.py] with
    its models.  SHA-256 is a parameter. *)

From S2P Require Import Prelude Datetime Dec Domain StateDb Writer Json Catalog.
From Stdlib Require Import Ascii.

(** ** Keys as text *)

Definition repr_broker (b : Broker) : string := "<Broker." +:+ value b +:+ ": " +:+ repr_str (value b) +:+ ">".

(** [str] of the tuple. *)
Definition str_ArbitrationKey (k : ArbitrationKey) : string :=
  "(" +:+ repr_broker (ak_broker k) +:+ ", " +:+ repr_str (ak_account_id k) +:+ ", " +:+ repr_str (ak_product k) +:+
  ", " +:+ repr_str (ak_symbol k) +:+ ", " +:+ encode_int (ak_timeframe_seconds k) ")".

(** ** Decisions *)

Inductive ArbitrationReason : Type :=
| SINGLE_SIGNAL | CONSENSUS_NO_STAKE_SUM | OPPOSING_SIGNALS_CANCELLED | ALL_SIGNALS_EXPIRED
| ALL_STRATEGIES_INELIGIBLE | RANKED_HIGHER_MARGIN.

#[export] Instance ArbitrationReason_eq_dec : EqDecision ArbitrationReason.
Proof. solve_decision. Defined.

Record ArbitratedSignal : Type := mk_ArbitratedSignal {
  as_arbitration_id : string; as_correlation_id : string; as_arbitration_key : ArbitrationKey;
  as_primary_context : RuntimeContext; as_direction : Direction; as_valid_until : datetime;
  as_source_signal_ids : list string; as_source_strategy_keys : list (string * string)
}.

Definition ArbitratedSignal_post_init (s : ArbitratedSignal) : res ArbitratedSignal :=
  _ ← require_aware_utc (as_valid_until s) "valid_until";
  _ ← guard_res (nonblank (as_arbitration_id s) && nonblank (as_correlation_id s))
        (ValueError "arbitrated signal identity cannot be empty");
  _ ← guard_res (negb (bool_decide (as_source_signal_ids s = [])) && all_distinct (as_source_signal_ids s))
        (ValueError "source signals must be non-empty and unique");
  _ ← guard_res (negb (bool_decide (as_source_strategy_keys s = [])) && all_distinct (as_source_strategy_keys s))
        (ValueError "source strategies must be non-empty and unique");
  Ok s.

Record ArbitrationDecision : Type := mk_ArbitrationDecision {
  ad_arbitration_key : ArbitrationKey; ad_reason : ArbitrationReason;
  ad_arbitrated_signal : option ArbitratedSignal; ad_considered_signal_ids : list string;
  ad_rejected_signal_ids : list string
}.

Definition is_success (r : ArbitrationReason) : bool :=
  match r with SINGLE_SIGNAL | CONSENSUS_NO_STAKE_SUM => true | _ => false end.

Definition ArbitrationDecision_post_init (d : ArbitrationDecision) : res ArbitrationDecision :=
  _ ← guard_res (Bool.eqb (is_success (ad_reason d)) (bool_decide (is_Some (ad_arbitrated_signal d))))
        (ValueError "arbitration decision reason/signal mismatch");
  Ok d.

(** ** Groups *)

(** [dict.fromkeys(l)]: the first occurrences. *)
Definition fromkeys {A} `{EqDecision A} (l : list A) : list A :=
  fst <$> fold_left (fun d k => odict_set k tt d) l [].

(** [sorted(set(l))] *)
Definition sorted_set (l : list string) : list string := sort_by str_leb (remove_dups l).

(** Lexicographic order of tuples of [str]. *)
Fixpoint strs_leb (a b : list string) : bool :=
  match a, b with
  | [], _ => true
  | _ :: _, [] => false
  | x :: a, y :: b => if String.eqb x y then strs_leb a b else str_leb x y
  end.

(** [min(dates)] of [d :: l]. *)
Definition dt_min (d : datetime) (l : list datetime) : datetime :=
  fold_left (fun m x => if dt_ltb x m then x else m) l d.

Section grouping.
Context {K : Type} `{EqDecision K}.
Variable key : StrategySignal -> K.

(** The loop that fills [groups] and [seen]. *)
Fixpoint group_signals (signals : list StrategySignal) (seen : list string) (groups : list (K * list StrategySignal))
    : list (K * list StrategySignal) :=
  match signals with
  | [] => groups
  | s :: rest =>
      if bool_decide (ss_signal_id s ∈ seen) then group_signals rest seen groups
      else group_signals rest (ss_signal_id s :: seen)
             (odict_set (key s) (default [] (odict_get (key s) groups) ++ [s]) groups)
  end.
End grouping.

Section arbitration.
Variable sha256 : string -> string.

(** The decision on sources that agree, sorted. *)
Definition consensus (prefix : string) (key : ArbitrationKey) (considered rejected : list string)
    (s : StrategySignal) (rest : list StrategySignal) : res ArbitrationDecision :=
  let ordered := s :: rest in
  let source_ids := ss_signal_id <$> ordered in
  let source_strategies :=
    fromkeys ((fun s => (rc_strategy_id (ss_context s), rc_strategy_version (ss_context s))) <$> ordered) in
  let digest := sha256 (String.concat "|" source_ids) in
  arbitrated ← ArbitratedSignal_post_init (mk_ArbitratedSignal digest (prefix +:+ digest) key (ss_context s)
                 (ss_direction s) (dt_min (ss_valid_until s) (ss_valid_until <$> rest)) source_ids source_strategies);
  let reason := match rest with [] => SINGLE_SIGNAL | _ => CONSENSUS_NO_STAKE_SUM end in
  ArbitrationDecision_post_init (mk_ArbitrationDecision key reason (Some arbitrated) considered rejected).

(** [s.valid_until > now and catalog.is_signal_eligible(...)] *)
Definition live (c : catalog) (now : datetime) (s : StrategySignal) : bool :=
  dt_ltb now (ss_valid_until s) &&
  is_signal_eligible (rc_strategy_id (ss_context s)) (rc_strategy_version (ss_context s)) c.

(** The body that [_arbitrate_group] and the loop of [arbitrate_cross_broker] share:
    [key_of] gives the key of the decision from the head of a list of signals, [order]
    the tuple that the sources are sorted by, [prefix] the correlation id. *)
Definition decide_group (key_of : StrategySignal -> ArbitrationKey) (order : StrategySignal -> list string)
    (prefix : string) (c : catalog) (first : StrategySignal) (group : list StrategySignal) (now : datetime)
    : res ArbitrationDecision :=
  let considered := sort_by str_leb (ss_signal_id <$> group) in
  let eligible := select (live c now) group in
  let eligible_ids := ss_signal_id <$> eligible in
  let rejected := sorted_set (select (fun i => negb (bool_decide (i ∈ eligible_ids))) considered) in
  match eligible with
  | [] =>
      let has_unexpired := existsb (fun s => dt_ltb now (ss_valid_until s)) group in
      let reason := if has_unexpired then ALL_STRATEGIES_INELIGIBLE else ALL_SIGNALS_EXPIRED in
      ArbitrationDecision_post_init (mk_ArbitrationDecision (key_of first) reason None considered rejected)
  | e :: _ =>
      if (1 <? length (remove_dups (ss_direction <$> eligible)))%nat then
        ArbitrationDecision_post_init
          (mk_ArbitrationDecision (key_of e) OPPOSING_SIGNALS_CANCELLED None considered rejected)
      else
        match sort_by (fun a b => strs_leb (order a) (order b)) eligible with
        | [] => Err IndexError
        | s :: rest => consensus prefix (key_of e) considered rejected s rest
        end
  end.

Definition key_of_signal (s : StrategySignal) : ArbitrationKey := arbitration_key (ss_context s).

(** [_arbitrate_group] *)
Definition arbitrate_group (c : catalog) (k : ArbitrationKey) (first : StrategySignal) (group : list StrategySignal)
    (now : datetime) : res ArbitrationDecision :=
  decide_group (fun _ => k)
    (fun s => [rc_strategy_id (ss_context s); rc_strategy_version (ss_context s); ss_signal_id s])
    "ARBITER-" c first group now.

(** One iteration of [arbitrate_cross_broker]. *)
Definition arbitrate_cross_group (c : catalog) (first : StrategySignal) (group : list StrategySignal) (now : datetime)
    : res ArbitrationDecision :=
  decide_group key_of_signal
    (fun s => [rc_strategy_id (ss_context s); rc_strategy_version (ss_context s); value (rc_broker (ss_context s)); ss_signal_id s])
    "ARBITER-XB-" c first group now.

(** The head of a group, which is never empty. *)
Definition with_first {A} (l : list A) (f : A -> res ArbitrationDecision) : res ArbitrationDecision :=
  match l with x :: _ => f x | [] => Err IndexError end.

(** ** The arbiter *)

Inductive RankedRejectionReason : Type :=
| LOST_TO_HIGHER_MARGIN | LOST_TO_LARGER_SAMPLE | LOST_TO_STABLE_STRATEGY_ID.

Record RankedSignalCandidate : Type := mk_RankedSignalCandidate {
  rk_signal_id : string; rk_strategy_id : string; rk_symbol : string; rk_conservative_margin : pydec;
  rk_conditional_sample : Z
}.

Definition RankedSignalCandidate_post_init (c : RankedSignalCandidate) : res RankedSignalCandidate :=
  _ ← guard_res (nonblank (rk_signal_id c) && nonblank (rk_strategy_id c) && nonblank (rk_symbol c))
        (ValueError "ranked signal identity cannot be empty");
  _ ← guard_res (is_finite (rk_conservative_margin c) && (0 <=? rk_conditional_sample c))
        (ValueError "ranked signal evidence is invalid");
  Ok c.

Record RankedArbitrationDecision : Type := mk_RankedArbitrationDecision {
  rd_considered_signal_ids : list string; rd_winner_signal_id : option string;
  rd_rejected : list (string * RankedRejectionReason)
}.

Record SignalArbiter : Type := mk_SignalArbiter {
  sa_catalog : option catalog; sa_audit_capacity : Z;
  sa_audit : list ArbitrationDecision; sa_ranked_audit : list RankedArbitrationDecision
}.

#[export] Instance SignalArbiter_eta : Eta SignalArbiter := fun a =>
  mk_SignalArbiter (sa_catalog a) (sa_audit_capacity a) (sa_audit a) (sa_ranked_audit a).

Definition new_SignalArbiter (c : option catalog) (audit_capacity : Z) : res SignalArbiter :=
  _ ← guard_res (0 <? audit_capacity) (ValueError "audit_capacity must be positive");
  Ok (mk_SignalArbiter c audit_capacity [] []).

Definition extend_audit (ds : list ArbitrationDecision) (a : SignalArbiter) : SignalArbiter :=
  a <| sa_audit ::= fun l => fold_left (fun l d => deque_append (sa_audit_capacity a) d l) ds l |>.

Definition require_catalog (a : SignalArbiter) : res catalog :=
  match sa_catalog a with
  | Some c => Ok c
  | None => Err (RuntimeError "catalog is required for governed signal arbitration")
  end.

Definition arbitrate_all (signals : list StrategySignal) (now : datetime) (a : SignalArbiter)
    : res (list ArbitrationDecision * SignalArbiter) :=
  c ← require_catalog a;
  decisions ← res_map (fun kg => with_first (snd kg) (fun s => arbitrate_group c (fst kg) s (snd kg) now))
                (sort_by (fun x y => str_leb (str_ArbitrationKey (fst x)) (str_ArbitrationKey (fst y)))
                   (group_signals key_of_signal signals [] []));
  Ok (decisions, extend_audit decisions a).

Definition canonical_key (s : StrategySignal) : string * Z :=
  (canonicalize_symbol (rc_symbol (ss_context s)), rc_timeframe_seconds (ss_context s)).

Definition canonical_leb (x y : string * Z) : bool :=
  if String.eqb (fst x) (fst y) then snd x <=? snd y else str_leb (fst x) (fst y).

Definition arbitrate_cross_broker (signals : list StrategySignal) (now : datetime) (a : SignalArbiter)
    : res (list ArbitrationDecision * SignalArbiter) :=
  c ← require_catalog a;
  decisions ← res_map (fun kg => with_first (snd kg) (fun s => arbitrate_cross_group c s (snd kg) now))
                (sort_by (fun x y => canonical_leb (fst x) (fst y)) (group_signals canonical_key signals [] []));
  Ok (decisions, extend_audit decisions a).

(** *** Ranked candidates *)

Definition dec_of (d : pydec) : dec := match d with Finite x => x | _ => dec_of_Z 0 end.

(** [-item.conservative_margin], rounded to the context's precision. *)
Definition neg_margin (c : RankedSignalCandidate) : dec :=
  let m := dec_of (rk_conservative_margin c) in dec_fix prec (mk_dec (- coef m) (dexp m)).

(** The sort key of [arbitrate_ranked]. *)
Definition ranked_leb (a b : RankedSignalCandidate) : bool :=
  match dec_compare (neg_margin a) (neg_margin b) with
  | Lt => true
  | Gt => false
  | Eq =>
      match rk_conditional_sample b ?= rk_conditional_sample a with
      | Lt => true
      | Gt => false
      | Eq => strs_leb [rk_strategy_id a; rk_symbol a; rk_signal_id a] [rk_strategy_id b; rk_symbol b; rk_signal_id b]
      end
  end.

Definition rejection (winner item : RankedSignalCandidate) : string * RankedRejectionReason :=
  (rk_signal_id item,
   if dec_ltb (dec_of (rk_conservative_margin item)) (dec_of (rk_conservative_margin winner)) then LOST_TO_HIGHER_MARGIN
   else if rk_conditional_sample item <? rk_conditional_sample winner then LOST_TO_LARGER_SAMPLE
   else LOST_TO_STABLE_STRATEGY_ID).

Definition ranked_order (candidates : list RankedSignalCandidate) : list RankedSignalCandidate :=
  sort_by ranked_leb (snd <$> fold_left (fun d c => odict_set (rk_signal_id c) c d) candidates []).

Definition arbitrate_ranked (candidates : list RankedSignalCandidate) (a : SignalArbiter)
    : RankedArbitrationDecision * SignalArbiter :=
  let decision :=
    match ranked_order candidates with
    | [] => mk_RankedArbitrationDecision [] None []
    | winner :: rest =>
        mk_RankedArbitrationDecision (rk_signal_id <$> winner :: rest) (Some (rk_signal_id winner))
          (rejection winner <$> rest)
    end in
  (decision, a <| sa_ranked_audit ::= deque_append (sa_audit_capacity a) decision |>).
End arbitration.

(** ** Allocation *)

Inductive AllocationReason : Type :=
| APPROVED | BUDGET_EXCEEDED | STRATEGY_BUDGET_MISSING | CURRENCY_MISMATCH.

Record BudgetSnapshot : Type := mk_BudgetSnapshot {
  bs_requested : Money; bs_strategy_remaining : list (string * Money); bs_account_remaining : Money;
  bs_global_remaining : Money
}.

Definition BudgetSnapshot_post_init (b : BudgetSnapshot) : res BudgetSnapshot :=
  let names := fst <$> bs_strategy_remaining b in
  _ ← guard_res (negb (bool_decide (names = [])) && forallb nonblank names && all_distinct names)
        (ValueError "strategy_remaining must have unique non-empty strategy ids");
  _ ← guard_res (0 <? minor_units (bs_requested b)) (ValueError "requested allocation must be positive");
  _ ← guard_res (forallb (fun x => 0 <=? minor_units (snd x)) (bs_strategy_remaining b))
        (ValueError "strategy remaining budgets cannot be negative");
  _ ← guard_res ((0 <=? minor_units (bs_account_remaining b)) && (0 <=? minor_units (bs_global_remaining b)))
        (ValueError "account/global remaining budgets cannot be negative");
  Ok b.

Record PortfolioAllocation : Type := mk_PortfolioAllocation {
  pa_arbitrated_signal : ArbitratedSignal; pa_amount : Money; pa_limiting_scope : option string
}.

Record AllocationDecision : Type := mk_AllocationDecision {
  al_reason : AllocationReason; al_allocation : option PortfolioAllocation
}.

(** The order of the pairs [(item[1], item[0])]. *)
Definition ceiling_ltb (y m : string * Z) : bool :=
  (snd y <? snd m) || ((snd y =? snd m) && negb (str_leb (fst m) (fst y))).

(** [min(ceilings, key=...)] of [x :: l]. *)
Definition ceiling_min (x : string * Z) (l : list (string * Z)) : string * Z :=
  fold_left (fun m y => if ceiling_ltb y m then y else m) l x.

Definition strategy_ceiling (budgets : list (string * Money)) (id : string) : res (string * Z) :=
  match odict_get id budgets with Some m => Ok ("STRATEGY:" +:+ id, minor_units m) | None => Err KeyError end.

Definition allocate (signal : ArbitratedSignal) (budget : BudgetSnapshot) : res AllocationDecision :=
  let requested := bs_requested budget in
  let currencies := currency requested :: currency (bs_account_remaining budget) ::
    currency (bs_global_remaining budget) :: (currency ∘ snd <$> bs_strategy_remaining budget) in
  if negb (length (remove_dups currencies) =? 1)%nat then Ok (mk_AllocationDecision CURRENCY_MISMATCH None)
  else
    let strategy_budgets := fold_left (fun d x => odict_set (fst x) (snd x) d) (bs_strategy_remaining budget) [] in
    let source_ids := remove_dups (fst <$> as_source_strategy_keys signal) in
    if negb (subset source_ids (fst <$> strategy_budgets)) then Ok (mk_AllocationDecision STRATEGY_BUDGET_MISSING None)
    else
      strategy_ceilings ← res_map (strategy_ceiling strategy_budgets) (sort_by str_leb source_ids);
      let '(limiting_scope, ceiling) := ceiling_min ("ACCOUNT", minor_units (bs_account_remaining budget))
            (("GLOBAL", minor_units (bs_global_remaining budget)) :: strategy_ceilings) in
      if ceiling <? minor_units requested then Ok (mk_AllocationDecision BUDGET_EXCEEDED None)
      else Ok (mk_AllocationDecision APPROVED (Some (mk_PortfolioAllocation signal requested
             (if ceiling =? minor_units requested then Some limiting_scope else None)))).
