(* ===== verification/ArbiterProps.v ===== *)
(** * What arbitration and allocation promise

    Every group of signals gets one decision, whose signal exists exactly when live
    signals exist and agree; the ranked winner is the best candidate; an allocation is
    approved exactly within all budgets. *)

From S2P Require Import Prelude Datetime Dec DecVal Domain StateDb Writer Json Catalog CatalogProps Arbiter.
From Stdlib Require Import QArith Qpower Lqa.

Local Open Scope Z_scope.

(** ** Lists *)

Lemma remove_dups_NoDup {A} `{EqDecision A} (l : list A) : NoDup l -> remove_dups l = l.
Proof.
  induction 1 as [|x l Hx Hl IH]; simpl; [done|]. destruct (decide_rel _ x _) as [Hin|]; [done|by rewrite IH].
Qed.

Lemma remove_dups_length {A} `{EqDecision A} (l : list A) : (length (remove_dups l) <= length l)%nat.
Proof. induction l as [|x l IH]; simpl; [done|]. destruct (decide_rel _ x l); simpl; lia. Qed.

Lemma remove_dups_length_NoDup {A} `{EqDecision A} (l : list A) : length (remove_dups l) = length l -> NoDup l.
Proof.
  induction l as [|x l IH]; simpl; [constructor|]. pose proof (remove_dups_length l).
  destruct (decide_rel _ x l); simpl; [lia|]. intros [= E]. constructor; auto.
Qed.

Lemma all_distinct_NoDup {A} `{EqDecision A} (l : list A) : NoDup l -> all_distinct l = true.
Proof. intros H. unfold all_distinct. rewrite remove_dups_NoDup by done. by apply bool_decide_eq_true. Qed.

Lemma fromkeys_NoDup {A} `{EqDecision A} (l : list A) : NoDup (fromkeys l).
Proof.
  unfold fromkeys. assert (NoDup (fst <$> ([] : list (A * unit)))) as H by apply NoDup_nil_2.
  revert H. generalize ([] : list (A * unit)). induction l as [|x l IH]; intros d Hd; simpl; [done|].
  by apply IH, odict_set_keys.
Qed.

Lemma odict_set_nonempty {K V} `{EqDecision K} (k : K) (v : V) d : odict_set k v d <> [].
Proof. destruct d as [|[k' v'] d]; simpl; [done|]. by case_decide. Qed.

Lemma fromkeys_nonempty {A} `{EqDecision A} x (l : list A) : fromkeys (x :: l) <> [].
Proof.
  unfold fromkeys. simpl. assert ([(x, tt)] <> []) as H by done. revert H. generalize [(x, tt)].
  induction l as [|y l IH]; intros d Hd; simpl; [by destruct d|]. apply IH, odict_set_nonempty.
Qed.

Lemma res_map_total {A B} (f : A -> res B) (P : A -> B -> Prop) l :
  (forall x, x ∈ l -> exists y, f x = Ok y /\ P x y) -> exists ys, res_map f l = Ok ys /\ Forall2 P l ys.
Proof.
  induction l as [|x l IH]; intros H; [by exists []|].
  destruct (H x) as (y & Ey & Hy); [by left|]. destruct IH as (ys & Eys & Hys); [intros z Hz; apply H; by right|].
  exists (y :: ys). simpl. rewrite Ey. simpl. rewrite Eys. split; [done|]. by constructor.
Qed.

Lemma odict_set_in {K V} `{EqDecision K} (k : K) (v : V) d : (k, v) ∈ odict_set k v d.
Proof. apply odict_get_elem, odict_get_set_eq. Qed.

Lemma odict_set_keeps {K V} `{EqDecision K} (k k' : K) (v v' : V) d :
  k' <> k -> (k', v') ∈ d -> (k', v') ∈ odict_set k v d.
Proof.
  intros Hne. induction d as [|[k1 v1] d IH]; simpl; [by intros ?%not_elem_of_nil|]. rewrite elem_of_cons. intros [[= -> ->]|Hin].
  - rewrite decide_False by done. by left.
  - case_decide; right; auto.
Qed.

Lemma odict_get_NoDup {K V} `{EqDecision K} (k : K) (v : V) d : NoDup (fst <$> d) -> (k, v) ∈ d -> odict_get k d = Some v.
Proof.
  induction d as [|[k1 v1] d IH]; simpl; [by intros _ ?%not_elem_of_nil|].
  rewrite NoDup_cons, elem_of_cons. intros [Hk Hd] [[= -> ->]|Hin]; [by rewrite decide_True|].
  rewrite decide_False; [auto|]. intros ->. apply Hk, list_elem_of_fmap. by exists (k1, v).
Qed.

(** ** Groups *)

Section groups.
Context {K : Type} `{EqDecision K}.
Variable key : StrategySignal -> K.
Variable signals : list StrategySignal.

Definition ids (l : list StrategySignal) : list string := ss_signal_id <$> l.

(** The groups made from the signals with the ids [seen]. *)
Record grouped (seen : list string) (groups : list (K * list StrategySignal)) : Prop := mk_grouped {
  gr_keys : NoDup (fst <$> groups);
  gr_group k g : (k, g) ∈ groups ->
    g <> [] /\ (forall s, s ∈ g -> key s = k /\ s ∈ signals) /\ NoDup (ids g) /\ (forall i, i ∈ ids g -> i ∈ seen);
  gr_complete i : i ∈ seen -> exists k g, (k, g) ∈ groups /\ i ∈ ids g;
  gr_once k1 g1 k2 g2 i : (k1, g1) ∈ groups -> (k2, g2) ∈ groups -> i ∈ ids g1 -> i ∈ ids g2 -> k1 = k2
}.

Lemma grouped_add seen groups s :
  grouped seen groups -> s ∈ signals -> ss_signal_id s ∉ seen ->
  grouped (ss_signal_id s :: seen)
    (odict_set (key s) (default [] (odict_get (key s) groups) ++ [s]) groups).
Proof.
  intros [Hk Hg Hc Ho] Hs Hn. set (old := default [] (odict_get (key s) groups)).
  assert (forall i, i ∈ ids old -> exists g, (key s, g) ∈ groups /\ g = old) as Hold.
  { unfold old. intros i Hi. destruct (odict_get (key s) groups) as [g|] eqn:E; [|by apply not_elem_of_nil in Hi].
    exists g. by apply odict_get_elem in E. }
  assert (forall i, i ∈ ids old -> i ∈ seen) as Hseen.
  { intros i Hi. destruct (Hold i Hi) as (g & Hin & ->). by apply (Hg _ _ Hin). }
  assert (ids (old ++ [s]) = ids old ++ [ss_signal_id s]) as Eids by (unfold ids; by rewrite fmap_app).
  constructor.
  - by apply odict_set_keys.
  - intros k g Hin. apply odict_set_elem in Hin as [[= -> ->]|Hin].
    + split; [by destruct old|]. split; [|split].
      * intros t. rewrite elem_of_app, list_elem_of_singleton. intros [Ht| ->]; [|done]. 
        destruct (Hold (ss_signal_id t)) as (g & Hin & ->); [by apply list_elem_of_fmap; eauto|]. by apply (Hg _ _ Hin).
      * rewrite Eids. apply NoDup_app. split; [|split; [|apply NoDup_singleton]].
        -- unfold old. destruct (odict_get (key s) groups) as [g|] eqn:E; [|constructor]. apply odict_get_elem in E. by apply (Hg _ _ E).
        -- intros i Hi ->%list_elem_of_singleton. auto.
      * intros i. rewrite Eids, elem_of_app, list_elem_of_singleton. intros [Hi| ->]; [right; auto|by left].
    + destruct (Hg k g Hin) as (? & ? & ? & Hi). split_and!; try done. intros i ?. right. auto.
  - intros i. rewrite elem_of_cons. intros [->|Hi].
    + eexists _, _. split; [apply odict_set_in|]. rewrite Eids, elem_of_app, list_elem_of_singleton. auto.
    + destruct (Hc i Hi) as (k & g & Hin & Hig). destruct (decide (k = key s)) as [->|Hne].
      * eexists _, _. split; [apply odict_set_in|]. rewrite Eids, elem_of_app. left.
        unfold old. by rewrite (odict_get_NoDup _ _ _ Hk Hin).
      * exists k, g. split; [by apply odict_set_keeps|done].
  - assert (forall k g i, (k, g) ∈ odict_set (key s) (old ++ [s]) groups -> i ∈ ids g ->
        (i = ss_signal_id s /\ k = key s) \/ (exists g', (k, g') ∈ groups /\ i ∈ ids g')) as Hfrom.
    { intros k g i Hin Hi. apply odict_set_elem in Hin as [[= -> ->]|Hin]; [|eauto].
      rewrite Eids, elem_of_app, list_elem_of_singleton in Hi. destruct Hi as [Hi| ->]; [|auto]. 
      destruct (Hold i Hi) as (g & Hin & ->). eauto. }
    intros k1 g1 k2 g2 i H1 H2 Hi1 Hi2.
    destruct (Hfrom _ _ _ H1 Hi1) as [[-> ->]|(g1' & Hg1 & Hi1')]; destruct (Hfrom _ _ _ H2 Hi2) as [[E ->]|(g2' & Hg2 & Hi2')]; auto.
    + exfalso. apply Hn. by apply (Hg _ _ Hg2).
    + exfalso. subst. apply Hn. by apply (Hg _ _ Hg1).
    + eauto.
Qed.

Lemma group_signals_grouped l seen groups :
  (forall s, s ∈ l -> s ∈ signals) -> grouped seen groups ->
  exists seen', grouped seen' (group_signals key l seen groups) /\ (forall i, i ∈ seen \/ i ∈ ids l -> i ∈ seen').
Proof.
  revert seen groups. induction l as [|s l IH]; intros seen groups Hl Hg; simpl.
  { exists seen. split; [done|]. intros i [?|?%not_elem_of_nil]; done. }
  assert (forall t, t ∈ l -> t ∈ signals) as Hl' by (intros t Ht; apply Hl; by right).
  case_bool_decide as Hin.
  - destruct (IH seen groups Hl' Hg) as (seen' & H1 & H2). exists seen'. split; [done|].
    intros i. rewrite elem_of_cons. intros [?|[->|?]]; auto.
  - destruct (IH _ _ Hl' (grouped_add _ _ s Hg (Hl s ltac:(by left)) Hin)) as (seen' & H1 & H2). exists seen'. split; [done|].
    intros i Hi. apply H2. rewrite elem_of_cons in *. tauto.
Qed.

Lemma all_grouped : exists seen, grouped seen (group_signals key signals [] []) /\ (forall s, s ∈ signals -> ss_signal_id s ∈ seen).
Proof.
  destruct (group_signals_grouped signals [] []) as (seen & H1 & H2); [done|..].
  - constructor; [constructor|intros ? ? []%not_elem_of_nil|intros ? []%not_elem_of_nil|intros ? ? ? ? ? []%not_elem_of_nil].
  - exists seen. split; [done|]. intros s Hs. apply H2. right. apply list_elem_of_fmap. eauto.
Qed.
End groups.

(** ** One group *)

Section decisions.
Variable sha256 : string -> string.
Hypothesis sha256_nonblank : forall s, nonblank (sha256 s) = true.

(** What a decision on [group] says. *)
Definition decision_ok (c : catalog) (now : datetime) (group : list StrategySignal) (d : ArbitrationDecision) : Prop :=
  ad_considered_signal_ids d ≡ₚ ids group /\
  match ad_arbitrated_signal d with
  | Some a =>
      as_source_signal_ids a ≡ₚ ids (select (live c now) group) /\
      (exists s, s ∈ group /\ live c now s = true /\ as_primary_context a = ss_context s) /\
      (forall s, s ∈ group -> live c now s = true ->
         ss_direction s = as_direction a /\ dt_leb (as_valid_until a) (ss_valid_until s) = true) /\
      dt_ltb now (as_valid_until a) = true /\ as_arbitration_key a = ad_arbitration_key d
  | None =>
      (forall s, s ∈ group -> live c now s = false) \/
      exists s1 s2, s1 ∈ group /\ s2 ∈ group /\ live c now s1 = true /\ live c now s2 = true /\
        ss_direction s1 <> ss_direction s2
  end.

Lemma dt_min_spec d l :
  (dt_min d l ∈ d :: l) /\ forall x, x ∈ d :: l -> dt_leb (dt_min d l) x = true.
Proof.
  unfold dt_min, dt_leb, dt_ltb. revert d. induction l as [|y l IH]; intros d; simpl.
  - split; [by left|]. intros x ->%list_elem_of_singleton. lia.
  - destruct (IH (if instant y <? instant d then y else d)) as [H1 H2].
    set (m := fold_left _ _ _) in *. assert (instant m <= instant (if instant y <? instant d then y else d)) as Hm
      by (apply Z.leb_le, H2; by left).
    split.
    + rewrite !elem_of_cons in *. destruct (_ <? _), H1; auto.
    + intros x. rewrite !elem_of_cons. intros [->|[->|Hx]]; [..|apply H2; by right];
        apply Z.leb_le; destruct (Z.ltb_spec (instant y) (instant d)); lia.
Qed.

Lemma one_direction (l : list Direction) :
  (1 <? length (remove_dups l))%nat = false -> forall d1 d2, d1 ∈ l -> d2 ∈ l -> d1 = d2.
Proof.
  intros H d1 d2 H1 H2. rewrite <- elem_of_remove_dups in H1, H2.
  destruct (remove_dups l) as [|x [|y r]]; simpl in H; [by apply not_elem_of_nil in H1| |done].
  apply list_elem_of_singleton in H1, H2. congruence.
Qed.

Lemma two_directions (l : list Direction) :
  (1 <? length (remove_dups l))%nat = true -> exists d1 d2, d1 ∈ l /\ d2 ∈ l /\ d1 <> d2.
Proof.
  intros H. pose proof (NoDup_remove_dups l) as Hn.
  assert (forall x, x ∈ remove_dups l -> x ∈ l) as Hin by (intros x; apply elem_of_remove_dups).
  destruct (remove_dups l) as [|x [|y r]]; try done. exists x, y. apply NoDup_cons in Hn as [Hx _].
  split; [apply Hin; by left|]. split; [apply Hin; right; by left|]. intros ->. apply Hx. by left.
Qed.

Lemma ids_select p g : NoDup (ids g) -> NoDup (ids (select p g)).
Proof.
  unfold ids, select. induction g as [|s g IH]; simpl; [done|]. intros [Hs Hg]%NoDup_cons. destruct (p s); [|auto].
  simpl. constructor; [|auto]. intros Hin. apply Hs. apply list_elem_of_fmap in Hin as (t & -> & Ht).
  apply list_elem_of_In, List.filter_In in Ht as [Ht _]. apply list_elem_of_fmap. exists t. split; [done|]. by apply list_elem_of_In.
Qed.

Lemma nonblank_cons c s : is_space c = false -> nonblank (String c s) = true.
Proof.
  intros Hc. unfold nonblank, str_strip. cbn [rstrip]. rewrite Hc. destruct (rstrip s); cbn [lstrip]; by rewrite Hc.
Qed.

Lemma consensus_spec prefix key considered rejected s rest :
  (forall d, nonblank (prefix +:+ d) = true) -> NoDup (ids (s :: rest)) ->
  (forall t, t ∈ s :: rest -> dt_offset (ss_valid_until t) = Some 0) ->
  exists reason a, consensus sha256 prefix key considered rejected s rest =
      Ok (mk_ArbitrationDecision key reason (Some a) considered rejected) /\
    as_source_signal_ids a = ids (s :: rest) /\ as_primary_context a = ss_context s /\ as_direction a = ss_direction s /\
    as_arbitration_key a = key /\ (exists t, t ∈ s :: rest /\ as_valid_until a = ss_valid_until t) /\
    forall t, t ∈ s :: rest -> dt_leb (as_valid_until a) (ss_valid_until t) = true.
Proof.
  intros Hpre Hnd Hutc. unfold consensus, ArbitratedSignal_post_init.
  cbn [as_valid_until as_arbitration_id as_correlation_id as_source_signal_ids as_source_strategy_keys].
  destruct (dt_min_spec (ss_valid_until s) (ss_valid_until <$> rest)) as [Hmin Hle]. set (m := dt_min _ _) in *.
  change (ss_valid_until s :: (ss_valid_until <$> rest)) with (ss_valid_until <$> s :: rest) in Hmin, Hle.
  apply list_elem_of_fmap in Hmin as (t & Em & Ht).
  rewrite (proj2 (require_aware_utc_Ok m _)) by (rewrite Em; auto). cbn [mbind res_bind].
  rewrite Hpre, sha256_nonblank, (all_distinct_NoDup (ss_signal_id <$> s :: rest)) by exact Hnd.
  rewrite (all_distinct_NoDup (fromkeys _)) by apply fromkeys_NoDup.
  rewrite (bool_decide_eq_false_2 (fromkeys _ = [])) by apply fromkeys_nonempty.
  rewrite (bool_decide_eq_false_2 (_ <$> s :: rest = [])) by done. cbn [negb andb guard_res mbind res_bind].
  exists (match rest with [] => SINGLE_SIGNAL | _ => CONSENSUS_NO_STAKE_SUM end). eexists. split; [unfold ArbitrationDecision_post_init; by destruct rest|]. simpl. split_and!; try done; [eauto|].
  intros x Hx. apply Hle, list_elem_of_fmap. eauto.
Qed.

Section one_group.
Context (key_of : StrategySignal -> ArbitrationKey) (order : StrategySignal -> list string) (prefix : string).
Context (c : catalog) (first : StrategySignal) (group : list StrategySignal) (now : datetime).
Hypothesis prefix_nonblank : forall d, nonblank (prefix +:+ d) = true.
Hypothesis group_ids : NoDup (ids group).
Hypothesis group_utc : forall s, s ∈ group -> dt_offset (ss_valid_until s) = Some 0.

Lemma agreeing_spec e rest considered rejected :
  select (live c now) group = e :: rest -> considered ≡ₚ ids group ->
  (1 <? length (remove_dups (ss_direction <$> e :: rest)))%nat = false ->
  exists d, match sort_by (fun a b => strs_leb (order a) (order b)) (e :: rest) with
            | [] => Err IndexError
            | s :: rest => consensus sha256 prefix (key_of e) considered rejected s rest
            end = Ok d /\ decision_ok c now group d /\ ad_arbitration_key d = key_of e.
Proof.
  intros Ee Hc Ed. pose proof (one_direction _ Ed) as Hdir.
  assert (forall x, x ∈ e :: rest <-> x ∈ group /\ live c now x = true) as Hel by (intros x; rewrite <- Ee; apply elem_of_select).
  pose proof (sort_by_perm (fun a b => strs_leb (order a) (order b)) (e :: rest)) as Hp.
  destruct (sort_by _ (e :: rest)) as [|s r]; [by apply Permutation_nil_cons in Hp|].
  assert (NoDup (ids (s :: r))) as Hnd by (unfold ids; rewrite Hp, <- Ee; by apply ids_select).
  destruct (consensus_spec prefix (key_of e) considered rejected s r) as (reason & a & -> & H1 & H2 & H3 & H4 & (t & Ht & Et) & H6);
    [done|done|intros x; rewrite Hp, Hel; intros [? _]; auto|].
  eexists. split; [reflexivity|]. split; [|done]. split; [done|]. simpl.
  assert (s ∈ e :: rest) as Hs by (rewrite <- Hp; by left).
  split; [rewrite H1; unfold ids; by rewrite Hp, Ee|].
  split; [exists s; apply Hel in Hs as [? ?]; auto|]. split; [|split; [|done]].
  - intros x Hx Hl. assert (x ∈ e :: rest) as Hin by (by apply Hel). split; [|apply H6; by rewrite Hp].
    rewrite H3. apply Hdir; apply list_elem_of_fmap; eauto.
  - rewrite Et. rewrite Hp, Hel in Ht. destruct Ht as [_ Hl]. by apply andb_true_iff in Hl as [-> _].
Qed.

Lemma decide_group_spec :
  exists d, decide_group sha256 key_of order prefix c first group now = Ok d /\ decision_ok c now group d /\
    (exists s, (s = first \/ s ∈ group) /\ ad_arbitration_key d = key_of s).
Proof.
  unfold decide_group. set (considered := sort_by str_leb _).
  assert (considered ≡ₚ ids group) as Hperm by apply sort_by_perm. set (rejected := sorted_set _).
  destruct (select (live c now) group) as [|e rest] eqn:Ee.
  { set (reason := if existsb _ group then _ else _).
    exists (mk_ArbitrationDecision (key_of first) reason None considered rejected).
    split; [unfold ArbitrationDecision_post_init, reason; by destruct (existsb _ _)|].
    split; [|exists first; by auto]. split; [done|]. left. intros s Hs. destruct (live c now s) eqn:El; [|done].
    assert (s ∈ select (live c now) group) as Hin by (by apply elem_of_select). rewrite Ee in Hin. by apply not_elem_of_nil in Hin. }
  assert (forall s, s ∈ e :: rest -> s ∈ group /\ live c now s = true) as Hel by (intros s; rewrite <- Ee; apply elem_of_select).
  assert (e ∈ group) as He by (apply Hel; by left).
  destruct (1 <? length _)%nat eqn:Ed.
  - eexists. split; [reflexivity|]. split; [|eauto]. split; [done|]. right.
    apply two_directions in Ed as (d1 & d2 & H1 & H2 & Hne).
    apply list_elem_of_fmap in H1 as (s1 & -> & H1). apply list_elem_of_fmap in H2 as (s2 & -> & H2).
    exists s1, s2. destruct (Hel s1 H1), (Hel s2 H2). auto.
  - destruct (agreeing_spec e rest considered rejected Ee Hperm Ed) as (d & -> & Hd & Hk). eauto 7.
Qed.
End one_group.

(** ** All groups *)

Lemma NoDup_by_groups {A B K} (f : B -> option K) (l : list (K * A)) (ys : list B) :
  NoDup (fst <$> l) -> Forall2 (fun x y => forall k, f y = Some k -> k = fst x) l ys -> NoDup (omap f ys).
Proof.
  intros Hnd H.
  enough (NoDup (omap f ys) /\ forall k, k ∈ omap f ys -> k ∈ fst <$> l) as [? _] by done.
  revert Hnd. induction H as [|x y l ys Hxy H IH]; simpl; [by repeat constructor|].
  intros [Hx Hl]%NoDup_cons. destruct (IH Hl) as [IH1 IH2]. destruct (f y) as [k|]; simpl.
  - rewrite (Hxy k eq_refl). split; [constructor; auto|]. intros k'. rewrite !elem_of_cons. intros [->|?]; auto.
  - split; [done|]. intros k' Hk. right. auto.
Qed.

Definition utc_signals (signals : list StrategySignal) : Prop :=
  forall s, s ∈ signals -> dt_offset (ss_valid_until s) = Some 0.

(** The decisions on the groups of [signals] by [key]. *)
Definition decides {K} (key : StrategySignal -> K) (c : catalog) (now : datetime) (signals : list StrategySignal)
    (kg : K * list StrategySignal) (d : ArbitrationDecision) : Prop :=
  decision_ok c now (snd kg) d /\ (forall s, s ∈ snd kg -> key s = fst kg /\ s ∈ signals) /\
  exists s, s ∈ snd kg /\ ad_arbitration_key d = key_of_signal s.

Lemma arbitrate_groups {K} `{EqDecision K} (key : StrategySignal -> K) (leb : K * list StrategySignal -> K * list StrategySignal -> bool)
    (f : K * list StrategySignal -> res ArbitrationDecision) c now signals :
  utc_signals signals ->
  (forall k g, g <> [] -> NoDup (ids g) -> (forall s, s ∈ g -> key s = k /\ s ∈ signals) ->
     exists d, f (k, g) = Ok d /\ decision_ok c now g d /\ exists s, s ∈ g /\ ad_arbitration_key d = key_of_signal s) ->
  exists groups ds, res_map f (sort_by leb (group_signals key signals [] [])) = Ok ds /\
    NoDup (fst <$> groups) /\ Forall2 (decides key c now signals) groups ds /\
    (forall s, s ∈ signals -> exists d, d ∈ ds /\ ss_signal_id s ∈ ad_considered_signal_ids d).
Proof.
  intros Hutc Hf. destruct (all_grouped key signals) as (seen & [Hk Hg Hc _] & Hseen).
  pose proof (sort_by_perm leb (group_signals key signals [] [])) as Hp.
  set (groups := sort_by leb _) in *. exists groups.
  destruct (res_map_total f (decides key c now signals) groups) as (ds & Eds & Hds).
  { intros [k g] Hin. rewrite Hp in Hin. destruct (Hg k g Hin) as (Hne & Hs & Hi & _).
    destruct (Hf k g Hne Hi Hs) as (d & Ed & Hd & Hkey). exists d. split; [done|]. by split_and!. }
  exists ds. split; [done|]. split; [by rewrite Hp|]. split; [done|].
  intros s Hs. destruct (Hc _ (Hseen s Hs)) as (k & g & Hin & Hid). rewrite <- Hp in Hin.
  apply list_elem_of_lookup in Hin as [i Hi]. destruct (Forall2_lookup_l _ _ _ _ _ Hds Hi) as (d & Hd & [[Hperm _] _]).
  exists d. split; [by eapply list_elem_of_lookup_2|]. simpl in Hperm. by rewrite Hperm.
Qed.

(** C36: arbitration decides every market once.  With the catalog present,
    [arbitrate_all] always returns; every signal is considered; no two decisions have
    the same key; and the decision of a key carries a signal exactly when the key has
    live signals (unexpired, of a RELEASED strategy) and they agree on the direction,
    with just these as sources and the earliest of their deadlines. *)
Theorem arbitration_decides signals now a c :
  sa_catalog a = Some c -> utc_signals signals ->
  exists ds, arbitrate_all sha256 signals now a = Ok (ds, extend_audit ds a) /\
    NoDup (ad_arbitration_key <$> ds) /\
    (forall s, s ∈ signals -> exists d, d ∈ ds /\ ss_signal_id s ∈ ad_considered_signal_ids d) /\
    (forall d, d ∈ ds -> exists group, decision_ok c now group d /\
       forall s, s ∈ group -> s ∈ signals /\ key_of_signal s = ad_arbitration_key d).
Proof.
  intros Ec Hutc. unfold arbitrate_all, require_catalog. rewrite Ec. cbn [mbind res_bind].
  destruct (arbitrate_groups key_of_signal
      (fun x y => str_leb (str_ArbitrationKey (fst x)) (str_ArbitrationKey (fst y)))
      (fun kg => with_first (snd kg) (fun s => arbitrate_group sha256 c (fst kg) s (snd kg) now)) c now signals Hutc)
    as (groups & ds & -> & Hk & Hds & Hall).
  { intros k g Hne Hi Hs. destruct g as [|s g]; [done|]. cbn [snd fst with_first]. unfold arbitrate_group.
    destruct (decide_group_spec (fun _ => k) (fun s => [rc_strategy_id (ss_context s); rc_strategy_version (ss_context s); ss_signal_id s])
      "ARBITER-" c s (s :: g) now) as (d & -> & Hd & (t & _ & Ekey)).
    - intros d. by apply nonblank_cons.
    - done.
    - intros t Ht. apply Hutc, Hs, Ht.
    - exists d. split; [done|]. split; [done|]. exists s. split; [by left|]. rewrite Ekey. symmetry. apply Hs. by left. }
  cbn [mbind res_bind]. exists ds. split; [done|].
  assert (Forall2 (fun kg d => ad_arbitration_key d = fst kg) groups ds) as Hkeys.
  { eapply Forall2_impl; [exact Hds|]. intros kg d (_ & Hs & t & Ht & ->). by apply Hs. }
  split; [|split; [done|]].
  - assert (ad_arbitration_key <$> ds = fst <$> groups) as ->; [|done]. clear -Hkeys.
    induction Hkeys as [|x y l k E _ IH]; [done|]. rewrite !fmap_cons. by rewrite E, IH.
  - intros d Hd. apply list_elem_of_lookup in Hd as [i Hi].
    destruct (Forall2_lookup_r _ _ _ _ _ Hds Hi) as (kg & Hg & (Hok & Hs & t & Ht & Ek)).
    exists (snd kg). split; [done|]. intros s Hin. destruct (Hs s Hin) as [E1 ?]. split; [done|].
    rewrite E1, Ek. symmetry. by apply Hs.
Qed.

(** The market of an arbitrated signal, across brokers. *)
Definition market_of (d : ArbitrationDecision) : option (string * Z) :=
  (fun a => (canonicalize_symbol (rc_symbol (as_primary_context a)), rc_timeframe_seconds (as_primary_context a)))
    <$> ad_arbitrated_signal d.

(** Across brokers a market gets at most one arbitrated signal: [arbitrate_cross_broker]
    always returns, and no two of its arbitrated signals are on the same canonical symbol
    and timeframe; each stands on live signals of that market that all agree. *)
Theorem cross_broker_market_is_unique signals now a c :
  sa_catalog a = Some c -> utc_signals signals ->
  exists ds, arbitrate_cross_broker sha256 signals now a = Ok (ds, extend_audit ds a) /\
    NoDup (omap market_of ds) /\
    (forall d, d ∈ ds -> exists market group, decision_ok c now group d /\
       forall s, s ∈ group -> s ∈ signals /\ canonical_key s = market).
Proof.
  intros Ec Hutc. unfold arbitrate_cross_broker, require_catalog. rewrite Ec. cbn [mbind res_bind].
  destruct (arbitrate_groups canonical_key (fun x y => canonical_leb (fst x) (fst y))
      (fun kg => with_first (snd kg) (fun s => arbitrate_cross_group sha256 c s (snd kg) now)) c now signals Hutc)
    as (groups & ds & -> & Hk & Hds & _).
  { intros k g Hne Hi Hs. destruct g as [|s g]; [done|]. cbn [snd fst with_first]. unfold arbitrate_cross_group.
    destruct (decide_group_spec key_of_signal (fun s => [rc_strategy_id (ss_context s); rc_strategy_version (ss_context s);
        value (rc_broker (ss_context s)); ss_signal_id s]) "ARBITER-XB-" c s (s :: g) now) as (d & -> & Hd & (t & Ht & Ekey)).
    - intros d. by apply nonblank_cons.
    - done.
    - intros t Ht. apply Hutc, Hs, Ht.
    - exists d. split; [done|]. split; [done|]. exists t. split; [|done]. destruct Ht as [->|?]; [by left|done]. }
  cbn [mbind res_bind]. exists ds. split; [done|]. split.
  - apply (NoDup_by_groups _ groups); [done|]. eapply Forall2_impl; [exact Hds|].
    intros kg d ((_ & Hok) & Hs & _) k. unfold market_of. destruct (ad_arbitrated_signal d) as [x|]; [|done].
    intros [= <-]. destruct Hok as (_ & (s & Hin & _ & ->) & _). by destruct (Hs s Hin) as [<- _].
  - intros d Hd. apply list_elem_of_lookup in Hd as [i Hi].
    destruct (Forall2_lookup_r _ _ _ _ _ Hds Hi) as ([k g] & Hg & (Hok & Hs & _)).
    exists k, g. split; [done|]. intros s Hin. by destruct (Hs s Hin).
Qed.
End decisions.

(** ** Ranking *)

Lemma strs_leb_total a b : strs_leb a b = false -> strs_leb b a = true.
Proof.
  revert b. induction a as [|x a IH]; intros [|y b]; simpl; try done. rewrite (String.eqb_sym y x).
  destruct (String.eqb x y); [apply IH|apply str_leb_total].
Qed.

Lemma strs_leb_antisym a b : strs_leb a b = true -> strs_leb b a = true -> a = b.
Proof.
  revert b. induction a as [|x a IH]; intros [|y b]; simpl; try done. rewrite (String.eqb_sym y x).
  destruct (String.eqb_spec x y) as [->|Hne]; [intros; f_equal; auto|].
  intros H1 H2. destruct Hne. by apply String.leb_antisym.
Qed.

Lemma strs_leb_trans a b c : strs_leb a b = true -> strs_leb b c = true -> strs_leb a c = true.
Proof.
  revert b c. induction a as [|x a IH]; intros [|y b] [|z c]; simpl; try done.
  destruct (String.eqb_spec x y) as [->|Hxy]; [destruct (String.eqb y z); [apply IH|done]|].
  destruct (String.eqb_spec y z) as [->|Hyz]; [by rewrite (proj2 (String.eqb_neq _ _) Hxy)|].
  intros H1 H2. destruct (String.eqb_spec x z) as [->|_]; [|by apply (str_leb_trans x y z)].
  destruct Hxy. by apply String.leb_antisym.
Qed.

Lemma dval_aligned d e : dexp d >= e -> (dval d == inject_Z (coef d * 10 ^ (dexp d - e)) * (10 # 1) ^ e)%Q.
Proof. intros He. destruct d as [c x]. cbn [coef dexp] in *. rewrite <- dval_shift by lia. by replace (e + (x - e)) with x by lia. Qed.

Lemma dec_compare_spec a b : CompareSpec (dval a == dval b)%Q (dval a < dval b)%Q (dval b < dval a)%Q (dec_compare a b).
Proof.
  unfold dec_compare. cbv zeta. set (e := Z.min (dexp a) (dexp b)). pose proof (pow10_positive e) as Hp.
  pose proof (dval_aligned a e ltac:(lia)) as Ea. pose proof (dval_aligned b e ltac:(lia)) as Eb.
  destruct (Z.compare_spec (coef a * 10 ^ (dexp a - e)) (coef b * 10 ^ (dexp b - e))) as [E|H|H]; constructor; rewrite Ea, Eb.
  - by rewrite E.
  - apply Qmult_lt_r; [done|]. by rewrite <- Zlt_Qlt.
  - apply Qmult_lt_r; [done|]. by rewrite <- Zlt_Qlt.
Qed.

Definition identity (c : RankedSignalCandidate) : list string := [rk_strategy_id c; rk_symbol c; rk_signal_id c].

(** The order of the ranking. *)
Lemma ranked_leb_spec a b :
  ranked_leb a b = true <->
  (dval (neg_margin a) < dval (neg_margin b))%Q \/
  (dval (neg_margin a) == dval (neg_margin b))%Q /\
  (rk_conditional_sample b < rk_conditional_sample a \/
   rk_conditional_sample b = rk_conditional_sample a /\ strs_leb (identity a) (identity b) = true).
Proof.
  unfold ranked_leb. destruct (dec_compare_spec (neg_margin a) (neg_margin b)) as [E|H|H].
  - destruct (Z.compare_spec (rk_conditional_sample b) (rk_conditional_sample a)) as [Es|Hs|Hs].
    + split; [intros Hl; right; auto|]. intros [Hl|[_ [Hl|[_ Hl]]]]; [rewrite E in Hl; by apply Qlt_irrefl in Hl|lia|done].
    + split; [intros _; right; auto|done].
    + split; [done|]. intros [Hl|[_ [Hl|[Hl _]]]]; [rewrite E in Hl; by apply Qlt_irrefl in Hl|lia|lia].
  - split; [by left|done].
  - split; [done|]. intros [Hl|[Hl _]]; [by apply (Qlt_trans _ _ _ Hl), Qlt_irrefl in H|rewrite Hl in H; by apply Qlt_irrefl in H].
Qed.

Lemma ranked_leb_total a b : ranked_leb a b = false -> ranked_leb b a = true.
Proof.
  intros H. apply ranked_leb_spec. destruct (ranked_leb a b) eqn:E; [done|]. clear H.
  assert (~ ranked_leb a b = true) as Hn by congruence. rewrite ranked_leb_spec in Hn.
  destruct (Q_dec (dval (neg_margin a)) (dval (neg_margin b))) as [[H|H]|H]; [by destruct Hn; left|by left|].
  right. split; [by symmetry|]. destruct (Z.lt_trichotomy (rk_conditional_sample a) (rk_conditional_sample b)) as [Hs|[Hs|Hs]];
    [by left|right|by destruct Hn; right; auto].
  split; [done|]. apply strs_leb_total. destruct (strs_leb (identity a) (identity b)) eqn:Ei; [|done].
  destruct Hn. right. auto.
Qed.

Lemma ranked_leb_trans a b c : ranked_leb a b = true -> ranked_leb b c = true -> ranked_leb a c = true.
Proof.
  rewrite !ranked_leb_spec. intros [H1|[E1 H1]] [H2|[E2 H2]].
  - left. by apply (Qlt_trans _ (dval (neg_margin b))).
  - left. by rewrite <- E2.
  - left. by rewrite E1.
  - right. split; [by rewrite E1|]. destruct H1 as [?|[Es1 H1]], H2 as [?|[Es2 H2]]; [left; lia..|].
    right. split; [lia|]. by apply (strs_leb_trans _ (identity b)).
Qed.

Lemma ranked_leb_antisym a b : ranked_leb a b = true -> ranked_leb b a = true -> rk_signal_id a = rk_signal_id b.
Proof.
  rewrite !ranked_leb_spec. intros [H1|[E1 H1]] [H2|[E2 H2]].
  - exfalso. by apply (Qlt_trans _ _ _ H1), Qlt_irrefl in H2.
  - exfalso. rewrite E2 in H1. by apply Qlt_irrefl in H1.
  - exfalso. rewrite E1 in H2. by apply Qlt_irrefl in H2.
  - destruct H1 as [?|[? H1]], H2 as [?|[? H2]]; try lia. by injection (strs_leb_antisym _ _ H1 H2) as _ _ ->.
Qed.

(** A dict built from pairs with distinct keys. *)
Lemma odict_of_pairs {A K V} `{EqDecision K} (key : A -> K) (val : A -> V) (l : list A) :
  NoDup (key <$> l) -> fold_left (fun d x => odict_set (key x) (val x) d) l [] = (fun x => (key x, val x)) <$> l.
Proof.
  intros Hnd. enough (forall d, NoDup ((fst <$> d) ++ (key <$> l)) ->
    fold_left (fun d x => odict_set (key x) (val x) d) l d = d ++ ((fun x => (key x, val x)) <$> l)) as H by (by rewrite H).
  clear Hnd. induction l as [|c l IH]; intros d Hnd; simpl; [by rewrite app_nil_r|].
  assert (odict_set (key c) (val c) d = d ++ [(key c, val c)]) as E.
  { apply NoDup_app in Hnd as (_ & Hd & _). clear IH. induction d as [|[k v] d IHd]; [done|]. simpl.
    rewrite decide_False, IHd; [done| |].
    - intros x Hx. apply Hd. by right.
    - intros <-. apply (Hd (key c)); by left. }
  rewrite E, IH; [by rewrite <- app_assoc|]. rewrite fmap_app. simpl. by rewrite <- app_assoc.
Qed.

Lemma unique_candidates (cs : list RankedSignalCandidate) :
  NoDup (rk_signal_id <$> cs) -> snd <$> fold_left (fun d c => odict_set (rk_signal_id c) c d) cs [] = cs.
Proof.
  intros Hnd. rewrite (odict_of_pairs rk_signal_id id) by done. rewrite <- list_fmap_compose. apply list_fmap_id.
Qed.

(** The margin fits the precision of the decimal context. *)
Definition exact_margin (c : RankedSignalCandidate) : Prop :=
  exists d, rk_conservative_margin c = Finite d /\ ndigits (- coef d) <= prec.

Lemma neg_margin_exact c d :
  rk_conservative_margin c = Finite d -> ndigits (- coef d) <= prec -> (dval (neg_margin c) == - dval d)%Q.
Proof.
  intros Ec Hd. unfold neg_margin. rewrite Ec. cbn [dec_of]. unfold dec_fix. cbn [coef dexp].
  rewrite (proj2 (Z.leb_le _ _)) by lia. unfold dval. cbn [coef dexp]. rewrite inject_Z_opp. ring.
Qed.

(** The ranked winner is the best candidate.  Among candidates with distinct ids a
    winner is always chosen, it does not depend on their order, and (for margins within
    the decimal precision) no candidate has a higher margin, nor the same margin and a
    larger sample. *)
Theorem ranked_winner_is_best cs a :
  NoDup (rk_signal_id <$> cs) -> cs <> [] ->
  (forall cs', cs' ≡ₚ cs -> fst (arbitrate_ranked cs' a) = fst (arbitrate_ranked cs a)) /\
  exists w, w ∈ cs /\ rd_winner_signal_id (fst (arbitrate_ranked cs a)) = Some (rk_signal_id w) /\
    (Forall exact_margin cs -> forall c x y, c ∈ cs ->
       rk_conservative_margin c = Finite x -> rk_conservative_margin w = Finite y ->
       (dval x < dval y)%Q \/ (dval x == dval y)%Q /\ rk_conditional_sample c <= rk_conditional_sample w).
Proof.
  intros Hnd Hne. split.
  - intros cs' Hp. assert (ranked_order cs' = ranked_order cs) as E; [|unfold arbitrate_ranked; simpl; by rewrite E].
    unfold ranked_order. rewrite !unique_candidates by (by rewrite ?Hp).
    apply (StronglySorted_unique_strong (fun x y => ranked_leb x y = true)); [|apply sort_by_sorted; eauto using ranked_leb_total, ranked_leb_trans..|by rewrite !sort_by_perm].
    intros x y Hx Hy Hxy Hyx. rewrite elem_of_sort_by in Hx, Hy. rewrite Hp in Hx.
    apply (key_unique rk_signal_id cs); [done|done|done|]. by apply ranked_leb_antisym.
  - assert (ranked_order cs = sort_by ranked_leb cs) as E by (unfold ranked_order; by rewrite unique_candidates).
    unfold arbitrate_ranked. rewrite E. pose proof (sort_by_perm ranked_leb cs) as Hp.
    pose proof (sort_by_head_min ranked_leb ranked_leb_total ranked_leb_trans cs) as Hmin.
    destruct (sort_by ranked_leb cs) as [|w rest]; [by apply Permutation_nil_l in Hp|].
    assert (w ∈ cs) as Hw by (rewrite <- Hp; by left). exists w. split; [done|]. split; [done|].
    intros Hex c x y Hc Ex Ey. rewrite Forall_forall in Hex.
    destruct (Hex c Hc) as (x' & Ex' & Hx'), (Hex w Hw) as (y' & Ey' & Hy'). rewrite Ex in Ex'. rewrite Ey in Ey'.
    injection Ex' as <-. injection Ey' as <-.
    destruct (Hmin w c eq_refl Hc) as [->|Hl]; [right; rewrite Ex in Ey; injection Ey as <-; split; [done|lia]|].
    rewrite ranked_leb_spec, (neg_margin_exact _ _ Ex Hx'), (neg_margin_exact _ _ Ey Hy') in Hl.
    destruct Hl as [Hl|[Hl Hs]]; [left; lra|right; split; [lra|lia]].
Qed.

(** ** Allocation *)

Lemma ceiling_min_spec (x : string * Z) l :
  ceiling_min x l ∈ x :: l /\ forall y, y ∈ x :: l -> snd (ceiling_min x l) <= snd y.
Proof.
  unfold ceiling_min. revert x. induction l as [|y l IH]; intros x; simpl.
  - split; [by left|]. intros y ->%list_elem_of_singleton. lia.
  - set (z := if ceiling_ltb y x then y else x). assert (snd z <= snd x /\ snd z <= snd y /\ (z = x \/ z = y)) as (Hx & Hy & Hz).
    { unfold z, ceiling_ltb. destruct (Z.ltb_spec (snd y) (snd x)); simpl; [split_and!; try lia; auto|].
      destruct (Z.eqb_spec (snd y) (snd x)); simpl; [destruct (negb _)|]; split_and!; try lia; auto. }
    destruct (IH z) as [H1 H2]. set (m := fold_left _ _ _) in *.
    assert (snd m <= snd z) as Hm by (apply H2; by left). split.
    + rewrite !elem_of_cons in *. destruct H1 as [->|?]; [destruct Hz as [->| ->]|]; auto.
    + intros w. rewrite !elem_of_cons. intros [->|[->|Hw]]; [lia|lia|]. apply H2. by right.
Qed.

Lemma one_currency x (l : list string) :
  (length (remove_dups (x :: l)) =? 1)%nat = true <-> forall y, y ∈ l -> y = x.
Proof.
  rewrite Nat.eqb_eq. split.
  - intros H y Hy. assert (x ∈ remove_dups (x :: l) /\ y ∈ remove_dups (x :: l)) as [H1 H2]
      by (rewrite !elem_of_remove_dups, !elem_of_cons; auto).
    destruct (remove_dups (x :: l)) as [|z [|]]; try done. apply list_elem_of_singleton in H1, H2. congruence.
  - intros H. assert (forall z, z ∈ remove_dups (x :: l) -> z = x) as Hall
      by (intros z; rewrite elem_of_remove_dups, elem_of_cons; intros [?|?]; auto).
    pose proof (NoDup_remove_dups (x :: l)) as Hn. assert (x ∈ remove_dups (x :: l)) as Hx by (rewrite elem_of_remove_dups; by left).
    destruct (remove_dups (x :: l)) as [|z [|w r]]; [by apply not_elem_of_nil in Hx|done|].
    exfalso. apply NoDup_cons in Hn as [Hz _]. apply Hz. rewrite (Hall z), (Hall w); [by left|right; by left|by left].
Qed.

Lemma subset_spec {A} `{EqDecision A} (l1 l2 : list A) : subset l1 l2 = true <-> forall x, x ∈ l1 -> x ∈ l2.
Proof.
  unfold subset. rewrite forallb_forall. split; intros H x Hx.
  - apply list_elem_of_In, H, bool_decide_eq_true in Hx. done.
  - apply bool_decide_eq_true, H. by apply list_elem_of_In.
Qed.

(** The request is within every budget that applies to the signal. *)
Definition within_budgets (signal : ArbitratedSignal) (b : BudgetSnapshot) : Prop :=
  (forall m, m ∈ bs_account_remaining b :: bs_global_remaining b :: (snd <$> bs_strategy_remaining b) ->
     currency m = currency (bs_requested b)) /\
  minor_units (bs_requested b) <= minor_units (bs_account_remaining b) /\
  minor_units (bs_requested b) <= minor_units (bs_global_remaining b) /\
  forall id, id ∈ fst <$> as_source_strategy_keys signal ->
    exists m, (id, m) ∈ bs_strategy_remaining b /\ minor_units (bs_requested b) <= minor_units m.

Lemma budget_names b : BudgetSnapshot_post_init b = Ok b -> NoDup (fst <$> bs_strategy_remaining b).
Proof.
  unfold BudgetSnapshot_post_init. intros H. apply res_bind_Ok in H as (? & Hg%guard_res_Ok & _).
  rewrite !andb_true_iff in Hg. destruct Hg as [_ Hd]. unfold all_distinct in Hd. apply bool_decide_eq_true in Hd.
  by apply remove_dups_length_NoDup.
Qed.

Lemma currencies_agree b :
  (length (remove_dups (currency (bs_requested b) :: currency (bs_account_remaining b) ::
     currency (bs_global_remaining b) :: (currency ∘ snd <$> bs_strategy_remaining b))) =? 1)%nat = true <->
  (forall m, m ∈ bs_account_remaining b :: bs_global_remaining b :: (snd <$> bs_strategy_remaining b) ->
     currency m = currency (bs_requested b)).
Proof.
  rewrite one_currency, (list_fmap_compose snd currency). split.
  - intros H m Hm. apply H. rewrite !elem_of_cons in *. rewrite list_elem_of_fmap. destruct Hm as [->|[->|Hm]]; eauto.
  - intros H y Hy. rewrite !elem_of_cons, list_elem_of_fmap in Hy.
    destruct Hy as [->|[->|(m & -> & Hm)]]; apply H; rewrite !elem_of_cons; auto.
Qed.

Lemma strategy_ceilings budgets ids n :
  NoDup (fst <$> budgets) -> (forall id, id ∈ ids -> id ∈ fst <$> budgets) ->
  exists cs, res_map (strategy_ceiling budgets) ids = Ok cs /\
    ((forall c, c ∈ cs -> n <= snd c) <-> forall id, id ∈ ids -> exists m, (id, m) ∈ budgets /\ n <= minor_units m).
Proof.
  intros Hn Hin. destruct (res_map_total (strategy_ceiling budgets)
      (fun id c => exists m, (id, m) ∈ budgets /\ snd c = minor_units m) ids) as (cs & -> & Hcs).
  { intros id Hid. apply Hin, list_elem_of_fmap in Hid as ([k m] & -> & Hm). unfold strategy_ceiling.
    cbn [fst]. rewrite (odict_get_NoDup _ _ _ Hn Hm). eauto. }
  exists cs. split; [done|]. split.
  - intros H id [i Hi]%list_elem_of_lookup. destruct (Forall2_lookup_l _ _ _ _ _ Hcs Hi) as (c & Hc & m & Hm & E).
    exists m. split; [done|]. rewrite <- E. apply H. by eapply list_elem_of_lookup_2.
  - intros H c [i Hi]%list_elem_of_lookup. destruct (Forall2_lookup_r _ _ _ _ _ Hcs Hi) as (id & Hid & m & Hm & ->).
    destruct (H id) as (m' & Hm' & Hle); [by eapply list_elem_of_lookup_2|].
    apply (odict_get_NoDup _ _ _ Hn) in Hm, Hm'. congruence.
Qed.

(** An allocation is approved exactly within all budgets: for a valid snapshot
    [allocate] always returns, approves the requested amount when all amounts have one
    currency and the request is within the account, the global and every source
    strategy's remaining budget, and gives no allocation otherwise. *)
Theorem allocation_iff_within_budgets signal b :
  BudgetSnapshot_post_init b = Ok b ->
  exists d, allocate signal b = Ok d /\
    (al_reason d = APPROVED <-> within_budgets signal b) /\
    match al_allocation d with
    | Some p => al_reason d = APPROVED /\ pa_amount p = bs_requested b /\ pa_arbitrated_signal p = signal
    | None => al_reason d <> APPROVED
    end.
Proof.
  intros Hn%budget_names. unfold allocate. pose proof (currencies_agree b) as Hcur.
  destruct (length (remove_dups _) =? 1)%nat; cbn [negb].
  2:{ eexists. split; [done|]. split; [|done]. split; [done|]. intros [Hc _]. by apply Hcur in Hc. }
  assert (fold_left (fun d x => odict_set (fst x) (snd x) d) (bs_strategy_remaining b) [] = bs_strategy_remaining b) as ->.
  { rewrite (odict_of_pairs fst snd) by done. rewrite <- (list_fmap_id (bs_strategy_remaining b)) at 2.
    apply list_fmap_ext. by intros i [? ?] _. }
  set (ids := remove_dups (fst <$> as_source_strategy_keys signal)).
  destruct (subset ids _) eqn:Esub; cbn [negb].
  2:{ eexists. split; [done|]. split; [|done]. split; [done|]. intros (_ & _ & _ & H).
      assert (subset ids (fst <$> bs_strategy_remaining b) = true); [|congruence]. apply subset_spec. intros id Hid.
      unfold ids in Hid. rewrite elem_of_remove_dups in Hid. destruct (H id Hid) as (m & Hm & _). apply list_elem_of_fmap. by exists (id, m). }
  rewrite subset_spec in Esub.
  destruct (strategy_ceilings (bs_strategy_remaining b) (sort_by str_leb ids) (minor_units (bs_requested b)) Hn) as (cs & -> & Hcs).
  { intros id. rewrite elem_of_sort_by. auto. }
  cbn [mbind res_bind]. destruct (ceiling_min_spec ("ACCOUNT", minor_units (bs_account_remaining b))
    (("GLOBAL", minor_units (bs_global_remaining b)) :: cs)) as [Hin Hle].
  destruct (ceiling_min _ _) as [scope ceiling]. cbn [snd] in Hle.
  assert (minor_units (bs_requested b) <= ceiling <-> within_budgets signal b) as Hiff.
  { unfold within_budgets. split.
    - intros H. split; [by apply Hcur|]. split; [transitivity ceiling; [done|apply (Hle ("ACCOUNT", _)); by left]|].
      split; [transitivity ceiling; [done|apply (Hle ("GLOBAL", _)); right; by left]|].
      intros id Hid. apply Hcs; [|by rewrite elem_of_sort_by; unfold ids; rewrite elem_of_remove_dups].
      intros c Hc. transitivity ceiling; [done|]. apply Hle. right. by right.
    - intros (_ & H1 & H2 & H3). rewrite !elem_of_cons in Hin. destruct Hin as [[= _ ->]|[[= _ ->]|Hin]]; [done|done|].
      apply (proj2 Hcs) in Hin; [done|]. intros id. rewrite elem_of_sort_by. unfold ids. rewrite elem_of_remove_dups. apply H3. }
  destruct (Z.ltb_spec ceiling (minor_units (bs_requested b))); eexists; (split; [done|]); cbn [al_reason al_allocation];
    rewrite <- Hiff; (split; [split; [done || lia|done || lia]|done]).
Qed.

(** ** Samples *)

Module Signals.
Import CatalogProps.Strategy.

Definition released_catalog : catalog := [(("S1", "1"), mk_CatalogEntry (manifest RS_RELEASED) code digest)].
Definition arbiter : SignalArbiter := mk_SignalArbiter (Some released_catalog) 8 [] [].
Definition context (b : Broker) (symbol : string) : RuntimeContext :=
  mk_RuntimeContext "S1" "1" b "A1" "DIGITEVEN" symbol 60 "1" [].
Definition signal (id : string) (b : Broker) (symbol : string) (d : Direction) (until : Z) : StrategySignal :=
  mk_StrategySignal id "corr" (context b symbol) d (day 1) (day until) (day 1) [("rsi", "70")].
Definition hashed (s : string) : string := "d".

Definition signals : list StrategySignal :=
  [signal "a" DERIV "frxEURUSD" CALL 5; signal "b" DERIV "frxEURUSD" CALL 4; signal "c" IQ_OPTION "EURUSD" PUT 2;
   signal "d" DERIV "R_100" CALL 5; signal "e" DERIV "R_100" PUT 5; signal "a" DERIV "R_50" PUT 5].

Definition candidate (id : string) (margin sample : Z) : RankedSignalCandidate :=
  mk_RankedSignalCandidate id "S1" "R_100" (Finite (mk_dec margin (-2))) sample.
Definition candidates : list RankedSignalCandidate := [candidate "a" 5 10; candidate "b" 7 10; candidate "c" 7 20].

Definition arbitrated : ArbitratedSignal :=
  mk_ArbitratedSignal "d" "ARBITER-d" (arbitration_key (context DERIV "R_100")) (context DERIV "R_100") CALL (day 5) ["a"] [("S1", "1")].
Definition budget : BudgetSnapshot :=
  mk_BudgetSnapshot (mk_Money 100 "USD") [("S1", mk_Money 100 "USD")] (mk_Money 500 "USD") (mk_Money 900 "USD").
End Signals.

Import CatalogProps.Strategy Signals.

Lemma utc_check l : forallb (fun s => bool_decide (dt_offset (ss_valid_until s) = Some 0)) l = true -> utc_signals l.
Proof. rewrite forallb_forall. intros H s Hs%list_elem_of_In. by apply (bool_decide_eq_true _), H. Qed.

Lemma arbitration_decides_witness :
  exists ds, arbitrate_all Signals.hashed signals (day 3) arbiter = Ok (ds, extend_audit ds arbiter) /\
    NoDup (ad_arbitration_key <$> ds).
Proof.
  destruct (arbitration_decides Signals.hashed (fun _ => eq_refl) signals (day 3) arbiter released_catalog eq_refl)
    as (ds & H1 & H2 & _); [apply utc_check; vm_compute; reflexivity|]. exists ds. split; [exact H1|exact H2].
Defined.

(** One consensus, one market without live signals, one with opposing signals. *)
Example sample_decisions :
  match arbitrate_all Signals.hashed signals (day 3) arbiter with
  | Ok (ds, _) => ad_reason <$> ds
  | Err _ => []
  end = [OPPOSING_SIGNALS_CANCELLED; CONSENSUS_NO_STAKE_SUM; ALL_SIGNALS_EXPIRED].
Proof. vm_compute. reflexivity. Qed.

Lemma cross_broker_market_is_unique_witness :
  exists ds, arbitrate_cross_broker Signals.hashed signals (day 1) arbiter = Ok (ds, extend_audit ds arbiter) /\
    NoDup (omap market_of ds).
Proof.
  destruct (cross_broker_market_is_unique Signals.hashed (fun _ => eq_refl) signals (day 1) arbiter released_catalog eq_refl)
    as (ds & H1 & H2 & _); [apply utc_check; vm_compute; reflexivity|]. exists ds. split; [exact H1|exact H2].
Defined.

Lemma ranked_winner_is_best_witness :
  rd_winner_signal_id (fst (arbitrate_ranked candidates arbiter)) = Some "c" /\
  forall cs', cs' ≡ₚ candidates -> fst (arbitrate_ranked cs' arbiter) = fst (arbitrate_ranked candidates arbiter).
Proof.
  split; [vm_compute; reflexivity|].
  apply (ranked_winner_is_best candidates arbiter); [apply (bool_decide_unpack _); vm_compute; exact I|discriminate].
Defined.

Lemma allocation_iff_within_budgets_witness :
  exists d, allocate arbitrated budget = Ok d /\ (al_reason d = APPROVED <-> within_budgets arbitrated budget).
Proof.
  destruct (allocation_iff_within_budgets arbitrated budget) as (d & H1 & H2 & _); [vm_compute; reflexivity|].
  exists d. split; [exact H1|exact H2].
Defined.
