(* ===== verification/DerivJson.v ===== *)
(** * Documents of the Deriv API

    [apps/deriv_worker/schema.py] and [encode_deriv_json] of
    [apps/deriv_worker/websocket_client.py], with what the worker uses of Python to look
    at decoded values: [str], [int(str(x))], [Decimal(str(x))], truth values.

    The worker reads JSON with [parse_float=Decimal], so here [VFloat text] is the
    [Decimal] of that text; no binary float occurs. *)

From S2P Require Import Prelude Datetime Dec PyFloat Json.
From Stdlib Require Import Ascii.

Definition obj : Type := list (string * json).

(** ** Looking at values *)

(** [d.get(k)] and [d.get(k, default)] *)
Definition get (d : obj) (k : string) : json := default VNull (dict_get k d).
Definition get_or (d : obj) (k : string) (dflt : json) : json := default dflt (dict_get k d).

Definition is_none (v : json) : bool := match v with VNull => true | _ => false end.
Definition as_dict (v : json) : option obj := match v with VDict d => Some d | _ => None end.
Definition as_list (v : json) : option (list json) := match v with VList l => Some l | _ => None end.
Definition as_str (v : json) : option string := match v with VStr s => Some s | _ => None end.

(** [isinstance(v, int)]: a [bool] is an [int]. *)
Definition as_int (v : json) : option Z :=
  match v with VInt n => Some n | VBool b => Some (if b then 1 else 0) | _ => None end.

Definition has_key (d : obj) (k : string) : bool := existsb (fun kv => String.eqb (fst kv) k) d.

(** ** Text of values *)

Fixpoint zeros (n : nat) : string := match n with O => "" | S n => String "0" (zeros n) end.

(** The digits with the point after the first [place] of them. *)
Definition put_point (digits : string) (place : Z) : string :=
  let len := Z.of_nat (String.length digits) in
  if place <=? 0 then "0." +:+ zeros (Z.to_nat (- place)) +:+ digits
  else if len <=? place then digits +:+ zeros (Z.to_nat (place - len))
  else String.substring 0 (Z.to_nat place) digits +:+ "." +:+ str_drop (Z.to_nat place) digits.

(** [Decimal.__str__] of [coef * 10^exp], [0 <= coef] *)
Definition scientific (coef exp : Z) : string :=
  let digits := decimal coef in
  let left := exp + Z.of_nat (String.length digits) in
  if (exp <=? 0) && (-6 <? left) then put_point digits left
  else put_point digits 1 +:+ "E" +:+ (if left - 1 <? 0 then "" else "+") +:+ encode_int (left - 1) "".

(** [format(d, "f")] of [coef * 10^exp], [0 <= coef] *)
Definition fixed (coef exp : Z) : string :=
  if (coef =? 0) && (0 <? exp) then "0"
  else let digits := decimal coef in put_point digits (exp + Z.of_nat (String.length digits)).

Definition with_decimal (show : Z -> Z -> string) (text : string) : string :=
  match parse_decimal text with
  | Some (Finite d) => (if str_startswith "-" text then "-" else "") +:+ show (Z.abs (coef d)) (dexp d)
  | _ => text
  end.

(** The [Decimal] named by a text, and a [Decimal] as a value. *)
Definition decimal_str (text : string) : string := with_decimal scientific text.
Definition dec_str (d : dec) : string :=
  (if coef d <? 0 then "-" else "") +:+ scientific (Z.abs (coef d)) (dexp d).
Definition VDecimal (d : dec) : json := VFloat (dec_str d).

Fixpoint repr (v : json) : string :=
  match v with
  | VNull => "None"
  | VBool b => if b then "True" else "False"
  | VInt n => encode_int n ""
  | VFloat t => "Decimal('" +:+ decimal_str t +:+ "')"
  | VStr s => repr_str s
  | VList l => "[" +:+ String.concat ", " (repr <$> l) +:+ "]"
  | VDict d => "{" +:+ String.concat ", " ((fun kv => repr_str (fst kv) +:+ ": " +:+ repr (snd kv)) <$> d) +:+ "}"
  end.

(** [str(v)] *)
Definition str (v : json) : string :=
  match v with VStr s => s | VFloat t => decimal_str t | _ => repr v end.

(** [bool(v)] *)
Definition truthy (v : json) : bool :=
  match v with
  | VNull => false
  | VBool b => b
  | VInt n => negb (n =? 0)
  | VFloat t => match parse_decimal t with Some (Finite d) => negb (coef d =? 0) | _ => true end
  | VStr s => negb (String.eqb s "")
  | VList l => match l with [] => false | _ => true end
  | VDict d => match d with [] => false | _ => true end
  end.

(** Digits with single underscores between them: their number and value. *)
Fixpoint int_digits (after_digit : bool) (n : nat) (acc : Z) (s : string) : option (nat * Z) :=
  match s with
  | "" => if after_digit then Some (n, acc) else None
  | String c s' =>
      match digit_val c with
      | Some d => int_digits true (S n) (10 * acc + d) s'
      | None => if (c =? "_")%char && after_digit then int_digits false n acc s' else None
      end
  end.

(** [int(text)] *)
Definition py_int (text : string) : res Z :=
  let '(sign, s) := take_sign (str_strip text) in
  match int_digits false 0 0 s with
  | Some (n, v) => if Z.of_nat n <=? max_str_digits then Ok (sign * v)
                   else Err (ValueError "Exceeds the limit for integer string conversion")
  | None => Err (ValueError "invalid literal for int()")
  end.

(** [Decimal(text)] *)
Definition py_decimal (text : string) : res pydec :=
  match parse_decimal text with Some d => Ok d | None => Err InvalidOperation end.

(** [Decimal(str(v))], [int(str(v))] *)
Definition decimal_of (v : json) : res pydec := py_decimal (str v).
Definition int_of (v : json) : res Z := py_int (str v).

(** [int((value * Decimal(100)).quantize(Decimal("1"), rounding=ROUND_HALF_EVEN))]: a
    quiet NaN passes through [quantize] and is refused by [int]. *)
Definition money_to_minor_units (value : pydec) : res Z :=
  match value with
  | Finite d => quantize_int ROUND_HALF_EVEN (dec_mul prec d (dec_of_Z 100))
  | Infinite | SNaN => Err InvalidOperation
  | NaN => Err (ValueError "cannot convert NaN to integer")
  end.

(** [a - b] in the default context. *)
Definition dec_sub (a b : dec) : dec :=
  let e := Z.min (dexp a) (dexp b) in
  dec_fix prec (mk_dec (coef a * 10 ^ (dexp a - e) - coef b * 10 ^ (dexp b - e)) e).

(** The sign of an infinity is not kept: an infinite difference and an invalid one are
    both refused by the conversion that follows every subtraction of the worker. *)
Definition pydec_sub (a b : pydec) : res pydec :=
  match a, b with
  | SNaN, _ | _, SNaN => Err InvalidOperation
  | NaN, _ | _, NaN => Ok NaN
  | Infinite, Infinite => Err InvalidOperation
  | Infinite, _ | _, Infinite => Ok Infinite
  | Finite x, Finite y => Ok (Finite (dec_sub x y))
  end.

Definition dec_eqb (a b : dec) : bool := match dec_compare a b with Eq => true | _ => false end.

(** [a == d] for a finite [d]: a signalling NaN raises. *)
Definition pydec_eq (a : pydec) (d : dec) : res bool :=
  match a with Finite x => Ok (dec_eqb x d) | Infinite | NaN => Ok false | SNaN => Err InvalidOperation end.

(** [Decimal(minor_units) / Decimal(100)] for a positive amount. *)
Definition decimal_amount (minor : Z) : dec := dec_div (dec_of_Z minor) (dec_of_Z 100).

(** [int(moment.timestamp())]: seconds since the epoch as a float, truncated. *)
Definition epoch_instant : Z := instant (mk_datetime 1970 1 1 0 0 0 0 (Some 0)).
Definition int_timestamp (moment : datetime) : Z :=
  float_trunc (float_of_ratio (instant moment - epoch_instant) 1000000).

(** ** Reading and writing documents *)

Definition schema_incompatible : exn := DerivWorkerError SCHEMA_INCOMPATIBLE "DERIV_SCHEMA_INCOMPATIBLE".

(** [parse_constant=_reject_constant]: [NaN] and the infinities are refused. *)
Definition reject_constant (s : string) : parsed json :=
  if existsb (fun p => String.prefix p s) ["NaN"; "Infinity"; "-Infinity"] then Unparsed JSONDecodeError
  else scan_scalar s.

Definition parse_deriv_json (depth : nat) (raw : string) : res obj :=
  match loads_with reject_constant depth raw with
  | inr RecursionLimit => Err RecursionError
  | inr (JSONDecodeError | DigitLimit) => Err schema_incompatible
  | inl (VDict parsed) => Ok parsed
  | inl _ => Err schema_incompatible
  end.

Definition require_mapping (payload : obj) (name : string) : res obj :=
  match get payload name with VDict d => Ok d | _ => Err schema_incompatible end.

Definition require_list (payload : obj) (name : string) : res (list json) :=
  match get payload name with VList l => Ok l | _ => Err schema_incompatible end.

Definition require_str (payload : obj) (name : string) : res string :=
  match get payload name with
  | VStr s => if String.eqb s "" then Err schema_incompatible else Ok s
  | _ => Err schema_incompatible
  end.

Definition require_int (payload : obj) (name : string) : res Z :=
  match get payload name with VInt n => Ok n | _ => Err schema_incompatible end.

Definition require_decimal (payload : obj) (name : string) : res dec :=
  result ← match get payload name with
           | VFloat t => py_decimal t
           | (VStr _ | VInt _) as v =>
               match decimal_of v with Ok d => Ok d | Err _ => Err schema_incompatible end
           | _ => Err schema_incompatible
           end;
  match result with
  | Finite d => Ok d
  | _ => Err (DerivWorkerError SCHEMA_INCOMPATIBLE "MARKET_DATA_INVALID")
  end.

Definition category_value (c : DerivErrorCategory) : string :=
  match c with
  | AUTH_FAILED => "AUTH_FAILED" | RATE_LIMITED => "RATE_LIMITED" | INVALID_REQUEST => "INVALID_REQUEST"
  | SCHEMA_INCOMPATIBLE => "SCHEMA_INCOMPATIBLE" | NETWORK_ERROR => "NETWORK_ERROR"
  | SERVER_ERROR => "SERVER_ERROR" | SUBSCRIPTION_ERROR => "SUBSCRIPTION_ERROR"
  | ACCOUNT_MODE_FORBIDDEN => "ACCOUNT_MODE_FORBIDDEN"
  end.

(** The category of an error code of the service. *)
Definition error_category (code : string) : DerivErrorCategory :=
  let normalized := str_lower code in
  if str_contains "rate" normalized || str_contains "throttle" normalized then RATE_LIMITED
  else if str_contains "auth" normalized || str_contains "permission" normalized then AUTH_FAILED
  else INVALID_REQUEST.

Definition validate_response (payload : obj) (expected_type : string) : res unit :=
  match get payload "error" with
  | VDict error =>
      let category := error_category (str (get_or error "code" (VStr ""))) in
      Err (DerivWorkerError category ("DERIV_" +:+ category_value category))
  | _ =>
      match get payload "msg_type" with
      | VStr t => guard_res (String.eqb t expected_type) schema_incompatible
      | _ => Err schema_incompatible
      end
  end.

Definition redact_text (value : string) : string :=
  let lowered := str_lower value in
  if existsb (fun marker => str_contains marker lowered) ["bearer "; "otp="; "authorization"; "token"]
  then "[REDACTED]" else value.

(** [json.dumps(s, ensure_ascii=False)] *)
Definition escape_raw (c : ascii) (rest : string) : string :=
  match escape_of c with
  | Some e => String backslash (String e rest)
  | None => if 32 <=? code c then String c rest else escape_char c rest
  end.

Fixpoint escape_raw_string (s rest : string) : string :=
  match s with
  | "" => String quote rest
  | String c s' => escape_raw c (escape_raw_string s' rest)
  end.

Definition dumps_str (s : string) : string := String quote (escape_raw_string s "").

Fixpoint encode_deriv_json (v : json) : string :=
  match v with
  | VNull => "null"
  | VBool b => if b then "true" else "false"
  | VInt n => encode_int n ""
  | VFloat t => with_decimal fixed t
  | VStr s => dumps_str s
  | VDict d =>
      "{" +:+ String.concat "," ((fun kv => dumps_str (fst kv) +:+ ":" +:+ encode_deriv_json (snd kv)) <$> d) +:+ "}"
  | VList l => "[" +:+ String.concat "," (encode_deriv_json <$> l) +:+ "]"
  end.

Example document :
  encode_deriv_json (VDict [("buy", VStr "p-1"); ("price", VDecimal (decimal_amount 1050)); ("big", VFloat "1.5E+3");
    ("subscribe", VInt 1)])
  = String.concat (String quote "") ["{"; "buy"; ":"; "p-1"; ","; "price"; ":10.5,"; "big"; ":1500,"; "subscribe"; ":1}"].
Proof. vm_compute. reflexivity. Qed.
