(* ===== verification/DerivTransport.v ===== *)
(** * The transport of the Deriv worker

    [apps/deriv_worker/validators.py] (without the check of the URL),
    [request_allowlist.py], [suspension.py] and [websocket_client.py].

    The connection and the scheduling of the threads are arguments: what [connect] and
    [send] do, and the frames that the reader thread takes from the connection while a
    request waits.  Clock readings are arguments of type [float].  [dw_sent] is what was
    handed to the connection. *)

From S2P Require Import Prelude Datetime Dec PyFloat Json DerivJson.

(** ** Validation of outbound requests *)

Definition FORBIDDEN_OPERATIONS_DENYLIST : list string :=
  ["auto_start"; "bulk_purchase"; "cashier"; "deposit"; "withdraw"; "withdrawal"].

Definition TRADING_OPERATION_DENYLIST : list string :=
  ["buy"; "cancel"; "contract_update"; "proposal"; "sell"] ++ FORBIDDEN_OPERATIONS_DENYLIST.

Definition READ_ONLY_PROPOSAL_CONTRACT_TYPES : list string :=
  ["CALL"; "PUT"; "DIGITDIFF"; "DIGITEVEN"; "DIGITMATCH"; "DIGITODD"; "DIGITOVER"; "DIGITUNDER"].

Definition READ_ONLY_PROPOSAL_ALLOWED_KEYS : list string :=
  ["amount"; "barrier"; "basis"; "contract_type"; "currency"; "duration"; "duration_unit"; "proposal"; "req_id";
   "underlying_symbol"].

Definition DIGIT_BARRIER_CONTRACT_TYPES : list string := ["DIGITDIFF"; "DIGITMATCH"; "DIGITOVER"; "DIGITUNDER"].
Definition CALL_PUT_CONTRACT_TYPES : list string := ["CALL"; "PUT"].

Definition is_in (s : string) (l : list string) : bool := existsb (String.eqb s) l.

(** [v == n], across the numeric types. *)
Definition eq_int (v : json) (n : Z) : bool :=
  match v with
  | VFloat t => match parse_decimal t with Some (Finite d) => dec_eqb d (dec_of_Z n) | _ => false end
  | _ => match as_int v with Some m => m =? n | None => false end
  end.

(** [v == s] *)
Definition eq_str (v : json) (s : string) : bool := match v with VStr t => String.eqb t s | _ => false end.

Definition validate_public_read_only_proposal (payload : obj) : bool :=
  let contract_type := str_upper (str_strip (str (get_or payload "contract_type" (VStr "")))) in
  let call_put := is_in contract_type CALL_PUT_CONTRACT_TYPES in
  forallb (fun kv => is_in (fst kv) READ_ONLY_PROPOSAL_ALLOWED_KEYS) payload
  && eq_int (get payload "proposal") 1
  && is_in contract_type READ_ONLY_PROPOSAL_CONTRACT_TYPES
  && match decimal_of (get_or payload "amount" (VStr "")) with
     | Ok (Finite amount) => 0 <? coef amount
     | _ => false
     end
  && eq_str (get payload "basis") "stake" && eq_str (get payload "currency") "USD"
  && eq_str (get payload "duration_unit") "t"
  && match get payload "duration" with
     | VInt duration =>
         (0 <? duration)
         && negb (call_put && negb (existsb (Z.eqb duration) [1; 5; 10]))
         && negb (negb call_put && negb (duration =? 1))
     | _ => false
     end
  && match get payload "underlying_symbol" with VStr symbol => nonblank symbol | _ => false end
  && (if is_in contract_type DIGIT_BARRIER_CONTRACT_TYPES then
        match dict_get "barrier" payload with
        | Some v => match int_of v with Ok barrier => in_range 0 barrier 9 | Err _ => false end
        | None => false
        end
      else negb (has_key payload "barrier")).

Definition validate_deriv_account (account_payload : obj) (expected_account_type : string) : res unit :=
  _ ← guard_res (is_in expected_account_type ["demo"; "real"]) (ValueError "expected account type is invalid");
  guard_res (eq_str (get account_payload "account_type") expected_account_type)
    (DerivWorkerError ACCOUNT_MODE_FORBIDDEN "DERIV_ACCOUNT_TYPE_MISMATCH").

Definition trading_disabled : exn := DerivWorkerError ACCOUNT_MODE_FORBIDDEN "DERIV_TRADING_OPERATION_DISABLED".

Definition validate_outbound_deriv_request (opcode : string) (payload : obj) (demo_authenticated : bool) : res unit :=
  if is_in opcode FORBIDDEN_OPERATIONS_DENYLIST
     || existsb (fun kv => is_in (fst kv) FORBIDDEN_OPERATIONS_DENYLIST) payload then Err trading_disabled
  else if negb demo_authenticated && String.eqb opcode "proposal" then
    guard_res (validate_public_read_only_proposal payload) trading_disabled
  else
    guard_res (negb (negb demo_authenticated
                     && (is_in opcode TRADING_OPERATION_DENYLIST
                         || existsb (fun kv => is_in (fst kv) TRADING_OPERATION_DENYLIST) payload)))
      trading_disabled.

Inductive DerivOperation : Type :=
| OP_PING | OP_TIME | OP_ACTIVE_SYMBOLS | OP_CONTRACTS_LIST | OP_CONTRACTS_FOR | OP_TICKS | OP_TICKS_HISTORY
| OP_FORGET | OP_FORGET_ALL | OP_BALANCE | OP_BUY | OP_PROPOSAL | OP_PROPOSAL_OPEN_CONTRACT | OP_STATEMENT
| OP_PROFIT_TABLE | OP_PORTFOLIO.

#[export] Instance DerivOperation_eq_dec : EqDecision DerivOperation.
Proof. solve_decision. Defined.

Definition operation_value (op : DerivOperation) : string :=
  match op with
  | OP_PING => "ping" | OP_TIME => "time" | OP_ACTIVE_SYMBOLS => "active_symbols"
  | OP_CONTRACTS_LIST => "contracts_list" | OP_CONTRACTS_FOR => "contracts_for" | OP_TICKS => "ticks"
  | OP_TICKS_HISTORY => "ticks_history" | OP_FORGET => "forget" | OP_FORGET_ALL => "forget_all"
  | OP_BALANCE => "balance" | OP_BUY => "buy" | OP_PROPOSAL => "proposal"
  | OP_PROPOSAL_OPEN_CONTRACT => "proposal_open_contract" | OP_STATEMENT => "statement"
  | OP_PROFIT_TABLE => "profit_table" | OP_PORTFOLIO => "portfolio"
  end.

Definition PUBLIC_READ_ONLY_OPERATIONS : list DerivOperation :=
  [OP_PING; OP_TIME; OP_ACTIVE_SYMBOLS; OP_CONTRACTS_LIST; OP_CONTRACTS_FOR; OP_TICKS; OP_TICKS_HISTORY; OP_PROPOSAL;
   OP_FORGET; OP_FORGET_ALL].

Definition DEMO_OPERATIONS : list DerivOperation :=
  PUBLIC_READ_ONLY_OPERATIONS ++
  [OP_BALANCE; OP_BUY; OP_PROPOSAL; OP_PROPOSAL_OPEN_CONTRACT; OP_STATEMENT; OP_PROFIT_TABLE; OP_PORTFOLIO].

(** For an operation of the enumeration, as every caller passes it. *)
Definition validate_read_only_request (op : DerivOperation) (payload : obj) (demo_authenticated : bool)
    : res DerivOperation :=
  _ ← validate_outbound_deriv_request (operation_value op) payload demo_authenticated;
  let allowed := if demo_authenticated then DEMO_OPERATIONS else PUBLIC_READ_ONLY_OPERATIONS in
  if negb (bool_decide (op ∈ allowed)) || negb (has_key payload (operation_value op)) then
    Err (DerivWorkerError INVALID_REQUEST "DERIV_OPERATION_NOT_ALLOWLISTED")
  else Ok op.

(** ** The client *)

Inductive item : Type :=
| Response (response : obj)
| Failure (e : exn).

Inductive TransportRouteResult : Type :=
| DELIVERED | DROPPED_BACKPRESSURE | DROPPED_UNKNOWN_TYPE | DELIVERED_RESPONSE.

Record TransportHealthSnapshot : Type := mk_TransportHealthSnapshot {
  th_ticks_dropped_total : Z; th_balance_dropped_total : Z; th_contract_events_overflow_total : Z;
  th_proposal_events_overflow_total : Z; th_unknown_msg_type_total : Z; th_parse_failures_total : Z;
  th_consecutive_parse_failures : Z; th_last_drop_monotonic : option float; th_duplicate_response_total : Z;
  th_unsigned_event_total : Z; th_last_rx_age_seconds : float; th_pings_sent_total : Z; th_pongs_received_total : Z;
  th_heartbeat_kills_total : Z; th_last_kill_reason : option string; th_last_kill_monotonic : option float;
  th_suspend_detections_total : Z
}.

#[export] Instance TransportHealthSnapshot_eta : Eta TransportHealthSnapshot := fun h => mk_TransportHealthSnapshot
  (th_ticks_dropped_total h) (th_balance_dropped_total h) (th_contract_events_overflow_total h)
  (th_proposal_events_overflow_total h) (th_unknown_msg_type_total h) (th_parse_failures_total h)
  (th_consecutive_parse_failures h) (th_last_drop_monotonic h) (th_duplicate_response_total h)
  (th_unsigned_event_total h) (th_last_rx_age_seconds h) (th_pings_sent_total h) (th_pongs_received_total h)
  (th_heartbeat_kills_total h) (th_last_kill_reason h) (th_last_kill_monotonic h) (th_suspend_detections_total h).

(** The object.  [dw_connected] is whether [_connection] is set; [dw_pending] are the
    keys of [_pending] and [dw_responses] the contents of the response queues, which hold
    one item each; [dw_health] are the counters, their [th_last_rx_age_seconds] is
    computed by [health_snapshot] only. *)
Record DerivWebSocketClient : Type := mk_DerivWebSocketClient {
  dw_demo_authenticated : bool; dw_connected : bool; dw_pending : list Z; dw_responses : list (Z * item);
  dw_stream_events : list item; dw_account_events : list item; dw_contract_events : list item;
  dw_proposal_events : list item; dw_health : TransportHealthSnapshot; dw_last_rx_monotonic : float;
  dw_pending_ping_deadline : option float; dw_last_watchdog_tick : float; dw_failure_recorded : bool;
  dw_reader_stop : bool; dw_reader_running : bool; dw_reader_error : option exn; dw_next_request_id : Z;
  dw_sent : list obj
}.

#[export] Instance DerivWebSocketClient_eta : Eta DerivWebSocketClient := fun c => mk_DerivWebSocketClient
  (dw_demo_authenticated c) (dw_connected c) (dw_pending c) (dw_responses c) (dw_stream_events c)
  (dw_account_events c) (dw_contract_events c) (dw_proposal_events c) (dw_health c) (dw_last_rx_monotonic c)
  (dw_pending_ping_deadline c) (dw_last_watchdog_tick c) (dw_failure_recorded c) (dw_reader_stop c)
  (dw_reader_running c) (dw_reader_error c) (dw_next_request_id c) (dw_sent c).

Definition new_DerivWebSocketClient (demo_authenticated : bool) (now : float) : DerivWebSocketClient :=
  mk_DerivWebSocketClient demo_authenticated false [] [] [] [] [] []
    (mk_TransportHealthSnapshot 0 0 0 0 0 0 0 None 0 0 (float_of_Z 0) 0 0 0 None None 0)
    now None now false false false None 1 [].

Definition MAX_CONSECUTIVE_PARSE_FAILURES : Z := 5.
Definition HEARTBEAT_PING_IDLE_SECONDS : float := float_of_Z 15.
Definition HEARTBEAT_PONG_TIMEOUT_SECONDS : float := float_of_Z 10.
Definition HEARTBEAT_RX_STALL_SECONDS : float := float_of_Z 30.
Definition SUSPEND_GAP_SECONDS : float := float_of_Z 10.

Definition as_worker_error (e : exn) : exn :=
  match e with DerivWorkerError _ _ => e | _ => DerivWorkerError NETWORK_ERROR "DERIV_NETWORK_ERROR" end.

(** *** Counters *)

Inductive drop_kind : Type :=
| DROP_tick | DROP_balance | DROP_contract_event | DROP_proposal_event | DROP_unknown_msg_type
| DROP_duplicate_response | DROP_unsigned_event.

Definition record_drop (kind : drop_kind) (now : float) (c : DerivWebSocketClient) : DerivWebSocketClient :=
  c <| dw_health ::= fun h =>
    let h := match kind with
             | DROP_tick => h <| th_ticks_dropped_total ::= Z.succ |>
             | DROP_balance => h <| th_balance_dropped_total ::= Z.succ |>
             | DROP_contract_event => h <| th_contract_events_overflow_total ::= Z.succ |>
             | DROP_proposal_event => h <| th_proposal_events_overflow_total ::= Z.succ |>
             | DROP_unknown_msg_type => h <| th_unknown_msg_type_total ::= Z.succ |>
             | DROP_duplicate_response => h <| th_duplicate_response_total ::= Z.succ |>
             | DROP_unsigned_event => h <| th_unsigned_event_total ::= Z.succ |>
             end in
    h <| th_last_drop_monotonic := Some now |> |>.

Definition record_parse_failure (now : float) (c : DerivWebSocketClient) : bool * DerivWebSocketClient :=
  let c := c <| dw_health ::= fun h => h <| th_parse_failures_total ::= Z.succ |>
                <| th_consecutive_parse_failures ::= Z.succ |> <| th_last_drop_monotonic := Some now |> |> in
  (MAX_CONSECUTIVE_PARSE_FAILURES <=? th_consecutive_parse_failures (dw_health c), c).

Definition record_received_frame (now : float) (c : DerivWebSocketClient) : DerivWebSocketClient :=
  c <| dw_last_rx_monotonic := now |> <| dw_pending_ping_deadline := None |>.

Definition health_snapshot (now : float) (c : DerivWebSocketClient) : TransportHealthSnapshot :=
  let age := fsub now (dw_last_rx_monotonic c) in
  (dw_health c) <| th_last_rx_age_seconds := if fltb (float_of_Z 0) age then age else float_of_Z 0 |>.

(** *** Queues *)

(** [_put_latest]: a full queue loses its oldest item. *)
Definition put_latest (maxsize : nat) (q : list item) (response : obj) : list item * bool :=
  if (length q <? maxsize)%nat then (q ++ [Response response], false)
  else (drop 1 q ++ [Response response], true).

(** [put_nowait], then [put(timeout=1.0)], during which the consumer takes [taken]
    items from a full queue. *)
Definition put_patiently (maxsize : nat) (taken : nat) (q : list item) (response : obj) : option (list item) :=
  if (length q <? maxsize)%nat then Some (q ++ [Response response])
  else match taken with
       | O => None
       | S _ => Some (drop taken q ++ [Response response])
       end.

(** The content of the response queue of a request. *)
Definition response_of (id : Z) (c : DerivWebSocketClient) : option item :=
  snd <$> List.find (fun p => fst p =? id) (dw_responses c).

(** [put_nowait] on the response queue of a request. *)
Definition answer (id : Z) (i : item) (c : DerivWebSocketClient) : DerivWebSocketClient :=
  match response_of id c with
  | Some _ => c
  | None => c <| dw_responses ::= fun l => (id, i) :: l |>
  end.

(** [_force_queue_error]: the queue holds nothing but the error. *)
Definition force_queue_error (e : exn) : list item := [Failure e].

(** The four streams of events. *)
Definition set_streams (q : list item) (c : DerivWebSocketClient) : DerivWebSocketClient :=
  c <| dw_stream_events := q |> <| dw_account_events := q |> <| dw_contract_events := q |>
    <| dw_proposal_events := q |>.

Definition answer_all (ids : list Z) (i : item) (c : DerivWebSocketClient) : DerivWebSocketClient :=
  foldl (fun c id => answer id i c) c ids.

Definition fail_reader (e : exn) (c : DerivWebSocketClient) : DerivWebSocketClient :=
  if dw_failure_recorded c then c
  else
    let pending := dw_pending c in
    let c := c <| dw_failure_recorded := true |> <| dw_reader_error := Some e |> <| dw_connected := false |>
               <| dw_pending := [] |> in
    set_streams (force_queue_error e) (answer_all pending (Failure e) c).

(** [close], with the threads joined. *)
Definition close (c : DerivWebSocketClient) : DerivWebSocketClient :=
  let pending := dw_pending c in
  let c := c <| dw_reader_stop := true |> <| dw_connected := false |> <| dw_pending := [] |> in
  let c := answer_all pending (Failure (DerivWorkerError NETWORK_ERROR "DERIV_NETWORK_ERROR")) c in
  set_streams [] (c <| dw_reader_running := false |>).

(** [reconnect]; [connects] is whether [connect] succeeds. *)
Definition reconnect (connects : bool) (now : float) : py DerivWebSocketClient unit :=
  _ ← py_modify close;
  _ ← py_guard connects (DerivWorkerError NETWORK_ERROR "DERIV_NETWORK_ERROR");
  py_modify (fun c =>
    let c := c <| dw_connected := true |> <| dw_reader_error := None |> <| dw_reader_stop := false |>
               <| dw_pending := [] |> in
    let c := c <| dw_health ::= fun h => h <| th_consecutive_parse_failures := 0 |> |>
               <| dw_last_rx_monotonic := now |> <| dw_pending_ping_deadline := None |>
               <| dw_last_watchdog_tick := now |> <| dw_failure_recorded := false |> in
    (set_streams [] c) <| dw_reader_running := true |>).

(** *** The reader *)

Definition is_dict (v : json) : bool := match v with VDict _ => true | _ => false end.

(** An element of a set must be hashable. *)
Definition hashable (v : json) : bool := match v with VList _ | VDict _ => false | _ => true end.

(** The branches of [_route_response] for a message that no request waits for. *)
Definition route_event (now : float) (taken : nat) (response : obj) : py DerivWebSocketClient TransportRouteResult :=
  let msg_type := get response "msg_type" in
  let signed := is_dict (get response "subscription") in
  let unsigned := _ ← py_modify (record_drop DROP_unsigned_event now); mret DROPPED_UNKNOWN_TYPE in
  if eq_str msg_type "tick" then
    if negb signed then unsigned
    else fun c =>
      let '(q, dropped) := put_latest 128 (dw_stream_events c) response in
      let c := c <| dw_stream_events := q |> in
      if dropped : bool then (Ok DROPPED_BACKPRESSURE, record_drop DROP_tick now c) else (Ok DELIVERED, c)
  else if eq_str msg_type "balance" then
    if negb signed then unsigned
    else fun c =>
      let '(q, dropped) := put_latest 32 (dw_account_events c) response in
      let c := c <| dw_account_events := q |> in
      if dropped : bool then (Ok DROPPED_BACKPRESSURE, record_drop DROP_balance now c) else (Ok DELIVERED, c)
  else if eq_str msg_type "proposal_open_contract" then fun c =>
    match put_patiently 256 taken (dw_contract_events c) response with
    | Some q => (Ok DELIVERED, c <| dw_contract_events := q |>)
    | None => (Ok DROPPED_BACKPRESSURE, record_drop DROP_contract_event now c)
    end
  else if eq_str msg_type "proposal" then
    if negb signed then unsigned
    else fun c =>
      match put_patiently 256 taken (dw_proposal_events c) response with
      | Some q => (Ok DELIVERED, c <| dw_proposal_events := q |>)
      | None => (Ok DROPPED_BACKPRESSURE, record_drop DROP_proposal_event now c)
      end
  else if negb (hashable msg_type) then py_raise (TypeError "unhashable type")
  else if eq_str msg_type "ping" then mret DELIVERED
  else if eq_str msg_type "pong" then
    _ ← py_modify (fun c => c <| dw_health ::= fun h => h <| th_pongs_received_total ::= Z.succ |> |>);
    mret DELIVERED
  else if eq_str msg_type "error" then mret DELIVERED
  else _ ← py_modify (record_drop DROP_unknown_msg_type now); mret DROPPED_UNKNOWN_TYPE.

Definition route_response (now : float) (taken : nat) (response : obj)
    : py DerivWebSocketClient TransportRouteResult := fun c =>
  match as_int (get response "req_id") with
  | Some id =>
      if bool_decide (id ∈ dw_pending c) then
        match response_of id c with
        | None => (Ok DELIVERED_RESPONSE, answer id (Response response) c)
        | Some _ => (Ok DELIVERED_RESPONSE, record_drop DROP_duplicate_response now c)
        end
      else route_event now taken response c
  | None => route_event now taken response c
  end.

(** What [recv] gives to the reader. *)
Inductive recv_event : Type :=
| RecvText (raw : string)
| RecvBinary
| RecvError (e : exn). (* OSError or WebSocketException *)

(** One frame: when it comes, and how many items a consumer takes while the reader
    waits for room. *)
Record frame : Type := mk_frame { fr_event : recv_event; fr_now : float; fr_taken : nat }.

Definition schema_error : exn := schema_incompatible.

(** One iteration of [_reader_loop].  An exception that the loop does not handle ends
    the thread. *)
Definition reader_iteration (depth : nat) (f : frame) (c : DerivWebSocketClient) : DerivWebSocketClient :=
  let now := fr_now f in
  let malformed c :=
    let '(fatal, c) := record_parse_failure now c in
    if fatal : bool then (fail_reader schema_error c) <| dw_reader_running := false |> else c in
  if dw_reader_stop c then c <| dw_reader_running := false |>
  else match fr_event f with
       | RecvError e => (fail_reader e c) <| dw_reader_running := false |>
       | RecvBinary => malformed (record_received_frame now c)
       | RecvText raw =>
           let c := record_received_frame now c in
           match parse_deriv_json depth raw with
           | Err (DerivWorkerError _ _) => malformed c
           | Err _ => c <| dw_reader_running := false |>
           | Ok response =>
               let c := c <| dw_health ::= fun h => h <| th_consecutive_parse_failures := 0 |> |> in
               match route_response now (fr_taken f) response c with
               | (Ok _, c) => c
               | (Err _, c) => c <| dw_reader_running := false |>
               end
           end
       end.

(** The reader works through frames as long as it runs. *)
Fixpoint reader_loop (depth : nat) (frames : list frame) (c : DerivWebSocketClient) : DerivWebSocketClient :=
  match frames with
  | [] => c
  | f :: frames => if dw_reader_running c then reader_loop depth frames (reader_iteration depth f c) else c
  end.

(** *** Requests *)

(** What happens around a request: whether [connect] succeeds, what [send] raises, and
    the frames that the reader takes before the timeout. *)
Record exchange : Type := mk_exchange {
  ex_connects : bool; ex_now : float; ex_send_raises : option exn; ex_frames : list frame
}.

(** [response_queue.get(timeout)] while the reader takes frames. *)
Fixpoint wait_response (depth : nat) (id : Z) (frames : list frame) (c : DerivWebSocketClient)
    : option item * DerivWebSocketClient :=
  match response_of id c with
  | Some i => (Some i, c)
  | None =>
      match frames with
      | [] => (None, c)
      | f :: frames =>
          if dw_reader_running c then wait_response depth id frames (reader_iteration depth f c) else (None, c)
      end
  end.

(** [OSError], [TimeoutError] and [WebSocketException] *)
Definition is_network_exception (e : exn) : bool :=
  match e with OSError _ | TimeoutError | WebSocketException => true | _ => false end.

(** [self._pending.pop(request_id, None)]; the queue is then unreachable. *)
Definition forget_request (id : Z) (c : DerivWebSocketClient) : DerivWebSocketClient :=
  c <| dw_pending ::= List.filter (fun i => negb (i =? id)) |>
    <| dw_responses ::= List.filter (fun p => negb (fst p =? id)) |>.

(** The [try] of [request], before its [finally]. *)
Definition send_and_wait (depth : nat) (x : exchange) (id : Z) (request : obj) : py DerivWebSocketClient item :=
  _ ← py_modify (fun c => c <| dw_sent ::= fun l => l ++ [request] |>);
  match ex_send_raises x with
  | Some e =>
      if is_network_exception e then
        _ ← py_modify (fail_reader (DerivWorkerError NETWORK_ERROR "DERIV_NETWORK_ERROR"));
        py_raise (DerivWorkerError NETWORK_ERROR "DERIV_NETWORK_ERROR")
      else py_raise e
  | None => fun c =>
      match wait_response depth id (ex_frames x) c with
      | (Some i, c) => (Ok i, c)
      | (None, c) => (Err (DerivWorkerError NETWORK_ERROR "DERIV_REQUEST_TIMEOUT"), c)
      end
  end.

Definition ensure_connected (x : exchange) : py DerivWebSocketClient unit := fun c =>
  if dw_connected c then (Ok tt, c)
  else match dw_reader_error c with
       | Some e => (Err (as_worker_error e), c)
       | None => reconnect (ex_connects x) (ex_now x) c
       end.

(** The id of the next request, whose queue is then pending. *)
Definition register_request : py DerivWebSocketClient Z := fun c =>
  let id := dw_next_request_id c in
  (Ok id, c <| dw_next_request_id := id + 1 |> <| dw_pending ::= fun l => l ++ [id] |>).

Definition request (depth : nat) (x : exchange) (op : DerivOperation) (payload : obj) (timeout : float)
    : py DerivWebSocketClient obj :=
  demo ← py_gets dw_demo_authenticated;
  _ ← py_lift (validate_read_only_request op payload demo);
  _ ← py_guard (fltb (float_of_Z 0) timeout) (ValueError "Deriv request timeout must be positive");
  _ ← ensure_connected x;
  id ← register_request;
  i ← py_finally (send_and_wait depth x id (dict_set "req_id" (VInt id) payload)) (forget_request id);
  match i with
  | Failure e => py_raise (as_worker_error e)
  | Response response => mret response
  end.

(** [receive], [receive_account], [receive_contract] and [receive_proposal], for a valid
    timeout: the oldest item of the queue. *)
Definition take_event (q : list item) : res (option obj) * list item :=
  match q with
  | [] => (Ok None, [])
  | Response r :: q => (Ok (Some r), q)
  | Failure e :: q => (Err (as_worker_error e), q)
  end.

Definition receive (c : DerivWebSocketClient) : res (option obj) * DerivWebSocketClient :=
  let '(r, q) := take_event (dw_stream_events c) in (r, c <| dw_stream_events := q |>).
Definition receive_account (c : DerivWebSocketClient) : res (option obj) * DerivWebSocketClient :=
  let '(r, q) := take_event (dw_account_events c) in (r, c <| dw_account_events := q |>).
Definition receive_contract (c : DerivWebSocketClient) : res (option obj) * DerivWebSocketClient :=
  let '(r, q) := take_event (dw_contract_events c) in (r, c <| dw_contract_events := q |>).
Definition receive_proposal (c : DerivWebSocketClient) : res (option obj) * DerivWebSocketClient :=
  let '(r, q) := take_event (dw_proposal_events c) in (r, c <| dw_proposal_events := q |>).

(** *** The watchdog *)

(** [monotonic_gap_exceeds] for a positive threshold. *)
Definition monotonic_gap_exceeds (now previous max_gap_seconds : float) : bool :=
  fltb max_gap_seconds (fsub now previous).

Definition kill_connection (reason : string) (now : float) (c : DerivWebSocketClient) : DerivWebSocketClient :=
  if dw_reader_stop c || dw_failure_recorded c then c
  else
    fail_reader (DerivWorkerError NETWORK_ERROR "DERIV_HEARTBEAT_TIMEOUT")
      (c <| dw_health ::= fun h => h <| th_heartbeat_kills_total ::= Z.succ |>
             <| th_last_kill_reason := Some reason |> <| th_last_kill_monotonic := Some now |> |>).

(** [send_fails] is whether the connection refuses the frame. *)
Definition send_watchdog_ping (send_fails : bool) (now : float) : py DerivWebSocketClient bool := fun c =>
  match validate_read_only_request OP_PING [("ping", VInt 1)] (dw_demo_authenticated c) with
  | Err e => (Err e, c)
  | Ok _ =>
      if negb (dw_connected c) then (Ok false, kill_connection "ping_send_failed" now c)
      else
        let c := c <| dw_pending_ping_deadline := Some (fadd now HEARTBEAT_PONG_TIMEOUT_SECONDS) |>
                   <| dw_sent ::= fun l => l ++ [[("ping", VInt 1)]] |> in
        if send_fails then (Ok false, kill_connection "ping_send_failed" now c)
        else (Ok true, c <| dw_health ::= fun h => h <| th_pings_sent_total ::= Z.succ |> |>)
  end.

Definition watchdog_iteration (send_fails : bool) (now : float) : py DerivWebSocketClient bool := fun c =>
  if dw_reader_stop c || dw_failure_recorded c then (Ok false, c)
  else
    let last_tick := dw_last_watchdog_tick c in
    let c := c <| dw_last_watchdog_tick := now |> in
    let idle := fsub now (dw_last_rx_monotonic c) in
    if monotonic_gap_exceeds now last_tick SUSPEND_GAP_SECONDS then
      (Ok false, kill_connection "system_suspend_detected" now
                   (c <| dw_health ::= fun h => h <| th_suspend_detections_total ::= Z.succ |> |>))
    else if fltb HEARTBEAT_RX_STALL_SECONDS idle then (Ok false, kill_connection "rx_stall" now c)
    else match dw_pending_ping_deadline c with
         | Some deadline =>
             if fltb deadline now then (Ok false, kill_connection "pong_timeout" now c) else (Ok true, c)
         | None =>
             if fltb HEARTBEAT_PING_IDLE_SECONDS idle then send_watchdog_ping send_fails now c else (Ok true, c)
         end.
