(* ===== verification/DerivSession.v ===== *)
(** * The order session of the Deriv worker

    [apps/deriv_worker/order_session.py]: buying through a proposal, following the
    contract, and turning contract messages into broker events.

    The session works against any transport ([DerivReadTransport]).  [_tracked] and
    [_tracked_by_order_id] share their objects, so these live in a heap.  Clock readings
    and fresh identifiers are arguments.  Every buy goes through the transport of the
    session; [submit_buy_order] with another client is not modelled. *)

From S2P Require Import Prelude Datetime Dec PyFloat Json Domain Protocol DerivJson DerivTransport.

(** What the session asks of a transport with state [T]. *)
Class DerivReadTransport (T : Type) := {
  transport_request : DerivOperation -> obj -> py T obj;
  transport_receive_contract : py T (option obj)
}.

Record TrackedDerivOrder : Type := mk_TrackedDerivOrder {
  td_order_id : string; td_correlation_id : string; td_intent_id : string; td_symbol : string;
  td_direction : Direction; td_amount : Money; td_contract_id : string; td_account_id : string;
  td_buy_price_minor : Z; td_buy_time_utc : datetime; td_product : string; td_prediction_digit : option Z;
  td_sequence_counter : Z
}.

#[export] Instance TrackedDerivOrder_eta : Eta TrackedDerivOrder := fun t => mk_TrackedDerivOrder
  (td_order_id t) (td_correlation_id t) (td_intent_id t) (td_symbol t) (td_direction t) (td_amount t)
  (td_contract_id t) (td_account_id t) (td_buy_price_minor t) (td_buy_time_utc t) (td_product t)
  (td_prediction_digit t) (td_sequence_counter t).

Record DerivLiveOrderSession : Type := mk_DerivLiveOrderSession {
  ds_account_id : string; ds_demo_authenticated : bool; ds_account_type : string; ds_event_queue_size : nat;
  ds_heap : list TrackedDerivOrder; ds_tracked : gmap string nat; ds_tracked_by_order_id : gmap string nat;
  ds_events : list BrokerOrderEvent; ds_subscribed_contracts : gset string;
  ds_contract_subscription_ids : gmap string string
}.

#[export] Instance DerivLiveOrderSession_eta : Eta DerivLiveOrderSession := fun s => mk_DerivLiveOrderSession
  (ds_account_id s) (ds_demo_authenticated s) (ds_account_type s) (ds_event_queue_size s) (ds_heap s)
  (ds_tracked s) (ds_tracked_by_order_id s) (ds_events s) (ds_subscribed_contracts s)
  (ds_contract_subscription_ids s).

Definition real_account_forbidden : exn := DerivWorkerError ACCOUNT_MODE_FORBIDDEN "DERIV_REAL_ACCOUNT_FORBIDDEN".

Definition new_DerivLiveOrderSession (account_id : string) (demo_authenticated : bool) (account_type : string)
    (event_queue_size : nat) : res DerivLiveOrderSession :=
  _ ← guard_res (negb (String.eqb account_id "")) (ValueError "account_id is required");
  _ ← guard_res (String.eqb account_type "demo" && demo_authenticated) real_account_forbidden;
  Ok (mk_DerivLiveOrderSession account_id demo_authenticated account_type event_queue_size [] ∅ ∅ [] ∅ ∅).

(** [get_tracked_by_contract_id], [get_tracked_by_order_id] *)
Definition get_tracked_by_contract_id (contract_id : string) (s : DerivLiveOrderSession) : option TrackedDerivOrder :=
  i ← ds_tracked s !! contract_id; ds_heap s !! i.
Definition get_tracked_by_order_id (order_id : string) (s : DerivLiveOrderSession) : option TrackedDerivOrder :=
  i ← ds_tracked_by_order_id s !! order_id; ds_heap s !! i.

(** A new object, entered under its contract and its order. *)
Definition track (t : TrackedDerivOrder) (s : DerivLiveOrderSession) : DerivLiveOrderSession :=
  let i := length (ds_heap s) in
  s <| ds_heap ::= fun h => h ++ [t] |> <| ds_tracked ::= <[ td_contract_id t := i ]> |>
    <| ds_tracked_by_order_id ::= <[ td_order_id t := i ]> |>.

Definition DIGIT_PRODUCTS : list string := ["DIGITDIFF"; "DIGITOVER"; "DIGITUNDER"; "DIGITEVEN"; "DIGITODD"].
Definition BARRIER_PRODUCTS : list string := ["DIGITDIFF"; "DIGITOVER"; "DIGITUNDER"].

(** The clock readings and the identifier of one call. *)
Record stamp : Type := mk_stamp { sp_now : datetime; sp_later : datetime; sp_uuid : string }.

Section session.
Context {T : Type} {transport : DerivReadTransport T}.

Definition on_session {A} (m : py DerivLiveOrderSession A) : py (DerivLiveOrderSession * T) A :=
  fun '(s, t) => let '(r, s) := m s in (r, (s, t)).
Definition on_transport {A} (m : py T A) : py (DerivLiveOrderSession * T) A :=
  fun '(s, t) => let '(r, t) := m t in (r, (s, t)).

Definition send (op : DerivOperation) (payload : obj) : py (DerivLiveOrderSession * T) obj :=
  on_transport (transport_request op payload).

(** ** Buying *)

Definition result_of (command : OrderCommand) (sp : stamp) (outcome : WorkerOutcome)
    (broker_order_id reason_code : option string) : WorkerSubmissionResult :=
  mk_WorkerSubmissionResult outcome broker_order_id (sp_uuid sp) (oc_correlation_id command)
    (oc_message_id command) reason_code.

Definition rejected (command : OrderCommand) (sp : stamp) (reason : string) : WorkerSubmissionResult :=
  result_of command sp WO_REJECTED None (Some reason).
Definition possibly_sent (command : OrderCommand) (sp : stamp) (reason : string) : WorkerSubmissionResult :=
  result_of command sp WO_TIMEOUT_AFTER_POSSIBLE_SEND None (Some reason).

(** [OSError] and its subclass [TimeoutError] *)
Definition is_os_error (e : exn) : bool := match e with OSError _ | TimeoutError => true | _ => false end.

(** The reason in an answer without the expected object. *)
Definition error_reason (response : obj) (reason : string) : string :=
  match get response "error" with
  | VDict error => match get error "code" with VStr code => code | _ => reason end
  | _ => reason
  end.

Definition subscribe_contract (contract_id : string) : py (DerivLiveOrderSession * T) unit :=
  subscribed ← on_session (py_gets (fun s => bool_decide (contract_id ∈ ds_subscribed_contracts s)));
  if subscribed : bool then mret tt
  else
    py_try
      (id ← py_lift (py_int contract_id);
       response ← send OP_PROPOSAL_OPEN_CONTRACT
         [("proposal_open_contract", VInt 1); ("contract_id", VInt id); ("subscribe", VInt 1)];
       _ ← on_session (py_modify (fun s => s <| ds_subscribed_contracts ::= union {[ contract_id ]} |>));
       match get response "subscription" with
       | VDict subscription =>
           match get subscription "id" with
           | VStr id => on_session (py_modify (fun s => s <| ds_contract_subscription_ids ::= <[ contract_id := id ]> |>))
           | _ => mret tt
           end
       | _ => mret tt
       end)
      (fun _ => Some (mret tt)).

Definition tracked_of (command : OrderCommand) (contract_id : string) (buy_price_minor : Z) (now : datetime)
    : TrackedDerivOrder :=
  mk_TrackedDerivOrder (oc_order_id command) (oc_correlation_id command) (oc_intent_id command) (oc_symbol command)
    (oc_direction command) (oc_amount command) contract_id (oc_account_id command) buy_price_minor now
    (str_upper (oc_product command)) (oc_prediction_digit command) 0.

(** The answer to a buy. *)
Definition buy_answer (command : OrderCommand) (stake : dec) (sp : stamp) (response : obj)
    : py (DerivLiveOrderSession * T) WorkerSubmissionResult :=
  match get response "buy" with
  | VDict buy_data =>
      match get buy_data "contract_id" with
      | VNull => mret (rejected command sp "DERIV_CONTRACT_ID_MISSING")
      | contract_id_raw =>
          let contract_id := str contract_id_raw in
          buy_price ← py_lift (decimal_of (get_or buy_data "buy_price" (VDecimal stake)));
          buy_price_minor ← py_lift (money_to_minor_units buy_price);
          _ ← on_session (py_modify (track (tracked_of command contract_id buy_price_minor (sp_later sp))));
          _ ← subscribe_contract contract_id;
          mret (result_of command sp WO_ACCEPTED (Some contract_id) None)
      end
  | _ => mret (rejected command sp (error_reason response "DERIV_BUY_REJECTED"))
  end.

Definition execute_buy_payload (command : OrderCommand) (payload : obj) (stake : dec) (sp : stamp)
    : py (DerivLiveOrderSession * T) WorkerSubmissionResult := fun w =>
  match send OP_BUY payload w with
  | (Ok response, w) => buy_answer command stake sp response w
  | (Err (DerivWorkerError category reason_code), w) =>
      (Ok (if bool_decide (category = NETWORK_ERROR) || bool_decide (category = RATE_LIMITED)
           then possibly_sent command sp reason_code else rejected command sp reason_code), w)
  | (Err e, w) => if is_os_error e then (Ok (possibly_sent command sp "DERIV_REQUEST_TIMEOUT"), w) else (Err e, w)
  end.

Definition passthrough_of (command : OrderCommand) : json :=
  VDict [("order_id", VStr (oc_order_id command)); ("correlation_id", VStr (oc_correlation_id command))].

Definition buy_payload (command : OrderCommand) (proposal_id : string) (stake : dec) : obj :=
  [("buy", VStr proposal_id); ("price", VDecimal stake); ("passthrough", passthrough_of command)].

Definition proposal_then_buy (command : OrderCommand) (proposal_payload : obj) (stake : dec) (sp : stamp)
    : py (DerivLiveOrderSession * T) WorkerSubmissionResult := fun w =>
  match send OP_PROPOSAL proposal_payload w with
  | (Err (DerivWorkerError _ reason_code), w) => (Ok (rejected command sp reason_code), w)
  | (Err e, w) => if is_os_error e then (Ok (rejected command sp "DERIV_PROPOSAL_TIMEOUT"), w) else (Err e, w)
  | (Ok response, w) =>
      let refused := rejected command sp (error_reason response "DERIV_PROPOSAL_REJECTED") in
      match get response "proposal" with
      | VDict proposal =>
          match get proposal "id" with
          | VStr id => execute_buy_payload command (buy_payload command id stake) stake sp w
          | _ => (Ok refused, w)
          end
      | _ => (Ok refused, w)
      end
  end.

(** The terms of a proposal. *)
Definition proposal_fields (stake : dec) (contract_type currency : string) (duration : Z) (unit symbol : string) : obj :=
  [("proposal", VInt 1); ("amount", VDecimal stake); ("basis", VStr "stake"); ("contract_type", VStr contract_type);
   ("currency", VStr currency); ("duration", VInt duration); ("duration_unit", VStr unit);
   ("underlying_symbol", VStr symbol)].

Definition barrier_field (d : option Z) : obj :=
  [("barrier", VStr (match d with Some n => encode_int n "" | None => "None" end))].

(** [_submit_buy_order], which [submit_order] calls with the transport of the session. *)
Definition submit_order (command : OrderCommand) (sp : stamp) : py (DerivLiveOrderSession * T) WorkerSubmissionResult :=
  demo ← on_session (py_gets ds_demo_authenticated);
  _ ← py_guard demo real_account_forbidden;
  _ ← py_guard (bool_decide (oc_broker command = DERIV)) (DerivWorkerError INVALID_REQUEST "DERIV_INVALID_BROKER");
  account ← on_session (py_gets ds_account_id);
  _ ← py_guard (String.eqb (oc_account_id command) account)
        (DerivWorkerError INVALID_REQUEST "DERIV_ACCOUNT_SCOPE_MISMATCH");
  if dt_leb (oc_deadline_at command) (sp_now sp) then mret (rejected command sp "ORDER_COMMAND_EXPIRED")
  else
    let stake := decimal_amount (minor_units (oc_amount command)) in
    let product := str_upper (oc_product command) in
    if is_in product DIGIT_PRODUCTS then
      let barrier_required := is_in product BARRIER_PRODUCTS in
      if barrier_required && bool_decide (oc_prediction_digit command = None) then
        mret (rejected command sp (if String.eqb product "DIGITDIFF" then "DERIV_DIGIT_PREDICTION_REQUIRED"
                                   else "DERIV_DIGIT_BARRIER_REQUIRED"))
      else
        proposal_then_buy command
          (proposal_fields stake product (currency (oc_amount command)) 1 "t" (oc_symbol command)
           ++ [("passthrough", passthrough_of command)]
           ++ (if barrier_required then barrier_field (oc_prediction_digit command) else [])) stake sp
    else
      proposal_then_buy command
        (proposal_fields stake (value (oc_direction command)) (currency (oc_amount command)) (oc_duration command)
           (oc_duration_unit command) (oc_symbol command)
         ++ [("passthrough", passthrough_of command)]) stake sp.

(** [replace(command, prediction_digit=...)] builds, and checks, a new command. *)
Definition submit_digit_diff_order (command : OrderCommand) (prediction_digit : Z) (sp : stamp)
    : py (DerivLiveOrderSession * T) WorkerSubmissionResult :=
  command ← py_lift (OrderCommand_post_init
    (mk_OrderCommand (oc_message_id command) (oc_correlation_id command) (oc_intent_id command) (oc_order_id command)
       (oc_broker command) (oc_account_id command) (oc_product command) (oc_symbol command) (oc_direction command)
       (oc_amount command) (oc_deadline_at command) (oc_duration command) (oc_duration_unit command)
       (Some prediction_digit)));
  submit_order command sp.

(** ** Quotes *)

Record digit_quote : Type := mk_digit_quote {
  dq_broker_symbol : string; dq_contract_type : string; dq_barrier : option Z; dq_proposal_id : string;
  dq_currency : string; dq_ask_price : string; dq_payout : string; dq_net_profit_ratio : string
}.

Definition proposal_invalid : exn := DerivWorkerError SCHEMA_INCOMPATIBLE "DERIV_PROPOSAL_INVALID".

(** [Decimal(str(d[k]))] with [KeyError], [ArithmeticError] and [ValueError] turned into
    the error of the worker. *)
Definition proposal_decimal (proposal : obj) (k : string) : res pydec :=
  match dict_get k proposal with
  | Some v => match decimal_of v with Ok d => Ok d | Err _ => Err proposal_invalid end
  | None => Err proposal_invalid
  end.

Definition read_quote (symbol contract_type currency : string) (barrier : option Z) (response : obj)
    : res digit_quote :=
  match get response "proposal" with
  | VDict proposal =>
      proposal_id ← match dict_get "id" proposal with Some v => Ok (str v) | None => Err proposal_invalid end;
      ask ← proposal_decimal proposal "ask_price";
      payout ← proposal_decimal proposal "payout";
      _ ← guard_res (nonblank proposal_id) proposal_invalid;
      match ask, payout with
      | Finite ask, Finite payout =>
          if dec_leb ask (dec_of_Z 0) || dec_leb payout ask then
            Err (DerivWorkerError SCHEMA_INCOMPATIBLE "DERIV_PROPOSAL_NON_POSITIVE_RETURN")
          else Ok (mk_digit_quote symbol contract_type barrier proposal_id currency (dec_str ask) (dec_str payout)
                     (dec_str (dec_div (dec_sub payout ask) ask)))
      | _, _ => Err (DerivWorkerError SCHEMA_INCOMPATIBLE "DERIV_PROPOSAL_NON_POSITIVE_RETURN")
      end
  | _ => Err proposal_invalid
  end.

Definition quote_digit_contract (product symbol : string) (amount_minor_units : Z) (currency : string)
    (prediction_digit : option Z) : py (DerivLiveOrderSession * T) digit_quote :=
  let contract_type := str_upper (str_strip product) in
  let barrier_required := is_in contract_type BARRIER_PRODUCTS in
  _ ← py_guard (is_in contract_type DIGIT_PRODUCTS && (0 <? amount_minor_units) && String.eqb currency "USD")
        (DerivWorkerError INVALID_REQUEST "DERIV_QUOTE_INVALID");
  _ ← py_guard (negb (barrier_required && bool_decide (prediction_digit = None)))
        (DerivWorkerError INVALID_REQUEST "DERIV_DIGIT_BARRIER_REQUIRED");
  response ← send OP_PROPOSAL
    (proposal_fields (decimal_amount amount_minor_units) contract_type currency 1 "t" symbol
     ++ (if barrier_required then barrier_field prediction_digit else []));
  py_lift (read_quote symbol contract_type currency (if barrier_required then prediction_digit else None) response).

(** ** Following contracts *)

(** [int(str(d.get(k, 0))) == 1] *)
Definition flag (d : obj) (k : string) : res bool := n ← int_of (get_or d k (VInt 0)); Ok (n =? 1).

(** [status], [is_sold] and [is_expired] say that the contract is over. *)
Definition is_settled (poc : obj) : res bool :=
  let status := str_lower (str (get_or poc "status" (VStr "open"))) in
  is_sold ← flag poc "is_sold";
  is_expired ← flag poc "is_expired";
  Ok (is_expired || is_sold || is_in status ["won"; "lost"; "sold"]).

(** The profit of a settled contract; [default_buy] is the stake as a float. *)
Definition profit_of (poc : obj) (stake_minor : Z) : res pydec :=
  match get poc "profit" with
  | VNull =>
      payout ← decimal_of (get_or poc "payout" (VInt 0));
      stake ← int_truediv stake_minor 100;
      buy ← match dict_get "buy_price" poc with
            | Some v => decimal_of v
            | None => Ok (Finite (decimal_of_repr stake))
            end;
      pydec_sub payout buy
  | v => decimal_of v
  end.

Definition unsupported_digit : exn := DerivWorkerError SCHEMA_INCOMPATIBLE "DERIV_DIGIT_CONTRACT_UNSUPPORTED".

(** Whether the exit digit wins the contract. *)
Definition digit_won (product : string) (prediction : option Z) (exit_digit : Z) : res bool :=
  match prediction with
  | Some p =>
      if String.eqb product "DIGITDIFF" then Ok (negb (exit_digit =? p))
      else if String.eqb product "DIGITOVER" then Ok (p <? exit_digit)
      else if String.eqb product "DIGITUNDER" then Ok (exit_digit <? p)
      else if String.eqb product "DIGITEVEN" then Ok (exit_digit mod 2 =? 0)
      else if String.eqb product "DIGITODD" then Ok (exit_digit mod 2 =? 1)
      else Err unsupported_digit
  | None =>
      if String.eqb product "DIGITEVEN" then Ok (exit_digit mod 2 =? 0)
      else if String.eqb product "DIGITODD" then Ok (exit_digit mod 2 =? 1)
      else Err unsupported_digit
  end.

Definition pydec_positive (d : pydec) : bool := match d with Finite d => 0 <? coef d | _ => false end.

(** The digit of the exit tick must agree with the official result. *)
Definition check_digit_settlement (t : TrackedDerivOrder) (poc : obj) (profit : pydec) : res unit :=
  if negb (is_in (td_product t) DIGIT_PRODUCTS) then Ok tt
  else
    match get_or poc "exit_tick" (get poc "exit_spot") with
    | VNull => Err (DerivWorkerError SCHEMA_INCOMPATIBLE "DERIV_DIGIT_EXIT_TICK_MISSING")
    | exit_tick =>
        exit_decimal ← decimal_of exit_tick;
        match exit_decimal with
        | Finite d =>
            won ← digit_won (td_product t) (td_prediction_digit t) (Z.abs (coef d) mod 10);
            let official := String.eqb (str_lower (str (get_or poc "status" (VStr "open")))) "won"
                            || pydec_positive profit in
            guard_res (Bool.eqb won official) (DerivWorkerError SCHEMA_INCOMPATIBLE "DERIV_DIGIT_SETTLEMENT_CONFLICT")
        | _ => Err (DerivWorkerError SCHEMA_INCOMPATIBLE "DERIV_DIGIT_EXIT_TICK_INVALID")
        end
    end.

(** What a contract message reports. *)
Record contract_report : Type := mk_contract_report {
  cr_status : ExternalOrderStatus; cr_result_minor : option Z; cr_result_currency : option string;
  cr_seconds_remaining : option Z; cr_current_spot : option string
}.

Definition opt_text (v : json) : option string := match v with VNull => None | _ => Some (str v) end.

Definition settled_report (t : TrackedDerivOrder) (poc : obj) : res contract_report :=
  profit ← profit_of poc (td_buy_price_minor t);
  result_minor ← money_to_minor_units profit;
  _ ← check_digit_settlement t poc profit;
  Ok (mk_contract_report EX_SETTLED (Some result_minor)
        (Some (str_upper (str (get_or poc "currency" (VStr (currency (td_amount t))))))) None
        (opt_text (get_or poc "exit_tick" (get poc "exit_spot")))).

Definition open_report (poc : obj) (now : datetime) : contract_report :=
  mk_contract_report EX_OPEN None None
    ((fun expiry => Z.max 0 (expiry - int_timestamp now)) <$> as_int (get poc "date_expiry"))
    (opt_text (get_or poc "current_spot" (get poc "bid_price"))).

(** The payload of the event, without and with its hash. *)
Definition canonical_fields (t : TrackedDerivOrder) (contract_id : string) (sequence : Z) (r : contract_report)
    (event_id : string) (now : datetime) : list (string * jval) :=
  [("event_id", JStr event_id); ("event_version", JInt 1); ("broker", JStr (value DERIV));
   ("account_id", JStr (td_account_id t)); ("client_order_ref", JStr (td_order_id t));
   ("broker_order_id", JStr contract_id); ("correlation_id", JStr (td_correlation_id t));
   ("external_sequence", JInt sequence); ("external_status", JStr (value (cr_status r)));
   ("occurred_at", JStr (isoformat now)); ("observed_at", JStr (isoformat now)); ("product", JStr (td_product t));
   ("symbol", JStr (td_symbol t)); ("direction", JStr (value (td_direction t)));
   ("amount_minor", JInt (minor_units (td_amount t))); ("currency", JStr (currency (td_amount t)));
   ("result_minor", jopt_int (cr_result_minor r)); ("result_currency", jopt_str (cr_result_currency r))]
  ++ opt_field "seconds_remaining" JInt (cr_seconds_remaining r)
  ++ opt_field "current_spot" JStr (cr_current_spot r).

(** An order that this session did not place, from the passthrough of its contract. *)
Definition adopt (account_id contract_id : string) (poc raw : obj) (now : datetime) : res (option TrackedDerivOrder) :=
  let passthrough := if truthy (get poc "passthrough") then get poc "passthrough" else get raw "passthrough" in
  match passthrough with
  | VDict p =>
      let order_id := str (get_or p "order_id" (VStr "")) in
      let correlation_id := str (get_or p "correlation_id" (VStr "")) in
      let contract_type := str_upper (str (get_or poc "contract_type" (VStr "CALL"))) in
      buy_price ← decimal_of (get_or poc "buy_price" (VInt 0));
      if negb (String.eqb order_id "") && negb (String.eqb correlation_id "") then
        minor ← money_to_minor_units buy_price;
        amount ← new_Money minor (str (get_or poc "currency" (VStr "USD")));
        prediction_digit ← match get poc "barrier" with VNull => Ok None | v => Some <$> int_of v end;
        Ok (Some (mk_TrackedDerivOrder order_id correlation_id
                    (str (get_or p "intent_id" (VStr "reconciled-live-order"))) (str (get_or poc "underlying" (VStr "")))
                    (if String.eqb (str_upper contract_type) "PUT" then PUT else CALL) amount contract_id account_id
                    minor now (if is_in contract_type DIGIT_PRODUCTS then contract_type else "DIGITAL_OPTION")
                    prediction_digit 0))
      else Ok None
  | _ => Ok None
  end.

Definition forget_contract (contract_id : string) : py (DerivLiveOrderSession * T) unit :=
  subscription_id ← on_session (py_gets (fun s => ds_contract_subscription_ids s !! contract_id));
  _ ← on_session (py_modify (fun s => s <| ds_contract_subscription_ids ::= delete contract_id |>
                                        <| ds_subscribed_contracts ::= fun l => l ∖ {[ contract_id ]} |>));
  match subscription_id with
  | None => mret tt
  | Some id => py_try (_ ← send OP_FORGET [("forget", VStr id)]; mret tt) (fun _ => Some (mret tt))
  end.

(** [self._tracked.get(contract_id)], or the order adopted from the message. *)
Definition find_tracked (contract_id : string) (poc raw : obj) (now : datetime)
    : py (DerivLiveOrderSession * T) (option nat) :=
  known ← on_session (py_gets (fun s => ds_tracked s !! contract_id));
  match known with
  | Some i => mret (Some i)
  | None =>
      account_id ← on_session (py_gets ds_account_id);
      adopted ← py_lift (adopt account_id contract_id poc raw now);
      match adopted with
      | None => mret None
      | Some t =>
          _ ← on_session (py_modify (track t));
          on_session (py_gets (fun s => ds_tracked s !! contract_id))
      end
  end.

(** [tracked.next_sequence()] on the object at [i]; the object after it. *)
Definition next_sequence (i : nat) : py DerivLiveOrderSession TrackedDerivOrder := fun s =>
  match ds_heap s !! i with
  | Some t =>
      let t := t <| td_sequence_counter ::= Z.succ |> in
      (Ok t, s <| ds_heap ::= <[ i := t ]> |>)
  | None => (Err KeyError, s)
  end.

(** [put_nowait] on the event queue; a full queue loses the event.  A size of 0 is no
    limit. *)
Definition put_event (event : BrokerOrderEvent) (s : DerivLiveOrderSession) : DerivLiveOrderSession :=
  if (ds_event_queue_size s =? 0)%nat || (length (ds_events s) <? ds_event_queue_size s)%nat
  then s <| ds_events ::= fun l => l ++ [event] |> else s.

Definition untrack (contract_id order_id : string) (s : DerivLiveOrderSession) : DerivLiveOrderSession :=
  s <| ds_tracked ::= delete contract_id |> <| ds_tracked_by_order_id ::= delete order_id |>.

Variable payload_hash : payload -> string.

Definition event_of (t : TrackedDerivOrder) (contract_id : string) (r : contract_report) (event_id : string)
    (now : datetime) : res BrokerOrderEvent :=
  let canonical := canonical_fields t contract_id (td_sequence_counter t) r event_id now in
  BrokerOrderEvent_from_payload payload_hash
    (list_to_map (("evidence_hash", JStr (payload_hash (list_to_map canonical))) :: canonical)).

(** The event of a message about the tracked order at [i]. *)
Definition report_contract (i : nat) (contract_id : string) (poc : obj) (sp : stamp)
    : py (DerivLiveOrderSession * T) (option BrokerOrderEvent) :=
  settled ← py_lift (is_settled poc);
  t ← on_session (next_sequence i);
  r ← py_lift (if settled : bool then settled_report t poc else Ok (open_report poc (sp_later sp)));
  event ← py_lift (event_of t contract_id r (sp_uuid sp) (sp_later sp));
  _ ← on_session (py_modify (put_event event));
  _ ← (if settled : bool then
         _ ← on_session (py_modify (untrack contract_id (td_order_id t)));
         forget_contract contract_id
       else mret tt);
  mret (Some event).

Definition on_proposal_open_contract_message (raw : obj) (sp : stamp)
    : py (DerivLiveOrderSession * T) (option BrokerOrderEvent) :=
  match get raw "proposal_open_contract" with
  | VDict poc =>
      match get poc "contract_id" with
      | VNull => mret None
      | contract_id_raw =>
          let contract_id := str contract_id_raw in
          tracked ← find_tracked contract_id poc raw (sp_now sp);
          match tracked with
          | None => mret None
          | Some i => report_contract i contract_id poc sp
          end
      end
  | _ => mret None
  end.

(** [drain_contract_events] over the messages that [receive_contract] gives before it
    gives [None]; one stamp per message. *)
Fixpoint drain_contract_events (stamps : list stamp) (count : Z) : py (DerivLiveOrderSession * T) Z :=
  match stamps with
  | [] => mret count
  | sp :: stamps =>
      raw ← on_transport transport_receive_contract;
      match raw with
      | None => mret count
      | Some raw => _ ← on_proposal_open_contract_message raw sp; drain_contract_events stamps (count + 1)
      end
  end.

(** [next_queued_event] *)
Definition next_queued_event (s : DerivLiveOrderSession) : option BrokerOrderEvent * DerivLiveOrderSession :=
  match ds_events s with
  | [] => (None, s)
  | e :: l => (Some e, s <| ds_events := l |>)
  end.
End session.
