(* ===== verification/DerivRecon.v ===== *)
(** * Reconciliation and order requests of the Deriv worker

    [apps/deriv_worker/reconciliation.py]: what the broker knows of an order, looked up
    by contract, in the portfolio, in the statement and in the profit table; and the
    order requests of [apps/deriv_worker/server.py].  The digest of a contract document
    ([sha256] of its JSON text) is a parameter. *)

From S2P Require Import Prelude Datetime Dec PyFloat Json Domain StateDb Writer Reconciliation Protocol.
From S2P Require Import DerivJson DerivTransport DerivSession.

Section reconciliation.
Context {T : Type} {transport : DerivReadTransport T}.

(** [sha256(json.dumps(poc, sort_keys=True, default=str)).hexdigest()] *)
Variable document_hash : obj -> string.

(** [DerivWorkerError], [OSError], [TimeoutError], [ValueError] *)
Definition is_query_error (e : exn) : bool :=
  match e with DerivWorkerError _ _ | ValueError _ => true | _ => is_os_error e end.

Definition unavailable (reason : string) : OrderStatusResult :=
  mk_OrderStatusResult SQ_UNAVAILABLE None (Some reason) None.
Definition invalid_response (reason : string) : OrderStatusResult :=
  mk_OrderStatusResult SQ_INVALID_RESPONSE None (Some reason) None.

(** ** Evidence from a contract *)

Definition expected_contract_type (query : OrderStatusQuery) : string :=
  let normalized_product := str_upper (sq_product query) in
  if is_in normalized_product DIGIT_PRODUCTS then normalized_product else value (sq_direction query).

(** The first term of the contract that contradicts the query. *)
Definition contract_mismatch (query : OrderStatusQuery) (poc : obj) : res (option OrderStatusResult) :=
  let differs v f expected := negb (is_none v) && negb (String.eqb (f (str v)) expected) in
  if differs (get poc "underlying") id (sq_symbol query) then
    Ok (Some (unavailable "DERIV_RECONCILIATION_SYMBOL_MISMATCH"))
  else if differs (get poc "contract_type") str_upper (expected_contract_type query) then
    Ok (Some (unavailable "DERIV_RECONCILIATION_DIRECTION_MISMATCH"))
  else if differs (get poc "currency") str_upper (currency (sq_amount query)) then
    Ok (Some (unavailable "DERIV_RECONCILIATION_CURRENCY_MISMATCH"))
  else match get poc "buy_price" with
       | VNull => Ok None
       | v =>
           match decimal_of v with
           | Err _ => Ok (Some (invalid_response "DERIV_RECONCILIATION_AMOUNT_INVALID"))
           | Ok actual =>
               same ← pydec_eq actual (decimal_amount (minor_units (sq_amount query)));
               Ok (if same : bool then None else Some (unavailable "DERIV_RECONCILIATION_AMOUNT_MISMATCH"))
           end
       end.

Definition build_evidence_from_contract (query : OrderStatusQuery) (poc : obj) (sp : stamp) : res OrderStatusResult :=
  let contract_id := str (get poc "contract_id") in
  settled ← is_settled poc;
  mismatch ← contract_mismatch query poc;
  match mismatch with
  | Some r => Ok r
  | None =>
      realized ← (if settled : bool then
                    profit ← profit_of poc (minor_units (sq_amount query));
                    Some <$> money_to_minor_units profit
                  else Ok None);
      evidence ← ReconciliationEvidence_post_init
        (mk_ReconciliationEvidence (sp_uuid sp) STATUS_QUERY (sp_now sp) (sq_client_order_ref query) (Some contract_id)
           (if settled : bool then EX_SETTLED else EX_OPEN) DERIV (sq_account_id query) (sq_product query)
           (sq_symbol query) (sq_direction query) (sq_amount query) 1 realized (Some (document_hash poc)));
      Ok (mk_OrderStatusResult SQ_FOUND (Some evidence) None None)
  end.

(** ** Lookups *)

(** [proposal_open_contract] of one contract: its document, if the broker knows it. *)
Definition fetch_contract (contract_id : string) : py (DerivLiveOrderSession * T) (option obj) :=
  id ← py_lift (py_int contract_id);
  response ← send OP_PROPOSAL_OPEN_CONTRACT [("proposal_open_contract", VInt 1); ("contract_id", VInt id)];
  mret match get response "proposal_open_contract" with
       | VDict poc => if is_none (get poc "contract_id") then None else Some poc
       | _ => None
       end.

Definition query_contract_id (query : OrderStatusQuery) (contract_id : string) (sp : stamp)
    : py (DerivLiveOrderSession * T) OrderStatusResult :=
  py_try
    (found ← fetch_contract contract_id;
     match found with
     | Some poc => py_lift (build_evidence_from_contract query poc sp)
     | None => mret (mk_OrderStatusResult SQ_NOT_FOUND None (Some "DERIV_CONTRACT_NOT_FOUND") None)
     end)
    (fun e => if is_query_error e then Some (mret (unavailable "DERIV_STATUS_QUERY_UNAVAILABLE")) else None).

(** What a step of the search gives: the answer, or whether it failed and whether it
    covered its source. *)
Inductive search : Type :=
| Answer (r : OrderStatusResult)
| Continue (failed checked : bool).

Definition attempt (m : py (DerivLiveOrderSession * T) search) : py (DerivLiveOrderSession * T) search :=
  py_try m (fun e => if is_query_error e then Some (mret (Continue true false)) else None).

(** The document of a contract whose id is known, and whether the request failed. *)
Definition fetch_known (contract_id : option string) : py (DerivLiveOrderSession * T) (option obj * bool) :=
  match contract_id with
  | Some id =>
      if String.eqb id "" then mret (None, false)
      else py_try (found ← fetch_contract id; mret (found, false))
             (fun e => if is_query_error e then Some (mret (None, true)) else None)
  | None => mret (None, false)
  end.

(** [passthrough.get("order_id") == query.order_id] *)
Definition carries_order (query : OrderStatusQuery) (item : obj) : bool :=
  match get item "passthrough" with VDict p => eq_str (get p "order_id") (sq_order_id query) | _ => false end.

(** The first element that is an object and for which [f] gives a contract. *)
Definition first_contract (f : obj -> option string) (l : list json) : option string :=
  head (omap (fun v => match v with VDict d => f d | _ => None end) l).

Definition known_contract_ids (query : OrderStatusQuery) (tracked : option TrackedDerivOrder) : list string :=
  List.filter (fun s => negb (String.eqb s ""))
    (option_list (sq_broker_order_id query) ++ option_list (td_contract_id <$> tracked)).

Definition portfolio_match (query : OrderStatusQuery) (known : list string) (item : obj) : option string :=
  match get item "contract_id" with
  | VNull => None
  | contract_id =>
      if is_in (str contract_id) known || carries_order query item then Some (str contract_id) else None
  end.

Definition search_portfolio (query : OrderStatusQuery) (sp : stamp) : py (DerivLiveOrderSession * T) search :=
  attempt
    (response ← send OP_PORTFOLIO [("portfolio", VInt 1)];
     match get response "portfolio" with
     | VDict portfolio =>
         match get portfolio "contracts" with
         | VList contracts =>
             tracked ← on_session (py_gets (get_tracked_by_order_id (sq_order_id query)));
             match first_contract (portfolio_match query (known_contract_ids query tracked)) contracts with
             | Some contract_id => r ← query_contract_id query contract_id sp; mret (Answer r)
             | None => mret (Continue false true)
             end
         | _ => mret (Continue true false)
         end
     | _ => mret (Continue true false)
     end).

Definition date_from (query : OrderStatusQuery) : obj :=
  match sq_submitted_at query with Some d => [("date_from", VInt (int_timestamp d))] | None => [] end.

Definition statement_match (query : OrderStatusQuery) (tx : obj) : option string :=
  let contract_id := get tx "contract_id" in
  if carries_order query tx && truthy contract_id then Some (str contract_id) else None.

Definition search_statement (query : OrderStatusQuery) (sp : stamp) : py (DerivLiveOrderSession * T) search :=
  attempt
    (response ← send OP_STATEMENT
       ([("statement", VInt 1); ("description", VInt 1); ("limit", VInt 999); ("action_type", VStr "buy")]
        ++ date_from query);
     match get response "statement" with
     | VDict statement =>
         match get statement "transactions" with
         | VList transactions =>
             match first_contract (statement_match query) transactions with
             | Some contract_id => r ← query_contract_id query contract_id sp; mret (Answer r)
             | None => mret (Continue false true)
             end
         | _ => mret (Continue true false)
         end
     | _ => mret (Continue true false)
     end).

(** [_match_profit_table_contracts] for one transaction. *)
Definition profit_terms_match (query : OrderStatusQuery) (submitted_epoch : Z) (item : obj) : res bool :=
  let text k := str_strip (str (get_or item k (VStr ""))) in
  match get item "contract_id", get item "purchase_time" with
  | VNull, _ | _, VBool _ => Ok false
  | _, purchase_time =>
      match int_of purchase_time, decimal_of (get item "buy_price") with
      | Ok observed_epoch, Ok buy_price =>
          if negb (in_range submitted_epoch observed_epoch (submitted_epoch + 15)) then Ok false
          else
            same ← pydec_eq buy_price (decimal_amount (minor_units (sq_amount query)));
            Ok (same && String.eqb (str_upper (text "contract_type")) (str_upper (str_strip (sq_product query)))
                && String.eqb (text "underlying_symbol") (sq_symbol query)
                && match get item "duration_type" with
                   | VNull => true
                   | v => String.eqb (str_lower (str_strip (str v))) "ticks"
                   end)
      | _, _ => Ok false
      end
  end.

(** The contracts that match, as a set. *)
Fixpoint matching_contracts (query : OrderStatusQuery) (submitted_epoch : Z) (transactions : list json)
    : res (list string) :=
  match transactions with
  | [] => Ok []
  | VDict item :: transactions =>
      matches ← profit_terms_match query submitted_epoch item;
      rest ← matching_contracts query submitted_epoch transactions;
      Ok (if matches : bool then str (get item "contract_id") :: rest else rest)
  | _ :: transactions => matching_contracts query submitted_epoch transactions
  end.

Definition match_profit_table_contracts (query : OrderStatusQuery) (transactions : list json) : res (list string) :=
  match sq_broker_order_id query, sq_submitted_at query with
  | None, Some submitted_at =>
      found ← matching_contracts query (int_timestamp submitted_at) transactions;
      Ok (sort_by str_leb (remove_dups found))
  | _, _ => Ok []
  end.

Definition profit_match (query : OrderStatusQuery) (tx : obj) : option string :=
  match get tx "contract_id" with
  | VNull => None
  | contract_id => if carries_order query tx then Some (str contract_id) else None
  end.

Definition ambiguous_match : OrderStatusResult := invalid_response "DERIV_RECONCILIATION_AMBIGUOUS_MATCH".

(** A profit table that cannot be read does not count as a failure, but an ambiguous
    match ends the search. *)
Definition search_profit_table (query : OrderStatusQuery) (sp : stamp) : py (DerivLiveOrderSession * T) search :=
  attempt
    (response ← send OP_PROFIT_TABLE
       ([("profit_table", VInt 1); ("description", VInt 1); ("limit", VInt 500)] ++ date_from query);
     match get response "profit_table" with
     | VDict table =>
         match get table "transactions" with
         | VList transactions =>
             match first_contract (profit_match query) transactions with
             | Some contract_id => r ← query_contract_id query contract_id sp; mret (Answer r)
             | None =>
                 matched ← py_lift (match_profit_table_contracts query transactions);
                 match matched with
                 | [] => mret (Continue false true)
                 | [contract_id] => r ← query_contract_id query contract_id sp; mret (Answer r)
                 | _ => mret (Answer ambiguous_match)
                 end
             end
         | _ => mret (Continue false false)
         end
     | _ => mret (Continue false false)
     end).

(** The answer when no source has the order. *)
Definition absence (statement_checked portfolio_checked query_failed : bool) (sp : stamp) : OrderStatusResult :=
  if statement_checked && portfolio_checked && negb query_failed then
    mk_OrderStatusResult SQ_NOT_FOUND None (Some "DERIV_CONTRACT_NOT_FOUND")
      (Some (mk_NotFoundEvidence (sp_now sp) true true))
  else unavailable "DERIV_STATUS_QUERY_UNAVAILABLE".

(** Steps 3 to 5. *)
Definition search_lists (query : OrderStatusQuery) (failed : bool) (sp : stamp)
    : py (DerivLiveOrderSession * T) OrderStatusResult :=
  portfolio ← search_portfolio query sp;
  match portfolio with
  | Answer r => mret r
  | Continue failed_portfolio portfolio_checked =>
      statement ← search_statement query sp;
      match statement with
      | Answer r => mret r
      | Continue failed_statement statement_checked =>
          table ← search_profit_table query sp;
          match table with
          | Answer r => mret r
          | Continue failed_table _ =>
              mret (absence statement_checked portfolio_checked
                      (failed || failed_portfolio || failed_statement || failed_table) sp)
          end
      end
  end.

Definition query_order_status (query : OrderStatusQuery) (timeout : option float) (sp : stamp)
    : py (DerivLiveOrderSession * T) OrderStatusResult :=
  _ ← py_guard (match timeout with Some t => negb (fleb t (float_of_Z 0)) | None => true end)
        (ValueError "status query timeout must be positive");
  trading_authenticated ← on_session (py_gets ds_demo_authenticated);
  if negb trading_authenticated then mret (unavailable "DERIV_REAL_ACCOUNT_FORBIDDEN")
  else if negb (bool_decide (sq_broker query = DERIV)) then mret (unavailable "DERIV_INVALID_BROKER")
  else
    first ← fetch_known (sq_broker_order_id query);
    second ← match fst first with
             | Some poc => mret (Some poc, snd first)
             | None =>
                 tracked ← on_session (py_gets (get_tracked_by_order_id (sq_order_id query)));
                 again ← fetch_known (td_contract_id <$> tracked);
                 mret (fst again, snd first || snd again)
             end;
    match fst second with
    | Some poc => py_lift (build_evidence_from_contract query poc sp)
    | None => search_lists query (snd second) sp
    end.

(** ** The order requests of the server *)

(** The branches of [_dispatch_read_only] for orders; [enabled] is whether the worker
    has an order session. *)
Definition submit_reply (command : OrderCommand) (result : WorkerSubmissionResult) : MessageType * obj :=
  match ws_outcome result with
  | WO_ACCEPTED =>
      (MT_ORDER_ACCEPTED, [("order_id", VStr (oc_order_id command)); ("broker_order_id", vopt (ws_broker_order_id result));
                           ("reason_code", VNull)])
  | WO_REJECTED =>
      (MT_ORDER_REJECTED, [("order_id", VStr (oc_order_id command)); ("broker_order_id", VNull);
                           ("reason_code", VStr (or_default (ws_reason_code result) "ORDER_REJECTED"))])
  | WO_TIMEOUT_AFTER_POSSIBLE_SEND =>
      (MT_ORDER_STATUS_UNKNOWN, [("order_id", VStr (oc_order_id command)); ("broker_order_id", VNull);
                                 ("reason_code", VStr (or_default (ws_reason_code result) "TIMEOUT_AFTER_POSSIBLE_SEND"))])
  end.

Definition error_reply (reason : string) : MessageType * obj := (MT_ERROR, [("reason_code", VStr reason)]).

Definition dispatch_order_submit (enabled : bool) (sp : stamp) (request : Envelope)
    : py (DerivLiveOrderSession * T) (MessageType * obj) :=
  if negb enabled then mret (error_reply "WORKER_CAPABILITY_DENIED")
  else
    command ← py_lift (parse_order_submit request);
    result ← submit_order command sp;
    mret (submit_reply command result).

Definition status_payload (r : OrderStatusResult) : obj :=
  [("query_outcome", VStr (value (sr_outcome r))); ("reason_code", vopt (sr_reason_code r));
   ("evidence", match sr_evidence r with
                | Some ev => VDict (of_payload (ReconciliationEvidence_to_payload ev))
                | None => VNull
                end);
   ("not_found_evidence", match sr_not_found_evidence r with
                          | Some ev => VDict (NotFoundEvidence_to_payload ev)
                          | None => VNull
                          end)].

Definition dispatch_order_status (enabled : bool) (sp : stamp) (request : Envelope)
    : py (DerivLiveOrderSession * T) (MessageType * obj) :=
  if negb enabled then mret (error_reply "RECONCILIATION_UNAVAILABLE")
  else
    query ← py_lift (parse_order_status_request request);
    r ← query_order_status query None sp;
    mret (MT_ORDER_STATUS_RESPONSE, status_payload r).

(** [_handle]: what the dispatch gives or raises, as a reply. *)
Definition handle (dispatch : py (DerivLiveOrderSession * T) (MessageType * obj))
    : py (DerivLiveOrderSession * T) (MessageType * obj) :=
  py_try dispatch (fun e =>
    match e with
    | DerivWorkerError _ reason_code => Some (mret (error_reply reason_code))
    | ValueError _ => Some (mret (error_reply "MARKET_DATA_INVALID"))
    | _ => None
    end).

(** The envelope of [_reply]. *)
Definition reply_envelope (request : Envelope) (message_id : string) (created_at : datetime)
    (reply : MessageType * obj) : Envelope :=
  mk_Envelope PROTOCOL_VERSION message_id (en_correlation_id request) (Some (en_message_id request))
    ER_DERIV_WORKER ER_CORE (fst reply) created_at None (snd reply).

(** [_validate_routing] *)
Definition validate_routing (request : Envelope) : res unit :=
  guard_res ((en_protocol_version request =? PROTOCOL_VERSION) && bool_decide (en_source request = ER_CORE)
             && bool_decide (en_target request = ER_DERIV_WORKER)) (ProtocolError "IPC_ROLE_MISMATCH").
End reconciliation.
