(* ===== verification/DerivTransportProps.v ===== *)
(** * Properties of the Deriv transport

    Along every run of the client: which documents leave it, whose answer a request
    returns, and what a silent connection leads to. *)

From S2P Require Import Prelude Datetime Dec PyFloat Json Domain DerivJson DerivTransport.

(** ** Runs of the client *)

Inductive client_op : Type :=
| CRequest (x : exchange) (op : DerivOperation) (payload : obj) (timeout : float)
| CFrames (frames : list frame)
| CWatchdog (send_fails : bool) (now : float)
| CReconnect (connects : bool) (now : float)
| CClose
| CReceive | CReceiveAccount | CReceiveContract | CReceiveProposal.

Definition client_step (depth : nat) (o : client_op) (c : DerivWebSocketClient) : DerivWebSocketClient :=
  match o with
  | CRequest x op payload timeout => snd (request depth x op payload timeout c)
  | CFrames frames => reader_loop depth frames c
  | CWatchdog send_fails now => snd (watchdog_iteration send_fails now c)
  | CReconnect connects now => snd (reconnect connects now c)
  | CClose => close c
  | CReceive => snd (receive c)
  | CReceiveAccount => snd (receive_account c)
  | CReceiveContract => snd (receive_contract c)
  | CReceiveProposal => snd (receive_proposal c)
  end.

Definition client_after (depth : nat) (os : list client_op) (c : DerivWebSocketClient) : DerivWebSocketClient :=
  foldl (fun c o => client_step depth o c) c os.

(** ** What an operation leaves alone

    Everything but a request and a ping keeps what was sent; nothing changes whether the
    client is authenticated; request ids are never reused. *)

Definition ids_ok (c : DerivWebSocketClient) : Prop :=
  Forall (fun id => id < dw_next_request_id c) (dw_pending c)
  /\ Forall (fun p => fst p < dw_next_request_id c) (dw_responses c).

Record quiet (c c' : DerivWebSocketClient) : Prop := mk_quiet {
  quiet_sent : dw_sent c' = dw_sent c;
  quiet_demo : dw_demo_authenticated c' = dw_demo_authenticated c;
  quiet_next : dw_next_request_id c' = dw_next_request_id c;
  quiet_pending : dw_pending c' ⊆ dw_pending c;
  quiet_ids : ids_ok c -> ids_ok c'
}.

Lemma quiet_refl c : quiet c c.
Proof. by constructor. Qed.

Lemma quiet_trans a b c : quiet a b -> quiet b c -> quiet a c.
Proof. intros [] []. constructor; try congruence; [set_solver|auto]. Qed.

#[export] Instance quiet_preorder : PreOrder quiet.
Proof. split; [intros c; apply quiet_refl|intros a b c; apply quiet_trans]. Qed.

(** A change of other fields only. *)
Lemma quiet_fields c c' :
  dw_sent c' = dw_sent c -> dw_demo_authenticated c' = dw_demo_authenticated c ->
  dw_next_request_id c' = dw_next_request_id c -> dw_pending c' = dw_pending c ->
  dw_responses c' = dw_responses c -> quiet c c'.
Proof. intros E1 E2 E3 E4 E5. constructor; [done..|by rewrite E4|]. unfold ids_ok. by rewrite E3, E4, E5. Qed.

(** [c] after a change of other fields is still quiet. *)
Ltac quiet_step := first [reflexivity | by apply quiet_fields].

Lemma quiet_answer id i c : id ∈ dw_pending c -> quiet c (answer id i c).
Proof.
  intros Hid. unfold answer. destruct (response_of id c); [reflexivity|].
  constructor; try done. intros [Hp Hr]. split; [done|]. simpl. constructor; [|done].
  simpl. by rewrite Forall_forall in Hp; apply Hp.
Qed.

Lemma answer_fields id i c :
  dw_pending (answer id i c) = dw_pending c /\ dw_next_request_id (answer id i c) = dw_next_request_id c
  /\ dw_sent (answer id i c) = dw_sent c /\ dw_demo_authenticated (answer id i c) = dw_demo_authenticated c.
Proof. unfold answer. by destruct (response_of id c). Qed.

Lemma answer_ids id i c :
  id < dw_next_request_id c -> ids_ok c -> ids_ok (answer id i c).
Proof.
  intros Hid [Hp Hr]. unfold answer. destruct (response_of id c); [done|]. split; [done|]. by constructor.
Qed.

(** Clearing the table of pending requests and answering all of them. *)
Lemma quiet_answer_all i c c1 :
  dw_sent c1 = dw_sent c -> dw_demo_authenticated c1 = dw_demo_authenticated c ->
  dw_next_request_id c1 = dw_next_request_id c -> dw_responses c1 = dw_responses c -> dw_pending c1 = [] ->
  quiet c (answer_all (dw_pending c) i c1).
Proof.
  intros E1 E2 E3 E4 E5. unfold answer_all.
  assert (forall ids c2, dw_pending c2 = [] -> 
    dw_sent (foldl (fun c id => answer id i c) c2 ids) = dw_sent c2 /\
    dw_demo_authenticated (foldl (fun c id => answer id i c) c2 ids) = dw_demo_authenticated c2 /\
    dw_next_request_id (foldl (fun c id => answer id i c) c2 ids) = dw_next_request_id c2 /\
    dw_pending (foldl (fun c id => answer id i c) c2 ids) = [] /\
    (Forall (fun id => id < dw_next_request_id c2) ids -> ids_ok c2 ->
     ids_ok (foldl (fun c id => answer id i c) c2 ids))) as Hfold.
  { induction ids as [|id ids IH]; intros c2 Hc2; simpl; [by split_and!|].
    destruct (answer_fields id i c2) as (Hp & Hn & Hs & Hd).
    destruct (IH (answer id i c2)) as (-> & -> & -> & -> & Hi); [by rewrite Hp|].
    split_and!; [done..|]. intros [Hid Hids]%Forall_cons Hok. apply Hi; [by rewrite Hn|by apply answer_ids]. }
  destruct (Hfold (dw_pending c) c1 E5) as (Hs & Hd & Hn & Hp & Hi).
  constructor; [congruence..|rewrite Hp; set_solver|].
  intros [Hpend Hresp]. apply Hi; [by rewrite E3|]. split; [by rewrite E5; constructor|by rewrite E3, E4].
Qed.

Lemma quiet_set_streams q c : quiet c (set_streams q c).
Proof. quiet_step. Qed.

Lemma quiet_fail_reader e c : quiet c (fail_reader e c).
Proof.
  unfold fail_reader. destruct (dw_failure_recorded c); [reflexivity|].
  etransitivity; [|apply quiet_set_streams]. by apply quiet_answer_all.
Qed.

Lemma quiet_close c : quiet c (close c).
Proof.
  unfold close. etransitivity; [|apply quiet_set_streams]. set (c1 := answer_all _ _ _).
  transitivity c1; [by apply quiet_answer_all|by apply quiet_fields].
Qed.

Lemma quiet_record_drop k now c : quiet c (record_drop k now c).
Proof. quiet_step. Qed.

Lemma quiet_reconnect b now c : quiet c (snd (reconnect b now c)).
Proof.
  unfold reconnect. destruct b; simpl; [|apply quiet_close]. etransitivity; [apply quiet_close|].
  constructor; try done; simpl; [set_solver|]. intros [_ Hr]. split; [constructor|done].
Qed.

Lemma quiet_route_event now taken r c : quiet c (snd (route_event now taken r c)).
Proof.
  unfold route_event, put_latest. cbv zeta.
  repeat first [case_match; simplify_eq/= | quiet_step].
Qed.

Lemma quiet_route_response now taken r c : quiet c (snd (route_response now taken r c)).
Proof.
  unfold route_response. destruct (as_int _) as [id|]; [|apply quiet_route_event].
  destruct (bool_decide _) eqn:Hid; [|apply quiet_route_event]. apply bool_decide_eq_true in Hid.
  destruct (response_of id c); simpl; [apply quiet_record_drop|by apply quiet_answer].
Qed.

Lemma quiet_running (b : bool) c : quiet c (c <| dw_reader_running := b |>).
Proof. quiet_step. Qed.

(** The two ways a frame can be malformed. *)
Definition malformed (now : float) (c : DerivWebSocketClient) : DerivWebSocketClient :=
  let '(fatal, c) := record_parse_failure now c in
  if fatal : bool then (fail_reader schema_error c) <| dw_reader_running := false |> else c.

Lemma quiet_malformed now c : quiet c (malformed now c).
Proof.
  unfold malformed. destruct (record_parse_failure now c) as [fatal c1] eqn:E.
  assert (quiet c c1) as H1 by (injection E as _ <-; quiet_step). destruct fatal; [|done].
  transitivity (fail_reader schema_error c1); [|apply quiet_running].
  transitivity c1; [done|apply quiet_fail_reader].
Qed.

Lemma quiet_received now c : quiet c (record_received_frame now c).
Proof. quiet_step. Qed.

Definition parse_ok (c : DerivWebSocketClient) : DerivWebSocketClient :=
  c <| dw_health ::= fun h => h <| th_consecutive_parse_failures := 0 |> |>.

(** The iteration, with its parts named. *)
Lemma reader_iteration_eq depth f c :
  reader_iteration depth f c =
  if dw_reader_stop c then c <| dw_reader_running := false |>
  else match fr_event f with
       | RecvError e => (fail_reader e c) <| dw_reader_running := false |>
       | RecvBinary => malformed (fr_now f) (record_received_frame (fr_now f) c)
       | RecvText raw =>
           let c := record_received_frame (fr_now f) c in
           match parse_deriv_json depth raw with
           | Err (DerivWorkerError _ _) => malformed (fr_now f) c
           | Err _ => c <| dw_reader_running := false |>
           | Ok response =>
               match route_response (fr_now f) (fr_taken f) response (parse_ok c) with
               | (Ok _, c) => c
               | (Err _, c) => c <| dw_reader_running := false |>
               end
           end
       end.
Proof. reflexivity. Qed.

Lemma quiet_reader_iteration depth f c : quiet c (reader_iteration depth f c).
Proof.
  rewrite reader_iteration_eq. destruct (dw_reader_stop c); [apply quiet_running|].
  destruct (fr_event f) as [raw| |e].
  - cbv zeta. transitivity (record_received_frame (fr_now f) c); [apply quiet_received|].
    set (c1 := record_received_frame (fr_now f) c).
    destruct (parse_deriv_json depth raw) as [r|e]; [|destruct e; first [apply quiet_malformed | apply quiet_running]].
    transitivity (parse_ok c1); [quiet_step|].
    pose proof (quiet_route_response (fr_now f) (fr_taken f) r (parse_ok c1)) as Hr.
    destruct (route_response _ _ _ _) as [[] c2]; simpl in Hr; [done|].
    transitivity c2; [done|apply quiet_running].
  - etransitivity; [apply quiet_received|apply quiet_malformed].
  - etransitivity; [apply quiet_fail_reader|apply quiet_running].
Qed.

Lemma quiet_reader_loop depth frames c : quiet c (reader_loop depth frames c).
Proof.
  revert c. induction frames as [|f frames IH]; intros c; simpl; [reflexivity|].
  destruct (dw_reader_running c); [|reflexivity]. etransitivity; [apply quiet_reader_iteration|apply IH].
Qed.

Lemma quiet_wait_response depth id frames c : quiet c (snd (wait_response depth id frames c)).
Proof.
  revert c. induction frames as [|f frames IH]; intros c; simpl; destruct (response_of id c); try reflexivity.
  destruct (dw_reader_running c); [|reflexivity]. etransitivity; [apply quiet_reader_iteration|apply IH].
Qed.

Lemma quiet_forget_request id c : quiet c (forget_request id c).
Proof.
  constructor; try done; simpl.
  - intros x. rewrite !list_elem_of_In, filter_In. tauto.
  - intros [Hp Hr]. split; simpl; rewrite Forall_forall in *; intros x; rewrite list_elem_of_In, filter_In;
      intros [Hx _]; first [apply Hp | apply Hr]; by apply list_elem_of_In.
Qed.

Lemma quiet_kill reason now c : quiet c (kill_connection reason now c).
Proof.
  unfold kill_connection. destruct (_ || _); [reflexivity|].
  etransitivity; [|apply quiet_fail_reader]. quiet_step.
Qed.

(** ** Who answers a request *)

Lemma answer_response id i id' c :
  response_of id' (answer id i c) =
  match response_of id' c with Some j => Some j | None => if id' =? id then Some i else None end.
Proof.
  unfold answer. destruct (Z.eqb_spec id' id) as [->|Hne].
  - destruct (response_of id c) eqn:E; [by rewrite E|]. unfold response_of. simpl. by rewrite Z.eqb_refl.
  - destruct (response_of id c) eqn:E; [by destruct (response_of id' c)|].
    unfold response_of in *. simpl. destruct (Z.eqb_spec id id'); [lia|]. by destruct (List.find (fun p => fst p =? id') (dw_responses c)).
Qed.

Lemma answer_all_response ids i id c :
  response_of id (answer_all ids i c) =
  match response_of id c with Some j => Some j | None => if bool_decide (id ∈ ids) then Some i else None end.
Proof.
  revert c. unfold answer_all. induction ids as [|k ids IH]; intros c; simpl.
  - by destruct (response_of id c).
  - rewrite IH, answer_response. destruct (response_of id c); [done|].
    destruct (Z.eqb_spec id k) as [->|]; [by rewrite bool_decide_true by set_solver|].
    case_bool_decide; [by rewrite bool_decide_true by set_solver|by rewrite bool_decide_false by set_solver].
Qed.

Lemma fail_reader_response e id c :
  response_of id (fail_reader e c) =
  match response_of id c with
  | Some j => Some j
  | None => if negb (dw_failure_recorded c) && bool_decide (id ∈ dw_pending c) then Some (Failure e) else None
  end.
Proof.
  unfold fail_reader. destruct (dw_failure_recorded c); cbn [negb andb]; [by destruct (response_of id c)|].
  set (c1 := c <| dw_failure_recorded := true |> <| dw_reader_error := Some e |> <| dw_connected := false |>
               <| dw_pending := [] |>).
  change (response_of id (set_streams (force_queue_error e) (answer_all (dw_pending c) (Failure e) c1)))
    with (response_of id (answer_all (dw_pending c) (Failure e) c1)).
  by rewrite answer_all_response.
Qed.

Lemma route_event_responses now taken r c :
  dw_responses (snd (route_event now taken r c)) = dw_responses c.
Proof. unfold route_event, put_latest. cbv zeta. repeat first [case_match; simplify_eq/= | done]. Qed.

(** A frame that holds the answer to a request. *)
Definition answers (depth : nat) (f : frame) (id : Z) (r : obj) : Prop :=
  exists raw, fr_event f = RecvText raw /\ parse_deriv_json depth raw = Ok r /\ as_int (get r "req_id") = Some id.

Lemma route_response_answers now taken r id i c :
  response_of id c = None -> response_of id (snd (route_response now taken r c)) = Some i ->
  i = Response r /\ as_int (get r "req_id") = Some id.
Proof.
  intros Hn. assert (response_of id (snd (route_event now taken r c)) = None) as He.
  { unfold response_of. by rewrite route_event_responses. }
  unfold route_response. destruct (as_int _) as [k|]; [|congruence].
  destruct (bool_decide _); [|congruence].
  destruct (response_of k c); simpl; [by unfold response_of in *; simpl; rewrite Hn|].
  rewrite answer_response, Hn. destruct (Z.eqb_spec id k) as [->|]; [|done]. by intros [= <-].
Qed.

Lemma response_of_eq id c c' : dw_responses c' = dw_responses c -> response_of id c' = response_of id c.
Proof. unfold response_of. by intros ->. Qed.

Lemma fail_reader_answers e id i c :
  response_of id c = None -> response_of id (fail_reader e c) = Some i -> i = Failure e.
Proof. intros Hn. rewrite fail_reader_response, Hn. destruct (_ && _); [by intros [= <-]|done]. Qed.

Lemma malformed_answers now id i c :
  response_of id c = None -> response_of id (malformed now c) = Some i -> i = Failure schema_error.
Proof.
  intros Hn. unfold malformed. destruct (record_parse_failure now c) as [fatal c1] eqn:E.
  assert (response_of id c1 = None) as H1 by (rewrite <- Hn; apply response_of_eq; by injection E as _ <-).
  destruct fatal; [|congruence]. rewrite (response_of_eq _ (fail_reader schema_error c1)) by done.
  by apply fail_reader_answers.
Qed.

(** A response queue is filled by the answer to its request, or by a failure. *)
Lemma reader_iteration_answers depth f id i c :
  response_of id c = None -> response_of id (reader_iteration depth f c) = Some i ->
  match i with Response r => answers depth f id r | Failure _ => True end.
Proof.
  intros Hn. rewrite reader_iteration_eq. destruct (dw_reader_stop c).
  { rewrite (response_of_eq _ c) by done. congruence. }
  destruct (fr_event f) as [raw| |e] eqn:Ef.
  - cbv zeta. set (c1 := record_received_frame (fr_now f) c).
    assert (response_of id c1 = None) as H1 by (rewrite <- Hn; by apply response_of_eq).
    destruct (parse_deriv_json depth raw) as [r|e] eqn:Ep.
    + intros H. assert (response_of id (snd (route_response (fr_now f) (fr_taken f) r (parse_ok c1))) = Some i) as Hr.
      { rewrite <- H. destruct (route_response _ _ _ _) as [[] c2]; [done|]. by apply response_of_eq. }
      apply route_response_answers in Hr as [-> Hid]; [|rewrite <- H1; by apply response_of_eq]. by exists raw.
    + destruct e; try (rewrite (response_of_eq _ c1) by done; congruence).
      intros ->%malformed_answers; done.
  - intros ->%malformed_answers; [done|]. rewrite <- Hn. by apply response_of_eq.
  - rewrite (response_of_eq _ (fail_reader e c)) by done. by intros ->%fail_reader_answers.
Qed.

Lemma wait_response_answers depth id frames c r :
  response_of id c = None -> fst (wait_response depth id frames c) = Some (Response r) ->
  exists f, f ∈ frames /\ answers depth f id r.
Proof.
  revert c. induction frames as [|f frames IH]; intros c Hn; simpl; rewrite Hn; [done|].
  destruct (dw_reader_running c); [|done]. intros H.
  destruct (response_of id (reader_iteration depth f c)) as [i|] eqn:Ei.
  - assert (i = Response r) as ->.
    { destruct frames; simpl in H; rewrite Ei in H; by injection H. }
    exists f. split; [left|]. by apply (reader_iteration_answers depth f id _ c Hn Ei).
  - destruct (IH _ Ei H) as (f' & Hf & Ha). exists f'. split; [by right|done].
Qed.

(** ** Requests *)

Lemma quiet_ensure_connected x c : quiet c (snd (ensure_connected x c)).
Proof.
  unfold ensure_connected. destruct (dw_connected c); [reflexivity|].
  destruct (dw_reader_error c); [reflexivity|apply quiet_reconnect].
Qed.

Lemma fresh_response c : ids_ok c -> response_of (dw_next_request_id c) c = None.
Proof.
  intros [_ Hr]. unfold response_of. destruct (List.find _ _) as [[k i]|] eqn:E; [|done].
  apply find_some in E as [Hin Hk]. rewrite Forall_forall in Hr. apply list_elem_of_In in Hin.
  specialize (Hr _ Hin). simpl in *. lia.
Qed.

Lemma validate_ok op payload demo op' : validate_read_only_request op payload demo = Ok op' -> op' = op.
Proof. unfold validate_read_only_request. intros (u & _ & H)%res_bind_Ok. by destruct (_ || _); simplify_eq. Qed.

Lemma send_and_wait_effect depth x id req c :
  response_of id c = None ->
  let '(r, c') := send_and_wait depth x id req c in
  quiet (c <| dw_sent ::= fun l => l ++ [req] |>) c' /\
  (forall a, r = Ok (Response a) -> exists f, f ∈ ex_frames x /\ answers depth f id a).
Proof.
  intros Hn. set (c1 := c <| dw_sent ::= fun l => l ++ [req] |>).
  assert (response_of id c1 = None) as H1 by (rewrite <- Hn; by apply response_of_eq).
  unfold send_and_wait, mbind, py_bind, py_modify, py_raise. cbv beta iota. fold c1.
  destruct (ex_send_raises x) as [e|].
  { destruct (is_network_exception e); (split; [|done]); [apply quiet_fail_reader|reflexivity]. }
  pose proof (quiet_wait_response depth id (ex_frames x) c1) as Hq.
  pose proof (wait_response_answers depth id (ex_frames x) c1) as Ha.
  destruct (wait_response depth id (ex_frames x) c1) as [[i|] c2]; (split; [done|]); [|done].
  intros a [= ->]. by apply Ha.
Qed.

(** The part of a request after the connection is there. *)
Lemma request_tail depth x payload c :
  ids_ok c ->
  let id := dw_next_request_id c in
  let '(r, c') := (id ← register_request;
    i ← py_finally (send_and_wait depth x id (dict_set "req_id" (VInt id) payload)) (forget_request id);
    match i with
    | Failure e => py_raise (as_worker_error e)
    | Response response => mret response
    end) c in
  dw_sent c' = dw_sent c ++ [dict_set "req_id" (VInt id) payload] /\
  dw_demo_authenticated c' = dw_demo_authenticated c /\ dw_next_request_id c' = id + 1 /\
  dw_pending c' ⊆ dw_pending c /\ ids_ok c' /\
  (forall a, r = Ok a -> exists f, f ∈ ex_frames x /\ answers depth f id a).
Proof.
  intros Hok. cbv zeta. set (id := dw_next_request_id c). set (req := dict_set "req_id" (VInt id) payload).
  set (c1 := c <| dw_next_request_id := id + 1 |> <| dw_pending ::= fun l => l ++ [id] |>).
  assert (response_of id c1 = None) as Hn by (rewrite <- (fresh_response c Hok); by apply response_of_eq).
  assert (ids_ok c1) as H1.
  { destruct Hok as [Hp Hr]. split; simpl.
    - apply Forall_app. split; [|by constructor; [lia|]]. eapply Forall_impl; [exact Hp|]. simpl. lia.
    - eapply Forall_impl; [exact Hr|]. simpl. lia. }
  pose proof (send_and_wait_effect depth x id req c1 Hn) as He.
  unfold register_request, py_finally, mbind, py_bind. fold id c1 req. cbv beta iota.
  destruct (send_and_wait depth x id req c1) as [r c2]. destruct He as [Hq Ha].
  pose proof (quiet_forget_request id c2) as Hf. destruct Hq as [Hs Hd Hx Hp Hi], Hf as [Fs Fd Fx Fp Fi].
  assert (dw_pending (forget_request id c2) ⊆ dw_pending c) as Hsub.
  { intros k Hk. simpl in Hk. apply list_elem_of_In, filter_In in Hk as [Hk Hne]. apply list_elem_of_In, Hp in Hk.
    simpl in Hk. apply elem_of_app in Hk as [?|Hk]; [done|]. apply list_elem_of_singleton in Hk. lia. }
  destruct r as [[a|e]|e]; (split_and!; [by rewrite Fs, Hs|by rewrite Fd, Hd|by rewrite Fx, Hx|done|by apply Fi, Hi|]);
    [|done|done]. intros a' [= <-]. by apply Ha.
Qed.

(** What a request does: it fails before anything is sent, or it sends its document
    under a new id. *)
Lemma request_effect depth x op payload timeout c :
  ids_ok c ->
  let '(r, c') := request depth x op payload timeout c in
  (quiet c c' /\ (forall a, r <> Ok a)) \/
  exists id, validate_read_only_request op payload (dw_demo_authenticated c) = Ok op /\
    id = dw_next_request_id c /\ dw_sent c' = dw_sent c ++ [dict_set "req_id" (VInt id) payload] /\
    dw_demo_authenticated c' = dw_demo_authenticated c /\ dw_next_request_id c' = id + 1 /\
    dw_pending c' ⊆ dw_pending c /\ ids_ok c' /\
    (forall a, r = Ok a -> exists f, f ∈ ex_frames x /\ answers depth f id a).
Proof.
  intros Hok. pose proof (quiet_ensure_connected x c) as Hq.
  pose proof (request_tail depth x payload (snd (ensure_connected x c)) (quiet_ids _ _ Hq Hok)) as Ht.
  unfold request. unfold mbind at 1, py_bind at 1, py_gets at 1. cbv beta iota.
  unfold mbind at 1, py_bind at 1, py_lift at 1. cbv beta iota.
  destruct (validate_read_only_request op payload (dw_demo_authenticated c)) as [op'|e] eqn:Ev; [|left; by split].
  apply validate_ok in Ev as Hop. subst op'.
  unfold mbind at 1, py_bind at 1, py_guard at 1. destruct (fltb _ timeout); [|left; by split].
  cbv beta iota. unfold mret at 1, py_ret at 1. unfold mbind at 1, py_bind at 1.
  destruct (ensure_connected x c) as [[u|e] c1]; [|left; by split].
  cbn [snd] in *. cbv zeta in Ht. destruct Hq as [Es Ed En Ep Ei].
  match goal with |- context [let '(r, c') := ?m in _] => destruct m as [r c'] end.
  right. exists (dw_next_request_id c). rewrite En, Es, Ed in Ht. destruct Ht as (H1 & H2 & H3 & H4 & H5 & H6).
  split_and!; try done. set_solver.
Qed.

(** ** The invariant of a run *)

(** A quote of one contract that buys nothing: a positive stake in USD, a duration in ticks that
    the kind of contract has, a symbol, a digit exactly for the contracts that need one, and
    no field besides these. *)
Record read_only_proposal (d : obj) : Prop := mk_read_only_proposal {
  ro_keys : Forall (fun kv => fst kv ∈ READ_ONLY_PROPOSAL_ALLOWED_KEYS) d;
  ro_proposal : eq_int (get d "proposal") 1 = true;
  ro_amount : exists a, decimal_of (get_or d "amount" (VStr "")) = Ok (Finite a) /\ 0 < coef a;
  ro_terms : get d "basis" = VStr "stake" /\ get d "currency" = VStr "USD" /\ get d "duration_unit" = VStr "t";
  ro_symbol : exists symbol, get d "underlying_symbol" = VStr symbol /\ nonblank symbol = true;
  ro_contract : exists kind n, kind = str_upper (str_strip (str (get_or d "contract_type" (VStr "")))) /\
    (kind ∈ READ_ONLY_PROPOSAL_CONTRACT_TYPES) /\ get d "duration" = VInt n /\
    (if is_in kind CALL_PUT_CONTRACT_TYPES then n = 1 \/ n = 5 \/ n = 10 else n = 1) /\
    (if is_in kind DIGIT_BARRIER_CONTRACT_TYPES
     then exists v b, dict_get "barrier" d = Some v /\ int_of v = Ok b /\ 0 <= b <= 9
     else dict_get "barrier" d = None)
}.

(** No document has the key of a forbidden operation, and before authentication one with the
    key of a trading operation is a read-only proposal. *)
Definition allowed_document (demo : bool) (d : obj) : Prop :=
  Forall (fun kv => fst kv ∉ FORBIDDEN_OPERATIONS_DENYLIST) d /\
  (demo = false -> Forall (fun kv => fst kv ∉ TRADING_OPERATION_DENYLIST) d \/ read_only_proposal d).

Lemma is_in_spec k l : is_in k l = true <-> k ∈ l.
Proof.
  unfold is_in. rewrite existsb_exists. split.
  - intros (x & Hx & ->%String.eqb_eq). by apply list_elem_of_In.
  - intros H. exists k. by rewrite String.eqb_refl, <- list_elem_of_In.
Qed.

Lemma no_key_in l (d : obj) : existsb (fun kv => is_in (fst kv) l) d = false -> Forall (fun kv => fst kv ∉ l) d.
Proof.
  intros H. apply Forall_forall. intros kv Hkv Hin. apply is_in_spec in Hin.
  apply not_true_iff_false in H. apply H. apply existsb_exists. exists kv. by rewrite <- list_elem_of_In.
Qed.

Lemma eq_str_spec v t : eq_str v t = true -> v = VStr t.
Proof. by destruct v; try done; intros ->%String.eqb_eq. Qed.

Lemma no_key_get (d : obj) k : has_key d k = false -> dict_get k d = None.
Proof.
  unfold has_key. induction d as [|[k' v] d IH]; [done|]. simpl. intros [H Hd]%orb_false_iff.
  rewrite String.eqb_sym, H. auto.
Qed.

Lemma validated_proposal d : validate_public_read_only_proposal d = true -> read_only_proposal d.
Proof.
  unfold validate_public_read_only_proposal. cbv zeta. set (kind := str_upper _).
  rewrite !andb_true_iff. intros [[[[[[[[[Hk Hp] Ht] Ha] Hb] Hc] Hu] Hd] Hs] Hbar].
  split.
  - apply Forall_forall. intros kv Hkv. rewrite forallb_forall in Hk. by apply is_in_spec, Hk, list_elem_of_In.
  - done.
  - destruct (decimal_of _) as [[a| | |]|]; try done. exists a. by apply Z.ltb_lt in Ha.
  - split_and!; by apply eq_str_spec.
  - destruct (get d "underlying_symbol"); try done. eauto.
  - destruct (get d "duration") as [| |n| | | |]; try done. exists kind, n. apply is_in_spec in Ht.
    rewrite !andb_true_iff in Hd. destruct Hd as [[_ H1] H2]. split_and!; try done.
    + destruct (is_in kind CALL_PUT_CONTRACT_TYPES); simpl in H1, H2; lia.
    + destruct (is_in kind DIGIT_BARRIER_CONTRACT_TYPES); [|by apply no_key_get, negb_true_iff].
      destruct (dict_get "barrier" d) as [v|]; [|done]. destruct (int_of v) as [b|] eqn:Ev; [|done].
      exists v, b. unfold in_range in Hbar. split; [done|]. split; [done|]. lia.
Qed.

Lemma validated_document op payload demo :
  validate_read_only_request op payload demo = Ok op -> allowed_document demo payload.
Proof.
  unfold validate_read_only_request, validate_outbound_deriv_request. intros (u & H & _)%res_bind_Ok.
  destruct (_ || _) eqn:Ef in H; [done|]. apply orb_false_iff in Ef as [_ Ef%no_key_in]. split; [done|].
  intros ->. cbn [negb andb] in H. destruct (String.eqb _ "proposal").
  - right. apply guard_res_Ok in H. by apply validated_proposal.
  - left. by apply guard_res_Ok, negb_true_iff, orb_false_iff in H as [_ Ht%no_key_in].
Qed.

Lemma dict_set_keys (P : string -> Prop) k v (d : obj) :
  P k -> Forall (fun kv => P (fst kv)) d -> Forall (fun kv => P (fst kv)) (dict_set k v d).
Proof.
  intros Hk Hd. induction Hd as [|[k' v'] d Hk' Hd IH]; cbn [dict_set]; [by apply Forall_singleton|].
  destruct (String.eqb k k'); by constructor.
Qed.

Lemma dict_get_set_ne k k' v (d : obj) : k <> k' -> dict_get k (dict_set k' v d) = dict_get k d.
Proof.
  intros Hne. induction d as [|[k1 v1] d IH]; cbn [dict_set dict_get].
  - by apply String.eqb_neq in Hne as ->.
  - destruct (String.eqb_spec k' k1) as [<-|]; cbn [dict_get]; [by apply String.eqb_neq in Hne as ->|by rewrite IH].
Qed.

(** The number of the request is not one of the fields that matter. *)
Lemma numbered_allowed demo v d : allowed_document demo d -> allowed_document demo (dict_set "req_id" v d).
Proof.
  intros [Hf Hd]. split; [apply (dict_set_keys (fun k => k ∉ FORBIDDEN_OPERATIONS_DENYLIST)); [by intros ?%is_in_spec|done]|]. intros Hdemo.
  destruct (Hd Hdemo) as [Ht|[R1 R2 R3 R4 R5 R6]].
  { left. apply (dict_set_keys (fun k => k ∉ TRADING_OPERATION_DENYLIST)); [by intros ?%is_in_spec|done]. }
  right.
  unfold get, get_or in *. split; unfold get, get_or.
  - apply (dict_set_keys (fun k => k ∈ READ_ONLY_PROPOSAL_ALLOWED_KEYS)); [by apply is_in_spec|done].
  - by rewrite dict_get_set_ne.
  - by rewrite dict_get_set_ne.
  - by rewrite !dict_get_set_ne.
  - by rewrite dict_get_set_ne.
  - by rewrite !dict_get_set_ne.
Qed.

Lemma get_dict_set k v d : get (dict_set k v d) k = v.
Proof.
  unfold get. induction d as [|[k' v'] d IH]; cbn [dict_set dict_get]; [by rewrite String.eqb_refl|].
  destruct (String.eqb k k') eqn:E; cbn [dict_get]; [by rewrite String.eqb_refl|by rewrite E].
Qed.

Lemma ping_allowed demo : allowed_document demo [("ping", VInt 1)].
Proof. split; [|intros _; left]; apply Forall_singleton; by intros H%is_in_spec. Qed.

Record client_inv (demo : bool) (c : DerivWebSocketClient) : Prop := mk_client_inv {
  inv_ids : ids_ok c;
  inv_demo : dw_demo_authenticated c = demo;
  inv_allowed : Forall (allowed_document demo) (dw_sent c);
  inv_numbered : Forall (fun d => forall n, get d "req_id" = VInt n -> n < dw_next_request_id c) (dw_sent c)
}.

Lemma quiet_inv demo c c' : quiet c c' -> client_inv demo c -> client_inv demo c'.
Proof. intros [Es Ed En Ep Ei] [H1 H2 H3 H4]. constructor; [by apply Ei|congruence|by rewrite Es|by rewrite Es, En]. Qed.

Lemma request_inv depth x op payload timeout demo c :
  client_inv demo c -> client_inv demo (snd (request depth x op payload timeout c)).
Proof.
  intros Hinv. pose proof (request_effect depth x op payload timeout c (inv_ids _ _ Hinv)) as He.
  destruct (request _ _ _ _ _ _) as [r c']. simpl.
  destruct He as [[Hq _]|(id & Hv & -> & Hs & Hd & Hn & _ & Hok & _)]; [by apply (quiet_inv demo c)|].
  destruct Hinv as [H1 H2 H3 H4]. constructor; [done|congruence|..]; rewrite Hs; apply Forall_app; (split; [|constructor; [|done]]).
  - done.
  - apply numbered_allowed. rewrite H2 in Hv. by apply (validated_document op).
  - eapply Forall_impl; [exact H4|]. intros d Hd' n Hg. rewrite Hn. specialize (Hd' n Hg). lia.
  - intros n. rewrite get_dict_set, Hn. intros [= <-]. lia.
Qed.

Lemma ping_inv send_fails now demo c :
  client_inv demo c -> client_inv demo (snd (send_watchdog_ping send_fails now c)).
Proof.
  intros Hinv. unfold send_watchdog_ping. destruct (validate_read_only_request _ _ _) eqn:Ev; [|done].
  destruct (dw_connected c); cbn [negb]; [|apply (quiet_inv demo c); [apply quiet_kill|done]].
  set (c1 := c <| dw_pending_ping_deadline := _ |> <| dw_sent ::= _ |>).
  assert (client_inv demo c1) as H1.
  { destruct Hinv as [[Hp Hr] H2 H3 H4]. constructor; [by split|done|..]; apply Forall_app; split; try done.
    - apply Forall_singleton, ping_allowed.
    - by apply Forall_singleton. }
  destruct send_fails; [apply (quiet_inv demo c1); [apply quiet_kill|done]|].
  apply (quiet_inv demo c1); [by apply quiet_fields|done].
Qed.

Lemma watchdog_inv send_fails now demo c :
  client_inv demo c -> client_inv demo (snd (watchdog_iteration send_fails now c)).
Proof.
  intros Hinv. unfold watchdog_iteration. destruct (_ || _); [done|]. cbv zeta.
  set (c1 := c <| dw_last_watchdog_tick := now |>).
  assert (client_inv demo c1) as H1 by (apply (quiet_inv demo c); [by apply quiet_fields|done]).
  destruct (monotonic_gap_exceeds _ _ _).
  { set (c2 := c1 <| dw_health ::= _ |>). apply (quiet_inv demo c2); [apply quiet_kill|].
    apply (quiet_inv demo c1); [by apply quiet_fields|done]. }
  repeat first [done | case_match | apply ping_inv | apply (quiet_inv demo c1); [apply quiet_kill|]].
Qed.

Lemma quiet_receives c :
  quiet c (snd (receive c)) /\ quiet c (snd (receive_account c)) /\ quiet c (snd (receive_contract c)) /\
  quiet c (snd (receive_proposal c)).
Proof.
  unfold receive, receive_account, receive_contract, receive_proposal.
  split_and!; destruct (take_event _) as [r q]; by apply quiet_fields.
Qed.

Lemma client_run_inv depth demo now os :
  client_inv demo (client_after depth os (new_DerivWebSocketClient demo now)).
Proof.
  unfold client_after. induction os as [|o os IH] using rev_ind; [by repeat constructor|].
  rewrite foldl_app. simpl. set (c := foldl _ _ os) in *.
  destruct (quiet_receives c) as (Q1 & Q2 & Q3 & Q4).
  destruct o; simpl; first
    [ by apply request_inv | by apply watchdog_inv | apply (quiet_inv demo c); [|done] ];
    first [ apply quiet_reader_loop | apply quiet_reconnect | apply quiet_close | done ].
Qed.

(** C37: only permitted requests leave the client.  Along every run, whatever is asked of
    it and whatever it receives, no document is sent that has the key of a forbidden
    operation, and a client that is not authenticated sends no document with the key of
    a trading operation other than a read-only proposal: one that asks for the price of a
    contract of a listed kind at a positive stake in USD, for a duration in ticks that the
    kind admits, with a digit exactly where the kind needs one, and has no other field. *)
Theorem only_allowed_requests_leave depth demo now os :
  Forall (allowed_document demo) (dw_sent (client_after depth os (new_DerivWebSocketClient demo now))).
Proof. apply (inv_allowed demo). apply client_run_inv. Qed.

(** C39: a request returns its own answer.  When a request returns, its document was sent
    under an id that no earlier document had, the answer is a frame that the connection
    delivered during the request and that carries this id, and the request is no longer
    pending. *)
Theorem request_gets_own_answer depth demo now os x op payload timeout a c' :
  let c := client_after depth os (new_DerivWebSocketClient demo now) in
  request depth x op payload timeout c = (Ok a, c') ->
  exists id f, dw_sent c' = dw_sent c ++ [dict_set "req_id" (VInt id) payload] /\
    (forall d, d ∈ dw_sent c -> get d "req_id" <> VInt id) /\
    f ∈ ex_frames x /\ answers depth f id a /\ dw_pending c' ⊆ dw_pending c.
Proof.
  intros c H. pose proof (client_run_inv depth demo now os) as Hinv. fold c in Hinv.
  pose proof (request_effect depth x op payload timeout c (inv_ids _ _ Hinv)) as He. rewrite H in He.
  destruct He as [[_ Hr]|(id & _ & Hid & Hs & _ & _ & Hp & _ & Ha)]; [by destruct (Hr a)|].
  destruct (Ha a eq_refl) as (f & Hf & Hans). exists id, f. split_and!; try done.
  intros d Hd Hg. pose proof (inv_numbered _ _ Hinv) as Hn. rewrite Forall_forall in Hn.
  specialize (Hn d Hd id Hg). lia.
Qed.

Definition heartbeat_timeout : exn := DerivWorkerError NETWORK_ERROR "DERIV_HEARTBEAT_TIMEOUT".

Lemma answer_all_fields ids i c :
  let c' := answer_all ids i c in
  dw_connected c' = dw_connected c /\ dw_pending c' = dw_pending c /\ dw_reader_error c' = dw_reader_error c /\
  dw_demo_authenticated c' = dw_demo_authenticated c.
Proof.
  cbv zeta. unfold answer_all. revert c. induction ids as [|id ids IH]; intros c; simpl; [done|].
  destruct (IH (answer id i c)) as (-> & -> & -> & ->). unfold answer. by destruct (response_of id c).
Qed.

Lemma kill_effect reason now c :
  dw_reader_stop c = false -> dw_failure_recorded c = false ->
  let c' := kill_connection reason now c in
  dw_connected c' = false /\ dw_pending c' = [] /\ dw_reader_error c' = Some heartbeat_timeout /\
  dw_demo_authenticated c' = dw_demo_authenticated c /\
  (forall id, id ∈ dw_pending c -> response_of id c' <> None).
Proof.
  intros Hs Hf. cbv zeta. unfold kill_connection. rewrite Hs, Hf. cbn [orb].
  set (c1 := c <| dw_health ::= _ |>). assert (dw_failure_recorded c1 = false) as H1 by done.
  assert (forall id, id ∈ dw_pending c -> response_of id (fail_reader heartbeat_timeout c1) <> None) as Hr.
  { intros id Hid. rewrite fail_reader_response, H1. cbn [negb andb].
    rewrite bool_decide_true by done. by destruct (response_of id c1). }
  split_and!; [..|exact Hr]; unfold fail_reader; rewrite H1;
    match goal with |- context [answer_all ?ids ?i ?c0] =>
      destruct (answer_all_fields ids i c0) as (E1 & E2 & E3 & E4) end; first [exact E1 | exact E2 | exact E3 | exact E4].
Qed.

Lemma killed_request depth x op payload timeout c :
  dw_connected c = false -> dw_reader_error c = Some heartbeat_timeout ->
  validate_read_only_request op payload (dw_demo_authenticated c) = Ok op -> fltb (float_of_Z 0) timeout = true ->
  fst (request depth x op payload timeout c) = Err heartbeat_timeout.
Proof.
  intros Hc He Hv Ht. unfold request, mbind, py_bind, py_gets, py_lift. rewrite Hv. cbv beta iota.
  unfold py_guard. rewrite Ht. unfold mret, py_ret, ensure_connected. cbv beta iota. by rewrite Hc, He.
Qed.

(** a silent connection is given up.  When a watchdog iteration finds that nothing
    was received for more than 30 seconds, or that a ping was not answered in time, or
    that it was itself suspended for more than 10 seconds, the connection is gone, every
    pending request has its answer, and the next request fails with a network error. *)
Theorem silent_connection_is_killed send_fails now depth x op payload timeout c :
  dw_reader_stop c = false -> dw_failure_recorded c = false ->
  (fltb SUSPEND_GAP_SECONDS (fsub now (dw_last_watchdog_tick c))
   || fltb HEARTBEAT_RX_STALL_SECONDS (fsub now (dw_last_rx_monotonic c))
   || from_option (fun deadline => fltb deadline now) false (dw_pending_ping_deadline c)) = true ->
  let '(alive, c') := watchdog_iteration send_fails now c in
  alive = Ok false /\ dw_connected c' = false /\ dw_pending c' = [] /\
  (forall id, id ∈ dw_pending c -> response_of id c' <> None) /\
  (validate_read_only_request op payload (dw_demo_authenticated c) = Ok op ->
   fltb (float_of_Z 0) timeout = true ->
   fst (request depth x op payload timeout c') = Err (DerivWorkerError NETWORK_ERROR "DERIV_HEARTBEAT_TIMEOUT")).
Proof.
  intros Hs Hf Hsilent. set (c1 := c <| dw_last_watchdog_tick := now |>).
  assert (exists reason c2, watchdog_iteration send_fails now c = (Ok false, kill_connection reason now c2) /\
    dw_reader_stop c2 = false /\ dw_failure_recorded c2 = false /\ dw_pending c2 = dw_pending c /\
    dw_demo_authenticated c2 = dw_demo_authenticated c) as (reason & c2 & -> & Hs2 & Hf2 & <- & <-).
  { unfold watchdog_iteration. rewrite Hs, Hf. cbn [orb]. cbv zeta. unfold monotonic_gap_exceeds. fold c1.
    destruct (fltb SUSPEND_GAP_SECONDS _); [by eexists _, _|]. cbn [orb] in Hsilent.
    change (dw_last_rx_monotonic c1) with (dw_last_rx_monotonic c).
    change (dw_pending_ping_deadline c1) with (dw_pending_ping_deadline c).
    destruct (fltb HEARTBEAT_RX_STALL_SECONDS _); [by eexists _, c1|]. cbn [orb] in Hsilent.
    destruct (dw_pending_ping_deadline c) as [deadline|]; [|done]. simpl in Hsilent. rewrite Hsilent. by eexists _, c1. }
  destruct (kill_effect reason now c2 Hs2 Hf2) as (H1 & H2 & H3 & H4 & H5).
  split_and!; try done. intros Hv Ht. apply killed_request; [done|done|by rewrite H4|done].
Qed.

(** ** A sample connection *)

Module Wire.
Definition second (n : Z) : float := float_of_Z n.
Definition text (d : obj) : frame := mk_frame (RecvText (encode_deriv_json (VDict d))) (second 1) 0.
Definition delivers (l : list frame) : exchange := mk_exchange true (second 0) None l.

(** The answer comes after a tick, a frame that is no JSON and the answer to another id. *)
Definition time_exchange : exchange := delivers
  [text [("msg_type", VStr "tick"); ("subscription", VDict [])]; mk_frame (RecvText "{") (second 1) 0;
   text [("msg_type", VStr "time"); ("req_id", VInt 7); ("time", VInt 6)];
   text [("msg_type", VStr "time"); ("req_id", VInt 1); ("time", VInt 5)]].

Definition fresh_client : DerivWebSocketClient := new_DerivWebSocketClient false (second 0).
Definition connected : DerivWebSocketClient := snd (reconnect true (second 0) fresh_client).
Definition silent : DerivWebSocketClient := connected <| dw_last_watchdog_tick := second 30 |>.
End Wire.

Lemma request_gets_own_answer_witness :
  exists a c', request 9 Wire.time_exchange OP_TIME [("time", VInt 1)] (Wire.second 3)
                 (client_after 9 [CReconnect true (Wire.second 0)] Wire.fresh_client) = (Ok a, c') /\
    get a "time" = VInt 5 /\ th_parse_failures_total (dw_health c') = 1 /\
    exists id f, f ∈ ex_frames Wire.time_exchange /\ answers 9 f id a.
Proof.
  eexists _, _. split; [vm_compute; reflexivity|]. split; [reflexivity|]. split; [reflexivity|].
  destruct (request_gets_own_answer 9 false (Wire.second 0) [CReconnect true (Wire.second 0)] Wire.time_exchange
              OP_TIME [("time", VInt 1)] (Wire.second 3) _ _ ltac:(vm_compute; reflexivity))
    as (id & f & _ & _ & Hf & Ha & _).
  exists id, f. by split.
Defined.

Lemma silent_connection_is_killed_witness :
  let '(alive, c') := watchdog_iteration false (Wire.second 31)
    Wire.silent in
  alive = Ok false /\ fst (request 9 Wire.time_exchange OP_TIME [("time", VInt 1)] (Wire.second 3) c')
                      = Err (DerivWorkerError NETWORK_ERROR "DERIV_HEARTBEAT_TIMEOUT").
Proof.
  pose proof (silent_connection_is_killed false (Wire.second 31) 9 Wire.time_exchange OP_TIME [("time", VInt 1)]
    (Wire.second 3) Wire.silent
    ltac:(vm_compute; reflexivity) ltac:(vm_compute; reflexivity) ltac:(vm_compute; reflexivity)) as H.
  destruct (watchdog_iteration false (Wire.second 31) _) as [alive c']. destruct H as (H1 & _ & _ & _ & H2).
  split; [exact H1|]. apply H2; vm_compute; reflexivity.
Defined.

(** A frame whose [msg_type] is a list ends the reader thread with a [TypeError]: the
    connection seems alive, no failure is recorded, and requests wait for nothing. *)
Example unhashable_type_stops_reader :
  let c := reader_loop 9 [Wire.text [("msg_type", VList [])]] Wire.connected in
  dw_reader_running c = false /\ dw_connected c = true /\ dw_failure_recorded c = false /\
  fst (request 9 Wire.time_exchange OP_TIME [("time", VInt 1)] (Wire.second 3) c)
  = Err (DerivWorkerError NETWORK_ERROR "DERIV_REQUEST_TIMEOUT").
Proof. vm_compute. by split_and!. Qed.
