(* ===== verification/DerivProps.v ===== *)
(** * Properties of the Deriv worker

    Submission, contract events and reconciliation, for every transport.  The requests
    that the worker makes are observed through [logged], a transport that works like the
    given one and keeps a log of requests and replies. *)

From S2P Require Import Prelude Datetime Dec PyFloat Json Domain StateDb Writer Reconciliation Protocol.
From S2P Require Import DerivJson DerivTransport DerivSession DerivRecon.

Record entry : Type := mk_entry { lg_op : DerivOperation; lg_payload : obj; lg_reply : res obj }.

#[export] Instance logged {T} `{DerivReadTransport T} : DerivReadTransport (T * list entry) := {
  transport_request op payload := fun '(t, l) =>
    let '(r, t) := transport_request op payload t in (r, (t, l ++ [mk_entry op payload r]));
  transport_receive_contract := fun '(t, l) => let '(r, t) := transport_receive_contract t in (r, (t, l))
}.

Definition entries_of (op : DerivOperation) (l : list entry) : list entry :=
  List.filter (fun e => bool_decide (lg_op e = op)) l.

Lemma entries_of_app op l1 l2 : entries_of op (l1 ++ l2) = entries_of op l1 ++ entries_of op l2.
Proof. apply List.filter_app. Qed.

Lemma entries_of_other op l : Forall (fun e => lg_op e <> op) l -> entries_of op l = [].
Proof.
  unfold entries_of. induction 1 as [|e l He Hl IH]; [done|]. simpl. by rewrite bool_decide_false.
Qed.

Section props.
Context {T : Type} {transport : DerivReadTransport T}.
Implicit Types (s : DerivLiveOrderSession) (t : T) (l : list entry).

Lemma send_logged op payload s t l :
  send op payload (s, (t, l)) =
  let '(r, t) := transport_request op payload t in (r, (s, (t, l ++ [mk_entry op payload r]))).
Proof. unfold send, on_transport. simpl. by destruct (transport_request op payload t). Qed.

(** ** Submission *)

Lemma track_by_contract o s : get_tracked_by_contract_id (td_contract_id o) (track o s) = Some o.
Proof.
  unfold get_tracked_by_contract_id, track. simpl. rewrite lookup_insert_eq. simpl.
  by rewrite lookup_app_r, Nat.sub_diag by done.
Qed.

Lemma track_by_order o s : get_tracked_by_order_id (td_order_id o) (track o s) = Some o.
Proof.
  unfold get_tracked_by_order_id, track. simpl. rewrite lookup_insert_eq. simpl.
  by rewrite lookup_app_r, Nat.sub_diag by done.
Qed.

(** The same tracked orders. *)
Definition same_orders s s' : Prop :=
  ds_heap s' = ds_heap s /\ ds_tracked s' = ds_tracked s /\ ds_tracked_by_order_id s' = ds_tracked_by_order_id s.

Lemma same_orders_get s s' :
  same_orders s s' ->
  (forall id, get_tracked_by_contract_id id s' = get_tracked_by_contract_id id s) /\
  (forall id, get_tracked_by_order_id id s' = get_tracked_by_order_id id s).
Proof.
  unfold get_tracked_by_contract_id, get_tracked_by_order_id. by intros (-> & -> & ->).
Qed.

Lemma subscribe_contract_spec id s t l :
  exists s' t' l', subscribe_contract id (s, (t, l)) = (Ok tt, (s', (t', l ++ l'))) /\
    same_orders s s' /\ Forall (fun e => lg_op e = OP_PROPOSAL_OPEN_CONTRACT) l'.
Proof.
  unfold subscribe_contract, mbind, py_bind, py_try, on_session, py_gets, py_lift.
  destruct (bool_decide _); [exists s, t, []; by rewrite app_nil_r|].
  destruct (py_int id) as [n|e]; [|exists s, t, []; by rewrite app_nil_r].
  rewrite send_logged. destruct (transport_request _ _ t) as [r t'].
  destruct r as [response|e]; simpl;
    [|eexists s, t', [_]; split; [done|]; split; [done|]; by apply Forall_singleton].
  destruct (get response "subscription") as [| | | | | |subscription]; simpl;
    try (eexists _, t', [_]; split; [done|]; split; [done|]; by apply Forall_singleton).
  destruct (get subscription "id"); simpl;
    (eexists _, t', [_]; split; [done|]; split; [done|]; by apply Forall_singleton).
Qed.

(** The contract of an answer to a buy. *)
Definition contract_of (response : obj) : option string :=
  match get response "buy" with
  | VDict buy_data => match get buy_data "contract_id" with VNull => None | v => Some (str v) end
  | _ => None
  end.

(** An exception that leaves open whether the order reached the broker. *)
Definition leaves_open (e : exn) : bool :=
  match e with
  | DerivWorkerError category _ => bool_decide (category = NETWORK_ERROR) || bool_decide (category = RATE_LIMITED)
  | _ => is_os_error e
  end.

(** The order is tracked under its contract. *)
Definition tracks (command : OrderCommand) (id : string) s : Prop :=
  exists o, get_tracked_by_contract_id id s = Some o /\ get_tracked_by_order_id (oc_order_id command) s = Some o /\
    td_order_id o = oc_order_id command /\ td_account_id o = oc_account_id command.

(** What a submission reports, given the reply to its buy. *)
Definition reported (command : OrderCommand) (reply : res obj) (r : res WorkerSubmissionResult)
    s' : Prop :=
  match reply, r with
  | Ok response, Ok w =>
      match contract_of response with
      | Some id => ws_outcome w = WO_ACCEPTED /\ ws_broker_order_id w = Some id /\
          tracks command id s'
      | None => ws_outcome w = WO_REJECTED
      end
  | Ok response, Err _ => contract_of response <> None
  | Err e, Ok w => ws_outcome w = if leaves_open e then WO_TIMEOUT_AFTER_POSSIBLE_SEND else WO_REJECTED
  | Err e, Err e' => e' = e /\ leaves_open e = false
  end.

(** Only contract documents are asked for after the buy. *)
Definition follows l l' : Prop := exists k, l' = l ++ k /\ Forall (fun e => lg_op e = OP_PROPOSAL_OPEN_CONTRACT) k.

Lemma follows_refl l : follows l l.
Proof. exists []. by rewrite app_nil_r. Qed.

Lemma accept_spec command stake sp buy_data id s t l :
  let '(r, (s', (t', l'))) :=
    (buy_price ← py_lift (decimal_of (get_or buy_data "buy_price" (VDecimal stake)));
     buy_price_minor ← py_lift (money_to_minor_units buy_price);
     _ ← on_session (py_modify (track (tracked_of command id buy_price_minor (sp_later sp))));
     _ ← subscribe_contract id;
     mret (result_of command sp WO_ACCEPTED (Some id) None)) (s, (t, l)) in
  follows l l' /\
  (forall w, r = Ok w -> ws_outcome w = WO_ACCEPTED /\ ws_broker_order_id w = Some id /\ tracks command id s').
Proof.
  unfold mbind, py_bind, py_lift, on_session, py_modify.
  destruct (decimal_of _) as [price|e]; [|by split; [apply follows_refl|]].
  destruct (money_to_minor_units price) as [minor|e]; [|by split; [apply follows_refl|]].
  set (o := tracked_of command id minor (sp_later sp)).
  destruct (subscribe_contract_spec id (track o s) t l) as (s' & t' & k & -> & Hs & Hk).
  split; [by exists k|]. intros w [= <-]. split_and!; try done. exists o.
  destruct (same_orders_get _ _ Hs) as [-> ->].
  split_and!; [apply track_by_contract|apply (track_by_order o)|done|done].
Qed.

Lemma buy_answer_spec command stake sp response s t l :
  let '(r, (s', (t', l'))) := buy_answer command stake sp response (s, (t, l)) in
  reported command (Ok response) r s' /\ follows l l'.
Proof.
  unfold buy_answer, reported, contract_of.
  destruct (get response "buy") as [| | | | | |buy_data]; try (by split; [|apply follows_refl]).
  destruct (get buy_data "contract_id") as [|b|n|f|x|vs|d] eqn:E; [by split; [|apply follows_refl]| | | | | |].
  all: lazymatch type of E with _ = ?v => pose proof (accept_spec command stake sp buy_data (str v) s t l) as H end.
  all: cbv zeta.
  all: lazymatch type of H with context [match ?m with pair _ _ => _ end] => destruct m as [[w|e] (s' & t' & l')] end.
  all: destruct H as [Hl Hw]; (split; [|done]); try done.
  all: destruct (Hw w eq_refl) as (H1 & H2 & H3); by split_and!.
Qed.

Lemma execute_buy_spec command payload stake sp s t l :
  let '(r, (s', (t', l'))) := execute_buy_payload command payload stake sp (s, (t, l)) in
  exists reply k, reported command reply r s' /\ l' = l ++ mk_entry OP_BUY payload reply :: k /\
    Forall (fun e => lg_op e = OP_PROPOSAL_OPEN_CONTRACT) k.
Proof.
  unfold execute_buy_payload. rewrite send_logged. destruct (transport_request OP_BUY payload t) as [reply t'].
  destruct reply as [response|e].
  - pose proof (buy_answer_spec command stake sp response s t' (l ++ [mk_entry OP_BUY payload (Ok response)])) as H.
    destruct (buy_answer _ _ _ _ _) as [r (s' & t2 & l')]. destruct H as [Hr (k & -> & Hk)].
    exists (Ok response), k. by rewrite <- app_assoc.
  - destruct e; (eexists (Err _), []; split; [|split; [reflexivity|done]]); simpl; by try destruct (_ || _).
Qed.

(** The proposal that a buy refers to. *)
Definition quoted (id : string) (response : obj) : Prop :=
  exists proposal, get response "proposal" = VDict proposal /\ get proposal "id" = VStr id.

Definition stake_of (command : OrderCommand) : dec := decimal_amount (minor_units (oc_amount command)).

(** The requests of a submission: none; a proposal that was not taken up; or a proposal,
    the buy of what it quoted at the stake of the order, and the contract of the buy. *)
Definition bought (command : OrderCommand) l (r : res WorkerSubmissionResult) s s' : Prop :=
  match l with
  | [] => s' = s /\ forall w, r = Ok w -> ws_outcome w = WO_REJECTED
  | [p] => lg_op p = OP_PROPOSAL /\ s' = s /\ forall w, r = Ok w -> ws_outcome w = WO_REJECTED
  | p :: b :: k =>
      lg_op p = OP_PROPOSAL /\ lg_op b = OP_BUY /\ Forall (fun e => lg_op e = OP_PROPOSAL_OPEN_CONTRACT) k /\
      (exists response id, lg_reply p = Ok response /\ quoted id response /\
         lg_payload b = buy_payload command id (stake_of command)) /\
      reported command (lg_reply b) r s'
  end.

Lemma proposal_then_buy_spec command payload sp s t :
  let '(r, (s', (t', l))) := proposal_then_buy command payload (stake_of command) sp (s, (t, [])) in
  bought command l r s s'.
Proof.
  unfold proposal_then_buy. rewrite send_logged. destruct (transport_request OP_PROPOSAL payload t) as [reply t'].
  destruct reply as [response|e].
  - destruct (get response "proposal") as [| | | | | |proposal] eqn:Ep; try (by split_and!; [..|intros w [= <-]]).
    destruct (get proposal "id") as [| | | |id| |] eqn:Ei; try (by split_and!; [..|intros w [= <-]]).
    pose proof (execute_buy_spec command (buy_payload command id (stake_of command)) (stake_of command) sp s t'
      [mk_entry OP_PROPOSAL payload (Ok response)]) as H.
    destruct (execute_buy_payload _ _ _ _ _) as [r (s' & t2 & l')]. destruct H as (reply & k & Hr & -> & Hk).
    simpl. split_and!; try done. exists response, id. split_and!; try done. by exists proposal.
  - destruct e; simpl; try (by split_and!; [..|intros w [= <-]]); by split_and!.
Qed.

(** C14: a submission buys at most once and reports what became of it.  The requests of a
    submission are at most one proposal and one buy, the buy takes up the quoted proposal
    at the stake of the order; when the answer names a contract, the result is ACCEPTED
    and the order is tracked under that contract (or its price cannot be read); an exchange that leaves open whether
    the order reached the broker is reported as possibly sent; and the result is never
    that of another account or of an expired command. *)
Theorem submission_is_classified command sp s t :
  let '(r, (s', (t', l))) := submit_order command sp (s, (t, [])) in
  bought command l r s s' /\
  (l <> [] -> ds_demo_authenticated s = true /\ oc_account_id command = ds_account_id s /\
              instant (sp_now sp) < instant (oc_deadline_at command)).
Proof.
  unfold submit_order, mbind, py_bind, on_session, py_gets, py_guard. cbv beta iota.
  destruct (ds_demo_authenticated s) eqn:E1; [|done].
  destruct (bool_decide (oc_broker command = DERIV)); [|done].
  cbn [mret py_ret]. destruct (String.eqb_spec (oc_account_id command) (ds_account_id s)) as [E2|]; [|done].
  unfold dt_leb. destruct (Z.leb_spec (instant (oc_deadline_at command)) (instant (sp_now sp))) as [|E3];
    [by split; [split; [done|intros w [= <-]]|]|].
  assert (forall payload, let '(r, (s', (t', l))) := proposal_then_buy command payload (stake_of command) sp (s, (t, [])) in
    bought command l r s s' /\ (l <> [] -> true = true /\ oc_account_id command = ds_account_id s /\
      instant (sp_now sp) < instant (oc_deadline_at command))) as Hbuy.
  { intros payload. pose proof (proposal_then_buy_spec command payload sp s t) as H.
    destruct (proposal_then_buy _ _ _ _ _) as [r (s' & t' & l')]. by split. }
  cbv zeta. destruct (is_in _ DIGIT_PRODUCTS); [|apply Hbuy].
  destruct (is_in _ BARRIER_PRODUCTS && _); [by split; [split; [done|intros w [= <-]]|]|apply Hbuy].
Qed.

(** ** Reconciliation

    A computation that reads from the broker: it keeps the session, makes requests other
    than a buy, and its result stands in the relation [Q] to the requests made. *)

Definition reads {A} s (m : py (DerivLiveOrderSession * (T * list entry)) A) (Q : A -> list entry -> Prop) : Prop :=
  forall t l, let '(r, (s', (t', l'))) := m (s, (t, l)) in
    s' = s /\ exists k, l' = l ++ k /\ Forall (fun e => lg_op e <> OP_BUY) k /\ forall a, r = Ok a -> Q a k.

Lemma reads_ret {A} s (a : A) (Q : A -> list entry -> Prop) : Q a [] -> reads s (mret a) Q.
Proof. intros HQ t l. split; [done|]. exists []. rewrite app_nil_r. split_and!; try done. by intros a' [= <-]. Qed.

Lemma reads_lift {A} s (r : res A) (Q : A -> list entry -> Prop) :
  (forall a, r = Ok a -> Q a []) -> reads s (py_lift r) Q.
Proof. intros HQ t l. split; [done|]. exists []. by rewrite app_nil_r. Qed.

Lemma reads_guard s b e : reads s (py_guard b e) (fun _ k => k = []).
Proof.
  destruct b; [by apply reads_ret|]. intros t l. split; [done|]. exists []. by rewrite app_nil_r.
Qed.

Lemma reads_session {A} s (f : DerivLiveOrderSession -> A) (Q : A -> list entry -> Prop) :
  Q (f s) [] -> reads s (on_session (py_gets f)) Q.
Proof. intros HQ t l. split; [done|]. exists []. rewrite app_nil_r. split_and!; try done. by intros a' [= <-]. Qed.

Lemma reads_send s op payload :
  op <> OP_BUY -> reads s (send op payload) (fun d k => k = [mk_entry op payload (Ok d)]).
Proof.
  intros Hop t l. rewrite send_logged. destruct (transport_request op payload t) as [r t'].
  split; [done|]. exists [mk_entry op payload r]. split_and!; [done|by apply Forall_singleton|]. by intros a ->.
Qed.

Lemma reads_bind {A B} s m (f : A -> py (DerivLiveOrderSession * (T * list entry)) B) (Q : A -> list entry -> Prop)
    (R : B -> list entry -> Prop) :
  reads s m Q -> (forall a k, Q a k -> reads s (f a) (fun b k' => R b (k ++ k'))) -> reads s (m ≫= f) R.
Proof.
  intros Hm Hf t l. specialize (Hm t l). unfold mbind, py_bind.
  destruct (m (s, (t, l))) as [[a|e] (s1 & t1 & l1)]; destruct Hm as (-> & k & -> & Hk & HQ).
  - specialize (Hf a k (HQ a eq_refl) t1 (l ++ k)).
    destruct (f a (s, (t1, l ++ k))) as [r (s2 & t2 & l2)]. destruct Hf as (-> & k2 & -> & Hk2 & HR).
    split; [done|]. exists (k ++ k2). split_and!; [by rewrite app_assoc|by apply Forall_app|done].
  - split; [done|]. by exists k.
Qed.

Lemma reads_try {A} s m (a : A) (Q : A -> list entry -> Prop) :
  reads s m Q -> (forall k, Q a k) ->
  reads s (py_try m (fun e => if is_query_error e then Some (mret a) else None)) Q.
Proof.
  intros Hm Ha t l. specialize (Hm t l). unfold py_try.
  destruct (m (s, (t, l))) as [[b|e] (s1 & t1 & l1)]; [done|]. destruct Hm as (-> & k & -> & Hk & _).
  destruct (is_query_error e); (split; [done|]); exists k; split_and!; try done. by intros b [= <-].
Qed.

Lemma reads_impl {A} s m (Q R : A -> list entry -> Prop) :
  reads s m Q -> (forall a k, Q a k -> R a k) -> reads s m R.
Proof.
  intros Hm HQR t l. specialize (Hm t l). destruct (m (s, (t, l))) as [r (s1 & t1 & l1)].
  destruct Hm as (-> & k & -> & Hk & HQ). split; [done|]. exists k. split_and!; try done. eauto.
Qed.

Variable document_hash : obj -> string.

(** A term of the contract that is reported agrees with the query. *)
Definition agrees (query : OrderStatusQuery) (poc : obj) : Prop :=
  (get poc "underlying" = VNull \/ str (get poc "underlying") = sq_symbol query) /\
  (get poc "contract_type" = VNull \/ str_upper (str (get poc "contract_type")) = expected_contract_type query) /\
  (get poc "currency" = VNull \/ str_upper (str (get poc "currency")) = currency (sq_amount query)) /\
  (get poc "buy_price" = VNull \/ exists d, decimal_of (get poc "buy_price") = Ok (Finite d) /\
     dec_eqb d (decimal_amount (minor_units (sq_amount query))) = true).

(** Evidence that says of the contract what its document says, in the terms of the
    query. *)
Record evidence_from (query : OrderStatusQuery) (poc : obj) (ev : ReconciliationEvidence) : Prop := mk_evidence_from {
  ef_contract : ev_broker_order_id ev = Some (str (get poc "contract_id"));
  ef_document : ev_raw_reference_hash ev = Some (document_hash poc);
  ef_agrees : agrees query poc;
  ef_order : ev_client_order_ref ev = sq_client_order_ref query /\ ev_account_id ev = sq_account_id query /\
    ev_product ev = sq_product query /\ ev_symbol ev = sq_symbol query /\ ev_direction ev = sq_direction query /\
    ev_amount ev = sq_amount query;
  ef_status : exists settled, is_settled poc = Ok settled /\
    ev_external_status ev = (if settled then EX_SETTLED else EX_OPEN) /\
    if settled then exists profit minor, profit_of poc (minor_units (sq_amount query)) = Ok profit /\
                      money_to_minor_units profit = Ok minor /\ ev_realized_pnl_minor ev = Some minor
    else ev_realized_pnl_minor ev = None
}.

Lemma evidence_post_init_same e e' : ReconciliationEvidence_post_init e = Ok e' -> e' = e.
Proof.
  unfold ReconciliationEvidence_post_init. intros H. repeat (apply res_bind_Ok in H as (? & _ & H)). by injection H.
Qed.

Lemma not_differs v f expected :
  negb (is_none v) && negb (String.eqb (f (str v)) expected) = false -> v = VNull \/ f (str v) = expected.
Proof. destruct v; simpl; auto; intros H%negb_false_iff%String.eqb_eq; by right. Qed.

Lemma no_mismatch query poc : contract_mismatch query poc = Ok None -> agrees query poc.
Proof.
  unfold contract_mismatch, agrees. cbv zeta.
  destruct (negb (is_none (get poc "underlying")) && _) eqn:E1; [done|].
  destruct (negb (is_none (get poc "contract_type")) && _) eqn:E2; [done|].
  destruct (negb (is_none (get poc "currency")) && _) eqn:E3; [done|].
  apply (not_differs _ id) in E1. apply not_differs in E2, E3. intros H. split_and!; try done.
  destruct (get poc "buy_price") eqn:Eb; [by left|..]; right;
    (destruct (decimal_of _) as [actual|]; [|done]; apply res_bind_Ok in H as (same & Hsame & H); destruct same; [|done];
     destruct actual; simplify_eq/=; eauto).
Qed.

(** What an answer may be. *)
Definition sound_answer (query : OrderStatusQuery) (r : OrderStatusResult) l : Prop :=
  sr_not_found_evidence r = None /\
  forall ev, sr_evidence r = Some ev -> exists payload d poc,
    mk_entry OP_PROPOSAL_OPEN_CONTRACT payload (Ok d) ∈ l /\ get d "proposal_open_contract" = VDict poc /\
    evidence_from query poc ev.

Lemma sound_answer_app query r l1 l2 : sound_answer query r l2 -> sound_answer query r (l1 ++ l2).
Proof.
  intros [Hn He]. split; [done|]. intros ev Hev. destruct (He ev Hev) as (p & d & poc & Hin & H1 & H2).
  exists p, d, poc. split; [|done]. apply elem_of_app. by right.
Qed.

Lemma sound_plain query r l : sr_not_found_evidence r = None -> sr_evidence r = None -> sound_answer query r l.
Proof. intros H1 H2. split; [done|]. intros ev. by rewrite H2. Qed.

Lemma mismatch_plain query poc r :
  contract_mismatch query poc = Ok (Some r) -> sr_not_found_evidence r = None /\ sr_evidence r = None.
Proof.
  unfold contract_mismatch. cbv zeta.
  destruct (negb (is_none (get poc "underlying")) && _); [by intros [= <-]|].
  destruct (negb (is_none (get poc "contract_type")) && _); [by intros [= <-]|].
  destruct (negb (is_none (get poc "currency")) && _); [by intros [= <-]|].
  destruct (get poc "buy_price"); try done; (destruct (decimal_of _); [|by intros [= <-]]);
    intros ([] & _ & H)%res_bind_Ok; by simplify_eq/=.
Qed.

Lemma build_evidence_spec query poc sp r l payload d :
  build_evidence_from_contract document_hash query poc sp = Ok r ->
  get d "proposal_open_contract" = VDict poc -> mk_entry OP_PROPOSAL_OPEN_CONTRACT payload (Ok d) ∈ l ->
  sound_answer query r l.
Proof.
  unfold build_evidence_from_contract. cbv zeta. intros (settled & Hs & H)%res_bind_Ok Hd Hin.
  apply res_bind_Ok in H as (mismatch & Hm & H). destruct mismatch as [r'|].
  { injection H as <-. apply mismatch_plain in Hm as [? ?]. by apply sound_plain. }
  apply res_bind_Ok in H as (realized & Hr & H). apply res_bind_Ok in H as (ev & Hev%evidence_post_init_same & H).
  injection H as <-. split; [done|]. intros ev' [= <-]. exists payload, d, poc. split_and!; try done. subst ev.
  split; try done; [by apply no_mismatch|]. exists settled. split_and!; try done. destruct settled; [|by injection Hr].
  apply res_bind_Ok in Hr as (profit & Hp & Hr). exists profit. simpl.
  destruct (money_to_minor_units profit) as [minor|]; [|done]. exists minor. by injection Hr as <-.
Qed.

(** Every request was answered. *)
Definition all_answered l : Prop := Forall (fun e => exists d, lg_reply e = Ok d) l.

Definition found_in l (poc : obj) : Prop :=
  exists payload d, mk_entry OP_PROPOSAL_OPEN_CONTRACT payload (Ok d) ∈ l /\ get d "proposal_open_contract" = VDict poc.

Lemma fetch_contract_reads s id :
  reads s (fetch_contract id) (fun found k => all_answered k /\ forall poc, found = Some poc -> found_in k poc).
Proof.
  unfold fetch_contract. eapply reads_bind; [apply (reads_lift _ _ (fun _ k => k = [])); done|]. intros n k ->.
  eapply reads_bind; [by apply reads_send|].
  intros d k ->. apply reads_ret. split; [apply Forall_singleton; by exists d|].
  intros poc H. eexists _, d. split; [left|].
  destruct (get d "proposal_open_contract"); simplify_eq/=. by destruct (is_none _); simplify_eq/=.
Qed.

Lemma query_contract_id_reads s query id sp :
  reads s (query_contract_id document_hash query id sp) (sound_answer query).
Proof.
  unfold query_contract_id. apply reads_try.
  - eapply reads_bind; [apply fetch_contract_reads|]. intros found k [_ Hf]. destruct found as [poc|].
    + destruct (Hf poc eq_refl) as (payload & d & Hin & Hd). apply reads_lift. intros r Hr.
      eapply build_evidence_spec; [exact Hr|exact Hd|]. apply elem_of_app. by left.
    + apply reads_ret. by apply sound_plain.
  - intros k. by apply sound_plain.
Qed.

Lemma fetch_known_reads s o :
  reads s (fetch_known o)
    (fun r k => (snd r = false -> all_answered k) /\ forall poc, fst r = Some poc -> found_in k poc).
Proof.
  unfold fetch_known. assert (all_answered []) as Hnil by constructor.
  destruct o as [id|]; [|by apply reads_ret]. destruct (String.eqb id ""); [by apply reads_ret|].
  apply (reads_try s (found ← fetch_contract id; mret (found, false)) (None, true)); [|done].
  eapply reads_bind; [apply fetch_contract_reads|]. intros found k [Hk Hf]. apply reads_ret. by rewrite app_nil_r.
Qed.

(** *** Absence *)

Lemma first_contract_None f (items : list json) d : first_contract f items = None -> VDict d ∈ items -> f d = None.
Proof.
  unfold first_contract. induction items as [|v items IH]; [by intros _ ?%not_elem_of_nil|]. cbn [omap list_omap].
  intros H [<-|Hin]%elem_of_cons; [by destruct (f d)|]. apply IH; [|done].
  destruct v as [| | | | | |d']; try done. by destruct (f d').
Qed.

(** A list of the broker that was read and in which nothing belongs to the order. *)
Definition absent_from (op : DerivOperation) (root field : string) (matches : obj -> option string) l : Prop :=
  exists payload d sub items, mk_entry op payload (Ok d) ∈ l /\ get d root = VDict sub /\
    get sub field = VList items /\ forall item, VDict item ∈ items -> matches item = None.

Lemma absent_from_incl op root field matches l l' :
  l ⊆ l' -> absent_from op root field matches l -> absent_from op root field matches l'.
Proof. intros Hl (p & d & sub & items & Hin & H). exists p, d, sub, items. split; [by apply Hl|done]. Qed.

(** What a step of the search gives. *)
Definition search_ok (query : OrderStatusQuery) (P : list entry -> Prop) (r : search) l : Prop :=
  match r with
  | Answer r => sound_answer query r l
  | Continue failed checked => (failed = false -> all_answered l) /\ (checked = true -> P l)
  end.

Lemma attempt_reads s query P m :
  reads s m (search_ok query P) -> reads s (attempt m) (search_ok query P).
Proof. intros Hm. by apply (reads_try s m (Continue true false)). Qed.

(** A list that is looked up for a contract. *)
Lemma search_reads s query op payload root field (look : list json -> py _ search) P b :
  op <> OP_BUY ->
  (forall d sub items, get d root = VDict sub -> get sub field = VList items ->
     reads s (look items) (fun r k => search_ok query P r (mk_entry op payload (Ok d) :: k))) ->
  reads s (attempt (response ← send op payload;
    match get response root with
    | VDict sub => match get sub field with VList items => look items | _ => mret (Continue b false) end
    | _ => mret (Continue b false)
    end)) (search_ok query P).
Proof.
  intros Hop Hlook. apply attempt_reads. eapply reads_bind; [by apply reads_send|]. intros d k ->.
  assert (reads s (mret (Continue b false)) (fun r k => search_ok query P r ([mk_entry op payload (Ok d)] ++ k))) as Hf.
  { apply reads_ret. split; [|done]. intros _. apply Forall_singleton. by exists d. }
  destruct (get d root) as [| | | | | |sub] eqn:E1; try done.
  destruct (get sub field) as [| | | | |items|] eqn:E2; try done. by eapply Hlook.
Qed.

Lemma look_reads s query id sp P l :
  reads s (r ← query_contract_id document_hash query id sp; mret (Answer r)) (fun r k => search_ok query P r (l ++ k)).
Proof.
  eapply reads_bind; [apply query_contract_id_reads|]. intros r k Hr. apply reads_ret.
  rewrite app_nil_r. by apply sound_answer_app.
Qed.

Definition known s (query : OrderStatusQuery) : list string :=
  known_contract_ids query (get_tracked_by_order_id (sq_order_id query) s).

Definition not_in_portfolio s query : list entry -> Prop :=
  absent_from OP_PORTFOLIO "portfolio" "contracts" (portfolio_match query (known s query)).
Definition not_in_statement (query : OrderStatusQuery) : list entry -> Prop :=
  absent_from OP_STATEMENT "statement" "transactions" (statement_match query).

Lemma search_portfolio_reads s query sp :
  reads s (search_portfolio document_hash query sp) (search_ok query (not_in_portfolio s query)).
Proof.
  apply (search_reads s query OP_PORTFOLIO _ "portfolio" "contracts" (fun contracts =>
    tracked ← on_session (py_gets (get_tracked_by_order_id (sq_order_id query)));
    match first_contract (portfolio_match query (known_contract_ids query tracked)) contracts with
    | Some contract_id => r ← query_contract_id document_hash query contract_id sp; mret (Answer r)
    | None => mret (Continue false true)
    end)); [done|].
  intros d sub items E1 E2. eapply reads_bind; [by apply (reads_session s _ (fun a k => a = get_tracked_by_order_id (sq_order_id query) s /\ k = []))|].
  intros tracked k [-> ->]. simpl. destruct (first_contract _ items) as [id|] eqn:Ef.
  - apply (look_reads s query id sp _ [_]).
  - apply reads_ret. split; [intros _; apply Forall_singleton; by exists d|]. intros _.
    eexists _, d, sub, items. split_and!; [left|done|done|]. intros item. by apply first_contract_None.
Qed.

Lemma search_statement_reads s query sp :
  reads s (search_statement document_hash query sp) (search_ok query (not_in_statement query)).
Proof.
  apply (search_reads s query OP_STATEMENT _ "statement" "transactions" (fun transactions =>
    match first_contract (statement_match query) transactions with
    | Some contract_id => r ← query_contract_id document_hash query contract_id sp; mret (Answer r)
    | None => mret (Continue false true)
    end)); [done|].
  intros d sub items E1 E2. destruct (first_contract _ items) as [id|] eqn:Ef.
  - apply (look_reads s query id sp _ [_]).
  - apply reads_ret. split; [intros _; apply Forall_singleton; by exists d|]. intros _.
    eexists _, d, sub, items. split_and!; [left|done|done|]. intros item. by apply first_contract_None.
Qed.

Lemma search_profit_table_reads s query sp :
  reads s (search_profit_table document_hash query sp) (search_ok query (fun _ => True)).
Proof.
  apply (search_reads s query OP_PROFIT_TABLE _ "profit_table" "transactions" (fun transactions =>
    match first_contract (profit_match query) transactions with
    | Some contract_id => r ← query_contract_id document_hash query contract_id sp; mret (Answer r)
    | None =>
        matched ← py_lift (match_profit_table_contracts query transactions);
        match matched with
        | [] => mret (Continue false true)
        | [contract_id] => r ← query_contract_id document_hash query contract_id sp; mret (Answer r)
        | _ => mret (Answer ambiguous_match)
        end
    end)); [done|].
  intros d sub items E1 E2. destruct (first_contract _ items) as [id|] eqn:Ef; [apply (look_reads s query id sp _ [_])|].
  eapply reads_bind; [by apply (reads_lift s _ (fun _ k => k = []))|]. intros matched k ->. simpl.
  destruct matched as [|id [|id' matched]].
  - apply reads_ret. split; [|done]. intros _. apply Forall_singleton. by exists d.
  - apply (look_reads s query id sp _ [_]).
  - apply reads_ret. by apply sound_plain.
Qed.

(** Evidence and absence in an answer. *)
Definition evidence_ok query (r : OrderStatusResult) l : Prop :=
  forall ev, sr_evidence r = Some ev -> exists payload d poc,
    mk_entry OP_PROPOSAL_OPEN_CONTRACT payload (Ok d) ∈ l /\ get d "proposal_open_contract" = VDict poc /\
    evidence_from query poc ev.

Definition absence_ok s query (failed : bool) (r : OrderStatusResult) l : Prop :=
  forall nf, sr_not_found_evidence r = Some nf ->
    sr_outcome r = SQ_NOT_FOUND /\ confirms_both_sources nf = true /\ failed = false /\ all_answered l /\
    not_in_portfolio s query l /\ not_in_statement query l.

Lemma sound_answer_ok s query failed r l :
  sound_answer query r l -> evidence_ok query r l /\ absence_ok s query failed r l.
Proof. intros [Hn He]. split; [done|]. intros nf. by rewrite Hn. Qed.

Lemma search_lists_reads s query failed sp :
  reads s (search_lists document_hash query failed sp)
    (fun r k => evidence_ok query r k /\ absence_ok s query failed r k).
Proof.
  unfold search_lists. eapply reads_bind; [apply search_portfolio_reads|]. intros [r|f1 c1] k1 H1.
  { apply reads_ret. rewrite app_nil_r. by apply sound_answer_ok. }
  eapply reads_bind; [apply search_statement_reads|]. intros [r|f2 c2] k2 H2.
  { apply reads_ret. rewrite app_nil_r. by apply sound_answer_ok, sound_answer_app. }
  eapply reads_bind; [apply search_profit_table_reads|]. intros [r|f3 c3] k3 H3.
  { apply reads_ret. rewrite app_nil_r. by apply sound_answer_ok, sound_answer_app, sound_answer_app. }
  apply reads_ret. rewrite app_nil_r. unfold absence.
  destruct (c2 && c1 && negb (failed || f1 || f2 || f3)) eqn:E; [|by apply sound_answer_ok, sound_plain].
  rewrite !andb_true_iff, negb_true_iff, !orb_false_iff in E. destruct E as [[-> ->] [[[-> ->] ->] ->]].
  split; [done|]. intros nf [= <-]. split_and!; try done.
  - apply Forall_app. split; [by apply H1|]. apply Forall_app. split; [by apply H2|by apply H3].
  - eapply absent_from_incl; [|by apply H1]. set_solver.
  - eapply absent_from_incl; [|by apply H2]. set_solver.
Qed.

Lemma found_evidence s query poc sp l :
  found_in l poc ->
  reads s (py_lift (build_evidence_from_contract document_hash query poc sp))
    (fun r k => evidence_ok query r (l ++ k) /\ absence_ok s query false r (l ++ k)).
Proof.
  intros (payload & d & Hin & Hd). apply reads_lift. intros r Hr. apply sound_answer_ok.
  eapply build_evidence_spec; [exact Hr|exact Hd|]. apply elem_of_app. by left.
Qed.

Lemma query_order_status_reads s query timeout sp :
  reads s (query_order_status document_hash query timeout sp)
    (fun r k => evidence_ok query r k /\ absence_ok s query false r k).
Proof.
  unfold query_order_status. eapply reads_bind; [apply reads_guard|]. intros _ k ->.
  eapply reads_bind; [by apply (reads_session s _ (fun _ k => k = []))|]. intros auth k ->. simpl.
  assert (forall reason, reads s (mret (unavailable reason))
    (fun r k => evidence_ok query r k /\ absence_ok s query false r k)) as Hplain.
  { intros reason. by apply reads_ret, sound_answer_ok, sound_plain. }
  destruct auth; simpl; [|done]. destruct (bool_decide _); simpl; [|done].
  eapply reads_bind; [apply fetch_known_reads|]. intros [found failed] k1 [Hk1 Hf1]. simpl in *.
  eapply reads_bind with (Q := fun r k => (snd r = false -> all_answered (k1 ++ k)) /\
      forall poc, fst r = Some poc -> found_in (k1 ++ k) poc).
  - destruct found as [poc|]; [apply reads_ret; rewrite app_nil_r; by split|].
    eapply reads_bind; [by apply (reads_session s _ (fun _ k => k = []))|]. intros tracked k ->. simpl.
    eapply reads_bind; [apply fetch_known_reads|]. intros [found2 failed2] k2 [Hk2 Hf2]. simpl in *.
    apply reads_ret. rewrite app_nil_r. simpl. split.
    + intros [H1 H2]%orb_false_iff. apply Forall_app. split; [by apply Hk1|by apply Hk2].
    + intros poc Hp. destruct (Hf2 poc Hp) as (p & d & Hin & Hd). exists p, d. split; [|done]. apply elem_of_app. by right.
  - intros [found2 failed2] k2 [Hk2 Hf2]. simpl in *. destruct found2 as [poc|].
    + eapply reads_impl; [apply found_evidence; by apply Hf2|]. intros r k. by rewrite app_assoc.
    + eapply reads_impl; [apply search_lists_reads|]. intros r k [He Ha]. rewrite app_assoc. split.
      * intros ev Hev. destruct (He ev Hev) as (p & d & poc & Hin & H1 & H2). exists p, d, poc.
        split; [|done]. apply elem_of_app. by right.
      * intros nf Hnf. destruct (Ha nf Hnf) as (H1 & H2 & H3 & H4 & H5 & H6).
        split_and!; try done; [apply Forall_app; split; [by apply Hk2|done]|..];
          (eapply absent_from_incl; [|done]; set_solver).
Qed.

(** C23: evidence is the broker's own record.  Reconciliation never buys and leaves the
    session alone; evidence that it reports comes from a contract document that the broker
    sent during the query, names that contract, repeats the terms of the query, which the
    document does not contradict, and its status and result are those of the document. *)
Theorem evidence_is_the_brokers_record query timeout sp s t :
  let '(r, (s', (t', l))) := query_order_status document_hash query timeout sp (s, (t, [])) in
  s' = s /\ entries_of OP_BUY l = [] /\
  forall result ev, r = Ok result -> sr_evidence result = Some ev -> exists payload d poc,
    mk_entry OP_PROPOSAL_OPEN_CONTRACT payload (Ok d) ∈ l /\ get d "proposal_open_contract" = VDict poc /\
    evidence_from query poc ev.
Proof.
  pose proof (query_order_status_reads s query timeout sp t []) as H.
  destruct (query_order_status _ _ _ _ _) as [r (s' & t' & l)]. destruct H as (-> & k & -> & Hk & HQ).
  split_and!; [done|by apply entries_of_other|]. intros result ev Hr. by destruct (HQ result Hr) as [He _]; apply He.
Qed.

(** C18: absence is reported with evidence only after a complete search.  Negative evidence
    comes only with the outcome NOT_FOUND, when every request of the query was answered,
    the portfolio was read and holds no contract of the order (neither by a known
    contract id nor by the order id that the worker attaches), and the statement was read
    and holds no purchase with that order id. *)
Theorem absence_needs_full_search query timeout sp s t :
  let '(r, (s', (t', l))) := query_order_status document_hash query timeout sp (s, (t, [])) in
  forall result nf, r = Ok result -> sr_not_found_evidence result = Some nf ->
    sr_outcome result = SQ_NOT_FOUND /\ confirms_both_sources nf = true /\ all_answered l /\
    not_in_portfolio s query l /\ not_in_statement query l.
Proof.
  pose proof (query_order_status_reads s query timeout sp t []) as H.
  destruct (query_order_status _ _ _ _ _) as [r (s' & t' & l)]. destruct H as (-> & k & -> & Hk & HQ).
  intros result nf Hr Hnf. destruct (HQ result Hr) as [_ Ha]. destruct (Ha nf Hnf) as (H1 & H2 & _ & H4 & H5 & H6).
  by split_and!.
Qed.
End props.
