(* ===== verification/DerivEventProps.v ===== *)
(** * Events of the Deriv worker

    What a contract message does to the session, the numbering of events, the reply of
    the server as the core reads it, and the worker on top of its WebSocket client. *)

From S2P Require Import Prelude Datetime Dec PyFloat Json Domain StateDb Writer Reconciliation Protocol.
From S2P Require Import DerivJson DerivTransport DerivSession DerivRecon DerivTransportProps DerivProps.

Section events.
Variable payload_hash : payload -> string.

(** ** The event of a message *)

Lemma event_post_init_same e e' :
  BrokerOrderEvent_post_init payload_hash e = Ok e' -> exists c, e' = e <| bo_result_currency := c |>.
Proof.
  unfold BrokerOrderEvent_post_init. intros H. do 7 (apply res_bind_Ok in H as (? & _ & H)).
  apply res_bind_Ok in H as (e1 & He & H). do 4 (apply res_bind_Ok in H as (? & _ & H)). injection H as <-.
  destruct (bo_result_currency e) as [c|] eqn:Ec.
  - apply res_bind_Ok in He as (n & _ & He). injection He as <-. eauto.
  - injection He as <-. exists None. destruct e. simpl in *. by subst.
Qed.

(** The event says of the tracked order what the report says. *)
Definition describes (o : TrackedDerivOrder) (contract_id : string) (r : contract_report) (now : datetime)
    (ev : BrokerOrderEvent) : Prop :=
  bo_broker ev = DERIV /\ bo_account_id ev = td_account_id o /\ bo_client_order_ref ev = td_order_id o /\
  bo_broker_order_id ev = contract_id /\ bo_correlation_id ev = td_correlation_id o /\
  bo_external_sequence ev = Some (td_sequence_counter o) /\ bo_external_status ev = cr_status r /\
  bo_product ev = td_product o /\ bo_symbol ev = td_symbol o /\ bo_direction ev = td_direction o /\
  minor_units (bo_amount ev) = minor_units (td_amount o) /\ bo_result_minor ev = cr_result_minor r /\
  bo_seconds_remaining ev = cr_seconds_remaining r /\ bo_current_spot ev = cr_current_spot r.

Lemma event_of_describes o contract_id r event_id now ev :
  event_of payload_hash o contract_id r event_id now = Ok ev -> describes o contract_id r now ev.
Proof.
  unfold event_of, canonical_fields. cbv zeta. set (h := payload_hash _). clearbody h.
  unfold BrokerOrderEvent_from_payload, req_str, req_int, opt_str, opt_int, pget. rewrite !lookup_fields.
  cbn -[isoformat fromisoformat value of_value opt_field as_opt_int as_opt_str jopt_int jopt_str BrokerOrderEvent_post_init].
  rewrite !as_opt_int_jopt, !as_opt_str_jopt.
  assert (default JNull (assoc "seconds_remaining"
      (opt_field "seconds_remaining" JInt (cr_seconds_remaining r) ++
       opt_field "current_spot" JStr (cr_current_spot r))) = jopt_int (cr_seconds_remaining r)) as ->.
  { by destruct (cr_seconds_remaining r), (cr_current_spot r). }
  assert (default JNull (assoc "current_spot"
      (opt_field "seconds_remaining" JInt (cr_seconds_remaining r) ++
       opt_field "current_spot" JStr (cr_current_spot r))) = jopt_str (cr_current_spot r)) as ->.
  { by destruct (cr_seconds_remaining r), (cr_current_spot r). }
  rewrite as_opt_int_jopt, as_opt_str_jopt, !of_value_value.
  cbn -[isoformat fromisoformat BrokerOrderEvent_post_init].
  intros H. apply res_bind_Ok in H as (d1 & _ & H). apply res_bind_Ok in H as (d2 & _ & H).
  apply res_bind_Ok in H as (amount & Hm & H). apply event_post_init_same in H as (c & ->).
  apply new_Money_minor in Hm. unfold describes. simpl. by split_and!.
Qed.

Context {T : Type} {transport : DerivReadTransport T}.
Implicit Types (s : DerivLiveOrderSession) (t : T).

Lemma forget_contract_effect id s t :
  exists s' t', forget_contract id (s, t) = (Ok tt, (s', t')) /\ same_orders s s'.
Proof.
  unfold forget_contract, mbind, py_bind, on_session, py_gets, py_modify, py_try.
  destruct (ds_contract_subscription_ids s !! id) as [n|]; [|by eexists _, t].
  unfold send, on_transport. destruct (transport_request _ _ t) as [[d|e] t']; by eexists _, t'.
Qed.

(** The numbers of tracked orders only grow, and an order stays tracked unless [settles]
    holds of its contract. *)
Definition advances (settles : string -> Prop) s s' : Prop :=
  (forall i o, ds_heap s !! i = Some o -> exists o', ds_heap s' !! i = Some o' /\ td_sequence_counter o <= td_sequence_counter o') /\
  (forall c i, ds_tracked s !! c = Some i -> ds_tracked s' !! c = Some i \/ settles c).

Lemma advances_refl settles s : advances settles s s.
Proof. split; [|by left]. intros i o Ho. by exists o. Qed.

Lemma advances_trans P s1 s2 s3 : advances (fun _ => False) s1 s2 -> advances P s2 s3 -> advances P s1 s3.
Proof.
  intros [H1 H2] [H3 H4]. split.
  - intros i o Ho. destruct (H1 i o Ho) as (o2 & Ho2 & ?). destruct (H3 i o2 Ho2) as (o3 & ? & ?). exists o3. split; [done|lia].
  - intros c i Hc. destruct (H2 c i Hc) as [Hc2|[]]. by apply H4.
Qed.

Lemma advances_same P s s' : same_orders s s' -> advances P s s'.
Proof. intros (Eh & Et & _). split; rewrite ?Eh, ?Et; [|by left]. intros i o Ho. by exists o. Qed.

Lemma advances_track o s : ds_tracked s !! td_contract_id o = None -> advances (fun _ => False) s (track o s).
Proof.
  intros Hn. split; simpl.
  - intros i o' Ho. exists o'. split; [|lia]. by apply lookup_app_l_Some.
  - intros c i Hc. left. rewrite lookup_insert_ne; [done|]. congruence.
Qed.

Lemma advances_insert i o o' s :
  ds_heap s !! i = Some o -> td_sequence_counter o <= td_sequence_counter o' ->
  advances (fun _ => False) s (s <| ds_heap ::= <[ i := o' ]> |>).
Proof.
  intros Hi Hle. split; simpl; [|by left]. intros j x Hx. destruct (decide (i = j)) as [<-|Hne].
  - exists o'. simplify_eq. split; [|done]. apply list_lookup_insert_eq. by eapply lookup_lt_Some.
  - exists x. by rewrite list_lookup_insert_ne.
Qed.

Lemma put_event_same e s : same_orders s (put_event e s).
Proof. unfold put_event. by destruct (_ || _). Qed.

(** What became of a message about a tracked order: the order after it, or only its new
    number. *)
Record reported_event (i : nat) (contract_id : string) (poc : obj) (now : datetime) (o : TrackedDerivOrder) s s'
    (ev : BrokerOrderEvent) : Prop := mk_reported_event {
  re_order : ds_heap s' !! i = Some o;
  re_fresh : exists o0, ds_heap s !! i = Some o0 /\ o = o0 <| td_sequence_counter ::= Z.succ |>;
  re_describes : exists r, describes o contract_id r now ev;
  re_status : exists settled, is_settled poc = Ok settled /\
    if settled then
      bo_external_status ev = EX_SETTLED /\ ds_tracked s' !! contract_id = None /\
      exists profit minor, profit_of poc (td_buy_price_minor o) = Ok profit /\ money_to_minor_units profit = Ok minor /\
        bo_result_minor ev = Some minor /\ check_digit_settlement o poc profit = Ok tt
    else bo_external_status ev = EX_OPEN /\ bo_result_minor ev = None /\
      ds_tracked s' !! contract_id = ds_tracked s !! contract_id
}.

Lemma report_contract_effect i contract_id poc sp s t r s' t' :
  report_contract payload_hash i contract_id poc sp (s, t) = (r, (s', t')) ->
  match r with
  | Ok (Some ev) => exists o, reported_event i contract_id poc (sp_later sp) o s s' ev /\
      advances (fun c => c = contract_id /\ bo_external_status ev = EX_SETTLED) s s'
  | Ok None => False
  | Err _ => advances (fun _ => False) s s'
  end.
Proof.
  unfold report_contract, mbind, py_bind, py_lift, on_session, next_sequence.
  destruct (is_settled poc) as [settled|e] eqn:Es; [|intros [= <- <- <-]; apply advances_refl].
  destruct (ds_heap s !! i) as [o0|] eqn:Ho; [|intros [= <- <- <-]; apply advances_refl]. cbv beta iota zeta.
  set (o := o0 <| td_sequence_counter ::= Z.succ |>). set (s1 := s <| ds_heap ::= <[ i := o ]> |>).
  assert (ds_heap s1 !! i = Some o) as Hi by (apply list_lookup_insert_eq; by eapply lookup_lt_Some).
  assert (advances (fun _ => False) s s1) as H1 by (apply (advances_insert i o0); [done|simpl; lia]).
  destruct (if settled then _ else _) as [rep|e] eqn:Er; [|by intros [= <- <- <-]].
  destruct (event_of _ _ _ _ _) as [ev|e] eqn:Ee; [|by intros [= <- <- <-]].
  apply event_of_describes in Ee. pose proof (put_event_same ev s1) as Hput. cbn [py_modify].
  set (s2 := put_event ev s1) in *. destruct Hput as (Eh & Et & Eo).
  destruct settled.
  - destruct (forget_contract_effect contract_id (untrack contract_id (td_order_id o) s2) t) as (s3 & t3 & Hf & Eh3 & Et3 & _).
    unfold py_modify. cbv beta iota. fold s2. rewrite Hf. intros [= <- <- <-]. exists o.
    unfold settled_report in Er. apply res_bind_Ok in Er as (profit & Hp & Er).
    apply res_bind_Ok in Er as (minor & Hm & Er). apply res_bind_Ok in Er as ([] & Hd & Er). injection Er as <-.
    destruct Ee as (D1 & D2 & D3 & D4 & D5 & D6 & D7 & D8 & D9 & D10 & D11 & D12 & D13 & D14).
    split; [split|].
    + rewrite Eh3. simpl. by rewrite Eh.
    + by exists o0.
    + eexists. unfold describes. by split_and!.
    + exists true. split_and!; [done|done|rewrite Et3; apply lookup_delete_eq|]. by exists profit, minor.
    + apply advances_trans with s1; [done|]. split; rewrite ?Eh3, ?Et3; simpl.
      * rewrite Eh. intros j x Hx. by exists x.
      * rewrite Et. intros c j Hc. destruct (decide (c = contract_id)) as [->|Hne]; [by right|].
        left. by rewrite lookup_delete_ne.
  - unfold py_modify. cbv beta iota. fold s2. intros [= <- <- <-]. exists o. injection Er as <-.
    destruct Ee as (D1 & D2 & D3 & D4 & D5 & D6 & D7 & D8 & D9 & D10 & D11 & D12 & D13 & D14).
    split; [split|].
    + by rewrite Eh.
    + by exists o0.
    + eexists. unfold describes. by split_and!.
    + exists false. split_and!; [done|done|done|by rewrite Et].
    + apply advances_trans with s1; [done|]. by apply advances_same.
Qed.

(** Where the order of a message comes from: it was tracked, or its contract was unknown
    and names it. *)
Definition origin (contract_id : string) (poc raw : obj) (now : datetime) s s1 (i : nat) : Prop :=
  (ds_tracked s !! contract_id = Some i /\ s1 = s) \/
  exists o, ds_tracked s !! contract_id = None /\ adopt (ds_account_id s) contract_id poc raw now = Ok (Some o) /\
    td_contract_id o = contract_id /\ s1 = track o s /\ i = length (ds_heap s).

Lemma adopt_contract account_id contract_id poc raw now o :
  adopt account_id contract_id poc raw now = Ok (Some o) -> td_contract_id o = contract_id.
Proof.
  unfold adopt. cbv zeta. destruct (if truthy _ then _ else _); try done.
  intros (price & _ & H)%res_bind_Ok. destruct (_ && _); [|done].
  apply res_bind_Ok in H as (minor & _ & H). apply res_bind_Ok in H as (amount & _ & H).
  apply res_bind_Ok in H as (digit & _ & H). by injection H as <-.
Qed.

Lemma find_tracked_effect contract_id poc raw now s t r s' t' :
  find_tracked contract_id poc raw now (s, t) = (r, (s', t')) ->
  match r with
  | Ok (Some i) => origin contract_id poc raw now s s' i /\ ds_tracked s' !! contract_id = Some i
  | _ => s' = s
  end.
Proof.
  unfold find_tracked, mbind, py_bind, on_session, py_gets, py_lift, py_modify. cbv beta iota.
  destruct (ds_tracked s !! contract_id) as [i|] eqn:Ei; [intros [= <- <- <-]; split; [by left|done]|].
  destruct (adopt _ _ _ _ _) as [[o|]|e] eqn:Ea; [|by intros [= <- <- <-]..].
  pose proof (adopt_contract _ _ _ _ _ _ Ea) as Ho. cbv beta iota. simpl. rewrite Ho, lookup_insert_eq.
  intros [= <- <- <-]. split; [|rewrite <- Ho; apply lookup_insert_eq]. right. exists o. by split_and!.
Qed.

Lemma origin_advances contract_id poc raw now s s1 i :
  origin contract_id poc raw now s s1 i -> advances (fun _ => False) s s1.
Proof.
  intros [[_ ->]|(o & Hn & _ & Ho & -> & _)]; [apply advances_refl|]. apply advances_track. by rewrite Ho.
Qed.

(** What a message about [contract_id] does. *)
Definition handled (contract_id : string) (poc raw : obj) (sp : stamp) s s' (r : res (option BrokerOrderEvent)) : Prop :=
  match r with
  | Ok (Some ev) => bo_broker_order_id ev = contract_id /\ exists i o s1,
      origin contract_id poc raw (sp_now sp) s s1 i /\ ds_tracked s1 !! contract_id = Some i /\
      reported_event i contract_id poc (sp_later sp) o s1 s' ev /\
      advances (fun c => c = contract_id /\ bo_external_status ev = EX_SETTLED) s s'
  | _ => advances (fun _ => False) s s'
  end.

Lemma follow_effect contract_id poc raw sp s t r s' t' :
  (tracked ← find_tracked contract_id poc raw (sp_now sp);
   match tracked with
   | None => mret None
   | Some i => report_contract payload_hash i contract_id poc sp
   end) (s, t) = (r, (s', t')) ->
  handled contract_id poc raw sp s s' r.
Proof.
  unfold mbind, py_bind. destruct (find_tracked _ _ _ _ _) as [r1 (s1 & t1)] eqn:Ef.
  apply find_tracked_effect in Ef.
  destruct r1 as [[i|]|e]; [|subst s1; intros [= <- <- <-]; apply advances_refl..].
  destruct Ef as [Ho Hi]. intros H. apply report_contract_effect in H. pose proof (origin_advances _ _ _ _ _ _ _ Ho) as H1.
  destruct r as [[ev|]|e]; [|done|by apply advances_trans with s1].
  destruct H as (o & Hr & Ha). split.
  { destruct (re_describes _ _ _ _ _ _ _ _ Hr) as (rep & D). apply D. }
  exists i, o, s1. split_and!; try done. by apply advances_trans with s1.
Qed.

Lemma message_effect raw sp s t r s' t' :
  on_proposal_open_contract_message payload_hash raw sp (s, t) = (r, (s', t')) ->
  (r = Ok None /\ s' = s) \/ exists poc, get raw "proposal_open_contract" = VDict poc /\
    handled (str (get poc "contract_id")) poc raw sp s s' r.
Proof.
  unfold on_proposal_open_contract_message.
  destruct (get raw "proposal_open_contract") as [| | | | | |poc]; try (by intros [= <- <- <-]; left).
  destruct (get poc "contract_id") eqn:E; [by intros [= <- <- <-]; left|..]; cbv zeta;
    intros H%follow_effect; right; exists poc; (split; [done|]); by rewrite E.
Qed.

(** an event says what the broker's message says about the order that it belongs to.
    The order was tracked under the contract, or the message itself names it; the event
    carries the next number of that order; a settled contract is reported as SETTLED with
    its profit in minor units, agrees with the digit of the exit tick if it is a digit
    contract, and is no longer tracked; an open one is reported as OPEN and stays
    tracked. *)
Theorem contract_event_effect raw sp s t ev s' t' :
  on_proposal_open_contract_message payload_hash raw sp (s, t) = (Ok (Some ev), (s', t')) ->
  exists poc i o s1, get raw "proposal_open_contract" = VDict poc /\
    bo_broker_order_id ev = str (get poc "contract_id") /\
    origin (bo_broker_order_id ev) poc raw (sp_now sp) s s1 i /\
    reported_event i (bo_broker_order_id ev) poc (sp_later sp) o s1 s' ev.
Proof.
  intros H%message_effect. destruct H as [[? _]|(poc & Hp & Hc & i & o & s1 & Ho & _ & Hr & _)]; [done|].
  exists poc, i, o, s1. rewrite <- Hc in Ho, Hr. by split_and!.
Qed.

(** ** Numbering *)

(** The session handles messages one after the other; an exception loses its message. *)
Fixpoint feed (ms : list (obj * stamp)) (w : DerivLiveOrderSession * T)
    : list BrokerOrderEvent * (DerivLiveOrderSession * T) :=
  match ms with
  | [] => ([], w)
  | (raw, sp) :: ms =>
      let '(r, w) := on_proposal_open_contract_message payload_hash raw sp w in
      let '(evs, w) := feed ms w in
      (match r with Ok (Some ev) => ev :: evs | _ => evs end, w)
  end.

(** The contract is tracked, with the number [n] or a higher one. *)
Definition reached s (c : string) (n : Z) : Prop :=
  exists i o, ds_tracked s !! c = Some i /\ ds_heap s !! i = Some o /\ n <= td_sequence_counter o.

Lemma reached_advances P s s' c n : advances P s s' -> reached s c n -> reached s' c n \/ P c.
Proof.
  intros [Hh Ht] (i & o & Hc & Ho & Hn). destruct (Ht c i Hc) as [Hc'|?]; [|by right].
  left. destruct (Hh i o Ho) as (o' & Ho' & ?). exists i, o'. split_and!; try done. lia.
Qed.

(** An event has a number above those reached before, and reaches it. *)
Lemma event_number raw sp s t ev s' t' :
  on_proposal_open_contract_message payload_hash raw sp (s, t) = (Ok (Some ev), (s', t')) ->
  exists n, bo_external_sequence ev = Some n /\
    (forall m, reached s (bo_broker_order_id ev) m -> m < n) /\
    (bo_external_status ev <> EX_SETTLED -> reached s' (bo_broker_order_id ev) n).
Proof.
  intros H%message_effect. destruct H as [[? _]|(poc & Hp & Hc & i & o & s1 & Ho & Hi & Hr & _)]; [done|].
  rewrite Hc. clear Hc. destruct Hr as [Hor (o0 & Ho0 & ->) (rep & D) (settled & _ & Hs)].
  exists (td_sequence_counter o0 + 1). split_and!; [apply D|..].
  - intros m (j & x & Hj & Hx & Hm). destruct Ho as [[Hi' ->]|(o' & Hn & _)]; [|congruence]. simplify_eq. lia.
  - intros Hns. destruct settled; [by destruct Hs|]. destruct Hs as (_ & _ & Hs).
    eexists i, _. split_and!; [congruence|done|simpl; lia].
Qed.

Lemma feed_above ms s t evs w c n b e rest :
  reached s c n -> feed ms (s, t) = (evs, w) -> evs = b ++ e :: rest -> bo_broker_order_id e = c ->
  Forall (fun x => bo_broker_order_id x = c -> bo_external_status x <> EX_SETTLED) b ->
  exists m, bo_external_sequence e = Some m /\ n < m.
Proof.
  revert s t evs w b. induction ms as [|[raw sp] ms IH]; intros s t evs w b Hn Hf -> Hc Hb; simpl in Hf.
  { destruct b; simplify_eq. }
  destruct (on_proposal_open_contract_message _ _ _ _) as [r (s' & t')] eqn:Em.
  destruct (feed ms (s', t')) as [evs' w'] eqn:Ef. injection Hf as Hf <-.
  pose proof (message_effect _ _ _ _ _ _ _ Em) as He.
  assert (forall ev, r = Ok (Some ev) -> ev = e /\ evs' = rest \/ exists b', b = ev :: b' /\ evs' = b' ++ e :: rest) as Hev.
  { intros ev ->. destruct b as [|x b]; simplify_eq/=; eauto. }
  destruct r as [[ev|]|x].
  - destruct (event_number _ _ _ _ _ _ _ Em) as (m & Hm & Hlt & _).
    destruct (Hev ev eq_refl) as [[-> ->]|(b' & -> & ->)]; [exists m; rewrite Hc in Hlt; eauto|].
    apply Forall_cons in Hb as [Hb1 Hb2]. eapply (IH s' t'); [|done|done|done|done].
    destruct He as [[? _]|(poc & _ & Hcid & i & o & s1 & _ & _ & _ & Ha)]; [done|].
    destruct (reached_advances _ _ _ _ _ Ha Hn) as [?|[-> Hset]]; [done|]. by destruct (Hb1 Hcid).
  - subst evs'. eapply (IH s' t'); [|done|done|done|done].
    destruct He as [[_ ->]|(poc & _ & Ha)]; [done|]. by destruct (reached_advances _ _ _ _ _ Ha Hn).
  - subst evs'. eapply (IH s' t'); [|done|done|done|done].
    destruct He as [[? _]|(poc & _ & Ha)]; [done|]. by destruct (reached_advances _ _ _ _ _ Ha Hn).
Qed.

(** The events of a contract are numbered upwards.  Of two events of a contract, with
    no settlement of it between them, the later one has the higher number, whatever other
    messages, failures and contracts come between. *)
Theorem event_numbers_increase ms w evs w' a e1 b e2 rest :
  feed ms w = (evs, w') -> evs = a ++ e1 :: b ++ e2 :: rest ->
  bo_broker_order_id e2 = bo_broker_order_id e1 ->
  Forall (fun x => bo_broker_order_id x = bo_broker_order_id e1 -> bo_external_status x <> EX_SETTLED) (e1 :: b) ->
  exists n1 n2, bo_external_sequence e1 = Some n1 /\ bo_external_sequence e2 = Some n2 /\ n1 < n2.
Proof.
  revert w evs a. induction ms as [|[raw sp] ms IH]; intros [s t] evs a Hf -> Hc Hb; simpl in Hf.
  { by destruct a; simplify_eq. }
  destruct (on_proposal_open_contract_message _ _ _ _) as [r (s' & t')] eqn:Em.
  destruct (feed ms (s', t')) as [evs' w2] eqn:Ef. injection Hf as Hf <-.
  destruct r as [[ev|]|x]; [|by eapply IH..].
  destruct a as [|x a]; simplify_eq/=; [|by eapply IH].
  destruct (event_number _ _ _ _ _ _ _ Em) as (n1 & H1 & _ & Hr). apply Forall_cons in Hb as [Hb1 Hb2].
  destruct (feed_above ms s' t' _ _ (bo_broker_order_id e1) n1 b e2 rest (Hr (Hb1 eq_refl)) Ef eq_refl Hc Hb2) as (n2 & ? & ?).
  by exists n1, n2.
Qed.
End events.

(** ** A sample session

    A transport that gives prepared replies, one per request. *)

#[export] Instance scripted : DerivReadTransport (list (res obj)) := {
  transport_request op payload := fun replies =>
    match replies with [] => (Err TimeoutError, []) | r :: replies => (r, replies) end;
  transport_receive_contract := fun replies => (Ok None, replies)
}.

Module Trade.
Definition moment (minute : Z) : datetime := mk_datetime 2026 1 1 12 minute 0 0 (Some 0).
Definition stamp_at (minute : Z) : stamp := mk_stamp (moment minute) (moment minute) "id".
Definition hash (p : payload) : string := "h".
Definition digest (d : obj) : string := "sha".

Definition command : OrderCommand :=
  mk_OrderCommand "m1" "c1" "i1" "o1" DERIV "VRTC1" "DIGITDIFF" "R_100" CALL (mk_Money 100 "USD") (moment 30) 1 "t" (Some 5).

Definition session : DerivLiveOrderSession := mk_DerivLiveOrderSession "VRTC1" true "demo" 128 [] ∅ ∅ [] ∅ ∅.

Definition quote_reply : res obj := Ok [("proposal", VDict [("id", VStr "p1")])].
Definition buy_reply : res obj := Ok [("buy", VDict [("contract_id", VInt 77); ("buy_price", VFloat "1.00")])].
Definition subscribed_reply : res obj := Ok [("subscription", VDict [("id", VStr "s1")])].

Definition contract (l : obj) : obj := [("proposal_open_contract", VDict (("contract_id", VInt 77) :: l))].
Definition open_message : obj := contract [("status", VStr "open"); ("current_spot", VFloat "101.23")].
Definition won : obj :=
  [("status", VStr "won"); ("is_sold", VInt 1); ("profit", VFloat "0.09"); ("exit_tick", VFloat "101.27");
   ("buy_price", VFloat "1.00"); ("currency", VStr "USD"); ("underlying", VStr "R_100"); ("contract_type", VStr "DIGITDIFF")].
Definition won_message : obj := contract won.

Definition after_buy : DerivLiveOrderSession * list (res obj) :=
  snd (submit_order command (stamp_at 0) (session, [quote_reply; buy_reply; subscribed_reply])).

Definition query : OrderStatusQuery :=
  mk_OrderStatusQuery "c1" "i1" "o1" "o1" DERIV "VRTC1" "DIGITDIFF" "R_100" CALL (mk_Money 100 "USD") None None.
End Trade.

(** The submission is accepted; with an answer that names no contract it is refused, and
    with a lost connection it is possibly sent. *)
Example sample_submissions :
  (fun replies => match fst (submit_order Trade.command (Trade.stamp_at 0) (Trade.session, replies)) with
                  | Ok w => Some (ws_outcome w, ws_broker_order_id w)
                  | Err _ => None
                  end) <$>
    [[Trade.quote_reply; Trade.buy_reply; Trade.subscribed_reply];
     [Trade.quote_reply; Ok [("error", VDict [("code", VStr "InsufficientBalance")])]];
     [Trade.quote_reply; Err (DerivWorkerError NETWORK_ERROR "DERIV_REQUEST_TIMEOUT")];
     [Err TimeoutError]]
  = [Some (WO_ACCEPTED, Some "77"); Some (WO_REJECTED, None); Some (WO_TIMEOUT_AFTER_POSSIBLE_SEND, None);
     Some (WO_REJECTED, None)].
Proof. vm_compute. reflexivity. Qed.

Lemma contract_event_effect_witness :
  exists ev s' t', on_proposal_open_contract_message Trade.hash Trade.won_message (Trade.stamp_at 1) Trade.after_buy
    = (Ok (Some ev), (s', t')) /\ bo_external_status ev = EX_SETTLED /\ bo_result_minor ev = Some 9 /\
    exists poc i o s1, get Trade.won_message "proposal_open_contract" = VDict poc /\
      reported_event i (bo_broker_order_id ev) poc (Trade.moment 1) o s1 s' ev.
Proof.
  eexists _, _, _. split; [vm_compute; reflexivity|]. split; [reflexivity|]. split; [reflexivity|].
  destruct (contract_event_effect (transport := scripted) Trade.hash Trade.won_message (Trade.stamp_at 1)
    (fst Trade.after_buy) (snd Trade.after_buy) _ _ _ ltac:(vm_compute; reflexivity))
    as (poc & i & o & s1 & Hp & _ & _ & Hr).
  exists poc, i, o, s1. split; [exact Hp|exact Hr].
Defined.

Lemma event_numbers_increase_witness :
  exists e1 e2 w', feed Trade.hash [(Trade.open_message, Trade.stamp_at 1); (Trade.won_message, Trade.stamp_at 2)]
    Trade.after_buy = ([e1; e2], w') /\
    exists n1 n2, bo_external_sequence e1 = Some n1 /\ bo_external_sequence e2 = Some n2 /\ n1 < n2.
Proof.
  eexists _, _, _. split; [vm_compute; reflexivity|].
  eapply (event_numbers_increase (transport := scripted) Trade.hash [(Trade.open_message, Trade.stamp_at 1); (Trade.won_message, Trade.stamp_at 2)]
    Trade.after_buy _ _ [] _ [] _ []); [vm_compute; reflexivity|reflexivity|reflexivity|].
  apply Forall_singleton. discriminate.
Defined.

(** Absent after three empty lists, found through the portfolio, unavailable when the
    statement cannot be read. *)
Example sample_queries :
  (fun replies => match fst (query_order_status Trade.digest Trade.query None (Trade.stamp_at 2) (Trade.session, replies)) with
                  | Ok r => Some (sr_outcome r, ev_realized_pnl_minor <$> sr_evidence r,
                                  confirms_both_sources <$> sr_not_found_evidence r)
                  | Err _ => None
                  end) <$>
    [[Ok [("portfolio", VDict [("contracts", VList [])])]; Ok [("statement", VDict [("transactions", VList [])])];
      Ok [("profit_table", VDict [("transactions", VList [])])]];
     [Ok [("portfolio", VDict [("contracts", VList [VDict [("contract_id", VInt 77);
        ("passthrough", VDict [("order_id", VStr "o1")])]])])]; Ok Trade.won_message];
     [Ok [("portfolio", VDict [("contracts", VList [])])]; Err TimeoutError;
      Ok [("profit_table", VDict [("transactions", VList [])])]]]
  = [Some (SQ_NOT_FOUND, None, Some true); Some (SQ_FOUND, Some (Some 9), None); Some (SQ_UNAVAILABLE, None, None)].
Proof. vm_compute. reflexivity. Qed.

(** ** The worker on its WebSocket client *)

(** The client with what happens around each of its next requests. *)
Record wired : Type := mk_wired { wd_client : DerivWebSocketClient; wd_exchanges : list exchange }.

#[export] Instance websocket : DerivReadTransport wired := {
  transport_request op payload := fun w =>
    let x := default (mk_exchange false (float_of_Z 0) None []) (head (wd_exchanges w)) in
    let '(r, c) := request 100 x op payload (float_of_Z 3) (wd_client w) in (r, mk_wired c (tail (wd_exchanges w)));
  transport_receive_contract := fun w =>
    let '(r, c) := receive_contract (wd_client w) in (r, mk_wired c (wd_exchanges w))
}.

Module Broken.
Definition malformed_frame : frame := mk_frame RecvBinary (float_of_Z 1) 0.
Definition quote_exchange : exchange :=
  Wire.delivers [Wire.text [("req_id", VInt 1); ("msg_type", VStr "proposal"); ("proposal", VDict [("id", VStr "p1")])]].

(** After the buy the connection gives five frames that are no text. *)
Definition client : wired :=
  mk_wired (new_DerivWebSocketClient true (float_of_Z 0)) [quote_exchange; Wire.delivers (replicate 5 malformed_frame)].
Definition submitted := submit_order Trade.command (Trade.stamp_at 0) (Trade.session, client).
End Broken.

(** The buy was sent and nothing was heard of it, but the result is REJECTED: the reader
    gives up with a schema error, which the session does not count among the errors that
    leave the delivery open. *)
Example unanswered_buy_is_rejected :
  match Broken.submitted with
  | (Ok w, (_, t)) =>
      ws_outcome w = WO_REJECTED /\ ws_reason_code w = Some "DERIV_SCHEMA_INCOMPATIBLE" /\
      exists d, last (dw_sent (wd_client t)) = Some d /\ get d "buy" = VStr "p1"
  | _ => False
  end.
Proof. vm_compute. split; [reflexivity|]. split; [reflexivity|]. by eexists. Qed.

(** A settled contract with a profit that is no number makes the query raise
    [InvalidOperation], which neither the query nor the server handles. *)
Example unreadable_profit_escapes :
  fst (handle (dispatch_order_status Trade.digest true (Trade.stamp_at 2)
         (mk_Envelope 1 "m9" "c1" None ER_CORE ER_DERIV_WORKER MT_ORDER_STATUS_REQUEST (Trade.moment 2) None
            (of_payload (OrderStatusQuery_to_payload Trade.query))))
       (Trade.session,
        [Ok [("portfolio", VDict [("contracts", VList [VDict [("contract_id", VInt 77);
           ("passthrough", VDict [("order_id", VStr "o1")])]])])];
         Ok (Trade.contract [("status", VStr "sold"); ("profit", VStr "n/a")])]))
  = Err InvalidOperation.
Proof. vm_compute. reflexivity. Qed.
