(* ===== verification/FloatOrder.v ===== *)
(** * The order of floats and sliding windows

    [fleb] and [fltb] as a lexicographic order on integers, and the invariant behind the
    sliding windows of the sources: lists of time stamps from which what is not after a
    boundary is dropped. *)

From S2P Require Import Prelude PyFloat.
From Stdlib Require Import SpecFloat.

(** [max(x, y)] *)
Definition fmax (x y : float) : float := if fltb x y then y else x.

(** The place of a float in the order; a NaN has none. *)
Definition place (x : float) : option (Z * Z * Z) :=
  match x with
  | S754_zero _ => Some (0, 0, 0)
  | S754_infinity s => Some (if s then -2 else 2, 0, 0)
  | S754_nan => None
  | S754_finite s m e => Some (if s then (-1, - e, Zneg m) else (1, e, Zpos m))
  end.

Definition before (a b : Z * Z * Z) : Prop :=
  let '(a1, a2, a3) := a in let '(b1, b2, b3) := b in
  a1 < b1 \/ (a1 = b1 /\ (a2 < b2 \/ (a2 = b2 /\ a3 < b3))).

Definition rank (a b : Z * Z * Z) : comparison :=
  let '(a1, a2, a3) := a in let '(b1, b2, b3) := b in
  match a1 ?= b1 with
  | Eq => match a2 ?= b2 with Eq => a3 ?= b3 | c => c end
  | c => c
  end.

Lemma SFcompare_place x y :
  SFcompare x y = match place x, place y with Some a, Some b => Some (rank a b) | _, _ => None end.
Proof.
  destruct x as [|[]| |[] m1 e1], y as [|[]| |[] m2 e2]; try done; simpl; f_equal.
  destruct (Z.compare_spec e1 e2), (Z.compare_spec (- e1) (- e2)); try lia; done.
Qed.

Lemma rank_spec a b : match rank a b with Lt => before a b | Eq => a = b | Gt => before b a end.
Proof.
  destruct a as [[a1 a2] a3], b as [[b1 b2] b3]. unfold rank, before.
  destruct (Z.compare_spec a1 b1); [|lia..]. destruct (Z.compare_spec a2 b2); [|lia..].
  destruct (Z.compare_spec a3 b3); [by subst|lia..].
Qed.

Lemma fltb_place x y : fltb x y = true <-> exists a b, place x = Some a /\ place y = Some b /\ before a b.
Proof.
  unfold fltb, SFltb. rewrite SFcompare_place. destruct (place x) as [a|], (place y) as [b|]; try naive_solver.
  pose proof (rank_spec a b) as H. split.
  - destruct (rank a b); try done. naive_solver.
  - intros (? & ? & [= <-] & [= <-] & Hb). destruct a as [[]], b as [[]], (rank _ _); simpl in *; [simplify_eq; lia|done|lia].
Qed.

Lemma fleb_place x y :
  fleb x y = true <-> exists a b, place x = Some a /\ place y = Some b /\ (a = b \/ before a b).
Proof.
  unfold fleb, SFleb. rewrite SFcompare_place. destruct (place x) as [a|], (place y) as [b|]; try naive_solver.
  pose proof (rank_spec a b) as H. split.
  - destruct (rank a b); try done; naive_solver.
  - intros (? & ? & [= <-] & [= <-] & Hb). destruct a as [[]], b as [[]], (rank _ _); simpl in *; [done..|].
    destruct Hb as [|]; [simplify_eq; lia|lia].
Qed.

Lemma before_trans a b c : before a b -> before b c -> before a c.
Proof. destruct a as [[]], b as [[]], c as [[]]. simpl. lia. Qed.

Lemma before_irrefl a : ~ before a a.
Proof. destruct a as [[]]. simpl. lia. Qed.

Ltac float_order :=
  repeat match goal with
  | H : fltb _ _ = true |- _ => apply fltb_place in H as (? & ? & ? & ? & ?)
  | H : fleb _ _ = true |- _ => apply fleb_place in H as (? & ? & ? & ? & ?)
  end;
  simplify_eq;
  repeat match goal with H : _ \/ _ |- _ => destruct H; simplify_eq end;
  eauto 10 using before_trans.

Lemma fleb_fltb_trans x y z : fleb x y = true -> fltb y z = true -> fltb x z = true.
Proof. intros. apply fltb_place. float_order. Qed.

Lemma fltb_fleb_trans x y z : fltb x y = true -> fleb y z = true -> fltb x z = true.
Proof. intros. apply fltb_place. float_order. Qed.

Lemma fleb_trans x y z : fleb x y = true -> fleb y z = true -> fleb x z = true.
Proof. intros. apply fleb_place. float_order. Qed.

Lemma fltb_fleb x y : fltb x y = true -> fleb x y = true.
Proof. intros. apply fleb_place. float_order. Qed.

Lemma fleb_not_fltb x y : fleb x y = true -> fltb y x = false.
Proof.
  intros H. apply not_true_iff_false. intros H'. pose proof (fleb_fltb_trans _ _ _ H H') as Hx.
  apply fltb_place in Hx as (a & b & Ha & Hb & Hlt). simplify_eq. by apply before_irrefl in Hlt.
Qed.

Lemma fleb_refl x : place x <> None -> fleb x x = true.
Proof. intros H. apply fleb_place. destruct (place x) as [a|] eqn:E; [naive_solver|done]. Qed.

Lemma fleb_self x y : fleb x y = true -> fleb y y = true.
Proof. intros (a & b & _ & Hb & _)%fleb_place. apply fleb_refl. by rewrite Hb. Qed.

(** ** Sliding windows

    [later b l] are the time stamps of [l] after the boundary [b]. *)

Definition later (b : float) (l : list float) : list float := List.filter (fun x => fltb b x) l.

(** [while l and l[0] <= boundary: l.popleft()] *)
Fixpoint drop_expired (boundary : float) (l : list float) : list float :=
  match l with
  | [] => []
  | x :: rest => if fleb x boundary then drop_expired boundary rest else l
  end.

Lemma later_app b l1 l2 : later b (l1 ++ l2) = later b l1 ++ later b l2.
Proof. apply List.filter_app. Qed.

Lemma later_length b l : (length (later b l) <= length l)%nat.
Proof. apply List.filter_length_le. Qed.

(** What an earlier boundary dropped is not after a later one. *)
Lemma later_later b b' l : fleb b b' = true -> later b' (later b l) = later b' l.
Proof.
  intros Hb. unfold later. induction l as [|x l IH]; [done|]. simpl. destruct (fltb b x) eqn:E; simpl; rewrite IH; [done|].
  destruct (fltb b' x) eqn:E'; [|done]. by rewrite (fleb_fltb_trans b b' x) in E.
Qed.

Lemma later_drop_expired b b' l : fleb b b' = true -> later b' (drop_expired b l) = later b' l.
Proof.
  intros Hb. induction l as [|x l IH]; [done|]. simpl. destruct (fleb x b) eqn:E; [|done].
  rewrite IH. rewrite fleb_not_fltb; [done|]. by apply (fleb_trans x b b').
Qed.

Lemma drop_expired_length b l : (length (drop_expired b l) <= length l)%nat.
Proof. induction l as [|x l IH]; simpl; [done|]. destruct (fleb x b); simpl; lia. Qed.

(** [kept] holds every stamp of [all] that is after [b] or a later boundary. *)
Definition keeps (b : float) (kept all : list float) : Prop :=
  forall b', fleb b b' = true -> later b' kept = later b' all.

Lemma keeps_refl b l : keeps b l l.
Proof. done. Qed.

Lemma keeps_app b kept all new : keeps b kept all -> keeps b (kept ++ new) (all ++ new).
Proof. intros H b' Hb. by rewrite !later_app, H. Qed.

Lemma keeps_mono b1 b2 kept all : fleb b1 b2 = true -> keeps b1 kept all -> keeps b2 kept all.
Proof. intros Hb H b' Hb'. apply H. by apply (fleb_trans b1 b2 b'). Qed.

Lemma keeps_later b kept all : keeps b kept all -> keeps b (later b kept) all.
Proof. intros H b' Hb. rewrite later_later by done. by apply H. Qed.

Lemma keeps_drop_expired b kept all : keeps b kept all -> keeps b (drop_expired b kept) all.
Proof. intros H b' Hb. rewrite later_drop_expired by done. by apply H. Qed.

(** The number of stamps in the window is at most what is kept. *)
Lemma keeps_length b kept all : fleb b b = true -> keeps b kept all -> (length (later b all) <= length kept)%nat.
Proof. intros Hb H. rewrite <- (H b Hb). apply later_length. Qed.
