(* ===== verification/IqSafety.v ===== *)
(** * Connection safety for IQ Option

    [apps/core/iqoption_connection_safety.py]: the admission of session starts, which
    survives restarts through a file, and the budget of market-data messages.

    The file is modelled by what reading it gives: nothing, an error, or a decoded JSON
    value in which numbers are integers or floats.  Clock readings and the failures of
    [save] are arguments; the locks make the operations atomic. *)

From S2P Require Import Prelude Datetime PyFloat FloatOrder.
From Stdlib Require Import SpecFloat.

Definition IQOPTION_HTTP_LOGIN_WINDOW_SECONDS : float := float_of_Z 900.
Definition IQOPTION_HTTP_LOGIN_LIMIT : nat := 3.
Definition IQOPTION_CONNECTION_QUARANTINE_SECONDS : float := float_of_Z 900.
Definition IQOPTION_MARKET_DATA_MESSAGE_BUDGET_PER_MINUTE : Z := 60.

Definition IMMEDIATE_QUARANTINE_REASONS : list string :=
  ["IQOPTION_AUTH_FAILED"; "IQOPTION_2FA_REQUIRED"; "IQOPTION_RATE_LIMITED"].

Definition safety_state_invalid : exn :=
  IQOptionConnectionSafetyStateError "IQOPTION_CONNECTION_SAFETY_STATE_INVALID".

(** ** The store *)

Record PersistentState : Type := mk_PersistentState {
  ps_attempt_epochs : list float; ps_quarantine_until_epoch : float; ps_last_reason_code : option string
}.

Definition empty_state : PersistentState := mk_PersistentState [] (float_of_Z 0) None.

(** A decoded JSON value; of strings and objects only what [load] looks at. *)
Inductive pvalue : Type :=
| PNull | PBool (b : bool) | PInt (n : Z) | PFloat (x : float) | PStr (s : string) | PList (l : list pvalue)
| PDict (d : list (string * pvalue)).

Inductive file : Type :=
| Missing
| Unreadable (* OSError, UnicodeDecodeError, JSONDecodeError *)
| Document (v : pvalue).

Definition doc_field (d : list (string * pvalue)) (k : string) : pvalue :=
  match List.find (fun kv => String.eqb (fst kv) k) d with Some (_, v) => v | None => PNull end.

Definition is_version_1 (v : pvalue) : bool :=
  match v with PInt n => n =? 1 | PBool b => b | PFloat x => feqb x (float_of_Z 1) | _ => false end.

(** [float(item)] of a number that is not a [bool], checked: finite and not negative.
    A [ValueError] becomes the error of the store; an integer too large for a float
    raises [OverflowError], which is not handled. *)
Definition load_number (v : pvalue) : res float :=
  x ← match v with
      | PInt n => int_truediv n 1
      | PFloat x => Ok x
      | _ => Err safety_state_invalid
      end;
  _ ← guard_res (float_is_finite x && negb (fltb x (float_of_Z 0))) safety_state_invalid;
  Ok x.

Fixpoint load_numbers (l : list pvalue) : res (list float) :=
  match l with
  | [] => Ok []
  | v :: l => x ← load_number v; rest ← load_numbers l; Ok (x :: rest)
  end.

Definition is_number (v : pvalue) : bool := match v with PInt _ | PFloat _ => true | _ => false end.

Definition load (f : file) : res PersistentState :=
  match f with
  | Missing => Ok empty_state
  | Document (PDict raw) =>
      _ ← guard_res (is_version_1 (doc_field raw "schema_version")) safety_state_invalid;
      match doc_field raw "attempt_epochs" with
      | PList raw_attempts =>
          _ ← guard_res (is_number (doc_field raw "quarantine_until_epoch")) safety_state_invalid;
          attempts ← load_numbers raw_attempts;
          quarantine ← load_number (doc_field raw "quarantine_until_epoch");
          match doc_field raw "last_reason_code" with
          | PNull => Ok (mk_PersistentState attempts quarantine None)
          | PStr reason => Ok (mk_PersistentState attempts quarantine (Some reason))
          | _ => Err safety_state_invalid
          end
      | _ => Err safety_state_invalid
      end
  | _ => Err safety_state_invalid
  end.

Definition saved (s : PersistentState) : file :=
  Document (PDict [
    ("schema_version", PInt 1);
    ("attempt_epochs", PList (PFloat <$> ps_attempt_epochs s));
    ("quarantine_until_epoch", PFloat (ps_quarantine_until_epoch s));
    ("last_reason_code", match ps_last_reason_code s with Some r => PStr r | None => PNull end)]).

(** ** The controller *)

Record IQOptionConnectionSafetyController : Type := mk_IQOptionConnectionSafetyController {
  sc_state : PersistentState; sc_file : file
}.

#[export] Instance IQOptionConnectionSafetyController_eta : Eta IQOptionConnectionSafetyController := fun c =>
  mk_IQOptionConnectionSafetyController (sc_state c) (sc_file c).

Record IQOptionConnectionSafetyDecision : Type := mk_IQOptionConnectionSafetyDecision {
  cd_allowed : bool; cd_reason_code : string; cd_attempts_in_window : nat; cd_retry_after_seconds : Z
}.

Record IQOptionConnectionSafetySnapshot : Type := mk_IQOptionConnectionSafetySnapshot {
  cn_attempts_in_window : nat; cn_quarantine_active : bool; cn_retry_after_seconds : Z;
  cn_last_reason_code : option string
}.

Definition new_controller (f : file) : res IQOptionConnectionSafetyController :=
  s ← load f; Ok (mk_IQOptionConnectionSafetyController s f).

(** [math.ceil] of a finite float *)
Definition float_ceil (x : float) : Z :=
  match x with
  | S754_finite s m e =>
      if 0 <=? e then (if s then -1 else 1) * (Zpos m * 2 ^ e)
      else if s then - (Zpos m / 2 ^ (- e)) else - ((- Zpos m) / 2 ^ (- e))
  | _ => 0
  end.

Definition retry_after (s : PersistentState) (now : float) : Z :=
  Z.max 0 (float_ceil (fsub (ps_quarantine_until_epoch s) now)).

Definition decision (allowed : bool) (s : PersistentState) (now : float) : IQOptionConnectionSafetyDecision :=
  mk_IQOptionConnectionSafetyDecision allowed
    (if allowed then "IQOPTION_CONNECTION_ATTEMPT_ADMITTED" else "IQOPTION_CONNECTION_QUARANTINED")
    (length (ps_attempt_epochs s)) (retry_after s now).

(** [_now] on a reading of the wall clock. *)
Definition checked_now (now : float) : res float :=
  _ ← guard_res (float_is_finite now && negb (fltb now (float_of_Z 0))) safety_state_invalid; Ok now.

Definition login_boundary (now : float) : float := fsub now IQOPTION_HTTP_LOGIN_WINDOW_SECONDS.

Definition pruned (now : float) (s : PersistentState) : PersistentState :=
  mk_PersistentState (later (login_boundary now) (ps_attempt_epochs s)) (ps_quarantine_until_epoch s)
    (ps_last_reason_code s).

(** [_persist]; [save_fails] is whether the file cannot be written. *)
Definition persist (save_fails : bool) (s : PersistentState) : py IQOptionConnectionSafetyController unit :=
  _ ← py_guard (negb save_fails) safety_state_invalid;
  py_modify (fun _ => mk_IQOptionConnectionSafetyController s (saved s)).

Definition admit_http_login (now : float) (save_fails : bool)
    : py IQOptionConnectionSafetyController IQOptionConnectionSafetyDecision :=
  now ← py_lift (checked_now now);
  s ← py_gets (fun c => pruned now (sc_state c));
  if fltb now (ps_quarantine_until_epoch s) then
    _ ← py_modify (fun c => c <| sc_state := s |>);
    mret (decision false s now)
  else if (IQOPTION_HTTP_LOGIN_LIMIT <=? length (ps_attempt_epochs s))%nat then
    let s := mk_PersistentState (ps_attempt_epochs s) (fadd now IQOPTION_CONNECTION_QUARANTINE_SECONDS)
               (Some "IQOPTION_HTTP_LOGIN_LIMIT_REACHED") in
    _ ← persist save_fails s;
    mret (decision false s now)
  else
    let s := mk_PersistentState (ps_attempt_epochs s ++ [now]) (float_of_Z 0) (ps_last_reason_code s) in
    _ ← persist save_fails s;
    mret (decision true s now).

Definition record_failure (reason_code : string) (now : float) (save_fails : bool)
    : py IQOptionConnectionSafetyController unit :=
  now ← py_lift (checked_now now);
  s ← py_gets (fun c => pruned now (sc_state c));
  let quarantine_until :=
    if existsb (String.eqb reason_code) IMMEDIATE_QUARANTINE_REASONS
    then fmax (ps_quarantine_until_epoch s) (fadd now IQOPTION_CONNECTION_QUARANTINE_SECONDS)
    else ps_quarantine_until_epoch s in
  persist save_fails (mk_PersistentState (ps_attempt_epochs s) quarantine_until (Some reason_code)).

Definition record_success (now : float) (save_fails : bool) : py IQOptionConnectionSafetyController unit :=
  now ← py_lift (checked_now now);
  s ← py_gets (fun c => pruned now (sc_state c));
  persist save_fails (mk_PersistentState (ps_attempt_epochs s) (float_of_Z 0) None).

Definition snapshot (now : float) : py IQOptionConnectionSafetyController IQOptionConnectionSafetySnapshot :=
  now ← py_lift (checked_now now);
  s ← py_gets (fun c => pruned now (sc_state c));
  _ ← py_modify (fun c => c <| sc_state := s |>);
  mret (mk_IQOptionConnectionSafetySnapshot (length (ps_attempt_epochs s)) (0 <? retry_after s now)
          (retry_after s now) (ps_last_reason_code s)).

(** ** The message budget *)

Record IQOptionMessageBudget : Type := mk_IQOptionMessageBudget {
  mb_limit : Z; mb_pressure_at : Z; mb_timestamps : list float
}.

#[export] Instance IQOptionMessageBudget_eta : Eta IQOptionMessageBudget := fun b =>
  mk_IQOptionMessageBudget (mb_limit b) (mb_pressure_at b) (mb_timestamps b).

Record IQOptionMessageBudgetDecision : Type := mk_IQOptionMessageBudgetDecision {
  md_allowed : bool; md_used_in_window : Z; md_limit : Z; md_pressure : bool
}.

Definition new_IQOptionMessageBudget (limit : Z) (pressure_at : option Z) : res IQOptionMessageBudget :=
  _ ← guard_res (0 <? limit) (ValueError "IQ Option message budget must be positive");
  let resolved := match pressure_at with Some p => p | None => Z.max 1 ((limit * 4 + 4) / 5) end in
  _ ← guard_res (in_range 1 resolved limit) (ValueError "IQ Option message pressure threshold is invalid");
  Ok (mk_IQOptionMessageBudget limit resolved []).

Definition try_acquire (now : float) : py IQOptionMessageBudget IQOptionMessageBudgetDecision := fun b =>
  if negb (float_is_finite now && negb (fltb now (float_of_Z 0))) then
    (Err (ValueError "IQ Option message budget time is invalid"), b)
  else
    let b := b <| mb_timestamps ::= drop_expired (fsub now (float_of_Z 60)) |> in
    let used := Z.of_nat (length (mb_timestamps b)) in
    if used <? mb_limit b then
      (Ok (mk_IQOptionMessageBudgetDecision true (used + 1) (mb_limit b) (mb_pressure_at b <=? used + 1)),
       b <| mb_timestamps ::= fun l => l ++ [now] |>)
    else (Ok (mk_IQOptionMessageBudgetDecision false used (mb_limit b) (mb_pressure_at b <=? used)), b).

(** ** Session starts are bounded *)

(** What happens to a profile: calls with their clock reading and whether writing the
    file fails, and restarts of the application. *)
Inductive safety_op : Type :=
| SAdmit (now : float) (save_fails : bool)
| SFailure (reason : string) (now : float) (save_fails : bool)
| SSuccess (now : float) (save_fails : bool)
| SSnapshot (now : float)
| SRestart.

(** The clock reading of a call. *)
Definition op_now (o : safety_op) : option float :=
  match o with
  | SAdmit now _ | SFailure _ now _ | SSuccess now _ | SSnapshot now => Some now
  | SRestart => None
  end.

(** One operation: the login that it admits, and the controller after it.  A restart
    that cannot load the file leaves no controller. *)
Definition safety_step (o : safety_op) (c : IQOptionConnectionSafetyController)
    : list float * option IQOptionConnectionSafetyController :=
  match o with
  | SAdmit now save_fails =>
      let '(r, c) := admit_http_login now save_fails c in
      (match r with Ok d => if cd_allowed d then [now] else [] | Err _ => [] end, Some c)
  | SFailure reason now save_fails => ([], Some (snd (record_failure reason now save_fails c)))
  | SSuccess now save_fails => ([], Some (snd (record_success now save_fails c)))
  | SSnapshot now => ([], Some (snd (snapshot now c)))
  | SRestart => ([], match new_controller (sc_file c) with Ok c => Some c | Err _ => None end)
  end.

(** The logins admitted along a run and the controller after it. *)
Fixpoint safety_run (os : list safety_op) (c : IQOptionConnectionSafetyController)
    : list float * option IQOptionConnectionSafetyController :=
  match os with
  | [] => ([], Some c)
  | o :: os =>
      match safety_step o c with
      | (l, Some c) => let '(l', c) := safety_run os c in (l ++ l', c)
      | (l, None) => (l, None)
      end
  end.

(** The readings of the run do not move the window back, from [b] on. *)
Fixpoint window_advances (b : float) (os : list safety_op) : Prop :=
  match os with
  | [] => True
  | o :: os =>
      match op_now o with
      | Some now => fleb b (login_boundary now) = true /\ window_advances (login_boundary now) os
      | None => window_advances b os
      end
  end.

(** What [save] wrote is loaded as it was. *)
Definition time_ok (x : float) : bool := float_is_finite x && negb (fltb x (float_of_Z 0)).

Lemma load_number_float x : load_number (PFloat x) = if time_ok x then Ok x else Err safety_state_invalid.
Proof. unfold load_number, time_ok. simpl. by destruct (_ && _). Qed.

Lemma load_numbers_floats l :
  load_numbers (PFloat <$> l) = if forallb time_ok l then Ok l else Err safety_state_invalid.
Proof.
  induction l as [|x l IH]; [done|]. rewrite fmap_cons. cbn [load_numbers forallb]. rewrite load_number_float, IH.
  by destruct (time_ok x), (forallb time_ok l).
Qed.

Lemma load_saved s :
  load (saved s) = if forallb time_ok (ps_attempt_epochs s) && time_ok (ps_quarantine_until_epoch s)
                   then Ok s else Err safety_state_invalid.
Proof.
  destruct s as [l q r]. unfold load, saved. cbn -[load_number load_numbers].
  rewrite load_numbers_floats, load_number_float. destruct (forallb time_ok l), (time_ok q), r; reflexivity.
Qed.

(** The controller and its file hold every attempt of [all] after [b]. *)
Definition remembers (b : float) (all : list float) (c : IQOptionConnectionSafetyController) : Prop :=
  keeps b (ps_attempt_epochs (sc_state c)) all /\
  forall s, load (sc_file c) = Ok s -> keeps b (ps_attempt_epochs s) all.

Lemma remembers_mono b b' all c : fleb b b' = true -> remembers b all c -> remembers b' all c.
Proof. intros Hb [H1 H2]. split; [by apply (keeps_mono b)|]. intros s Hs. apply (keeps_mono b); auto. Qed.

Lemma remembers_state b all s f c :
  remembers b all c -> keeps b (ps_attempt_epochs s) all -> f = saved s \/ f = sc_file c ->
  remembers b all (mk_IQOptionConnectionSafetyController s f).
Proof.
  intros [_ H2] Hs [->| ->]; split; cbn [sc_state sc_file]; auto. by intros s'; rewrite load_saved; case_match; intros [= <-].
Qed.

(** Pruning at the boundary of the window. *)
Lemma remembers_pruned now all c :
  remembers (login_boundary now) all c ->
  keeps (login_boundary now) (ps_attempt_epochs (pruned now (sc_state c))) all.
Proof. intros [H _]. by apply keeps_later. Qed.

(** The calls, with their cases side by side. *)
Lemma persist_eq save_fails s c :
  persist save_fails s c =
  if save_fails then (Err safety_state_invalid, c) else (Ok tt, mk_IQOptionConnectionSafetyController s (saved s)).
Proof. by destruct save_fails. Qed.

Lemma admit_eq now save_fails c :
  admit_http_login now save_fails c =
  let s := pruned now (sc_state c) in
  let limited := mk_PersistentState (ps_attempt_epochs s) (fadd now IQOPTION_CONNECTION_QUARANTINE_SECONDS)
                   (Some "IQOPTION_HTTP_LOGIN_LIMIT_REACHED") in
  let started := mk_PersistentState (ps_attempt_epochs s ++ [now]) (float_of_Z 0) (ps_last_reason_code s) in
  let store s d := if save_fails then (Err safety_state_invalid, c)
                   else (Ok d, mk_IQOptionConnectionSafetyController s (saved s)) in
  if negb (time_ok now) then (Err safety_state_invalid, c)
  else if fltb now (ps_quarantine_until_epoch s) then
    (Ok (decision false s now), mk_IQOptionConnectionSafetyController s (sc_file c))
  else if (3 <=? length (ps_attempt_epochs s))%nat then store limited (decision false limited now)
  else store started (decision true started now).
Proof.
  unfold admit_http_login, checked_now. fold (time_ok now). destruct (time_ok now); [|reflexivity].
  change IQOPTION_HTTP_LOGIN_LIMIT with 3%nat. cbv [mbind py_bind py_lift py_gets res_bind guard_res negb].
  destruct (fltb now _); [done|]. by destruct (3 <=? _)%nat, save_fails.
Qed.

Lemma remembers_admit now save_fails all c :
  remembers (login_boundary now) all c ->
  let '(r, c') := admit_http_login now save_fails c in
  let admitted := match r with Ok d => if cd_allowed d then [now] else [] | Err _ => [] end in
  remembers (login_boundary now) (all ++ admitted) c'
  /\ (admitted <> [] -> (length (ps_attempt_epochs (pruned now (sc_state c))) < 3)%nat).
Proof.
  intros H. pose proof (remembers_pruned _ _ _ H) as Hp. rewrite admit_eq. cbv zeta.
  set (s := pruned now (sc_state c)) in *.
  destruct (negb (time_ok now)); [by rewrite app_nil_r|].
  destruct (fltb now _).
  { cbn -[remembers]. rewrite app_nil_r. split; [|done]. apply (remembers_state _ _ _ _ c); auto. }
  destruct (Nat.leb_spec 3 (length (ps_attempt_epochs s))) as [|Hlt]; destruct save_fails; cbn -[remembers];
    rewrite ?app_nil_r; (split; [|done || lia]); try done.
  - apply (remembers_state _ _ _ _ c); auto.
  - split; cbn [sc_state sc_file]; [by apply keeps_app|].
    intros s'. rewrite load_saved. case_match; intros [= <-]. by apply keeps_app.
Qed.

Lemma remembers_persist b all c save_fails s :
  remembers b all c -> keeps b (ps_attempt_epochs s) all -> remembers b all (snd (persist save_fails s c)).
Proof. intros H Hs. rewrite persist_eq. destruct save_fails; [done|]. apply (remembers_state _ _ _ _ c); auto. Qed.

Lemma remembers_step o b all c l c' :
  remembers b all c -> safety_step o c = (l, Some c') ->
  (forall now, op_now o = Some now -> fleb b (login_boundary now) = true) ->
  remembers (match op_now o with Some now => login_boundary now | None => b end) (all ++ l) c'.
Proof.
  intros H E Hb. destruct o as [now sf|reason now sf|now sf|now|]; simpl in *;
    try (specialize (Hb _ eq_refl); apply (remembers_mono _ (login_boundary now)) in H; [|done]).
  - pose proof (remembers_admit now sf all c H) as Ha. destruct (admit_http_login now sf c) as [r c1].
    destruct Ha as [Ha _]. by injection E as <- <-.
  - injection E as <- <-. rewrite app_nil_r. unfold record_failure, checked_now. destruct (guard_res _ _); [|done].
    apply remembers_persist; [done|]. by apply remembers_pruned.
  - injection E as <- <-. rewrite app_nil_r. unfold record_success, checked_now. destruct (guard_res _ _); [|done].
    apply remembers_persist; [done|]. by apply remembers_pruned.
  - injection E as <- <-. rewrite app_nil_r. unfold snapshot, checked_now. destruct (guard_res _ _); [|done]. simpl.
    apply (remembers_state _ _ _ _ c); auto. by apply remembers_pruned.
  - injection E as <- E. rewrite app_nil_r. unfold new_controller in E.
    destruct (load (sc_file c)) as [s|] eqn:El; [|done]. injection E as <-.
    destruct H as [_ Hf]. split; simpl; auto.
Qed.

(** The last boundary of a run. *)
Fixpoint last_boundary (b : float) (os : list safety_op) : float :=
  match os with
  | [] => b
  | o :: os => last_boundary (match op_now o with Some now => login_boundary now | None => b end) os
  end.

Lemma remembers_run os b all c l c' :
  remembers b all c -> window_advances b os -> safety_run os c = (l, Some c') ->
  remembers (last_boundary b os) (all ++ l) c'.
Proof.
  revert b all c l. induction os as [|o os IH]; intros b all c l H Hw E; simpl in *.
  { injection E as <- <-. by rewrite app_nil_r. }
  destruct (safety_step o c) as [l1 [c1|]] eqn:E1; [|done].
  destruct (safety_run os c1) as [l2 c2] eqn:E2. injection E as <- ->. rewrite app_assoc.
  apply (IH _ _ c1); [|by destruct (op_now o); [destruct Hw|]|done].
  apply (remembers_step o _ _ c); [done..|]. intros now Ho. rewrite Ho in Hw. by destruct Hw.
Qed.

Lemma window_advances_app b os1 os2 :
  window_advances b (os1 ++ os2) <-> window_advances b os1 /\ window_advances (last_boundary b os1) os2.
Proof.
  revert b. induction os1 as [|o os1 IH]; intros b; simpl; [tauto|]. destruct (op_now o); rewrite IH; tauto.
Qed.

(** C38: At most three session starts of a profile fall into any window of fifteen
    minutes.  Whatever calls, failed writes and restarts of the application lie between
    them, when a login is admitted at [now], at most three logins of the profile,
    including this one and those in the file the first controller was started with, are
    later than [now] less 900 seconds, as long as the clock does not move the window
    back. *)
Theorem logins_are_bounded f c0 b0 os now save_fails admitted c d c' :
  new_controller f = Ok c0 -> window_advances b0 (os ++ [SAdmit now save_fails]) ->
  safety_run os c0 = (admitted, Some c) -> admit_http_login now save_fails c = (Ok d, c') -> cd_allowed d = true ->
  (length (later (login_boundary now) (ps_attempt_epochs (sc_state c0) ++ admitted ++ [now])) <= 3)%nat.
Proof.
  intros Hf Hw Hr Ha Hd. apply window_advances_app in Hw as [Hw [Hb _]].
  set (all := ps_attempt_epochs (sc_state c0)) in *.
  assert (remembers b0 all c0) as H0.
  { unfold new_controller in Hf. destruct (load f) as [s|] eqn:El; [|done]. injection Hf as <-.
    split; [done|]. simpl in *. by rewrite El; intros s' [= <-]. }
  pose proof (remembers_run _ _ _ _ _ _ H0 Hw Hr) as H.
  apply (remembers_mono _ (login_boundary now)) in H; [|done]. pose proof (fleb_self _ _ Hb) as Hbb.
  pose proof (remembers_admit now save_fails _ _ H) as Hl. rewrite Ha, Hd in Hl. destruct Hl as [_ Hl].
  specialize (Hl ltac:(done)). rewrite app_assoc, later_app, length_app.
  pose proof (keeps_length _ _ _ Hbb (remembers_pruned _ _ _ H)).
  pose proof (later_length (login_boundary now) [now]) as Hone. cbn [length] in Hone. lia.
Qed.

(** ** Quarantine *)

(** The controller and its file are quarantined at least until [q]. *)
Definition quarantined (q : float) (c : IQOptionConnectionSafetyController) : Prop :=
  fleb q (ps_quarantine_until_epoch (sc_state c)) = true /\
  forall s, load (sc_file c) = Ok s -> fleb q (ps_quarantine_until_epoch s) = true.

Lemma quarantined_state q s f c :
  quarantined q c -> fleb q (ps_quarantine_until_epoch s) = true -> f = saved s \/ f = sc_file c ->
  quarantined q (mk_IQOptionConnectionSafetyController s f).
Proof.
  intros [_ H2] Hs [->| ->]; split; cbn [sc_state sc_file]; auto.
  by intros s'; rewrite load_saved; case_match; intros [= <-].
Qed.

Lemma fmax_l x y : fleb x x = true -> fleb x (fmax x y) = true.
Proof. intros Hx. unfold fmax. destruct (fltb x y) eqn:E; [by apply fltb_fleb|done]. Qed.

Lemma record_failure_eq reason now save_fails c :
  record_failure reason now save_fails c =
  if time_ok now then
    persist save_fails (mk_PersistentState (later (login_boundary now) (ps_attempt_epochs (sc_state c)))
      (if existsb (String.eqb reason) IMMEDIATE_QUARANTINE_REASONS
       then fmax (ps_quarantine_until_epoch (sc_state c)) (fadd now IQOPTION_CONNECTION_QUARANTINE_SECONDS)
       else ps_quarantine_until_epoch (sc_state c)) (Some reason)) c
  else (Err safety_state_invalid, c).
Proof. unfold record_failure, checked_now. fold (time_ok now). by destruct (time_ok now). Qed.

(** While the quarantine lasts nothing is admitted, and only a success ends it. *)
Lemma quarantined_step q o c l c' :
  quarantined q c -> safety_step o c = (l, Some c') ->
  (forall now, op_now o = Some now -> fltb now q = true) ->
  (forall now save_fails, o <> SSuccess now save_fails) -> l = [] /\ quarantined q c'.
Proof.
  intros H E Hq Hs. pose proof (fleb_self _ _ (proj1 H)) as Hself. destruct H as [Hc Hf].
  destruct o as [now sf|reason now sf|now sf|now|]; simpl in *; try (specialize (Hq _ eq_refl)).
  - rewrite admit_eq in E. destruct (negb (time_ok now)); cbv zeta in E; [by injection E as <- <-|].
    change (ps_quarantine_until_epoch (pruned now (sc_state c))) with (ps_quarantine_until_epoch (sc_state c)) in E.
    rewrite (fltb_fleb_trans _ _ _ Hq Hc) in E. injection E as <- <-. split; [done|].
    apply (quarantined_state _ _ _ c); [done|done|auto].
  - injection E as <- <-. split; [done|]. rewrite record_failure_eq. destruct (time_ok now); [|done].
    rewrite persist_eq. destruct sf; [done|]. apply (quarantined_state _ _ _ c); [done| |auto].
    cbn [ps_quarantine_until_epoch]. destruct (existsb _ _); [|done].
    by apply (fleb_trans _ (ps_quarantine_until_epoch (sc_state c))), fmax_l.
  - by destruct (Hs now sf).
  - injection E as <- <-. split; [done|]. unfold snapshot, checked_now. fold (time_ok now).
    destruct (time_ok now); [|done]. apply (quarantined_state _ _ _ c); [done|done|auto].
  - injection E as <- E. split; [done|]. unfold new_controller in E. destruct (load (sc_file c)) as [s|] eqn:El; [|done].
    injection E as <-. split; simpl; [auto|]. by rewrite El.
Qed.

Lemma quarantined_run q os c l r :
  quarantined q c -> safety_run os c = (l, r) ->
  Forall (fun o => (forall now, op_now o = Some now -> fltb now q = true)
                   /\ forall now save_fails, o <> SSuccess now save_fails) os -> l = [].
Proof.
  revert c l. induction os as [|o os IH]; intros c l H E Hos; simpl in E; [by injection E as <- <-|].
  apply Forall_cons in Hos as [[Ho1 Ho2] Hos]. destruct (safety_step o c) as [l1 [c1|]] eqn:E1.
  - destruct (quarantined_step _ _ _ _ _ H E1 Ho1 Ho2) as [-> H1].
    destruct (safety_run os c1) as [l2 c2] eqn:E2. injection E as <- ->. by apply (IH c1).
  - injection E as <- _. destruct o; simpl in E1; repeat case_match; simplify_eq; done.
Qed.

Lemma existsb_reason reason :
  reason ∈ IMMEDIATE_QUARANTINE_REASONS -> existsb (String.eqb reason) IMMEDIATE_QUARANTINE_REASONS = true.
Proof. intros H. apply existsb_exists. exists reason. by rewrite <- list_elem_of_In, String.eqb_refl. Qed.

Lemma place_nan x : place x = None <-> x = S754_nan.
Proof. split; [|by intros ->]. by destruct x. Qed.

Lemma fltb_total x y : x <> S754_nan -> y <> S754_nan -> fltb x y = false -> fleb y x = true.
Proof.
  intros Hx Hy H. apply fleb_place. rewrite <- place_nan in Hx, Hy.
  unfold fltb, SFltb in H. rewrite SFcompare_place in H.
  destruct (place x) as [a|] eqn:Ea, (place y) as [b|] eqn:Eb; try done. pose proof (rank_spec a b).
  destruct (rank a b); naive_solver.
Qed.

Lemma fmax_r x y : x <> S754_nan -> y <> S754_nan -> fleb y (fmax x y) = true.
Proof.
  intros Hx Hy. unfold fmax. destruct (fltb x y) eqn:E; [|by apply fltb_total].
  apply fleb_refl. by rewrite place_nan.
Qed.

Lemma fltb_nan x : fltb x S754_nan = false.
Proof. by destruct x. Qed.

(** Restarts alone admit nothing. *)
Lemma restarts_admit_nothing os c l r :
  Forall (fun o => op_now o = None) os -> safety_run os c = (l, r) -> l = [].
Proof.
  intros Hos. revert c l. induction Hos as [|o os Ho Hos IH]; intros c l E; simpl in E; [by injection E as <-|].
  destruct o; try done. simpl in E. destruct (new_controller _) as [c1|]; [|by injection E as <-].
  destruct (safety_run os c1) as [l2 c2] eqn:E2. injection E as <- ->. by apply (IH c1).
Qed.

(** A refusal of the broker that asks for it quarantines the profile.  After a
    recorded failure because of the credentials, a second factor or the rate limit at
    [now], no login is admitted by any calls, failed writes and restarts with clock
    readings before [now] plus 900 seconds, unless a success is recorded. *)
Theorem refusal_quarantines reason now c c1 os admitted r :
  reason ∈ IMMEDIATE_QUARANTINE_REASONS -> ps_quarantine_until_epoch (sc_state c) <> S754_nan ->
  record_failure reason now false c = (Ok tt, c1) -> safety_run os c1 = (admitted, r) ->
  Forall (fun o => (forall t, op_now o = Some t -> fltb t (fadd now IQOPTION_CONNECTION_QUARANTINE_SECONDS) = true)
                   /\ forall t save_fails, o <> SSuccess t save_fails) os ->
  admitted = [].
Proof.
  intros Hr Hq Hf E Hos. set (q := fadd now IQOPTION_CONNECTION_QUARANTINE_SECONDS) in *.
  destruct (decide (q = S754_nan)) as [Hnan|Hn].
  { eapply restarts_admit_nothing; [|exact E]. eapply Forall_impl; [exact Hos|]. intros o [Ho _].
    destruct (op_now o) as [t|]; [|done]. specialize (Ho t eq_refl). by rewrite Hnan, fltb_nan in Ho. }
  rewrite record_failure_eq, existsb_reason in Hf by done. destruct (time_ok now); [|done].
  rewrite persist_eq in Hf. injection Hf as <-. fold q in E.
  eapply quarantined_run; [|exact E|exact Hos]. split; cbn [sc_state sc_file].
  - by apply fmax_r.
  - intros s'. rewrite load_saved. case_match; intros [= <-]. by apply fmax_r.
Qed.

(** ** The message budget is kept *)

(** The acquisitions that were allowed, at their readings. *)
Fixpoint acquired (nows : list float) (b : IQOptionMessageBudget) : list float * IQOptionMessageBudget :=
  match nows with
  | [] => ([], b)
  | now :: nows =>
      let '(r, b) := try_acquire now b in
      let '(l, b) := acquired nows b in
      ((match r with Ok d => if md_allowed d then [now] else [] | Err _ => [] end) ++ l, b)
  end.

Definition minute_before (now : float) : float := fsub now (float_of_Z 60).

Fixpoint minutes_advance (b : float) (nows : list float) : Prop :=
  match nows with
  | [] => True
  | now :: nows => fleb b (minute_before now) = true /\ minutes_advance (minute_before now) nows
  end.

Lemma try_acquire_eq now b :
  try_acquire now b =
  let l := drop_expired (minute_before now) (mb_timestamps b) in
  let used := Z.of_nat (length l) in
  let answer allowed used := Ok (mk_IQOptionMessageBudgetDecision allowed used (mb_limit b) (mb_pressure_at b <=? used)) in
  if negb (time_ok now) then (Err (ValueError "IQ Option message budget time is invalid"), b)
  else if used <? mb_limit b then (answer true (used + 1), mk_IQOptionMessageBudget (mb_limit b) (mb_pressure_at b) (l ++ [now]))
  else (answer false used, mk_IQOptionMessageBudget (mb_limit b) (mb_pressure_at b) l).
Proof. reflexivity. Qed.

Lemma try_acquire_keeps now all b :
  keeps (minute_before now) (mb_timestamps b) all ->
  let '(r, b') := try_acquire now b in
  let new := match r with Ok d => if md_allowed d then [now] else [] | Err _ => [] end in
  keeps (minute_before now) (mb_timestamps b') (all ++ new) /\ mb_limit b' = mb_limit b
  /\ (new <> [] -> Z.of_nat (length (drop_expired (minute_before now) (mb_timestamps b))) < mb_limit b).
Proof.
  intros H. rewrite try_acquire_eq. cbv zeta. destruct (negb _); [by rewrite app_nil_r|].
  destruct (Z.ltb_spec (Z.of_nat (length (drop_expired (minute_before now) (mb_timestamps b)))) (mb_limit b));
    cbn [md_allowed mb_timestamps mb_limit].
  - split_and!; [|done|done]. by apply keeps_app, keeps_drop_expired.
  - rewrite app_nil_r. split_and!; [|done|done]. by apply keeps_drop_expired.
Qed.

Fixpoint last_minute (b : float) (nows : list float) : float :=
  match nows with [] => b | now :: nows => last_minute (minute_before now) nows end.

Lemma acquired_keeps nows b0 all b l b' :
  keeps b0 (mb_timestamps b) all -> minutes_advance b0 nows -> acquired nows b = (l, b') ->
  keeps (last_minute b0 nows) (mb_timestamps b') (all ++ l) /\ mb_limit b' = mb_limit b.
Proof.
  revert b0 all b l. induction nows as [|now nows IH]; intros b0 all b l H Hm E; simpl in *.
  { injection E as <- <-. by rewrite app_nil_r. }
  destruct Hm as [Hb Hm]. pose proof (try_acquire_keeps now all b (keeps_mono _ _ _ _ Hb H)) as Ha.
  destruct (try_acquire now b) as [r b1]. destruct Ha as (Ha & Hl & _).
  destruct (acquired nows b1) as [l2 b2] eqn:E2. injection E as <- <-. rewrite app_assoc, <- Hl.
  by apply (IH (minute_before now) _ b1).
Qed.

(** The budget of market-data messages is kept.  When a message is allowed at [now],
    at most [limit] allowed messages, this one included, are later than [now] less 60
    seconds, whatever was asked before, as long as the clock does not move the window
    back. *)
Theorem market_data_budget_is_kept limit pressure_at b0 start nows now l b d b' :
  new_IQOptionMessageBudget limit pressure_at = Ok b0 -> minutes_advance start (nows ++ [now]) ->
  acquired nows b0 = (l, b) -> try_acquire now b = (Ok d, b') -> md_allowed d = true ->
  Z.of_nat (length (later (minute_before now) (l ++ [now]))) <= limit.
Proof.
  intros Hnew Hm Hl Ha Hd.
  assert (minutes_advance start nows /\ fleb (last_minute start nows) (minute_before now) = true) as [Hm1 Hb].
  { clear -Hm. revert start Hm. induction nows as [|x nows IH]; intros start; simpl; [tauto|].
    intros [Hx Hm]. destruct (IH _ Hm). done. }
  assert (mb_timestamps b0 = [] /\ mb_limit b0 = limit) as [Ht Hlim].
  { unfold new_IQOptionMessageBudget in Hnew. destruct (0 <? limit); [|done]. cbv [mbind res_bind guard_res] in Hnew.
    destruct (in_range _ _ _); [|done]. by injection Hnew as <-. }
  destruct (acquired_keeps nows start [] b0 l b) as [Hk Hlim1]; [by rewrite Ht|done..|].
  apply (keeps_mono _ (minute_before now)) in Hk; [|done]. pose proof (fleb_self _ _ Hb) as Hbb.
  pose proof (try_acquire_keeps now _ _ Hk) as Ht1. rewrite Ha, Hd in Ht1. destruct Ht1 as (_ & _ & Hlt).
  specialize (Hlt ltac:(done)). rewrite later_app, length_app.
  pose proof (keeps_length _ _ _ Hbb (keeps_drop_expired _ _ _ Hk)).
  pose proof (later_length (minute_before now) [now]) as Hone. cbn [length app] in *. lia.
Qed.

(** ** Examples *)

(** Three starts within a minute, a refused fourth, a restart, and a start once the
    window has passed. *)
Definition sample_starts : list safety_op :=
  [SAdmit (float_of_Z 1000) false; SAdmit (float_of_Z 1020) false; SAdmit (float_of_Z 1040) false;
   SAdmit (float_of_Z 1050) false; SRestart; SSnapshot (float_of_Z 1060)].

Example sample_starts_run :
  (fun '(l, c) => (l, sc_state <$> c))
    (safety_run (sample_starts ++ [SAdmit (float_of_Z 1950) false])
       (mk_IQOptionConnectionSafetyController empty_state Missing))
  = ([float_of_Z 1000; float_of_Z 1020; float_of_Z 1040; float_of_Z 1950],
     Some (mk_PersistentState [float_of_Z 1950] (float_of_Z 0) (Some "IQOPTION_HTTP_LOGIN_LIMIT_REACHED"))).
Proof. vm_compute. reflexivity. Qed.

Lemma logins_are_bounded_witness :
  (length (later (login_boundary (float_of_Z 1950))
    (ps_attempt_epochs empty_state ++ [float_of_Z 1000; float_of_Z 1020; float_of_Z 1040] ++ [float_of_Z 1950])) <= 3)%nat.
Proof.
  eapply (logins_are_bounded Missing (mk_IQOptionConnectionSafetyController empty_state Missing) (float_of_Z 0)
    sample_starts (float_of_Z 1950) false).
  - reflexivity.
  - vm_compute. repeat split.
  - vm_compute. reflexivity.
  - vm_compute. reflexivity.
  - reflexivity.
Defined.

Definition sample_refused : list safety_op :=
  [SAdmit (float_of_Z 1100) false; SRestart; SFailure "IQOPTION_NETWORK_UNREACHABLE" (float_of_Z 1200) true;
   SAdmit (float_of_Z 1899) false].

Definition sample_quarantined : IQOptionConnectionSafetyController :=
  let s := mk_PersistentState [] (float_of_Z 1900) (Some "IQOPTION_AUTH_FAILED") in
  mk_IQOptionConnectionSafetyController s (saved s).

Lemma refusal_quarantines_witness : fst (safety_run sample_refused sample_quarantined) = [].
Proof.
  apply (refusal_quarantines "IQOPTION_AUTH_FAILED" (float_of_Z 1000)
    (mk_IQOptionConnectionSafetyController empty_state Missing) sample_quarantined sample_refused _
    (snd (safety_run sample_refused sample_quarantined))).
  - apply list_elem_of_here.
  - discriminate.
  - vm_compute. reflexivity.
  - apply surjective_pairing.
  - unfold sample_refused. rewrite !Forall_cons. cbn [op_now].
    split_and!; try done; intros t [= <-]; vm_compute; reflexivity.
Defined.

Lemma market_data_budget_is_kept_witness :
  Z.of_nat (length (later (minute_before (float_of_Z 161)) ([float_of_Z 100; float_of_Z 110] ++ [float_of_Z 161]))) <= 2.
Proof.
  eapply (market_data_budget_is_kept 2 None (mk_IQOptionMessageBudget 2 2 []) (float_of_Z 0)
    [float_of_Z 100; float_of_Z 110; float_of_Z 120]).
  - reflexivity.
  - vm_compute. repeat split.
  - vm_compute. reflexivity.
  - vm_compute. reflexivity.
  - reflexivity.
Defined.

(** An integer beyond the range of floats is not reported as an invalid state. *)
Example oversized_epoch_escapes :
  load (Document (PDict [("schema_version", PInt 1); ("attempt_epochs", PList [PInt (10 ^ 400)]);
    ("quarantine_until_epoch", PFloat (float_of_Z 0)); ("last_reason_code", PNull)])) = Err OverflowError.
Proof. vm_compute. reflexivity. Qed.
