(* ===== verification/IqValues.v ===== *)
(** * Decoded JSON values with binary floats

    The IQ Option session decodes JSON with Python's defaults: a number with a fraction
    or an exponent is a [float].  Here [VFloat text] is the float that this text is read
    as.  With [str], truth values and the conversions the worker applies to values. *)

From S2P Require Import Prelude Datetime Dec PyFloat Json DerivJson.
From Stdlib Require Import SpecFloat.

(** ** Floats and their text *)

Definition float_of_dec (d : dec) : float :=
  if 0 <=? dexp d then float_of_ratio (coef d * 10 ^ dexp d) 1 else float_of_ratio (coef d) (10 ^ (- dexp d)).

(** [float(text)] for the text of a JSON number, [NaN] and the infinities. *)
Definition float_of_text (t : string) : float :=
  let negative := str_startswith "-" t in
  match parse_decimal t with
  | Some (Finite d) => if coef d =? 0 then S754_zero negative else float_of_dec d
  | Some Infinite => S754_infinity negative
  | _ => S754_nan
  end.

(** [repr] of a positive float with shortest decimal [coef * 10^exp]. *)
Definition float_digits (coef exp : Z) : string :=
  let digits := decimal coef in
  let point := exp + Z.of_nat (String.length digits) in
  if (-4 <? point) && (point <=? 16) then
    put_point digits point +:+ (if 0 <=? exp then ".0" else "")
  else
    String.substring 0 1 digits
    +:+ (if (String.length digits =? 1)%nat then "" else "." +:+ str_drop 1 digits)
    +:+ "e" +:+ (if point - 1 <? 0 then "-" else "+") +:+ (if Z.abs (point - 1) <? 10 then "0" else "") +:+ decimal (Z.abs (point - 1)).

Definition float_str (x : float) : string :=
  match x with
  | S754_nan => "nan"
  | S754_infinity s => if s then "-inf" else "inf"
  | S754_zero s => if s then "-0.0" else "0.0"
  | S754_finite s _ _ =>
      let d := decimal_of_repr x in (if s then "-" else "") +:+ float_digits (Z.abs (coef d)) (dexp d)
  end.

Example float_texts :
  (fun t => float_str (float_of_text t)) <$>
    ["1.50"; "-0.1"; "100.0"; "1e16"; "1E+22"; "0.00001"; "123456789.125"; "1e400"; "-0.0"; "NaN"; "0.1e1"; "1.25e-120"]
  = ["1.5"; "-0.1"; "100.0"; "1e+16"; "1e+22"; "1e-05"; "123456789.125"; "inf"; "-0.0"; "nan"; "1.0"; "1.25e-120"].
Proof. vm_compute. reflexivity. Qed.

(** ** Values *)

Fixpoint pyrepr (v : json) : string :=
  match v with
  | VNull => "None"
  | VBool b => if b then "True" else "False"
  | VInt n => encode_int n ""
  | VFloat t => float_str (float_of_text t)
  | VStr s => repr_str s
  | VList l => "[" +:+ String.concat ", " (pyrepr <$> l) +:+ "]"
  | VDict d => "{" +:+ String.concat ", " ((fun kv => repr_str (fst kv) +:+ ": " +:+ pyrepr (snd kv)) <$> d) +:+ "}"
  end.

(** [str(v)] *)
Definition pystr (v : json) : string := match v with VStr s => s | _ => pyrepr v end.

(** [bool(v)] *)
Definition pybool (v : json) : bool :=
  match v with
  | VFloat t => match float_of_text t with S754_zero _ => false | _ => true end
  | _ => truthy v
  end.

(** [v == n] *)
Definition eq_number (v : json) (n : Z) : bool :=
  match v with
  | VFloat t => feqb (float_of_text t) (float_of_Z n)
  | _ => match as_int v with Some m => m =? n | None => false end
  end.

(** [v is False] *)
Definition is_false (v : json) : bool := match v with VBool false => true | _ => false end.

(** [int(x)] of a float *)
Definition float_int (x : float) : res Z :=
  match x with
  | S754_nan => Err (ValueError "cannot convert float NaN to integer")
  | S754_infinity _ => Err OverflowError
  | _ => Ok (float_trunc x)
  end.

(** [int(v)] *)
Definition int_value (v : json) : res Z :=
  match v with
  | VInt n => Ok n
  | VBool b => Ok (if b then 1 else 0)
  | VFloat t => float_int (float_of_text t)
  | VStr s => py_int s
  | _ => Err (TypeError "int() argument must be a string, a bytes-like object or a real number")
  end.

(** ** Decimals of values *)

(** The sign in the text of a decimal. *)
Definition negative_text (text : string) : bool :=
  fst (take_sign (str_upper (remove_underscores (str_strip text)))) <? 0.

(** [Decimal(a) > Decimal(b)]: a NaN raises. *)
Definition decimal_gtb (a b : string) : res bool :=
  match py_decimal a, py_decimal b with
  | Ok (Finite x), Ok (Finite y) => Ok (dec_ltb y x)
  | Ok Infinite, Ok Infinite => Ok (negb (negative_text a) && negative_text b)
  | Ok Infinite, Ok (Finite _) => Ok (negb (negative_text a))
  | Ok (Finite _), Ok Infinite => Ok (negative_text b)
  | _, _ => Err InvalidOperation
  end.

(** [str(Decimal(text))] *)
Definition str_decimal (text : string) : string :=
  let sign := if negative_text text then "-" else "" in
  match parse_decimal text with
  | Some (Finite d) => sign +:+ scientific (Z.abs (coef d)) (dexp d)
  | Some Infinite => sign +:+ "Infinity"
  | _ => text
  end.

(** [int(d)] *)
Definition dec_trunc (d : dec) : Z :=
  if 0 <=? dexp d then coef d * 10 ^ dexp d else Z.quot (coef d) (10 ^ (- dexp d)).

(** [int(d * Decimal(100))] *)
Definition to_cents (d : pydec) : res Z :=
  match d with
  | Finite d => Ok (dec_trunc (dec_mul prec d (dec_of_Z 100)))
  | Infinite => Err OverflowError
  | NaN => Err (ValueError "cannot convert NaN to integer")
  | SNaN => Err InvalidOperation
  end.

(** [f"{d:.2f}"] *)
Definition format_cents (d : dec) : string :=
  let c := if -2 <=? dexp d then coef d * 10 ^ (dexp d + 2) else round_div ROUND_HALF_EVEN (coef d) (10 ^ (-2 - dexp d)) in
  (if c <? 0 then "-" else "") +:+ fixed (Z.abs c) (-2).

Example cents_texts : (fun n => format_cents (decimal_amount n)) <$> [1050; 5; 100; 123456] = ["10.50"; "0.05"; "1.00"; "1234.56"].
Proof. vm_compute. reflexivity. Qed.
