(* ===== verification/CentsText.v ===== *)
(** * Amounts as texts

    The text that an amount in cents is sent as reads back as the same amount. *)

From S2P Require Import Prelude Datetime Dec DecVal PyFloat Json Protocol DerivJson IqValues.
From Stdlib Require Import Ascii.

(** ** Texts of digits with a point *)

Definition numeral_char (c : Ascii.ascii) : bool := is_digit c || Ascii.eqb c "."%char.

Lemma numeral_char_plain c :
  numeral_char c = true ->
  is_space c = false /\ c <> "_"%char /\ c <> "+"%char /\ c <> "-"%char /\ ascii_upper c = c /\ is_alpha c = false.
Proof. destruct c as [[] [] [] [] [] [] [] []]; try done; intros _; split_and!; vm_compute; done. Qed.

Section numeral.
Variable s : string.
Hypothesis numeral : str_forall numeral_char s = true.

Lemma numeral_rstrip : rstrip s = s.
Proof.
  revert numeral. induction s as [|c s' IH]; [done|]. intros [Hc Hs]%andb_true_iff. cbn [rstrip]. rewrite (IH Hs).
  destruct (numeral_char_plain c Hc) as (-> & _). by destruct s'.
Qed.

Lemma numeral_strip : str_strip s = s.
Proof.
  unfold str_strip. rewrite numeral_rstrip. revert numeral. destruct s as [|c s']; [done|]. intros [Hc _]%andb_true_iff.
  simpl. by destruct (numeral_char_plain c Hc) as (-> & _).
Qed.

Lemma numeral_underscores : remove_underscores s = s.
Proof.
  revert numeral. induction s as [|c s' IH]; [done|]. intros [Hc Hs]%andb_true_iff. simpl.
  destruct (numeral_char_plain c Hc) as (_ & Hu & _). rewrite bool_decide_false by done. by rewrite IH.
Qed.

Lemma numeral_upper : str_upper s = s.
Proof.
  revert numeral. induction s as [|c s' IH]; [done|]. intros [Hc Hs]%andb_true_iff. simpl.
  destruct (numeral_char_plain c Hc) as (_ & _ & _ & _ & -> & _). by rewrite IH.
Qed.

Lemma numeral_sign : take_sign s = (1, s).
Proof.
  revert numeral. destruct s as [|c s']; [done|]. intros [Hc _]%andb_true_iff. simpl.
  destruct (numeral_char_plain c Hc) as (_ & _ & H1 & H2 & _). by rewrite !bool_decide_false.
Qed.

(** No word starts like it. *)
Lemma numeral_no_word c w : is_alpha c = true -> str_startswith (String c w) s = false /\ s <> String c w.
Proof.
  intros Ha. revert numeral. destruct s as [|d s']; [done|]. intros [Hd _]%andb_true_iff.
  assert (c <> d) as Hne. { intros ->. destruct (numeral_char_plain d Hd) as (_ & _ & _ & _ & _ & H). congruence. }
  split; [|congruence]. unfold str_startswith. simpl. by destruct (Ascii.ascii_dec c d).
Qed.
End numeral.

Lemma take_digits_app a rest acc :
  str_forall is_digit a = true -> match rest with String c _ => is_digit c = false | "" => True end ->
  take_digits acc (a +:+ rest) = (String.length a, digits_value acc a, rest).
Proof.
  intros Ha Hr. revert acc. induction a as [|c a IH]; intros acc.
  - rewrite append_nil_l. destruct rest as [|c r]; [done|]. simpl. unfold is_digit in Hr. by destruct (digit_val c).
  - rewrite append_cons. simpl in *. apply andb_true_iff in Ha as [Hc Ha]. unfold is_digit in Hc.
    destruct (digit_val c) as [d|]; [|done]. by rewrite (IH Ha).
Qed.

Lemma forall_app p a b : str_forall p (a +:+ b) = str_forall p a && str_forall p b.
Proof. induction a as [|c a IH]; [done|]. rewrite append_cons. simpl. by rewrite IH, andb_assoc. Qed.

Lemma digits_numeral a : str_forall is_digit a = true -> str_forall numeral_char a = true.
Proof.
  induction a as [|c a IH]; [done|]. simpl. intros [Hc Ha]%andb_true_iff. unfold numeral_char at 1. by rewrite Hc, IH.
Qed.

Lemma digits_value_app a b acc : digits_value acc (a +:+ b) = digits_value (digits_value acc a) b.
Proof. revert acc. induction a as [|c a IH]; intros acc; [done|]. rewrite append_cons. simpl. apply IH. Qed.

(** Digits, a point and digits. *)
Lemma parse_point a b :
  a <> "" -> str_forall is_digit a = true -> str_forall is_digit b = true ->
  parse_decimal (a +:+ "." +:+ b) = Some (Finite (mk_dec (digits_value 0 (a +:+ b)) (- Z.of_nat (String.length b)))).
Proof.
  intros Hne Ha Hb. set (s := a +:+ "." +:+ b).
  assert (str_forall numeral_char s = true) as Hs.
  { unfold s. rewrite forall_app, (digits_numeral a Ha). rewrite append_cons, append_nil_l. simpl. by apply digits_numeral. }
  unfold parse_decimal. rewrite (numeral_strip s Hs), (numeral_underscores s Hs), (numeral_upper s Hs), (numeral_sign s Hs).
  rewrite !bool_decide_false by (apply numeral_no_word; done). cbn [orb].
  rewrite (proj1 (numeral_no_word s Hs "N" "AN" eq_refl)), (proj1 (numeral_no_word s Hs "S" "NAN" eq_refl)). unfold s.
  rewrite take_digits_app; [|done|rewrite append_cons; done]. rewrite append_cons, append_nil_l.
  rewrite bool_decide_true by done. rewrite <- (append_nil_r b) at 1. rewrite take_digits_app by done.
  destruct a as [|c a]; [done|]. by rewrite digits_value_app, Z.mul_1_l.
Qed.

(** ** Cents *)

Lemma split_at n s :
  (n <= String.length s)%nat ->
  String.substring 0 n s +:+ str_drop n s = s /\ String.length (str_drop n s) = (String.length s - n)%nat
  /\ String.length (String.substring 0 n s) = n.
Proof.
  revert s. induction n as [|n IH]; intros s Hn; [by destruct s|].
  destruct s as [|c s]; simpl in Hn; [lia|]. destruct (IH s ltac:(lia)) as (H1 & H2 & H3). simpl.
  by rewrite append_cons, H1, H2, H3.
Qed.

Lemma zpad_digits w n : str_forall is_digit (zpad w n) = true.
Proof. induction w as [|w IH]; [done|]. cbn [zpad str_forall]. rewrite digit_char_is_digit, IH; [done|]. apply Z.mod_pos_bound. lia. Qed.

Lemma zeros_digits k : str_forall is_digit (zeros k) = true /\ String.length (zeros k) = k /\ digits_value 0 (zeros k) = 0.
Proof. induction k as [|k (H1 & H2 & H3)]; [done|]. simpl. by rewrite H1, H2. Qed.

Lemma parse_fixed c : 0 <= c -> parse_decimal (fixed c (-2)) = Some (Finite (mk_dec c (-2))).
Proof.
  intros Hc. unfold fixed. rewrite andb_false_r. pose proof (decimal_value c Hc) as Hv. pose proof (ndigits_pos c Hc) as Hw.
  assert (str_forall is_digit (decimal c) = true) as Hd by apply zpad_digits.
  assert (1 <= String.length (decimal c))%nat as Hl by (unfold decimal; rewrite length_zpad; lia).
  revert Hv Hd Hl. generalize (decimal c). intros t Hv Hd Hl. unfold put_point.
  destruct (Z.leb_spec (-2 + Z.of_nat (String.length t)) 0).
  - set (k := Z.to_nat _). destruct (zeros_digits k) as (H1 & H2 & H3).
    change ("0." +:+ zeros k +:+ t) with ("0" +:+ "." +:+ (zeros k +:+ t)).
    rewrite parse_point; [|done|done|by rewrite forall_app, H1]. rewrite length_append, H2, !digits_value_app.
    change (digits_value 0 "0") with 0. rewrite H3, Hv. do 2 f_equal. f_equal. lia.
  - destruct (Z.leb_spec (Z.of_nat (String.length t)) (-2 + Z.of_nat (String.length t))); [lia|].
    set (k := Z.to_nat _). destruct (split_at k t ltac:(lia)) as (H1 & H2 & H3).
    rewrite <- H1 in Hd. rewrite forall_app in Hd. apply andb_true_iff in Hd as [Hd1 Hd2].
    rewrite parse_point; [|intros E; rewrite E in H3; simpl in H3; lia|done|done]. rewrite H1, Hv, H2.
    do 2 f_equal. f_equal. lia.
Qed.

Lemma strip_zeros_exact f c e k :
  0 < c -> e + Z.of_nat k <= 0 -> (k <= f)%nat ->
  let d := strip_zeros f (c * 10 ^ Z.of_nat k) e 0 in
  e + Z.of_nat k <= dexp d /\ coef d * 10 ^ (dexp d - (e + Z.of_nat k)) = c /\ 0 < coef d <= c.
Proof.
  cbv zeta. revert k c e. induction f as [|f IH]; intros k c e Hc He Hf.
  - replace k with 0%nat by lia. simpl. rewrite Z.mul_1_r, Z.add_0_r, Z.sub_diag. lia.
  - simpl. destruct k as [|k].
    + rewrite Z.mul_1_r, Z.add_0_r in *. destruct (_ && _) eqn:E; [|simpl; rewrite Z.sub_diag; lia].
      apply andb_true_iff in E as [E1%Z.ltb_lt E2%Z.eqb_eq]. pose proof (Z.div_mod c 10 ltac:(lia)) as Hdm.
      specialize (IH 0%nat (c / 10) (e + 1)). rewrite Z.mul_1_r, Z.add_0_r in IH. destruct IH as (H1 & H2 & H3); [lia..|].
      split; [lia|]. replace (dexp _ - e) with (dexp (strip_zeros f (c / 10) (e + 1) 0) - (e + 1) + 1) by lia.
      rewrite Z.pow_add_r by lia. lia.
    + rewrite pow10_S. rewrite (proj2 (Z.ltb_lt e 0)) by lia.
      replace (c * (10 * 10 ^ Z.of_nat k)) with (c * 10 ^ Z.of_nat k * 10) by lia.
      rewrite Z.mod_mul, Z.div_mul by lia. simpl. replace (e + Z.of_nat (S k)) with (e + 1 + Z.of_nat k) by lia.
      apply IH; lia.
Qed.

(** The amount as a decimal, below the precision of the context. *)
Lemma decimal_amount_exact n :
  0 < n < 10 ^ prec -> let d := decimal_amount n in -2 <= dexp d /\ coef d * 10 ^ (dexp d + 2) = n.
Proof.
  intros [Hn Hp]. cbv zeta. unfold decimal_amount, dec_div, dec_of_Z. cbn [coef dexp]. change (ndigits 100) with 3.
  pose proof (ndigits_le n prec Hn ltac:(done) Hp) as Hd. destruct (ndigits_spec n Hn) as [_ Hd1]. unfold prec in *.
  set (shift := 3 - ndigits n + 28 + 1). assert (4 <= shift) as Hs by lia.
  rewrite (proj2 (Z.leb_le 0 shift)) by lia.
  replace (n * 10 ^ shift) with (n * 10 ^ Z.of_nat (Z.to_nat (shift - 2)) * 100);
    [|rewrite Z2Nat.id by lia; replace shift with (shift - 2 + 2) at 2 by lia; rewrite Z.pow_add_r by lia; lia].
  rewrite Z.mod_mul, Z.div_mul by lia. change (0 =? 0) with true. cbv iota.
  destruct (strip_zeros_exact (Z.to_nat (0 - 0 - (0 - 0 - shift))) n (0 - 0 - shift) (Z.to_nat (shift - 2))) as (H1 & H2 & H3); [lia..|].
  change (0 - 0) with 0 in *. unfold dec_fix. set (d := strip_zeros _ _ _ _) in *.
  pose proof (ndigits_le (coef d) 28 ltac:(lia) ltac:(lia) ltac:(lia)). rewrite (proj2 (Z.leb_le _ 0)) by lia.
  rewrite Z2Nat.id in H1, H2 by lia. split; [lia|]. replace (dexp d + 2) with (dexp d - (0 - shift + (shift - 2))) by lia. exact H2.
Qed.

(** The text of an amount in cents names it exactly. *)
Lemma cents_text_roundtrip n :
  0 < n < 10 ^ prec -> py_decimal (format_cents (decimal_amount n)) = Ok (Finite (mk_dec n (-2))).
Proof.
  intros Hn. destruct (decimal_amount_exact n Hn) as [H1 H2]. unfold format_cents, py_decimal.
  rewrite (proj2 (Z.leb_le (-2) _) H1), H2, (proj2 (Z.ltb_ge n 0)), Z.abs_eq, append_nil_l by lia.
  by rewrite parse_fixed by lia.
Qed.
