(* ===== verification/Market.v ===== *)
(** * Market data of the domain

    [packages/domain/market.py]: proposal quotes, candles, the clock and the balance of a
    broker account. *)

From S2P Require Import Prelude Datetime Dec PyFloat Json Domain Protocol DerivJson DerivTransport IqValues.

(** ** Quotes *)

Record BrokerProposalQuote : Type := mk_BrokerProposalQuote {
  pq_broker : Broker; pq_broker_symbol : string; pq_contract_type : string; pq_barrier : option Z;
  pq_ask_price : Money; pq_payout : Money; pq_proposal_id : string; pq_received_monotonic : float;
  pq_payout_return_ratio : dec
}.

(** [BrokerProposalQuote.__post_init__]; the ratio is finite by its type. *)
Definition BrokerProposalQuote_post_init (q : BrokerProposalQuote) : res BrokerProposalQuote :=
  _ ← guard_res (nonblank (pq_broker_symbol q) && nonblank (pq_contract_type q))
        (ValueError "proposal quote identity is required");
  _ ← guard_res (match pq_barrier q with Some b => in_range 0 b 9 | None => true end)
        (ValueError "proposal quote barrier is invalid");
  _ ← guard_res (String.eqb (currency (pq_ask_price q)) (currency (pq_payout q)))
        (ValueError "proposal quote currency mismatch");
  _ ← guard_res ((0 <? minor_units (pq_ask_price q)) && (minor_units (pq_ask_price q) <? minor_units (pq_payout q)))
        (ValueError "proposal quote prices are invalid");
  _ ← guard_res (nonblank (pq_proposal_id q)) (ValueError "proposal id is required");
  _ ← guard_res (negb (fltb (pq_received_monotonic q) (float_of_Z 0)))
        (ValueError "proposal monotonic timestamp is invalid");
  _ ← guard_res (0 <? coef (pq_payout_return_ratio q)) (ValueError "proposal payout return ratio is invalid");
  Ok q.

(** ** Fields of payloads *)

Definition market_str (payload : obj) (name : string) : res string :=
  match get payload name with
  | VStr s => if nonblank s then Ok s else Err (ValueError (name +:+ " must be a non-empty string"))
  | _ => Err (ValueError (name +:+ " must be a non-empty string"))
  end.

Definition market_int (payload : obj) (name : string) : res Z :=
  match get payload name with VInt n => Ok n | _ => Err (ValueError (name +:+ " must be an integer")) end.

Definition market_decimal (v : json) (name : string) (positive : bool) : res dec :=
  match v with
  | VStr s =>
      match parse_decimal s with
      | Some (Finite d) =>
          if positive && (coef d <=? 0) then Err (ValueError (name +:+ " is outside the valid decimal range")) else Ok d
      | Some _ => Err (ValueError (name +:+ " is outside the valid decimal range"))
      | None => Err (ValueError (name +:+ " is not a decimal"))
      end
  | _ => Err (ValueError (name +:+ " must use a decimal string"))
  end.

Definition market_datetime (payload : obj) (name : string) : res datetime :=
  s ← market_str payload name; fromisoformat s.

Definition market_broker (payload : obj) : res Broker :=
  s ← market_str payload "broker"; of_value s.

(** ** Ticks *)

Record MarketTick : Type := mk_MarketTick {
  mt_broker : Broker; mt_broker_symbol : string; mt_epoch : Z; mt_quote : dec; mt_received_at : datetime;
  mt_subscription_id : string; mt_source : string
}.

(** [MarketTick.__post_init__]; the quote is finite by its type. *)
Definition MarketTick_post_init (t : MarketTick) : res MarketTick :=
  _ ← require_aware_utc (mt_received_at t) "received_at";
  _ ← guard_res ((0 <? mt_epoch t) && negb (String.eqb (mt_broker_symbol t) "") && negb (String.eqb (mt_subscription_id t) ""))
        (ValueError "tick identity and timestamp are required");
  _ ← guard_res (0 <? coef (mt_quote t)) (ValueError "tick quote must be a positive finite decimal");
  Ok t.

Definition MarketTick_to_payload (t : MarketTick) : obj :=
  [("broker", VStr (value (mt_broker t))); ("broker_symbol", VStr (mt_broker_symbol t)); ("epoch", VInt (mt_epoch t));
   ("quote", VStr (dec_str (mt_quote t))); ("received_at", VStr (isoformat (mt_received_at t)));
   ("subscription_id", VStr (mt_subscription_id t)); ("source", VStr (mt_source t))].

Definition MarketTick_from_payload (payload : obj) : res MarketTick :=
  broker ← market_broker payload;
  symbol ← market_str payload "broker_symbol";
  epoch ← market_int payload "epoch";
  quote ← market_decimal (get payload "quote") "quote" true;
  received_at ← market_datetime payload "received_at";
  subscription_id ← market_str payload "subscription_id";
  source ← market_str payload "source";
  MarketTick_post_init (mk_MarketTick broker symbol epoch quote received_at subscription_id source).

(** ** Candles *)

Record MarketCandle : Type := mk_MarketCandle {
  mc_broker : Broker; mc_broker_symbol : string; mc_timeframe_seconds : Z; mc_open_time : datetime;
  mc_close_time : datetime; mc_open : dec; mc_high : dec; mc_low : dec; mc_close : dec; mc_is_closed : bool
}.

(** [MarketCandle.__post_init__]; the prices are finite by their type. *)
Definition MarketCandle_post_init (c : MarketCandle) : res MarketCandle :=
  _ ← require_aware_utc (mc_open_time c) "open_time";
  _ ← require_aware_utc (mc_close_time c) "close_time";
  _ ← guard_res (negb (String.eqb (mc_broker_symbol c) "") && (0 <? mc_timeframe_seconds c))
        (ValueError "candle identity and timeframe are required");
  _ ← guard_res (dt_ltb (mc_open_time c) (mc_close_time c)) (ValueError "candle close_time must follow open_time");
  _ ← guard_res (forallb (fun d => 0 <? coef d) [mc_open c; mc_high c; mc_low c; mc_close c])
        (ValueError "candle prices must be positive finite decimals");
  _ ← guard_res (dec_leb (mc_low c) (mc_open c) && dec_leb (mc_open c) (mc_high c)
                 && dec_leb (mc_low c) (mc_close c) && dec_leb (mc_close c) (mc_high c))
        (ValueError "candle OHLC range is inconsistent");
  Ok c.

Definition MarketCandle_to_payload (c : MarketCandle) : obj :=
  [("broker", VStr (value (mc_broker c))); ("broker_symbol", VStr (mc_broker_symbol c));
   ("timeframe_seconds", VInt (mc_timeframe_seconds c)); ("open_time", VStr (isoformat (mc_open_time c)));
   ("close_time", VStr (isoformat (mc_close_time c))); ("open", VStr (dec_str (mc_open c)));
   ("high", VStr (dec_str (mc_high c))); ("low", VStr (dec_str (mc_low c))); ("close", VStr (dec_str (mc_close c)));
   ("is_closed", VBool (mc_is_closed c))].

Definition MarketCandle_from_payload (payload : obj) : res MarketCandle :=
  closed ← match get payload "is_closed" with VBool b => Ok b | _ => Err (ValueError "is_closed must be a boolean") end;
  broker ← market_broker payload;
  symbol ← market_str payload "broker_symbol";
  timeframe ← market_int payload "timeframe_seconds";
  open_time ← market_datetime payload "open_time";
  close_time ← market_datetime payload "close_time";
  open ← market_decimal (get payload "open") "open" true;
  high ← market_decimal (get payload "high") "high" true;
  low ← market_decimal (get payload "low") "low" true;
  close ← market_decimal (get payload "close") "close" true;
  MarketCandle_post_init (mk_MarketCandle broker symbol timeframe open_time close_time open high low close closed).

(** ** Batches of history *)

Record MarketHistoryBatch : Type := mk_MarketHistoryBatch {
  hb_response_message_id : string; hb_correlation_id : string; hb_causation_id : string; hb_ticks : list MarketTick;
  hb_candles : list MarketCandle
}.

Definition MarketHistoryBatch_post_init (b : MarketHistoryBatch) : res MarketHistoryBatch :=
  _ ← guard_res (forallb nonblank [hb_response_message_id b; hb_correlation_id b; hb_causation_id b])
        (ValueError "market history batch routing identity is required");
  Ok b.

(** ** The clock *)

Record BrokerClockSnapshot : Type := mk_BrokerClockSnapshot {
  bc_server_epoch : Z; bc_local_received_at : datetime; bc_round_trip_seconds : float;
  bc_estimated_offset_seconds : dec
}.

Definition BrokerClockSnapshot_post_init (c : BrokerClockSnapshot) : res BrokerClockSnapshot :=
  _ ← require_aware_utc (bc_local_received_at c) "local_received_at";
  _ ← guard_res ((0 <? bc_server_epoch c) && negb (fltb (bc_round_trip_seconds c) (float_of_Z 0)))
        (ValueError "clock snapshot values are invalid");
  Ok c.

(** [int(Decimal(str(x)) * 1000)] and [int(d * 1000)] *)
Definition milliseconds (d : dec) : Z := dec_trunc (dec_mul prec d (dec_of_Z 1000)).

Definition round_trip_milliseconds (c : BrokerClockSnapshot) : Z :=
  Z.max 0 (milliseconds (decimal_of_repr (bc_round_trip_seconds c))).
Definition offset_milliseconds (c : BrokerClockSnapshot) : Z := milliseconds (bc_estimated_offset_seconds c).

Definition is_trusted (max_round_trip_ms max_absolute_offset_ms : Z) (c : BrokerClockSnapshot) : res bool :=
  _ ← guard_res (0 <? Z.min max_round_trip_ms max_absolute_offset_ms)
        (ValueError "clock trust thresholds must be positive");
  Ok ((round_trip_milliseconds c <=? max_round_trip_ms) && (Z.abs (offset_milliseconds c) <=? max_absolute_offset_ms)).

Definition is_synced (c : BrokerClockSnapshot) : bool :=
  (round_trip_milliseconds c <=? 1000) && (Z.abs (offset_milliseconds c) <=? 2000).

(** [datetime.fromtimestamp(n, tz=UTC)] of an integer *)
Definition epoch_datetime : datetime := mk_datetime 1970 1 1 0 0 0 0 (Some 0).
Definition fromtimestamp (n : Z) : res datetime :=
  if in_range (-62135596800) n 253402300799 then Ok (add_usec epoch_datetime (n * 1000000))
  else if in_range (- 2 ^ 63) n (2 ^ 63 - 1) then Err (ValueError "year is out of range")
  else Err OverflowError.

Definition BrokerClockSnapshot_to_payload (c : BrokerClockSnapshot) : res obj :=
  server_time ← fromtimestamp (bc_server_epoch c);
  Ok [("server_epoch", VInt (bc_server_epoch c)); ("server_time_utc", VStr (isoformat server_time));
      ("local_received_at", VStr (isoformat (bc_local_received_at c)));
      ("round_trip_seconds", VFloat (float_str (bc_round_trip_seconds c)));
      ("round_trip_milliseconds", VInt (round_trip_milliseconds c));
      ("estimated_offset_seconds", VStr (dec_str (bc_estimated_offset_seconds c)));
      ("offset_milliseconds", VInt (offset_milliseconds c)); ("is_synced", VBool (is_synced c))].

(** ** The balance *)

Record BrokerAccountBalance : Type := mk_BrokerAccountBalance {
  bb_balance_minor_units : Z; bb_currency : string; bb_account_type : string; bb_observed_at_utc : datetime
}.

(** [BrokerAccountBalance.__post_init__] *)
Definition new_BrokerAccountBalance (minor : Z) (currency account_type : string) (observed : datetime)
    : res BrokerAccountBalance :=
  _ ← require_aware_utc observed "observed_at_utc";
  let normalized_currency := str_upper (str_strip currency) in
  _ ← guard_res ((String.length normalized_currency =? 3)%nat && ascii_text normalized_currency)
        (ValueError "balance currency is invalid");
  _ ← guard_res (is_in account_type ["DEMO"; "REAL"]) (ValueError "account type must be DEMO or REAL");
  Ok (mk_BrokerAccountBalance minor normalized_currency account_type observed).

Definition BrokerAccountBalance_to_payload (b : BrokerAccountBalance) : obj :=
  [("account_type", VStr (bb_account_type b)); ("balance_minor_units", VInt (bb_balance_minor_units b));
   ("currency", VStr (bb_currency b)); ("observed_at_utc", VStr (isoformat (bb_observed_at_utc b)))].

Definition BrokerAccountBalance_from_payload (payload : obj) : res BrokerAccountBalance :=
  minor ← market_int payload "balance_minor_units";
  currency ← market_str payload "currency";
  account_type ← market_str payload "account_type";
  observed ← market_datetime payload "observed_at_utc";
  new_BrokerAccountBalance minor currency account_type observed.
