(* ===== verification/IqTransport.v ===== *)
(** * The IQ Option session

    [packages/brokers/iqoption/community_read_only.py] without the HTTP login and the
    candles: frames of the reader, requests, matching of contracts, connecting.

    The connection is an argument: what [send] does ([iq_send_outcomes], one per call),
    and the frames that the reader takes while a call waits.  [iq_sent] is what was handed
    to the connection, [iq_logins] the number of HTTP logins and [iq_reconnects] the
    readings at which a reconnect was admitted.  A document is recorded
    before it is encoded; [VFloat] stands for the number token of a [Decimal].  The
    timeouts of the callers are positive. *)

From S2P Require Import Prelude Datetime Dec PyFloat FloatOrder Domain Json DerivJson DerivTransport IqValues Market.

Inductive IQOptionAccountMode : Type := PRACTICE | REAL.

#[export] Instance IQOptionAccountMode_eq_dec : EqDecision IQOptionAccountMode.
Proof. solve_decision. Defined.

Definition balance_type (m : IQOptionAccountMode) : Z := match m with PRACTICE => 4 | REAL => 1 end.

Definition IQOPTION_WEBSOCKET_RECONNECT_LIMIT : nat := 5.
Definition IQOPTION_WEBSOCKET_RECONNECT_WINDOW_SECONDS : float := float_of_Z 900.

Definition IQOPTION_ACTIVE_IDS : list (string * Z) :=
  [("EURUSD", 1); ("EURJPY", 4); ("GBPUSD", 5); ("USDJPY", 6); ("AUDCAD", 7); ("NZDUSD", 8); ("USDCHF", 72);
   ("EURUSD-OTC", 76); ("USDCHF-OTC", 78); ("EURJPY-OTC", 79); ("NZDUSD-OTC", 80); ("GBPUSD-OTC", 81);
   ("GBPJPY-OTC", 84); ("USDJPY-OTC", 85); ("AUDCAD-OTC", 86); ("AUDUSD", 99); ("USDCAD", 100)].

(** [iq_pending] maps a request to the content of its queue, which holds one item;
    [iq_reader_running] is whether the reader thread is alive. *)
Record IQOptionCommunityReadOnlySession : Type := mk_IQOptionCommunityReadOnlySession {
  iq_account_mode : IQOptionAccountMode; iq_websocket : bool; iq_stop : bool; iq_disconnected : bool;
  iq_reader_running : bool; iq_session_cookie : option string; iq_reconnect_epochs : list float;
  iq_authenticated : bool; iq_profile : option obj; iq_balances : option (list obj); iq_server_epoch : option Z;
  iq_connect_round_trip : float;
  iq_pending : list (string * option obj); iq_contract_events : list obj; iq_betinfo_responses : list obj;
  iq_options_responses : list obj; iq_sent : list obj; iq_send_outcomes : list (option exn); iq_logins : nat; iq_reconnects : list float
}.

#[export] Instance IQOptionCommunityReadOnlySession_eta : Eta IQOptionCommunityReadOnlySession := fun s =>
  mk_IQOptionCommunityReadOnlySession (iq_account_mode s) (iq_websocket s) (iq_stop s) (iq_disconnected s)
    (iq_reader_running s) (iq_session_cookie s) (iq_reconnect_epochs s) (iq_authenticated s) (iq_profile s)
    (iq_balances s) (iq_server_epoch s) (iq_connect_round_trip s) (iq_pending s) (iq_contract_events s) (iq_betinfo_responses s)
    (iq_options_responses s) (iq_sent s) (iq_send_outcomes s) (iq_logins s) (iq_reconnects s).

Definition new_session (mode : IQOptionAccountMode) (outcomes : list (option exn)) : IQOptionCommunityReadOnlySession :=
  mk_IQOptionCommunityReadOnlySession mode false false false false None [] false None None None
    (float_of_Z 0) [] [] [] [] [] outcomes 0 [].

Abbreviation iq A := (py IQOptionCommunityReadOnlySession A).

Definition external {A} (reason : string) : iq A := py_raise (IQOptionExternalError reason).

Definition is_connected (s : IQOptionCommunityReadOnlySession) : bool :=
  iq_authenticated s && iq_websocket s && negb (iq_disconnected s).

(** [RuntimeError] and its subclasses *)
Definition is_runtime_exception (e : exn) : bool :=
  match e with
  | RuntimeError _ | RecursionError | IQOptionWorkerError _ _ | IQOptionExternalError _
  | IQOptionConnectionSafetyStateError _ => true
  | _ => false
  end.

(** [WebSocketException], [OSError], [RuntimeError] *)
Definition is_connection_exception (e : exn) : bool := is_network_exception e || is_runtime_exception e.

(** ** Sending *)

(** [_send] *)
Definition iq_send (payload : obj) : iq unit := fun s =>
  if negb (iq_websocket s) then (Err (IQOptionExternalError "IQOPTION_WEBSOCKET_UNAVAILABLE"), s)
  else
    let outcome := match iq_send_outcomes s with [] => None | o :: _ => o end in
    let s := s <| iq_sent ::= fun l => l ++ [payload] |> <| iq_send_outcomes ::= tail |> in
    match outcome with
    | None => (Ok tt, s)
    | Some e =>
        if is_connection_exception e
        then (Err (IQOptionExternalError "IQOPTION_WEBSOCKET_UNAVAILABLE"), s <| iq_disconnected := true |>)
        else (Err e, s)
    end.

Definition message (name : string) (body : obj) (request_id : string) : obj :=
  [("name", VStr "sendMessage"); ("msg", VDict (("name", VStr name) :: body)); ("request_id", VStr request_id)].

Definition request_account_snapshot : iq unit :=
  _ ← iq_send (message "get-profile" [("version", VStr "1.0"); ("body", VDict [])] "iqoption-read-profile");
  iq_send (message "get-balances" [("version", VStr "1.0"); ("body", VDict [])] "iqoption-read-balances").

(** ** Frames *)

(** [_route_pending] *)
Definition route_pending (m : obj) (s : IQOptionCommunityReadOnlySession) : IQOptionCommunityReadOnlySession :=
  match get m "request_id" with
  | VStr id =>
      if String.eqb id "" then s
      else s <| iq_pending ::= fun l =>
                  (fun p => if String.eqb (fst p) id
                            then (fst p, match snd p with Some r => Some r | None => Some m end) else p) <$> l |>
  | _ => s
  end.

(** [_normalize_contract_event] *)
Definition normalize_contract_event (name : string) (raw : json) : res (option obj) :=
  match raw with
  | VDict raw =>
      match get_or raw "option_id" (get raw "id") with
      | VNull => Ok None
      | option_id =>
          let normalized := dict_set "id" option_id raw in
          if String.eqb name "option-opened" then Ok (Some (dict_set "status" (VStr "open") normalized))
          else
            let amount := pystr (get_or raw "amount" (VStr "0")) in
            let profit := pystr (get_or raw "profit_amount" (get_or raw "win_amount" (VStr "0"))) in
            match py_decimal amount, py_decimal profit with
            | Ok _, Ok _ =>
                won ← decimal_gtb profit amount;
                let status := if won : bool then "win" else "loose" in
                Ok (Some (dict_set "win_amount" (VStr (str_decimal profit))
                            (dict_set "win" (VStr status) (dict_set "status" (VStr status) normalized))))
            | _, _ => Ok None
            end
      end
  | _ => Ok None
  end.

(** [put_nowait] on a bounded queue; a full queue marks the session as disconnected. *)
Definition put_or_disconnect (maxsize : nat) (q : list obj) (m : obj)
    (store : list obj -> IQOptionCommunityReadOnlySession -> IQOptionCommunityReadOnlySession) : iq unit :=
  py_modify (fun s => if (length q <? maxsize)%nat then store (q ++ [m]) s else s <| iq_disconnected := true |>).

(** The time of a [timeSync] frame. *)
Definition time_sync (v : json) : iq unit :=
  let raw_epoch := match v with
                   | VDict d => if pybool (get d "server_time") then get d "server_time" else get d "time"
                   | _ => v
                   end in
  match raw_epoch with
  | VInt _ | VFloat _ =>
      epoch ← py_lift (int_value raw_epoch);
      let epoch := if 100000000000 <? epoch then epoch / 1000 else epoch in
      py_modify (fun s => if 0 <? epoch then s <| iq_server_epoch := Some epoch |> else s)
  | _ => mret tt
  end.

(** The branches of [_handle_message] on the name of a frame. *)
Definition handle_named (m : obj) : iq unit := fun s =>
  let name := get m "name" in
  let msg := get m "msg" in
  if eq_str name "api_game_betinfo_result" then
    put_or_disconnect 4 (iq_betinfo_responses s) m (fun q s => s <| iq_betinfo_responses := q |>) s
  else if eq_str name "options" then
    put_or_disconnect 4 (iq_options_responses s) m (fun q s => s <| iq_options_responses := q |>) s
  else if eq_str name "authenticated" then
    if pybool msg then (Ok tt, s <| iq_authenticated := true |>)
    else (Err (IQOptionExternalError "IQOPTION_AUTH_FAILED"), s)
  else if eq_str name "heartbeat" then iq_send [("name", VStr "heartbeat"); ("msg", msg)] s
  else if eq_str name "profile" then
    (Ok tt, match msg with VDict ((_ :: _) as p) => s <| iq_profile := Some p |> | _ => s end)
  else if eq_str name "balances" then
    (Ok tt, match msg with VList l => s <| iq_balances := Some (omap as_dict l) |> | _ => s end)
  else if negb (hashable name) then (Err (TypeError "unhashable type"), s)
  else if eq_str name "timeSync" || eq_str name "timesync" then time_sync msg s
  else
    match name with
    | VStr n =>
        if String.eqb n "option-opened" || String.eqb n "option-closed" then
          match normalize_contract_event n msg with
          | Err e => (Err e, s)
          | Ok None => (Ok tt, s)
          | Ok (Some event) =>
              put_or_disconnect 256 (iq_contract_events s) [("name", VStr n); ("msg", VDict event)]
                (fun q s => s <| iq_contract_events := q |>) s
          end
        else (Ok tt, s)
    | _ => (Ok tt, s)
    end.

(** [_handle_message] on a decoded text. *)
Definition handle_message (depth : nat) (raw : string) : iq unit :=
  match json_loads depth raw with
  | inr JSONDecodeError => mret tt
  | inr DigitLimit => py_raise (ValueError "Exceeds the limit for integer string conversion")
  | inr RecursionLimit => py_raise RecursionError
  | inl (VDict m) => _ ← py_modify (route_pending m); handle_named m
  | inl _ => mret tt
  end.

(** What [recv] does: a frame, [TimeoutError], or another exception. *)
Inductive received : Type :=
| Frame (raw : string)
| NoFrame
| Broken (e : exn).

(** One iteration of [_reader_loop].  An exception that the loop does not handle ends the
    thread without a trace. *)
Definition iq_reader_iteration (depth : nat) (r : received) (s : IQOptionCommunityReadOnlySession)
    : IQOptionCommunityReadOnlySession :=
  let ended e s := if is_connection_exception e
                   then s <| iq_disconnected := true |> <| iq_reader_running := false |>
                   else s <| iq_reader_running := false |> in
  if iq_stop s then s <| iq_reader_running := false |>
  else match r with
       | NoFrame => s
       | Broken e => ended e s
       | Frame raw => match handle_message depth raw s with (Ok _, s) => s | (Err e, s) => ended e s end
       end.

Fixpoint iq_reader_loop (depth : nat) (rs : list received) (s : IQOptionCommunityReadOnlySession)
    : IQOptionCommunityReadOnlySession :=
  match rs with
  | [] => s
  | r :: rs => if iq_reader_running s then iq_reader_loop depth rs (iq_reader_iteration depth r s) else s
  end.

(** [queue.get(timeout)] while the reader works through the frames of the waiting time. *)
Fixpoint wait_for (depth : nat) (look : IQOptionCommunityReadOnlySession -> option obj) (rs : list received)
    (s : IQOptionCommunityReadOnlySession) : option obj * IQOptionCommunityReadOnlySession :=
  match look s with
  | Some m => (Some m, s)
  | None =>
      match rs with
      | [] => (None, s)
      | r :: rs => if iq_reader_running s then wait_for depth look rs (iq_reader_iteration depth r s) else (None, s)
      end
  end.

(** ** Requests *)

(** What happens around a request: its fresh id, and what the reader receives before the
    timeout. *)
Record iq_exchange : Type := mk_iq_exchange { ix_request_id : string; ix_received : list received }.

Definition websocket_unavailable : exn := IQOptionExternalError "IQOPTION_WEBSOCKET_UNAVAILABLE".
Definition request_timeout : exn := IQOptionExternalError "IQOPTION_REQUEST_TIMEOUT".

(** [_selected_balance] *)
Definition selected_balance : iq obj := fun s =>
  match List.find (fun b => eq_number (get b "type") (balance_type (iq_account_mode s))) (default [] (iq_balances s)) with
  | Some b => (Ok b, s)
  | None => (Err (IQOptionExternalError "IQOPTION_ACCOUNT_MODE_UNAVAILABLE"), s)
  end.

(** The id of the selected balance, an [int] that is not a [bool]. *)
Definition selected_balance_id : iq Z :=
  balance ← selected_balance;
  match get balance "id" with
  | VInt id => mret id
  | _ => external "IQOPTION_BALANCE_ID_INVALID"
  end.

(** The content of the queue of a pending request. *)
Definition pending_response (id : string) (s : IQOptionCommunityReadOnlySession) : option obj :=
  List.find (fun p => String.eqb (fst p) id) (iq_pending s) ≫= snd.

Definition forget_pending (id : string) (s : IQOptionCommunityReadOnlySession) : IQOptionCommunityReadOnlySession :=
  s <| iq_pending ::= List.filter (fun p => negb (String.eqb (fst p) id)) |>.

Definition wait_or_timeout (depth : nat) (look : IQOptionCommunityReadOnlySession -> option obj) (rs : list received)
    : iq obj := fun s =>
  match wait_for depth look rs s with
  | (Some m, s) => (Ok m, s)
  | (None, s) => (Err request_timeout, s)
  end.

(** [_request_message]; [payload] may fail to encode. *)
Definition request_message (depth : nat) (x : iq_exchange) (payload : res obj) (expected : string) : iq obj :=
  connected ← py_gets is_connected;
  _ ← py_guard connected websocket_unavailable;
  let id := ix_request_id x in
  _ ← py_modify (fun s => s <| iq_pending ::= fun l => l ++ [(id, None)] |>);
  response ← py_finally
    (payload ← py_lift payload;
     _ ← iq_send (payload ++ [("request_id", VStr id)]);
     wait_or_timeout depth (pending_response id) (ix_received x)) (forget_pending id);
  _ ← py_guard (String.eqb (pystr (get response "name")) expected) (IQOptionExternalError "IQOPTION_RESPONSE_UNEXPECTED");
  mret response.

(** [get_clock().server_epoch] *)
Definition clock_epoch : iq Z :=
  epoch ← py_gets iq_server_epoch;
  match epoch with Some n => mret n | None => external "IQOPTION_CLOCK_UNAVAILABLE" end.

Definition binary_expiration (duration : Z) : iq Z :=
  _ ← py_guard (duration =? 1) (IQOptionExternalError "IQOPTION_DURATION_UNSUPPORTED");
  server_epoch ← clock_epoch;
  let seconds := server_epoch mod 60 in
  let minutes_ahead := if seconds <? 30 then 1 else 2 in
  mret (server_epoch - seconds + minutes_ahead * 60).

Definition active_id (symbol : string) : res Z :=
  match List.find (fun p => String.eqb (fst p) (str_upper symbol)) IQOPTION_ACTIVE_IDS with
  | Some (_, id) => Ok id
  | None => Err (IQOptionExternalError "IQOPTION_SYMBOL_UNSUPPORTED")
  end.

(** The price in a document: only a finite one can be encoded. *)
Definition price_token (price : pydec) : res json :=
  match price with
  | Finite d => Ok (VFloat ((if coef d <? 0 then "-" else "") +:+ fixed (Z.abs (coef d)) (dexp d)))
  | _ => Err (ValueError "non-finite decimal is not valid JSON")
  end.

Definition open_option (price : json) (active expiry : Z) (direction : string) (balance_id : Z) : obj :=
  [("name", VStr "sendMessage");
   ("msg", VDict [("name", VStr "binary-options.open-option"); ("version", VStr "1.0");
      ("body", VDict [("price", price); ("active_id", VInt active); ("expired", VInt expiry);
         ("direction", VStr direction); ("option_type_id", VInt 3); ("user_balance_id", VInt balance_id)])])].

Definition order_invalid : obj := [("status", VBool false); ("reason", VStr "IQOPTION_ORDER_INVALID")].

(** [price <= 0] *)
Definition not_positive (text : string) (price : pydec) : res bool :=
  match price with
  | Finite d => Ok (coef d <=? 0)
  | Infinite => Ok (negative_text text)
  | NaN | SNaN => Err InvalidOperation
  end.

(** The answer of the broker to an open-option message. *)
Definition open_answer (response : obj) : iq obj :=
  match get response "msg" with
  | VDict raw =>
      match get raw "id" with
      | VNull => mret [("status", VBool false);
                       ("reason", VStr (pystr (get_or raw "message" (VStr "IQOPTION_ORDER_REJECTED"))))]
      | id => mret [("status", VBool true); ("id", VStr (pystr id)); ("result", VDict raw)]
      end
  | _ => external "IQOPTION_ORDER_RESPONSE_INVALID"
  end.

(** [_buy_binary_option] *)
Definition buy_binary_option (depth : nat) (x : iq_exchange) (msg : obj) : iq obj :=
  let symbol := pystr (get_or msg "active" (VStr "")) in
  let direction := str_lower (pystr (get_or msg "direction" (VStr ""))) in
  let price_text := pystr (get_or msg "price" (VStr "0")) in
  price ← py_lift (py_decimal price_text);
  duration ← py_lift (int_value (get_or msg "duration" (VInt 1)));
  if negb (is_in direction ["call"; "put"]) then mret order_invalid
  else
    refused ← py_lift (not_positive price_text price);
    if refused || negb (duration =? 1) then mret order_invalid
    else
      balance_id ← selected_balance_id;
      expiry ← binary_expiration duration;
      active ← py_lift (active_id symbol);
      response ← request_message depth x
        (token ← price_token price; Ok (open_option token active expiry direction balance_id)) "option";
      open_answer response.

(** ** Contracts in answers *)

(** The id of a contract document that is the wanted one. *)
Definition exact_id (raw : obj) (wanted_id : string) : option json :=
  let item_id := get_or raw "id" (get_or raw "option_id" (get raw "contract_id")) in
  let candidates := match item_id with VList l => l | v => [v] end in
  match List.find (fun v => String.eqb (pystr v) wanted_id) candidates with
  | Some VNull => None
  | r => r
  end.

Definition CONTAINER_KEYS : list string := ["result"; "data"; "options"; "open_options"; "closed_options"; "option"].

(** [{**a, **b}] *)
Definition dict_merge (a b : obj) : obj := foldl (fun d kv => dict_set (fst kv) (snd kv) d) a b.

Fixpoint first_some {A B} (f : A -> option B) (l : list A) : option B :=
  match l with
  | [] => None
  | a :: l => match f a with Some b => Some b | None => first_some f l end
  end.

(** [_find_exact_contract]; the children of an object are searched first and looked up by
    key afterwards. *)
Fixpoint find_exact_contract (wanted_id wanted_client_ref : string) (raw : json) : option obj :=
  match raw with
  | VList l => first_some (find_exact_contract wanted_id wanted_client_ref) l
  | VDict d =>
      let exact := exact_id d wanted_id in
      let id_matches := negb (String.eqb wanted_id "") && bool_decide (is_Some exact) in
      let ref_matches := negb (String.eqb wanted_client_ref "")
                         && String.eqb (pystr (get_or d "client_order_id" (VStr ""))) wanted_client_ref in
      if id_matches || ref_matches then Some (dict_set "id" (default (VStr wanted_id) exact) d)
      else
        let inside := (fun kv => (fst kv, (snd kv, find_exact_contract wanted_id wanted_client_ref (snd kv)))) <$> d in
        first_some (fun key =>
          match List.find (fun kv => String.eqb (fst kv) key) inside with
          | Some (_, (child, found)) =>
              match child with
              | VDict c =>
                  match (if negb (String.eqb wanted_id "") then dict_get wanted_id c else None) with
                  | Some (VDict keyed) => Some (dict_merge [("id", VStr wanted_id)] keyed)
                  | _ => found
                  end
              | _ => found
              end
          | None => None
          end) CONTAINER_KEYS
  | _ => None
  end.

Definition found_contract (matched : option obj) : obj :=
  match matched with
  | Some m => [("isSuccessful", VBool true); ("result", VDict m)]
  | None => [("isSuccessful", VBool false); ("message", VStr "Option not found")]
  end.

(** [_get_options] *)
Definition get_options (depth : nat) (x : iq_exchange) (msg : obj) : iq obj :=
  balance_id ← selected_balance_id;
  connected ← py_gets is_connected;
  _ ← py_guard connected websocket_unavailable;
  _ ← py_modify (fun s => s <| iq_options_responses := [] |>);
  _ ← iq_send (message "get-options" [("body", VDict [("limit", VInt 100); ("instrument_type", VStr "binary,turbo");
                 ("user_balance_id", VInt balance_id)])] (ix_request_id x));
  response ← wait_or_timeout depth (fun s => head (iq_options_responses s)) (ix_received x);
  _ ← py_modify (fun s => s <| iq_options_responses ::= tail |>);
  mret (found_contract (find_exact_contract (pystr (get_or msg "id" (VStr "")))
                          (pystr (get_or msg "client_order_id" (VStr ""))) (get response "msg"))).

(** [_get_betinfo] *)
Definition get_betinfo (depth : nat) (x : iq_exchange) (msg : obj) : iq obj :=
  match get msg "id" with
  | VBool _ | VNull => mret [("isSuccessful", VBool false); ("message", VStr "Option id unavailable")]
  | raw_id =>
      match py_int (pystr raw_id) with
      | Err _ => mret [("isSuccessful", VBool false); ("message", VStr "Option id invalid")]
      | Ok option_id =>
          connected ← py_gets is_connected;
          _ ← py_guard connected websocket_unavailable;
          _ ← py_modify (fun s => s <| iq_betinfo_responses := [] |>);
          _ ← iq_send [("name", VStr "api_game_betinfo");
                       ("msg", VDict [("currency", VStr "USD"); ("id[0]", VInt option_id)]);
                       ("request_id", VStr (ix_request_id x))];
          response ← wait_or_timeout depth (fun s => head (iq_betinfo_responses s)) (ix_received x);
          _ ← py_modify (fun s => s <| iq_betinfo_responses ::= tail |>);
          match get response "msg" with
          | VDict raw =>
              if is_false (get raw "isSuccessful") then mret (found_contract None)
              else mret (found_contract (find_exact_contract (encode_int option_id "") "" (VDict raw)))
          | raw => mret (found_contract (find_exact_contract (encode_int option_id "") "" raw))
          end
      end
  end.

(** [request] *)
Definition iq_session_request (depth : nat) (x : iq_exchange) (name : string) (msg : obj) : iq obj :=
  mode ← py_gets iq_account_mode;
  _ ← py_guard (bool_decide (mode = PRACTICE)) (IQOptionExternalError "IQOPTION_REAL_ACCOUNT_FORBIDDEN");
  if String.eqb name "buy" then buy_binary_option depth x msg
  else if String.eqb name "get_betinfo" then get_betinfo depth x msg
  else if String.eqb name "get_options" then get_options depth x msg
  else external "IQOPTION_OPERATION_UNSUPPORTED".

(** [receive_contract] *)
Definition iq_session_receive_contract : iq (option obj) := fun s =>
  match iq_contract_events s with
  | [] => (Ok None, s)
  | m :: l => (Ok (Some m), s <| iq_contract_events := l |>)
  end.

(** ** The balance, the clock and the candles *)

Definition domain_account_type (m : IQOptionAccountMode) : string := match m with PRACTICE => "DEMO" | REAL => "REAL" end.

(** [d == d.to_integral_value()] *)
Definition is_integral (d : dec) : bool := (0 <=? dexp d) || (coef d mod 10 ^ (- dexp d) =? 0).

Definition get_balance (observed : datetime) : iq BrokerAccountBalance :=
  raw ← selected_balance;
  mode ← py_gets iq_account_mode;
  match (if pybool (get raw "currency") then get raw "currency" else get raw "currency_code") with
  | VStr currency =>
      match py_decimal (pystr (get raw "amount")) with
      | Ok (Finite amount) =>
          let minor_units := dec_mul prec amount (dec_of_Z 100) in
          _ ← py_guard (is_integral minor_units) (IQOptionExternalError "IQOPTION_BALANCE_PRECISION_UNSUPPORTED");
          py_lift (new_BrokerAccountBalance (dec_trunc minor_units) currency (domain_account_type mode) observed)
      | _ => external "IQOPTION_BALANCE_INVALID"
      end
  | _ => external "IQOPTION_BALANCE_INVALID"
  end.

(** [get_clock]; [wall] is the wall clock in seconds. *)
Definition get_clock (received_at : datetime) (wall : float) : iq BrokerClockSnapshot :=
  server_epoch ← clock_epoch;
  round_trip ← py_gets iq_connect_round_trip;
  py_lift (BrokerClockSnapshot_post_init (mk_BrokerClockSnapshot server_epoch received_at round_trip
             (dec_sub (dec_of_Z server_epoch) (decimal_of_repr wall)))).

Definition candles_invalid : exn := IQOptionExternalError "IQOPTION_CANDLES_INVALID".

(** [KeyError], [TypeError], [ValueError], [InvalidOperation] *)
Definition is_candle_error (e : exn) : bool :=
  match e with KeyError | TypeError _ | ValueError _ | InvalidOperation => true | _ => false end.

Definition candle_price (v : json) : res dec :=
  d ← py_decimal (pystr v);
  match d with Finite d => Ok d | _ => Err (ValueError "candle prices must be positive finite decimals") end.

Definition item_at (raw : obj) (k : string) : res json :=
  match dict_get k raw with Some v => Ok v | None => Err KeyError end.

(** One candle of the answer. *)
Definition read_candle (symbol : string) (timeframe_seconds clock_epoch : Z) (raw : obj) : res MarketCandle :=
  from ← item_at raw "from";
  open_epoch ← int_value from;
  close_epoch ← int_value (get_or raw "to" (VInt (open_epoch + timeframe_seconds)));
  open_time ← fromtimestamp open_epoch;
  close_time ← fromtimestamp close_epoch;
  open ← (v ← item_at raw "open"; candle_price v);
  high ← candle_price (get_or raw "max" (get raw "high"));
  low ← candle_price (get_or raw "min" (get raw "low"));
  close ← (v ← item_at raw "close"; candle_price v);
  MarketCandle_post_init (mk_MarketCandle IQ_OPTION symbol timeframe_seconds open_time close_time open high low close
                            (close_epoch <=? clock_epoch)).

Fixpoint read_candles (symbol : string) (timeframe_seconds clock_epoch : Z) (l : list json) : res (list MarketCandle) :=
  match l with
  | [] => Ok []
  | VDict raw :: l =>
      candle ← match read_candle symbol timeframe_seconds clock_epoch raw with
               | Ok c => Ok c
               | Err e => Err (if is_candle_error e then candles_invalid else e)
               end;
      rest ← read_candles symbol timeframe_seconds clock_epoch l;
      Ok (candle :: rest)
  | _ => Err candles_invalid
  end.

Definition get_candles (depth : nat) (x : iq_exchange) (symbol : string) (timeframe_seconds count : Z)
    (end_epoch : option Z) : iq (list MarketCandle) :=
  mode ← py_gets iq_account_mode;
  _ ← py_guard (bool_decide (mode = PRACTICE)) (IQOptionExternalError "IQOPTION_REAL_MARKET_EXECUTION_FORBIDDEN");
  _ ← py_guard (existsb (Z.eqb timeframe_seconds) [60; 300; 600; 900])
        (IQOptionExternalError "IQOPTION_TIMEFRAME_UNSUPPORTED");
  _ ← py_guard (in_range 15 count 200) (IQOptionExternalError "IQOPTION_CANDLE_COUNT_INVALID");
  active ← py_lift (active_id symbol);
  epoch ← match end_epoch with
          | Some n => if n =? 0 then clock_epoch else mret n
          | None => clock_epoch
          end;
  response ← request_message depth x
    (Ok [("name", VStr "sendMessage");
         ("msg", VDict [("name", VStr "get-candles"); ("version", VStr "2.0");
            ("body", VDict [("active_id", VInt active); ("size", VInt timeframe_seconds); ("to", VInt epoch);
                            ("count", VInt count)])])]) "candles";
  match get response "msg" with
  | VDict msg =>
      match get msg "candles" with
      | VList raw_candles =>
          parsed ← py_lift (read_candles symbol timeframe_seconds epoch raw_candles);
          mret (List.filter mc_is_closed parsed)
      | _ => py_raise candles_invalid
      end
  | _ => py_raise candles_invalid
  end.

(** ** Connecting *)

(** [_close_transport], with the reader joined. *)
Definition close_transport (clear_session : bool) (s : IQOptionCommunityReadOnlySession) : IQOptionCommunityReadOnlySession :=
  let s := s <| iq_stop := true |> <| iq_websocket := false |> <| iq_reader_running := false |>
             <| iq_authenticated := false |> <| iq_disconnected := true |> <| iq_pending := [] |> in
  if clear_session then s <| iq_session_cookie := None |> <| iq_reconnect_epochs := [] |> else s.

(** What happens while a connection is made: what [_websocket_factory] raises, what is
    received before the deadline, the monotonic clock before and after, and the time of
    the snapshot. *)
Record connection : Type := mk_connection {
  cx_factory_raises : option exn; cx_received : list received; cx_started : float; cx_finished : float;
  cx_observed : datetime
}.

Definition auth_timeout : exn := IQOptionExternalError "IQOPTION_AUTH_TIMEOUT".

Definition is_ready (s : IQOptionCommunityReadOnlySession) : bool :=
  iq_authenticated s && bool_decide (is_Some (iq_profile s)) && bool_decide (is_Some (iq_balances s)).

(** The loop until the account is confirmed; [requested] is whether its snapshot has been
    asked for. *)
Fixpoint await_account (depth : nat) (requested : bool) (rs : list received) : iq unit :=
  match rs with
  | [] => py_raise auth_timeout
  | NoFrame :: _ => py_raise auth_timeout
  | Broken e :: _ => py_raise e
  | Frame raw :: rs =>
      _ ← handle_message depth raw;
      authenticated ← py_gets iq_authenticated;
      ready ← py_gets is_ready;
      _ ← (if authenticated && negb requested then request_account_snapshot else mret tt);
      if ready : bool then mret tt else await_account depth (requested || authenticated) rs
  end.

Definition authenticate (session_cookie : string) : obj :=
  [("name", VStr "authenticate"); ("msg", VDict [("ssid", VStr session_cookie); ("protocol", VInt 3)])].

(** [try: m except Exception: f; raise] *)
Definition py_on_error {S A} (m : py S A) (f : S -> S) : py S A := fun s =>
  match m s with (Ok a, s) => (Ok a, s) | (Err e, s) => (Err e, f s) end.

(** The snapshot of an open connection. *)
Definition iq_snapshot (observed : datetime) : iq unit := _ ← get_balance observed; mret tt.

(** [_connect_websocket]; of the snapshot it returns only the balance can fail. *)
Definition connect_websocket (depth : nat) (x : connection) (session_cookie : string) : iq unit :=
  _ ← py_modify (fun s => (close_transport false s) <| iq_authenticated := false |> <| iq_profile := None |>
                            <| iq_balances := None |> <| iq_server_epoch := None |>);
  _ ← match cx_factory_raises x with Some e => py_raise e | None => mret tt end;
  _ ← py_modify (fun s => s <| iq_websocket := true |> <| iq_stop := false |> <| iq_disconnected := false |>);
  _ ← py_on_error
        (_ ← iq_send (authenticate session_cookie);
         _ ← await_account depth false (cx_received x);
         selected_balance) (close_transport false);
  _ ← py_modify (fun s =>
        s <| iq_connect_round_trip := fmax (float_of_Z 0) (fsub (cx_finished x) (cx_started x)) |>
          <| iq_reader_running := true |>);
  iq_snapshot (cx_observed x).

(** [_reserve_websocket_reconnect] *)
Definition reconnect_boundary (now : float) : float := fsub now IQOPTION_WEBSOCKET_RECONNECT_WINDOW_SECONDS.

Definition reserve_websocket_reconnect (now : float) : iq unit :=
  _ ← py_modify (fun s => s <| iq_reconnect_epochs ::= later (reconnect_boundary now) |>);
  epochs ← py_gets iq_reconnect_epochs;
  _ ← py_guard (negb (IQOPTION_WEBSOCKET_RECONNECT_LIMIT <=? length epochs)%nat)
        (IQOptionExternalError "IQOPTION_WEBSOCKET_RECONNECT_LIMIT_REACHED");
  py_modify (fun s => s <| iq_reconnect_epochs ::= fun l => l ++ [now] |> <| iq_reconnects ::= fun l => l ++ [now] |>).

Definition is_auth_failure (e : exn) : bool :=
  match e with IQOptionExternalError r => String.eqb r "IQOPTION_AUTH_FAILED" | _ => false end.

(** [connect]; [login] is what the HTTP login gives. *)
Definition iq_connect (depth : nat) (now : float) (login : res string) (first second : connection) : iq unit := fun s =>
  let login_and_connect s :=
    match login with
    | Err e => (Err e, s <| iq_logins ::= S |>)
    | Ok cookie =>
        match connect_websocket depth second cookie (s <| iq_logins ::= S |> <| iq_session_cookie := Some cookie |>) with
        | (Err e, s) => (Err e, if is_auth_failure e then s <| iq_session_cookie := None |> else s)
        | (Ok tt, s) => (Ok tt, s)
        end
    end in
  if is_connected s then iq_snapshot (cx_observed first) s
  else match iq_session_cookie s with
       | None => login_and_connect s
       | Some cookie =>
           match reserve_websocket_reconnect now s with
           | (Err e, s) => (Err e, s)
           | (Ok _, s) =>
               match connect_websocket depth first cookie s with
               | (Err e, s) => if is_auth_failure e then login_and_connect (s <| iq_session_cookie := None |>)
                               else (Err e, s)
               | (Ok tt, s) => (Ok tt, s)
               end
           end
       end.

(** [reconnect] *)
Definition iq_reconnect (depth : nat) (now : float) (x : connection) : iq unit := fun s =>
  if is_connected s then iq_snapshot (cx_observed x) s
  else match iq_session_cookie s with
       | None => (Err (IQOptionExternalError "IQOPTION_AUTH_FAILED"), s)
       | Some cookie =>
           match reserve_websocket_reconnect now s with
           | (Err e, s) => (Err e, s)
           | (Ok _, s) =>
               match connect_websocket depth x cookie s with
               | (Err e, s) => (Err e, if is_auth_failure e then s <| iq_session_cookie := None |> else s)
               | (Ok tt, s) => (Ok tt, s)
               end
           end
       end.
