(* ===== verification/IqSession.v ===== *)
(** * The order session of the IQ Option worker

    [packages/brokers/iqoption/validators.py] and [apps/iqoption_worker/order_session.py]:
    buying, and turning contract messages into broker events.

    The session works against any transport ([IQOptionOrderTransport]); the session of
    [IqTransport] is one.  [_tracked] and [_tracked_by_ref] share their objects, so these
    live in a heap.  Clock readings and fresh identifiers are arguments. *)

From S2P Require Import Prelude Datetime Dec PyFloat Json Domain StateDb Writer Reconciliation Protocol.
From S2P Require Import DerivJson DerivTransport DerivSession IqValues IqTransport.

(** What the order session asks of a transport with state [T]. *)
Class IQOptionOrderTransport (T : Type) := {
  order_request : string -> obj -> py T obj;
  order_receive_contract : py T (option obj)
}.

(** The session of the worker, with what happens around each of its requests. *)
Definition wired : Type := IQOptionCommunityReadOnlySession * list iq_exchange.

#[export] Instance community : IQOptionOrderTransport wired := {
  order_request name msg := fun '(s, xs) =>
    let x := default (mk_iq_exchange "" []) (head xs) in
    let '(r, s) := iq_session_request 1000 x name msg s in (r, (s, tail xs));
  order_receive_contract := fun '(s, xs) => let '(r, s) := iq_session_receive_contract s in (r, (s, xs))
}.

(** ** Validation *)

Definition PRACTICE_BALANCE_TYPE : Z := 4.
Definition REAL_BALANCE_TYPE : Z := 1.

Definition iq_real_account_forbidden : exn := IQOptionWorkerError IQ_ACCOUNT_MODE_FORBIDDEN "IQOPTION_REAL_ACCOUNT_FORBIDDEN".
Definition iq_invalid (reason : string) : exn := IQOptionWorkerError IQ_VALIDATION_ERROR reason.

Definition validate_iqoption_account (account_payload : obj) : res unit :=
  let balance := get account_payload "balance_type" in
  let is_demo := get account_payload "is_demo" in
  let account_type := str_lower (pystr (get_or account_payload "account_type" (VStr ""))) in
  let is_true v := match v with VBool true => true | _ => false end in
  _ ← guard_res (negb (eq_number balance REAL_BALANCE_TYPE || is_false is_demo || String.eqb account_type "real"))
        iq_real_account_forbidden;
  guard_res (eq_number balance PRACTICE_BALANCE_TYPE || is_true is_demo || String.eqb account_type "practice")
    (IQOptionWorkerError IQ_ACCOUNT_MODE_FORBIDDEN "IQOPTION_PRACTICE_ACCOUNT_REQUIRED").

Definition validate_iqoption_order_command (command : OrderCommand) : res unit :=
  _ ← guard_res (bool_decide (oc_broker command = IQ_OPTION)) (iq_invalid "IQOPTION_BROKER_MISMATCH");
  _ ← guard_res (nonblank (oc_symbol command)) (iq_invalid "IQOPTION_INVALID_SYMBOL");
  _ ← guard_res (bool_decide (oc_direction command ∈ [CALL; PUT])) (iq_invalid "IQOPTION_INVALID_DIRECTION");
  _ ← guard_res (0 <? minor_units (oc_amount command)) (iq_invalid "IQOPTION_INVALID_AMOUNT");
  _ ← guard_res (nonblank (oc_account_id command)) (iq_invalid "IQOPTION_INVALID_ACCOUNT_ID");
  guard_res (negb (str_startswith "REAL" (str_upper (oc_account_id command)))) iq_real_account_forbidden.

(** ** The session *)

Record TrackedIQOptionOrder : Type := mk_TrackedIQOptionOrder {
  tq_order_id : string; tq_correlation_id : string; tq_client_order_ref : string; tq_broker_order_id : option string;
  tq_symbol : string; tq_direction : Direction; tq_amount : Money; tq_product : string; tq_account_id : string;
  tq_created_at_utc : datetime; tq_last_status : ExternalOrderStatus; tq_sequence : Z
}.

#[export] Instance TrackedIQOptionOrder_eta : Eta TrackedIQOptionOrder := fun t => mk_TrackedIQOptionOrder
  (tq_order_id t) (tq_correlation_id t) (tq_client_order_ref t) (tq_broker_order_id t) (tq_symbol t) (tq_direction t)
  (tq_amount t) (tq_product t) (tq_account_id t) (tq_created_at_utc t) (tq_last_status t) (tq_sequence t).

Record IQOptionOrderSession : Type := mk_IQOptionOrderSession {
  qs_account_id : string; qs_practice_mode : bool; qs_heap : list TrackedIQOptionOrder; qs_tracked : gmap string nat;
  qs_tracked_by_ref : gmap string nat; qs_events : list BrokerOrderEvent
}.

#[export] Instance IQOptionOrderSession_eta : Eta IQOptionOrderSession := fun s => mk_IQOptionOrderSession
  (qs_account_id s) (qs_practice_mode s) (qs_heap s) (qs_tracked s) (qs_tracked_by_ref s) (qs_events s).

Definition new_IQOptionOrderSession (account_id : string) (practice_mode : bool) : res IQOptionOrderSession :=
  _ ← guard_res practice_mode iq_real_account_forbidden;
  Ok (mk_IQOptionOrderSession account_id practice_mode [] ∅ ∅ []).

Section session.
Context {T : Type} {transport : IQOptionOrderTransport T}.

Definition on_orders {A} (m : py IQOptionOrderSession A) : py (IQOptionOrderSession * T) A :=
  fun '(s, t) => let '(r, s) := m s in (r, (s, t)).
Definition on_wire {A} (m : py T A) : py (IQOptionOrderSession * T) A :=
  fun '(s, t) => let '(r, t) := m t in (r, (s, t)).

(** *** Buying *)

Definition iq_buy_payload (command : OrderCommand) : obj :=
  [("active", VStr (oc_symbol command)); ("direction", VStr (str_lower (value (oc_direction command))));
   ("price", VStr (format_cents (decimal_amount (minor_units (oc_amount command)))));
   ("client_order_id", VStr (oc_order_id command)); ("correlation_id", VStr (oc_correlation_id command));
   ("duration", VInt (oc_duration command))].

Definition iq_tracked_of (command : OrderCommand) (now : datetime) : TrackedIQOptionOrder :=
  mk_TrackedIQOptionOrder (oc_order_id command) (oc_correlation_id command) (oc_order_id command) None
    (oc_symbol command) (oc_direction command) (oc_amount command) (oc_product command) (oc_account_id command) now
    EX_ACCEPTED 0.

(** A new object, entered under its order. *)
Definition track_ref (t : TrackedIQOptionOrder) (s : IQOptionOrderSession) : IQOptionOrderSession :=
  let i := length (qs_heap s) in
  s <| qs_heap ::= fun h => h ++ [t] |> <| qs_tracked_by_ref ::= <[ tq_client_order_ref t := i ]> |>.

(** [tracked.broker_order_id = contract_id], and the object entered under it. *)
Definition track_contract (i : nat) (contract_id : string) (s : IQOptionOrderSession) : IQOptionOrderSession :=
  s <| qs_heap ::= alter (fun t => t <| tq_broker_order_id := Some contract_id |>) i |>
    <| qs_tracked ::= <[ contract_id := i ]> |>.

(** The id in the answer to a buy. *)
Definition contract_id_of (response : obj) : json :=
  let nested_id := match get response "result" with VDict raw => get raw "id" | _ => VNull end in
  get_or response "id" nested_id.

Definition response_invalid : exn := IQOptionExternalError "IQOPTION_ORDER_RESPONSE_INVALID".

(** The answer to a buy; [i] is the object of the order. *)
Definition iq_buy_answer (command : OrderCommand) (sp : stamp) (i : nat) (response : obj)
    : py (IQOptionOrderSession * T) WorkerSubmissionResult :=
  if negb (pybool (get response "status")) then
    _ ← on_orders (py_modify (fun s => s <| qs_tracked_by_ref ::= delete (oc_order_id command) |>));
    mret (result_of command sp WO_REJECTED None
            (Some (pystr (get_or response "reason" (get_or response "message" (VStr "ORDER_REJECTED"))))))
  else
    let raw_contract_id := contract_id_of response in
    _ ← py_guard (negb (is_none raw_contract_id || is_in (str_strip (pystr raw_contract_id)) [""; "None"])) response_invalid;
    let contract_id := pystr raw_contract_id in
    _ ← on_orders (py_modify (track_contract i contract_id));
    mret (result_of command sp WO_ACCEPTED (Some contract_id) None).

(** The body of the [try] of [submit_order]. *)
Definition iq_buy (command : OrderCommand) (sp : stamp) : py (IQOptionOrderSession * T) WorkerSubmissionResult :=
  _ ← py_lift (validate_iqoption_order_command command);
  i ← on_orders (py_gets (fun s => length (qs_heap s)));
  _ ← on_orders (py_modify (track_ref (iq_tracked_of command (sp_now sp))));
  response ← on_wire (order_request "buy" (iq_buy_payload command));
  iq_buy_answer command sp i response.

Definition is_delivery_unknown (reason : string) : bool :=
  is_in reason ["IQOPTION_REQUEST_TIMEOUT"; "IQOPTION_NETWORK_ERROR"].

Definition iq_submit_order (command : OrderCommand) (sp : stamp) : py (IQOptionOrderSession * T) WorkerSubmissionResult :=
  let failed reason := mret (result_of command sp
    (if is_delivery_unknown reason then WO_TIMEOUT_AFTER_POSSIBLE_SEND else WO_REJECTED) None (Some reason)) in
  py_try (iq_buy command sp) (fun e =>
    match e with
    | IQOptionWorkerError _ reason | IQOptionExternalError reason => Some (failed reason)
    | OSError _ | TimeoutError =>
        Some (mret (result_of command sp WO_TIMEOUT_AFTER_POSSIBLE_SEND None (Some "IQOPTION_REQUEST_TIMEOUT")))
    | _ => None
    end).

(** *** Contract messages *)

(** What a message says of its contract. *)
Record iq_report : Type := mk_iq_report { ir_status : ExternalOrderStatus; ir_result_minor : option Z }.

(** [int((Decimal(win_amount) - stake) * 100)] *)
Definition iq_result_minor (win_amount : json) (stake_minor : Z) : res Z :=
  win ← py_decimal (pystr win_amount);
  pnl ← pydec_sub win (Finite (decimal_amount stake_minor));
  to_cents pnl.

(** The status of a contract from the texts of its status and its outcome. *)
Definition iq_external_status (status win : string) : option ExternalOrderStatus :=
  if String.eqb status "open" || String.eqb win "equal" then Some EX_OPEN
  else if is_in status ["win"; "loose"] || is_in win ["win"; "loose"] then Some EX_SETTLED
  else None.

Definition lower_text (msg : obj) (k : string) : string := str_lower (pystr (get_or msg k (VStr ""))).

Definition iq_report_of (msg : obj) (stake_minor : Z) : res (option iq_report) :=
  match iq_external_status (lower_text msg "status") (lower_text msg "win") with
  | Some EX_SETTLED =>
      result_minor ← iq_result_minor (get_or msg "win_amount" (get_or msg "profit_amount" (VStr "0.00"))) stake_minor;
      Ok (Some (mk_iq_report EX_SETTLED (Some result_minor)))
  | Some status => Ok (Some (mk_iq_report status None))
  | None => Ok None
  end.

Definition iq_canonical_fields (t : TrackedIQOptionOrder) (contract_id : string) (r : iq_report) (event_id : string)
    (now : datetime) : list (string * jval) :=
  let broker_order_id :=
    if negb (String.eqb contract_id "") then contract_id
    else or_default (tq_broker_order_id t) "0" in
  [("event_id", JStr event_id); ("event_version", JInt 1); ("broker", JStr (value IQ_OPTION));
   ("account_id", JStr (tq_account_id t)); ("client_order_ref", JStr (tq_client_order_ref t));
   ("broker_order_id", JStr broker_order_id); ("correlation_id", JStr (tq_correlation_id t));
   ("external_sequence", JInt (tq_sequence t)); ("external_status", JStr (value (ir_status r)));
   ("occurred_at", JStr (isoformat now)); ("observed_at", JStr (isoformat now)); ("product", JStr (tq_product t));
   ("symbol", JStr (tq_symbol t)); ("direction", JStr (value (tq_direction t)));
   ("amount_minor", JInt (minor_units (tq_amount t))); ("currency", JStr (currency (tq_amount t)));
   ("result_minor", jopt_int (ir_result_minor r));
   ("result_currency", jopt_str ((fun _ => currency (tq_amount t)) <$> ir_result_minor r))].

Variable payload_hash : payload -> string.

Definition iq_event_of (t : TrackedIQOptionOrder) (contract_id : string) (r : iq_report) (event_id : string)
    (now : datetime) : res BrokerOrderEvent :=
  let canonical := iq_canonical_fields t contract_id r event_id now in
  BrokerOrderEvent_from_payload payload_hash
    (list_to_map (("evidence_hash", JStr (payload_hash (list_to_map canonical))) :: canonical)).

Definition message_contract_id (msg : obj) : string :=
  pystr (get_or msg "id" (get_or msg "option_id" (get_or msg "contract_id" (VStr "")))).

(** [self._tracked.get(contract_id) or self._tracked_by_ref.get(client_order_id)] *)
Definition iq_find_tracked (msg : obj) (s : IQOptionOrderSession) : option nat :=
  match qs_tracked s !! message_contract_id msg with
  | Some i => Some i
  | None => qs_tracked_by_ref s !! pystr (get_or msg "client_order_id" (VStr ""))
  end.

(** [tracked.next_sequence()] on the object at [i]; the object after it. *)
Definition iq_next_sequence (i : nat) : py IQOptionOrderSession TrackedIQOptionOrder := fun s =>
  match qs_heap s !! i with
  | Some t =>
      let t := t <| tq_sequence ::= Z.succ |> in
      (Ok t, s <| qs_heap ::= <[ i := t ]> |>)
  | None => (Err KeyError, s)
  end.

(** [put_nowait] on the event queue; a full queue loses the event. *)
Definition iq_put_event (event : BrokerOrderEvent) (s : IQOptionOrderSession) : IQOptionOrderSession :=
  if (length (qs_events s) <? 1024)%nat then s <| qs_events ::= fun l => l ++ [event] |> else s.

Definition iq_untrack (contract_id client_order_ref : string) (s : IQOptionOrderSession) : IQOptionOrderSession :=
  s <| qs_tracked ::= fun m => if String.eqb contract_id "" then m else delete contract_id m |>
    <| qs_tracked_by_ref ::= fun m => if String.eqb client_order_ref "" then m else delete client_order_ref m |>.

(** The object at [i]. *)
Definition tracked_at (i : nat) : py IQOptionOrderSession TrackedIQOptionOrder := fun s =>
  match qs_heap s !! i with Some t => (Ok t, s) | None => (Err KeyError, s) end.

Definition process_raw_contract_message (msg : obj) (sp : stamp) : py IQOptionOrderSession (option BrokerOrderEvent) :=
  let contract_id := message_contract_id msg in
  found ← py_gets (iq_find_tracked msg);
  match found with
  | None => mret None
  | Some i =>
      tracked ← tracked_at i;
      report ← py_lift (iq_report_of msg (minor_units (tq_amount tracked)));
      match report with
      | None => mret None
      | Some r =>
          t ← iq_next_sequence i;
          event ← py_lift (iq_event_of t contract_id r (sp_uuid sp) (sp_now sp));
          _ ← py_modify (iq_put_event event);
          _ ← (if bool_decide (ir_status r = EX_SETTLED) then py_modify (iq_untrack contract_id (tq_client_order_ref t))
               else mret tt);
          mret (Some event)
      end
  end.

(** [drain_contract_events] over the messages that [receive_contract] gives before it
    gives [None]; one stamp per message. *)
Fixpoint iq_drain_contract_events (stamps : list stamp) (count : Z) : py (IQOptionOrderSession * T) Z :=
  match stamps with
  | [] => mret count
  | sp :: stamps =>
      raw ← on_wire order_receive_contract;
      match raw with
      | None => mret count
      | Some raw =>
          match get_or raw "msg" (VDict raw) with
          | VDict msg =>
              event ← on_orders (process_raw_contract_message msg sp);
              iq_drain_contract_events stamps (match event with Some _ => count + 1 | None => count end)
          | _ => iq_drain_contract_events stamps count
          end
      end
  end.

(** [next_queued_event] *)
Definition iq_next_queued_event (s : IQOptionOrderSession) : option BrokerOrderEvent * IQOptionOrderSession :=
  match qs_events s with
  | [] => (None, s)
  | e :: l => (Some e, s <| qs_events := l |>)
  end.
End session.
