(* ===== verification/IqRecon.v ===== *)
(** * Reconciliation and the server of the IQ Option worker

    [apps/iqoption_worker/reconciliation.py] for any transport, and the requests of
    [apps/iqoption_connection_worker/server.py], which works on the session of
    [IqTransport].  The digest of a contract document ([sha256] of its JSON text) is a
    parameter. *)

From S2P Require Import Prelude Datetime Dec PyFloat Json Domain StateDb Writer Reconciliation Protocol.
From S2P Require Import DerivJson DerivTransport DerivSession DerivRecon IqValues Market IqTransport IqSession.

Section reconciliation.
Context {T : Type} {transport : IQOptionOrderTransport T}.

(** [sha256(json.dumps(res, sort_keys=True, default=str)).hexdigest()] *)
Variable document_hash : obj -> string.

(** [IQOptionWorkerError], [IQOptionExternalError], [OSError], [TimeoutError], [ValueError] *)
Definition is_iq_query_error (e : exn) : bool :=
  match e with
  | IQOptionWorkerError _ _ | IQOptionExternalError _ | ValueError _ => true
  | _ => is_os_error e
  end.

(** ** Evidence from a contract *)

Definition iq_mismatch (query : OrderStatusQuery) (contract : obj) : option string :=
  let differs text expected := negb (String.eqb text "") && negb (String.eqb text expected) in
  if differs (pystr (get_or contract "active" (get_or contract "symbol" (VStr "")))) (sq_symbol query) then
    Some "IQOPTION_SYMBOL_MISMATCH"
  else if differs (str_upper (pystr (get_or contract "direction" (VStr "")))) (value (sq_direction query)) then
    Some "IQOPTION_DIRECTION_MISMATCH"
  else if differs (str_upper (pystr (get_or contract "currency" (VStr "")))) (currency (sq_amount query)) then
    Some "IQOPTION_CURRENCY_MISMATCH"
  else None.

Definition contract_status (contract : obj) : option ExternalOrderStatus :=
  iq_external_status (str_lower (pystr (get_or contract "status" (get_or contract "result" (VStr "")))))
    (lower_text contract "win").

Definition iq_build_evidence (query : OrderStatusQuery) (contract : obj) (sp : stamp) : res OrderStatusResult :=
  match iq_mismatch query contract with
  | Some reason => Ok (unavailable reason)
  | None =>
      match contract_status contract with
      | None => Ok (unavailable "IQOPTION_UNKNOWN_CONTRACT_STATUS")
      | Some status =>
          realized ← (if bool_decide (status = EX_SETTLED) then
                        Some <$> iq_result_minor (get_or contract "profit_amount" (get_or contract "win_amount" (VStr "0.00")))
                                   (minor_units (sq_amount query))
                      else Ok None);
          evidence ← ReconciliationEvidence_post_init
            (mk_ReconciliationEvidence (sp_uuid sp) STATUS_QUERY (sp_now sp) (sq_client_order_ref query)
               (match get_or contract "id" (get contract "contract_id") with VNull => None | v => Some (pystr v) end)
               status IQ_OPTION (sq_account_id query) (sq_product query) (sq_symbol query) (sq_direction query)
               (sq_amount query) 1 realized (Some (document_hash contract)));
          Ok (mk_OrderStatusResult SQ_FOUND (Some evidence) None None)
      end
  end.

(** ** Lookups *)

(** One request of the query: the document it finds. *)
Definition iq_lookup (name : string) (msg : res obj) (matches : obj -> bool) : py (IQOptionOrderSession * T) (option obj) :=
  py_try
    (msg ← py_lift msg;
     response ← on_wire (order_request name msg);
     mret (if pybool (get response "isSuccessful") then
             match get response "result" with
             | VDict contract => if matches contract then Some contract else None
             | _ => None
             end
           else None))
    (fun e => if is_iq_query_error e then Some (mret None) else None).

Definition has_contract_id (broker_order_id : string) (contract : obj) : bool :=
  String.eqb (pystr (get_or contract "id" (get contract "option_id"))) broker_order_id.

Definition by_id (broker_order_id : string) : res obj := id ← py_int broker_order_id; Ok [("id", VInt id)].

(** The document of the broker id of the query, if it has one. *)
Definition lookup_by_id (query : OrderStatusQuery) : py (IQOptionOrderSession * T) (option obj) :=
  match sq_broker_order_id query with
  | None => mret None
  | Some id =>
      first ← (if nonblank id then iq_lookup "get_betinfo" (by_id id) (has_contract_id id) else mret None);
      match first with
      | Some contract => mret (Some contract)
      | None => iq_lookup "get_options" (by_id id) (has_contract_id id)
      end
  end.

Definition iq_not_found : OrderStatusResult :=
  mk_OrderStatusResult SQ_NOT_FOUND None (Some "IQOPTION_OPTION_NOT_FOUND") None.

Definition iq_query_order_status (query : OrderStatusQuery) (sp : stamp)
    : py (IQOptionOrderSession * T) OrderStatusResult :=
  if negb (bool_decide (sq_broker query = IQ_OPTION)) then mret (unavailable "IQOPTION_BROKER_MISMATCH")
  else
    first ← lookup_by_id query;
    found ← match first with
            | Some contract => mret (Some contract)
            | None => iq_lookup "get_options" (Ok [("client_order_id", VStr (sq_order_id query))])
                        (fun contract => eq_str (get contract "client_order_id") (sq_client_order_ref query))
            end;
    match found with
    | None => mret iq_not_found
    | Some contract => py_lift (iq_build_evidence query contract sp)
    end.
End reconciliation.

(** ** The worker

    [IQOptionReadOnlyWorkerServer]; [wk_orders] is the order session of a Practice
    worker and [wk_pumping] whether its event pump is alive.  A reply is the type and payload of the envelope that answers the request. *)

Record iq_worker : Type := mk_iq_worker {
  wk_connect_attempted : bool; wk_stopping : bool; wk_pumping : bool; wk_orders : option IQOptionOrderSession;
  wk_session : IQOptionCommunityReadOnlySession
}.

#[export] Instance iq_worker_eta : Eta iq_worker := fun w =>
  mk_iq_worker (wk_connect_attempted w) (wk_stopping w) (wk_pumping w) (wk_orders w) (wk_session w).

Definition is_demo (connection_mode : string) : bool :=
  str_contains "DEMO" connection_mode || str_contains "PRACTICE" connection_mode.

Definition new_worker (connection_mode : string) (session : IQOptionCommunityReadOnlySession) : iq_worker :=
  mk_iq_worker false false (is_demo connection_mode)
    (if is_demo connection_mode then Some (mk_IQOptionOrderSession "PRACTICE_ACCOUNT" true [] ∅ ∅ []) else None) session.

Definition worker_capabilities (demo : bool) : WorkerCapabilities :=
  mk_WorkerCapabilities "IQOPTION" ["PRACTICE"; "REAL"] ["ACCOUNT_READ_ONLY"; "BINARY_OPTION"; "OPTIONS"] demo demo demo
    "1.0.0-community" demo demo demo (Some (if demo then "DEMO_AUTH_FINANCIAL" else "REAL_AUTH_READ_ONLY")).

(** What happens around one request of the core: clock readings, the HTTP login, the
    connections that are made, what the requests to the broker meet, and the fresh
    identifiers. *)
Record surroundings : Type := mk_surroundings {
  su_monotonic : float; su_wall : float; su_login : res string; su_first : connection; su_second : connection;
  su_exchanges : list iq_exchange; su_stamp : stamp
}.

Definition on_worker_session {A} (m : iq A) : py iq_worker A := fun w =>
  let '(r, s) := m (wk_session w) in (r, w <| wk_session := s |>).

(** A call of the order session on the transport of the worker. *)
Definition on_worker_orders {A} (m : py (IQOptionOrderSession * wired) A) (orders : IQOptionOrderSession)
    (xs : list iq_exchange) : py iq_worker A := fun w =>
  let '(r, (orders, (s, _))) := m (orders, (wk_session w, xs)) in
  (r, w <| wk_orders := Some orders |> <| wk_session := s |>).

Section worker.
Variable document_hash : obj -> string.
Variable payload_hash : payload -> string.

Definition json_depth : nat := 1000.

Definition ensure_connected (u : surroundings) : py iq_worker unit := fun w =>
  if is_connected (wk_session w) then (Ok tt, w)
  else if wk_connect_attempted w then on_worker_session (iq_reconnect json_depth (su_monotonic u) (su_first u)) w
  else on_worker_session (iq_connect json_depth (su_monotonic u) (su_login u) (su_first u) (su_second u))
         (w <| wk_connect_attempted := true |>).

(** The values of [ProtocolErrorCode]. *)
Definition PROTOCOL_ERROR_CODES : list string :=
  ["IPC_PROTOCOL_INCOMPATIBLE"; "IPC_FRAME_TOO_LARGE"; "IPC_FRAME_TRUNCATED"; "IPC_INVALID_FRAME";
   "IPC_INVALID_JSON"; "IPC_INVALID_ENVELOPE"; "IPC_UNKNOWN_MESSAGE_TYPE"; "IPC_CONNECTION_LOST";
   "IPC_HANDSHAKE_TIMEOUT"; "IPC_ROLE_MISMATCH"; "IPC_MESSAGE_REPLAY_CONFLICT"; "IPC_BACKPRESSURE";
   "AUTH_IPC_AUTHENTICATION_FAILED"; "AUTH_IPC_UNAVAILABLE"; "AUTH_IPC_REQUEST_TIMEOUT";
   "AUTH_IPC_INVALID_MESSAGE"; "AUTH_IPC_DUPLICATE_CONFLICT"; "LIFECYCLE_IPC_AUTHENTICATION_FAILED";
   "LIFECYCLE_IPC_UNAVAILABLE"; "LIFECYCLE_IPC_REQUEST_TIMEOUT"; "LIFECYCLE_IPC_INVALID_MESSAGE";
   "LIFECYCLE_IPC_DUPLICATE_CONFLICT"; "UI_IPC_AUTHENTICATION_FAILED"; "UI_IPC_UNAVAILABLE";
   "UI_IPC_REQUEST_TIMEOUT"; "UI_IPC_INVALID_MESSAGE"; "UI_IPC_DUPLICATE_CONFLICT"; "WORKER_NOT_READY";
   "WORKER_CRASHED"; "ORDER_COMMAND_EXPIRED"; "ORDER_DISPATCH_AMBIGUOUS"; "RECONCILIATION_NOT_FOUND";
   "RECONCILIATION_UNAVAILABLE"; "RECONCILIATION_QUERY_TIMEOUT"; "RECONCILIATION_INVALID_RESPONSE";
   "RECONCILIATION_CONFLICT"; "RECONCILIATION_EVIDENCE_CONFLICT"; "BROKER_ORDER_ID_CONFLICT";
   "BROKER_EVENT_REPLAY_CONFLICT"; "BROKER_EVENT_SCOPE_MISMATCH"; "BROKER_EVENT_ACCOUNT_MISMATCH";
   "BROKER_EVENT_CLIENT_REFERENCE_MISMATCH"; "BROKER_EVENT_STATE_CONFLICT"; "BROKER_EVENT_SETTLEMENT_CONFLICT";
   "BROKER_EVENT_RESULT_CURRENCY_MISMATCH"; "BROKER_EVENT_SEQUENCE_CONFLICT"; "ORDER_EVENT_SEQUENCE_GAP";
   "WORKER_CAPABILITY_DENIED"; "DERIV_SCHEMA_INCOMPATIBLE"; "DERIV_TRADING_OPERATION_DISABLED";
   "DERIV_REAL_ACCOUNT_FORBIDDEN"; "DERIV_REAL_WS_FORBIDDEN"; "DERIV_DEMO_AUTH_REQUIRED";
   "DERIV_DEMO_REAUTH_REQUIRED"; "DERIV_BALANCE_UNAVAILABLE"; "DERIV_BALANCE_PRECISION_UNSUPPORTED";
   "IQOPTION_AUTH_FAILED"; "IQOPTION_2FA_REQUIRED"; "IQOPTION_LOGIN_UNAVAILABLE";
   "IQOPTION_NETWORK_UNREACHABLE"; "IQOPTION_RATE_LIMITED"; "IQOPTION_CONNECTION_QUARANTINED";
   "IQOPTION_CONNECTION_SAFETY_STATE_INVALID"; "IQOPTION_WEBSOCKET_RECONNECT_LIMIT_REACHED";
   "IQOPTION_WEBSOCKET_UNAVAILABLE"; "IQOPTION_AUTH_TIMEOUT"; "IQOPTION_ACCOUNT_MODE_UNAVAILABLE";
   "IQOPTION_BALANCE_INVALID"; "IQOPTION_BALANCE_PRECISION_UNSUPPORTED"; "IQOPTION_CLOCK_UNAVAILABLE";
   "IQOPTION_REAL_FINANCIAL_FORBIDDEN"; "IQOPTION_REQUEST_TIMEOUT"; "IQOPTION_RESPONSE_UNEXPECTED";
   "IQOPTION_CANDLES_INVALID"; "IQOPTION_CANDLE_COUNT_INVALID"; "IQOPTION_TIMEFRAME_UNSUPPORTED";
   "IQOPTION_SYMBOL_UNSUPPORTED"; "IQOPTION_BALANCE_ID_INVALID"; "IQOPTION_ORDER_RESPONSE_INVALID";
   "IQOPTION_ORDER_REJECTED"; "IQOPTION_DURATION_UNSUPPORTED"; "IQOPTION_OPERATION_UNSUPPORTED";
   "MD_CLOCK_UNTRUSTED"; "MARKET_DATA_INVALID"].

(** [_error_payload] *)
Definition error_payload (reason : string) : MessageType * obj :=
  error_reply (if is_in reason PROTOCOL_ERROR_CODES then reason else "IPC_INVALID_ENVELOPE").

(** The arguments of a history request. *)
Definition history_arguments (payload : obj) : option (string * Z * Z * option Z) :=
  match get payload "broker_symbol", get payload "count", get payload "timeframe_seconds", get payload "end_epoch" with
  | VStr symbol, VInt count, VInt timeframe, VNull =>
      if eq_str (get payload "style") "candles" then Some (symbol, timeframe, count, None) else None
  | VStr symbol, VInt count, VInt timeframe, VInt end_epoch =>
      if eq_str (get payload "style") "candles" then Some (symbol, timeframe, count, Some end_epoch) else None
  | _, _, _, _ => None
  end.

Definition first_exchange (u : surroundings) : iq_exchange := default (mk_iq_exchange "" []) (head (su_exchanges u)).

Definition history_reply (u : surroundings) (payload : obj) : py iq_worker (MessageType * obj) :=
  _ ← ensure_connected u;
  orders ← py_gets wk_orders;
  match orders with
  | None => mret (error_payload "WORKER_CAPABILITY_DENIED")
  | Some _ =>
      match history_arguments payload with
      | None => mret (error_payload "IPC_INVALID_ENVELOPE")
      | Some (symbol, timeframe, count, end_epoch) =>
          candles ← on_worker_session (get_candles json_depth (first_exchange u) symbol timeframe count end_epoch);
          mret (MT_MARKET_HISTORY_RESPONSE,
                [("ticks", VList []); ("candles", VList ((fun c => VDict (MarketCandle_to_payload c)) <$> candles))])
      end
  end.

Definition iq_status_payload (r : OrderStatusResult) : obj :=
  [("query_outcome", VStr (value (sr_outcome r)));
   ("evidence", match sr_evidence r with
                | Some ev => VDict (of_payload (ReconciliationEvidence_to_payload ev))
                | None => VNull
                end);
   ("reason_code", vopt (sr_reason_code r))].

(** The branches of [_dispatch]. *)
Definition iq_branches (u : surroundings) (request : Envelope) : py iq_worker (MessageType * obj) :=
  match en_message_type request with
  | MT_PING => fun w =>
      if wk_connect_attempted w && negb (is_connected (wk_session w)) then
        (_ ← on_worker_session (iq_reconnect json_depth (su_monotonic u) (su_first u)); mret (MT_PONG, [])) w
      else (Ok (MT_PONG, []), w)
  | MT_BROKER_BALANCE_REQUEST =>
      _ ← ensure_connected u;
      balance ← on_worker_session (get_balance (sp_now (su_stamp u)));
      mret (MT_BROKER_BALANCE_RESPONSE, BrokerAccountBalance_to_payload balance)
  | MT_BROKER_CLOCK_REQUEST =>
      _ ← ensure_connected u;
      clock ← on_worker_session (get_clock (sp_now (su_stamp u)) (su_wall u));
      payload ← py_lift (BrokerClockSnapshot_to_payload clock);
      mret (MT_BROKER_CLOCK_RESPONSE, payload)
  | MT_BROKER_CAPABILITIES_REQUEST =>
      orders ← py_gets wk_orders;
      mret (MT_BROKER_CAPABILITIES_RESPONSE,
            WorkerCapabilities_to_payload (worker_capabilities (bool_decide (is_Some orders))))
  | MT_MARKET_HISTORY_REQUEST => history_reply u (en_payload request)
  | MT_ORDER_SUBMIT =>
      orders ← py_gets wk_orders;
      match orders with
      | None => mret (error_payload "WORKER_CAPABILITY_DENIED")
      | Some orders =>
          _ ← ensure_connected u;
          command ← py_lift (parse_order_submit request);
          result ← on_worker_orders (iq_submit_order command (su_stamp u)) orders (su_exchanges u);
          mret (submit_reply command result)
      end
  | MT_ORDER_STATUS_REQUEST =>
      _ ← ensure_connected u;
      orders ← py_gets wk_orders;
      match orders with
      | None => mret (error_payload "WORKER_CAPABILITY_DENIED")
      | Some orders =>
          query ← py_lift (parse_order_status_request request);
          r ← on_worker_orders (iq_query_order_status document_hash query (su_stamp u)) orders (su_exchanges u);
          mret (MT_ORDER_STATUS_RESPONSE, iq_status_payload r)
      end
  | MT_SHUTDOWN =>
      _ ← py_modify (fun w => w <| wk_stopping := true |>);
      mret (MT_SHUTDOWN_ACK, [])
  | _ => mret (error_payload "IPC_UNKNOWN_MESSAGE_TYPE")
  end.

(** [_dispatch] *)
Definition iq_dispatch (u : surroundings) (request : Envelope) : py iq_worker (MessageType * obj) :=
  py_try (iq_branches u request)
    (fun e => match e with IQOptionExternalError reason => Some (mret (error_payload reason)) | _ => None end).

(** [_validate_routing] *)
Definition iq_validate_routing (protocol_version : Z) (request : Envelope) : res unit :=
  guard_res ((en_protocol_version request =? protocol_version) && bool_decide (en_source request = ER_CORE)
             && bool_decide (en_target request = ER_IQOPTION_WORKER)) (ProtocolError "IPC_ROLE_MISMATCH").

(** One iteration of the loop of [run]: the reply to a received request, or the exception
    that ends the worker. *)
Definition iq_serve (protocol_version : Z) (u : surroundings) (request : Envelope) : py iq_worker (MessageType * obj) :=
  _ ← py_lift (iq_validate_routing protocol_version request);
  iq_dispatch u request.

(** One round of the event pump up to the events it sends: an exception ends it. *)
Definition iq_pump (stamps : list stamp) (w : iq_worker) : list BrokerOrderEvent * iq_worker :=
  match wk_orders w with
  | Some orders =>
      if negb (wk_pumping w) then ([], w)
      else
        match on_worker_orders (iq_drain_contract_events payload_hash stamps 0) orders [] w with
        | (Err _, w) => ([], w <| wk_pumping := false |>)
        | (Ok _, w) => (match wk_orders w with Some o => qs_events o | None => [] end,
                        w <| wk_orders ::= fmap (fun o => o <| qs_events := [] |>) |>)
        end
  | None => ([], w)
  end.

(** What happens to a worker: requests of the core, rounds of its event pump, and what
    the reader of the session receives between them. *)
Inductive worker_event : Type :=
| WRequest (u : surroundings) (request : Envelope)
| WPump (stamps : list stamp)
| WReceived (rs : list received).

Definition worker_step (protocol_version : Z) (e : worker_event) (w : iq_worker) : iq_worker :=
  match e with
  | WRequest u request => snd (iq_serve protocol_version u request w)
  | WPump stamps => snd (iq_pump stamps w)
  | WReceived rs => w <| wk_session ::= iq_reader_loop json_depth rs |>
  end.

Definition worker_after (protocol_version : Z) (es : list worker_event) (w : iq_worker) : iq_worker :=
  foldl (fun w e => worker_step protocol_version e w) w es.
End worker.
