(* ===== verification/IqTransportProps.v ===== *)
(** * Properties of the IQ Option session

    Along every run of the worker: which orders leave it and on what terms, and how often
    it logs in and reconnects. *)

From S2P Require Import Prelude Datetime Dec PyFloat FloatOrder Json Domain StateDb Writer Reconciliation Protocol.
From S2P Require Import DerivJson DerivTransport DerivSession DerivRecon IqValues Market IqTransport IqSession IqRecon.

(** ** What leaves the session *)

(** An order: a document that opens an option. *)
Definition is_open_option (d : obj) : bool :=
  eq_str (get d "name") "sendMessage"
  && match get d "msg" with VDict m => eq_str (get m "name") "binary-options.open-option" | _ => false end.

Definition opened (l : list obj) : list obj := List.filter is_open_option l.

Lemma opened_app l1 l2 : opened (l1 ++ l2) = opened l1 ++ opened l2.
Proof. apply List.filter_app. Qed.

(** A step that neither orders nor logs in nor uses up a reconnect. *)
Record calm (s s' : IQOptionCommunityReadOnlySession) : Prop := mk_calm {
  calm_sent : opened (iq_sent s') = opened (iq_sent s);
  calm_mode : iq_account_mode s' = iq_account_mode s;
  calm_logins : iq_logins s' = iq_logins s;
  calm_epochs : iq_reconnect_epochs s' = iq_reconnect_epochs s;
  calm_reconnects : iq_reconnects s' = iq_reconnects s
}.

#[export] Instance calm_preorder : PreOrder calm.
Proof. split; [by constructor|]. intros a b c [] []. constructor; congruence. Qed.

Ltac calm_step := first [reflexivity | by constructor].

Lemma calm_modify f : (forall s, calm s (f s)) -> steps calm (py_modify f).
Proof. apply steps_modify. Qed.
#[export] Hint Extern 2 (steps calm (py_modify _)) => apply calm_modify; intros; calm_step : steps.

Lemma calm_send d : is_open_option d = false -> steps calm (iq_send d).
Proof.
  intros Hd s. unfold iq_send. destruct (negb (iq_websocket s)); [reflexivity|].
  assert (forall s1, iq_sent s1 = iq_sent s ++ [d] -> iq_account_mode s1 = iq_account_mode s ->
    iq_logins s1 = iq_logins s -> iq_reconnect_epochs s1 = iq_reconnect_epochs s ->
    iq_reconnects s1 = iq_reconnects s -> calm s s1) as Hc.
  { intros s1 E1 E2 E3 E4 E5. constructor; try done. rewrite E1, opened_app. simpl. rewrite Hd. apply app_nil_r. }
  destruct (match iq_send_outcomes s with [] => None | o :: _ => o end) as [e|]; cbv zeta.
  - destruct (is_connection_exception e); by apply Hc.
  - by apply Hc.
Qed.

Lemma calm_put maxsize q m store :
  (forall q s, calm s (store q s)) -> steps calm (put_or_disconnect maxsize q m store).
Proof. intros H. apply calm_modify. intros s. destruct (_ <? _)%nat; [apply H|calm_step]. Qed.

Lemma calm_time_sync v : steps calm (time_sync v).
Proof.
  unfold time_sync. steps_solve; apply calm_modify; intros ?; destruct (0 <? _); calm_step.
Qed.

Lemma calm_handle_named m : steps calm (handle_named m).
Proof.
  intros s. unfold handle_named. cbv zeta.
  repeat match goal with
  | |- calm _ (snd (if ?b then _ else _)) => destruct b
  | |- calm ?s (snd (iq_send ?d ?s)) => apply calm_send; reflexivity
  | |- calm ?s (snd (put_or_disconnect _ _ _ _ ?s)) => apply calm_put; intros; calm_step
  | |- calm ?s (snd (time_sync _ ?s)) => apply calm_time_sync
  | |- calm _ (snd (match ?x with _ => _ end)) => destruct x
  | |- calm _ _ => calm_step
  end.
  all: simpl; repeat case_match; calm_step.
Qed.

Lemma calm_route_pending m s : calm s (route_pending m s).
Proof. unfold route_pending. repeat case_match; calm_step. Qed.

Lemma calm_handle_message d raw : steps calm (handle_message d raw).
Proof.
  unfold handle_message. steps_solve.
  - apply calm_modify, calm_route_pending.
  - apply calm_handle_named.
Qed.

Lemma calm_reader_iteration d r s : calm s (iq_reader_iteration d r s).
Proof.
  unfold iq_reader_iteration. cbv zeta. destruct (iq_stop s); [calm_step|].
  destruct r as [raw| |e]; [|calm_step|destruct (is_connection_exception e); calm_step].
  pose proof (calm_handle_message d raw s) as H. destruct (handle_message d raw s) as [[u|e] s1]; simpl in H; [done|].
  transitivity s1; [done|]. destruct (is_connection_exception e); calm_step.
Qed.

Lemma calm_reader_loop d rs s : calm s (iq_reader_loop d rs s).
Proof.
  revert s. induction rs as [|r rs IH]; intros s; simpl; [reflexivity|].
  destruct (iq_reader_running s); [|reflexivity]. etransitivity; [apply calm_reader_iteration|apply IH].
Qed.

Lemma calm_wait_for d look rs s : calm s (snd (wait_for d look rs s)).
Proof.
  revert s. induction rs as [|r rs IH]; intros s; simpl; destruct (look s); try reflexivity.
  destruct (iq_reader_running s); [|reflexivity]. etransitivity; [apply calm_reader_iteration|apply IH].
Qed.

Lemma calm_wait_or_timeout d look rs : steps calm (wait_or_timeout d look rs).
Proof.
  intros s. unfold wait_or_timeout. pose proof (calm_wait_for d look rs s) as H.
  by destruct (wait_for d look rs s) as [[m|] s1].
Qed.

Lemma steps_on_error {S A} (R : relation S) `{!PreOrder R} (m : py S A) f :
  steps R m -> (forall s, R s (f s)) -> steps R (py_on_error m f).
Proof.
  intros Hm Hf s. specialize (Hm s). unfold py_on_error. destruct (m s) as [[a|e] s1]; simpl in *; [done|].
  by transitivity s1.
Qed.

#[export] Hint Resolve calm_wait_or_timeout calm_handle_message : steps.

Lemma calm_selected_balance : steps calm selected_balance.
Proof. intros s. unfold selected_balance. by case_match. Qed.
#[export] Hint Resolve calm_selected_balance : steps.

Lemma calm_selected_balance_id : steps calm selected_balance_id.
Proof. unfold selected_balance_id, external. steps_solve. Qed.
#[export] Hint Resolve calm_selected_balance_id : steps.

Lemma calm_clock_epoch : steps calm clock_epoch.
Proof. unfold clock_epoch, external. steps_solve. Qed.
#[export] Hint Resolve calm_clock_epoch : steps.

Lemma calm_binary_expiration n : steps calm (binary_expiration n).
Proof. unfold binary_expiration. steps_solve. Qed.
#[export] Hint Resolve calm_binary_expiration : steps.

(** A request with a document that is no order. *)
Lemma calm_request_message d x payload expected :
  (forall p, payload = Ok p -> is_open_option (p ++ [("request_id", VStr (ix_request_id x))]) = false) ->
  steps calm (request_message d x payload expected).
Proof.
  intros Hp. unfold request_message. cbv zeta. steps_solve.
  apply steps_finally; [typeclasses eauto| |intros; calm_step].
  destruct payload as [p|e]; simpl; [|intros ?; reflexivity].
  apply steps_bind; [typeclasses eauto|auto with steps|intros ? ? ? E].
  apply steps_bind; [typeclasses eauto| |intros; auto with steps].
  apply calm_send. unfold py_lift in E. simplify_eq. by apply Hp.
Qed.

Lemma calm_get_options d x msg : steps calm (get_options d x msg).
Proof. unfold get_options. steps_solve. by apply calm_send. Qed.

Lemma calm_get_betinfo d x msg : steps calm (get_betinfo d x msg).
Proof. unfold get_betinfo. steps_solve. all: by apply calm_send. Qed.

(** ** Orders *)

(** A step that hands over exactly one order. *)
Record placed (d : obj) (s s' : IQOptionCommunityReadOnlySession) : Prop := mk_placed {
  placed_sent : opened (iq_sent s') = opened (iq_sent s) ++ [d];
  placed_mode : iq_account_mode s' = iq_account_mode s;
  placed_logins : iq_logins s' = iq_logins s;
  placed_epochs : iq_reconnect_epochs s' = iq_reconnect_epochs s;
  placed_reconnects : iq_reconnects s' = iq_reconnects s
}.

Lemma placed_calm d s1 s2 s3 : placed d s1 s2 -> calm s2 s3 -> placed d s1 s3.
Proof. intros [] []. constructor; congruence. Qed.

Lemma calm_placed d s1 s2 s3 : calm s1 s2 -> placed d s2 s3 -> placed d s1 s3.
Proof. intros [] []. constructor; congruence. Qed.

Lemma send_placed d s : is_open_option d = true -> calm s (snd (iq_send d s)) \/ placed d s (snd (iq_send d s)).
Proof.
  intros Hd. unfold iq_send. destruct (negb (iq_websocket s)); [left; reflexivity|]. right.
  assert (forall s1, iq_sent s1 = iq_sent s ++ [d] -> iq_account_mode s1 = iq_account_mode s ->
    iq_logins s1 = iq_logins s -> iq_reconnect_epochs s1 = iq_reconnect_epochs s ->
    iq_reconnects s1 = iq_reconnects s -> placed d s s1) as Hc.
  { intros s1 E1 E2 E3 E4 E5. constructor; try done. rewrite E1, opened_app. simpl. by rewrite Hd. }
  destruct (match iq_send_outcomes s with [] => None | o :: _ => o end) as [e|]; cbv zeta.
  - destruct (is_connection_exception e); by apply Hc.
  - by apply Hc.
Qed.

(** The document of a request, with its id. *)
Definition identified (x : iq_exchange) (p : obj) : obj := p ++ [("request_id", VStr (ix_request_id x))].

Lemma request_message_eq d x payload expected s :
  request_message d x payload expected s =
  if is_connected s then
    let s1 := s <| iq_pending ::= fun l => l ++ [(ix_request_id x, None)] |> in
    match py_finally (payload ← py_lift payload;
                      _ ← iq_send (identified x payload);
                      wait_or_timeout d (pending_response (ix_request_id x)) (ix_received x))
            (forget_pending (ix_request_id x)) s1 with
    | (Ok response, s2) => (if String.eqb (pystr (get response "name")) expected then Ok response
                            else Err (IQOptionExternalError "IQOPTION_RESPONSE_UNEXPECTED"), s2)
    | (Err e, s2) => (Err e, s2)
    end
  else (Err websocket_unavailable, s).
Proof.
  unfold request_message, identified. cbv [mbind py_bind py_gets py_guard py_modify mret py_ret].
  destruct (is_connected s); [|done]. cbv beta iota zeta.
  destruct (py_finally _ _ _) as [[r|e] s2]; [|done]. by destruct (String.eqb _ _).
Qed.

Lemma request_placed d x p expected s :
  is_open_option (identified x p) = true ->
  let s' := snd (request_message d x (Ok p) expected s) in calm s s' \/ placed (identified x p) s s'.
Proof.
  intros Hp. cbv zeta. rewrite request_message_eq. destruct (is_connected s); [|left; reflexivity]. cbv zeta.
  set (s1 := s <| iq_pending ::= _ |>). assert (calm s s1) as H1 by calm_step.
  unfold py_finally. cbv [mbind py_bind py_lift].
  pose proof (send_placed (identified x p) s1 Hp) as Hsend. destruct (iq_send (identified x p) s1) as [[u|e] s2]; simpl in Hsend.
  - pose proof (calm_wait_or_timeout d (pending_response (ix_request_id x)) (ix_received x) s2) as Hw.
    destruct (wait_or_timeout _ _ _ s2) as [r s3]; simpl in Hw.
    assert (calm s2 (forget_pending (ix_request_id x) s3)) as H3 by (transitivity s3; [done|calm_step]).
    assert (calm s (forget_pending (ix_request_id x) s3) \/ placed (identified x p) s (forget_pending (ix_request_id x) s3)).
    { destruct Hsend; [left; transitivity s1; [done|by transitivity s2]|right]. eapply placed_calm; [|exact H3].
      by eapply calm_placed. }
    by destruct r.
  - assert (calm s2 (forget_pending (ix_request_id x) s2)) as H3 by calm_step. simpl.
    destruct Hsend; [left; transitivity s1; [done|by transitivity s2]|right]. eapply placed_calm; [|exact H3].
    by eapply calm_placed.
Qed.

(** The terms of an order of the session: the balance it is for and its expiry. *)
Record practice_order (s : IQOptionCommunityReadOnlySession) (x : iq_exchange) (msg d : obj) : Prop := {
  po_practice : iq_account_mode s = PRACTICE;
  po_terms : exists balance id price active epoch expiry,
    balance ∈ default [] (iq_balances s) /\ eq_number (get balance "type") 4 = true /\ get balance "id" = VInt id
    /\ py_decimal (pystr (get_or msg "price" (VStr "0"))) = Ok (Finite price) /\ 0 < coef price
    /\ active_id (pystr (get_or msg "active" (VStr ""))) = Ok active
    /\ is_in (str_lower (pystr (get_or msg "direction" (VStr "")))) ["call"; "put"] = true
    /\ iq_server_epoch s = Some epoch /\ expiry mod 60 = 0 /\ 30 < expiry - epoch <= 90
    /\ d = identified x (open_option (VFloat (fixed (coef price) (dexp price))) active expiry
                           (str_lower (pystr (get_or msg "direction" (VStr "")))) id)
}.

Lemma selected_balance_id_eq s :
  selected_balance_id s = (fst (selected_balance_id s), s)
  /\ (forall id, fst (selected_balance_id s) = Ok id -> exists b, b ∈ default [] (iq_balances s)
        /\ eq_number (get b "type") (balance_type (iq_account_mode s)) = true /\ get b "id" = VInt id).
Proof.
  unfold selected_balance_id, selected_balance, external. cbv [mbind py_bind].
  destruct (List.find _ _) as [b|] eqn:E; [|done]. apply find_some in E as [Hb Ht].
  destruct (get b "id") eqn:Eid; try done. split; [done|]. intros ? [= <-]. exists b. by rewrite list_elem_of_In.
Qed.

Lemma binary_expiration_eq n s :
  binary_expiration n s = (fst (binary_expiration n s), s)
  /\ (forall expiry, fst (binary_expiration n s) = Ok expiry ->
        exists epoch, iq_server_epoch s = Some epoch /\ expiry mod 60 = 0 /\ 30 < expiry - epoch <= 90).
Proof.
  unfold binary_expiration, clock_epoch, external, py_guard. cbv [mbind py_bind py_gets].
  destruct (n =? 1); [|done]. simpl. destruct (iq_server_epoch s) as [epoch|]; [|done]. split; [done|].
  intros expiry [= <-]. exists epoch. split; [done|]. pose proof (Z.mod_pos_bound epoch 60 ltac:(lia)).
  pose proof (Z.div_mod epoch 60 ltac:(lia)). split; [|destruct (_ <? 30) eqn:E; lia].
  apply Z.mod_divide; [done|]. exists (epoch / 60 + (if epoch mod 60 <? 30 then 1 else 2)). lia.
Qed.

Lemma calm_open_answer r : steps calm (open_answer r).
Proof. unfold open_answer, external. steps_solve. Qed.

(** Running the first step of a program. *)
Lemma py_bind_lift_Ok {S A B} (a : A) (k : A -> py S B) s : (py_lift (Ok a) ≫= k) s = k a s.
Proof. done. Qed.
Lemma py_bind_Ok_eq {S A B} (m : py S A) (k : A -> py S B) s a s' : m s = (Ok a, s') -> (m ≫= k) s = k a s'.
Proof. intros E. cbv [mbind py_bind]. by rewrite E. Qed.
Lemma py_bind_Err_eq {S A B} (m : py S A) (k : A -> py S B) s e s' : m s = (Err e, s') -> (m ≫= k) s = (Err e, s').
Proof. intros E. cbv [mbind py_bind]. by rewrite E. Qed.

Lemma request_then_answer d x p s :
  is_open_option (identified x p) = true ->
  let s' := snd ((request_message d x (Ok p) "option" ≫= open_answer) s) in calm s s' \/ placed (identified x p) s s'.
Proof.
  intros Hopen. pose proof (request_placed d x p "option" s Hopen) as Hr. cbv zeta in *. cbv [mbind py_bind].
  destruct (request_message d x (Ok p) "option" s) as [[r|e] s1]; simpl in Hr; [|done].
  pose proof (calm_open_answer r s1) as Ha. destruct (open_answer r s1) as [a s2]. simpl in *.
  destruct Hr as [Hr|Hr]; [left; by transitivity s1|right; by eapply placed_calm].
Qed.

Lemma failed_encoding_calm d x e s :
  calm s (snd ((request_message d x (Err e) "option" ≫= open_answer) s)).
Proof.
  assert (steps calm (request_message d x (Err e) "option" ≫= open_answer)) as H.
  { apply steps_bind; [typeclasses eauto|by apply calm_request_message|intros; apply calm_open_answer]. }
  apply H.
Qed.

(** Buying hands over at most one order, for the selected balance. *)
Lemma buy_places d x msg s :
  iq_account_mode s = PRACTICE ->
  let s' := snd (buy_binary_option d x msg s) in
  calm s s' \/ exists o, placed o s s' /\ practice_order s x msg o.
Proof.
  intros Hmode. unfold buy_binary_option. cbv zeta.
  destruct (py_decimal _) as [price|] eqn:Eprice; [|left; reflexivity]. rewrite (py_bind_lift_Ok price).
  destruct (int_value _) as [duration|]; [|left; reflexivity]. rewrite (py_bind_lift_Ok duration).
  destruct (is_in _ ["call"; "put"]) eqn:Edir; [|left; reflexivity]. cbn [negb].
  destruct (not_positive _ price) as [refused|] eqn:Epos; [|left; reflexivity]. rewrite (py_bind_lift_Ok refused).
  destruct (refused || negb (duration =? 1)) eqn:Eref; [left; reflexivity|]. apply orb_false_iff in Eref as [-> _].
  destruct (selected_balance_id_eq s) as [Es Hb].
  destruct (fst (selected_balance_id s)) as [id|] eqn:Eid; [rewrite (py_bind_Ok_eq _ _ _ _ _ Es)|rewrite (py_bind_Err_eq _ _ _ _ _ Es); left; reflexivity].
  destruct (binary_expiration_eq duration s) as [Ex He].
  destruct (fst (binary_expiration duration s)) as [expiry|] eqn:Eexp;
    [rewrite (py_bind_Ok_eq _ _ _ _ _ Ex)|rewrite (py_bind_Err_eq _ _ _ _ _ Ex); left; reflexivity].
  destruct (active_id _) as [active|] eqn:Eact; [|left; reflexivity]. rewrite (py_bind_lift_Ok active).
  destruct (price_token price) as [token|e] eqn:Etok; [|left; apply failed_encoding_calm].
  destruct (request_then_answer d x (open_option token active expiry
    (str_lower (pystr (get_or msg "direction" (VStr "")))) id) s eq_refl) as [Hr|Hr]; [by left|right].
  eexists. split; [exact Hr|]. split; [done|]. destruct price as [q| | |]; try done.
  unfold price_token in Etok. simpl in Epos.
  destruct (Z.leb_spec (coef q) 0) as [|Hpos]; [done|]. destruct (Z.ltb_spec (coef q) 0); [lia|]. injection Etok as <-.
  destruct (Hb id eq_refl) as (b & Hb1 & Hb2 & Hb3). destruct (He expiry eq_refl) as (epoch & He1 & He2 & He3).
  exists b, id, q, active, epoch, expiry. rewrite Hmode in Hb2. rewrite Z.abs_eq by lia. done.
Qed.

(** A request of the order session or the reconciliation. *)
Lemma session_request_effect d x name msg s :
  let s' := snd (iq_session_request d x name msg s) in
  calm s s' \/ (name = "buy" /\ exists o, placed o s s' /\ practice_order s x msg o).
Proof.
  unfold iq_session_request. cbv [mbind py_bind py_gets py_guard].
  destruct (decide (iq_account_mode s = PRACTICE)) as [Hm|Hm];
    [rewrite bool_decide_true by done|rewrite bool_decide_false by done; left; reflexivity]. simpl.
  destruct (String.eqb_spec name "buy") as [->|].
  { destruct (buy_places d x msg s Hm) as [H|H]; [by left|right; by split]. }
  left. destruct (String.eqb name "get_betinfo"); [apply calm_get_betinfo|].
  destruct (String.eqb name "get_options"); [apply calm_get_options|reflexivity].
Qed.

(** ** Connecting *)

Lemma calm_request_account_snapshot : steps calm request_account_snapshot.
Proof. unfold request_account_snapshot. steps_solve; by apply calm_send. Qed.
#[export] Hint Resolve calm_request_account_snapshot : steps.

Lemma calm_await_account d requested rs : steps calm (await_account d requested rs).
Proof.
  revert requested. induction rs as [|[raw| |e] rs IH]; intros requested; simpl; steps_solve.
Qed.

Lemma calm_get_balance observed : steps calm (get_balance observed).
Proof. unfold get_balance, external. steps_solve. Qed.
#[export] Hint Resolve calm_get_balance : steps.

Lemma calm_snapshot observed : steps calm (iq_snapshot observed).
Proof. unfold iq_snapshot. steps_solve. Qed.
#[export] Hint Resolve calm_snapshot : steps.

Lemma calm_close_transport s : calm s (close_transport false s).
Proof. calm_step. Qed.

Lemma calm_connect_websocket d x cookie : steps calm (connect_websocket d x cookie).
Proof.
  unfold connect_websocket. steps_solve.
  apply steps_on_error; [typeclasses eauto| |apply calm_close_transport]. steps_solve; [by apply calm_send|apply calm_await_account].
Qed.

(** The window of reconnects holds the latest ones, at most five. *)
Definition bounded (b : float) (s : IQOptionCommunityReadOnlySession) : Prop :=
  keeps b (iq_reconnect_epochs s) (iq_reconnects s) /\ (length (iq_reconnect_epochs s) <= 5)%nat.

Lemma bounded_mono b b' s : fleb b b' = true -> bounded b s -> bounded b' s.
Proof. intros Hb [H ?]. split; [by apply (keeps_mono b)|done]. Qed.

Lemma bounded_calm b s s' : calm s s' -> bounded b s -> bounded b s'.
Proof. intros [] [? ?]. unfold bounded. rewrite calm_epochs0, calm_reconnects0. done. Qed.

Lemma bounded_placed o b s s' : placed o s s' -> bounded b s -> bounded b s'.
Proof. intros [] [? ?]. unfold bounded. rewrite placed_epochs0, placed_reconnects0. done. Qed.

(** A step of the connection: no order, at most [n] logins, and reconnects within their
    window. *)
Record connects (now : float) (n : nat) (s s' : IQOptionCommunityReadOnlySession) : Prop := mk_connects {
  connects_sent : opened (iq_sent s') = opened (iq_sent s);
  connects_mode : iq_account_mode s' = iq_account_mode s;
  connects_logins : (iq_logins s' <= iq_logins s + n)%nat;
  connects_bounded : bounded (reconnect_boundary now) s -> bounded (reconnect_boundary now) s'
}.

Lemma calm_connects now s s' : calm s s' -> connects now 0 s s'.
Proof. intros H. constructor; [apply H..|destruct H; lia|by apply bounded_calm]. Qed.

Lemma connects_trans now n1 n2 s1 s2 s3 : connects now n1 s1 s2 -> connects now n2 s2 s3 -> connects now (n1 + n2) s1 s3.
Proof. intros [] []. constructor; [congruence..|lia|auto]. Qed.

Lemma connects_le now n m s s' : (n <= m)%nat -> connects now n s s' -> connects now m s s'.
Proof. intros Hn []. constructor; auto. lia. Qed.

Lemma reserve_eq now s :
  reserve_websocket_reconnect now s =
  let s1 := s <| iq_reconnect_epochs ::= later (reconnect_boundary now) |> in
  if (5 <=? length (later (reconnect_boundary now) (iq_reconnect_epochs s)))%nat
  then (Err (IQOptionExternalError "IQOPTION_WEBSOCKET_RECONNECT_LIMIT_REACHED"), s1)
  else (Ok tt, s1 <| iq_reconnect_epochs ::= fun l => l ++ [now] |> <| iq_reconnects ::= fun l => l ++ [now] |>).
Proof.
  unfold reserve_websocket_reconnect, IQOPTION_WEBSOCKET_RECONNECT_LIMIT, py_guard. cbv [mbind py_bind py_modify py_gets].
  change (iq_reconnect_epochs (s <| iq_reconnect_epochs ::= later (reconnect_boundary now) |>))
    with (later (reconnect_boundary now) (iq_reconnect_epochs s)).
  by destruct (5 <=? _)%nat.
Qed.

Lemma reserve_connects now s : connects now 0 s (snd (reserve_websocket_reconnect now s)).
Proof.
  rewrite reserve_eq. cbv zeta.
  destruct (Nat.leb_spec 5 (length (later (reconnect_boundary now) (iq_reconnect_epochs s)))) as [Hle|Hlt];
    (constructor; [done|done|simpl; lia|]); intros [Hk Hl]; split; cbn [snd iq_reconnect_epochs iq_reconnects set_field].
  - by apply keeps_later.
  - pose proof (later_length (reconnect_boundary now) (iq_reconnect_epochs s)) as Hlen. simpl in *. lia.
  - by apply keeps_app, keeps_later.
  - cbn -[later length]. rewrite length_app. simpl. lia.
Qed.

Lemma cookie_calm c s : calm s (s <| iq_session_cookie := c |>).
Proof. calm_step. Qed.

Lemma reconnect_connects d now x s : connects now 0 s (snd (iq_reconnect d now x s)).
Proof.
  unfold iq_reconnect. destruct (is_connected s); [apply calm_connects, calm_snapshot|].
  destruct (iq_session_cookie s) as [cookie|]; [|by apply calm_connects].
  pose proof (reserve_connects now s) as Hr. destruct (reserve_websocket_reconnect now s) as [[u|e] s1]; simpl in Hr; [|done].
  pose proof (calm_connect_websocket d x cookie s1) as Hc. destruct (connect_websocket d x cookie s1) as [[[]|e] s2]; simpl in Hc.
  - apply (connects_trans now 0 0 s s1 s2); [done|by apply calm_connects].
  - apply (connects_trans now 0 0 s s1); [done|]. apply calm_connects. transitivity s2; [done|].
    destruct (is_auth_failure e); [apply cookie_calm|reflexivity].
Qed.

(** The login and the connection after it. *)
Definition login_and_connect (d : nat) (login : res string) (x : connection) : iq unit := fun s =>
  match login with
  | Err e => (Err e, s <| iq_logins ::= S |>)
  | Ok cookie =>
      match connect_websocket d x cookie (s <| iq_logins ::= S |> <| iq_session_cookie := Some cookie |>) with
      | (Err e, s) => (Err e, if is_auth_failure e then s <| iq_session_cookie := None |> else s)
      | (Ok tt, s) => (Ok tt, s)
      end
  end.

Lemma login_connects d now login x s : connects now 1 s (snd (login_and_connect d login x s)).
Proof.
  unfold login_and_connect. destruct login as [cookie|e]; [|by constructor; simpl; [..|lia|]].
  set (s1 := s <| iq_logins ::= S |> <| iq_session_cookie := Some cookie |>).
  assert (connects now 1 s s1) as H1 by (by constructor; simpl; [..|lia|]).
  pose proof (calm_connect_websocket d x cookie s1) as Hc. destruct (connect_websocket d x cookie s1) as [[[]|e] s2]; simpl in Hc.
  - apply (connects_trans now 1 0 s s1); [done|by apply calm_connects].
  - apply (connects_trans now 1 0 s s1); [done|]. apply calm_connects. transitivity s2; [done|].
    destruct (is_auth_failure e); [apply cookie_calm|reflexivity].
Qed.

Lemma connect_connects d now login x1 x2 s : connects now 1 s (snd (iq_connect d now login x1 x2 s)).
Proof.
  unfold iq_connect. fold (login_and_connect d login x2). cbv zeta.
  destruct (is_connected s); [apply (connects_le now 0); [lia|]; apply calm_connects, calm_snapshot|].
  destruct (iq_session_cookie s) as [cookie|]; [|apply login_connects].
  pose proof (reserve_connects now s) as Hr. destruct (reserve_websocket_reconnect now s) as [[u|e] s1]; simpl in Hr;
    [|by apply (connects_le now 0); [lia|]].
  pose proof (calm_connect_websocket d x1 cookie s1) as Hc. destruct (connect_websocket d x1 cookie s1) as [[[]|e] s2]; simpl in Hc.
  - apply (connects_le now 0); [lia|]. apply (connects_trans now 0 0 s s1); [done|by apply calm_connects].
  - assert (connects now 0 s s2) as H2 by (apply (connects_trans now 0 0 s s1); [done|by apply calm_connects]).
    destruct (is_auth_failure e); [|by apply (connects_le now 0); [lia|]].
    apply (connects_trans now 0 1 s (s2 <| iq_session_cookie := None |>)); [|apply login_connects].
    apply (connects_trans now 0 0 s s2); [done|]. apply calm_connects, cookie_calm.
Qed.

(** ** The order session on the wire *)

(** Steps of the order session and its transport that are calm for the session. *)
Definition wire_calm (p p' : IQOptionOrderSession * wired) : Prop := calm (fst (snd p)) (fst (snd p')).

#[export] Instance wire_calm_preorder : PreOrder wire_calm.
Proof. split; [intros p; unfold wire_calm; reflexivity|]. intros a b c H1 H2. unfold wire_calm in *. by etransitivity. Qed.

Lemma wire_calm_orders {A} (m : py IQOptionOrderSession A) : steps wire_calm (on_orders (T := wired) m).
Proof. intros [o [s xs]]. unfold on_orders, wire_calm. destruct (m o). simpl. reflexivity. Qed.
#[export] Hint Resolve wire_calm_orders : steps.

(** The session and the first exchange of a wire. *)
Definition wire_session (p : IQOptionOrderSession * wired) : IQOptionCommunityReadOnlySession := fst (snd p).
Definition wire_exchange (p : IQOptionOrderSession * wired) : iq_exchange :=
  default (mk_iq_exchange "" []) (head (snd (snd p))).

(** A step that hands over at most one order, on the terms of [msg]. *)
Definition places (msg : obj) (p p' : IQOptionOrderSession * wired) : Prop :=
  wire_calm p p' \/ exists d, placed d (wire_session p) (wire_session p')
                              /\ practice_order (wire_session p) (wire_exchange p) msg d.

Lemma wire_request_effect name msg p :
  let p' := snd (on_wire (order_request name msg) p) in
  fst p' = fst p /\ (wire_calm p p' \/ (name = "buy" /\ places msg p p')).
Proof.
  destruct p as [o [s xs]]. cbv zeta. unfold on_wire. simpl.
  pose proof (session_request_effect 1000 (default (mk_iq_exchange "" []) (head xs)) name msg s) as H.
  destruct (iq_session_request _ _ name msg s) as [r s']. split; [done|].
  destruct H as [H|[-> H]]; [by left|right]. split; [done|]. by right.
Qed.

Lemma wire_calm_request name msg : name <> "buy" -> steps wire_calm (on_wire (T := wired) (order_request name msg)).
Proof. intros Hn p. by destruct (wire_request_effect name msg p) as [_ [H|[H _]]]. Qed.

Lemma wire_calm_receive : steps wire_calm (on_wire (T := wired) order_receive_contract).
Proof.
  intros [o [s xs]]. unfold on_wire, wire_calm. simpl. unfold iq_session_receive_contract.
  destruct (iq_contract_events s); simpl; calm_step.
Qed.
#[export] Hint Resolve wire_calm_receive : steps.

Lemma wire_calm_lookup name msg matches : name <> "buy" -> steps wire_calm (iq_lookup (T := wired) name msg matches).
Proof.
  intros Hn. unfold iq_lookup. apply steps_try; [typeclasses eauto| |].
  - steps_solve. by apply wire_calm_request.
  - intros e k. destruct (is_iq_query_error e); intros [= <-]. auto with steps.
Qed.

Lemma wire_calm_query hash query sp : steps wire_calm (iq_query_order_status (T := wired) hash query sp).
Proof.
  unfold iq_query_order_status, lookup_by_id. steps_solve. all: by apply wire_calm_lookup.
Qed.

Lemma wire_calm_drain hash stamps count : steps wire_calm (iq_drain_contract_events (T := wired) hash stamps count).
Proof. revert count. induction stamps as [|sp stamps IH]; intros count; simpl; steps_solve. Qed.

Lemma wire_calm_answer command sp i r : steps wire_calm (iq_buy_answer (T := wired) command sp i r).
Proof. unfold iq_buy_answer. cbv zeta. steps_solve. Qed.

Lemma places_calm msg p1 p2 p3 : places msg p1 p2 -> wire_calm p2 p3 -> places msg p1 p3.
Proof.
  intros [H|(d & Hd & Hp)] H'; [left; by transitivity p2|right]. exists d. split; [|done]. by eapply placed_calm.
Qed.

(** The place of the object and the payload do not matter to the session. *)
Lemma places_orders {A} (m : py IQOptionOrderSession A) msg p p' :
  places msg (snd (on_orders m p)) p' -> places msg p p'.
Proof. destruct p as [o [s xs]]. unfold on_orders. by destruct (m o). Qed.

(** Submission: at most one order. *)
Lemma buy_submits command sp p : places (iq_buy_payload command) p (snd (iq_buy command sp p)).
Proof.
  unfold iq_buy. destruct (validate_iqoption_order_command command) as [u|e]; [|left; reflexivity].
  rewrite (py_bind_lift_Ok u). set (m1 := on_orders (py_gets _)).
  assert (m1 p = (Ok (length (qs_heap (fst p))), p)) as E1 by by destruct p as [o [s xs]].
  rewrite (py_bind_Ok_eq _ _ _ _ _ E1). set (i := length _).
  set (m2 := on_orders (py_modify _)). apply (places_orders (py_modify (track_ref (iq_tracked_of command (sp_now sp))))).
  fold m2. assert (m2 p = (Ok tt, snd (m2 p))) as E2 by by destruct p as [o [s xs]].
  rewrite (py_bind_Ok_eq _ _ _ _ _ E2). generalize (snd (m2 p)). intros q.
  pose proof (wire_request_effect "buy" (iq_buy_payload command) q) as [_ Hq].
  set (m3 := on_wire _) in *. assert (places (iq_buy_payload command) q (snd (m3 q))) as Hp.
  { destruct Hq as [Hq|[_ Hq]]; [by left|done]. }
  destruct (m3 q) as [[r|e] q'] eqn:E3; simpl in Hp.
  - rewrite (py_bind_Ok_eq _ _ _ _ _ E3). eapply places_calm; [exact Hp|]. apply wire_calm_answer.
  - by rewrite (py_bind_Err_eq _ _ _ _ _ E3).
Qed.

Lemma submit_places command sp p : places (iq_buy_payload command) p (snd (iq_submit_order command sp p)).
Proof.
  unfold iq_submit_order, py_try. pose proof (buy_submits command sp p) as H.
  destruct (iq_buy command sp p) as [[r|e] p']; [done|]. by destruct e.
Qed.

(** ** Runs of the worker *)

(** One login at most, and none before the first connection is attempted. *)
Definition login_inv (w : iq_worker) : Prop :=
  (iq_logins (wk_session w) <= if wk_connect_attempted w then 1 else 0)%nat.

Definition sound (b : float) (w : iq_worker) : Prop := login_inv w /\ bounded b (wk_session w).

(** A step of the worker that orders nothing. *)
Record steady (b : float) (w w' : iq_worker) : Prop := mk_steady {
  steady_sent : opened (iq_sent (wk_session w')) = opened (iq_sent (wk_session w));
  steady_mode : iq_account_mode (wk_session w') = iq_account_mode (wk_session w);
  steady_orders : wk_orders w = None <-> wk_orders w' = None;
  steady_sound : sound b w -> sound b w'
}.

#[export] Instance steady_preorder b : PreOrder (steady b).
Proof. split; [by constructor|]. intros w1 w2 w3 [] []. constructor; [congruence..|tauto|auto]. Qed.

Lemma steady_calm b w w' :
  calm (wk_session w) (wk_session w') -> wk_connect_attempted w' = wk_connect_attempted w ->
  (wk_orders w = None <-> wk_orders w' = None) -> steady b w w'.
Proof.
  intros Hc Ha Ho. constructor; [apply Hc..|done|]. intros [Hl Hb]. split; [|by eapply bounded_calm].
  unfold login_inv in *. by rewrite Ha, (calm_logins _ _ Hc).
Qed.

Lemma steady_session b {A} (m : iq A) : steps calm m -> steps (steady b) (on_worker_session m).
Proof.
  intros Hm w. specialize (Hm (wk_session w)). unfold on_worker_session. destruct (m (wk_session w)) as [r s].
  by apply steady_calm.
Qed.

Lemma steady_connects now n w w' :
  connects now n (wk_session w) (wk_session w') -> (n <= if wk_connect_attempted w then 0 else 1)%nat ->
  (n = 0%nat /\ wk_connect_attempted w' = wk_connect_attempted w) \/ wk_connect_attempted w' = true ->
  wk_orders w' = wk_orders w -> steady (reconnect_boundary now) w w'.
Proof.
  intros [] Hn Ha Ho. constructor; [done|done|by rewrite Ho|]. intros [Hl Hb]. split; [|auto]. unfold login_inv in *.
  destruct Ha as [[-> ->]| ->]; destruct (wk_connect_attempted w); lia.
Qed.

Lemma steady_reconnect d now x : steps (steady (reconnect_boundary now)) (on_worker_session (iq_reconnect d now x)).
Proof.
  intros w. pose proof (reconnect_connects d now x (wk_session w)) as H. unfold on_worker_session.
  destruct (iq_reconnect d now x (wk_session w)) as [r s]. apply (steady_connects now 0); [done|lia|by left|done].
Qed.

Lemma steady_ensure u : steps (steady (reconnect_boundary (su_monotonic u))) (ensure_connected u).
Proof.
  intros w. unfold ensure_connected. destruct (is_connected (wk_session w)); [reflexivity|].
  destruct (wk_connect_attempted w) eqn:Ea; [apply steady_reconnect|].
  pose proof (connect_connects json_depth (su_monotonic u) (su_login u) (su_first u) (su_second u) (wk_session w)) as H.
  unfold on_worker_session. cbn [wk_session set_field].
  change (wk_session (w <| wk_connect_attempted := true |>)) with (wk_session w).
  destruct (iq_connect _ _ _ _ _ (wk_session w)) as [r s].
  apply (steady_connects _ 1); [done|by rewrite Ea|by right|done].
Qed.
#[export] Hint Resolve steady_ensure : steps.

Lemma steady_orders_calm b {A} (m : py (IQOptionOrderSession * wired) A) o xs :
  steps wire_calm m -> forall w, wk_orders w = Some o -> steady b w (snd (on_worker_orders m o xs w)).
Proof.
  intros Hm w Ho. specialize (Hm (o, (wk_session w, xs))). unfold on_worker_orders, wire_calm in *.
  destruct (m (o, (wk_session w, xs))) as [r [o' [s xs']]]. apply steady_calm; [done|done|]. simpl. by rewrite Ho.
Qed.

Lemma calm_get_clock at_ wall : steps calm (get_clock at_ wall).
Proof. unfold get_clock. steps_solve. Qed.

Lemma calm_get_candles d x symbol timeframe count end_epoch : steps calm (get_candles d x symbol timeframe count end_epoch).
Proof. unfold get_candles. steps_solve. all: apply calm_request_message; by intros p [= <-]. Qed.

#[export] Hint Resolve calm_get_clock calm_get_candles steady_session steady_reconnect : steps.

Lemma steady_history u payload : steps (steady (reconnect_boundary (su_monotonic u))) (history_reply u payload).
Proof. unfold history_reply. steps_solve. Qed.

(** Every request but the submission of an order. *)
Lemma steady_branches hash u request :
  en_message_type request <> MT_ORDER_SUBMIT -> steps (steady (reconnect_boundary (su_monotonic u))) (iq_branches hash u request).
Proof.
  intros Hne. unfold iq_branches. destruct (en_message_type request); try done; try (by auto with steps).
  - intros w. destruct (_ && _); [|reflexivity].
    assert (steps (steady (reconnect_boundary (su_monotonic u))) (_ ← on_worker_session (iq_reconnect json_depth (su_monotonic u) (su_first u));
      mret (MT_PONG, [] : obj))) as H; [|apply H]. steps_solve.
  - apply steps_bind; [typeclasses eauto|auto with steps|intros _ _ _ _].
    intros w. cbv [mbind py_bind py_gets]. destruct (wk_orders w) as [o|] eqn:Eo; [|reflexivity].
    destruct (parse_order_status_request request) as [q|e]; [|reflexivity]. simpl.
    pose proof (steady_orders_calm (reconnect_boundary (su_monotonic u)) (iq_query_order_status hash q (su_stamp u)) o (su_exchanges u)
      (wire_calm_query hash q (su_stamp u)) w Eo) as H.
    by destruct (on_worker_orders _ o (su_exchanges u) w) as [[r|e] w1].
  - apply steady_history.
  - steps_solve.
  - steps_solve.
Qed.

Lemma steady_serve hash version u request :
  en_message_type request <> MT_ORDER_SUBMIT -> steps (steady (reconnect_boundary (su_monotonic u))) (iq_serve hash version u request).
Proof.
  intros Hne. unfold iq_serve, iq_dispatch. steps_solve. apply steps_try; [typeclasses eauto|by apply steady_branches|].
  intros e k. destruct e; intros [= <-]. auto with steps.
Qed.

(** A submission: at most one order, and only from a Practice worker. *)
Record submits (b : float) (w w' : iq_worker) : Prop := mk_submits {
  submits_sent : exists l, opened (iq_sent (wk_session w')) = opened (iq_sent (wk_session w)) ++ l /\ (length l <= 1)%nat
                   /\ (l <> [] -> iq_account_mode (wk_session w) = PRACTICE /\ wk_orders w <> None);
  submits_mode : iq_account_mode (wk_session w') = iq_account_mode (wk_session w);
  submits_orders : wk_orders w = None <-> wk_orders w' = None;
  submits_sound : sound b w -> sound b w'
}.

Lemma steady_submits b w w' : steady b w w' -> submits b w w'.
Proof. intros []. constructor; auto. exists []. rewrite app_nil_r. by split_and!; [|simpl; lia|]. Qed.

Lemma submits_steady b w1 w2 w3 : steady b w1 w2 -> submits b w2 w3 -> submits b w1 w3.
Proof.
  intros [] [(l & Hl & Hn & Hp) Hm Ho Hs]. constructor; [|congruence|tauto|auto].
  exists l. split; [congruence|]. split; [done|]. intros H. destruct (Hp H) as [Hp1 Hp2]. split; [congruence|tauto].
Qed.

Lemma submits_orders_step b command sp o xs w :
  wk_orders w <> None -> submits b w (snd (on_worker_orders (iq_submit_order (T := wired) command sp) o xs w)).
Proof.
  intros Ho. pose proof (submit_places command sp (o, (wk_session w, xs))) as H. unfold on_worker_orders.
  destruct (iq_submit_order (T := wired) command sp (o, (wk_session w, xs))) as [r [o' [s xs']]].
  unfold places, wire_calm, wire_session in H. cbn [fst snd] in H.
  destruct H as [H|(d & [] & Hp)]; [apply steady_submits, steady_calm; [exact H|reflexivity|by split]|].
  constructor; simpl.
  - exists [d]. split; [done|]. split; [simpl; lia|]. intros _. split; [apply Hp|done].
  - done.
  - by split.
  - intros [Hl [Hk Hb]]. split; [unfold login_inv in *; simpl; by rewrite placed_logins0|].
    split; simpl; by rewrite ?placed_epochs0, ?placed_reconnects0.
Qed.

Lemma submits_branches hash u request w :
  en_message_type request = MT_ORDER_SUBMIT -> submits (reconnect_boundary (su_monotonic u)) w (snd (iq_branches hash u request w)).
Proof.
  intros Et. unfold iq_branches. rewrite Et. cbv [mbind py_bind py_gets].
  destruct (wk_orders w) as [o|] eqn:Eo; [|by apply steady_submits].
  pose proof (steady_ensure u w) as He. destruct (ensure_connected u w) as [[x|e] w1]; simpl in He; [|by apply steady_submits].
  eapply submits_steady; [exact He|]. destruct (parse_order_submit request) as [command|e]; [|by apply steady_submits].
  cbn [py_lift]. assert (wk_orders w1 <> None) as Ho by (rewrite <- (steady_orders _ _ _ He), Eo; done).
  pose proof (submits_orders_step (reconnect_boundary (su_monotonic u)) command (su_stamp u) o (su_exchanges u) w1 Ho) as H.
  by destruct (on_worker_orders _ o (su_exchanges u) w1) as [[r|e] w2].
Qed.

Lemma serve_submits hash version u request w : submits (reconnect_boundary (su_monotonic u)) w (snd (iq_serve hash version u request w)).
Proof.
  destruct (decide (en_message_type request = MT_ORDER_SUBMIT)) as [Et|Et];
    [|apply steady_submits; by apply steady_serve].
  unfold iq_serve. cbv [mbind py_bind py_lift]. destruct (iq_validate_routing version request); [|by apply steady_submits].
  unfold iq_dispatch, py_try. pose proof (submits_branches hash u request w Et) as H.
  destruct (iq_branches hash u request w) as [[r|e] w1]; [done|]. by destruct e.
Qed.

Lemma steady_pump b hash stamps w : steady b w (snd (iq_pump hash stamps w)).
Proof.
  unfold iq_pump. destruct (wk_orders w) as [o|] eqn:Eo; [|reflexivity]. destruct (negb (wk_pumping w)); [reflexivity|].
  pose proof (steady_orders_calm b (iq_drain_contract_events hash stamps 0) o [] (wire_calm_drain hash stamps 0) w Eo) as H.
  destruct (on_worker_orders _ o [] w) as [[r|e] w1]; simpl in *.
  - transitivity w1; [done|]. apply steady_calm; [reflexivity|done|]. simpl. by destruct (wk_orders w1).
  - transitivity w1; [done|]. by apply steady_calm.
Qed.

Lemma steady_received b rs w : steady b w (w <| wk_session ::= iq_reader_loop json_depth rs |>).
Proof. apply steady_calm; [apply calm_reader_loop|done|done]. Qed.

(** The reading of the monotonic clock that comes with an event. *)
Definition event_now (e : worker_event) : option float :=
  match e with WRequest u _ => Some (su_monotonic u) | _ => None end.

(** The number of submissions among events. *)
Definition submissions (es : list worker_event) : nat :=
  length (List.filter (fun e => match e with
    | WRequest _ request => bool_decide (en_message_type request = MT_ORDER_SUBMIT) | _ => false end) es).

Fixpoint worker_window_advances (b : float) (es : list worker_event) : Prop :=
  match es with
  | [] => True
  | e :: es =>
      match event_now e with
      | Some now => fleb b (reconnect_boundary now) = true /\ worker_window_advances (reconnect_boundary now) es
      | None => worker_window_advances b es
      end
  end.

Fixpoint last_window (b : float) (es : list worker_event) : float :=
  match es with
  | [] => b
  | e :: es => last_window (match event_now e with Some now => reconnect_boundary now | None => b end) es
  end.

Section runs.
Variables (document_hash : obj -> string) (payload_hash : payload -> string) (version : Z).

Lemma step_submits b e w :
  submits (match event_now e with Some now => reconnect_boundary now | None => b end) w
    (worker_step document_hash payload_hash version e w).
Proof.
  destruct e as [u request|stamps|rs]; simpl.
  - apply serve_submits.
  - apply steady_submits, steady_pump.
  - apply steady_submits, steady_received.
Qed.

Lemma step_steady e w :
  submissions [e] = 0%nat ->
  opened (iq_sent (wk_session (worker_step document_hash payload_hash version e w))) = opened (iq_sent (wk_session w)).
Proof.
  destruct e as [u request|stamps|rs]; intros Hs; simpl.
  - unfold submissions in Hs. simpl in Hs. case_bool_decide; [done|].
    apply (steady_serve document_hash version u request ltac:(done) w).
  - apply (steady_pump (float_of_Z 0)).
  - apply (steady_received (float_of_Z 0)).
Qed.

Lemma submissions_cons e es : submissions (e :: es) = (submissions [e] + submissions es)%nat.
Proof. unfold submissions. simpl. destruct e; simpl; try done. by destruct (bool_decide _). Qed.

(** C15: Orders leave only a Practice worker, one per submission.  Along every run of the
    worker, with any requests, frames and failures, the number of orders handed to the
    connection is at most the number of submissions, and there is none unless the account
    mode is Practice and the worker was started for it. *)
Theorem orders_leave_only_in_practice connection_mode mode outcomes es :
  let w := worker_after document_hash payload_hash version es (new_worker connection_mode (new_session mode outcomes)) in
  (length (opened (iq_sent (wk_session w))) <= submissions es)%nat
  /\ (opened (iq_sent (wk_session w)) <> [] -> mode = PRACTICE /\ is_demo connection_mode = true).
Proof.
  cbv zeta. set (w0 := new_worker connection_mode (new_session mode outcomes)).
  assert (forall es w, (length (opened (iq_sent (wk_session (worker_after document_hash payload_hash version es w))))
      <= length (opened (iq_sent (wk_session w))) + submissions es)%nat
    /\ (opened (iq_sent (wk_session w)) = [] -> opened (iq_sent (wk_session (worker_after document_hash payload_hash version es w))) <> [] ->
        iq_account_mode (wk_session w) = PRACTICE /\ wk_orders w <> None)) as H.
  { clear es. unfold worker_after. induction es as [|e es IH]; intros w; simpl; [split; [lia|done]|].
    set (w1 := worker_step _ _ _ e w). destruct (IH w1) as [IH1 IH2].
    destruct (step_submits (float_of_Z 0) e w) as [(l & Hl & Hn & Hp) Hm Ho _]. fold w1 in Hl, Hm, Ho.
    rewrite submissions_cons. split.
    - assert (length l <= submissions [e])%nat.
      { destruct (submissions [e]) eqn:Es; [|lia]. pose proof (step_steady e w Es) as Hst. fold w1 in Hst.
        rewrite Hst in Hl. destruct l; [simpl; lia|]. apply (f_equal length) in Hl. rewrite length_app in Hl. simpl in Hl. lia. }
      rewrite Hl, length_app in IH1. lia.
    - intros E0 Hne. destruct l as [|d l]; [|by apply Hp].
      rewrite E0 in Hl. destruct (IH2 Hl Hne) as [H1 H2]. split; [congruence|tauto]. }
  destruct (H es w0) as [H1 H2]. split; [exact H1|]. intros Hne. destruct (H2 eq_refl Hne) as [Hm Ho].
  split; [done|]. unfold w0, new_worker in Ho. simpl in Ho. by destruct (is_demo connection_mode).
Qed.

(** The worker neither storms the login nor the connection.  Along every run it makes
    at most one HTTP login, and at most five of its reconnects are later than the last
    reading of the clock less 900 seconds, as long as the clock does not move the window
    back. *)
Theorem connections_are_bounded connection_mode mode outcomes b es :
  fleb b b = true -> worker_window_advances b es ->
  let w := worker_after document_hash payload_hash version es (new_worker connection_mode (new_session mode outcomes)) in
  (iq_logins (wk_session w) <= 1)%nat
  /\ (length (later (last_window b es) (iq_reconnects (wk_session w))) <= 5)%nat.
Proof.
  intros Hb Hw. cbv zeta. set (w0 := new_worker connection_mode (new_session mode outcomes)).
  assert (forall es b w, fleb b b = true -> worker_window_advances b es -> sound b w ->
    sound (last_window b es) (worker_after document_hash payload_hash version es w)
    /\ fleb (last_window b es) (last_window b es) = true) as H.
  { clear. unfold worker_after. induction es as [|e es IH]; intros b w Hb Hw Hs; simpl in *; [done|].
    destruct (step_submits b e w) as [_ _ _ Hstep]. destruct (event_now e) as [now|].
    - destruct Hw as [Hbn Hw]. apply IH; [by eapply fleb_self|done|]. apply Hstep.
      destruct Hs as [Hl Hbd]. split; [done|by eapply bounded_mono].
    - apply IH; [done|done|]. by apply Hstep. }
  destruct (H es b w0 Hb Hw) as [[Hl [Hk Hn]] Hbb].
  { split; [unfold login_inv; simpl; lia|]. split; simpl; [done|lia]. }
  split; [unfold login_inv in Hl; by destruct (wk_connect_attempted _); lia|].
  pose proof (keeps_length _ _ _ Hbb Hk). lia.
Qed.
End runs.
