(* ===== verification/IqProps.v ===== *)
(** * Correctness of the IQ Option order session

    What a submission reports and leaves behind, that the settlement of an accepted order
    is reported, where evidence comes from, and what the core makes of an absence. *)

From S2P Require Import Prelude Datetime Dec PyFloat Json Domain StateDb Writer Health Risk Coordinator Reconciliation Protocol.
From S2P Require Import DerivJson DerivTransport DerivSession DerivRecon DerivProps.
From S2P Require Import IqValues CentsText Market IqTransport IqSession IqRecon IqTransportProps.

Section submission.
Context {T : Type} {transport : IQOptionOrderTransport T}.
Implicit Types (s : IQOptionOrderSession) (t : T).

(** ** Submission *)

Lemma iq_buy_eq command sp s t :
  iq_buy command sp (s, t) =
  match validate_iqoption_order_command command with
  | Err e => (Err e, (s, t))
  | Ok _ =>
      let s1 := track_ref (iq_tracked_of command (sp_now sp)) s in
      let '(r, t1) := order_request "buy" (iq_buy_payload command) t in
      match r with
      | Err e => (Err e, (s1, t1))
      | Ok response => iq_buy_answer command sp (length (qs_heap s)) response (s1, t1)
      end
  end.
Proof.
  unfold iq_buy, on_orders, on_wire. cbv [mbind py_bind py_lift py_gets py_modify].
  destruct (validate_iqoption_order_command command) as [[]|]; [|done].
  by destruct (order_request "buy" (iq_buy_payload command) t) as [[response|e] t1].
Qed.

Lemma iq_buy_answer_eq command sp i response s t :
  iq_buy_answer command sp i response (s, t) =
  let id := pystr (contract_id_of response) in
  if negb (pybool (get response "status")) then
    (Ok (result_of command sp WO_REJECTED None
           (Some (pystr (get_or response "reason" (get_or response "message" (VStr "ORDER_REJECTED")))))),
     (s <| qs_tracked_by_ref ::= delete (oc_order_id command) |>, t))
  else if is_none (contract_id_of response) || is_in (str_strip id) [""; "None"] then (Err response_invalid, (s, t))
  else (Ok (result_of command sp WO_ACCEPTED (Some id) None), (track_contract i id s, t)).
Proof.
  unfold iq_buy_answer, on_orders. cbv [mbind py_bind py_lift py_gets py_modify py_guard mret py_ret]. cbv zeta.
  destruct (pybool (get response "status")); cbn [negb]; [|done].
  by destruct (is_none (contract_id_of response) || is_in (str_strip (pystr (contract_id_of response))) [""; "None"]).
Qed.

(** The order of the command is followed under the contract id. *)
Definition follows (command : OrderCommand) (now : datetime) (id : string) s : Prop := exists i,
  qs_tracked s !! id = Some i /\ qs_tracked_by_ref s !! oc_order_id command = Some i /\
  qs_heap s !! i = Some ((iq_tracked_of command now) <| tq_broker_order_id := Some id |>).

Lemma tracked_follows command now id s :
  follows command now id (track_contract (length (qs_heap s)) id (track_ref (iq_tracked_of command now) s)).
Proof.
  exists (length (qs_heap s)). simpl. split_and!; [apply lookup_insert_eq|apply lookup_insert_eq|].
  rewrite list_lookup_alter_eq, lookup_app_r, Nat.sub_diag by lia. reflexivity.
Qed.

(** What a result says, and what it leaves behind. *)
Definition answered (command : OrderCommand) (now : datetime) s s' (r : WorkerSubmissionResult) : Prop :=
  ws_correlation_id r = oc_correlation_id command /\ ws_causation_id r = oc_message_id command /\
  match ws_outcome r with
  | WO_ACCEPTED =>
      validate_iqoption_order_command command = Ok tt
      /\ exists id, ws_broker_order_id r = Some id /\ nonblank id = true /\ follows command now id s'
  | WO_REJECTED => ws_broker_order_id r = None /\ ws_reason_code r <> None /\ qs_tracked s' = qs_tracked s
  | WO_TIMEOUT_AFTER_POSSIBLE_SEND =>
      ws_broker_order_id r = None /\ ws_reason_code r <> None /\ qs_tracked s' = qs_tracked s
      /\ (validate_iqoption_order_command command = Ok tt ->
          qs_tracked_by_ref s' !! oc_order_id command = Some (length (qs_heap s)))
  end.

Lemma submission_answered command sp s t r s' t' :
  iq_submit_order command sp (s, t) = (Ok r, (s', t')) ->
  answered command (sp_now sp) s s' r.
Proof.
  intros H. assert (forall reason s1, qs_tracked s1 = qs_tracked s ->
      (validate_iqoption_order_command command = Ok tt -> qs_tracked_by_ref s1 !! oc_order_id command = Some (length (qs_heap s))) ->
      answered command (sp_now sp) s s1 (result_of command sp
        (if is_delivery_unknown reason then WO_TIMEOUT_AFTER_POSSIBLE_SEND else WO_REJECTED) None (Some reason))) as Hfail.
  { intros reason s1 H1 H2. by destruct (is_delivery_unknown reason). }
  revert H. unfold iq_submit_order, py_try. rewrite iq_buy_eq.
  destruct (validate_iqoption_order_command command) as [[]|e] eqn:Ev.
  - set (s1 := track_ref _ s). cbv zeta.
    assert (qs_tracked_by_ref s1 !! oc_order_id command = Some (length (qs_heap s))) as Href by apply lookup_insert_eq.
    destruct (order_request "buy" (iq_buy_payload command) t) as [[response|e] t1].
    + rewrite iq_buy_answer_eq. cbv zeta. destruct (pybool (get response "status")); cbn [negb].
      * destruct (_ || _) eqn:Eid; [intros [= <- <- <-]; by apply (Hfail "IQOPTION_ORDER_RESPONSE_INVALID")|].
        intros [= <- <- <-]. apply orb_false_iff in Eid as [_ Eid]. do 2 (split; [done|]). split; [done|]. eexists. split_and!; [done| |apply tracked_follows].
        unfold nonblank. unfold is_in in Eid. simpl in Eid. by apply orb_false_iff in Eid as [-> _].
      * by intros [= <- <- <-].
    + destruct e; intros [= <- <- <-]; first [by apply Hfail | by apply (Hfail "IQOPTION_REQUEST_TIMEOUT")].
  - destruct e; intros [= <- <- <-]; first
      [apply Hfail; [done|congruence] | apply (Hfail "IQOPTION_REQUEST_TIMEOUT"); [done|congruence]].
Qed.

(** An answer with a contract. *)
Lemma iq_submission_followed command sp s t r s' t' id :
  iq_submit_order command sp (s, t) = (Ok r, (s', t')) -> ws_broker_order_id r = Some id ->
  validate_iqoption_order_command command = Ok tt /\ nonblank id = true /\ follows command (sp_now sp) id s'.
Proof.
  intros (_ & _ & H)%submission_answered Hid. destruct (ws_outcome r).
  - destruct H as (Hv & id' & Hid' & Hnb & Hf). rewrite Hid in Hid'. injection Hid' as ->. auto.
  - destruct H as (H & _). congruence.
  - destruct H as (H & _). congruence.
Qed.

(** What a submission reports.  Every result names the command; an ACCEPTED one has a
    contract id that is not blank and the order is followed under it; any other result has
    no contract, carries a reason, and no contract is followed that was not before; after
    a timeout the order still waits under its reference. *)
Theorem iq_submission_is_answered command sp s t r s' t' :
  iq_submit_order command sp (s, t) = (Ok r, (s', t')) ->
  answered command (sp_now sp) s s' r.
Proof. apply submission_answered. Qed.
End submission.

(** ** Orders on the wire *)

Lemma validated_positive command : validate_iqoption_order_command command = Ok tt -> 0 < minor_units (oc_amount command).
Proof.
  unfold validate_iqoption_order_command. intros Hv. do 3 (apply res_bind_Ok in Hv as (? & _ & Hv)).
  apply res_bind_Ok in Hv as (? & Ha & _). unfold guard_res in Ha.
  destruct (0 <? minor_units (oc_amount command)) eqn:Ea; [|done]. by apply Z.ltb_lt.
Qed.

(** The order of the command: the stake of the command to the cent, its symbol and
    direction, the Practice balance [id], and the expiry. *)
Definition order_document (x : iq_exchange) (command : OrderCommand) (active expiry id : Z) : obj :=
  identified x (open_option (VFloat (fixed (minor_units (oc_amount command)) (-2))) active expiry
                  (str_lower (value (oc_direction command))) id).

(** C16: An IQ Option submission hands at most one order to the connection, and it is the
    order of the command: on a balance of the type Practice of a Practice session, for the
    symbol and direction of the command, expiring at the full minute that is between 30
    and 90 seconds ahead of the broker's clock, at a price whose text reads back as
    exactly the stake of the command. *)
Theorem iq_order_carries_the_stake command sp (p : IQOptionOrderSession * wired) :
  minor_units (oc_amount command) < 10 ^ prec ->
  let p' := snd (iq_submit_order (T := wired) command sp p) in
  opened (iq_sent (wire_session p')) = opened (iq_sent (wire_session p))
  \/ exists balance id active epoch expiry,
    opened (iq_sent (wire_session p'))
      = opened (iq_sent (wire_session p)) ++ [order_document (wire_exchange p) command active expiry id]
    /\ iq_account_mode (wire_session p) = PRACTICE /\ balance ∈ default [] (iq_balances (wire_session p))
    /\ eq_number (get balance "type") 4 = true /\ get balance "id" = VInt id /\ active_id (oc_symbol command) = Ok active
    /\ iq_server_epoch (wire_session p) = Some epoch /\ expiry mod 60 = 0 /\ 30 < expiry - epoch <= 90
    /\ parse_decimal (fixed (minor_units (oc_amount command)) (-2)) = Some (Finite (mk_dec (minor_units (oc_amount command)) (-2))).
Proof.
  intros Hb. cbv zeta. destruct (validate_iqoption_order_command command) as [[]|e] eqn:Ev.
  2: { left. unfold iq_submit_order, py_try. destruct p as [s t]. rewrite (iq_buy_eq command sp s t), Ev. by destruct e. }
  destruct (submit_places command sp p) as [H|(d & [Hd _ _ _ _] & [Hm Ht])]; [left; apply H|right].
  destruct Ht as (balance & id & price & active & epoch & expiry & H1 & H2 & H3 & Hp & _ & Ha & Hdir & He & Hx & Hr & ->).
  assert (0 < minor_units (oc_amount command)) as Hpos by by apply validated_positive.
  simpl in Hp. rewrite cents_text_roundtrip in Hp by lia. injection Hp as <-.
  exists balance, id, active, epoch, expiry. split_and!; try done; [|lia|lia|by apply parse_fixed; lia].
  assert (str_lower (pystr (get_or (iq_buy_payload command) "direction" (VStr ""))) = str_lower (value (oc_direction command))) as Hl
    by (simpl; by destruct (oc_direction command)).
  by rewrite Hl in Hd.
Qed.

(** ** Contract messages *)

Section events.
Variable payload_hash : payload -> string.
Hypothesis hash_is_text : forall p, nonblank (payload_hash p) = true.

(** The event of a report on a tracked order. *)
Definition iq_event (t : TrackedIQOptionOrder) (contract_id : string) (r : iq_report) (event_id : string) (now : datetime)
    : BrokerOrderEvent :=
  let e := mk_BrokerOrderEvent event_id 1 IQ_OPTION (tq_account_id t) (tq_client_order_ref t) contract_id
    (tq_correlation_id t) (Some (tq_sequence t)) (ir_status r) now now (tq_product t) (tq_symbol t) (tq_direction t)
    (tq_amount t) (ir_result_minor r) ((fun _ => currency (tq_amount t)) <$> ir_result_minor r) "" None None in
  e <| bo_evidence_hash := payload_hash (canonical_payload e) |>.

(** An order whose events have all that an event needs. *)
Record reportable (t : TrackedIQOptionOrder) : Prop := mk_reportable {
  rp_account : nonblank (tq_account_id t) = true; rp_ref : nonblank (tq_client_order_ref t) = true;
  rp_correlation : nonblank (tq_correlation_id t) = true; rp_product : nonblank (tq_product t) = true;
  rp_symbol : nonblank (tq_symbol t) = true; rp_amount : 0 < minor_units (tq_amount t);
  rp_money : money_ok (tq_amount t) = true
}.

Definition stamp_ok (sp : stamp) : Prop := utc_valid (sp_now sp) = true /\ nonblank (sp_uuid sp) = true.

(** What a report can be. *)
Definition report_ok (r : iq_report) : Prop :=
  (ir_status r = EX_OPEN /\ ir_result_minor r = None) \/ (ir_status r = EX_SETTLED /\ ir_result_minor r <> None).

Lemma report_of_ok msg stake r : iq_report_of msg stake = Ok (Some r) -> report_ok r.
Proof.
  unfold iq_report_of, iq_external_status. destruct (_ || _); [intros [= <-]; by left|].
  destruct (_ || _); [|done]. intros (result & _ & [= <-])%res_bind_Ok. right. by split.
Qed.

Lemma money_currency m : money_ok m = true -> normalize_currency "result_currency must be a three-letter code" (currency m) = Ok (currency m).
Proof.
  intros H%new_Money_ok. unfold new_Money in H. apply res_bind_Ok in H as (c & Hc & [= H]).
  unfold normalize_currency in *. destruct (_ && _); [|done]. cbv [mbind res_bind guard_res] in *.
  injection Hc as <-. destruct m. simpl in *. by injection H as ->.
Qed.

Lemma nonblank_not_empty x : nonblank x = true -> String.eqb x "" = false.
Proof. intros H. destruct (String.eqb_spec x "") as [->|]; [|done]. discriminate H. Qed.

Lemma iq_event_made t contract_id r sp :
  reportable t -> stamp_ok sp -> report_ok r -> nonblank contract_id = true -> 0 < tq_sequence t ->
  iq_event_of payload_hash t contract_id r (sp_uuid sp) (sp_now sp) =
  Ok (iq_event t contract_id r (sp_uuid sp) (sp_now sp)).
Proof.
  intros [] [[Hd Hu]%andb_true_iff Hid] Hr Hc Hs. set (e := iq_event _ _ _ _ _).
  assert (iq_event_of payload_hash t contract_id r (sp_uuid sp) (sp_now sp)
          = BrokerOrderEvent_from_payload payload_hash (BrokerOrderEvent_to_payload e)) as ->.
  { unfold iq_event_of, iq_canonical_fields. by rewrite (nonblank_not_empty _ Hc). }
  apply BrokerOrderEvent_payload_roundtrip; [|done..].
  unfold BrokerOrderEvent_post_init, e, iq_event. cbn -[canonical_payload normalize_currency nonblank].
  apply bool_decide_eq_true in Hu.
  rewrite !(proj2 (require_aware_utc_Ok _ _) Hu), Hid, rp_account0, rp_ref0, Hc, rp_correlation0, rp_product0, rp_symbol0, hash_is_text.
  rewrite (proj2 (Z.ltb_lt _ _) Hs), (proj2 (Z.ltb_lt _ _) rp_amount0). cbv [mbind res_bind guard_res].
  destruct Hr as [[E1 E2]|[E1 E2]]; rewrite E1.
  - rewrite E2, (bool_decide_false (EX_OPEN = EX_SETTLED)) by done.
    rewrite !bool_decide_true by done. cbn -[canonical_payload bool_decide]. rewrite !bool_decide_true by done. reflexivity.
  - destruct (ir_result_minor r) as [n|]; [|done]. rewrite !bool_decide_true by done. cbn -[canonical_payload normalize_currency].
    rewrite (money_currency _ rp_money0). cbn -[canonical_payload bool_decide]. rewrite !bool_decide_true by done. reflexivity.
Qed.

Definition settles (msg : obj) : bool :=
  bool_decide (iq_external_status (lower_text msg "status") (lower_text msg "win") = Some EX_SETTLED).

Lemma report_settles msg stake r : iq_report_of msg stake = Ok (Some r) -> settles msg = bool_decide (ir_status r = EX_SETTLED).
Proof.
  unfold iq_report_of, settles. destruct (iq_external_status _ _) as [st|] eqn:E; [|done].
  assert (st = EX_OPEN \/ st = EX_SETTLED) as [->| ->].
  { unfold iq_external_status in E. destruct (_ || _); [by left; injection E|]. by destruct (_ || _); [right; injection E|]. }
  - by intros [= <-].
  - by intros (result & _ & [= <-])%res_bind_Ok.
Qed.

(** A message on a tracked order. *)
Lemma process_tracked msg sp (s : IQOptionOrderSession) i t r :
  iq_find_tracked msg s = Some i -> qs_heap s !! i = Some t ->
  iq_report_of msg (minor_units (tq_amount t)) = Ok (Some r) ->
  process_raw_contract_message payload_hash msg sp s =
  let t' := t <| tq_sequence ::= Z.succ |> in
  let s1 := s <| qs_heap ::= <[ i := t' ]> |> in
  match iq_event_of payload_hash t' (message_contract_id msg) r (sp_uuid sp) (sp_now sp) with
  | Err e => (Err e, s1)
  | Ok event =>
      let s2 := iq_put_event event s1 in
      (Ok (Some event), if settles msg then iq_untrack (message_contract_id msg) (tq_client_order_ref t) s2 else s2)
  end.
Proof.
  intros Hf Ht Hr. rewrite (report_settles _ _ _ Hr). unfold process_raw_contract_message, tracked_at, iq_next_sequence.
  cbv [mbind py_bind py_lift py_gets py_modify mret py_ret]. rewrite Hf, Ht, Hr, Ht.
  destruct (iq_event_of _ _ _ _ _ _); [|done]. by destruct (bool_decide (ir_status r = EX_SETTLED)).
Qed.

Lemma process_untracked msg sp (s : IQOptionOrderSession) :
  (forall i t r, iq_find_tracked msg s = Some i -> qs_heap s !! i = Some t ->
     iq_report_of msg (minor_units (tq_amount t)) <> Ok (Some r)) ->
  snd (process_raw_contract_message payload_hash msg sp s) = s.
Proof.
  intros H. unfold process_raw_contract_message, tracked_at. cbv [mbind py_bind py_lift py_gets mret py_ret].
  destruct (iq_find_tracked msg s) as [i|]; [|done]. destruct (qs_heap s !! i) as [t|] eqn:Ht; [|done].
  destruct (iq_report_of msg (minor_units (tq_amount t))) as [[r|]|] eqn:Er; [|done..]. by destruct (H i t r eq_refl Ht).
Qed.

(** What any message does to the orders that are followed. *)
Lemma process_moves msg sp (s : IQOptionOrderSession) :
  let s' := snd (process_raw_contract_message payload_hash msg sp s) in
  (qs_tracked s' = qs_tracked s \/ settles msg = true /\ qs_tracked s' = delete (message_contract_id msg) (qs_tracked s))
  /\ (qs_heap s' = qs_heap s
      \/ exists i t, qs_heap s !! i = Some t /\ qs_heap s' = <[ i := t <| tq_sequence ::= Z.succ |> ]> (qs_heap s)).
Proof.
  cbv zeta. destruct (iq_find_tracked msg s) as [i|] eqn:Hf; [|by rewrite process_untracked; [split; by left|by rewrite Hf]].
  destruct (qs_heap s !! i) as [t|] eqn:Ht;
    [|by rewrite process_untracked; [split; by left|rewrite Hf; intros ? ? ? [= <-]; congruence]].
  destruct (iq_report_of msg (minor_units (tq_amount t))) as [[r|]|] eqn:Er;
    [|by rewrite process_untracked; [split; by left|rewrite Hf; intros ? ? ? [= <-]; congruence]..].
  rewrite (process_tracked _ _ _ _ _ _ Hf Ht Er). cbv zeta.
  destruct (iq_event_of _ _ _ _ _ _) as [ev|e]; [|split; [by left|right; by exists i, t]].
  unfold iq_put_event. destruct (_ <? _)%nat, (settles msg) eqn:Es;
    (split; [|right; by exists i, t]); simpl; try destruct (String.eqb _ _); first [by left|by right].
Qed.

(** The order of the command is followed under the contract id, whatever its number. *)
Definition still_follows (command : OrderCommand) (now : datetime) (id : string) (s : IQOptionOrderSession) : Prop :=
  exists i n, 0 <= n /\ qs_tracked s !! id = Some i /\
    qs_heap s !! i = Some ((iq_tracked_of command now) <| tq_broker_order_id := Some id |> <| tq_sequence := n |>).

Lemma follows_still command now id s : follows command now id s -> still_follows command now id s.
Proof. intros (i & H1 & _ & H2). exists i, 0. by split_and!. Qed.

Lemma process_still_follows msg sp command now id s :
  still_follows command now id s -> settles msg && String.eqb (message_contract_id msg) id = false ->
  still_follows command now id (snd (process_raw_contract_message payload_hash msg sp s)).
Proof.
  intros (i & n & Hn & Hi & Ht) Hm. destruct (process_moves msg sp s) as [H1 H2].
  set (s' := snd _) in *. assert (qs_tracked s' !! id = Some i) as Hi'.
  { destruct H1 as [->|[Hs ->]]; [done|]. rewrite Hs in Hm. simpl in Hm.
    rewrite lookup_delete_ne; [done|]. by apply String.eqb_neq. }
  destruct H2 as [H2|(j & t & Hj & H2)]; [exists i, n; by rewrite H2|].
  destruct (decide (i = j)) as [<-|Hne].
  - exists i, (n + 1). split_and!; [lia|done|]. rewrite H2, list_lookup_insert_eq by by eapply lookup_lt_Some.
    rewrite Ht in Hj. injection Hj as <-. reflexivity.
  - exists i, n. split_and!; [done..|]. by rewrite H2, list_lookup_insert_ne.
Qed.

(** The session after messages, also those whose processing raises. *)
Definition after_messages (ms : list (obj * stamp)) (s : IQOptionOrderSession) : IQOptionOrderSession :=
  foldl (fun s '(msg, sp) => snd (process_raw_contract_message payload_hash msg sp s)) s ms.

Lemma messages_still_follow ms command now id s :
  still_follows command now id s ->
  Forall (fun m => settles (fst m) && String.eqb (message_contract_id (fst m)) id = false) ms ->
  still_follows command now id (after_messages ms s).
Proof.
  intros H Hms. revert s H. induction Hms as [|[msg sp] ms Hm Hms IH]; intros s H; simpl; [done|].
  apply IH. by apply process_still_follows.
Qed.

Lemma accepted_reportable command now id n :
  OrderCommand_post_init command = Ok command -> money_ok (oc_amount command) = true ->
  validate_iqoption_order_command command = Ok tt ->
  reportable ((iq_tracked_of command now) <| tq_broker_order_id := Some id |> <| tq_sequence := n |>).
Proof.
  unfold OrderCommand_post_init. intros Hc Hm Hv.
  apply res_bind_Ok in Hc as (? & _ & Hc). apply res_bind_Ok in Hc as (? & Hne & _).
  cbn -[nonblank] in Hne. apply validated_positive in Hv.
  repeat (let H := fresh "Hn" in apply res_bind_Ok in Hne as (? & H & Hne);
          unfold guard_res in H; destruct (nonblank _) eqn:? in H; [|done]).
  constructor; simpl; done.
Qed.

(** C17: The settlement of an accepted order is reported.  After any messages that do not
    settle the contract, also malformed ones and those of other orders, a message that
    reports on the contract gives an event of the order: with its references, terms and a
    positive number, with the status and the result of the message; the event is queued
    unless the queue is full, and the contract is followed until it is settled. *)
Theorem iq_settlement_is_reported {T} {transport : IQOptionOrderTransport T} command sp s (t : T) r s1 t1 id ms msg sp' rep :
  OrderCommand_post_init command = Ok command -> money_ok (oc_amount command) = true ->
  iq_submit_order command sp (s, t) = (Ok r, (s1, t1)) -> ws_broker_order_id r = Some id ->
  Forall (fun m => settles (fst m) && String.eqb (message_contract_id (fst m)) id = false) ms ->
  message_contract_id msg = id -> iq_report_of msg (minor_units (oc_amount command)) = Ok (Some rep) -> stamp_ok sp' ->
  let s2 := after_messages ms s1 in
  exists ev s3 n, process_raw_contract_message payload_hash msg sp' s2 = (Ok (Some ev), s3) /\ 0 < n /\
    ev = iq_event ((iq_tracked_of command (sp_now sp)) <| tq_broker_order_id := Some id |> <| tq_sequence := n |>) id rep
           (sp_uuid sp') (sp_now sp') /\
    qs_events s3 = (if (length (qs_events s2) <? 1024)%nat then qs_events s2 ++ [ev] else qs_events s2) /\
    (qs_tracked s3 !! id = None <-> settles msg = true).
Proof.
  intros Hc Hm Hsub Hid Hms <- Hrep Hsp. cbv zeta. pose proof (iq_submission_followed _ _ _ _ _ _ _ _ Hsub Hid) as (Hv & Hnb & Hf).
  destruct (messages_still_follow ms _ _ _ _ (follows_still _ _ _ _ Hf) Hms) as (i & n & Hn & Hi & Ht).
  set (s2 := after_messages ms s1) in *.
  set (u := (iq_tracked_of command (sp_now sp)) <| tq_broker_order_id := Some (message_contract_id msg) |>) in *.
  assert (iq_find_tracked msg s2 = Some i) as Hfind by (unfold iq_find_tracked; by rewrite Hi).
  rewrite (process_tracked msg sp' s2 i _ rep Hfind Ht Hrep). cbv zeta.
  change ((u <| tq_sequence := n |>) <| tq_sequence ::= Z.succ |>) with (u <| tq_sequence := n + 1 |>).
  rewrite iq_event_made; [|by apply accepted_reportable|done|by eapply report_of_ok|done|simpl; lia].
  eexists _, _, (n + 1). split; [reflexivity|]. split_and!; [lia|done| |].
  - unfold iq_put_event. simpl. by destruct (_ <? _)%nat, (settles msg).
  - unfold iq_put_event. destruct (_ <? _)%nat, (settles msg); simpl;
      rewrite ?(nonblank_not_empty _ Hnb), ?lookup_delete_eq, ?Hi; done.
Qed.
End events.

(** ** Evidence *)

Section evidence.
Variable document_hash : obj -> string.

(** A term of the document that is reported agrees with the query. *)
Definition iq_agrees (query : OrderStatusQuery) (contract : obj) : Prop :=
  pystr (get_or contract "active" (get_or contract "symbol" (VStr ""))) ∈ [""; sq_symbol query] /\
  str_upper (pystr (get_or contract "direction" (VStr ""))) ∈ [""; value (sq_direction query)] /\
  str_upper (pystr (get_or contract "currency" (VStr ""))) ∈ [""; currency (sq_amount query)].

(** Evidence that says of the contract what its document says, in the terms of the
    query. *)
Record iq_evidence_from (query : OrderStatusQuery) (contract : obj) (ev : ReconciliationEvidence) : Prop := mk_iq_evidence_from {
  qf_contract : ev_broker_order_id ev = match get_or contract "id" (get contract "contract_id") with VNull => None | v => Some (pystr v) end;
  qf_document : ev_raw_reference_hash ev = Some (document_hash contract);
  qf_agrees : iq_agrees query contract;
  qf_order : ev_client_order_ref ev = sq_client_order_ref query /\ ev_account_id ev = sq_account_id query /\
    ev_product ev = sq_product query /\ ev_symbol ev = sq_symbol query /\ ev_direction ev = sq_direction query /\
    ev_amount ev = sq_amount query /\ ev_broker ev = IQ_OPTION;
  qf_status : contract_status contract = Some (ev_external_status ev);
  qf_result : if bool_decide (ev_external_status ev = EX_SETTLED) then
      exists minor, iq_result_minor (get_or contract "profit_amount" (get_or contract "win_amount" (VStr "0.00")))
                      (minor_units (sq_amount query)) = Ok minor /\ ev_realized_pnl_minor ev = Some minor
    else ev_realized_pnl_minor ev = None;
  qf_id : opt_nonblank (ev_broker_order_id ev) = true
}.

Lemma no_iq_mismatch query contract : iq_mismatch query contract = None -> iq_agrees query contract.
Proof.
  assert (forall x y, negb (String.eqb x "") && negb (String.eqb x y) = false -> x ∈ [""; y]) as H.
  { intros x y. rewrite !elem_of_cons. destruct (String.eqb_spec x ""), (String.eqb_spec x y); simpl; auto. done. }
  unfold iq_mismatch, iq_agrees. cbv zeta. intros Hm.
  destruct (negb _ && negb _) eqn:E1 in Hm; [done|]. destruct (negb _ && negb _) eqn:E2 in Hm; [done|].
  destruct (negb _ && negb _) eqn:E3 in Hm; [done|]. auto.
Qed.

(** What the answer to a query can be, for a document that was found. *)
Lemma build_evidence_answer query contract sp r :
  iq_build_evidence document_hash query contract sp = Ok r ->
  sr_not_found_evidence r = None /\ sr_outcome r <> SQ_NOT_FOUND /\
  forall ev, sr_evidence r = Some ev -> iq_evidence_from query contract ev.
Proof.
  unfold iq_build_evidence. destruct (iq_mismatch query contract) eqn:Em; [by intros [= <-]|].
  destruct (contract_status contract) as [status|] eqn:Es; [|by intros [= <-]].
  intros (realized & Hr & H)%res_bind_Ok. apply res_bind_Ok in H as (e & He & [= <-]).
  split; [done|]. split; [done|]. intros ev [= <-]. pose proof He as Hid. apply evidence_post_init_same in He as ->.
  constructor; simpl; try done; [by apply no_iq_mismatch| |].
  - destruct (bool_decide (status = EX_SETTLED)).
    + destruct (iq_result_minor _ _) as [minor|]; simpl in Hr; [|done]. injection Hr as <-. eauto.
    + by injection Hr as <-.
  - unfold ReconciliationEvidence_post_init in Hid. do 2 (apply res_bind_Ok in Hid as (? & _ & Hid)).
    apply res_bind_Ok in Hid as (? & Hg & _). unfold guard_res in Hg. simpl in Hg. by destruct (opt_nonblank _).
Qed.
End evidence.

(** *** The contract that is found *)

Lemma dict_get_set k (v : json) d : dict_get k (dict_set k v d) = Some v.
Proof.
  induction d as [|[k' v'] d IH]; simpl; [by rewrite String.eqb_refl|].
  destruct (String.eqb k k') eqn:E; simpl; [by rewrite String.eqb_refl|]. by rewrite E.
Qed.

Lemma dict_get_set_Some k k' (v : json) d : dict_get k d <> None -> dict_get k (dict_set k' v d) <> None.
Proof.
  induction d as [|[k1 v1] d IH]; simpl; [done|]. destruct (String.eqb_spec k' k1) as [->|Hne]; simpl.
  - by destruct (String.eqb k k1).
  - by destruct (String.eqb k k1).
Qed.

Lemma dict_merge_Some k (a b : obj) : dict_get k a <> None -> dict_get k (dict_merge a b) <> None.
Proof.
  unfold dict_merge. revert a. induction b as [|[k' v] b IH]; intros a H; simpl; [done|]. by apply IH, dict_get_set_Some.
Qed.

Lemma first_some_Some {A B} (f : A -> option B) l b : first_some f l = Some b -> exists a, a ∈ l /\ f a = Some b.
Proof.
  induction l as [|a l IH]; simpl; [done|]. destruct (f a) eqn:E.
  - intros [= <-]. exists a. split; [left|done].
  - intros (a' & Ha & Hf)%IH. exists a'. split; [by right|done].
Qed.

Lemma exact_id_text raw id v : exact_id raw id = Some v -> pystr v = id.
Proof.
  unfold exact_id. destruct (List.find _ _) as [w|] eqn:E; [|done]. apply find_some in E as [_ E%String.eqb_eq].
  by destruct w; intros [= <-].
Qed.

(** A contract that is found has an id; one that is looked up without an id has the empty
    one. *)
Lemma find_exact_id id ref raw c :
  find_exact_contract id ref raw = Some c -> exists v, dict_get "id" c = Some v /\ (id = "" -> pystr v = "").
Proof.
  revert c. induction raw as [| | | | |l IH|d IH] using json_nested_ind; intros c; cbn -[first_some CONTAINER_KEYS exact_id]; try done.
  - intros (x & Hx & H)%first_some_Some. rewrite Forall_forall in IH. by apply (IH x Hx).
  - destruct (_ || _) eqn:Em.
    + intros [= <-]. eexists. split; [apply dict_get_set|]. intros ->.
      destruct (exact_id d "") as [v|] eqn:E; simpl; [by apply exact_id_text in E|done].
    + intros (key & _ & H)%first_some_Some.
      destruct (List.find _ _) as [[k [child found]]|] eqn:Ef; [|done].
      apply find_some in Ef as [Hin _]. apply in_map_iff in Hin as ([k' v'] & [= <- <- <-] & Hin%list_elem_of_In).
      rewrite Forall_forall in IH. specialize (IH _ Hin). simpl in IH.
      destruct v'; try by apply IH. cbv beta iota in H.
      destruct (negb (String.eqb id "")) eqn:En; [|by apply IH].
      destruct (dict_get id l) as [[]|] eqn:Ek; try by apply IH. injection H as <-.
      destruct (dict_get "id" (dict_merge _ _)) as [v|] eqn:Ev; [|by apply dict_merge_Some in Ev].
      exists v. split; [done|]. intros ->. done.
Qed.

Lemma lookup_run {T} {transport : IQOptionOrderTransport T} name msg matches s (t : T) c s' t' :
  iq_lookup name msg matches (s, t) = (Ok (Some c), (s', t')) ->
  exists m response, msg = Ok m /\ order_request name m t = (Ok response, t') /\
    get response "result" = VDict c /\ matches c = true.
Proof.
  unfold iq_lookup, py_try, on_wire. cbv [mbind py_bind py_lift mret py_ret].
  destruct msg as [m|e]; [|by destruct (is_iq_query_error e)].
  destruct (order_request name m t) as [[response|e] t1] eqn:Er; [|by destruct (is_iq_query_error e)].
  destruct (pybool (get response "isSuccessful")); [|done]. destruct (get response "result") as [| | | | | |d] eqn:Ed; try done.
  destruct (matches d) eqn:Em; [|done]. intros [= <- _ <-]. by exists m, response.
Qed.

(** *** The lookups of a query

    The requests that a query makes are observed through a transport that works like the
    given one and writes down its requests. *)

Record iq_entry : Type := mk_iq_entry { qg_name : string; qg_message : obj; qg_reply : res obj }.

#[export] Instance iq_logged {T} `{IQOptionOrderTransport T} : IQOptionOrderTransport (T * list iq_entry) := {
  order_request name msg := fun '(t, l) =>
    let '(r, t) := order_request name msg t in (r, (t, l ++ [mk_iq_entry name msg r]));
  order_receive_contract := fun '(t, l) => let '(r, t) := order_receive_contract t in (r, (t, l))
}.

Section lookups.
Context {T : Type} {transport : IQOptionOrderTransport T}.
Implicit Types (p : IQOptionOrderSession * (T * list iq_entry)).

(** The document that a lookup finds is that of an answer. *)
Lemma lookup_found name msg matches p c p' :
  iq_lookup name msg matches p = (Ok (Some c), p') ->
  exists m response, msg = Ok m /\ mk_iq_entry name m (Ok response) ∈ snd (snd p') /\
    get response "result" = VDict c /\ matches c = true.
Proof.
  destruct p as [s [t l]], p' as [s' [t' l']]. intros (m & response & -> & Hr & Hc & Hm)%lookup_run. exists m, response.
  split_and!; [done| |done|done]. simpl in *. destruct (order_request name m t) as [r t1]. injection Hr as -> _ <-.
  apply elem_of_app. right. by left.
Qed.

(** How the document was looked up, and what it carries of that. *)
Definition looked_up (query : OrderStatusQuery) (m contract : obj) : Prop :=
  (exists id n, sq_broker_order_id query = Some id /\ py_int id = Ok n /\ m = [("id", VInt n)]
     /\ has_contract_id id contract = true)
  \/ (m = [("client_order_id", VStr (sq_order_id query))]
      /\ eq_str (get contract "client_order_id") (sq_client_order_ref query) = true).

(** The document was the answer to a lookup. *)
Definition lookup_result (query : OrderStatusQuery) (l : list iq_entry) (contract : obj) : Prop :=
  exists name m response, mk_iq_entry name m (Ok response) ∈ l /\ get response "result" = VDict contract
    /\ looked_up query m contract.

Lemma by_id_result query p c p' :
  lookup_by_id query p = (Ok (Some c), p') -> lookup_result query (snd (snd p')) c.
Proof.
  unfold lookup_by_id. destruct (sq_broker_order_id query) as [id|] eqn:Ei; [|done].
  assert (forall name p p', iq_lookup name (by_id id) (has_contract_id id) p = (Ok (Some c), p') ->
            lookup_result query (snd (snd p')) c) as Hl.
  { intros name q q' (m & response & Hm & Hr & Hc & Hq)%lookup_found. exists name, m, response.
    split; [done|]. split; [done|]. left. apply res_bind_Ok in Hm as (n & Hn & [= <-]). by exists id, n. }
  intros H. apply py_bind_Ok in H as (first & p1 & H1 & H). destruct first as [c'|].
  - injection H as -> ->. destruct (nonblank id); [by eapply Hl|done].
  - by eapply Hl.
Qed.

(** What a query answers, by the document that it finds. *)
Lemma query_answer document_hash query sp p r p' :
  iq_query_order_status (T := T * list iq_entry) document_hash query sp p = (Ok r, p') ->
  r = unavailable "IQOPTION_BROKER_MISMATCH" \/ r = iq_not_found
  \/ exists contract, lookup_result query (snd (snd p')) contract
        /\ iq_build_evidence document_hash query contract sp = Ok r.
Proof.
  unfold iq_query_order_status. destruct (negb _); [intros [= <- _]; by left|]. intros H. right.
  apply py_bind_Ok in H as (first & p1 & H1 & H). apply py_bind_Ok in H as (found & p2 & H2 & H).
  destruct found as [contract|]; [right|injection H as <- _; by left]. exists contract.
  cbv [py_lift] in H. injection H as Hb <-. split; [|done]. destruct first as [c|].
  - injection H2 as -> ->. by eapply by_id_result.
  - apply lookup_found in H2 as (m & response & [= <-] & Hr & Hc & Hq). eexists _, _, response.
    split; [done|]. split; [done|]. by right.
Qed.

(** What the core does to an order that stays unresolved. *)
Definition left_unresolved (env : query_env) (attempt_id order_id : string) (state : OrderState)
    : core_m ReconciliationItemResult :=
  _ ← complete env attempt_id "UNRESOLVED" "RECONCILIATION_NOT_FOUND";
  _ ← gate (block "HG_ORDER_UNKNOWN");
  mret (mk_ReconciliationItemResult order_id RO_UNRESOLVED state (Some "RECONCILIATION_NOT_FOUND")).

(** Evidence is the broker's record, and its absence proves nothing.  Over any
    transport an answer with evidence comes from a document that a lookup of the query
    returned: it was looked up by the broker id of the query and carries it, or by the
    reference of the order and carries that; the terms that it reports agree with the
    query, and status and result are read off it.  NOT_FOUND never comes with negative
    evidence, so the core leaves the order unresolved and closes the gate. *)
Theorem iq_evidence_is_the_brokers_record document_hash query sp s (t : T) r s' t' l :
  iq_query_order_status document_hash query sp (s, (t, [])) = (Ok r, (s', (t', l))) ->
  sr_not_found_evidence r = None /\
  (sr_outcome r = SQ_NOT_FOUND -> forall inject policy env a o st,
     apply_not_found inject policy env a o st (sr_not_found_evidence r) = left_unresolved env a o st) /\
  forall ev, sr_evidence r = Some ev -> exists contract,
    lookup_result query l contract /\ iq_evidence_from document_hash query contract ev.
Proof.
  intros [->|[->|(contract & Hl & Hb)]]%query_answer; [done..|].
  apply build_evidence_answer in Hb as (Hn & Ho & He). split; [done|]. split; [done|]. eauto.
Qed.
End lookups.

(** *** Queries over the session of the worker *)

(** The document in an answer was searched for. *)
Lemma found_contract_result matched c : get (found_contract matched) "result" = VDict c -> matched = Some c.
Proof. destruct matched; simpl; [by intros [= ->]|done]. Qed.

Lemma options_answer depth x msg s response s' c :
  get_options depth x msg s = (Ok response, s') -> get response "result" = VDict c ->
  exists ref raw, find_exact_contract (pystr (get_or msg "id" (VStr ""))) ref raw = Some c.
Proof. intros H Hc. unfold get_options in H. py_inv H. subst. apply found_contract_result in Hc. eauto. Qed.

(** The documents that the session of the worker gives, by the id they are looked up with. *)
Lemma community_options_answer m (t : wired) response t' c :
  order_request "get_options" m t = (Ok response, t') -> get response "result" = VDict c ->
  exists ref raw, find_exact_contract (pystr (get_or m "id" (VStr ""))) ref raw = Some c.
Proof.
  destruct t as [s xs]. simpl. unfold iq_session_request. cbv [mbind py_bind py_gets py_guard mret py_ret].
  destruct (bool_decide (iq_account_mode s = PRACTICE)); [|done]. simpl.
  destruct (get_options _ _ m s) as [r s1] eqn:E. intros [= -> _] Hc. by eapply options_answer.
Qed.


(** A query without a broker id: over the session of the worker a contract that is found
    by the reference of its order has the empty id, which is no evidence. *)
Lemma reference_query_gives_no_evidence document_hash query sp (p p' : IQOptionOrderSession * wired) r :
  sq_broker_order_id query = None -> iq_query_order_status document_hash query sp p = (Ok r, p') -> sr_evidence r = None.
Proof.
  intros Hq. unfold iq_query_order_status, lookup_by_id. rewrite Hq. destruct (negb _); [by intros [= <- _]|]. intros H.
  apply py_bind_Ok in H as (first & p1 & [= <- <-] & H). apply py_bind_Ok in H as ([c|] & p2 & H2 & H); [|by injection H as <- _].
  destruct p as [s t], p2 as [s2 t2]. apply lookup_run in H2 as (m & response & [= <-] & Hr & Hc & _).
  apply (community_options_answer _ _ _ _ c) in Hr as (ref & raw & Hf); [|done].
  apply find_exact_id in Hf as (v & Hid & Hv). specialize (Hv eq_refl). cbv [py_lift] in H. injection H as Hb _.
  apply build_evidence_answer in Hb as (_ & _ & He). destruct (sr_evidence r) as [ev|]; [|done].
  destruct (He ev eq_refl) as [H1 _ _ _ _ _ H2]. unfold get_or in H1. rewrite Hid in H1. simpl in H1.
  rewrite H1 in H2. by destruct v; simpl in H2, Hv; rewrite ?Hv in H2.
Qed.

(** ** A worker in practice *)

Module IqTrade.
Definition moment (minute : Z) : datetime := mk_datetime 2026 1 1 12 minute 0 0 (Some 0).
Definition stamp_at (minute : Z) : stamp := mk_stamp (moment minute) (moment minute) "id".
Definition hash (p : payload) : string := "h".
Definition digest (d : obj) : string := "sha".

Definition command : OrderCommand :=
  mk_OrderCommand "m1" "c1" "i1" "o1" IQ_OPTION "PRACTICE_ACCOUNT" "BINARY_OPTION" "EURUSD" CALL (mk_Money 150 "USD")
    (moment 30) 1 "m" None.
Definition query (id : option string) : OrderStatusQuery :=
  mk_OrderStatusQuery "c1" "i1" "o1" "o1" IQ_OPTION "PRACTICE_ACCOUNT" "BINARY_OPTION" "EURUSD" CALL (mk_Money 150 "USD") id None.

Definition frame (name : string) (msg : json) (rest : obj) : received :=
  Frame (encode_deriv_json (VDict (("name", VStr name) :: ("msg", msg) :: rest))).

Definition balance : json :=
  VDict [("id", VInt 9); ("type", VInt 4); ("currency", VStr "USD"); ("amount", VInt 10000)].
Definition login_frames : list received :=
  [frame "timeSync" (VInt 1767268800123) []; frame "authenticated" (VBool true) [];
   frame "profile" (VDict [("user_id", VInt 1)]) []; frame "balances" (VList [balance]) []].
Definition line (rs : list received) : connection := mk_connection None rs (float_of_Z 10) (float_of_Z 11) (moment 0).

Definition around (xs : list iq_exchange) : surroundings :=
  mk_surroundings (float_of_Z 10) (float_of_Z 1767268800) (Ok "cookie") (line login_frames) (line login_frames) xs (stamp_at 1).
Definition ask (t : MessageType) (p : payload) : Envelope :=
  mk_Envelope 1 "m1" "c1" None ER_CORE ER_IQOPTION_WORKER t (moment 0) (Some (moment 30)) (of_payload p).
Definition submit (xs : list iq_exchange) : worker_event :=
  WRequest (around xs) (ask MT_ORDER_SUBMIT (OrderCommand_to_payload command)).

Definition opened_frame : received := frame "option" (VDict [("id", VInt 77)]) [("request_id", VStr "r1")].
Definition won_frame : received :=
  frame "option-closed" (VDict [("option_id", VInt 77); ("amount", VFloat "1.5"); ("profit_amount", VFloat "2.7")]) [].
Definition bought : list iq_exchange := [mk_iq_exchange "r1" [opened_frame]].

Definition after (outcomes : list (option exn)) (es : list worker_event) : iq_worker :=
  worker_after digest hash 1 es (new_worker "DEMO_AUTH_FINANCIAL" (new_session PRACTICE outcomes)).
Definition serve (outcomes : list (option exn)) (es : list worker_event) (u : surroundings) (request : Envelope)
    : res (MessageType * obj) := fst (iq_serve digest 1 u request (after outcomes es)).
End IqTrade.

(** The order is placed and accepted, and its settlement leaves the worker. *)
Example sample_trade :
  fst <$> IqTrade.serve [] [] (IqTrade.around IqTrade.bought) (IqTrade.ask MT_ORDER_SUBMIT (OrderCommand_to_payload IqTrade.command)) = Ok MT_ORDER_ACCEPTED
  /\ length (opened (iq_sent (wk_session (IqTrade.after [] [IqTrade.submit IqTrade.bought])))) = 1%nat
  /\ (fun e => (bo_broker_order_id e, bo_external_status e, bo_result_minor e)) <$>
       fst (iq_pump IqTrade.hash [IqTrade.stamp_at 2; IqTrade.stamp_at 3]
              (IqTrade.after [] [IqTrade.submit IqTrade.bought; WReceived [IqTrade.won_frame]]))
     = [("77", EX_SETTLED, Some 120)].
Proof. vm_compute. done. Qed.

Module IqBroken.
(** The status request of the order, with what its lookups meet. *)
Definition status (id : option string) (es : list worker_event) (xs : list iq_exchange) : res (MessageType * obj) :=
  IqTrade.serve [] es (IqTrade.around xs) (IqTrade.ask MT_ORDER_STATUS_REQUEST (OrderStatusQuery_to_payload (IqTrade.query id))).

Definition listed : iq_exchange :=
  mk_iq_exchange "r2" [IqTrade.frame "options" (VList [VDict [("id", VInt 77); ("client_order_id", VStr "o1");
    ("status", VStr "win"); ("win_amount", VFloat "2.7")]]) []].

(** The fourth document that is sent is the order; the connection breaks over it. *)
Definition breaking : list (option exn) := [None; None; None; Some (OSError "broken pipe")].
Definition unexpected : list iq_exchange := [mk_iq_exchange "r1" [IqTrade.frame "notice" VNull [("request_id", VStr "r1")]]].
Definition submission (outcomes : list (option exn)) (xs : list iq_exchange) : res (MessageType * obj) :=
  IqTrade.serve outcomes [] (IqTrade.around xs) (IqTrade.ask MT_ORDER_SUBMIT (OrderCommand_to_payload IqTrade.command)).

Definition infinite_frame : received :=
  IqTrade.frame "option-closed" (VDict [("option_id", VInt 77); ("amount", VFloat "1.5"); ("profit_amount", VFloat "Infinity")]) [].
Definition nan_frame : received :=
  IqTrade.frame "option-closed" (VDict [("option_id", VInt 77); ("amount", VFloat "1.5"); ("profit_amount", VFloat "NaN")]) [].
Definition named_by_list : received := Frame (encode_deriv_json (VDict [("name", VList [])])).
End IqBroken.

(** The query by the reference of the order finds its contract, and ends the worker: the
    contract got the empty id of the request. *)
Example reference_query_ends_the_worker :
  IqBroken.status None [IqTrade.submit IqTrade.bought] [IqBroken.listed]
  = Err (ValueError "broker_order_id cannot be blank").
Proof. vm_compute. reflexivity. Qed.

(** The answer to a query is NOT_FOUND although no request of it was answered. *)
Example unanswered_query_is_not_found :
  (fun r => get (snd r) "query_outcome") <$> IqBroken.status (Some "77") [IqTrade.submit IqTrade.bought] []
  = Ok (VStr "NOT_FOUND").
Proof. vm_compute. reflexivity. Qed.

(** The order was handed to the connection, but the result is REJECTED: when the
    connection breaks over it, and when the answer to it has another name. *)
Example possibly_sent_order_is_rejected :
  fst <$> IqBroken.submission IqBroken.breaking [] = Ok MT_ORDER_REJECTED
  /\ fst <$> IqBroken.submission [] IqBroken.unexpected = Ok MT_ORDER_REJECTED
  /\ length (opened (iq_sent (wk_session (IqTrade.after IqBroken.breaking [IqTrade.submit []])))) = 1%nat
  /\ length (opened (iq_sent (wk_session (IqTrade.after [] [IqTrade.submit IqBroken.unexpected])))) = 1%nat.
Proof. vm_compute. done. Qed.

(** A frame whose name is a list, or a contract with a profit that is no number, ends the
    reader, and the session still counts as connected. *)
Example reader_ends_unnoticed :
  (fun frame => let s := wk_session (IqTrade.after [] [IqTrade.submit IqTrade.bought; WReceived [frame]]) in
                (iq_reader_running s, is_connected s)) <$> [IqTrade.won_frame; IqBroken.named_by_list; IqBroken.nan_frame]
  = [(true, true); (false, true); (false, true)].
Proof. vm_compute. reflexivity. Qed.

(** A contract with an infinite profit ends the event pump, and no later event leaves the
    worker. *)
Example infinite_profit_ends_the_pump :
  let w := IqTrade.after [] [IqTrade.submit IqTrade.bought; WReceived [IqBroken.infinite_frame]; WPump [IqTrade.stamp_at 2];
                             WReceived [IqTrade.won_frame]] in
  wk_pumping w = false /\ fst (iq_pump IqTrade.hash [IqTrade.stamp_at 3] w) = [].
Proof. vm_compute. done. Qed.

(** ** Witnesses *)

(** A transport whose answers are given. *)
#[export] Instance scripted_orders : IQOptionOrderTransport (list (res obj)) := {
  order_request name msg := fun l => match l with [] => (Err TimeoutError, []) | r :: l => (r, l) end;
  order_receive_contract := fun l => (Ok None, l)
}.

Module IqWitness.
Definition orders : IQOptionOrderSession := mk_IQOptionOrderSession "PRACTICE_ACCOUNT" true [] ∅ ∅ [].
Definition accepted_reply : res obj := Ok [("status", VBool true); ("id", VInt 77)].
Definition submitted := iq_submit_order IqTrade.command (IqTrade.stamp_at 1) (orders, [accepted_reply]).
Definition accepted : WorkerSubmissionResult :=
  result_of IqTrade.command (IqTrade.stamp_at 1) WO_ACCEPTED (Some "77") None.

Definition other : obj := [("id", VInt 78); ("status", VStr "win")].
Definition open_message : obj := [("id", VInt 77); ("status", VStr "open")].
Definition won : obj := [("id", VInt 77); ("status", VStr "win"); ("win", VStr "win"); ("win_amount", VStr "2.7")].
Definition before : list (obj * stamp) := [(other, IqTrade.stamp_at 2); (open_message, IqTrade.stamp_at 3)].

Definition contract : obj := [("id", VInt 77); ("status", VStr "win"); ("win_amount", VStr "2.7"); ("active", VStr "EURUSD")].
Definition contract_reply : res obj := Ok [("isSuccessful", VBool true); ("result", VDict contract)].
Definition queried := iq_query_order_status IqTrade.digest (IqTrade.query (Some "77")) (IqTrade.stamp_at 4)
  (orders, ([contract_reply], [])).

(** The session after the login, and around it the exchange of the order. *)
Definition line : IQOptionOrderSession * wired :=
  (orders, (wk_session (IqTrade.after [] [WRequest (IqTrade.around []) (IqTrade.ask MT_BROKER_CLOCK_REQUEST ∅)]), IqTrade.bought)).

Definition ping (now : Z) : worker_event :=
  WRequest (mk_surroundings (float_of_Z now) (float_of_Z now) (Ok "cookie") (IqTrade.line []) (IqTrade.line IqTrade.login_frames) [] (IqTrade.stamp_at 1))
    (IqTrade.ask (if now =? 10 then MT_BROKER_CLOCK_REQUEST else MT_PING) ∅).
(** After the login the connection breaks, and no reconnect succeeds. *)
Definition storm : list worker_event :=
  ping 10 :: WReceived [Broken (OSError "reset")] :: (ping <$> [20; 30; 40; 50; 60; 70; 80]).
End IqWitness.

Lemma iq_submission_is_answered_witness :
  answered IqTrade.command (IqTrade.moment 1) IqWitness.orders (fst (snd IqWitness.submitted)) IqWitness.accepted.
Proof.
  apply (iq_submission_is_answered IqTrade.command (IqTrade.stamp_at 1) IqWitness.orders [IqWitness.accepted_reply]
    IqWitness.accepted (fst (snd IqWitness.submitted)) (snd (snd IqWitness.submitted))).
  vm_compute. reflexivity.
Defined.

Lemma iq_order_carries_the_stake_witness :
  exists d, opened (iq_sent (wire_session (snd (iq_submit_order (T := wired) IqTrade.command (IqTrade.stamp_at 1) IqWitness.line)))) = [d].
Proof.
  assert (length (opened (iq_sent (wire_session (snd (iq_submit_order (T := wired) IqTrade.command (IqTrade.stamp_at 1) IqWitness.line))))) = 1%nat)
    as E1 by (vm_compute; reflexivity).
  assert (opened (iq_sent (wire_session IqWitness.line)) = []) as E0 by (vm_compute; reflexivity).
  destruct (iq_order_carries_the_stake IqTrade.command (IqTrade.stamp_at 1) IqWitness.line eq_refl) as [H|H].
  - rewrite H, E0 in E1. discriminate E1.
  - destruct H as (balance & id & active & epoch & expiry & H & _). rewrite E0 in H. eexists. exact H.
Defined.

Lemma iq_settlement_is_reported_witness :
  exists ev s3, process_raw_contract_message IqTrade.hash IqWitness.won (IqTrade.stamp_at 4)
      (after_messages IqTrade.hash IqWitness.before (fst (snd IqWitness.submitted))) = (Ok (Some ev), s3)
    /\ bo_result_minor ev = Some 120 /\ bo_client_order_ref ev = "o1".
Proof.
  assert (OrderCommand_post_init IqTrade.command = Ok IqTrade.command) as H1 by (vm_compute; reflexivity).
  assert (money_ok (oc_amount IqTrade.command) = true) as H2 by (vm_compute; reflexivity).
  assert (iq_submit_order IqTrade.command (IqTrade.stamp_at 1) (IqWitness.orders, [IqWitness.accepted_reply])
    = (Ok IqWitness.accepted, (fst (snd IqWitness.submitted), snd (snd IqWitness.submitted)))) as H3 by (vm_compute; reflexivity).
  assert (Forall (fun m => settles (fst m) && String.eqb (message_contract_id (fst m)) "77" = false) IqWitness.before) as H4.
  { apply Forall_cons_2; [vm_compute; reflexivity|]. apply Forall_cons_2; [vm_compute; reflexivity|]. apply Forall_nil_2. }
  assert (message_contract_id IqWitness.won = "77") as H5 by (vm_compute; reflexivity).
  assert (iq_report_of IqWitness.won (minor_units (oc_amount IqTrade.command)) = Ok (Some (mk_iq_report EX_SETTLED (Some 120)))) as H6
    by (vm_compute; reflexivity).
  assert (stamp_ok (IqTrade.stamp_at 4)) as H7 by (split; vm_compute; reflexivity).
  destruct (iq_settlement_is_reported IqTrade.hash (fun _ => eq_refl) IqTrade.command (IqTrade.stamp_at 1) IqWitness.orders
    [IqWitness.accepted_reply] IqWitness.accepted (fst (snd IqWitness.submitted)) (snd (snd IqWitness.submitted)) "77"
    IqWitness.before IqWitness.won (IqTrade.stamp_at 4) (mk_iq_report EX_SETTLED (Some 120)) H1 H2 H3 eq_refl H4 H5 H6 H7)
    as (ev & s3 & n & Hp & _ & -> & _).
  eexists _, s3. split; [exact Hp|]. split; reflexivity.
Defined.

Lemma iq_evidence_is_the_brokers_record_witness :
  exists r, fst IqWitness.queried = Ok r /\ sr_not_found_evidence r = None
    /\ (ev_realized_pnl_minor <$> sr_evidence r) = Some (Some 120)
    /\ forall ev, sr_evidence r = Some ev -> exists contract,
         lookup_result (IqTrade.query (Some "77")) (snd (snd (snd IqWitness.queried))) contract
         /\ iq_evidence_from IqTrade.digest (IqTrade.query (Some "77")) contract ev.
Proof.
  eexists. split; [vm_compute; reflexivity|]. split; [reflexivity|]. split; [reflexivity|].
  apply (iq_evidence_is_the_brokers_record IqTrade.digest (IqTrade.query (Some "77")) (IqTrade.stamp_at 4) IqWitness.orders
    [IqWitness.contract_reply] _ (fst (snd IqWitness.queried)) (fst (snd (snd IqWitness.queried)))
    (snd (snd (snd IqWitness.queried)))).
  vm_compute. reflexivity.
Defined.

Lemma connections_are_bounded_witness :
  iq_reconnects (wk_session (worker_after IqTrade.digest IqTrade.hash 1 IqWitness.storm
     (new_worker "DEMO_AUTH_FINANCIAL" (new_session PRACTICE [])))) = float_of_Z <$> [20; 30; 40; 50; 60]
  /\ (iq_logins (wk_session (worker_after IqTrade.digest IqTrade.hash 1 IqWitness.storm
     (new_worker "DEMO_AUTH_FINANCIAL" (new_session PRACTICE [])))) <= 1)%nat.
Proof.
  split; [vm_compute; reflexivity|].
  apply (connections_are_bounded IqTrade.digest IqTrade.hash 1 "DEMO_AUTH_FINANCIAL" PRACTICE [] (float_of_Z (-1000)) IqWitness.storm).
  - vm_compute. reflexivity.
  - vm_compute. repeat split; reflexivity.
Defined.
