(* ===== verification/Differs.v ===== *)
(** * The payout routed Differs session

    [apps/core/payout_routed_differs.py]: the message budget, the configuration, the cache
    of proposal quotes with its selection, the feeder, and the session with its stops.
    Ratios are finite by their type; the readings of the clock, the symbol that the
    provider gives and the reply of the quote provider are arguments. *)

From S2P Require Import Prelude Datetime Dec DecVal PyFloat FloatOrder Json Domain DerivJson IqValues Market.

(** ** The message budget *)

Record BrokerMessageBudgetDecision : Type := mk_BrokerMessageBudgetDecision {
  bd_allowed : bool; bd_used_in_window : Z; bd_limit : Z; bd_pressure : bool
}.

Record SlidingWindowBrokerMessageBudget : Type := mk_SlidingWindowBrokerMessageBudget {
  sb_limit : Z; sb_pressure_threshold : Z; sb_timestamps : list float
}.

#[export] Instance SlidingWindowBrokerMessageBudget_eta : Eta SlidingWindowBrokerMessageBudget := fun b =>
  mk_SlidingWindowBrokerMessageBudget (sb_limit b) (sb_pressure_threshold b) (sb_timestamps b).

(** [int(d.to_integral_value(rounding=ROUND_CEILING))] *)
Definition dec_ceiling (d : dec) : Z :=
  if 0 <=? dexp d then coef d * 10 ^ dexp d else round_div ROUND_CEILING (coef d) (10 ^ (- dexp d)).

Definition new_SlidingWindowBrokerMessageBudget (max_messages_per_minute : Z) (pressure_ratio : dec)
    : res SlidingWindowBrokerMessageBudget :=
  _ ← guard_res (0 <? max_messages_per_minute) (ValueError "broker message budget must be positive");
  _ ← guard_res (dec_ltb (dec_of_Z 0) pressure_ratio && dec_leb pressure_ratio (dec_of_Z 1))
        (ValueError "broker message pressure ratio is invalid");
  Ok (mk_SlidingWindowBrokerMessageBudget max_messages_per_minute
        (dec_ceiling (dec_mul prec (dec_of_Z max_messages_per_minute) pressure_ratio)) []).

Definition budget_boundary (now : float) : float := fsub now (float_of_Z 60).

(** The decision once what has expired is dropped. *)
Definition budget_decide (now_monotonic : float) (count : Z)
    : py SlidingWindowBrokerMessageBudget BrokerMessageBudgetDecision := fun b =>
  let used := Z.of_nat (length (sb_timestamps b)) in
  let allowed := used + count <=? sb_limit b in
  let pressure := sb_pressure_threshold b <=? used + count in
  (Ok (mk_BrokerMessageBudgetDecision allowed (if allowed then used + count else used) (sb_limit b) pressure),
   if allowed then b <| sb_timestamps ::= fun l => l ++ replicate (Z.to_nat count) now_monotonic |> else b).

(** [try_acquire] *)
Definition budget_acquire (now_monotonic : float) (count : Z)
    : py SlidingWindowBrokerMessageBudget BrokerMessageBudgetDecision :=
  _ ← py_guard (negb (fltb now_monotonic (float_of_Z 0) || (count <=? 0)))
        (ValueError "broker message budget input is invalid");
  _ ← py_modify (fun b => b <| sb_timestamps ::= drop_expired (budget_boundary now_monotonic) |>);
  budget_decide now_monotonic count.

(** ** The configuration *)

Record PayoutRoutedDiffersConfig : Type := mk_PayoutRoutedDiffersConfig {
  dc_symbols : list string; dc_fixed_barrier : Z; dc_proposal_max_age_seconds : float; dc_min_payout_return_ratio : dec;
  dc_entry_interval_ticks : Z; dc_entry_min_interval_seconds : float; dc_session_take_profit_ratio : dec;
  dc_session_stop_loss_ratio : dec; dc_session_toll_budget_minor_units : Z; dc_session_stake_ratio : dec
}.

Definition PayoutRoutedDiffersConfig_post_init (c : PayoutRoutedDiffersConfig) : res PayoutRoutedDiffersConfig :=
  let positive d := 0 <? coef d in
  _ ← guard_res (negb (bool_decide (dc_symbols c = [])) && forallb nonblank (dc_symbols c))
        (ValueError "payout session symbols are required");
  _ ← guard_res (bool_decide (NoDup (dc_symbols c))) (ValueError "payout session symbols must be unique");
  _ ← guard_res (in_range 0 (dc_fixed_barrier c) 9) (ValueError "payout session fixed barrier is invalid");
  _ ← guard_res (negb (fleb (dc_proposal_max_age_seconds c) (float_of_Z 0))) (ValueError "proposal TTL must be positive");
  _ ← guard_res (positive (dc_min_payout_return_ratio c)) (ValueError "minimum payout ratio is invalid");
  _ ← guard_res ((0 <? dc_entry_interval_ticks c) && negb (fltb (dc_entry_min_interval_seconds c) (float_of_Z 0)))
        (ValueError "payout session cadence is invalid");
  _ ← guard_res (positive (dc_session_take_profit_ratio c) && positive (dc_session_stop_loss_ratio c)
                 && positive (dc_session_stake_ratio c)) (ValueError "payout session decimal parameter is invalid");
  _ ← guard_res (0 <? dc_session_toll_budget_minor_units c) (ValueError "payout session toll budget must be positive");
  Ok c.

Definition default_config : PayoutRoutedDiffersConfig :=
  mk_PayoutRoutedDiffersConfig ["R_100"] 0 (float_of_Z 2) (mk_dec 88 (-3)) 3 (float_of_Z 5) (mk_dec 4 (-2)) (mk_dec 12 (-2))
    1000 (mk_dec 1 (-2)).

(** ** Expected value and toll *)

Definition digit_differs_theoretical_ev_ratio (payout_return_ratio : dec) : res dec :=
  _ ← guard_res (0 <? coef payout_return_ratio) (ValueError "payout return ratio is invalid");
  Ok (dec_sub (dec_mul prec (mk_dec 9 (-1)) payout_return_ratio) (mk_dec 1 (-1))).

Definition dec_abs (d : dec) : dec := mk_dec (Z.abs (coef d)) (dexp d).

Definition theoretical_toll_minor_units (stake_minor_units : Z) (payout_return_ratio : dec) : res Z :=
  _ ← guard_res (0 <? stake_minor_units) (ValueError "stake must be positive");
  ev ← digit_differs_theoretical_ev_ratio payout_return_ratio;
  if 0 <=? coef ev then Ok 0
  else Ok (dec_ceiling (dec_mul prec (dec_of_Z stake_minor_units) (dec_abs ev))).

(** ** The cache of proposals *)

(** What is emitted to the event sink. *)
Inductive cache_event : Type :=
| BrokerPayoutChanged (broker_symbol observed_payout_return_ratio : string)
| BrokerMessageBudgetPressure (used limit : Z) (allowed : bool).

Definition quote_key : Type := string * string * option Z.

Record PayoutRoutedDiffersProposalCache : Type := mk_PayoutRoutedDiffersProposalCache {
  pc_config : PayoutRoutedDiffersConfig; pc_quotes : gmap quote_key BrokerProposalQuote;
  pc_message_budget : SlidingWindowBrokerMessageBudget; pc_event_sink : option (list cache_event);
  pc_payout_change_events : gset (string * string)
}.

#[export] Instance PayoutRoutedDiffersProposalCache_eta : Eta PayoutRoutedDiffersProposalCache := fun c =>
  mk_PayoutRoutedDiffersProposalCache (pc_config c) (pc_quotes c) (pc_message_budget c) (pc_event_sink c)
    (pc_payout_change_events c).

Definition new_cache (config : PayoutRoutedDiffersConfig) (budget : SlidingWindowBrokerMessageBudget) (has_sink : bool)
    : PayoutRoutedDiffersProposalCache :=
  mk_PayoutRoutedDiffersProposalCache config ∅ budget (if has_sink then Some [] else None) ∅.

(** [_emit] *)
Definition cache_emit (e : cache_event) (c : PayoutRoutedDiffersProposalCache) : PayoutRoutedDiffersProposalCache :=
  c <| pc_event_sink ::= fmap (fun l => l ++ [e]) |>.

(** [active_symbol]; [provided] is what the symbol provider gives, if there is one. *)
Definition active_symbol (provided : option string) (c : PayoutRoutedDiffersProposalCache) : res string :=
  symbol ← match provided with
           | Some s => Ok s
           | None => match dc_symbols (pc_config c) with s :: _ => Ok s | [] => Err IndexError end
           end;
  let symbol := str_strip symbol in
  _ ← guard_res (negb (String.eqb symbol "")) (ValueError "active payout session symbol is invalid");
  Ok symbol.

Definition OBSERVED_DIGITDIFF_PAYOUT_RETURN_RATIO : dec := mk_dec 90000 (-6).

Definition key_of (q : BrokerProposalQuote) : quote_key :=
  (pq_broker_symbol q, str_upper (pq_contract_type q), pq_barrier q).

(** [str] of a positive ratio *)
Definition ratio_text (d : dec) : string := scientific (coef d) (dexp d).

(** [store] *)
Definition store_quote (quote : BrokerProposalQuote) (c : PayoutRoutedDiffersProposalCache) : PayoutRoutedDiffersProposalCache :=
  let c := c <| pc_quotes ::= <[ key_of quote := quote ]> |> in
  if String.eqb (str_upper (pq_contract_type quote)) "DIGITDIFF"
     && bool_decide (pq_barrier quote = Some (dc_fixed_barrier (pc_config c)))
     && negb (dec_eqb (pq_payout_return_ratio quote) OBSERVED_DIGITDIFF_PAYOUT_RETURN_RATIO) then
    let event_key := (pq_broker_symbol quote, ratio_text (pq_payout_return_ratio quote)) in
    if decide (event_key ∈ pc_payout_change_events c) then c
    else cache_emit (BrokerPayoutChanged (fst event_key) (snd event_key))
           (c <| pc_payout_change_events ::= fun s => {[ event_key ]} ∪ s |>)
  else c.

Definition acquire_quote_budget (now_monotonic : float) (count : Z) : py PayoutRoutedDiffersProposalCache bool := fun c =>
  match budget_acquire now_monotonic count (pc_message_budget c) with
  | (Err e, b) => (Err e, c <| pc_message_budget := b |>)
  | (Ok d, b) =>
      let c := c <| pc_message_budget := b |> in
      (Ok (bd_allowed d),
       if bd_pressure d then cache_emit (BrokerMessageBudgetPressure (bd_used_in_window d) (bd_limit d) (bd_allowed d)) c else c)
  end.

(** *** Selection *)

Record PayoutRoutedDiffersSelection : Type := mk_PayoutRoutedDiffersSelection {
  se_quote : BrokerProposalQuote; se_best_available_ratio : dec; se_worst_available_ratio : dec; se_candidate_count : Z;
  se_theoretical_ev_ratio : dec; se_proposal_age_ms : Z
}.

Record PayoutRoutedDiffersDecision : Type := mk_PayoutRoutedDiffersDecision {
  pd_selection : option PayoutRoutedDiffersSelection; pd_reason_code : string;
  pd_observed_payout_return_ratio : option dec; pd_minimum_payout_return_ratio : option dec
}.

Definition fresh_quotes (now_monotonic : float) (provided : option string) (c : PayoutRoutedDiffersProposalCache)
    : res (list BrokerProposalQuote) :=
  _ ← guard_res (negb (fltb now_monotonic (float_of_Z 0))) (ValueError "monotonic timestamp is invalid");
  symbol ← active_symbol provided c;
  match pc_quotes c !! (symbol, "DIGITDIFF", Some (dc_fixed_barrier (pc_config c))) with
  | None => Ok []
  | Some quote =>
      Ok (if fleb (fsub now_monotonic (pq_received_monotonic quote)) (dc_proposal_max_age_seconds (pc_config c))
          then [quote] else [])
  end.

(** [select]; the history of digits is not looked at. *)
Definition select_quote (now_monotonic : float) (provided : option string) (digit_history : list Z)
    (c : PayoutRoutedDiffersProposalCache) : res PayoutRoutedDiffersDecision :=
  fresh ← fresh_quotes now_monotonic provided c;
  match fresh with
  | [] => Ok (mk_PayoutRoutedDiffersDecision None "SESSION_NO_FRESH_PROPOSAL" None None)
  | selected :: _ =>
      let ratio := pq_payout_return_ratio selected in
      let floor := dc_min_payout_return_ratio (pc_config c) in
      if dec_ltb ratio floor then Ok (mk_PayoutRoutedDiffersDecision None "SESSION_PAYOUT_BELOW_FLOOR" (Some ratio) (Some floor))
      else
        age_ms ← float_int (fmul (fmax (float_of_Z 0) (fsub now_monotonic (pq_received_monotonic selected))) (float_of_Z 1000));
        ev ← digit_differs_theoretical_ev_ratio ratio;
        Ok (mk_PayoutRoutedDiffersDecision
              (Some (mk_PayoutRoutedDiffersSelection selected ratio ratio (Z.of_nat (length fresh)) ev age_ms))
              "EXECUTABLE_SIGNAL" (Some ratio) (Some floor))
  end.

(** *** The feeder *)

Definition read_symbol (provided : option string) : py PayoutRoutedDiffersProposalCache string :=
  fun c => (active_symbol provided c, c).

(** [refresh_once]: the clock is read for the budget and for the quote; [quote_provider]
    is what it gives for symbol, barrier and reading, or raises. *)
Definition refresh_once (enabled : bool) (provided : option string) (now received : float)
    (quote_provider : string -> Z -> float -> res BrokerProposalQuote) : py PayoutRoutedDiffersProposalCache Z :=
  if negb enabled then mret 0
  else
    config ← py_gets pc_config;
    symbol ← read_symbol provided;
    allowed ← acquire_quote_budget now 1;
    if negb allowed then mret 0
    else match quote_provider symbol (dc_fixed_barrier config) received with
         | Err _ => mret 0
         | Ok quote => _ ← py_modify (store_quote quote); mret 1
         end.

(** ** The session *)

Inductive PayoutRoutedDiffersState : Type :=
| ACTIVE_SESSION | STOPPED_TAKE_PROFIT | STOPPED_LOSS | STOPPED_TOLL_BUDGET | STOPPED_DAILY | STOPPED_MANUAL.

#[export] Instance PayoutRoutedDiffersState_eq_dec : EqDecision PayoutRoutedDiffersState.
Proof. solve_decision. Defined.

Record PayoutRoutedDiffersSessionState : Type := mk_PayoutRoutedDiffersSessionState {
  ps_session_id : string; ps_started_monotonic : float; ps_starting_balance_minor_units : Z; ps_realized_pnl_minor_units : Z;
  ps_entries_count : Z; ps_wins_count : Z; ps_losses_count : Z; ps_theoretical_toll_minor_units : Z;
  ps_state : PayoutRoutedDiffersState
}.

#[export] Instance PayoutRoutedDiffersSessionState_eta : Eta PayoutRoutedDiffersSessionState := fun s =>
  mk_PayoutRoutedDiffersSessionState (ps_session_id s) (ps_started_monotonic s) (ps_starting_balance_minor_units s)
    (ps_realized_pnl_minor_units s) (ps_entries_count s) (ps_wins_count s) (ps_losses_count s)
    (ps_theoretical_toll_minor_units s) (ps_state s).

Definition is_active (s : PayoutRoutedDiffersSessionState) : bool := bool_decide (ps_state s = ACTIVE_SESSION).

(** The bound that a ratio of the starting balance gives. *)
Definition session_bound (s : PayoutRoutedDiffersSessionState) (ratio : dec) : Z :=
  dec_ceiling (dec_mul prec (dec_of_Z (ps_starting_balance_minor_units s)) ratio).

Definition apply_session_settlement (s : PayoutRoutedDiffersSessionState) (pnl_minor_units stake_minor_units : Z)
    (payout_return_ratio : dec) (config : option PayoutRoutedDiffersConfig) : res PayoutRoutedDiffersSessionState :=
  if negb (is_active s) then Ok s
  else
    let configured := default default_config config in
    let pnl := ps_realized_pnl_minor_units s + pnl_minor_units in
    new_toll ← theoretical_toll_minor_units stake_minor_units payout_return_ratio;
    let toll := ps_theoretical_toll_minor_units s + new_toll in
    let next_state :=
      s <| ps_realized_pnl_minor_units := pnl |> <| ps_entries_count ::= Z.succ |>
        <| ps_wins_count ::= Z.add (if 0 <? pnl_minor_units then 1 else 0) |>
        <| ps_losses_count ::= Z.add (if pnl_minor_units <? 0 then 1 else 0) |>
        <| ps_theoretical_toll_minor_units := toll |> in
    let take_profit := session_bound s (dc_session_take_profit_ratio configured) in
    let stop_loss := session_bound s (dc_session_stop_loss_ratio configured) in
    Ok (if take_profit <=? pnl then next_state <| ps_state := STOPPED_TAKE_PROFIT |>
        else if pnl <=? - stop_loss then next_state <| ps_state := STOPPED_LOSS |>
        else if dc_session_toll_budget_minor_units configured <=? toll then next_state <| ps_state := STOPPED_TOLL_BUDGET |>
        else next_state).

(** ** The session stops in time *)

(** A settlement: its result, the stake and the payout ratio of the entry. *)
Record settlement : Type := mk_settlement { st_pnl : Z; st_stake : Z; st_ratio : dec }.

Definition settle (config : PayoutRoutedDiffersConfig) (x : settlement) (s : PayoutRoutedDiffersSessionState)
    : res PayoutRoutedDiffersSessionState :=
  apply_session_settlement s (st_pnl x) (st_stake x) (st_ratio x) (Some config).

(** The settlements that are counted, and the session after all; one that raises leaves
    the session as it is. *)
Fixpoint settled (config : PayoutRoutedDiffersConfig) (xs : list settlement) (s : PayoutRoutedDiffersSessionState)
    : list settlement * PayoutRoutedDiffersSessionState :=
  match xs with
  | [] => ([], s)
  | x :: xs =>
      match settle config x s with
      | Err _ => settled config xs s
      | Ok s' =>
          let '(l, s') := settled config xs s' in
          (if is_active s then x :: l else l, s')
      end
  end.

Definition toll_of (x : settlement) : Z := match theoretical_toll_minor_units (st_stake x) (st_ratio x) with Ok n => n | Err _ => 0 end.
Definition total (f : settlement -> Z) (l : list settlement) : Z := foldr (fun x n => f x + n) 0 l.

Definition new_session_state (session_id : string) (started : float) (balance : Z) : PayoutRoutedDiffersSessionState :=
  mk_PayoutRoutedDiffersSessionState session_id started balance 0 0 0 0 0 ACTIVE_SESSION.

(** The bounds within which a session goes on. *)
Definition goes_on (config : PayoutRoutedDiffersConfig) (balance pnl toll : Z) : Prop :=
  let bound ratio := dec_ceiling (dec_mul prec (dec_of_Z balance) ratio) in
  - bound (dc_session_stop_loss_ratio config) < pnl < bound (dc_session_take_profit_ratio config)
  /\ toll < dc_session_toll_budget_minor_units config.

(** The books of a session that started with [balance] and counted [l]. *)
Record books (config : PayoutRoutedDiffersConfig) (balance : Z) (l : list settlement) (s : PayoutRoutedDiffersSessionState)
    : Prop := mk_books {
  bk_balance : ps_starting_balance_minor_units s = balance;
  bk_pnl : ps_realized_pnl_minor_units s = total st_pnl l;
  bk_toll : ps_theoretical_toll_minor_units s = total toll_of l;
  bk_entries : ps_entries_count s = Z.of_nat (length l);
  bk_wins : ps_wins_count s = Z.of_nat (length (List.filter (fun x => 0 <? st_pnl x) l));
  bk_losses : ps_losses_count s = Z.of_nat (length (List.filter (fun x => st_pnl x <? 0) l));
  bk_active : ps_state s = ACTIVE_SESSION <-> goes_on config balance (total st_pnl l) (total toll_of l)
}.

Lemma total_app f l1 l2 : total f (l1 ++ l2) = total f l1 + total f l2.
Proof. induction l1 as [|x l1 IH]; simpl; [done|]. rewrite IH. lia. Qed.

Lemma count_snoc {A} (p : A -> bool) l x :
  Z.of_nat (length (List.filter p (l ++ [x]))) = (if p x then 1 else 0) + Z.of_nat (length (List.filter p l)).
Proof. rewrite List.filter_app, length_app. simpl. destruct (p x); simpl; lia. Qed.

Lemma settle_books config balance l x s s' :
  books config balance l s -> ps_state s = ACTIVE_SESSION -> settle config x s = Ok s' -> books config balance (l ++ [x]) s'.
Proof.
  intros [] Ha. unfold settle, apply_session_settlement, is_active. rewrite bool_decide_true by done. cbn [negb].
  intros (toll & Ht & H)%res_bind_Ok. cbn [default] in H. injection H as <-.
  assert (toll_of x = toll) as Hx by (unfold toll_of; by rewrite Ht).
  assert (total st_pnl (l ++ [x]) = ps_realized_pnl_minor_units s + st_pnl x) as Hp by (rewrite total_app; simpl; lia).
  assert (total toll_of (l ++ [x]) = ps_theoretical_toll_minor_units s + toll) as Hl by (rewrite total_app; simpl; lia).
  unfold session_bound. rewrite bk_balance0.
  set (take := dec_ceiling (dec_mul prec (dec_of_Z balance) (dc_session_take_profit_ratio config))).
  set (stop := dec_ceiling (dec_mul prec (dec_of_Z balance) (dc_session_stop_loss_ratio config))).
  destruct (Z.leb_spec take (ps_realized_pnl_minor_units s + st_pnl x));
    [|destruct (Z.leb_spec (ps_realized_pnl_minor_units s + st_pnl x) (- stop));
      [|destruct (Z.leb_spec (dc_session_toll_budget_minor_units config) (ps_theoretical_toll_minor_units s + toll))]];
    (constructor; simpl; [done|lia|lia|rewrite length_app; simpl; lia|rewrite count_snoc; lia|rewrite count_snoc; lia|]);
    unfold goes_on; fold take stop; rewrite Hp, Hl; first [by split; [discriminate|lia] | split; [lia|done]].
Qed.

Lemma settled_books config balance xs l s l' s' :
  books config balance l s -> settled config xs s = (l', s') ->
  books config balance (l ++ l') s'
  /\ forall l1 x l2, l' = l1 ++ x :: l2 -> goes_on config balance (total st_pnl (l ++ l1)) (total toll_of (l ++ l1)).
Proof.
  revert l s l'. induction xs as [|x xs IH]; intros l s l' Hb E; simpl in E.
  { injection E as <- <-. rewrite app_nil_r. split; [done|]. by intros [|? ?] ? ? [=]. }
  destruct (settle config x s) as [s1|e] eqn:Es; [|by apply (IH l s)].
  destruct (settled config xs s1) as [l2 s2] eqn:E2. injection E as <- <-.
  destruct (is_active s) eqn:Ea; unfold is_active in Ea.
  - apply bool_decide_eq_true in Ea. pose proof (settle_books _ _ _ _ _ _ Hb Ea Es) as Hb1.
    destruct (IH _ _ _ Hb1 E2) as [H1 H2]. rewrite <- app_assoc in H1. split; [done|].
    intros [|y l1] z l3 [= <- E].
    + rewrite app_nil_r. by apply (bk_active _ _ _ _ Hb).
    + specialize (H2 l1 z l3 E). by rewrite <- app_assoc in H2.
  - assert (s1 = s) as ->; [|by apply (IH l s)].
    unfold settle, apply_session_settlement, is_active in Es. rewrite Ea in Es. by injection Es.
Qed.

Lemma ceiling_positive d : 0 < coef d -> 0 < dec_ceiling d.
Proof.
  intros H. unfold dec_ceiling. destruct (Z.leb_spec 0 (dexp d)).
  - pose proof (Z.pow_pos_nonneg 10 (dexp d)). nia.
  - unfold round_div. pose proof (Z.pow_pos_nonneg 10 (- dexp d) ltac:(lia) ltac:(lia)) as Hp.
    pose proof (Z.div_mod (coef d) (10 ^ (- dexp d)) ltac:(lia)) as Hd.
    pose proof (Z.mod_pos_bound (coef d) (10 ^ (- dexp d)) Hp) as Hm.
    pose proof (Z.div_pos (coef d) (10 ^ (- dexp d)) ltac:(lia) Hp). destruct (Z.eqb_spec (coef d mod 10 ^ (- dexp d)) 0); nia.
Qed.

Lemma bound_positive balance ratio :
  0 < balance -> 0 < coef ratio -> 0 < dec_ceiling (dec_mul prec (dec_of_Z balance) ratio).
Proof. intros Hb Hr. apply ceiling_positive. unfold dec_mul. apply dec_fix_near. simpl. lia. Qed.

(** A Differs session stops in time.  Of any settlements, with results, stakes and
    ratios as they come, exactly those before the stop are counted: the books are their
    sums, the session is active exactly while the result is between the stop loss and the
    take profit and the toll is below its budget, and this held before each counted
    settlement, so that a bound is passed by at most the last one. *)
Theorem session_stops_in_time config id started balance xs l s :
  PayoutRoutedDiffersConfig_post_init config = Ok config -> 0 < balance ->
  settled config xs (new_session_state id started balance) = (l, s) ->
  books config balance l s
  /\ forall l1 x l2, l = l1 ++ x :: l2 -> goes_on config balance (total st_pnl l1) (total toll_of l1).
Proof.
  intros Hc Hb E. apply (settled_books config balance xs [] _ l s) in E; [done|].
  unfold PayoutRoutedDiffersConfig_post_init in Hc. do 6 (apply res_bind_Ok in Hc as (? & _ & Hc)).
  apply res_bind_Ok in Hc as (? & Hr & Hc). apply res_bind_Ok in Hc as (? & Ht & _). unfold guard_res in Hr, Ht.
  destruct (_ && _) eqn:Er; [|done]. destruct (0 <? dc_session_toll_budget_minor_units config) eqn:Et; [|done].
  apply andb_true_iff in Er as [Er _]. apply andb_true_iff in Er as [H1%Z.ltb_lt H2%Z.ltb_lt]. apply Z.ltb_lt in Et.
  pose proof (bound_positive _ _ Hb H1). pose proof (bound_positive _ _ Hb H2).
  constructor; simpl; try done. unfold goes_on. split; [lia|done].
Qed.

(** ** The message budget is kept *)

(** The messages that are allowed over requests of [count] messages at their readings. *)
Fixpoint messages_sent (requests : list (float * Z)) (b : SlidingWindowBrokerMessageBudget)
    : list float * SlidingWindowBrokerMessageBudget :=
  match requests with
  | [] => ([], b)
  | (now, count) :: requests =>
      let '(r, b) := budget_acquire now count b in
      let '(l, b) := messages_sent requests b in
      ((match r with Ok d => if bd_allowed d then replicate (Z.to_nat count) now else [] | Err _ => [] end) ++ l, b)
  end.

Fixpoint boundaries_advance (b : float) (requests : list (float * Z)) : Prop :=
  match requests with
  | [] => True
  | (now, _) :: requests => fleb b (budget_boundary now) = true /\ boundaries_advance (budget_boundary now) requests
  end.

Fixpoint last_budget_boundary (b : float) (requests : list (float * Z)) : float :=
  match requests with [] => b | (now, _) :: requests => last_budget_boundary (budget_boundary now) requests end.

(** What is kept covers the window, and is within the limit. *)
Definition budget_sound (b : float) (all : list float) (x : SlidingWindowBrokerMessageBudget) : Prop :=
  keeps b (sb_timestamps x) all /\ Z.of_nat (length (sb_timestamps x)) <= sb_limit x.

Lemma budget_step now count b all x :
  budget_sound b all x -> fleb b (budget_boundary now) = true ->
  let '(r, x') := budget_acquire now count x in
  let new := match r with Ok d => if bd_allowed d then replicate (Z.to_nat count) now else [] | Err _ => [] end in
  budget_sound (budget_boundary now) (all ++ new) x' /\ sb_limit x' = sb_limit x.
Proof.
  intros [Hk Hn] Hb. apply (keeps_mono _ _ _ _ Hb) in Hk. unfold budget_acquire, budget_decide.
  cbv [mbind py_bind py_guard py_modify mret py_ret].
  destruct (negb (fltb now (float_of_Z 0) || (count <=? 0))) eqn:Eg; [|simpl; rewrite app_nil_r; by split].
  apply negb_true_iff, orb_false_iff in Eg as [_ Ec%Z.leb_gt].
  pose proof (drop_expired_length (budget_boundary now) (sb_timestamps x)) as Hl. apply keeps_drop_expired in Hk. simpl.
  destruct (Z.leb_spec (Z.of_nat (length (drop_expired (budget_boundary now) (sb_timestamps x))) + count) (sb_limit x)); simpl.
  - split; [|done]. split; [by apply keeps_app|]. simpl. rewrite length_app, length_replicate. lia.
  - rewrite app_nil_r. split; [|done]. split; [done|]. simpl. lia.
Qed.

(** In any minute at most the limit is sent: over any requests whose window does not move
    back, the messages later than the last reading less 60 seconds are at most the limit
    of the budget. *)
Theorem differs_budget_is_kept limit ratio b0 b requests l b' :
  new_SlidingWindowBrokerMessageBudget limit ratio = Ok b0 -> fleb b b = true -> boundaries_advance b requests ->
  messages_sent requests b0 = (l, b') ->
  Z.of_nat (length (later (last_budget_boundary b requests) l)) <= limit.
Proof.
  intros Hnew Hbb Hadv E. unfold new_SlidingWindowBrokerMessageBudget in Hnew.
  apply res_bind_Ok in Hnew as (? & Hl & Hnew). apply res_bind_Ok in Hnew as (? & _ & [= <-]). unfold guard_res in Hl.
  destruct (Z.ltb_spec 0 limit) as [Hlim|]; [|done].
  set (b0 := mk_SlidingWindowBrokerMessageBudget _ _ _) in E.
  assert (forall requests all b x l x', budget_sound b all x -> fleb b b = true -> boundaries_advance b requests ->
    messages_sent requests x = (l, x') ->
    let last := last_budget_boundary b requests in
    budget_sound last (all ++ l) x' /\ fleb last last = true /\ sb_limit x' = sb_limit x) as H.
  { clear. induction requests as [|[now count] requests IH]; intros all b x l x' Hs Hb Ha E; simpl in *.
    - injection E as <- <-. by rewrite app_nil_r.
    - destruct Ha as [Hbn Ha]. pose proof (budget_step now count b all x Hs Hbn) as Hstep.
      destruct (budget_acquire now count x) as [r x1]. destruct Hstep as [Hs1 Hl1].
      destruct (messages_sent requests x1) as [l1 x2] eqn:E1. injection E as <- <-.
      destruct (IH _ _ _ _ _ Hs1 (fleb_self _ _ Hbn) Ha E1) as (H1 & H2 & H3).
      rewrite <- app_assoc in H1. by split_and!; [..|congruence]. }
  destruct (H requests [] b b0 l b') as ([Hk Hn] & Hf & He); try done; [split; [done|simpl; lia]|].
  pose proof (keeps_length _ _ _ Hf Hk). simpl in *. rewrite He in Hn. simpl in Hn. lia.
Qed.

(** ** Selection *)

Definition stored (quotes : list BrokerProposalQuote) (c : PayoutRoutedDiffersProposalCache) : PayoutRoutedDiffersProposalCache :=
  foldl (fun c q => store_quote q c) c quotes.

Lemma store_quote_quotes q c :
  pc_quotes (store_quote q c) = <[ key_of q := q ]> (pc_quotes c) /\ pc_config (store_quote q c) = pc_config c.
Proof. unfold store_quote. cbv zeta. destruct (_ && _); [|done]. by destruct (decide _). Qed.

Lemma stored_quotes quotes c k q :
  pc_quotes (stored quotes c) !! k = Some q ->
  (exists l1 l2, quotes = l1 ++ q :: l2 /\ key_of q = k /\ Forall (fun q' => key_of q' <> k) l2)
  \/ (pc_quotes c !! k = Some q /\ Forall (fun q' => key_of q' <> k) quotes).
Proof.
  revert c. induction quotes as [|x quotes IH]; intros c H; simpl in H; [by right|].
  destruct (IH _ H) as [(l1 & l2 & -> & Hk & Hl)|[Hc Hl]]; [left; by exists (x :: l1), l2|].
  rewrite (proj1 (store_quote_quotes x c)) in Hc. destruct (decide (key_of x = k)) as [<-|Hne].
  - rewrite lookup_insert_eq in Hc. injection Hc as <-. left. by exists [], quotes.
  - rewrite lookup_insert_ne in Hc by done. right. split; [done|by constructor].
Qed.

Lemma stored_config quotes c : pc_config (stored quotes c) = pc_config c.
Proof. revert c. induction quotes as [|x quotes IH]; intros c; simpl; [done|]. rewrite IH. apply store_quote_quotes. Qed.

(** An executable signal stands on the latest quote for the active symbol and the fixed
    barrier: it is not older than the configured age at the reading, pays at least the
    floor, and no later quote for the same contract was stored. *)
Theorem selection_is_fresh_and_pays config budget sink quotes now provided history d sel :
  let c := stored quotes (new_cache config budget sink) in
  select_quote now provided history c = Ok d -> pd_selection d = Some sel ->
  exists symbol l1 l2, active_symbol provided c = Ok symbol /\ quotes = l1 ++ se_quote sel :: l2
    /\ key_of (se_quote sel) = (symbol, "DIGITDIFF", Some (dc_fixed_barrier config))
    /\ Forall (fun q => key_of q <> key_of (se_quote sel)) l2
    /\ fleb (fsub now (pq_received_monotonic (se_quote sel))) (dc_proposal_max_age_seconds config) = true
    /\ dec_ltb (pq_payout_return_ratio (se_quote sel)) (dc_min_payout_return_ratio config) = false.
Proof.
  cbv zeta. set (c := stored _ _). assert (pc_config c = config) as Hcfg by apply stored_config.
  intros H Hd. unfold select_quote, fresh_quotes in H. rewrite Hcfg in H.
  apply res_bind_Ok in H as (fresh & Hf & H). apply res_bind_Ok in Hf as (? & _ & Hf).
  apply res_bind_Ok in Hf as (symbol & Hs & Hf).
  destruct (pc_quotes c !! (symbol, "DIGITDIFF", Some (dc_fixed_barrier config))) as [q|] eqn:Eq;
    [|injection Hf as <-; by injection H as <-].
  destruct (fleb _ _) eqn:Ea; injection Hf as <-; [|by injection H as <-].
  destruct (dec_ltb _ _) eqn:Er; [by injection H as <-|].
  apply res_bind_Ok in H as (age & _ & H). apply res_bind_Ok in H as (ev & _ & [= <-]). injection Hd as <-. simpl.
  apply stored_quotes in Eq as [(l1 & l2 & -> & Hk & Hl)|[Hc _]]; [|done].
  exists symbol, l1, l2. rewrite Hk. by split_and!.
Qed.

(** ** Samples *)

Module DiffersSample.
Definition quote (cents : Z) (ratio : dec) (at_ : Z) : BrokerProposalQuote :=
  mk_BrokerProposalQuote DERIV "R_100" "DIGITDIFF" (Some 0) (mk_Money 100 "USD") (mk_Money cents "USD") "p1" (float_of_Z at_) ratio.
Definition loss : settlement := mk_settlement (-5000) 5000 (mk_dec 9 (-2)).
Definition win : settlement := mk_settlement 450 5000 (mk_dec 9 (-2)).
Definition run := settled default_config [win; loss; loss; loss; win] (new_session_state "s" (float_of_Z 0) 100000).
Definition ratio : dec := mk_dec 80 (-2).
Definition budget : SlidingWindowBrokerMessageBudget := mk_SlidingWindowBrokerMessageBudget 300 240 [].
Definition hour : list (float * Z) := (fun i => (float_of_Z (60 * Z.of_nat i), 300)) <$> seq 0 60.
End DiffersSample.

(** The third loss passes the stop of 12 percent, and the win after it does not count. *)
Example sample_session :
  (ps_realized_pnl_minor_units (snd DiffersSample.run), ps_entries_count (snd DiffersSample.run),
   ps_theoretical_toll_minor_units (snd DiffersSample.run), ps_state (snd DiffersSample.run))
  = (-14550, 4, 380, STOPPED_LOSS).
Proof. vm_compute. reflexivity. Qed.

(** The budget of a minute admits 18000 messages in an hour, more than the 12000 of
    [DERIV_PROPOSAL_MESSAGE_BUDGET_PER_HOUR]. *)
Example hourly_budget_is_not_kept :
  Z.of_nat (length (fst (messages_sent DiffersSample.hour DiffersSample.budget))) = 18000.
Proof. vm_compute. reflexivity. Qed.

Lemma session_stops_in_time_witness :
  books default_config 100000 (fst DiffersSample.run) (snd DiffersSample.run)
  /\ goes_on default_config 100000 (-9550) 285.
Proof.
  assert (PayoutRoutedDiffersConfig_post_init default_config = Ok default_config) as H1 by (vm_compute; reflexivity).
  assert (settled default_config [DiffersSample.win; DiffersSample.loss; DiffersSample.loss; DiffersSample.loss; DiffersSample.win]
    (new_session_state "s" (float_of_Z 0) 100000) = (fst DiffersSample.run, snd DiffersSample.run)) as H2 by (vm_compute; reflexivity).
  destruct (session_stops_in_time _ _ _ 100000 _ _ _ H1 eq_refl H2) as [Hb Hg]. split; [exact Hb|].
  apply (Hg [DiffersSample.win; DiffersSample.loss; DiffersSample.loss] DiffersSample.loss []). vm_compute. reflexivity.
Defined.

Lemma differs_budget_is_kept_witness :
  Z.of_nat (length (later (float_of_Z 3480) (fst (messages_sent DiffersSample.hour DiffersSample.budget)))) <= 300.
Proof.
  assert (new_SlidingWindowBrokerMessageBudget 300 DiffersSample.ratio = Ok DiffersSample.budget) as H1 by (vm_compute; reflexivity).
  assert (boundaries_advance (float_of_Z (-60)) DiffersSample.hour) as H2 by (vm_compute; repeat split; reflexivity).
  assert (fleb (float_of_Z (-60)) (float_of_Z (-60)) = true) as H3 by (vm_compute; reflexivity).
  assert (last_budget_boundary (float_of_Z (-60)) DiffersSample.hour = float_of_Z 3480) as H4 by (vm_compute; reflexivity).
  rewrite <- H4. destruct (messages_sent DiffersSample.hour DiffersSample.budget) as [l b'] eqn:E.
  exact (differs_budget_is_kept _ _ _ _ _ _ _ H1 H3 H2 E).
Defined.

Lemma selection_is_fresh_and_pays_witness :
  exists d sel, select_quote (float_of_Z 11) None [] (stored [DiffersSample.quote 109 (mk_dec 9 (-2)) 10]
      (new_cache default_config DiffersSample.budget true)) = Ok d /\ pd_selection d = Some sel
    /\ dec_ltb (pq_payout_return_ratio (se_quote sel)) (dc_min_payout_return_ratio default_config) = false.
Proof.
  eexists _, _. split; [vm_compute; reflexivity|]. split; [reflexivity|].
  edestruct (selection_is_fresh_and_pays default_config DiffersSample.budget true [DiffersSample.quote 109 (mk_dec 9 (-2)) 10]
    (float_of_Z 11) None []) as (symbol & l1 & l2 & _ & _ & _ & _ & _ & H); [vm_compute; reflexivity|reflexivity|].
  exact H.
Defined.
