(* ===== verification/Candles.v ===== *)
(** * Closed candles and their stores

    [packages/market_data/models.py], [store.py] and [ingress.py], and the candle table of
    [packages/persistence/candle_repository.py].  The canonical SHA-256 of the identity of a
    candle is an argument of the definitions that use it. *)

From S2P Require Import Prelude Datetime Dec DecVal Json Domain DerivJson.

#[export] Instance Broker_countable : Countable Broker.
Proof.
  apply (inj_countable' (fun b => match b with DERIV => true | IQ_OPTION => false end)
           (fun b : bool => if b then DERIV else IQ_OPTION)). by intros [].
Defined.

(** ** Candles *)

Record CandleEnvelope : Type := mk_CandleEnvelope {
  ce_broker : Broker; ce_symbol : string; ce_timeframe_seconds : Z; ce_open_time_ms : Z; ce_close_time_ms : Z;
  ce_open_units : Z; ce_high_units : Z; ce_low_units : Z; ce_close_units : Z; ce_price_scale : Z; ce_is_closed : bool;
  ce_source : string; ce_source_event_id : string; ce_source_timestamp_ms : Z; ce_received_timestamp_ms : Z
}.

(** [candle_id] is a function of the other fields, see below. *)
Record ClosedCandle : Type := mk_ClosedCandle {
  cc_broker : Broker; cc_symbol : string; cc_timeframe_seconds : Z; cc_open_time_ms : Z; cc_close_time_ms : Z;
  cc_open_units : Z; cc_high_units : Z; cc_low_units : Z; cc_close_units : Z; cc_price_scale : Z;
  cc_source : string; cc_source_event_id : string; cc_source_timestamp_ms : Z; cc_received_timestamp_ms : Z
}.

#[export] Instance ClosedCandle_eq_dec : EqDecision ClosedCandle.
Proof. solve_decision. Defined.

Definition candle_prices (c : ClosedCandle) : list Z :=
  [cc_open_units c; cc_high_units c; cc_low_units c; cc_close_units c].

(** [ClosedCandle.__post_init__] *)
Definition ClosedCandle_post_init (c : ClosedCandle) : res ClosedCandle :=
  _ ← guard_res (nonblank (cc_symbol c)) (ValueError "symbol cannot be empty");
  _ ← guard_res (nonblank (cc_source c)) (ValueError "source cannot be empty");
  _ ← guard_res (nonblank (cc_source_event_id c)) (ValueError "source_event_id cannot be empty");
  _ ← guard_res ((0 <? cc_timeframe_seconds c) && (0 <? cc_price_scale c))
        (ValueError "timeframe and price scale must be positive");
  _ ← guard_res ((0 <=? cc_open_time_ms c) && (cc_open_time_ms c <? cc_close_time_ms c))
        (ValueError "candle timestamps are invalid");
  _ ← guard_res (cc_close_time_ms c - cc_open_time_ms c =? cc_timeframe_seconds c * 1000)
        (ValueError "candle duration does not match timeframe");
  _ ← guard_res ((0 <=? cc_source_timestamp_ms c) && (0 <=? cc_received_timestamp_ms c))
        (ValueError "source and received timestamps cannot be negative");
  _ ← guard_res (forallb (fun p => 0 <? p) (candle_prices c)) (ValueError "candle prices must be positive integers");
  _ ← guard_res ((cc_low_units c <=? cc_open_units c) && (cc_open_units c <=? cc_high_units c)
                 && ((cc_low_units c <=? cc_close_units c) && (cc_close_units c <=? cc_high_units c)))
        (ValueError "candle OHLC range is inconsistent");
  Ok c.

Definition from_closed_candle (c : ClosedCandle) : CandleEnvelope :=
  mk_CandleEnvelope (cc_broker c) (cc_symbol c) (cc_timeframe_seconds c) (cc_open_time_ms c) (cc_close_time_ms c)
    (cc_open_units c) (cc_high_units c) (cc_low_units c) (cc_close_units c) (cc_price_scale c) true (cc_source c)
    (cc_source_event_id c) (cc_source_timestamp_ms c) (cc_received_timestamp_ms c).

Definition from_envelope (e : CandleEnvelope) : res ClosedCandle :=
  _ ← guard_res (ce_is_closed e) (ValueError "open candle cannot enter the closed candle domain");
  ClosedCandle_post_init
    (mk_ClosedCandle (ce_broker e) (ce_symbol e) (ce_timeframe_seconds e) (ce_open_time_ms e) (ce_close_time_ms e)
       (ce_open_units e) (ce_high_units e) (ce_low_units e) (ce_close_units e) (ce_price_scale e) (ce_source e)
       (ce_source_event_id e) (ce_source_timestamp_ms e) (ce_received_timestamp_ms e)).

(** *** Candles of payloads *)

Definition candle_int (payload : obj) (name : string) : res Z :=
  match get payload name with VInt n => Ok n | _ => Err (ValueError (name +:+ " must be an integer")) end.

Definition candle_str (payload : obj) (name : string) : res string :=
  match get payload name with
  | VStr s => if nonblank s then Ok s else Err (ValueError (name +:+ " must be a non-empty string"))
  | _ => Err (ValueError (name +:+ " must be a non-empty string"))
  end.

(** [set(payload) == names] *)
Definition keys_are (names : list string) (payload : obj) : bool :=
  bool_decide (list_to_set (fst <$> payload) =@{gset string} list_to_set names).

Definition candle_fields : list string :=
  ["broker"; "symbol"; "timeframe_seconds"; "open_time_ms"; "close_time_ms"; "open_units"; "high_units"; "low_units";
   "close_units"; "price_scale"; "is_closed"; "source"; "source_event_id"; "source_timestamp_ms"; "received_timestamp_ms"].

Definition from_external_payload (raw : json) : res CandleEnvelope :=
  payload ← match raw with VDict d => Ok d | _ => Err (ValueError "candle payload must be an object") end;
  _ ← guard_res (keys_are candle_fields payload) (ValueError "candle payload schema is invalid");
  closed ← match get payload "is_closed" with VBool b => Ok b | _ => Err (ValueError "is_closed must be a boolean") end;
  broker_text ← candle_str payload "broker";
  broker ← of_value broker_text;
  symbol ← candle_str payload "symbol";
  timeframe_seconds ← candle_int payload "timeframe_seconds";
  open_time_ms ← candle_int payload "open_time_ms";
  close_time_ms ← candle_int payload "close_time_ms";
  open_units ← candle_int payload "open_units";
  high_units ← candle_int payload "high_units";
  low_units ← candle_int payload "low_units";
  close_units ← candle_int payload "close_units";
  price_scale ← candle_int payload "price_scale";
  source ← candle_str payload "source";
  source_event_id ← candle_str payload "source_event_id";
  source_timestamp_ms ← candle_int payload "source_timestamp_ms";
  received_timestamp_ms ← candle_int payload "received_timestamp_ms";
  Ok (mk_CandleEnvelope broker symbol timeframe_seconds open_time_ms close_time_ms open_units high_units low_units
        close_units price_scale closed source source_event_id source_timestamp_ms received_timestamp_ms).

(** *** The identity of a candle *)

Definition SeriesKey : Type := Broker * string * Z.
Definition series_key (c : ClosedCandle) : SeriesKey := (cc_broker c, cc_symbol c, cc_timeframe_seconds c).

Definition candle_identity (c : ClosedCandle) : payload :=
  list_to_map [("broker", JStr (value (cc_broker c))); ("close_time_ms", JInt (cc_close_time_ms c));
    ("close_units", JInt (cc_close_units c)); ("high_units", JInt (cc_high_units c)); ("low_units", JInt (cc_low_units c));
    ("open_time_ms", JInt (cc_open_time_ms c)); ("open_units", JInt (cc_open_units c));
    ("price_scale", JInt (cc_price_scale c)); ("symbol", JStr (cc_symbol c));
    ("timeframe_seconds", JInt (cc_timeframe_seconds c))].

(** ** The outcomes of a store *)

Inductive CandleStoreOutcome : Type := CS_STORED | CS_DUPLICATE | CS_OUT_OF_ORDER | CS_GAPPED.

#[export] Instance CandleStoreOutcome_eq_dec : EqDecision CandleStoreOutcome.
Proof. solve_decision. Defined.

Definition within (start_close_ms end_close_ms : option Z) (close : Z) : bool :=
  match start_close_ms with Some n => n <=? close | None => true end
  && match end_close_ms with Some n => close <=? n | None => true end.

(** What an ingress needs of a store. *)
Class CandleStore (S : Type) := store_append : ClosedCandle -> py S CandleStoreOutcome.

Section hashed.
Variable payload_hash : payload -> string.

(** [compute_candle_id] *)
Definition candle_id (c : ClosedCandle) : string := payload_hash (candle_identity c).

(** ** The store in memory *)

Record InMemoryCandleStore : Type := mk_InMemoryCandleStore {
  ms_max_candles : Z; ms_ids : gset string; ms_series : gmap SeriesKey (list ClosedCandle)
}.

#[global] Instance InMemoryCandleStore_eta : Eta InMemoryCandleStore := fun s =>
  mk_InMemoryCandleStore (ms_max_candles s) (ms_ids s) (ms_series s).

Definition new_InMemoryCandleStore (max_candles : Z) : res InMemoryCandleStore :=
  _ ← guard_res (0 <? max_candles) (ValueError "max_candles must be positive");
  Ok (mk_InMemoryCandleStore max_candles ∅ ∅).

Definition series_of (key : SeriesKey) (s : InMemoryCandleStore) : list ClosedCandle := default [] (ms_series s !! key).

(** How a candle follows the last one of its series; [None] when it comes next. *)
Definition memory_misplaced (last_candle c : ClosedCandle) : option CandleStoreOutcome :=
  if (cc_close_time_ms c <=? cc_close_time_ms last_candle) || (cc_open_time_ms c <? cc_close_time_ms last_candle)
  then Some CS_OUT_OF_ORDER
  else if negb (cc_open_time_ms c =? cc_close_time_ms last_candle) then Some CS_GAPPED
  else None.

(** [append]; reading [self._series[key]] creates the entry. *)
Definition memory_append (c : ClosedCandle) : py InMemoryCandleStore CandleStoreOutcome := fun s =>
  if decide (candle_id c ∈ ms_ids s) then (Ok CS_DUPLICATE, s)
  else
    let candles := series_of (series_key c) s in
    let s := s <| ms_series ::= <[ series_key c := candles ]> |> in
    match last candles ≫= (fun l => memory_misplaced l c) with
    | Some o => (Ok o, s)
    | None =>
        if ms_max_candles s <=? Z.of_nat (size (ms_ids s)) then (Err CandleStoreFullError, s)
        else (Ok CS_STORED, s <| ms_series ::= <[ series_key c := candles ++ [c] ]> |> <| ms_ids ::= fun i => {[ candle_id c ]} ∪ i |>)
    end.

Definition memory_contains (id : string) (s : InMemoryCandleStore) : bool := bool_decide (id ∈ ms_ids s).

Definition memory_range (key : SeriesKey) (start_close_ms end_close_ms : option Z) (s : InMemoryCandleStore) : list ClosedCandle :=
  select (fun c => within start_close_ms end_close_ms (cc_close_time_ms c)) (series_of key s).

(** ** The candle table *)

Record candle_row : Type := mk_candle_row {
  cr_candle_id : string; cr_broker : string; cr_symbol : string; cr_timeframe_seconds : Z; cr_open_time_ms : Z;
  cr_close_time_ms : Z; cr_open_units : Z; cr_high_units : Z; cr_low_units : Z; cr_close_units : Z; cr_price_scale : Z;
  cr_source : string; cr_source_event_id : string; cr_source_timestamp_ms : Z; cr_received_timestamp_ms : Z;
  cr_inserted_at_ms : Z
}.

(** The values of the INSERT. *)
Definition row_of (c : ClosedCandle) : candle_row :=
  mk_candle_row (candle_id c) (value (cc_broker c)) (cc_symbol c) (cc_timeframe_seconds c) (cc_open_time_ms c)
    (cc_close_time_ms c) (cc_open_units c) (cc_high_units c) (cc_low_units c) (cc_close_units c) (cc_price_scale c)
    (cc_source c) (cc_source_event_id c) (cc_source_timestamp_ms c) (cc_received_timestamp_ms c) (cc_received_timestamp_ms c).

(** [_from_row] *)
Definition from_row (r : candle_row) : res ClosedCandle :=
  broker ← of_value (cr_broker r);
  c ← ClosedCandle_post_init
        (mk_ClosedCandle broker (cr_symbol r) (cr_timeframe_seconds r) (cr_open_time_ms r) (cr_close_time_ms r)
           (cr_open_units r) (cr_high_units r) (cr_low_units r) (cr_close_units r) (cr_price_scale r) (cr_source r)
           (cr_source_event_id r) (cr_source_timestamp_ms r) (cr_received_timestamp_ms r));
  _ ← guard_res (String.eqb (candle_id c) (cr_candle_id r)) (CandleConflictError "persisted candle hash is invalid");
  Ok c.

(** [_identity] and [_row_identity] *)
Definition repo_identity : Type := string * string * list Z.
Definition identity_of (c : ClosedCandle) : repo_identity :=
  (value (cc_broker c), cc_symbol c,
   [cc_timeframe_seconds c; cc_open_time_ms c; cc_close_time_ms c] ++ candle_prices c ++ [cc_price_scale c]).
Definition row_identity (r : candle_row) : repo_identity :=
  (cr_broker r, cr_symbol r,
   [cr_timeframe_seconds r; cr_open_time_ms r; cr_close_time_ms r; cr_open_units r; cr_high_units r; cr_low_units r;
    cr_close_units r; cr_price_scale r]).

(** An integer parameter of a statement is bound as a 64-bit integer. *)
Definition int64 (n : Z) : bool := in_range (- 2 ^ 63) n (2 ^ 63 - 1).
Definition bind_ints (l : list Z) : res unit := guard_res (forallb int64 l) OverflowError.

Definition in_series (key : SeriesKey) (r : candle_row) : bool :=
  let '(broker, symbol, timeframe) := key in
  bool_decide (cr_broker r = value broker) && bool_decide (cr_symbol r = symbol) && (cr_timeframe_seconds r =? timeframe).

(** The CHECK clauses of the table. *)
Definition row_checks (r : candle_row) : bool :=
  (0 <? cr_timeframe_seconds r) && (0 <=? cr_open_time_ms r) && (cr_open_time_ms r <? cr_close_time_ms r)
  && (0 <? cr_open_units r) && (0 <? cr_high_units r) && (0 <? cr_low_units r) && (0 <? cr_close_units r)
  && (0 <? cr_price_scale r) && (0 <=? cr_source_timestamp_ms r) && (0 <=? cr_received_timestamp_ms r)
  && (0 <=? cr_inserted_at_ms r).

Definition row_ints (r : candle_row) : list Z :=
  [cr_timeframe_seconds r; cr_open_time_ms r; cr_close_time_ms r; cr_open_units r; cr_high_units r; cr_low_units r;
   cr_close_units r; cr_price_scale r; cr_source_timestamp_ms r; cr_received_timestamp_ms r; cr_inserted_at_ms r].

(** Whether two rows violate the primary key or [uq_candle_stream_close]. *)
Definition clashes (a b : candle_row) : bool :=
  bool_decide (cr_candle_id a = cr_candle_id b)
  || (bool_decide (cr_broker a = cr_broker b) && bool_decide (cr_symbol a = cr_symbol b)
      && (cr_timeframe_seconds a =? cr_timeframe_seconds b) && (cr_close_time_ms a =? cr_close_time_ms b)).

Inductive CandleAppendResult : Type := AR_STORED | AR_ALREADY_EXISTS.

(** [store]: one transaction. *)
Definition repo_store (c : ClosedCandle) : st (list candle_row) CandleAppendResult := fun rows =>
  match fetchone (fun r => bool_decide (cr_candle_id r = candle_id c)) rows with
  | Some by_id =>
      if bool_decide (row_identity by_id = identity_of c) then Ok (AR_ALREADY_EXISTS, rows)
      else Err (CandleConflictError "candle id has incompatible persisted content")
  | None =>
      _ ← bind_ints [cc_timeframe_seconds c; cc_close_time_ms c];
      match fetchone (fun r => in_series (series_key c) r && (cr_close_time_ms r =? cc_close_time_ms c)) rows with
      | Some _ => Err (CandleConflictError "candle stream close already has different content")
      | None =>
          _ ← bind_ints (row_ints (row_of c));
          _ ← guard_res (row_checks (row_of c) && negb (existsb (clashes (row_of c)) rows))
                (StrategyDataError "strategy data transaction failed");
          Ok (AR_STORED, rows ++ [row_of c])
      end
  end.

Definition repo_get (id : string) (rows : list candle_row) : res (option ClosedCandle) :=
  match fetchone (fun r => bool_decide (cr_candle_id r = id)) rows with
  | None => Ok None
  | Some r => c ← from_row r; Ok (Some c)
  end.

(** [ORDER BY close_time_ms DESC LIMIT 1] *)
Definition latest_close (rows : list candle_row) : option Z :=
  foldr (fun r m => Some (match m with Some n => Z.max (cr_close_time_ms r) n | None => cr_close_time_ms r end)) None rows.

(** How a candle follows the latest close of the table. *)
Definition repo_misplaced (latest : Z) (c : ClosedCandle) : option CandleStoreOutcome :=
  if (cc_close_time_ms c <=? latest) || (cc_open_time_ms c <? latest) then Some CS_OUT_OF_ORDER
  else if negb (cc_open_time_ms c =? latest) then Some CS_GAPPED
  else None.

(** [append]: two queries, then the transaction of [store]. *)
Definition repo_append (c : ClosedCandle) : st (list candle_row) CandleStoreOutcome := fun rows =>
  existing ← repo_get (candle_id c) rows;
  match existing with
  | Some e =>
      if bool_decide (identity_of e = identity_of c) then Ok (CS_DUPLICATE, rows)
      else Err (CandleConflictError "candle id has incompatible persisted content")
  | None =>
      _ ← bind_ints [cc_timeframe_seconds c];
      match latest_close (select (in_series (series_key c)) rows) ≫= (fun n => repo_misplaced n c) with
      | Some o => Ok (o, rows)
      | None =>
          result ← repo_store c rows;
          let '(r, rows) := result in
          Ok (match r with AR_STORED => CS_STORED | AR_ALREADY_EXISTS => CS_DUPLICATE end, rows)
      end
  end.

Definition repo_contains (id : string) (rows : list candle_row) : res bool :=
  c ← repo_get id rows; Ok (bool_decide (c <> None)).

(** [range]: [ORDER BY close_time_ms, candle_id] *)
Definition row_leb (a b : candle_row) : bool :=
  (cr_close_time_ms a <? cr_close_time_ms b)
  || ((cr_close_time_ms a =? cr_close_time_ms b) && str_leb (cr_candle_id a) (cr_candle_id b)).

Fixpoint from_rows (rows : list candle_row) : res (list ClosedCandle) :=
  match rows with
  | [] => Ok []
  | r :: rows => c ← from_row r; cs ← from_rows rows; Ok (c :: cs)
  end.

Definition repo_range (key : SeriesKey) (start_close_ms end_close_ms : option Z) (rows : list candle_row)
    : res (list ClosedCandle) :=
  _ ← bind_ints (snd key :: option_list start_close_ms ++ option_list end_close_ms);
  from_rows (sort_by row_leb
    (select (fun r => in_series key r && within start_close_ms end_close_ms (cr_close_time_ms r)) rows)).

(** ** The ingress *)

Inductive CandleIngressStatus : Type := CI_ACCEPTED | CI_DUPLICATE | CI_OUT_OF_ORDER | CI_INVALID.

#[global] Instance CandleIngressStatus_eq_dec : EqDecision CandleIngressStatus.
Proof. solve_decision. Defined.

Record CandleIngressResult : Type := mk_CandleIngressResult {
  ci_status : CandleIngressStatus; ci_reason_code : string; ci_candle : option ClosedCandle
}.

Section ingress.
Context {S : Type} `{CandleStore S}.

Definition outcome_result (c : ClosedCandle) (o : CandleStoreOutcome) : CandleIngressResult :=
  match o with
  | CS_STORED => mk_CandleIngressResult CI_ACCEPTED "CANDLE_ACCEPTED" (Some c)
  | CS_DUPLICATE => mk_CandleIngressResult CI_DUPLICATE "CANDLE_DUPLICATE" (Some c)
  | CS_OUT_OF_ORDER => mk_CandleIngressResult CI_OUT_OF_ORDER "CANDLE_OUT_OF_ORDER" (Some c)
  | CS_GAPPED => mk_CandleIngressResult CI_INVALID "CANDLE_GAP" (Some c)
  end.

(** [ingest] of a [ClosedCandle] *)
Definition ingest_candle (c : ClosedCandle) : py S CandleIngressResult :=
  py_try (o ← store_append c; mret (outcome_result c o))
    (fun e => if bool_decide (e = CandleStoreFullError)
              then Some (mret (mk_CandleIngressResult CI_INVALID "MARKET_CANDLE_STORE_CAPACITY" None)) else None).

(** [ingest] of a [CandleEnvelope]; [from_envelope] raises nothing but [ValueError]. *)
Definition ingest_envelope (e : CandleEnvelope) : py S CandleIngressResult :=
  match from_envelope e with
  | Err _ => mret (mk_CandleIngressResult CI_INVALID "MARKET_CANDLE_NOT_CLOSED_OR_INVALID" None)
  | Ok c => ingest_candle c
  end.

Definition ingest_external (raw : json) : py S CandleIngressResult :=
  match from_external_payload raw with
  | Err _ => mret (mk_CandleIngressResult CI_INVALID "MARKET_CANDLE_PAYLOAD_INVALID" None)
  | Ok e => ingest_envelope e
  end.
End ingress.
End hashed.

(** A transaction as a call that keeps the table when it raises. *)
Definition in_transaction {S A} (m : st S A) : py S A := fun s =>
  match m s with Ok (a, s') => (Ok a, s') | Err e => (Err e, s) end.

Section stores.
Variable payload_hash : payload -> string.

Definition memory_store : CandleStore InMemoryCandleStore := memory_append payload_hash.
Definition table_store : CandleStore (list candle_row) := fun c => in_transaction (repo_append payload_hash c).
End stores.
