(* ===== verification/CandleProps.v ===== *)
(** * What the candle stores promise

    Both stores implement one abstract store, the list of the candles accepted so far: a
    candle is accepted when it is new and opens where its series ends.  So every series is
    gapless, and reading it back gives the candles in the order in which they came. *)

From S2P Require Import Prelude Datetime Dec DecVal Json Domain DerivJson Candles.

(** ** The abstract store *)

Definition valid_candle (c : ClosedCandle) : Prop := ClosedCandle_post_init c = Ok c.

Definition of_series (key : SeriesKey) (cs : list ClosedCandle) : list ClosedCandle :=
  select (fun c => bool_decide (series_key c = key)) cs.

(** Each candle opens where the one before it closed. *)
Fixpoint chained (l : list ClosedCandle) : Prop :=
  match l with
  | a :: (b :: _) as l' => cc_open_time_ms b = cc_close_time_ms a /\ chained l'
  | _ => True
  end.

Lemma valid_candle_spec c :
  valid_candle c ->
  0 < cc_timeframe_seconds c /\ 0 < cc_price_scale c /\ 0 <= cc_open_time_ms c
  /\ cc_close_time_ms c = cc_open_time_ms c + cc_timeframe_seconds c * 1000
  /\ 0 <= cc_source_timestamp_ms c /\ 0 <= cc_received_timestamp_ms c
  /\ (0 < cc_low_units c <= cc_open_units c /\ cc_open_units c <= cc_high_units c
      /\ cc_low_units c <= cc_close_units c <= cc_high_units c).
Proof.
  unfold valid_candle, ClosedCandle_post_init, candle_prices. intros H.
  repeat (apply res_bind_Ok in H as (? & ?%guard_res_Ok & H)). simpl in *.
  repeat match goal with E : _ && _ = true |- _ => apply andb_true_iff in E as [] end. lia.
Qed.

Lemma chained_snoc l c :
  chained l -> (forall a, last l = Some a -> cc_open_time_ms c = cc_close_time_ms a) -> chained (l ++ [c]).
Proof.
  induction l as [|a l IH]; [done|]. destruct l as [|b l]; [simpl; auto|]. intros [Ha Hl] Hc.
  change (cc_open_time_ms b = cc_close_time_ms a /\ chained ((b :: l) ++ [c])). split; [done|]. by apply IH.
Qed.

(** The closes of a gapless series increase. *)
Lemma chained_increasing l :
  Forall valid_candle l -> chained l -> StronglySorted (fun a b => cc_close_time_ms a < cc_close_time_ms b) l.
Proof.
  induction l as [|a l IH]; [constructor|]. intros [Ha Hl]%Forall_cons Hc. assert (chained l) as Hc' by (destruct l; [done|by destruct Hc]).
  specialize (IH Hl Hc'). constructor; [done|]. destruct l as [|b l]; [constructor|]. destruct Hc as [Hb _].
  apply Forall_cons in Hl as [Vb _]. apply valid_candle_spec in Vb as (? & _ & _ & Hw & _).
  apply StronglySorted_inv in IH as [_ IH]. constructor; [lia|]. eapply Forall_impl; [exact IH|]. simpl. lia.
Qed.

Section abstract.
Variable payload_hash : payload -> string.
Abbreviation candle_id := (candle_id payload_hash).

(** A candle comes next when it opens at the last close and closes later; it leaves a gap when
    it opens later, and is out of order otherwise. *)
Definition misplaced (last_close : Z) (c : ClosedCandle) : option CandleStoreOutcome :=
  if negb (last_close <? cc_close_time_ms c) then Some CS_OUT_OF_ORDER
  else match cc_open_time_ms c ?= last_close with
       | Eq => None
       | Lt => Some CS_OUT_OF_ORDER
       | Gt => Some CS_GAPPED
       end.

Lemma repo_misplaced_spec n c : repo_misplaced n c = misplaced n c.
Proof.
  unfold repo_misplaced, misplaced. destruct (Z.leb_spec (cc_close_time_ms c) n), (Z.ltb_spec n (cc_close_time_ms c)); try lia; [done|].
  destruct (Z.compare_spec (cc_open_time_ms c) n), (Z.ltb_spec (cc_open_time_ms c) n), (Z.eqb_spec (cc_open_time_ms c) n); done || lia.
Qed.

Lemma memory_misplaced_spec l c : memory_misplaced l c = misplaced (cc_close_time_ms l) c.
Proof. apply repo_misplaced_spec. Qed.

(** The abstract [append]. *)
Definition accept (c : ClosedCandle) (cs : list ClosedCandle) : CandleStoreOutcome * list ClosedCandle :=
  if decide (candle_id c ∈ candle_id <$> cs) then (CS_DUPLICATE, cs)
  else match last (of_series (series_key c) cs) ≫= (fun l => misplaced (cc_close_time_ms l) c) with
       | Some o => (o, cs)
       | None => (CS_STORED, cs ++ [c])
       end.

Fixpoint accept_all (new cs : list ClosedCandle) : list CandleStoreOutcome * list ClosedCandle :=
  match new with
  | [] => ([], cs)
  | c :: new => let '(o, cs) := accept c cs in let '(os, cs) := accept_all new cs in (o :: os, cs)
  end.

Record series_ok (cs : list ClosedCandle) : Prop := mk_series_ok {
  so_valid : Forall valid_candle cs;
  so_ids : NoDup (candle_id <$> cs);
  so_chained : forall key, chained (of_series key cs)
}.

Lemma of_series_snoc key cs c :
  of_series key (cs ++ [c]) = of_series key cs ++ (if bool_decide (series_key c = key) then [c] else []).
Proof. unfold of_series, select. by rewrite List.filter_app. Qed.

Lemma of_series_valid key cs : Forall valid_candle cs -> Forall valid_candle (of_series key cs).
Proof. rewrite !Forall_forall. intros H x [Hx _]%elem_of_select. auto. Qed.

Lemma misplaced_None n c : misplaced n c = None -> cc_open_time_ms c = n.
Proof. unfold misplaced. destruct (negb _); [done|]. by destruct (Z.compare_spec (cc_open_time_ms c) n). Qed.

Lemma accept_ok c cs : valid_candle c -> series_ok cs -> series_ok (snd (accept c cs)).
Proof.
  intros Hv [V I C]. unfold accept. destruct (decide _) as [|Hn]; [by split|].
  destruct (last _ ≫= _) as [o|] eqn:El; [by split|]. cbn [snd]. split.
  - apply Forall_app. by rewrite Forall_singleton.
  - rewrite fmap_app. apply NoDup_app. split; [done|]. split; [|apply NoDup_singleton].
    intros x Hx ->%list_elem_of_singleton. done.
  - intros key. rewrite of_series_snoc. destruct (bool_decide_reflect (series_key c = key)) as [<-|]; [|by rewrite app_nil_r].
    apply chained_snoc; [done|]. intros a Ha. rewrite Ha in El. by apply misplaced_None in El.
Qed.

Lemma accept_all_ok new cs : Forall valid_candle new -> series_ok cs -> series_ok (snd (accept_all new cs)).
Proof.
  revert cs. induction new as [|c new IH]; intros cs Hv Hs; [done|]. apply Forall_cons in Hv as [Hc Hv]. simpl.
  pose proof (accept_ok c cs Hc Hs) as H. destruct (accept c cs) as [o cs1]. specialize (IH cs1 Hv H).
  by destruct (accept_all new cs1) as [os cs2].
Qed.

Lemma series_ok_nil : series_ok [].
Proof. split; [constructor|constructor|done]. Qed.

(** ** The table *)

Lemma from_row_of c : valid_candle c -> from_row payload_hash (row_of payload_hash c) = Ok c.
Proof.
  intros Hv. unfold from_row. cbn [row_of cr_broker]. rewrite of_value_value. cbn [mbind res_bind].
  replace (mk_ClosedCandle _ _ _ _ _ _ _ _ _ _ _ _ _ _) with c by (by destruct c). rewrite Hv. cbn [mbind res_bind].
  cbn [cr_candle_id]. rewrite String.eqb_refl. done.
Qed.

Lemma from_rows_of cs : Forall valid_candle cs -> from_rows payload_hash (row_of payload_hash <$> cs) = Ok cs.
Proof.
  induction cs as [|c cs IH]; [done|]. intros [Hc Hcs]%Forall_cons.
  change (row_of payload_hash <$> c :: cs) with (row_of payload_hash c :: (row_of payload_hash <$> cs)).
  cbn [from_rows]. rewrite from_row_of by done. cbn [mbind res_bind]. by rewrite IH.
Qed.

Lemma in_series_row key c : in_series key (row_of payload_hash c) = bool_decide (series_key c = key).
Proof.
  destruct key as [[b s] n]. unfold in_series, series_key. cbn [row_of cr_broker cr_symbol cr_timeframe_seconds].
  apply eq_true_iff_eq. rewrite !andb_true_iff, !bool_decide_eq_true, Z.eqb_eq. split.
  - intros [[H <-] <-]. apply value_inj in H. congruence.
  - by intros [= <- <- <-].
Qed.

Lemma select_rows (p : candle_row -> bool) cs :
  select p (row_of payload_hash <$> cs) = row_of payload_hash <$> select (fun c => p (row_of payload_hash c)) cs.
Proof. unfold select. induction cs as [|c cs IH]; [done|]. simpl. destruct (p _); [simpl; by f_equal|done]. Qed.

Lemma select_series key cs :
  select (in_series key) (row_of payload_hash <$> cs) = row_of payload_hash <$> of_series key cs.
Proof. rewrite select_rows. f_equal. apply List.filter_ext. intros c. apply in_series_row. Qed.

Lemma latest_close_sorted l :
  StronglySorted (fun a b => cc_close_time_ms a < cc_close_time_ms b) l ->
  latest_close (row_of payload_hash <$> l) = cc_close_time_ms <$> last l.
Proof.
  induction 1 as [|a l Hs IH Hf]; [done|].
  change (latest_close (row_of payload_hash <$> a :: l)) with
    (Some (match latest_close (row_of payload_hash <$> l) with Some n => Z.max (cc_close_time_ms a) n | None => cc_close_time_ms a end)).
  rewrite IH. destruct l as [|b l]; [done|]. rewrite last_cons_cons. destruct (last (b :: l)) as [x|] eqn:E; [|done]. simpl. f_equal.
  apply last_Some_elem_of in E. rewrite Forall_forall in Hf. specialize (Hf x E). lia.
Qed.

(** What makes the table accept the candles of [cs]: 64-bit integers, and no two of them
    with the same digest and different contents. *)
Definition storable (c : ClosedCandle) : Prop := forallb int64 (row_ints (row_of payload_hash c)) = true.
Definition no_collision (cs : list ClosedCandle) : Prop :=
  forall a b, a ∈ cs -> b ∈ cs -> candle_id a = candle_id b -> identity_of a = identity_of b.

Lemma fetch_id id cs :
  fetchone (fun r => bool_decide (cr_candle_id r = id)) (row_of payload_hash <$> cs)
  = row_of payload_hash <$> fetchone (fun c => bool_decide (candle_id c = id)) cs.
Proof. unfold fetchone. induction cs as [|c cs IH]; [done|]. simpl. by destruct (bool_decide _). Qed.

Lemma fetch_id_Some id cs c : fetchone (fun c => bool_decide (candle_id c = id)) cs = Some c -> c ∈ cs /\ candle_id c = id.
Proof. intros [? ?%bool_decide_eq_true]%fetchone_Some. done. Qed.

Lemma fetch_id_None id cs : fetchone (fun c => bool_decide (candle_id c = id)) cs = None -> id ∉ candle_id <$> cs.
Proof.
  intros H (c & -> & Hc)%list_elem_of_fmap. pose proof (fetchone_None _ _ c H Hc) as E. by apply bool_decide_eq_false in E.
Qed.

Lemma repo_get_table id cs :
  Forall valid_candle cs ->
  repo_get payload_hash id (row_of payload_hash <$> cs) = Ok (fetchone (fun c => bool_decide (candle_id c = id)) cs).
Proof.
  intros Hv. unfold repo_get. rewrite fetch_id. destruct (fetchone _ cs) as [c|] eqn:E; [|done]. cbn [fmap option_fmap option_map].
  apply fetch_id_Some in E as [Hc _]. rewrite Forall_forall in Hv. by rewrite from_row_of by auto.
Qed.

Lemma misplaced_later n c : misplaced n c = None -> n < cc_close_time_ms c.
Proof. unfold misplaced. by destruct (Z.ltb_spec n (cc_close_time_ms c)). Qed.

(** A candle that comes next closes after every candle of its series. *)
Lemma next_is_later c cs a :
  series_ok cs -> last (of_series (series_key c) cs) ≫= (fun l => misplaced (cc_close_time_ms l) c) = None ->
  a ∈ cs -> series_key a = series_key c -> cc_close_time_ms a < cc_close_time_ms c.
Proof.
  intros [V _ C] Hl Ha Hk. assert (a ∈ of_series (series_key c) cs) as Hin.
  { apply elem_of_select. split; [done|]. by apply bool_decide_eq_true. }
  pose proof (chained_increasing _ (of_series_valid (series_key c) cs V) (C (series_key c))) as Hs.
  destruct (last (of_series (series_key c) cs)) as [l|] eqn:E; [|by apply last_None in E; rewrite E in Hin; inv Hin].
  cbn in Hl. apply misplaced_later in Hl. apply last_Some in E as [l' E]. rewrite E in Hs, Hin.
  apply elem_of_app in Hin as [Hin| ->%list_elem_of_singleton]; [|done].
  assert (cc_close_time_ms a < cc_close_time_ms l); [|lia].
  eapply (StronglySorted_app_1_elem_of _ _ _ a l Hs Hin). by apply list_elem_of_singleton.
Qed.

Lemma row_checks_valid c : valid_candle c -> row_checks (row_of payload_hash c) = true.
Proof. intros (? & ? & ? & ? & ? & ? & ?)%valid_candle_spec. unfold row_checks. simpl. rewrite !andb_true_iff. lia. Qed.

Lemma storable_ints c : storable c -> int64 (cc_timeframe_seconds c) = true /\ int64 (cc_close_time_ms c) = true.
Proof. unfold storable. simpl. rewrite !andb_true_iff. tauto. Qed.

(** No row of the table is in the way of a candle that comes next. *)
Lemma no_clash c cs :
  series_ok cs -> candle_id c ∉ candle_id <$> cs ->
  last (of_series (series_key c) cs) ≫= (fun l => misplaced (cc_close_time_ms l) c) = None ->
  existsb (clashes (row_of payload_hash c)) (row_of payload_hash <$> cs) = false
  /\ fetchone (fun r => in_series (series_key c) r && (cr_close_time_ms r =? cc_close_time_ms c)) (row_of payload_hash <$> cs) = None.
Proof.
  intros Hs Hn Hl.
  assert (forall a, a ∈ cs -> series_key a = series_key c -> cc_close_time_ms a <> cc_close_time_ms c) as Hc.
  { intros a Ha Hk. pose proof (next_is_later c cs a Hs Hl Ha Hk). lia. }
  split.
  - apply not_true_iff_false. intros (r & (a & <- & Ha)%in_map_iff & Hr)%existsb_exists. apply list_elem_of_In in Ha.
    unfold clashes in Hr. apply orb_true_iff in Hr as [E%bool_decide_eq_true|Hr].
    + apply Hn, list_elem_of_fmap. exists a. split; [exact E|done].
    + rewrite !andb_true_iff, !bool_decide_eq_true, !Z.eqb_eq in Hr. destruct Hr as [[[Hb%value_inj Hsym] Ht] Ec]. simpl in *.
      apply (Hc a Ha); [|done]. unfold series_key. congruence.
  - destruct (fetchone _ _) as [r|] eqn:E; [|done]. apply fetchone_Some in E as [(a & -> & Ha)%list_elem_of_fmap E].
    rewrite in_series_row in E. apply andb_true_iff in E as [E1%bool_decide_eq_true E2%Z.eqb_eq]. by destruct (Hc a Ha E1).
Qed.

(** The table implements [accept]. *)
Lemma repo_append_accept c cs :
  valid_candle c -> storable c -> series_ok cs ->
  (forall a, a ∈ cs -> candle_id a = candle_id c -> identity_of a = identity_of c) ->
  repo_append payload_hash c (row_of payload_hash <$> cs)
  = Ok (fst (accept c cs), row_of payload_hash <$> snd (accept c cs)).
Proof.
  intros Hv Hst Hs Hcol. unfold repo_append, accept. rewrite repo_get_table by apply Hs. cbn [mbind res_bind].
  destruct (fetchone _ cs) as [e|] eqn:Ef.
  - apply fetch_id_Some in Ef as [He Hid]. rewrite bool_decide_true by auto.
    rewrite decide_True by (apply list_elem_of_fmap; eauto). done.
  - pose proof (fetch_id_None _ _ Ef) as Hn. rewrite decide_False by done.
    pose proof (storable_ints c Hst) as [H1 H2]. unfold bind_ints, guard_res. cbn [forallb]. rewrite H1. cbn [andb mbind res_bind].
    rewrite select_series, latest_close_sorted
      by (apply chained_increasing; [by apply of_series_valid, Hs|apply Hs]).
    replace ((cc_close_time_ms <$> last (of_series (series_key c) cs)) ≫= (fun n => repo_misplaced n c))
      with (last (of_series (series_key c) cs) ≫= (fun l => misplaced (cc_close_time_ms l) c))
      by (destruct (last _); simpl; by rewrite ?repo_misplaced_spec).
    destruct (last _ ≫= _) as [o|] eqn:El; [done|]. destruct (no_clash c cs Hs Hn El) as [Hc1 Hc2].
    unfold repo_store. rewrite fetch_id, Ef. cbn [fmap option_fmap option_map].
    unfold bind_ints, guard_res. cbn [forallb]. rewrite H1, H2. cbn [andb mbind res_bind]. rewrite Hc2.
    unfold storable in Hst. rewrite Hst, row_checks_valid, Hc1 by done. cbn [andb negb mbind res_bind fst snd]. by rewrite fmap_app.
Qed.

(** ** The store in memory *)

Record memory_of (cs : list ClosedCandle) (s : InMemoryCandleStore) : Prop := mk_memory_of {
  mo_ids : ms_ids s = list_to_set (candle_id <$> cs);
  mo_series : forall key, series_of key s = of_series key cs
}.

Lemma series_of_insert key key' l s :
  series_of key (s <| ms_series ::= <[ key' := l ]> |>) = if decide (key = key') then l else series_of key s.
Proof.
  unfold series_of. cbn. destruct (decide (key = key')) as [->|]; [by rewrite lookup_insert_eq|by rewrite lookup_insert_ne].
Qed.

(** It implements [accept] as long as it has room. *)
Lemma memory_append_accept c cs s :
  memory_of cs s -> NoDup (candle_id <$> cs) ->
  match memory_append payload_hash c s with
  | (Ok o, s') => o = fst (accept c cs) /\ memory_of (snd (accept c cs)) s' /\ ms_max_candles s' = ms_max_candles s
  | (Err e, s') => e = CandleStoreFullError /\ ms_max_candles s <= Z.of_nat (length cs) /\ memory_of cs s'
  end.
Proof.
  intros [Hi Hs] Hnd. unfold memory_append, accept. rewrite Hi.
  destruct (decide (candle_id c ∈ candle_id <$> cs)) as [Hin|Hn].
  { rewrite decide_True by set_solver. done. }
  rewrite decide_False by set_solver. rewrite Hs.
  assert (memory_of cs (s <| ms_series ::= <[ series_key c := of_series (series_key c) cs ]> |>)) as Ht.
  { split; [done|]. intros key. rewrite series_of_insert. destruct (decide _) as [->|]; [done|apply Hs]. }
  replace (last (of_series (series_key c) cs) ≫= (fun l => memory_misplaced l c))
    with (last (of_series (series_key c) cs) ≫= (fun l => misplaced (cc_close_time_ms l) c))
    by (destruct (last _); simpl; by rewrite ?memory_misplaced_spec).
  destruct (last _ ≫= _) as [o|]; [done|]. cbn [ms_max_candles ms_ids set_field]. rewrite Hi, size_list_to_set, length_fmap by done.
  destruct (Z.leb_spec (ms_max_candles s) (Z.of_nat (length cs))); [|].
  { split_and!; [done|lia|]. by rewrite <- Hi. }
  split; [done|]. split; [|done]. split.
  - cbn. rewrite fmap_app, list_to_set_app_L. set_solver.
  - intros key. cbn [snd]. rewrite of_series_snoc. unfold series_of. cbn. rewrite insert_insert_eq.
    destruct (bool_decide_reflect (series_key c = key)) as [<-|Hne]; [by rewrite lookup_insert_eq|].
    rewrite lookup_insert_ne, app_nil_r by done. apply Hs.
Qed.

(** ** Histories of a store *)

Lemma accept_subset c cs a : a ∈ snd (accept c cs) -> a ∈ c :: cs.
Proof.
  unfold accept. destruct (decide _); [by right|]. destruct (_ ≫= _); [by right|]. cbn [snd].
  rewrite elem_of_app, list_elem_of_singleton, elem_of_cons. tauto.
Qed.

Lemma accept_length c cs : (length (snd (accept c cs)) <= S (length cs))%nat.
Proof. unfold accept. destruct (decide _); [simpl; lia|]. destruct (_ ≫= _); [simpl; lia|]. cbn [snd]. rewrite length_app. simpl. lia. Qed.

Lemma table_history new cs :
  Forall valid_candle new -> Forall storable new -> no_collision (new ++ cs) -> series_ok cs ->
  py_map (table_store payload_hash) new (row_of payload_hash <$> cs)
  = (Ok (fst (accept_all new cs)), row_of payload_hash <$> snd (accept_all new cs)).
Proof.
  revert cs. induction new as [|c new IH]; intros cs Hv Hst Hcol Hs; [done|].
  apply Forall_cons in Hv as [Hc Hv]. apply Forall_cons in Hst as [Hsc Hst]. cbn [py_map accept_all].
  unfold mbind, py_bind, table_store, in_transaction at 1. rewrite repo_append_accept; [|done|done|done|].
  2:{ intros a Ha. apply Hcol; rewrite elem_of_app; [by right|]. left. left. }
  pose proof (accept_ok c cs Hc Hs) as Hs'. pose proof (accept_subset c cs) as Hsub. destruct (accept c cs) as [o cs1].
  cbn [fst snd] in *. fold (table_store payload_hash). rewrite IH; [|done|done| |done].
  - by destruct (accept_all new cs1).
  - assert (forall a, a ∈ new ++ cs1 -> a ∈ (c :: new) ++ cs) as Hin.
    { intros a. rewrite !elem_of_app, elem_of_cons. intros [?|Ha%Hsub]; [tauto|]. apply elem_of_cons in Ha as [?|?]; tauto. }
    intros a b Ha%Hin Hb%Hin. by apply Hcol.
Qed.

Lemma memory_history new cs s :
  Forall valid_candle new -> series_ok cs -> memory_of cs s -> Z.of_nat (length new + length cs) <= ms_max_candles s ->
  exists s', py_map (memory_append payload_hash) new s = (Ok (fst (accept_all new cs)), s') /\ memory_of (snd (accept_all new cs)) s'.
Proof.
  revert cs s. induction new as [|c new IH]; intros cs s Hv Hs Hm Hlen; [by exists s|].
  apply Forall_cons in Hv as [Hc Hv]. cbn [py_map accept_all]. unfold mbind, py_bind.
  pose proof (memory_append_accept c cs s Hm (so_ids _ Hs)) as Ha. pose proof (accept_length c cs) as Hl.
  pose proof (accept_ok c cs Hc Hs) as Hs1. cbn [length] in Hlen. destruct (memory_append payload_hash c s) as [[o|e] s1]; [|lia].
  destruct Ha as (-> & Hm1 & Hmax). destruct (accept c cs) as [o cs1]. cbn [fst snd] in *.
  destruct (IH cs1 s1 Hv Hs1 Hm1 ltac:(lia)) as (s2 & E & Hm2). rewrite E. exists s2. by destruct (accept_all new cs1).
Qed.

Lemma sort_sorted_rows l :
  StronglySorted (fun a b => cc_close_time_ms a < cc_close_time_ms b) l ->
  sort_by row_leb (row_of payload_hash <$> l) = row_of payload_hash <$> l.
Proof.
  induction 1 as [|a l Hs IH Hf]; [done|]. change (row_of payload_hash <$> a :: l) with (row_of payload_hash a :: (row_of payload_hash <$> l)).
  cbn [sort_by]. rewrite IH. destruct l as [|b l]; [done|]. apply Forall_cons in Hf as [Hab _].
  change (row_of payload_hash <$> b :: l) with (row_of payload_hash b :: (row_of payload_hash <$> l)). cbn [insert_by].
  assert (row_leb (row_of payload_hash a) (row_of payload_hash b) = true) as -> by (unfold row_leb; simpl; lia). done.
Qed.

Lemma sorted_select (p : ClosedCandle -> bool) l (R : relation ClosedCandle) : StronglySorted R l -> StronglySorted R (select p l).
Proof.
  unfold select. induction 1 as [|a l Hs IH Hf]; [constructor|]. simpl. destruct (p a); [|done]. constructor; [done|].
  rewrite Forall_forall in Hf |- *. intros x [Hx _]%elem_of_select. auto.
Qed.

Lemma table_range cs key from to :
  series_ok cs -> forallb int64 (snd key :: option_list from ++ option_list to) = true ->
  repo_range payload_hash key from to (row_of payload_hash <$> cs)
  = Ok (select (fun c => within from to (cc_close_time_ms c)) (of_series key cs)).
Proof.
  intros Hs Hb. unfold repo_range, bind_ints, guard_res. rewrite Hb. cbn [mbind res_bind].
  rewrite select_rows. replace (select _ cs) with (select (fun c => within from to (cc_close_time_ms c)) (of_series key cs)).
  - rewrite sort_sorted_rows.
    + apply from_rows_of. rewrite Forall_forall. intros x [Hx _]%elem_of_select. pose proof (of_series_valid key cs (so_valid _ Hs)) as Hv.
      rewrite Forall_forall in Hv. auto.
    + apply sorted_select, chained_increasing; [apply of_series_valid, Hs|apply Hs].
  - unfold of_series, select. clear. induction cs as [|c cs IH]; [done|]. simpl. rewrite in_series_row. cbn [row_of cr_close_time_ms].
    destruct (bool_decide _); simpl; [|done]. by rewrite IH.
Qed.
End abstract.

(** C33: The candles that arrive at a store in memory with room for them and at the SQLite
    table get the same answers, those of the abstract store, and every range of every
    series read from the two is the same.  Each series is kept without a gap: every candle
    opens where the one before it closed.  It is assumed that the integers fit in 64 bits
    and that no two of the candles have the same digest and different contents. *)
Theorem candle_stores_agree payload_hash max new :
  Forall valid_candle new -> Forall (storable payload_hash) new -> no_collision payload_hash new ->
  Z.of_nat (length new) <= max ->
  exists memory rows,
    py_map (memory_append payload_hash) new (mk_InMemoryCandleStore max ∅ ∅)
    = (Ok (fst (accept_all payload_hash new [])), memory)
    /\ py_map (table_store payload_hash) new [] = (Ok (fst (accept_all payload_hash new [])), rows)
    /\ forall key from to, forallb int64 (snd key :: option_list from ++ option_list to) = true ->
         repo_range payload_hash key from to rows = Ok (memory_range key from to memory)
         /\ chained (memory_range key None None memory).
Proof.
  intros Hv Hst Hcol Hmax.
  destruct (memory_history payload_hash new [] (mk_InMemoryCandleStore max ∅ ∅) Hv (series_ok_nil _)) as (m & Em & [_ Hm]).
  { split; [done|]. intros key. done. }
  { simpl. lia. }
  pose proof (table_history payload_hash new [] Hv Hst ltac:(by rewrite app_nil_r) (series_ok_nil _)) as Et.
  pose proof (accept_all_ok payload_hash new [] Hv (series_ok_nil _)) as Hs.
  exists m, (row_of payload_hash <$> snd (accept_all payload_hash new [])). split; [done|]. split; [exact Et|].
  intros key from to Hb. unfold memory_range. rewrite Hm. split; [by apply table_range|].
  replace (select _ _) with (of_series key (snd (accept_all payload_hash new []))); [apply Hs|].
  unfold select. symmetry. induction (of_series _ _) as [|c l IH]; [done|]. simpl. by rewrite IH.
Qed.

(** ** A sample history *)

Module CandleWitness.
Definition digest (p : payload) : string :=
  match p !! "close_time_ms", p !! "close_units" with Some (JInt n), Some (JInt m) => decimal n +:+ ":" +:+ decimal m | _, _ => "" end.

Definition candle (minute close : Z) : ClosedCandle :=
  mk_ClosedCandle DERIV "R_100" 60 (minute * 60000) ((minute + 1) * 60000) 1000 (Z.max 1000 close) (Z.min 1000 close) close 100
    "DERIV_CANDLES_READ_ONLY" "e1" ((minute + 1) * 60000) ((minute + 1) * 60000).

(** Two candles, the first again, one after a gap, one that comes too late, and the next. *)
Definition arrivals : list ClosedCandle := [candle 10 1001; candle 11 998; candle 10 1001; candle 13 1002; candle 10 990; candle 12 1004].
End CandleWitness.
Import CandleWitness.

Example sample_arrivals :
  accept_all digest arrivals [] = ([CS_STORED; CS_STORED; CS_DUPLICATE; CS_GAPPED; CS_OUT_OF_ORDER; CS_STORED], [candle 10 1001; candle 11 998; candle 12 1004])
  /\ fst (py_map (table_store digest) arrivals []) = Ok [CS_STORED; CS_STORED; CS_DUPLICATE; CS_GAPPED; CS_OUT_OF_ORDER; CS_STORED].
Proof. split; vm_compute; reflexivity. Qed.

Lemma candle_stores_agree_witness :
  exists memory rows,
    py_map (memory_append digest) arrivals (mk_InMemoryCandleStore 10 ∅ ∅) = (Ok (fst (accept_all digest arrivals [])), memory)
    /\ py_map (table_store digest) arrivals [] = (Ok (fst (accept_all digest arrivals [])), rows)
    /\ forall key from to, forallb int64 (snd key :: option_list from ++ option_list to) = true ->
         repo_range digest key from to rows = Ok (memory_range key from to memory)
         /\ chained (memory_range key None None memory).
Proof.
  assert (Forall valid_candle arrivals) as H1 by (repeat constructor).
  assert (Forall (storable digest) arrivals) as H2 by (repeat constructor).
  assert (Forall (fun a => Forall (fun b => candle_id digest a = candle_id digest b -> identity_of a = identity_of b) arrivals) arrivals) as H3
    by (repeat constructor; vm_compute; first [reflexivity|discriminate]).
  assert (no_collision digest arrivals) as H4.
  { intros a b Ha Hb. rewrite Forall_forall in H3. specialize (H3 a Ha). rewrite Forall_forall in H3. apply (H3 b Hb). }
  assert (Z.of_nat (length arrivals) <= 10) as H5 by (simpl; lia).
  exact (candle_stores_agree digest 10 arrivals H1 H2 H4 H5).
Defined.
