(* ===== verification/MarketHealth.v ===== *)
(** * The health of market series

    [packages/market_pipeline/models.py], [clock.py], [planner.py] and [health.py]: series,
    the trusted horizon, the plan of a backfill and the gate that decides whether the
    candles of a series may be dispatched. *)

From S2P Require Import Prelude Datetime Dec PyFloat Domain Candles.

(** ** Series *)

Record MarketSeriesId : Type := mk_MarketSeriesId {
  si_broker : Broker; si_broker_symbol : string; si_canonical_symbol : string; si_product : string;
  si_timeframe_seconds : Z; si_context : string
}.

#[export] Instance MarketSeriesId_eq_dec : EqDecision MarketSeriesId.
Proof. solve_decision. Defined.

#[export] Instance MarketSeriesId_countable : Countable MarketSeriesId.
Proof.
  apply (inj_countable'
    (fun s => (si_broker s, si_broker_symbol s, si_canonical_symbol s, si_product s, si_timeframe_seconds s, si_context s))
    (fun '(b, s, c, p, t, x) => mk_MarketSeriesId b s c p t x)). by intros [].
Defined.

(** [MarketSeriesId.__post_init__] *)
Definition MarketSeriesId_post_init (s : MarketSeriesId) : res MarketSeriesId :=
  _ ← guard_res (forallb nonblank [si_broker_symbol s; si_canonical_symbol s; si_product s; si_context s])
        (ValueError "market series identity cannot be blank");
  _ ← guard_res (0 <? si_timeframe_seconds s) (ValueError "market series timeframe must be positive");
  Ok s.

(** The key of the candles of a series. *)
Definition candle_key (s : MarketSeriesId) : SeriesKey := (si_broker s, si_broker_symbol s, si_timeframe_seconds s).

Inductive MarketSeriesHealth : Type :=
| INITIALIZING | WARMING_UP | HEALTHY | STALE | GAPPED | BACKPRESSURED | RECONNECTING | CLOCK_UNTRUSTED | INCOMPATIBLE | FAILED.

#[export] Instance MarketSeriesHealth_eq_dec : EqDecision MarketSeriesHealth.
Proof. solve_decision. Defined.

Inductive MarketHealthReason : Type :=
| MD_HEALTHY | MD_INITIAL_WARMUP | MD_SOURCE_STALE | MD_GAP_DETECTED | MD_BACKPRESSURE | MD_RECONNECT_REQUIRED
| MD_CLOCK_UNTRUSTED | MD_SCHEMA_INCOMPATIBLE | MD_STORAGE_FAILED | MD_SCOPE_MISMATCH | MD_HISTORY_EXHAUSTED
| MD_STALE_CONNECTION_RESPONSE | MD_CONTINUITY_UNPROVEN | MD_SHADOW_DIVERGENCE.

#[export] Instance MarketHealthReason_eq_dec : EqDecision MarketHealthReason.
Proof. solve_decision. Defined.

Definition market_reason_value (r : MarketHealthReason) : string :=
  match r with
  | MD_HEALTHY => "MD_HEALTHY" | MD_INITIAL_WARMUP => "MD_INITIAL_WARMUP" | MD_SOURCE_STALE => "MD_SOURCE_STALE"
  | MD_GAP_DETECTED => "MD_GAP_DETECTED" | MD_BACKPRESSURE => "MD_BACKPRESSURE"
  | MD_RECONNECT_REQUIRED => "MD_RECONNECT_REQUIRED" | MD_CLOCK_UNTRUSTED => "MD_CLOCK_UNTRUSTED"
  | MD_SCHEMA_INCOMPATIBLE => "MD_SCHEMA_INCOMPATIBLE" | MD_STORAGE_FAILED => "MD_STORAGE_FAILED"
  | MD_SCOPE_MISMATCH => "MD_SCOPE_MISMATCH" | MD_HISTORY_EXHAUSTED => "MD_HISTORY_EXHAUSTED"
  | MD_STALE_CONNECTION_RESPONSE => "MD_STALE_CONNECTION_RESPONSE"
  | MD_CONTINUITY_UNPROVEN => "MD_CONTINUITY_UNPROVEN" | MD_SHADOW_DIVERGENCE => "MD_SHADOW_DIVERGENCE"
  end.

(** ** The trusted horizon *)

Record TrustedClosedHorizon : Type := mk_TrustedClosedHorizon {
  th_source_epoch_seconds : Z; th_close_epoch_ms : Z; th_observed_monotonic : float
}.

Definition TrustedClosedHorizon_post_init (h : TrustedClosedHorizon) : res TrustedClosedHorizon :=
  _ ← guard_res ((0 <? th_source_epoch_seconds h) && (0 <=? th_close_epoch_ms h)) (ValueError "trusted closed horizon is invalid");
  _ ← guard_res (negb (fltb (th_observed_monotonic h) (float_of_Z 0)))
        (ValueError "trusted horizon monotonic time cannot be negative");
  Ok h.

Definition trusted_closed_horizon (s : MarketSeriesId) (source_epoch_seconds : option Z) (observed_monotonic : float)
    : res (option TrustedClosedHorizon) :=
  match source_epoch_seconds with
  | None => Ok None
  | Some epoch =>
      _ ← guard_res (0 <? epoch) (ValueError "source epoch must be positive");
      let timeframe := si_timeframe_seconds s in
      let closed_epoch_seconds := (epoch / timeframe) * timeframe in
      h ← TrustedClosedHorizon_post_init (mk_TrustedClosedHorizon epoch (closed_epoch_seconds * 1000) observed_monotonic);
      Ok (Some h)
  end.

(** ** The plan of a backfill *)

Record BackfillPlan : Type := mk_BackfillPlan {
  bp_series_id : MarketSeriesId; bp_generation : Z; bp_start_close_epoch_ms : Z; bp_end_close_epoch_ms : Z; bp_count : Z;
  bp_overlap_candles : Z; bp_trusted_closed_horizon_ms : Z
}.

Definition end_epoch_seconds (p : BackfillPlan) : Z := bp_end_close_epoch_ms p / 1000.

Record BackfillPlanner : Type := mk_BackfillPlanner { pl_max_candles_per_batch : Z; pl_backfill_overlap_candles : Z }.

Definition new_BackfillPlanner (max_candles_per_batch backfill_overlap_candles : Z) : res BackfillPlanner :=
  _ ← guard_res (0 <? max_candles_per_batch) (ValueError "backfill batch size must be positive");
  _ ← guard_res (in_range 1 backfill_overlap_candles max_candles_per_batch)
        (ValueError "backfill overlap is outside the bounded batch");
  Ok (mk_BackfillPlanner max_candles_per_batch backfill_overlap_candles).

(** [plan] when something is stored: [last] is the last durable close. *)
Definition plan_after (p : BackfillPlanner) (s : MarketSeriesId) (generation trusted last durable required : Z)
    (force_overlap : bool) : res (option BackfillPlan) :=
  let timeframe_ms := si_timeframe_seconds s * 1000 in
  _ ← guard_res ((trusted - last) mod timeframe_ms =? 0)
        (ValueError "durable boundary and trusted horizon have different phases");
  let missing := Z.max 0 ((trusted - last) / timeframe_ms) in
  let warmup_missing := Z.max 0 (required - durable) in
  if (missing =? 0) && (warmup_missing =? 0) then
    if negb force_overlap then Ok None
    else
      let count := Z.min (pl_backfill_overlap_candles p) durable in
      if count <=? 0 then Ok None
      else Ok (Some (mk_BackfillPlan s generation (last - (count - 1) * timeframe_ms) last count count trusted))
  else
    let advance := Z.min (Z.max missing warmup_missing) (pl_max_candles_per_batch p - pl_backfill_overlap_candles p) in
    _ ← guard_res (0 <? advance) (ValueError "backfill batch cannot advance beyond overlap");
    let count := advance + pl_backfill_overlap_candles p in
    let end_close := Z.min trusted (last + advance * timeframe_ms) in
    Ok (Some (mk_BackfillPlan s generation (end_close - (count - 1) * timeframe_ms) end_close count
                (pl_backfill_overlap_candles p) trusted)).

(** [plan] when nothing is stored. *)
Definition plan_initial (p : BackfillPlanner) (s : MarketSeriesId) (generation trusted required : Z) : option BackfillPlan :=
  let timeframe_ms := si_timeframe_seconds s * 1000 in
  let available := trusted / timeframe_ms in
  if available <=? 0 then None
  else
    let target := Z.min required available in
    let count := Z.min target (pl_max_candles_per_batch p) in
    let target_start := trusted - (target - 1) * timeframe_ms in
    Some (mk_BackfillPlan s generation target_start (target_start + (count - 1) * timeframe_ms) count
            (pl_backfill_overlap_candles p) trusted).

Definition plan (p : BackfillPlanner) (s : MarketSeriesId) (generation : Z) (horizon : TrustedClosedHorizon)
    (last_durable_close_ms : option Z) (durable_closed_candles required_closed_candles : Z) (force_overlap : bool)
    : res (option BackfillPlan) :=
  _ ← guard_res ((0 <=? generation) && (0 <=? durable_closed_candles) && (0 <? required_closed_candles))
        (ValueError "backfill planner state is invalid");
  match last_durable_close_ms with
  | Some last =>
      plan_after p s generation (th_close_epoch_ms horizon) last durable_closed_candles required_closed_candles force_overlap
  | None => Ok (plan_initial p s generation (th_close_epoch_ms horizon) required_closed_candles)
  end.

(** ** The gate *)

Record SeriesState : Type := mk_SeriesState {
  ss_health : MarketSeriesHealth; ss_reason : MarketHealthReason; ss_required : Z; ss_durable : Z; ss_last_close : option Z;
  ss_last_source_event : option string; ss_gap_count : Z; ss_backpressure : bool; ss_generation : Z
}.

#[export] Instance SeriesState_eta : Eta SeriesState := fun s =>
  mk_SeriesState (ss_health s) (ss_reason s) (ss_required s) (ss_durable s) (ss_last_close s) (ss_last_source_event s)
    (ss_gap_count s) (ss_backpressure s) (ss_generation s).

(** The field [_states] of [MarketHealthGate]. *)
Abbreviation MarketHealthGate := (gmap MarketSeriesId SeriesState).

Record MarketPipelineHealthSnapshot : Type := mk_MarketPipelineHealthSnapshot {
  hs_series_id : MarketSeriesId; hs_health : MarketSeriesHealth; hs_reason : MarketHealthReason;
  hs_last_durable_close : option Z; hs_last_source_event : option string; hs_gap_count : Z; hs_backpressure_active : bool;
  hs_reconnect_generation : Z; hs_warmup_progress : Z; hs_warmup_required : Z; hs_dispatch_allowed : bool
}.

(** [_require] *)
Definition require_series (s : MarketSeriesId) : py MarketHealthGate SeriesState := fun g =>
  match g !! s with Some state => (Ok state, g) | None => (Err KeyError, g) end.

(** [state = self._require(series_id)] and writes to it. *)
Definition update_series (s : MarketSeriesId) (f : SeriesState -> SeriesState) : py MarketHealthGate unit :=
  state ← require_series s; py_modify (fun g => <[ s := f state ]> g).

Definition gate_register (s : MarketSeriesId) (required_closed_candles : Z) : py MarketHealthGate unit := fun g =>
  if required_closed_candles <=? 0 then (Err (ValueError "market warmup requirement must be positive"), g)
  else match g !! s with
       | Some state =>
           if negb (ss_required state =? required_closed_candles)
           then (Err (ValueError "market series already has another warmup requirement"), g) else (Ok tt, g)
       | None =>
           (Ok tt, <[ s := mk_SeriesState INITIALIZING MD_INITIAL_WARMUP required_closed_candles 0 None None 0 false 0 ]> g)
       end.

Definition snapshot_of (s : MarketSeriesId) (state : SeriesState) : MarketPipelineHealthSnapshot :=
  mk_MarketPipelineHealthSnapshot s (ss_health state) (ss_reason state) (ss_last_close state) (ss_last_source_event state)
    (ss_gap_count state) (ss_backpressure state) (ss_generation state) (Z.min (ss_durable state) (ss_required state))
    (ss_required state) (bool_decide (ss_health state = HEALTHY)).

(** [snapshot] *)
Definition gate_snapshot (s : MarketSeriesId) : py MarketHealthGate MarketPipelineHealthSnapshot :=
  state ← require_series s; mret (snapshot_of s state).

Record BrokerMarketHealth : Type := mk_BrokerMarketHealth {
  bh_broker : Broker; bh_health : MarketSeriesHealth; bh_active_series : Z; bh_blocked_series : Z
}.

Definition BROKER_PRIORITY : list MarketSeriesHealth :=
  [FAILED; INCOMPATIBLE; CLOCK_UNTRUSTED; BACKPRESSURED; GAPPED; RECONNECTING; STALE; WARMING_UP; INITIALIZING; HEALTHY].

(** [next] without a default: [StopIteration] is never reached, see [broker_snapshot_total]. *)
Definition broker_snapshot (broker : Broker) (g : MarketHealthGate) : option BrokerMarketHealth :=
  let states := snd <$> select (fun kv => bool_decide (si_broker (fst kv) = broker)) (map_to_list g) in
  match states with
  | [] => Some (mk_BrokerMarketHealth broker INITIALIZING 0 0)
  | _ =>
      match fetchone (fun candidate => existsb (fun state => bool_decide (ss_health state = candidate)) states) BROKER_PRIORITY with
      | None => None
      | Some health =>
          Some (mk_BrokerMarketHealth broker health (Z.of_nat (length states))
                  (rowcount (fun state => bool_decide (ss_health state <> HEALTHY)) states))
      end
  end.

(** [_transition]; [None] leaves a field as it is. *)
Definition set_given {A} (new : option A) (old : A) : A := default old new.
Definition set_given_opt {A} (new old : option A) : option A := match new with Some a => Some a | None => old end.

Definition transition (s : MarketSeriesId) (health : MarketSeriesHealth) (reason : MarketHealthReason) (durable last_close : option Z)
    (last_source_event : option string) : py MarketHealthGate unit :=
  update_series s (fun state =>
    state <| ss_health := health |> <| ss_reason := reason |> <| ss_durable ::= set_given durable |>
          <| ss_last_close ::= set_given_opt last_close |> <| ss_last_source_event ::= set_given_opt last_source_event |>).

Definition mark_warming_up (s : MarketSeriesId) (durable_closed_candles : Z) (last_durable_close : option Z)
    (last_source_event : option string) : py MarketHealthGate unit :=
  transition s WARMING_UP MD_INITIAL_WARMUP (Some durable_closed_candles) last_durable_close last_source_event.

Definition mark_gap (s : MarketSeriesId) : py MarketHealthGate unit :=
  _ ← update_series s (fun state => state <| ss_gap_count ::= Z.succ |>);
  transition s GAPPED MD_GAP_DETECTED None None None.

Definition mark_backpressure (s : MarketSeriesId) : py MarketHealthGate unit :=
  _ ← update_series s (fun state => state <| ss_backpressure := true |>);
  transition s BACKPRESSURED MD_BACKPRESSURE None None None.

Definition mark_clock_untrusted (s : MarketSeriesId) : py MarketHealthGate unit :=
  transition s CLOCK_UNTRUSTED MD_CLOCK_UNTRUSTED None None None.

Definition mark_failed (s : MarketSeriesId) (reason : MarketHealthReason) : py MarketHealthGate unit :=
  transition s FAILED reason None None None.

Definition mark_incompatible (s : MarketSeriesId) : py MarketHealthGate unit :=
  transition s INCOMPATIBLE MD_SCHEMA_INCOMPATIBLE None None None.

(** [state.generation += 1], and the new generation. *)
Definition next_generation (s : MarketSeriesId) : py MarketHealthGate Z :=
  state ← require_series s;
  _ ← update_series s (fun state => state <| ss_generation ::= Z.succ |>);
  mret (Z.succ (ss_generation state)).

Definition start_reconnect (s : MarketSeriesId) : py MarketHealthGate Z :=
  generation ← next_generation s;
  _ ← transition s RECONNECTING MD_RECONNECT_REQUIRED None None None;
  mret generation.

Definition mark_suspended (s : MarketSeriesId) : py MarketHealthGate Z :=
  generation ← next_generation s;
  _ ← transition s STALE MD_SOURCE_STALE None None None;
  mret generation.

(** The target of a completed recovery. *)
Definition recovery_target (continuity_valid clock_trusted : bool) (durable_closed_candles required : Z)
    : MarketSeriesHealth * MarketHealthReason :=
  if negb clock_trusted then (CLOCK_UNTRUSTED, MD_CLOCK_UNTRUSTED)
  else if negb continuity_valid then (GAPPED, MD_CONTINUITY_UNPROVEN)
  else if durable_closed_candles <? required then (WARMING_UP, MD_INITIAL_WARMUP)
  else (HEALTHY, MD_HEALTHY).

(** The first section of [complete_recovery] under the lock: the check of the generation and
    what is noted of the recovery; the health is set by a section of its own. *)
Definition note_recovery (s : MarketSeriesId) (generation : Z) (continuity_valid clock_trusted : bool)
    (durable_closed_candles : Z) (last_durable_close : option Z) (last_source_event : option string)
    : py MarketHealthGate (option (MarketSeriesHealth * MarketHealthReason)) :=
  state ← require_series s;
  if negb (generation =? ss_generation state) then mret None
  else
    let '(target, reason) := recovery_target continuity_valid clock_trusted durable_closed_candles (ss_required state) in
    _ ← update_series s (fun state =>
          (if bool_decide (target = HEALTHY) then state <| ss_gap_count := 0 |> <| ss_backpressure := false |> else state)
            <| ss_durable := durable_closed_candles |> <| ss_last_close := last_durable_close |>
            <| ss_last_source_event := last_source_event |>);
    mret (Some (target, reason)).

Definition complete_recovery (s : MarketSeriesId) (generation : Z) (continuity_valid clock_trusted : bool)
    (durable_closed_candles : Z) (last_durable_close : option Z) (last_source_event : option string)
    : py MarketHealthGate bool :=
  noted ← note_recovery s generation continuity_valid clock_trusted durable_closed_candles last_durable_close last_source_event;
  match noted with
  | None => mret false
  | Some (target, reason) =>
      _ ← transition s target reason None None None;
      mret (bool_decide (target = HEALTHY))
  end.

(** ** Calls on the gate *)

Inductive gate_call : Type :=
| G_register (s : MarketSeriesId) (required : Z)
| G_warming_up (s : MarketSeriesId) (durable : Z) (last_close : option Z) (last_source_event : option string)
| G_gap (s : MarketSeriesId)
| G_backpressure (s : MarketSeriesId)
| G_clock_untrusted (s : MarketSeriesId)
| G_failed (s : MarketSeriesId) (reason : MarketHealthReason)
| G_incompatible (s : MarketSeriesId)
| G_reconnect (s : MarketSeriesId)
| G_suspended (s : MarketSeriesId)
| G_complete (s : MarketSeriesId) (generation : Z) (continuity_valid clock_trusted : bool) (durable : Z)
    (last_close : option Z) (last_source_event : option string).

Definition ignore {S A} (m : py S A) : py S unit := _ ← m; mret tt.

Definition run_call (c : gate_call) : py MarketHealthGate unit :=
  match c with
  | G_register s n => gate_register s n
  | G_warming_up s d lc le => mark_warming_up s d lc le
  | G_gap s => mark_gap s
  | G_backpressure s => mark_backpressure s
  | G_clock_untrusted s => mark_clock_untrusted s
  | G_failed s r => mark_failed s r
  | G_incompatible s => mark_incompatible s
  | G_reconnect s => ignore (start_reconnect s)
  | G_suspended s => ignore (mark_suspended s)
  | G_complete s gen cont clock d lc le => ignore (complete_recovery s gen cont clock d lc le)
  end.

Definition call_series (c : gate_call) : MarketSeriesId :=
  match c with
  | G_register s _ | G_warming_up s _ _ _ | G_gap s | G_backpressure s | G_clock_untrusted s | G_failed s _
  | G_incompatible s | G_reconnect s | G_suspended s | G_complete s _ _ _ _ _ _ => s
  end.

(** The gate after a sequence of whole calls; one that raises does not stop the others.  The
    program takes the lock once for the first part of a call and again for the change of the
    health, so that calls of other threads may come between; what that can lead to is shown
    by [reconnect_inside_a_completion] of [MarketHealthProps]. *)
Definition run_calls (cs : list gate_call) (g : MarketHealthGate) : MarketHealthGate :=
  foldl (fun g c => snd (run_call c g)) g cs.
