(* ===== verification/MarketHealthProps.v ===== *)
(** * What the gate and the planner promise

    A series is open for dispatch only after a recovery of its current connection proved
    its continuity, and a plan asks for candles that join on to what is stored. *)

From S2P Require Import Prelude Datetime Dec PyFloat FloatOrder Domain Candles MarketHealth.

(** ** The effect of a call *)

Definition with_health (h : MarketSeriesHealth) (r : MarketHealthReason) (state : SeriesState) : SeriesState :=
  state <| ss_health := h |> <| ss_reason := r |>.

Definition call_effect (c : gate_call) (state : SeriesState) : SeriesState :=
  match c with
  | G_register _ _ => state
  | G_warming_up _ d lc le =>
      (with_health WARMING_UP MD_INITIAL_WARMUP state)
        <| ss_durable := d |> <| ss_last_close ::= set_given_opt lc |> <| ss_last_source_event ::= set_given_opt le |>
  | G_gap _ => (with_health GAPPED MD_GAP_DETECTED state) <| ss_gap_count ::= Z.succ |>
  | G_backpressure _ => (with_health BACKPRESSURED MD_BACKPRESSURE state) <| ss_backpressure := true |>
  | G_clock_untrusted _ => with_health CLOCK_UNTRUSTED MD_CLOCK_UNTRUSTED state
  | G_failed _ r => with_health FAILED r state
  | G_incompatible _ => with_health INCOMPATIBLE MD_SCHEMA_INCOMPATIBLE state
  | G_reconnect _ => (with_health RECONNECTING MD_RECONNECT_REQUIRED state) <| ss_generation ::= Z.succ |>
  | G_suspended _ => (with_health STALE MD_SOURCE_STALE state) <| ss_generation ::= Z.succ |>
  | G_complete _ gen cont clock d lc le =>
      if negb (gen =? ss_generation state) then state
      else
        let '(target, reason) := recovery_target cont clock d (ss_required state) in
        let state := with_health target reason state <| ss_durable := d |> <| ss_last_close := lc |> <| ss_last_source_event := le |> in
        if bool_decide (target = HEALTHY) then state <| ss_gap_count := 0 |> <| ss_backpressure := false |> else state
  end.

Lemma update_series_run s f g state : g !! s = Some state -> update_series s f g = (Ok tt, <[ s := f state ]> g).
Proof. intros H. unfold update_series, require_series. cbv [mbind py_bind py_modify]. by rewrite H. Qed.

Lemma require_series_run s g state : g !! s = Some state -> require_series s g = (Ok state, g).
Proof. intros H. unfold require_series. by rewrite H. Qed.

Lemma require_series_None s g : g !! s = None -> require_series s g = (Err KeyError, g).
Proof. intros H. unfold require_series. by rewrite H. Qed.

Lemma update_series_None s f g : g !! s = None -> update_series s f g = (Err KeyError, g).
Proof. intros H. unfold update_series. cbv [mbind py_bind]. by rewrite require_series_None. Qed.

(** Runs the gate on a series whose state is known. *)
Ltac gate_run :=
  cbv [mbind py_bind mret py_ret];
  repeat (match goal with
          | |- context [ require_series ?s (<[ ?s := ?x ]> ?g) ] => rewrite (require_series_run s (<[ s := x ]> g) x (lookup_insert_eq _ _ _))
          | |- context [ update_series ?s ?f (<[ ?s := ?x ]> ?g) ] => rewrite (update_series_run s f (<[ s := x ]> g) x (lookup_insert_eq _ _ _))
          | H : ?g !! ?s = Some _ |- context [ require_series ?s ?g ] => rewrite (require_series_run s g _ H)
          | H : ?g !! ?s = Some _ |- context [ update_series ?s ?f ?g ] => rewrite (update_series_run s f g _ H)
          end; cbv beta iota); rewrite ?insert_insert_eq; cbn [fst snd].

Lemma complete_recovery_run s gen cont clock d lc le g state :
  g !! s = Some state ->
  complete_recovery s gen cont clock d lc le g
  = (Ok ((gen =? ss_generation state) && bool_decide (fst (recovery_target cont clock d (ss_required state)) = HEALTHY)),
     <[ s := call_effect (G_complete s gen cont clock d lc le) state ]> g).
Proof.
  intros H. unfold complete_recovery, note_recovery, transition. gate_run. cbn [call_effect]. destruct (gen =? ss_generation state); cbn [negb andb].
  - destruct (recovery_target _ _ _ _) as [target reason]. gate_run. by destruct (bool_decide (target = HEALTHY)).
  - by rewrite insert_id.
Qed.

Lemma gate_snapshot_run series g r g' :
  gate_snapshot series g = (Ok r, g') <-> exists state, g !! series = Some state /\ r = snapshot_of series state /\ g' = g.
Proof.
  unfold gate_snapshot, require_series. cbv [mbind py_bind mret py_ret]. destruct (g !! series) as [state|]; split.
  - intros [= <- <-]. eauto.
  - by intros (? & [= <-] & -> & ->).
  - done.
  - by intros (? & ? & _).
Qed.

Lemma run_call_effect c g state :
  g !! call_series c = Some state -> snd (run_call c g) = <[ call_series c := call_effect c state ]> g.
Proof.
  intros H. destruct c; cbn [call_series] in H |- *.
  1:{ unfold run_call, gate_register. cbn [call_effect]. rewrite (insert_id _ _ _ H). destruct (_ <=? _); [done|]. rewrite H. by destruct (negb _). }
  9:{ cbn [run_call]. unfold ignore. cbv [mbind py_bind mret py_ret]. by rewrite (complete_recovery_run _ _ _ _ _ _ _ _ _ H). }
  all: unfold run_call, ignore, mark_warming_up, mark_gap, mark_backpressure, mark_clock_untrusted, mark_failed, mark_incompatible,
       start_reconnect, mark_suspended, next_generation, transition; gate_run; done.
Qed.

Lemma run_call_None c g :
  g !! call_series c = None ->
  snd (run_call c g) = match c with
                       | G_register s n =>
                           if n <=? 0 then g else <[ s := mk_SeriesState INITIALIZING MD_INITIAL_WARMUP n 0 None None 0 false 0 ]> g
                       | _ => g
                       end.
Proof.
  intros H. destruct c; cbn [call_series] in H.
  1:{ unfold run_call, gate_register. rewrite H. by destruct (_ <=? _). }
  all: unfold run_call, ignore, mark_warming_up, mark_gap, mark_backpressure, mark_clock_untrusted, mark_failed, mark_incompatible,
       start_reconnect, mark_suspended, complete_recovery, note_recovery, next_generation, transition; cbv [mbind py_bind mret py_ret];
       rewrite ?require_series_None, ?update_series_None by done; done.
Qed.

Lemma run_call_other c s g : call_series c <> s -> snd (run_call c g) !! s = g !! s.
Proof.
  intros Hne. destruct (g !! call_series c) as [state|] eqn:E.
  - rewrite (run_call_effect c g state E). by rewrite lookup_insert_ne.
  - rewrite run_call_None by done. destruct c; try done. destruct (_ <=? _); [done|]. by rewrite lookup_insert_ne.
Qed.

(** No call takes a series out of the gate. *)
Definition keeps_registered (g g' : MarketHealthGate) : Prop := forall x, is_Some (g !! x) -> is_Some (g' !! x).

#[export] Instance keeps_registered_preorder : PreOrder keeps_registered.
Proof. split; [by intros g x|]. intros a b c H1 H2 x Hx. auto. Qed.

Lemma run_call_keeps c g : keeps_registered g (snd (run_call c g)).
Proof.
  intros x Hx. destruct (decide (call_series c = x)) as [<-|]; [|by rewrite run_call_other]. destruct Hx as [state E].
  rewrite (run_call_effect c g state E), lookup_insert_eq. done.
Qed.

Lemma run_calls_keeps cs g : keeps_registered g (run_calls cs g).
Proof.
  revert g. induction cs as [|c cs IH]; intros g; [done|]. transitivity (snd (run_call c g)); [apply run_call_keeps|apply IH].
Qed.

(** The calls that close a series for dispatch. *)
Definition closes (s : MarketSeriesId) (c : gate_call) : Prop :=
  call_series c = s /\ match c with G_register _ _ | G_complete _ _ _ _ _ _ _ => False | _ => True end.

Lemma gate_calls_snoc cs c g : run_calls (cs ++ [c]) g = snd (run_call c (run_calls cs g)).
Proof. unfold run_calls. by rewrite foldl_app. Qed.

Lemma recovery_target_healthy cont clock d required :
  fst (recovery_target cont clock d required) = HEALTHY -> cont = true /\ clock = true /\ required <= d.
Proof. unfold recovery_target. destruct clock, cont; cbn; try done. destruct (Z.ltb_spec d required); done. Qed.

(** A healthy series after a call was healthy before it, unless the call completed a
    recovery of its generation. *)
Lemma healthy_after c s g state :
  snd (run_call c g) !! s = Some state -> ss_health state = HEALTHY ->
  (exists d lc le before, c = G_complete s (ss_generation before) true true d lc le /\ g !! s = Some before
     /\ ss_required state <= d /\ ss_generation state = ss_generation before)
  \/ (~ closes s c /\ g !! s = Some state).
Proof.
  intros H Hh. destruct (decide (call_series c = s)) as [Hs|Hne]; [|right; split; [by intros [? _]|by rewrite run_call_other in H]].
  destruct (g !! s) as [before|] eqn:E; subst s.
  - rewrite (run_call_effect c g before E), lookup_insert_eq in H. injection H as <-. destruct c; cbn [call_series] in *; try done.
    + right. split; [by intros [_ ?]|done].
    + cbn [call_effect] in *. destruct (Z.eqb_spec generation (ss_generation before)) as [->|]; cbn [negb] in *.
      * left. destruct (recovery_target _ _ _ _) as [target reason] eqn:Et.
        assert (target = HEALTHY) as -> by (by destruct (bool_decide _)).
        destruct (recovery_target_healthy continuity_valid clock_trusted durable (ss_required before)) as (-> & -> & Hr); [by rewrite Et|].
        rewrite bool_decide_true by done. exists durable, last_close, last_source_event, before. done.
      * right. split; [by intros [_ ?]|done].
  - rewrite run_call_None in H by done. destruct c; cbn [call_series] in *; try congruence.
    destruct (_ <=? _); [congruence|]. rewrite lookup_insert_eq in H. by injection H as <-.
Qed.

Lemma healthy_history cs s state :
  run_calls cs ∅ !! s = Some state -> ss_health state = HEALTHY ->
  exists before durable last_close last_source_event after,
    cs = before ++ G_complete s (ss_generation state) true true durable last_close last_source_event :: after
    /\ ss_required state <= durable /\ ss_generation <$> run_calls before ∅ !! s = Some (ss_generation state)
    /\ Forall (fun c => ~ closes s c) after.
Proof.
  revert state. induction cs as [|c cs IH] using rev_ind; intros state H Hh; [discriminate (H : (∅ : MarketHealthGate) !! s = Some state)|].
  rewrite gate_calls_snoc in H. destruct (healthy_after c s _ state H Hh) as [(d & lc & le & before & -> & E & Hr & Hg)|[Hc E]].
  - exists cs, d, lc, le, []. rewrite E, Hg. done.
  - destruct (IH state E Hh) as (before & d & lc & le & after & -> & Hr & Hg & Hf). exists before, d, lc, le, (after ++ [c]).
    split; [by rewrite <- app_assoc|]. split; [done|]. split; [done|]. apply Forall_app. by rewrite Forall_singleton.
Qed.

(** C34: In any history of calls on the gate, a series is open for dispatch only if a
    recovery was completed that belongs to the generation of its connection, trusted the
    clock, proved the continuity of the candles and found as many as the warm-up needs;
    the generation has not changed since, and no gap, backpressure, loss of the clock,
    failure, suspension or reconnect was reported for the series after it. *)
Theorem dispatch_needs_current_recovery cs s snapshot g :
  gate_snapshot s (run_calls cs ∅) = (Ok snapshot, g) -> hs_dispatch_allowed snapshot = true ->
  exists before durable last_close last_source_event after,
    cs = before ++ G_complete s (hs_reconnect_generation snapshot) true true durable last_close last_source_event :: after
    /\ hs_warmup_required snapshot <= durable
    /\ ss_generation <$> run_calls before ∅ !! s = Some (hs_reconnect_generation snapshot)
    /\ Forall (fun c => ~ closes s c) after.
Proof.
  unfold gate_snapshot. cbv [mbind py_bind mret py_ret]. destruct (run_calls cs ∅ !! s) as [state|] eqn:E.
  - rewrite (require_series_run _ _ _ E). intros [= <- _]. cbn. intros Hh%bool_decide_eq_true. by apply healthy_history.
  - by rewrite require_series_None.
Qed.

(** The change of the health is a section of its own, which does not look at the generation
    again: when a reconnect of another thread comes between the two sections of the
    completion of a recovery, the series is open under the generation of the new connection,
    of which no recovery was completed. *)
Theorem reconnect_inside_a_completion s d lc le g state :
  g !! s = Some state -> ss_required state <= d ->
  exists g1 g2 g3 state',
    note_recovery s (ss_generation state) true true d lc le g = (Ok (Some (HEALTHY, MD_HEALTHY)), g1) /\
    run_call (G_reconnect s) g1 = (Ok tt, g2) /\
    transition s HEALTHY MD_HEALTHY None None None g2 = (Ok tt, g3) /\
    g3 !! s = Some state' /\ hs_dispatch_allowed (snapshot_of s state') = true /\
    ss_generation state' = Z.succ (ss_generation state).
Proof.
  intros H Hd. unfold note_recovery. rewrite py_bind_run, (require_series_run _ _ _ H), Z.eqb_refl. cbn [negb].
  unfold recovery_target. cbn [negb]. rewrite (proj2 (Z.ltb_ge _ _) Hd), py_bind_run, (update_series_run _ _ _ _ H).
  do 4 eexists. split; [done|]. cbn [run_call]. unfold ignore, start_reconnect, next_generation, transition. gate_run.
  split; [done|]. gate_run. split; [done|]. rewrite lookup_insert_eq. done.
Qed.

(** ** Plans *)

Section plans.
Variables (p : BackfillPlanner) (s : MarketSeriesId).
Hypothesis planner_ok : 1 <= pl_backfill_overlap_candles p <= pl_max_candles_per_batch p.
Hypothesis timeframe_ok : 0 < si_timeframe_seconds s.
Let tf := si_timeframe_seconds s * 1000.

Lemma plan_after_inv generation trusted last durable required force b :
  plan_after p s generation trusted last durable required force = Ok (Some b) ->
  (last < trusted ->
     let advance := Z.min (Z.max ((trusted - last) / tf) (Z.max 0 (required - durable))) (pl_max_candles_per_batch p - pl_backfill_overlap_candles p) in
     0 < advance /\ bp_count b = advance + pl_backfill_overlap_candles p /\ bp_end_close_epoch_ms b = Z.min trusted (last + advance * tf))
  /\ (tf | trusted - last) /\ 1 <= bp_count b <= pl_max_candles_per_batch p
  /\ bp_start_close_epoch_ms b = bp_end_close_epoch_ms b - (bp_count b - 1) * tf
  /\ bp_end_close_epoch_ms b <= Z.max trusted last.
Proof.
  unfold plan_after. fold tf. intros H. apply res_bind_Ok in H as (_ & Hm%guard_res_Ok & H). apply Z.eqb_eq in Hm.
  assert (0 < tf) as Htf by (unfold tf; lia). clearbody tf. apply Z.mod_divide in Hm as Hd; [|lia].
  assert (last < trusted -> 1 <= (trusted - last) / tf) as Hone by (intros; apply Z.div_le_lower_bound; [done|destruct Hd as [k Hk]; assert (0 < k) by nia; nia]).
  destruct ((_ =? 0) && _) eqn:E0.
  - apply andb_true_iff in E0 as [E1%Z.eqb_eq E2%Z.eqb_eq]. destruct force; [|done]. cbn [negb] in H.
    destruct (Z.leb_spec (Z.min (pl_backfill_overlap_candles p) durable) 0); [done|]. injection H as <-.
    cbn [bp_count bp_end_close_epoch_ms bp_start_close_epoch_ms]. split; [intros Hl; specialize (Hone Hl); lia|]. split; [done|]. lia.
  - apply res_bind_Ok in H as (_ & Ha%guard_res_Ok & H). apply Z.ltb_lt in Ha. injection H as <-. cbn [bp_count bp_end_close_epoch_ms bp_start_close_epoch_ms].
    split; [|split; [done|lia]]. intros Hl. specialize (Hone Hl). rewrite (Z.max_r 0 ((trusted - last) / tf)) in * by lia.
    cbv zeta. split; [done|]. split; [done|]. done.
Qed.

(** A plan asks for a whole number of candles, at least one and at most a batch,
    that ends no later than the trusted horizon unless the store is already past it.  When
    the store is behind the horizon, the request starts within what is stored, so that the
    answer overlaps it, and ends after the last stored candle. *)
Theorem plan_joins_on generation horizon last durable required force b :
  plan p s generation horizon (Some last) durable required force = Ok (Some b) ->
  1 <= bp_count b <= pl_max_candles_per_batch p
  /\ bp_start_close_epoch_ms b + (bp_count b - 1) * (si_timeframe_seconds s * 1000) = bp_end_close_epoch_ms b
  /\ bp_end_close_epoch_ms b <= Z.max (th_close_epoch_ms horizon) last
  /\ (last < th_close_epoch_ms horizon -> bp_start_close_epoch_ms b <= last < bp_end_close_epoch_ms b).
Proof.
  unfold plan. intros H. apply res_bind_Ok in H as (_ & _ & H). apply plan_after_inv in H as (Hadv & [k Hk] & Hc & Hs & He).
  fold tf. assert (0 < tf) as Htf by (unfold tf; lia). split; [done|]. split; [lia|]. split; [done|]. intros Hl. specialize (Hadv Hl). cbv zeta in Hadv.
  set (adv := Z.min _ _) in Hadv. destruct Hadv as (Ha & Hn & Hend). nia.
Qed.
End plans.

Definition blocked (state : SeriesState) : bool := bool_decide (ss_health state <> HEALTHY).

Lemma rowcount_zero {A} (p : A -> bool) l : rowcount p l = 0 <-> forall x, x ∈ l -> p x = false.
Proof.
  unfold rowcount. split.
  - intros Hn x Hx. destruct (p x) eqn:E; [|done]. assert (x ∈ select p l) as Hs by (by apply elem_of_select).
    destruct (select p l); [inversion Hs|simpl in Hn; lia].
  - intros Hf. destruct (select p l) as [|x rest] eqn:E; [done|].
    assert (x ∈ select p l) as [Hx Hp]%elem_of_select by (rewrite E; left). by rewrite (Hf x Hx) in Hp.
Qed.

(** The worst state of health of some series. *)
Lemma worst_health states : states <> [] ->
  exists k, fetchone (fun candidate => existsb (fun state => bool_decide (ss_health state = candidate)) states) BROKER_PRIORITY = Some k
    /\ (k = HEALTHY <-> rowcount blocked states = 0).
Proof.
  intros Hne. destruct (fetchone _ _) as [k|] eqn:E.
  - exists k. split; [done|]. rewrite rowcount_zero. unfold blocked. split.
    + intros -> s Hs. apply bool_decide_eq_false. intros Hn. apply list_elem_of_In in Hs.
      assert (existsb (fun state => bool_decide (ss_health state = ss_health s)) states = true) as Hx
        by (apply existsb_exists; exists s; split; [done|by apply bool_decide_eq_true]).
      unfold fetchone, BROKER_PRIORITY in E. cbn [List.find] in E. destruct (ss_health s); try done; rewrite Hx in E; repeat case_match; done.
    + intros Hall. apply fetchone_Some in E as [_ (s & Hs%list_elem_of_In & Hk%bool_decide_eq_true)%existsb_exists].
      specialize (Hall s Hs). apply bool_decide_eq_false in Hall. destruct (decide (ss_health s = HEALTHY)); [congruence|tauto].
  - exfalso. destruct states as [|s states]; [done|]. assert (ss_health s ∈ BROKER_PRIORITY) as Hin by (unfold BROKER_PRIORITY; rewrite list_elem_of_In; destruct (ss_health s); simpl; tauto).
    apply (fetchone_None _ _ _ E) in Hin. simpl in Hin. by rewrite bool_decide_true in Hin.
Qed.

(** A broker always has a state of health, which is HEALTHY exactly if it has series and
    none of them is blocked. *)
Lemma broker_snapshot_total broker g :
  exists h, broker_snapshot broker g = Some h
    /\ (bh_health h = HEALTHY <-> bh_blocked_series h = 0 /\ 0 < bh_active_series h).
Proof.
  unfold broker_snapshot. destruct (snd <$> _) as [|st states]; [eexists; split; [done|simpl; split; [done|lia]]|].
  destruct (worst_health (st :: states)) as (k & -> & Hk); [done|]. eexists. split; [done|]. cbn [bh_health bh_blocked_series bh_active_series].
  rewrite Hk. unfold blocked. split; [split; [done|cbn [length]; lia]|tauto].
Qed.
