(* ===== verification/DerivPump.v ===== *)
(** * The history of Deriv candles

    [packages/brokers/deriv/models.py], [candle_adapter.py] and [candle_pump.py]: a batch of
    history is asked for, each candle is turned into a payload, the payload into a closed
    candle, and the candle is handed to the ingress.  The source of the history is an
    argument: what it answers to a request, or that it raises. *)

From S2P Require Import Prelude Datetime Dec DecVal PyFloat Json Domain Protocol DerivJson DerivTransport IqValues Market Candles.
From Stdlib Require Import Ascii.

(** ** The event of a candle *)

Record DerivCandleEvent : Type := mk_DerivCandleEvent {
  de_symbol : string; de_granularity_seconds : Z; de_epoch_seconds : Z; de_open_text : string; de_high_text : string;
  de_low_text : string; de_close_text : string; de_is_closed : bool; de_source_event_id : string; de_received_at_ms : Z
}.

(** [text.partition(".")]: what is before the first point, whether there is one, and what
    is after it. *)
Fixpoint partition_point (s : string) : string * bool * string :=
  match s with
  | "" => ("", false, "")
  | String c s' =>
      if Ascii.eqb c "."%char then ("", true, s')
      else let '(whole, sep, fraction) := partition_point s' in (String c whole, sep, fraction)
  end.

Definition all_digits (s : string) : bool := negb (String.eqb s "") && str_forall is_digit s.

(** [^[0-9]+(?:\.[0-9]+)?$] *)
Definition decimal_pattern (s : string) : bool :=
  let '(whole, sep, fraction) := partition_point s in
  all_digits whole && (if sep then all_digits fraction else true).

(** [set(value) <= {"0", "."}] *)
Definition zero_text (s : string) : bool := str_forall (fun c => Ascii.eqb c "0"%char || Ascii.eqb c "."%char) s.

Definition price_texts (e : DerivCandleEvent) : list string := [de_open_text e; de_high_text e; de_low_text e; de_close_text e].

Definition DerivCandleEvent_post_init (e : DerivCandleEvent) : res DerivCandleEvent :=
  _ ← guard_res (nonblank (de_symbol e) && nonblank (de_source_event_id e)) (ValueError "Deriv candle identity is required");
  _ ← guard_res ((0 <? de_granularity_seconds e) && (0 <=? de_epoch_seconds e) && (0 <=? de_received_at_ms e))
        (ValueError "Deriv candle timestamps are invalid");
  _ ← guard_res (forallb (fun t => decimal_pattern t && negb (zero_text t)) (price_texts e))
        (ValueError "Deriv candle price must be a positive fixed decimal string");
  Ok e.

Definition event_fields : list string :=
  ["symbol"; "granularity"; "epoch"; "open"; "high"; "low"; "close"; "is_closed"; "source_event_id"; "received_at_ms"].

Definition event_str (payload : obj) (name : string) : res string :=
  match get payload name with VStr s => Ok s | _ => Err (ValueError "Deriv candle string field is invalid") end.
Definition event_int (payload : obj) (name : string) : res Z :=
  match get payload name with VInt n => Ok n | _ => Err (ValueError "Deriv candle integer field is invalid") end.

Definition DerivCandleEvent_from_external_payload (raw : json) : res DerivCandleEvent :=
  payload ← match raw with VDict d => Ok d | _ => Err (ValueError "Deriv candle payload must be an object") end;
  _ ← guard_res (keys_are event_fields payload) (ValueError "Deriv candle payload schema is invalid");
  symbol ← event_str payload "symbol";
  open_text ← event_str payload "open";
  high_text ← event_str payload "high";
  low_text ← event_str payload "low";
  close_text ← event_str payload "close";
  source_event_id ← event_str payload "source_event_id";
  granularity ← event_int payload "granularity";
  epoch ← event_int payload "epoch";
  received_at_ms ← event_int payload "received_at_ms";
  is_closed ← match get payload "is_closed" with
              | VBool b => Ok b | _ => Err (ValueError "Deriv candle closure flag is invalid") end;
  DerivCandleEvent_post_init
    (mk_DerivCandleEvent symbol granularity epoch open_text high_text low_text close_text is_closed source_event_id received_at_ms).

(** ** The adapter *)

Definition decimal_places (text : string) : Z := let '(_, _, fraction) := partition_point text in Z.of_nat (String.length fraction).

(** [fraction.ljust(n, "0")] *)
Definition ljust_zeros (n : Z) (s : string) : string := s +:+ zeros (Z.to_nat (n - Z.of_nat (String.length s))).

(** The units of a price text at [places] decimal places. *)
Definition price_units (places : Z) (text : string) : res Z :=
  let '(whole, sep, fraction) := partition_point text in
  let padded := if sep then ljust_zeros places fraction else zeros (Z.to_nat places) in
  w ← py_int whole;
  f ← (if String.eqb padded "" then Ok 0 else py_int padded);
  Ok (w * 10 ^ places + f).

Fixpoint res_map {A B} (f : A -> res B) (l : list A) : res (list B) :=
  match l with
  | [] => Ok []
  | x :: l => y ← f x; ys ← res_map f l; Ok (y :: ys)
  end.

(** [_scaled_prices] of a nonempty tuple *)
Definition scaled_prices (texts : list string) (max_decimal_places : Z) : res (Z * list Z) :=
  let places := foldr Z.max 0 (decimal_places <$> texts) in
  _ ← guard_res (places <=? max_decimal_places) (ValueError "Deriv candle price precision exceeds adapter policy");
  units ← res_map (price_units places) texts;
  Ok (10 ^ places, units).

Record DerivCandleAdapter : Type := mk_DerivCandleAdapter { da_allowed_symbols : list string; da_max_decimal_places : Z }.

Definition new_DerivCandleAdapter (allowed_symbols : list string) (max_decimal_places : Z) : res DerivCandleAdapter :=
  _ ← guard_res (negb (bool_decide (allowed_symbols = [])) && forallb nonblank allowed_symbols)
        (ValueError "Deriv adapter requires an explicit symbol allowlist");
  _ ← guard_res (0 <? max_decimal_places) (ValueError "max_decimal_places must be positive");
  Ok (mk_DerivCandleAdapter allowed_symbols max_decimal_places).

Definition convert (a : DerivCandleAdapter) (raw : json) : res (option ClosedCandle) :=
  event ← DerivCandleEvent_from_external_payload raw;
  _ ← guard_res (bool_decide (de_symbol event ∈ da_allowed_symbols a)) (ValueError "DERIV_CANDLE_SYMBOL_NOT_ALLOWED");
  if negb (de_is_closed event) then Ok None
  else
    let open_time_ms := de_epoch_seconds event * 1000 in
    let close_time_ms := open_time_ms + de_granularity_seconds event * 1000 in
    _ ← guard_res (close_time_ms <=? de_received_at_ms event) (ValueError "DERIV_CANDLE_CLOSE_NOT_CONFIRMED");
    scaled ← scaled_prices (price_texts event) (da_max_decimal_places a);
    match scaled with
    | (price_scale, [open_units; high_units; low_units; close_units]) =>
        c ← ClosedCandle_post_init
              (mk_ClosedCandle DERIV (de_symbol event) (de_granularity_seconds event) open_time_ms close_time_ms open_units
                 high_units low_units close_units price_scale "DERIV_CANDLES_READ_ONLY" (de_source_event_id event) close_time_ms
                 (de_received_at_ms event));
        Ok (Some c)
    | _ => Err (ValueError "not enough values to unpack")
    end.

(** ** The pump *)

Record DerivCandlePumpReport : Type := mk_DerivCandlePumpReport {
  pr_response_message_id : string; pr_correlation_id : string; pr_causation_id : string; pr_symbol : string;
  pr_timeframe_seconds : Z; pr_requested_count : Z; pr_received_count : Z; pr_partial_count : Z;
  pr_ingress_results : list CandleIngressResult
}.

Definition has_status (statuses : list CandleIngressStatus) (r : CandleIngressResult) : bool := bool_decide (ci_status r ∈ statuses).

Definition accepted_count (r : DerivCandlePumpReport) : Z := rowcount (has_status [CI_ACCEPTED]) (pr_ingress_results r).
Definition duplicate_count (r : DerivCandlePumpReport) : Z := rowcount (has_status [CI_DUPLICATE]) (pr_ingress_results r).
Definition has_quality_failure (r : DerivCandlePumpReport) : bool :=
  exists_row (has_status [CI_OUT_OF_ORDER; CI_INVALID]) (pr_ingress_results r).

(** [_epoch_ms] of an aware datetime *)
Definition epoch_ms (d : datetime) : Z := (instant d - epoch_instant) / 1000.

Definition pump_epoch_ms (d : datetime) : res Z :=
  match dt_offset d with None => Err (DerivCandlePumpError "DERIV_CANDLE_TIMESTAMP_INVALID") | Some _ => Ok (epoch_ms d) end.

(** A request for history. *)
Record history_request : Type := mk_history_request {
  hq_symbol : string; hq_style : string; hq_count : Z; hq_timeframe_seconds : Z; hq_end_epoch : option Z
}.

(** [format(price, "f")] of a positive price *)
Definition price_text (d : dec) : string := fixed (coef d) (dexp d).

Section pump.
Variable payload_hash : payload -> string.

Definition event_identity (c : MarketCandle) (epoch : Z) : payload :=
  list_to_map [("broker", JStr (value (mc_broker c))); ("close", JStr (price_text (mc_close c))); ("epoch", JInt epoch);
    ("granularity", JInt (mc_timeframe_seconds c)); ("high", JStr (price_text (mc_high c))); ("is_closed", JBool (mc_is_closed c));
    ("low", JStr (price_text (mc_low c))); ("open", JStr (price_text (mc_open c))); ("symbol", JStr (mc_broker_symbol c))].

(** [_adapter_payload] *)
Definition adapter_payload (c : MarketCandle) (expected_symbol : string) (expected_timeframe received_at_ms : Z)
    (response_message_id correlation_id causation_id : string) : res obj :=
  _ ← guard_res (bool_decide (mc_broker c = DERIV) && String.eqb (mc_broker_symbol c) expected_symbol
                 && (mc_timeframe_seconds c =? expected_timeframe)) (DerivCandlePumpError "DERIV_CANDLE_HISTORY_SCOPE_MISMATCH");
  open_time_ms ← pump_epoch_ms (mc_open_time c);
  close_time_ms ← pump_epoch_ms (mc_close_time c);
  _ ← guard_res ((open_time_ms mod 1000 =? 0) && (close_time_ms =? open_time_ms + expected_timeframe * 1000))
        (DerivCandlePumpError "DERIV_CANDLE_TIMESTAMP_INVALID");
  let epoch := open_time_ms / 1000 in
  let source_event_id := response_message_id +:+ "|" +:+ correlation_id +:+ "|" +:+ causation_id +:+ "|"
                         +:+ payload_hash (event_identity c epoch) in
  Ok [("symbol", VStr (mc_broker_symbol c)); ("granularity", VInt (mc_timeframe_seconds c)); ("epoch", VInt epoch);
      ("open", VStr (price_text (mc_open c))); ("high", VStr (price_text (mc_high c))); ("low", VStr (price_text (mc_low c)));
      ("close", VStr (price_text (mc_close c))); ("is_closed", VBool (mc_is_closed c)); ("source_event_id", VStr source_event_id);
      ("received_at_ms", VInt received_at_ms)].

Section over_store.
Context {S : Type} `{CandleStore S}.
Variable adapter : DerivCandleAdapter.

(** [DerivCandleIngressBridge.ingest] *)
Definition bridge_ingest (raw : json) : py S (option CandleIngressResult) :=
  candle ← py_lift (convert adapter raw);
  match candle with
  | None => mret None
  | Some c => r ← ingest_candle c; mret (Some r)
  end.

(** The handler of the loop: [except (TypeError, ValueError)]. *)
Definition invalid_candle {A} (e : exn) : option (py S A) :=
  match e with
  | TypeError _ | ValueError _ => Some (py_raise (DerivCandlePumpError "DERIV_CANDLE_INVALID"))
  | _ => None
  end.

(** One candle of the batch: its result, none when it is still open. *)
Definition pump_candle (q : history_request) (b : MarketHistoryBatch) (received_at_ms : Z) (c : MarketCandle)
    : py S (option CandleIngressResult) :=
  payload ← py_lift (adapter_payload c (hq_symbol q) (hq_timeframe_seconds q) received_at_ms (hb_response_message_id b)
                       (hb_correlation_id b) (hb_causation_id b));
  py_try (bridge_ingest (VDict payload)) invalid_candle.

(** [backfill]; [ask] is the source and [now] the reading of the clock. *)
Definition backfill (max_batch_size : Z) (ask : history_request -> py S MarketHistoryBatch) (now : datetime)
    (symbol : string) (timeframe_seconds count : Z) (end_epoch : option Z) : py S DerivCandlePumpReport :=
  _ ← py_guard (nonblank symbol && (0 <? timeframe_seconds)) (ValueError "Deriv candle stream identity is required");
  _ ← py_guard ((0 <? count) && (count <=? max_batch_size)) (DerivCandlePumpError "DERIV_CANDLE_BACKPRESSURE");
  _ ← py_guard (match end_epoch with Some n => 0 <? n | None => true end)
        (ValueError "Deriv candle history end epoch must be positive");
  let q := mk_history_request symbol "candles" count timeframe_seconds end_epoch in
  batch ← ask q;
  _ ← py_guard (match hb_ticks batch with [] => true | _ => false end) (DerivCandlePumpError "DERIV_CANDLE_HISTORY_MIXED_PAYLOAD");
  let received := Z.of_nat (length (hb_candles batch)) in
  _ ← py_guard ((received <=? count) && (received <=? max_batch_size)) (DerivCandlePumpError "DERIV_CANDLE_BATCH_OVERFLOW");
  received_at_ms ← py_lift (pump_epoch_ms now);
  results ← py_map (pump_candle q batch received_at_ms) (hb_candles batch);
  mret (mk_DerivCandlePumpReport (hb_response_message_id batch) (hb_correlation_id batch) (hb_causation_id batch) symbol
          timeframe_seconds count received (rowcount (fun r => match r with None => true | Some _ => false end) results) (omap id results)).
End over_store.
End pump.

(** What every append and every answer of the source keeps, a backfill keeps. *)
Section pump_steps.
Context {S : Type} `{CandleStore S} (R : relation S) `{!PreOrder R}.
Hypothesis append_steps : forall c, steps R (store_append c).

Lemma ingest_candle_steps c : steps R (ingest_candle c).
Proof.
  unfold ingest_candle. apply steps_try; [done| |].
  - apply steps_bind; [done|apply append_steps|intros ? ? ? ?; by apply steps_ret].
  - intros e k He. destruct (bool_decide _); [|done]. injection He as <-. by apply steps_ret.
Qed.

Lemma pump_candle_steps payload_hash adapter q b received c : steps R (pump_candle payload_hash adapter q b received c).
Proof.
  unfold pump_candle. apply steps_bind; [done|by apply steps_lift|intros payload _ _ _]. apply steps_try; [done| |].
  - unfold bridge_ingest. apply steps_bind; [done|by apply steps_lift|intros [c'|] _ _ _; [|by apply steps_ret]].
    apply steps_bind; [done|apply ingest_candle_steps|intros ? ? ? ?; by apply steps_ret].
  - intros e k He. destruct e; try done; injection He as <-; by apply steps_raise.
Qed.

Lemma backfill_steps payload_hash adapter max ask now symbol timeframe n end_epoch :
  (forall q, steps R (ask q)) -> steps R (backfill payload_hash adapter max ask now symbol timeframe n end_epoch).
Proof.
  intros Hask. unfold backfill.
  repeat (apply steps_bind; [done|first [by apply steps_guard|apply Hask|by apply steps_lift|by (apply steps_map; [done|apply pump_candle_steps])]|
          intros ? _ _ _]).
  by apply steps_ret.
Qed.
End pump_steps.
