(* ===== verification/Backfill.v ===== *)
(** * Recovery of market series

    [packages/market_pipeline/dispatcher.py] and [coordinator.py]: accepted candles are
    handed to a pipeline that only decides, and a series is recovered from the broker's
    history until it reaches the trusted horizon.  The decision pipeline is a class; the
    source of the history, the trusted horizon and the dispatch cursor are arguments.  While
    a request for history is under way, other threads may call the gate. *)

From S2P Require Import Prelude Datetime Dec PyFloat Json Domain DerivJson Market Candles MarketHealth DerivPump.

(** ** State *)

(** The counters of [MarketPipelineMetrics] that the pipeline writes. *)
Record MarketPipelineMetrics : Type := mk_MarketPipelineMetrics {
  mm_backfill_requests : Z; mm_backfill_retries : Z; mm_backfill_failures : Z; mm_backfill_candles_received : Z;
  mm_backfill_duplicates : Z; mm_gap_count : Z; mm_gap_recovery_count : Z; mm_backpressure_count : Z; mm_reconnect_count : Z;
  mm_warmup_candles_loaded : Z; mm_shadow_candles_dispatched : Z; mm_shadow_decisions : Z; mm_partial_candles_received : Z;
  mm_live_ticks_received : Z; mm_live_ticks_duplicate : Z; mm_live_ticks_out_of_order : Z; mm_live_candles_closed : Z;
  mm_live_candles_duplicate : Z; mm_live_gap_count : Z; mm_live_poll_timeouts : Z; mm_live_dispatch_lag_ms_total : Z;
  mm_live_dispatch_lag_ms_max : Z; mm_live_replay_comparisons : Z; mm_live_replay_divergences : Z; mm_subscription_restores : Z
}.

#[export] Instance MarketPipelineMetrics_eta : Eta MarketPipelineMetrics := fun m =>
  mk_MarketPipelineMetrics (mm_backfill_requests m) (mm_backfill_retries m) (mm_backfill_failures m)
    (mm_backfill_candles_received m) (mm_backfill_duplicates m) (mm_gap_count m) (mm_gap_recovery_count m)
    (mm_backpressure_count m) (mm_reconnect_count m) (mm_warmup_candles_loaded m) (mm_shadow_candles_dispatched m)
    (mm_shadow_decisions m) (mm_partial_candles_received m) (mm_live_ticks_received m) (mm_live_ticks_duplicate m)
    (mm_live_ticks_out_of_order m) (mm_live_candles_closed m) (mm_live_candles_duplicate m) (mm_live_gap_count m)
    (mm_live_poll_timeouts m) (mm_live_dispatch_lag_ms_total m) (mm_live_dispatch_lag_ms_max m)
    (mm_live_replay_comparisons m) (mm_live_replay_divergences m) (mm_subscription_restores m).

Definition no_metrics : MarketPipelineMetrics := mk_MarketPipelineMetrics 0 0 0 0 0 0 0 0 0 0 0 0 0 0 0 0 0 0 0 0 0 0 0 0 0.

(** What the components of a pipeline share: the candle table, the gate, the counters, the
    recovery configurations and the state of the decision pipeline. *)
Record pipeline (P : Type) : Type := mk_pipeline {
  pp_rows : list candle_row; pp_gate : MarketHealthGate; pp_metrics : MarketPipelineMetrics;
  pp_configs : gmap MarketSeriesId Z; pp_decisions : P
}.
#[global] Arguments mk_pipeline {P}.
#[global] Arguments pp_rows {P}.
#[global] Arguments pp_gate {P}.
#[global] Arguments pp_metrics {P}.
#[global] Arguments pp_configs {P}.
#[global] Arguments pp_decisions {P}.

#[export] Instance pipeline_eta P : Eta (pipeline P) := fun s =>
  mk_pipeline (pp_rows s) (pp_gate s) (pp_metrics s) (pp_configs s) (pp_decisions s).

(** [DecisionOnlyPipeline]: [process_candle(candle, dispatch=...)] gives the number of
    decisions. *)
Class DecisionOnlyPipeline (P : Type) := process_candle : ClosedCandle -> bool -> py P Z.

Inductive ExecutionMode : Type := DECISION_ONLY | SIMULATED_EXECUTION | BROKER_EXECUTION.

Record ExecutionCapabilityGate : Type := mk_ExecutionCapabilityGate { cg_can_submit_orders : bool; cg_mode : ExecutionMode }.

Definition default_capability : ExecutionCapabilityGate := mk_ExecutionCapabilityGate false DECISION_ONLY.

(** [ExecutionCapabilityGate.ensure] *)
Definition ensure_capability (g : ExecutionCapabilityGate) (dispatch : bool) : res unit :=
  guard_res (negb (dispatch || negb (match cg_mode g with DECISION_ONLY => true | _ => false end) || cg_can_submit_orders g))
    (ExecutionCapabilityError "CAPABILITY_DENIED").

Record BackfillJobResult : Type := mk_BackfillJobResult {
  jr_generation : Z; jr_success : bool; jr_last_durable_close_epoch : option Z; jr_recovery_required : bool;
  jr_reason : MarketHealthReason
}.

(** What a source answers to a request: the calls on the gate that other threads make
    meanwhile, and the batch or an exception. *)
Record reply : Type := mk_reply { rp_meanwhile : list gate_call; rp_batch : res MarketHistoryBatch }.

Section pipeline.
Context {P : Type} `{DecisionOnlyPipeline P}.
Variable payload_hash : payload -> string.
Abbreviation pipe := (pipeline P).

Definition on_gate {A} (m : py MarketHealthGate A) : py pipe A := py_zoom pp_gate (fun g s => s <| pp_gate := g |>) m.
Definition on_rows {A} (m : st (list candle_row) A) : py pipe A := py_zoom pp_rows (fun r s => s <| pp_rows := r |>) (in_transaction m).
Definition on_decisions {A} (m : py P A) : py pipe A := py_zoom pp_decisions (fun d s => s <| pp_decisions := d |>) m.
Definition count (f : MarketPipelineMetrics -> MarketPipelineMetrics) : py pipe unit := py_modify (fun s => s <| pp_metrics ::= f |>).

(** The candle repository as the store of the ingress. *)
#[local] Instance pipeline_store : CandleStore pipe := fun c => on_rows (repo_append payload_hash c).

(** [AcceptedCandleDispatcher.dispatch] *)
Definition dispatch (capability : ExecutionCapabilityGate) (series : MarketSeriesId) (c : ClosedCandle) : py pipe Z :=
  snapshot ← on_gate (gate_snapshot series);
  _ ← py_guard (hs_dispatch_allowed snapshot) (RuntimeError ("MARKET_HEALTH_BLOCKED:" +:+ market_reason_value (hs_reason snapshot)));
  _ ← py_guard (bool_decide (cc_broker c = si_broker series) && String.eqb (cc_symbol c) (si_broker_symbol series)
                && (cc_timeframe_seconds c =? si_timeframe_seconds series))
        (ValueError "accepted candle does not match dispatcher series");
  rows ← py_gets pp_rows;
  persisted ← py_lift (repo_get payload_hash (candle_id payload_hash c) rows);
  _ ← py_guard (bool_decide (persisted = Some c)) (RuntimeError "CANDLE_NOT_DURABLE");
  _ ← py_lift (ensure_capability capability false);
  decisions ← on_decisions (process_candle c false);
  _ ← count (fun m => m <| mm_shadow_candles_dispatched ::= Z.succ |> <| mm_shadow_decisions ::= Z.add decisions |>);
  mret decisions.

(** ** The coordinator *)

Record coordinator : Type := mk_coordinator {
  co_planner : BackfillPlanner; co_adapter : DerivCandleAdapter; co_max_batch_size : Z;
  co_capability : option ExecutionCapabilityGate; co_max_pages : Z
}.

Definition new_coordinator (p : BackfillPlanner) (a : DerivCandleAdapter) (max_batch_size : Z)
    (dispatcher : option ExecutionCapabilityGate) (max_pages_per_recovery : Z) : res coordinator :=
  _ ← guard_res (0 <? max_pages_per_recovery) (ValueError "backfill recovery page limit must be positive");
  Ok (mk_coordinator p a max_batch_size dispatcher max_pages_per_recovery).

(** [register] *)
Definition register_recovery (series : MarketSeriesId) (required_closed_candles : Z) : py pipe unit :=
  _ ← py_guard (0 <? required_closed_candles) (ValueError "required closed candle count must be positive");
  configs ← py_gets pp_configs;
  _ ← py_guard (match configs !! series with Some n => n =? required_closed_candles | None => true end)
        (ValueError "market recovery series configuration changed");
  _ ← py_modify (fun s => s <| pp_configs ::= <[ series := required_closed_candles ]> |>);
  on_gate (gate_register series required_closed_candles).

(** [_candles] and [_last_close] *)
Definition series_candles (series : MarketSeriesId) : py pipe (list ClosedCandle) :=
  rows ← py_gets pp_rows; py_lift (repo_range payload_hash (candle_key series) None None rows).
Definition last_close_of (l : list ClosedCandle) : option Z := cc_close_time_ms <$> last l.
Definition series_last_close (series : MarketSeriesId) : py pipe (option Z) := l ← series_candles series; mret (last_close_of l).

(** [_continuity_valid] *)
Fixpoint consecutive (timeframe_ms : Z) (l : list ClosedCandle) : bool :=
  match l with
  | a :: (b :: _) as l' =>
      (cc_open_time_ms b =? cc_close_time_ms a) && (cc_close_time_ms b - cc_close_time_ms a =? timeframe_ms)
      && consecutive timeframe_ms l'
  | _ => true
  end.

Definition continuity_valid (candles : list ClosedCandle) (required horizon_ms : Z) : bool :=
  if (Z.of_nat (length candles) <? required) || negb (bool_decide (last_close_of candles = Some horizon_ms)) then false
  else
    match last_n (Z.to_nat required) candles with
    | [] => true
    | (c :: _) as relevant => consecutive (cc_timeframe_seconds c * 1000) relevant
    end.

(** [_dispatch_durable]; [cursor] is what the dispatch cursor of the series gives. *)
Definition dispatch_durable (capability : option ExecutionCapabilityGate) (cursor : option Z) (series : MarketSeriesId)
    (candles : list ClosedCandle) : py pipe unit :=
  match capability with
  | None => mret tt
  | Some g =>
      py_for (fun c => if match cursor with None => true | Some n => n <? cc_close_time_ms c end
                       then _ ← dispatch g series c; mret tt else mret tt) candles
  end.

(** How the loop over the pages ends: the plan is complete, the pages are used up, or the
    method returns. *)
Inductive paging : Type := Complete | Exhausted | Returned (r : BackfillJobResult).

Section recover.
Variable co : coordinator.
Variables (series : MarketSeriesId) (generation required : Z) (horizon : TrustedClosedHorizon).
Variable source : nat -> history_request -> reply.
Variable now : nat -> datetime.

(** The request for page [i]. *)
Definition ask (i : nat) (q : history_request) : py pipe MarketHistoryBatch := fun s =>
  let r := source i q in (rp_batch r, s <| pp_gate ::= run_calls (rp_meanwhile r) |>).

Definition backpressure_codes : list exn :=
  [DerivCandlePumpError "DERIV_CANDLE_BACKPRESSURE"; DerivCandlePumpError "DERIV_CANDLE_BATCH_OVERFLOW"].

(** The handler of the request: backpressure is recorded, and every exception goes on. *)
Definition on_pump_error (e : exn) : option (py pipe DerivCandlePumpReport) :=
  if bool_decide (e ∈ backpressure_codes) then
    Some (_ ← count (fun m => m <| mm_backpressure_count ::= Z.succ |>);
          _ ← on_gate (mark_backpressure series);
          py_raise e)
  else None.

Definition fetch_page (i : nat) (p : BackfillPlan) : py pipe DerivCandlePumpReport :=
  py_try (_ ← count (fun m => m <| mm_backfill_requests ::= Z.succ |>);
          backfill payload_hash (co_adapter co) (co_max_batch_size co) (ask i) (now i) (si_broker_symbol series)
            (si_timeframe_seconds series) (bp_count p) (Some (end_epoch_seconds p)))
         on_pump_error.

(** What follows the answer to a request: none when the loop goes on. *)
Definition after_page (report : DerivCandlePumpReport) : py pipe (option BackfillJobResult) :=
  _ ← count (fun m => m <| mm_backfill_candles_received ::= Z.add (pr_received_count report) |>
                        <| mm_backfill_duplicates ::= Z.add (duplicate_count report) |>
                        <| mm_partial_candles_received ::= Z.add (pr_partial_count report) |>);
  snapshot ← on_gate (gate_snapshot series);
  if negb (hs_reconnect_generation snapshot =? generation) then
    last_close ← series_last_close series;
    mret (Some (mk_BackfillJobResult generation false last_close true MD_STALE_CONNECTION_RESPONSE))
  else if has_quality_failure report then
    _ ← count (fun m => m <| mm_gap_count ::= Z.succ |>);
    _ ← on_gate (mark_gap series);
    last_close ← series_last_close series;
    mret (Some (mk_BackfillJobResult generation false last_close true MD_GAP_DETECTED))
  else mret None.

(** The plan of the next page. *)
Definition next_plan (performed_request : bool) (candles : list ClosedCandle) : py pipe (option BackfillPlan) :=
  snapshot ← on_gate (gate_snapshot series);
  py_lift (plan (co_planner co) series generation horizon (last_close_of candles) (Z.of_nat (length candles)) required
             (negb performed_request && negb (bool_decide (hs_health snapshot = HEALTHY)))).

(** [for _page in range(self._max_pages)]; [fuel] pages are left, [i] is the next. *)
Fixpoint pages (fuel i : nat) (last_source_event : option string) : py pipe (paging * option string) :=
  match fuel with
  | O => mret (Exhausted, last_source_event)
  | S fuel =>
      candles ← series_candles series;
      p ← next_plan (negb (Nat.eqb i 0)) candles;
      match p with
      | None => mret (Complete, last_source_event)
      | Some p =>
          _ ← on_gate (mark_warming_up series (Z.of_nat (length candles)) (last_close_of candles) last_source_event);
          report ← fetch_page i p;
          result ← after_page report;
          match result with
          | Some r => mret (Returned r, last_source_event)
          | None => pages fuel (S i) (Some (pr_response_message_id report))
          end
      end
  end.

(** What follows the loop. *)
Definition finish_recovery (cursor : option Z) (previous : MarketSeriesHealth) (completed : bool) (last_source_event : option string)
    : py pipe BackfillJobResult :=
  candles ← series_candles series;
  let valid := completed && continuity_valid candles required (th_close_epoch_ms horizon) in
  healthy ← on_gate (complete_recovery series generation valid true (Z.of_nat (length candles)) (last_close_of candles) last_source_event);
  if negb healthy then mret (mk_BackfillJobResult generation false (last_close_of candles) true MD_CONTINUITY_UNPROVEN)
  else
    _ ← count (fun m =>
          let m := if bool_decide (previous = GAPPED) then m <| mm_gap_recovery_count ::= Z.succ |> else m in
          let m := if bool_decide (previous = RECONNECTING) then m <| mm_reconnect_count ::= Z.succ |> else m in
          m <| mm_warmup_candles_loaded ::= Z.max (Z.min (Z.of_nat (length candles)) required) |>);
    _ ← dispatch_durable (co_capability co) cursor series candles;
    mret (mk_BackfillJobResult generation true (last_close_of candles) false MD_INITIAL_WARMUP).
End recover.

(** [recover]; [horizon] is what the horizon provider gives. *)
Definition recover (co : coordinator) (source : nat -> history_request -> reply) (now : nat -> datetime)
    (horizon : option TrustedClosedHorizon) (cursor : option Z) (series : MarketSeriesId) (generation : Z) : py pipe BackfillJobResult :=
  configs ← py_gets pp_configs;
  required ← py_lift (match configs !! series with Some n => Ok n | None => Err KeyError end);
  snapshot ← on_gate (gate_snapshot series);
  match horizon with
  | None =>
      _ ← on_gate (mark_clock_untrusted series);
      last_close ← series_last_close series;
      mret (mk_BackfillJobResult generation false last_close true MD_CLOCK_UNTRUSTED)
  | Some horizon =>
      '(ended, last_source_event) ← pages co series generation required horizon source now (Z.to_nat (co_max_pages co)) 0 None;
      match ended with
      | Returned r => mret r
      | Complete => finish_recovery co series generation required horizon cursor (hs_health snapshot) true last_source_event
      | Exhausted => finish_recovery co series generation required horizon cursor (hs_health snapshot) false last_source_event
      end
  end.
End pipeline.
