(* ===== verification/BackfillProps.v ===== *)
(** * What a recovery promises

    A recovery that reports success leaves a gapless series that ends at the trusted
    horizon and a gate that is open for the connection it ran on; what it hands to the
    decision pipeline is stored, comes in order and never carries permission to trade; and
    it asks for no more pages than it may. *)

From S2P Require Import Prelude Datetime Dec PyFloat Json Domain DerivJson Market Candles CandleProps MarketHealth MarketHealthProps DerivPump Backfill.

Section pipeline.
Context {P : Type} `{DecisionOnlyPipeline P}.
Variable payload_hash : payload -> string.
Abbreviation pipe := (pipeline P).

(** ** Calls on a part *)

Lemma on_gate_run {A} (m : py MarketHealthGate A) (s : pipe) r s' :
  on_gate m s = (r, s') <-> exists g, m (pp_gate s) = (r, g) /\ s' = s <| pp_gate := g |>.
Proof. apply py_zoom_run. Qed.

Lemma on_decisions_run {A} (m : py P A) (s : pipe) r s' :
  on_decisions m s = (r, s') <-> exists d, m (pp_decisions s) = (r, d) /\ s' = s <| pp_decisions := d |>.
Proof. apply py_zoom_run. Qed.

Lemma series_candles_run series (s : pipe) l s' :
  series_candles payload_hash series s = (Ok l, s') <-> repo_range payload_hash (candle_key series) None None (pp_rows s) = Ok l /\ s' = s.
Proof.
  unfold series_candles. cbv [mbind py_bind py_gets py_lift]. split; [by intros [= -> ->]|by intros [-> ->]].
Qed.

(** Dispatching changes neither the table nor the gate. *)
Definition same_market (s s' : pipe) : Prop := pp_rows s' = pp_rows s /\ pp_gate s' = pp_gate s /\ pp_configs s' = pp_configs s.

#[export] Instance same_market_preorder : PreOrder same_market.
Proof. split; [by intros s|intros a b c (? & ? & ?) (? & ? & ?); unfold same_market; split_and!; congruence]. Qed.

Lemma snapshot_same_market series : steps same_market (on_gate (gate_snapshot series)).
Proof.
  intros s. unfold on_gate, py_zoom, gate_snapshot, require_series. cbv [mbind py_bind mret py_ret]. by destruct (_ !! _), s.
Qed.

Lemma count_same_market f : steps same_market (count f).
Proof. intros s. done. Qed.

Lemma decisions_same_market {A} (m : py P A) : steps same_market (on_decisions m).
Proof. intros s. unfold on_decisions, py_zoom. by destruct (m _). Qed.

#[local] Hint Resolve snapshot_same_market count_same_market decisions_same_market : steps.

Lemma dispatch_same_market g series c : steps same_market (dispatch payload_hash g series c).
Proof. unfold dispatch. steps_solve. Qed.

#[local] Hint Resolve dispatch_same_market : steps.

Lemma dispatch_durable_same_market g cursor series l : steps same_market (dispatch_durable payload_hash g cursor series l).
Proof.
  unfold dispatch_durable. destruct g as [g|]; [|auto with steps]. apply steps_for; [typeclasses eauto|]. intros c _. steps_solve.
Qed.

(** ** Success *)

Lemma consecutive_chained timeframe l : consecutive timeframe l = true -> chained l.
Proof.
  induction l as [|a l IH]; [done|]. destruct l as [|b l]; [done|]. intros [[E%Z.eqb_eq _]%andb_true_iff Hl]%andb_true_iff.
  split; [done|by apply IH].
Qed.

Lemma continuity_valid_spec candles required horizon_ms :
  continuity_valid candles required horizon_ms = true ->
  required <= Z.of_nat (length candles) /\ last_close_of candles = Some horizon_ms
  /\ chained (last_n (Z.to_nat required) candles).
Proof.
  unfold continuity_valid. destruct (_ || _) eqn:E; [done|]. apply orb_false_iff in E as [E1%Z.ltb_ge E2%negb_false_iff].
  apply bool_decide_eq_true in E2. intros Hc. split; [done|]. split; [done|].
  revert Hc. destruct (last_n _ _) as [|c l]; intros Hc; [done|]. by eapply consecutive_chained.
Qed.

(** A page that ends the recovery reports a failure. *)
Lemma after_page_failure series generation report (s s' : pipe) r :
  after_page payload_hash series generation report s = (Ok (Some r), s') -> jr_success r = false.
Proof.
  unfold after_page. intros Hrun. apply py_bind_Ok in Hrun as (? & ? & _ & Hrun). apply py_bind_Ok in Hrun as (snapshot & ? & _ & Hrun).
  destruct (negb _).
  - by apply py_bind_Ok in Hrun as (? & ? & _ & [[= ->] _]%py_ret_Ok).
  - destruct (has_quality_failure report); [|by apply py_ret_Ok in Hrun as [? _]].
    apply py_bind_Ok in Hrun as (? & ? & _ & Hrun). apply py_bind_Ok in Hrun as (? & ? & _ & Hrun).
    by apply py_bind_Ok in Hrun as (? & ? & _ & [[= ->] _]%py_ret_Ok).
Qed.

Lemma pages_failure co series generation required horizon source now fuel i le (s s' : pipe) r le' :
  pages payload_hash co series generation required horizon source now fuel i le s = (Ok (Returned r, le'), s') -> jr_success r = false.
Proof.
  revert i le s. induction fuel as [|fuel IH]; intros i le s Hrun; [by apply py_ret_Ok in Hrun as [? _]|]. cbn [pages] in Hrun.
  apply py_bind_Ok in Hrun as (candles & s1 & _ & Hrun). apply py_bind_Ok in Hrun as (p & s2 & _ & Hrun).
  destruct p as [p|]; [|by apply py_ret_Ok in Hrun as [? _]].
  apply py_bind_Ok in Hrun as (? & s3 & _ & Hrun). apply py_bind_Ok in Hrun as (report & s4 & _ & Hrun).
  apply py_bind_Ok in Hrun as (result & s5 & Ha & Hrun). destruct result as [r'|]; [|by apply IH in Hrun].
  apply py_ret_Ok in Hrun as [[= -> _] _]. by apply after_page_failure in Ha.
Qed.

(** What success means. *)
Definition recovered (series : MarketSeriesId) (generation required : Z) (horizon : TrustedClosedHorizon) (s : pipe) : Prop :=
  (exists candles, repo_range payload_hash (candle_key series) None None (pp_rows s) = Ok candles
     /\ required <= Z.of_nat (length candles) /\ last_close_of candles = Some (th_close_epoch_ms horizon)
     /\ chained (last_n (Z.to_nat required) candles))
  /\ exists state, pp_gate s !! series = Some state /\ ss_health state = HEALTHY /\ ss_generation state = generation
                   /\ ss_required state <= ss_durable state.

Lemma complete_recovery_true series generation valid clock d lc le g g' :
  complete_recovery series generation valid clock d lc le g = (Ok true, g') ->
  valid = true /\ exists state, g' !! series = Some state /\ ss_health state = HEALTHY /\ ss_generation state = generation
    /\ ss_required state <= ss_durable state.
Proof.
  destruct (g !! series) as [state|] eqn:E.
  - rewrite (complete_recovery_run _ _ _ _ _ _ _ _ _ E). intros [= Ht <-].
    apply andb_true_iff in Ht as [Hg%Z.eqb_eq Ht%bool_decide_eq_true].
    pose proof (recovery_target_healthy _ _ _ _ Ht) as (-> & -> & Hd). split; [done|]. rewrite lookup_insert_eq. eexists. split; [done|].
    cbn [call_effect]. rewrite (proj2 (Z.eqb_eq _ _) Hg). cbn [negb]. destruct (recovery_target _ _ _ _) as [target reason]. cbn [fst] in Ht.
    subst target. rewrite bool_decide_true by done. done.
  - unfold complete_recovery, note_recovery. cbv [mbind py_bind]. by rewrite require_series_None.
Qed.

Lemma finish_recovery_success co series generation required horizon cursor previous completed le (s s' : pipe) r :
  finish_recovery payload_hash co series generation required horizon cursor previous completed le s = (Ok r, s') -> jr_success r = true ->
  completed = true /\ pp_rows s' = pp_rows s /\ recovered series generation required horizon s'.
Proof.
  unfold finish_recovery. intros Hrun Hr. apply py_bind_Ok in Hrun as (candles & s1 & Hc & Hrun). apply series_candles_run in Hc as [Hc ->].
  apply py_bind_Ok in Hrun as (healthy & s2 & Hg & Hrun). apply on_gate_run in Hg as (g & Hg & ->).
  destruct healthy; cbn [negb] in Hrun; [|apply py_ret_Ok in Hrun as [-> _]; done].
  apply complete_recovery_true in Hg as [[Hcomp Hv]%andb_true_iff (state & Hs & Hstate)].
  apply py_bind_Ok in Hrun as (? & s3 & E3 & Hrun). apply py_bind_Ok in Hrun as (? & s4 & E4 & [-> ->]%py_ret_Ok).
  assert (same_market (s <| pp_gate := g |>) s4) as (H1 & H2 & _).
  { transitivity s3; [eapply (steps_run _ _ _ _ _ (count_same_market _) E3)|].
    eapply (steps_run _ _ _ _ _ (dispatch_durable_same_market _ _ _ _) E4). }
  split; [done|]. split; [done|]. split.
  - exists candles. rewrite H1. split; [done|]. by apply continuity_valid_spec.
  - exists state. by rewrite H2.
Qed.

(** ** Only dispatching reaches the decision pipeline *)

Definition quiet (s s' : pipe) : Prop := pp_decisions s' = pp_decisions s.

#[export] Instance quiet_preorder : PreOrder quiet.
Proof. split; [by intros s|intros a b c; unfold quiet; congruence]. Qed.

Lemma on_gate_quiet {A} (m : py MarketHealthGate A) : steps quiet (on_gate m).
Proof. intros s. unfold on_gate, py_zoom. by destruct (m _). Qed.
Lemma on_rows_quiet {A} (m : st (list candle_row) A) : steps quiet (on_rows m).
Proof. intros s. unfold on_rows, py_zoom. by destruct (in_transaction m _). Qed.
Lemma count_quiet f : steps quiet (count f).
Proof. intros s. done. Qed.
Lemma ask_quiet source i q : steps quiet (ask source i q).
Proof. intros s. done. Qed.

#[local] Hint Resolve on_gate_quiet on_rows_quiet count_quiet : steps.

Lemma series_candles_quiet series : steps quiet (series_candles payload_hash series).
Proof. unfold series_candles. steps_solve. Qed.
#[local] Hint Resolve series_candles_quiet : steps.
Lemma series_last_close_quiet series : steps quiet (series_last_close payload_hash series).
Proof. unfold series_last_close. steps_solve. Qed.
#[local] Hint Resolve series_last_close_quiet : steps.

Lemma fetch_page_quiet co series source now i p : steps quiet (fetch_page payload_hash co series source now i p).
Proof.
  unfold fetch_page. apply steps_try; [typeclasses eauto| |].
  - steps_solve. apply backfill_steps; [typeclasses eauto| |].
    + intros c. apply on_rows_quiet.
    + intros q. apply ask_quiet.
  - intros e k. unfold on_pump_error. destruct (bool_decide _); [|done]. intros [= <-]. steps_solve.
Qed.

Lemma after_page_quiet series generation report : steps quiet (after_page payload_hash series generation report).
Proof. unfold after_page. steps_solve. Qed.

Lemma next_plan_quiet co series generation required horizon performed l : steps quiet (next_plan co series generation required horizon performed l).
Proof. unfold next_plan. steps_solve. Qed.

#[local] Hint Resolve fetch_page_quiet after_page_quiet next_plan_quiet : steps.

Lemma pages_quiet co series generation required horizon source now fuel i le :
  steps quiet (pages payload_hash co series generation required horizon source now fuel i le).
Proof. revert i le. induction fuel as [|fuel IH]; intros i le; cbn [pages]; steps_solve. Qed.

(** Whether the loop over the pages leads to the dispatch of candles. *)
Lemma recover_cases co source now horizon cursor series generation (s s' : pipe) r :
  recover payload_hash co source now horizon cursor series generation s = (r, s') ->
  (quiet s s' /\ forall result, r = Ok result -> jr_success result = false)
  \/ exists h required previous completed le s1,
       horizon = Some h /\ quiet s s1 /\
       finish_recovery payload_hash co series generation required h cursor previous completed le s1 = (r, s').
Proof.
  unfold recover. intros Hrun.
  assert (forall A (m : py pipe A) a s1, steps quiet m -> m s = (a, s1) -> quiet s s1) as Hq by (intros; by eapply steps_run).
  rewrite py_bind_run in Hrun. cbn [py_gets] in Hrun. rewrite py_bind_run in Hrun. unfold py_gets, py_lift in Hrun.
  destruct (pp_configs s !! series) as [required|]; [|left; by injection Hrun as <- <-].
  rewrite py_bind_run in Hrun. destruct (on_gate (gate_snapshot series) s) as [[snapshot|e] s1] eqn:Eg;
    pose proof (Hq _ _ _ _ (on_gate_quiet _) Eg) as Q1; [|left; by injection Hrun as <- <-].
  destruct horizon as [h|].
  - rewrite py_bind_run in Hrun. destruct (pages _ _ _ _ _ _ _ _ _ _ _ s1) as [[[ended le]|e] s2] eqn:Ep;
      pose proof (transitivity Q1 (steps_run _ _ _ _ _ (pages_quiet _ _ _ _ _ _ _ _ _ _) Ep)) as Q2; [|left; by injection Hrun as <- <-].
    destruct ended; [right; by exists h, required, (hs_health snapshot), true, le, s2|
      right; by exists h, required, (hs_health snapshot), false, le, s2|left].
    injection Hrun as <- <-. split; [done|]. intros result [= <-]. by apply pages_failure in Ep.
  - left. split; [etransitivity; [exact Q1|]; eapply steps_run; [|exact Hrun]; steps_solve|]. intros result ->.
    apply py_bind_Ok in Hrun as (? & ? & _ & Hrun). by apply py_bind_Ok in Hrun as (? & ? & _ & [-> _]%py_ret_Ok).
Qed.

(** Whether the end of a recovery leads to the dispatch of candles. *)
Lemma finish_cases co series generation required horizon cursor previous completed le (s s' : pipe) r :
  finish_recovery payload_hash co series generation required horizon cursor previous completed le s = (r, s') ->
  (quiet s s' /\ forall result, r = Ok result -> jr_success result = false)
  \/ exists candles s1 r1, quiet s s1 /\ repo_range payload_hash (candle_key series) None None (pp_rows s1) = Ok candles
       /\ ss_generation <$> pp_gate s1 !! series = Some generation
       /\ dispatch_durable payload_hash (co_capability co) cursor series candles s1 = (r1, s')
       /\ forall result, r = Ok result -> r1 = Ok tt.
Proof.
  unfold finish_recovery. intros Hrun. rewrite py_bind_run in Hrun.
  destruct (series_candles payload_hash series s) as [[candles|e] s1] eqn:Ec.
  2:{ left. injection Hrun as <- <-. by apply (steps_run _ _ _ _ _ (series_candles_quiet _)) in Ec. }
  apply series_candles_run in Ec as [Ec ->]. cbv zeta in Hrun. rewrite py_bind_run in Hrun.
  destruct (on_gate _ s) as [[healthy|e] s1] eqn:Eg; pose proof (steps_run _ _ _ _ _ (on_gate_quiet _) Eg) as Q1; [|left; by injection Hrun as <- <-].
  destruct healthy; cbn [negb] in Hrun; [|left; injection Hrun as <- <-; split; [done|by intros ? [= <-]]].
  apply on_gate_run in Eg as (g & (_ & state & Hs & _ & Hg & _)%complete_recovery_true & ->). right.
  rewrite py_bind_run in Hrun. unfold count, py_modify in Hrun. rewrite py_bind_run in Hrun.
  match type of Hrun with match dispatch_durable _ _ _ _ _ ?x with _ => _ end = _ => set (s2 := x) in Hrun end.
  destruct (dispatch_durable _ _ _ _ _ s2) as [r1 s3] eqn:Ed. exists candles, s2, r1. split; [done|]. split; [done|].
  split; [cbn; by rewrite Hs, <- Hg|]. destruct r1 as [[]|e]; injection Hrun as <- <-; split; [done|done|done|done].
Qed.

(** ** A recovery takes no series out of the gate *)

Definition keeps_gate (s s' : pipe) : Prop := keeps_registered (pp_gate s) (pp_gate s').

#[export] Instance keeps_gate_preorder : PreOrder keeps_gate.
Proof. unfold keeps_gate. split; [by intros s|]. intros a b c. apply transitivity. Qed.

Lemma on_call_keeps c : steps keeps_gate (on_gate (run_call c)).
Proof.
  intros s. pose proof (run_call_keeps c (pp_gate s)) as Hc. unfold on_gate, py_zoom. by destruct (run_call c (pp_gate s)).
Qed.

Lemma complete_recovery_keeps x gen valid clock d lc le : steps keeps_gate (on_gate (complete_recovery x gen valid clock d lc le)).
Proof.
  intros s. pose proof (run_call_keeps (G_complete x gen valid clock d lc le) (pp_gate s)) as Hc. unfold on_gate, py_zoom.
  unfold run_call, ignore in Hc. cbv [mbind py_bind mret py_ret] in Hc. by destruct (complete_recovery _ _ _ _ _ _ _ _) as [[]].
Qed.

Lemma same_market_keeps {A} (m : py pipe A) : steps same_market m -> steps keeps_gate m.
Proof. intros Hm s. destruct (Hm s) as (_ & E & _). unfold keeps_gate. by rewrite E. Qed.

Lemma rows_keep {A} (m : st (list candle_row) A) : steps keeps_gate (on_rows m).
Proof. intros s. unfold on_rows, py_zoom, keeps_gate. destruct (in_transaction m _). cbn. reflexivity. Qed.

Lemma ask_keeps source i q : steps keeps_gate (ask source i q).
Proof. intros s. unfold ask, keeps_gate. cbn. apply run_calls_keeps. Qed.

Lemma snapshot_keeps_gate x : steps keeps_gate (on_gate (gate_snapshot x)).
Proof. apply same_market_keeps, snapshot_same_market. Qed.
Lemma count_keeps_gate f : steps keeps_gate (count f).
Proof. apply same_market_keeps, count_same_market. Qed.
Lemma series_candles_keep x : steps keeps_gate (series_candles payload_hash x).
Proof. unfold series_candles. steps_solve. Qed.

#[local] Hint Resolve snapshot_keeps_gate count_keeps_gate series_candles_keep complete_recovery_keeps : steps.

Lemma recover_keeps_gate co source now horizon cursor x gen : steps keeps_gate (recover payload_hash co source now horizon cursor x gen).
Proof.
  assert (steps keeps_gate (series_last_close payload_hash x)) as Hlast by (unfold series_last_close; steps_solve).
  assert (forall i p, steps keeps_gate (fetch_page payload_hash co x source now i p)) as Hfetch.
  { intros i p. unfold fetch_page. apply steps_try; [typeclasses eauto| |].
    - steps_solve. apply backfill_steps; [typeclasses eauto|intros c; apply rows_keep|intros q; apply ask_keeps].
    - intros e k. unfold on_pump_error. destruct (bool_decide _); [|done]. intros [= <-]. steps_solve. apply (on_call_keeps (G_backpressure x)). }
  assert (forall report, steps keeps_gate (after_page payload_hash x gen report)) as Hafter.
  { intros report. unfold after_page. steps_solve. apply (on_call_keeps (G_gap x)). }
  assert (forall required h performed l, steps keeps_gate (next_plan co x gen required h performed l)) as Hplan
    by (intros; unfold next_plan; steps_solve).
  assert (forall required h fuel i le, steps keeps_gate (pages payload_hash co x gen required h source now fuel i le)) as Hpages.
  { intros required h fuel. induction fuel as [|fuel IH]; intros i le; cbn [pages]; steps_solve.
    apply (on_call_keeps (G_warming_up x _ _ _)). }
  assert (forall required h previous completed le,
    steps keeps_gate (finish_recovery payload_hash co x gen required h cursor previous completed le)) as Hfinish.
  { intros. unfold finish_recovery. steps_solve. apply same_market_keeps, dispatch_durable_same_market. }
  unfold recover. steps_solve. apply (on_call_keeps (G_clock_untrusted x)).
Qed.
End pipeline.

(** C29: A recovery reports success only when the clock gives a trusted horizon, the last
    stored candle of the series closes exactly there, the candles that the warm-up needs
    are stored and follow each other without a gap, and the gate is open for the series and
    for the generation of the connection on which the recovery was started, whatever other
    threads reported to the gate meanwhile. *)
Theorem successful_recovery_is_continuous {P} `{DecisionOnlyPipeline P} payload_hash co source now horizon cursor series generation
    (s s' : pipeline P) r :
  recover payload_hash co source now horizon cursor series generation s = (Ok r, s') -> jr_success r = true ->
  exists h required, horizon = Some h /\ pp_configs s !! series = Some required
    /\ recovered payload_hash series generation required h s'.
Proof.
  unfold recover. intros Hrun Hr. apply py_bind_Ok in Hrun as (configs & s1 & [-> ->]%py_gets_Ok & Hrun).
  apply py_bind_Ok in Hrun as (required & s2 & [Hreq ->]%py_lift_Ok & Hrun).
  destruct (pp_configs s !! series) as [n|]; [|done]. injection Hreq as ->.
  apply py_bind_Ok in Hrun as (snapshot & s3 & _ & Hrun). destruct horizon as [h|].
  - apply py_bind_Ok in Hrun as ([ended le] & s4 & Hp & Hrun). exists h, required. split; [done|]. split; [done|].
    destruct ended as [| |r'].
    + by apply finish_recovery_success in Hrun as (_ & _ & ?).
    + apply finish_recovery_success in Hrun as [? _]; done.
    + apply py_ret_Ok in Hrun as [-> _]. apply pages_failure in Hp. congruence.
  - apply py_bind_Ok in Hrun as (? & ? & _ & Hrun). apply py_bind_Ok in Hrun as (? & ? & _ & [-> _]%py_ret_Ok). done.
Qed.

(** ** A single page is never enough *)

Lemma forced_plan p series generation horizon l required :
  1 <= pl_backfill_overlap_candles p -> l <> [] ->
  plan p series generation horizon (last_close_of l) (Z.of_nat (length l)) required true <> Ok None.
Proof.
  intros Hp Hl. unfold last_close_of, plan. destruct (last l) as [c|] eqn:E; [|by apply last_None in E]. cbn [fmap option_fmap option_map].
  intros H. apply res_bind_Ok in H as (_ & _ & H). unfold plan_after in H. apply res_bind_Ok in H as (_ & _ & H).
  destruct ((_ =? 0) && _); [|by apply res_bind_Ok in H as (_ & _ & [=])]. cbn [negb] in H.
  assert (0 < length l)%nat by (destruct l; [done|simpl; lia]). destruct (Z.leb_spec (Z.min (pl_backfill_overlap_candles p) (Z.of_nat (length l))) 0); [lia|done].
Qed.

(** With a limit of one page per recovery, which is accepted, a series that is not healthy
    never recovers: the page that is fetched is the last, and nothing finds out that the
    series is complete. *)
Theorem one_page_never_recovers {P} `{DecisionOnlyPipeline P} payload_hash co source now horizon cursor series generation
    (s s' : pipeline P) state required r :
  co_max_pages co = 1 -> 1 <= pl_backfill_overlap_candles (co_planner co) ->
  pp_gate s !! series = Some state -> ss_health state <> HEALTHY -> pp_configs s !! series = Some required -> 0 < required ->
  recover payload_hash co source now horizon cursor series generation s = (Ok r, s') -> jr_success r = false.
Proof.
  intros Hpages Hov Hg Hh Hreq Hpos Hrun. apply not_true_iff_false. intros Hr. unfold recover in Hrun.
  apply py_bind_Ok in Hrun as (configs & s1 & [-> ->]%py_gets_Ok & Hrun). rewrite Hreq in Hrun.
  apply py_bind_Ok in Hrun as (required' & s2 & [[= <-] ->]%py_lift_Ok & Hrun). apply py_bind_Ok in Hrun as (snapshot & s3 & Es & Hrun).
  apply on_gate_run in Es as (g & (st & Est & -> & ->)%gate_snapshot_run & ->). destruct horizon as [h|].
  2:{ apply py_bind_Ok in Hrun as (? & ? & _ & Hrun). by apply py_bind_Ok in Hrun as (? & ? & _ & [-> _]%py_ret_Ok). }
  rewrite Hpages in Hrun. apply py_bind_Ok in Hrun as ([ended le] & s4 & Hp & Hrun). change (Z.to_nat 1) with 1%nat in Hp. cbn [pages] in Hp.
  destruct ended as [| |r'].
  - apply finish_recovery_success in Hrun as (_ & Hrows & (candles & Hc & Hlen & _) & _); [|done]. rewrite Hrows in Hc.
    apply py_bind_Ok in Hp as (l & s5 & Hl & Hp). apply series_candles_run in Hl as [Hl ->]. apply py_bind_Ok in Hp as (p & s6 & Hplan & Hp).
    destruct p as [p|].
    { apply py_bind_Ok in Hp as (? & ? & _ & Hp). apply py_bind_Ok in Hp as (? & ? & _ & Hp). apply py_bind_Ok in Hp as (result & ? & _ & Hp).
      destruct result; by apply py_ret_Ok in Hp as [? _]. }
    apply py_ret_Ok in Hp as [_ ->]. unfold next_plan in Hplan. apply py_bind_Ok in Hplan as (snapshot & s7 & Es & [Hplan ->]%py_lift_Ok).
    apply on_gate_run in Es as (g & (st' & Est' & -> & ->)%gate_snapshot_run & ->). cbn in Est', Hl, Hc. rewrite Hg in Est'. injection Est' as <-.
    rewrite Hl in Hc. injection Hc as <-. cbn [snapshot_of hs_health] in Hplan. rewrite bool_decide_false in Hplan by done. cbn [negb andb] in Hplan.
    destruct (decide (l = [])) as [->|Hne]; [simpl in Hlen; lia|]. by apply forced_plan in Hplan.
  - apply finish_recovery_success in Hrun as [? _]; done.
  - apply py_ret_Ok in Hrun as [-> _].
    pose proof (pages_failure payload_hash co series generation required h source now 1 0 None _ s4 r' le Hp). congruence.
Qed.


(** ** What is handed to the decision pipeline *)

(** A decision pipeline that logs what it is given. *)
Abbreviation delivery := (ClosedCandle * bool)%type.

Section logged.
Variable payload_hash : payload -> string.
Variable answer : ClosedCandle -> res Z.

#[local] Instance logged : DecisionOnlyPipeline (list delivery) := fun c d log => (answer c, log ++ [(c, d)]).

(** What a candle needs to be delivered. *)
Definition deliverable (g : ExecutionCapabilityGate) (series : MarketSeriesId) (s : pipeline (list delivery)) (c : ClosedCandle) : Prop :=
  cg_mode g = DECISION_ONLY /\ cg_can_submit_orders g = false
  /\ series_key c = candle_key series /\ repo_get payload_hash (candle_id payload_hash c) (pp_rows s) = Ok (Some c)
  /\ exists state, pp_gate s !! series = Some state /\ ss_health state = HEALTHY.

Lemma deliverable_same g series s s' c : same_market s s' -> deliverable g series s' c <-> deliverable g series s c.
Proof. intros (H1 & H2 & _). unfold deliverable. by rewrite H1, H2. Qed.

Lemma dispatch_logged g series c s r s' :
  dispatch payload_hash g series c s = (r, s') ->
  (pp_decisions s' = pp_decisions s ++ [(c, false)] /\ deliverable g series s c) \/ (pp_decisions s' = pp_decisions s /\ exists e, r = Err e).
Proof.
  unfold dispatch. rewrite py_bind_run. destruct (on_gate _ s) as [[snapshot|e] s1] eqn:Eg.
  2:{ intros [= <- <-]. right. split; [|eauto]. by apply (steps_run _ _ _ _ _ (on_gate_quiet _)) in Eg. }
  apply on_gate_run in Eg as (g1 & (state & Hs & -> & ->)%gate_snapshot_run & ->).
  rewrite py_bind_run. unfold py_guard at 1. cbn [snapshot_of hs_dispatch_allowed].
  destruct (bool_decide_reflect (ss_health state = HEALTHY)) as [Hh|]; [|intros [= <- <-]; right; split; eauto]. cbn [mret py_ret].
  rewrite py_bind_run. unfold py_guard at 1. destruct (_ && _) eqn:Ek; [|intros [= <- <-]; right; split; eauto].
  cbv [mret py_ret]. rewrite py_bind_run. unfold py_gets at 1. cbv beta iota. rewrite py_bind_run. unfold py_lift at 1.
  destruct (repo_get _ _ _) as [o|e] eqn:Er; [|intros [= <- <-]; right; split; eauto].
  rewrite py_bind_run. unfold py_guard at 1. destruct (bool_decide_reflect (o = Some c)) as [->|]; [|intros [= <- <-]; right; split; eauto].
  cbv [mret py_ret]. rewrite py_bind_run. unfold py_lift at 1, ensure_capability, guard_res.
  destruct (negb _) eqn:Ec; [|intros [= <- <-]; right; split; eauto].
  apply negb_true_iff, orb_false_iff in Ec as [Em Esub]. rewrite !andb_true_iff, bool_decide_eq_true, String.eqb_eq, Z.eqb_eq in Ek.
  intros Hrun. left. split.
  - rewrite py_bind_run in Hrun. unfold on_decisions, py_zoom, process_candle, logged in Hrun.
    destruct (answer c); by injection Hrun as _ <-.
  - unfold deliverable, series_key, candle_key. destruct (cg_mode g); try done. destruct Ek as [[-> ->] ->]. split_and!; eauto.
Qed.

(** The candles that a recovery delivers. *)
Definition is_later (cursor : option Z) (c : ClosedCandle) : bool := match cursor with None => true | Some n => n <? cc_close_time_ms c end.

Lemma dispatch_durable_logged g cursor series candles s r s' :
  dispatch_durable payload_hash (Some g) cursor series candles s = (r, s') ->
  exists ds, pp_decisions s' = pp_decisions s ++ ((fun c => (c, false)) <$> ds)
    /\ ds `prefix_of` select (is_later cursor) candles /\ Forall (deliverable g series s) ds
    /\ (r = Ok tt -> ds = select (is_later cursor) candles).
Proof.
  unfold dispatch_durable. revert s. induction candles as [|c candles IH]; intros s Hrun; cbn [py_for] in Hrun.
  { injection Hrun as <- <-. exists []. rewrite app_nil_r. done. }
  rewrite py_bind_run in Hrun. unfold select. cbn [List.filter]. fold (select (is_later cursor) candles).
  change (match cursor with None => true | Some n => n <? cc_close_time_ms c end) with (is_later cursor c) in Hrun.
  destruct (is_later cursor c); [|by apply IH]. rewrite py_bind_run in Hrun.
  destruct (dispatch payload_hash g series c s) as [[n|e] s1] eqn:Ed; cbv [mret py_ret] in Hrun.
  - pose proof (steps_run _ _ _ _ _ (dispatch_same_market _ _ _ _) Ed) as Hm.
    apply dispatch_logged in Ed as [[Hl Hd]|[_ [? [=]]]]. apply IH in Hrun as (ds & Hlog & Hp & Hf & Hr). exists (c :: ds).
    split_and!.
    + rewrite Hlog, Hl, <- app_assoc. done.
    + by apply prefix_cons.
    + constructor; [done|]. eapply Forall_impl; [exact Hf|]. intros x Hx. by apply (deliverable_same g series s s1).
    + intros E. by rewrite Hr.
  - injection Hrun as <- <-. apply dispatch_logged in Ed as [[Hl Hd]|[Hl _]].
    + exists [c]. split; [done|]. split; [apply prefix_cons, prefix_nil|]. split; [by constructor|done].
    + exists []. rewrite app_nil_r. split; [done|]. split; [apply prefix_nil|]. split; [constructor|done].
Qed.

(** C28: Whatever becomes of a recovery, it hands to the decision pipeline only candles
    that are stored under their own identity, belong to the series and are later than the
    dispatch cursor, in the order of the stored series and without leaving one out; it does
    so only while the gate is open for the generation it recovers, and always without
    permission to dispatch, through a capability gate that neither executes nor submits
    orders.  After a success all of them have been handed over. *)
Theorem dispatched_candles_are_durable co source now horizon cursor series generation (s s' : pipeline (list delivery)) r :
  recover payload_hash co source now horizon cursor series generation s = (r, s') ->
  exists ds, pp_decisions s' = pp_decisions s ++ ((fun c => (c, false)) <$> ds)
    /\ (ds <> [] -> exists g candles, co_capability co = Some g /\
          repo_range payload_hash (candle_key series) None None (pp_rows s') = Ok candles /\
          ds `prefix_of` select (is_later cursor) candles /\ Forall (deliverable g series s') ds
          /\ ss_generation <$> pp_gate s' !! series = Some generation)
    /\ forall result, r = Ok result -> jr_success result = true -> co_capability co <> None ->
        exists candles, repo_range payload_hash (candle_key series) None None (pp_rows s') = Ok candles
                        /\ ds = select (is_later cursor) candles.
Proof.
  intros [[Hq Hf]|(h & required & previous & completed & le & s1 & _ & Hq & Hrun)]%recover_cases.
  { exists []. rewrite app_nil_r. split_and!; [done|done|]. intros result E Hr. by rewrite (Hf result E) in Hr. }
  change (pp_decisions s1 = pp_decisions s) in Hq. rewrite <- Hq. clear Hq.
  apply finish_cases in Hrun as [[Hq Hf]|(candles & s2 & r1 & Hq & Hc & Hg & Hd & Hr)].
  { exists []. rewrite app_nil_r. split_and!; [done|done|]. intros result E Hr. by rewrite (Hf result E) in Hr. }
  change (pp_decisions s2 = pp_decisions s1) in Hq. rewrite <- Hq. clear Hq.
  pose proof (steps_run _ _ _ _ _ (dispatch_durable_same_market _ _ _ _ _) Hd) as Hm. destruct Hm as (H1 & H2 & H3) eqn:Em. clear Em.
  rewrite H1, H2. destruct (co_capability co) as [g|] eqn:Eco.
  - apply dispatch_durable_logged in Hd as (ds & Hl & Hp & Hf & Hall). exists ds. split; [done|]. split.
    + intros _. exists g, candles. split_and!; [done|done|done| |done]. eapply Forall_impl; [exact Hf|].
      intros c Hdel. by eapply (deliverable_same g series s2).
    + intros result E _ _. exists candles. split; [done|]. by apply Hall, Hr with result.
  - injection Hd as <- <-. exists []. rewrite app_nil_r. by split_and!.
Qed.
End logged.
