(* ===== verification/MarketScheduler.v ===== *)
(** * The backfill scheduler

    [packages/market_pipeline/scheduler.py]: the retry policy and the scheduler that runs
    the recovery of the series that are due.  The readings of the clock, the jitter, the
    power function of floats and the job are arguments; the job works on a state that holds
    the gate and the counters. *)

From S2P Require Import Prelude Datetime Dec PyFloat FloatOrder Domain DerivTransport Candles MarketHealth Backfill.

(** [min(x, y)] of floats *)
Definition fmin (x y : float) : float := if fltb y x then y else x.

(** ** The retry policy *)

Record ReadOnlyBackfillRetryPolicy : Type := mk_ReadOnlyBackfillRetryPolicy {
  ry_maximum_attempts : Z; ry_initial_delay_seconds : float; ry_multiplier : float; ry_maximum_delay_seconds : float;
  ry_jitter_ratio : float
}.

Definition ReadOnlyBackfillRetryPolicy_post_init (p : ReadOnlyBackfillRetryPolicy) : res ReadOnlyBackfillRetryPolicy :=
  _ ← guard_res (0 <? ry_maximum_attempts p) (ValueError "read-only retry attempts must be positive");
  _ ← guard_res (negb (fleb (ry_initial_delay_seconds p) (float_of_Z 0) || fltb (ry_multiplier p) (float_of_Z 1)))
        (ValueError "read-only retry backoff is invalid");
  _ ← guard_res (negb (fltb (ry_maximum_delay_seconds p) (ry_initial_delay_seconds p)))
        (ValueError "read-only retry maximum delay is invalid");
  _ ← guard_res (fleb (float_of_Z 0) (ry_jitter_ratio p) && fleb (ry_jitter_ratio p) (float_of_Z 1))
        (ValueError "read-only retry jitter ratio is invalid");
  Ok p.

(** [delay]; [fpow x n] is [x ** n]. *)
Definition retry_delay (fpow : float -> Z -> res float) (p : ReadOnlyBackfillRetryPolicy) (failure_count : Z) (sample : float) : res float :=
  _ ← guard_res (0 <? failure_count) (ValueError "failure count must be positive");
  power ← fpow (ry_multiplier p) (failure_count - 1);
  let base := fmin (ry_maximum_delay_seconds p) (fmul (ry_initial_delay_seconds p) power) in
  _ ← guard_res (fleb (float_of_Z 0) sample && fleb sample (float_of_Z 1)) (ValueError "jitter sample must be between zero and one");
  let spread := fmul base (ry_jitter_ratio p) in
  Ok (fmin (ry_maximum_delay_seconds p) (fadd (fsub base spread) (fmul (fmul (float_of_Z 2) spread) sample))).

(** ** The scheduler *)

Record MarketSeriesScheduleState : Type := mk_MarketSeriesScheduleState {
  sd_series_id : MarketSeriesId; sd_last_durable_close_epoch : option Z; sd_last_attempt_monotonic : option float;
  sd_next_due_monotonic : float; sd_failure_count : Z; sd_reconnect_generation : Z; sd_health : MarketSeriesHealth;
  sd_recovery_required : bool; sd_reason : MarketHealthReason
}.

#[export] Instance MarketSeriesScheduleState_eta : Eta MarketSeriesScheduleState := fun s =>
  mk_MarketSeriesScheduleState (sd_series_id s) (sd_last_durable_close_epoch s) (sd_last_attempt_monotonic s)
    (sd_next_due_monotonic s) (sd_failure_count s) (sd_reconnect_generation s) (sd_health s) (sd_recovery_required s) (sd_reason s).

(** The configuration of a [MarketBackfillScheduler]. *)
Record scheduler_config : Type := mk_scheduler_config {
  sf_interval : float; sf_suspension_threshold : float; sf_max_concurrency : Z; sf_retry : ReadOnlyBackfillRetryPolicy;
  sf_fpow : float -> Z -> res float
}.

Definition new_scheduler_config (interval suspension_threshold : float) (max_concurrency : Z) (retry : ReadOnlyBackfillRetryPolicy)
    (fpow : float -> Z -> res float) : res scheduler_config :=
  _ ← guard_res (negb (fleb interval (float_of_Z 0) || fleb suspension_threshold (float_of_Z 0)))
        (ValueError "scheduler durations must be positive");
  _ ← guard_res (0 <? max_concurrency) (ValueError "backfill concurrency must be positive");
  Ok (mk_scheduler_config interval suspension_threshold max_concurrency retry fpow).

(** The fields that its methods write, and the state [E] that it shares. *)
Record scheduler (E : Type) : Type := mk_scheduler {
  sk_states : gmap MarketSeriesId MarketSeriesScheduleState; sk_order : list MarketSeriesId; sk_cursor : nat;
  sk_active : gset MarketSeriesId; sk_last_tick : option float; sk_env : E
}.
#[global] Arguments mk_scheduler {E}.
#[global] Arguments sk_states {E}.
#[global] Arguments sk_order {E}.
#[global] Arguments sk_cursor {E}.
#[global] Arguments sk_active {E}.
#[global] Arguments sk_last_tick {E}.
#[global] Arguments sk_env {E}.

#[export] Instance scheduler_eta E : Eta (scheduler E) := fun s =>
  mk_scheduler (sk_states s) (sk_order s) (sk_cursor s) (sk_active s) (sk_last_tick s) (sk_env s).

(** A state that holds the gate and the counters of a pipeline. *)
Class HasMarket (E : Type) := {
  gate_of : E -> MarketHealthGate; with_gate : MarketHealthGate -> E -> E;
  metrics_of : E -> MarketPipelineMetrics; with_metrics : MarketPipelineMetrics -> E -> E;
  gate_of_with : forall g e, gate_of (with_gate g e) = g;
  with_gate_of : forall e, with_gate (gate_of e) e = e;
  gate_of_metrics : forall m e, gate_of (with_metrics m e) = gate_of e
}.

(** [BackfillJob] *)
Class BackfillJob (E : Type) := job_recover : MarketSeriesId -> Z -> py E BackfillJobResult.

#[export] Program Instance pipeline_market P : HasMarket (pipeline P) := {|
  gate_of := pp_gate; with_gate g s := s <| pp_gate := g |>; metrics_of := pp_metrics; with_metrics m s := s <| pp_metrics := m |>
|}.
Solve All Obligations with first [done|by intros ? []].

Section scheduler.
Context {E : Type} `{HasMarket E} `{BackfillJob E}.
Variable cfg : scheduler_config.
Abbreviation sched := (scheduler E).

Definition sched_gate {A} (m : py MarketHealthGate A) : py sched A :=
  py_zoom (fun s => gate_of (sk_env s)) (fun g s => s <| sk_env ::= with_gate g |>) m.
Definition sched_count (f : MarketPipelineMetrics -> MarketPipelineMetrics) : py sched unit :=
  py_modify (fun s => s <| sk_env ::= fun e => with_metrics (f (metrics_of e)) e |>).
Definition put_state (series : MarketSeriesId) (state : MarketSeriesScheduleState) : py sched unit :=
  py_modify (fun s => s <| sk_states ::= <[ series := state ]> |>).

(** [self._states[series_id]] *)
Definition get_state (series : MarketSeriesId) : py sched MarketSeriesScheduleState := fun s =>
  match sk_states s !! series with Some state => (Ok state, s) | None => (Err KeyError, s) end.

(** [register]; [now] is the reading of the clock. *)
Definition schedule_series (now : float) (series : MarketSeriesId) (last_durable_close_epoch : option Z) (initial_delay : float) : py sched unit :=
  _ ← py_guard (negb (fltb initial_delay (float_of_Z 0))) (ValueError "initial scheduler delay cannot be negative");
  states ← py_gets sk_states;
  match states !! series with
  | Some _ => mret tt
  | None =>
      snapshot ← sched_gate (gate_snapshot series);
      _ ← put_state series (mk_MarketSeriesScheduleState series last_durable_close_epoch None (fadd now initial_delay) 0
                              (hs_reconnect_generation snapshot) (hs_health snapshot) true (hs_reason snapshot));
      py_modify (fun s => s <| sk_order ::= fun l => l ++ [series] |>)
  end.

Definition trigger (now : float) (series : MarketSeriesId) : py sched unit :=
  state ← get_state series;
  put_state series (state <| sd_next_due_monotonic ::= fun due => fmin due now |> <| sd_recovery_required := true |>).

(** [_record_failure] *)
Definition record_failure (sample : float) (series : MarketSeriesId) (state : MarketSeriesScheduleState) (generation : Z) (now : float)
    (reason : MarketHealthReason) : py sched unit :=
  let failures := sd_failure_count state + 1 in
  _ ← sched_count (fun m => m <| mm_backfill_failures ::= Z.succ |>);
  '(next_due, next_reason) ←
     (if ry_maximum_attempts (sf_retry cfg) <=? failures then
        _ ← sched_gate (mark_failed series MD_HISTORY_EXHAUSTED);
        mret (fadd now (ry_maximum_delay_seconds (sf_retry cfg)), MD_HISTORY_EXHAUSTED)
      else
        _ ← sched_count (fun m => m <| mm_backfill_retries ::= Z.succ |>);
        delay ← py_lift (retry_delay (sf_fpow cfg) (sf_retry cfg) failures sample);
        mret (fadd now delay, reason));
  snapshot ← sched_gate (gate_snapshot series);
  put_state series (state <| sd_last_attempt_monotonic := Some now |> <| sd_next_due_monotonic := next_due |>
                          <| sd_failure_count := failures |> <| sd_reconnect_generation := generation |>
                          <| sd_health := hs_health snapshot |> <| sd_recovery_required := true |> <| sd_reason := next_reason |>).

Definition run_job (series : MarketSeriesId) (generation : Z) : py sched BackfillJobResult :=
  py_zoom sk_env (fun e s => s <| sk_env := e |>) (job_recover series generation).

(** The recovery with its handler: none when it raised and the failure is recorded. *)
Definition try_job (sample : float) (series : MarketSeriesId) (state : MarketSeriesScheduleState) (generation : Z) (now : float)
    : py sched (option BackfillJobResult) :=
  py_finally
    (py_try (r ← run_job series generation; mret (Some r))
            (fun _ => Some (_ ← record_failure sample series state generation now MD_HISTORY_EXHAUSTED; mret None)))
    (fun s => s <| sk_active ::= fun a => a ∖ {[ series ]} |>).

(** [_run_one] *)
Definition run_one (sample : float) (series : MarketSeriesId) (now : float) : py sched unit :=
  state ← get_state series;
  snapshot ← sched_gate (gate_snapshot series);
  let generation := hs_reconnect_generation snapshot in
  _ ← py_modify (fun s => s <| sk_active ::= fun a => {[ series ]} ∪ a |>);
  outcome ← try_job sample series state generation now;
  match outcome with
  | None => mret tt
  | Some result =>
      if negb (jr_generation result =? generation) then
        put_state series (state <| sd_last_attempt_monotonic := Some now |> <| sd_next_due_monotonic := now |>
                                <| sd_reconnect_generation := generation |> <| sd_recovery_required := true |>
                                <| sd_reason := MD_STALE_CONNECTION_RESPONSE |>)
      else if negb (jr_success result) then record_failure sample series state generation now (jr_reason result)
      else
        snapshot ← sched_gate (gate_snapshot series);
        put_state series (state <| sd_last_durable_close_epoch := jr_last_durable_close_epoch result |>
                                <| sd_last_attempt_monotonic := Some now |> <| sd_next_due_monotonic := fadd now (sf_interval cfg) |>
                                <| sd_failure_count := 0 |> <| sd_reconnect_generation := generation |>
                                <| sd_health := hs_health snapshot |> <| sd_recovery_required := jr_recovery_required result |>
                                <| sd_reason := hs_reason snapshot |>)
  end.

(** [_handle_suspension] *)
Definition handle_suspension (now : float) : py sched unit :=
  order ← py_gets sk_order;
  py_for (fun series =>
    generation ← sched_gate (mark_suspended series);
    state ← get_state series;
    put_state series (state <| sd_next_due_monotonic := now |> <| sd_reconnect_generation := generation |>
                            <| sd_recovery_required := true |> <| sd_reason := MD_SOURCE_STALE |>)) order.

Definition is_due (s : sched) (now : float) (series : MarketSeriesId) : bool :=
  match sk_states s !! series with Some state => fleb (sd_next_due_monotonic state) now | None => false end.

(** [self._order.index(series_id)] of a member *)
Fixpoint position (series : MarketSeriesId) (l : list MarketSeriesId) : nat :=
  match l with
  | [] => 0
  | x :: l => if decide (x = series) then 0 else Datatypes.S (position series l)
  end.

(** [_fair_due]; every series of the order has a state. *)
Definition fair_due (now : float) : py sched (list MarketSeriesId) := fun s =>
  let order := sk_order s in
  let ordered := drop (sk_cursor s) order ++ take (sk_cursor s) order in
  let due := List.filter (is_due s now) ordered in
  match last due with
  | None => (Ok due, s)
  | Some l => (Ok due, s <| sk_cursor := Nat.modulo (Datatypes.S (position l order)) (length order) |>)
  end.

(** The loop of [tick]: the series that are run. *)
Fixpoint run_due (samples : MarketSeriesId -> float) (now : float) (due : list MarketSeriesId) : py sched (list MarketSeriesId) :=
  match due with
  | [] => mret []
  | series :: due =>
      active ← py_gets sk_active;
      if decide (series ∈ active) then run_due samples now due
      else
        _ ← run_one (samples series) series now;
        rest ← run_due samples now due;
        mret (series :: rest)
  end.

(** [tick]; [now] is the reading of the clock and [samples] the jitter of each series. *)
Definition tick (samples : MarketSeriesId -> float) (now : float) : py sched (list MarketSeriesId) :=
  last_tick ← py_gets sk_last_tick;
  _ ← (match last_tick with
       | Some t => if fleb (sf_suspension_threshold cfg) (fsub now t) then handle_suspension now else mret tt
       | None => mret tt
       end);
  _ ← py_modify (fun s => s <| sk_last_tick := Some now |>);
  due ← fair_due now;
  run_due samples now (take (Z.to_nat (sf_max_concurrency cfg)) due).
End scheduler.
