(* ===== verification/SchedulerProps.v ===== *)
(** * What the backfill scheduler promises

    A tick returns whatever the jobs do, runs no more series than it may and only series
    that are due; a series whose recovery keeps failing is closed for dispatch; a retry
    waits no longer than the policy allows.  The rotation of the series does not give every
    series its turn. *)

From S2P Require Import Prelude Datetime Dec PyFloat FloatOrder Domain DerivTransport Candles MarketHealth MarketHealthProps Backfill BackfillProps MarketScheduler.

(** ** Retries *)

Lemma fmin_le x y : fleb x x = true -> fleb (fmin x y) x = true.
Proof. intros Hx. unfold fmin. destruct (fltb y x) eqn:E; [by apply fltb_fleb|done]. Qed.

(** The delay before a retry is at most the maximum of the policy. *)
Theorem retry_delay_is_bounded fpow p failures sample d :
  fleb (ry_maximum_delay_seconds p) (ry_maximum_delay_seconds p) = true ->
  retry_delay fpow p failures sample = Ok d -> fleb d (ry_maximum_delay_seconds p) = true.
Proof.
  intros Hm H. unfold retry_delay in H. apply res_bind_Ok in H as (_ & _ & H). apply res_bind_Ok in H as (power & _ & H).
  cbv zeta in H. apply res_bind_Ok in H as (_ & _ & H). injection H as <-. by apply fmin_le.
Qed.

Section scheduler.
Context {E : Type} `{HasMarket E} `{BackfillJob E}.
Variable cfg : scheduler_config.
Abbreviation sched := (scheduler E).

(** ** The rotation *)

Lemma rotation_perm (s : sched) : drop (sk_cursor s) (sk_order s) ++ take (sk_cursor s) (sk_order s) ≡ₚ sk_order s.
Proof. rewrite (Permutation_app_comm (drop _ _)). by rewrite take_drop. Qed.

Lemma position_lookup l i x : NoDup l -> l !! i = Some x -> position x l = i.
Proof.
  revert i. induction l as [|y l IH]; intros i Hn Hi; [done|]. apply NoDup_cons in Hn as [Hy Hn]. destruct i as [|i]; simpl in *.
  - injection Hi as ->. by rewrite decide_True.
  - rewrite decide_False; [by rewrite (IH i)|]. intros ->. apply Hy. by apply list_elem_of_lookup_2 in Hi.
Qed.

(** A series that is due is in the order, and was due when the tick looked. *)
Lemma fair_due_run now (s : sched) due s' :
  fair_due now s = (Ok due, s') ->
  due = List.filter (is_due s now) (drop (sk_cursor s) (sk_order s) ++ take (sk_cursor s) (sk_order s))
  /\ exists c, s' = s <| sk_cursor := c |>.
Proof.
  unfold fair_due. destruct (last _) as [l|]; intros [= <- <-]; split; try done; [eauto|]. exists (sk_cursor s). by destruct s.
Qed.

(** When every series is due, the rotation does not move: the next tick starts with the
    same series. *)
Theorem crowded_tick_keeps_its_place now (s : sched) :
  NoDup (sk_order s) -> (sk_cursor s < length (sk_order s))%nat -> Forall (fun x => is_due s now x = true) (sk_order s) ->
  fair_due now s = (Ok (drop (sk_cursor s) (sk_order s) ++ take (sk_cursor s) (sk_order s)), s).
Proof.
  intros Hn Hc Hd. unfold fair_due. set (l := drop _ _ ++ take _ _).
  assert (List.filter (is_due s now) l = l) as ->.
  { assert (Forall (fun x => is_due s now x = true) l) as Hl by (unfold l; by rewrite rotation_perm).
    clear -Hl. induction Hl as [|x l Hx Hl IH]; [done|]. simpl. by rewrite Hx, IH. }
  destruct (last l) as [x|] eqn:El; [|done].
  assert (Nat.modulo (Datatypes.S (position x (sk_order s))) (length (sk_order s)) = sk_cursor s) as ->; [|by destruct s].
  assert (sk_order s !! (if sk_cursor s =? 0 then length (sk_order s) - 1 else sk_cursor s - 1)%nat = Some x) as Hx.
  { unfold l in El. destruct (Nat.eqb_spec (sk_cursor s) 0) as [E0|E0].
    - rewrite E0, take_0, drop_0, app_nil_r in El. by rewrite last_lookup, <- Nat.sub_1_r in El.
    - rewrite last_lookup in El. rewrite length_app, length_drop, length_take in El.
      rewrite lookup_app_r in El by (rewrite length_drop; lia). rewrite lookup_take_lt in El by (rewrite length_drop; lia).
      rewrite <- El. f_equal. rewrite length_drop. lia. }
  rewrite (position_lookup _ _ _ Hn Hx). destruct (Nat.eqb_spec (sk_cursor s) 0) as [E0|E0].
  - replace (Datatypes.S (length (sk_order s) - 1)) with (length (sk_order s)) by lia. rewrite Nat.Div0.mod_same. lia.
  - replace (Datatypes.S (sk_cursor s - 1)) with (sk_cursor s) by lia. by apply Nat.mod_small.
Qed.

(** ** A tick returns *)

(** The order [o] is on the schedule and in the gate, and the recoveries of [a] are under
    way. *)
Record ready (o : list MarketSeriesId) (a : gset MarketSeriesId) (s : sched) : Prop := mk_ready {
  rd_order : sk_order s = o; rd_active : sk_active s = a;
  rd_states : forall x, x ∈ o -> is_Some (sk_states s !! x);
  rd_gate : forall x, x ∈ o -> is_Some (gate_of (sk_env s) !! x);
  rd_counts : map_Forall (fun _ state => 0 <= sd_failure_count state) (sk_states s)
}.

(** A call on the gate that returns for a series in it and takes none out. *)
Definition gate_returns {A} (x : MarketSeriesId) (m : py MarketHealthGate A) : Prop :=
  forall g, is_Some (g !! x) -> exists r g', m g = (Ok r, g') /\ forall y, is_Some (g !! y) -> is_Some (g' !! y).

Lemma update_returns x f : gate_returns x (update_series x f).
Proof.
  intros g [state Hx]. rewrite (update_series_run _ _ _ _ Hx). eexists _, _. split; [done|]. intros y Hy.
  destruct (decide (x = y)) as [->|]; [by rewrite lookup_insert_eq|by rewrite lookup_insert_ne].
Qed.

Lemma gate_returns_bind {A B} x (m : py MarketHealthGate A) (k : A -> py MarketHealthGate B) :
  gate_returns x m -> (forall a, gate_returns x (k a)) -> gate_returns x (m ≫= k).
Proof.
  intros Hm Hk g Hg. destruct (Hm g Hg) as (a & g1 & E1 & H1). destruct (Hk a g1 (H1 x Hg)) as (b & g2 & E2 & H2).
  exists b, g2. cbv [mbind py_bind]. rewrite E1. split; [done|]. auto.
Qed.

Lemma gate_returns_ret {A} x (a : A) : gate_returns x (mret a).
Proof. intros g Hg. by exists a, g. Qed.

Lemma require_returns x : gate_returns x (require_series x).
Proof. intros g [state Hx]. rewrite (require_series_run _ _ _ Hx). by exists state, g. Qed.

Lemma snapshot_returns x : gate_returns x (gate_snapshot x).
Proof. apply gate_returns_bind; [apply require_returns|intros]. apply gate_returns_ret. Qed.

Lemma suspended_returns x : gate_returns x (mark_suspended x).
Proof.
  unfold mark_suspended, next_generation, transition.
  repeat first [apply require_returns|apply update_returns|apply gate_returns_ret|apply gate_returns_bind; [|intros ?]].
Qed.

Lemma sched_gate_returns {A} x o a (m : py MarketHealthGate A) :
  x ∈ o -> gate_returns x m -> returns (ready o a) (sched_gate m) (fun _ => ready o a).
Proof.
  intros Hx Hm s [Ho Ha Hs Hg Hc]. destruct (Hm _ (Hg x Hx)) as (r & g & E1 & H1). unfold sched_gate, py_zoom. rewrite E1.
  eexists _, _. split; [done|]. split; try done. intros y Hy. cbn. rewrite gate_of_with. auto.
Qed.

Lemma sched_count_returns o a f : returns (ready o a) (sched_count f) (fun _ => ready o a).
Proof.
  intros s [Ho Ha Hs Hg Hc]. eexists _, _. split; [done|]. split; try done. intros y Hy. cbn. rewrite gate_of_metrics. auto.
Qed.

Lemma put_state_returns o a x state : 0 <= sd_failure_count state -> returns (ready o a) (put_state x state) (fun _ => ready o a).
Proof.
  intros Hst s [Ho Ha Hs Hg Hc]. eexists _, _. split; [done|]. split; try done.
  - intros y Hy. cbn. destruct (decide (x = y)) as [->|]; [by rewrite lookup_insert_eq|rewrite lookup_insert_ne by done; auto].
  - cbn. by apply map_Forall_insert_2.
Qed.

Lemma get_state_returns o a x : x ∈ o -> returns (ready o a) (get_state x) (fun state s => ready o a s /\ 0 <= sd_failure_count state).
Proof.
  intros Hx s R. destruct (rd_states _ _ _ R x Hx) as [state Es]. exists state, s. unfold get_state. rewrite Es.
  split; [done|]. split; [done|]. exact (rd_counts _ _ _ R x state Es).
Qed.

Hypothesis fpow_returns : forall n, exists f, sf_fpow cfg (ry_multiplier (sf_retry cfg)) n = Ok f.

Definition fair_sample (x : float) : Prop := fleb (float_of_Z 0) x && fleb x (float_of_Z 1) = true.

Lemma record_failure_returns o a sample x state gen now reason :
  x ∈ o -> fair_sample sample -> 0 <= sd_failure_count state ->
  returns (ready o a) (record_failure cfg sample x state gen now reason) (fun _ => ready o a).
Proof.
  intros Hx Hf Hc. unfold record_failure. eapply returns_then; [apply sched_count_returns|intros _].
  eapply (returns_then _ (ready o a)).
  - destruct (_ <=? _).
    + eapply returns_then; [apply (sched_gate_returns x); [done|apply update_returns]|intros _]. apply (returns_ret (fun _ => ready o a)).
    + eapply returns_then; [apply sched_count_returns|intros _].
      eapply (returns_then _ (ready o a)); [|intros d; apply (returns_ret (fun _ => ready o a))].
      destruct (fpow_returns (sd_failure_count state + 1 - 1)) as [f Ef].
      unfold retry_delay. rewrite (proj2 (Z.ltb_lt 0 (sd_failure_count state + 1))) by lia. unfold guard_res. cbn [mbind res_bind].
      rewrite Ef. cbn [mbind res_bind]. rewrite Hf. cbn [mbind res_bind]. intros s R. by eexists _, s.
  - intros [next_due next_reason]. eapply returns_then; [apply (sched_gate_returns x); [done|apply snapshot_returns]|intros snapshot].
    apply put_state_returns. cbn. lia.
Qed.

Hypothesis job_keeps : forall x gen e r e',
  job_recover x gen e = (r, e') -> forall y, is_Some (gate_of e !! y) -> is_Some (gate_of e' !! y).

Lemma try_job_returns o a sample x state gen now :
  x ∈ o -> fair_sample sample -> 0 <= sd_failure_count state ->
  returns (ready o a) (try_job cfg sample x state gen now) (fun _ => ready o (a ∖ {[ x ]})).
Proof.
  intros Hx Hf Hc s R. unfold try_job, py_finally, py_try, run_job, py_zoom. cbv [mbind py_bind mret py_ret].
  destruct (job_recover x gen (sk_env s)) as [r e] eqn:Ej.
  assert (ready o a (s <| sk_env := e |>)) as R1.
  { destruct R as [Ho Ha Hs Hg Hcs]. split; try done. intros y Hy. cbn. eapply job_keeps; [exact Ej|]. auto. }
  assert (forall t : sched, ready o a t -> ready o (a ∖ {[ x ]}) (t <| sk_active ::= fun a => a ∖ {[ x ]} |>)) as Hd.
  { intros t [Ho Ha Hs Hg Hcs]. split; try done. cbn. by rewrite Ha. }
  destruct r as [result|ex]; [eexists _, _; split; [done|by apply Hd]|].
  destruct (record_failure_returns o a sample x state gen now MD_HISTORY_EXHAUSTED Hx Hf Hc _ R1) as (u & s1 & E1 & R2).
  cbv [mbind py_bind mret py_ret]. rewrite E1. eexists _, _. split; [done|by apply Hd].
Qed.

Lemma run_one_returns o a sample x now :
  x ∈ o -> x ∉ a -> fair_sample sample -> returns (ready o a) (run_one cfg sample x now) (fun _ => ready o a).
Proof.
  intros Hx Hxa Hf. unfold run_one. eapply returns_bind; [by apply (get_state_returns o a)|intros state; apply returns_pure; intros Hc].
  eapply returns_then; [apply (sched_gate_returns x); [done|apply snapshot_returns]|intros snapshot]. cbv zeta.
  eapply (returns_then _ (ready o ({[ x ]} ∪ a))).
  { intros s [Ho Ha Hs Hg Hcs]. eexists _, _. split; [done|]. split; try done. cbn. by rewrite Ha. }
  intros _. eapply returns_then; [by apply try_job_returns|]. intros outcome.
  replace (({[ x ]} ∪ a) ∖ {[ x ]}) with a by set_solver. destruct outcome as [result|]; [|apply (returns_ret (fun _ => ready o a))].
  destruct (negb _); [by apply put_state_returns|]. destruct (negb _); [by apply record_failure_returns|].
  eapply returns_then; [apply (sched_gate_returns x); [done|apply snapshot_returns]|intros snapshot']. by apply put_state_returns.
Qed.

Lemma handle_suspension_returns o a now : returns (ready o a) (handle_suspension now) (fun _ => ready o a).
Proof.
  unfold handle_suspension. eapply (returns_bind _ (fun l s => ready o a s /\ l = o)).
  { intros s R. exists (sk_order s), s. split; [done|]. split; [done|apply R]. }
  intros l. apply returns_pure. intros ->. apply returns_for. intros x Hx.
  eapply returns_then; [apply (sched_gate_returns x); [done|apply suspended_returns]|intros gen].
  eapply returns_bind; [by apply (get_state_returns o a)|intros state; apply returns_pure; intros Hc]. by apply put_state_returns.
Qed.

Lemma run_due_returns o samples now due :
  (forall x, fair_sample (samples x)) -> due ⊆ o ->
  returns (ready o ∅) (run_due cfg samples now due) (fun l s => ready o ∅ s /\ l = due).
Proof.
  intros Hf. induction due as [|x due IH]; intros Hd; cbn [run_due]; [intros s R; by exists [], s|].
  eapply (returns_bind _ (fun a s => ready o ∅ s /\ a = ∅)).
  { intros s R. exists (sk_active s), s. split; [done|]. split; [done|apply R]. }
  intros active. apply returns_pure. intros ->. rewrite decide_False by set_solver.
  eapply returns_then; [apply run_one_returns; [set_solver|set_solver|apply Hf]|intros _].
  eapply returns_bind; [apply IH; set_solver|intros rest; apply returns_pure; intros ->]. intros s R. by exists (x :: due), s.
Qed.

(** A tick of the scheduler returns, whatever the recoveries do: one that raises or
    fails is recorded and does not keep the others from running.  It runs the first of the
    due series in the order of the rotation, at most as many as the concurrency allows, and
    leaves no recovery marked as under way.  It is assumed that the power of floats returns,
    that the jitter is between zero and one, and that a job takes no series out of the
    gate. *)
Theorem tick_survives_failing_jobs o samples now s :
  ready o ∅ s -> (forall x, fair_sample (samples x)) ->
  exists s1 s', ready o ∅ s1 /\ ready o ∅ s' /\
    let due := List.filter (is_due s1 now) (drop (sk_cursor s1) o ++ take (sk_cursor s1) o) in
    tick cfg samples now s = (Ok (take (Z.to_nat (sf_max_concurrency cfg)) due), s').
Proof.
  intros R Hf. unfold tick. rewrite py_bind_run. cbn [py_gets].
  assert (exists s1, (match sk_last_tick s with
       | Some t => if fleb (sf_suspension_threshold cfg) (fsub now t) then handle_suspension now else mret tt
       | None => mret tt
       end) s = (Ok tt, s1) /\ ready o ∅ s1) as (s1 & E1 & R1).
  { destruct (sk_last_tick s) as [t|]; [|by exists s]. destruct (fleb _ _); [|by exists s].
    destruct (handle_suspension_returns o ∅ now s R) as ([] & s1 & E1 & R1). by exists s1. }
  exists (s1 <| sk_last_tick := Some now |>). rewrite py_bind_run. rewrite E1.
  rewrite py_bind_run. unfold py_modify. cbv beta iota. rewrite py_bind_run.
  assert (ready o ∅ (s1 <| sk_last_tick := Some now |>)) as R2 by (by destruct R1).
  destruct (fair_due now (s1 <| sk_last_tick := Some now |>)) as [[due|e] s2] eqn:Ed; [|unfold fair_due in Ed; by destruct (last _)].
  apply fair_due_run in Ed as [Hdue [c Hs2]]. assert (ready o ∅ s2) as R3 by (subst s2; by destruct R2).
  assert (due ⊆ o) as Hsub.
  { rewrite Hdue. intros x [Hx _]%list_elem_of_In%filter_In. apply list_elem_of_In in Hx. rewrite <- (rd_order _ _ _ R2).
    by rewrite rotation_perm in Hx. }
  destruct (run_due_returns o samples now (take (Z.to_nat (sf_max_concurrency cfg)) due) Hf) with (s := s2) as (l & s' & E3 & R4 & ->); [|done|].
  { intros x Hx. apply Hsub. by eapply subseteq_take. }
  exists s'. split; [done|]. split; [done|]. cbv zeta. rewrite <- (rd_order _ _ _ R2) at 1 2. by rewrite <- Hdue.
Qed.

(** ** Exhausted retries *)

(** Whether a recovery failed: it raised, or it reports a failure of its own generation. *)
Definition job_failed (generation : Z) (r : res BackfillJobResult) : Prop :=
  match r with Err _ => True | Ok result => jr_generation result = generation /\ jr_success result = false end.

Lemma record_failure_exhausted sample x state gen now reason (s s' : sched) :
  ry_maximum_attempts (sf_retry cfg) <= sd_failure_count state + 1 ->
  record_failure cfg sample x state gen now reason s = (Ok tt, s') ->
  exists st, gate_of (sk_env s') !! x = Some st /\ ss_health st = FAILED
    /\ sk_states s' !! x = Some (state <| sd_last_attempt_monotonic := Some now |>
          <| sd_next_due_monotonic := fadd now (ry_maximum_delay_seconds (sf_retry cfg)) |>
          <| sd_failure_count := sd_failure_count state + 1 |> <| sd_reconnect_generation := gen |>
          <| sd_health := FAILED |> <| sd_recovery_required := true |> <| sd_reason := MD_HISTORY_EXHAUSTED |>).
Proof.
  intros Hm Hrun. unfold record_failure in Hrun. cbv zeta in Hrun. apply py_bind_Ok in Hrun as (? & s1 & _ & Hrun).
  apply py_bind_Ok in Hrun as ([next_due next_reason] & s2 & E2 & Hrun). rewrite (proj2 (Z.leb_le _ _) Hm) in E2.
  apply py_bind_Ok in E2 as (? & s3 & E2 & [[= -> ->] ->]%py_ret_Ok). apply py_zoom_run in E2 as (g & E2 & ->).
  destruct (gate_of (sk_env s1) !! x) as [st|] eqn:Ex; [|unfold mark_failed, transition in E2; by rewrite update_series_None in E2].
  unfold mark_failed, transition in E2. rewrite (update_series_run _ _ _ _ Ex) in E2. injection E2 as _ <-.
  apply py_bind_Ok in Hrun as (snapshot & s4 & E3 & Hrun). apply py_zoom_run in E3 as (g & E3 & ->). cbn in E3. rewrite gate_of_with in E3.
  apply gate_snapshot_run in E3 as (st' & Hst' & -> & ->). rewrite lookup_insert_eq in Hst'. injection Hst' as <-.
  apply py_modify_Ok in Hrun as ->. eexists. cbn. rewrite gate_of_with, !lookup_insert_eq. done.
Qed.

(** A series whose recovery fails as often in a row as the retry policy allows, by
    raising or by reporting a failure, is FAILED in the gate and so closed for dispatch; it
    is due again after the maximum delay. *)
Theorem exhausted_series_is_closed sample x now state st (s s' : sched) r e :
  sk_states s !! x = Some state -> gate_of (sk_env s) !! x = Some st ->
  ry_maximum_attempts (sf_retry cfg) <= sd_failure_count state + 1 ->
  job_recover x (ss_generation st) (sk_env s) = (r, e) -> job_failed (ss_generation st) r ->
  run_one cfg sample x now s = (Ok tt, s') ->
  exists st', gate_of (sk_env s') !! x = Some st' /\ ss_health st' = FAILED
    /\ sd_next_due_monotonic <$> sk_states s' !! x = Some (fadd now (ry_maximum_delay_seconds (sf_retry cfg))).
Proof.
  intros Es Eg Hm Ej Hf Hrun. unfold run_one in Hrun. apply py_bind_Ok in Hrun as (state' & s1 & E1 & Hrun).
  unfold get_state in E1. rewrite Es in E1. injection E1 as <- <-. apply py_bind_Ok in Hrun as (snapshot & s2 & E2 & Hrun).
  apply py_zoom_run in E2 as (g & (st1 & Hst1 & -> & ->)%gate_snapshot_run & ->). rewrite Eg in Hst1. injection Hst1 as <-. cbv zeta in Hrun.
  apply py_bind_Ok in Hrun as (? & s3 & ->%py_modify_Ok & Hrun). apply py_bind_Ok in Hrun as (outcome & s4 & E4 & Hrun).
  unfold try_job, py_finally, py_try, run_job, py_zoom in E4. cbv [mbind py_bind mret py_ret] in E4. cbn in E4. rewrite with_gate_of, Ej in E4.
  destruct r as [result|ex]; [injection E4 as <- <-|].
  - destruct Hf as [Hgen Hsucc]. rewrite Hgen, Hsucc in Hrun. cbn [hs_reconnect_generation snapshot_of] in Hrun.
    rewrite Z.eqb_refl in Hrun. cbn [negb] in Hrun. apply record_failure_exhausted in Hrun as (st' & H1 & H2 & H3); [|done].
    exists st'. rewrite H3. done.
  - destruct (record_failure _ _ _ _ _ _ _ _) as [[[]|e1] s5] eqn:E5; [|discriminate E4]. injection E4 as <- <-.
    apply py_ret_Ok in Hrun as [_ ->]. apply record_failure_exhausted in E5 as (st' & H1 & H2 & H3); [|done].
    exists st'. cbn. rewrite H3. done.
Qed.
End scheduler.
