(* ===== verification/MarketSamples.v ===== *)
(** * Sample runs of the market pipeline

    A series of one-minute candles, a source that answers every request with the candles it
    asks for, and what becomes of recoveries and ticks with it.  The samples show that the
    theorems about recoveries and ticks apply, and where the code falls short of them. *)

From S2P Require Import Prelude Datetime Dec DecVal PyFloat FloatOrder Json Domain DerivJson Market Candles CandleProps MarketHealth.
From S2P Require Import MarketHealthProps DerivPump Backfill BackfillProps MarketScheduler SchedulerProps.

Module Samples.
Definition digest (p : payload) : string :=
  match p !! "close_time_ms", p !! "close_units" with
  | Some (JInt n), Some (JInt m) => decimal n +:+ ":" +:+ decimal m
  | _, _ => "event"
  end.

Definition series (symbol : string) : MarketSeriesId := mk_MarketSeriesId DERIV symbol symbol "DIGITS" 60 "PUBLIC_MARKET".
Definition r100 : MarketSeriesId := series "R_100".

(** The candle of the minute that opens at [60 * minute] seconds. *)
Definition moment (seconds : Z) : datetime := add_usec epoch_datetime (seconds * 1000000).
Definition minute_candle (minute : Z) : MarketCandle :=
  mk_MarketCandle DERIV "R_100" 60 (moment (minute * 60)) (moment ((minute + 1) * 60)) (mk_dec 1005 (-1)) (mk_dec 10075 (-2))
    (mk_dec 100 0) (mk_dec (10000 + minute mod 50) (-2)) true.

(** A source that answers with exactly the candles of the request. *)
Definition honest (_ : nat) (q : history_request) : reply :=
  let last := default 0 (hq_end_epoch q) / 60 in
  mk_reply [] (Ok (mk_MarketHistoryBatch "m1" "c1" "k1" [] (minute_candle <$> seqZ (last - hq_count q) (hq_count q)))).

Definition clock (_ : nat) : datetime := moment 1000000.

Definition planner : BackfillPlanner := mk_BackfillPlanner 4 2.
Definition adapter : DerivCandleAdapter := mk_DerivCandleAdapter ["R_100"] 12.
Definition coordinator (pages : Z) : coordinator := mk_coordinator planner adapter 4 (Some default_capability) pages.
Definition horizon (minute : Z) : TrustedClosedHorizon := mk_TrustedClosedHorizon (minute * 60 + 5) (minute * 60000) (float_of_Z 10).

(** A pipeline that logs what it is given and decides nothing. *)
Definition no_decision (_ : ClosedCandle) : res Z := Ok 0.

Definition empty_pipeline : pipeline (list delivery) := mk_pipeline [] ∅ no_metrics ∅ [].
Definition registered (required : Z) : pipeline (list delivery) := snd (register_recovery r100 required empty_pipeline).

(** Candles that the store already has. *)
Definition stored (minute : Z) : ClosedCandle :=
  mk_ClosedCandle DERIV "R_100" 60 (minute * 60000) ((minute + 1) * 60000) 10050 10075 10000 (10000 + minute mod 50) 100
    "DERIV_CANDLES_READ_ONLY" "m0|c0|k0|event" ((minute + 1) * 60000) ((minute + 1) * 60000).

Definition run (pages : Z) (source : nat -> history_request -> reply) (minute : Z) (s : pipeline (list delivery))
    : res BackfillJobResult * pipeline (list delivery) :=
  recover (H := logged no_decision) digest (coordinator pages) source clock (Some (horizon minute)) None r100 0 s.
End Samples.
Import Samples.

(** Nine candles are loaded in four pages, and all of them are delivered. *)
Example sample_recovery :
  let '(r, s) := run 32 honest 100 (registered 9) in
  r = Ok (mk_BackfillJobResult 0 true (Some 6000000) false MD_INITIAL_WARMUP)
  /\ (cc_open_time_ms <$> (fst <$> pp_decisions s)) = (fun m => m * 60000) <$> seqZ 91 9
  /\ mm_backfill_requests (pp_metrics s) = 4 /\ mm_backfill_duplicates (pp_metrics s) = 6.
Proof. vm_compute. split_and!; reflexivity. Qed.

(** A store that reaches the horizon with fewer candles than the warm-up needs: older ones
    are asked for, which the store refuses as out of order, again in every recovery. *)
Definition short_history : pipeline (list delivery) := (registered 5) <| pp_rows := row_of digest <$> [stored 97; stored 98; stored 99] |>.

Example short_history_never_recovers :
  let '(r1, s1) := run 32 honest 100 short_history in
  let '(r2, s2) := run 32 honest 100 s1 in
  let '(r3, s3) := run 32 honest 100 s2 in
  r1 = Ok (mk_BackfillJobResult 0 false (Some 6000000) true MD_GAP_DETECTED) /\ r2 = r1 /\ r3 = r1
  /\ pp_rows s3 = pp_rows short_history /\ ss_health <$> pp_gate s3 !! r100 = Some GAPPED.
Proof. vm_compute. split_and!; reflexivity. Qed.

(** A reconnect while the first page is under way: the recovery ends, and the gate stays closed. *)
Definition interrupted (i : nat) (q : history_request) : reply :=
  mk_reply (if Nat.eqb i 0 then [G_reconnect r100] else []) (rp_batch (honest i q)).

Example overtaken_recovery :
  let '(r, s) := run 32 interrupted 100 (registered 9) in
  r = Ok (mk_BackfillJobResult 0 false (Some 5700000) true MD_STALE_CONNECTION_RESPONSE)
  /\ ss_health <$> pp_gate s !! r100 = Some RECONNECTING /\ pp_decisions s = [].
Proof. vm_compute. split_and!; reflexivity. Qed.

Lemma successful_recovery_is_continuous_witness :
  exists r s', run 32 honest 100 (registered 9) = (Ok r, s') /\ jr_success r = true /\
    exists h required, Some (horizon 100) = Some h /\ pp_configs (registered 9) !! r100 = Some required
      /\ recovered digest r100 0 required h s'.
Proof.
  destruct (run 32 honest 100 (registered 9)) as [r s'] eqn:E.
  assert (r = Ok (mk_BackfillJobResult 0 true (Some 6000000) false MD_INITIAL_WARMUP)) as ->.
  { pose proof (f_equal fst E) as E1. cbn [fst] in E1. rewrite <- E1. vm_compute. reflexivity. }
  eexists _, s'. split; [reflexivity|]. split; [reflexivity|].
  apply (successful_recovery_is_continuous (H := logged no_decision) digest (coordinator 32) honest clock (Some (horizon 100)) None r100 0
           (registered 9) s' _ E). reflexivity.
Defined.

Lemma dispatched_candles_are_durable_witness :
  exists ds, pp_decisions (snd (run 32 honest 100 (registered 9))) = [] ++ ((fun c => (c, false)) <$> ds) /\ length ds = 9%nat.
Proof.
  destruct (run 32 honest 100 (registered 9)) as [r s'] eqn:E.
  destruct (dispatched_candles_are_durable digest no_decision (coordinator 32) honest clock (Some (horizon 100)) None r100 0
              (registered 9) s' r E) as (ds & Hd & _).
  exists ds. split; [exact Hd|].
  assert (length (pp_decisions s') = 9%nat) as Hn.
  { pose proof (f_equal (fun x => length (pp_decisions (snd x))) E) as E1. cbn [snd] in E1. rewrite <- E1. vm_compute. reflexivity. }
  rewrite Hd, length_app, length_fmap in Hn. exact Hn.
Defined.

Lemma one_page_never_recovers_sample : exists r s', run 1 honest 100 (registered 3) = (Ok r, s') /\ jr_success r = false.
Proof.
  destruct (run 1 honest 100 (registered 3)) as [[r|e] s'] eqn:E.
  - exists r, s'. split; [reflexivity|].
    apply (one_page_never_recovers (H := logged no_decision) digest (coordinator 1) honest clock (Some (horizon 100)) None r100 0
             (registered 3) s' (mk_SeriesState INITIALIZING MD_INITIAL_WARMUP 3 0 None None 0 false 0) 3); try done; try exact E; vm_compute; reflexivity.
  - pose proof (f_equal fst E) as E1. exfalso. revert E1. vm_compute. discriminate.
Defined.

(** ** The gate and the planner *)

Definition gate_history : list gate_call :=
  [G_register r100 3; G_gap r100; G_reconnect r100; G_complete r100 0 true true 5 None None; G_complete r100 1 true true 5 (Some 6000000) None;
   G_complete r100 0 false false 0 None None].

Lemma dispatch_needs_current_recovery_witness :
  exists snapshot before durable last_close last_source_event after,
    hs_dispatch_allowed snapshot = true
    /\ gate_history = before ++ G_complete r100 (hs_reconnect_generation snapshot) true true durable last_close last_source_event :: after.
Proof.
  destruct (gate_snapshot r100 (run_calls gate_history ∅)) as [r g] eqn:E.
  assert (exists snapshot, r = Ok snapshot /\ hs_dispatch_allowed snapshot = true) as (snapshot & -> & Hd).
  { pose proof (f_equal fst E) as E1. cbn [fst] in E1. rewrite <- E1. eexists. split; [vm_compute; reflexivity|reflexivity]. }
  destruct (dispatch_needs_current_recovery gate_history r100 snapshot g E Hd) as (before & d & lc & le & after & Hh & _).
  exists snapshot, before, d, lc, le, after. split; [exact Hd|exact Hh].
Defined.

Lemma plan_joins_on_witness : exists b, plan planner r100 0 (horizon 100) (Some 5400000) 7 9 false = Ok (Some b) /\ bp_start_close_epoch_ms b <= 5400000 < bp_end_close_epoch_ms b.
Proof.
  assert (exists b, plan planner r100 0 (horizon 100) (Some 5400000) 7 9 false = Ok (Some b)) as [b E] by (eexists; vm_compute; reflexivity).
  exists b. split; [exact E|]. assert (1 <= pl_backfill_overlap_candles planner <= pl_max_candles_per_batch planner) as H1 by (simpl; lia).
  assert (0 < si_timeframe_seconds r100) as H2 by (simpl; lia).
  apply (plan_joins_on planner r100 H1 H2 0 (horizon 100) 5400000 7 9 false b E). simpl. lia.
Defined.

(** ** The scheduler *)

Module Ticks.
Definition easy_job : BackfillJob (pipeline unit) := fun x gen =>
  ok ← on_gate (complete_recovery x gen true true 5 None None); mret (mk_BackfillJobResult gen ok None (negb ok) MD_INITIAL_WARMUP).

(** The recovery of B raises. *)
Definition broken_job : BackfillJob (pipeline unit) := fun x gen =>
  if String.eqb (si_broker_symbol x) "B" then py_raise (RuntimeError "no history") else easy_job x gen.

Definition retry : ReadOnlyBackfillRetryPolicy :=
  mk_ReadOnlyBackfillRetryPolicy 4 (float_of_Z 1) (float_of_Z 2) (float_of_Z 30) (float_of_ratio 1 5).
Definition power (x : float) (n : Z) : res float := Ok (Nat.iter (Z.to_nat n) (fmul x) (float_of_Z 1)).
Definition config : scheduler_config := mk_scheduler_config (float_of_Z 30) (float_of_Z 300) 2 retry power.
Definition half (_ : MarketSeriesId) : float := float_of_ratio 1 2.

Definition names : list MarketSeriesId := [series "A"; series "B"; series "C"].
Definition gate : MarketHealthGate := run_calls ((fun x => G_register x 1) <$> names) ∅.
Definition at_start : scheduler (pipeline unit) :=
  snd (py_for (fun x => schedule_series (float_of_Z 0) x None (float_of_Z 0)) names
         (mk_scheduler ∅ [] 0 ∅ None (mk_pipeline [] gate no_metrics ∅ tt))).

(** What the ticks at the given seconds run. *)
Definition ticks (job : BackfillJob (pipeline unit)) (seconds : list Z) : py (scheduler (pipeline unit)) (list (list MarketSeriesId)) :=
  py_map (fun t => tick (H0 := job) config half (float_of_Z t)) seconds.
End Ticks.
Import Ticks.

(** Three series, a tick every thirty seconds and room for two recoveries: the third series
    is due at every tick and never runs. *)
Example third_series_starves :
  let '(r, s) := ticks easy_job [0; 30; 60; 90; 120; 150] at_start in
  r = Ok (replicate 6 [series "A"; series "B"]) /\ sd_last_attempt_monotonic <$> sk_states s !! series "C" = Some None.
Proof. vm_compute. split; reflexivity. Qed.

(** The recovery of B raises at every tick; A still runs, and B is closed after four failures. *)
Example failing_series_is_closed :
  let '(r, s) := ticks broken_job [0; 30; 60; 90] at_start in
  r = Ok (replicate 4 [series "A"; series "B"])
  /\ ss_health <$> gate_of (sk_env s) !! series "A" = Some HEALTHY /\ ss_health <$> gate_of (sk_env s) !! series "B" = Some FAILED.
Proof. vm_compute. split_and!; reflexivity. Qed.

Lemma start_ready : ready names ∅ at_start.
Proof.
  split.
  - vm_compute. reflexivity.
  - vm_compute. reflexivity.
  - intros x Hx. repeat (apply elem_of_cons in Hx as [->|Hx]; [vm_compute; eauto|]). inversion Hx.
  - intros x Hx. repeat (apply elem_of_cons in Hx as [->|Hx]; [vm_compute; eauto|]). inversion Hx.
  - apply map_Forall_to_list. vm_compute. repeat constructor; discriminate.
Qed.

Lemma broken_job_keeps x gen e r e' :
  broken_job x gen e = (r, e') -> forall y, is_Some (gate_of e !! y) -> is_Some (gate_of e' !! y).
Proof.
  unfold broken_job. destruct (String.eqb _ _); [by intros [= <- <-]|]. unfold easy_job. rewrite py_bind_run.
  intros Hrun. pose proof (complete_recovery_keeps (P := unit) x gen true true 5 None None e) as Hk. unfold keeps_gate in Hk.
  destruct (on_gate _ e) as [[ok|ex] e1]; injection Hrun as _ <-; exact Hk.
Qed.

Lemma tick_survives_failing_jobs_witness :
  exists s1 s' : scheduler (pipeline unit), ready names ∅ s1 /\ ready names ∅ s' /\
    let due := List.filter (is_due s1 (float_of_Z 0)) (drop (sk_cursor s1) names ++ take (sk_cursor s1) names) in
    tick (H0 := broken_job) config half (float_of_Z 0) at_start = (Ok (take 2 due), s').
Proof.
  assert (forall n, exists f, sf_fpow config (ry_multiplier (sf_retry config)) n = Ok f) as H1 by (intros n; eexists; reflexivity).
  assert (forall x, fair_sample (half x)) as H2 by (intros x; vm_compute; reflexivity).
  exact (tick_survives_failing_jobs (H0 := broken_job) config H1 broken_job_keeps names half (float_of_Z 0) at_start start_ready H2).
Defined.

(** B before its fourth failure. *)
Definition before_last : scheduler (pipeline unit) := snd (ticks broken_job [0; 30; 60] at_start).

Lemma exhausted_series_is_closed_witness :
  exists st (s' : scheduler (pipeline unit)), gate_of (sk_env s') !! series "B" = Some st /\ ss_health st = FAILED.
Proof.
  destruct (run_one (H0 := broken_job) config (half r100) (series "B") (float_of_Z 90) before_last) as [r s'] eqn:E.
  assert (r = Ok tt) as ->. { pose proof (f_equal fst E) as E1. cbn [fst] in E1. rewrite <- E1. vm_compute. reflexivity. }
  destruct (sk_states before_last !! series "B") as [state|] eqn:Es; [|exfalso; revert Es; vm_compute; discriminate].
  destruct (gate_of (sk_env before_last) !! series "B") as [st|] eqn:Eg; [|exfalso; revert Eg; vm_compute; discriminate].
  assert (ry_maximum_attempts (sf_retry config) <= sd_failure_count state + 1) as Hm.
  { assert (sd_failure_count <$> sk_states before_last !! series "B" = Some 3) as E1 by (vm_compute; reflexivity).
    rewrite Es in E1. injection E1 as E1. rewrite E1. vm_compute. discriminate. }
  destruct (exhausted_series_is_closed (H0 := broken_job) config (half r100) (series "B") (float_of_Z 90) state st before_last s'
              (Err (RuntimeError "no history")) (sk_env before_last) Es Eg Hm eq_refl I E) as (st' & H1 & H2 & _).
  exists st', s'. split; [exact H1|exact H2].
Defined.
