(* ===== verification/LiveCandles.v ===== *)
(** * Candles from live ticks

    The class [ClosedCandleAggregator] of [packages/market_pipeline/live.py], and that the
    candle it closes sums up exactly the ticks it accepted for that candle. *)

From S2P Require Import Prelude Datetime Dec DecVal PyFloat Json Domain DerivJson IqValues Market Candles CandleProps MarketHealth DerivPump.

Inductive LiveAggregationStatus : Type := LA_ACCUMULATED | LA_CLOSED | LA_DUPLICATE | LA_OUT_OF_ORDER | LA_GAPPED.

#[export] Instance LiveAggregationStatus_eq_dec : EqDecision LiveAggregationStatus.
Proof. solve_decision. Defined.

Record LiveAggregationResult : Type := mk_LiveAggregationResult {
  la_status : LiveAggregationStatus; la_candle : option ClosedCandle; la_reason_code : string
}.

Record OpenBucket : Type := mk_OpenBucket {
  ob_open_epoch : Z; ob_open_units : Z; ob_high_units : Z; ob_low_units : Z; ob_close_units : Z; ob_first_tick_epoch : Z;
  ob_last_tick_epoch : Z; ob_subscription_id : string
}.

#[export] Instance OpenBucket_eta : Eta OpenBucket := fun b =>
  mk_OpenBucket (ob_open_epoch b) (ob_open_units b) (ob_high_units b) (ob_low_units b) (ob_close_units b) (ob_first_tick_epoch b)
    (ob_last_tick_epoch b) (ob_subscription_id b).

(** What makes a tick a repetition: quotes are compared as numbers. *)
Definition tick_identity : Type := Z * dec * string.
Definition identity_eqb (a b : tick_identity) : bool :=
  let '(e1, q1, s1) := a in let '(e2, q2, s2) := b in (e1 =? e2) && dec_eqb q1 q2 && String.eqb s1 s2.

Record ClosedCandleAggregator : Type := mk_ClosedCandleAggregator {
  ag_series : MarketSeriesId; ag_price_scale : Z; ag_bucket : option OpenBucket; ag_max_seen_ticks : Z;
  ag_seen : list tick_identity; ag_seen_order : list tick_identity
}.

#[export] Instance ClosedCandleAggregator_eta : Eta ClosedCandleAggregator := fun a =>
  mk_ClosedCandleAggregator (ag_series a) (ag_price_scale a) (ag_bucket a) (ag_max_seen_ticks a) (ag_seen a) (ag_seen_order a).

Definition new_ClosedCandleAggregator (series : MarketSeriesId) (price_scale max_seen_ticks : Z) : res ClosedCandleAggregator :=
  _ ← guard_res ((0 <? price_scale) && (0 <? max_seen_ticks)) (ValueError "live candle price scale must be positive");
  Ok (mk_ClosedCandleAggregator series price_scale None max_seen_ticks [] []).

(** [self._seen.discard(x)] and [self._seen.add(x)] *)
Definition seen_discard (x : tick_identity) (l : list tick_identity) : list tick_identity := List.filter (fun y => negb (identity_eqb x y)) l.
Definition seen_add (x : tick_identity) (l : list tick_identity) : list tick_identity := if existsb (identity_eqb x) l then l else l ++ [x].

(** [_remember] *)
Definition remember (x : tick_identity) (a : ClosedCandleAggregator) : ClosedCandleAggregator :=
  let a := if ag_max_seen_ticks a <=? Z.of_nat (length (ag_seen_order a)) then
             match ag_seen_order a with
             | [] => a
             | y :: rest => a <| ag_seen ::= seen_discard y |> <| ag_seen_order := rest |>
             end
           else a in
  a <| ag_seen ::= seen_add x |> <| ag_seen_order ::= fun l => l ++ [x] |>.

(** [int(d.to_integral_value())] *)
Definition to_integral (d : dec) : Z :=
  if 0 <=? dexp d then coef d * 10 ^ dexp d else round_div ROUND_HALF_EVEN (coef d) (10 ^ (- dexp d)).

(** [_units] *)
Definition tick_units (price_scale : Z) (quote : dec) : res Z :=
  let scaled := dec_mul prec quote (dec_of_Z price_scale) in
  _ ← guard_res (dec_eqb scaled (dec_of_Z (to_integral scaled))) (ValueError "live tick precision exceeds configured price scale");
  Ok (to_integral scaled).

Definition new_bucket (bucket_open units : Z) (t : MarketTick) : OpenBucket :=
  mk_OpenBucket bucket_open units units units units (mt_epoch t) (mt_epoch t) (mt_subscription_id t).

(** [_epoch_ms] *)
Definition live_epoch_ms (d : datetime) : res Z :=
  match dt_offset d with None => Err (ValueError "live tick received_at must be timezone-aware") | Some _ => Ok (epoch_ms d) end.

(** [_close] *)
Definition close_bucket (a : ClosedCandleAggregator) (b : OpenBucket) (evidence_tick : MarketTick) : res ClosedCandle :=
  let timeframe := si_timeframe_seconds (ag_series a) in
  let close_ms := (ob_open_epoch b + timeframe) * 1000 in
  received_ms ← live_epoch_ms (mt_received_at evidence_tick);
  ClosedCandle_post_init
    (mk_ClosedCandle (si_broker (ag_series a)) (si_broker_symbol (ag_series a)) timeframe (ob_open_epoch b * 1000) close_ms
       (ob_open_units b) (ob_high_units b) (ob_low_units b) (ob_close_units b) (ag_price_scale a) "DERIV_TICKS_READ_ONLY"
       (ob_subscription_id b +:+ "|" +:+ encode_int (ob_first_tick_epoch b) "" +:+ "|" +:+ encode_int (ob_last_tick_epoch b) "")
       close_ms received_ms).

Definition bucket_open_of (a : ClosedCandleAggregator) (t : MarketTick) : Z :=
  let timeframe := si_timeframe_seconds (ag_series a) in (mt_epoch t / timeframe) * timeframe.

(** The update of a bucket with a further tick. *)
Definition accumulate (units : Z) (t : MarketTick) (b : OpenBucket) : OpenBucket :=
  b <| ob_high_units ::= fun h => Z.max h units |> <| ob_low_units ::= fun l => Z.min l units |> <| ob_close_units := units |>
    <| ob_last_tick_epoch := mt_epoch t |>.

(** [ingest] once the tick is remembered and its units are known. *)
Definition place_tick (units : Z) (t : MarketTick) : py ClosedCandleAggregator LiveAggregationResult := fun a =>
  let timeframe := si_timeframe_seconds (ag_series a) in
  let bucket_open := bucket_open_of a t in
  match ag_bucket a with
  | None =>
      (Ok (mk_LiveAggregationResult LA_ACCUMULATED None "LIVE_CANDLE_STARTED"), a <| ag_bucket := Some (new_bucket bucket_open units t) |>)
  | Some current =>
      if (bucket_open <? ob_open_epoch current) || (mt_epoch t <? ob_last_tick_epoch current) then
        (Ok (mk_LiveAggregationResult LA_OUT_OF_ORDER None "LIVE_TICK_OUT_OF_ORDER"), a)
      else if bucket_open =? ob_open_epoch current then
        (Ok (mk_LiveAggregationResult LA_ACCUMULATED None "LIVE_CANDLE_UPDATED"), a <| ag_bucket := Some (accumulate units t current) |>)
      else
        match close_bucket a current t with
        | Err e => (Err e, a)
        | Ok candle =>
            (Ok (if negb (bucket_open =? ob_open_epoch current + timeframe)
                 then mk_LiveAggregationResult LA_GAPPED (Some candle) "LIVE_CANDLE_GAP"
                 else mk_LiveAggregationResult LA_CLOSED (Some candle) "LIVE_CANDLE_CLOSED"),
             a <| ag_bucket := Some (new_bucket bucket_open units t) |>)
        end
  end.

Definition identity_of_tick (t : MarketTick) : tick_identity := (mt_epoch t, mt_quote t, mt_subscription_id t).

(** [ingest] *)
Definition ingest_tick (t : MarketTick) : py ClosedCandleAggregator LiveAggregationResult := fun a =>
  if negb (bool_decide (mt_broker t = si_broker (ag_series a)) && String.eqb (mt_broker_symbol t) (si_broker_symbol (ag_series a))) then
    (Err (ValueError "live tick does not match aggregator series"), a)
  else if existsb (identity_eqb (identity_of_tick t)) (ag_seen a) then
    (Ok (mk_LiveAggregationResult LA_DUPLICATE None "LIVE_TICK_DUPLICATE"), a)
  else
    let a := remember (identity_of_tick t) a in
    match tick_units (ag_price_scale a) (mt_quote t) with
    | Err e => (Err e, a)
    | Ok units => place_tick units t a
    end.

Definition reset_aggregator (a : ClosedCandleAggregator) : ClosedCandleAggregator :=
  a <| ag_bucket := None |> <| ag_seen := [] |> <| ag_seen_order := [] |>.

(** ** A candle sums up its ticks *)

(** Ticks with what [ingest] returned or raised, in order. *)
Definition entry : Type := MarketTick * res LiveAggregationResult.

Fixpoint feed (ts : list MarketTick) (a : ClosedCandleAggregator) : list entry * ClosedCandleAggregator :=
  match ts with
  | [] => ([], a)
  | t :: ts => let '(r, a) := ingest_tick t a in let '(h, a) := feed ts a in ((t, r) :: h, a)
  end.

Definition is_accepted (e : entry) : bool :=
  match snd e with
  | Ok r => match la_status r with LA_ACCUMULATED | LA_CLOSED | LA_GAPPED => true | _ => false end
  | Err _ => false
  end.

Section ticks.
Variables (tf scale : Z).

Definition bucket_of (t : MarketTick) : Z := (mt_epoch t / tf) * tf.

(** The ticks of a history that were accepted for the candle that opens at [o]. *)
Definition bucket_ticks (o : Z) (h : list entry) : list MarketTick :=
  fst <$> List.filter (fun e => is_accepted e && (bucket_of (fst e) =? o)) h.

Definition price (t : MarketTick) : Z := match tick_units scale (mt_quote t) with Ok u => u | Err _ => 0 end.

(** The first price, the highest, the lowest and the last. *)
Record sums_up (ts : list MarketTick) (first high low final : Z) : Prop := mk_sums_up {
  su_first : head (price <$> ts) = Some first;
  su_last : last (price <$> ts) = Some final;
  su_high : high ∈ price <$> ts /\ Forall (fun p => p <= high) (price <$> ts);
  su_low : low ∈ price <$> ts /\ Forall (fun p => low <= p) (price <$> ts)
}.

Lemma sums_up_one t : sums_up [t] (price t) (price t) (price t) (price t).
Proof. split; simpl; [done|done|split; [left|by repeat constructor]|split; [left|by repeat constructor]]. Qed.

Lemma prices_snoc ts t : price <$> (ts ++ [t]) = (price <$> ts) ++ [price t].
Proof. by rewrite fmap_app. Qed.

Lemma sums_up_snoc ts o h l c t : sums_up ts o h l c -> sums_up (ts ++ [t]) o (Z.max h (price t)) (Z.min l (price t)) (price t).
Proof.
  intros [Hf Hl [Hh1 Hh2] [Hl1 Hl2]]. rewrite Forall_forall in Hh2, Hl2. split.
  - rewrite prices_snoc. destruct ts as [|x ts]; [done|]. exact Hf.
  - rewrite prices_snoc. apply last_snoc.
  - rewrite prices_snoc. split.
    + apply elem_of_app. destruct (Z.max_spec h (price t)) as [[_ ->]|[_ ->]]; [right; left|by left].
    + apply Forall_app. rewrite Forall_singleton, Forall_forall. split; [intros p Hp; specialize (Hh2 p Hp); lia|lia].
  - rewrite prices_snoc. split.
    + apply elem_of_app. destruct (Z.min_spec l (price t)) as [[_ ->]|[_ ->]]; [by left|right; left].
    + apply Forall_app. rewrite Forall_singleton, Forall_forall. split; [intros p Hp; specialize (Hl2 p Hp); lia|lia].
Qed.

Lemma bucket_ticks_snoc o h t r :
  bucket_ticks o (h ++ [(t, r)]) = bucket_ticks o h ++ (if is_accepted (t, r) && (bucket_of t =? o) then [t] else []).
Proof. unfold bucket_ticks. rewrite List.filter_app, fmap_app. simpl. by destruct (_ && _). Qed.

(** The candle of a bucket. *)
Definition candle_of_bucket (o : Z) (h : list entry) (c : ClosedCandle) : Prop :=
  cc_open_time_ms c = o * 1000 /\ cc_close_time_ms c = (o + tf) * 1000
  /\ sums_up (bucket_ticks o h) (cc_open_units c) (cc_high_units c) (cc_low_units c) (cc_close_units c).

(** The history [h] of an aggregator [a]. *)
Record fed (h : list entry) (a : ClosedCandleAggregator) : Prop := mk_fed {
  fe_config : si_timeframe_seconds (ag_series a) = tf /\ ag_price_scale a = scale;
  fe_open : match ag_bucket a with
            | None => Forall (fun e => is_accepted e = false) h
            | Some b =>
                sums_up (bucket_ticks (ob_open_epoch b) h) (ob_open_units b) (ob_high_units b) (ob_low_units b) (ob_close_units b)
                /\ Forall (fun e => is_accepted e = true -> bucket_of (fst e) <= ob_open_epoch b) h
            end;
  fe_candles : forall t r c, (t, Ok r) ∈ h -> la_candle r = Some c ->
    exists o b, ag_bucket a = Some b /\ o < ob_open_epoch b /\ candle_of_bucket o h c
}.

(** An entry that is not accepted changes no bucket and no candle. *)
Lemma fed_refused h a a' t r :
  fed h a -> is_accepted (t, r) = false -> (forall x, r = Ok x -> la_candle x = None) ->
  ag_bucket a' = ag_bucket a -> ag_series a' = ag_series a -> ag_price_scale a' = ag_price_scale a -> fed (h ++ [(t, r)]) a'.
Proof.
  intros [Hc Ho Hd] Hr Hn Eb Es Ep. split.
  - by rewrite Es, Ep.
  - rewrite Eb. destruct (ag_bucket a) as [b|].
    + rewrite bucket_ticks_snoc, Hr. cbn [andb]. rewrite app_nil_r. destruct Ho as [Ho1 Ho2]. split; [done|].
      apply Forall_app. split; [done|]. constructor; [by rewrite Hr|constructor].
    + apply Forall_app. by rewrite Forall_singleton.
  - intros t' r' c' Hin Hcand. rewrite elem_of_app, list_elem_of_singleton in Hin. destruct Hin as [Hin|[= -> <-]].
    + destruct (Hd t' r' c' Hin Hcand) as (o & b & E & Hlt & H1 & H2 & H3). exists o, b. rewrite Eb. split_and!; try done.
      split_and!; try done. rewrite bucket_ticks_snoc, Hr. cbn [andb]. by rewrite app_nil_r.
    + by rewrite (Hn r' eq_refl) in Hcand.
Qed.

Lemma remember_same x a :
  ag_bucket (remember x a) = ag_bucket a /\ ag_series (remember x a) = ag_series a /\ ag_price_scale (remember x a) = ag_price_scale a.
Proof. unfold remember. destruct (_ <=? _); [|done]. by destruct (ag_seen_order a). Qed.

(** The candles so far stay as they are when a tick is accepted for the open bucket or a
    later one. *)
Lemma candles_stay h t r o b c :
  o < ob_open_epoch b -> ob_open_epoch b <= bucket_of t -> candle_of_bucket o h c -> candle_of_bucket o (h ++ [(t, r)]) c.
Proof.
  intros Hlt Hle (H1 & H2 & H3). split_and!; try done. rewrite bucket_ticks_snoc.
  rewrite (proj2 (Z.eqb_neq (bucket_of t) o)) by lia. by rewrite andb_false_r, app_nil_r.
Qed.

(** The first tick of a bucket. *)
Lemma fresh_bucket h t r :
  is_accepted (t, r) = true -> Forall (fun e => is_accepted e = true -> bucket_of (fst e) < bucket_of t) h ->
  sums_up (bucket_ticks (bucket_of t) (h ++ [(t, r)])) (price t) (price t) (price t) (price t).
Proof.
  intros Hr Hh. rewrite bucket_ticks_snoc, Hr, Z.eqb_refl. cbn [andb].
  assert (bucket_ticks (bucket_of t) h = []) as ->; [|apply sums_up_one].
  unfold bucket_ticks. induction Hh as [|e h He Hh IH]; [done|]. simpl. destruct (is_accepted e); cbn [andb]; [|done].
  specialize (He eq_refl). rewrite (proj2 (Z.eqb_neq _ _)) by lia. done.
Qed.

Lemma earlier_snoc h t r o :
  Forall (fun e => is_accepted e = true -> bucket_of (fst e) <= o) h -> o <= bucket_of t ->
  Forall (fun e => is_accepted e = true -> bucket_of (fst e) <= bucket_of t) (h ++ [(t, r)]).
Proof.
  intros Hh Ho. apply Forall_app. split; [|constructor; [simpl; lia|constructor]].
  eapply Forall_impl; [exact Hh|]. intros e He Ha. specialize (He Ha). simpl in *. lia.
Qed.

Lemma close_bucket_fields a b t c :
  si_timeframe_seconds (ag_series a) = tf -> close_bucket a b t = Ok c ->
  cc_open_time_ms c = ob_open_epoch b * 1000 /\ cc_close_time_ms c = (ob_open_epoch b + tf) * 1000
  /\ cc_open_units c = ob_open_units b /\ cc_high_units c = ob_high_units b /\ cc_low_units c = ob_low_units b
  /\ cc_close_units c = ob_close_units b /\ valid_candle c.
Proof.
  intros Htf H. unfold close_bucket in H. apply res_bind_Ok in H as (received & _ & H). rewrite Htf in H.
  set (c' := mk_ClosedCandle _ _ _ _ _ _ _ _ _ _ _ _ _ _) in H.
  assert (c = c') as ->; [|done]. unfold ClosedCandle_post_init in H. repeat (apply res_bind_Ok in H as (? & _ & H)). by injection H as <-.
Qed.

Lemma place_tick_fed h a t r a' :
  fed h a -> tick_units scale (mt_quote t) = Ok (price t) -> place_tick (price t) t a = (r, a') -> fed (h ++ [(t, r)]) a'.
Proof.
  intros F Hu. pose proof F as [[Htf Hsc] Ho Hd]. unfold place_tick, bucket_open_of. rewrite Htf. fold (bucket_of t).
  destruct (ag_bucket a) as [b|] eqn:Eb.
  2:{ intros [= <- <-]. split; [done| |].
      - cbn. split; [|apply (earlier_snoc _ _ _ (bucket_of t)); [|lia]]; [apply fresh_bucket; [done|]|];
          (eapply Forall_impl; [exact Ho|]; intros e He; cbn beta; rewrite He; done).
      - intros t' r' c Hin Hc. rewrite elem_of_app, list_elem_of_singleton in Hin. destruct Hin as [Hin|[= -> ->]]; [|done].
        by destruct (Hd t' r' c Hin Hc) as (? & ? & ? & _). }
  destruct Ho as [Hs Hle]. destruct (_ || _) eqn:Eo.
  { intros [= <- <-]. apply (fed_refused h a); try done. by intros x [= <-]. }
  apply orb_false_iff in Eo as [Eo1%Z.ltb_ge _]. destruct (Z.eqb_spec (bucket_of t) (ob_open_epoch b)) as [E|Hne].
  - intros [= <- <-]. split; [done| |].
    + cbn. rewrite <- E. split; [|by apply (earlier_snoc _ _ _ (bucket_of t)); [rewrite E|lia]].
      rewrite bucket_ticks_snoc, Z.eqb_refl. cbn [is_accepted snd la_status andb]. rewrite E. by eapply sums_up_snoc.
    + intros t' r' c Hin Hc. rewrite elem_of_app, list_elem_of_singleton in Hin. destruct Hin as [Hin|[= -> ->]]; [|done].
      destruct (Hd t' r' c Hin Hc) as (o & b' & [= <-] & Hlt & Hcb). exists o, (accumulate (price t) t b). split_and!; try done.
      by apply (candles_stay _ _ _ o b).
  - destruct (close_bucket a b t) as [c|e] eqn:Ec.
    2:{ intros [= <- <-]. by apply (fed_refused h a). }
    intros [= <- <-]. apply close_bucket_fields in Ec as (C1 & C2 & C3 & C4 & C5 & C6 & _); [|done]. split; [done| |].
    + cbn. split; [|apply (earlier_snoc _ _ _ (ob_open_epoch b)); [done|lia]].
      apply fresh_bucket; [by destruct (negb _)|]. eapply Forall_impl; [exact Hle|]. intros e He Ha. specialize (He Ha). simpl in *. lia.
    + intros t' r' c' Hin Hc. rewrite elem_of_app, list_elem_of_singleton in Hin. destruct Hin as [Hin|[= -> ->]].
      * destruct (Hd t' r' c' Hin Hc) as (o & b' & [= <-] & Hlt & Hcb). eexists o, _. split; [done|]. split; [cbn; lia|].
        by apply (candles_stay _ _ _ o b).
      * assert (c' = c) as -> by (by destruct (negb _); injection Hc as <-). eexists (ob_open_epoch b), _. split; [done|]. split; [cbn; lia|].
        split_and!; [done|done|]. rewrite bucket_ticks_snoc, (proj2 (Z.eqb_neq _ _) Hne), andb_false_r, app_nil_r. by rewrite C3, C4, C5, C6.
Qed.

Lemma ingest_tick_fed h a t r a' : fed h a -> ingest_tick t a = (r, a') -> fed (h ++ [(t, r)]) a'.
Proof.
  intros F. unfold ingest_tick. destruct (negb _); [intros [= <- <-]; by apply (fed_refused h a)|].
  destruct (existsb _ _); [intros [= <- <-]; apply (fed_refused h a); try done; by intros x [= <-]|].
  destruct (remember_same (identity_of_tick t) a) as (Eb & Es & Ep). cbv zeta. rewrite Ep, (proj2 (fe_config _ _ F)).
  assert (fed h (remember (identity_of_tick t) a)) as F'.
  { destruct F as [Hc Ho Hd]. split; [by rewrite Es, Ep|by rewrite Eb|by rewrite Eb]. }
  destruct (tick_units scale (mt_quote t)) as [u|e] eqn:Eu; [|intros [= <- <-]; by apply (fed_refused h (remember (identity_of_tick t) a))].
  assert (u = price t) as -> by (unfold price; by rewrite Eu). by apply place_tick_fed.
Qed.

Lemma feed_fed ts h0 a h a' : fed h0 a -> feed ts a = (h, a') -> fed (h0 ++ h) a'.
Proof.
  revert h0 a h. induction ts as [|t ts IH]; intros h0 a h F H; cbn [feed] in H.
  { injection H as <- <-. by rewrite app_nil_r. }
  destruct (ingest_tick t a) as [r a1] eqn:Ei. destruct (feed ts a1) as [h1 a2] eqn:Ef. injection H as <- <-.
  pose proof (IH (h0 ++ [(t, r)]) a1 h1 (ingest_tick_fed _ _ _ _ _ F Ei) Ef) as Hf. by rewrite <- app_assoc in Hf.
Qed.
End ticks.

(** C32: Whatever ticks arrive, in whatever order and with whatever repetitions, a candle
    that the aggregator closes sums up exactly the ticks of the whole run that were
    accepted for its interval: it opens with the first price, closes with the last, and its
    high and low are the highest and the lowest; every one of these ticks lies in the
    interval. *)
Theorem candle_sums_up_its_ticks series scale max_seen ts h a t r c :
  0 < si_timeframe_seconds series ->
  feed ts (mk_ClosedCandleAggregator series scale None max_seen [] []) = (h, a) -> (t, Ok r) ∈ h -> la_candle r = Some c ->
  exists o, candle_of_bucket (si_timeframe_seconds series) scale o h c
    /\ Forall (fun t => cc_open_time_ms c <= mt_epoch t * 1000 < cc_close_time_ms c) (bucket_ticks (si_timeframe_seconds series) o h).
Proof.
  intros Htf Hf Hin Hc. eapply (feed_fed (si_timeframe_seconds series) scale ts []) in Hf as [_ _ Hd].
  2:{ split; [done|by constructor|]. intros t' r' c' He. inversion He. }
  destruct (Hd t r c Hin Hc) as (o & b & _ & _ & Hcb). exists o. split; [done|]. destruct Hcb as (-> & -> & _).
  apply Forall_forall. intros t' (e & -> & He)%list_elem_of_fmap. apply list_elem_of_In, filter_In in He as [_ [_ Hb%Z.eqb_eq]%andb_true_iff].
  unfold bucket_of in Hb. pose proof (Z.div_mod (mt_epoch (fst e)) (si_timeframe_seconds series)).
  pose proof (Z.mod_pos_bound (mt_epoch (fst e)) (si_timeframe_seconds series) Htf). nia.
Qed.
