(* ===== verification/LiveRuntime.v ===== *)
(** * The live runtime of a series

    The class [ContinuousShadowRuntime] of [packages/market_pipeline/live.py]: ticks are
    polled from a source, closed candles are stored and handed to the decision pipeline, and
    a disconnect, a silence or a disorder closes the series until it has recovered.  The
    source, the clock and the job of the scheduler are classes over a state of their own;
    the fingerprint and its reference are arguments. *)

From S2P Require Import Prelude Datetime Dec PyFloat Json Domain Market Candles MarketHealth DerivPump Backfill MarketScheduler LiveCandles.

Class LiveTickSource (T : Type) := {
  subscribe_market_ticks : string -> py T MarketTick;
  receive_market_tick : float -> py T (option MarketTick);
  unsubscribe_market_ticks : string -> py T bool
}.

Class MonotonicClock (T : Type) := clock_now : py T float.

Record ShadowDecisionFingerprint : Type := mk_ShadowDecisionFingerprint {
  sf_final_hash : string; sf_signal_count : Z; sf_decision_count : Z
}.

#[export] Instance ShadowDecisionFingerprint_eq_dec : EqDecision ShadowDecisionFingerprint.
Proof. solve_decision. Defined.

Definition ShadowDecisionFingerprint_post_init (f : ShadowDecisionFingerprint) : res ShadowDecisionFingerprint :=
  _ ← guard_res (Nat.eqb (String.length (sf_final_hash f)) 64) (ValueError "shadow fingerprint requires a SHA-256 hash");
  _ ← guard_res ((0 <=? sf_signal_count f) && (0 <=? sf_decision_count f)) (ValueError "shadow fingerprint counts cannot be negative");
  Ok f.

(** The fields that the methods write, and the objects they share. *)
Record live (P T : Type) : Type := mk_live {
  lv_sched : scheduler (pipeline P); lv_aggregator : ClosedCandleAggregator; lv_subscription_id : option string;
  lv_last_tick_at : option float; lv_world : T
}.
#[global] Arguments mk_live {P T}.
#[global] Arguments lv_sched {P T}.
#[global] Arguments lv_aggregator {P T}.
#[global] Arguments lv_subscription_id {P T}.
#[global] Arguments lv_last_tick_at {P T}.
#[global] Arguments lv_world {P T}.

#[export] Instance live_eta P T : Eta (live P T) := fun s =>
  mk_live (lv_sched s) (lv_aggregator s) (lv_subscription_id s) (lv_last_tick_at s) (lv_world s).

(** What a runtime is constructed with. *)
Record runtime_config (P : Type) : Type := mk_runtime_config {
  rc_series : MarketSeriesId; rc_scheduler : scheduler_config; rc_capability : ExecutionCapabilityGate;
  rc_fingerprint : option (P -> res ShadowDecisionFingerprint); rc_reference : option (Z -> option ShadowDecisionFingerprint);
  rc_stale_after : float
}.
#[global] Arguments mk_runtime_config {P}.
#[global] Arguments rc_series {P}.
#[global] Arguments rc_scheduler {P}.
#[global] Arguments rc_capability {P}.
#[global] Arguments rc_fingerprint {P}.
#[global] Arguments rc_reference {P}.
#[global] Arguments rc_stale_after {P}.

Definition runtime_config_ok {P} (c : runtime_config P) : res unit :=
  guard_res (negb (fleb (rc_stale_after c) (float_of_Z 0))) (ValueError "live stale threshold must be positive").

Section runtime.
Context {P T : Type} `{DecisionOnlyPipeline P} `{BackfillJob (pipeline P)} `{LiveTickSource T} `{MonotonicClock T}.
Variable payload_hash : payload -> string.
Variable cfg : runtime_config P.
Variable samples : MarketSeriesId -> float.
Abbreviation rt := (live P T).

Definition on_sched {A} (m : py (scheduler (pipeline P)) A) : py rt A := py_zoom lv_sched (fun x s => s <| lv_sched := x |>) m.
Definition on_pipe {A} (m : py (pipeline P) A) : py rt A := on_sched (py_zoom sk_env (fun e s => s <| sk_env := e |>) m).
Definition on_agg {A} (m : py ClosedCandleAggregator A) : py rt A := py_zoom lv_aggregator (fun x s => s <| lv_aggregator := x |>) m.
Definition on_world {A} (m : py T A) : py rt A := py_zoom lv_world (fun x s => s <| lv_world := x |>) m.
Definition live_count (f : MarketPipelineMetrics -> MarketPipelineMetrics) : py rt unit := on_pipe (count f).
Definition live_gate {A} (m : py MarketHealthGate A) : py rt A := on_pipe (on_gate m).

(** [self._scheduler.trigger(self._series)] and [self._scheduler.tick()], which read the
    clock. *)
Definition trigger_series : py rt unit :=
  now ← on_world clock_now; on_sched (trigger now (rc_series cfg)).
Definition tick_scheduler : py rt unit :=
  now ← on_world clock_now; _ ← on_sched (tick (rc_scheduler cfg) samples now); mret tt.

(** A gap: counted, reported to the gate, and a recovery is asked for. *)
Definition report_gap : py rt unit :=
  _ ← live_count (fun m => m <| mm_live_gap_count ::= Z.succ |>);
  _ ← live_gate (mark_gap (rc_series cfg));
  trigger_series.

(** [_compare] *)
Definition compare (c : ClosedCandle) : py rt unit :=
  match rc_fingerprint cfg, rc_reference cfg with
  | Some fingerprint, Some reference =>
      match reference (cc_close_time_ms c) with
      | None => mret tt
      | Some expected =>
          decisions ← py_gets (fun s => pp_decisions (sk_env (lv_sched s)));
          actual ← py_lift (fingerprint decisions);
          _ ← live_count (fun m => m <| mm_live_replay_comparisons ::= Z.succ |>);
          if bool_decide (actual = expected) then mret tt
          else
            _ ← live_count (fun m => m <| mm_live_replay_divergences ::= Z.succ |>);
            live_gate (mark_failed (rc_series cfg) MD_SHADOW_DIVERGENCE)
      end
  | _, _ => mret tt
  end.

(** [self._ingress.ingest(CandleEnvelope.from_closed_candle(candle))] *)
Definition store_candle (c : ClosedCandle) : py rt CandleIngressResult :=
  on_pipe (ingest_envelope (H := pipeline_store payload_hash) (from_closed_candle c)).

(** The delivery of an accepted candle. *)
Definition deliver (c : ClosedCandle) : py rt unit :=
  _ ← on_pipe (dispatch payload_hash (rc_capability cfg) (rc_series cfg) c);
  let lag := Z.max 0 (cc_received_timestamp_ms c - cc_close_time_ms c) in
  _ ← live_count (fun m => m <| mm_live_candles_closed ::= Z.succ |> <| mm_live_dispatch_lag_ms_total ::= Z.add lag |>
                             <| mm_live_dispatch_lag_ms_max ::= fun x => Z.max x lag |>);
  compare c.

(** What becomes of a closed candle. *)
Definition handle_candle (result : LiveAggregationResult) (c : ClosedCandle) : py rt unit :=
  ingress ← store_candle c;
  _ ← (match ci_status ingress with
       | CI_DUPLICATE => live_count (fun m => m <| mm_live_candles_duplicate ::= Z.succ |>)
       | _ => mret tt
       end);
  match ci_status ingress with
  | CI_OUT_OF_ORDER | CI_INVALID => report_gap
  | CI_DUPLICATE => if bool_decide (la_status result = LA_GAPPED) then report_gap else mret tt
  | CI_ACCEPTED =>
      if bool_decide (la_status result = LA_GAPPED) then report_gap
      else match ci_candle ingress with Some accepted => deliver accepted | None => mret tt end
  end.

(** What follows the aggregation of a tick. *)
Definition follow_up (result : LiveAggregationResult) : py rt LiveAggregationResult :=
  match la_status result with
  | LA_DUPLICATE => _ ← live_count (fun m => m <| mm_live_ticks_duplicate ::= Z.succ |>); mret result
  | LA_OUT_OF_ORDER =>
      _ ← live_count (fun m => m <| mm_live_ticks_out_of_order ::= Z.succ |>); _ ← report_gap; mret result
  | _ =>
      match la_candle result with
      | None => mret result
      | Some c => _ ← handle_candle result c; mret result
      end
  end.

(** [_ingest_tick] *)
Definition live_ingest (t : MarketTick) : py rt LiveAggregationResult :=
  _ ← live_count (fun m => m <| mm_live_ticks_received ::= Z.succ |>);
  now ← on_world clock_now;
  _ ← py_modify (fun s => s <| lv_last_tick_at := Some now |>);
  result ← on_agg (ingest_tick t);
  follow_up result.

(** [_discard_subscription]; an exception of the source is dropped. *)
Definition discard_subscription (forget : bool) : py rt unit :=
  subscription ← py_gets lv_subscription_id;
  _ ← py_modify (fun s => s <| lv_subscription_id := None |>);
  match subscription with
  | Some id =>
      if forget then py_try (_ ← on_world (unsubscribe_market_ticks id); mret tt) (fun _ => Some (mret tt)) else mret tt
  | None => mret tt
  end.

(** [_restore_subscription] *)
Definition restore_subscription : py rt bool :=
  snapshot ← live_gate (gate_snapshot (rc_series cfg));
  if negb (hs_dispatch_allowed snapshot) then mret false
  else
    subscription ← py_gets lv_subscription_id;
    match subscription with
    | Some _ => mret true
    | None =>
        initial ← on_world (subscribe_market_ticks (si_broker_symbol (rc_series cfg)));
        _ ← py_modify (fun s => s <| lv_subscription_id := Some (mt_subscription_id initial) |>);
        _ ← live_count (fun m => m <| mm_subscription_restores ::= Z.succ |>);
        _ ← live_ingest initial;
        mret true
    end.

(** [start] and [recover_and_restore] *)
Definition live_start : py rt bool := _ ← tick_scheduler; restore_subscription.
Definition recover_and_restore : py rt bool := _ ← trigger_series; _ ← tick_scheduler; restore_subscription.

Definition on_disconnect : py rt Z :=
  generation ← live_gate (start_reconnect (rc_series cfg));
  _ ← live_count (fun m => m <| mm_reconnect_count ::= Z.succ |>);
  _ ← discard_subscription false;
  _ ← py_modify (fun s => s <| lv_aggregator ::= reset_aggregator |>);
  mret generation.

(** [stop] *)
Definition live_stop : py rt unit := discard_subscription true.

(** The silence that follows a poll without a tick. *)
Definition check_stale : py rt unit :=
  last ← py_gets lv_last_tick_at;
  match last with
  | None => mret tt
  | Some t =>
      now ← on_world clock_now;
      if fltb (rc_stale_after cfg) (fsub now t) then
        _ ← live_gate (mark_suspended (rc_series cfg));
        _ ← discard_subscription true;
        py_modify (fun s => s <| lv_aggregator ::= reset_aggregator |>)
      else mret tt
  end.

(** [receive_market_tick] with the handler that gives the connection up. *)
Definition receive (timeout : float) : py rt (option MarketTick) :=
  py_try (on_world (receive_market_tick timeout)) (fun e => Some (_ ← on_disconnect; py_raise e)).

Definition poll_once (timeout : float) : py rt (option LiveAggregationResult) :=
  _ ← py_guard (negb (fleb timeout (float_of_Z 0))) (ValueError "live poll timeout must be positive");
  subscription ← py_gets lv_subscription_id;
  match subscription with
  | None => mret None
  | Some _ =>
      snapshot ← live_gate (gate_snapshot (rc_series cfg));
      if negb (hs_dispatch_allowed snapshot) then mret None
      else
        t ← receive timeout;
        match t with
        | None =>
            _ ← live_count (fun m => m <| mm_live_poll_timeouts ::= Z.succ |>);
            _ ← check_stale;
            mret None
        | Some t => r ← live_ingest t; mret (Some r)
        end
  end.
End runtime.
