(* ===== verification/LiveProps.v ===== *)
(** * What the live runtime promises

    A poll hands at most one candle to the decision pipeline, and only one that is stored,
    while the series is open; a disconnect and a silence close the series and forget what
    was collected. *)

From S2P Require Import Prelude Datetime Dec PyFloat Json Domain Market Candles CandleProps MarketHealth MarketHealthProps DerivPump Backfill.
From S2P Require Import BackfillProps MarketScheduler LiveCandles LiveRuntime.

Section runtime.
Context {P T : Type} `{DecisionOnlyPipeline P} `{BackfillJob (pipeline P)} `{LiveTickSource T} `{MonotonicClock T}.
Variable payload_hash : payload -> string.
Variable cfg : runtime_config P.
Abbreviation rt := (live P T).

Definition pipe_of (s : rt) : pipeline P := sk_env (lv_sched s).

(** ** Calls on the parts *)

Lemma on_pipe_run {A} (m : py (pipeline P) A) (s : rt) r s' :
  on_pipe m s = (r, s') <-> exists p, m (pipe_of s) = (r, p) /\ s' = s <| lv_sched ::= fun k => k <| sk_env := p |> |>.
Proof.
  unfold on_pipe, on_sched, pipe_of. rewrite py_zoom_run. split.
  - intros (k & (p & E & ->)%py_zoom_run & ->). eauto.
  - intros (p & E & ->). eexists. split; [|reflexivity]. apply py_zoom_run. eauto.
Qed.

(** A relation on pipelines, of the pipelines of two runtimes. *)
Definition of_pipe (R : relation (pipeline P)) (s s' : rt) : Prop := R (pipe_of s) (pipe_of s').

#[export] Instance of_pipe_preorder R `{!PreOrder R} : PreOrder (of_pipe R).
Proof. unfold of_pipe. split; [intros s; reflexivity|intros a b c; apply transitivity]. Qed.

Section kept.
Variable R : relation (pipeline P).
Context `{!PreOrder R}.

Lemma on_pipe_steps {A} (m : py (pipeline P) A) : steps R m -> steps (of_pipe R) (on_pipe m).
Proof.
  intros Hm s. destruct (on_pipe m s) as [r s'] eqn:E. apply on_pipe_run in E as (p & E & ->).
  pose proof (steps_run _ _ _ _ _ Hm E) as Hp. exact Hp.
Qed.

Lemma on_world_steps {A} (m : py T A) : steps (of_pipe R) (on_world m).
Proof. intros s. unfold on_world, py_zoom. destruct (m _). unfold of_pipe, pipe_of. cbn. reflexivity. Qed.
Lemma on_agg_steps {A} (m : py ClosedCandleAggregator A) : steps (of_pipe R) (on_agg m).
Proof. intros s. unfold on_agg, py_zoom. destruct (m _). unfold of_pipe, pipe_of. cbn. reflexivity. Qed.

Lemma trigger_steps now x : steps (of_pipe R) (on_sched (trigger now x)).
Proof.
  intros s. unfold on_sched, py_zoom, trigger, get_state, put_state. rewrite py_bind_run. unfold of_pipe, pipe_of.
  destruct (_ !! _); cbn; reflexivity.
Qed.
End kept.

(** ** Only a delivery reaches the decision pipeline *)

Abbreviation silent := (of_pipe quiet).

Lemma live_gate_silent {A} (m : py MarketHealthGate A) : steps silent (live_gate m).
Proof. apply on_pipe_steps, on_gate_quiet. Qed.
Lemma live_count_silent f : steps silent (live_count f).
Proof. apply on_pipe_steps, count_quiet. Qed.
Lemma world_silent {A} (m : py T A) : steps silent (on_world m).
Proof. apply on_world_steps, _. Qed.
Lemma agg_silent {A} (m : py ClosedCandleAggregator A) : steps silent (on_agg m).
Proof. apply on_agg_steps, _. Qed.
Lemma trigger_silent now x : steps silent (on_sched (trigger now x)).
Proof. apply trigger_steps, _. Qed.

#[local] Hint Resolve live_gate_silent live_count_silent world_silent agg_silent trigger_silent : steps.

Lemma report_gap_silent : steps silent (report_gap cfg).
Proof. unfold report_gap, trigger_series. steps_solve. Qed.

Lemma store_candle_silent c : steps silent (store_candle payload_hash c).
Proof.
  unfold store_candle. apply on_pipe_steps. unfold ingest_envelope. destruct (from_envelope _); [|apply steps_ret, _].
  apply ingest_candle_steps; [typeclasses eauto|]. intros x. apply on_rows_quiet.
Qed.

Lemma compare_silent c : steps silent (compare cfg c).
Proof. unfold compare. steps_solve. Qed.

#[local] Hint Resolve report_gap_silent store_candle_silent compare_silent : steps.

Lemma discard_silent forget : steps silent (discard_subscription forget).
Proof.
  unfold discard_subscription. apply steps_bind; [typeclasses eauto|auto with steps|intros sub _ _ _].
  apply steps_bind; [typeclasses eauto|intros s; unfold of_pipe, pipe_of; reflexivity|intros _ _ _ _].
  destruct sub as [id|]; [|auto with steps]. destruct forget; [|auto with steps]. apply steps_try; [typeclasses eauto|steps_solve|].
  intros e k [= <-]. auto with steps.
Qed.
#[local] Hint Resolve discard_silent : steps.

Lemma modify_silent (f : rt -> rt) : (forall s, pipe_of (f s) = pipe_of s) -> steps silent (py_modify f).
Proof. intros Hf s. unfold of_pipe. cbn. by rewrite Hf. Qed.

Lemma check_stale_silent : steps silent (check_stale cfg).
Proof. unfold check_stale. steps_solve. all: by apply modify_silent. Qed.

Lemma on_disconnect_silent : steps silent (on_disconnect cfg).
Proof. unfold on_disconnect. steps_solve. by apply modify_silent. Qed.
End runtime.

(** ** What a poll delivers *)

Lemma post_init_same c c' : ClosedCandle_post_init c = Ok c' -> c' = c.
Proof. intros H. unfold ClosedCandle_post_init in H. repeat (apply res_bind_Ok in H as (? & _ & H)). by injection H as <-. Qed.

Lemma candle_envelope_same c c' : from_envelope (from_closed_candle c) = Ok c' -> c' = c.
Proof. unfold from_envelope. intros H. apply res_bind_Ok in H as (_ & _ & H%post_init_same). subst c'. by destruct c. Qed.

Section logged.
Context {T : Type} `{BackfillJob (pipeline (list delivery))} `{LiveTickSource T} `{MonotonicClock T}.
Variable payload_hash : payload -> string.
Variable answer : ClosedCandle -> res Z.
Variable cfg : runtime_config (list delivery).
Abbreviation rt := (live (list delivery) T).
#[local] Instance pipeline_logged : DecisionOnlyPipeline (list delivery) := logged answer.

Abbreviation log s := (pp_decisions (pipe_of s)).

(** Neither the table nor the gate nor the log is touched. *)
Definition calm (p p' : pipeline (list delivery)) : Prop := same_market p p' /\ quiet p p'.

#[local] Instance calm_order : PreOrder calm.
Proof.
  split; [by intros p|]. intros a b c [(? & ? & ?) Q1] [(? & ? & ?) Q2]. unfold calm, same_market, quiet in *. split_and!; congruence.
Qed.

Lemma live_count_calm f : steps (of_pipe calm) (live_count f : py rt unit).
Proof. apply on_pipe_steps. intros s. done. Qed.
Lemma world_calm {A} (m : py T A) : steps (of_pipe calm) (on_world m : py rt A).
Proof. apply on_world_steps, _. Qed.
Lemma agg_calm {A} (m : py ClosedCandleAggregator A) : steps (of_pipe calm) (on_agg m : py rt A).
Proof. apply on_agg_steps, _. Qed.
Lemma modify_calm (f : rt -> rt) : (forall s, pipe_of (f s) = pipe_of s) -> steps (of_pipe calm) (py_modify f).
Proof. intros Hf s. unfold of_pipe. cbn. by rewrite Hf. Qed.

(** What is known of a delivered candle: where it is stored and when. *)
Definition delivered (s s' : rt) (c : ClosedCandle) : Prop :=
  log s' = log s ++ [(c, false)] /\ repo_get payload_hash (candle_id payload_hash c) (pp_rows (pipe_of s')) = Ok (Some c)
  /\ series_key c = candle_key (rc_series cfg) /\ cg_mode (rc_capability cfg) = DECISION_ONLY
  /\ cg_can_submit_orders (rc_capability cfg) = false
  /\ exists state, pp_gate (pipe_of s) !! rc_series cfg = Some state /\ ss_health state = HEALTHY.

Definition same_rows (p p' : pipeline (list delivery)) : Prop := pp_rows p' = pp_rows p.

#[local] Instance same_rows_order : PreOrder same_rows.
Proof. split; [by intros p|]. intros a b c. unfold same_rows. congruence. Qed.

Lemma live_gate_rows {A} (m : py MarketHealthGate A) : steps (of_pipe same_rows) (live_gate m : py rt A).
Proof. apply on_pipe_steps. intros s. unfold on_gate, py_zoom. by destruct (m _). Qed.
Lemma live_count_rows f : steps (of_pipe same_rows) (live_count f : py rt unit).
Proof. apply on_pipe_steps. intros s. done. Qed.
#[local] Hint Resolve live_gate_rows live_count_rows : steps.

Lemma compare_rows c : steps (of_pipe same_rows) (compare cfg c : py rt unit).
Proof. unfold compare. steps_solve. Qed.

Lemma deliver_logged c (s s' : rt) r :
  deliver payload_hash cfg c s = (r, s') -> delivered s s' c \/ (log s' = log s /\ exists e, r = Err e).
Proof.
  unfold deliver. rewrite py_bind_run. destruct (on_pipe _ s) as [r1 s1] eqn:Ed. apply on_pipe_run in Ed as (p & Ed & Es1).
  pose proof (steps_run _ _ _ _ _ (dispatch_same_market _ _ _ _) Ed) as (Hrows & _).
  assert (pipe_of s1 = p) as Hp by (by subst s1). intros Hrun.
  assert (log s' = log s1 /\ pp_rows (pipe_of s') = pp_rows (pipe_of s1)) as [Hl Hr].
  { destruct r1 as [n|e]; [|by injection Hrun as _ <-]. split.
    - eapply (steps_run (of_pipe quiet)); [|exact Hrun]. apply steps_bind; [typeclasses eauto|apply live_count_silent|intros _ _ _ _]. apply compare_silent.
    - eapply (steps_run (of_pipe same_rows)); [|exact Hrun]. apply steps_bind; [typeclasses eauto|apply live_count_rows|intros _ _ _ _]. apply compare_rows. }
  rewrite Hp in Hl, Hr. destruct (dispatch_logged _ _ _ _ _ _ _ _ Ed) as [[Hlog (D1 & D2 & D3 & D4 & D5)]|[Hlog [e ->]]].
  - left. split; [by rewrite Hl|]. rewrite Hr, Hrows. done.
  - right. injection Hrun as <- <-. split; [congruence|eauto].
Qed.

Lemma live_gate_quiet {A} (m : py MarketHealthGate A) (s s' : rt) r : live_gate m s = (r, s') -> log s' = log s.
Proof. apply (steps_run (of_pipe quiet)), live_gate_silent. Qed.

(** Storing a candle leaves the gate and the log; what is accepted is the candle. *)
Lemma store_candle_run c (s s' : rt) r :
  store_candle payload_hash c s = (r, s') ->
  log s' = log s /\ pp_gate (pipe_of s') = pp_gate (pipe_of s) /\ (forall i c', r = Ok i -> ci_status i = CI_ACCEPTED -> ci_candle i = Some c' -> c' = c).
Proof.
  unfold store_candle. intros (p & E & ->)%on_pipe_run. unfold pipe_of. cbn.
  assert (steps (fun p p' => pp_gate p' = pp_gate p /\ pp_decisions p' = pp_decisions p)
            (ingest_envelope (H := pipeline_store payload_hash) (from_closed_candle c) : py (pipeline (list delivery)) _)) as Hs.
  { assert (PreOrder (fun p p' : pipeline (list delivery) => pp_gate p' = pp_gate p /\ pp_decisions p' = pp_decisions p)) as Ho.
    { split; [by intros x|]. intros a b d [? ?] [? ?]. split; congruence. }
    unfold ingest_envelope. destruct (from_envelope _); [|by apply steps_ret]. apply ingest_candle_steps; [done|].
    intros x q. unfold store_append, pipeline_store, on_rows, py_zoom. by destruct (in_transaction _ _). }
  destruct (steps_run _ _ _ _ _ Hs E) as [Hg Hd]. split; [done|]. split; [done|]. intros i c' -> Hst Hci.
  unfold ingest_envelope in E. destruct (from_envelope (from_closed_candle c)) as [c1|e] eqn:Ef; [|injection E as <- _; done].
  apply candle_envelope_same in Ef as ->. unfold ingest_candle, py_try in E. rewrite py_bind_run in E.
  destruct (store_append c _) as [[o|e] p1]; [injection E as <- _; destruct o; by injection Hci|].
  destruct (bool_decide _); [injection E as <- _; done|discriminate E].
Qed.

Lemma handle_candle_logged result c (s s' : rt) r :
  handle_candle payload_hash cfg result c s = (r, s') ->
  (delivered s s' c /\ la_status result <> LA_GAPPED) \/ log s' = log s.
Proof.
  unfold handle_candle. rewrite py_bind_run. destruct (store_candle payload_hash c s) as [[i|e] s1] eqn:Es;
    apply store_candle_run in Es as (Hl & Hg & Hc); [|intros [= <- <-]; by right].
  rewrite py_bind_run. intros Hrun.
  assert (forall m : py rt unit, steps (of_pipe quiet) m -> m s1 = (r, s') -> log s' = log s) as Hq.
  { intros m Hm E. rewrite <- Hl. exact (steps_run _ _ _ _ _ Hm E). }
  destruct (ci_status i) eqn:Est.
  - cbn in Hrun. destruct (bool_decide_reflect (la_status result = LA_GAPPED)); [right; by eapply Hq, Hrun; apply report_gap_silent|].
    destruct (ci_candle i) as [c'|] eqn:Eci; [|injection Hrun as _ <-; by right]. rewrite (Hc i c' eq_refl Est Eci) in Hrun.
    apply deliver_logged in Hrun as [(D1 & D2 & D3 & D4 & D5 & D6)|[Hlog _]]; [left|right; congruence].
    split; [|done]. split; [by rewrite <- Hl|]. rewrite <- Hg. done.
  - right. revert Hrun. rewrite <- (py_bind_run (live_count _) (fun _ => _)). apply Hq. apply steps_bind; [typeclasses eauto|apply live_count_silent|intros _ _ _ _].
    destruct (bool_decide _); [apply report_gap_silent|apply steps_ret, _].
  - right. eapply Hq, Hrun. apply report_gap_silent.
  - right. eapply Hq, Hrun. apply report_gap_silent.
Qed.

(** What is said of a run with a delivery. *)
Definition may_deliver (s s' : rt) (r : res LiveAggregationResult) : Prop :=
  (exists c, delivered s s' c /\ forall x, r = Ok x -> la_candle x = Some c /\ la_status x <> LA_GAPPED) \/ log s' = log s.

Lemma may_deliver_calm s1 s2 s' r : of_pipe calm s1 s2 -> may_deliver s2 s' r -> may_deliver s1 s' r.
Proof.
  intros [(C1 & C2 & _) C3]. unfold quiet in C3. intros [(c & (D1 & D2 & D3 & D4 & D5 & D6) & Hr)|L]; [left|right; congruence].
  exists c. split; [|done]. split; [by rewrite D1, C3|]. rewrite <- C2. done.
Qed.

Lemma follow_up_logged result (s s' : rt) r : follow_up payload_hash cfg result s = (r, s') -> may_deliver s s' r.
Proof.
  unfold follow_up. intros Hrun.
  assert (forall c, la_candle result = Some c -> (_ ← handle_candle payload_hash cfg result c; mret result) s = (r, s') -> may_deliver s s' r) as Hh.
  { intros c Hc E. rewrite py_bind_run in E. destruct (handle_candle _ _ _ _ s) as [[u|e] s4] eqn:Eh; injection E as <- <-;
      (apply handle_candle_logged in Eh as [[D N]|L]; [left; exists c; split; [done|by intros x [= <-]]|by right]). }
  assert (forall m : py rt LiveAggregationResult, steps (of_pipe quiet) m -> m s = (r, s') -> may_deliver s s' r) as Hq.
  { intros m Hm E. right. exact (steps_run _ _ _ _ _ Hm E). }
  destruct (la_status result).
  3-4: eapply Hq, Hrun; repeat (apply steps_bind; [typeclasses eauto|first [apply live_count_silent|apply report_gap_silent]|intros _ _ _ _]); apply steps_ret, _.
  all: destruct (la_candle result) as [c|]; [by apply (Hh c)|injection Hrun as _ <-; by right].
Qed.

Lemma live_ingest_logged t (s s' : rt) r : live_ingest payload_hash cfg t s = (r, s') -> may_deliver s s' r.
Proof.
  unfold live_ingest. intros Hrun.
  rewrite py_bind_run in Hrun. destruct (live_count _ s) as [[?|e] s1] eqn:E1; pose proof (steps_run _ _ _ _ _ (live_count_calm _) E1) as C1;
    apply (may_deliver_calm _ _ _ _ C1); [|injection Hrun as _ <-; by right].
  rewrite py_bind_run in Hrun. destruct (on_world clock_now s1) as [[now|e] s2] eqn:E2; pose proof (steps_run _ _ _ _ _ (world_calm _) E2) as C2;
    apply (may_deliver_calm _ _ _ _ C2); [|injection Hrun as _ <-; by right].
  rewrite py_bind_run in Hrun. unfold py_modify in Hrun. rewrite py_bind_run in Hrun. set (s2' := s2 <| lv_last_tick_at := Some now |>) in Hrun.
  destruct (on_agg (ingest_tick t) s2') as [[result|e] s3] eqn:E3; pose proof (steps_run _ _ _ _ _ (agg_calm _) E3 : of_pipe calm s2 s3) as C3;
    apply (may_deliver_calm _ _ _ _ C3); [by apply follow_up_logged in Hrun|injection Hrun as _ <-; by right].
Qed.

(** C30: A poll hands at most one candle to the decision pipeline.  It is the candle that the
    aggregator has closed, it is stored under its identity and belongs to the series, the
    gate was open for the series when the poll began, no interval was missed before it, and
    it comes without permission to dispatch orders, through a capability gate that neither
    executes nor submits. *)
Theorem polled_candle_is_stored timeout (s s' : rt) r :
  poll_once payload_hash cfg timeout s = (r, s') ->
  (exists c, delivered s s' c /\ forall x, r = Ok x -> exists result, x = Some result /\ la_candle result = Some c /\ la_status result <> LA_GAPPED)
  \/ log s' = log s.
Proof.
  unfold poll_once. intros Hrun. rewrite py_bind_run in Hrun. unfold py_guard in Hrun. destruct (negb _); [|injection Hrun as _ <-; by right].
  cbv [mret py_ret] in Hrun. rewrite py_bind_run in Hrun. unfold py_gets in Hrun. destruct (lv_subscription_id s); [|injection Hrun as _ <-; by right].
  rewrite py_bind_run in Hrun. destruct (live_gate _ s) as [[snapshot|e] s1] eqn:E1; [|injection Hrun as _ <-; right; by apply live_gate_quiet in E1].
  assert (of_pipe calm s s1) as C1.
  { apply on_pipe_run in E1 as (p & E1 & ->). apply on_gate_run in E1 as (g & (st & Hst & _ & ->)%gate_snapshot_run & ->). unfold of_pipe, pipe_of. cbn. by destruct (sk_env _). }
  destruct (negb _); [injection Hrun as _ <-; right; exact (proj2 C1)|]. rewrite py_bind_run in Hrun. unfold receive, py_try in Hrun.
  destruct (on_world _ s1) as [[t|e] s2] eqn:E2; pose proof (steps_run _ _ _ _ _ (world_calm _) E2 : of_pipe calm s1 s2) as C2.
  2:{ right. transitivity (log s2); [|transitivity (log s1); [apply (proj2 C2)|apply (proj2 C1)]].
      destruct ((_ ← on_disconnect cfg; py_raise e) s2) as [[x|e'] s3] eqn:E3.
      - rewrite py_bind_run in E3. by destruct (on_disconnect _ _) as [[?|?] ?].
      - injection Hrun as _ <-. eapply (steps_run (of_pipe quiet)); [|exact E3]. apply steps_bind; [typeclasses eauto|apply on_disconnect_silent|intros _ _ _ _; apply steps_raise, _]. }
  destruct t as [t|].
  - rewrite py_bind_run in Hrun. destruct (live_ingest _ _ _ s2) as [ri s3] eqn:E3.
    apply live_ingest_logged, (may_deliver_calm _ _ _ _ C2), (may_deliver_calm _ _ _ _ C1) in E3.
    destruct ri as [x|e]; injection Hrun as <- <-; (destruct E3 as [(c & D & Hr)|L]; [left; exists c; split; [done|]|by right]);
      [intros y [= <-]; exists x; split; [done|by apply Hr]|done].
  - right. transitivity (log s2); [|transitivity (log s1); [apply (proj2 C2)|apply (proj2 C1)]].
    eapply (steps_run (of_pipe quiet)); [|exact Hrun]. repeat (apply steps_bind; [typeclasses eauto|first [apply live_count_silent|apply check_stale_silent]|intros _ _ _ _]).
    apply steps_ret, _.
Qed.
End logged.

(** ** A lost connection *)

Section lost.
Context {P T : Type} `{DecisionOnlyPipeline P} `{BackfillJob (pipeline P)} `{LiveTickSource T} `{MonotonicClock T}.
Variable payload_hash : payload -> string.
Variable cfg : runtime_config P.
Abbreviation rt := (live P T).
Abbreviation gate s := (pp_gate (pipe_of s)).

Definition reconnecting (state : SeriesState) : SeriesState :=
  state <| ss_generation ::= Z.succ |> <| ss_health := RECONNECTING |> <| ss_reason := MD_RECONNECT_REQUIRED |>.

Lemma live_gate_run {A} (m : py MarketHealthGate A) (s : rt) r g :
  m (gate s) = (r, g) -> exists s', live_gate m s = (r, s') /\ s' = s <| lv_sched ::= fun k => k <| sk_env ::= fun p => p <| pp_gate := g |> |> |>.
Proof. intros E. eexists. split; [|reflexivity]. apply on_pipe_run. eexists. split; [|reflexivity]. apply on_gate_run. eauto. Qed.

Lemma start_reconnect_run series g state :
  g !! series = Some state -> start_reconnect series g = (Ok (Z.succ (ss_generation state)), <[series := reconnecting state]> g).
Proof.
  intros E. unfold start_reconnect, next_generation, transition, update_series, require_series. cbv [mbind py_bind mret py_ret py_modify].
  rewrite E. rewrite E. cbn. rewrite lookup_insert_eq. cbn. rewrite insert_insert_eq. by destruct state.
Qed.

(** What a lost connection leaves of a runtime. *)
Record disconnected (s s' : rt) (state : SeriesState) : Prop := mk_disconnected {
  dc_gate : gate s' = <[rc_series cfg := reconnecting state]> (gate s);
  dc_subscription : lv_subscription_id s' = None;
  dc_aggregator : lv_aggregator s' = reset_aggregator (lv_aggregator s);
  dc_rows : pp_rows (pipe_of s') = pp_rows (pipe_of s);
  dc_decisions : pp_decisions (pipe_of s') = pp_decisions (pipe_of s)
}.

Lemma on_disconnect_run (s : rt) state :
  gate s !! rc_series cfg = Some state ->
  exists s', on_disconnect cfg s = (Ok (Z.succ (ss_generation state)), s') /\ disconnected s s' state /\ lv_world s' = lv_world s.
Proof.
  intros E. unfold on_disconnect. destruct (live_gate_run _ s _ _ (start_reconnect_run _ _ _ E)) as (s1 & E1 & ->).
  rewrite py_bind_run, E1. eexists. split; [|split].
  - unfold live_count, discard_subscription. rewrite py_bind_run.
    unfold on_pipe, on_sched, count, py_zoom, py_modify, py_gets. cbv [mbind py_bind mret py_ret].
    cbn. destruct (lv_subscription_id s); cbn; reflexivity.
  - by split.
  - done.
Qed.

Lemma snapshot_runs (s : rt) state :
  gate s !! rc_series cfg = Some state -> live_gate (gate_snapshot (rc_series cfg)) s = (Ok (snapshot_of (rc_series cfg) state), s).
Proof.
  intros Hst. destruct (live_gate_run (gate_snapshot (rc_series cfg)) s (Ok (snapshot_of (rc_series cfg) state)) (gate s)) as (s1 & -> & Es1).
  { apply gate_snapshot_run. eauto. }
  rewrite Es1. unfold pipe_of. destruct s as [[] ? ? ? ?]. cbn. by destruct sk_env.
Qed.

(** When the source fails in a poll of an open series, the poll raises the exception of
    the source, and the series is closed with it: the gate says RECONNECTING under the next
    generation, so that no recovery that began before can open it; the subscription and the
    ticks of the unfinished candle are forgotten; no candle is stored or decided upon; and
    every later poll returns at once without touching anything until the series has
    recovered. *)
Theorem lost_connection_closes_series timeout (s : rt) id state e w :
  fleb timeout (float_of_Z 0) = false -> lv_subscription_id s = Some id ->
  gate s !! rc_series cfg = Some state -> ss_health state = HEALTHY ->
  receive_market_tick timeout (lv_world s) = (Err e, w) ->
  exists s', poll_once payload_hash cfg timeout s = (Err e, s') /\ disconnected s s' state
    /\ poll_once payload_hash cfg timeout s' = (Ok None, s')
    /\ forall generation cv ct n lc le, generation <= ss_generation state ->
         complete_recovery (rc_series cfg) generation cv ct n lc le (gate s') = (Ok false, gate s').
Proof.
  intros Ht Hid Hst Hh Hrecv. set (sw := s <| lv_world := w |>).
  destruct (on_disconnect_run sw state Hst) as (s' & Ed & D & _).
  assert (receive cfg timeout s = (Err e, s')) as Er.
  { unfold receive, py_try, on_world, py_zoom. rewrite Hrecv. fold sw. by rewrite py_bind_run, Ed. }
  exists s'. destruct D as [D1 D2 D3 D4 D5]. split_and!; [|by split| |].
  - unfold poll_once. rewrite py_bind_run. unfold py_guard. rewrite Ht. cbn [negb]. change ((mret tt : py rt unit) s) with (@Ok unit tt, s). cbv iota.
    rewrite py_bind_run. unfold py_gets at 1. rewrite Hid, py_bind_run, (snapshot_runs _ _ Hst). cbn [snapshot_of hs_dispatch_allowed].
    rewrite bool_decide_true by done. cbn [negb]. by rewrite py_bind_run, Er.
  - unfold poll_once. rewrite py_bind_run. unfold py_guard. rewrite Ht. cbn [negb]. change ((mret tt : py rt unit) s') with (@Ok unit tt, s'). cbv iota.
    rewrite py_bind_run. unfold py_gets. by rewrite D2.
  - intros generation cv ct n lc le Hg. unfold complete_recovery, note_recovery, require_series. cbv [mbind py_bind mret py_ret]. rewrite D1, lookup_insert_eq.
    cbn. by rewrite (proj2 (Z.eqb_neq generation (Z.succ (ss_generation state)))) by lia.
Qed.
End lost.
