(* ===== verification/TickRouter.v ===== *)
(** * The shared tick router

    The class [SharedMarketTickRouter] of [packages/market_pipeline/live_router.py]: one
    stream of ticks of a broker is split into a bounded queue per series, and every series
    gets a source of live ticks of its own.  The stream is a source of live ticks over a
    state of its own. *)

From S2P Require Import Prelude Datetime Dec PyFloat Json Domain Market Candles MarketHealth Backfill LiveRuntime.

(** [_RouteState] *)
Record RouteState : Type := mk_RouteState {
  ru_ticks : list MarketTick; ru_subscription_id : option string; ru_received_ticks : Z; ru_routed_ticks : Z; ru_dropped_ticks : Z
}.

#[export] Instance RouteState_eta : Eta RouteState := fun r =>
  mk_RouteState (ru_ticks r) (ru_subscription_id r) (ru_received_ticks r) (ru_routed_ticks r) (ru_dropped_ticks r).

(** The fields of a router with the state of its source; [ro_order] are the keys of the
    routes in the order of their registration. *)
Record SharedMarketTickRouter (T : Type) : Type := mk_SharedMarketTickRouter {
  ro_broker : Broker; ro_max_series : Z; ro_queue_size : Z; ro_routes : gmap MarketSeriesId RouteState; ro_order : list MarketSeriesId;
  ro_subscriptions : gmap string MarketSeriesId; ro_source_ticks_received : Z; ro_source_timeouts : Z; ro_unroutable_ticks : Z;
  ro_backpressure_count : Z; ro_source : T
}.
#[global] Arguments mk_SharedMarketTickRouter {T}.
#[global] Arguments ro_broker {T}.
#[global] Arguments ro_max_series {T}.
#[global] Arguments ro_queue_size {T}.
#[global] Arguments ro_routes {T}.
#[global] Arguments ro_order {T}.
#[global] Arguments ro_subscriptions {T}.
#[global] Arguments ro_source_ticks_received {T}.
#[global] Arguments ro_source_timeouts {T}.
#[global] Arguments ro_unroutable_ticks {T}.
#[global] Arguments ro_backpressure_count {T}.
#[global] Arguments ro_source {T}.

#[export] Instance SharedMarketTickRouter_eta T : Eta (SharedMarketTickRouter T) := fun s =>
  mk_SharedMarketTickRouter (ro_broker s) (ro_max_series s) (ro_queue_size s) (ro_routes s) (ro_order s) (ro_subscriptions s)
    (ro_source_ticks_received s) (ro_source_timeouts s) (ro_unroutable_ticks s) (ro_backpressure_count s) (ro_source s).

Definition new_SharedMarketTickRouter {T} (broker : Broker) (source : T) (max_series per_series_queue_size : Z)
    : res (SharedMarketTickRouter T) :=
  _ ← guard_res (negb ((max_series <=? 0) || (per_series_queue_size <=? 0))) (ValueError "shared tick router limits must be positive");
  Ok (mk_SharedMarketTickRouter broker max_series per_series_queue_size ∅ [] ∅ 0 0 0 0 source).

(** Snapshots. *)
Record RoutedMarketSeriesSnapshot : Type := mk_RoutedMarketSeriesSnapshot {
  rs_series_id : MarketSeriesId; rs_subscribed : bool; rs_queued_ticks : Z; rs_received_ticks : Z; rs_routed_ticks : Z; rs_dropped_ticks : Z
}.

Record SharedMarketTickRouterSnapshot : Type := mk_SharedMarketTickRouterSnapshot {
  rt_broker : Broker; rt_registered_series : Z; rt_active_subscriptions : Z; rt_source_ticks_received : Z; rt_source_timeouts : Z;
  rt_unroutable_ticks : Z; rt_backpressure_count : Z; rt_series : list RoutedMarketSeriesSnapshot
}.

Section router.
Context {T : Type} `{LiveTickSource T}.
Abbreviation router := (SharedMarketTickRouter T).

Definition on_source {A} (m : py T A) : py router A := py_zoom ro_source (fun x s => s <| ro_source := x |>) m.

(** Writes to the route of a series. *)
Definition put_route (series : MarketSeriesId) (f : RouteState -> RouteState) : py router unit :=
  py_modify (fun s => s <| ro_routes ::= alter f series |>).

Definition scope_mismatch : exn := SharedMarketTickRoutingError "MD_SCOPE_MISMATCH".

(** [_route] *)
Definition route_of (series : MarketSeriesId) : py router RouteState := fun s =>
  match ro_routes s !! series with Some r => (Ok r, s) | None => (Err scope_mismatch, s) end.

Definition count_unroutable : py router unit := py_modify (fun s => s <| ro_unroutable_ticks ::= Z.succ |>).

Definition matches_series (t : MarketTick) (series : MarketSeriesId) : bool :=
  bool_decide (mt_broker t = si_broker series) && String.eqb (mt_broker_symbol t) (si_broker_symbol series).

(** [_validate_tick] *)
Definition validate_tick (t : MarketTick) (series : MarketSeriesId) : py router unit :=
  if matches_series t series then mret tt else _ ← count_unroutable; py_raise scope_mismatch.

(** [_target_for] *)
Definition target_for (t : MarketTick) : py router MarketSeriesId :=
  broker ← py_gets ro_broker;
  if negb (bool_decide (mt_broker t = broker)) then _ ← count_unroutable; py_raise scope_mismatch
  else
    subscriptions ← py_gets ro_subscriptions;
    match subscriptions !! mt_subscription_id t with
    | None => _ ← count_unroutable; py_raise scope_mismatch
    | Some series => _ ← validate_tick t series; mret series
    end.

(** [_enqueue] *)
Definition enqueue (series : MarketSeriesId) (t : MarketTick) : py router unit :=
  route ← route_of series;
  size ← py_gets ro_queue_size;
  if size <=? Z.of_nat (length (ru_ticks route)) then
    _ ← put_route series (fun r => r <| ru_dropped_ticks ::= Z.succ |>);
    _ ← py_modify (fun s => s <| ro_backpressure_count ::= Z.succ |>);
    py_raise (SharedMarketTickBackpressure "MD_BACKPRESSURE")
  else put_route series (fun r => r <| ru_ticks ::= fun l => l ++ [t] |> <| ru_routed_ticks ::= Z.succ |>).

Definition router_register (series : MarketSeriesId) : py router unit :=
  s ← py_gets id;
  _ ← py_guard (bool_decide (si_broker series = ro_broker s)) (ValueError "shared tick router broker does not match series");
  _ ← py_guard (bool_decide (ro_routes s !! series = None)) (ValueError "market series already registered in shared tick router");
  _ ← py_guard (Z.of_nat (size (ro_routes s)) <? ro_max_series s) (ValueError "shared tick router series limit exceeded");
  py_modify (fun s => s <| ro_routes ::= <[ series := mk_RouteState [] None 0 0 0 ]> |> <| ro_order ::= fun l => l ++ [series] |>).

Definition router_snapshot (s : router) : SharedMarketTickRouterSnapshot :=
  mk_SharedMarketTickRouterSnapshot (ro_broker s) (Z.of_nat (size (ro_routes s))) (Z.of_nat (size (ro_subscriptions s)))
    (ro_source_ticks_received s) (ro_source_timeouts s) (ro_unroutable_ticks s) (ro_backpressure_count s)
    (omap (fun x => (fun r => mk_RoutedMarketSeriesSnapshot x (bool_decide (ru_subscription_id r <> None)) (Z.of_nat (length (ru_ticks r)))
                                (ru_received_ticks r) (ru_routed_ticks r) (ru_dropped_ticks r)) <$> ro_routes s !! x) (ro_order s)).

(** The series takes the subscription over. *)
Definition take_subscription (series : MarketSeriesId) (id : string) : py router unit :=
  route ← route_of series;
  _ ← (match ru_subscription_id route with
       | Some old => py_modify (fun s => s <| ro_subscriptions ::= delete old |>)
       | None => mret tt
       end);
  _ ← put_route series (fun r => r <| ru_subscription_id := Some id |> <| ru_received_ticks ::= Z.succ |>);
  py_modify (fun s => s <| ro_subscriptions ::= <[ id := series ]> |>).

(** [subscribe] *)
Definition router_subscribe (series : MarketSeriesId) (symbol : string) : py router MarketTick :=
  _ ← route_of series;
  _ ← py_guard (String.eqb symbol (si_broker_symbol series)) scope_mismatch;
  initial ← on_source (subscribe_market_ticks symbol);
  _ ← validate_tick initial series;
  subscriptions ← py_gets ro_subscriptions;
  let existing := subscriptions !! mt_subscription_id initial in
  _ ← py_guard (negb (bool_decide (existing <> None /\ existing <> Some series))) scope_mismatch;
  _ ← take_subscription series (mt_subscription_id initial);
  mret initial.

(** [_get_queued] *)
Definition get_queued (series : MarketSeriesId) : py router (option MarketTick) :=
  route ← route_of series;
  match ru_ticks route with
  | [] => mret None
  | t :: rest => _ ← put_route series (fun r => r <| ru_ticks := rest |> <| ru_received_ticks ::= Z.succ |>); mret (Some t)
  end.

(** [receive] *)
Definition router_receive (series : MarketSeriesId) (timeout : float) : py router (option MarketTick) :=
  _ ← py_guard (negb (fleb timeout (float_of_Z 0))) (ValueError "shared tick receive timeout must be positive");
  queued ← get_queued series;
  match queued with
  | Some t => mret (Some t)
  | None =>
      t ← on_source (receive_market_tick timeout);
      match t with
      | None => _ ← py_modify (fun s => s <| ro_source_timeouts ::= Z.succ |>); mret None
      | Some t =>
          _ ← py_modify (fun s => s <| ro_source_ticks_received ::= Z.succ |>);
          target ← target_for t;
          if bool_decide (target = series) then
            _ ← put_route series (fun r => r <| ru_received_ticks ::= Z.succ |>); mret (Some t)
          else _ ← enqueue target t; mret None
      end
  end.

(** [unsubscribe]; the queue is drained whatever the source does. *)
Definition router_unsubscribe (series : MarketSeriesId) (subscription_id : string) : py router bool :=
  route ← route_of series;
  _ ← py_guard (bool_decide (ru_subscription_id route = Some subscription_id)) scope_mismatch;
  py_finally (on_source (unsubscribe_market_ticks subscription_id))
    (fun s => s <| ro_subscriptions ::= delete subscription_id |>
                <| ro_routes ::= alter (fun r => r <| ru_subscription_id := None |> <| ru_ticks := [] |>) series |>).

(** [RoutedLiveTickSource] *)
Definition routed_source (series : MarketSeriesId) : LiveTickSource router := {|
  subscribe_market_ticks := router_subscribe series;
  receive_market_tick := router_receive series;
  unsubscribe_market_ticks := router_unsubscribe series
|}.
End router.
