(* ===== verification/RouterProps.v ===== *)
(** * What the tick router promises

    The ticks of the shared stream reach the series that owns their subscription, in the
    order of their arrival and each at most once; the queues are bounded, and every
    subscription has exactly one owner. *)

From S2P Require Import Prelude Datetime Dec PyFloat Json Domain Market Candles MarketHealth Backfill LiveRuntime TickRouter.

(** A source that also keeps what it gave. *)
Definition recorded {T} (source : LiveTickSource T) : LiveTickSource (T * list MarketTick) := {|
  subscribe_market_ticks symbol := py_zoom fst (fun w s => (w, snd s)) (subscribe_market_ticks symbol);
  receive_market_tick timeout := fun s =>
    let '(r, w) := receive_market_tick timeout (fst s) in (r, (w, match r with Ok (Some t) => snd s ++ [t] | _ => snd s end));
  unsubscribe_market_ticks id := py_zoom fst (fun w s => (w, snd s)) (unsubscribe_market_ticks id)
|}.

(** Calls on a router. *)
Inductive router_call : Type :=
| R_register (x : MarketSeriesId)
| R_subscribe (x : MarketSeriesId) (symbol : string)
| R_receive (x : MarketSeriesId) (timeout : float)
| R_unsubscribe (x : MarketSeriesId) (id : string).

Section router.
Context {T : Type} (source : LiveTickSource T).
#[local] Instance source_recorded : LiveTickSource (T * list MarketTick) := recorded source.
Abbreviation router := (SharedMarketTickRouter (T * list MarketTick)).
Implicit Types (s : router) (x y : MarketSeriesId) (t : MarketTick).

(** ** What is observed *)

Definition given s : list MarketTick := snd (ro_source s).
Definition queue_of x s : list MarketTick := from_option ru_ticks [] (ro_routes s !! x).
Definition dropped_of x s : Z := from_option ru_dropped_ticks 0 (ro_routes s !! x).

(** The series that a tick of the stream is for. *)
Definition owner s t : option MarketSeriesId :=
  match ro_subscriptions s !! mt_subscription_id t with
  | Some x => if bool_decide (mt_broker t = ro_broker s) && matches_series t x then Some x else None
  | None => None
  end.

Abbreviation passing := (list (MarketSeriesId * MarketTick)).
Definition picked x (l : passing) : list MarketTick := snd <$> List.filter (fun p => bool_decide (fst p = x)) l.

(** What the source gave between two states, with the owner at the time. *)
Definition heard_between s s' : passing := omap (fun t => (fun x => (x, t)) <$> owner s t) (drop (length (given s)) (given s')).

(** A call: what was heard, what was handed out, and the state after it. *)
Definition router_step (c : router_call) s : passing * passing * router :=
  match c with
  | R_register x => let '(_, s') := router_register x s in ([], [], s')
  | R_subscribe x symbol => let '(_, s') := router_subscribe x symbol s in ([], [], s')
  | R_receive x timeout =>
      let '(r, s') := router_receive x timeout s in (heard_between s s', match r with Ok (Some t) => [(x, t)] | _ => [] end, s')
  | R_unsubscribe x id => let '(_, s') := router_unsubscribe x id s in ([], [], s')
  end.

Fixpoint router_run (cs : list router_call) s : passing * passing * router :=
  match cs with
  | [] => ([], [], s)
  | c :: cs =>
      let '(heard1, handed1, s1) := router_step c s in let '(heard2, handed2, s2) := router_run cs s1 in
      (heard1 ++ heard2, handed1 ++ handed2, s2)
  end.

(** ** The cases of a call to [receive] *)

Inductive received x s : res (option MarketTick) -> router -> Prop :=
| rc_nothing r s' : (forall t, r <> Ok (Some t)) -> given s' = given s -> (forall y, queue_of y s' = queue_of y s) ->
    (forall y, dropped_of y s' = dropped_of y s) -> received x s r s'
| rc_queued t s' : queue_of x s = t :: queue_of x s' -> given s' = given s -> (forall y, y <> x -> queue_of y s' = queue_of y s) ->
    (forall y, dropped_of y s' = dropped_of y s) -> received x s (Ok (Some t)) s'
| rc_own t s' : queue_of x s = [] -> owner s t = Some x -> given s' = given s ++ [t] -> (forall y, queue_of y s' = queue_of y s) ->
    (forall y, dropped_of y s' = dropped_of y s) -> received x s (Ok (Some t)) s'
| rc_foreign t y s' : y <> x -> owner s t = Some y -> Z.of_nat (length (queue_of y s)) < ro_queue_size s -> given s' = given s ++ [t] -> queue_of y s' = queue_of y s ++ [t] ->
    (forall z, z <> y -> queue_of z s' = queue_of z s) -> (forall z, dropped_of z s' = dropped_of z s) -> received x s (Ok None) s'
| rc_dropped t y s' e : y <> x -> owner s t = Some y -> given s' = given s ++ [t] -> (forall z, queue_of z s' = queue_of z s) ->
    dropped_of y s' = dropped_of y s + 1 -> (forall z, z <> y -> dropped_of z s' = dropped_of z s) -> received x s (Err e) s'
| rc_stray t s' e : owner s t = None -> given s' = given s ++ [t] -> (forall y, queue_of y s' = queue_of y s) ->
    (forall y, dropped_of y s' = dropped_of y s) -> received x s (Err e) s'.

Lemma put_route_run x f s : put_route x f s = (Ok tt, s <| ro_routes ::= alter f x |>).
Proof. done. Qed.

(** A change of one route. *)
Lemma altered x f route s s' :
  ro_routes s !! x = Some route -> ro_routes s' = alter f x (ro_routes s) ->
  queue_of x s' = ru_ticks (f route) /\ dropped_of x s' = ru_dropped_ticks (f route)
  /\ forall y, y <> x -> queue_of y s' = queue_of y s /\ dropped_of y s' = dropped_of y s.
Proof.
  intros Hx E. unfold queue_of, dropped_of. rewrite E, lookup_alter_eq, Hx. split_and!; [done|done|]. intros y Hy. by rewrite lookup_alter_ne.
Qed.

(** [target_for] finds the owner. *)
Lemma target_for_run t s r s' :
  target_for t s = (r, s') ->
  given s' = given s /\ ro_routes s' = ro_routes s /\ ro_queue_size s' = ro_queue_size s
  /\ match owner s t with Some y => r = Ok y | None => exists e, r = Err e end.
Proof.
  unfold target_for, owner. rewrite py_bind_run. cbn [py_gets]. destruct (bool_decide _); cbn [negb].
  2:{ rewrite py_bind_run. intros [= <- <-]. split_and!; try done. destruct (_ !! _); by eexists. }
  rewrite py_bind_run. cbn [py_gets]. destruct (ro_subscriptions s !! _) as [y|]; [|rewrite py_bind_run; intros [= <- <-]; split_and!; try done; by eexists].
  unfold validate_tick. rewrite py_bind_run. destruct (matches_series t y); cbn [andb]; intros [= <- <-]; split_and!; try done; by eexists.
Qed.

(** ** The invariant of a router *)

Record router_ok s : Prop := mk_router_ok {
  rk_subscriptions : forall id x, ro_subscriptions s !! id = Some x <-> exists r, ro_routes s !! x = Some r /\ ru_subscription_id r = Some id;
  rk_queues : forall x, Z.of_nat (length (queue_of x s)) <= ro_queue_size s /\ Forall (fun t => matches_series t x = true) (queue_of x s);
  rk_routes : Z.of_nat (size (ro_routes s)) <= ro_max_series s
}.

Lemma owner_registered s t x : router_ok s -> owner s t = Some x -> is_Some (ro_routes s !! x).
Proof.
  intros R. unfold owner. destruct (_ !! _) as [y|] eqn:E; [|done]. destruct (_ && _); [|done]. intros [= ->].
  apply (rk_subscriptions _ R) in E as (r & -> & _). by eexists.
Qed.

Lemma owner_matches s t x : owner s t = Some x -> matches_series t x = true.
Proof. unfold owner. destruct (_ !! _) as [y|]; [|done]. destruct (_ && _) eqn:E; [|done]. intros [= ->]. by apply andb_true_iff in E as [_ ?]. Qed.

(** Neither the queues nor the counts of dropped ticks change. *)
Definition undisturbed s s' : Prop := forall y, queue_of y s' = queue_of y s /\ dropped_of y s' = dropped_of y s.

Lemma enqueue_cases y t s r s' : is_Some (ro_routes s !! y) -> enqueue y t s = (r, s') ->
  given s' = given s
  /\ ((exists e, r = Err e) /\ (forall z, queue_of z s' = queue_of z s) /\ dropped_of y s' = dropped_of y s + 1
       /\ (forall z, z <> y -> dropped_of z s' = dropped_of z s)
      \/ r = Ok tt /\ Z.of_nat (length (queue_of y s)) < ro_queue_size s /\ queue_of y s' = queue_of y s ++ [t] /\ (forall z, z <> y -> queue_of z s' = queue_of z s)
         /\ (forall z, dropped_of z s' = dropped_of z s)).
Proof.
  intros [route Hr]. unfold enqueue. rewrite py_bind_run. unfold route_of. rewrite Hr. rewrite py_bind_run. cbn [py_gets].
  assert (queue_of y s = ru_ticks route /\ dropped_of y s = ru_dropped_ticks route) as [Hq Hd] by (unfold queue_of, dropped_of; by rewrite Hr).
  destruct (Z.leb_spec (ro_queue_size s) (Z.of_nat (length (ru_ticks route)))) as [Hfull|Hfree].
  - rewrite py_bind_run, put_route_run, py_bind_run. intros [= <- Es]. split; [by subst s'|]. left. split; [by eexists|].
    destruct (altered y (fun r => r <| ru_dropped_ticks ::= Z.succ |>) route s s' Hr) as (Q & D & O); [by subst s'|].
    split; [|split; [rewrite D; cbn; lia|intros z Hz; by apply O]]. intros z. destruct (decide (z = y)) as [->|Hz]; [by rewrite Q, Hq|by apply O].
  - rewrite put_route_run. intros [= <- Es]. split; [by subst s'|]. right. split; [done|]. split; [by rewrite Hq|].
    destruct (altered y (fun r => r <| ru_ticks ::= fun l => l ++ [t] |> <| ru_routed_ticks ::= Z.succ |>) route s s' Hr) as (Q & D & O); [by subst s'|].
    split; [by rewrite Q, Hq|]. split; [intros z Hz; by apply O|]. intros z. destruct (decide (z = y)) as [->|Hz]; [by rewrite D, Hd|by apply O].
Qed.

(** What follows the arrival of a tick. *)
Lemma arrival_cases x t s s1 r s' : router_ok s -> queue_of x s = [] -> is_Some (ro_routes s !! x) ->
  given s1 = given s ++ [t] -> ro_routes s1 = ro_routes s -> ro_queue_size s1 = ro_queue_size s -> owner s1 t = owner s t ->
  (target ← target_for t;
   if bool_decide (target = x) then _ ← put_route x (fun r => r <| ru_received_ticks ::= Z.succ |>); mret (Some t)
   else _ ← enqueue target t; mret None) s1 = (r, s') -> received x s r s'.
Proof.
  intros R Hq [route Ex] Hg Hr Hs Ho. rewrite py_bind_run. destruct (target_for t s1) as [rt s2] eqn:Et.
  apply target_for_run in Et as (G2 & R2 & L2 & Hown). rewrite Ho in Hown. rewrite Hr in R2. rewrite Hg in G2.
  assert (forall y, queue_of y s2 = queue_of y s /\ dropped_of y s2 = dropped_of y s) as Same by (intros y; unfold queue_of, dropped_of; by rewrite R2).
  destruct (owner s t) as [y|] eqn:Eo; [|destruct Hown as [e ->]; intros [= <- <-]; apply (rc_stray x s t); [done|done|intros; apply Same|intros; apply Same]].
  subst rt. case_bool_decide as Hyx.
  - subst y. rewrite py_bind_run, put_route_run. intros [= <- Es]. rewrite <- R2 in Ex.
    destruct (altered x (fun r => r <| ru_received_ticks ::= Z.succ |>) route s2 s' Ex) as (Q & D & O); [by subst s'|].
    assert (forall y, queue_of y s' = queue_of y s2 /\ dropped_of y s' = dropped_of y s2) as Same'.
    { intros y. destruct (decide (y = x)) as [->|Hy]; [|by apply O]. unfold queue_of at 2, dropped_of at 2. by rewrite Q, D, Ex. }
    apply rc_own; [done|done|by subst s'|intros y; destruct (Same' y) as [-> _]; apply Same|intros y; destruct (Same' y) as [_ ->]; apply Same].
  - rewrite py_bind_run. destruct (enqueue y t s2) as [re s3] eqn:Ee. apply enqueue_cases in Ee as (G3 & Hcase).
    2:{ rewrite R2. by eapply owner_registered. }
    destruct Hcase as [([e ->] & Q & D & O)|(-> & F & Q & QO & D)]; intros [= <- <-].
    + apply (rc_dropped x s t y); [done|done|congruence|intros z; rewrite Q; apply Same|rewrite D; f_equal; apply Same|].
      intros z Hz. rewrite O by done. apply Same.
    + apply (rc_foreign x s t y); [done|done|rewrite <- Hs, <- L2; by destruct (Same y) as [<- _]|congruence|rewrite Q; f_equal; apply Same| |intros z; rewrite D; apply Same].
      intros z Hz. rewrite QO by done. apply Same.
Qed.

Lemma receive_cases x timeout s r s' : router_ok s -> router_receive x timeout s = (r, s') -> received x s r s'.
Proof.
  intros R. unfold router_receive. rewrite py_bind_run. unfold py_guard. destruct (negb _); [|intros [= <- <-]; by apply rc_nothing].
  change ((mret tt : py router unit) s) with (@Ok unit tt, s). cbv iota. rewrite py_bind_run. unfold get_queued, route_of.
  rewrite py_bind_run. destruct (ro_routes s !! x) as [route|] eqn:Ex; [|intros [= <- <-]; by apply rc_nothing].
  assert (queue_of x s = ru_ticks route /\ dropped_of x s = ru_dropped_ticks route) as [Hq Hd] by (unfold queue_of, dropped_of; by rewrite Ex).
  destruct (ru_ticks route) as [|t rest] eqn:Et.
  2:{ rewrite py_bind_run, put_route_run. intros [= <- Es].
      destruct (altered x (fun r => r <| ru_ticks := rest |> <| ru_received_ticks ::= Z.succ |>) route s s' Ex) as (Q & D & O); [by subst s'|].
      apply rc_queued; [by rewrite Hq, Q|by subst s'|intros y Hy; by apply O|].
      intros z. destruct (decide (z = x)) as [->|Hz]; [by rewrite D, Hd|by apply O]. }
  change ((mret None : py router (option MarketTick)) s) with (@Ok (option MarketTick) None, s). cbv iota. rewrite py_bind_run.
  unfold on_source, py_zoom at 1. cbn [receive_market_tick source_recorded recorded].
  destruct (receive_market_tick timeout (fst (ro_source s))) as [[[t|]|e] w].
  2:{ rewrite py_bind_run. intros [= <- <-]. by apply rc_nothing. }
  2:{ intros [= <- <-]. by apply rc_nothing. }
  rewrite py_bind_run. cbn [py_modify]. apply arrival_cases; try done; by rewrite Ex.
Qed.

(** ** Every call keeps the invariant *)

(** The subscriptions, the limits and the registered series. *)
Record same_wiring s s' : Prop := mk_same_wiring {
  sw_subscriptions : ro_subscriptions s' = ro_subscriptions s;
  sw_limits : ro_queue_size s' = ro_queue_size s /\ ro_max_series s' = ro_max_series s;
  sw_routes : forall x, ru_subscription_id <$> ro_routes s' !! x = ru_subscription_id <$> ro_routes s !! x;
  sw_size : size (ro_routes s') = size (ro_routes s)
}.

#[local] Instance same_wiring_order : PreOrder same_wiring.
Proof.
  split; [by split|]. intros a b c [A1 [A2 A3] A4 A5] [B1 [B2 B3] B4 B5]. split; [congruence|split; congruence| |congruence].
  intros x. by rewrite B4.
Qed.

Lemma put_route_wiring x f : (forall r, ru_subscription_id (f r) = ru_subscription_id r) -> steps same_wiring (put_route x f : py router unit).
Proof.
  intros Hf s. cbn. split; [done|done| |].
  - intros y. cbn. destruct (decide (y = x)) as [->|Hy]; [|by rewrite lookup_alter_ne]. rewrite lookup_alter_eq. destruct (_ !! x); [|done]. cbn. by rewrite Hf.
  - cbn. rewrite <- !size_dom, dom_alter_L. done.
Qed.

Lemma modify_wiring (f : router -> router) : (forall s, same_wiring s (f s)) -> steps same_wiring (py_modify f).
Proof. intros Hf s. apply Hf. Qed.

Lemma on_source_wiring {A} (m : py (T * list MarketTick) A) : steps same_wiring (on_source m : py router A).
Proof. intros s. unfold on_source, py_zoom. destruct (m _). by split. Qed.

Lemma route_of_wiring x : steps same_wiring (route_of x : py router RouteState).
Proof. intros s. unfold route_of. by destruct (_ !! _). Qed.

#[local] Hint Resolve on_source_wiring route_of_wiring : steps.
#[local] Hint Extern 2 (steps same_wiring (put_route _ _)) => (apply put_route_wiring; done) : steps.
#[local] Hint Extern 2 (steps same_wiring (py_modify _)) => (apply modify_wiring; intros ?; by split) : steps.

Lemma validate_wiring t x : steps same_wiring (validate_tick t x : py router unit).
Proof. unfold validate_tick, count_unroutable. steps_solve. Qed.
#[local] Hint Resolve validate_wiring : steps.

Lemma receive_wiring x timeout : steps same_wiring (router_receive x timeout : py router (option MarketTick)).
Proof. unfold router_receive, get_queued, target_for, enqueue, count_unroutable. steps_solve. Qed.

(** The invariant speaks of the wiring and the queues only. *)
Lemma rewired s s' : router_ok s -> same_wiring s s' ->
  (forall x, Z.of_nat (length (queue_of x s')) <= ro_queue_size s /\ Forall (fun t => matches_series t x = true) (queue_of x s')) -> router_ok s'.
Proof.
  intros [R1 _ R3] [W1 [W2 W3] W4 W5] HQ. split; [|by rewrite W2|by rewrite W5, W3].
  intros id x. rewrite W1, R1. specialize (W4 x). destruct (ro_routes s' !! x), (ro_routes s !! x); try done; cbn in W4.
  injection W4 as W4. split; intros (q & [= <-] & Hq); eexists; (split; [reflexivity|congruence]).
Qed.

Lemma receive_ok x timeout s r s' : router_ok s -> router_receive x timeout s = (r, s') -> router_ok s'.
Proof.
  intros R E. pose proof (steps_run _ _ _ _ _ (receive_wiring x timeout) E) as W. apply (rewired s); [done|done|]. intros y.
  destruct (rk_queues _ R y) as [L F]. pose proof (receive_cases _ _ _ _ _ R E) as C.
  inversion C as [? ? _ _ Q _|t ? Q _ QO _|t ? _ _ _ Q _|t z ? _ Ho Hfree _ Q QO _|? ? ? ? _ _ _ Q _ _|? ? ? _ _ Q _]; subst; try by rewrite Q.
  - destruct (decide (y = x)) as [->|Hy]; [|by rewrite QO]. rewrite Q in L, F. cbn [length] in L. apply Forall_cons in F as [_ F]. split; [lia|done].
  - destruct (decide (y = z)) as [->|Hy]; [|by rewrite QO]. rewrite Q, length_app. cbn [length]. split; [lia|].
    apply Forall_app. split; [done|]. constructor; [by eapply owner_matches|constructor].
Qed.

Lemma register_cases x s r s' : router_register x s = (r, s') ->
  s' = s \/ (r = Ok tt /\ ro_routes s !! x = None /\ Z.of_nat (size (ro_routes s)) < ro_max_series s /\
            s' = s <| ro_routes ::= <[ x := mk_RouteState [] None 0 0 0 ]> |> <| ro_order ::= fun l => l ++ [x] |>).
Proof.
  unfold router_register, py_guard. rewrite py_bind_run. cbn [py_gets id]. rewrite py_bind_run. destruct (bool_decide _); [|intros [= _ <-]; by left].
  change ((mret tt : py router unit) s) with (@Ok unit tt, s). cbv iota. rewrite py_bind_run. case_bool_decide as Hx; [|intros [= _ <-]; by left].
  change ((mret tt : py router unit) s) with (@Ok unit tt, s). cbv iota. rewrite py_bind_run.
  destruct (Z.ltb_spec (Z.of_nat (size (ro_routes s))) (ro_max_series s)); [|intros [= _ <-]; by left]. intros [= <- <-]. right. done.
Qed.

Lemma register_ok x s r s' : router_ok s -> router_register x s = (r, s') -> router_ok s' /\ undisturbed s s' /\ given s' = given s.
Proof.
  intros R [->|(-> & Hx & Hn & ->)]%register_cases; [done|].
  assert (undisturbed s (s <| ro_routes ::= <[ x := mk_RouteState [] None 0 0 0 ]> |> <| ro_order ::= fun l => l ++ [x] |>)) as U.
  { intros y. unfold queue_of, dropped_of. cbn. destruct (decide (y = x)) as [->|Hy]; [by rewrite lookup_insert_eq, Hx|by rewrite lookup_insert_ne]. }
  split; [|done]. split.
  - intros id y. cbn. rewrite (rk_subscriptions _ R). destruct (decide (y = x)) as [->|Hy]; [|by rewrite lookup_insert_ne].
    rewrite lookup_insert_eq, Hx. split; [by intros (? & ? & _)|intros (? & [= <-] & ?); done].
  - intros y. destruct (U y) as [-> _]. apply R.
  - cbn. rewrite map_size_insert_None by done. lia.
Qed.

(** Nothing but the source and the counters changes. *)
Record idle s s' : Prop := mk_idle {
  id_routes : ro_routes s' = ro_routes s;
  id_subscriptions : ro_subscriptions s' = ro_subscriptions s;
  id_limits : ro_queue_size s' = ro_queue_size s /\ ro_max_series s' = ro_max_series s;
  id_given : given s' = given s
}.

#[local] Instance idle_order : PreOrder idle.
Proof. split; [by split|]. intros a b c [A1 A2 [A3 A4] A5] [B1 B2 [B3 B4] B5]. split; [congruence|congruence|split; congruence|congruence]. Qed.

Lemma validate_idle t x : steps idle (validate_tick t x : py router unit).
Proof. intros s. unfold validate_tick. destruct (matches_series t x); by split. Qed.

Lemma subscribe_idle symbol : steps idle (on_source (subscribe_market_ticks symbol) : py router MarketTick).
Proof. intros s. unfold on_source, py_zoom. cbn. unfold py_zoom. destruct (subscribe_market_ticks symbol _). by split. Qed.

(** A subscription that was taken over. *)
Record taken x id s s' : Prop := mk_taken {
  tk_free : forall y, ro_subscriptions s !! id = Some y -> y = x;
  tk_route : exists route, ro_routes s !! x = Some route
    /\ ro_subscriptions s' = <[ id := x ]> (match ru_subscription_id route with Some old => delete old (ro_subscriptions s) | None => ro_subscriptions s end)
    /\ ro_routes s' = alter (fun r => r <| ru_subscription_id := Some id |> <| ru_received_ticks ::= Z.succ |>) x (ro_routes s);
  tk_limits : ro_queue_size s' = ro_queue_size s /\ ro_max_series s' = ro_max_series s;
  tk_given : given s' = given s
}.

Lemma take_subscription_run x id s r s' :
  (forall y, ro_subscriptions s !! id = Some y -> y = x) -> take_subscription x id s = (r, s') -> s' = s \/ taken x id s s'.
Proof.
  intros Hfree. unfold take_subscription. rewrite py_bind_run. unfold route_of. destruct (ro_routes s !! x) as [route|] eqn:Ex; [|intros [= _ <-]; by left].
  rewrite py_bind_run. destruct (ru_subscription_id route) eqn:Es; cbn -[alter delete insert]; intros [= _ <-]; right; (split; [done| |done|done]);
    exists route; by rewrite Es.
Qed.

Lemma subscribe_cases x symbol s r s' : router_subscribe x symbol s = (r, s') ->
  idle s s' \/ exists s1 id, idle s s1 /\ taken x id s1 s'.
Proof.
  unfold router_subscribe. rewrite py_bind_run. unfold route_of at 1. destruct (ro_routes s !! x) as [route|] eqn:Ex; [|intros [= _ <-]; by left].
  rewrite py_bind_run. unfold py_guard at 1. destruct (String.eqb _ _); [|intros [= _ <-]; by left].
  change ((mret tt : py router unit) s) with (@Ok unit tt, s). cbv iota. rewrite py_bind_run.
  destruct (on_source (subscribe_market_ticks symbol) s) as [[initial|e] s1] eqn:E1; pose proof (steps_run _ _ _ _ _ (subscribe_idle _) E1) as I1;
    [|intros [= _ <-]; by left].
  rewrite py_bind_run. destruct (validate_tick initial x s1) as [[?|e] s2] eqn:E2; pose proof (steps_run _ _ _ _ _ (validate_idle _ _) E2) as I2;
    assert (idle s s2) as I by (by transitivity s1); [|intros [= _ <-]; by left].
  rewrite py_bind_run. cbn [py_gets]. cbv zeta. rewrite py_bind_run. unfold py_guard. case_bool_decide as Hn; [intros [= _ <-]; by left|].
  change ((if negb false then (mret tt : py router unit) else py_raise scope_mismatch) s2) with (@Ok unit tt, s2). cbv iota. rewrite py_bind_run.
  destruct (take_subscription x _ s2) as [rk s3] eqn:E3. apply take_subscription_run in E3.
  - destruct rk; intros [= _ <-]; (destruct E3 as [->|E3]; [by left|right; by exists s2, (mt_subscription_id initial)]).
  - intros y Hy. destruct (decide (y = x)) as [->|Hne]; [done|]. exfalso. apply Hn. rewrite Hy. split; [done|congruence].
Qed.

Lemma idle_ok s s' : router_ok s -> idle s s' -> router_ok s' /\ undisturbed s s' /\ given s' = given s.
Proof.
  intros [R1 R2 R3] [I1 I2 [I3 I4] I5]. assert (undisturbed s s') as U by (intros y; unfold queue_of, dropped_of; by rewrite I1).
  split; [|done]. split; [by rewrite I1, I2|intros x; destruct (U x) as [-> _]; by rewrite I3|by rewrite I1, I4].
Qed.

(** Who owns a subscription after it was taken over. *)
Lemma taken_subscriptions x id s s' : router_ok s -> taken x id s s' ->
  forall id' y, ro_subscriptions s' !! id' = Some y <-> exists r, ro_routes s' !! y = Some r /\ ru_subscription_id r = Some id'.
Proof.
  intros R [Hfree (route & Ex & Es & Er) _ _] id' y. pose proof (rk_subscriptions _ R) as R1. rewrite Es, Er.
  set (subs := match ru_subscription_id route with Some _ => _ | None => _ end).
  assert (forall z, subs !! id' = Some z <-> ro_subscriptions s !! id' = Some z /\ ru_subscription_id route <> Some id') as Hsubs.
  { intros z. unfold subs. destruct (ru_subscription_id route) as [old|] eqn:Eo; [|naive_solver].
    destruct (decide (old = id')) as [->|Hn]; [rewrite lookup_delete_eq; naive_solver|rewrite lookup_delete_ne by done; naive_solver]. }
  destruct (decide (y = x)) as [->|Hy].
  - rewrite lookup_alter_eq, Ex. destruct (decide (id' = id)) as [->|Hid]; [rewrite lookup_insert_eq; split; [intros _; by eexists|done]|].
    rewrite lookup_insert_ne by done. rewrite Hsubs, R1. split; [intros [(q & Hq & ?) Hn]; congruence|].
    intros (q & [= <-] & Hq). cbn in Hq. congruence.
  - rewrite lookup_alter_ne by done. rewrite <- R1. destruct (decide (id' = id)) as [->|Hid].
    + rewrite lookup_insert_eq. split; [congruence|]. intros Hs. by apply Hfree in Hs.
    + rewrite lookup_insert_ne by done. rewrite Hsubs. split; [by intros [? _]|]. intros Hs. split; [done|]. intros Ho.
      assert (ro_subscriptions s !! id' = Some x) by (apply R1; by eexists). congruence.
Qed.

Lemma subscribe_ok x symbol s r s' : router_ok s -> router_subscribe x symbol s = (r, s') -> router_ok s' /\ undisturbed s s' /\ given s' = given s.
Proof.
  intros R [I|(s1 & id & I & K)]%subscribe_cases; [by apply idle_ok|]. destruct (idle_ok _ _ R I) as (R1 & U1 & G1).
  pose proof (taken_subscriptions _ _ _ _ R1 K) as Hs. destruct K as [_ (route & Ex & _ & Er) [L1 L2] G].
  assert (undisturbed s1 s') as U2.
  { destruct (altered x _ route s1 s' Ex Er) as (Q & D & O). intros y. destruct (decide (y = x)) as [->|Hy]; [|by apply O].
    unfold queue_of at 2, dropped_of at 2. by rewrite Q, D, Ex. }
  split; [|split; [intros y; destruct (U1 y), (U2 y); split; congruence|congruence]]. split; [done| |].
  - intros y. destruct (U2 y) as [-> _]. rewrite L1. apply R1.
  - rewrite L2, Er, <- size_dom, dom_alter_L, size_dom. apply R1.
Qed.

Lemma unsubscribe_ok x id s r s' : router_ok s -> router_unsubscribe x id s = (r, s') ->
  router_ok s' /\ (forall y, dropped_of y s' = dropped_of y s) /\ (forall y, y <> x -> queue_of y s' = queue_of y s)
  /\ (queue_of x s' = queue_of x s \/ queue_of x s' = []).
Proof.
  intros R. unfold router_unsubscribe. rewrite py_bind_run. unfold route_of. destruct (ro_routes s !! x) as [route|] eqn:Ex; [|intros [= _ <-]; auto].
  rewrite py_bind_run. unfold py_guard. case_bool_decide as Hid; [|intros [= _ <-]; auto].
  change ((mret tt : py router unit) s) with (@Ok unit tt, s). cbv iota. unfold py_finally, on_source, py_zoom. destruct (unsubscribe_market_ticks id _) as [r1 w].
  intros [= _ Es]. destruct (altered x (fun r => r <| ru_subscription_id := None |> <| ru_ticks := [] |>) route s s' Ex) as (Q & D & O); [by subst s'|].
  pose proof R as [R1 R2 R3]. split; [|split; [|split; [intros y Hy; by apply O|right; by rewrite Q]]].
  - split.
    + intros id' y. subst s'. cbn. destruct (decide (y = x)) as [->|Hy].
      * rewrite lookup_alter_eq, Ex. split; [|by intros (q & [= <-] & ?)]. intros Hs. apply lookup_delete_Some in Hs as [Hn Hs].
        apply R1 in Hs as (q & Hq & Hs). congruence.
      * rewrite lookup_alter_ne by done. rewrite <- R1, lookup_delete_Some. split; [by intros [_ ?]|]. intros Hs. split; [|done]. intros <-.
        assert (ro_subscriptions s !! id = Some x) by (apply R1; by eexists). congruence.
    + intros y. assert (ro_queue_size s' = ro_queue_size s) as -> by (by subst s'). destruct (decide (y = x)) as [->|Hy].
      * rewrite Q. cbn. destruct (R2 x). split; [lia|constructor].
      * destruct (O y Hy) as [-> _]. apply R2.
    + subst s'. cbn. by rewrite <- size_dom, dom_alter_L, size_dom.
  - intros y. destruct (decide (y = x)) as [->|Hy]; [|by apply O]. rewrite D. unfold dropped_of. by rewrite Ex.
Qed.

(** ** The flow of ticks *)

Lemma picked_app x l1 l2 : picked x (l1 ++ l2) = picked x l1 ++ picked x l2.
Proof. unfold picked. by rewrite List.filter_app, fmap_app. Qed.

Lemma picked_one x y t : picked x [(y, t)] = if decide (y = x) then [t] else [].
Proof. unfold picked. simpl. destruct (decide (y = x)); [by rewrite bool_decide_true|by rewrite bool_decide_false]. Qed.

Lemma heard_none s s' : given s' = given s -> heard_between s s' = [].
Proof. intros E. unfold heard_between. by rewrite E, drop_all. Qed.

Lemma heard_one s s' t : given s' = given s ++ [t] -> heard_between s s' = match owner s t with Some x => [(x, t)] | None => [] end.
Proof. intros E. unfold heard_between. rewrite E, drop_app_length. simpl. by destruct (owner s t). Qed.

(** What a call does to a series: ticks pass through its queue, one is dropped, or the
    queue is emptied. *)
Inductive moved (x : MarketSeriesId) (c : router_call) s s' (heard handed : list MarketTick) : Prop :=
| mv_pass : handed ++ queue_of x s' = queue_of x s ++ heard -> dropped_of x s' = dropped_of x s -> moved x c s s' heard handed
| mv_drop : handed = [] -> queue_of x s' = queue_of x s -> length heard = 1%nat -> dropped_of x s' = dropped_of x s + 1 -> moved x c s s' heard handed
| mv_drain id : c = R_unsubscribe x id -> heard = [] -> handed = [] -> queue_of x s' = [] -> dropped_of x s' = dropped_of x s ->
    moved x c s s' heard handed.

Lemma moved_still x c s s' : undisturbed s s' -> moved x c s s' [] [].
Proof. intros U. destruct (U x) as [Q D]. apply mv_pass; [by rewrite Q, app_nil_r|done]. Qed.

Lemma receive_moved x y timeout s r s' : router_ok s -> router_receive y timeout s = (r, s') ->
  moved x (R_receive y timeout) s s' (picked x (heard_between s s')) (picked x (match r with Ok (Some t) => [(y, t)] | _ => [] end)).
Proof.
  intros R E. apply receive_cases in E; [|done].
  destruct E as [r s' Hr G Q D|t s' Q G QO D|t s' Q Ho G QS D|t z s' Hz Ho _ G Q QO D|t z s' e Hz Ho G Q D DO|t s' e Ho G Q D].
  - rewrite heard_none by done. destruct r as [[t|]|e]; [by destruct (Hr t)| |]; by apply moved_still.
  - rewrite heard_none, picked_one by done. destruct (decide (y = x)) as [->|Hy]; (apply mv_pass; [|by apply D]); simpl.
    + rewrite app_nil_r. by rewrite Q.
    + rewrite app_nil_r. by apply QO.
  - rewrite (heard_one _ _ t), Ho, !picked_one by done. destruct (decide (y = x)) as [->|Hy]; (apply mv_pass; [|by apply D]); rewrite QS; [by rewrite Q|by rewrite app_nil_r].
  - rewrite (heard_one _ _ t), Ho, picked_one by done. apply mv_pass; [|by apply D]. simpl.
    destruct (decide (z = x)) as [->|Hx]; [done|rewrite app_nil_r; by apply QO].
  - rewrite (heard_one _ _ t), Ho, picked_one by done. destruct (decide (z = x)) as [->|Hx]; [by apply mv_drop|].
    apply mv_pass; [by rewrite app_nil_r, Q|by apply DO].
  - rewrite (heard_one _ _ t), Ho by done. by apply moved_still.
Qed.

Lemma step_ok c s heard handed s' : router_ok s -> router_step c s = (heard, handed, s') ->
  router_ok s' /\ forall x, moved x c s s' (picked x heard) (picked x handed) /\ Forall (fun t => matches_series t x = true) (picked x heard).
Proof.
  intros R. destruct c as [y|y symbol|y timeout|y id]; cbn [router_step].
  - destruct (router_register y s) as [r s1] eqn:E. intros [= <- <- <-]. apply register_ok in E as (R' & U & _); [|done].
    split; [done|]. intros x. split; [by apply moved_still|constructor].
  - destruct (router_subscribe y symbol s) as [r s1] eqn:E. intros [= <- <- <-]. apply subscribe_ok in E as (R' & U & _); [|done].
    split; [done|]. intros x. split; [by apply moved_still|constructor].
  - destruct (router_receive y timeout s) as [r s1] eqn:E. intros [= <- <- <-]. split; [by eapply receive_ok|]. intros x.
    split; [by eapply receive_moved|]. apply Forall_forall. intros t Ht. apply list_elem_of_fmap in Ht as ([z t'] & -> & Hp).
    apply list_elem_of_In, filter_In in Hp as [Hp%list_elem_of_In Hz%bool_decide_eq_true]. cbn in Hz. subst z.
    apply list_elem_of_omap in Hp as (t & _ & Hp). destruct (owner s t) as [z|] eqn:Eo; [|done]. injection Hp as -> ->. by eapply owner_matches.
  - destruct (router_unsubscribe y id s) as [r s1] eqn:E. intros [= <- <- <-]. apply unsubscribe_ok in E as (R' & D & O & Q); [|done].
    split; [done|]. intros x. split; [|constructor]. destruct (decide (x = y)) as [->|Hx]; [|apply mv_pass; [by rewrite O, app_nil_r|done]].
    destruct Q as [Q|Q]; [apply mv_pass; [by rewrite Q, app_nil_r|done]|by eapply mv_drain].
Qed.

Lemma run_flow cs s heard handed s' : router_ok s -> router_run cs s = (heard, handed, s') ->
  router_ok s' /\ forall x,
    picked x handed ++ queue_of x s' `sublist_of` queue_of x s ++ picked x heard
    /\ Forall (fun t => matches_series t x = true) (picked x heard)
    /\ ((forall id, R_unsubscribe x id ∉ cs) ->
        Z.of_nat (length (queue_of x s) + length (picked x heard))
        = Z.of_nat (length (picked x handed) + length (queue_of x s')) + (dropped_of x s' - dropped_of x s)).
Proof.
  revert s heard handed. induction cs as [|c cs IH]; intros s heard handed R E; cbn [router_run] in E.
  { injection E as <- <- <-. split; [done|]. intros x. split_and!; [by rewrite app_nil_r|constructor|intros _; cbn; lia]. }
  destruct (router_step c s) as [[h1 d1] s1] eqn:E1. destruct (router_run cs s1) as [[h2 d2] s2] eqn:E2. injection E as <- <- <-.
  apply step_ok in E1 as [R1 M]; [|done]. apply IH in E2 as [R2 F]; [|done]. split; [done|]. intros x. destruct (M x) as [Mx Fx], (F x) as (S2 & F2 & N2).
  rewrite !picked_app, !length_app, <- !app_assoc. split_and!; [|by apply Forall_app|].
  - destruct Mx as [Hq _| -> Hq _ _|id _ -> -> Hq _].
    + rewrite (app_assoc (queue_of x s)), <- Hq, <- app_assoc. by apply sublist_app.
    + rewrite Hq in S2. etransitivity; [exact S2|]. apply sublist_app, sublist_inserts_l; reflexivity.
    + rewrite Hq in S2. etransitivity; [exact S2|]. apply sublist_inserts_l. reflexivity.
  - intros Hu. assert (forall id, R_unsubscribe x id ∉ cs) as Hu' by (intros id Hin; apply (Hu id); by right). specialize (N2 Hu').
    destruct Mx as [Hq HD| -> Hq Hh HD|id -> _ _ _ _]; [|cbn [length]; rewrite Hq in N2; lia|destruct (Hu id); left].
    apply (f_equal length) in Hq. rewrite !length_app in Hq. lia.
Qed.
End router.

(** A sublist as long as the list is the list. *)
Lemma sublist_full {A} (l k : list A) : l `sublist_of` k -> length l = length k -> l = k.
Proof.
  induction 1 as [|x l k Hs IH|x l k Hs IH]; [done| |]; simpl; intros Hl; [f_equal; apply IH; lia|].
  apply sublist_length in Hs. lia.
Qed.

(** C31: Whatever series are registered, subscribed, polled and unsubscribed, in whatever
    order, and whatever the shared stream gives or raises: what a series has been handed,
    followed by what waits in its queue, are ticks of the stream that belonged to the
    subscription of the series when they arrived, in the order of their arrival and each at
    most once; they are for the broker and the symbol of the series.  As long as the series
    is not unsubscribed, the ticks that are missing are exactly those counted as dropped, so
    that without a drop it has got or will get every one of them.  No queue exceeds its
    bound, no more series are registered than allowed, and every subscription has exactly
    one owner. *)
Theorem ticks_reach_their_series {T} (source : LiveTickSource T) broker w max_series queue_size cs s0 heard handed s' :
  new_SharedMarketTickRouter broker (w, []) max_series queue_size = Ok s0 ->
  router_run source cs s0 = (heard, handed, s') ->
  router_ok s' /\ forall x,
    picked x handed ++ queue_of x s' `sublist_of` picked x heard
    /\ Forall (fun t => matches_series t x = true) (picked x heard)
    /\ ((forall id, R_unsubscribe x id ∉ cs) ->
        Z.of_nat (length (picked x heard)) = Z.of_nat (length (picked x handed) + length (queue_of x s')) + dropped_of x s'
        /\ (dropped_of x s' = 0 -> picked x handed ++ queue_of x s' = picked x heard)).
Proof.
  unfold new_SharedMarketTickRouter. intros Hn Hrun. apply res_bind_Ok in Hn as (_ & Hg%guard_res_Ok & Hn). injection Hn as Hn.
  apply negb_true_iff, orb_false_iff in Hg as [H1%Z.leb_gt H2%Z.leb_gt].
  assert (forall x, queue_of x s0 = [] /\ dropped_of x s0 = 0) as Z0 by (intros x; subst s0; unfold queue_of, dropped_of; cbn; by rewrite lookup_empty).
  apply run_flow in Hrun as [R F].
  2:{ split; [subst s0; intros id x; cbn; rewrite !lookup_empty; split; [done|by intros (? & ? & _)]| |subst s0; cbn; rewrite map_size_empty; lia].
      intros x. destruct (Z0 x) as [-> _]. subst s0. cbn. split; [lia|constructor]. }
  split; [done|]. intros x. destruct (F x) as (S & HF & N), (Z0 x) as [Q0 D0]. rewrite Q0 in S, N. rewrite D0 in N. cbn [app length] in S, N.
  split; [done|]. split; [done|]. intros Hu. specialize (N Hu). split; [lia|]. intros HD. apply sublist_full; [done|]. rewrite length_app. lia.
Qed.
