(* ===== verification/LiveSamples.v ===== *)
(** * Sample runs of the live runtime

    The series and the source of history of the samples of the market pipeline, with a
    source of ticks that answers from a script.  The samples show that the theorems about
    polls and the router apply, and what becomes of the candle that was open when the runtime
    subscribed and of the ticks that wait in the router when the connection is lost. *)

From S2P Require Import Prelude Datetime Dec DecVal PyFloat FloatOrder Json Domain DerivJson Market Candles CandleProps MarketHealth.
From S2P Require Import MarketHealthProps DerivPump Backfill BackfillProps MarketScheduler SchedulerProps MarketSamples LiveCandles LiveRuntime LiveProps.
From S2P Require Import TickRouter RouterProps.
Import Samples.

Module Live.
(** The replies of the source, and the clock. *)
Record script : Type := mk_script { sc_replies : list (res (option MarketTick)); sc_now : Z }.

Definition next_reply : py script (option MarketTick) := fun w =>
  match sc_replies w with [] => (Ok None, w) | r :: rest => (r, mk_script rest (sc_now w)) end.

#[export] Instance scripted : LiveTickSource script := {
  subscribe_market_ticks _ := t ← next_reply; match t with Some t => mret t | None => py_raise (RuntimeError "no subscription") end;
  receive_market_tick _ := next_reply;
  unsubscribe_market_ticks _ := mret true
}.
#[export] Instance scripted_clock : MonotonicClock script := fun w => (Ok (float_of_Z (sc_now w)), w).

(** A quote of so many hundredths at so many seconds. *)
Definition quote (seconds hundredths : Z) : MarketTick :=
  mk_MarketTick DERIV "R_100" seconds (mk_dec hundredths (-2)) (moment seconds) "sub" "DERIV".
Definition heard (ts : list MarketTick) : list (res (option MarketTick)) := (fun t => Ok (Some t)) <$> ts.

(** Recoveries up to the given minute. *)
Definition history (minute : Z) : BackfillJob (pipeline (list delivery)) := fun x gen =>
  recover (H := logged no_decision) digest (coordinator 32) honest clock (Some (horizon minute)) None x gen.

Definition config : runtime_config (list delivery) := mk_runtime_config r100 Ticks.config default_capability None None (float_of_Z 20).

Definition fresh (replies : list (res (option MarketTick))) : live (list delivery) script :=
  mk_live (snd (schedule_series (float_of_Z 0) r100 None (float_of_Z 0) (mk_scheduler ∅ [] 0 ∅ None (registered 9))))
    (mk_ClosedCandleAggregator r100 100 None 1000 [] []) None None (mk_script replies 0).

Definition start (minute : Z) : py (live (list delivery) script) bool :=
  live_start (H := logged no_decision) (H0 := history minute) digest config Ticks.half.
Definition restore (minute now : Z) : py (live (list delivery) script) bool :=
  _ ← py_modify (fun s => s <| lv_world := mk_script (sc_replies (lv_world s)) now |>);
  recover_and_restore (H := logged no_decision) (H0 := history minute) digest config Ticks.half.
Definition poll : py (live (list delivery) script) (option LiveAggregationResult) :=
  poll_once (H := logged no_decision) digest config (float_of_Z 1).

(** The recovery reaches the end of minute 99; the subscription begins with a tick at half
    past minute 100. *)
Definition ticks : list MarketTick := [quote 6030 10040; quote 6045 10060; quote 6059 10020; quote 6061 10030].
Definition started : live (list delivery) script := snd (start 100 (fresh (heard ticks))).
Definition almost : live (list delivery) script := snd ((_ ← poll; poll) started).
Definition closed : live (list delivery) script := snd (poll almost).
End Live.
Import Live.

(** The candle of minute 100 is stored and delivered although it was heard from half past the
    minute on; the candle that the history has for this minute is another one. *)
Example first_candle_is_partial :
  fst (start 100 (fresh (heard ticks))) = Ok true
  /\ length (pp_decisions (pipe_of started)) = 9%nat /\ length (pp_decisions (pipe_of closed)) = 10%nat
  /\ (fun d => (cc_open_time_ms (fst d), cc_open_units (fst d), cc_close_units (fst d))) <$> last (pp_decisions (pipe_of closed))
     = Some (6000000, 10040, 10020)
  /\ (cc_open_time_ms (stored 100), cc_open_units (stored 100), cc_close_units (stored 100)) = (6000000, 10050, 10000).
Proof. vm_compute. split_and!; reflexivity. Qed.

(** The recovery after a lost connection asks for that minute again, and is refused for it. *)
Example partial_candle_conflicts :
  let '(r, s) := (_ ← on_disconnect config; restore 103 200) closed in
  r = Ok false /\ ss_health <$> pp_gate (pipe_of s) !! r100 = Some GAPPED /\ mm_backfill_failures (pp_metrics (pipe_of s)) = 1.
Proof. vm_compute. split_and!; reflexivity. Qed.

Lemma poll_almost : poll_once (H := pipeline_logged no_decision) digest config (float_of_Z 1) almost = (fst (poll almost), closed).
Proof. unfold closed, poll, pipeline_logged. apply surjective_pairing. Qed.

Lemma polled_candle_is_stored_witness :
  exists c s', delivered digest config almost s' c /\ cc_open_time_ms c = 6000000.
Proof.
  destruct (polled_candle_is_stored digest no_decision config (float_of_Z 1) almost closed (fst (poll almost)) poll_almost)
    as [(c & D & _)|L].
  - exists c, closed. split; [exact D|].
    assert (last (pp_decisions (pipe_of closed)) = Some (c, false)) as Hl by (destruct D as [D _]; rewrite D; apply last_snoc).
    assert ((fun d => cc_open_time_ms (fst d)) <$> last (pp_decisions (pipe_of closed)) = Some 6000000) as Ho by (vm_compute; reflexivity).
    rewrite Hl in Ho. injection Ho as Ho. exact Ho.
  - exfalso. apply (f_equal length) in L. revert L. vm_compute. discriminate.
Defined.

(** The source fails in the first poll. *)
Definition unlucky : live (list delivery) script :=
  started <| lv_world := mk_script [Err (RuntimeError "connection lost")] 30 |>.

Lemma lost_connection_closes_series_witness :
  exists s' state, poll unlucky = (Err (RuntimeError "connection lost"), s') /\ pp_gate (pipe_of s') !! r100 = Some (reconnecting state)
    /\ ss_health state = HEALTHY.
Proof.
  destruct (pp_gate (pipe_of unlucky) !! r100) as [state|] eqn:Es; [|exfalso; revert Es; vm_compute; discriminate].
  assert (ss_health state = HEALTHY) as Hh.
  { assert (ss_health <$> pp_gate (pipe_of unlucky) !! r100 = Some HEALTHY) as E1 by (vm_compute; reflexivity).
    rewrite Es in E1. injection E1 as E1. exact E1. }
  assert (fleb (float_of_Z 1) (float_of_Z 0) = false) as Ht by (vm_compute; reflexivity).
  assert (lv_subscription_id unlucky = Some "sub") as Hid by (vm_compute; reflexivity).
  assert (receive_market_tick (float_of_Z 1) (lv_world unlucky) = (Err (RuntimeError "connection lost"), mk_script [] 30)) as Hr by reflexivity.
  destruct (lost_connection_closes_series (H := logged no_decision) digest config (float_of_Z 1) unlucky "sub" state
              (RuntimeError "connection lost") (mk_script [] 30) Ht Hid Es Hh Hr) as (s' & E & D & _).
  exists s', state. split; [exact E|]. split; [|exact Hh]. rewrite (dc_gate _ _ _ _ D). apply lookup_insert_eq.
Defined.

Lemma candle_sums_up_its_ticks_witness :
  exists h a o c, feed (ticks ++ ticks) (mk_ClosedCandleAggregator r100 100 None 1000 [] []) = (h, a)
    /\ candle_of_bucket 60 100 o h c /\ cc_high_units c = 10060.
Proof.
  destruct (feed (ticks ++ ticks) (mk_ClosedCandleAggregator r100 100 None 1000 [] [])) as [h a] eqn:E.
  assert (exists e, nth_error h 3 = Some e /\ exists r c, e = (quote 6061 10030, Ok r) /\ la_candle r = Some c /\ cc_high_units c = 10060)
    as (e & He & r & c & -> & Hc & Hh).
  { pose proof (f_equal fst E) as E1. cbn [fst] in E1. rewrite <- E1. eexists. split; [vm_compute; reflexivity|].
    eexists _, _. split; [vm_compute; reflexivity|]. split; [vm_compute; reflexivity|vm_compute; reflexivity]. }
  assert (0 < si_timeframe_seconds r100) as Htf by (vm_compute; reflexivity).
  apply nth_error_In, list_elem_of_In in He.
  destruct (candle_sums_up_its_ticks r100 100 1000 (ticks ++ ticks) h a _ r c Htf E He Hc) as (o & Ho & _).
  exists h, a, o, c. split; [reflexivity|]. split; [exact Ho|exact Hh].
Defined.

(** ** Two series on one stream *)

Module Shared.
Definition r50 : MarketSeriesId := series "R_50".

Definition on (subscription symbol : string) (seconds : Z) : MarketTick :=
  mk_MarketTick DERIV symbol seconds (mk_dec 10040 (-2)) (moment seconds) subscription "DERIV".

(** Both subscribe; the other series polls first and finds a tick of R_100. *)
Definition stream : list (res (option MarketTick)) :=
  heard [on "b" "R_50" 6029; on "a" "R_100" 6030; on "a" "R_100" 6040; on "b" "R_50" 6041].
Definition calls : list router_call :=
  [R_register r50; R_register r100; R_subscribe r50 "R_50"; R_subscribe r100 "R_100"; R_receive r50 (float_of_Z 1); R_receive r50 (float_of_Z 1)].
Definition router : SharedMarketTickRouter (script * list MarketTick) :=
  mk_SharedMarketTickRouter DERIV 16 128 ∅ [] ∅ 0 0 0 0 (mk_script stream 0, []).

(** The runtime of R_100 on the router, with the other series beside it. *)
Definition source : LiveTickSource (SharedMarketTickRouter script) := routed_source (H := scripted) r100.
Definition clock : MonotonicClock (SharedMarketTickRouter script) := fun w => (Ok (float_of_Z (sc_now (ro_source w))), w).
Definition beside {A} (m : py (SharedMarketTickRouter script) A) : py (live (list delivery) (SharedMarketTickRouter script)) A := on_world m.

Definition restore (minute : Z) : py (live (list delivery) (SharedMarketTickRouter script)) bool :=
  recover_and_restore (H := logged no_decision) (H0 := history minute) (H1 := source) (H2 := clock) digest config Ticks.half.
Definition poll : py (live (list delivery) (SharedMarketTickRouter script)) (option LiveAggregationResult) :=
  poll_once (H := logged no_decision) (H1 := source) (H2 := clock) digest config (float_of_Z 1).

Definition begin (replies : list (res (option MarketTick))) : live (list delivery) (SharedMarketTickRouter script) :=
  mk_live (lv_sched (fresh [])) (lv_aggregator (fresh [])) None None
    (mk_SharedMarketTickRouter DERIV 16 128 ∅ [] ∅ 0 0 0 0 (mk_script replies 0)).

(** R_100 subscribes; a tick of it arrives while R_50 polls; the connection is lost; R_100
    recovers and subscribes again with a later tick, and then polls. *)
Definition replies : list (res (option MarketTick)) :=
  heard [on "a" "R_100" 6030; on "b" "R_50" 6031; on "a" "R_100" 6040; on "c" "R_100" 6130].
Definition reconnection : py (live (list delivery) (SharedMarketTickRouter script)) (bool * option LiveAggregationResult) :=
  _ ← beside (router_register r100); _ ← beside (router_register r50);
  _ ← restore 100; _ ← beside (router_subscribe (H := scripted) r50 "R_50"); _ ← beside (router_receive (H := scripted) r50 (float_of_Z 1));
  _ ← on_disconnect (H1 := source) config;
  again ← restore 102; polled ← poll; mret (again, polled).
End Shared.

(** The tick that waited in the router is older than the new subscription: the series that
    has just recovered is closed by it. *)
Example queued_tick_outlives_its_connection :
  let '(r, s) := Shared.reconnection (Shared.begin Shared.replies) in
  r = Ok (true, Some (mk_LiveAggregationResult LA_OUT_OF_ORDER None "LIVE_TICK_OUT_OF_ORDER"))
  /\ ss_health <$> pp_gate (pipe_of s) !! r100 = Some GAPPED.
Proof. vm_compute. split_and!; reflexivity. Qed.

Lemma ticks_reach_their_series_witness :
  exists heard handed s', router_run scripted Shared.calls Shared.router = (heard, handed, s') /\ router_ok s'
    /\ picked r100 handed ++ queue_of r100 s' = picked r100 heard /\ length (queue_of r100 s') = 1%nat.
Proof.
  destruct (router_run scripted Shared.calls Shared.router) as [[heard handed] s'] eqn:E.
  destruct (ticks_reach_their_series scripted DERIV (mk_script Shared.stream 0) 16 128 Shared.calls Shared.router heard handed s' eq_refl E) as [R F].
  destruct (F r100) as (_ & _ & N).
  assert (forall id, R_unsubscribe r100 id ∉ Shared.calls) as Hu.
  { intros id Hin. repeat (apply elem_of_cons in Hin as [Hin|Hin]; [discriminate Hin|]). inversion Hin. }
  assert (dropped_of r100 s' = 0) as Hd. { pose proof (f_equal snd E) as E1. cbn [snd] in E1. rewrite <- E1. vm_compute. reflexivity. }
  exists heard, handed, s'. split; [reflexivity|]. split; [exact R|]. split; [exact (proj2 (N Hu) Hd)|].
  pose proof (f_equal snd E) as E1. cbn [snd] in E1. rewrite <- E1. vm_compute. reflexivity.
Defined.
