(* ===== verification/ShadowService.v ===== *)
(** * The supervised shadow runtime

    The class [SupervisedShadowRuntime] of [apps/core/shadow_runtime.py]: the life cycle of a
    worker that only reads the market and of the runtime on top of it.  Supervisor, factory,
    runtime and clock are a class over a state of their own, which the live runtime
    implements; its promises are proved for every such state. *)

From S2P Require Import Prelude Datetime Dec PyFloat Json Domain Market Candles MarketHealth MarketHealthProps DerivPump Backfill BackfillProps.
From S2P Require Import MarketScheduler LiveCandles LiveRuntime LiveProps.

Inductive ShadowServiceState : Type := SV_STOPPED | SV_STARTING | SV_RUNNING | SV_RECOVERING | SV_FAILED.

#[export] Instance ShadowServiceState_eq_dec : EqDecision ShadowServiceState.
Proof. solve_decision. Defined.

Inductive WorkerHealthState : Type := WH_STARTING | WH_HANDSHAKING | WH_READY | WH_DEGRADED | WH_DISCONNECTED | WH_INCOMPATIBLE | WH_STOPPED.

#[export] Instance WorkerHealthState_eq_dec : EqDecision WorkerHealthState.
Proof. solve_decision. Defined.

(** [ReadOnlyMarketSupervisor], the runtime factory, the [ShadowRuntimePort] it made last,
    and the clock. *)
Class ShadowParts (E : Type) := {
  supervisor_start : py E unit;
  supervisor_restart : py E unit;
  supervisor_shutdown : py E unit;
  supervisor_health : E -> WorkerHealthState;
  runtime_factory : py E unit;
  runtime_subscribed : E -> bool;
  runtime_start : py E bool;
  runtime_recover_and_restore : py E bool;
  runtime_poll_once : float -> py E (option LiveAggregationResult);
  runtime_on_disconnect : py E Z;
  runtime_stop : py E unit;
  runtime_dispatch_lag : E -> Z;
  service_clock : py E float
}.

Record service (E : Type) : Type := mk_service {
  sv_state : ShadowServiceState; sv_runtime : bool; sv_started_at : option float; sv_start_attempts : Z; sv_recovery_attempts : Z;
  sv_poll_count : Z; sv_poll_failures : Z; sv_env : E
}.
#[global] Arguments mk_service {E}.
#[global] Arguments sv_state {E}.
#[global] Arguments sv_runtime {E}.
#[global] Arguments sv_started_at {E}.
#[global] Arguments sv_start_attempts {E}.
#[global] Arguments sv_recovery_attempts {E}.
#[global] Arguments sv_poll_count {E}.
#[global] Arguments sv_poll_failures {E}.
#[global] Arguments sv_env {E}.

#[export] Instance service_eta E : Eta (service E) := fun s =>
  mk_service (sv_state s) (sv_runtime s) (sv_started_at s) (sv_start_attempts s) (sv_recovery_attempts s) (sv_poll_count s)
    (sv_poll_failures s) (sv_env s).

Record ShadowServiceSnapshot : Type := mk_ShadowServiceSnapshot {
  sn_state : ShadowServiceState; sn_worker_health : WorkerHealthState; sn_subscribed : bool; sn_start_attempts : Z;
  sn_recovery_attempts : Z; sn_poll_count : Z; sn_poll_failures : Z; sn_elapsed_monotonic_seconds : float; sn_live_dispatch_lag_ms_max : Z
}.

(** [try: m finally: f], where [f] may raise as well. *)
Definition py_always {S A} (m : py S A) (f : py S unit) : py S A := fun s =>
  let '(r, s) := m s in let '(r', s) := f s in (match r' with Ok _ => r | Err e => Err e end, s).

Lemma py_always_run {S A} (m : py S A) f s r s' :
  py_always m f s = (r, s') -> exists r1 s1 r2, m s = (r1, s1) /\ f s1 = (r2, s').
Proof. unfold py_always. destruct (m s) as [r1 s1]. destruct (f s1) as [r2 s2] eqn:Ef. intros [= _ <-]. by exists r1, s1, r2. Qed.

Section service.
Context {E : Type} `{ShadowParts E}.
Abbreviation svc := (service E).

Definition on_env {A} (m : py E A) : py svc A := py_zoom sv_env (fun e s => s <| sv_env := e |>) m.
Definition set_service (st : ShadowServiceState) : py svc unit := py_modify (fun s => s <| sv_state := st |>).

(** The state after a start or a recovery that did not raise. *)
Definition ready_state (ready : bool) : ShadowServiceState := if ready then SV_RUNNING else SV_RECOVERING.

(** [_shutdown_resources] *)
Definition shutdown_resources : py svc unit :=
  runtime ← py_gets sv_runtime;
  _ ← py_modify (fun s => s <| sv_runtime := false |>);
  py_always (if (runtime : bool) then on_env runtime_stop else mret tt) (on_env supervisor_shutdown).

(** The handler of a start or a recovery that raised. *)
Definition give_up_service {A} (e : exn) : py svc A :=
  _ ← set_service SV_FAILED; _ ← shutdown_resources; py_raise e.

(** [snapshot] *)
Definition service_snapshot : py svc ShadowServiceSnapshot :=
  s ← py_gets id;
  elapsed ← (match sv_started_at s with
             | None => mret (float_of_Z 0)
             | Some t => now ← on_env service_clock;
                         let d := fsub now t in mret (if fltb (float_of_Z 0) d then d else float_of_Z 0)
             end);
  mret (mk_ShadowServiceSnapshot (sv_state s) (supervisor_health (sv_env s)) (sv_runtime s && runtime_subscribed (sv_env s))
          (sv_start_attempts s) (sv_recovery_attempts s) (sv_poll_count s) (sv_poll_failures s) elapsed
          (if sv_runtime s then runtime_dispatch_lag (sv_env s) else 0)).

(** [start] *)
Definition service_start : py svc bool :=
  state ← py_gets sv_state;
  if bool_decide (state = SV_RUNNING) then mret true
  else
    _ ← py_guard (bool_decide (state = SV_STOPPED)) (RuntimeError "SHADOW_SERVICE_ALREADY_STARTED");
    _ ← py_modify (fun s => s <| sv_state := SV_STARTING |> <| sv_start_attempts ::= Z.succ |>);
    now ← on_env service_clock;
    _ ← py_modify (fun s => s <| sv_started_at := Some now |>);
    ready ← py_try (_ ← on_env supervisor_start; _ ← on_env runtime_factory;
                    _ ← py_modify (fun s => s <| sv_runtime := true |>); on_env runtime_start)
                   (fun e => Some (give_up_service e));
    _ ← set_service (ready_state ready);
    mret ready.

(** [poll_once] *)
Definition service_poll (timeout : float) : py svc (option LiveAggregationResult) :=
  _ ← py_guard (negb (fleb timeout (float_of_Z 0))) (ValueError "shadow service poll timeout must be positive");
  s ← py_gets id;
  _ ← py_guard (sv_runtime s && bool_decide (sv_state s <> SV_STOPPED)) (RuntimeError "SHADOW_SERVICE_NOT_STARTED");
  if bool_decide (sv_state s <> SV_RUNNING) then mret None
  else if bool_decide (supervisor_health (sv_env s) <> WH_READY) then
    _ ← (if runtime_subscribed (sv_env s) then _ ← on_env runtime_on_disconnect; mret tt else mret tt);
    _ ← py_modify (fun s => s <| sv_poll_failures ::= Z.succ |> <| sv_state := SV_RECOVERING |>);
    mret None
  else
    _ ← py_modify (fun s => s <| sv_poll_count ::= Z.succ |>);
    py_try (on_env (runtime_poll_once timeout))
      (fun e => Some (_ ← py_modify (fun s => s <| sv_poll_failures ::= Z.succ |> <| sv_state := SV_RECOVERING |>); py_raise e)).

(** [recover] *)
Definition service_recover : py svc bool :=
  state ← py_gets sv_state;
  _ ← py_guard (bool_decide (state <> SV_STOPPED)) (RuntimeError "SHADOW_SERVICE_NOT_STARTED");
  _ ← py_modify (fun s => s <| sv_state := SV_RECOVERING |> <| sv_recovery_attempts ::= Z.succ |>);
  s ← py_gets id;
  _ ← (if sv_runtime s then
         _ ← (if runtime_subscribed (sv_env s) then _ ← on_env runtime_on_disconnect; mret tt else mret tt);
         on_env runtime_stop
       else mret tt);
  ready ← py_try (_ ← on_env supervisor_restart; _ ← on_env runtime_factory;
                  _ ← py_modify (fun s => s <| sv_runtime := true |>); on_env runtime_recover_and_restore)
                 (fun e => Some (give_up_service e));
  _ ← set_service (ready_state ready);
  mret ready.

(** [shutdown] *)
Definition service_shutdown : py svc unit :=
  state ← py_gets sv_state;
  if bool_decide (state = SV_STOPPED) then mret tt
  else _ ← shutdown_resources; py_modify (fun s => s <| sv_state := SV_STOPPED |> <| sv_started_at := None |>).
End service.

(** ** The live runtime as a part *)

Section live.
Context {P T : Type} `{DecisionOnlyPipeline P} `{BackfillJob (pipeline P)} `{LiveTickSource T} `{MonotonicClock T}.
Variable payload_hash : payload -> string.
Variable cfg : runtime_config P.
Variable samples : MarketSeriesId -> float.
Variables (start restart shutdown : py T unit) (health : T -> WorkerHealthState) (factory : py (live P T) unit).

Definition live_parts : ShadowParts (live P T) := {|
  supervisor_start := on_world start;
  supervisor_restart := on_world restart;
  supervisor_shutdown := on_world shutdown;
  supervisor_health s := health (lv_world s);
  runtime_factory := factory;
  runtime_subscribed s := bool_decide (lv_subscription_id s <> None);
  runtime_start := live_start payload_hash cfg samples;
  runtime_recover_and_restore := recover_and_restore payload_hash cfg samples;
  runtime_poll_once := poll_once payload_hash cfg;
  runtime_on_disconnect := on_disconnect cfg;
  runtime_stop := live_stop;
  runtime_dispatch_lag s := mm_live_dispatch_lag_ms_max (pp_metrics (pipe_of s));
  service_clock := on_world clock_now
|}.
#[local] Existing Instance live_parts.

(** A series that is closed, or that has lost its subscription. *)
Definition out_of_service (s : live P T) : Prop :=
  lv_subscription_id s = None \/ exists state, pp_gate (pipe_of s) !! rc_series cfg = Some state /\ ss_health state <> HEALTHY.

Lemma closed_poll timeout (s : live P T) :
  fleb timeout (float_of_Z 0) = false -> out_of_service s -> poll_once payload_hash cfg timeout s = (Ok None, s).
Proof.
  intros Ht Ho. unfold poll_once. rewrite py_bind_run. unfold py_guard. rewrite Ht. cbn [negb].
  change ((mret tt : py (live P T) unit) s) with (@Ok unit tt, s). cbv iota. rewrite py_bind_run. unfold py_gets.
  destruct (lv_subscription_id s) eqn:Es; [|done]. destruct Ho as [Ho|(state & Hst & Hh)]; [congruence|].
  rewrite py_bind_run, (snapshot_runs cfg s state Hst). cbn [snapshot_of hs_dispatch_allowed]. by rewrite bool_decide_false.
Qed.

(** A running service with a READY worker and a series out of service. *)
Definition stuck (s : service (live P T)) : Prop :=
  sv_state s = SV_RUNNING /\ sv_runtime s = true /\ health (lv_world (sv_env s)) = WH_READY /\ out_of_service (sv_env s).

Lemma stuck_poll timeout (s : service (live P T)) :
  fleb timeout (float_of_Z 0) = false -> stuck s -> service_poll timeout s = (Ok None, s <| sv_poll_count ::= Z.succ |>).
Proof.
  intros Ht (Hs & Hr & Hh & Ho). unfold service_poll. rewrite py_bind_run. unfold py_guard at 1. rewrite Ht. cbn [negb].
  change ((mret tt : py (service (live P T)) unit) s) with (@Ok unit tt, s). cbv iota. rewrite py_bind_run. unfold py_gets, id.
  rewrite py_bind_run. unfold py_guard. rewrite Hs, Hr. cbn [andb].
  rewrite bool_decide_true by done. cbv iota. change ((mret tt : py (service (live P T)) unit) s) with (@Ok unit tt, s). cbv iota.
  rewrite bool_decide_false by tauto. cbn [supervisor_health live_parts]. rewrite bool_decide_false by tauto.
  rewrite py_bind_run. cbn [py_modify]. unfold py_try, on_env, py_zoom. cbn [runtime_poll_once live_parts].
  change (sv_env (s <| sv_poll_count ::= Z.succ |>)) with (sv_env s). rewrite (closed_poll timeout (sv_env s)) by done. by destruct s.
Qed.

(** A running service whose series has been closed by a gap, a silence or a divergence while
    the worker is READY stays as it is: every poll returns nothing and only counts itself.
    The service goes on to say RUNNING, so that nothing calls its [recover], and the
    recovery that the runtime asked of its scheduler is never run. *)
Theorem closed_series_is_never_recovered timeout n (s : service (live P T)) :
  fleb timeout (float_of_Z 0) = false -> stuck s ->
  py_map (fun _ => service_poll timeout) (replicate n tt) s = (Ok (replicate n None), s <| sv_poll_count ::= fun k => k + Z.of_nat n |>)
  /\ stuck (s <| sv_poll_count ::= fun k => k + Z.of_nat n |>).
Proof.
  intros Ht Hs. split; [|done]. revert s Hs. induction n as [|n IH]; intros s Hs.
  - cbn [replicate py_map]. change (Z.of_nat 0) with 0. destruct s. cbn. by rewrite Z.add_0_r.
  - cbn [replicate py_map]. rewrite py_bind_run, stuck_poll by done. rewrite py_bind_run, IH by done. destruct s. cbn. do 2 f_equal. lia.
Qed.
End live.

(** ** No worker is left behind *)

Inductive supervisor_call : Type := C_start | C_restart | C_shutdown.

(** Parts that also keep the calls on the supervisor. *)
Definition noted {E A} (c : supervisor_call) (m : py E A) : py (E * list supervisor_call) A := fun s =>
  let '(r, e) := m (fst s) in (r, (e, snd s ++ [c])).
Definition plain {E A} (m : py E A) : py (E * list supervisor_call) A := py_zoom fst (fun e s => (e, snd s)) m.

Definition noted_parts {E} (parts : ShadowParts E) : ShadowParts (E * list supervisor_call) := {|
  supervisor_start := noted C_start supervisor_start;
  supervisor_restart := noted C_restart supervisor_restart;
  supervisor_shutdown := noted C_shutdown supervisor_shutdown;
  supervisor_health s := supervisor_health (fst s);
  runtime_factory := plain runtime_factory;
  runtime_subscribed s := runtime_subscribed (fst s);
  runtime_start := plain runtime_start;
  runtime_recover_and_restore := plain runtime_recover_and_restore;
  runtime_poll_once timeout := plain (runtime_poll_once timeout);
  runtime_on_disconnect := plain runtime_on_disconnect;
  runtime_stop := plain runtime_stop;
  runtime_dispatch_lag s := runtime_dispatch_lag (fst s);
  service_clock := plain service_clock
|}.

Inductive service_call : Type := V_start | V_poll (timeout : float) | V_recover | V_shutdown | V_snapshot.

Section lifecycle.
Context {E : Type} (parts : ShadowParts E).
#[local] Instance parts_noted : ShadowParts (E * list supervisor_call) := noted_parts parts.
Abbreviation svc := (service (E * list supervisor_call)).
Implicit Types s : svc.

Definition run_service_call (c : service_call) : py svc unit :=
  match c with
  | V_start => _ ← service_start; mret tt
  | V_poll timeout => _ ← service_poll timeout; mret tt
  | V_recover => _ ← service_recover; mret tt
  | V_shutdown => service_shutdown
  | V_snapshot => _ ← service_snapshot; mret tt
  end.

Definition run_service_calls (cs : list service_call) s : svc := foldl (fun s c => snd (run_service_call c s)) s cs.

Definition at_rest (st : ShadowServiceState) : bool := match st with SV_STOPPED | SV_FAILED => true | _ => false end.

(** The resources are given back. *)
Definition released s : Prop := sv_runtime s = false /\ (snd (sv_env s) = [] \/ last (snd (sv_env s)) = Some C_shutdown).
Definition rests s : Prop := at_rest (sv_state s) = true -> released s.

Lemma on_env_run {A} (m : py (E * list supervisor_call) A) s r s' : on_env m s = (r, s') -> exists e, s' = s <| sv_env := e |>.
Proof. intros (e & _ & ->)%py_zoom_run. by exists e. Qed.

(** Whatever happens, the state of the service stays as it is. *)
Definition same_state s s' : Prop := sv_state s' = sv_state s.
#[local] Instance same_state_order : PreOrder same_state.
Proof. split; [by intros s|]. intros a b c. unfold same_state. congruence. Qed.

Lemma on_env_state {A} (m : py (E * list supervisor_call) A) : steps same_state (on_env m).
Proof. intros s. destruct (on_env m s) as [r s'] eqn:Em. by apply on_env_run in Em as [e ->]. Qed.

(** A service that is not at rest does not come to rest. *)
Definition awake s s' : Prop := at_rest (sv_state s) = false -> at_rest (sv_state s') = false.
#[local] Instance awake_order : PreOrder awake.
Proof. unfold awake. split; [by intros s|]. intros a b c. auto. Qed.

Lemma on_env_awake {A} (m : py (E * list supervisor_call) A) : steps awake (on_env m).
Proof. intros s. destruct (on_env m s) as [r s'] eqn:Em. apply on_env_run in Em as [e ->]. unfold awake. done. Qed.

Lemma shutdown_releases s r s' : shutdown_resources s = (r, s') -> sv_state s' = sv_state s /\ released s'.
Proof.
  unfold shutdown_resources. rewrite py_bind_run. cbn [py_gets]. rewrite py_bind_run. cbn [py_modify].
  intros (r1 & s1 & r2 & E1 & E2)%py_always_run.
  assert (exists e, s1 = s <| sv_runtime := false |> <| sv_env := e |>) as [e ->].
  { destruct (sv_runtime s); [by apply on_env_run in E1|]. injection E1 as _ <-. exists (sv_env s). by destruct s. }
  unfold on_env, py_zoom, supervisor_shutdown, parts_noted, noted_parts, noted in E2. cbn in E2.
  destruct (@supervisor_shutdown E parts (fst e)) as [r3 w]. injection E2 as _ <-. split; [done|]. split; [done|]. right. cbn. apply last_snoc.
Qed.

Lemma give_up_releases {A} e s (r : res A) s' : give_up_service e s = (r, s') -> released s'.
Proof.
  unfold give_up_service, set_service. rewrite py_bind_run. cbn [py_modify]. rewrite py_bind_run. destruct (shutdown_resources _) as [[?|e'] s1] eqn:E1;
    intros [= _ <-]; by apply shutdown_releases in E1 as [_ ?].
Qed.

(** The last part of a start and of a recovery. *)
Definition conclude (m : py svc bool) : py svc bool :=
  ready ← py_try m (fun e => Some (give_up_service e)); _ ← set_service (ready_state ready); mret ready.

Lemma conclude_rests m s r s' : conclude m s = (r, s') -> rests s'.
Proof.
  unfold conclude. rewrite py_bind_run. unfold py_try. destruct (m s) as [[ready|e] s1]; intros Hrun.
  - rewrite py_bind_run in Hrun. injection Hrun as _ <-. unfold rests. cbn. by destruct ready.
  - destruct (give_up_service e s1) as [[b|e'] s2] eqn:E2; pose proof (give_up_releases _ _ _ _ E2) as HR.
    + rewrite py_bind_run in Hrun. injection Hrun as _ <-. unfold rests. cbn. by destruct b.
    + injection Hrun as _ <-. by intros _.
Qed.

Lemma not_at_rest s : at_rest (sv_state s) = false -> rests s.
Proof. unfold rests. congruence. Qed.

Lemma start_rests s r s' : rests s -> service_start s = (r, s') -> rests s'.
Proof.
  intros HR. unfold service_start. rewrite py_bind_run. cbn [py_gets]. case_bool_decide; [by intros [= _ <-]|].
  rewrite py_bind_run. unfold py_guard. case_bool_decide; [|by intros [= _ <-]]. change ((mret tt : py svc unit) s) with (@Ok unit tt, s). cbv iota.
  rewrite py_bind_run. cbn [py_modify]. rewrite py_bind_run. destruct (on_env service_clock _) as [[now|e] s1] eqn:E1; apply on_env_run in E1 as [e1 ->];
    [|intros [= _ <-]; by apply not_at_rest].
  rewrite py_bind_run. cbn [py_modify]. apply conclude_rests.
Qed.

Lemma recover_rests s r s' : rests s -> service_recover s = (r, s') -> rests s'.
Proof.
  intros HR. unfold service_recover. rewrite py_bind_run. cbn [py_gets]. rewrite py_bind_run. unfold py_guard.
  case_bool_decide; [|by intros [= _ <-]]. change ((mret tt : py svc unit) s) with (@Ok unit tt, s). cbv iota.
  rewrite py_bind_run. cbn [py_modify]. rewrite py_bind_run. unfold py_gets, id at 1. rewrite py_bind_run.
  set (s1 := s <| sv_state := SV_RECOVERING |> <| sv_recovery_attempts ::= Z.succ |>).
  lazymatch goal with |- context [let '(_, _) := ?m s1 in _] => assert (steps same_state m) as Hm end.
  { pose proof @on_env_state. destruct (sv_runtime s1); steps_solve; by apply on_env_state. }
  destruct (_ s1) as [[?|e] s2] eqn:E2; pose proof (steps_run _ _ _ _ _ Hm E2) as Hst; unfold same_state in Hst; cbn in Hst.
  - apply conclude_rests.
  - intros [= _ <-]. apply not_at_rest. by rewrite Hst.
Qed.

Lemma poll_rests timeout s r s' : rests s -> service_poll timeout s = (r, s') -> rests s'.
Proof.
  intros HR. unfold service_poll. rewrite py_bind_run. unfold py_guard at 1. destruct (negb _); [|by intros [= _ <-]].
  change ((mret tt : py svc unit) s) with (@Ok unit tt, s). cbv iota. rewrite py_bind_run. unfold py_gets, id. rewrite py_bind_run. unfold py_guard.
  destruct (_ && _); [|by intros [= _ <-]]. change ((mret tt : py svc unit) s) with (@Ok unit tt, s). cbv iota.
  case_bool_decide as Hn; [by intros [= _ <-]|]. assert (sv_state s = SV_RUNNING) as Hs by (destruct (decide (sv_state s = SV_RUNNING)); tauto).
  intros Hrun. apply not_at_rest. revert Hrun. intros Hrun.
  assert (at_rest (sv_state s) = false) as Hr by (by rewrite Hs). revert Hr.
  eapply (steps_run awake); [|exact Hrun]. destruct (bool_decide _).
  - destruct (runtime_subscribed _); steps_solve; first [apply on_env_awake|intros q; unfold awake; done].
  - apply steps_bind; [typeclasses eauto|intros q; unfold awake; done|intros _ _ _ _]. apply steps_try; [typeclasses eauto|apply on_env_awake|].
    intros e k [= <-]. apply steps_bind; [typeclasses eauto|intros q; unfold awake; done|intros _ _ _ _]. apply steps_raise, _.
Qed.

Lemma call_rests c s : rests s -> rests (snd (run_service_call c s)).
Proof.
  intros HR. destruct c as [|timeout| | |]; cbn [run_service_call]; try (rewrite py_bind_run).
  - destruct (service_start s) as [r s'] eqn:Ec. apply start_rests in Ec; [|done]. by destruct r.
  - destruct (service_poll timeout s) as [r s'] eqn:Ec. apply poll_rests in Ec; [|done]. by destruct r.
  - destruct (service_recover s) as [r s'] eqn:Ec. apply recover_rests in Ec; [|done]. by destruct r.
  - unfold service_shutdown. rewrite py_bind_run. cbn [py_gets]. destruct (bool_decide _); [done|]. rewrite py_bind_run.
    destruct (shutdown_resources s) as [[?|e] s'] eqn:Ec; apply shutdown_releases in Ec as [Hs Hr]; [|by intros _].
    intros _. destruct Hr as [? ?]. by split.
  - destruct (service_snapshot s) as [r s'] eqn:Ec.
    assert (exists e, s' = s <| sv_env := e |> /\ snd e = snd (sv_env s)) as (e & -> & He).
    { revert Ec. unfold service_snapshot. rewrite py_bind_run. unfold py_gets, id. rewrite py_bind_run. destruct (sv_started_at s).
      - rewrite py_bind_run. unfold on_env, py_zoom. cbn. unfold plain, py_zoom. destruct (service_clock _) as [[now|ex] w]; intros [= _ <-]; by exists (w, snd (sv_env s)).
      - intros [= _ <-]. exists (sv_env s). by destruct s. }
    destruct r; cbn; intros Hrest; unfold released; cbn; rewrite He; by apply HR.
Qed.
End lifecycle.

(** Whatever calls a service gets, and whatever the supervisor, the factory and the runtime
    raise: when the service says STOPPED or FAILED, it holds no runtime, and the last thing
    it asked of the supervisor was to shut the worker down. *)
Theorem no_worker_is_left_behind {E} (parts : ShadowParts E) cs e :
  let s := run_service_calls parts cs (mk_service SV_STOPPED false None 0 0 0 0 (e, [])) in
  sv_state s = SV_STOPPED \/ sv_state s = SV_FAILED ->
  sv_runtime s = false /\ (snd (sv_env s) = [] \/ last (snd (sv_env s)) = Some C_shutdown).
Proof.
  cbv zeta. set (s0 := mk_service _ _ _ _ _ _ _ _). assert (rests s0) as H0 by (intros _; split; [done|by left]). clearbody s0.
  intros Hst. assert (rests (run_service_calls parts cs s0)) as HR.
  { unfold run_service_calls. clear Hst. revert s0 H0. induction cs as [|c cs IH]; intros s0 H0; [done|]. cbn. apply IH, call_rests, H0. }
  apply HR. by destruct Hst as [-> | ->].
Qed.
