(* ===== verification/ShadowHost.v ===== *)
(** * The host of the shadow series

    The class [ShadowRuntimeHost] of [apps/core/shadow_host.py], with [RestartPolicy] and
    [CrashCircuitBreaker] of [apps/core/worker_supervisor.py]: several shadow services are
    polled in turn and recovered with a growing delay.  The services and the clock, the
    resource probe and the jitter are classes over states of their own. *)

From S2P Require Import Prelude Datetime Dec PyFloat Json Domain Market MarketHealth MarketScheduler LiveCandles ShadowService.

(** ** The crash circuit breaker *)

Inductive CrashCircuitState : Type := CC_CLOSED | CC_OPEN | CC_HALF_OPEN.

#[export] Instance CrashCircuitState_eq_dec : EqDecision CrashCircuitState.
Proof. solve_decision. Defined.

Record RestartPolicy : Type := mk_RestartPolicy {
  rp_max_crashes : Z; rp_window_seconds : float; rp_base_delay_seconds : float; rp_max_delay_seconds : float; rp_open_seconds : float
}.

Definition RestartPolicy_post_init (p : RestartPolicy) : res RestartPolicy :=
  _ ← guard_res (0 <? rp_max_crashes p) (ValueError "max_crashes must be positive");
  _ ← guard_res (negb (fleb (fmin (fmin (fmin (rp_window_seconds p) (rp_base_delay_seconds p)) (rp_max_delay_seconds p)) (rp_open_seconds p))
                        (float_of_Z 0)))
        (ValueError "restart durations must be positive");
  Ok p.

Record CrashCircuitBreaker : Type := mk_CrashCircuitBreaker { cc_crashes : list float; cc_opened_at : option float }.

#[export] Instance CrashCircuitBreaker_eta : Eta CrashCircuitBreaker := fun b => mk_CrashCircuitBreaker (cc_crashes b) (cc_opened_at b).

Definition new_CrashCircuitBreaker : CrashCircuitBreaker := mk_CrashCircuitBreaker [] None.

(** [state] at a reading of the clock. *)
Definition crash_state (p : RestartPolicy) (now : float) (b : CrashCircuitBreaker) : CrashCircuitState :=
  match cc_opened_at b with
  | None => CC_CLOSED
  | Some t => if fleb (rp_open_seconds p) (fsub now t) then CC_HALF_OPEN else CC_OPEN
  end.

(** The crashes that are still in the window. *)
Fixpoint recent_crashes (p : RestartPolicy) (now : float) (crashes : list float) : list float :=
  match crashes with
  | [] => []
  | t :: rest => if fltb (rp_window_seconds p) (fsub now t) then recent_crashes p now rest else crashes
  end.

(** [append] on a deque of bounded length. *)
Definition deque_append (maxlen : Z) (x : float) (l : list float) : list float :=
  drop (length (l ++ [x]) - Z.to_nat maxlen) (l ++ [x]).

Definition record_crash (p : RestartPolicy) (now : float) (b : CrashCircuitBreaker) : CrashCircuitBreaker :=
  let crashes := deque_append (rp_max_crashes p) now (recent_crashes p now (cc_crashes b)) in
  b <| cc_crashes := crashes |>
    <| cc_opened_at ::= fun t => if rp_max_crashes p <=? Z.of_nat (length crashes) then Some now else t |>.

(** [record_success] in a state of the breaker. *)
Definition crash_success (st : CrashCircuitState) (b : CrashCircuitBreaker) : CrashCircuitBreaker :=
  if bool_decide (st = CC_HALF_OPEN) then mk_CrashCircuitBreaker [] None else b.

(** [next_delay]; [2 ** attempt] is exact as long as it is a float. *)
Definition next_delay (p : RestartPolicy) (b : CrashCircuitBreaker) : float :=
  let attempt := Z.max 0 (Z.of_nat (length (cc_crashes b)) - 1) in
  fmin (fmul (rp_base_delay_seconds p) (float_of_Z (2 ^ attempt))) (rp_max_delay_seconds p).

(** ** The host *)

Inductive ShadowHostState : Type := SH_STOPPED | SH_STARTING | SH_RUNNING | SH_DEGRADED | SH_RESOURCE_EXHAUSTED | SH_STOPPING.

#[export] Instance ShadowHostState_eq_dec : EqDecision ShadowHostState.
Proof. solve_decision. Defined.

Record ShadowHostLimits : Type := mk_ShadowHostLimits {
  sl_maximum_series : Z; sl_maximum_actions_per_cycle : Z; sl_maximum_poll_timeout_seconds : float; sl_maximum_rss_bytes : option Z;
  sl_maximum_cpu_seconds_per_cycle : option float; sl_maximum_live_dispatch_lag_ms : option Z
}.

Definition positive_limit (v : option Z) : bool := match v with Some n => 0 <? n | None => true end.

Definition ShadowHostLimits_post_init (l : ShadowHostLimits) : res ShadowHostLimits :=
  _ ← guard_res ((0 <? sl_maximum_series l) && (0 <? sl_maximum_actions_per_cycle l))
        (ValueError "shadow host series and action limits must be positive");
  _ ← guard_res (negb (fleb (sl_maximum_poll_timeout_seconds l) (float_of_Z 0))) (ValueError "shadow host poll timeout limit must be positive");
  _ ← guard_res (positive_limit (sl_maximum_rss_bytes l) && positive_limit (sl_maximum_live_dispatch_lag_ms l))
        (ValueError "shadow host integer resource limits must be positive");
  _ ← guard_res (match sl_maximum_cpu_seconds_per_cycle l with Some x => negb (fleb x (float_of_Z 0)) | None => true end)
        (ValueError "shadow host CPU limit must be positive");
  Ok l.

Record ProcessResourceSample : Type := mk_ProcessResourceSample {
  ps_observed_monotonic : float; ps_process_cpu_seconds : float; ps_rss_bytes : option Z
}.

Class HostedShadowService (V : Type) := {
  hosted_state : V -> ShadowServiceState;
  hosted_snapshot : py V ShadowServiceSnapshot;
  hosted_start : py V bool;
  hosted_poll_once : float -> py V (option LiveAggregationResult);
  hosted_recover : py V bool;
  hosted_shutdown : py V unit
}.

(** The clock, the resource probe and the jitter. *)
Class HostWorld (W : Type) := {
  host_now : py W float;
  host_sample : py W ProcessResourceSample;
  host_jitter : float -> py W float
}.

(** [_HostedSeries] *)
Record HostedSeries (V : Type) : Type := mk_HostedSeries {
  he_series_id : MarketSeriesId; he_service : V; he_breaker : CrashCircuitBreaker; he_consecutive_recovery_failures : Z;
  he_next_recovery_monotonic : option float
}.
#[global] Arguments mk_HostedSeries {V}.
#[global] Arguments he_series_id {V}.
#[global] Arguments he_service {V}.
#[global] Arguments he_breaker {V}.
#[global] Arguments he_consecutive_recovery_failures {V}.
#[global] Arguments he_next_recovery_monotonic {V}.

#[export] Instance HostedSeries_eta V : Eta (HostedSeries V) := fun e =>
  mk_HostedSeries (he_series_id e) (he_service e) (he_breaker e) (he_consecutive_recovery_failures e) (he_next_recovery_monotonic e).

Record host (V W : Type) : Type := mk_host {
  ho_entries : list (HostedSeries V); ho_cursor : nat; ho_state : ShadowHostState; ho_reason_code : option string; ho_cycles : Z;
  ho_actions : Z; ho_poll_failures : Z; ho_recovery_attempts : Z; ho_recovery_failures : Z; ho_shutdown_failures : Z;
  ho_latest_resources : option ProcessResourceSample; ho_maximum_rss : option Z; ho_maximum_lag_ms : Z; ho_world : W
}.
#[global] Arguments mk_host {V W}.
#[global] Arguments ho_entries {V W}.
#[global] Arguments ho_cursor {V W}.
#[global] Arguments ho_state {V W}.
#[global] Arguments ho_reason_code {V W}.
#[global] Arguments ho_cycles {V W}.
#[global] Arguments ho_actions {V W}.
#[global] Arguments ho_poll_failures {V W}.
#[global] Arguments ho_recovery_attempts {V W}.
#[global] Arguments ho_recovery_failures {V W}.
#[global] Arguments ho_shutdown_failures {V W}.
#[global] Arguments ho_latest_resources {V W}.
#[global] Arguments ho_maximum_rss {V W}.
#[global] Arguments ho_maximum_lag_ms {V W}.
#[global] Arguments ho_world {V W}.

#[export] Instance host_eta V W : Eta (host V W) := fun s =>
  mk_host (ho_entries s) (ho_cursor s) (ho_state s) (ho_reason_code s) (ho_cycles s) (ho_actions s) (ho_poll_failures s)
    (ho_recovery_attempts s) (ho_recovery_failures s) (ho_shutdown_failures s) (ho_latest_resources s) (ho_maximum_rss s)
    (ho_maximum_lag_ms s) (ho_world s).

Record HostedSeriesSnapshot : Type := mk_HostedSeriesSnapshot {
  hn_series_id : MarketSeriesId; hn_service : ShadowServiceSnapshot; hn_circuit_state : CrashCircuitState;
  hn_consecutive_recovery_failures : Z; hn_next_recovery_monotonic : option float
}.

Record ShadowHostSnapshot : Type := mk_ShadowHostSnapshot {
  hh_state : ShadowHostState; hh_reason_code : option string; hh_cycles : Z; hh_actions : Z; hh_poll_failures : Z;
  hh_recovery_attempts : Z; hh_recovery_failures : Z; hh_shutdown_failures : Z; hh_latest_resources : option ProcessResourceSample;
  hh_maximum_observed_rss_bytes : option Z; hh_maximum_observed_live_dispatch_lag_ms : Z; hh_series : list HostedSeriesSnapshot
}.

Section host.
Context {V W : Type} `{HostedShadowService V} `{HostWorld W}.
Variables (limits : ShadowHostLimits) (policy : RestartPolicy).
Abbreviation ho := (host V W).

Definition on_host {A} (m : py W A) : py ho A := py_zoom ho_world (fun w s => s <| ho_world := w |>) m.

(** [self._entries[i]]; the objects of the list are shared by all who hold them. *)
Definition entry_at (i : nat) : py ho (HostedSeries V) := fun s =>
  match ho_entries s !! i with Some e => (Ok e, s) | None => (Err IndexError, s) end.
Definition put_entry (i : nat) (f : HostedSeries V -> HostedSeries V) : py ho unit :=
  py_modify (fun s => s <| ho_entries ::= alter f i |>).
Definition on_service {A} (i : nat) (m : py V A) : py ho A :=
  e ← entry_at i;
  let '(r, v) := m (he_service e) in
  _ ← put_entry i (fun e => e <| he_service := v |>);
  py_lift r.

(** [state] of a breaker, which reads the clock when it has opened. *)
Definition breaker_state (b : CrashCircuitBreaker) : py ho CrashCircuitState :=
  match cc_opened_at b with
  | None => mret CC_CLOSED
  | Some _ => now ← on_host host_now; mret (crash_state policy now b)
  end.

(** Runs a call for every entry. *)
Definition for_entries (f : nat -> py ho unit) : py ho unit :=
  n ← py_gets (fun s => length (ho_entries s)); py_for f (seq 0 n).

Definition host_register (series : MarketSeriesId) (service : V) : py ho unit :=
  s ← py_gets id;
  _ ← py_guard (bool_decide (ho_state s = SH_STOPPED)) (RuntimeError "SHADOW_HOST_REGISTRATION_CLOSED");
  _ ← py_guard (bool_decide (series ∉ he_series_id <$> ho_entries s)) (ValueError "shadow host series is already registered");
  _ ← py_guard (Z.of_nat (length (ho_entries s)) <? sl_maximum_series limits) (ValueError "shadow host series limit exceeded");
  py_modify (fun s => s <| ho_entries ::= fun l => l ++ [mk_HostedSeries series service new_CrashCircuitBreaker 0 None] |>).

(** [snapshot] *)
Definition host_snapshot : py ho ShadowHostSnapshot :=
  n ← py_gets (fun s => length (ho_entries s));
  series ← py_map (fun i =>
    service ← on_service i hosted_snapshot;
    e ← entry_at i;
    circuit ← breaker_state (he_breaker e);
    mret (mk_HostedSeriesSnapshot (he_series_id e) service circuit (he_consecutive_recovery_failures e)
            (he_next_recovery_monotonic e))) (seq 0 n);
  s ← py_gets id;
  mret (mk_ShadowHostSnapshot (ho_state s) (ho_reason_code s) (ho_cycles s) (ho_actions s) (ho_poll_failures s) (ho_recovery_attempts s)
          (ho_recovery_failures s) (ho_shutdown_failures s) (ho_latest_resources s) (ho_maximum_rss s) (ho_maximum_lag_ms s) series).

(** [_shutdown_all] *)
Definition shutdown_all : py ho unit :=
  n ← py_gets (fun s => length (ho_entries s));
  py_for (fun i => py_try (on_service i hosted_shutdown) (fun _ => Some (py_modify (fun s => s <| ho_shutdown_failures ::= Z.succ |>))))
    (reverse (seq 0 n)).

(** [_exhaust_resources] *)
Definition exhaust_resources (reason : string) : py ho unit :=
  _ ← py_modify (fun s => s <| ho_reason_code := Some reason |> <| ho_state := SH_RESOURCE_EXHAUSTED |>);
  shutdown_all.

(** [_sample_resources] *)
Definition sample_resources : py ho ProcessResourceSample :=
  sample ← py_try (on_host host_sample)
             (fun e => Some (_ ← exhaust_resources "SHADOW_RESOURCE_TELEMETRY_FAILED"; py_raise e));
  _ ← py_modify (fun s => s <| ho_latest_resources := Some sample |>);
  _ ← (match ps_rss_bytes sample with
       | Some rss => py_modify (fun s => s <| ho_maximum_rss ::= fun m => Some (Z.max (default 0 m) rss) |>)
       | None => mret tt
       end);
  maximum ← py_gets ho_maximum_lag_ms;
  n ← py_gets (fun s => length (ho_entries s));
  lags ← py_map (fun i => snapshot ← on_service i hosted_snapshot; mret (sn_live_dispatch_lag_ms_max snapshot)) (seq 0 n);
  _ ← py_modify (fun s => s <| ho_maximum_lag_ms := foldl Z.max maximum lags |>);
  mret sample.

(** [_resource_limit_reason] *)
Definition resource_limit_reason (sample : ProcessResourceSample) (s : ho) : option string :=
  let lag := match sl_maximum_live_dispatch_lag_ms limits with
             | Some l => if l <? ho_maximum_lag_ms s then Some "SHADOW_LAG_LIMIT_EXCEEDED" else None
             | None => None
             end in
  match sl_maximum_rss_bytes limits with
  | Some l => match ps_rss_bytes sample with
              | None => Some "SHADOW_RSS_UNAVAILABLE"
              | Some rss => if l <? rss then Some "SHADOW_RSS_LIMIT_EXCEEDED" else lag
              end
  | None => lag
  end.

(** [_cycle_resource_reason] *)
Definition cycle_resource_reason (before after : ProcessResourceSample) (s : ho) : option string :=
  match resource_limit_reason after s with
  | Some r => Some r
  | None =>
      match sl_maximum_cpu_seconds_per_cycle limits with
      | Some l => if fltb l (fsub (ps_process_cpu_seconds after) (ps_process_cpu_seconds before)) then Some "SHADOW_CPU_LIMIT_EXCEEDED" else None
      | None => None
      end
  end.

(** [_derive_state] *)
Definition derive_state : py ho unit := py_modify (fun s =>
  if forallb (fun e => bool_decide (hosted_state (he_service e) = SV_RUNNING)) (ho_entries s)
  then s <| ho_state := SH_RUNNING |> <| ho_reason_code := None |>
  else s <| ho_state := SH_DEGRADED |> <| ho_reason_code := Some "SHADOW_SERIES_DEGRADED" |>).

(** The delay of the next recovery. *)
Definition recovery_delay (e : HostedSeries V) : py ho float :=
  circuit ← breaker_state (he_breaker e);
  if bool_decide (circuit = CC_OPEN) then mret (rp_open_seconds policy)
  else
    let base := next_delay policy (he_breaker e) in
    let ceiling := fmul base (float_of_ratio 1 5) in
    jitter ← on_host (host_jitter ceiling);
    _ ← py_guard (negb (fltb jitter (float_of_Z 0) || fltb ceiling jitter)) (ValueError "shadow host jitter is outside its ceiling");
    mret (fmin (rp_max_delay_seconds policy) (fadd base jitter)).

(** [_schedule_recovery] *)
Definition schedule_recovery (i : nat) : py ho unit :=
  e ← entry_at i;
  match he_next_recovery_monotonic e with
  | Some _ => mret tt
  | None =>
      crash ← on_host host_now;
      _ ← put_entry i (fun e => e <| he_breaker ::= record_crash policy crash |> <| he_consecutive_recovery_failures ::= Z.succ |>);
      now ← on_host host_now;
      e ← entry_at i;
      delay ← recovery_delay e;
      put_entry i (fun e => e <| he_next_recovery_monotonic := Some (fadd now delay) |>)
  end.

(** [_poll] *)
Definition host_poll (i : nat) (timeout : float) : py ho unit :=
  _ ← py_try (_ ← on_service i (hosted_poll_once timeout); mret tt)
             (fun _ => Some (py_modify (fun s => s <| ho_poll_failures ::= Z.succ |>)));
  e ← entry_at i;
  if bool_decide (hosted_state (he_service e) = SV_RUNNING) then mret tt else schedule_recovery i.

(** [_recover] *)
Definition host_recover (i : nat) : py ho unit :=
  e ← entry_at i;
  circuit ← breaker_state (he_breaker e);
  if bool_decide (circuit = CC_OPEN) then
    now ← on_host host_now;
    put_entry i (fun e => e <| he_next_recovery_monotonic := Some (fadd now (rp_open_seconds policy)) |>)
  else
    _ ← put_entry i (fun e => e <| he_next_recovery_monotonic := None |>);
    _ ← py_modify (fun s => s <| ho_recovery_attempts ::= Z.succ |>);
    ready ← py_try (on_service i hosted_recover) (fun _ => Some (mret false));
    if (ready : bool) then
      e ← entry_at i;
      circuit ← breaker_state (he_breaker e);
      put_entry i (fun e => e <| he_breaker ::= crash_success circuit |> <| he_consecutive_recovery_failures := 0 |>)
    else
      _ ← py_modify (fun s => s <| ho_recovery_failures ::= Z.succ |>);
      schedule_recovery i.

(** [_recovery_due] *)
Definition recovery_due (i : nat) : py ho bool :=
  e ← entry_at i;
  match he_next_recovery_monotonic e with
  | None => mret false
  | Some due => now ← on_host host_now; mret (fleb due now)
  end.

(** What is done for an entry: whether it counts as an action. *)
Definition act (i : nat) (timeout : float) : py ho bool :=
  e ← entry_at i;
  if bool_decide (hosted_state (he_service e) = SV_RUNNING) then _ ← host_poll i timeout; mret true
  else
    due ← recovery_due i;
    if (due : bool) then _ ← host_recover i; mret true else mret false.

(** The loop of a cycle: [fuel] entries are not visited yet; gives the entries visited and
    the actions taken. *)
Fixpoint visit_entries (fuel : nat) (count action_limit : Z) (timeout : float) (visited actions : Z) : py ho (Z * Z) :=
  match fuel with
  | O => mret (visited, actions)
  | S fuel =>
      if action_limit <=? actions then mret (visited, actions)
      else
        cursor ← py_gets ho_cursor;
        acted ← act (Z.to_nat ((Z.of_nat cursor + visited) mod count)) timeout;
        visit_entries fuel count action_limit timeout (visited + 1) (if (acted : bool) then actions + 1 else actions)
  end.

(** What follows the loop of a start or a cycle. *)
Definition settle_state (before : ProcessResourceSample) : py ho unit :=
  after ← sample_resources;
  s ← py_gets id;
  match cycle_resource_reason before after s with
  | Some reason => exhaust_resources reason
  | None => derive_state
  end.

(** [start] *)
Definition host_start : py ho ShadowHostSnapshot :=
  s ← py_gets id;
  _ ← py_guard (bool_decide (ho_state s = SH_STOPPED)) (RuntimeError "SHADOW_HOST_ALREADY_STARTED");
  _ ← py_guard (bool_decide (ho_entries s <> [])) (RuntimeError "SHADOW_HOST_HAS_NO_SERIES");
  _ ← py_modify (fun s => s <| ho_state := SH_STARTING |> <| ho_reason_code := None |>);
  before ← sample_resources;
  s ← py_gets id;
  match resource_limit_reason before s with
  | Some reason => _ ← exhaust_resources reason; host_snapshot
  | None =>
      _ ← for_entries (fun i =>
            ready ← py_try (on_service i hosted_start) (fun _ => Some (mret false));
            if (ready : bool) then mret tt else schedule_recovery i);
      _ ← settle_state before;
      host_snapshot
  end.

(** [run_cycle] *)
Definition run_cycle (poll_timeout : float) (maximum_actions : option Z) : py ho ShadowHostSnapshot :=
  s ← py_gets id;
  _ ← py_guard (bool_decide (ho_state s = SH_RUNNING \/ ho_state s = SH_DEGRADED)) (RuntimeError "SHADOW_HOST_NOT_RUNNABLE");
  _ ← py_guard (negb (fleb poll_timeout (float_of_Z 0) || fltb (sl_maximum_poll_timeout_seconds limits) poll_timeout))
        (ValueError "shadow host poll timeout is outside the bounded limit");
  let action_limit := default (sl_maximum_actions_per_cycle limits) maximum_actions in
  _ ← py_guard ((0 <? action_limit) && (action_limit <=? sl_maximum_actions_per_cycle limits))
        (ValueError "shadow host action count is outside the bounded limit");
  before ← sample_resources;
  s ← py_gets id;
  match resource_limit_reason before s with
  | Some reason => _ ← exhaust_resources reason; host_snapshot
  | None =>
      _ ← py_modify (fun s => s <| ho_cycles ::= Z.succ |>);
      let count := Z.of_nat (length (ho_entries s)) in
      '(visited, actions) ← visit_entries (length (ho_entries s)) count action_limit poll_timeout 0 0;
      _ ← py_modify (fun s => s <| ho_cursor ::= fun c => Z.to_nat ((Z.of_nat c + Z.max 1 visited) mod count) |>
                                <| ho_actions ::= Z.add actions |>);
      _ ← settle_state before;
      host_snapshot
  end.

(** [shutdown] *)
Definition host_shutdown : py ho ShadowHostSnapshot :=
  s ← py_gets id;
  if bool_decide (ho_state s = SH_STOPPED) then host_snapshot
  else
    _ ← py_modify (fun s => s <| ho_state := SH_STOPPING |>);
    _ ← shutdown_all;
    _ ← py_modify (fun s => s <| ho_state := SH_STOPPED |> <| ho_reason_code := None |>);
    host_snapshot.
End host.

(** The supervised shadow runtime as a hosted service. *)
Definition supervised {E} `{ShadowParts E} : HostedShadowService (service E) := {|
  hosted_state := sv_state;
  hosted_snapshot := service_snapshot;
  hosted_start := service_start;
  hosted_poll_once := service_poll;
  hosted_recover := service_recover;
  hosted_shutdown := service_shutdown
|}.
