(* ===== verification/HostProps.v ===== *)
(** * What the host of the shadow series promises

    Whatever the hosted services raise, a cycle of the host returns; and within as many
    cycles as there are series every service that runs is polled. *)

From S2P Require Import Prelude Datetime Dec PyFloat Json Domain Market MarketHealth MarketScheduler LiveCandles ShadowService ShadowHost.

(** A service that also counts the polls it gets. *)
Definition uncounted {V A} (m : py V A) : py (V * Z) A := py_zoom fst (fun v s => (v, snd s)) m.
Definition counted {V} (h : HostedShadowService V) : HostedShadowService (V * Z) := {|
  hosted_state v := hosted_state (fst v);
  hosted_snapshot := uncounted hosted_snapshot;
  hosted_start := uncounted hosted_start;
  hosted_poll_once timeout := fun s => let '(r, v) := hosted_poll_once timeout (fst s) in (r, (v, snd s + 1));
  hosted_recover := uncounted hosted_recover;
  hosted_shutdown := uncounted hosted_shutdown
|}.

(** Follows a program with handlers for every exception. *)
Ltac host_steps :=
  repeat progress (steps_solve; try match goal with |- steps _ (py_try _ _) => apply steps_try; [typeclasses eauto| |intros ? ? [= <-]]
                                  | |- steps _ (py_map _ _) => apply steps_map; [typeclasses eauto|intros ?] end).

(** The jitter stays between zero and its ceiling, for the ceilings that a host asks for. *)
Definition few_crashes (policy : RestartPolicy) (b : CrashCircuitBreaker) : Prop :=
  (length (cc_crashes b) <= Z.to_nat (rp_max_crashes policy))%nat.
Definition jitter_in_range (policy : RestartPolicy) (W : Type) `{HostWorld W} : Prop :=
  forall b (w : W), few_crashes policy b ->
    let ceiling := fmul (next_delay policy b) (float_of_ratio 1 5) in
    exists j w', host_jitter ceiling w = (Ok j, w') /\ fltb j (float_of_Z 0) = false /\ fltb ceiling j = false.

Lemma record_crash_few policy now b : few_crashes policy (record_crash policy now b).
Proof. unfold few_crashes, record_crash, deque_append. cbn. rewrite length_drop. lia. Qed.

Section host.
Context {V W : Type} (services : HostedShadowService V) `{HostWorld W}.
#[local] Instance services_counted : HostedShadowService (V * Z) := counted services.
Variables (limits : ShadowHostLimits) (policy : RestartPolicy).
Abbreviation ho := (host (V * Z) W).
Implicit Types s : ho.

Definition service_at (i : nat) s : option (V * Z) := he_service <$> ho_entries s !! i.
Definition polls_of (i : nat) s : Z := default 0 (snd <$> service_at i s).
Definition runs (i : nat) s : Prop := exists v, service_at i s = Some v /\ hosted_state v = SV_RUNNING.

(** A snapshot does not change what the service says of itself. *)
Hypothesis snapshot_observes : forall v : V, exists sn v', hosted_snapshot v = (Ok sn, v') /\ hosted_state v' = hosted_state v.

(** ** What happens to a series *)

(** The series of the host stay, and none is polled less. *)
Record stays (i : nat) s s' : Prop := mk_stays {
  fr_count : length (ho_entries s') = length (ho_entries s);
  fr_cursor : ho_cursor s' = ho_cursor s;
  fr_polls : polls_of i s <= polls_of i s'
}.

(** A series is polled or goes on to run. *)
Definition frame (i : nat) s s' : Prop := stays i s s' /\ (polls_of i s' = polls_of i s -> runs i s -> runs i s').

#[local] Instance stays_order i : PreOrder (stays i).
Proof. split; [by split|]. intros a b c [A1 A2 A3] [B1 B2 B3]. split; [congruence|congruence|lia]. Qed.

#[local] Instance frame_order i : PreOrder (frame i).
Proof.
  split; [by split|]. intros a b c [A A4] [B B4]. split; [by transitivity b|]. intros E Hr. pose proof (fr_polls _ _ _ A). pose proof (fr_polls _ _ _ B).
  apply B4; [lia|]. apply A4; [lia|done].
Qed.

Lemma same_entries_frame i s s' : ho_entries s' = ho_entries s -> ho_cursor s' = ho_cursor s -> frame i s s'.
Proof. intros E1 E2. split; [split|]; unfold polls_of, runs, service_at; rewrite ?E1; done. Qed.

Lemma frame_stays {A} i (m : py ho A) : steps (frame i) m -> steps (stays i) m.
Proof. intros Hm s. apply Hm. Qed.

Lemma modify_frame i (f : ho -> ho) : (forall s, ho_entries (f s) = ho_entries s /\ ho_cursor (f s) = ho_cursor s) -> steps (frame i) (py_modify f).
Proof. intros Hf s. destruct (Hf s). by apply same_entries_frame. Qed.

Lemma on_host_frame {A} i (m : py W A) : steps (frame i) (on_host m : py ho A).
Proof. intros s. unfold on_host, py_zoom. destruct (m _). by apply same_entries_frame. Qed.

Lemma entry_at_frame i j : steps (frame i) (entry_at j : py ho _).
Proof. intros s. unfold entry_at. by destruct (_ !! _). Qed.

(** A change of an entry: what matters is its service. *)
Lemma service_alter i j f s s' : ho_entries s' = alter f j (ho_entries s) ->
  service_at i s' = if decide (i = j) then (fun e => he_service (f e)) <$> ho_entries s !! j else service_at i s.
Proof.
  intros E. unfold service_at. rewrite E. destruct (decide (i = j)) as [->|Hn].
  - rewrite list_lookup_alter_eq. by destruct (_ !! j).
  - rewrite list_lookup_alter_ne by congruence. done.
Qed.

Lemma put_entry_frame i j f : (forall e : HostedSeries (V * Z), he_service (f e) = he_service e) -> steps (frame i) (put_entry j f : py ho unit).
Proof.
  intros Hf s. cbn [put_entry py_modify snd]. set (s' := s <| ho_entries ::= alter f j |>).
  assert (service_at i s' = service_at i s) as E.
  { rewrite (service_alter i j f s s') by done. destruct (decide (i = j)) as [->|]; [|done]. unfold service_at. destruct (_ !! j); [|done]. cbn. by rewrite Hf. }
  split; [split; [apply length_alter|done|unfold polls_of; by rewrite E]|]. intros _. unfold runs. by rewrite E.
Qed.

(** Calls on a service that take back no poll, and calls that poll it or leave what it says
    of itself. *)
Definition counting {A} (m : py (V * Z) A) : Prop := forall v r v', m v = (r, v') -> snd v <= snd v'.
Definition gentle {A} (m : py (V * Z) A) : Prop :=
  forall v r v', m v = (r, v') -> snd v <= snd v' /\ (snd v' = snd v -> hosted_state v' = hosted_state v).

Lemma uncounted_counting {A} (m : py V A) : counting (uncounted m).
Proof. intros v r v' (x & _ & ->)%py_zoom_run. cbn. lia. Qed.

Lemma snapshot_gentle : gentle hosted_snapshot.
Proof.
  intros v r v' (x & E & ->)%py_zoom_run. cbn. split; [lia|intros _]. destruct (snapshot_observes (fst v)) as (sn & v1 & E1 & Hs). congruence.
Qed.

Lemma poll_gentle timeout : gentle (hosted_poll_once timeout).
Proof. intros v r v'. cbn. destruct (hosted_poll_once timeout (fst v)) as [r1 v1]. intros [= _ <-]. cbn. split; [lia|lia]. Qed.

Lemma on_service_run {A} j (m : py (V * Z) A) s r s' : on_service j m s = (r, s') ->
  (ho_entries s !! j = None /\ s' = s /\ r = Err IndexError)
  \/ exists e v', ho_entries s !! j = Some e /\ m (he_service e) = (r, v')
       /\ s' = s <| ho_entries ::= alter (fun e => e <| he_service := v' |>) j |>.
Proof.
  unfold on_service. rewrite py_bind_run. unfold entry_at. destruct (ho_entries s !! j) as [e|] eqn:E; [|intros [= <- <-]; by left].
  destruct (m (he_service e)) as [r1 v'] eqn:Em. rewrite py_bind_run. cbn [put_entry py_modify]. unfold py_lift.
  intros [= <- <-]. right. exists e, v'. done.
Qed.

(** A call on the service of [j], seen by [i]. *)
Lemma on_service_seen {A} i j (m : py (V * Z) A) s r s' : on_service j m s = (r, s') ->
  s' = s \/ exists v v', service_at j s = Some v /\ m v = (r, v') /\ length (ho_entries s') = length (ho_entries s)
    /\ ho_cursor s' = ho_cursor s /\ service_at i s' = if decide (i = j) then Some v' else service_at i s.
Proof.
  intros [(_ & -> & _)|(e & v' & Ee & Em & Es)]%on_service_run; [by left|right]. exists (he_service e), v'.
  split; [unfold service_at; by rewrite Ee|]. split; [done|]. split; [subst s'; apply length_alter|]. split; [by subst s'|].
  rewrite (service_alter i j (fun e => e <| he_service := v' |>) s s') by (by subst s'). by rewrite Ee.
Qed.

Lemma on_service_stays {A} i j (m : py (V * Z) A) : counting m -> steps (stays i) (on_service j m : py ho A).
Proof.
  intros Hm s. destruct (on_service j m s) as [r s'] eqn:E. cbn [snd]. apply (on_service_seen i) in E as [->|(v & v' & Hj & Em & Hl & Hc & Hi)]; [by split|].
  split; [done|done|]. unfold polls_of. rewrite Hi. destruct (decide (i = j)) as [->|]; [|done]. rewrite Hj. cbn. by eapply Hm.
Qed.

Lemma on_service_frame {A} i j (m : py (V * Z) A) : i <> j /\ counting m \/ gentle m -> steps (frame i) (on_service j m : py ho A).
Proof.
  intros Hm s. assert (counting m) as Hc by (destruct Hm as [[_ Hm]|Hm]; [done|intros v r v' E; by eapply Hm]).
  pose proof (on_service_stays i j m Hc s) as Hst. destruct (on_service j m s) as [r s'] eqn:E. cbn [snd] in *. split; [done|].
  apply (on_service_seen i) in E as [->|(v & v' & Hj & Em & Hl & _ & Hi)]; [done|]. unfold polls_of, runs. rewrite Hi.
  destruct (decide (i = j)) as [->|Hn]; [|done]. rewrite Hj. cbn [fmap option_fmap option_map default].
  destruct Hm as [[? _]|Hm]; [done|]. destruct (Hm _ _ _ Em) as [_ H2]. intros Ep (v1 & [= <-] & Hv). exists v'. split; [done|].
  etransitivity; [exact (H2 Ep)|exact Hv].
Qed.

#[local] Hint Resolve on_host_frame entry_at_frame : steps.
#[local] Hint Extern 2 (steps (frame _) (put_entry _ _)) => (apply put_entry_frame; done) : steps.
#[local] Hint Extern 2 (steps (frame _) (py_modify _)) => (apply modify_frame; done) : steps.

Lemma breaker_state_frame i b : steps (frame i) (breaker_state policy b : py ho _).
Proof. unfold breaker_state. steps_solve. Qed.
#[local] Hint Resolve breaker_state_frame : steps.

Lemma schedule_frame i j : steps (frame i) (schedule_recovery policy j : py ho unit).
Proof. unfold schedule_recovery, recovery_delay. steps_solve. Qed.
#[local] Hint Resolve schedule_frame : steps.

Lemma snapshot_of_service_frame i j : steps (frame i) (on_service j hosted_snapshot : py ho _).
Proof. apply on_service_frame. right. apply snapshot_gentle. Qed.
Lemma poll_service_frame i j timeout : steps (frame i) (on_service j (hosted_poll_once timeout) : py ho _).
Proof. apply on_service_frame. right. apply poll_gentle. Qed.
#[local] Hint Resolve snapshot_of_service_frame poll_service_frame : steps.

Lemma host_poll_frame i j timeout : steps (frame i) (host_poll policy j timeout : py ho unit).
Proof. unfold host_poll. host_steps. Qed.

Lemma recovery_due_frame i j : steps (frame i) (recovery_due j : py ho bool).
Proof. unfold recovery_due. steps_solve. Qed.
#[local] Hint Resolve host_poll_frame recovery_due_frame : steps.

Lemma host_recover_frame i j : i <> j -> steps (frame i) (host_recover policy j : py ho unit).
Proof. intros Hn. unfold host_recover. host_steps. apply on_service_frame. left. split; [done|apply uncounted_counting]. Qed.

Lemma host_recover_stays i j : steps (stays i) (host_recover policy j : py ho unit).
Proof.
  unfold host_recover. host_steps.
  all: try (apply on_service_stays, uncounted_counting); apply frame_stays; auto with steps.
Qed.

Lemma host_snapshot_frame i : steps (frame i) (host_snapshot policy : py ho _).
Proof. unfold host_snapshot. host_steps. Qed.

(** ** A visit *)

Lemma poll_counts j timeout s r s' v : service_at j s = Some v ->
  on_service j (hosted_poll_once timeout) s = (r, s') -> polls_of j s' = polls_of j s + 1.
Proof.
  intros Hv [(Hn & _ & _)|(e & v' & Ee & Em & Es)]%on_service_run; [unfold service_at in Hv; by rewrite Hn in Hv|].
  unfold polls_of. rewrite (service_alter j j (fun e => e <| he_service := v' |>) s s') by (by subst s').
  rewrite decide_True by done. unfold service_at. rewrite Ee. cbn. cbn in Em. destruct (hosted_poll_once timeout _) as [r1 v1]. injection Em as _ <-. done.
Qed.

Lemma host_poll_polls j timeout s r s' v : service_at j s = Some v -> host_poll policy j timeout s = (r, s') -> polls_of j s < polls_of j s'.
Proof.
  intros Hv. unfold host_poll. rewrite py_bind_run. destruct (py_try _ _ s) as [rt s1] eqn:Et. intros Hrun.
  assert (polls_of j s1 = polls_of j s + 1) as H1.
  { revert Et. unfold py_try. rewrite py_bind_run. destruct (on_service j (hosted_poll_once timeout) s) as [[x|e] s2] eqn:Es;
      apply (poll_counts _ _ _ _ _ v) in Es; try done; intros [= _ <-]; done. }
  destruct rt as [u|e]; [|injection Hrun as _ <-; lia].
  eapply (steps_run (frame j)) in Hrun as [[_ _ Hp] _]; [lia|]. host_steps.
Qed.

(** The entry that a visit is for is polled when it runs. *)
Lemma act_effect i j timeout s r s' : act policy j timeout s = (r, s') ->
  frame i s s' /\ (i = j -> runs i s -> polls_of i s < polls_of i s').
Proof.
  intros Hrun. unfold act in Hrun. rewrite py_bind_run in Hrun. unfold entry_at in Hrun. destruct (ho_entries s !! j) as [e|] eqn:Ej.
  2:{ injection Hrun as _ <-. split; [done|]. intros -> (v & Hv & _). unfold service_at in Hv. by rewrite Ej in Hv. }
  assert (service_at j s = Some (he_service e)) as Hj by (unfold service_at; by rewrite Ej).
  destruct (decide (hosted_state (he_service e) = SV_RUNNING)) as [Hr|Hr];
    [rewrite bool_decide_true in Hrun by done|rewrite bool_decide_false in Hrun by done].
  - rewrite py_bind_run in Hrun. destruct (host_poll policy j timeout s) as [rp s1] eqn:Ep.
    assert (s' = s1) as -> by (by destruct rp; injection Hrun as _ <-). split; [by eapply steps_run, Ep; apply host_poll_frame|].
    intros -> _. by apply (host_poll_polls j timeout s rp s1 (he_service e)).
  - split; [|intros -> (v & Hv & Hw); rewrite Hj in Hv; injection Hv as <-; done].
    assert (forall m : py ho bool, steps (stays i) m -> (i <> j -> steps (frame i) m) -> m s = (r, s') -> frame i s s') as Hm.
    { intros m H1 H2 Em. destruct (decide (i = j)) as [->|Hn]; [|by eapply (steps_run (frame i)), Em; apply H2].
      split; [by eapply (steps_run (stays j)), Em|]. intros _ (v & Hv & Hw). rewrite Hj in Hv. injection Hv as <-. done. }
    revert Hrun. apply Hm.
    + apply steps_bind; [typeclasses eauto|apply frame_stays, recovery_due_frame|intros due _ _ _]. destruct due; [|apply steps_ret, _].
      apply steps_bind; [typeclasses eauto|apply host_recover_stays|intros _ _ _ _]. apply steps_ret, _.
    + intros Hn. apply steps_bind; [typeclasses eauto|apply recovery_due_frame|intros due _ _ _]. destruct due; [|apply steps_ret, _].
      apply steps_bind; [typeclasses eauto|by apply host_recover_frame|intros _ _ _ _]. apply steps_ret, _.
Qed.

(** The loop of a cycle: it visits at least one entry and polls those that run. *)
Lemma visit_effect i fuel n limit timeout s v a v' a' s' : 
  visit_entries policy fuel n limit timeout v a s = (Ok (v', a'), s') ->
  frame i s s' /\ v <= v' <= v + Z.of_nat fuel /\ ((0 < fuel)%nat -> a < limit -> v < v') /\ a <= a' <= Z.max a limit
  /\ forall k, v <= k < v' -> i = Z.to_nat ((Z.of_nat (ho_cursor s) + k) mod n) -> runs i s -> polls_of i s < polls_of i s'.
Proof.
  revert v a s. induction fuel as [|fuel IH]; intros v a s; cbn [visit_entries].
  { intros [= <- <- <-]. split_and!; try done; try lia. }
  destruct (Z.leb_spec limit a); [intros [= <- <- <-]; split_and!; try done; try lia|].
  rewrite py_bind_run. cbn [py_gets]. rewrite py_bind_run. destruct (act policy _ timeout s) as [[acted|e] s1] eqn:Ea; [|done].
  apply (act_effect i) in Ea as [F1 P1]. intros Hrun. apply IH in Hrun as (F2 & Hv & _ & Ha & P2).
  pose proof (fr_polls _ _ _ (proj1 F1)) as M1. pose proof (fr_polls _ _ _ (proj1 F2)) as M2.
  split; [by transitivity s1|]. split; [lia|]. split; [lia|]. split; [destruct acted; lia|]. intros k Hk Hi Hr. rewrite (fr_cursor _ _ _ (proj1 F1)) in P2.
  destruct (decide (k = v)) as [->|Hne]; [specialize (P1 Hi Hr); lia|]. destruct (decide (polls_of i s1 = polls_of i s)) as [Hsame|]; [|lia].
  assert (v + 1 <= k < v') as Hk' by lia. specialize (P2 k Hk' Hi (proj2 F1 Hsame Hr)). lia.
Qed.

(** ** Every call of a cycle returns *)

Hypothesis now_returns : forall w : W, exists t w', host_now w = (Ok t, w').
Hypothesis sample_returns : forall w : W, exists x w', host_sample w = (Ok x, w').
Hypothesis jitter_returns : jitter_in_range policy W.

Section sized.
Variable n : nat.
Definition sized s : Prop := length (ho_entries s) = n.
Definition total {A} (m : py ho A) : Prop := returns sized m (fun _ => sized).

Lemma total_bind {A B} (m : py ho A) (k : A -> py ho B) : total m -> (forall a, total (k a)) -> total (m ≫= k).
Proof. apply returns_then. Qed.
Lemma total_ret {A} (a : A) : total (mret a).
Proof. intros s Hs. by exists a, s. Qed.
Lemma total_gets {A} (f : ho -> A) : total (py_gets f).
Proof. intros s Hs. by exists (f s), s. Qed.
Lemma total_modify (f : ho -> ho) : (forall s, length (ho_entries (f s)) = length (ho_entries s)) -> total (py_modify f).
Proof. intros Hf s Hs. exists tt, (f s). split; [done|]. unfold sized. by rewrite Hf. Qed.
Lemma total_put j f : total (put_entry j f).
Proof. apply total_modify. intros s. apply length_alter. Qed.
Lemma total_host {A} (m : py W A) : (forall w, exists a w', m w = (Ok a, w')) -> total (on_host m).
Proof. intros Hm s Hs. unfold on_host, py_zoom. destruct (Hm (ho_world s)) as (a & w' & ->). by eexists _, _. Qed.
Lemma total_entry j : (j < n)%nat -> total (entry_at j).
Proof. intros Hj s Hs. unfold entry_at. unfold sized in Hs. destruct (lookup_lt_is_Some_2 (ho_entries s) j) as [e ->]; [lia|]. by eexists _, _. Qed.

(** A handler that takes every exception. *)
Lemma total_try {A} (m : py ho A) h : steps (stays 0) m -> (forall e, exists k, h e = Some k /\ total k) -> total (py_try m h).
Proof.
  intros Hm Hh s Hs. unfold py_try. destruct (m s) as [[a|e] s1] eqn:Em; pose proof (fr_count _ _ _ (steps_run _ _ _ _ _ Hm Em)) as Hc;
    unfold sized in Hs; [exists a, s1; split; [done|unfold sized; congruence]|].
  destruct (Hh e) as (k & -> & Hk). apply Hk. unfold sized. congruence.
Qed.

Lemma total_snapshot j : (j < n)%nat -> total (on_service j hosted_snapshot).
Proof.
  intros Hj s Hs. destruct (on_service j hosted_snapshot s) as [r s'] eqn:E. pose proof (fr_count _ _ _ (proj1 (steps_run _ _ _ _ _ (snapshot_of_service_frame 0 j) E))) as Hl.
  apply on_service_run in E as [(Hn & _)|(e & v' & Ee & Em & _)].
  - apply lookup_ge_None in Hn. unfold sized in Hs. lia.
  - apply py_zoom_run in Em as (x & Em & _). destruct (snapshot_observes (fst (he_service e))) as (sn & v1 & E1 & _). rewrite E1 in Em.
    injection Em as <- _. exists sn, s'. split; [done|]. unfold sized in *. congruence.
Qed.

Lemma total_breaker b : total (breaker_state policy b).
Proof. unfold breaker_state. destruct (cc_opened_at b); [|apply total_ret]. apply total_bind; [by apply total_host|intros; apply total_ret]. Qed.

Lemma total_delay e : few_crashes policy (he_breaker e) -> total (recovery_delay policy e).
Proof.
  intros He. unfold recovery_delay. apply total_bind; [apply total_breaker|intros c]. destruct (bool_decide _); [apply total_ret|].
  intros s Hs. rewrite py_bind_run. unfold on_host, py_zoom.
  destruct (jitter_returns (he_breaker e) (ho_world s) He) as (j & w & -> & H1 & H2). rewrite py_bind_run. unfold py_guard. rewrite H1, H2. by eexists _, _.
Qed.

(** An entry whose crashes have just been counted. *)
Definition counted_crash (j : nat) s : Prop := sized s /\ forall e, ho_entries s !! j = Some e -> few_crashes policy (he_breaker e).

Lemma total_schedule j : (j < n)%nat -> total (schedule_recovery policy j).
Proof.
  intros Hj. unfold schedule_recovery. apply total_bind; [by apply total_entry|intros e]. destruct (he_next_recovery_monotonic e); [apply total_ret|].
  apply total_bind; [by apply total_host|intros crash]. apply (returns_then _ (counted_crash j)); [|intros _].
  { intros s Hs. eexists tt, _. split; [reflexivity|]. split; [unfold sized in *; cbn; by rewrite length_alter|]. intros e1. cbn.
    rewrite list_lookup_alter_eq. destruct (ho_entries s !! j); [|done]. intros [= <-]. apply record_crash_few. }
  apply (returns_then _ (counted_crash j)); [|intros now].
  { intros s Hs. unfold on_host, py_zoom. destruct (now_returns (ho_world s)) as (t & w & ->). eexists _, _. split; [reflexivity|done]. }
  apply (returns_bind _ (fun e s => sized s /\ few_crashes policy (he_breaker e))); [|intros e1].
  { intros s [Hs Hf]. destruct (total_entry j Hj s Hs) as (e1 & s1 & E1 & Hs1). exists e1, s1. split; [done|]. unfold entry_at in E1.
    destruct (ho_entries s !! j) as [e2|] eqn:E2; [|done]. injection E1 as -> <-. split; [done|by apply Hf]. }
  apply returns_pure. intros He. apply total_bind; [by apply total_delay|intros ?]. apply total_put.
Qed.

Lemma total_poll j timeout : (j < n)%nat -> total (host_poll policy j timeout).
Proof.
  intros Hj. unfold host_poll. apply total_bind; [|intros _].
  - apply total_try; [apply frame_stays; steps_solve|]. intros e. eexists. split; [reflexivity|by apply total_modify].
  - apply total_bind; [by apply total_entry|intros e]. destruct (bool_decide _); [apply total_ret|by apply total_schedule].
Qed.

Lemma total_recover j : (j < n)%nat -> total (host_recover policy j).
Proof.
  intros Hj. unfold host_recover. apply total_bind; [by apply total_entry|intros e]. apply total_bind; [apply total_breaker|intros c].
  destruct (bool_decide _); [apply total_bind; [by apply total_host|intros ?]; apply total_put|].
  apply total_bind; [apply total_put|intros _]. apply total_bind; [by apply total_modify|intros _]. apply total_bind; [|intros ready].
  { apply total_try; [apply on_service_stays, uncounted_counting|]. intros e1. eexists. split; [reflexivity|apply total_ret]. }
  destruct ready; [|apply total_bind; [by apply total_modify|intros _]; by apply total_schedule].
  apply total_bind; [by apply total_entry|intros ?]. apply total_bind; [apply total_breaker|intros ?]. apply total_put.
Qed.

Lemma total_act j timeout : (j < n)%nat -> total (act policy j timeout).
Proof.
  intros Hj. unfold act. apply total_bind; [by apply total_entry|intros e]. destruct (bool_decide _).
  - apply total_bind; [by apply total_poll|intros _; apply total_ret].
  - apply total_bind; [|intros due].
    + unfold recovery_due. apply total_bind; [by apply total_entry|intros e1]. destruct (he_next_recovery_monotonic e1); [|apply total_ret].
      apply total_bind; [by apply total_host|intros; apply total_ret].
    + destruct due; [|apply total_ret]. apply total_bind; [by apply total_recover|intros _; apply total_ret].
Qed.

Lemma total_visits fuel limit timeout v a : (0 < n)%nat -> total (visit_entries policy fuel (Z.of_nat n) limit timeout v a).
Proof.
  intros Hn. revert v a. induction fuel as [|fuel IH]; intros v a; cbn [visit_entries]; [apply total_ret|]. destruct (_ <=? _); [apply total_ret|].
  apply total_bind; [apply total_gets|intros cursor]. apply total_bind; [|intros acted; apply IH]. apply total_act.
  pose proof (Z.mod_pos_bound (Z.of_nat cursor + v) (Z.of_nat n)). lia.
Qed.

Lemma total_map {A} (f : nat -> py ho A) l : (forall j, j ∈ l -> total (f j)) -> total (py_map f l).
Proof.
  induction l as [|j l IH]; intros Hf; cbn [py_map]; [apply total_ret|]. apply total_bind; [apply Hf; left|intros x].
  apply total_bind; [apply IH; intros k Hk; apply Hf; by right|intros xs]. apply total_ret.
Qed.

(** The number of entries is read before they are gone through. *)
Lemma total_each {A} (k : nat -> py ho A) : total (k n) -> total (py_gets (fun s => length (ho_entries s)) ≫= k).
Proof. intros Hk s Hs. rewrite py_bind_run. cbn [py_gets]. unfold sized in Hs. rewrite Hs. by apply Hk. Qed.

Lemma in_seq j : j ∈ seq 0 n -> (j < n)%nat.
Proof. rewrite elem_of_seq. lia. Qed.

Lemma total_host_snapshot : total (host_snapshot policy).
Proof.
  unfold host_snapshot. apply total_each. apply total_bind; [|intros series; apply total_bind; [apply total_gets|intros; apply total_ret]].
  apply total_map. intros j Hj%in_seq. apply total_bind; [by apply total_snapshot|intros ?]. apply total_bind; [by apply total_entry|intros ?].
  apply total_bind; [apply total_breaker|intros ?]. apply total_ret.
Qed.

Lemma total_sample : total sample_resources.
Proof.
  unfold sample_resources. apply total_bind; [|intros sample].
  { intros s Hs. unfold py_try, on_host, py_zoom. destruct (sample_returns (ho_world s)) as (x & w & ->). by eexists _, _. }
  apply total_bind; [by apply total_modify|intros _]. apply total_bind; [destruct (ps_rss_bytes sample); [by apply total_modify|apply total_ret]|intros _].
  apply total_bind; [apply total_gets|intros ?]. apply total_each. apply total_bind; [|intros ?; apply total_bind; [by apply total_modify|intros _; apply total_ret]].
  apply total_map. intros j Hj%in_seq. apply total_bind; [by apply total_snapshot|intros; apply total_ret].
Qed.

Lemma total_shutdown_all : total shutdown_all.
Proof.
  unfold shutdown_all. apply total_each. apply returns_for. intros j _. apply total_try; [apply on_service_stays, uncounted_counting|].
  intros e. eexists. split; [reflexivity|by apply total_modify].
Qed.

Lemma total_exhaust reason : total (exhaust_resources reason).
Proof. unfold exhaust_resources. apply total_bind; [by apply total_modify|intros _; apply total_shutdown_all]. Qed.

Lemma total_settle before : total (settle_state limits before).
Proof.
  unfold settle_state. apply total_bind; [apply total_sample|intros after]. apply total_bind; [apply total_gets|intros s].
  destruct (cycle_resource_reason _ _ _ _); [apply total_exhaust|]. apply total_modify. intros s1. by destruct (forallb _ _).
Qed.
End sized.

(** ** A cycle *)

Definition runnable s : Prop := ho_state s = SH_RUNNING \/ ho_state s = SH_DEGRADED.

(** What a series sees of a cycle. *)
Definition seen (i : nat) s s' : Prop := polls_of i s <= polls_of i s' /\ (polls_of i s' = polls_of i s -> runs i s -> runs i s').

#[local] Instance seen_order i : PreOrder (seen i).
Proof. unfold seen. split; [by split|]. intros a b c [A1 A2] [B1 B2]. split; [lia|]. intros E Hr. apply B2; [lia|]. apply A2; [lia|done]. Qed.

Lemma frame_seen i s s' : frame i s s' -> seen i s s'.
Proof. intros [[_ _ Hp] Hr]. by split. Qed.

Lemma sample_frame i s r s' : sample_resources s = (r, s') -> frame i s s'.
Proof.
  unfold sample_resources. rewrite py_bind_run. unfold py_try. destruct (on_host host_sample s) as [[x|e] s1] eqn:E1.
  2:{ exfalso. unfold on_host, py_zoom in E1. destruct (sample_returns (ho_world s)) as (x & w & E2). rewrite E2 in E1. discriminate E1. }
  intros Hrun. transitivity s1; [exact (steps_run _ _ _ _ _ (on_host_frame i _) E1)|]. eapply (steps_run (frame i)); [|exact Hrun]. host_steps.
Qed.

(** The state of the host stays. *)
Definition same_host_state s s' : Prop := ho_state s' = ho_state s.
#[local] Instance same_host_state_order : PreOrder same_host_state.
Proof. unfold same_host_state. split; [by intros s|]. intros a b c. congruence. Qed.

Lemma modify_host_state (f : ho -> ho) : (forall s, ho_state (f s) = ho_state s) -> steps same_host_state (py_modify f).
Proof. intros Hf s. apply Hf. Qed.
Lemma on_service_host_state {A} j (m : py (V * Z) A) : steps same_host_state (on_service j m : py ho A).
Proof. intros s. destruct (on_service j m s) as [r s'] eqn:E. apply on_service_run in E as [(_ & -> & _)|(e & v' & _ & _ & ->)]; done. Qed.
Lemma on_host_host_state {A} (m : py W A) : steps same_host_state (on_host m : py ho A).
Proof. intros s. unfold on_host, py_zoom. by destruct (m _). Qed.
Lemma entry_at_host_state j : steps same_host_state (entry_at j : py ho _).
Proof. intros s. unfold entry_at. by destruct (_ !! _). Qed.
#[local] Hint Resolve on_service_host_state on_host_host_state entry_at_host_state : steps.

Lemma host_snapshot_state : steps same_host_state (host_snapshot policy : py ho _).
Proof. unfold host_snapshot, breaker_state. host_steps. Qed.

Lemma exhaust_state reason s r s' : exhaust_resources reason s = (r, s') -> ho_state s' = SH_RESOURCE_EXHAUSTED.
Proof.
  unfold exhaust_resources. rewrite py_bind_run. cbn [py_modify]. intros E. eapply (steps_run same_host_state) in E; [exact E|].
  unfold shutdown_all. apply steps_bind; [typeclasses eauto|auto with steps|intros n _ _ _]. apply steps_for; [typeclasses eauto|]. intros j _.
  host_steps. by apply modify_host_state.
Qed.

Lemma settle_effect i before s r s' : settle_state limits before s = (r, s') ->
  ho_state s' = SH_RESOURCE_EXHAUSTED \/ (exists e, r = Err e) \/ runnable s' /\ frame i s s'.
Proof.
  unfold settle_state. rewrite py_bind_run. destruct (sample_resources s) as [[after|e] s1] eqn:E1; [|intros [= <- _]; right; left; by eexists].
  rewrite py_bind_run. unfold py_gets, id. destruct (cycle_resource_reason _ _ _ _); [intros E; left; by eapply exhaust_state|].
  unfold derive_state. intros [= _ <-]. right. right. apply (sample_frame i) in E1. split; [unfold runnable; destruct (forallb _ _); [by left|by right]|].
  transitivity s1; [done|]. apply same_entries_frame; by destruct (forallb _ _).
Qed.

Section cycles.
Variables (timeout : float) (maximum_actions : option Z).
Hypothesis timeout_ok : fleb timeout (float_of_Z 0) = false /\ fltb (sl_maximum_poll_timeout_seconds limits) timeout = false.
Hypothesis actions_ok : 0 < default (sl_maximum_actions_per_cycle limits) maximum_actions <= sl_maximum_actions_per_cycle limits.

(** What a cycle that returns has done. *)
Record cycled s s' : Prop := mk_cycled {
  cy_runnable : runnable s';
  cy_visited : exists v, 1 <= v <= Z.of_nat (length (ho_entries s))
    /\ ho_cursor s' = Z.to_nat ((Z.of_nat (ho_cursor s) + v) mod Z.of_nat (length (ho_entries s)))
    /\ forall i, seen i s s' /\ forall k, 0 <= k < v -> i = Z.to_nat ((Z.of_nat (ho_cursor s) + k) mod Z.of_nat (length (ho_entries s))) ->
                 runs i s -> polls_of i s < polls_of i s'
}.

(** The cycle after its checks. *)
Definition cycle_body (action_limit : Z) : py ho ShadowHostSnapshot :=
  before ← sample_resources;
  s ← py_gets id;
  match resource_limit_reason limits before s with
  | Some reason => _ ← exhaust_resources reason; host_snapshot policy
  | None =>
      _ ← py_modify (fun s => s <| ho_cycles ::= Z.succ |>);
      let count := Z.of_nat (length (ho_entries s)) in
      '(visited, actions) ← visit_entries policy (length (ho_entries s)) count action_limit timeout 0 0;
      _ ← py_modify (fun s => s <| ho_cursor ::= fun c => Z.to_nat ((Z.of_nat c + Z.max 1 visited) mod count) |>
                                <| ho_actions ::= Z.add actions |>);
      _ ← settle_state limits before;
      host_snapshot policy
  end.

Lemma run_cycle_body s : runnable s ->
  run_cycle limits policy timeout maximum_actions s = cycle_body (default (sl_maximum_actions_per_cycle limits) maximum_actions) s.
Proof.
  intros Hr. unfold run_cycle. rewrite py_bind_run. unfold py_gets at 1, id at 1. rewrite py_bind_run. unfold py_guard at 1. rewrite bool_decide_true by done.
  change ((mret tt : py ho unit) s) with (@Ok unit tt, s). cbv iota. rewrite py_bind_run. unfold py_guard at 1. destruct timeout_ok as [-> ->]. cbn [orb negb].
  change ((mret tt : py ho unit) s) with (@Ok unit tt, s). cbv iota. cbv zeta. rewrite py_bind_run. unfold py_guard at 1.
  rewrite (proj2 (Z.ltb_lt _ _)), (proj2 (Z.leb_le _ _)) by lia. done.
Qed.

(** The visits of a cycle with the change of the cursor. *)
Lemma visits_effect n limit s v a s1 : (0 < n)%nat -> 0 < limit -> length (ho_entries s) = n ->
  visit_entries policy n (Z.of_nat n) limit timeout 0 0 s = (Ok (v, a), s1) ->
  1 <= v <= Z.of_nat n /\ ho_cursor s1 = ho_cursor s
  /\ forall i, seen i s s1 /\ forall k, 0 <= k < v -> i = Z.to_nat ((Z.of_nat (ho_cursor s) + k) mod Z.of_nat n) -> runs i s -> polls_of i s < polls_of i s1.
Proof.
  intros Hn Hl Hs Hrun. pose proof (fun i => visit_effect i _ _ _ _ _ _ _ _ _ _ Hrun) as HE. destruct (HE 0%nat) as (F & Hv & H1 & _).
  split; [specialize (H1 Hn Hl); lia|]. split; [apply (fr_cursor _ _ _ (proj1 F))|]. intros i. destruct (HE i) as (Fi & _ & _ & _ & Hp). split; [by apply frame_seen|done].
Qed.

Lemma cycle_effect s : runnable s -> ho_entries s <> [] ->
  exists snapshot s', run_cycle limits policy timeout maximum_actions s = (Ok snapshot, s')
    /\ length (ho_entries s') = length (ho_entries s) /\ (ho_state s' = SH_RESOURCE_EXHAUSTED \/ cycled s s').
Proof.
  intros Hr Hne. rewrite run_cycle_body by done. set (limit := default _ _) in *. set (n := length (ho_entries s)).
  assert (0 < n)%nat as Hn by (unfold n; destruct (ho_entries s); [done|cbn; lia]).
  unfold cycle_body. destruct (total_sample n s eq_refl) as (before & s1 & E1 & Z1). rewrite py_bind_run, E1. unfold sized in Z1.
  rewrite py_bind_run. unfold py_gets, id. destruct (resource_limit_reason limits before s1) as [reason|].
  - rewrite py_bind_run. destruct (total_exhaust n reason s1 Z1) as ([] & s2 & E2 & Z2). rewrite E2. apply exhaust_state in E2.
    destruct (total_host_snapshot n s2 Z2) as (sn & s3 & E3 & Z3). rewrite E3. exists sn, s3. split; [done|]. split; [done|]. left.
    rewrite (steps_run _ _ _ _ _ host_snapshot_state E3). done.
  - rewrite py_bind_run. cbn [py_modify]. cbv zeta. rewrite Z1. set (s2 := s1 <| ho_cycles ::= Z.succ |>).
    rewrite py_bind_run. destruct (total_visits n n limit timeout 0 0 Hn s2 Z1) as ([v a] & s3 & E3 & Z3). rewrite E3.
    apply visits_effect in E3 as (Hv & Hc & HS); [|done|lia|done]. rewrite py_bind_run. cbn [py_modify]. set (s4 := s3 <| ho_cursor ::= _ |> <| ho_actions ::= _ |>).
    rewrite py_bind_run. destruct (total_settle n before s4 Z3) as ([] & s5 & E5 & Z5). rewrite E5.
    destruct (total_host_snapshot n s5 Z5) as (sn & s6 & E6 & Z6). rewrite E6. exists sn, s6. split; [done|]. split; [done|].
    pose proof (steps_run _ _ _ _ _ host_snapshot_state E6) as H6. unfold same_host_state in H6.
    pose proof (fun i => settle_effect i _ _ _ _ E5) as H5. destruct (H5 0%nat) as [Hx|[[e ?]|[Hr5 F5]]]; [left; congruence|done|right].
    split; [unfold runnable; by rewrite H6|]. exists v. split; [done|]. split.
    { rewrite (fr_cursor _ _ _ (proj1 (steps_run _ _ _ _ _ (host_snapshot_frame 0) E6))), (fr_cursor _ _ _ (proj1 F5)). unfold s4. cbn.
      rewrite Hc. unfold s2. cbn. rewrite (fr_cursor _ _ _ (proj1 (sample_frame 0 _ _ _ E1))). do 2 f_equal. lia. }
    intros i. destruct (HS i) as [S3 P3]. assert (seen i s s2) as S2 by (apply frame_seen; etransitivity; [by eapply sample_frame|by apply same_entries_frame]).
    assert (seen i s3 s6) as S6.
    { destruct (H5 i) as [Hx|[[e ?]|[_ F]]]; [unfold runnable in Hr5; rewrite Hx in Hr5; naive_solver|done|]. transitivity s4; [by split|].
      transitivity s5; [by apply frame_seen|]. apply frame_seen. exact (steps_run _ _ _ _ _ (host_snapshot_frame i) E6). }
    split; [transitivity s2; [done|]; by transitivity s3|]. intros k Hk Hi Hrun.
    destruct S2 as [A1 A2], S3 as [B1 B2], S6 as [C1 C2]. destruct (decide (polls_of i s2 = polls_of i s)) as [Hsame|]; [|lia].
    unfold s2 in P3 at 1. cbn in P3. rewrite (fr_cursor _ _ _ (proj1 (sample_frame 0 _ _ _ E1))) in P3. specialize (P3 k Hk Hi (A2 Hsame Hrun)). lia.
Qed.

(** ** Cycle after cycle *)

Fixpoint cycles (k : nat) : py ho unit :=
  match k with O => mret tt | S k => _ ← run_cycle limits policy timeout maximum_actions; cycles k end.

Lemma exhausted_cycles k s : ho_state s = SH_RESOURCE_EXHAUSTED -> exists r, cycles k s = (r, s).
Proof.
  intros Hs. destruct k as [|k]; [by eexists|]. cbn [cycles]. eexists. rewrite py_bind_run. unfold run_cycle. rewrite py_bind_run.
  unfold py_gets, id. rewrite py_bind_run. unfold py_guard. rewrite Hs. rewrite bool_decide_false by naive_solver. reflexivity.
Qed.

(** The cycles end in exhaustion or return; a series is polled no less. *)
Definition ended i s r s' : Prop :=
  ho_state s' = SH_RESOURCE_EXHAUSTED \/ r = Ok tt /\ runnable s' /\ seen i s s'.

Lemma one_more k s : runnable s -> ho_entries s <> [] ->
  exists s1, length (ho_entries s1) = length (ho_entries s)
    /\ (ho_state s1 = SH_RESOURCE_EXHAUSTED \/ cycled s s1) /\ forall r s', cycles k s1 = (r, s') -> cycles (S k) s = (r, s').
Proof.
  intros Hr Hne. destruct (cycle_effect s Hr Hne) as (sn & s1 & E1 & L1 & H1). exists s1. split; [done|]. split; [done|].
  intros r s' E. cbn [cycles]. by rewrite py_bind_run, E1.
Qed.

Lemma nonempty_length {A} (l l' : list A) : length l' = length l -> l <> [] -> l' <> [].
Proof. intros E Hl ->. by destruct l. Qed.

Lemma cycles_end i k s : runnable s -> ho_entries s <> [] -> exists r s', cycles k s = (r, s') /\ ended i s r s'.
Proof.
  revert s. induction k as [|k IH]; intros s Hr Hne; [exists (Ok tt), s; split; [done|]; right; done|].
  destruct (one_more k s Hr Hne) as (s1 & L1 & H1 & HS). pose proof (nonempty_length _ _ L1 Hne) as Hne1. destruct H1 as [Hx|[Hr1 (v & _ & _ & Hs)]].
  - destruct (exhausted_cycles k s1 Hx) as [r E]. exists r, s1. split; [by apply HS|by left].
  - destruct (IH s1 Hr1 Hne1) as (r & s' & E & [Hx|(-> & Hr' & Hs')]); exists r, s' || exists (Ok tt), s'; (split; [by apply HS|]); [by left|right].
    split; [done|]. split; [done|]. transitivity s1; [apply Hs|done].
Qed.

(** The distance of the cursor to an entry shrinks until the entry is visited. *)
Lemma polled_in_time i k s : runnable s -> runs i s ->
  (Z.of_nat i - Z.of_nat (ho_cursor s)) mod Z.of_nat (length (ho_entries s)) < Z.of_nat k ->
  forall r s', cycles k s = (r, s') -> ho_state s' = SH_RESOURCE_EXHAUSTED \/ polls_of i s < polls_of i s'.
Proof.
  revert s. induction k as [|k IH]; intros s Hr Hi Hd r s' E; set (n := Z.of_nat (length (ho_entries s))) in *.
  all: assert (Z.of_nat i < n) as Hin by (destruct Hi as (v & Hv & _); unfold service_at in Hv; destruct (ho_entries s !! i) eqn:El; [apply lookup_lt_Some in El; lia|done]).
  all: assert (0 <= (Z.of_nat i - Z.of_nat (ho_cursor s)) mod n < n) as Hm by (apply Z.mod_pos_bound; lia).
  { lia. }
  assert (ho_entries s <> []) as Hne by (intros En; unfold n in Hin; rewrite En in Hin; cbn in Hin; lia).
  destruct (one_more k s Hr Hne) as (s1 & L1 & H1 & HS). pose proof (nonempty_length _ _ L1 Hne) as Hne1. destruct H1 as [Hx|[Hr1 (v & Hv & Hc & Hs)]].
  { destruct (exhausted_cycles k s1 Hx) as [r1 E1]. rewrite (HS _ _ E1) in E. injection E as <- <-. by left. }
  destruct (cycles_end i k s1 Hr1 Hne1) as (r1 & s2 & E1 & He). rewrite (HS _ _ E1) in E. injection E as <- <-.
  destruct He as [Hx|(-> & _ & [Hge _])]; [by left|]. destruct (Hs i) as [[Hge1 Hrun1] Hpoll]. fold n in Hc, Hpoll, Hv.
  set (d := (Z.of_nat i - Z.of_nat (ho_cursor s)) mod n) in *.
  assert (exists q, Z.of_nat i - Z.of_nat (ho_cursor s) = n * q + d) as [q Hq] by (exists ((Z.of_nat i - Z.of_nat (ho_cursor s)) / n); apply Z.div_mod; lia).
  destruct (decide (d < v)) as [Hlt|Hfar].
  - right. enough (polls_of i s < polls_of i s1) by lia. apply (Hpoll d); [lia| |done].
    replace (Z.of_nat (ho_cursor s) + d) with (Z.of_nat i + (- q) * n) by lia. rewrite Z.mod_add by lia. rewrite Z.mod_small by lia. lia.
  - destruct (decide (polls_of i s1 = polls_of i s)) as [Hsame|]; [|right; lia].
    destruct (IH s1 Hr1 (Hrun1 Hsame Hi)) with (r := @Ok unit tt) (s' := s2) as [Hx|Hp]; [|done|by left|right; lia].
    rewrite L1. fold n. rewrite Hc, Z2Nat.id by (apply Z.mod_pos_bound; lia). rewrite Zminus_mod_idemp_r.
    replace (Z.of_nat i - (Z.of_nat (ho_cursor s) + v)) with ((d - v) + q * n) by lia. rewrite Z.mod_add by lia. rewrite Z.mod_small by lia. lia.
Qed.
End cycles.
End host.

(** C35: A cycle of the host always returns, whatever its services raise, as long as the
    clock, the resource probe and the snapshots return and the jitter stays within its
    ceiling.  And the host is fair: after as many cycles as it has series, every service that
    was running has been polled, or a resource limit has closed the host. *)
Theorem every_running_series_is_polled {V W} (services : HostedShadowService V) `{HostWorld W} limits policy timeout maximum_actions
    (s : host (V * Z) W) :
  (forall v : V, exists sn v', hosted_snapshot v = (Ok sn, v') /\ hosted_state v' = hosted_state v) ->
  (forall w : W, exists t w', host_now w = (Ok t, w')) -> (forall w : W, exists x w', host_sample w = (Ok x, w')) ->
  jitter_in_range policy W ->
  fleb timeout (float_of_Z 0) = false /\ fltb (sl_maximum_poll_timeout_seconds limits) timeout = false ->
  0 < default (sl_maximum_actions_per_cycle limits) maximum_actions <= sl_maximum_actions_per_cycle limits ->
  runnable s -> ho_entries s <> [] ->
  exists r s', cycles services limits policy timeout maximum_actions (length (ho_entries s)) s = (r, s')
    /\ (ho_state s' = SH_RESOURCE_EXHAUSTED \/ r = Ok tt /\ forall i, runs services i s -> polls_of i s < polls_of i s').
Proof.
  intros Hsn Hnow Hsam Hj Ht Ha Hr Hne.
  destruct (cycles_end services limits policy Hsn Hnow Hsam Hj timeout maximum_actions Ht Ha 0%nat (length (ho_entries s)) s Hr Hne) as (r & s' & E & He).
  exists r, s'. split; [done|]. destruct He as [Hx|(-> & Hr' & _)]; [by left|right]. split; [done|]. intros i Hi.
  destruct (polled_in_time services limits policy Hsn Hnow Hsam Hj timeout maximum_actions Ht Ha i (length (ho_entries s)) s Hr Hi) with (r := @Ok unit tt) (s' := s')
    as [Hx|Hp]; [|done|unfold runnable in Hr'; rewrite Hx in Hr'; naive_solver|done].
  apply Z.mod_pos_bound. destruct (ho_entries s); [done|cbn; lia].
Qed.
