(* ===== verification/ShadowSamples.v ===== *)
(** * Sample runs of the shadow host

    The live runtime of the samples under a supervisor that never fails, in a host.  The
    samples show that the theorems about services and hosts apply, and that a series that
    was closed by a gap is never opened again while the host says RUNNING. *)

From S2P Require Import Prelude Datetime Dec DecVal PyFloat FloatOrder Json Domain DerivJson Market Candles CandleProps MarketHealth.
From S2P Require Import MarketHealthProps DerivPump Backfill BackfillProps MarketScheduler SchedulerProps MarketSamples LiveCandles LiveRuntime LiveProps.
From S2P Require Import TickRouter RouterProps LiveSamples ShadowService ShadowHost HostProps.
Import Samples Live.

Module Hosted.
Abbreviation env := (live (list delivery) script).

(** A new runtime on the stores of the old one. *)
Definition factory : py env unit :=
  py_modify (fun s => s <| lv_aggregator := lv_aggregator (fresh []) |> <| lv_subscription_id := None |> <| lv_last_tick_at := None |>).

Definition parts (minute : Z) : ShadowParts env :=
  live_parts (H := logged no_decision) (H0 := history minute) digest config Ticks.half (mret tt) (mret tt) (mret tt) (fun _ => WH_READY) factory.

Definition stopped {E} (e : E) : service E := mk_service SV_STOPPED false None 0 0 0 0 e.

(** A tick that is older than the one before it closes the series. *)
Definition disordered : list MarketTick := [quote 6030 10040; quote 6020 10050; quote 6061 10030].

Record world : Type := mk_world { wd_now : Z }.
#[export] Instance steady : HostWorld world := {
  host_now w := (Ok (float_of_Z (wd_now w)), w);
  host_sample w := (Ok (mk_ProcessResourceSample (float_of_Z (wd_now w)) (float_of_Z 1) (Some 1000)), w);
  host_jitter _ w := (Ok (float_of_Z 0), w)
}.

Definition limits : ShadowHostLimits := mk_ShadowHostLimits 16 8 (float_of_Z 1) None None None.
Definition policy : RestartPolicy := mk_RestartPolicy 3 (float_of_Z 10) (float_of_ratio 1 20) (float_of_ratio 1 2) (float_of_Z 1).

Definition empty_host {V} : host V world := mk_host [] 0 SH_STOPPED None 0 0 0 0 0 0 None None 0 (mk_world 0).

Definition hosted : py (host (service env) world) ShadowHostSnapshot :=
  _ ← host_register limits r100 (stopped (fresh (heard disordered)));
  host_start (H := supervised (H := parts 100)) limits policy.
Definition cycle : py (host (service env) world) ShadowHostSnapshot :=
  run_cycle (H := supervised (H := parts 100)) limits policy (float_of_Z 1) None.
End Hosted.
Import Hosted.

(** The host starts with an open series; a disordered tick closes it; in the cycles after
    that nothing is recovered, no candle is delivered, and host and service say RUNNING. *)
Example closed_series_under_a_running_host :
  let '(r, s) := (_ ← hosted; _ ← cycle; _ ← cycle; _ ← cycle; _ ← cycle; cycle) empty_host in
  (hh_state <$> r, hh_recovery_attempts <$> r) = (Ok SH_RUNNING, Ok 0)
  /\ match ho_entries s with
     | [e] => sv_state (he_service e) = SV_RUNNING
         /\ ss_health <$> pp_gate (pipe_of (sv_env (he_service e))) !! r100 = Some GAPPED
         /\ length (pp_decisions (pipe_of (sv_env (he_service e)))) = 9%nat
     | _ => False
     end.
Proof. vm_compute. split_and!; reflexivity. Qed.

(** ** A service that fails to poll *)

Module Faulty.
(** The state is how often the service was polled; every poll raises. *)
Definition faulty : HostedShadowService Z := {|
  hosted_state _ := SV_RUNNING;
  hosted_snapshot v := (Ok (mk_ShadowServiceSnapshot SV_RUNNING WH_READY true 0 0 0 0 (float_of_Z 0) 0), v);
  hosted_start v := (Ok true, v);
  hosted_poll_once _ v := (Err (RuntimeError "poll failed"), v + 1);
  hosted_recover v := (Ok true, v);
  hosted_shutdown v := (Ok tt, v)
|}.

Definition entry (symbol : string) : HostedSeries (Z * Z) := mk_HostedSeries (series symbol) (0, 0) new_CrashCircuitBreaker 0 None.
Definition three : host (Z * Z) world := mk_host [entry "A"; entry "B"; entry "C"] 0 SH_RUNNING None 0 0 0 0 0 0 None None 0 (mk_world 0).
End Faulty.

Lemma every_running_series_is_polled_witness :
  exists r s', cycles Faulty.faulty limits policy (float_of_Z 1) (Some 1) 3 Faulty.three = (r, s')
    /\ (ho_state s' = SH_RESOURCE_EXHAUSTED \/ r = Ok tt /\ forall i, runs Faulty.faulty i Faulty.three -> polls_of i Faulty.three < polls_of i s').
Proof.
  assert (forall v : Z, exists sn v', hosted_snapshot (HostedShadowService := Faulty.faulty) v = (Ok sn, v')
    /\ hosted_state (HostedShadowService := Faulty.faulty) v' = hosted_state (HostedShadowService := Faulty.faulty) v) as H1
    by (intros v; eexists _, _; split; reflexivity).
  assert (forall w : world, exists t w', host_now w = (Ok t, w')) as H2 by (intros w; eexists _, _; reflexivity).
  assert (forall w : world, exists x w', host_sample w = (Ok x, w')) as H3 by (intros w; eexists _, _; reflexivity).
  assert (jitter_in_range policy world) as H4.
  { intros b w Hb. eexists _, _. split; [reflexivity|]. split; [reflexivity|]. unfold few_crashes in Hb. unfold next_delay.
    destruct (length (cc_crashes b)) as [|[|[|[|k]]]]; [vm_compute; reflexivity|vm_compute; reflexivity|vm_compute; reflexivity|vm_compute; reflexivity|].
    exfalso. cbn in Hb. lia. }
  assert (fleb (float_of_Z 1) (float_of_Z 0) = false /\ fltb (sl_maximum_poll_timeout_seconds limits) (float_of_Z 1) = false) as H5 by (vm_compute; split; reflexivity).
  assert (0 < default (sl_maximum_actions_per_cycle limits) (Some 1) <= sl_maximum_actions_per_cycle limits) as H6 by (cbn; lia).
  assert (runnable Faulty.three) as H7 by (left; reflexivity).
  assert (ho_entries Faulty.three <> []) as H8 by discriminate.
  exact (every_running_series_is_polled Faulty.faulty limits policy (float_of_Z 1) (Some 1) Faulty.three H1 H2 H3 H4 H5 H6 H7 H8).
Defined.

(** A recovery that gets no subscription fails and gives the worker back. *)
Lemma no_worker_is_left_behind_witness :
  exists s, s = run_service_calls (parts 100) [V_start; V_poll (float_of_Z 1); V_recover] (stopped (fresh (heard (take 2 disordered)), []))
    /\ sv_state s = SV_FAILED /\ last (snd (sv_env s)) = Some C_shutdown.
Proof.
  set (s := run_service_calls _ _ _). exists s. split; [reflexivity|]. assert (sv_state s = SV_FAILED) as Hs by (vm_compute; reflexivity).
  split; [exact Hs|]. destruct (no_worker_is_left_behind (parts 100) [V_start; V_poll (float_of_Z 1); V_recover] (fresh (heard (take 2 disordered))) (or_intror Hs)) as [_ [H1|H1]].
  - exfalso. revert H1. vm_compute. discriminate.
  - exact H1.
Defined.
