(* ===== verification/AutoTrader.v ===== *)
(** * The automatic digit trader

    The class [DerivDigitAutoTrader] of [apps/core/deriv_auto_trader.py]: the evaluation of
    the candidates of the telemetry, the gate over the recent performance, the cache of
    orders in flight, and the notifications that wake the evaluation up.  Clocks, telemetry,
    runtime, ledger and reader are the interface [TraderWorld] over a state of their own.

    Operations are atomic here, while in the program an event of the broker may be handled
    between two locked sections of an evaluation; the thread that waits for notifications is
    the sequence of the calls of [process_pending_once].  Labels and counters
    of the projections of the telemetry, which the trader does not read, are left out, and
    the texts for the operator are kept as the numbers in them. *)

From S2P Require Import Prelude Datetime Dec PyFloat FloatOrder Json Domain StateDb Writer Health DigitConfig Risk Coordinator Reader IqValues Market Differs Arbiter.
From Stdlib Require Import SpecFloat Ascii.

(** ** Telemetry *)

Inductive DerivTelemetrySource : Type := FAKE_SIMULATED | PUBLIC_LIVE | DEMO_LIVE | REAL_LIVE.

#[export] Instance DerivTelemetrySource_eq_dec : EqDecision DerivTelemetrySource.
Proof. solve_decision. Defined.

Inductive ShadowSignalState : Type :=
| SS_WARMING_UP | SS_MONITORING | SHADOW_SIGNAL | EXECUTABLE_SIGNAL | SS_DATA_BLOCKED.

#[export] Instance ShadowSignalState_eq_dec : EqDecision ShadowSignalState.
Proof. solve_decision. Defined.

Inductive DigitAssetShadowState : Type := DA_WARMING_UP | DA_MONITORING | CANDIDATE | DA_DATA_BLOCKED.

#[export] Instance DigitAssetShadowState_eq_dec : EqDecision DigitAssetShadowState.
Proof. solve_decision. Defined.

Record DigitStrategyProjection : Type := mk_DigitStrategyProjection {
  sp_strategy_id : string; sp_signal_state : ShadowSignalState; sp_last_signal_epoch : option Z;
  sp_last_signal_symbol : option string; sp_last_contract_type : option string; sp_last_direction : option string;
  sp_last_barrier : option Z; sp_estimated_probability_pct : option dec; sp_required_probability_pct : option dec;
  sp_conditional_sample : Z
}.

Record DigitAssetShadowProjection : Type := mk_DigitAssetShadowProjection {
  ap_symbol : string; ap_state : DigitAssetShadowState; ap_strategy_id : option string; ap_contract_type : option string;
  ap_barrier : option Z; ap_estimated_probability_pct : option dec; ap_required_probability_pct : option dec;
  ap_last_signal_epoch : option Z
}.

Record DigitFrequencySnapshot : Type := mk_DigitFrequencySnapshot { df_symbol : string; df_total_ticks : Z }.

Record DerivTelemetrySnapshot : Type := mk_DerivTelemetrySnapshot {
  ts_source : DerivTelemetrySource; ts_connected : bool; ts_digit_frequency : option DigitFrequencySnapshot;
  ts_synthetic_strategies : list DigitStrategyProjection; ts_asset_ranking : list DigitAssetShadowProjection;
  ts_strategy_matrix : list DigitStrategyProjection
}.

(** ** Candidates *)

Definition PAYOUT_ROUTED_DIFFERS_STRATEGY_ID : string := "payout-routed-differs-session".

(** [_ExecutionCandidate]; the evidence is kept as the selection whose text it is. *)
Record ExecutionCandidate : Type := mk_ExecutionCandidate {
  ec_symbol : string; ec_strategy_id : string; ec_contract_type : string; ec_barrier : option Z; ec_epoch : Z;
  ec_estimated_probability_pct : dec; ec_required_probability_pct : dec; ec_conditional_sample : Z;
  ec_signal_state : ShadowSignalState; ec_evidence : option PayoutRoutedDiffersSelection
}.

#[export] Instance ExecutionCandidate_eta : Eta ExecutionCandidate := fun c => mk_ExecutionCandidate
  (ec_symbol c) (ec_strategy_id c) (ec_contract_type c) (ec_barrier c) (ec_epoch c) (ec_estimated_probability_pct c)
  (ec_required_probability_pct c) (ec_conditional_sample c) (ec_signal_state c) (ec_evidence c).

(** A strategy on a symbol, the key of most dictionaries of the trader. *)
Definition scope_key : Type := string * string.

(** Symbol, strategy and epoch. *)
Definition signal_key : Type := string * string * Z.

Definition scope_of (c : ExecutionCandidate) : scope_key := (ec_strategy_id c, ec_symbol c).
Definition key_of_candidate (c : ExecutionCandidate) : signal_key := (ec_symbol c, ec_strategy_id c, ec_epoch c).

(** [f"{item.symbol}:{item.strategy_id}:{item.epoch}"] *)
Definition signal_id (c : ExecutionCandidate) : string :=
  ec_symbol c +:+ ":" +:+ ec_strategy_id c +:+ ":" +:+ encode_int (ec_epoch c) "".

(** The projection of a strategy as a candidate on a symbol, when it is a shadow signal
    with all that an entry needs. *)
Definition strategy_candidate (symbol : option string) (item : DigitStrategyProjection) : option ExecutionCandidate :=
  if bool_decide (sp_signal_state item = SHADOW_SIGNAL)
     && negb (String.eqb (sp_strategy_id item) PAYOUT_ROUTED_DIFFERS_STRATEGY_ID) then
    symbol ← symbol;
    contract_type ← sp_last_contract_type item;
    epoch ← sp_last_signal_epoch item;
    estimated ← sp_estimated_probability_pct item;
    required ← sp_required_probability_pct item;
    Some (mk_ExecutionCandidate symbol (sp_strategy_id item) contract_type (sp_last_barrier item) epoch estimated required
            (sp_conditional_sample item) SHADOW_SIGNAL None)
  else None.

Definition asset_candidate (item : DigitAssetShadowProjection) : option ExecutionCandidate :=
  if bool_decide (ap_state item = CANDIDATE) then
    strategy_id ← ap_strategy_id item;
    if String.eqb strategy_id PAYOUT_ROUTED_DIFFERS_STRATEGY_ID then None
    else
      contract_type ← ap_contract_type item;
      epoch ← ap_last_signal_epoch item;
      estimated ← ap_estimated_probability_pct item;
      required ← ap_required_probability_pct item;
      Some (mk_ExecutionCandidate (ap_symbol item) strategy_id contract_type (ap_barrier item) epoch estimated required 0
              SHADOW_SIGNAL None)
  else None.

(** [item.last_signal_symbol or snapshot.digit_frequency.symbol] *)
Definition manual_symbol (frequency : DigitFrequencySnapshot) (item : DigitStrategyProjection) : string :=
  match sp_last_signal_symbol item with
  | Some s => if String.eqb s "" then df_symbol frequency else s
  | None => df_symbol frequency
  end.

(** [_execution_candidates] *)
Definition execution_candidates (snapshot : DerivTelemetrySnapshot) (automatic : bool) : res (list ExecutionCandidate) :=
  if automatic then
    Ok (match ts_strategy_matrix snapshot with
        | [] => omap asset_candidate (ts_asset_ranking snapshot)
        | matrix => omap (fun item => strategy_candidate (sp_last_signal_symbol item) item) matrix
        end)
  else match ts_digit_frequency snapshot with
       | None => Err (AssertionError "")
       | Some frequency =>
           Ok (omap (fun item => _ ← sp_last_direction item; strategy_candidate (Some (manual_symbol frequency item)) item)
                 (ts_synthetic_strategies snapshot))
       end.

(** [_execution_strategy_ids] *)
Definition execution_strategy_ids (config : DigitRiskConfig) : option (gset string) :=
  let enabled := dc_enabled_strategy_ids config in
  match dc_selection_mode config with
  | SINGLE =>
      if bool_decide (enabled = ∅) || negb (bool_decide (dc_active_strategy_id config ∈ DERIV_DIGIT_STRATEGY_ALLOWLIST)) then None
      else Some {[ dc_active_strategy_id config ]}
  | MULTI => if bool_decide (enabled = ∅) then None else Some enabled
  | STRESS => Some DERIV_DIGIT_STRATEGY_ALLOWLIST
  end.

(** ** Arithmetic *)

(** Sum and difference of decimals in the default context. *)
Definition ctx_add (a b : dec) : dec := dec_fix prec (dec_add a b).
Definition ctx_sub (a b : dec) : dec := dec_fix prec (dec_add a (mk_dec (- coef b) (dexp b))).

(** [_configured_edge_floor] *)
Definition configured_edge_floor (confidence_pct : dec) : dec :=
  ctx_add (mk_dec 100 (-2)) (dec_div (ctx_sub confidence_pct (mk_dec 900 (-1))) (dec_of_Z 4)).

(** [_fallback_net_profit_ratio] *)
Definition fallback_net_profit_ratio (contract_type : string) : dec :=
  if String.eqb (str_upper contract_type) "DIGITDIFF" then mk_dec 10 (-2) else mk_dec 90 (-2).

(** [d + timedelta(microseconds=n)] *)
Definition dt_plus (d : datetime) (n : Z) : res datetime :=
  let r := add_usec d n in if valid_datetime r then Ok r else Err OverflowError.

(** [timedelta(hours=d)], in microseconds. *)
Definition usec_of_hours (d : dec) : Z := usec_of_seconds (mk_dec (coef d * 3600) (dexp d)).

(** [l[-n:]] *)
Definition tail_slice {A} (n : Z) (l : list A) : list A :=
  if 0 <? n then last_n (Z.to_nat n) l else drop (Z.to_nat (- n)) l.

Definition neg_inf : float := S754_infinity true.

(** [max(0, int(seconds * 1_000_000))] *)
Definition latency_of (seconds : float) : res Z :=
  n ← float_int (fmul seconds (float_of_Z 1000000)); Ok (Z.max 0 n).

(** The exact value of a finite float. *)
Definition float_exact (x : float) : dec :=
  match x with
  | S754_finite s m e =>
      let c := if s then Zneg m else Zpos m in
      if 0 <=? e then mk_dec (c * 2 ^ e) 0 else mk_dec (c * 5 ^ (- e)) e
  | _ => dec_of_Z 0
  end.

(** [x >= d] for a float [x] and the finite float that the decimal [d] denotes. *)
Definition float_at_least (x : float) (d : dec) : bool :=
  match x with
  | S754_nan => false
  | S754_infinity negative => negb negative
  | _ => dec_leb d (float_exact x)
  end.

(** ** Reason codes from exceptions *)

Definition exn_reason_code (e : exn) : option string :=
  match e with
  | RiskLimitExceededError r | StrategyCatalogError r | DerivWorkerError _ r | IQOptionWorkerError _ r
  | IQOptionExternalError r | DerivCandlePumpError r | ExecutionCapabilityError r | SharedMarketTickRoutingError r
  | SharedMarketTickBackpressure r => Some r
  | _ => None
  end.

(** [type(exc).__name__] *)
Definition exn_class_name (e : exn) : string :=
  match e with
  | ValueError _ => "ValueError" | TypeError _ => "TypeError" | RuntimeError _ => "RuntimeError"
  | AssertionError _ => "AssertionError" | IndexError => "IndexError" | KeyError => "KeyError"
  | InvalidOperation => "InvalidOperation" | OverflowError => "OverflowError" | IntegrityError _ => "IntegrityError"
  | PersistenceError _ => "PersistenceError" | RiskLimitExceededError _ => "RiskLimitExceededError"
  | DatabaseWriteError => "DatabaseWriteError" | AccountBusyError => "AccountBusyError"
  | InvalidOrderTransition => "InvalidOrderTransition" | ReservationReleaseBlocked => "ReservationReleaseBlocked"
  | ProtocolError _ => "ProtocolError" | StrategyCatalogError _ => "StrategyCatalogError"
  | DerivWorkerError _ _ => "DerivWorkerError" | OSError _ => "OSError" | TimeoutError => "TimeoutError"
  | RecursionError => "RecursionError" | WebSocketException => "WebSocketException"
  | IQOptionWorkerError _ _ => "IQOptionWorkerError" | IQOptionExternalError _ => "IQOptionExternalError"
  | IQOptionConnectionSafetyStateError _ => "IQOptionConnectionSafetyStateError"
  | StrategyDataError _ => "StrategyDataError" | CandleConflictError _ => "CandleConflictError"
  | CandleStoreFullError => "CandleStoreFullError" | DerivCandlePumpError _ => "DerivCandlePumpError"
  | ExecutionCapabilityError _ => "ExecutionCapabilityError"
  | SharedMarketTickRoutingError _ => "SharedMarketTickRoutingError"
  | SharedMarketTickBackpressure _ => "SharedMarketTickBackpressure" | InjectedFault _ => "InjectedFault"
  end.

Definition is_reason_char (c : Ascii.ascii) : bool :=
  let n := Ascii.nat_of_ascii c in
  ((65 <=? n) && (n <=? 90) || (48 <=? n) && (n <=? 57) || (n =? 95))%nat.

(** [re.sub(r"[^A-Z0-9_]+", "_", s)]; [inside] says that the last character was replaced. *)
Fixpoint replace_runs (inside : bool) (s : string) : string :=
  match s with
  | "" => ""
  | String c rest =>
      if is_reason_char c then String c (replace_runs false rest)
      else if inside then replace_runs true rest else String "_"%char (replace_runs true rest)
  end.

Fixpoint lstrip_underscores (s : string) : string :=
  match s with
  | "" => ""
  | String c rest => if Ascii.eqb c "_"%char then lstrip_underscores rest else s
  end.

Fixpoint rstrip_underscores (s : string) : string :=
  match s with
  | "" => ""
  | String c rest =>
      let r := rstrip_underscores rest in
      if String.eqb r "" && Ascii.eqb c "_"%char then "" else String c r
  end.

(** [re.sub(r"[^A-Z0-9_]+", "_", text.upper()).strip("_")[:64]] *)
Definition normalized_reason (text : string) : string :=
  String.substring 0 64 (lstrip_underscores (rstrip_underscores (replace_runs false (str_upper text)))).

(** ** Performance samples *)

(** [_PerformanceSample] *)
Record PerformanceSample : Type := mk_PerformanceSample {
  sm_order_id : string; sm_pnl_minor : Z; sm_settled_at : datetime; sm_observed_monotonic : option float
}.

(** The numbers of the text that [_format_gate_detail] gives. *)
Record gate_detail : Type := mk_gate_detail {
  gd_required : dec; gd_estimated : dec; gd_pnl_minor : Z; gd_settled : Z; gd_cooldown_remaining : Z; gd_probes : Z
}.

(** A row of [deriv_recent_strategy_settlements]. *)
Record SettlementRow : Type := mk_SettlementRow {
  sr_order_id : string; sr_strategy_id : string; sr_symbol : string; sr_realized_pnl_minor : Z; sr_settled_at : string
}.

(** The settled Deriv orders with a P&L, updated at or after the boundary. *)
Definition settlement_rows (boundary : option string) (s : state_db) : list SettlementRow :=
  omap (fun '(o, t) =>
    pnl ← o_realized_pnl_minor o;
    if bool_decide (o_broker o = DERIV) && bool_decide (o_state o = SETTLED) && after_boundary boundary (o_updated_at o)
    then Some (mk_SettlementRow (o_order_id o) (ti_strategy_id t) (ti_symbol t) pnl (o_updated_at o)) else None)
  (orders_with_intents s).

Definition text_pair_ltb (a b : string * string) : bool :=
  match String.compare (fst a) (fst b) with Lt => true | Gt => false | Eq => negb (str_leb (snd b) (snd a)) end.

(** [ROW_NUMBER() OVER (PARTITION BY strategy_id, symbol ORDER BY updated_at DESC, order_id DESC)] *)
Definition scope_rank (rows : list SettlementRow) (row : SettlementRow) : Z :=
  1 + Z.of_nat (length (select (fun r =>
    String.eqb (sr_strategy_id r) (sr_strategy_id row) && String.eqb (sr_symbol r) (sr_symbol row) &&
    text_pair_ltb (sr_settled_at row, sr_order_id row) (sr_settled_at r, sr_order_id r)) rows)).

(** [deriv_recent_strategy_settlements] *)
Definition deriv_recent_strategy_settlements (limit_per_scope : Z) (since_utc : option datetime) (s : state_db)
    : res (list SettlementRow) :=
  _ ← guard_res (in_range 1 limit_per_scope 200) (ValueError "strategy settlement projection limit is outside bounds");
  boundary ← optional_utc_boundary since_utc;
  let rows := settlement_rows boundary s in
  Ok (sort_by (fun a b => strs_leb [sr_strategy_id a; sr_symbol a; sr_settled_at a; sr_order_id a]
                                   [sr_strategy_id b; sr_symbol b; sr_settled_at b; sr_order_id b])
        (select (fun row => scope_rank rows row <=? limit_per_scope) rows)).

(** ** The world of the trader *)

(** What is emitted to the event sink. *)
Inductive trader_event : Type :=
| PayoutBelowFloor (observed minimum : option dec)
| MartingalePinReleased (symbol : string) (duration_seconds : float)
| SignalArbitrationWinner (winner_signal_id : option string) (candidates : Z)
| SignalArbitrationRejected (reason : RankedRejectionReason) (signal_id : string) (winner_signal_id : option string)
| PayoutRoutedEntryEvidence (symbol : string) (barrier : option Z) (evidence : option PayoutRoutedDiffersSelection)
| AutotraderOrderRejected (reason strategy_id symbol : string) (amount_minor_units : Z)
| PerformanceProbeGranted (strategy_id symbol : string) (timestamp_monotonic : float) (probes : Z)
| PerformanceRatchetCapped (strategy_id symbol : string) (required_raw required_applied : dec)
| RuntimeCacheReloadFailed
| InflightCacheDivergence (cached_count persisted_count : Z)
| OperatorManualResume (previous_reason : string) (timestamp_monotonic : float).

(** The collaborators of the trader, over a state of their own.  [world_utc] is the clock
    given to the constructor and [world_utc_now] the one of the module. *)
Class TraderWorld (W : Type) := {
  world_monotonic : py W float;
  world_utc : py W datetime;
  world_utc_now : py W datetime;
  world_uuid : py W string;
  world_armed : py W bool;
  world_telemetry : py W (option DerivTelemetrySnapshot);
  world_emit : trader_event -> py W unit;
  world_arbitrated : option string -> list string -> py W unit;
  world_wait : float -> py W bool;
  world_exn_text : exn -> string;
  (* the runtime and its ledger *)
  world_dispatcher_started : py W bool;
  world_gate_state : py W HealthState;
  world_digit_config : py W DigitRiskConfig;
  world_refresh_gate : py W unit;
  world_digit_metrics : py W DigitRiskMetrics;
  world_reset_ledger : py W unit;
  world_reset_recovery : py W (bool * option string);
  world_entry_stake : option pydec -> py W Money;
  world_submit : OrderRequest -> py W PersistedOrder;
  (* quotes *)
  world_quote : string -> string -> Z -> string -> option Z -> py W dec;
  world_select_proposal : float -> py W PayoutRoutedDiffersDecision;
  (* the reader *)
  world_nonterminal_orders : py W (list (Order * TradeIntent));
  world_session_started_at : py W (option datetime);
  world_recent_settlements : option datetime -> py W (list SettlementRow);
  world_order : string -> py W (option Order);
  world_outbox_message : string -> py W (option OutboxMessage)
}.

(** ** State *)

(** What the constructor fixes; the flags say which optional collaborators it got. *)
Record TraderParams : Type := mk_TraderParams {
  tp_account_id : string; tp_minimum_ticks : Z; tp_minimum_interval : float; tp_minimum_evaluation_interval : float;
  tp_quote_provider : bool; tp_proposal_cache : bool; tp_arbitration_notifier : bool
}.

Record trader (W : Type) : Type := mk_trader {
  tr_world : W;
  tr_signal_arbiter : SignalArbiter;
  tr_last_order_at : float;
  tr_evaluated_signal_keys : gset signal_key;
  tr_evaluated_signal_order : list signal_key;
  tr_minimum_signal_epochs : gmap (string * string) Z;
  tr_inflight_order_ids : option (gset string);
  tr_order_scope : gmap string scope_key;
  tr_performance : gmap scope_key (list PerformanceSample);
  tr_performance_cache_initialized : bool;
  tr_performance_probe_remaining : gmap scope_key Z;
  tr_performance_probe_pending : gset scope_key;
  tr_performance_cooldown_until : gmap scope_key float;
  tr_performance_reset_at : gmap scope_key float;
  tr_performance_gate_details : gmap scope_key gate_detail;
  tr_martingale_pin_started_at : gmap scope_key float;
  tr_notification_generation : Z;
  tr_evaluated_notification_generation : Z;
  tr_last_evaluation_at : float;
  tr_wake : bool;
  tr_stop : bool;
  tr_thread : bool;
  tr_last_reason : string;
  tr_reason_since : float;
  tr_reason_symbol : option string;
  tr_armed_epoch : option Z;
  tr_rearm_notice : bool;
  tr_last_reason_detail : option gate_detail;
  tr_last_signal_at : float;
  tr_wake_latency : Z;
  tr_analysis_latency : Z;
  tr_submission_latency : Z
}.
#[global] Arguments mk_trader {W}.
#[global] Arguments tr_world {W}.
#[global] Arguments tr_signal_arbiter {W}.
#[global] Arguments tr_last_order_at {W}.
#[global] Arguments tr_evaluated_signal_keys {W}.
#[global] Arguments tr_evaluated_signal_order {W}.
#[global] Arguments tr_minimum_signal_epochs {W}.
#[global] Arguments tr_inflight_order_ids {W}.
#[global] Arguments tr_order_scope {W}.
#[global] Arguments tr_performance {W}.
#[global] Arguments tr_performance_cache_initialized {W}.
#[global] Arguments tr_performance_probe_remaining {W}.
#[global] Arguments tr_performance_probe_pending {W}.
#[global] Arguments tr_performance_cooldown_until {W}.
#[global] Arguments tr_performance_reset_at {W}.
#[global] Arguments tr_performance_gate_details {W}.
#[global] Arguments tr_martingale_pin_started_at {W}.
#[global] Arguments tr_notification_generation {W}.
#[global] Arguments tr_evaluated_notification_generation {W}.
#[global] Arguments tr_last_evaluation_at {W}.
#[global] Arguments tr_wake {W}.
#[global] Arguments tr_stop {W}.
#[global] Arguments tr_thread {W}.
#[global] Arguments tr_last_reason {W}.
#[global] Arguments tr_reason_since {W}.
#[global] Arguments tr_reason_symbol {W}.
#[global] Arguments tr_armed_epoch {W}.
#[global] Arguments tr_rearm_notice {W}.
#[global] Arguments tr_last_reason_detail {W}.
#[global] Arguments tr_last_signal_at {W}.
#[global] Arguments tr_wake_latency {W}.
#[global] Arguments tr_analysis_latency {W}.
#[global] Arguments tr_submission_latency {W}.

#[export] Instance trader_eta W : Eta (trader W) := fun t => mk_trader
  (tr_world t) (tr_signal_arbiter t) (tr_last_order_at t) (tr_evaluated_signal_keys t)
  (tr_evaluated_signal_order t) (tr_minimum_signal_epochs t) (tr_inflight_order_ids t) (tr_order_scope t)
  (tr_performance t) (tr_performance_cache_initialized t) (tr_performance_probe_remaining t)
  (tr_performance_probe_pending t) (tr_performance_cooldown_until t) (tr_performance_reset_at t)
  (tr_performance_gate_details t) (tr_martingale_pin_started_at t) (tr_notification_generation t)
  (tr_evaluated_notification_generation t) (tr_last_evaluation_at t) (tr_wake t) (tr_stop t) (tr_thread t)
  (tr_last_reason t) (tr_reason_since t) (tr_reason_symbol t) (tr_armed_epoch t) (tr_rearm_notice t)
  (tr_last_reason_detail t) (tr_last_signal_at t) (tr_wake_latency t) (tr_analysis_latency t)
  (tr_submission_latency t).

Definition TERMINAL_STATES : list OrderState := [SETTLED; REJECTED].
Definition PERFORMANCE_COOLDOWN_USEC : Z := 600000000.
Definition PERFORMANCE_PROBE_ORDERS : Z := 10.

Section trader.
Context {W : Type} `{TraderWorld W}.
Variable params : TraderParams.
Abbreviation trader_m := (py (trader W)).

Definition with_world {A} (m : py W A) : trader_m A := py_zoom tr_world (fun w t => t <| tr_world := w |>) m.
Definition monotonic : trader_m float := with_world world_monotonic.
Definition emit (e : trader_event) : trader_m unit := with_world (world_emit e).
Definition digit_config : trader_m DigitRiskConfig := with_world world_digit_config.

(** ** Status *)

Definition keeps_detail (reason : string) : bool :=
  bool_decide (reason ∈ ["BOT_PERFORMANCE_COOLDOWN"; "BOT_PERFORMANCE_CACHE_UNAVAILABLE"; "BOT_NO_POSITIVE_NET_EDGE"]).

(** [_set_reason] *)
Definition set_reason (reason : string) (symbol : option string) (armed_epoch : option Z) (rearm_notice reset_duration : bool)
    : trader_m unit :=
  changed ← py_gets (fun t => negb (String.eqb reason (tr_last_reason t)));
  _ ← (if changed || reset_duration then n ← monotonic; py_modify (fun t => t <| tr_reason_since := n |>) else mret tt);
  py_modify (fun t =>
    t <| tr_last_reason := reason |>
      <| tr_last_reason_detail ::= fun d => if changed && negb (keeps_detail reason) then None else d |>
      <| tr_reason_symbol ::= fun s => if changed || bool_decide (is_Some symbol) then symbol else s |>
      <| tr_armed_epoch ::= fun e => if changed || bool_decide (is_Some armed_epoch) then armed_epoch else e |>
      <| tr_rearm_notice ::= fun b => if changed : bool then rearm_notice else if rearm_notice then true else b |>).

Definition plain_reason (reason : string) : trader_m unit := set_reason reason None None false false.

(** [return self._skip(reason)]: [skip] where the evaluation ends with [False], [refuse] where a
    part of it gives nothing. *)
Definition skip (reason : string) : trader_m bool := _ ← plain_reason reason; mret false.
Definition refuse {A} (reason : string) : trader_m (option A) := _ ← plain_reason reason; mret None.

(** Goes on with what a part of the evaluation gave. *)
Definition and_then {A B} (m : trader_m (option A)) (k : A -> trader_m (option B)) : trader_m (option B) :=
  r ← m; match r with Some a => k a | None => mret None end.

(** [_notify] *)
Definition notify : trader_m unit :=
  n ← monotonic;
  py_modify (fun t => t <| tr_last_signal_at := n |> <| tr_notification_generation ::= Z.succ |> <| tr_wake := true |>).

Definition notify_tick : trader_m unit := notify.

(** ** Caches *)

(** [_settled_at] *)
Definition settled_at (text : string) : option datetime :=
  match fromisoformat text with
  | Err _ => None
  | Ok parsed => offset ← dt_offset parsed; Some (astimezone_utc parsed offset)
  end.

Definition add_sample (key : scope_key) (x : PerformanceSample) (d : gmap scope_key (list PerformanceSample))
    : gmap scope_key (list PerformanceSample) :=
  <[ key := deque_append 30 x (default [] (d !! key)) ]> d.

(** The loop over the settled rows. *)
Fixpoint load_performance (rows : list SettlementRow) (d : gmap scope_key (list PerformanceSample))
    : trader_m (gmap scope_key (list PerformanceSample)) :=
  match rows with
  | [] => mret d
  | row :: rest =>
      match settled_at (sr_settled_at row) with
      | None => py_raise (ValueError "invalid settlement timestamp")
      | Some at_ =>
          n ← monotonic;
          load_performance rest (add_sample (sr_strategy_id row, sr_symbol row)
            (mk_PerformanceSample (sr_order_id row) (sr_realized_pnl_minor row) at_ (Some n)) d)
      end
  end.

(** The ids of the Deriv orders that are not terminal. *)
Definition inflight_of (orders : list (Order * TradeIntent)) : gset string :=
  list_to_set ((fun x => o_order_id (fst x)) <$>
    select (fun x => bool_decide (o_broker (fst x) = DERIV) && negb (bool_decide (o_state (fst x) ∈ TERMINAL_STATES))) orders).

(** The scopes of the rows that have a strategy and a symbol; a later row replaces an earlier one. *)
Definition scopes_of (orders : list (Order * TradeIntent)) (rows : list SettlementRow) : gmap string scope_key :=
  let entries := ((fun x => (o_order_id (fst x), (ti_strategy_id (snd x), ti_symbol (snd x)))) <$> orders)
                 ++ ((fun r => (sr_order_id r, (sr_strategy_id r, sr_symbol r))) <$> rows) in
  fold_left (fun d '(id, scope) =>
    if String.eqb (fst scope) "" || String.eqb (snd scope) "" then d else <[ id := scope ]> d) entries ∅.

(** What is read in the body of the [try]. *)
Definition read_caches : trader_m (gset string * gmap string scope_key * gmap scope_key (list PerformanceSample)) :=
  orders ← with_world world_nonterminal_orders;
  started ← with_world world_session_started_at;
  rows ← with_world (world_recent_settlements started);
  performance ← load_performance rows ∅;
  mret (inflight_of orders, scopes_of orders rows, performance).

Definition reload_runtime_caches (report_divergence : bool) : trader_m unit :=
  read ← py_try (x ← read_caches; mret (Some x)) (fun _ => Some (mret None));
  match read with
  | None =>
      _ ← py_modify (fun t => t <| tr_inflight_order_ids := None |> <| tr_performance_cache_initialized := false |>);
      emit RuntimeCacheReloadFailed
  | Some (inflight, scopes, performance) =>
      previous ← py_gets tr_inflight_order_ids;
      _ ← match previous with
          | Some ids =>
              if report_divergence && negb (bool_decide (ids = inflight))
              then emit (InflightCacheDivergence (Z.of_nat (size ids)) (Z.of_nat (size inflight)))
              else mret tt
          | None => mret tt
          end;
      py_modify (fun t => t <| tr_inflight_order_ids := Some inflight |> <| tr_order_scope := scopes |>
                            <| tr_performance := performance |> <| tr_performance_cache_initialized := true |>)
  end.

(** [_order_is_terminal] *)
Definition order_is_terminal (order_id : string) : trader_m bool :=
  row ← py_try (with_world (world_order order_id)) (fun _ => Some (mret None));
  mret (match row with Some o => bool_decide (o_state o ∈ TERMINAL_STATES) | None => false end).

(** [_dispatch_rejection_reason] *)
Definition dispatch_rejection_reason (message_id : string) : trader_m (option string) :=
  if String.eqb message_id "" then mret None
  else
    row ← py_try (with_world (world_outbox_message message_id)) (fun _ => Some (mret None));
    mret (message ← row;
          reason ← om_state_reason message;
          let normalized := normalized_reason reason in
          if String.eqb normalized "" then None else Some normalized).

(** A settled order as a sample of its scope, unless it is one already. *)
Definition record_settlement (order_id : string) (pnl : Z) (observed_at : datetime) (t : trader W) : trader W :=
  match tr_order_scope t !! order_id with
  | None => t
  | Some scope =>
      let samples := default [] (tr_performance t !! scope) in
      let t := t <| tr_performance ::= <[ scope := samples ]> |> in
      if existsb (fun x => String.eqb (sm_order_id x) order_id) samples then t
      else t <| tr_performance ::= add_sample scope (mk_PerformanceSample order_id pnl observed_at None) |>
             <| tr_performance_probe_pending ::= fun s => s ∖ {[ scope ]} |>
  end.

(** [notify_order_event] *)
Definition order_event (event : BrokerOrderEvent) (result : BrokerEventApplyResult) (t : trader W) : trader W :=
  match ar_order_state result, tr_inflight_order_ids t with
  | None, _ => t <| tr_inflight_order_ids := None |>
  | Some state, inflight =>
      if bool_decide (ar_status result = EV_CONFLICT) then t <| tr_inflight_order_ids := None |>
      else match inflight with
           | None => t
           | Some ids =>
               let order_id := bo_client_order_ref event in
               if is_terminal state then
                 let t := t <| tr_inflight_order_ids := Some (ids ∖ {[ order_id ]}) |> in
                 let t := match bo_result_minor event with
                          | Some pnl =>
                              if bool_decide (state = SETTLED) && bool_decide (ar_status result ∈ [EV_APPLIED; EV_APPLIED_WITH_GAP])
                              then record_settlement order_id pnl (bo_observed_at event) t else t
                          | None => t
                          end in
                 t <| tr_order_scope ::= delete order_id |>
               else t <| tr_inflight_order_ids := Some ({[ order_id ]} ∪ ids) |>
           end
  end.

Definition notify_order_event (event : BrokerOrderEvent) (result : BrokerEventApplyResult) : trader_m unit :=
  _ ← py_modify (order_event event result);
  notify.

(** [_remember_signal] *)
Definition remember_key (key : signal_key) (t : trader W) : trader W :=
  if bool_decide (key ∈ tr_evaluated_signal_keys t) then t
  else
    let t := t <| tr_evaluated_signal_keys ::= fun s => {[ key ]} ∪ s |> <| tr_evaluated_signal_order ::= fun l => l ++ [key] |> in
    if (512 <? length (tr_evaluated_signal_order t))%nat then
      match tr_evaluated_signal_order t with
      | expired :: rest => t <| tr_evaluated_signal_order := rest |> <| tr_evaluated_signal_keys ::= fun s => s ∖ {[ expired ]} |>
      | [] => t
      end
    else t.

Definition remember_signal (c : ExecutionCandidate) : trader_m unit := py_modify (remember_key (key_of_candidate c)).

(** ** The performance gate *)

Definition set_detail (key : scope_key) (d : gate_detail) : trader_m unit :=
  py_modify (fun t => t <| tr_performance_gate_details ::= <[ key := d ]> |>).

(** The samples of a scope that count: observed since the last reset, in both windows. *)
Definition since_reset (reset_at : option float) (samples : list PerformanceSample) : list PerformanceSample :=
  match reset_at with
  | None => samples
  | Some r => select (fun x => match sm_observed_monotonic x with None => true | Some m => fleb r m end) samples
  end.

Definition windowed (config : DigitRiskConfig) (utc : datetime) (samples : list PerformanceSample) : res (list PerformanceSample) :=
  cutoff ← dt_plus utc (- usec_of_hours (dec_of (dc_performance_window_hours config)));
  Ok (select (fun x => dt_leb cutoff (sm_settled_at x)) (tail_slice (dc_performance_window_trades config) samples)).

Definition pnl_of (samples : list PerformanceSample) : Z := foldr Z.add 0 (sm_pnl_minor <$> samples).

(** Seconds until the cooldown after a settlement ends on the wall clock. *)
Definition utc_remaining (last_settled utc : datetime) : res Z :=
  over ← dt_plus last_settled PERFORMANCE_COOLDOWN_USEC;
  seconds ← int_truediv (instant over - instant utc) 1000000;
  Ok (Z.max 0 (float_trunc seconds)).

(** The cooldown is over; the scope is not held back. *)
Definition grant_probes (c : ExecutionCandidate) (now : float) : trader_m bool :=
  _ ← py_modify (fun t => t <| tr_performance_cooldown_until ::= delete (scope_of c) |>
                            <| tr_performance_probe_remaining ::= <[ scope_of c := PERFORMANCE_PROBE_ORDERS ]> |>);
  _ ← emit (PerformanceProbeGranted (ec_strategy_id c) (ec_symbol c) now PERFORMANCE_PROBE_ORDERS);
  mret false.

(** The branch for a scope whose probes are used up and which awaits no settlement: [true]
    while the cooldown lasts, then new probes are granted. *)
Definition cooldown_or_probes (c : ExecutionCandidate) (required : dec) (last_settled : datetime) (pnl settled : Z) : trader_m bool :=
  let key := scope_of c in
  n ← monotonic;
  until ← py_gets (fun t => tr_performance_cooldown_until t !! key);
  utc ← with_world world_utc;
  left_ ← py_lift (utc_remaining last_settled utc);
  until ← match until with
          | Some u => mret (Some u)
          | None =>
              if 0 <? left_ then
                let u := fadd n (float_of_Z left_) in
                _ ← py_modify (fun t => t <| tr_performance_cooldown_until ::= <[ key := u ]> |>);
                mret (Some u)
              else mret None
          end;
  match until with
  | Some u =>
      if fltb n u then
        seconds ← py_lift (float_int (fsub u n));
        _ ← set_detail key (mk_gate_detail required (ec_estimated_probability_pct c) pnl settled (Z.max 0 seconds) PERFORMANCE_PROBE_ORDERS);
        mret true
      else grant_probes c n
  | None => grant_probes c n
  end.

(** The part of the gate for the settled samples: [true] when the scope is held back. *)
Definition cooldown_gate (c : ExecutionCandidate) (required : dec) (samples : list PerformanceSample) : trader_m bool :=
  let key := scope_of c in
  let settled := Z.of_nat (length samples) in
  match last samples with
  | None => mret false
  | Some last_sample =>
      if (10 <=? settled) && (pnl_of samples <=? 0) then
        remaining ← py_gets (fun t => default 0 (tr_performance_probe_remaining t !! key));
        pending ← py_gets (fun t => bool_decide (key ∈ tr_performance_probe_pending t));
        if (remaining <=? 0) && pending then
          _ ← set_detail key (mk_gate_detail required (ec_estimated_probability_pct c) (pnl_of samples) settled 0 0);
          mret true
        else if remaining <=? 0 then cooldown_or_probes c required (sm_settled_at last_sample) (pnl_of samples) settled
        else mret false
      else
        _ ← py_modify (fun t => t <| tr_performance_probe_remaining ::= delete key |>);
        mret false
  end.

(** [min(raw_required, cap)] *)
Definition applied_required (c : ExecutionCandidate) (edge_floor cap_pp : dec) : dec :=
  let raw := ctx_add (ec_required_probability_pct c) edge_floor in
  let cap := ctx_add (ec_required_probability_pct c) cap_pp in
  if dec_ltb cap raw then cap else raw.

(** The comparison at the end of the gate. *)
Definition edge_gate (c : ExecutionCandidate) (edge_floor cap_pp : dec) (samples : list PerformanceSample)
    : trader_m (bool * option string) :=
  let key := scope_of c in
  let raw := ctx_add (ec_required_probability_pct c) edge_floor in
  let cap := ctx_add (ec_required_probability_pct c) cap_pp in
  let applied := applied_required c edge_floor cap_pp in
  _ ← (if dec_ltb cap raw then emit (PerformanceRatchetCapped (ec_strategy_id c) (ec_symbol c) raw applied) else mret tt);
  probes ← py_gets (fun t => default 0 (tr_performance_probe_remaining t !! key));
  _ ← set_detail key (mk_gate_detail applied (ec_estimated_probability_pct c) (pnl_of samples) (Z.of_nat (length samples)) 0 probes);
  let allowed := dec_leb applied (ec_estimated_probability_pct c) in
  mret (allowed, if allowed then None else Some "NO_POSITIVE_NET_EDGE").

(** [_performance_allows] *)
Definition performance_allows (c : ExecutionCandidate) (edge_floor : dec) : trader_m (bool * option string) :=
  if String.eqb (ec_strategy_id c) PAYOUT_ROUTED_DIFFERS_STRATEGY_ID then mret (true, None)
  else
    initialized ← py_gets tr_performance_cache_initialized;
    if negb initialized then mret (false, Some "PERFORMANCE_CACHE_UNAVAILABLE")
    else
      samples ← py_gets (fun t => since_reset (tr_performance_reset_at t !! scope_of c) (default [] (tr_performance t !! scope_of c)));
      config ← digit_config;
      utc ← with_world world_utc;
      samples ← py_lift (windowed config utc samples);
      held ← cooldown_gate c (ctx_add (ec_required_probability_pct c) edge_floor) samples;
      if held : bool then mret (false, Some "PERFORMANCE_COOLDOWN")
      else edge_gate c edge_floor (dec_of (dc_performance_ratchet_cap_pp config)) samples.

(** [_consume_performance_probe] *)
Definition consume_performance_probe (c : ExecutionCandidate) : trader_m unit := py_modify (fun t =>
  let key := scope_of c in
  match tr_performance_probe_remaining t !! key with
  | None => t
  | Some remaining =>
      t <| tr_performance_probe_remaining ::= if remaining <=? 1 then delete key else <[ key := remaining - 1 ]> |>
        <| tr_performance_probe_pending ::= fun s => {[ key ]} ∪ s |>
  end).

(** [_set_performance_reason] *)
Definition set_performance_reason (c : ExecutionCandidate) : trader_m unit :=
  py_modify (fun t => t <| tr_last_reason_detail := tr_performance_gate_details t !! scope_of c |>).

(** ** The evaluation *)

(** [_payout_routed_candidate] *)
Definition payout_routed_candidate (snapshot : DerivTelemetrySnapshot) : trader_m (option ExecutionCandidate * option string) :=
  if negb (tp_proposal_cache params) then mret (None, None)
  else
    n ← monotonic;
    decision ← with_world (world_select_proposal n);
    match pd_selection decision with
    | None =>
        _ ← (if String.eqb (pd_reason_code decision) "SESSION_PAYOUT_BELOW_FLOOR"
             then emit (PayoutBelowFloor (pd_observed_payout_return_ratio decision) (pd_minimum_payout_return_ratio decision))
             else mret tt);
        mret (None, Some (pd_reason_code decision))
    | Some selection =>
        epoch ← match ts_digit_frequency snapshot with
                | Some f => mret (df_total_ticks f)
                | None => py_lift (float_int (fmul n (float_of_Z 1000)))
                end;
        mret (Some (mk_ExecutionCandidate (pq_broker_symbol (se_quote selection)) PAYOUT_ROUTED_DIFFERS_STRATEGY_ID "DIGITDIFF"
                (pq_barrier (se_quote selection)) epoch (mk_dec 900 (-1)) (mk_dec 0 (-1)) 0 EXECUTABLE_SIGNAL (Some selection)), None)
    end.

(** The first part of [evaluate_once]: whether the operator, the dispatcher, the orders in
    flight and the health gate let an order enter, and a live Demo snapshot. *)
Definition entry_snapshot : trader_m (option (DerivTelemetrySnapshot * DigitRiskConfig)) :=
  armed ← with_world world_armed;
  if negb armed then refuse "BOT_OPERATOR_NOT_ARMED"
  else
    started ← with_world world_dispatcher_started;
    if negb started then refuse "BOT_DISABLED_OR_HEALTH_BLOCKED"
    else
      inflight ← py_gets tr_inflight_order_ids;
      match inflight with
      | None => refuse "BOT_ORDER_STATE_UNAVAILABLE"
      | Some ids =>
          if negb (bool_decide (ids = ∅)) then refuse "BOT_ORDER_IN_FLIGHT"
          else
            _ ← with_world world_refresh_gate;
            gate ← with_world world_gate_state;
            if negb (is_open gate) then
              if bool_decide (reason_code gate = Some "HG_COOLDOWN_ACTIVE") then refuse "BOT_RISK_COOLDOWN_ACTIVE"
              else refuse "BOT_DISABLED_OR_HEALTH_BLOCKED"
            else
              snapshot ← with_world world_telemetry;
              config ← digit_config;
              match snapshot with
              | None => refuse "BOT_DERIV_ACCOUNT_NOT_CONNECTED"
              | Some s =>
                  if bool_decide (ts_source s = REAL_LIVE) && bool_decide (dc_selection_mode config = STRESS)
                  then refuse "BOT_STRESS_MODE_REQUIRES_DEMO"
                  else if negb (bool_decide (ts_source s = DEMO_LIVE)) || negb (ts_connected s)
                  then refuse "BOT_DERIV_ACCOUNT_NOT_CONNECTED"
                  else mret (Some (s, config))
              end
      end.

(** The candidates of the strategies that may be executed. *)
Definition executable_candidates (x : DerivTelemetrySnapshot * DigitRiskConfig) : trader_m (option (list ExecutionCandidate)) :=
  let '(snapshot, config) := x in
  match execution_strategy_ids config with
  | None => refuse "BOT_NO_STRATEGY_SELECTED"
  | Some execution_ids =>
      let payout_session_enabled := tp_proposal_cache params &&
        (bool_decide (PAYOUT_ROUTED_DIFFERS_STRATEGY_ID ∈ execution_ids) || bool_decide (dc_selection_mode config = STRESS)) in
      if negb payout_session_enabled &&
         match ts_digit_frequency snapshot with None => true | Some f => df_total_ticks f <? tp_minimum_ticks params end
      then refuse "BOT_WARMING_UP_TICKS"
      else if bool_decide (dc_selection_mode config = MULTI) && bool_decide (dc_enabled_strategy_ids config = ∅)
      then refuse "BOT_NO_STRATEGY_SELECTED"
      else
        shadow_candidates ← py_lift (execution_candidates snapshot (dc_auto_select_symbol config));
        let candidate_list := (fun c => c <| ec_signal_state := EXECUTABLE_SIGNAL |>) <$>
          select (fun c => bool_decide (ec_strategy_id c ∈ execution_ids)) shadow_candidates in
        '(payout_candidate, payout_skip_reason) ← (if payout_session_enabled then payout_routed_candidate snapshot else mret (None, None));
        let candidates := select (fun c => bool_decide (ec_signal_state c = EXECUTABLE_SIGNAL))
          (candidate_list ++ match payout_candidate with Some c => [c] | None => [] end) in
        match candidates with
        | [] => match payout_skip_reason, shadow_candidates with
                | Some reason, [] => refuse reason
                | _, _ => refuse "BOT_WAITING_FOR_STRATEGY_SIGNAL"
                end
        | _ => mret (Some candidates)
        end
  end.

(** A recovery sequence holds on to its symbol; the step of the progression is kept. *)
Definition pinned_candidates (config : DigitRiskConfig) (candidates : list ExecutionCandidate)
    : trader_m (option (list ExecutionCandidate * Z)) :=
  metrics ← with_world world_digit_metrics;
  let step := dm_martingale_step metrics in
  if negb (0 <? step) then mret (Some (candidates, step))
  else match dm_recovery_symbol metrics with
       | None => refuse "BOT_MARTINGALE_STATE_INCOMPLETE"
       | Some recovery_symbol =>
           let pin_key := (dc_active_strategy_id config, recovery_symbol) in
           n ← monotonic;
           pin_started ← py_gets (fun t => default n (tr_martingale_pin_started_at t !! pin_key));
           _ ← py_modify (fun t => t <| tr_martingale_pin_started_at ::= <[ pin_key := pin_started ]> |>);
           match select (fun c => String.eqb (ec_symbol c) recovery_symbol) candidates with
           | [] =>
               n ← monotonic;
               let pinned_for := fsub n pin_started in
               if float_at_least pinned_for (dec_of (dc_martingale_pin_timeout_seconds config)) then
                 _ ← with_world world_reset_ledger;
                 _ ← py_modify (fun t => t <| tr_martingale_pin_started_at ::= delete pin_key |>);
                 _ ← emit (MartingalePinReleased recovery_symbol pinned_for);
                 refuse "BOT_MARTINGALE_PIN_RELEASED"
               else
                 _ ← set_reason "BOT_MARTINGALE_ASSET_PINNED" (Some recovery_symbol) None false false;
                 mret None
           | kept => mret (Some (kept, step))
           end
       end.

(** Not evaluated yet, and later than what was there when the operator armed the bot. *)
Definition is_fresh (t : trader W) (c : ExecutionCandidate) : bool :=
  negb (bool_decide (key_of_candidate c ∈ tr_evaluated_signal_keys t)) &&
  (default (-1) (tr_minimum_signal_epochs t !! (ec_symbol c, ec_strategy_id c)) <? ec_epoch c).

Definition has_reason (reason : string) (d : ExecutionCandidate * (bool * option string)) : bool :=
  bool_decide (snd (snd d) = Some reason).

(** Nothing passed the gate: only a rejection on the merits consumes the signal. *)
Definition report_blocked {A} (decisions : list (ExecutionCandidate * (bool * option string))) : trader_m (option A) :=
  _ ← py_for (fun d => if has_reason "NO_POSITIVE_NET_EDGE" d then remember_signal (fst d) else mret tt) decisions;
  let reason := if existsb (has_reason "PERFORMANCE_COOLDOWN") decisions then "BOT_PERFORMANCE_COOLDOWN"
                else if existsb (has_reason "PERFORMANCE_CACHE_UNAVAILABLE") decisions then "BOT_PERFORMANCE_CACHE_UNAVAILABLE"
                else "BOT_NO_POSITIVE_NET_EDGE" in
  _ ← match List.find (fun d => has_reason "PERFORMANCE_COOLDOWN" d || has_reason "PERFORMANCE_CACHE_UNAVAILABLE" d) decisions with
      | Some d => set_performance_reason (fst d)
      | None => mret tt
      end;
  refuse reason.

(** The fresh candidates that pass the performance gate. *)
Definition eligible_candidates (config : DigitRiskConfig) (candidates : list ExecutionCandidate)
    : trader_m (option (list ExecutionCandidate)) :=
  let edge_floor := configured_edge_floor (dec_of (dc_min_quantum_confidence_pct config)) in
  unevaluated ← py_gets (fun t => select (is_fresh t) candidates);
  match unevaluated with
  | [] => refuse "BOT_WAITING_FOR_NEW_TICK"
  | _ =>
      decisions ← py_map (fun c => d ← performance_allows c edge_floor; mret (c, d)) unevaluated;
      match select (fun d => fst (snd d)) decisions with
      | [] => report_blocked decisions
      | allowed => mret (Some (fst <$> allowed))
      end
  end.

Definition ranked_candidate (c : ExecutionCandidate) : RankedSignalCandidate :=
  mk_RankedSignalCandidate (signal_id c) (ec_strategy_id c) (ec_symbol c)
    (Finite (ctx_sub (ec_estimated_probability_pct c) (ec_required_probability_pct c))) (ec_conditional_sample c).

Definition with_arbiter {A} (f : SignalArbiter -> A * SignalArbiter) : trader_m A := fun t =>
  let '(a, arbiter) := f (tr_signal_arbiter t) in (Ok a, t <| tr_signal_arbiter := arbiter |>).

(** The arbitration; every eligible signal is consumed.  The winner is one of the eligible
    signals, so that [next] finds it. *)
Definition arbitrate_candidates (eligible : list ExecutionCandidate) : trader_m ExecutionCandidate :=
  ranked ← py_map (fun c => py_lift (RankedSignalCandidate_post_init (ranked_candidate c))) eligible;
  arbitration ← with_arbiter (arbitrate_ranked ranked);
  let winner := rd_winner_signal_id arbitration in
  _ ← (if tp_arbitration_notifier params then with_world (world_arbitrated winner (fst <$> rd_rejected arbitration)) else mret tt);
  _ ← emit (SignalArbitrationWinner winner (Z.of_nat (length (rd_considered_signal_ids arbitration))));
  _ ← py_for (fun r => emit (SignalArbitrationRejected (snd r) (fst r) winner)) (rd_rejected arbitration);
  selected ← match List.find (fun c => bool_decide (Some (signal_id c) = winner)) eligible with
             | Some c => mret c
             | None => py_raise (RuntimeError "StopIteration")
             end;
  _ ← py_for remember_signal eligible;
  mret selected.

(** The signal that an evaluation decides to enter, with the configuration and the step of
    the progression: [evaluate_once] up to the throttle. *)
Definition select_signal : trader_m (option (ExecutionCandidate * DigitRiskConfig * Z)) :=
  and_then entry_snapshot (fun x =>
  and_then (executable_candidates x) (fun candidates =>
  and_then (pinned_candidates (snd x) candidates) (fun '(candidates, step) =>
  and_then (eligible_candidates (snd x) candidates) (fun eligible =>
    selected ← arbitrate_candidates eligible;
    mret (Some (selected, snd x, step)))))).

(** ** The entry *)

(** The reason code that an exception of the ledger or of the runtime is reported with. *)
Definition rejected_with (prefix : string) (e : exn) : string :=
  let normalized := normalized_reason (default (world_exn_text e) (exn_reason_code e)) in
  prefix +:+ (if String.eqb normalized "" then str_upper (exn_class_name e) else normalized).

(** The stake that the ledger allocates; during a recovery sequence it needs the ratio of a quote. *)
Definition allocate_stake (selected : ExecutionCandidate) (config : DigitRiskConfig) (step : Z) : trader_m (option Money) :=
  ratio ← (if 0 <? step then
             if tp_quote_provider params then
               q ← with_world (world_quote (ec_contract_type selected) (ec_symbol selected) (dc_stake_minor_units config)
                     (dc_currency config) (ec_barrier selected));
               mret (Some q)
             else mret (Some (fallback_net_profit_ratio (ec_contract_type selected)))
           else mret None);
  match ratio with
  | None =>
      if String.eqb (ec_strategy_id selected) PAYOUT_ROUTED_DIFFERS_STRATEGY_ID && dc_martingale_enabled config
      then refuse "SESSION_MARTINGALE_NOT_SUPPORTED"
      else m ← with_world (world_entry_stake None); mret (Some m)
  | Some r => m ← with_world (world_entry_stake (Some (Finite r))); mret (Some m)
  end.

Definition request_for (selected : ExecutionCandidate) (stake : Money) (correlation_id : string) (deadline : datetime) : OrderRequest :=
  mk_OrderRequest correlation_id DERIV (tp_account_id params) (str_upper (ec_contract_type selected)) (ec_symbol selected) CALL stake
    (ec_strategy_id selected) "1.9.11-resilient-connection-and-performance" deadline 1 "t" (ec_barrier selected).

Definition build_request (selected : ExecutionCandidate) (stake : Money) : trader_m OrderRequest :=
  correlation_id ← with_world world_uuid;
  now ← with_world world_utc_now;
  deadline ← py_lift (dt_plus now 10000000);
  py_lift (OrderRequest_post_init (request_for selected stake correlation_id deadline)).

Definition add_inflight (order_id : string) (scope : scope_key) (t : trader W) : trader W :=
  match tr_inflight_order_ids t with
  | None => t
  | Some ids => t <| tr_inflight_order_ids := Some ({[ order_id ]} ∪ ids) |> <| tr_order_scope ::= <[ order_id := scope ]> |>
  end.

(** After a submission: the order is in flight unless the store says that it is terminal, and
    then a reason is given if the dispatch was rejected. *)
Definition track_submission (selected : ExecutionCandidate) (ids : PersistedOrder) : trader_m (option string) :=
  if String.eqb (po_order_id ids) "" then mret None
  else
    _ ← py_modify (add_inflight (po_order_id ids) (scope_of selected));
    _ ← reload_runtime_caches true;
    terminal ← order_is_terminal (po_order_id ids);
    if negb terminal then _ ← py_modify (add_inflight (po_order_id ids) (scope_of selected)); mret None
    else dispatch_rejection_reason (po_message_id ids).

(** What follows the submission; [now] is the time of the throttle. *)
Definition after_submission (selected : ExecutionCandidate) (stake : Money) (now before_submit : float) (ids : PersistedOrder)
    : trader_m bool :=
  after_submit ← monotonic;
  latency ← py_lift (latency_of (fsub after_submit before_submit));
  _ ← py_modify (fun t => t <| tr_submission_latency := latency |> <| tr_last_order_at := now |>);
  _ ← (if String.eqb (ec_strategy_id selected) PAYOUT_ROUTED_DIFFERS_STRATEGY_ID
       then emit (PayoutRoutedEntryEvidence (ec_symbol selected) (ec_barrier selected) (ec_evidence selected)) else mret tt);
  rejection ← track_submission selected ids;
  match rejection with
  | Some reason =>
      _ ← emit (AutotraderOrderRejected reason (ec_strategy_id selected) (ec_symbol selected) (minor_units stake));
      skip ("BOT_ENTRY_REJECTED_" +:+ reason)
  | None =>
      _ ← consume_performance_probe selected;
      _ ← plain_reason "BOT_ORDER_SUBMITTED";
      mret true
  end.

(** The rest of [evaluate_once], from the throttle on. *)
Definition enter_signal (analysis_started : float) (x : ExecutionCandidate * DigitRiskConfig * Z) : trader_m bool :=
  let '(selected, config, step) := x in
  now ← monotonic;
  last_order_at ← py_gets tr_last_order_at;
  if fltb (fsub now last_order_at) (tp_minimum_interval params) then skip "BOT_ENTRY_THROTTLED"
  else
    stake ← py_try (allocate_stake selected config step) (fun e => Some (refuse (rejected_with "BOT_STAKE_REJECTED_" e)));
    match stake with
    | None => mret false
    | Some stake =>
        request ← build_request selected stake;
        before_submit ← monotonic;
        latency ← py_lift (latency_of (fsub before_submit analysis_started));
        _ ← py_modify (fun t => t <| tr_analysis_latency := latency |>);
        persisted ← py_try (ids ← with_world (world_submit request); mret (Some ids))
                           (fun e => Some (refuse (rejected_with "BOT_ENTRY_REJECTED_" e)));
        match persisted with
        | None => mret false
        | Some ids => after_submission selected stake now before_submit ids
        end
    end.

Definition wake_latency (analysis_started : float) : trader_m unit :=
  last_signal_at ← py_gets tr_last_signal_at;
  if feqb last_signal_at neg_inf then mret tt
  else
    latency ← py_lift (latency_of (fsub analysis_started last_signal_at));
    py_modify (fun t => t <| tr_wake_latency := latency |>).

Definition evaluate_once : trader_m bool :=
  analysis_started ← monotonic;
  _ ← wake_latency analysis_started;
  selected ← select_signal;
  match selected with
  | None => mret false
  | Some x => enter_signal analysis_started x
  end.

(** ** Notifications and the operator *)

Definition process_pending_once : trader_m bool :=
  target ← py_gets tr_notification_generation;
  evaluated ← py_gets tr_evaluated_notification_generation;
  if target =? evaluated then _ ← py_modify (fun t => t <| tr_wake := false |>); mret false
  else
    n ← monotonic;
    last_evaluation_at ← py_gets tr_last_evaluation_at;
    let remaining := fmax (float_of_Z 0) (fsub (tp_minimum_evaluation_interval params) (fsub n last_evaluation_at)) in
    stopped ← (if fltb (float_of_Z 0) remaining then with_world (world_wait remaining) else mret false);
    if stopped : bool then mret false
    else
      _ ← evaluate_once;
      n ← monotonic;
      _ ← py_modify (fun t => t <| tr_evaluated_notification_generation := target |> <| tr_last_evaluation_at := n |>);
      mret true.

(** [start] and [stop], without the thread itself. *)
Definition start_trader : trader_m unit :=
  running ← py_gets tr_thread;
  if running : bool then mret tt
  else
    _ ← py_modify (fun t => t <| tr_stop := false |>);
    _ ← notify;
    py_modify (fun t => t <| tr_thread := true |>).

Definition stop_trader : trader_m unit := py_modify (fun t => t <| tr_stop := true |> <| tr_wake := true |> <| tr_thread := false |>).

Definition was_waiting : trader_m bool := py_gets (fun t => str_startswith "BOT_WAITING" (tr_last_reason t)).

(** [max((item.epoch for item in candidates), default=None)] *)
Definition latest_epoch (candidates : list ExecutionCandidate) : option Z :=
  foldr (fun c m => Some (match m with Some n => Z.max (ec_epoch c) n | None => ec_epoch c end)) None candidates.

(** The epochs by symbol and strategy; a later candidate replaces an earlier one. *)
Definition epochs_of (candidates : list ExecutionCandidate) : gmap (string * string) Z :=
  fold_left (fun d c => <[ (ec_symbol c, ec_strategy_id c) := ec_epoch c ]> d) candidates ∅.

Definition begin_new_run : trader_m unit :=
  snapshot ← with_world world_telemetry;
  match snapshot with
  | None =>
      waiting ← was_waiting;
      _ ← set_reason "BOT_WAITING_FOR_LIVE_DERIV" None None waiting true;
      notify
  | Some snapshot =>
      config ← digit_config;
      candidates ← py_lift (execution_candidates snapshot (dc_auto_select_symbol config));
      _ ← py_modify (fun t => t <| tr_minimum_signal_epochs := epochs_of candidates |>);
      waiting ← was_waiting;
      _ ← set_reason "BOT_WAITING_FOR_NEW_TICK" None (latest_epoch candidates) waiting true;
      notify
  end.

(** The scopes of the active strategies start afresh. *)
Definition reset_performance (active : gset string) (now : float) (t : trader W) : trader W :=
  let cleared := filter (fun x => fst (fst x) ∈ active) (tr_performance t) in
  t <| tr_performance ::= filter (fun x => fst (fst x) ∉ active) |>
    <| tr_performance_reset_at ::= fun m => ((fun _ => now) <$> cleared) ∪ m |>
    <| tr_performance_probe_remaining := ∅ |> <| tr_performance_probe_pending := ∅ |>
    <| tr_performance_cooldown_until := ∅ |> <| tr_performance_gate_details := ∅ |>
    <| tr_martingale_pin_started_at := ∅ |>.

Definition manual_resume : trader_m bool :=
  previous ← py_gets tr_last_reason;
  '(accepted, _) ← with_world world_reset_recovery;
  if negb accepted then mret false
  else
    now ← monotonic;
    config ← digit_config;
    let active := if bool_decide (dc_enabled_strategy_ids config = ∅) then {[ dc_active_strategy_id config ]}
                  else dc_enabled_strategy_ids config in
    _ ← py_modify (reset_performance active now);
    _ ← emit (OperatorManualResume previous now);
    _ ← begin_new_run;
    mret true.

(** [__init__] with an arbiter and a state of the world: the caches are loaded at the end. *)
Definition new_trader (arbiter : SignalArbiter) (w : W) : res unit * trader W :=
  let empty since := mk_trader w arbiter neg_inf ∅ [] ∅ None ∅ ∅ false ∅ ∅ ∅ ∅ ∅ ∅ 0 0 neg_inf false false false
    "BOT_WAITING_FOR_LIVE_DERIV" since None None false None neg_inf 0 0 0 in
  (_ ← py_guard (nonblank (tp_account_id params)) (ValueError "Deriv automated trader requires an account id");
   _ ← py_guard (negb ((tp_minimum_ticks params <? 2) || fltb (tp_minimum_interval params) (float_of_Z 0)
                       || fltb (tp_minimum_evaluation_interval params) (float_of_Z 0)))
         (ValueError "Deriv automated trader limits are invalid");
   since ← monotonic;
   _ ← py_modify (fun t => t <| tr_reason_since := since |>);
   reload_runtime_caches false) (empty (float_of_Z 0)).
End trader.
