(* ===== verification/TraderFrame.v ===== *)
(** * What the parts of an evaluation leave alone

    Relations between the states of the trader before and after its operations, over any
    relation that the calls on the world other than a submission respect.  The parts of an
    evaluation before the arbitration keep the caches of signals and orders ([untouched]); an
    evaluation that selects a signal only adds to the signals that count as evaluated, and
    drops the oldest of more than 512 ([remembers]).

    The recording world writes down what the trader asks and submits, over any other world;
    a run in it is the run in the other one with its calls. *)

From S2P Require Import Prelude Datetime Dec PyFloat FloatOrder Json Domain StateDb Writer Health DigitConfig Risk Coordinator Reader IqValues Market Differs Arbiter AutoTrader.

(** ** Calls on the world *)

(** The calls that do not submit an order. *)
Inductive quiet_call {W} `{TraderWorld W} : forall {A}, py W A -> Prop :=
| quiet_monotonic : quiet_call world_monotonic
| quiet_utc : quiet_call world_utc
| quiet_utc_now : quiet_call world_utc_now
| quiet_uuid : quiet_call world_uuid
| quiet_armed : quiet_call world_armed
| quiet_telemetry : quiet_call world_telemetry
| quiet_emit e : quiet_call (world_emit e)
| quiet_arbitrated w l : quiet_call (world_arbitrated w l)
| quiet_wait s : quiet_call (world_wait s)
| quiet_dispatcher : quiet_call world_dispatcher_started
| quiet_gate_state : quiet_call world_gate_state
| quiet_config : quiet_call world_digit_config
| quiet_refresh : quiet_call world_refresh_gate
| quiet_metrics : quiet_call world_digit_metrics
| quiet_reset_ledger : quiet_call world_reset_ledger
| quiet_reset_recovery : quiet_call world_reset_recovery
| quiet_stake r : quiet_call (world_entry_stake r)
| quiet_quote c s n u b : quiet_call (world_quote c s n u b)
| quiet_select n : quiet_call (world_select_proposal n)
| quiet_orders : quiet_call world_nonterminal_orders
| quiet_session : quiet_call world_session_started_at
| quiet_settlements d : quiet_call (world_recent_settlements d)
| quiet_order id : quiet_call (world_order id)
| quiet_message id : quiet_call (world_outbox_message id).
#[export] Hint Constructors quiet_call : steps.

Class QuietWorld {W} `{TraderWorld W} (RW : relation W) : Prop := {
  quiet_preorder :: PreOrder RW;
  quiet_steps : forall A (m : py W A), quiet_call m -> steps RW m
}.

(** Of any world nothing more is known. *)
#[export] Instance any_world {W} `{TraderWorld W} : QuietWorld (fun _ _ : W => True).
Proof. split; [split; red; done|by intros]. Qed.

(** ** Frames *)

Section untouched.
Context {W : Type} `{TraderWorld W} (RW : relation W) `{!QuietWorld RW}.
Variable params : TraderParams.
Implicit Types t : trader W.

Record untouched (t t' : trader W) : Prop := {
  fr_world : RW (tr_world t) (tr_world t');
  fr_keys : tr_evaluated_signal_keys t' = tr_evaluated_signal_keys t;
  fr_order : tr_evaluated_signal_order t' = tr_evaluated_signal_order t;
  fr_epochs : tr_minimum_signal_epochs t' = tr_minimum_signal_epochs t;
  fr_inflight : tr_inflight_order_ids t' = tr_inflight_order_ids t
}.

#[export] Instance frame_preorder : PreOrder untouched.
Proof.
  split.
  - intros t. split; reflexivity.
  - intros t1 t2 t3 [] []. split; [by transitivity (tr_world t2)|congruence..].
Qed.

Lemma frame_modify f :
  (forall t, tr_world (f t) = tr_world t /\ tr_evaluated_signal_keys (f t) = tr_evaluated_signal_keys t /\
     tr_evaluated_signal_order (f t) = tr_evaluated_signal_order t /\ tr_minimum_signal_epochs (f t) = tr_minimum_signal_epochs t /\
     tr_inflight_order_ids (f t) = tr_inflight_order_ids t) ->
  steps untouched (py_modify f).
Proof. intros Hf t. simpl. destruct (Hf t) as (Ew & ? & ? & ? & ?). split; try done. rewrite Ew. reflexivity. Qed.

Lemma frame_world {A} (m : py W A) : quiet_call m -> steps untouched (with_world m).
Proof.
  intros Hm. apply steps_zoom. intros t. split; try done. simpl. by apply quiet_steps.
Qed.

#[local] Hint Resolve frame_world : steps.
#[local] Hint Extern 2 (steps untouched (py_modify _)) => (apply frame_modify; intros ?; by repeat split) : steps.
#[local] Hint Extern 1 (steps untouched monotonic) => (apply frame_world; constructor) : steps.
#[local] Hint Extern 1 (steps untouched digit_config) => (apply frame_world; constructor) : steps.
#[local] Hint Extern 1 (steps untouched (emit _)) => (apply frame_world; constructor) : steps.

Lemma frame_set_reason r s e b d : steps untouched (set_reason r s e b d).
Proof. unfold set_reason. steps_solve. Qed.
#[local] Hint Resolve frame_set_reason : steps.

Lemma frame_plain r : steps untouched (plain_reason r).
Proof. apply frame_set_reason. Qed.
#[local] Hint Resolve frame_plain : steps.

Lemma frame_refuse {A} r : steps untouched (refuse (A := A) r).
Proof. unfold refuse. steps_solve. Qed.
Lemma frame_skip r : steps untouched (skip r).
Proof. unfold skip. steps_solve. Qed.
#[local] Hint Resolve frame_refuse frame_skip : steps.

Lemma frame_entry_snapshot : steps untouched entry_snapshot.
Proof. unfold entry_snapshot. steps_solve. Qed.

Lemma frame_payout s : steps untouched (payout_routed_candidate params s).
Proof. unfold payout_routed_candidate. steps_solve. Qed.
#[local] Hint Resolve frame_payout : steps.

Lemma frame_executable x : steps untouched (executable_candidates params x).
Proof. unfold executable_candidates. destruct x. steps_solve. Qed.

Lemma frame_pinned config l : steps untouched (pinned_candidates config l).
Proof. unfold pinned_candidates. steps_solve. Qed.

Lemma frame_detail k d : steps untouched (set_detail k d).
Proof. unfold set_detail. steps_solve. Qed.
#[local] Hint Resolve frame_detail : steps.

Lemma frame_grant c n : steps untouched (grant_probes c n).
Proof. unfold grant_probes. steps_solve. Qed.
#[local] Hint Resolve frame_grant : steps.

Lemma frame_cooldown c r d p s : steps untouched (cooldown_or_probes c r d p s).
Proof. unfold cooldown_or_probes. steps_solve. Qed.
#[local] Hint Resolve frame_cooldown : steps.

Lemma frame_cooldown_gate c r l : steps untouched (cooldown_gate c r l).
Proof. unfold cooldown_gate. steps_solve. Qed.
#[local] Hint Resolve frame_cooldown_gate : steps.

Lemma frame_edge c f p l : steps untouched (edge_gate c f p l).
Proof. unfold edge_gate. steps_solve. Qed.
#[local] Hint Resolve frame_edge : steps.

Lemma frame_performance c f : steps untouched (performance_allows c f).
Proof. unfold performance_allows. steps_solve. Qed.
#[local] Hint Resolve frame_performance : steps.

Lemma frame_arbiter {A} (f : SignalArbiter -> A * SignalArbiter) : steps untouched (with_arbiter f).
Proof. intros t. unfold with_arbiter. destruct (f _). simpl. by split. Qed.
#[local] Hint Resolve frame_arbiter : steps.

Lemma frame_allocate c config step : steps untouched (allocate_stake params c config step).
Proof. unfold allocate_stake. steps_solve. Qed.

Lemma frame_wake n : steps untouched (wake_latency n).
Proof. unfold wake_latency. steps_solve. Qed.
End untouched.

#[export] Hint Resolve frame_set_reason frame_plain frame_refuse frame_skip frame_entry_snapshot frame_executable frame_pinned
  frame_performance frame_allocate : steps.
#[export] Hint Extern 1 (steps (untouched _) (wake_latency _)) => (eapply frame_wake; typeclasses eauto) : steps.
#[export] Hint Extern 1 (steps (untouched _) (with_world _)) => (eapply frame_world; [typeclasses eauto|constructor]) : steps.
#[export] Hint Extern 1 (steps (untouched _) (with_arbiter _)) => (eapply frame_arbiter; typeclasses eauto) : steps.
#[export] Hint Extern 1 (QuietWorld _) => typeclasses eauto : steps.
#[export] Hint Extern 2 (steps (untouched _) (py_modify _)) => (apply frame_modify; [typeclasses eauto|intros ?; by repeat split]) : steps.
#[export] Hint Extern 1 (steps (untouched _) monotonic) => (apply frame_world; [typeclasses eauto|constructor]) : steps.
#[export] Hint Extern 1 (steps (untouched _) digit_config) => (apply frame_world; [typeclasses eauto|constructor]) : steps.
#[export] Hint Extern 1 (steps (untouched _) (emit _)) => (apply frame_world; [typeclasses eauto|constructor]) : steps.

Lemma steps_mono {S A} (R R' : relation S) (m : py S A) : (forall s s', R s s' -> R' s s') -> steps R m -> steps R' m.
Proof. intros HR Hm s. apply HR, Hm. Qed.

(** ** The memory of signals *)

Lemma last_n_app {A} n (l f1 f2 : list A) : last_n n (last_n n (l ++ f1) ++ f2) = last_n n (l ++ f1 ++ f2).
Proof.
  unfold last_n. rewrite app_assoc. set (k := l ++ f1). rewrite !length_app, length_drop.
  destruct (decide (length k <= n)%nat) as [Hle|Hgt].
  - replace (length k - n)%nat with 0%nat by lia. rewrite drop_0. f_equal. lia.
  - rewrite <- drop_app_le by lia. rewrite drop_drop. f_equal. lia.
Qed.

Section signals.
Context {W : Type} `{TraderWorld W}.
Implicit Types t : trader W.

(** The set and the list hold the same signals, each once and at most 512. *)
Definition signals_ok t : Prop :=
  tr_evaluated_signal_keys t = list_to_set (tr_evaluated_signal_order t) /\ NoDup (tr_evaluated_signal_order t) /\
  (length (tr_evaluated_signal_order t) <= 512)%nat.

(** Signals are only added, and of more than 512 the oldest are dropped. *)
Definition signals t t' : Prop :=
  signals_ok t -> signals_ok t' /\
  exists fresh, tr_evaluated_signal_order t' = last_n 512 (tr_evaluated_signal_order t ++ fresh).

Lemma signals_same t t' :
  tr_evaluated_signal_keys t' = tr_evaluated_signal_keys t -> tr_evaluated_signal_order t' = tr_evaluated_signal_order t -> signals t t'.
Proof.
  intros Hk Ho (Hs & Hn & Hl). unfold signals_ok. rewrite Hk, Ho. split; [done|]. exists []. by rewrite app_nil_r, last_n_all.
Qed.

#[export] Instance signals_preorder : PreOrder signals.
Proof.
  split; [intros t; by apply signals_same|]. intros t1 t2 t3 H12 H23 H1.
  destruct (H12 H1) as [H2 [f1 E1]]. destruct (H23 H2) as [H3 [f2 E2]]. split; [done|].
  exists (f1 ++ f2). by rewrite E2, E1, last_n_app.
Qed.

Lemma remember_fields key t :
  key ∉ tr_evaluated_signal_keys t ->
  let l := tr_evaluated_signal_order t ++ [key] in
  let full := (512 <? length l)%nat in
  tr_evaluated_signal_order (remember_key key t) = (if full then drop 1 l else l) /\
  tr_evaluated_signal_keys (remember_key key t) =
    ({[ key ]} ∪ tr_evaluated_signal_keys t) ∖ (if full then list_to_set (take 1 l) else ∅).
Proof.
  intros Hk l full. unfold remember_key. rewrite bool_decide_false by done. cbn -[Nat.ltb]. fold l. fold full.
  destruct full; [|split; [done|set_solver]]. destruct l as [|x l'] eqn:El.
  - destruct (tr_evaluated_signal_order t); discriminate.
  - simpl. split; [done|]. set_solver.
Qed.

Lemma remember_order key t :
  signals_ok t ->
  signals_ok (remember_key key t) /\
  tr_evaluated_signal_order (remember_key key t) =
    last_n 512 (tr_evaluated_signal_order t ++ if bool_decide (key ∈ tr_evaluated_signal_order t) then [] else [key]).
Proof.
  intros Hok. pose proof Hok as (Hs & Hn & Hl). destruct (decide (key ∈ tr_evaluated_signal_order t)) as [Hin|Hnin].
  - rewrite bool_decide_true by done. unfold remember_key. rewrite bool_decide_true by set_solver.
    split; [done|]. by rewrite app_nil_r, last_n_all.
  - rewrite bool_decide_false by done. destruct (remember_fields key t ltac:(set_solver)) as [Eo Ek].
    unfold signals_ok. rewrite Eo, Ek, Hs. clear Eo Ek. set (l := tr_evaluated_signal_order t) in *.
    assert (HN : NoDup (l ++ [key])) by (apply NoDup_app; split; [done|split; [set_solver|apply NoDup_singleton]]).
    assert (HL : length (l ++ [key]) = S (length l)) by (rewrite length_app; simpl; lia).
    destruct (Nat.ltb_spec 512 (length (l ++ [key]))) as [Hlt|Hge].
    + split; [|unfold last_n; f_equal; lia]. split; [|split; [apply (sublist_NoDup _ (l ++ [key])); [done|apply sublist_drop]|rewrite length_drop; lia]].
      clearbody l. clear Hs. destruct l as [|x l]; [simpl in *; lia|]. simpl in *. apply NoDup_cons in HN as [Hx HN].
      rewrite ?drop_0, list_to_set_app_L. simpl. set_solver.
    + split; [|by rewrite last_n_all]. split; [rewrite list_to_set_app_L; simpl; set_solver|done].
Qed.

Lemma remember_signals key t : signals t (remember_key key t).
Proof. intros Hok. destruct (remember_order key t Hok) as [H1 H2]. split; [done|]. by eexists. Qed.

(** A signal that is remembered last is not forgotten by fewer than 512 others. *)
Lemma last_n_keeps {A} (pre later fresh : list A) x n :
  (length later + length fresh < n)%nat -> x ∈ last_n n ((pre ++ x :: later) ++ fresh).
Proof.
  intros Hl. unfold last_n. rewrite <- app_assoc.
  destruct (decide (length ((pre ++ (x :: later) ++ fresh)) - n <= length pre)%nat) as [Hle|Hgt].
  - rewrite drop_app_le by done. set_solver.
  - rewrite !length_app in Hgt. simpl in Hgt. rewrite ?length_app in Hgt. lia.
Qed.

Lemma remember_keeps key t : signals_ok t -> key ∈ tr_evaluated_signal_keys (remember_key key t).
Proof.
  intros Hok. destruct (remember_order key t Hok) as [(Hs & _ & _) Ho]. rewrite Hs, Ho. apply elem_of_list_to_set.
  destruct Hok as (_ & _ & Hl). case_bool_decide as Hk; [by rewrite app_nil_r, last_n_all|].
  pose proof (last_n_keeps (tr_evaluated_signal_order t) [] [] key 512) as Hx. rewrite app_nil_r in Hx. apply Hx. simpl. lia.
Qed.
End signals.

(** ** Selecting a signal *)

Section selecting.
Context {W : Type} `{TraderWorld W} (RW : relation W) `{!QuietWorld RW}.
Variable params : TraderParams.
Implicit Types t : trader W.

Record remembers (t t' : trader W) : Prop := {
  re_world : RW (tr_world t) (tr_world t');
  re_signals : signals t t';
  re_epochs : tr_minimum_signal_epochs t' = tr_minimum_signal_epochs t;
  re_inflight : tr_inflight_order_ids t' = tr_inflight_order_ids t
}.

#[export] Instance remembers_preorder : PreOrder remembers.
Proof.
  split.
  - intros t. split; reflexivity.
  - intros t1 t2 t3 [] []. split; [by transitivity (tr_world t2)|by transitivity t2|congruence..].
Qed.

Lemma frame_remembers t t' : untouched RW t t' -> remembers t t'.
Proof. intros []. split; [done|by apply signals_same|done..]. Qed.

Lemma framed {A} (m : py (trader W) A) : steps (untouched RW) m -> steps remembers m.
Proof. apply steps_mono, frame_remembers. Qed.

Lemma remember_remembers c : steps remembers (remember_signal c).
Proof.
  intros t. split; [|apply remember_signals|..]; simpl; unfold remember_key; repeat (case_match; simpl; try done).
Qed.
#[local] Hint Resolve remember_remembers : steps.

Lemma remembers_blocked {A} ds : steps remembers (report_blocked (A := A) ds).
Proof.
  unfold report_blocked. apply steps_bind; [typeclasses eauto| |intros _ _ _ _].
  - apply steps_for; [typeclasses eauto|]. intros d _. steps_solve.
  - apply framed. unfold set_performance_reason. steps_solve.
Qed.

Lemma remembers_eligible config l : steps remembers (eligible_candidates config l).
Proof.
  unfold eligible_candidates. apply steps_bind; [typeclasses eauto|auto with steps|intros ? ? ? ?].
  case_match; [apply framed; auto with steps|].
  apply steps_bind; [typeclasses eauto| |intros ? ? ? ?].
  - apply steps_map; [typeclasses eauto|]. intros c. apply framed. steps_solve.
  - case_match; [apply remembers_blocked|auto with steps].
Qed.

Ltac loop_solve :=
  lazymatch goal with
  | |- steps _ (py_map _ _) => apply steps_map; [typeclasses eauto|intros; steps_solve]
  | |- steps _ (py_for _ _) => apply steps_for; [typeclasses eauto|intros; steps_solve]
  | |- _ => steps_solve
  end.

(** The part of the arbitration before the signals are consumed. *)
Lemma frame_before_consumed eligible t c t' :
  arbitrate_candidates params eligible t = (Ok c, t') ->
  exists t1, untouched RW t t1 /\ c ∈ eligible /\ py_for remember_signal eligible t1 = (Ok tt, t').
Proof.
  intros Hrun. unfold arbitrate_candidates in Hrun. py_inv Hrun.
  match goal with E : py_for remember_signal _ _ = (Ok ?u, _) |- _ => destruct u end.
  match goal with E : (match ?f with _ => _ end) _ = _ |- _ => destruct f eqn:Ef; [py_inv E|discriminate E] end.
  apply find_some in Ef as [Ef _]. eexists. split; [|split; [by apply list_elem_of_In|eassumption]].
  repeat match goal with
  | E : py_for remember_signal _ _ = _ |- _ => clear E
  | E : _ ?x = (_, ?y) |- _ => apply (steps_run (untouched RW)) in E;
[|by loop_solve]
  end.
  repeat (etransitivity; [eassumption|]). reflexivity.
Qed.

Lemma remembers_arbitrate eligible : steps remembers (arbitrate_candidates params eligible).
Proof.
  unfold arbitrate_candidates. do 5 (apply steps_bind; [typeclasses eauto|apply framed; loop_solve|intros ? ? ? ?]).
  steps_solve. loop_solve.
Qed.

Lemma remembers_select : steps remembers (select_signal params).
Proof.
  unfold select_signal, and_then. apply steps_bind; [typeclasses eauto|apply framed; auto with steps|intros ? ? ? ?].
  case_match; [|auto with steps]. apply steps_bind; [typeclasses eauto|apply framed; auto with steps|intros ? ? ? ?].
  case_match; [|auto with steps]. apply steps_bind; [typeclasses eauto|apply framed; auto with steps|intros ? ? ? ?].
  case_match; [|auto with steps]. case_match. apply steps_bind; [typeclasses eauto|apply remembers_eligible|intros ? ? ? ?].
  case_match; [|auto with steps]. apply steps_bind; [typeclasses eauto|apply remembers_arbitrate|auto with steps].
Qed.
End selecting.

(** Consumed signals are new in the memory, unless they were in it. *)
Lemma consumed_signals {W} `{TraderWorld W} l (t t' : trader W) :
  signals_ok t -> py_for remember_signal l t = (Ok tt, t') ->
  exists fresh, tr_evaluated_signal_order t' = last_n 512 (tr_evaluated_signal_order t ++ fresh) /\
    forall c, c ∈ l -> key_of_candidate c ∉ tr_evaluated_signal_order t -> key_of_candidate c ∈ fresh.
Proof.
  revert t. induction l as [|x l IH]; intros t Hok Hrun; simpl in Hrun.
  - py_inv Hrun. exists []. rewrite app_nil_r, last_n_all by apply Hok. split; [done|]. intros c Hc. by apply elem_of_nil in Hc.
  - py_inv Hrun. unfold remember_signal in Hrun0. py_inv Hrun0.
    destruct (remember_order (key_of_candidate x) t Hok) as [Hok1 Eo]. destruct (IH _ Hok1 Hrun) as (fresh & E & Hf).
    eexists. rewrite E, Eo, last_n_app. split; [reflexivity|]. intros c Hc Hnew.
    destruct (decide (key_of_candidate c = key_of_candidate x)) as [Ex|Hne].
    + rewrite Ex in Hnew |- *. rewrite bool_decide_false by done. set_solver.
    + apply elem_of_cons in Hc as [->|Hc]; [done|]. apply elem_of_app. right. apply Hf; [done|]. rewrite Eo.
      intros Hin. unfold last_n in Hin.
      assert (key_of_candidate c ∈ tr_evaluated_signal_order t ++ (if bool_decide (key_of_candidate x ∈ tr_evaluated_signal_order t) then [] else [key_of_candidate x])).
      { eapply elem_of_sublist; [exact Hin|apply sublist_drop]. }
      case_bool_decide; set_solver.
Qed.

(** ** The recording world *)

Inductive world_call : Type :=
| CalledArmed (armed : bool)
| CalledDispatcher (started : bool)
| CalledGate (state : HealthState)
| CalledTelemetry (snapshot : option DerivTelemetrySnapshot)
| CalledConfig (config : DigitRiskConfig)
| CalledStake (ratio : option pydec) (stake : Money)
| CalledSubmit (request : OrderRequest) (outcome : res PersistedOrder)
| CalledOrders (rows : list (Order * TradeIntent))
| CalledOrder (order_id : string) (row : option Order).

Definition recorded {W A} (m : py W A) (f : res A -> list world_call) : py (W * list world_call) A := fun s =>
  let '(r, w) := m (fst s) in (r, (w, snd s ++ f r)).

Definition unrecorded {W A} (m : py W A) : py (W * list world_call) A := recorded m (fun _ => []).

Definition on_ok {A} (f : A -> world_call) (r : res A) : list world_call :=
  match r with Ok a => [f a] | Err _ => [] end.

#[export] Instance recording {W} `{TraderWorld W} : TraderWorld (W * list world_call) := {|
  world_monotonic := unrecorded world_monotonic;
  world_utc := unrecorded world_utc;
  world_utc_now := unrecorded world_utc_now;
  world_uuid := unrecorded world_uuid;
  world_armed := recorded world_armed (on_ok CalledArmed);
  world_telemetry := recorded world_telemetry (on_ok CalledTelemetry);
  world_emit := fun e => unrecorded (world_emit e);
  world_arbitrated := fun w l => unrecorded (world_arbitrated w l);
  world_wait := fun s => unrecorded (world_wait s);
  world_exn_text := world_exn_text (W := W);
  world_dispatcher_started := recorded world_dispatcher_started (on_ok CalledDispatcher);
  world_gate_state := recorded world_gate_state (on_ok CalledGate);
  world_digit_config := recorded world_digit_config (on_ok CalledConfig);
  world_refresh_gate := unrecorded world_refresh_gate;
  world_digit_metrics := unrecorded world_digit_metrics;
  world_reset_ledger := unrecorded world_reset_ledger;
  world_reset_recovery := unrecorded world_reset_recovery;
  world_entry_stake := fun r => recorded (world_entry_stake r) (on_ok (CalledStake r));
  world_submit := fun q => recorded (world_submit q) (fun r => [CalledSubmit q r]);
  world_quote := fun c s n u b => unrecorded (world_quote c s n u b);
  world_select_proposal := fun n => unrecorded (world_select_proposal n);
  world_nonterminal_orders := recorded world_nonterminal_orders (on_ok CalledOrders);
  world_session_started_at := unrecorded world_session_started_at;
  world_recent_settlements := fun d => unrecorded (world_recent_settlements d);
  world_order := fun id => recorded (world_order id) (on_ok (CalledOrder id));
  world_outbox_message := fun id => unrecorded (world_outbox_message id)
|}.

Definition is_submission (c : world_call) : bool := match c with CalledSubmit _ _ => true | _ => false end.

Definition no_submission (l : list world_call) : Prop := Forall (fun c => is_submission c = false) l.

(** The calls that were added, none of which submits an order. *)
Definition quiet_log {W} (x y : W * list world_call) : Prop := exists calls, snd y = snd x ++ calls /\ no_submission calls.

#[export] Instance quiet_log_preorder {W} : PreOrder (quiet_log (W := W)).
Proof.
  split.
  - intros x. exists []. rewrite app_nil_r. split; [done|constructor].
  - intros x y z (l1 & E1 & H1) (l2 & E2 & H2). exists (l1 ++ l2). rewrite E2, E1, app_assoc. split; [done|by apply Forall_app].
Qed.

Lemma recorded_quiet {W A} (m : py W A) (f : res A -> list world_call) :
  (forall r, no_submission (f r)) -> steps quiet_log (recorded m f).
Proof. intros Hf [w l]. unfold recorded. simpl. destruct (m w) as [r w']. exists (f r). split; [done|apply Hf]. Qed.

Lemma on_ok_quiet {A} (f : A -> world_call) r : (forall a, is_submission (f a) = false) -> no_submission (on_ok f r).
Proof. intros Hf. destruct r; constructor; [apply Hf|constructor]. Qed.

#[export] Instance recording_quiet {W} `{TraderWorld W} : QuietWorld (quiet_log (W := W)).
Proof.
  split; [typeclasses eauto|]. intros A m Hm. destruct Hm; apply recorded_quiet; intros ?; try constructor; by apply on_ok_quiet.
Qed.

Section recording.
Context {W : Type} `{TraderWorld W}.
Variable params : TraderParams.
Abbreviation recorder := (trader (W * list world_call)).
Implicit Types t : recorder.

Definition log t : list world_call := snd (tr_world t).

Lemma with_recorded {A} (m : py W A) f t a t' :
  with_world (recorded m f) t = (Ok a, t') -> exists w, t' = t <| tr_world := (w, log t ++ f (Ok a)) |>.
Proof.
  unfold with_world, recorded, py_zoom, log. destruct (m (fst (tr_world t))) as [r w]. simpl. intros [= -> <-]. by exists w.
Qed.

End recording.

Lemma refuse_nothing {W} `{TraderWorld W} {A} (a : A) r (t t' : trader W) : refuse r t = (Ok (Some a), t') -> False.
Proof. intros Hr. unfold refuse in Hr. py_inv Hr. discriminate. Qed.

(** [trader_cases H] follows a run of the trader that gave something. *)
Ltac trader_cases Hrun :=
  repeat (progress py_inv Hrun
    || match type of Hrun with
       | refuse _ _ = (Ok (Some _), _) => destruct (refuse_nothing _ _ _ _ Hrun)
       | (Ok ?x, _) = (Ok ?y, _) => injection Hrun as ? ?; subst
       | (if ?b then _ else _) _ = _ => destruct b eqn:?
       | (match ?x with _ => _ end) _ = _ => destruct x eqn:?
       end).

(** A call of [py_map] and what it gave. *)
Lemma py_map_elem {S A B} (R : relation S) `{!PreOrder R} (f : A -> py S B) l s ys s' y :
  (forall a, steps R (f a)) -> py_map f l s = (Ok ys, s') -> y ∈ ys ->
  exists a s1 s2, a ∈ l /\ R s s1 /\ f a s1 = (Ok y, s2) /\ R s2 s'.
Proof.
  intros HR. revert s ys. induction l as [|x l IH]; intros s ys Hrun Hy; simpl in Hrun; py_inv Hrun; [by apply elem_of_nil in Hy|].
  apply elem_of_cons in Hy as [->|Hy].
  - exists x. do 2 eexists. split; [left|]. split; [reflexivity|]. split; [eassumption|].
    eapply steps_run; [|eassumption]. by apply steps_map.
  - edestruct IH as (a & s1 & s2 & Ha & H1 & H2 & H3); [eassumption..|]. exists a, s1, s2.
    split; [by right|]. split; [|done]. etransitivity; [eapply steps_run; [|eassumption]; apply HR|exact H1].
Qed.

(** ** What the parts have found out *)

Section parts.
Context {W : Type} `{TraderWorld W}.
Variable params : TraderParams.
Abbreviation recorder := (trader (W * list world_call)).
Implicit Types t : recorder.

(** The guards of an entry, as the calls show them. *)
Record guarded (t : recorder) (config : DigitRiskConfig) (calls : list world_call) : Prop := {
  gu_armed : CalledArmed true ∈ calls;
  gu_dispatcher : CalledDispatcher true ∈ calls;
  gu_gate : exists g, CalledGate g ∈ calls /\ is_open g = true;
  gu_live : exists s, CalledTelemetry (Some s) ∈ calls /\ ts_source s = DEMO_LIVE /\ ts_connected s = true;
  gu_config : CalledConfig config ∈ calls;
  gu_inflight : tr_inflight_order_ids t = Some ∅
}.

Lemma guarded_more t config calls more : guarded t config calls -> guarded t config (calls ++ more).
Proof.
  intros [Ha Hd (g & Hg & ?) (s & Hs & ?) Hc Hi].
  split; [by apply elem_of_app; left..| | |by apply elem_of_app; left|done].
  - exists g. split; [by apply elem_of_app; left|done].
  - exists s. split; [by apply elem_of_app; left|done].
Qed.

Lemma entry_snapshot_inv t s config t' :
  entry_snapshot t = (Ok (Some (s, config)), t') ->
  exists calls, log t' = log t ++ calls /\ no_submission calls /\ guarded t config calls.
Proof.
  intros Hrun. unfold entry_snapshot, digit_config in Hrun. trader_cases Hrun.
  repeat match goal with Hw : with_world _ _ = (Ok _, _) |- _ => apply with_recorded in Hw as [? ->] end.
  match goal with E : Some _ = Some _ |- _ => injection E as -> -> end.
  repeat match goal with E : negb _ = false |- _ => apply negb_false_iff in E end.
  match goal with E : _ || _ = false |- _ => apply orb_false_elim in E as [?%negb_false_iff%bool_decide_eq_true ?%negb_false_iff] end.
  simplify_eq/=. match goal with E : bool_decide (_ = ∅) = true |- _ => apply bool_decide_eq_true in E end. subst.
  eexists. unfold log. simpl. rewrite <- !app_assoc. split; [reflexivity|]. simpl. split; [by repeat constructor|].
  split; try done; try (by repeat constructor).
  - eexists. split; [do 2 constructor; left|done].
  - eexists. split; [do 3 constructor; left|done].
Qed.

Lemma payout_strategy s t c r t' :
  payout_routed_candidate params s t = (Ok (Some c, r), t') -> ec_strategy_id c = PAYOUT_ROUTED_DIFFERS_STRATEGY_ID.
Proof. intros Hrun. unfold payout_routed_candidate in Hrun. trader_cases Hrun; by simplify_eq/=. Qed.

(** Every candidate is of a strategy that may be executed. *)
Lemma executable_inv s config t l t' c :
  executable_candidates params (s, config) t = (Ok (Some l), t') -> c ∈ l ->
  exists ids, execution_strategy_ids config = Some ids /\ ec_strategy_id c ∈ ids.
Proof.
  intros Hrun Hc. unfold executable_candidates in Hrun. destruct (execution_strategy_ids config) as [ids|] eqn:Eids; [|trader_cases Hrun].
  exists ids. split; [done|]. trader_cases Hrun. simplify_eq/=.
  match goal with E : select _ _ = _ :: _ |- _ => rewrite <- E in Hc end.
  apply elem_of_select in Hc as [Hc _]. apply elem_of_app in Hc as [Hc|Hc].
  - apply list_elem_of_fmap in Hc as (d & -> & [_ Hd]%elem_of_select). simpl. by apply bool_decide_eq_true in Hd.
  - destruct o as [d|]; [|by apply elem_of_nil in Hc]. apply list_elem_of_singleton in Hc as ->.
    destruct (tp_proposal_cache params && _) eqn:Ep in Hrun1; [|py_inv Hrun1; discriminate].
    apply payout_strategy in Hrun1 as ->. apply andb_prop in Ep as [_ [Hin|Hst]%orb_prop]; [by apply bool_decide_eq_true in Hin|].
    apply bool_decide_eq_true in Hst. unfold execution_strategy_ids in Eids. rewrite Hst in Eids. injection Eids as <-.
    by vm_compute.
Qed.

Lemma pinned_inv config l t l' step t' c :
  pinned_candidates config l t = (Ok (Some (l', step)), t') -> c ∈ l' -> c ∈ l.
Proof.
  intros Hrun Hc. unfold pinned_candidates in Hrun. trader_cases Hrun; simplify_eq/=; [done|].
  match goal with E : select _ _ = _ :: _ |- _ => rewrite <- E in Hc end. by apply elem_of_select in Hc as [Hc _].
Qed.

(** A candidate that the performance gate lets through has the edge that the configuration asks for. *)
Definition has_edge (c : ExecutionCandidate) (edge_floor : dec) (config : DigitRiskConfig) : Prop :=
  dec_leb (applied_required c edge_floor (dec_of (dc_performance_ratchet_cap_pp config))) (ec_estimated_probability_pct c) = true.

Lemma edge_gate_answer c edge_floor cap_pp samples t allowed r t' :
  edge_gate c edge_floor cap_pp samples t = (Ok (allowed, r), t') ->
  allowed = dec_leb (applied_required c edge_floor cap_pp) (ec_estimated_probability_pct c).
Proof. intros Hrun. unfold edge_gate in Hrun. py_inv Hrun. by simplify_eq. Qed.

Lemma frame_log t t' : untouched quiet_log t t' -> exists calls, log t' = log t ++ calls /\ no_submission calls.
Proof. intros [Hw _ _ _ _]. exact Hw. Qed.

Lemma performance_allows_inv c edge_floor t r t' :
  performance_allows c edge_floor t = (Ok (true, r), t') ->
  ec_strategy_id c = PAYOUT_ROUTED_DIFFERS_STRATEGY_ID \/
  exists config calls, log t' = log t ++ calls /\ no_submission calls /\ CalledConfig config ∈ calls /\ has_edge c edge_floor config.
Proof.
  intros Hrun. unfold performance_allows in Hrun. destruct (String.eqb_spec (ec_strategy_id c) PAYOUT_ROUTED_DIFFERS_STRATEGY_ID) as [|_]; [by left|].
  right. trader_cases Hrun; [discriminate|discriminate|].
  match goal with E : digit_config _ = (Ok ?x, _) |- _ => apply with_recorded in E as [? ->]; exists x end.
  match goal with E : with_world world_utc _ = _ |- _ => apply with_recorded in E as [? ->] end.
  match goal with E : cooldown_gate _ _ _ _ = _ |- _ => apply (steps_run (untouched quiet_log)) in E as (l1 & E1 & N1)%frame_log; [|apply frame_cooldown_gate; typeclasses eauto] end.
  pose proof Hrun as He%edge_gate_answer.
  apply (steps_run (untouched quiet_log)) in Hrun as (l2 & E2 & N2)%frame_log; [|apply frame_edge; typeclasses eauto].
  rewrite E2, E1. unfold log. simpl. rewrite <- !app_assoc. eexists. split; [reflexivity|].
  simpl.
  split; [constructor; [done|by apply Forall_app]|]. split; [left|done].
Qed.

(** Every eligible candidate was a fresh one of the list, and has passed the gate. *)
Lemma eligible_inv config l t l' t' c :
  eligible_candidates config l t = (Ok (Some l'), t') -> c ∈ l' ->
  c ∈ l /\ is_fresh t c = true /\
  (ec_strategy_id c = PAYOUT_ROUTED_DIFFERS_STRATEGY_ID \/
   exists config' calls, log t' = log t ++ calls /\ no_submission calls /\ CalledConfig config' ∈ calls /\
     has_edge c (configured_edge_floor (dec_of (dc_min_quantum_confidence_pct config))) config').
Proof.
  intros Hrun Hc. unfold eligible_candidates in Hrun. trader_cases Hrun.
  all: try (unfold report_blocked in Hrun; trader_cases Hrun). simplify_eq.
  apply list_elem_of_fmap in Hc as (d & -> & Hd).
  match goal with E : select _ _ = p :: _ |- _ => rewrite <- E in Hd end. apply elem_of_select in Hd as [Hd Ha].
  match goal with E : py_map _ _ _ = _ |- _ => eapply (py_map_elem (untouched quiet_log)) in E as (a & t1 & t2 & Hin & H1 & H2 & H3); [| |exact Hd] end.
  2: { intros a. apply steps_bind; [typeclasses eauto|apply frame_performance; typeclasses eauto|intros; apply steps_ret; typeclasses eauto]. }
  py_inv H2. simplify_eq.
  match goal with E : performance_allows _ _ _ = (Ok ?y, _) |- _ => destruct y as [allowed r]; rename E into Hp end. simpl in *. subst allowed.
  match goal with E : select (is_fresh _) _ = _ |- _ => rewrite <- E in Hin end. apply elem_of_select in Hin as [Hin Hf].
  split; [done|]. split; [done|]. apply performance_allows_inv in Hp as [|(config' & calls & E & Hn & Hcfg & He)]; [by left|right].
  apply frame_log in H1 as (l1' & E1 & N1). apply frame_log in H3 as (l3 & E3 & N3).
  exists config', (l1' ++ calls ++ l3). rewrite E3, E, E1, <- !app_assoc.
  split; [done|]. split; [repeat (apply Forall_app; split); done|]. split; [|done]. set_solver.
Qed.
End parts.
