(* ===== verification/TraderProps.v ===== *)
(** * The automatic trader enters signals once and one order at a time

    Theorems about [AutoTrader]: what holds when an order is submitted, that no order is
    submitted while another one is in flight, and that a signal is entered at most once.
    They hold over any world, so that nothing is assumed of the runtime, the telemetry and
    the clocks; the calls on them are those that the recording world writes down.

    The world [desk_world] is the modelled core with arbitrary surroundings.  A concrete desk,
    [TraderSample], gives the witnesses and the examples of observed behaviour. *)

From S2P Require Import Prelude Datetime Dec PyFloat FloatOrder Json Domain StateDb Writer WriterInv WriterOps WriterProps EventProps Reader Health Martingale DigitConfig Risk RiskProps Coordinator CoordProps DispatchProps Reconciliation AttemptProps BrokerEvents Runtime CoreHistory IqValues Market Differs Arbiter AutoTrader TraderFrame.

(** ** Evaluations in two parts *)

Section evaluation.
Context {W : Type} `{TraderWorld W}.
Variable params : TraderParams.
Implicit Types t : trader W.

(** The part of an evaluation that chooses a signal. *)
Definition choose : py (trader W) (float * option (ExecutionCandidate * DigitRiskConfig * Z)) :=
  n ← monotonic;
  _ ← wake_latency n;
  x ← select_signal params;
  mret (n, x).

(** The signal that an evaluation enters in a state, if it enters one. *)
Definition chosen t : option ExecutionCandidate :=
  match fst (choose t) with
  | Ok (_, Some (c, _, _)) => Some c
  | _ => None
  end.

Lemma evaluate_split t :
  evaluate_once params t =
  match choose t with
  | (Ok (n, Some x), t') => enter_signal params n x t'
  | (Ok (_, None), t') => (Ok false, t')
  | (Err e, t') => (Err e, t')
  end.
Proof.
  unfold evaluate_once, choose. rewrite !py_bind_run. destruct (monotonic t) as [[n|e] t1]; [|done].
  rewrite !py_bind_run. destruct (wake_latency n t1) as [[[]|e] t2]; [|done].
  rewrite !py_bind_run. by destruct (select_signal params t2) as [[[x|]|e] t3].
Qed.

Lemma remembers_choose (RW : relation W) `{!QuietWorld RW} : steps (remembers RW) choose.
Proof.
  unfold choose. apply steps_bind; [typeclasses eauto|apply framed; auto with steps|intros ? ? ? ?].
  apply steps_bind; [typeclasses eauto|apply framed; auto with steps|intros ? ? ? ?].
  apply steps_bind; [typeclasses eauto|by apply remembers_select|auto with steps].
Qed.
End evaluation.

(** ** The calls of the other operations *)

Section talks.
Context {W : Type} `{TraderWorld W} (RW : relation W) `{!QuietWorld RW}.
Variable params : TraderParams.
Implicit Types t : trader W.

Definition talks (t t' : trader W) : Prop := RW (tr_world t) (tr_world t').

#[export] Instance talks_preorder : PreOrder talks.
Proof. split; [intros t; unfold talks; reflexivity|intros t1 t2 t3; unfold talks; intros; by transitivity (tr_world t2)]. Qed.

Lemma frame_talks {A} (m : py (trader W) A) : steps (untouched RW) m -> steps talks m.
Proof. apply steps_mono. by intros s s' []. Qed.

Lemma talks_modify f : (forall t, tr_world (f t) = tr_world t) -> steps talks (py_modify f).
Proof. intros Hf t. unfold talks. simpl. rewrite Hf. reflexivity. Qed.

#[local] Hint Extern 1 (steps talks (with_world _)) => (apply frame_talks; auto with steps) : steps.
#[local] Hint Extern 1 (steps talks monotonic) => (apply frame_talks; auto with steps) : steps.
#[local] Hint Extern 1 (steps talks digit_config) => (apply frame_talks; auto with steps) : steps.
#[local] Hint Extern 1 (steps talks (emit _)) => (apply frame_talks; auto with steps) : steps.
#[local] Hint Extern 1 (steps talks (set_reason _ _ _ _ _)) => (apply frame_talks; auto with steps) : steps.
#[local] Hint Extern 1 (steps talks (plain_reason _)) => (apply frame_talks; auto with steps) : steps.
#[local] Hint Extern 1 (steps talks (skip _)) => (apply frame_talks; auto with steps) : steps.
#[local] Hint Extern 3 (steps talks (py_modify _)) => (apply talks_modify; intros ?; reflexivity) : steps.

Lemma talks_load rows d : steps talks (load_performance rows d).
Proof. revert d. induction rows as [|row rows IH]; intros d; simpl; steps_solve. Qed.
#[local] Hint Resolve talks_load : steps.

Lemma talks_reload report : steps talks (reload_runtime_caches report).
Proof.
  unfold reload_runtime_caches, read_caches. apply steps_bind; [typeclasses eauto| |intros ? ? ? ?; steps_solve].
  apply steps_try; [typeclasses eauto|steps_solve|]. intros e k [= <-]. auto with steps.
Qed.

Lemma talks_order_is_terminal id : steps talks (order_is_terminal id).
Proof.
  unfold order_is_terminal. apply steps_bind; [typeclasses eauto| |auto with steps].
  apply steps_try; [typeclasses eauto|auto with steps|]. intros e k [= <-]. auto with steps.
Qed.

Lemma talks_rejection id : steps talks (dispatch_rejection_reason id).
Proof.
  unfold dispatch_rejection_reason. case_match; [auto with steps|]. apply steps_bind; [typeclasses eauto| |auto with steps].
  apply steps_try; [typeclasses eauto|auto with steps|]. intros e k [= <-]. auto with steps.
Qed.
#[local] Hint Resolve talks_reload talks_order_is_terminal talks_rejection : steps.

Lemma talks_add_inflight id scope : steps talks (py_modify (add_inflight id scope)).
Proof. apply talks_modify. intros t. unfold add_inflight. by case_match. Qed.
#[local] Hint Resolve talks_add_inflight : steps.

Lemma talks_track c ids : steps talks (track_submission c ids).
Proof. unfold track_submission. steps_solve. Qed.
#[local] Hint Resolve talks_track : steps.

Lemma talks_consume c : steps talks (consume_performance_probe c).
Proof. apply talks_modify. intros t. simpl. by destruct (tr_performance_probe_remaining t !! scope_of c). Qed.
#[local] Hint Resolve talks_consume : steps.

Lemma talks_after c stake now before ids : steps talks (after_submission c stake now before ids).
Proof. unfold after_submission. steps_solve. Qed.
End talks.

(** ** Entries are guarded *)

Section guarded.
Context {W : Type} `{TraderWorld W}.
Variable params : TraderParams.
Abbreviation recorder := (trader (W * list world_call)).
Implicit Types t : recorder.

(** The performance gate let the candidate through, under a configuration that was read. *)
Definition passed_gate (c : ExecutionCandidate) (config : DigitRiskConfig) (calls : list world_call) : Prop :=
  ec_strategy_id c = PAYOUT_ROUTED_DIFFERS_STRATEGY_ID \/
  exists config', CalledConfig config' ∈ calls /\
    has_edge c (configured_edge_floor (dec_of (dc_min_quantum_confidence_pct config))) config'.

(** What is known of a chosen signal from the calls that were made. *)
Record justified t (config : DigitRiskConfig) (c : ExecutionCandidate) (calls : list world_call) : Prop := {
  ju_guarded : guarded t config calls;
  ju_strategy : exists ids, execution_strategy_ids config = Some ids /\ ec_strategy_id c ∈ ids;
  ju_fresh : is_fresh t c = true;
  ju_gate : passed_gate c config calls
}.

Lemma justified_more t config c calls more : justified t config c calls -> justified t config c (calls ++ more).
Proof.
  intros [G Hs Hf Hg]. split; [by apply guarded_more|done..|]. destruct Hg as [|(config' & ? & ?)]; [by left|right].
  exists config'. set_solver.
Qed.

Lemma frame_is_fresh (RW : relation (W * list world_call)) t t' c : untouched RW t t' -> is_fresh t' c = is_fresh t c.
Proof. intros [_ Hk _ He _]. unfold is_fresh. by rewrite Hk, He. Qed.

Lemma select_signal_inv t c config step t' :
  select_signal params t = (Ok (Some (c, config, step)), t') ->
  exists calls, log t' = log t ++ calls /\ no_submission calls /\ justified t config c calls.
Proof.
  intros Hrun. unfold select_signal, and_then in Hrun. trader_cases Hrun; try discriminate. simplify_eq/=.
  destruct p as [s config]. simpl in *.
  pose proof Hrun0 as (c0 & E0 & N0 & G)%entry_snapshot_inv.
  apply (steps_run (untouched (W := W * list world_call) quiet_log)) in Hrun0; [|auto with steps].
  pose proof Hrun1 as F1. apply (steps_run (untouched (W := W * list world_call) quiet_log)) in F1; [|apply (frame_executable _ _ (s, config)); typeclasses eauto].
  pose proof Hrun2 as F2. apply (steps_run (untouched (W := W * list world_call) quiet_log)) in F2; [|auto with steps].
  pose proof Hrun3 as F3. apply (steps_run (remembers quiet_log)) in F3; [|by apply remembers_eligible; typeclasses eauto].
  pose proof (frame_before_consumed quiet_log _ _ _ _ _ Hrun4) as (t5 & _ & Hin & _).
  apply (steps_run (remembers quiet_log)) in Hrun4; [|by apply remembers_arbitrate; typeclasses eauto].
  pose proof (eligible_inv _ _ _ _ _ _ Hrun3 Hin) as (Hin' & Hf & Hgate).
  pose proof (pinned_inv _ _ _ _ _ _ _ Hrun2 Hin') as Hin''.
  pose proof (executable_inv _ _ _ _ _ _ _ Hrun1 Hin'') as Hids.
  pose proof (frame_is_fresh _ _ _ x7 (transitivity (transitivity Hrun0 F1) F2)) as Hfr.
  apply frame_log in F1 as (c1 & E1 & N1). apply frame_log in F2 as (c2 & E2 & N2).
  destruct F3 as [(c3 & E3 & N3) _ _ _]. destruct Hrun4 as [(c4 & E4 & N4) _ _ _].
  exists (c0 ++ c1 ++ c2 ++ c3 ++ c4). unfold log in *. rewrite E4, E3, E2, E1, E0, <- !app_assoc. split; [done|].
  split; [repeat (apply Forall_app; split); done|]. split; [by apply guarded_more|done|by rewrite <- Hfr|].
  destruct Hgate as [|(config' & calls & E & _ & Hc & He)]; [by left|right]. exists config'. split; [|done].
  rewrite E3 in E. apply app_inv_head in E. subst. set_solver.
Qed.

Lemma choose_inv t n c config step t' :
  choose params t = (Ok (n, Some (c, config, step)), t') ->
  exists calls, log t' = log t ++ calls /\ no_submission calls /\ justified t config c calls.
Proof.
  intros Hrun. unfold choose in Hrun. py_inv Hrun. simplify_eq.
  match goal with E : monotonic _ = _ |- _ => apply (steps_run (untouched (W := W * list world_call) quiet_log)) in E as F1; [|auto with steps] end.
  match goal with E : wake_latency _ _ = _ |- _ => apply (steps_run (untouched (W := W * list world_call) quiet_log)) in E as F2; [|auto with steps] end.
  match goal with E : select_signal _ _ = _ |- _ => apply select_signal_inv in E as (calls & Ec & N & J) end.
  assert (F : untouched quiet_log t x2) by (by transitivity x0). pose proof F as (c1 & E1 & N1)%frame_log.
  exists (c1 ++ calls). rewrite Ec, E1, app_assoc. split; [done|]. split; [by apply Forall_app|].
  destruct J as [G Hs Hf Hg]. split; [|done|by rewrite <- (frame_is_fresh _ _ _ _ F)|].
  - destruct G as [? ? (g & ? & ?) (s & ? & ?) ? Hi]. split; [set_solver..| | |set_solver|by rewrite <- (fr_inflight _ _ _ F)].
    + exists g. set_solver.
    + exists s. set_solver.
  - destruct Hg as [|(config' & ? & ?)]; [by left|right]. exists config'. set_solver.
Qed.

(** The calls of a run from a state. *)
Definition calls_of {A} (P : list world_call -> Prop) (m : py recorder A) t : Prop :=
  exists calls, log (snd (m t)) = log t ++ calls /\ P calls.

(** Properties of calls that quiet ones do not matter for. *)
Class QuietPrefix (P : list world_call -> Prop) : Prop := {
  quiet_holds : forall l, no_submission l -> P l;
  quiet_before : forall l1 l2, no_submission l1 -> P l2 -> P (l1 ++ l2)
}.

Lemma calls_quiet {A} P `{!QuietPrefix P} (m : py recorder A) t : steps (talks quiet_log) m -> calls_of P m t.
Proof. intros Hm. destruct (Hm t) as (calls & E & N). exists calls. split; [done|]. by apply quiet_holds. Qed.

Lemma calls_bind {A B} P `{!QuietPrefix P} (m : py recorder A) (k : A -> py recorder B) t :
  steps (talks quiet_log) m -> (forall a t1, m t = (Ok a, t1) -> calls_of P (k a) t1) -> calls_of P (m ≫= k) t.
Proof.
  intros Hm Hk. unfold calls_of. rewrite py_bind_run. destruct (Hm t) as (l1 & E1 & N1). destruct (m t) as [[a|e] t1].
  - destruct (Hk a t1 eq_refl) as (l2 & E2 & H2). exists (l1 ++ l2). unfold log in *. simpl in *. rewrite E2, E1, app_assoc.
    split; [done|]. by apply quiet_before.
  - exists l1. split; [done|]. by apply quiet_holds.
Qed.

(** At most one submission, of a request for the candidate at a stake in [stakes]. *)
Definition submits_once (c : ExecutionCandidate) (stakes : list world_call -> Money -> Prop) (calls : list world_call) : Prop :=
  no_submission calls \/
  exists before q outcome after,
    calls = before ++ CalledSubmit q outcome :: after /\ no_submission before /\ no_submission after /\
    stakes before (rq_amount q) /\ q = request_for params c (rq_amount q) (rq_correlation_id q) (rq_deadline_at q).

#[local] Instance submits_once_quiet c stakes :
  (forall l1 l2 m, stakes l2 m -> stakes (l1 ++ l2) m) -> QuietPrefix (submits_once c stakes).
Proof.
  intros Hst. split; [by left|]. intros l1 l2 N1 [N2|(before & q & outcome & after & -> & N2 & N3 & Hs & Hq)].
  - left. by apply Forall_app.
  - right. exists (l1 ++ before), q, outcome, after. rewrite app_assoc. split; [done|]. split; [by apply Forall_app|]. auto.
Qed.

Definition allocated (calls : list world_call) (m : Money) : Prop := exists ratio, CalledStake ratio m ∈ calls.

#[local] Instance submits_allocated c : QuietPrefix (submits_once c allocated).
Proof. apply submits_once_quiet. intros l1 l2 m [r Hr]. exists r. set_solver. Qed.

#[local] Instance submits_exactly c m : QuietPrefix (submits_once c (fun _ m' => m' = m)).
Proof. by apply submits_once_quiet. Qed.

Lemma allocate_inv c config step t stake t' :
  allocate_stake params c config step t = (Ok (Some stake), t') ->
  exists calls, log t' = log t ++ calls /\ no_submission calls /\ allocated calls stake.
Proof.
  intros Hrun. unfold allocate_stake in Hrun. py_inv Hrun.
  match goal with E : (if _ then _ else _) _ = _ |- _ => apply (steps_run (untouched (W := W * list world_call) quiet_log)) in E as (l1 & E1 & N1)%frame_log; [|steps_solve] end.
  trader_cases Hrun; simplify_eq.
  all: match goal with E : with_world (world_entry_stake _) _ = _ |- _ => apply with_recorded in E as [? ->] end.
  all: eexists; unfold log in *; simpl; rewrite E1, <- app_assoc; split; [reflexivity|];
    split; [apply Forall_app; split; [done|by repeat constructor]|eexists; apply elem_of_app; right; by left].
Qed.

Lemma build_request_inv c stake t q t' :
  build_request params c stake t = (Ok q, t') ->
  rq_amount q = stake /\ q = request_for params c (rq_amount q) (rq_correlation_id q) (rq_deadline_at q).
Proof.
  intros Hrun. unfold build_request in Hrun. py_inv Hrun.
  match goal with E : OrderRequest_post_init _ = _ |- _ => apply post_init_request in E as -> end. done.
Qed.

Lemma talks_frame {A} (m : py recorder A) : steps (untouched quiet_log) m -> steps (talks quiet_log) m.
Proof. apply frame_talks. Qed.

Lemma try_allocate c config step t stake t' :
  py_try (allocate_stake params c config step) (fun e => Some (refuse (rejected_with "BOT_STAKE_REJECTED_" e))) t = (Ok (Some stake), t') ->
  allocate_stake params c config step t = (Ok (Some stake), t').
Proof.
  unfold py_try. destruct (allocate_stake params c config step t) as [[r|e] t1]; [done|].
  intros Hr. by apply refuse_nothing in Hr.
Qed.

(** The submission itself, and what comes after it. *)
Lemma submit_calls {B} q reason (k : option PersistedOrder -> py recorder B) t :
  (forall x, steps (talks quiet_log) (k x)) ->
  exists outcome after, no_submission after /\
  log (snd ((py_try (ids ← with_world (world_submit q); mret (Some ids)) (fun e => Some (refuse (reason e))) ≫= k) t))
    = log t ++ CalledSubmit q outcome :: after.
Proof.
  intros Hk. rewrite py_bind_run. unfold py_try. rewrite py_bind_run. unfold with_world, py_zoom, world_submit, recording, recorded, log.
  destruct (world_submit q (fst (tr_world t))) as [[ids|e] w]; simpl.
  - set (t1 := mk_trader _ _ _ _ _ _ _ _ _ _ _ _ _ _ _ _ _ _ _ _ _ _ _ _ _ _ _ _ _ _ _ _).
    destruct (Hk (Some ids) t1) as (after & E & N). exists (Ok ids), after. split; [done|]. rewrite E. simpl. by rewrite <- app_assoc.
  - set (t1 := mk_trader _ _ _ _ _ _ _ _ _ _ _ _ _ _ _ _ _ _ _ _ _ _ _ _ _ _ _ _ _ _ _ _).
    assert (Hr : steps (talks (W := W * list world_call) quiet_log) (r ← refuse (reason e); k r)).
    { apply steps_bind; [typeclasses eauto|apply frame_talks; auto with steps|auto]. }
    destruct (Hr t1) as (after & E & N). exists (Err e), after. split; [done|]. rewrite py_bind_run in E.
    destruct (refuse (reason e) t1) as [[r|e'] t2]; simpl in *; rewrite E; simpl; by rewrite <- app_assoc.
Qed.

Lemma enter_signal_calls n c config step t : calls_of (submits_once c allocated) (enter_signal params n (c, config, step)) t.
Proof.
  unfold enter_signal. apply calls_bind; [typeclasses eauto|apply frame_talks; auto with steps|intros now t1 _].
  apply calls_bind; [typeclasses eauto|auto with steps|intros last t2 _].
  case_match; [apply calls_quiet; [typeclasses eauto|apply frame_talks; auto with steps]|].
  set (k := fun stake : option Money => _). unfold calls_of. rewrite py_bind_run.
  match goal with |- context [py_try ?m ?h t2] =>
    assert (Hs : steps (talks (W := W * list world_call) quiet_log) (py_try m h))
      by (apply steps_try; [typeclasses eauto|apply frame_talks; auto with steps|intros e k' [= <-]; apply frame_talks; auto with steps]);
    destruct (py_try m h t2) as [[[stake|]|e] t3] eqn:Etry end.
  2: { destruct (Hs t2) as (l & E & N). rewrite Etry in E. exists l. split; [exact E|by left]. }
  2: { destruct (Hs t2) as (l & E & N). rewrite Etry in E. exists l. split; [exact E|by left]. }
  apply try_allocate, allocate_inv in Etry as (l1 & E1 & N1 & Ha).
  enough (Hk : calls_of (submits_once c (fun _ m' => m' = stake)) (k (Some stake)) t3).
  { destruct Hk as (l2 & E2 & Hl2). exists (l1 ++ l2). rewrite E2, E1, app_assoc. split; [done|].
    destruct Hl2 as [N2|(before & q & outcome & after & -> & N2 & N3 & Em & Hq)]; [left; by apply Forall_app|].
    right. exists (l1 ++ before), q, outcome, after. rewrite app_assoc. split; [done|]. split; [by apply Forall_app|].
    split; [done|]. split; [|done]. destruct Ha as [r Hr]. exists r. rewrite Em. set_solver. }
  unfold k. apply calls_bind; [typeclasses eauto|apply frame_talks; unfold build_request; steps_solve|intros q t4 [Hm Hq]%build_request_inv].
  apply calls_bind; [typeclasses eauto|apply frame_talks; auto with steps|intros before t5 _].
  apply calls_bind; [typeclasses eauto|auto with steps|intros latency t6 _].
  apply calls_bind; [typeclasses eauto|apply frame_talks; auto with steps|intros _ t7 _].
  match goal with |- calls_of _ (_ ≫= ?k') _ =>
    destruct (submit_calls q (rejected_with "BOT_ENTRY_REJECTED_") k' t7) as (outcome & after & N & E) end.
  { intros [ids|]; [apply talks_after; typeclasses eauto|auto with steps]. }
  eexists. split; [exact E|]. right. exists [], q, outcome, after. split; [done|]. split; [constructor|done].
Qed.

Lemma evaluation_grows t : exists calls, log (snd (evaluate_once params t)) = log t ++ calls.
Proof.
  rewrite evaluate_split. pose proof (remembers_choose params quiet_log t) as [(l & El & Nl) _ _ _].
  destruct (choose params t) as [[[n [[[c config] step]|]]|e] t1]; [|by exists l..].
  destruct (enter_signal_calls n c config step t1) as (l2 & E2 & _). exists (l ++ l2). unfold log in *. simpl in El.
  by rewrite E2, El, app_assoc.
Qed.

(** C10: whatever its collaborators answer, an evaluation submits at most one order.  Before
    it does, the operator is seen armed, the dispatcher started, the health gate open,
    the telemetry that of a connected Demo account, and no order is in flight; the
    signal is of a strategy that may be executed, it was not evaluated before and is later
    than what was there when the bot was armed, and it has the edge that the configuration
    demands, unless it is the payout session.  The order is the request for that signal at
    the stake that the ledger has allocated. *)
Theorem entries_are_guarded t :
  exists calls, log (snd (evaluate_once params t)) = log t ++ calls /\
  (no_submission calls \/
   exists c config before q outcome after,
     chosen params t = Some c /\ calls = before ++ CalledSubmit q outcome :: after /\
     no_submission before /\ no_submission after /\ justified t config c before /\ allocated before (rq_amount q) /\
     q = request_for params c (rq_amount q) (rq_correlation_id q) (rq_deadline_at q)).
Proof.
  rewrite evaluate_split. unfold chosen. pose proof (remembers_choose params quiet_log t) as [(l & El & Nl) _ _ _].
  destruct (choose params t) as [[[n [[[c config] step]|]]|e] t1] eqn:Ech; [|exists l; split; [exact El|by left]..].
  clear l El Nl. apply choose_inv in Ech as (l1 & E1 & N1 & J).
  destruct (enter_signal_calls n c config step t1) as (l2 & E2 & H2). exists (l1 ++ l2). rewrite E2, E1, app_assoc. split; [done|].
  destruct H2 as [N2|(before & q & outcome & after & -> & N2 & N3 & [r Hr] & Hq)]; [left; by apply Forall_app|].
  right. exists c, config, (l1 ++ before), q, outcome, after. rewrite app_assoc. split; [done|]. split; [done|].
  split; [by apply Forall_app|]. split; [done|]. split; [by apply justified_more|]. split; [exists r; set_solver|done].
Qed.
End guarded.

(** ** Histories *)

Inductive trader_op : Type :=
| OpEvaluate | OpProcess | OpTick | OpOrderEvent (event : BrokerOrderEvent) (result : BrokerEventApplyResult)
| OpBeginRun | OpResume | OpReload (report_divergence : bool) | OpStart | OpStop.

Section histories.
Context {W : Type} `{TraderWorld W}.
Variable params : TraderParams.
Implicit Types t : trader W.

(** The state after a call, also if it raised. *)
Definition run_trader_op (op : trader_op) t : trader W :=
  match op with
  | OpEvaluate => snd (evaluate_once params t)
  | OpProcess => snd (process_pending_once params t)
  | OpTick => snd (notify_tick t)
  | OpOrderEvent event result => snd (notify_order_event event result t)
  | OpBeginRun => snd (begin_new_run t)
  | OpResume => snd (manual_resume t)
  | OpReload report => snd (reload_runtime_caches report t)
  | OpStart => snd (start_trader t)
  | OpStop => snd (stop_trader t)
  end.

Definition run_trader (ops : list trader_op) t : trader W := fold_left (fun t op => run_trader_op op t) ops t.
End histories.

(** ** One order at a time *)

Section in_flight.
Context {W : Type} `{TraderWorld W}.
Variable params : TraderParams.
Abbreviation recorder := (trader (W * list world_call)).
Implicit Types t : recorder.

(** The trader counts an order as in flight, or does not know. *)
Definition blocked (order_id : string) t : Prop :=
  match tr_inflight_order_ids t with None => True | Some ids => order_id ∈ ids end.

(** The end of an order is reported. *)
Definition releases (order_id : string) (op : trader_op) : bool :=
  match op with
  | OpOrderEvent event result =>
      String.eqb (bo_client_order_ref event) order_id &&
      match ar_order_state result with
      | Some state => is_terminal state && negb (bool_decide (ar_status result = EV_CONFLICT))
      | None => false
      end
  | _ => false
  end.

(** The store listed the order among those that are not terminal, whenever it was asked. *)
Definition still_listed (order_id : string) (calls : list world_call) : Prop :=
  forall rows, CalledOrders rows ∈ calls -> order_id ∈ inflight_of rows.

Section waiting.
Variables (order_id : string) (t0 : recorder).

Definition waiting t : Prop :=
  exists calls, log t = log t0 ++ calls /\ (still_listed order_id calls -> no_submission calls /\ blocked order_id t).

Definition waits t t' : Prop := waiting t -> waiting t'.

#[local] Instance waits_preorder : PreOrder waits.
Proof. split; [intros t Ht; exact Ht|]. intros t1 t2 t3 H1 H2 Ht. by apply H2, H1. Qed.

(** Nothing is submitted, and the orders in flight are kept. *)
Definition calm t t' : Prop := quiet_log (tr_world t) (tr_world t') /\ tr_inflight_order_ids t' = tr_inflight_order_ids t.

#[local] Instance calm_preorder : PreOrder calm.
Proof.
  split; [intros t; split; reflexivity|]. intros t1 t2 t3 [] []. split; [by transitivity (tr_world t2)|congruence].
Qed.

Lemma still_listed_app l1 l2 : still_listed order_id (l1 ++ l2) -> still_listed order_id l1 /\ still_listed order_id l2.
Proof. intros Hl. split; intros rows Hr; apply Hl; set_solver. Qed.

Lemma calm_waits t t' : calm t t' -> waits t t'.
Proof.
  intros [(l & E & N) Ei] (calls & E0 & Hc). exists (calls ++ l). unfold log in *. rewrite E, E0, app_assoc. split; [done|].
  intros [Hl _]%still_listed_app. destruct (Hc Hl) as [N0 Hb]. split; [by apply Forall_app|]. unfold blocked. by rewrite Ei.
Qed.

Lemma calm_steps {A} (m : py recorder A) : steps calm m -> steps waits m.
Proof. apply steps_mono, calm_waits. Qed.

Lemma frame_calm {A} (m : py recorder A) : steps (untouched quiet_log) m -> steps calm m.
Proof. apply steps_mono. intros s s' []. by split. Qed.

Lemma calm_py_modify (f : recorder -> recorder) :
  (forall t, tr_world (f t) = tr_world t /\ tr_inflight_order_ids (f t) = tr_inflight_order_ids t) -> steps calm (py_modify f).
Proof. intros Hf t. destruct (Hf t) as [E1 E2]. split; simpl; [rewrite E1; reflexivity|done]. Qed.

#[local] Hint Extern 1 (steps calm (with_world _)) => (apply frame_calm; auto with steps) : steps.
#[local] Hint Extern 1 (steps calm monotonic) => (apply frame_calm; auto with steps) : steps.
#[local] Hint Extern 1 (steps calm digit_config) => (apply frame_calm; auto with steps) : steps.
#[local] Hint Extern 1 (steps calm (emit _)) => (apply frame_calm; auto with steps) : steps.
#[local] Hint Extern 1 (steps calm (set_reason _ _ _ _ _)) => (apply frame_calm; auto with steps) : steps.
#[local] Hint Extern 3 (steps calm (py_modify _)) => (apply calm_py_modify; intros ?; split; reflexivity) : steps.

Lemma calm_notify : steps calm notify.
Proof. unfold notify. steps_solve. Qed.
#[local] Hint Resolve calm_notify : steps.

Lemma calm_begin : steps calm begin_new_run.
Proof. unfold begin_new_run, was_waiting. steps_solve. Qed.
#[local] Hint Resolve calm_begin : steps.

Lemma calm_resume : steps calm manual_resume.
Proof. unfold manual_resume. steps_solve. Qed.

Lemma calm_start : steps calm start_trader.
Proof. unfold start_trader. steps_solve. Qed.

(** An evaluation does nothing while an order is in flight. *)
Lemma blocked_evaluation t : blocked order_id t -> calm t (snd (evaluate_once params t)).
Proof.
  intros Hb. rewrite evaluate_split. pose proof (remembers_choose params quiet_log t) as [Hw _ _ Hi].
  destruct (choose params t) as [[[n [[[c config] step]|]]|e] t1] eqn:Ech; [|by split..].
  apply choose_inv in Ech as (l & _ & _ & J).
  pose proof (gu_inflight _ _ _ (ju_guarded _ _ _ _ J)) as Hi0. unfold blocked in Hb. rewrite Hi0 in Hb. set_solver.
Qed.

Lemma waits_evaluate : steps waits (evaluate_once params).
Proof.
  intros t (calls & E0 & Hc). destruct (evaluation_grows params t) as (l & E). exists (calls ++ l).
  rewrite E, E0, app_assoc. split; [done|]. intros [Hl _]%still_listed_app. destruct (Hc Hl) as [N0 Hb].
  destruct (blocked_evaluation t Hb) as [(l' & E' & N') Ei]. unfold log in E. rewrite E in E'. apply app_inv_head in E'. subst l'.
  split; [by apply Forall_app|]. unfold blocked. by rewrite Ei.
Qed.
#[local] Hint Resolve waits_evaluate : steps.
#[local] Hint Extern 2 (steps waits (with_world _)) => (apply calm_steps; auto with steps) : steps.
#[local] Hint Extern 2 (steps waits monotonic) => (apply calm_steps; auto with steps) : steps.
#[local] Hint Extern 3 (steps waits (py_modify _)) => (apply calm_steps; auto with steps) : steps.
#[local] Hint Extern 2 (PreOrder waits) => exact waits_preorder : typeclass_instances.

Lemma waits_process : steps waits (process_pending_once params).
Proof. unfold process_pending_once. steps_solve. Qed.

Lemma calm_load rows d : steps calm (load_performance rows d).
Proof. revert d. induction rows as [|row rows IH]; intros d; simpl; steps_solve. Qed.
#[local] Hint Resolve calm_load : steps.

Lemma read_caches_calls t r t' :
  read_caches t = (r, t') ->
  exists calls, log t' = log t ++ calls /\ no_submission calls /\ tr_inflight_order_ids t' = tr_inflight_order_ids t /\
    forall x, r = Ok x -> exists rows, CalledOrders rows ∈ calls /\ fst (fst x) = inflight_of rows.
Proof.
  intros Hrun. assert (Hs : steps calm read_caches) by (unfold read_caches; steps_solve).
  destruct (steps_run _ _ _ _ _ Hs Hrun) as [(l & E & N) Ei]. exists l. split; [done|]. split; [done|]. split; [done|].
  intros x ->. unfold read_caches in Hrun. py_inv Hrun.
  match goal with E1 : with_world world_nonterminal_orders _ = _ |- _ => apply with_recorded in E1 as [w ->] end.
  match goal with E1 : load_performance _ _ _ = _ |- _ => apply (steps_run calm) in E1 as [(l1 & E1' & _) _]; [|auto with steps] end.
  match goal with E1 : with_world world_session_started_at _ = _ |- _ => apply with_recorded in E1 as [? ->] end.
  match goal with E1 : with_world (world_recent_settlements _) _ = _ |- _ => apply with_recorded in E1 as [? ->] end.
  unfold log in *. simpl in *. rewrite E1', !app_nil_r, <- app_assoc in E. apply app_inv_head in E as <-.
  eexists. split; [by left|done].
Qed.

Definition report_reload (report : bool) (inflight : gset string) : py recorder unit :=
  previous ← py_gets tr_inflight_order_ids;
  match previous with
  | Some ids =>
      if report && negb (bool_decide (ids = inflight))
      then emit (InflightCacheDivergence (Z.of_nat (size ids)) (Z.of_nat (size inflight)))
      else mret tt
  | None => mret tt
  end.

(** A reload in three parts. *)
Lemma reload_split report t :
  reload_runtime_caches report t =
  match read_caches t with
  | (Ok (inflight, scopes, performance), t1) =>
      (_ ← report_reload report inflight;
       py_modify (fun t => t <| tr_inflight_order_ids := Some inflight |> <| tr_order_scope := scopes |>
                            <| tr_performance := performance |> <| tr_performance_cache_initialized := true |>)) t1
  | (Err _, t1) =>
      (_ ← py_modify (fun t => t <| tr_inflight_order_ids := None |> <| tr_performance_cache_initialized := false |>);
       emit RuntimeCacheReloadFailed) t1
  end.
Proof.
  unfold reload_runtime_caches, report_reload. rewrite py_bind_run. unfold py_try. rewrite py_bind_run.
  destruct (read_caches t) as [[[[ids scopes] performance]|e] t1]; [|done]. simpl. rewrite !py_bind_run. simpl.
  by destruct (tr_inflight_order_ids t1).
Qed.

Lemma waits_reload report : steps waits (reload_runtime_caches report).
Proof.
  intros t (calls & E0 & Hc). rewrite reload_split.
  destruct (read_caches t) as [r t1] eqn:Er. apply read_caches_calls in Er as (l & E & N & Ei & Hx).
  destruct r as [[[ids scopes] performance]|e].
  - assert (Hs : steps calm (report_reload report ids)) by (unfold report_reload; steps_solve).
    rewrite py_bind_run. specialize (Hs t1). destruct (report_reload report ids t1) as [[u|e] t2]; simpl in Hs.
    + destruct Hs as [(l2 & E2 & N2) Ei2]. exists (calls ++ l ++ l2). unfold log in *. simpl. rewrite E2, E, E0, <- !app_assoc.
      split; [done|]. intros [Hl [Hl1 _]%still_listed_app]%still_listed_app. destruct (Hc Hl) as [N0 _].
      split; [by repeat (apply Forall_app; split)|]. destruct (Hx _ eq_refl) as (rows & Hr & Hids). unfold blocked. simpl in *.
      rewrite Hids. by apply Hl1.
    + apply (calm_waits t1 t2 Hs), (calm_waits t t1); [by split; [exists l|]|by exists calls].
  - set (t2 := snd (py_modify (fun t => t <| tr_inflight_order_ids := None |> <| tr_performance_cache_initialized := false |>) t1)).
    assert (Hw : waiting t2).
    { exists (calls ++ l). unfold log in *. simpl. rewrite E, E0, <- app_assoc. split; [done|].
      intros [Hl _]%still_listed_app. destruct (Hc Hl) as [N0 _]. split; [by apply Forall_app|done]. }
    assert (Hs : steps calm (emit RuntimeCacheReloadFailed : py recorder unit)) by auto with steps.
    apply (calm_waits _ _ (Hs t2)), Hw.
Qed.

Lemma order_event_world event result t : tr_world (order_event event result t) = tr_world t.
Proof. unfold order_event, record_settlement. repeat (case_match; simpl; try done). Qed.

Lemma record_settlement_inflight id pnl at_ t : tr_inflight_order_ids (record_settlement id pnl at_ t) = tr_inflight_order_ids t.
Proof. unfold record_settlement. by repeat (case_match; simpl). Qed.

Lemma order_event_blocked event result t :
  releases order_id (OpOrderEvent event result) = false -> blocked order_id t -> blocked order_id (order_event event result t).
Proof.
  intros Hr Hb. unfold order_event, blocked, releases in *. destruct (ar_order_state result) as [state|]; [|done].
  destruct (bool_decide (ar_status result = EV_CONFLICT)); [done|].
  destruct (tr_inflight_order_ids t) as [ids|] eqn:Ei; [|by rewrite Ei]. destruct (is_terminal state).
  - rewrite andb_true_r in Hr. apply String.eqb_neq in Hr. simpl.
    destruct (bo_result_minor event); [|simpl; set_solver]. destruct (bool_decide (state = SETTLED) && _); [|simpl; set_solver].
    rewrite record_settlement_inflight. simpl. set_solver.
  - simpl. set_solver.
Qed.

Lemma waits_order_event event result :
  releases order_id (OpOrderEvent event result) = false -> steps waits (notify_order_event event result).
Proof.
  intros Hr. unfold notify_order_event. apply steps_bind; [typeclasses eauto| |intros ? ? ? ?; apply calm_steps; auto with steps].
  intros t (calls & E0 & Hc). exists calls. unfold log in *. simpl. rewrite order_event_world. split; [done|].
  intros Hl. destruct (Hc Hl) as [N Hb]. split; [done|]. by apply order_event_blocked.
Qed.

Lemma waits_ops ops t : Forall (fun op => releases order_id op = false) ops -> waits t (run_trader params ops t).
Proof.
  revert t. induction ops as [|op ops IH]; intros t Hops; [by intros Hw|]. apply Forall_cons in Hops as [Hop Hops].
  intros Hw. apply IH; [done|]. destruct op; simpl.
  - by apply waits_evaluate.
  - by apply waits_process.
  - apply (calm_waits _ _ (calm_notify t)), Hw.
  - by apply waits_order_event.
  - apply (calm_waits _ _ (calm_begin t)), Hw.
  - apply (calm_waits _ _ (calm_resume t)), Hw.
  - by apply waits_reload.
  - apply (calm_waits _ _ (calm_start t)), Hw.
  - apply (calm_waits t); [split; reflexivity|done].
Qed.
End waiting.

(** ** A submitted order is in flight *)

Lemma blocked_add id scope t : blocked id (add_inflight id scope t).
Proof. unfold add_inflight, blocked. destruct (tr_inflight_order_ids t) eqn:E; simpl; [set_solver|by rewrite E]. Qed.

(** The store said that an order is terminal. *)
Definition reported_terminal (id : string) (calls : list world_call) : Prop :=
  exists row, CalledOrder id (Some row) ∈ calls /\ o_state row ∈ TERMINAL_STATES.

Lemma order_is_terminal_inv id t t' :
  order_is_terminal id t = (Ok true, t') -> exists calls, log t' = log t ++ calls /\ reported_terminal id calls.
Proof.
  unfold order_is_terminal, py_try. rewrite py_bind_run. unfold with_world, py_zoom, world_order, recording, recorded, log.
  destruct (world_order id (fst (tr_world t))) as [[[row|]|e] w]; simpl; intros Hrun; [|discriminate..].
  injection Hrun as Hs <-. apply bool_decide_eq_true in Hs. simpl. eexists. split; [done|]. exists row. set_solver.
Qed.

Lemma track_inv c ids t r t' :
  po_order_id ids <> "" -> track_submission c ids t = (Ok r, t') ->
  exists calls, log t' = log t ++ calls /\ no_submission calls /\ (blocked (po_order_id ids) t' \/ reported_terminal (po_order_id ids) calls).
Proof.
  intros Hid Hrun. pose proof (talks_track quiet_log c ids) as Ht.
  destruct (steps_run _ _ _ _ _ Ht Hrun) as (l & E & N). exists l. split; [done|]. split; [done|].
  unfold track_submission in Hrun. destruct (String.eqb_spec (po_order_id ids) ""); [done|]. py_inv Hrun.
  destruct x2; simpl in Hrun.
  - right. apply order_is_terminal_inv in Hrun1 as (l2 & E2 & (row & Hr & Hs)).
    destruct (talks_reload quiet_log true (add_inflight (po_order_id ids) (scope_of c) t)) as (l1 & E1 & _).
    rewrite Hrun0 in E1. simpl in E1.
    assert (Hw : tr_world (add_inflight (po_order_id ids) (scope_of c) t) = tr_world t) by (unfold add_inflight; by case_match).
    rewrite Hw in E1.
    destruct (talks_rejection quiet_log (po_message_id ids) x3) as (l3 & E3 & _). rewrite Hrun in E3. simpl in E3.
    unfold log in *. rewrite E3, E2, E1, <- !app_assoc in E. apply app_inv_head in E as <-. exists row. set_solver.
  - left. py_inv Hrun. apply blocked_add.
Qed.

Lemma after_submission_inv c stake now before ids t b t' :
  po_order_id ids <> "" -> after_submission c stake now before ids t = (Ok b, t') ->
  exists calls, log t' = log t ++ calls /\ (blocked (po_order_id ids) t' \/ reported_terminal (po_order_id ids) calls).
Proof.
  intros Hid Hrun. unfold after_submission in Hrun.
  apply py_bind_Ok in Hrun as (after & t1 & H1 & Hrun). apply py_bind_Ok in Hrun as (latency & t2 & H2 & Hrun).
  apply py_bind_Ok in Hrun as (u & t3 & H3 & Hrun). apply py_bind_Ok in Hrun as (u' & t4 & H4 & Hrun).
  apply py_bind_Ok in Hrun as (rejection & t5 & H5 & Hrun).
  apply (steps_run (talks quiet_log)) in H1 as (l1 & E1 & _); [|apply frame_talks; auto with steps].
  apply py_lift_Ok in H2 as [_ ->]. apply py_modify_Ok in H3 as ->.
  apply (steps_run (talks quiet_log)) in H4 as (l4 & E4 & _); [|apply frame_talks; steps_solve].
  apply track_inv in H5 as (l5 & E5 & _ & H5); [|done].
  assert (Hc : calm t5 t').
  { eapply steps_run; [|exact Hrun]. destruct rejection as [reason|].
    - apply frame_calm. steps_solve.
    - apply steps_bind; [apply calm_preorder| |intros ? ? ? ?; apply frame_calm; steps_solve].
      apply calm_py_modify. intros t0. simpl. destruct (tr_performance_probe_remaining t0 !! scope_of c); by split. }
  destruct Hc as [(l6 & E6 & _) Ei]. unfold log in *. simpl in *. exists (l1 ++ l4 ++ l5 ++ l6).
  rewrite E6, E5, E4, E1, <- !app_assoc. split; [done|]. destruct H5 as [Hb|(row & Hr & Hs)].
  - left. unfold blocked. by rewrite Ei.
  - right. exists row. set_solver.
Qed.

(** What is left of a submitted order when the evaluation returns. *)
Definition accounted (outcome : res PersistedOrder) t (after : list world_call) : Prop :=
  forall ids, outcome = Ok ids -> po_order_id ids <> "" ->
  blocked (po_order_id ids) t \/ reported_terminal (po_order_id ids) after.

Lemma submit_accounted q c stake now before t b t' :
  (persisted ← py_try (ids ← with_world (world_submit q); mret (Some ids))
                      (fun e => Some (refuse (rejected_with "BOT_ENTRY_REJECTED_" e)));
   match persisted with
   | None => mret false
   | Some ids => after_submission c stake now before ids
   end) t = (Ok b, t') ->
  exists outcome after, log t' = log t ++ CalledSubmit q outcome :: after /\ no_submission after /\ accounted outcome t' after.
Proof.
  intros Hrun. apply py_bind_Ok in Hrun as (persisted & t1 & H1 & Hrun). unfold py_try in H1. rewrite py_bind_run in H1.
  unfold with_world, py_zoom, world_submit, recording, recorded in H1.
  destruct (world_submit q (fst (tr_world t))) as [[ids|e] w]; simpl in H1.
  - injection H1 as <- <-. pose proof Hrun as (l & E & N)%(steps_run (talks quiet_log)); [|apply talks_after; typeclasses eauto].
    simpl in E. exists (Ok ids), l. split; [unfold log; by rewrite E, <- app_assoc|]. split; [done|].
    intros ids' [= <-] Hid. apply after_submission_inv in Hrun as (l' & E' & Hb); [|done]. unfold log in E'. rewrite E in E'. simpl in E'.
    apply app_inv_head in E' as <-. done.
  - pose proof H1 as (l & E & N)%(steps_run (talks quiet_log)); [|apply frame_talks; auto with steps]. simpl in E.
    destruct persisted as [ids|]; [by apply refuse_nothing in H1|]. apply py_ret_Ok in Hrun as [_ ->].
    exists (Err e), l. split; [unfold log; by rewrite E, <- app_assoc|]. split; [done|]. by intros ids.
Qed.

Lemma enter_accounted n c config step t b t' :
  enter_signal params n (c, config, step) t = (Ok b, t') ->
  exists calls, log t' = log t ++ calls /\
  (no_submission calls \/
   exists before q outcome after, calls = before ++ CalledSubmit q outcome :: after /\ no_submission before /\
     no_submission after /\ accounted outcome t' after).
Proof.
  intros Hrun. unfold enter_signal in Hrun.
  apply py_bind_Ok in Hrun as (now & t1 & H1 & Hrun). apply py_bind_Ok in Hrun as (last & t2 & H2 & Hrun).
  apply (steps_run (talks quiet_log)) in H1 as Q1; [|apply frame_talks; auto with steps]. apply py_gets_Ok in H2 as [_ ->].
  destruct (fltb _ _).
  { apply (steps_run (talks quiet_log)) in Hrun as Q2; [|apply frame_talks; auto with steps].
    destruct (transitivity Q1 Q2) as (l & E & N). exists l. split; [done|by left]. }
  apply py_bind_Ok in Hrun as (stake & t3 & H3 & Hrun).
  apply (steps_run (talks quiet_log)) in H3 as Q3.
  2: { apply steps_try; [typeclasses eauto|apply frame_talks; auto with steps|intros e k' [= <-]; apply frame_talks; auto with steps]. }
  pose proof (transitivity Q1 Q3) as Q. destruct stake as [stake|].
  2: { apply py_ret_Ok in Hrun as [_ ->]. destruct Q as (l & E & N). exists l. split; [done|by left]. }
  apply py_bind_Ok in Hrun as (q & t4 & H4 & Hrun). apply py_bind_Ok in Hrun as (before & t5 & H5 & Hrun).
  apply py_bind_Ok in Hrun as (latency & t6 & H6 & Hrun). apply py_bind_Ok in Hrun as (u & t7 & H7 & Hrun).
  apply (steps_run (talks quiet_log)) in H4 as Q4; [|apply frame_talks; unfold build_request; steps_solve].
  apply (steps_run (talks quiet_log)) in H5 as Q5; [|apply frame_talks; auto with steps].
  apply py_lift_Ok in H6 as [_ ->]. apply py_modify_Ok in H7 as ->.
  destruct (transitivity Q (transitivity Q4 Q5)) as (l & E & N). apply submit_accounted in Hrun as (outcome & after & E' & N' & Ha).
  exists (l ++ CalledSubmit q outcome :: after). unfold log in *. simpl in E'. rewrite E', E, <- app_assoc. split; [done|].
  right. by exists l, q, outcome, after.
Qed.

(** C11: one order at a time.  After an evaluation that submitted an order, either the store
    has reported the order as terminal or, whatever operations follow except an event that
    ends the order, the trader submits nothing and counts the order as in flight, as long as
    the reader goes on to list it.  Reloads that fail, other events and restarts of the
    thread are included. *)
Theorem one_order_at_a_time t b t1 calls q ids ops :
  evaluate_once params t = (Ok b, t1) -> log t1 = log t ++ calls ->
  CalledSubmit q (Ok ids) ∈ calls -> po_order_id ids <> "" ->
  Forall (fun op => releases (po_order_id ids) op = false) ops ->
  reported_terminal (po_order_id ids) calls \/
  exists later, log (run_trader params ops t1) = log t1 ++ later /\
    (still_listed (po_order_id ids) later -> no_submission later /\ blocked (po_order_id ids) (run_trader params ops t1)).
Proof.
  intros Hrun E Hin Hid Hops. rewrite evaluate_split in Hrun. pose proof (remembers_choose params quiet_log t) as [(l & El & Nl) _ _ _].
  destruct (choose params t) as [[[n [[[c config] step]|]]|e] t2]; simpl in El; [| |discriminate].
  2: { injection Hrun as _ <-. unfold log in E. rewrite El in E. apply app_inv_head in E as <-.
       apply (proj1 (Forall_forall _ _) Nl) in Hin. discriminate. }
  apply enter_accounted in Hrun as (l2 & E2 & H2). unfold log in *. rewrite El in E2. rewrite E2, <- app_assoc in E. apply app_inv_head in E as <-.
  apply elem_of_app in Hin as [Hin|Hin]; [by apply (proj1 (Forall_forall _ _) Nl) in Hin|].
  destruct H2 as [N2|(before & q' & outcome & after & -> & N & N' & Ha)]; [by apply (proj1 (Forall_forall _ _) N2) in Hin|].
  apply elem_of_app in Hin as [Hin|[Heq|Hin]%elem_of_cons]; [by apply (proj1 (Forall_forall _ _) N) in Hin| |by apply (proj1 (Forall_forall _ _) N') in Hin].
  injection Heq as <- <-. destruct (Ha ids eq_refl Hid) as [Hb|(row & Hr & Hs)]; [right|left; exists row; set_solver].
  destruct (waits_ops (po_order_id ids) t1 ops t1 Hops) as (later & El' & Hl); [|by exists later].
  exists []. rewrite app_nil_r. split; [done|]. intros _. split; [constructor|done].
Qed.
End in_flight.

(** ** Signals are entered once *)

Section once.
Context {W : Type} `{TraderWorld W}.
Variable params : TraderParams.
Abbreviation recorder := (trader (W * list world_call)).
Implicit Types t : recorder.

Lemma eligible_frame config l t l' t' :
  eligible_candidates config l t = (Ok (Some l'), t') -> untouched quiet_log t t'.
Proof.
  intros Hrun. unfold eligible_candidates in Hrun. trader_cases Hrun.
  all: try (unfold report_blocked in Hrun; trader_cases Hrun). simplify_eq.
  match goal with E : py_map _ _ _ = _ |- _ => apply (steps_run (untouched quiet_log)) in E; [done|] end.
  apply steps_map; [typeclasses eauto|]. intros c. steps_solve.
Qed.

(** A chosen signal is new in the memory. *)
Lemma chosen_remembered t n c config step t' :
  signals_ok t -> choose params t = (Ok (n, Some (c, config, step)), t') ->
  exists fresh, tr_evaluated_signal_order t' = last_n 512 (tr_evaluated_signal_order t ++ fresh) /\ key_of_candidate c ∈ fresh.
Proof.
  intros Hok Hrun. pose proof Hrun as (l & _ & _ & J)%choose_inv. pose proof (ju_fresh _ _ _ _ J) as Hf.
  apply andb_prop in Hf as [Hk%negb_true_iff%bool_decide_eq_false _].
  unfold choose, select_signal, and_then in Hrun. trader_cases Hrun; try discriminate. simplify_eq.
  trader_cases Hrun2; try discriminate. simplify_eq.
  match goal with E : arbitrate_candidates _ _ _ = _ |- _ =>
    apply (frame_before_consumed quiet_log) in E as (t5 & Fa & Hin & Hfor) end.
  match goal with E : eligible_candidates _ _ _ = _ |- _ => apply eligible_frame in E end.
  repeat match goal with E : ?m _ = (Ok _, _) |- _ =>
    apply (steps_run (untouched (W := W * list world_call) quiet_log)) in E; [|by auto with steps] end.
  assert (F : untouched quiet_log t t5) by (repeat (etransitivity; [eassumption|]); reflexivity).
  assert (Hok5 : signals_ok t5) by (by destruct F as [_ Ek Eo _ _]; unfold signals_ok; rewrite Ek, Eo).
  destruct (consumed_signals _ _ _ Hok5 Hfor) as (fresh & E & Hfresh). exists fresh. rewrite E, (fr_order _ _ _ F). split; [done|].
  apply Hfresh; [done|]. rewrite (fr_order _ _ _ F). destruct Hok as [Hs _]. rewrite Hs in Hk. by rewrite elem_of_list_to_set in Hk.
Qed.

(** *** Every operation only adds signals *)

(** Signals are only added, and the epochs at which the bot was armed stay. *)
Definition steady t t' : Prop := signals t t' /\ tr_minimum_signal_epochs t' = tr_minimum_signal_epochs t.

#[local] Instance steady_preorder : PreOrder steady.
Proof. split; [intros t; by split|]. intros t1 t2 t3 [] []. split; [by transitivity t2|congruence]. Qed.

Lemma steady_unchanged t t' :
  tr_evaluated_signal_keys t' = tr_evaluated_signal_keys t -> tr_evaluated_signal_order t' = tr_evaluated_signal_order t ->
  tr_minimum_signal_epochs t' = tr_minimum_signal_epochs t -> steady t t'.
Proof. intros. split; [by apply signals_same|done]. Qed.

Lemma frame_steady {A} (m : py recorder A) : steps (untouched quiet_log) m -> steps steady m.
Proof. apply steps_mono. intros s s' []. by apply steady_unchanged. Qed.

Lemma steady_modify (f : recorder -> recorder) :
  (forall t, tr_evaluated_signal_keys (f t) = tr_evaluated_signal_keys t /\ tr_evaluated_signal_order (f t) = tr_evaluated_signal_order t /\
     tr_minimum_signal_epochs (f t) = tr_minimum_signal_epochs t) ->
  steps steady (py_modify f).
Proof. intros Hf t. destruct (Hf t) as (? & ? & ?). by apply steady_unchanged. Qed.

#[local] Hint Extern 1 (steps steady (with_world _)) => (apply frame_steady; auto with steps) : steps.
#[local] Hint Extern 1 (steps steady monotonic) => (apply frame_steady; auto with steps) : steps.
#[local] Hint Extern 1 (steps steady digit_config) => (apply frame_steady; auto with steps) : steps.
#[local] Hint Extern 1 (steps steady (emit _)) => (apply frame_steady; auto with steps) : steps.
#[local] Hint Extern 1 (steps steady (set_reason _ _ _ _ _)) => (apply frame_steady; auto with steps) : steps.
#[local] Hint Extern 1 (steps steady (plain_reason _)) => (apply frame_steady; auto with steps) : steps.
#[local] Hint Extern 1 (steps steady (skip _)) => (apply frame_steady; auto with steps) : steps.
#[local] Hint Extern 1 (steps steady (refuse _)) => (apply frame_steady; auto with steps) : steps.
#[local] Hint Extern 1 (steps steady (allocate_stake _ _ _ _)) => (apply frame_steady; auto with steps) : steps.
#[local] Hint Extern 3 (steps steady (py_modify _)) => (apply steady_modify; intros ?; by repeat split) : steps.

Lemma steady_load rows d : steps steady (load_performance rows d : py recorder _).
Proof. revert d. induction rows as [|row rows IH]; intros d; simpl; steps_solve. Qed.
#[local] Hint Resolve steady_load : steps.

Lemma steady_try {A} (m : py recorder A) h :
  steps steady m -> (forall e k, h e = Some k -> steps steady k) -> steps steady (py_try m h).
Proof. apply steps_try. typeclasses eauto. Qed.

Lemma steady_reload report : steps steady (reload_runtime_caches report : py recorder _).
Proof.
  unfold reload_runtime_caches, read_caches. apply steps_bind; [typeclasses eauto| |intros ? ? ? ?; steps_solve].
  apply steady_try; [steps_solve|]. intros e k [= <-]. auto with steps.
Qed.
#[local] Hint Resolve steady_reload : steps.

Lemma steady_submit q : steps steady (with_world (world_submit q) : py recorder _).
Proof. apply steps_zoom. intros t. by apply steady_unchanged. Qed.

Lemma steady_track c ids : steps steady (track_submission c ids : py recorder _).
Proof.
  assert (Ha : steps steady (py_modify (add_inflight (po_order_id ids) (scope_of c)) : py recorder _)).
  { apply steady_modify. intros t. unfold add_inflight. by case_match. }
  assert (Hl : forall id, steps steady (order_is_terminal id : py recorder _)).
  { intros id. unfold order_is_terminal. apply steps_bind; [typeclasses eauto| |auto with steps].
    apply steady_try; [auto with steps|]. intros e k [= <-]. auto with steps. }
  assert (Hd : forall id, steps steady (dispatch_rejection_reason id : py recorder _)).
  { intros id. unfold dispatch_rejection_reason. case_match; [auto with steps|]. apply steps_bind; [typeclasses eauto| |auto with steps].
    apply steady_try; [auto with steps|]. intros e k [= <-]. auto with steps. }
  unfold track_submission. steps_solve.
Qed.
#[local] Hint Resolve steady_track : steps.

Lemma steady_consume c : steps steady (consume_performance_probe c : py recorder _).
Proof. apply steady_modify. intros t. simpl. by destruct (tr_performance_probe_remaining t !! scope_of c). Qed.
#[local] Hint Resolve steady_consume : steps.

Lemma steady_enter n x : steps steady (enter_signal params n x : py recorder _).
Proof.
  destruct x as [[c config] step]. unfold enter_signal.
  apply steps_bind; [typeclasses eauto|auto with steps|intros ? ? ? ?]. apply steps_bind; [typeclasses eauto|auto with steps|intros ? ? ? ?].
  case_match; [auto with steps|]. apply steps_bind; [typeclasses eauto| |intros ? ? ? ?].
  - apply steady_try; [auto with steps|]. intros e k [= <-]. auto with steps.
  - case_match; [|auto with steps]. apply steps_bind; [typeclasses eauto|unfold build_request; steps_solve|intros ? ? ? ?].
    do 3 (apply steps_bind; [typeclasses eauto|auto with steps|intros ? ? ? ?]). apply steps_bind; [typeclasses eauto| |intros ? ? ? ?].
    + apply steady_try; [apply steps_bind; [typeclasses eauto|apply steady_submit|auto with steps]|]. intros e k [= <-]. auto with steps.
    + case_match; [unfold after_submission; steps_solve|auto with steps].
Qed.

Lemma steady_evaluate : steps steady (evaluate_once params : py recorder _).
Proof.
  intros t. rewrite evaluate_split. pose proof (remembers_choose params quiet_log t) as [_ Hs He _].
  destruct (choose params t) as [[[n [x|]]|e] t1]; [|by split..]. transitivity t1; [by split|apply steady_enter].
Qed.
#[local] Hint Resolve steady_evaluate : steps.

Lemma steady_notify : steps steady (notify : py recorder _).
Proof. unfold notify. steps_solve. Qed.
#[local] Hint Resolve steady_notify : steps.

(** Arming the bot sets the epochs, and keeps the memory. *)
Definition arms (op : trader_op) : bool := match op with OpBeginRun | OpResume => true | _ => false end.

Lemma steady_op op t : arms op = false -> steady t (run_trader_op params op t).
Proof.
  intros Ha. destruct op; simpl; try discriminate.
  - apply steady_evaluate.
  - enough (Hs : steps steady (process_pending_once params : py recorder _)) by apply Hs.
    unfold process_pending_once. steps_solve.
  - apply steady_notify.
  - enough (Hs : steps steady (notify_order_event event result : py recorder _)) by apply Hs.
    unfold notify_order_event. apply steps_bind; [typeclasses eauto| |auto with steps]. apply steady_modify. intros t'.
    unfold order_event, record_settlement. by repeat (case_match; simpl).
  - apply steady_reload.
  - enough (Hs : steps steady (start_trader : py recorder _)) by apply Hs. unfold start_trader. steps_solve.
  - by apply steady_unchanged.
Qed.

Lemma steady_ops ops t : Forall (fun op => arms op = false) ops -> steady t (run_trader params ops t).
Proof.
  revert t. induction ops as [|op ops IH]; intros t Ha; [reflexivity|]. apply Forall_cons in Ha as [Ha Has].
  simpl. transitivity (run_trader_op params op t); [by apply steady_op|by apply IH].
Qed.

Lemma steady_signals {A} (m : py recorder A) : steps steady m -> steps signals m.
Proof. apply steps_mono. by intros s s' []. Qed.

Lemma signals_begin : steps signals (begin_new_run : py recorder _).
Proof.
  unfold begin_new_run, was_waiting. apply steps_bind; [typeclasses eauto|apply steady_signals; auto with steps|intros snapshot ? ? ?].
  destruct snapshot as [snapshot|]; [|apply steady_signals; steps_solve].
  do 2 (apply steps_bind; [typeclasses eauto|apply steady_signals; auto with steps|intros ? ? ? ?]).
  apply steps_bind; [typeclasses eauto|intros t; by apply signals_same|intros ? ? ? ?]. apply steady_signals. steps_solve.
Qed.

Lemma signals_resume : steps signals (manual_resume : py recorder _).
Proof.
  unfold manual_resume. do 2 (apply steps_bind; [typeclasses eauto|apply steady_signals; auto with steps|intros ? ? ? ?]).
  case_match. case_match; [auto with steps|].
  do 4 (apply steps_bind; [typeclasses eauto|apply steady_signals; auto with steps|intros ? ? ? ?]).
  apply steps_bind; [typeclasses eauto|apply signals_begin|auto with steps].
Qed.

Lemma signals_ops ops t : signals t (run_trader params ops t).
Proof.
  revert t. induction ops as [|op ops IH]; intros t; [reflexivity|]. simpl. transitivity (run_trader_op params op t); [|apply IH].
  destruct (arms op) eqn:Ea; [|by apply (steady_op op t)]. destruct op; try discriminate; simpl.
  - apply signals_begin.
  - apply signals_resume.
Qed.

Lemma chosen_is_fresh t c : chosen params t = Some c -> is_fresh t c = true.
Proof.
  unfold chosen. destruct (choose params t) as [[[n [[[c' config] step]|]]|e] t'] eqn:E; simpl; [|done..].
  intros [= ->]. apply choose_inv in E as (l & _ & _ & J). by apply ju_fresh in J.
Qed.

(** C12: the signal that an evaluation enters is fresh, and it is remembered: whatever
    operations follow, as long as fewer than 512 later signals have been remembered, no
    evaluation enters a signal of the same symbol, strategy and epoch again, be the order
    refused, lost or settled.  The other case is an evaluation that itself remembers more
    signals than the memory holds. *)
Theorem signal_is_entered_once t c :
  signals_ok t -> chosen params t = Some c ->
  let t1 := snd (evaluate_once params t) in
  let key := key_of_candidate c in
  is_fresh t c = true /\
  ((exists before later, tr_evaluated_signal_order t1 = before ++ key :: later /\
     forall ops, let t2 := run_trader params ops t1 in
       (exists fresh, tr_evaluated_signal_order t2 = last_n 512 (tr_evaluated_signal_order t1 ++ fresh)) /\
       forall fresh c', tr_evaluated_signal_order t2 = last_n 512 (tr_evaluated_signal_order t1 ++ fresh) ->
         (length later + length fresh < 512)%nat -> chosen params t2 = Some c' -> key_of_candidate c' <> key)
   \/ ((key ∉ tr_evaluated_signal_order t1) /\ length (tr_evaluated_signal_order t1) = 512%nat)).
Proof.
  intros Hok Hc t1 key. split; [by apply chosen_is_fresh|].
  assert (H1 : signals_ok t1 /\ exists fresh, tr_evaluated_signal_order t1 = last_n 512 (tr_evaluated_signal_order t ++ fresh) /\ key ∈ fresh).
  { unfold t1. rewrite evaluate_split. unfold chosen in Hc. pose proof (re_signals _ _ _ (remembers_choose params quiet_log t) Hok) as [Hok' _].
    destruct (choose params t) as [[[n [[[c' config] step]|]]|e] t'] eqn:E; cbn [fst snd] in *; [|done..]. injection Hc as ->.
    destruct (chosen_remembered _ _ _ _ _ _ Hok E) as (f0 & E0 & Hf0).
    destruct (proj1 (steady_enter n (c, config, step) t') Hok') as [Hok1 [f1 E1]]. split; [done|].
    exists (f0 ++ f1). rewrite E1, E0, last_n_app. split; [done|]. set_solver. }
  destruct H1 as (Hok1 & fresh & E1 & Hin). destruct (decide (key ∈ tr_evaluated_signal_order t1)) as [Hk|Hk].
  - left. apply list_elem_of_split in Hk as (before & later & Ek). exists before, later. split; [done|]. intros ops t2.
    destruct (signals_ops ops t1 Hok1) as [Hok2 [f E2]]. split; [by exists f|]. intros f' c' E2' Hl Hc' Heq.
    apply chosen_is_fresh in Hc'. apply andb_prop in Hc' as [Hn%negb_true_iff%bool_decide_eq_false _]. apply Hn.
    destruct Hok2 as [Hs2 _]. fold t2 in Hs2. rewrite Hs2, elem_of_list_to_set, E2', Ek, Heq. by apply last_n_keeps.
  - right. split; [done|]. rewrite E1. rewrite E1 in Hk. apply list_elem_of_split in Hin as (a & b & ->).
    destruct (decide (length b < 512)%nat) as [Hb|Hb].
    + exfalso. apply Hk. rewrite app_assoc. pose proof (last_n_keeps (tr_evaluated_signal_order t ++ a) b [] key 512) as Hx.
      rewrite app_nil_r in Hx. apply Hx. simpl. lia.
    + unfold last_n. rewrite length_drop, !length_app. simpl. lia.
Qed.

(** What the status and a notification leave in the log: nothing. *)
Definition silent t t' : Prop := log t' = log t /\ tr_minimum_signal_epochs t' = tr_minimum_signal_epochs t.

#[local] Instance silent_preorder : PreOrder silent.
Proof. split; [by intros t|]. intros t1 t2 t3 [] []. split; congruence. Qed.

Lemma silent_monotonic : steps silent monotonic.
Proof.
  apply steps_zoom. intros t. unfold silent, log. simpl. unfold unrecorded, recorded. destruct (world_monotonic _). simpl.
  by rewrite app_nil_r.
Qed.
#[local] Hint Resolve silent_monotonic : steps.
#[local] Hint Extern 3 (steps silent (py_modify _)) => (intros ?; by split) : steps.

Lemma silent_set_reason r x e b d : steps silent (set_reason r x e b d).
Proof. unfold set_reason. steps_solve. Qed.
Lemma silent_notify : steps silent notify.
Proof. unfold notify. steps_solve. Qed.
#[local] Hint Resolve silent_set_reason silent_notify : steps.

Lemma begin_new_run_epochs t t1 calls s config candidates :
  begin_new_run t = (Ok tt, t1) -> log t1 = log t ++ calls -> CalledTelemetry (Some s) ∈ calls -> CalledConfig config ∈ calls ->
  execution_candidates s (dc_auto_select_symbol config) = Ok candidates -> tr_minimum_signal_epochs t1 = epochs_of candidates.
Proof.
  intros Hrun E Ht Hcfg Hcand. unfold begin_new_run, was_waiting, digit_config in Hrun.
  apply py_bind_Ok in Hrun as (snapshot & t2 & H1 & Hrun). apply with_recorded in H1 as [w ->]. destruct snapshot as [snapshot|].
  - apply py_bind_Ok in Hrun as (config' & t3 & H3 & Hrun). apply with_recorded in H3 as [w' ->].
    apply py_bind_Ok in Hrun as (l & t4 & H4 & Hrun). apply py_lift_Ok in H4 as [H4 ->].
    apply py_bind_Ok in Hrun as (u & t5 & H5 & Hrun). apply py_modify_Ok in H5 as ->.
    apply (steps_run silent) in Hrun as [El Ee]; [|steps_solve]. unfold log in *. simpl in *. rewrite E, <- app_assoc in El.
    apply app_inv_head in El as ->. simpl in *.
    apply elem_of_cons in Ht as [[= ->]|Ht%list_elem_of_singleton]; [|discriminate].
    apply elem_of_cons in Hcfg as [Hcfg|Hcfg%list_elem_of_singleton]; [discriminate|injection Hcfg as ->].
    rewrite Ee. simpl. congruence.
  - apply (steps_run silent) in Hrun as [El _]; [|steps_solve]. unfold log in *. simpl in *. rewrite E in El. apply app_inv_head in El as ->.
    apply list_elem_of_singleton in Ht. discriminate.
Qed.

(** After the bot is armed it enters only signals with a later epoch than the one its strategy
    showed on the symbol at that time, until it is armed again. *)
Lemma armed_run_needs_new_signals t t1 calls s config candidates ops c :
  begin_new_run t = (Ok tt, t1) -> log t1 = log t ++ calls ->
  CalledTelemetry (Some s) ∈ calls -> CalledConfig config ∈ calls ->
  execution_candidates s (dc_auto_select_symbol config) = Ok candidates ->
  Forall (fun op => arms op = false) ops -> chosen params (run_trader params ops t1) = Some c ->
  default (-1) (epochs_of candidates !! (ec_symbol c, ec_strategy_id c)) < ec_epoch c.
Proof.
  intros Hrun E Ht Hcfg Hcand Hops Hc.
  assert (He : tr_minimum_signal_epochs t1 = epochs_of candidates).
  { by eapply begin_new_run_epochs. }
  apply chosen_is_fresh in Hc. apply andb_prop in Hc as [_ Hlt%Z.ltb_lt].
  destruct (steady_ops ops t1 Hops) as [_ E2]. by rewrite E2, He in Hlt.
Qed.
End once.

(** ** The trader over the core

    The world of the trader that the lifecycle service builds: the modelled runtime with its
    ledger, gate, coordinator and store.  What comes from outside (clocks, telemetry, the
    operator, identifiers, the worker, quotes) is any function of the number of calls. *)

Record surroundings : Type := mk_surroundings {
  su_monotonic : nat -> float; su_ledger_clock : nat -> clock; su_utc : nat -> datetime; su_uuid : nat -> string;
  su_armed : nat -> bool; su_telemetry : nat -> option DerivTelemetrySnapshot; su_wait : nat -> bool;
  su_ids : nat -> PersistedOrder; su_worker : nat -> OrderSubmissionPort; su_authorization : nat -> option (res unit);
  su_quote : nat -> res dec; su_proposals : nat -> PayoutRoutedDiffersProposalCache; su_text : exn -> string
}.

Record desk : Type := mk_desk { dk_runtime : runtime; dk_calls : nat; dk_events : list trader_event }.

#[export] Instance desk_eta : Eta desk := fun d => mk_desk (dk_runtime d) (dk_calls d) (dk_events d).

Section desk.
Variable inject : string -> option exn.
Variable fp : DigitRiskConfig -> string.
Variable float_str : pydec -> string.
Variable around : surroundings.

(** The next reading of something outside. *)
Definition outside {A} (f : nat -> A) : py desk A := fun d => (Ok (f (dk_calls d)), d <| dk_calls ::= S |>).

Definition at_core {A} (m : core_m A) : py desk A := py_zoom dk_runtime (fun r d => d <| dk_runtime := r |>) (on_core m).

Definition of_ledger {A} (f : RiskLedger -> A) : py desk A := py_gets (fun d => f (c_ledger (rt_core (dk_runtime d)))).
Definition of_store {A} (f : state_db -> A) : py desk A := py_gets (fun d => f (store (rt_core (dk_runtime d)))).

Definition desk_submit (q : OrderRequest) : py desk PersistedOrder :=
  worker ← outside (su_worker around);
  authorization ← outside (su_authorization around);
  ids ← outside (su_ids around);
  k1 ← outside (su_ledger_clock around);
  k2 ← outside (su_ledger_clock around);
  created_at ← outside (su_utc around);
  dispatch_time ← outside (su_utc around);
  recorded_at ← outside (su_utc around);
  at_core (submit inject fp worker authorization q true ids k1 k2 created_at dispatch_time recorded_at).

#[local] Instance desk_world : TraderWorld desk := {|
  world_monotonic := outside (su_monotonic around);
  world_utc := outside (su_utc around);
  world_utc_now := outside (su_utc around);
  world_uuid := outside (su_uuid around);
  world_armed := outside (su_armed around);
  world_telemetry := outside (su_telemetry around);
  world_emit := fun e => py_modify (fun d => d <| dk_events ::= fun l => l ++ [e] |>);
  world_arbitrated := fun _ _ => mret tt;
  world_wait := fun _ => outside (su_wait around);
  world_exn_text := su_text around;
  world_dispatcher_started := py_gets (fun d => rt_dispatcher_started (dk_runtime d));
  world_gate_state := py_gets (fun d => gate_state (c_gate (rt_core (dk_runtime d))));
  world_digit_config := of_ledger rl_digit_config;
  world_refresh_gate := k ← outside (su_ledger_clock around); at_core (refresh_digit_health_gate fp (ck_monotonic k) (ck_utc k));
  world_digit_metrics := k ← outside (su_ledger_clock around); r ← of_ledger (get_digit_metrics (ck_monotonic k)); py_lift r;
  world_reset_ledger := at_core (reset_digit_recovery_state true);
  world_reset_recovery := now ← outside (su_utc around); at_core (reset_digit_recovery_state_runtime fp float_str now);
  world_entry_stake := fun ratio =>
    k ← outside (su_ledger_clock around); at_core (digit_entry_stake fp true ratio (ck_monotonic k) (ck_utc k));
  world_submit := desk_submit;
  world_quote := fun _ _ _ _ _ => q ← outside (su_quote around); py_lift q;
  world_select_proposal := fun n =>
    cache ← outside (su_proposals around); symbol ← of_ledger (fun r => dc_selected_symbol (rl_digit_config r));
    py_lift (select_quote n (Some symbol) [] cache);
  world_nonterminal_orders := of_store list_nonterminal_orders;
  world_session_started_at := r ← of_store digit_test_session_started_at; py_lift r;
  world_recent_settlements := fun since => r ← of_store (deriv_recent_strategy_settlements 30 since); py_lift r;
  world_order := fun id => of_store (fun s => fetchone (fun o => bool_decide (o_order_id o = id)) (orders s));
  world_outbox_message := fun id => of_store (fun s => fetchone (fun m => bool_decide (om_message_id m = id)) (outbox_messages s))
|}.
End desk.

(** ** A desk that trades *)

Module TraderSample.
Import Sample.

(** A signal of the tail strategy on an epoch. *)
Definition tail_signal (symbol : string) (epoch : Z) : DigitStrategyProjection :=
  mk_DigitStrategyProjection "tail-probability-edge" SHADOW_SIGNAL (Some epoch) (Some symbol) (Some "DIGITDIFF") (Some "CALL") (Some 5)
    (Some (mk_dec 920 (-1))) (Some (mk_dec 905 (-1))) 40.

Definition live (symbol : string) (epoch : Z) : DerivTelemetrySnapshot :=
  mk_DerivTelemetrySnapshot DEMO_LIVE true (Some (mk_DigitFrequencySnapshot "R_100" 500)) [] [] [tail_signal symbol epoch].

(** A new signal whenever the telemetry is read. *)
Definition ticking (symbol : string) (n : nat) : option DerivTelemetrySnapshot := Some (live symbol (Z.of_nat n)).

Definition params : TraderParams :=
  mk_TraderParams "A1" 30 (float_of_Z 0) (float_of_Z 0) false false false.

Definition no_proposals : PayoutRoutedDiffersProposalCache :=
  mk_PayoutRoutedDiffersProposalCache default_config ∅ DiffersSample.budget None ∅.

Definition ids (n : nat) : PersistedOrder :=
  let k := encode_int (Z.of_nat n) "" in mk_PersistedOrder ("i" +:+ k) ("r" +:+ k) ("m" +:+ k) ("o" +:+ k).

(** An armed operator and a worker that loses every response; every reading of the clock is
    100 seconds after the previous one. *)
Definition around (utc : datetime) (symbol : string) : surroundings :=
  mk_surroundings (fun n => float_of_Z (1000 + 100 * Z.of_nat n)) (fun _ => at_half_past) (fun _ => utc)
    (fun n => encode_int (Z.of_nat n) "") (fun _ => true) (ticking symbol) (fun _ => false) ids (fun _ => lost_response) (fun _ => None)
    (fun _ => Ok (mk_dec 95 (-2))) (fun _ => no_proposals) (fun _ => "").

Definition world (utc : datetime) (symbol : string) : TraderWorld desk :=
  desk_world no_fault sample_fp float_text (around utc symbol).

Definition opened : runtime :=
  run_core no_fault hash sample_fp float_text sample_policy
    [CStart (replying (fun _ => unavailable)) [] default_DigitRiskConfig true boot_clock] switched_off.

Definition arbiter : SignalArbiter := mk_SignalArbiter None 16 [] [].

Definition ticking_world : TraderWorld (desk * list world_call) := recording (H := world (at_ 3) "R_100").

(** The trader that was just built over a runtime. *)
Definition hired `{TraderWorld W} (w : W) : trader W := snd (new_trader params arbiter w).
Definition recorded_trader : trader (desk * list world_call) := hired (H := ticking_world) (mk_desk opened 0 [], []).

(** The configuration of the startup is the only write. *)
Definition opened_ops : list writer_op :=
  [OpConfigureDigit (digit_runtime_policy sample_fp float_text idle_ledger) false (at_ 0)].

(** Ten lost orders of the strategy. *)
Definition lost_trade (i : nat) : list writer_op :=
  let k := encode_int (Z.of_nat i) "" in
  let q := request 100 "A1" in
  let q := mk_OrderRequest (rq_correlation_id q) DERIV "A1" "DIGITEVEN" "R_100" CALL (usd 100) "tail-probability-edge" "1" (at_ 30) 1 "t" None in
  let c := command 100 "A1" ("m" +:+ k) ("i" +:+ k) ("o" +:+ k) in
  [OpPersist q c ("i" +:+ k) ("r" +:+ k) ("o" +:+ k) (at_ 0) (Some 1000) None (Some "USD"); OpClaim (at_ 1) None None;
   OpDispatchResult c "ACCEPTED" (Some ("B" +:+ k)) None (at_ 1);
   OpNormalizedEvent (mk_BrokerOrderEvent ("e" +:+ k) 1 DERIV "A1" ("o" +:+ k) ("B" +:+ k) "corr" (Some 1) EX_SETTLED (at_ 2) (at_ 2)
     "DIGITEVEN" "R_100" CALL (usd 100) (Some (-100)) (Some "USD") "h" None None) (at_ 2)].

Definition lost_ops : list writer_op := opened_ops ++ concat (lost_trade <$> seq 0 10).

Definition with_store (ops : list writer_op) (r : runtime) : runtime :=
  r <| rt_core ::= fun c => c <| c_writer := mk_writer (db_after no_fault hash ops) false |> |>.

(** The evening of the same day. *)
Definition evening : datetime := mk_datetime 2026 1 5 20 0 0 0 (Some 0).

(** What an operator sees after some operations. *)
Definition outcome `{TraderWorld W} (ops : list trader_op) (t : trader W) : string := tr_last_reason (run_trader params ops t).

(** A trader over ten lost orders. *)
Definition loser : trader desk := hired (H := world (at_ 3) "R_100") (mk_desk (with_store lost_ops opened) 0 []).

Definition set_ledger (r : RiskLedger) (t : trader desk) : trader desk :=
  t <| tr_world ::= fun d => d <| dk_runtime ::= fun x => x <| rt_core ::= fun c => c <| c_ledger := r |> |> |> |>.

(** A recovery sequence on R_100 while the signals are on R_50, then an evaluation after its end. *)
Definition pinned : trader desk := run_trader (H := world (at_ 3) "R_50") params [OpEvaluate] (set_ledger recovering_ledger loser).
Definition recovered : trader desk :=
  run_trader (H := world (at_ 3) "R_100") params [OpEvaluate] (set_ledger (c_ledger (rt_core opened)) pinned).

(** The signal that the first evaluation enters. *)
Definition first_signal : ExecutionCandidate :=
  mk_ExecutionCandidate "R_100" "tail-probability-edge" "DIGITDIFF" (Some 5) 4 (mk_dec 920 (-1)) (mk_dec 905 (-1)) 40 EXECUTABLE_SIGNAL None.

Definition calls_of {W} (t t' : trader (W * list world_call)) : list world_call := drop (length (log t)) (log t').
End TraderSample.

(** *** Observed behaviour *)

Section observed.
Import Sample TraderSample.

(** The operator resumes a strategy that lost ten orders; the next reload of the caches brings
    the ten samples back, because it dates them with the time of the reload. *)
Example reload_undoes_manual_resume :
  outcome (H := world (at_ 3) "R_100") [OpEvaluate] loser = "BOT_PERFORMANCE_COOLDOWN" /\
  outcome (H := world (at_ 3) "R_100") [OpResume; OpEvaluate] loser = "BOT_ORDER_SUBMITTED" /\
  outcome (H := world (at_ 3) "R_100") [OpResume; OpReload true; OpEvaluate] loser = "BOT_PERFORMANCE_COOLDOWN".
Proof. vm_compute. done. Qed.

(** Eight hours later new probes are due; a probe whose settlement came with a reload and not
    with an event of the broker holds the strategy back. *)
Example pending_probe_outlives_the_cooldown :
  let awaiting := loser <| tr_performance_probe_pending := {[ ("tail-probability-edge", "R_100") ]} |> in
  outcome (H := world evening "R_100") [OpEvaluate] loser = "BOT_ORDER_SUBMITTED" /\
  outcome (H := world evening "R_100") [OpReload true; OpEvaluate] awaiting = "BOT_PERFORMANCE_COOLDOWN".
Proof. vm_compute. done. Qed.

(** The payout session may trade before the ticks are counted, but without automatic selection
    of the symbol the missing count raises, and the thread has no handler for it. *)
Example missing_frequency_raises :
  let config := default_DigitRiskConfig <| dc_active_strategy_id := PAYOUT_ROUTED_DIFFERS_STRATEGY_ID |> <| dc_auto_select_symbol := false |> in
  let around := mk_surroundings (fun _ => float_of_Z 1000) (fun _ => at_half_past) (fun _ => at_ 3) (fun _ => "") (fun _ => true)
    (fun _ => Some (mk_DerivTelemetrySnapshot DEMO_LIVE true None [] [] [])) (fun _ => false) ids (fun _ => lost_response) (fun _ => None)
    (fun _ => Ok (mk_dec 95 (-2))) (fun _ => no_proposals) (fun _ => "") in
  let w := desk_world no_fault sample_fp float_text around in
  let params := mk_TraderParams "A1" 30 (float_of_Z 0) (float_of_Z 0) false true false in
  let t := snd (new_trader (H := w) params arbiter (mk_desk opened 0 [])) in
  fst (evaluate_once (H := w) params (set_ledger (idle_ledger <| rl_digit_config := config |>) t)) = Err (AssertionError "").
Proof. vm_compute. done. Qed.

(** The time at which a symbol was pinned outlives the recovery sequence: the next sequence on
    the symbol is given up at its first evaluation. *)
Example stale_pin_is_released_at_once :
  tr_last_reason pinned = "BOT_MARTINGALE_ASSET_PINNED" /\ tr_last_reason recovered = "BOT_PERFORMANCE_COOLDOWN" /\
  outcome (H := world (at_ 3) "R_50") [OpEvaluate] (set_ledger recovering_ledger recovered) = "BOT_MARTINGALE_PIN_RELEASED".
Proof. vm_compute. done. Qed.

(** With the default cap the confidence of the operator does not change what is required. *)
Example confidence_is_capped :
  Forall (fun confidence => dec_compare (applied_required (first_signal) (configured_edge_floor (dec_of_Z confidence)) (mk_dec 10 (-1)))
            (mk_dec 915 (-1)) = Eq) [90; 91; 92; 93; 94; 95; 96; 97; 98].
Proof. repeat constructor. Qed.
End observed.

(** *** Witnesses *)

Section witnesses.
Import Sample TraderSample.
#[local] Existing Instance ticking_world.

Abbreviation entered := (snd (evaluate_once params recorded_trader)).
Abbreviation first_order := (mk_PersistedOrder "i14" "r14" "m14" "o14").

Lemma one_order_at_a_time_witness :
  outcome [OpTick; OpReload true; OpEvaluate] entered = "BOT_ORDER_IN_FLIGHT" /\
  (reported_terminal "o14" (calls_of recorded_trader entered) \/
   exists later, log (run_trader params [OpTick; OpReload true; OpEvaluate] entered) = log entered ++ later /\
     (still_listed "o14" later -> no_submission later /\ blocked "o14" (run_trader params [OpTick; OpReload true; OpEvaluate] entered))).
Proof.
  split; [vm_compute; reflexivity|].
  apply (one_order_at_a_time (H := world (at_ 3) "R_100") params recorded_trader true entered (calls_of recorded_trader entered)
    (default (request 0 "") (head (omap (fun x => match x with CalledSubmit q _ => Some q | _ => None end) (log entered)))) first_order
    [OpTick; OpReload true; OpEvaluate]).
  - vm_compute. reflexivity.
  - vm_compute. reflexivity.
  - vm_compute. repeat constructor.
  - discriminate.
  - repeat constructor.
Defined.

Lemma signal_is_entered_once_witness :
  (tr_evaluated_signal_order entered = [key_of_candidate first_signal]) /\ is_fresh recorded_trader first_signal = true /\
  ((exists before later, tr_evaluated_signal_order entered = before ++ key_of_candidate first_signal :: later /\
     forall ops, let t2 := run_trader params ops entered in
       (exists fresh, tr_evaluated_signal_order t2 = last_n 512 (tr_evaluated_signal_order entered ++ fresh)) /\
       forall fresh c', tr_evaluated_signal_order t2 = last_n 512 (tr_evaluated_signal_order entered ++ fresh) ->
         (length later + length fresh < 512)%nat -> chosen params t2 = Some c' -> key_of_candidate c' <> key_of_candidate first_signal)
   \/ ((key_of_candidate first_signal ∉ tr_evaluated_signal_order entered) /\ length (tr_evaluated_signal_order entered) = 512%nat)).
Proof.
  split; [vm_compute; reflexivity|].
  apply (signal_is_entered_once (H := world (at_ 3) "R_100") params recorded_trader first_signal).
  - split; [vm_compute; reflexivity|]. split; [constructor|]. vm_compute. lia.
  - vm_compute. reflexivity.
Defined.

Definition shadow_signal : ExecutionCandidate := first_signal <| ec_epoch := 1 |> <| ec_signal_state := SHADOW_SIGNAL |>.
Definition later_signal : ExecutionCandidate := first_signal <| ec_epoch := 8 |>.
Abbreviation armed := (snd (begin_new_run recorded_trader)).

(** The bot is armed at the signal of epoch 1, and the next evaluation finds a later one. *)
Lemma armed_run_needs_new_signals_witness :
  chosen params (run_trader params [OpTick] armed) = Some later_signal /\
  default (-1) (epochs_of [shadow_signal] !! (ec_symbol later_signal, ec_strategy_id later_signal)) < ec_epoch later_signal.
Proof.
  split; [vm_compute; reflexivity|].
  apply (armed_run_needs_new_signals (H := world (at_ 3) "R_100") params recorded_trader armed (calls_of recorded_trader armed)
    (live "R_100" 1) default_DigitRiskConfig [shadow_signal] [OpTick] later_signal).
  - vm_compute. reflexivity.
  - vm_compute. reflexivity.
  - vm_compute. repeat constructor.
  - vm_compute. repeat constructor.
  - vm_compute. reflexivity.
  - repeat constructor.
  - vm_compute. reflexivity.
Defined.

(** The trader of the desk submits, and the store holds its order. *)
End witnesses.
